(* ===== verification/_CoqProject ===== *)
-Q . S2P
Prelude.v
CStrings.v
Fips180.v
Digest.v
Ws.v
ChatFilter.v
Json.v
HostRelayText.v
Slots.v
Protocol.v
ProtocolProofs.v
Contract.v
Config.v
Rings.v
Rollback.v
RollbackProofs.v
InputHist.v
Quorum.v
HashConfirm.v
CtrlQueue.v
Session.v
SessionState.v
SessionMain.v
SessionProofs.v
SessionStart.v
StateProofs.v
SenderProofs.v
ProbeProofs.v
ProfileProofs.v
BundleProofs.v
StateM.v
Auth.v
AuthProofs.v
SessionStats.v
DriverData.v
Driver.v
DriverEpisode.v
DriverWire.v
DriverMain.v
DriverFrame.v
DriverDemo.v
DriverLive.v
DriverBoot.v
DriverLedger.v
DriverDrain.v
DriverPump.v
DriverArb.v
DriverLockstep.v
DriverReplay.v
SchedData.v
Sched.v
SchedProofs.v
SchedFrames.v
SchedBounds.v
SchedWait.v
SchedDelay.v
NetSim.v
Transport.v
TransportProofs.v
IceAgent.v
IceProofs.v
LinkWorld.v
SessionIce.v
SessionIceProofs.v
SigHold.v
HostIce.v
HostIceProofs.v
Stun.v
Address.v
HostRelay.v
HostRelayProofs.v
IceXfer.v
LanText.v
LanRoom.v
LanRoomHost.v
LanRoomAgree.v
