(* ===== verification/Prelude.v ===== *)
(** * recomp-net: verification library (root file)

    recomp-net is the netplay library of recompiled console games: several
    peers run the same deterministic machine and exchange only inputs. This
    library models the part of it that decides what a peer believes and does,
    translates it function by function from the C sources, and proves what
    makes it correct.

    ** The program's parts, and where they are modelled

    - Wire protocol ([src/protocol/rnet_protocol.c]): encoders, decoder,
      checksum of the datagrams. [Protocol] has the code, [ProtocolProofs]
      its theorems. Encoders write into a buffer of a given capacity and the
      decoder reads at a cursor; a byte outside the buffer is the result
      [Oob], apart from the error return [Fail].
    - Configuration and rings ([include/recomp_net/config.h], [input.h],
      [src/input/rnet_rings.c]): [Config], [Rings].
    - Input contract and history ([src/input/rnet_input_contract.c],
      [rnet_input_hist.c]): [Contract] decides whether a late row rewinds the
      machine; [InputHist] keeps, predicts and promotes rows.
    - Episode engine ([src/rollback/rnet_rollback.c]): [Rollback] has the
      state machine of one correction (seal the rows, agree on the baseline,
      replay, verify, commit); [RollbackProofs] its invariant.
    - Episode quorum and hash confirmation ([rnet_rb_quorum.c],
      [rnet_hash_confirm.c]): [Quorum], [HashConfirm].
    - Session ([src/session/rnet_session.c]): [CtrlQueue] has its message
      queues, [Session] the state and the input plane, [SessionState] blob
      transfers and hash probes, [SessionMain] dispatch, pump, admission and
      host calls, [SessionStats] the statistics. [SessionProofs],
      [SessionStart], [StateProofs], [SenderProofs], [ProbeProofs],
      [ProfileProofs] and [BundleProofs] have the theorems.
    - Rollback driver ([src/rollback/rnet_rb_driver.c]): [DriverData] has the
      state, [Driver], [DriverEpisode], [DriverWire] and [DriverMain] the
      functions, in the source's order, written in the state monad of
      [StateM]. [DriverFrame] shows in one syntax-directed pass what every
      call leaves alone; [DriverLive], [DriverBoot], [DriverLedger],
      [DriverDrain], [DriverPump], [DriverArb], [DriverLockstep] and
      [DriverReplay] have the theorems. [DriverDemo] is a concrete two-seat
      match the driver is evaluated on.
    - Frame scheduler ([src/sched/rnet_sched.c]): [SchedData] has its static
      variables as a record, [Sched] its calls; [SchedFrames] shows that it
      is a scheduler as the driver expects one, [SchedProofs], [SchedWait],
      [SchedBounds] and [SchedDelay] have its theorems.
    - Transport and link simulator ([src/transport/rnet_transport.c],
      [rnet_netsim.c]): [Transport] and [NetSim] have the code, over the
      interface [NetOps] of socket and agent calls; [TransportProofs] and
      [NetSim] the theorems, against the laws [NetLaws].
    - ICE agent ([src/ice/rnet_ice_agent.c]): [IceAgent] over libjuice as the
      interface [Juice], [IceProofs] its theorems. [LinkWorld] shows that the
      modelled agents meet the laws the transport relies on.
    - Session over ICE ([src/session/rnet_session.c], start, relay retry,
      hub adoption): [SessionIce], [SessionIceProofs].
    - Waiting room ([src/nat/rnet_host_ice.c], [rnet_sig_hold.c]):
      [HostIce] has the host's agents, with [HostIceProofs], and [SigHold]
      the held signals.
    - Blob transfer over an agent ([src/lobby/rnet_ice_xfer.c]): [IceXfer].
    - LAN rooms ([src/lobby/rnet_lan_room.c]): [LanRoom] has the packets, the
      host and the guests, over the system's answers as the class [RoomOs];
      [LanRoomHost] has the host's invariant and [LanRoomAgree] the room as a
      step relation on one host and its guests. [LanText] has the line and
      chat helpers the LAN code shares.
    - Host relay ([src/nat/rnet_host_relay.c]): [HostRelayText] has its XML and
      HTTP text, [HostRelay] the discovery and mapping states over a record of
      the network, [HostRelayProofs] the theorems.
    - STUN and addresses ([src/platform/rnet_stun.c], [rnet_address.c]):
      [Stun], [Address].
    - WebSocket ([src/lobby_ws/rnet_ws.c]): [Ws]. Digests
      ([src/auth/rnet_sha256.c], [src/lobby_ws/rnet_sha1.c]): [Digest], with the
      hash of FIPS 180-4 stated on its own in [Fips180]. The JSON scanner of
      [rnet_auth.c]: [Json].
    - Authentication ([src/auth/rnet_auth.c]): [Auth], [AuthProofs]. Chat
      filter ([src/chat/rnet_chat_filter.c]): [ChatFilter].
    - [Slots] has the lemmas on arrays of optional entries, and
      [CStrings] has the C library's string functions that several parts use.

    The session holds the rings and the queues and feeds them from decoded
    packets. The driver owns an episode engine, an input history and one hash
    chain per peer; a poll drains the session's queues, pumps the open episode,
    reconciles late rows through the contract, asks the scheduler, and admits a
    live or a replayed tick.

    ** How the code is represented

    A C integer is a [Z] with its wrap written out ([u8] to [u64], [s8],
    [s32]); a struct is a record with a setter per field; an array is a list
    read and written by index ([rd], [wr]); an enum is an inductive type or
    the source's constants. Functions pass the state explicitly. What lies
    outside the sources is a parameter:
    - [RNetIo] (in [Session]) stands for the clock, the pad, the allocator, the
      sockets and the host's publish callback; what is sent is recorded;
    - [RbHost] is the host's vtable (snapshots, running a tick, digests, row
      decoding, clock), [SnapHost] in [DriverReplay] adds what the host
      documents about its snapshots;
    - [SchedOps] is the scheduler as the driver sees it and [SchedFrame] what
      it promises: it reaches the driver only through the bridge's callbacks,
      asks the hold gate before it admits, and stalls on a missing row under
      lockstep.
    Every class has an instance, and the witnesses run the theorems on it.

    ** What the theorems show

    - Protocol: every message survives encoding and decoding; neither side
      leaves its buffer (but for the short datagrams of the finding); one
      changed byte is always rejected.
    - Input: the ring answers exactly its window; the contract's verdict
      matches its specification; predictions follow the hold-last rule.
    - Episode engine, quorum, hash chain: the invariant over every reachable
      state, sealed rows transferred unchanged, a replay starts only with every
      row, the watermark is monotone, a tick is confirmed only unanimously, the
      quorum and the queues refine their abstract descriptions.
    - Session: a tick is admitted exactly when every seat's row is there and
      confirmed, and plays those rows; a resync drops what belongs to the old
      generation; a blob is delivered unchanged whatever the order of its
      chunks, the sender sends nothing else and completes exactly when every
      receiver has it; startup profiles are agreed.
    - Driver: over any sequence of host calls, with the session and the host
      doing anything in between: a refused match stays refused, no live tick
      passes the boot gate undecided, a correction owed is never lost
      silently, a draining driver opens nothing. A pump commits exactly on
      agreement; an overdue stage ends; two simultaneous initiators keep one
      episode; an aborted replay restores the machine; lockstep invents no
      row; draining the wire terminates.
    - Scheduler: it keeps the interface the driver relies on; a prediction
      stays within the cap and out of lockstep; a row that may be predicted is
      predicted at the third ask at the latest, whatever the driver does
      between the asks of one tick; pacing holds a tick for less than 6 ms; the
      delay changes only for a reason the arrivals gave; all its averages,
      debts and streaks stay bounded; a rematch inherits the delay history
      (a finding).
    - Transport: a receive always ends; a point-to-point socket delivers its
      peer's datagrams only; a hub relays every accepted datagram to every
      other seat, never back, and serves each waiting guest within eight
      receives; the simulator only delays and drops.
    - ICE agent: its receive ring is a bounded queue that sheds its oldest
      entry; with the relay forced, trickled candidates are relays only; a
      frozen agent keeps its link; the description filter keeps candidates
      it means to drop (a finding).
    - Session over ICE: a connected seat keeps its link; the relay retry
      rebuilds exactly the seats that failed; a hub adopts every agent or
      none.
    - Waiting room: held signals are the abstract queue; a signal touches its
      own peer only; a retry's offer and a failed rebuild strand the peer
      (findings).
    - Blob transfer over an agent: whatever the network does with the packets,
      what is handed out is a blob of the sender, and no chunk is written beyond
      the receive buffer; a long failure notice
      overruns its buffer and a lost last acknowledgment stalls the sender for
      good (findings).
    - LAN rooms: the host's roster is always well formed; when the host
      launches, every guest holds the host's roster.
    - Host relay: discovery ends; a mapping released early is never removed
      (a finding).
    - STUN, WebSocket, digests, authentication, chat filter: a parser accepts
      exactly the well-formed answers; what a peer writes is what the other
      reads, however the stream is cut; SHA-256 is the standard's, function by function; a
      stored key is dropped only when the server rejects it; the filter
      masks exactly the longest occurrences of its words, an occurrence being
      described by how a word may be spelled.

    ** Bounds and fuel

    Loops over seats, rows and ticks are folds over the same ranges. A loop
    with no static bound takes fuel, and a theorem or the range shows it is
    enough: the acknowledgment and hash-chain loops take 129 rounds (one more
    than the ring's 128 slots), the bundle loop the length of the window plus
    two, the contiguity loop of a transfer its number of chunks, the loops of
    [rb_drain_wire] 33 and 257 rounds (one more than the queues hold), the
    mod-set loop 9. A transfer over an agent sends in 17 rounds (one more than
    its window of chunks), a port mapping is awaited at its release in 61
    rounds, and a pump of a LAN room reads at most 256 datagrams, as the code
    does.

    ** Not modelled

    LAN discovery (the beacon), the two-seat direct rooms and the file
    registry; the round-trip probes; the lobby client (JSON to a server that is
    not part of the repository); the opening of a browser; threads and
    the system calls themselves, whose answers are parameters. libjuice, which
    is not part of the repository, is the interface [Juice]. Of the driver: log
    lines, [debug_state] and the callback that adopts a mod-set. *)

From stdpp Require Import base list numbers list_numbers.

#[global] Open Scope Z_scope.

(** ** Machine integers

    A [w]-bit C integer is a [Z]; every arithmetic operation of the source
    that can leave the range is followed by an explicit wrap. *)

Definition wrap (w x : Z) : Z := x mod 2 ^ w.
Definition u8 (x : Z) : Z := x mod 256.
Definition u16 (x : Z) : Z := x mod 65536.
Definition u32 (x : Z) : Z := x mod 4294967296.
Definition u64 (x : Z) : Z := x mod 18446744073709551616.

(** Conversion to a signed type of [w] bits (two's complement). *)
Definition s8 (x : Z) : Z := let y := u8 x in if y <? 128 then y else y - 256.
Definition s32 (x : Z) : Z := let y := u32 x in if y <? 2147483648 then y else y - 4294967296.

Definition UINT32_MAX : Z := 4294967295.

Definition in_u8 (x : Z) : Prop := 0 <= x < 256.
Definition in_u16 (x : Z) : Prop := 0 <= x < 65536.
Definition in_u32 (x : Z) : Prop := 0 <= x < 4294967296.
Definition in_u64 (x : Z) : Prop := 0 <= x < 18446744073709551616.
Definition in_s8 (x : Z) : Prop := -128 <= x < 128.
Definition in_s32 (x : Z) : Prop := -2147483648 <= x < 2147483648.

(** C truth value of an integer, and the integer of a C truth value. *)
Definition nz (x : Z) : bool := negb (x =? 0).
Definition b2z (b : bool) : Z := if b then 1 else 0.

(** ** Automation *)

Create HintDb rnet.

(** Turn boolean tests in the context or the goal into propositions. *)
Ltac bool_prop :=
  repeat match goal with
  | H : andb _ _ = true |- _ => apply andb_prop in H; destruct H
  | H : orb _ _ = false |- _ => apply orb_false_elim in H; destruct H
  | H : negb _ = true |- _ => apply negb_true_iff in H
  | H : negb _ = false |- _ => apply negb_false_iff in H
  | H : (_ =? _) = true |- _ => apply Z.eqb_eq in H
  | H : (_ =? _) = false |- _ => apply Z.eqb_neq in H
  | H : (_ <? _) = true |- _ => apply Z.ltb_lt in H
  | H : (_ <? _) = false |- _ => apply Z.ltb_ge in H
  | H : (_ <=? _) = true |- _ => apply Z.leb_le in H
  | H : (_ <=? _) = false |- _ => apply Z.leb_gt in H
  end.

(** Unfold the range predicates and wraps, then arithmetic. *)
Ltac ranges := unfold in_u8, in_u16, in_u32, in_u64, in_s8, in_s32, UINT32_MAX in *.
Ltac mlia := ranges; unfold u8, u16, u32, u64, s8, s32, wrap in *; Z.div_mod_to_equations; lia.

(** Field update of a record: [updater eta proj] builds the function that
    replaces the field [proj], from the record's eta expansion [eta]. *)
Ltac updater eta proj :=
  let e := eval unfold eta in eta in
  let p := eval pattern proj in e in
  lazymatch p with
  | ?F _ => let t := eval cbv beta in (fun v => F (fun _ => v)) in exact t
  end.

Lemma u8_range x : in_u8 (u8 x).
Proof. unfold u8, in_u8. apply Z.mod_pos_bound. lia. Qed.
Lemma u16_range x : in_u16 (u16 x).
Proof. unfold u16, in_u16. apply Z.mod_pos_bound. lia. Qed.
Lemma u32_range x : in_u32 (u32 x).
Proof. unfold u32, in_u32. apply Z.mod_pos_bound. lia. Qed.
Lemma u64_range x : in_u64 (u64 x).
Proof. unfold u64, in_u64. apply Z.mod_pos_bound. lia. Qed.

Lemma u8_id x : in_u8 x -> u8 x = x.
Proof. apply Z.mod_small. Qed.
Lemma u16_id x : in_u16 x -> u16 x = x.
Proof. apply Z.mod_small. Qed.
Lemma u32_id x : in_u32 x -> u32 x = x.
Proof. apply Z.mod_small. Qed.
Lemma u64_id x : in_u64 x -> u64 x = x.
Proof. apply Z.mod_small. Qed.

#[export] Hint Resolve u8_range u16_range u32_range u64_range : rnet.

Lemma s8_u8 x : in_s8 x -> s8 (u8 x) = x.
Proof.
  unfold in_s8, s8, u8. intros H. rewrite Z.mod_mod by lia.
  destruct (Z.ltb_spec (x mod 256) 128); mlia.
Qed.

(** ** Bit masks: bit [i] of a mask is seat [i] *)

Definition bit (i : Z) : Z := Z.shiftl 1 i.
(** [mask & (1u << i)] as a truth value. *)
Definition has_bit (mask i : Z) : bool := nz (Z.land mask (bit i)).

Lemma bit_testbit i j : 0 <= i -> Z.testbit (bit i) j = (i =? j).
Proof.
  intros Hi. unfold bit. rewrite Z.shiftl_1_l.
  destruct (Z.eqb_spec i j) as [->|Hne].
  - by apply Z.pow2_bits_true.
  - by apply Z.pow2_bits_false.
Qed.

Lemma has_bit_testbit mask i : 0 <= i -> has_bit mask i = Z.testbit mask i.
Proof.
  intros Hi. unfold has_bit, nz.
  destruct (Z.testbit mask i) eqn:E.
  - apply negb_true_iff, Z.eqb_neq. intros H0.
    apply (f_equal (fun m => Z.testbit m i)) in H0.
    rewrite Z.land_spec, bit_testbit, E, Z.eqb_refl, Z.bits_0 in H0 by done. done.
  - apply negb_false_iff, Z.eqb_eq. apply Z.bits_inj'. intros j Hj.
    rewrite Z.land_spec, bit_testbit, Z.bits_0 by done.
    destruct (Z.eqb_spec i j) as [->|]; [by rewrite E|by rewrite andb_false_r].
Qed.

Lemma has_bit_lor m1 m2 i : 0 <= i -> has_bit (Z.lor m1 m2) i = has_bit m1 i || has_bit m2 i.
Proof. intros. rewrite !has_bit_testbit by done. apply Z.lor_spec. Qed.
Lemma has_bit_land m1 m2 i : 0 <= i -> has_bit (Z.land m1 m2) i = has_bit m1 i && has_bit m2 i.
Proof. intros. rewrite !has_bit_testbit by done. apply Z.land_spec. Qed.
Lemma has_bit_bit i j : 0 <= i -> 0 <= j -> has_bit (bit i) j = (i =? j).
Proof. intros. rewrite has_bit_testbit by done. by apply bit_testbit. Qed.
Lemma has_bit_0 i : has_bit 0 i = false.
Proof. unfold has_bit. by rewrite Z.land_0_l. Qed.

(** ** C arrays

    A C array is a list of fixed length, indexed by [Z]. [rd d l i] is the
    value of [l[i]] for an index in range ([d] is never observed there), and
    [wr l i x] the array after [l[i] = x]. *)

Definition rd {A} (d : A) (l : list A) (i : Z) : A := nth (Z.to_nat i) l d.
Definition wr {A} (l : list A) (i : Z) (x : A) : list A := <[Z.to_nat i := x]> l.
Definition zlen {A} (l : list A) : Z := Z.of_nat (length l).

Lemma zlen_nonneg {A} (l : list A) : 0 <= zlen l.
Proof. unfold zlen. lia. Qed.
Lemma to_nat_zlen {A} (l : list A) : Z.to_nat (zlen l) = length l.
Proof. apply Nat2Z.id. Qed.
Lemma zlen_app {A} (l k : list A) : zlen (l ++ k) = zlen l + zlen k.
Proof. unfold zlen. rewrite length_app. lia. Qed.
Lemma zlen_cons {A} (x : A) l : zlen (x :: l) = zlen l + 1.
Proof. unfold zlen. cbn [length]. lia. Qed.
Lemma zlen_nil {A} : zlen (@nil A) = 0.
Proof. done. Qed.

Lemma zlen_wr {A} (l : list A) i x : zlen (wr l i x) = zlen l.
Proof. unfold zlen, wr. by rewrite length_insert. Qed.

Lemma rd_wr_eq {A} (d : A) l i x : 0 <= i < zlen l -> rd d (wr l i x) i = x.
Proof.
  unfold rd, wr, zlen. intros H. rewrite nth_lookup.
  rewrite list_lookup_insert_eq; [done|lia].
Qed.

Lemma rd_wr_ne {A} (d : A) l i j x : 0 <= i -> 0 <= j -> i <> j -> rd d (wr l i x) j = rd d l j.
Proof.
  unfold rd, wr. intros Hi Hj Hne. rewrite !nth_lookup.
  rewrite list_lookup_insert_ne; [done|lia].
Qed.

Lemma rd_wr {A} (d : A) l i j x : 0 <= i < zlen l -> 0 <= j ->
  rd d (wr l i x) j = if i =? j then x else rd d l j.
Proof.
  intros Hi Hj. destruct (Z.eqb_spec i j) as [->|Hne].
  - by apply rd_wr_eq.
  - apply rd_wr_ne; lia.
Qed.

Lemma rd_ext (l k : list Z) : zlen l = zlen k -> (forall i, 0 <= i < zlen l -> rd 0 l i = rd 0 k i) -> l = k.
Proof.
  unfold zlen, rd. intros Hl H. apply (nth_ext _ _ 0 0); [lia|].
  intros n Hn. specialize (H (Z.of_nat n)). rewrite !Nat2Z.id in H. apply H. lia.
Qed.

Lemma rd_replicate {A} (d : A) n i : rd d (replicate n d) i = d.
Proof. unfold rd. revert i. generalize (Z.to_nat) as f. intros f i.
  revert n. induction (f i); intros [|m]; simpl; auto. Qed.

Lemma zlen_replicate {A} (d : A) n : zlen (replicate n d) = Z.of_nat n.
Proof. unfold zlen. by rewrite length_replicate. Qed.

(** [memcpy] of [n] bytes into the front of a zeroed array of [cap] bytes. *)
Definition padded (cap : nat) (bs : list Z) : list Z := take cap (bs ++ replicate cap 0).

Lemma length_padded cap bs : length (padded cap bs) = cap.
Proof. unfold padded. rewrite length_take, length_app, length_replicate. lia. Qed.

Lemma take_padded cap bs n : n = length bs -> (n <= cap)%nat -> take n (padded cap bs) = bs.
Proof.
  intros -> H. unfold padded. rewrite take_take, Nat.min_l by lia.
  by rewrite take_app_le, take_ge by lia.
Qed.

(** ** Loops over an index

    [for_upto n f s] runs [f 0], ..., [f (n-1)] on the state. *)

Definition for_upto {S} (n : Z) (f : Z -> S -> S) (s : S) : S :=
  fold_left (fun s i => f i s) (seqZ 0 n) s.

Lemma seqZ_snoc n : 0 <= n -> seqZ 0 (n + 1) = seqZ 0 n ++ [n].
Proof. intros. rewrite seqZ_app by lia. f_equal. Qed.

Lemma for_upto_0 {S} (f : Z -> S -> S) s : for_upto 0 f s = s.
Proof. done. Qed.

Lemma for_upto_succ {S} n (f : Z -> S -> S) s : 0 <= n ->
  for_upto (n + 1) f s = f n (for_upto n f s).
Proof. intros. unfold for_upto. by rewrite seqZ_snoc, fold_left_app by done. Qed.

(** Invariant rule for [for_upto]. *)
Lemma for_upto_ind {S} (P : Z -> S -> Prop) n (f : Z -> S -> S) s :
  0 <= n -> P 0 s -> (forall i t, 0 <= i < n -> P i t -> P (i + 1) (f i t)) ->
  P n (for_upto n f s).
Proof.
  intros Hn H0. revert n Hn. apply (natlike_ind (fun n => _ -> P n (for_upto n f s))).
  - done.
  - intros m Hm IH Hs. unfold Z.succ in *. rewrite for_upto_succ by done.
    apply Hs; [lia|]. apply IH. intros. apply Hs; [lia|done].
Qed.

(** [for (i = a; i < b; ++i)]. *)
Definition for_range {S} (a b : Z) (f : Z -> S -> S) (s : S) : S :=
  fold_left (fun s i => f i s) (seqZ a (b - a)) s.

Lemma for_range_ind {S} (P : Z -> S -> Prop) a b (f : Z -> S -> S) s :
  a <= b -> P a s -> (forall i t, a <= i < b -> P i t -> P (i + 1) (f i t)) ->
  P b (for_range a b f s).
Proof.
  intros Hab H0 Hs. unfold for_range. remember (b - a) as n eqn:En.
  assert (0 <= n) as Hn by lia. revert a s Hab H0 Hs En. 
  apply (natlike_ind (fun n => forall a s, a <= b -> P a s ->
    (forall i t, a <= i < b -> P i t -> P (i + 1) (f i t)) -> n = b - a ->
    P b (fold_left (fun s i => f i s) (seqZ a n) s))); [..|done].
  - intros a s Hab H0 _ En. by replace b with a by lia.
  - intros m Hm IH a s Hab H0 Hs En. rewrite seqZ_cons by lia. simpl. rewrite Z.pred_succ.
    apply IH; [lia|apply Hs; [lia|done]|intros; apply Hs; [lia|done]|lia].
Qed.

(** [forallb] over the seats [0, n). *)
Definition all_upto (n : Z) (p : Z -> bool) : bool := forallb p (seqZ 0 n).

Lemma all_upto_spec n p : all_upto n p = true <-> forall i, 0 <= i < n -> p i = true.
Proof.
  unfold all_upto. rewrite forallb_forall. split.
  - intros H i Hi. apply H. apply list_elem_of_In, elem_of_seqZ. lia.
  - intros H i Hi%list_elem_of_In%elem_of_seqZ. apply H. lia.
Qed.

Lemma all_upto_false n p : all_upto n p = false <-> exists i, 0 <= i < n /\ p i = false.
Proof.
  split.
  - intros H. unfold all_upto in H.
    assert (exists x, In x (seqZ 0 n) /\ p x = false) as (i & Hi & Hp).
    { revert H. induction (seqZ 0 n) as [|a l IH]; simpl; [done|].
      destruct (p a) eqn:E; simpl.
      - intros H. destruct (IH H) as (x & ? & ?). exists x; auto.
      - intros _. exists a. auto. }
    apply list_elem_of_In, elem_of_seqZ in Hi. exists i. split; [lia|done].
  - intros (i & Hi & Hp). apply not_true_is_false. intros Hall.
    rewrite all_upto_spec in Hall. rewrite Hall in Hp by done. done.
Qed.

(** ** Outcomes of C code

    [Ret a]: the call returns [a]; [Fail]: it returns its error value;
    [Oob]: it accesses memory outside the object it was given (undefined
    behaviour in C). *)

Inductive cres (A : Type) : Type :=
| Ret (a : A)
| Fail
| Oob.
Arguments Ret {A} a.
Arguments Fail {A}.
Arguments Oob {A}.

Definition cbind {A B} (m : cres A) (k : A -> cres B) : cres B :=
  match m with Ret a => k a | Fail => Fail | Oob => Oob end.

Declare Scope rnet_scope.
Delimit Scope rnet_scope with rnet.
Notation "'let*' x := m 'in' k" := (cbind m (fun x => k))
  (at level 10, x pattern, m at level 100, k at level 200) : rnet_scope.
#[global] Open Scope rnet_scope.

Lemma cbind_Ret {A B} (m : cres A) (k : A -> cres B) b :
  cbind m k = Ret b -> exists a, m = Ret a /\ k a = Ret b.
Proof. destruct m; simpl; [eauto|done|done]. Qed.

Lemma cbind_not_Oob {A B} (m : cres A) (k : A -> cres B) :
  m <> Oob -> (forall a, m = Ret a -> k a <> Oob) -> cbind m k <> Oob.
Proof. destruct m; simpl; auto. Qed.

(** ** Little-endian integers *)

(** [n] bytes of [v], least significant first. *)
Fixpoint le_bytes (n : nat) (v : Z) : list Z :=
  match n with
  | O => []
  | S m => Z.land v 255 :: le_bytes m (Z.shiftr v 8)
  end.

Fixpoint le_val (bs : list Z) : Z :=
  match bs with
  | [] => 0
  | b :: r => Z.lor b (Z.shiftl (le_val r) 8)
  end.

Lemma length_le_bytes n v : length (le_bytes n v) = n.
Proof. revert v. induction n; intros; simpl; auto. Qed.

Lemma land_255 v : Z.land v 255 = v mod 256.
Proof. change 255 with (Z.ones 8). by rewrite Z.land_ones. Qed.

Lemma le_bytes_range n v : Forall in_u8 (le_bytes n v).
Proof.
  revert v. induction n; intros; simpl; constructor; auto.
  rewrite land_255. apply Z.mod_pos_bound. lia.
Qed.

(** Combining a byte with the value of the bytes above it. *)
Lemma lor_byte b x : in_u8 b -> 0 <= x -> Z.lor b (Z.shiftl x 8) = b + 256 * x.
Proof.
  intros Hb Hx. rewrite Z.shiftl_mul_pow2 by lia.
  assert (Z.land b (x * 2 ^ 8) = 0) as Hdisj.
  { apply Z.bits_inj'. intros i Hi. rewrite Z.land_spec, Z.bits_0.
    destruct (Z.ltb_spec i 8).
    - rewrite Z.mul_pow2_bits_low by lia. by rewrite andb_false_r.
    - rewrite <- (Z.mod_small b (2 ^ 8)) by (change (2 ^ 8) with 256; apply Hb).
      by rewrite Z.mod_pow2_bits_high by lia. }
  rewrite <- Z.lxor_lor, <- Z.add_nocarry_lxor by done. lia.
Qed.

Lemma le_val_nonneg bs : Forall in_u8 bs -> 0 <= le_val bs.
Proof.
  induction 1 as [|b r Hb Hr IH]; simpl; [lia|].
  rewrite lor_byte by done. ranges; lia.
Qed.

Lemma le_val_bytes n v : 0 <= v -> le_val (le_bytes n v) = v mod 2 ^ (8 * Z.of_nat n).
Proof.
  revert v. induction n as [|n IH]; intros v Hv.
  - simpl. change (8 * Z.of_nat 0) with 0. by rewrite Z.mod_1_r.
  - cbn [le_bytes le_val]. rewrite IH by (apply Z.shiftr_nonneg; lia).
    rewrite lor_byte.
    + rewrite land_255, Z.shiftr_div_pow2 by lia.
      replace (8 * Z.of_nat (S n)) with (8 + 8 * Z.of_nat n) by lia.
      rewrite Z.pow_add_r by lia. change (2^8) with 256.
      rewrite Z.rem_mul_r by lia. lia.
    + rewrite land_255. apply Z.mod_pos_bound. lia.
    + apply Z.mod_pos_bound. lia.
Qed.
