(* ===== verification/CStrings.v ===== *)
(** * C strings and the library functions on them that the sources use

    A C string is a [string] without its terminator. *)

From stdpp Require Import base list numbers list_numbers strings.
From S2P Require Import Prelude.

Definition ch (c : Ascii.ascii) : Z := Z.of_nat (Ascii.nat_of_ascii c).
Definition is_space (c : Ascii.ascii) : bool := (ch c =? 32) || ((9 <=? ch c) && (ch c <=? 13)).
Definition is_digit (c : Ascii.ascii) : bool := (48 <=? ch c) && (ch c <=? 57).

Fixpoint skip_space (s : string) : string :=
  match s with
  | String c r => if is_space c then skip_space r else s
  | EmptyString => s
  end.
(** The digits at the front: their value, whether there were any, the rest. *)
Fixpoint read_digits (acc : Z) (any : bool) (s : string) : Z * bool * string :=
  match s with
  | String c r => if is_digit c then read_digits (10 * acc + (ch c - 48)) true r else (acc, any, s)
  | EmptyString => (acc, any, s)
  end.
(** [strtol(v, &end, 10)]: the value and the rest; [None] without digits.
    The value is not cut to a [long]: the callers only compare it with bounds. *)
Definition strtol (v : string) : option (Z * string) :=
  let s := skip_space v in
  let '(neg, s) := match s with
                   | String c r => if ch c =? 45 then (true, r) else if ch c =? 43 then (false, r) else (false, s)
                   | EmptyString => (false, s)
                   end in
  let '(n, any, rest) := read_digits 0 false s in
  if (any : bool) then Some (if (neg : bool) then - n else n, rest) else None.

(** [strtoul] with a 64-bit [unsigned long]: a sign negates modulo 2^64, a
    magnitude that does not fit saturates. *)
Definition ulong (n : Z) : Z := if 18446744073709551616 <=? Z.abs n then 18446744073709551615 else u64 n.
Definition strtoul (v : string) : option (Z * string) := prod_map ulong id <$> strtol v.

(** [strstr(s, pat) != NULL]. *)
Definition strstr (pat s : string) : bool := match String.index 0 pat s with Some _ => true | None => false end.
(** [snprintf(out, cap, "%s", s)], and a string cut to its first [n]
    characters. *)
Definition cut (n : nat) (s : string) : string := String.substring 0 n s.
Definition snprintf_s (cap : nat) (s : string) : string := cut (cap - 1) s.

(** A string as bytes and back. *)
Fixpoint bytes_of (s : string) : list Z :=
  match s with
  | EmptyString => []
  | String c r => Z.of_nat (Ascii.nat_of_ascii c) :: bytes_of r
  end.
Definition chr (b : Z) : Ascii.ascii := Ascii.ascii_of_nat (Z.to_nat b).
Fixpoint string_of (bs : list Z) : string :=
  match bs with [] => EmptyString | b :: r => String (chr b) (string_of r) end.

(** [%u], [%llu]: 20 digits are enough for 64 bits. *)
Definition digit (n : Z) : Ascii.ascii := chr (48 + n).
Fixpoint dec_digits (fuel : nat) (n : Z) (acc : string) : string :=
  match fuel with
  | O => acc
  | S fuel => if n <? 10 then String (digit n) acc else dec_digits fuel (n / 10) (String (digit (n mod 10)) acc)
  end.
Definition print_dec (n : Z) : string := dec_digits 20 n EmptyString.

(** ** A number printed and read back *)

Lemma ch_digit d : 0 <= d < 10 -> ch (digit d) = 48 + d.
Proof.
  intros H. assert (d = 0 \/ d = 1 \/ d = 2 \/ d = 3 \/ d = 4 \/ d = 5 \/ d = 6 \/ d = 7 \/ d = 8 \/ d = 9) as E by lia.
  by repeat destruct E as [->|E]; [..|subst].
Qed.
Lemma is_digit_digit d : 0 <= d < 10 -> is_digit (digit d) = true.
Proof. intros H. unfold is_digit. rewrite ch_digit by done. lia. Qed.
Lemma dec_digits_head fuel : forall n acc, 0 <= n -> exists d r, 0 <= d < 10 /\ dec_digits (S fuel) n acc = String (digit d) r.
Proof.
  induction fuel as [|fuel IH]; intros n acc Hn; cbn [dec_digits]; destruct (Z.ltb_spec n 10).
  - by eexists n, _.
  - exists (n mod 10). eexists. split; [apply Z.mod_pos_bound; lia|done].
  - by eexists n, _.
  - apply (IH (n / 10)). apply Z.div_pos; lia.
Qed.
Lemma read_dec_digits fuel : forall n any acc, 0 <= n < 10 ^ Z.of_nat (S fuel) ->
  read_digits 0 any (dec_digits (S fuel) n acc) = read_digits n true acc.
Proof.
  induction fuel as [|fuel IH]; intros n any acc Hn; cbn [dec_digits]; destruct (Z.ltb_spec n 10) as [L|L].
  - cbn [read_digits]. rewrite is_digit_digit, ch_digit by lia. by replace (10 * 0 + (48 + n - 48)) with n by lia.
  - change (10 ^ Z.of_nat 1) with 10 in Hn. lia.
  - cbn [read_digits]. rewrite is_digit_digit, ch_digit by lia. by replace (10 * 0 + (48 + n - 48)) with n by lia.
  - change (dec_digits (S fuel) (n / 10) (String (digit (n mod 10)) acc)) with
      (dec_digits (S fuel) (n / 10) (String (digit (n mod 10)) acc)).
    rewrite Nat2Z.inj_succ, Z.pow_succ_r in Hn by lia.
    pose proof (Z.mod_pos_bound n 10 ltac:(lia)). pose proof (Z.div_mod n 10 ltac:(lia)).
    pose proof (IH (n / 10) any (String (digit (n mod 10)) acc)) as E. cbn [dec_digits] in E. rewrite E.
    + cbn [read_digits]. rewrite is_digit_digit, ch_digit by done. f_equal. lia.
    + split; [apply Z.div_pos; lia|]. apply Z.div_lt_upper_bound; lia.
Qed.
Lemma print_dec_read n : 0 <= n < 10 ^ 20 -> strtol (print_dec n) = Some (n, EmptyString).
Proof.
  intros Hn. unfold print_dec, strtol.
  destruct (dec_digits_head 19 n EmptyString) as (d & r & Hd & E); [lia|].
  pose proof (read_dec_digits 19 n false EmptyString Hn) as R. rewrite E in R |- *.
  cbn [skip_space]. unfold is_space. rewrite !ch_digit by done.
  replace ((48 + d =? 32) || (9 <=? 48 + d) && (48 + d <=? 13)) with false by lia.
  rewrite !ch_digit by done.
  replace (48 + d =? 45) with false by lia. replace (48 + d =? 43) with false by lia. by rewrite R.
Qed.
Lemma print_dec_strtoul n : 0 <= n < 18446744073709551616 -> strtoul (print_dec n) = Some (n, EmptyString).
Proof.
  intros Hn. unfold strtoul. rewrite print_dec_read by lia. cbn. unfold ulong, prod_map, id. cbn.
  destruct (Z.leb_spec 18446744073709551616 (Z.abs n)); [lia|]. rewrite u64_id; [done|by ranges].
Qed.
Lemma dec_digits_len fuel : forall n k acc, 0 <= n < 10 ^ Z.of_nat (S k) ->
  (String.length (dec_digits fuel n acc) <= S k + String.length acc)%nat.
Proof.
  induction fuel as [|fuel IH]; intros n k acc Hn; cbn [dec_digits]; [lia|].
  destruct (Z.ltb_spec n 10) as [|L]; [cbn; lia|]. destruct k as [|k]; [change (10 ^ Z.of_nat 1) with 10 in Hn; lia|].
  rewrite Nat2Z.inj_succ, Z.pow_succ_r in Hn by lia.
  specialize (IH (n / 10) k (String (digit (n mod 10)) acc)). cbn [String.length] in IH.
  assert (0 <= n / 10 < 10 ^ Z.of_nat (S k)); [|lia]. split; [apply Z.div_pos; lia|apply Z.div_lt_upper_bound; lia].
Qed.
