(* ===== verification/Fips180.v ===== *)
(** * SHA-256 as FIPS 180-4 states it

    The specification the digest of [src/auth/rnet_sha256.c] is compared with.
    Nothing here comes from the program: the operations on words are given by
    their bits, the constants are computed from the primes they are defined by,
    and the message schedule and the rounds follow the equations of the
    standard. *)

From stdpp Require Import base list numbers list_numbers.
From S2P Require Import Prelude.

Module Sha2.

(** ** Words of 32 bits *)

(** The word with the bits [f 0], ..., [f (n - 1)]. *)
Fixpoint of_bits (n : nat) (f : Z -> bool) : Z :=
  match n with
  | O => 0
  | S n => if f (Z.of_nat n) then Z.setbit (of_bits n f) (Z.of_nat n) else of_bits n f
  end.
Definition word (f : Z -> bool) : Z := of_bits 32 f.
Definition plus (x y : Z) : Z := (x + y) mod 2 ^ 32.
Definition xor (x y : Z) : Z := word (fun i => xorb (Z.testbit x i) (Z.testbit y i)).
(** A rotation moves bit [i + n], counted around the word, to bit [i]. *)
Definition ROTR (n x : Z) : Z := word (fun i => Z.testbit x ((i + n) mod 32)).
Definition SHR (n x : Z) : Z := x / 2 ^ n.
(** [x] chooses between [y] and [z]; the majority of the three. *)
Definition Ch (x y z : Z) : Z := word (fun i => if Z.testbit x i then Z.testbit y i else Z.testbit z i).
Definition Maj (x y z : Z) : Z :=
  word (fun i => if Bool.eqb (Z.testbit x i) (Z.testbit y i) then Z.testbit x i else Z.testbit z i).
Definition Sigma0 (x : Z) : Z := xor (xor (ROTR 2 x) (ROTR 13 x)) (ROTR 22 x).
Definition Sigma1 (x : Z) : Z := xor (xor (ROTR 6 x) (ROTR 11 x)) (ROTR 25 x).
Definition sigma0 (x : Z) : Z := xor (xor (ROTR 7 x) (ROTR 18 x)) (SHR 3 x).
Definition sigma1 (x : Z) : Z := xor (xor (ROTR 17 x) (ROTR 19 x)) (SHR 10 x).

(** ** Constants *)

(** The largest [r] below [2 ^ n] with [r ^ 3 <= x]. *)
Fixpoint cbrt (n : nat) (x r : Z) : Z :=
  match n with
  | O => r
  | S n => let r' := r + 2 ^ Z.of_nat n in cbrt n x (if r' ^ 3 <=? x then r' else r)
  end.
Definition is_prime (p : Z) : bool := forallb (fun q => negb (p mod q =? 0)) (seqZ 2 (p - 2)).
Definition primes : list Z := List.filter is_prime (seqZ 2 310).
(** The first 32 bits of the fractional parts of the cube roots of the first
    64 primes, and of the square roots of the first eight. *)
Definition cube_root (p : Z) : Z := cbrt 35 (p * 2 ^ 96) 0.
Definition K : list Z := (fun p => cube_root p mod 2 ^ 32) <$> primes.
Definition H0 : list Z := (fun p => Z.sqrt (p * 2 ^ 64) mod 2 ^ 32) <$> take 8 primes.

Lemma primes_64 : length primes = 64%nat /\ last primes = Some 311.
Proof. vm_compute. done. Qed.
Lemma cube_roots_exact : Forall (fun p => cube_root p ^ 3 <= p * 2 ^ 96 < (cube_root p + 1) ^ 3) primes.
Proof. apply (bool_decide_unpack _). vm_compute. done. Qed.

(** ** Padding and parsing *)

(** A one bit, zeros up to 8 bytes short of a multiple of 64, and the length in
    bits as a 64-bit word. *)
Definition pad (msg : list Z) : list Z :=
  msg ++ [128] ++ replicate (Z.to_nat ((55 - zlen msg) mod 64)) 0
      ++ ((fun i => (8 * zlen msg / 2 ^ (56 - 8 * i)) mod 256) <$> seqZ 0 8).
Fixpoint blocks (n : nat) (l : list Z) : list (list Z) :=
  match n with
  | O => []
  | S n => take 64 l :: blocks n (drop 64 l)
  end.
(** Word [i] of a block. *)
Definition M (block : list Z) (i : nat) : Z :=
  foldl (fun acc b => acc * 256 + b) 0 (take 4 (drop (4 * i) block)).

(** ** The hash *)

(** The message schedule, the newest word first: [W] at [t - 2], [t - 7],
    [t - 15] and [t - 16] give the word at [t]. *)
Definition W_next (w : list Z) : Z :=
  plus (plus (plus (sigma1 (nth 1 w 0)) (nth 6 w 0)) (sigma0 (nth 14 w 0))) (nth 15 w 0).
Fixpoint schedule (n : nat) (block : list Z) : list Z :=
  match n with
  | O => rev (M block <$> seq 0 16)
  | S n => let w := schedule n block in W_next w :: w
  end.
Definition W (block : list Z) : list Z := rev (schedule 48 block).

Record hash := MkHash { ha : Z; hb : Z; hc : Z; hd : Z; he : Z; hf : Z; hg : Z; hh : Z }.
Definition round (v : hash) (kw : Z * Z) : hash :=
  let T1 := plus (plus (plus (plus (hh v) (Sigma1 (he v))) (Ch (he v) (hf v) (hg v))) (fst kw)) (snd kw) in
  let T2 := plus (Sigma0 (ha v)) (Maj (ha v) (hb v) (hc v)) in
  MkHash (plus T1 T2) (ha v) (hb v) (hc v) (plus (hd v) T1) (he v) (hf v) (hg v).
Definition of_words (h : list Z) : hash :=
  MkHash (nth 0 h 0) (nth 1 h 0) (nth 2 h 0) (nth 3 h 0) (nth 4 h 0) (nth 5 h 0) (nth 6 h 0) (nth 7 h 0).
Definition to_words (v : hash) : list Z := [ha v; hb v; hc v; hd v; he v; hf v; hg v; hh v].
Definition compress (h block : list Z) : list Z :=
  zip_with plus h (to_words (foldl round (of_words h) (zip K (W block)))).
Definition octets (x : Z) : list Z := (fun i => (x / 2 ^ (24 - 8 * i)) mod 256) <$> seqZ 0 4.
Definition sha256 (msg : list Z) : list Z :=
  mjoin (octets <$> foldl compress H0 (blocks (length (pad msg) / 64) (pad msg))).

(** The standard's example: the hash of [abc]. *)
Example sha256_of_abc : sha256 [97; 98; 99] =
  [186; 120; 22; 191; 143; 1; 207; 234; 65; 65; 64; 222; 93; 174; 34; 35;
   176; 3; 97; 163; 150; 23; 122; 156; 180; 16; 255; 97; 242; 0; 21; 173].
Proof. vm_compute. reflexivity. Qed.

(** ** Bits *)

Lemma of_bits_testbit n f i : 0 <= i -> Z.testbit (of_bits n f) i = (i <? Z.of_nat n) && f i.
Proof.
  intros Hi. induction n as [|n IH]; cbn [of_bits].
  - rewrite Z.bits_0. by destruct (Z.ltb_spec i (Z.of_nat 0)); [lia|].
  - destruct (Z.eq_dec i (Z.of_nat n)) as [->|Hne].
    + destruct (Z.ltb_spec (Z.of_nat n) (Z.of_nat (S n))); [|lia]. destruct (f (Z.of_nat n)).
      * by rewrite Z.setbit_eqb, Z.eqb_refl by lia.
      * rewrite IH. by destruct (Z.of_nat n <? Z.of_nat n).
    + replace (i <? Z.of_nat (S n)) with (i <? Z.of_nat n)
        by (destruct (Z.ltb_spec i (Z.of_nat n)), (Z.ltb_spec i (Z.of_nat (S n))); lia).
      destruct (f (Z.of_nat n)); [|done]. rewrite Z.setbit_eqb by lia.
      by destruct (Z.eqb_spec (Z.of_nat n) i); [lia|].
Qed.
Lemma word_testbit f i : 0 <= i -> Z.testbit (word f) i = (i <? 32) && f i.
Proof. apply of_bits_testbit. Qed.
Lemma testbit_small x i : in_u32 x -> 32 <= i -> Z.testbit x i = false.
Proof.
  intros Hx Hi. rewrite <- (Z.mod_small x (2 ^ 32)) by exact Hx. by apply Z.mod_pow2_bits_high.
Qed.
(** A word is determined by its 32 bits. *)
Lemma word_eq f x : in_u32 x -> (forall i, 0 <= i < 32 -> Z.testbit x i = f i) -> x = word f.
Proof.
  intros Hx H. apply Z.bits_inj'. intros i Hi. rewrite word_testbit by done.
  destruct (Z.ltb_spec i 32); [by apply H|]. by apply testbit_small.
Qed.
Lemma word_range f : in_u32 (word f).
Proof.
  assert (word f = word f mod 2 ^ 32) as ->; [|apply Z.mod_pos_bound; lia].
  apply Z.bits_inj'. intros i Hi. rewrite word_testbit by done. destruct (Z.ltb_spec i 32).
  - rewrite Z.mod_pow2_bits_low, word_testbit by lia. by destruct (Z.ltb_spec i 32); [|lia].
  - by rewrite Z.mod_pow2_bits_high.
Qed.
Lemma plus_range x y : in_u32 (plus x y).
Proof. apply Z.mod_pos_bound. lia. Qed.

(** ** The same operations on machine words *)

Lemma bits_range x : 0 <= x -> (forall i, 32 <= i -> Z.testbit x i = false) -> in_u32 x.
Proof.
  intros H0 H. assert (x = x mod 2 ^ 32) as ->; [|apply Z.mod_pos_bound; lia].
  apply Z.bits_inj'. intros i Hi. destruct (Z.ltb_spec i 32).
  - by rewrite Z.mod_pow2_bits_low.
  - rewrite Z.mod_pow2_bits_high by lia. by apply H.
Qed.
Lemma lxor_xor x y : in_u32 x -> in_u32 y -> Z.lxor x y = xor x y.
Proof.
  intros Hx Hy. apply word_eq; [|intros; by rewrite Z.lxor_spec]. apply bits_range.
  - apply Z.lxor_nonneg. ranges. lia.
  - intros i Hi. by rewrite Z.lxor_spec, !testbit_small.
Qed.
Lemma shiftr_SHR n x : 0 <= n -> Z.shiftr x n = SHR n x.
Proof. intros. by rewrite Z.shiftr_div_pow2. Qed.
Lemma SHR_range n x : 0 <= n -> in_u32 x -> in_u32 (SHR n x).
Proof.
  intros Hn Hx. unfold SHR. ranges. assert (0 < 2 ^ n) by lia. split; [apply Z.div_pos; lia|].
  apply Z.div_lt_upper_bound; nia.
Qed.
Lemma xor_range x y : in_u32 (xor x y).
Proof. apply word_range. Qed.

End Sha2.
