(* ===== verification/Digest.v ===== *)
(** * Digests: SHA-1 and SHA-256 as the sources compute them

    [src/lobby_ws/rnet_sha1.c] feeds its context byte by byte;
    [src/auth/rnet_sha256.c] takes whole blocks from the caller's buffer and
    builds the last one or two in an array. Both are models of the C code at
    its widths. The theorems show that each computes the standard's iteration
    over the padded message. *)

From stdpp Require Import base list numbers list_numbers.
From S2P Require Import Prelude Fips180.

(** A 32-bit word shifted left, and the rotations. *)
Definition rol (v n : Z) : Z := Z.lor (u32 (Z.shiftl v n)) (Z.shiftr v (32 - n)).
Definition rotr32 (x n : Z) : Z := Z.lor (Z.shiftr x n) (u32 (Z.shiftl x (32 - n))).
(** [~x] on 32 bits. *)
Definition not32 (x : Z) : Z := Z.lxor x UINT32_MAX.
(** Word [i] of a block, big endian. *)
Definition be_word (b : list Z) (i : Z) : Z :=
  Z.lor (Z.lor (Z.lor (Z.shiftl (rd 0 b (i * 4)) 24) (Z.shiftl (rd 0 b (i * 4 + 1)) 16))
    (Z.shiftl (rd 0 b (i * 4 + 2)) 8)) (rd 0 b (i * 4 + 3)).
(** The bytes of a word, big endian. *)
Definition word_bytes (x : Z) : list Z :=
  [u8 (Z.shiftr x 24); u8 (Z.shiftr x 16); u8 (Z.shiftr x 8); u8 x].
Definition add32 (xs : list Z) : Z := u32 (foldr Z.add 0 xs).

(** ** SHA-1 *)

Record Sha1Ctx := MkSha1Ctx {
  c1_state : list Z;
  c1_bitcount : Z;
  c1_buffer : list Z;       (* the first [c1_buffer_len] of 64 bytes *)
  c1_buffer_len : Z }.

Definition sha1_schedule (block : list Z) : list Z :=
  for_range 16 80 (fun i w =>
      w ++ [rol (Z.lxor (Z.lxor (Z.lxor (rd 0 w (i - 3)) (rd 0 w (i - 8))) (rd 0 w (i - 14))) (rd 0 w (i - 16))) 1])
    (be_word block <$> seqZ 0 16).

Definition sha1_f (i b c d : Z) : Z * Z :=
  if i <? 20 then (Z.lor (Z.land b c) (Z.land (not32 b) d), 1518500249)
  else if i <? 40 then (Z.lxor (Z.lxor b c) d, 1859775393)
  else if i <? 60 then (Z.lor (Z.lor (Z.land b c) (Z.land b d)) (Z.land c d), 2400959708)
  else (Z.lxor (Z.lxor b c) d, 3395469782).

Definition sha1_round (w : list Z) (i : Z) (v : Z * Z * Z * Z * Z) : Z * Z * Z * Z * Z :=
  let '(a, b, c, d, e) := v in
  let '(f, k) := sha1_f i b c d in
  let t := add32 [rol a 5; f; e; k; rd 0 w i] in
  (t, a, rol b 30, c, d).

(** The compression function on the five state words. *)
Definition sha1_compress (st block : list Z) : list Z :=
  let w := sha1_schedule block in
  let '(a, b, c, d, e) :=
    for_upto 80 (sha1_round w) (rd 0 st 0, rd 0 st 1, rd 0 st 2, rd 0 st 3, rd 0 st 4) in
  zip_with (fun x y => u32 (x + y)) st [a; b; c; d; e].

Definition sha1_process (ctx : Sha1Ctx) (block : list Z) : Sha1Ctx :=
  MkSha1Ctx (sha1_compress (c1_state ctx) block) (c1_bitcount ctx) (c1_buffer ctx) (c1_buffer_len ctx).

Definition sha1_iv : list Z := [1732584193; 4023233417; 2562383102; 271733878; 3285377520].
Definition sha1_init : Sha1Ctx := MkSha1Ctx sha1_iv 0 (replicate 64 0) 0.

(** [ctx->buffer[ctx->buffer_len++] = b]. *)
Definition sha1_put (ctx : Sha1Ctx) (b : Z) : Sha1Ctx :=
  MkSha1Ctx (c1_state ctx) (c1_bitcount ctx) (wr (c1_buffer ctx) (c1_buffer_len ctx) b) (c1_buffer_len ctx + 1).
Definition sha1_flush (ctx : Sha1Ctx) : Sha1Ctx :=
  let ctx := sha1_process ctx (c1_buffer ctx) in
  MkSha1Ctx (c1_state ctx) (c1_bitcount ctx) (c1_buffer ctx) 0.

Definition sha1_step (ctx : Sha1Ctx) (b : Z) : Sha1Ctx :=
  let ctx := sha1_put ctx b in
  if c1_buffer_len ctx =? 64 then sha1_flush ctx else ctx.

Definition sha1_update (ctx : Sha1Ctx) (data : list Z) : Sha1Ctx :=
  fold_left sha1_step data
    (MkSha1Ctx (c1_state ctx) (u64 (c1_bitcount ctx + u64 (zlen data * 8))) (c1_buffer ctx) (c1_buffer_len ctx)).

(** [while (ctx->buffer_len < upto) ctx->buffer[ctx->buffer_len++] = 0;] *)
Definition sha1_fill (upto : Z) (ctx : Sha1Ctx) : Sha1Ctx :=
  fold_left (fun c _ => sha1_put c 0) (seqZ (c1_buffer_len ctx) (upto - c1_buffer_len ctx)) ctx.

Definition sha1_final (ctx : Sha1Ctx) : list Z :=
  let ctx := sha1_put ctx 128 in
  let ctx := if 56 <? c1_buffer_len ctx then sha1_flush (sha1_fill 64 ctx) else ctx in
  let ctx := sha1_fill 56 ctx in
  let buf := for_upto 8 (fun i buf =>
    wr buf (56 + i) (u8 (Z.land (Z.shiftr (c1_bitcount ctx) (56 - 8 * i)) 255))) (c1_buffer ctx) in
  let ctx := sha1_process ctx buf in
  mjoin (word_bytes <$> c1_state ctx).

Definition rnet_sha1 (data : list Z) : list Z := sha1_final (sha1_update sha1_init data).

(** ** SHA-256 *)

Definition K256 : list Z :=
  [1116352408; 1899447441; 3049323471; 3921009573; 961987163; 1508970993; 2453635748; 2870763221;
   3624381080; 310598401; 607225278; 1426881987; 1925078388; 2162078206; 2614888103; 3248222580;
   3835390401; 4022224774; 264347078; 604807628; 770255983; 1249150122; 1555081692; 1996064986;
   2554220882; 2821834349; 2952996808; 3210313671; 3336571891; 3584528711; 113926993; 338241895;
   666307205; 773529912; 1294757372; 1396182291; 1695183700; 1986661051; 2177026350; 2456956037;
   2730485921; 2820302411; 3259730800; 3345764771; 3516065817; 3600352804; 4094571909; 275423344;
   430227734; 506948616; 659060556; 883997877; 958139571; 1322822218; 1537002063; 1747873779;
   1955562222; 2024104815; 2227730452; 2361852424; 2428436474; 2756734187; 3204031479; 3329325298].

Record rnet_sha256_ctx := MkSha256 {
  c2_h : list Z;
  c2_total : Z;
  c2_buffer : list Z;
  c2_buffered : Z }.

Definition sha256_schedule (b : list Z) : list Z :=
  for_range 16 64 (fun i w =>
      let x := rd 0 w (i - 15) in let y := rd 0 w (i - 2) in
      let s0 := Z.lxor (Z.lxor (rotr32 x 7) (rotr32 x 18)) (Z.shiftr x 3) in
      let s1 := Z.lxor (Z.lxor (rotr32 y 17) (rotr32 y 19)) (Z.shiftr y 10) in
      w ++ [add32 [rd 0 w (i - 16); s0; rd 0 w (i - 7); s1]])
    (be_word b <$> seqZ 0 16).

Definition sha256_round (w : list Z) (i : Z) (v : Z * Z * Z * Z * Z * Z * Z * Z)
    : Z * Z * Z * Z * Z * Z * Z * Z :=
  let '(a, c0, c, d, e, f, g, x) := v in
  let s1 := Z.lxor (Z.lxor (rotr32 e 6) (rotr32 e 11)) (rotr32 e 25) in
  let t1 := add32 [x; s1; Z.lxor (Z.land e f) (Z.land (not32 e) g); rd 0 K256 i; rd 0 w i] in
  let s0 := Z.lxor (Z.lxor (rotr32 a 2) (rotr32 a 13)) (rotr32 a 22) in
  let t2 := u32 (s0 + Z.lxor (Z.lxor (Z.land a c0) (Z.land a c)) (Z.land c0 c)) in
  (u32 (t1 + t2), a, c0, c, u32 (d + t1), e, f, g).

Definition sha256_block (h b : list Z) : list Z :=
  let w := sha256_schedule b in
  let '(a, c0, c, d, e, f, g, x) :=
    for_upto 64 (sha256_round w)
      (rd 0 h 0, rd 0 h 1, rd 0 h 2, rd 0 h 3, rd 0 h 4, rd 0 h 5, rd 0 h 6, rd 0 h 7) in
  zip_with (fun x y => u32 (x + y)) h [a; c0; c; d; e; f; g; x].

Definition sha256_iv : list Z :=
  [1779033703; 3144134277; 1013904242; 2773480762; 1359893119; 2600822924; 528734635; 1541459225].
Definition rnet_sha256_init : rnet_sha256_ctx := MkSha256 sha256_iv 0 (replicate 64 0) 0.

(** [while (len >= 64)]: whole blocks, then what is left. *)
Fixpoint take_blocks (fuel : nat) (h data : list Z) : list Z * list Z :=
  match fuel with
  | O => (h, data)
  | S fuel => if 64 <=? zlen data
              then take_blocks fuel (sha256_block h (take 64 data)) (drop 64 data) else (h, data)
  end.

(** [memcpy(dst + at, src, n)] into an array. *)
Definition mem_put (dst : list Z) (at_ : Z) (src : list Z) : list Z :=
  take (Z.to_nat at_) dst ++ src ++ drop (Z.to_nat at_ + length src) dst.

Definition rnet_sha256_update (ctx : rnet_sha256_ctx) (data : list Z) : rnet_sha256_ctx :=
  let total := u64 (c2_total ctx + zlen data) in
  let '(h, buffer, buffered, data) :=
    if c2_buffered ctx =? 0 then (c2_h ctx, c2_buffer ctx, c2_buffered ctx, data)
    else
      let n := Z.min (64 - c2_buffered ctx) (zlen data) in
      let buffer := mem_put (c2_buffer ctx) (c2_buffered ctx) (take (Z.to_nat n) data) in
      let buffered := c2_buffered ctx + n in
      let data := drop (Z.to_nat n) data in
      if buffered =? 64 then (sha256_block (c2_h ctx) buffer, buffer, 0, data)
      else (c2_h ctx, buffer, buffered, data) in
  let '(h, data) := take_blocks (length data) h data in
  if zlen data =? 0 then MkSha256 h total buffer buffered
  else MkSha256 h total (mem_put buffer 0 data) (zlen data).

Definition rnet_sha256_final (ctx : rnet_sha256_ctx) : list Z :=
  let n := c2_buffered ctx in
  let total := if n <? 56 then 64 else 128 in
  let bits := u64 (c2_total ctx * 8) in
  let tail := take (Z.to_nat n) (c2_buffer ctx) ++ [128] ++ replicate (Z.to_nat (total - n - 1 - 8)) 0
                ++ ((fun i => u8 (Z.shiftr bits ((7 - i) * 8))) <$> seqZ 0 8) in
  let h := sha256_block (c2_h ctx) (take 64 tail) in
  let h := if total =? 128 then sha256_block h (drop 64 tail) else h in
  mjoin (word_bytes <$> h).

Definition rnet_sha256_compute (data : list Z) : list Z :=
  rnet_sha256_final (rnet_sha256_update rnet_sha256_init data).

(** The standards' test vectors for the message [abc]. *)
Example sha1_abc : rnet_sha1 [97; 98; 99] =
  [169; 153; 62; 54; 71; 6; 129; 106; 186; 62; 37; 113; 120; 80; 194; 108; 156; 208; 216; 157].
Proof. vm_compute. reflexivity. Qed.
Example sha256_abc : rnet_sha256_compute [97; 98; 99] =
  [186; 120; 22; 191; 143; 1; 207; 234; 65; 65; 64; 222; 93; 174; 34; 35;
   176; 3; 97; 163; 150; 23; 122; 156; 180; 16; 255; 97; 242; 0; 21; 173].
Proof. vm_compute. reflexivity. Qed.

(** * The digests compute the standard's iteration over the padded message *)


(** ** The specification

    FIPS 180-4: pad the message with a one bit, zeros and its length in bits
    to a multiple of 64 bytes, and run the compression function over it. *)

Definition be64 (x : Z) : list Z := (fun i => u8 (Z.shiftr x (56 - 8 * i))) <$> seqZ 0 8.
Definition md_zeros (len : nat) : nat := Z.to_nat ((55 - Z.of_nat len) mod 64).
Definition md_pad (msg : list Z) : list Z :=
  msg ++ [128] ++ replicate (md_zeros (length msg)) 0 ++ be64 (u64 (zlen msg * 8)).

Fixpoint iterate (comp : list Z -> list Z -> list Z) (n : nat) (h data : list Z) : list Z :=
  match n with
  | O => h
  | S n => iterate comp n (comp h (take 64 data)) (drop 64 data)
  end.

Definition md_hash (comp : list Z -> list Z -> list Z) (iv msg : list Z) : list Z :=
  mjoin (word_bytes <$> iterate comp (length (md_pad msg) / 64) iv (md_pad msg)).

(** ** Absorbing a message *)

Section Absorb.
Context (comp : list Z -> list Z -> list Z) (iv : list Z).

Lemma iterate_app n m h d1 d2 : length d1 = (64 * n)%nat ->
  iterate comp (n + m) h (d1 ++ d2) = iterate comp m (iterate comp n h d1) d2.
Proof using.
  revert h d1. induction n as [|n IH]; intros h d1 Hl; simpl.
  - by rewrite (nil_length_inv d1) by lia.
  - rewrite take_app_le, drop_app_le by lia. apply IH. rewrite length_drop. lia.
Qed.

(** The context of a digest that has absorbed [msg]: whole blocks are in the
    state, the rest is in the buffer. *)
Definition absorbed (h buffer : list Z) (n : Z) (msg : list Z) : Prop :=
  exists k whole, length whole = (64 * k)%nat /\ h = iterate comp k iv whole /\
    msg = whole ++ take (Z.to_nat n) buffer /\ 0 <= n < 64 /\ length buffer = 64%nat.

Lemma absorbed_length h buffer n msg : absorbed h buffer n msg -> Z.of_nat (length msg) mod 64 = n.
Proof using.
  intros (k & whole & Hl & _ & -> & Hn & Hb). rewrite length_app, length_take, Hl, Hb, Nat.min_l by lia.
  Z.div_mod_to_equations. lia.
Qed.

(** A buffer that fills up is compressed. *)
Lemma absorbed_full h buffer n msg data : absorbed h buffer n msg ->
  length data = Z.to_nat (64 - n) ->
  forall buffer', buffer' = take (Z.to_nat n) buffer ++ data ->
  absorbed (comp h buffer') buffer' 0 (msg ++ data).
Proof using.
  intros (k & whole & Hl & -> & -> & Hn & Hb) Hd buffer' ->.
  assert (length (take (Z.to_nat n) buffer ++ data) = 64%nat) as H64.
  { rewrite length_app, length_take. lia. }
  exists (k + 1)%nat, (whole ++ take (Z.to_nat n) buffer ++ data). split_and!.
  - rewrite length_app, Hl, H64. lia.
  - rewrite iterate_app by done. cbn [iterate]. by rewrite (take_ge (_ ++ _)) by (by rewrite H64).
  - rewrite app_assoc. by rewrite app_nil_r.
  - done.
  - done.
  - done.
Qed.

Lemma absorbed_more h buffer n msg data : absorbed h buffer n msg -> n + zlen data < 64 ->
  forall buffer', length buffer' = 64%nat ->
  take (Z.to_nat (n + zlen data)) buffer' = take (Z.to_nat n) buffer ++ data ->
  absorbed h buffer' (n + zlen data) (msg ++ data).
Proof using.
  intros (k & whole & Hl & -> & -> & Hn & Hb) Hd buffer' Hb' Ht. pose proof (zlen_nonneg data).
  exists k, whole. split_and!; try done; [|lia]. by rewrite <- app_assoc, Ht.
Qed.

(** The last one or two blocks, laid out from the buffer, end the digest. *)
Lemma absorbed_finish h buffer n msg : absorbed h buffer n msg ->
  let tail := take (Z.to_nat n) buffer ++ [128] ++ replicate (md_zeros (length msg)) 0
                ++ be64 (u64 (zlen msg * 8)) in
  length tail = (if (n <? 56)%Z then 64 else 128)%nat /\
  md_hash comp iv msg = mjoin (word_bytes <$> iterate comp (if n <? 56 then 1%nat else 2%nat) h tail).
Proof using.
  intros H. pose proof (absorbed_length _ _ _ _ H) as Hm.
  destruct H as (k & whole & Hl & -> & Emsg & Hn & Hb). intros tail.
  assert (length tail = (if (n <? 56)%Z then 64 else 128)%nat) as Ht.
  { unfold tail, md_zeros, be64. rewrite !length_app, length_take, length_replicate, length_fmap, length_seqZ.
    rewrite Hb. simpl. destruct (Z.ltb_spec n 56); Z.div_mod_to_equations; lia. }
  split; [done|]. unfold md_hash. assert (md_pad msg = whole ++ tail) as E.
  { unfold md_pad, tail. rewrite Emsg at 1. by rewrite <- !app_assoc. }
  rewrite E. do 2 f_equal. rewrite length_app, Hl, Ht.
  replace ((64 * k + (if (n <? 56)%Z then 64 else 128)) / 64)%nat with (k + (if (n <? 56)%Z then 1 else 2))%nat.
  - by apply iterate_app.
  - destruct (n <? 56); [replace (64 * k + 64)%nat with ((k + 1) * 64)%nat by lia
      |replace (64 * k + 128)%nat with ((k + 2) * 64)%nat by lia]; by rewrite Nat.div_mul.
Qed.
End Absorb.

(** A tail of two blocks, cut at 64. *)
Lemma two_blocks (A Z1 Z2 B : list Z) : (length A + length Z1 = 63)%nat -> (length Z2 + length B = 64)%nat ->
  take 64 (A ++ [128] ++ (Z1 ++ Z2) ++ B) = A ++ [128] ++ Z1 /\
  take 64 (drop 64 (A ++ [128] ++ (Z1 ++ Z2) ++ B)) = Z2 ++ B.
Proof.
  intros H1 H2. replace (A ++ [128] ++ (Z1 ++ Z2) ++ B) with ((A ++ [128] ++ Z1) ++ Z2 ++ B)
    by (by rewrite <- !app_assoc).
  assert (length (A ++ [128] ++ Z1) = 64%nat) as E by (rewrite !length_app; simpl; lia).
  rewrite take_app_length', drop_app_length' by done. split; [done|].
  apply take_ge. rewrite length_app. lia.
Qed.

(** ** SHA-1 *)

Lemma take_wr (buf : list Z) n b : 0 <= n < zlen buf ->
  take (Z.to_nat (n + 1)) (wr buf n b) = take (Z.to_nat n) buf ++ [b].
Proof.
  unfold zlen, wr. intros H. replace (Z.to_nat (n + 1)) with (S (Z.to_nat n)) by lia.
  erewrite take_S_r; [|apply list_lookup_insert_eq; lia]. f_equal. rewrite take_insert_ge by lia. done.
Qed.

Definition absorbed1 (ctx : Sha1Ctx) (msg : list Z) : Prop :=
  absorbed sha1_compress sha1_iv (c1_state ctx) (c1_buffer ctx) (c1_buffer_len ctx) msg.

Lemma sha1_step_absorbs ctx msg b : absorbed1 ctx msg -> absorbed1 (sha1_step ctx b) (msg ++ [b]).
Proof.
  unfold absorbed1, sha1_step. intros H. pose proof H as (k & w & _ & _ & _ & Hn & Hb).
  cbn [c1_buffer_len sha1_put].
  assert (take (Z.to_nat (c1_buffer_len ctx + 1)) (wr (c1_buffer ctx) (c1_buffer_len ctx) b)
    = take (Z.to_nat (c1_buffer_len ctx)) (c1_buffer ctx) ++ [b]) as Et.
  { apply take_wr. unfold zlen. lia. }
  destruct (Z.eqb_spec (c1_buffer_len ctx + 1) 64) as [E|E]; cbn.
  - eapply absorbed_full; [exact H|simpl; lia|].
    rewrite <- Et, take_ge; [done|]. unfold wr. rewrite length_insert. lia.
  - apply absorbed_more with (data := [b]) (buffer := c1_buffer ctx); [done|unfold zlen; simpl; lia| |exact Et].
    unfold wr. by rewrite length_insert.
Qed.

Lemma sha1_step_bitcount ctx b : c1_bitcount (sha1_step ctx b) = c1_bitcount ctx.
Proof. unfold sha1_step. by destruct (_ =? 64). Qed.

Lemma sha1_update_absorbs data : absorbed1 (sha1_update sha1_init data) data /\
  c1_bitcount (sha1_update sha1_init data) = u64 (zlen data * 8).
Proof.
  unfold sha1_update.
  assert (forall data ctx msg, absorbed1 ctx msg ->
    absorbed1 (fold_left sha1_step data ctx) (msg ++ data) /\
    c1_bitcount (fold_left sha1_step data ctx) = c1_bitcount ctx) as G.
  { clear. induction data as [|b data IH]; intros ctx msg H; simpl; [by rewrite app_nil_r|].
    apply sha1_step_absorbs with (b := b) in H. destruct (IH _ _ H) as [H1 H2].
    rewrite <- app_assoc in H1. split; [done|]. by rewrite H2, sha1_step_bitcount. }
  destruct (G data (MkSha1Ctx (c1_state sha1_init) (u64 (c1_bitcount sha1_init + u64 (zlen data * 8)))
    (c1_buffer sha1_init) (c1_buffer_len sha1_init)) []) as [H1 H2].
  - exists 0%nat, []. split_and!; cbn; done.
  - split; [exact H1|]. rewrite H2. cbn [c1_bitcount sha1_init]. rewrite Z.add_0_l. unfold u64. by rewrite Z.mod_mod.
Qed.

Lemma sha1_fill_spec upto ctx : 0 <= c1_buffer_len ctx <= upto -> upto <= 64 -> length (c1_buffer ctx) = 64%nat ->
  let ctx' := sha1_fill upto ctx in
  c1_state ctx' = c1_state ctx /\ c1_bitcount ctx' = c1_bitcount ctx /\ c1_buffer_len ctx' = upto /\
  length (c1_buffer ctx') = 64%nat /\
  take (Z.to_nat upto) (c1_buffer ctx') =
    take (Z.to_nat (c1_buffer_len ctx)) (c1_buffer ctx) ++ replicate (Z.to_nat (upto - c1_buffer_len ctx)) 0.
Proof.
  intros H0 Hu Hb. unfold sha1_fill. remember (upto - c1_buffer_len ctx) as n eqn:En.
  assert (0 <= n) as Hn by lia. revert ctx H0 Hb En. pattern n. apply natlike_ind; [| |exact Hn]; clear n Hn.
  - intros ctx H0 Hb En. cbn. replace upto with (c1_buffer_len ctx) by lia. by rewrite app_nil_r.
  - intros n Hn IH ctx H0 Hb En. rewrite seqZ_cons by lia. cbn [fold_left]. rewrite Z.pred_succ.
    replace (Z.succ (c1_buffer_len ctx)) with (c1_buffer_len (sha1_put ctx 0)) by (cbn; lia).
    destruct (IH (sha1_put ctx 0)) as (E1 & E2 & E3 & E4 & E5).
    + cbn. lia.
    + cbn. unfold wr. by rewrite length_insert.
    + cbn. lia.
    + split_and!; try done. rewrite E5. cbn [c1_buffer c1_buffer_len sha1_put].
      rewrite take_wr by (unfold zlen; lia). rewrite Z2Nat.inj_succ by lia. cbn [replicate].
      by rewrite <- app_assoc.
Qed.

(** Writing the eight length bytes completes the block. *)
Lemma sha1_length_bytes buf (f : Z -> Z) : length buf = 64%nat ->
  for_upto 8 (fun i buf => wr buf (56 + i) (f i)) buf = take 56 buf ++ (f <$> seqZ 0 8).
Proof.
  intros Hb. do 64 (destruct buf as [|? buf]; [done|]). destruct buf; [|done]. reflexivity.
Qed.

Lemma be64_land x : (fun i => u8 (Z.land (Z.shiftr x (56 - 8 * i)) 255)) <$> seqZ 0 8 = be64 x.
Proof.
  unfold be64. apply list_fmap_ext. intros _ i _. unfold u8.
  replace 255 with (Z.ones 8) by done. rewrite Z.land_ones by lia. change (2 ^ 8) with 256. by rewrite Z.mod_mod.
Qed.
Lemma length_be64 x : length (be64 x) = 8%nat.
Proof. done. Qed.

(** The first [n] bytes of the buffer once the 0x80 byte is in. *)
Lemma sha1_put_spec ctx b : 0 <= c1_buffer_len ctx < 64 -> length (c1_buffer ctx) = 64%nat ->
  length (c1_buffer (sha1_put ctx b)) = 64%nat /\
  take (Z.to_nat (c1_buffer_len ctx + 1)) (c1_buffer (sha1_put ctx b))
    = take (Z.to_nat (c1_buffer_len ctx)) (c1_buffer ctx) ++ [b].
Proof.
  intros Hn Hb. split; [cbn; unfold wr; by rewrite length_insert|]. apply take_wr. unfold zlen. lia.
Qed.

(** The buffer filled to byte 56, the length written, the block compressed. *)
Lemma sha1_close ctx n A : c1_buffer_len ctx = n -> 0 <= n <= 56 -> length (c1_buffer ctx) = 64%nat ->
  take (Z.to_nat n) (c1_buffer ctx) = A ->
  let c := sha1_fill 56 ctx in
  c1_state (sha1_process c (for_upto 8 (fun i buf =>
    wr buf (56 + i) (u8 (Z.land (Z.shiftr (c1_bitcount c) (56 - 8 * i)) 255))) (c1_buffer c))) =
  sha1_compress (c1_state ctx) (A ++ replicate (Z.to_nat (56 - n)) 0 ++ be64 (c1_bitcount ctx)).
Proof.
  intros En Hn Hb HA. destruct (sha1_fill_spec 56 ctx) as (G1 & G2 & G3 & G4 & G5); [lia|done|done|].
  cbv zeta. set (c := sha1_fill 56 ctx) in *. clearbody c.
  rewrite sha1_length_bytes, be64_land by done. cbn [sha1_process c1_state].
  change (Z.to_nat 56) with 56%nat in G5. by rewrite G1, G2, G5, En, HA, <- app_assoc.
Qed.

Lemma sha1_final_short ctx : 0 <= c1_buffer_len ctx < 56 -> length (c1_buffer ctx) = 64%nat ->
  sha1_final ctx = mjoin (word_bytes <$> sha1_compress (c1_state ctx)
    (take (Z.to_nat (c1_buffer_len ctx)) (c1_buffer ctx) ++ [128]
       ++ replicate (Z.to_nat (55 - c1_buffer_len ctx)) 0 ++ be64 (c1_bitcount ctx))).
Proof.
  intros Hn Hb. destruct (sha1_put_spec ctx 128) as [Hp Et]; [lia|done|]. unfold sha1_final.
  replace (56 <? c1_buffer_len (sha1_put ctx 128)) with false
    by (symmetry; apply Z.ltb_ge; cbn; lia).
  erewrite sha1_close; [|reflexivity|cbn; lia|done|exact Et]. cbn [c1_state c1_bitcount c1_buffer_len sha1_put].
  replace (56 - (c1_buffer_len ctx + 1)) with (55 - c1_buffer_len ctx) by lia. by rewrite <- app_assoc.
Qed.

Lemma sha1_final_long ctx : 56 <= c1_buffer_len ctx < 64 -> length (c1_buffer ctx) = 64%nat ->
  sha1_final ctx = mjoin (word_bytes <$> sha1_compress
    (sha1_compress (c1_state ctx)
       (take (Z.to_nat (c1_buffer_len ctx)) (c1_buffer ctx) ++ [128] ++ replicate (Z.to_nat (63 - c1_buffer_len ctx)) 0))
    (replicate 56 0 ++ be64 (c1_bitcount ctx))).
Proof.
  intros Hn Hb. destruct (sha1_put_spec ctx 128) as [Hp Et]; [lia|done|]. unfold sha1_final.
  replace (56 <? c1_buffer_len (sha1_put ctx 128)) with true
    by (symmetry; apply Z.ltb_lt; cbn; lia).
  destruct (sha1_fill_spec 64 (sha1_put ctx 128)) as (F1 & F2 & F3 & F4 & F5); [cbn; lia|done|done|].
  erewrite sha1_close; [|reflexivity|cbn; lia|done|reflexivity]. cbn [c1_state c1_bitcount c1_buffer_len sha1_flush sha1_process].
  rewrite F1, F2. rewrite take_ge in F5 by lia. rewrite F5. cbn [c1_state c1_bitcount c1_buffer_len sha1_put].
  rewrite Et, <- app_assoc. by replace (64 - (c1_buffer_len ctx + 1)) with (63 - c1_buffer_len ctx) by lia.
Qed.

(** SHA-1: for every message the byte-by-byte context (a buffer that is
    compressed when full, the padding that spills into a second block when
    fewer than nine bytes are left) computes the standard's hash: the
    compression function iterated over the message, a one bit, zeros, and the
    length in bits. *)
Theorem sha1_is_standard data : rnet_sha1 data = md_hash sha1_compress sha1_iv data.
Proof.
  unfold rnet_sha1. destruct (sha1_update_absorbs data) as [H Hbits].
  set (ctx := sha1_update sha1_init data) in *. clearbody ctx.
  destruct (absorbed_finish _ _ _ _ _ _ H) as [Hlen ->]. unfold absorbed1 in H.
  pose proof (absorbed_length _ _ _ _ _ _ H) as Hmod.
  pose proof H as (k & w & _ & _ & _ & Hn & Hb).
  destruct (Z.ltb_spec (c1_buffer_len ctx) 56) as [Hs|Hs]; cbn [iterate].
  - rewrite sha1_final_short, Hbits by (done || lia). rewrite (take_ge (_ ++ _)) by lia.
    replace (md_zeros (length data)) with (Z.to_nat (55 - c1_buffer_len ctx)); [done|].
    unfold md_zeros. Z.div_mod_to_equations. lia.
  - rewrite sha1_final_long, Hbits by (done || lia).
    replace (md_zeros (length data)) with (Z.to_nat (63 - c1_buffer_len ctx) + 56)%nat
      by (unfold md_zeros; Z.div_mod_to_equations; lia).
    rewrite replicate_add.
    destruct (two_blocks (take (Z.to_nat (c1_buffer_len ctx)) (c1_buffer ctx))
      (replicate (Z.to_nat (63 - c1_buffer_len ctx)) 0) (replicate 56 0) (be64 (u64 (zlen data * 8)))) as [-> ->];
      [rewrite length_take, length_replicate; lia|done|done].
Qed.

(** ** SHA-256 *)

Definition absorbed2 (ctx : rnet_sha256_ctx) (msg : list Z) : Prop :=
  absorbed sha256_block sha256_iv (c2_h ctx) (c2_buffer ctx) (c2_buffered ctx) msg /\
  c2_total ctx = u64 (zlen msg).

Lemma length_put_at dst n src : (Z.to_nat n + length src <= length dst)%nat ->
  length (mem_put dst n src) = length dst.
Proof. intros. unfold mem_put. rewrite !length_app, length_take, length_drop. lia. Qed.
Lemma take_put_at dst n src : (Z.to_nat n + length src <= length dst)%nat ->
  take (Z.to_nat n + length src) (mem_put dst n src) = take (Z.to_nat n) dst ++ src.
Proof.
  intros. unfold mem_put. rewrite app_assoc. apply take_app_length'. rewrite length_app, length_take. lia.
Qed.

(** Whole blocks taken from the caller's data. *)
Lemma take_blocks_absorbs fuel : forall h data buffer msg,
  absorbed sha256_block sha256_iv h buffer 0 msg -> (length data <= fuel)%nat ->
  exists whole, absorbed sha256_block sha256_iv (fst (take_blocks fuel h data)) buffer 0 (msg ++ whole) /\
    data = whole ++ snd (take_blocks fuel h data) /\ zlen (snd (take_blocks fuel h data)) < 64.
Proof.
  assert (forall h data buffer msg, absorbed sha256_block sha256_iv h buffer 0 msg ->
    exists whole, absorbed sha256_block sha256_iv h buffer 0 (msg ++ whole) /\ data = whole ++ data) as G.
  { intros. exists []. by rewrite app_nil_r. }
  induction fuel as [|fuel IH]; intros h data buffer msg H Hl; simpl.
  - destruct (G h data buffer msg H) as (w & ? & ?). exists w. split_and!; [done..|].
    destruct data; [done|simpl in Hl; lia].
  - destruct (Z.leb_spec 64 (zlen data)) as [Hbig|Hsmall]; unfold zlen in *.
    + destruct H as (k & whole & E1 & E2 & E3 & E4 & E5).
      destruct (IH (sha256_block h (take 64 data)) (drop 64 data) buffer (msg ++ take 64 data)) as (w & H1 & H2 & H3).
      * exists (k + 1)%nat, (whole ++ take 64 data). split_and!; try done.
        -- rewrite length_app, length_take. lia.
        -- rewrite iterate_app by done. cbn [iterate]. by rewrite <- E2, take_take.
        -- rewrite E3. cbn. by rewrite !app_nil_r.
      * rewrite length_drop. lia.
      * exists (take 64 data ++ w). split_and!; [by rewrite app_assoc| |done].
        rewrite <- app_assoc, <- H2. by rewrite take_drop.
    + destruct (G h data buffer msg H) as (w & ? & ?). by exists w.
Qed.

(** The rest of the data goes to the front of an empty buffer. *)
Lemma absorbed_rest h buffer msg data total : absorbed sha256_block sha256_iv h buffer 0 msg ->
  total = u64 (zlen (msg ++ data)) ->
  let '(h', rest) := take_blocks (length data) h data in
  absorbed2 (if zlen rest =? 0 then MkSha256 h' total buffer 0
             else MkSha256 h' total (mem_put buffer 0 rest) (zlen rest)) (msg ++ data).
Proof.
  intros H Et. destruct (take_blocks_absorbs (length data) _ data _ _ H) as (w & H1 & H2 & H3); [done|].
  destruct (take_blocks _ _ _) as [h' rest]. simpl in *.
  pose proof H1 as (_ & _ & _ & _ & _ & _ & Hb).
  destruct (Z.eqb_spec (zlen rest) 0) as [E|E]; (split; [|exact Et]); cbn [c2_h c2_buffer c2_buffered].
  - destruct rest; [|rewrite zlen_cons in E; pose proof (zlen_nonneg rest); lia]. by rewrite H2, app_nil_r.
  - rewrite H2, app_assoc. change (zlen rest) with (0 + zlen rest).
    unfold zlen in *. eapply absorbed_more; [exact H1|unfold zlen; lia| |].
    + rewrite length_put_at; [done|lia].
    + unfold zlen. replace (Z.to_nat (0 + Z.of_nat (length rest))) with (Z.to_nat 0 + length rest)%nat by lia.
      apply take_put_at. lia.
Qed.

Lemma sha256_update_absorbs ctx msg data : absorbed2 ctx msg ->
  absorbed2 (rnet_sha256_update ctx data) (msg ++ data).
Proof.
  intros [H Et]. unfold rnet_sha256_update.
  assert (u64 (c2_total ctx + zlen data) = u64 (zlen (msg ++ data))) as Etot.
  { rewrite Et, zlen_app. unfold u64. by rewrite Zplus_mod_idemp_l. }
  pose proof H as (k & w & _ & _ & _ & Hn & Hb). pose proof (zlen_nonneg data) as Hd0.
  destruct (Z.eqb_spec (c2_buffered ctx) 0) as [E0|E0].
  { pose proof (absorbed_rest (c2_h ctx) (c2_buffer ctx) msg data (u64 (c2_total ctx + zlen data))) as R.
    rewrite E0 in *. by destruct (take_blocks _ _ _); apply R. }
  set (n := Z.min (64 - c2_buffered ctx) (zlen data)). set (d1 := take (Z.to_nat n) data).
  assert (length d1 = Z.to_nat n) as L1 by (unfold d1; rewrite length_take; unfold n, zlen; lia).
  assert (data = d1 ++ drop (Z.to_nat n) data) as Ed by (unfold d1; by rewrite take_drop).
  destruct (Z.eqb_spec (c2_buffered ctx + n) 64) as [E64|E64].
  - assert (absorbed sha256_block sha256_iv (sha256_block (c2_h ctx) (mem_put (c2_buffer ctx) (c2_buffered ctx) d1))
      (mem_put (c2_buffer ctx) (c2_buffered ctx) d1) 0 (msg ++ d1)) as H'.
    { eapply absorbed_full; [exact H|lia|]. unfold mem_put. rewrite drop_ge by lia. by rewrite app_nil_r. }
    pose proof (absorbed_rest _ _ _ (drop (Z.to_nat n) data) (u64 (c2_total ctx + zlen data)) H') as R.
    rewrite <- app_assoc, <- Ed in R. by destruct (take_blocks _ _ _); apply R.
  - assert (n = zlen data) as En by (unfold n in *; lia).
    assert (drop (Z.to_nat n) data = []) as Edrop by (apply drop_ge; unfold zlen in *; lia).
    rewrite Edrop in *. cbn [length take_blocks]. rewrite zlen_nil. cbn [Z.eqb]. rewrite app_nil_r in Ed.
    split; [|by rewrite Etot]. cbn [c2_h c2_buffer c2_buffered]. rewrite En, <- Ed.
    eapply absorbed_more; [exact H|unfold n in *; lia| |].
    + rewrite length_put_at; [done|]. unfold zlen in *; lia.
    + unfold zlen in *. replace (Z.to_nat (c2_buffered ctx + Z.of_nat (length data)))
        with (Z.to_nat (c2_buffered ctx) + length data)%nat by lia.
      apply take_put_at. lia.
Qed.

Lemma sha256_final_standard ctx msg : absorbed2 ctx msg ->
  rnet_sha256_final ctx = md_hash sha256_block sha256_iv msg.
Proof.
  intros [H Et]. destruct (absorbed_finish _ _ _ _ _ _ H) as [Hlen ->].
  pose proof (absorbed_length _ _ _ _ _ _ H) as Hmod. pose proof H as (k & w & _ & _ & _ & Hn & Hb).
  unfold rnet_sha256_final.
  replace (u64 (c2_total ctx * 8)) with (u64 (zlen msg * 8)) by (rewrite Et; unfold u64; by rewrite Zmult_mod_idemp_l).
  replace ((fun i => u8 (Z.shiftr (u64 (zlen msg * 8)) ((7 - i) * 8))) <$> seqZ 0 8) with (be64 (u64 (zlen msg * 8))) by done.
  replace (Z.to_nat ((if c2_buffered ctx <? 56 then 64 else 128) - c2_buffered ctx - 1 - 8))
    with (md_zeros (length msg))
    by (unfold md_zeros; destruct (Z.ltb_spec (c2_buffered ctx) 56); Z.div_mod_to_equations; lia).
  destruct (Z.ltb_spec (c2_buffered ctx) 56) as [Hs|Hs]; cbn [iterate Z.eqb Pos.eqb]; [done|].
  rewrite (take_ge (drop 64 _)); [done|]. rewrite length_drop. lia.
Qed.

Lemma sha256_init_absorbs : absorbed2 rnet_sha256_init [].
Proof. split; [|done]. exists 0%nat, []. by split_and!. Qed.

(** ** The compression function is the standard's *)

Lemma rotr32_ROTR n x : 0 < n < 32 -> in_u32 x -> rotr32 x n = Sha2.ROTR n x.
Proof.
  intros Hn Hx. unfold rotr32, u32. change 4294967296 with (2 ^ 32).
  assert (forall i, 0 <= i -> Z.testbit (Z.lor (Z.shiftr x n) (Z.shiftl x (32 - n) mod 2 ^ 32)) i
    = if i <? 32 then Z.testbit x ((i + n) mod 32) else false) as E.
  { intros i Hi. rewrite Z.lor_spec, Z.shiftr_spec by lia. destruct (Z.ltb_spec i 32).
    - rewrite Z.mod_pow2_bits_low, Z.shiftl_spec by lia. destruct (Z.ltb_spec (i + n) 32).
      + rewrite (Z.testbit_neg_r x (i - (32 - n))), orb_false_r by lia. by rewrite (Z.mod_small (i + n)) by lia.
      + rewrite Sha2.testbit_small by (done || lia). cbn [orb]. f_equal. Z.div_mod_to_equations. lia.
    - by rewrite Z.mod_pow2_bits_high, Sha2.testbit_small by (done || lia). }
  apply Sha2.word_eq.
  - apply Sha2.bits_range.
    + apply Z.lor_nonneg. split; [apply Z.shiftr_nonneg; ranges; lia|apply Z.mod_pos_bound; lia].
    + intros i Hi. rewrite E by lia. by destruct (Z.ltb_spec i 32); [lia|].
  - intros i Hi. rewrite E by lia. by destruct (Z.ltb_spec i 32); [|lia].
Qed.
Lemma choice_Ch x y z : in_u32 x -> in_u32 y -> in_u32 z ->
  Z.lxor (Z.land x y) (Z.land (not32 x) z) = Sha2.Ch x y z.
Proof.
  intros Hx Hy Hz. unfold not32.
  assert (forall i, 0 <= i -> Z.testbit (Z.lxor (Z.land x y) (Z.land (Z.lxor x UINT32_MAX) z)) i
    = if i <? 32 then (if Z.testbit x i then Z.testbit y i else Z.testbit z i) else false) as E.
  { intros i Hi. rewrite Z.lxor_spec, !Z.land_spec, Z.lxor_spec. change UINT32_MAX with (Z.ones 32).
    rewrite Z.testbit_ones_nonneg by lia. destruct (Z.ltb_spec i 32).
    - by destruct (Z.testbit x i), (Z.testbit y i), (Z.testbit z i).
    - by rewrite !Sha2.testbit_small. }
  apply Sha2.word_eq; [apply Sha2.bits_range|].
  - apply Z.lxor_nonneg. rewrite !Z.land_nonneg. ranges. lia.
  - intros i Hi. rewrite E by lia. by destruct (Z.ltb_spec i 32); [lia|].
  - intros i Hi. rewrite E by lia. by destruct (Z.ltb_spec i 32); [|lia].
Qed.
Lemma majority_Maj x y z : in_u32 x -> in_u32 y -> in_u32 z ->
  Z.lxor (Z.lxor (Z.land x y) (Z.land x z)) (Z.land y z) = Sha2.Maj x y z.
Proof.
  intros Hx Hy Hz. apply Sha2.word_eq; [apply Sha2.bits_range|].
  - rewrite !Z.lxor_nonneg, !Z.land_nonneg. ranges. lia.
  - intros i Hi. by rewrite !Z.lxor_spec, !Z.land_spec, !Sha2.testbit_small.
  - intros i Hi. rewrite !Z.lxor_spec, !Z.land_spec. by destruct (Z.testbit x i), (Z.testbit y i), (Z.testbit z i).
Qed.
Lemma rotations_xor a b c x : 0 < a < 32 -> 0 < b < 32 -> 0 < c < 32 -> in_u32 x ->
  Z.lxor (Z.lxor (rotr32 x a) (rotr32 x b)) (rotr32 x c) =
    Sha2.xor (Sha2.xor (Sha2.ROTR a x) (Sha2.ROTR b x)) (Sha2.ROTR c x).
Proof.
  intros. rewrite !rotr32_ROTR by done. rewrite (Sha2.lxor_xor (Sha2.ROTR a x)), Sha2.lxor_xor; apply Sha2.word_range || done.
Qed.
Lemma rotations_shift a b c x : 0 < a < 32 -> 0 < b < 32 -> 0 <= c -> in_u32 x ->
  Z.lxor (Z.lxor (rotr32 x a) (rotr32 x b)) (Z.shiftr x c) =
    Sha2.xor (Sha2.xor (Sha2.ROTR a x) (Sha2.ROTR b x)) (Sha2.SHR c x).
Proof.
  intros. rewrite !rotr32_ROTR, Sha2.shiftr_SHR by done.
  rewrite (Sha2.lxor_xor (Sha2.ROTR a x)), Sha2.lxor_xor; (apply Sha2.word_range || by apply Sha2.SHR_range) || done.
Qed.

(** *** The message schedule *)

Lemma be_word_M b i : Forall in_u8 b -> length b = 64%nat -> (i < 16)%nat ->
  be_word b (Z.of_nat i) = Sha2.M b i /\ in_u32 (Sha2.M b i).
Proof.
  intros Hb Hl Hi.
  assert (forall k, (k < 4)%nat -> in_u8 (rd 0 b (Z.of_nat i * 4 + Z.of_nat k)) /\
    b !! (4 * i + k)%nat = Some (rd 0 b (Z.of_nat i * 4 + Z.of_nat k))) as K.
  { intros k Hk. destruct (lookup_lt_is_Some_2 b (4 * i + k)) as [x Ex]; [lia|].
    assert (rd 0 b (Z.of_nat i * 4 + Z.of_nat k) = x) as ->; [|by eapply Forall_lookup_1 in Hb].
    unfold rd. replace (Z.to_nat (Z.of_nat i * 4 + Z.of_nat k)) with (4 * i + k)%nat by lia. by apply nth_lookup_Some. }
  assert (take 4 (drop (4 * i) b) = (fun k => rd 0 b (Z.of_nat i * 4 + Z.of_nat k)) <$> seq 0 4) as E.
  { apply list_eq. intros k. destruct (decide (k < 4)%nat) as [Hk|Hk].
    - rewrite lookup_take_lt, lookup_drop, (proj2 (K k Hk)) by done. rewrite list_lookup_fmap, lookup_seq_lt by done. done.
    - rewrite !lookup_ge_None_2; [done|by rewrite length_fmap, length_seq; lia|rewrite length_take; lia]. }
  unfold Sha2.M. rewrite E. unfold be_word.
  destruct (K 0%nat) as [R0 _], (K 1%nat) as [R1 _], (K 2%nat) as [R2 _], (K 3%nat) as [R3 _]; try lia.
  change (Z.of_nat 0) with 0 in *. change (Z.of_nat 1) with 1 in *. change (Z.of_nat 2) with 2 in *. change (Z.of_nat 3) with 3 in *.
  rewrite Z.add_0_r in *. cbn [seq fmap list_fmap foldl]. change (Z.of_nat 0) with 0. change (Z.of_nat 1) with 1.
  change (Z.of_nat 2) with 2. change (Z.of_nat 3) with 3. rewrite Z.add_0_r.
  split; [|ranges; lia].
  set (a := rd 0 b (Z.of_nat i * 4)) in *. set (c := rd 0 b (Z.of_nat i * 4 + 1)) in *.
  set (d := rd 0 b (Z.of_nat i * 4 + 2)) in *. set (e := rd 0 b (Z.of_nat i * 4 + 3)) in *.
  assert (Z.lor (Z.lor (Z.lor (Z.shiftl a 24) (Z.shiftl c 16)) (Z.shiftl d 8)) e =
    Z.lor e (Z.shiftl (Z.lor d (Z.shiftl (Z.lor c (Z.shiftl a 8)) 8)) 8)) as ->.
  { rewrite !Z.shiftl_lor, !Z.shiftl_shiftl by lia. rewrite (Z.lor_comm _ e), (Z.lor_comm _ (Z.shiftl d 8)). do 2 f_equal. apply Z.lor_comm. }
  rewrite (lor_byte c a), (lor_byte d), (lor_byte e); ranges; lia.
Qed.
Lemma rd_rev (s : list Z) k : (k < length s)%nat -> rd 0 (rev s) (zlen s - 1 - Z.of_nat k) = nth k s 0.
Proof.
  intros Hk. unfold rd, zlen. rewrite rev_nth by lia. f_equal. lia.
Qed.
Lemma plus_plus x y z : Sha2.plus (Sha2.plus x y) z = Sha2.plus (x + y) z.
Proof. unfold Sha2.plus. by rewrite Zplus_mod_idemp_l. Qed.
Lemma sum4 a b c d : add32 [a; b; c; d] = Sha2.plus (Sha2.plus (Sha2.plus d c) b) a.
Proof. rewrite (plus_plus d c b), plus_plus. unfold add32, Sha2.plus, u32. f_equal. cbn [foldr]. lia. Qed.
Lemma sum5 a b c d e : add32 [a; b; c; d; e] = Sha2.plus (Sha2.plus (Sha2.plus (Sha2.plus a b) c) d) e.
Proof. rewrite (plus_plus a b c), (plus_plus _ c d), plus_plus. unfold add32, Sha2.plus, u32. f_equal. cbn [foldr]. lia. Qed.
Lemma schedule_W b : Forall in_u8 b -> length b = 64%nat ->
  sha256_schedule b = Sha2.W b /\ Forall in_u32 (Sha2.W b) /\ length (Sha2.W b) = 64%nat.
Proof.
  intros Hb Hl. unfold sha256_schedule.
  assert (be_word b <$> seqZ 0 16 = Sha2.M b <$> seq 0 16) as ->.
  { change (seqZ 0 16) with (Z.of_nat <$> seq 0 16). rewrite <- list_fmap_compose. apply list_fmap_ext.
    intros k i Hk. apply lookup_seq in Hk as [-> Hk]. by apply be_word_M. }
  match goal with |- for_range 16 64 ?f ?s = _ /\ _ =>
    cut ((fun i w => w = rev (Sha2.schedule (Z.to_nat (i - 16)) b) /\ Forall in_u32 (Sha2.schedule (Z.to_nat (i - 16)) b) /\
      zlen (Sha2.schedule (Z.to_nat (i - 16)) b) = i) 64 (for_range 16 64 f s)) end.
  { cbv beta. change (Z.to_nat (64 - 16)) with 48%nat. intros (-> & Hf & Hz). unfold Sha2.W. split_and!; [done| |].
    - by apply Forall_rev.
    - rewrite length_rev. unfold zlen in Hz. lia. }
  apply for_range_ind; [lia| |].
  - change (Z.to_nat (16 - 16)) with 0%nat. cbn [Sha2.schedule]. rewrite rev_involutive. split_and!; [done| |done].
    apply Forall_rev, Forall_fmap, Forall_forall. intros i Hi%elem_of_seq. apply be_word_M; [done..|lia].
  - intros i w Hi (-> & Hf & Hz). replace (Z.to_nat (i + 1 - 16)) with (S (Z.to_nat (i - 16))) by lia.
    set (s := Sha2.schedule (Z.to_nat (i - 16)) b) in *. cbn [Sha2.schedule]. fold s.
    assert (forall k, (k < length s)%nat -> in_u32 (nth k s 0)) as Hr.
    { intros k Hk. rewrite Forall_forall in Hf. apply Hf. apply list_elem_of_In, nth_In. done. }
    assert (length s >= 16)%nat by (unfold zlen in Hz; lia).
    replace (i - 15) with (zlen s - 1 - Z.of_nat 14) by lia. replace (i - 2) with (zlen s - 1 - Z.of_nat 1) by lia.
    replace (i - 16) with (zlen s - 1 - Z.of_nat 15) by lia. replace (i - 7) with (zlen s - 1 - Z.of_nat 6) by lia.
    rewrite !rd_rev by lia. cbv zeta. rewrite sum4, !rotations_shift by (try apply Hr; lia). split_and!.
    + unfold Sha2.W_next, Sha2.sigma0, Sha2.sigma1. reflexivity.
    + constructor; [apply Sha2.plus_range|done].
    + rewrite zlen_cons. lia.
Qed.

(** *** The rounds *)

Definition hash_ok (v : Sha2.hash) : Prop := Forall in_u32 (Sha2.to_words v).
Definition hash_tuple (v : Sha2.hash) : Z * Z * Z * Z * Z * Z * Z * Z :=
  (Sha2.ha v, Sha2.hb v, Sha2.hc v, Sha2.hd v, Sha2.he v, Sha2.hf v, Sha2.hg v, Sha2.hh v).
Lemma constants_K : K256 = Sha2.K.
Proof. vm_compute. reflexivity. Qed.
Lemma constants_iv : sha256_iv = Sha2.H0.
Proof. vm_compute. reflexivity. Qed.
Lemma u32_plus x y : u32 (x + y) = Sha2.plus x y.
Proof. done. Qed.
Lemma round_standard w i v : hash_ok v ->
  sha256_round w i (hash_tuple v) = hash_tuple (Sha2.round v (rd 0 Sha2.K i, rd 0 w i)) /\
  hash_ok (Sha2.round v (rd 0 Sha2.K i, rd 0 w i)).
Proof.
  intros Hv. unfold hash_ok, Sha2.to_words in Hv. repeat (apply Forall_cons in Hv as [? Hv]). clear Hv.
  rewrite <- constants_K. split.
  - unfold sha256_round, hash_tuple, Sha2.round. cbn [Sha2.ha Sha2.hb Sha2.hc Sha2.hd Sha2.he Sha2.hf Sha2.hg Sha2.hh fst snd].
    rewrite !rotations_xor, choice_Ch, majority_Maj, sum5, !u32_plus by (done || lia). unfold Sha2.Sigma0, Sha2.Sigma1. reflexivity.
  - unfold hash_ok, Sha2.to_words, Sha2.round. cbn [Sha2.ha Sha2.hb Sha2.hc Sha2.hd Sha2.he Sha2.hf Sha2.hg Sha2.hh].
    repeat (constructor; [done || apply Sha2.plus_range|]). constructor.
Qed.
Lemma zip_indices (k w : list Z) n : length k = n -> length w = n ->
  zip k w = (fun i => (rd 0 k i, rd 0 w i)) <$> seqZ 0 (Z.of_nat n).
Proof.
  intros Hk Hw. apply list_eq. intros i. rewrite list_lookup_fmap. destruct (decide (i < n)%nat) as [Hi|Hi].
  - rewrite lookup_seqZ_lt by lia. destruct (lookup_lt_is_Some_2 k i) as [x Ex]; [lia|].
    destruct (lookup_lt_is_Some_2 w i) as [y Ey]; [lia|]. rewrite lookup_zip_with, Ex, Ey. cbn. unfold rd.
    rewrite !Z.add_0_l, Nat2Z.id. by rewrite (nth_lookup_Some _ _ _ _ Ex), (nth_lookup_Some _ _ _ _ Ey).
  - rewrite !lookup_ge_None_2; [done|rewrite length_seqZ; lia|rewrite length_zip_with; lia].
Qed.
Lemma rounds_standard w ks v : hash_ok v ->
  fold_left (fun s i => sha256_round w i s) ks (hash_tuple v) =
    hash_tuple (foldl Sha2.round v ((fun i => (rd 0 Sha2.K i, rd 0 w i)) <$> ks)) /\
  hash_ok (foldl Sha2.round v ((fun i => (rd 0 Sha2.K i, rd 0 w i)) <$> ks)).
Proof.
  revert v. induction ks as [|i ks IH]; intros v Hv; [done|]. cbn [fold_left fmap list_fmap foldl].
  destruct (round_standard w i v Hv) as [-> Hr]. by apply IH.
Qed.
Definition words_ok (h : list Z) : Prop := length h = 8%nat /\ Forall in_u32 h.
Lemma of_words_ok h : words_ok h -> hash_ok (Sha2.of_words h).
Proof. intros [Hl Hf]. do 8 (destruct h as [|? h]; [discriminate Hl|]). destruct h; [exact Hf|discriminate Hl]. Qed.
Lemma sha256_block_standard h b : words_ok h -> Forall in_u8 b -> length b = 64%nat ->
  sha256_block h b = Sha2.compress h b /\ words_ok (Sha2.compress h b).
Proof.
  intros [Hh Hr] Hb Hl. destruct (schedule_W b Hb Hl) as (Es & _ & Hw). unfold sha256_block, Sha2.compress.
  rewrite Es. cbv zeta. rewrite (zip_indices Sha2.K (Sha2.W b) 64) by (done || by rewrite <- constants_K).
  pose proof (of_words_ok h (conj Hh Hr)) as Ho.
  destruct (rounds_standard (Sha2.W b) (seqZ 0 64) _ Ho) as [Er _].
  change (for_upto 64 (sha256_round (Sha2.W b)) (rd 0 h 0, rd 0 h 1, rd 0 h 2, rd 0 h 3, rd 0 h 4, rd 0 h 5, rd 0 h 6, rd 0 h 7))
    with (fold_left (fun s i => sha256_round (Sha2.W b) i s) (seqZ 0 64) (hash_tuple (Sha2.of_words h))).
  rewrite Er. change (Z.of_nat 64) with 64. generalize (foldl Sha2.round (Sha2.of_words h)
    ((fun i => (rd 0 Sha2.K i, rd 0 (Sha2.W b) i)) <$> seqZ 0 64)). intros v. split; [done|]. split.
  - rewrite length_zip_with, Hh. done.
  - apply Forall_zip_with_fst with (P := in_u32); [done|]. apply Forall_true. intros x y _. apply Sha2.plus_range.
Qed.

(** *** The whole message *)

Lemma iterate_standard n : forall h data, words_ok h -> Forall in_u8 data -> length data = (64 * n)%nat ->
  iterate sha256_block n h data = foldl Sha2.compress h (Sha2.blocks n data) /\
  words_ok (foldl Sha2.compress h (Sha2.blocks n data)).
Proof.
  induction n as [|n IH]; intros h data Hh Hd Hl; [done|]. cbn [iterate Sha2.blocks foldl].
  destruct (sha256_block_standard h (take 64 data) Hh) as [-> Hc]; [by apply Forall_take|rewrite length_take; lia|].
  apply IH; [done|by apply Forall_drop|rewrite length_drop; lia].
Qed.
Lemma low_byte x k : 0 <= k <= 56 -> (x mod 2 ^ 64 / 2 ^ k) mod 2 ^ 8 = (x / 2 ^ k) mod 2 ^ 8.
Proof.
  intros Hk. apply Z.bits_inj'. intros i Hi. destruct (Z.ltb_spec i 8).
  - rewrite !Z.mod_pow2_bits_low, !Z.div_pow2_bits, Z.mod_pow2_bits_low by lia. done.
  - by rewrite !Z.mod_pow2_bits_high by lia.
Qed.
Lemma pad_standard msg : md_pad msg = Sha2.pad msg.
Proof.
  unfold md_pad, Sha2.pad, md_zeros, be64, zlen. do 3 f_equal. apply list_fmap_ext. intros k i [-> Hk]%lookup_seqZ.
  unfold u8, u64. rewrite Z.shiftr_div_pow2 by lia. change 18446744073709551616 with (2 ^ 64). change 256 with (2 ^ 8).
  rewrite low_byte by lia. by rewrite Z.mul_comm.
Qed.
Lemma pad_ok msg : Forall in_u8 msg -> Forall in_u8 (Sha2.pad msg) /\ exists n, length (Sha2.pad msg) = (64 * n)%nat.
Proof.
  intros Hm. unfold Sha2.pad. split.
  - apply Forall_app. split; [done|]. constructor; [done|]. apply Forall_app. split; [by apply Forall_replicate|].
    apply Forall_fmap, Forall_true. intros i. apply Z.mod_pos_bound. lia.
  - exists (Z.to_nat ((zlen msg + 9 + (55 - zlen msg) mod 64) / 64)).
    rewrite !length_app, length_replicate, length_fmap, length_seqZ. cbn [length]. unfold zlen. Z.div_mod_to_equations. lia.
Qed.
Lemma octets_standard x : word_bytes x = Sha2.octets x.
Proof.
  unfold word_bytes, u8. rewrite <- (Z.div_1_r x) at 4. by rewrite !Z.shiftr_div_pow2 by lia.
Qed.
Lemma md_hash_standard msg : Forall in_u8 msg -> md_hash sha256_block sha256_iv msg = Sha2.sha256 msg.
Proof.
  intros Hm. unfold md_hash, Sha2.sha256. rewrite pad_standard. destruct (pad_ok msg Hm) as [Hp [n Hn]].
  rewrite Hn, Nat.mul_comm, Nat.div_mul by done. rewrite constants_iv.
  destruct (iterate_standard n Sha2.H0 (Sha2.pad msg)) as [-> _]; [|done..|].
  - rewrite <- constants_iv. split; [done|]. apply (bool_decide_unpack _). vm_compute. done.
  - f_equal. apply list_fmap_ext. intros _ x _. apply octets_standard.
Qed.

(** C24. SHA-256: however a message of bytes is cut into calls of the update
    function (pieces that fill the buffer, span several blocks, or are empty),
    the digest is the hash FIPS 180-4 gives to the whole message. The standard
    is stated on its own, in [Fips180]: the constants are computed from the cube
    and square roots of the first primes, the functions on words are given by
    their bits, and padding, schedule and rounds follow its equations; it gives
    the standard's value for [abc]. *)
Theorem sha256_is_standard chunks : Forall (Forall in_u8) chunks ->
  rnet_sha256_final (fold_left rnet_sha256_update chunks rnet_sha256_init) = Sha2.sha256 (concat chunks).
Proof.
  intros Hb. rewrite <- md_hash_standard by (by apply Forall_concat).
  apply sha256_final_standard. change (concat chunks) with ([] ++ concat chunks). clear Hb.
  generalize sha256_init_absorbs. generalize rnet_sha256_init, (@nil Z).
  induction chunks as [|c chunks IH]; intros ctx msg H; simpl; [by rewrite app_nil_r|].
  rewrite app_assoc. by apply IH, sha256_update_absorbs.
Qed.
(** [abc] in two pieces. *)
Lemma sha256_is_standard_witness :
  rnet_sha256_final (fold_left rnet_sha256_update [[97]; [98; 99]] rnet_sha256_init) = Sha2.sha256 [97; 98; 99] /\
  Sha2.sha256 [97; 98; 99] =
    [186; 120; 22; 191; 143; 1; 207; 234; 65; 65; 64; 222; 93; 174; 34; 35;
     176; 3; 97; 163; 150; 23; 122; 156; 180; 16; 255; 97; 242; 0; 21; 173].
Proof.
  split; [|vm_compute; reflexivity]. apply (sha256_is_standard [[97]; [98; 99]]). repeat constructor; by vm_compute.
Defined.
