(* ===== verification/Ws.v ===== *)
(** * WebSocket framing and the outbound buffer ([src/lobby_ws/rnet_ws.c])

    Text frames, the accept key, and [RNetWsTx], the frame-atomic buffer in
    front of a non-blocking socket. The inbound side is [drain_ws_pending] of
    [src/lobby/rnet_lobby_client.c], which parses what the socket delivered.

    A call of [send] answers one [SendRes]; a loop around it is structural on
    the list of answers, and [None] says that the call has not returned yet.
    [send] never takes more than it is offered. *)

From stdpp Require Import base list numbers list_numbers strings relations.
From S2P Require Import Prelude CStrings Digest.

(** ** Base64 and the accept key *)

Definition B64 : list Z :=
  bytes_of "ABCDEFGHIJKLMNOPQRSTUVWXYZabcdefghijklmnopqrstuvwxyz0123456789+/".
Definition sextet (v shift : Z) : Z := rd 0 B64 (Z.land (Z.shiftr v shift) 63).
Definition pad_char : Z := 61.

(** The first loop of [b64_encode] (the second one writes over it). *)
Fixpoint b64_first (fuel : nat) (inp : list Z) (i o : Z) (out : list Z) : list Z :=
  let n := zlen inp in
  match fuel with
  | O => out
  | S fuel =>
    if i <? n then
      let v := Z.shiftl (rd 0 inp i) 16 in
      let i := i + 1 in
      let '(v, i) := if i <? n then (Z.lor v (Z.shiftl (rd 0 inp i) 8), i + 1) else (v, i) in
      let '(v, i) := if i <? n then (Z.lor v (rd 0 inp i), i + 1) else (v, i) in
      let out := wr out o (sextet v 18) in
      let out := wr out (o + 1) (sextet v 12) in
      let out := wr out (o + 2)
        (if (n + (if n mod 3 =? 1 then 1 else 0) <? i) && (n mod 3 =? 1) then pad_char else sextet v 6) in
      let out := wr out (o + 3)
        (if n mod 3 =? 1 then pad_char
         else if (n mod 3 =? 2) && (n <=? i) then pad_char else sextet v 0) in
      b64_first fuel inp i (o + 4) out
    else out
  end.

Definition b64_group (inp : list Z) (i : Z) : Z :=
  Z.lor (Z.lor (Z.shiftl (rd 0 inp i) 16) (Z.shiftl (rd 0 inp (i + 1)) 8)) (rd 0 inp (i + 2)).
Definition wr4 (out : list Z) (o a b c d : Z) : list Z :=
  wr (wr (wr (wr out o a) (o + 1) b) (o + 2) c) (o + 3) d.

(** [b64_encode(in, n, out)]: the array [out] after the call. *)
Definition b64_encode (inp out : list Z) : list Z :=
  let n := zlen inp in
  let out := b64_first (length inp) inp 0 0 out in
  let full := n / 3 * 3 in
  let rem := n - full in
  let out := for_upto (n / 3) (fun g out =>
    let v := b64_group inp (3 * g) in
    wr4 out (4 * g) (sextet v 18) (sextet v 12) (sextet v 6) (sextet v 0)) out in
  let o := 4 * (n / 3) in
  let '(out, o) :=
    if rem =? 1 then
      let v := Z.shiftl (rd 0 inp full) 16 in
      (wr4 out o (sextet v 18) (sextet v 12) pad_char pad_char, o + 4)
    else if rem =? 2 then
      let v := Z.lor (Z.shiftl (rd 0 inp full) 16) (Z.shiftl (rd 0 inp (full + 1)) 8) in
      (wr4 out o (sextet v 18) (sextet v 12) (sextet v 6) pad_char, o + 4)
    else (out, o) in
  wr out o 0.

Definition WS_GUID : string := "258EAFA5-E914-47DA-95CA-C5AB0DC85B11".

(** [rnet_ws_accept_key]: [None] is the error return; the result is the 32
    bytes of the caller's array. *)
Definition rnet_ws_accept_key (client_key : string) (out_b64 : list Z) : option (list Z) :=
  let n := Z.of_nat (String.length client_key + String.length WS_GUID) in
  if (n <=? 0) || (128 <=? n) then None
  else Some (b64_encode (rnet_sha1 (bytes_of client_key ++ bytes_of WS_GUID)) out_b64).

(** The bytes of an array up to its terminator. *)
Fixpoint c_bytes (a : list Z) : list Z :=
  match a with [] => [] | b :: r => if b =? 0 then [] else b :: c_bytes r end.

(** The example of RFC 6455. *)
Example accept_key_rfc6455 :
  c_bytes <$> rnet_ws_accept_key "dGhlIHNhbXBsZSBub25jZQ==" (replicate 32 7)
  = Some (bytes_of "s3pPLMBiTxaQ9kYGzzhZRbK+xOo=").
Proof. vm_compute. reflexivity. Qed.

(** ** Frames *)

Definition mask_bytes (r : Z) : list Z := [u8 r; u8 (Z.shiftr r 8); u8 (Z.shiftr r 16); u8 (Z.shiftr r 24)].
Definition xor_mask (mask text : list Z) : list Z :=
  imap (fun i b => Z.lxor b (rd 0 mask (Z.of_nat i mod 4))) text.

(** [rnet_ws_frame_text]: the bytes written (their number is the result);
    [None] is -1. [r] is the [rand()] a masked frame draws. *)
Definition rnet_ws_frame_text (text : list Z) (client_mask : bool) (r out_cap : Z) : option (list Z) :=
  let len := zlen text in
  if 65536 <=? len then None
  else
    let hlen := (if len <? 126 then 2 else 4) + (if client_mask then 4 else 0) in
    if (out_cap <? hlen + len) || (2147483647 <? hlen + len) then None
    else
      let m := if client_mask then 128 else 0 in
      let head := if len <? 126 then [129; u8 (Z.lor m len)]
                  else [129; u8 (Z.lor m 126); Z.land (Z.shiftr len 8) 255; Z.land len 255] in
      let mask := if client_mask then mask_bytes (u32 r) else [0; 0; 0; 0] in
      Some (head ++ (if client_mask then mask else []) ++ xor_mask mask text).

(** ** Writing to a socket *)

Inductive SendRes := SentN (n : Z) | Interrupted | WouldBlock | SendErr.

(** [send_all]: its result and what reached the wire. *)
Fixpoint send_all (answers : list SendRes) (buf wire : list Z) : option (Z * list Z) :=
  match buf with
  | [] => Some (0, wire)
  | _ => match answers with
         | [] => None
         | Interrupted :: rest => send_all rest buf wire
         | WouldBlock :: _ | SendErr :: _ => Some (-1, wire)
         | SentN k :: rest =>
           let n := Z.min k (zlen buf) in
           if n <=? 0 then Some (-1, wire)
           else send_all rest (drop (Z.to_nat n) buf) (wire ++ take (Z.to_nat n) buf)
         end
  end.

(** [rnet_ws_write_text]; [mem] says whether [malloc] succeeds. *)
Definition rnet_ws_write_text (answers : list SendRes) (text : list Z) (client_mask : bool) (r : Z) (mem : bool)
    (wire : list Z) : option (Z * list Z) :=
  let need := zlen text + 8 in
  if (2048 <? need) && negb mem then Some (-1, wire)
  else match rnet_ws_frame_text text client_mask r need with
       | None => Some (-1, wire)
       | Some frame => send_all answers frame wire
       end.

(** ** The outbound buffer *)

Definition RNET_WS_TX_CAP_DEFAULT : Z := 262144.

(** [tx_buf] has the [len] bytes held. *)
Record RNetWsTx := MkTx {
  tx_buf : list Z;
  tx_off : Z;
  tx_frame_at : Z;
  tx_alloc : Z;
  tx_capacity : Z;
  tx_frames_queued : Z;
  tx_would_blocks : Z;
  tx_split_frames : Z;
  tx_high_water : Z }.

Definition tx_len (tx : RNetWsTx) : Z := zlen (tx_buf tx).
Definition tx_cap (tx : RNetWsTx) : Z :=
  if nz (tx_capacity tx) then tx_capacity tx else RNET_WS_TX_CAP_DEFAULT.
Definition rnet_ws_tx_pending (tx : RNetWsTx) : Z := tx_len tx - tx_off tx.
Definition tx_zero (cap : Z) : RNetWsTx := MkTx [] 0 0 0 cap 0 0 0 0.
Definition rnet_ws_tx_free (tx : RNetWsTx) : RNetWsTx := tx_zero (tx_capacity tx).

(** Drop the frames that have gone whole. *)
Definition tx_compact (tx : RNetWsTx) : RNetWsTx :=
  if 0 <? tx_frame_at tx
  then MkTx (drop (Z.to_nat (tx_frame_at tx)) (tx_buf tx)) (tx_off tx - tx_frame_at tx) 0 (tx_alloc tx)
         (tx_capacity tx) (tx_frames_queued tx) (tx_would_blocks tx) (tx_split_frames tx) (tx_high_water tx)
  else tx.

(** [while (want < need) want *= 2u;]: 64 doublings pass any size. *)
Fixpoint grow (fuel : nat) (want need : Z) : Z :=
  match fuel with O => want | S fuel => if want <? need then grow fuel (want * 2) need else want end.

Definition tx_reserve (tx : RNetWsTx) (frame_max : Z) (mem : bool) : option RNetWsTx :=
  if tx_alloc tx <? tx_len tx + frame_max then
    let want := grow 64 (if nz (tx_alloc tx) then tx_alloc tx else 4096) (tx_len tx + frame_max) in
    if mem then Some (MkTx (tx_buf tx) (tx_off tx) (tx_frame_at tx) want (tx_capacity tx)
                        (tx_frames_queued tx) (tx_would_blocks tx) (tx_split_frames tx) (tx_high_water tx))
    else None
  else Some tx.

Definition tx_append (tx : RNetWsTx) (frame : list Z) : RNetWsTx :=
  let buf := tx_buf tx ++ frame in
  MkTx buf (tx_off tx) (tx_frame_at tx) (tx_alloc tx) (tx_capacity tx) (u64 (tx_frames_queued tx + 1))
    (tx_would_blocks tx) (tx_split_frames tx) (Z.max (tx_high_water tx) (zlen buf - tx_off tx)).

Definition rnet_ws_tx_queue_text (tx : RNetWsTx) (text : list Z) (client_mask : bool) (r : Z) (mem : bool)
    : Z * RNetWsTx :=
  let len := zlen text in
  if 65536 <=? len then (-1, tx)
  else
    let frame_max := len + 8 in
    if tx_cap tx <? rnet_ws_tx_pending tx + frame_max then (-2, tx)
    else
      let tx := tx_compact tx in
      match tx_reserve tx frame_max mem with
      | None => (-3, tx)
      | Some tx =>
        match rnet_ws_frame_text text client_mask r (tx_alloc tx - tx_len tx) with
        | None => (-1, tx)
        | Some frame => (0, tx_append tx frame)
        end
      end.

(** Length of the whole frame starting at [at_]. *)
Definition frame_len_at (buf : list Z) (at_ : Z) : Z :=
  let b1 := rd 0 buf (at_ + 1) in
  let plen := Z.land b1 127 in
  let '(plen, h) := if plen =? 126
    then (Z.lor (Z.shiftl (rd 0 buf (at_ + 2)) 8) (rd 0 buf (at_ + 3)), 4) else (plen, 2) in
  let h := if nz (Z.land b1 128) then h + 4 else h in
  h + plen.

(** The inner loop of the flush: the start of the frame that holds [off]. A
    frame has at least two bytes, so as many rounds as bytes are enough. *)
Fixpoint advance (fuel : nat) (buf : list Z) (frame_at off : Z) : Z :=
  match fuel with
  | O => frame_at
  | S fuel =>
    if (frame_at <? off) && (frame_at + frame_len_at buf frame_at <=? off)
    then advance fuel buf (frame_at + frame_len_at buf frame_at) off else frame_at
  end.

Definition tx_sent (tx : RNetWsTx) (n : Z) : RNetWsTx :=
  let off := tx_off tx + n in
  MkTx (tx_buf tx) off (advance (length (tx_buf tx)) (tx_buf tx) (tx_frame_at tx) off) (tx_alloc tx)
    (tx_capacity tx) (tx_frames_queued tx) (tx_would_blocks tx) (tx_split_frames tx) (tx_high_water tx).
Definition tx_blocked (tx : RNetWsTx) : RNetWsTx :=
  MkTx (tx_buf tx) (tx_off tx) (tx_frame_at tx) (tx_alloc tx) (tx_capacity tx) (tx_frames_queued tx)
    (u64 (tx_would_blocks tx + 1))
    (if tx_off tx =? tx_frame_at tx then tx_split_frames tx else u64 (tx_split_frames tx + 1))
    (tx_high_water tx).
Definition tx_drained (tx : RNetWsTx) : RNetWsTx :=
  MkTx [] 0 0 (tx_alloc tx) (tx_capacity tx) (tx_frames_queued tx) (tx_would_blocks tx)
    (tx_split_frames tx) (tx_high_water tx).

(** [rnet_ws_tx_flush]: its result, the buffer and the wire. *)
Fixpoint rnet_ws_tx_flush (answers : list SendRes) (tx : RNetWsTx) (wire : list Z)
    : option (Z * RNetWsTx * list Z) :=
  if tx_off tx <? tx_len tx then
    match answers with
    | [] => None
    | Interrupted :: rest => rnet_ws_tx_flush rest tx wire
    | WouldBlock :: _ => Some (tx_len tx - tx_off tx, tx_blocked tx, wire)
    | SendErr :: _ => Some (-1, tx, wire)
    | SentN k :: rest =>
      let n := Z.min k (tx_len tx - tx_off tx) in
      if n <=? 0 then Some (-1, tx, wire)
      else rnet_ws_tx_flush rest (tx_sent tx n)
             (wire ++ take (Z.to_nat n) (drop (Z.to_nat (tx_off tx)) (tx_buf tx)))
    end
  else Some (0, tx_drained tx, wire).

(** ** The inbound side *)

(** One frame at the front of the pending bytes. *)
Inductive WsIn :=
| NeedMore                                 (* not whole yet *)
| Broken                                   (* masked, or a 64-bit length: all is dropped *)
| Frame (opcode : Z) (payload rest : list Z).

Definition ws_parse (pending : list Z) : WsIn :=
  if zlen pending <? 2 then NeedMore
  else
    let b0 := rd 0 pending 0 in
    let b1 := rd 0 pending 1 in
    let plen := Z.land b1 127 in
    if nz (Z.land b1 128) then Broken
    else if (plen =? 126) && (zlen pending <? 4) then NeedMore
    else if plen =? 127 then Broken
    else
      let '(plen, i) := if plen =? 126
        then (Z.lor (Z.shiftl (rd 0 pending 2) 8) (rd 0 pending 3), 4) else (plen, 2) in
      if zlen pending <? i + plen then NeedMore
      else Frame (Z.land b0 15) (take (Z.to_nat plen) (drop (Z.to_nat i) pending))
             (drop (Z.to_nat (i + plen)) pending).

Definition RX_HTTP_SIZE : Z := 4096.

(** [drain_ws_pending]: [handle] is [handle_server_json]. The result is what
    is left, whether a close frame ended the connection, and the state. A
    frame has at least two bytes, so as many rounds as bytes are enough. *)
Section Drain.
Context {S : Type} (handle : list Z -> S -> S).
Fixpoint drain_ws_pending (fuel : nat) (pending : list Z) (s : S) : list Z * bool * S :=
  match fuel with
  | O => (pending, false, s)
  | Datatypes.S fuel =>
    match ws_parse pending with
    | NeedMore => (pending, false, s)
    | Broken => ([], false, s)
    | Frame opcode payload rest =>
      let s := if (opcode =? 1) && (zlen payload + 1 <? RX_HTTP_SIZE) then handle (c_bytes payload) s else s in
      if opcode =? 8 then ([], true, s) else drain_ws_pending fuel rest s
    end
  end.
End Drain.

(** * The WebSocket layer: base64, frames, the outbound buffer, the reader *)


(** ** Base64 *)

(** RFC 4648, three bytes at a time. *)
Fixpoint b64_ref (l : list Z) : list Z :=
  match l with
  | a :: b :: c :: r =>
    let v := Z.lor (Z.lor (Z.shiftl a 16) (Z.shiftl b 8)) c in
    [sextet v 18; sextet v 12; sextet v 6; sextet v 0] ++ b64_ref r
  | [a; b] => let v := Z.lor (Z.shiftl a 16) (Z.shiftl b 8) in [sextet v 18; sextet v 12; sextet v 6; pad_char]
  | [a] => let v := Z.shiftl a 16 in [sextet v 18; sextet v 12; pad_char; pad_char]
  | [] => []
  end.

Lemma b64_ref_app k : forall l1 l2, length l1 = (3 * k)%nat -> b64_ref (l1 ++ l2) = b64_ref l1 ++ b64_ref l2.
Proof.
  induction k as [|k IH]; intros l1 l2 H.
  - by rewrite (nil_length_inv l1) by lia.
  - destruct l1 as [|a [|b [|c l1]]]; simpl in H; try lia. cbn [app b64_ref]. by rewrite IH by lia.
Qed.

Lemma b64_first_length fuel : forall inp i o out, length (b64_first fuel inp i o out) = length out.
Proof.
  induction fuel as [|fuel IH]; intros inp i o out; simpl; [done|].
  destruct (i <? zlen inp); [|done].
  destruct (i + 1 <? zlen inp); cbn iota; destruct (_ <? zlen inp); rewrite IH; unfold wr; by rewrite !length_insert.
Qed.

Lemma wr_front (A out : list Z) x y : wr (A ++ x :: out) (zlen A) y = A ++ y :: out.
Proof. unfold wr, zlen. rewrite Nat2Z.id. by rewrite insert_app_r_alt, Nat.sub_diag by lia. Qed.

Lemma wr4_spec A out o a b c d : zlen A = o -> 4 <= zlen out ->
  wr4 (A ++ out) o a b c d = (A ++ [a; b; c; d]) ++ drop 4 out.
Proof.
  intros <- H. unfold wr4. do 4 (destruct out as [|? out]; [rewrite ?zlen_cons, zlen_nil in H; lia|]).
  rewrite wr_front.
  replace (zlen A + 1) with (zlen (A ++ [a])) by (rewrite zlen_app; done).
  replace (zlen A + 2) with (zlen (A ++ [a; b])) by (rewrite zlen_app; done).
  replace (zlen A + 3) with (zlen (A ++ [a; b; c])) by (rewrite zlen_app; done).
  rewrite (cons_middle a), app_assoc, wr_front.
  rewrite (cons_middle b), app_assoc, <- (app_assoc _ [a] [b]), wr_front.
  rewrite (cons_middle c), app_assoc, <- (app_assoc _ [a; b] [c]), wr_front.
  by rewrite <- !app_assoc.
Qed.

Lemma take3 (l : list Z) n : 0 <= n -> n + 3 <= zlen l ->
  take (Z.to_nat (n + 3)) l = take (Z.to_nat n) l ++ [rd 0 l n; rd 0 l (n + 1); rd 0 l (n + 2)].
Proof.
  intros Hn H. unfold rd, zlen in *. replace (Z.to_nat (n + 3)) with (Z.to_nat n + 3)%nat by lia.
  rewrite <- take_take_drop. f_equal.
  replace (Z.to_nat (n + 1)) with (Z.to_nat n + 1)%nat by lia.
  replace (Z.to_nat (n + 2)) with (Z.to_nat n + 2)%nat by lia.
  replace (nth (Z.to_nat n) l 0) with (nth (Z.to_nat n + 0) l 0) by (f_equal; lia).
  rewrite <- !nth_skipn. assert (3 <= length (drop (Z.to_nat n) l))%nat as Hl by (rewrite length_drop; lia).
  destruct (drop (Z.to_nat n) l) as [|a [|b [|c r]]] eqn:E; simpl in Hl; try lia.
  reflexivity.
Qed.

Lemma b64_group_loop inp out k : 0 <= k -> 3 * k <= zlen inp -> 4 * k <= zlen out ->
  for_upto k (fun g out =>
    let v := b64_group inp (3 * g) in
    wr4 out (4 * g) (sextet v 18) (sextet v 12) (sextet v 6) (sextet v 0)) out
  = b64_ref (take (Z.to_nat (3 * k)) inp) ++ drop (Z.to_nat (4 * k)) out /\
  zlen (b64_ref (take (Z.to_nat (3 * k)) inp)) = 4 * k.
Proof.
  intros Hk Hi Ho. revert k Hk Hi Ho. refine (natlike_ind _ _ _).
  - intros _ _. rewrite for_upto_0. done.
  - intros k Hk IH Hi Ho. unfold Z.succ in *. destruct IH as [IH1 IH2]; [lia..|].
    rewrite for_upto_succ, IH1 by done. cbv zeta. rewrite wr4_spec; [|done|unfold zlen in *; rewrite length_drop; lia].
    replace (3 * (k + 1)) with (3 * k + 3) by lia.
    rewrite take3, (b64_ref_app (Z.to_nat k)) by (rewrite ?length_take; unfold zlen in *; lia).
    cbn [b64_ref app]. unfold b64_group. split.
    + rewrite drop_drop. do 2 f_equal. f_equal. lia.
    + rewrite zlen_app, IH2, !zlen_cons, zlen_nil. lia.
Qed.

Lemma drop3_cases (inp : list Z) : exists tl, drop (Z.to_nat (3 * (zlen inp / 3))) inp = tl /\
  zlen tl = zlen inp mod 3 /\ forall i, 0 <= i -> rd 0 inp (3 * (zlen inp / 3) + i) = rd 0 tl i.
Proof.
  eexists. split; [reflexivity|]. split.
  - unfold zlen. rewrite length_drop. Z.div_mod_to_equations. lia.
  - intros i Hi. unfold rd. rewrite nth_skipn. f_equal. pose proof (zlen_nonneg inp). Z.div_mod_to_equations. lia.
Qed.

(** The last four characters and the terminator. *)
Lemma wr4_close A D o a b c d : zlen A = o -> 5 <= zlen D ->
  exists rest, wr (wr4 (A ++ D) o a b c d) (o + 4) 0 = (A ++ [a; b; c; d]) ++ 0 :: rest.
Proof.
  intros Hl HD. rewrite wr4_spec by (done || lia).
  do 5 (destruct D as [|? D]; [rewrite ?zlen_cons, zlen_nil in HD; lia|]). exists D. cbn [drop].
  replace (o + 4) with (zlen (A ++ [a; b; c; d])) by (rewrite zlen_app, Hl; done).
  by rewrite wr_front.
Qed.

(** Base64: for every input and every array with room for the result, the
    encoder leaves the RFC 4648 encoding, padded and terminated, at the front
    of the array; its first loop, which pads wrongly, writes nothing that
    survives. *)
Theorem b64_encode_ref inp out : 4 * ((zlen inp + 2) / 3) < zlen out ->
  exists rest, b64_encode inp out = b64_ref inp ++ 0 :: rest.
Proof.
  intros Ho. unfold b64_encode. cbv zeta. pose proof (zlen_nonneg inp) as Hn.
  assert (zlen (b64_first (length inp) inp 0 0 out) = zlen out) as Ef by (unfold zlen; by rewrite b64_first_length).
  set (buf := b64_first _ _ _ _ _) in *. clearbody buf.
  destruct (b64_group_loop inp buf (zlen inp / 3)) as [E Hl]; [Z.div_mod_to_equations; lia..|].
  cbv zeta in E. rewrite E. destruct (drop3_cases inp) as (tl & Ed & Htl & Hrd).
  assert (b64_ref inp = b64_ref (take (Z.to_nat (3 * (zlen inp / 3))) inp) ++ b64_ref tl) as ->.
  { rewrite <- Ed, <- (b64_ref_app (Z.to_nat (zlen inp / 3))); [by rewrite take_drop|].
    unfold zlen in *. rewrite length_take. Z.div_mod_to_equations. lia. }
  set (A := b64_ref (take _ _)) in *. clearbody A.
  set (D := drop _ buf). assert (zlen D = zlen out - 4 * (zlen inp / 3)) as HD.
  { unfold D, zlen in *. rewrite length_drop. Z.div_mod_to_equations. lia. }
  clearbody D. replace (zlen inp / 3 * 3) with (3 * (zlen inp / 3)) by lia.
  replace (zlen inp - 3 * (zlen inp / 3)) with (zlen tl) by (Z.div_mod_to_equations; lia).
  pose proof (Hrd 0 ltac:(lia)) as R0. pose proof (Hrd 1 ltac:(lia)) as R1. rewrite Z.add_0_r in R0. rewrite R0, R1.
  destruct tl as [|a [|b [|c tl]]]; rewrite ?zlen_cons, ?zlen_nil in *; cbn [Z.eqb Z.add Pos.eqb Pos.add] in *.
  - cbn. destruct D as [|x D]; [rewrite zlen_nil in HD; Z.div_mod_to_equations; lia|].
    exists D. by rewrite app_nil_r, <- Hl, wr_front.
  - apply wr4_close; [done|]. Z.div_mod_to_equations. lia.
  - apply wr4_close; [done|]. Z.div_mod_to_equations. lia.
  - pose proof (Z.mod_pos_bound (zlen inp) 3). pose proof (zlen_nonneg tl). lia.
Qed.

Lemma b64_encode_ref_witness : exists rest,
  b64_encode [77; 97; 110; 33] (replicate 9 0) = b64_ref [77; 97; 110; 33] ++ 0 :: rest.
Proof. apply b64_encode_ref. vm_compute. reflexivity. Defined.

(** ** Frames *)

Lemma short_head len : 0 <= len < 126 ->
  Z.land (u8 (Z.lor 0 len)) 127 = len /\ Z.land (u8 (Z.lor 0 len)) 128 = 0 /\
  Z.land (u8 (Z.lor 128 len)) 127 = len /\ Z.land (u8 (Z.lor 128 len)) 128 = 128.
Proof.
  intros H. assert (all_upto 126 (fun len =>
    (Z.land (u8 (Z.lor 0 len)) 127 =? len) && (Z.land (u8 (Z.lor 0 len)) 128 =? 0) &&
    (Z.land (u8 (Z.lor 128 len)) 127 =? len) && (Z.land (u8 (Z.lor 128 len)) 128 =? 128)) = true) as T
    by (vm_compute; reflexivity).
  rewrite all_upto_spec in T. specialize (T len H). bool_prop. done.
Qed.

(** A 16-bit length survives its two bytes. *)
Lemma len16 len : 0 <= len < 65536 ->
  Z.lor (Z.shiftl (Z.land (Z.shiftr len 8) 255) 8) (Z.land len 255) = len.
Proof.
  intros H. rewrite Z.lor_comm, !land_255, Z.shiftr_div_pow2 by lia. change (2 ^ 8) with 256.
  rewrite lor_byte; [|unfold in_u8; apply Z.mod_pos_bound; lia|Z.div_mod_to_equations; lia].
  Z.div_mod_to_equations. lia.
Qed.

Lemma length_xor_mask mask text : length (xor_mask mask text) = length text.
Proof. apply length_imap. Qed.

(** The shape of a frame: what its first bytes say is its length. *)
Lemma frame_text_shape text m r cap f : rnet_ws_frame_text text m r cap = Some f ->
  2 <= zlen f /\ zlen f <= zlen text + 8 /\ zlen f <= cap /\
  forall rest, frame_len_at (f ++ rest) 0 = zlen f.
Proof.
  unfold rnet_ws_frame_text. destruct (Z.leb_spec 65536 (zlen text)) as [|H16]; [done|].
  destruct (orb _ _) eqn:Ecap; [done|]. apply orb_false_elim in Ecap as [Ecap _]. apply Z.ltb_ge in Ecap.
  intros [= <-]. pose proof (zlen_nonneg text) as H0.
  assert (zlen (xor_mask (if m then mask_bytes (u32 r) else [0; 0; 0; 0]) text) = zlen text) as Hx.
  { unfold zlen. by rewrite length_xor_mask. }
  set (x := xor_mask _ _) in *. clearbody x.
  destruct (Z.ltb_spec (zlen text) 126) as [Hs|Hs], m; unfold mask_bytes; cbn [app];
    rewrite !zlen_cons, ?zlen_nil, Hx; (split_and!; [lia..|]); intros rest;
    unfold frame_len_at, rd; change (Z.to_nat (0 + 1)) with 1%nat; change (Z.to_nat (0 + 2)) with 2%nat;
    change (Z.to_nat (0 + 3)) with 3%nat; cbn [nth app].
  1, 2: destruct (short_head (zlen text)) as (E1 & E2 & E3 & E4); [lia|];
    rewrite ?E1, ?E2, ?E3, ?E4; (destruct (Z.eqb_spec (zlen text) 126); [lia|]); unfold nz; cbn [Z.eqb negb]; lia.
  - rewrite len16 by lia. change (Z.land (u8 (Z.lor 128 126)) 127 =? 126) with true.
    change (nz (Z.land (u8 (Z.lor 128 126)) 128)) with true. cbv iota beta. lia.
  - rewrite len16 by lia. change (Z.land (u8 (Z.lor 0 126)) 127 =? 126) with true.
    change (nz (Z.land (u8 (Z.lor 0 126)) 128)) with false. cbv iota beta. lia.
Qed.

(** An unmasked frame is read back whole, whatever follows it. *)
Lemma ws_parse_frame text r cap f rest : rnet_ws_frame_text text false r cap = Some f ->
  ws_parse (f ++ rest) = Frame 1 text rest.
Proof.
  unfold rnet_ws_frame_text. destruct (Z.leb_spec 65536 (zlen text)) as [|H16]; [done|].
  destruct (orb _ _); [done|]. intros [= <-]. pose proof (zlen_nonneg text) as H0. pose proof (zlen_nonneg rest).
  assert (xor_mask [0; 0; 0; 0] text = text) as ->.
  { apply list_eq. intros i. unfold xor_mask. rewrite list_lookup_imap.
    destruct (text !! i) as [b|]; [|done]. cbn [fmap option_fmap option_map]. f_equal. unfold rd.
    assert (nth (Z.to_nat (Z.of_nat i mod 4)) [0; 0; 0; 0] 0 = 0) as ->; [|apply Z.lxor_0_r].
    by destruct (Z.to_nat _) as [|[|[|[|[|?]]]]]. }
  destruct (Z.ltb_spec (zlen text) 126) as [Hs|Hs]; cbn [app]; unfold ws_parse, rd;
    change (Z.to_nat 0) with 0%nat; change (Z.to_nat 1) with 1%nat; change (Z.to_nat 2) with 2%nat;
    change (Z.to_nat 3) with 3%nat; cbn [nth]; rewrite !zlen_cons, zlen_app.
  - destruct (short_head (zlen text)) as (E1 & E2 & _ & _); [lia|]. rewrite E1, E2.
    destruct (Z.ltb_spec (zlen text + zlen rest + 1 + 1) 2); [lia|]. cbn [nz Z.eqb negb].
    destruct (Z.eqb_spec (zlen text) 126); [lia|]. cbn [andb].
    destruct (Z.eqb_spec (zlen text) 127); [lia|].
    destruct (Z.ltb_spec (zlen text + zlen rest + 1 + 1) (2 + zlen text)); [lia|].
    f_equal; unfold zlen in *.
    + rewrite Nat2Z.id. apply take_app_length.
    + replace (Z.to_nat (2 + Z.of_nat (length text))) with (2 + length text)%nat by lia. apply drop_app_length.
  - destruct (Z.ltb_spec (zlen text + zlen rest + 1 + 1 + 1 + 1) 2); [lia|].
    change (Z.land (u8 (Z.lor 0 126)) 127) with 126. change (Z.land (u8 (Z.lor 0 126)) 128) with 0.
    cbn [nz Z.eqb negb andb Pos.eqb].
    destruct (Z.ltb_spec (zlen text + zlen rest + 1 + 1 + 1 + 1) 4); [lia|]. rewrite len16 by lia.
    destruct (Z.ltb_spec (zlen text + zlen rest + 1 + 1 + 1 + 1) (4 + zlen text)); [lia|].
    f_equal; unfold zlen in *.
    + rewrite Nat2Z.id. apply take_app_length.
    + replace (Z.to_nat (4 + Z.of_nat (length text))) with (4 + length text)%nat by lia. apply drop_app_length.
Qed.

(** ** The outbound buffer *)

Lemma rd_app_r (A l : list Z) i : 0 <= i -> rd 0 (A ++ l) (zlen A + i) = rd 0 l i.
Proof. intros H. unfold rd, zlen. rewrite app_nth2 by lia. f_equal. lia. Qed.
Lemma frame_len_app A l : frame_len_at (A ++ l) (zlen A) = frame_len_at l 0.
Proof. unfold frame_len_at. by rewrite !rd_app_r by lia. Qed.

Definition frame_ok (f : list Z) : Prop := 2 <= zlen f /\ forall rest, frame_len_at (f ++ rest) 0 = zlen f.

(** A position in a sequence of frames: [at_] starts the frame that holds
    [off]. *)
Definition framed (fs : list (list Z)) (at_ off : Z) : Prop :=
  exists h1 h2, fs = h1 ++ h2 /\ at_ = zlen (concat h1) /\ at_ <= off <= zlen (concat fs) /\
    (off = at_ \/ exists f h, h2 = f :: h /\ off < at_ + zlen f).

Lemma advance_framed h2 : forall fuel h1 off, Forall frame_ok h2 -> (length (concat h2) <= fuel)%nat ->
  zlen (concat h1) <= off <= zlen (concat (h1 ++ h2)) ->
  framed (h1 ++ h2) (advance fuel (concat (h1 ++ h2)) (zlen (concat h1)) off) off.
Proof.
  induction h2 as [|f h2 IH]; intros fuel h1 off Hok Hfuel Hoff.
  - rewrite app_nil_r in *. exists h1, []. rewrite app_nil_r. assert (off = zlen (concat h1)) as -> by lia.
    replace (advance _ _ _ _) with (zlen (concat h1)) by (destruct fuel; cbn; by rewrite ?Z.ltb_irrefl).
    split_and!; [done..|lia|lia|by left].
  - apply Forall_cons in Hok as [[Hf2 Hflen] Hok]. rewrite concat_app in Hoff. cbn [concat] in *.
    rewrite length_app in Hfuel. destruct fuel as [|fuel]; [unfold zlen in *; lia|]. cbn [advance].
    rewrite concat_app, frame_len_app. cbn [concat]. rewrite Hflen.
    destruct (Z.ltb_spec (zlen (concat h1)) off) as [Hlt|Hge]; cbn [andb].
    + destruct (Z.leb_spec (zlen (concat h1) + zlen f) off) as [Hle|Hgt].
      * pose proof (IH fuel (h1 ++ [f]) off Hok) as G. rewrite !concat_app, <- app_assoc in G.
        cbn [concat app] in G. rewrite app_nil_r, zlen_app, <- app_assoc in G.
        rewrite zlen_app in Hoff. rewrite !zlen_app in Hoff. rewrite !zlen_app in G.
        apply G; [unfold zlen in *; lia|lia].
      * exists h1, (f :: h2). rewrite concat_app. cbn [concat]. split_and!; [done..|lia|lia|].
        right. by exists f, h2.
    + exists h1, (f :: h2). rewrite concat_app. cbn [concat]. split_and!; [done..|lia|lia|left; lia].
Qed.

(** The calls of a connection's owner, with the frames accepted so far. A
    flush that has not returned is no step. *)
Definition frame_of (m : list Z * bool * Z) : list Z :=
  let '(text, mask, r) := m in default [] (rnet_ws_frame_text text mask r (zlen text + 8)).

Inductive tx_step : RNetWsTx * list Z * list (list Z * bool * Z) ->
    RNetWsTx * list Z * list (list Z * bool * Z) -> Prop :=
| step_queue tx wire acc text mask r mem rc tx' :
    rnet_ws_tx_queue_text tx text mask r mem = (rc, tx') ->
    tx_step (tx, wire, acc) (tx', wire, if rc =? 0 then acc ++ [(text, mask, r)] else acc)
| step_flush tx wire acc answers rc tx' wire' :
    rnet_ws_tx_flush answers tx wire = Some (rc, tx', wire') ->
    tx_step (tx, wire, acc) (tx', wire', acc).

Record tx_inv (st : RNetWsTx * list Z * list (list Z * bool * Z)) : Prop := MkTxInv {
  inv_split : exists gone held, frame_of <$> st.2 = gone ++ held /\ tx_buf st.1.1 = concat held /\
    framed held (tx_frame_at st.1.1) (tx_off st.1.1) /\
    st.1.2 = concat gone ++ take (Z.to_nat (tx_off st.1.1)) (tx_buf st.1.1);
  inv_frames : Forall frame_ok (frame_of <$> st.2);
  inv_pending : rnet_ws_tx_pending st.1.1 <= tx_cap st.1.1 }.

Lemma take_zlen_app (A B : list Z) : take (Z.to_nat (zlen A)) (A ++ B) = A.
Proof. unfold zlen. rewrite Nat2Z.id. apply take_app_length. Qed.
Lemma drop_zlen_app (A B : list Z) : drop (Z.to_nat (zlen A)) (A ++ B) = B.
Proof. unfold zlen. rewrite Nat2Z.id. apply drop_app_length. Qed.
(** Cutting at [off] past the front [A]. *)
Lemma take_past (A B : list Z) off : zlen A <= off ->
  take (Z.to_nat off) (A ++ B) = A ++ take (Z.to_nat (off - zlen A)) B.
Proof.
  intros H. unfold zlen in *. rewrite take_app_ge by lia. do 2 f_equal. lia.
Qed.

Lemma framed_nil : framed [] 0 0.
Proof. exists [], []. split_and!; try done. by left. Qed.

Lemma tx_compact_inv tx wire acc : tx_inv (tx, wire, acc) ->
  tx_inv (tx_compact tx, wire, acc) /\
  rnet_ws_tx_pending (tx_compact tx) = rnet_ws_tx_pending tx /\ tx_cap (tx_compact tx) = tx_cap tx.
Proof.
  intros [(gone & held & Ef & Eb & (h1 & h2 & -> & Ea & Ho & Hpos) & Ew) Hok Hp]. cbn in *.
  unfold tx_compact. destruct (Z.ltb_spec 0 (tx_frame_at tx)) as [Hpos'|Hz].
  - assert (drop (Z.to_nat (tx_frame_at tx)) (tx_buf tx) = concat h2) as Ed
      by (rewrite Eb, Ea, concat_app; apply drop_zlen_app).
    assert (zlen (concat h2) - (tx_off tx - tx_frame_at tx) = rnet_ws_tx_pending tx) as Epend.
    { unfold rnet_ws_tx_pending, tx_len. rewrite Eb, concat_app, zlen_app. lia. }
    rewrite concat_app, zlen_app in Ho.
    split_and!; [|unfold rnet_ws_tx_pending, tx_len; cbn; rewrite Ed; exact Epend|done].
    constructor; cbn; [|done|unfold rnet_ws_tx_pending, tx_len; cbn; rewrite Ed, Epend; exact Hp].
    exists (gone ++ h1), h2. rewrite Ed. split_and!; [by rewrite Ef, <- app_assoc|done| |].
    + exists [], h2. split_and!; [done..|lia|lia|]. destruct Hpos as [->|(f & h & -> & Hlt)]; [left; lia|].
      right. exists f, h. split; [done|lia].
    + rewrite Ew, Eb, !concat_app, <- app_assoc, take_past by lia. by rewrite Ea.
  - split_and!; [|done..]. constructor; cbn; [|done..]. exists gone, (h1 ++ h2). split_and!; try done.
    by exists h1, h2.
Qed.

Lemma tx_reserve_inv tx wire acc n mem tx' : tx_inv (tx, wire, acc) -> tx_reserve tx n mem = Some tx' ->
  tx_inv (tx', wire, acc) /\ rnet_ws_tx_pending tx' = rnet_ws_tx_pending tx /\ tx_cap tx' = tx_cap tx.
Proof.
  unfold tx_reserve. intros [H1 H2 H3].
  generalize (grow 64 (if nz (tx_alloc tx) then tx_alloc tx else 4096) (tx_len tx + n)). intros want.
  destruct (_ <? _); [|by intros [= <-]]. destruct mem; [|done]. intros [= <-]. split_and!; [|done..]. by constructor.
Qed.

Lemma frame_any_cap text m r cap f : rnet_ws_frame_text text m r cap = Some f ->
  rnet_ws_frame_text text m r (zlen text + 8) = Some f.
Proof.
  unfold rnet_ws_frame_text. destruct (Z.leb_spec 65536 (zlen text)) as [|H]; [done|].
  set (hlen := (if zlen text <? 126 then 2 else 4) + (if m then 4 else 0)).
  assert (hlen <= 8) by (unfold hlen; destruct (zlen text <? 126), m; lia).
  assert ((zlen text + 8 <? hlen + zlen text) = false) as -> by (apply Z.ltb_ge; lia).
  destruct (cap <? _); cbn [orb]; [congruence|]. destruct (_ <? hlen + zlen text); congruence.
Qed.

Lemma tx_append_inv tx wire acc text m r cap f : tx_inv (tx, wire, acc) ->
  rnet_ws_frame_text text m r cap = Some f -> rnet_ws_tx_pending tx + (zlen text + 8) <= tx_cap tx ->
  tx_inv (tx_append tx f, wire, acc ++ [(text, m, r)]).
Proof.
  intros [(gone & held & Ef & Eb & (h1 & h2 & -> & Ea & Ho & Hpos) & Ew) Hok Hp] Hf Hroom. cbn in *.
  destruct (frame_text_shape _ _ _ _ _ Hf) as (Hf2 & Hf8 & _ & Hlen).
  assert (frame_of <$> acc ++ [(text, m, r)] = (frame_of <$> acc) ++ [f]) as Efs.
  { rewrite fmap_app. cbn. by rewrite (frame_any_cap _ _ _ _ _ Hf). }
  constructor; cbn.
  - exists gone, (h1 ++ h2 ++ [f]). rewrite Efs, Ef, !concat_app. cbn. rewrite app_nil_r.
    split_and!; [by rewrite <- !app_assoc|by rewrite Eb, concat_app, <- app_assoc| |].
    + exists h1, (h2 ++ [f]). rewrite !concat_app. cbn. rewrite app_nil_r. rewrite !concat_app in Ho.
      rewrite !zlen_app in *. split_and!; [done..|lia|lia|].
      destruct Hpos as [->|(g & h & -> & Hlt)]; [by left|right]. by exists g, (h ++ [f]).
    + rewrite Ew. rewrite take_app_le; [done|]. rewrite Eb. unfold zlen in *. lia.
  - rewrite Efs. apply Forall_app. split; [done|]. constructor; [|done]. by split.
  - unfold rnet_ws_tx_pending, tx_len in *. cbn. rewrite zlen_app. unfold tx_cap in *. cbn. lia.
Qed.

Lemma tx_queue_inv tx wire acc text m r mem rc tx' : tx_inv (tx, wire, acc) ->
  rnet_ws_tx_queue_text tx text m r mem = (rc, tx') ->
  tx_inv (tx', wire, if rc =? 0 then acc ++ [(text, m, r)] else acc).
Proof.
  unfold rnet_ws_tx_queue_text. intros H. destruct (65536 <=? zlen text); [intros [= <- <-]; exact H|].
  destruct (Z.ltb_spec (tx_cap tx) (rnet_ws_tx_pending tx + (zlen text + 8))) as [|Hroom];
    [intros [= <- <-]; exact H|].
  destruct (tx_compact_inv _ _ _ H) as (H1 & Ep1 & Ec1).
  destruct (tx_reserve (tx_compact tx) _ mem) as [tx2|] eqn:Er; [|intros [= <- <-]; exact H1].
  destruct (tx_reserve_inv _ _ _ _ _ _ H1 Er) as (H2 & Ep2 & Ec2).
  destruct (rnet_ws_frame_text _ _ _ _) as [f|] eqn:Ef; intros [= <- <-]; [|exact H2].
  eapply tx_append_inv; [exact H2|exact Ef|]. lia.
Qed.

Lemma tx_sent_inv tx wire acc n : tx_inv (tx, wire, acc) -> 0 < n -> tx_off tx + n <= tx_len tx ->
  tx_inv (tx_sent tx n, wire ++ take (Z.to_nat n) (drop (Z.to_nat (tx_off tx)) (tx_buf tx)), acc).
Proof.
  intros [(gone & held & Ef & Eb & (h1 & h2 & -> & Ea & Ho & _) & Ew) Hok Hp] Hn Hlen. cbn in *.
  unfold tx_len in Hlen. rewrite Eb in Hlen. pose proof (zlen_nonneg (concat h1)) as H0.
  constructor; cbn; [|done|unfold rnet_ws_tx_pending, tx_len, tx_cap in *; cbn; lia].
  exists gone, (h1 ++ h2). split_and!; [done..| |].
  - rewrite Eb, Ea. apply advance_framed; [|rewrite concat_app, length_app; lia|lia].
    rewrite Ef in Hok. by apply Forall_app in Hok as [_ [_ ?]%Forall_app].
  - rewrite Ew, <- app_assoc. f_equal. replace (Z.to_nat (tx_off tx + n)) with (Z.to_nat (tx_off tx) + Z.to_nat n)%nat by lia.
    by rewrite take_take_drop.
Qed.

Lemma tx_flush_inv answers : forall tx wire acc rc tx' wire', tx_inv (tx, wire, acc) ->
  rnet_ws_tx_flush answers tx wire = Some (rc, tx', wire') -> tx_inv (tx', wire', acc).
Proof.
  induction answers as [|a answers IH]; intros tx wire acc rc tx' wire' H; cbn [rnet_ws_tx_flush];
    destruct (Z.ltb_spec (tx_off tx) (tx_len tx)) as [Hlt|Hge]; try done.
  2: destruct a as [k| | |].
  2: destruct (Z.leb_spec (k `min` (tx_len tx - tx_off tx)) 0) as [|Hn]; [intros [= <- <- <-]; exact H|];
     apply IH, tx_sent_inv; [done|lia|lia].
  2: by apply IH.
  2: intros [= <- <- <-]; destruct H as [H1 H2 H3]; by constructor.
  2: intros [= <- <- <-]; exact H.
  all: intros [= <- <- <-]; destruct H as [(gone & held & Ef & Eb & (h1 & h2 & -> & Ea & Ho & _) & Ew) Hok Hp]; cbn in *;
    (constructor; cbn; [|done|]).
  1, 3: exists (gone ++ h1 ++ h2), []; rewrite app_nil_r; (split_and!; [done..|exact framed_nil|]);
    rewrite app_nil_r, concat_app, Ew, Eb; f_equal; apply take_ge; unfold tx_len, zlen in *; rewrite Eb in Hge; lia.
  all: unfold rnet_ws_tx_pending, tx_len, tx_cap in *; cbn; rewrite Eb in *; unfold zlen in *; cbn; lia.
Qed.

Lemma tx_step_inv st st' : tx_step st st' -> tx_inv st -> tx_inv st'.
Proof. destruct 1; intros; [by eapply tx_queue_inv|by eapply tx_flush_inv]. Qed.

(** C22. The frame-atomic outbound buffer of a WebSocket connection: after any
    sequence of queue calls (accepted, refused over the cap, out of memory, too
    long) and flushes (partial sends, interrupts, would-blocks, errors), the
    bytes on the wire followed by the unsent backlog are exactly the accepted
    frames, whole and in order; the backlog is within the cap; and the wire
    ends inside at most the one frame the buffer's [frame_at] names. *)
Theorem ws_stream_exact cap tx wire acc : 0 <= cap ->
  rtc tx_step (tx_zero cap, [], []) (tx, wire, acc) ->
  wire ++ drop (Z.to_nat (tx_off tx)) (tx_buf tx) = concat (frame_of <$> acc) /\
  rnet_ws_tx_pending tx <= tx_cap tx /\
  exists whole next, frame_of <$> acc = whole ++ next /\
    zlen wire = zlen (concat whole) + (tx_off tx - tx_frame_at tx) /\
    (tx_off tx = tx_frame_at tx \/ exists f more, next = f :: more /\ 0 <= tx_off tx - tx_frame_at tx < zlen f).
Proof.
  intros Hcap Hr. assert (tx_inv (tx, wire, acc)) as [(gone & held & Ef & Eb & (h1 & h2 & -> & Ea & Ho & Hpos) & Ew) _ Hp].
  { revert Hr. generalize (tx, wire, acc). intros st Hr.
    assert (tx_inv (tx_zero cap, [], [])) as H0.
    { constructor; cbn; [|constructor|].
      - exists [], []. split_and!; try done. apply framed_nil.
      - unfold rnet_ws_tx_pending, tx_len, tx_cap, zlen. cbn. destruct (nz cap); [lia|done]. }
    induction Hr as [|st1 st2 st3 Hs _ IH]; [done|]. by eapply IH, tx_step_inv. }
  cbn in *. split_and!; [|done|].
  - rewrite Ew, Ef, concat_app, <- app_assoc, Eb. by rewrite take_drop.
  - exists (gone ++ h1), h2. split_and!; [by rewrite Ef, <- app_assoc| |].
    + rewrite Ew, concat_app, !zlen_app, <- Ea. rewrite Eb. unfold zlen in *. rewrite length_take. lia.
    + destruct Hpos as [|(f & h & -> & Hlt)]; [by left|right]. exists f, h. split; [done|lia].
Qed.

(** A queued text, three bytes of it sent, a would-block, a second text. *)
Lemma ws_stream_exact_witness :
  exists tx wire acc, rtc tx_step (tx_zero 64, [], []) (tx, wire, acc) /\ length acc = 2%nat /\
    wire ++ drop (Z.to_nat (tx_off tx)) (tx_buf tx) = concat (frame_of <$> acc).
Proof.
  assert (exists tx wire acc, rtc tx_step (tx_zero 64, [], []) (tx, wire, acc) /\ length acc = 2%nat)
    as (tx & wire & acc & Hr & Hl).
  { do 3 eexists. split.
    - eapply rtc_l; [eapply (step_queue _ _ _ [104; 105] true 7 true); vm_compute; reflexivity|].
      eapply rtc_l; [eapply (step_flush _ _ _ [SentN 3; WouldBlock]); vm_compute; reflexivity|].
      eapply rtc_l; [eapply (step_queue _ _ _ [121; 111] true 9 true); vm_compute; reflexivity|].
      apply rtc_refl.
    - reflexivity. }
  exists tx, wire, acc. split; [exact Hr|]. split; [exact Hl|].
  apply (ws_stream_exact 64 tx wire acc ltac:(lia) Hr).
Defined.

(** ** The reader *)

Lemma rd_prefix (p q : list Z) i : 0 <= i < zlen p -> rd 0 p i = rd 0 (p ++ q) i.
Proof. intros H. unfold rd, zlen in *. by rewrite app_nth1 by lia. Qed.

(** Part of an unmasked frame waits for the rest. *)
Lemma ws_parse_partial text r cap p q : rnet_ws_frame_text text false r cap = Some (p ++ q) -> q <> [] ->
  ws_parse p = NeedMore.
Proof.
  intros Hf Hq. pose proof (ws_parse_frame _ _ _ _ [] Hf) as Hp. rewrite app_nil_r in Hp.
  assert (zlen p < zlen (p ++ q)) as Hlt.
  { rewrite zlen_app. destruct q; [done|]. rewrite zlen_cons. pose proof (zlen_nonneg q). lia. }
  assert (zlen (p ++ q) = (if Z.land (rd 0 (p ++ q) 1) 127 =? 126 then 4 else 2) + zlen text) as Elen.
  { revert Hf. unfold rnet_ws_frame_text. destruct (Z.leb_spec 65536 (zlen text)); [done|].
    destruct (orb _ _); [done|]. intros [= <-]. pose proof (zlen_nonneg text).
    destruct (Z.ltb_spec (zlen text) 126); cbn [app]; rewrite !zlen_cons; unfold rd, zlen; rewrite length_xor_mask.
    - change (Z.to_nat 1) with 1%nat. cbn [nth]. fold (zlen text).
      destruct (short_head (zlen text)) as (-> & _); [lia|]. destruct (Z.eqb_spec (zlen text) 126); lia.
    - change (Z.land _ 127 =? 126) with true. lia. }
  unfold ws_parse in *. destruct (Z.ltb_spec (zlen p) 2); [done|].
  destruct (Z.ltb_spec (zlen (p ++ q)) 2); [lia|]. rewrite (rd_prefix p q 1) by lia.
  destruct (nz _); [done|]. set (plen := Z.land (rd 0 (p ++ q) 1) 127) in *.
  destruct (plen =? 126) eqn:E126; cbn [andb] in *.
  - destruct (Z.ltb_spec (zlen p) 4); [done|]. destruct (Z.ltb_spec (zlen (p ++ q)) 4); [lia|].
    destruct (plen =? 127); [done|]. rewrite !(rd_prefix p q) by lia.
    destruct (Z.ltb_spec (zlen (p ++ q)) (4 + Z.lor (Z.shiftl (rd 0 (p ++ q) 2) 8) (rd 0 (p ++ q) 3))) as [|Hge]; [done|].
    injection Hp as _ Et _. apply (f_equal zlen) in Et. unfold zlen in Et at 1. rewrite length_take, length_drop in Et.
    destruct (Z.ltb_spec (zlen p) (4 + Z.lor (Z.shiftl (rd 0 (p ++ q) 2) 8) (rd 0 (p ++ q) 3))) as [|Hge']; [done|].
    unfold zlen in *. lia.
  - destruct (plen =? 127); [done|]. destruct (Z.ltb_spec (zlen (p ++ q)) (2 + plen)) as [|Hge]; [done|].
    injection Hp as _ Et _. apply (f_equal zlen) in Et. unfold zlen in Et at 1. rewrite length_take, length_drop in Et.
    destruct (Z.ltb_spec (zlen p) (2 + plen)) as [|Hge']; [done|]. unfold zlen in *. lia.
Qed.

Section Reader.
Context {S : Type} (handle : list Z -> S -> S).

(** One read: the bytes are appended and parsed. *)
Definition ws_read (st : list Z * S) (chunk : list Z) : list Z * S :=
  let '(pending, _, s) := drain_ws_pending handle (length (st.1 ++ chunk)) (st.1 ++ chunk) st.2 in (pending, s).

Definition plain (text : list Z) : list Z := frame_of (text, false, 0).
#[local] Arguments plain : simpl never.
(** A text a peer may send: it fits the reader's buffer and has no NUL. *)
Definition sendable (text : list Z) : Prop := zlen text <= 4092 /\ c_bytes text = text.

Lemma plain_frame text : sendable text -> rnet_ws_frame_text text false 0 (zlen text + 8) = Some (plain text).
Proof using.
  intros [H _]. unfold plain, frame_of, rnet_ws_frame_text. pose proof (zlen_nonneg text).
  assert ((65536 <=? zlen text) = false) as -> by (apply Z.leb_gt; lia).
  assert ((zlen text + 8 <? (if zlen text <? 126 then 2 else 4) + 0 + zlen text) = false) as ->
    by (apply Z.ltb_ge; destruct (_ <? _); lia).
  assert ((2147483647 <? (if zlen text <? 126 then 2 else 4) + 0 + zlen text) = false) as ->
    by (apply Z.ltb_ge; destruct (_ <? 126); lia).
  done.
Qed.

(** Draining whole frames and the part of one more. *)
Lemma drain_frames texts : forall fuel tail s, Forall sendable texts ->
  ws_parse tail = NeedMore -> (length texts < fuel)%nat ->
  drain_ws_pending handle fuel (concat (plain <$> texts) ++ tail) s
  = (tail, false, fold_left (fun s t => handle t s) texts s).
Proof using.
  induction texts as [|t texts IH]; intros fuel tail s Hs Ht Hf; (destruct fuel as [|fuel]; [simpl in Hf; lia|]);
    cbn [drain_ws_pending fmap list_fmap concat app].
  - by rewrite Ht.
  - apply Forall_cons in Hs as [Ht' Hs]. rewrite <- app_assoc, (ws_parse_frame _ _ _ _ _ (plain_frame _ Ht')).
    destruct Ht' as [Hlen Hnul]. cbn [Z.eqb Pos.eqb andb].
    assert ((zlen t + 1 <? RX_HTTP_SIZE) = true) as -> by (apply Z.ltb_lt; unfold RX_HTTP_SIZE; lia).
    rewrite Hnul. apply IH; [done..|]. simpl in Hf. lia.
Qed.

Lemma plain_length t : sendable t -> (2 <= length (plain t))%nat.
Proof using. intros H. destruct (frame_text_shape _ _ _ _ _ (plain_frame _ H)) as (H2 & _). unfold zlen in H2. lia. Qed.

Lemma concat_plain_length texts : Forall sendable texts -> (length texts <= length (concat (plain <$> texts)))%nat.
Proof using.
  induction 1 as [|t texts Ht _ IH]; cbn; [done|]. rewrite length_app. pose proof (plain_length t Ht). lia.
Qed.

(** Every prefix of a stream of frames is whole frames and a part of one. *)
Lemma stream_cut texts : forall got rest, Forall sendable texts -> concat (plain <$> texts) = got ++ rest ->
  exists t1 t2 tail, texts = t1 ++ t2 /\ got = concat (plain <$> t1) ++ tail /\ ws_parse tail = NeedMore /\
    (tail = [] \/ exists t t3 q, t2 = t :: t3 /\ q <> [] /\ plain t = tail ++ q).
Proof using.
  induction texts as [|t texts IH]; intros got rest Hs E.
  - destruct got; [|done]. exists [], [], []. split_and!; try done. by left.
  - apply Forall_cons in Hs as [Ht Hs]. cbn in E.
    destruct (decide (length (plain t) <= length got)%nat) as [Hle|Hgt].
    + assert (got = plain t ++ drop (length (plain t)) got) as Eg.
      { apply (f_equal (take (length (plain t)))) in E. rewrite take_app_length, take_app_le in E by lia.
        rewrite E, length_take, Nat.min_l by lia. by rewrite take_drop. }
      rewrite Eg, <- app_assoc in E. apply app_inv_head in E.
      destruct (IH _ _ Hs E) as (t1 & t2 & tail & -> & E2 & Hp & Ht2).
      exists (t :: t1), t2, tail. split_and!; [done| |done..]. cbn. by rewrite Eg, E2, <- app_assoc.
    + assert (plain t = got ++ drop (length got) (plain t)) as Eg.
      { apply (f_equal (take (length got))) in E. rewrite take_app_length, take_app_le in E by lia.
        rewrite <- E at 1. by rewrite take_drop. }
      assert (drop (length got) (plain t) <> []) as Hne.
      { intros E0. apply (f_equal length) in E0. rewrite length_drop in E0. simpl in E0. lia. }
      exists [], (t :: texts), got. split_and!; [done..| |].
      * eapply ws_parse_partial; [|exact Hne]. rewrite <- Eg. by apply plain_frame.
      * right. exists t, texts, (drop (length got) (plain t)). done.
Qed.

(** One read past a part of a frame. *)
Lemma ws_read_stream texts chunk rest tail s : Forall sendable texts -> concat (plain <$> texts) = (tail ++ chunk) ++ rest ->
  exists t1 t2 tail', texts = t1 ++ t2 /\ concat (plain <$> t2) = tail' ++ rest /\ ws_parse tail' = NeedMore /\
    ws_read (tail, s) chunk = (tail', fold_left (fun s t => handle t s) t1 s).
Proof using.
  intros Hs E. destruct (stream_cut _ _ _ Hs E) as (t1 & t2 & tail' & -> & E2 & Hp & _).
  apply Forall_app in Hs as [Hs1 Hs2]. exists t1, t2, tail'. split; [done|]. split; [|split; [done|]].
  - rewrite fmap_app, concat_app, E2, <- app_assoc in E. by apply app_inv_head in E.
  - unfold ws_read. cbn [fst snd]. pose proof (concat_plain_length _ Hs1) as Hl.
    destruct t1 as [|a t1].
    + cbn in E2. rewrite E2. destruct (length tail') as [|n] eqn:El.
      * by rewrite (nil_length_inv _ El).
      * cbn [drain_ws_pending]. by rewrite Hp.
    + rewrite E2, drain_frames; [done..|]. rewrite length_app. cbn in Hl |- *. rewrite length_app in *.
      apply Forall_cons in Hs1 as [Ha Hs1]. pose proof (plain_length a Ha).
      pose proof (concat_plain_length _ Hs1). lia.
Qed.
End Reader.

(** C23. Composition of the two directions: a peer that frames texts with this
    library's encoder (unmasked, each within the reader's buffer) is read back
    exactly, text by text and in order, however the stream is cut into reads -
    inside a header, inside a payload, or several frames at once; after the
    last byte nothing is left over. *)
Theorem ws_reads_back {S} (handle : list Z -> S -> S) texts chunks s : Forall sendable texts ->
  concat chunks = concat (plain <$> texts) ->
  fold_left (ws_read handle) chunks ([], s) = ([], fold_left (fun s t => handle t s) texts s).
Proof.
  intros Hs E.
  assert (forall tail texts s, Forall sendable texts -> concat (plain <$> texts) = tail ++ concat chunks ->
    ws_parse tail = NeedMore ->
    fold_left (ws_read handle) chunks (tail, s) = ([], fold_left (fun s t => handle t s) texts s)) as G.
  { clear. induction chunks as [|c chunks IH]; intros tail texts s Hs E Hn; cbn [fold_left concat] in *.
    - rewrite app_nil_r in E. destruct texts as [|a texts]; [cbn in E; by rewrite <- E|].
      apply Forall_cons in Hs as [Ha _]. rewrite <- E in Hn. cbn in Hn.
      by rewrite (ws_parse_frame _ _ _ _ _ (plain_frame _ Ha)) in Hn.
    - rewrite app_assoc in E. destruct (ws_read_stream handle _ _ _ _ s Hs E) as (t1 & t2 & tail' & -> & E2 & Hn' & ->).
      apply Forall_app in Hs as [_ Hs2]. rewrite (IH _ _ _ Hs2 E2 Hn'). by rewrite fold_left_app. }
  by apply G.
Qed.

(** Two texts in three reads: a header cut after its first byte, and a
    payload cut before its last. *)
Lemma ws_reads_back_witness :
  fold_left (ws_read (fun t (s : list (list Z)) => s ++ [t])) [[129]; [2; 104; 105; 129; 1]; [33]] ([], [])
  = ([], [[104; 105]; [33]]).
Proof.
  apply (ws_reads_back (fun t (s : list (list Z)) => s ++ [t]) [[104; 105]; [33]]).
  - repeat constructor; vm_compute; congruence.
  - vm_compute. reflexivity.
Defined.
