(* ===== verification/ChatFilter.v ===== *)
(** * The chat filter ([src/chat/rnet_chat_filter.c])

    UTF-8, folding, the word list and the matcher. The list itself
    ([rnet_chat_filter_words.inc], which the build generates) is the argument
    [k_words_text]; the environment variable that switches the filter off is
    the argument [env]. A text is the bytes before its terminator. *)

From stdpp Require Import base list numbers list_numbers strings.
From S2P Require Import Prelude CStrings.

Definition CF_MAX_WORDS : Z := 1024.
Definition CF_MAX_WORD_CP : Z := 32.
Definition CF_MAX_TEXT_CP : Z := 1024.

Record CfWord := MkWord {
  w_cp : list Z;            (* its [len] code points, folded *)
  w_anywhere : bool }.

(** ** UTF-8 *)

(** [(b & 0xC0) == 0x80] of byte [i]. *)
Definition is_cont (s : list Z) (i : Z) : bool := Z.land (rd 0 s i) 192 =? 128.
Definition low6 (s : list Z) (i : Z) : Z := Z.land (rd 0 s i) 63.

(** The number of bytes read (0: malformed or empty) and the code point. *)
Definition utf8_decode (s : list Z) : Z * Z :=
  let len := zlen s in
  let s0 := rd 0 s 0 in
  if len =? 0 then (0, 0)
  else if s0 <? 128 then (1, s0)
  else if (Z.land s0 224 =? 192) && (2 <=? len) && is_cont s 1
  then (2, Z.lor (Z.shiftl (Z.land s0 31) 6) (low6 s 1))
  else if (Z.land s0 240 =? 224) && (3 <=? len) && is_cont s 1 && is_cont s 2
  then (3, Z.lor (Z.lor (Z.shiftl (Z.land s0 15) 12) (Z.shiftl (low6 s 1) 6)) (low6 s 2))
  else if (Z.land s0 248 =? 240) && (4 <=? len) && is_cont s 1 && is_cont s 2 && is_cont s 3
  then (4, Z.lor (Z.lor (Z.lor (Z.shiftl (Z.land s0 7) 18) (Z.shiftl (low6 s 1) 12)) (Z.shiftl (low6 s 2) 6)) (low6 s 3))
  else (0, 0).

Definition cont (cp shift : Z) : Z := Z.lor 128 (Z.land (Z.shiftr cp shift) 63).
Definition utf8_encode (cp : Z) : list Z :=
  if cp <? 128 then [u8 cp]
  else if cp <? 2048 then [u8 (Z.lor 192 (Z.shiftr cp 6)); cont cp 0]
  else if cp <? 65536 then [u8 (Z.lor 224 (Z.shiftr cp 12)); cont cp 6; cont cp 0]
  else [u8 (Z.lor 240 (Z.shiftr cp 18)); cont cp 12; cont cp 6; cont cp 0].

(** ** Folding *)

Definition k_latin1 : list Z := bytes_of "aaaaaaaceeeeiiiidnooooo/ouuuuytsaaaaaaaceeeeiiiidnooooo/ouuuuyty".
Definition fold_latin1 (c : Z) : Z :=
  let m := rd 0 k_latin1 (c - 192) in
  if m =? 47 then c
  else if (c =? 222) || (c =? 254) then 116
  else m.

(** The branch for [c < 0x80]: lower case, leetspeak. *)
Definition fold_ascii (c : Z) : Z :=
  if (65 <=? c) && (c <=? 90) then c + 32
  else match c with
       | 48 => 111 | 49 => 105 | 51 => 101 | 52 => 97 | 53 => 115 | 55 => 116
       | 64 => 97 | 36 => 115 | 33 => 105 | 124 => 108 | 43 => 116
       | _ => c
       end.

Definition k_base : list Z := bytes_of
  "aaaaaaccccccccddddeeeeeeeeeegggggggghhhhiiiiiiiiiijjjjkkklllllllllllnnnnnnnnnoooooooorrrrrrssssssssttttttuuuuuuuuuuuuwwyyyzzzzzzs".

Definition fold_greek (c : Z) : Z :=
  match c with
  | 940 => 945 | 941 => 949 | 942 => 951 | 943 => 953 | 972 => 959 | 973 => 965 | 974 => 969
  | 902 => 945 | 904 => 949 | 905 => 951 | 906 => 953 | 908 => 959 | 910 => 965 | 911 => 969
  | _ => c
  end.

Definition fold (c : Z) : Z :=
  if c <? 128 then fold_ascii c
  else if (192 <=? c) && (c <=? 255) then fold_latin1 c
  else if (256 <=? c) && (c <=? 383) then
    if c - 256 <? zlen k_base then rd 0 k_base (c - 256) else c
  else if (1040 <=? c) && (c <=? 1071) then c + 32
  else if c =? 1025 then 1077
  else if c =? 1105 then 1077
  else if c =? 1028 then 1108
  else if c =? 1030 then 1110
  else if c =? 1031 then 1111
  else if c =? 1168 then 1169
  else if (913 <=? c) && (c <=? 937) then c + 32
  else if c =? 962 then 963
  else if (940 <=? c) && (c <=? 974) then fold_greek c
  else if (902 <=? c) && (c <=? 911) then fold_greek c
  else if (65281 <=? c) && (c <=? 65374) then fold_ascii (c - 65281 + 33)
  else if c =? 8364 then 101
  else c.

Definition is_letter (c : Z) : bool :=
  if c <? 128 then (97 <=? c) && (c <=? 122)
  else if (8192 <=? c) && (c <=? 8303) then false
  else if (12288 <=? c) && (c <=? 12351) then false
  else if (65280 <=? c) && (c <=? 65295) then false
  else negb ((c =? 160) || (c =? 183) || (c =? 191) || (c =? 161)).

Definition is_separator (c : Z) : bool :=
  (c =? 32) || (c =? 46) || (c =? 45) || (c =? 95) || (c =? 42) || (c =? 39) || (c =? 44) ||
  (c =? 8217) || (c =? 160).

(** ** The list *)

(** The letters of one line: bytes up to the newline (a malformed byte, a
    carriage return or a space is skipped) and what is left. *)
Fixpoint load_line (fuel : nat) (p cp : list Z) : list Z * list Z :=
  match fuel, p with
  | S fuel, b :: r =>
    if b =? 10 then (cp, p)
    else
      let '(n, c) := utf8_decode p in
      if n =? 0 then load_line fuel r cp
      else
        let p := drop (Z.to_nat n) p in
        if (c =? 13) || (c =? 32) then load_line fuel p cp
        else load_line fuel p (if zlen cp <? CF_MAX_WORD_CP then cp ++ [fold c] else cp)
  | _, _ => (cp, p)
  end.

Fixpoint load_lines (fuel : nat) (p : list Z) (words : list CfWord) : list CfWord :=
  match fuel, p with
  | S fuel, b :: r =>
    if zlen words <? CF_MAX_WORDS then
      let '(anywhere, p) := if b =? 126 then (true, r) else (false, p) in
      let '(cp, p) := load_line (length p) p [] in
      let p := drop 1 p in
      load_lines fuel p (if 0 <? zlen cp then words ++ [MkWord cp anywhere] else words)
    else words
  | _, _ => words
  end.

(** The static variables after [load_words]. *)
Record CfState := MkCf { cf_words : list CfWord; cf_disabled : bool }.
Definition env_off (env : option string) : bool :=
  match env with
  | Some (String c _) => (ch c =? 48) || (ch c =? 110) || (ch c =? 78) || (ch c =? 102) || (ch c =? 70)
  | _ => false
  end.
Definition load_words (k_words_text : list Z) (env : option string) : CfState :=
  MkCf (load_lines (length k_words_text) k_words_text []) (env_off env).

Definition rnet_chat_filter_enabled (g : CfState) : bool := negb (cf_disabled g) && (0 <? zlen (cf_words g)).
Definition rnet_chat_filter_word_count (g : CfState) : Z := zlen (cf_words g).

(** ** Matching *)

(** How many elements at the front satisfy [f]: where [while (p < n && f(t[p]))
    ++p] ends. *)
Fixpoint span (f : Z -> bool) (t : list Z) : Z :=
  match t with [] => 0 | c :: r => if f c then 1 + span f r else 0 end.

(** The loop over the letters of a word, from position [p]. *)
Fixpoint match_letters (allow_sep first : bool) (cp t : list Z) (p : Z) : option Z :=
  match cp with
  | [] => Some p
  | want :: rest =>
    let p := if negb first && allow_sep then p + span is_separator (drop (Z.to_nat p) t) else p in
    if (zlen t <=? p) || negb (rd 0 t p =? want) then None
    else
      let p := p + 1 in
      let p := match rest with
               | next :: _ => if next =? want then p else p + span (Z.eqb want) (drop (Z.to_nat p) t)
               | [] => p + span (Z.eqb want) (drop (Z.to_nat p) t)
               end in
      match_letters allow_sep false rest t p
  end.

(** [match_at]: the end of the match, 0 for none. *)
Definition match_at (t orig : list Z) (at_ : Z) (w : CfWord) : Z :=
  if negb (w_anywhere w) && (0 <? at_) && is_letter (rd 0 orig (at_ - 1)) then 0
  else match match_letters (4 <=? zlen (w_cp w)) true (w_cp w) t at_ with
       | None => 0
       | Some p => if negb (w_anywhere w) && (p <? zlen t) && is_letter (rd 0 orig p) then 0 else p
       end.

(** [best_end] of one position. *)
Definition best_at (words : list CfWord) (t orig : list Z) (i : Z) : Z :=
  fold_left (fun best w =>
    if rd 0 (w_cp w) 0 =? rd 0 t i then Z.max best (match_at t orig i w) else best) words 0.

(** [for (m = i; m < end; ++m) orig[m] = '*';] *)
Definition mask (orig : list Z) (i e : Z) : list Z :=
  take (Z.to_nat i) orig ++ replicate (Z.to_nat (e - i)) 42 ++ drop (Z.to_nat e) orig.

(** [filter_cps] from position [i]: the number of hits and [orig]. Each round
    moves [i] forward, so as many rounds as code points are enough. *)
Fixpoint filter_cps (words : list CfWord) (fuel : nat) (orig folded : list Z) (i hits : Z) : Z * list Z :=
  match fuel with
  | O => (hits, orig)
  | S fuel =>
    if i <? zlen folded then
      if negb (is_letter (rd 0 folded i)) then filter_cps words fuel orig folded (i + 1) hits
      else
        let best := best_at words folded orig i in
        if 0 <? best then filter_cps words fuel (mask orig i best) folded best (hits + 1)
        else filter_cps words fuel orig folded (i + 1) hits
    else (hits, orig)
  end.

(** The decoding loop of [rnet_chat_filter_apply]: [None] for a malformed or
    too long line. *)
Fixpoint decode_all (fuel : nat) (s cps : list Z) : option (list Z) :=
  match s with
  | [] => Some cps
  | _ => match fuel with
         | O => None
         | S fuel =>
           if zlen cps <? CF_MAX_TEXT_CP then
             let '(k, cp) := utf8_decode s in
             if k =? 0 then None else decode_all fuel (drop (Z.to_nat k) s) (cps ++ [cp])
           else None
         end
  end.

(** The encoding loop: it stops before the terminator would leave [cap]. *)
Fixpoint encode_all (cap : Z) (cps out : list Z) : list Z :=
  match cps with
  | [] => out
  | c :: r => let b := utf8_encode c in
              if cap <? zlen out + zlen b + 1 then out else encode_all cap r (out ++ b)
  end.

(** [rnet_chat_filter_apply]: the hits and the bytes the array holds. *)
Definition rnet_chat_filter_apply (g : CfState) (text : list Z) (cap : Z) : Z * list Z :=
  if cap =? 0 then (0, text)
  else if cf_disabled g || (zlen (cf_words g) =? 0) then (0, text)
  else
    match decode_all (length text) (take (Z.to_nat cap) text) [] with
    | None => (0, text)
    | Some cps =>
      let '(hits, orig) := filter_cps (cf_words g) (length cps) cps (fold <$> cps) 0 0 in
      if hits =? 0 then (0, text) else (hits, encode_all cap orig [])
    end.

Definition rnet_chat_filter_copy (g : CfState) (inp : option (list Z)) (out_cap : Z) : Z * list Z :=
  if out_cap =? 0 then (0, [])
  else match inp with
       | None => (0, [])
       | Some inp =>
         let n := if out_cap <=? zlen inp then out_cap - 1 else zlen inp in
         rnet_chat_filter_apply g (take (Z.to_nat n) inp) out_cap
       end.

(** * The chat filter masks listed words, and nothing else *)


(** ** What a match is

    The rules of the list, stated on the text from a position on: the letters
    of the word come in order; every further repeat of a letter belongs to it,
    unless the word itself goes on with that letter; where separators may be
    bridged, all of them are. What is left of the text is the last argument. *)

Definition starts_not (f : Z -> Prop) (l : list Z) : Prop := forall x, head l = Some x -> ~ f x.
(** What may stand between two letters, before [txt]. *)
Definition gap_ok (sep : bool) (gap txt : list Z) : Prop :=
  if sep then Forall (fun x => is_separator x = true) gap /\ starts_not (fun x => is_separator x = true) txt
  else gap = [].
Inductive spells (sep : bool) : list Z -> list Z -> list Z -> Prop :=
| sp_last c k rest : starts_not (eq c) rest -> spells sep [c] (replicate (S k) c ++ rest) rest
| sp_next c k d cp gap txt rest :
    c <> d -> starts_not (eq c) (gap ++ txt) -> gap_ok sep gap txt -> spells sep (d :: cp) txt rest ->
    spells sep (c :: d :: cp) (replicate (S k) c ++ gap ++ txt) rest
| sp_double c cp gap txt rest :
    gap_ok sep gap txt -> spells sep (c :: cp) txt rest -> spells sep (c :: c :: cp) (c :: gap ++ txt) rest.

(** A listed word from [s] to [e] in the folded text [t]: it is spelled there,
    and unless it matches anywhere it stands between boundaries, which are
    judged on [orig]. Separators are bridged in words of four letters or more. *)
Definition word_at (t orig : list Z) (w : CfWord) (s e : Z) : Prop :=
  0 <= s < e /\ e <= zlen t /\
  spells (4 <=? zlen (w_cp w)) (w_cp w) (drop (Z.to_nat s) t) (drop (Z.to_nat e) t) /\
  (w_anywhere w = false -> 0 < s -> is_letter (rd 0 orig (s - 1)) = false) /\
  (w_anywhere w = false -> e < zlen t -> is_letter (rd 0 orig e) = false).

(** ** The matcher decides it *)

Lemma span_spec f t : 0 <= span f t <= zlen t /\
  Forall (fun x => f x = true) (take (Z.to_nat (span f t)) t) /\
  (forall c r, drop (Z.to_nat (span f t)) t = c :: r -> f c = false).
Proof.
  induction t as [|c t (IH1 & IH2 & IH3)]; cbn [span].
  - split_and!; [done|done|constructor|]. by intros c r.
  - rewrite zlen_cons. destruct (f c) eqn:E.
    + replace (Z.to_nat (1 + span f t)) with (S (Z.to_nat (span f t))) by lia.
      split_and!; [lia|lia|by constructor|]. exact IH3.
    + pose proof (zlen_nonneg t). split_and!; [lia|lia|constructor|]. intros d r [= <- <-]. done.
Qed.

Lemma Forall_eq_replicate c l : Forall (fun x => (c =? x) = true) l -> l = replicate (length l) c.
Proof. induction 1 as [|x l H _ IH]; cbn; [done|]. apply Z.eqb_eq in H as <-. by f_equal. Qed.

Lemma span_app f a b : Forall (fun x => f x = true) a -> starts_not (fun x => f x = true) b -> span f (a ++ b) = zlen a.
Proof.
  intros Ha Hb. induction Ha as [|x a Hx Ha IH]; cbn [app span].
  - destruct b as [|x b]; [done|]. cbn. destruct (f x) eqn:E; [|done]. by destruct (Hb x eq_refl).
  - rewrite Hx, IH, zlen_cons. lia.
Qed.
Lemma drop_z (t a b : list Z) p : 0 <= p -> drop (Z.to_nat p) t = a ++ b -> drop (Z.to_nat (p + zlen a)) t = b.
Proof.
  intros Hp E. unfold zlen. replace (Z.to_nat (p + Z.of_nat (length a))) with (Z.to_nat p + length a)%nat by lia.
  rewrite <- drop_drop, E. apply drop_app_length.
Qed.
Lemma drop_len (t a b : list Z) p : 0 <= p -> a <> [] -> drop (Z.to_nat p) t = a ++ b -> p + zlen a <= zlen t.
Proof.
  intros Hp Ha E%(f_equal length). rewrite length_drop, length_app in E. unfold zlen.
  destruct a; [done|]. cbn in *. lia.
Qed.
Lemma drop_head (t r : list Z) c p : 0 <= p -> drop (Z.to_nat p) t = c :: r -> p < zlen t /\ rd 0 t p = c.
Proof.
  intros Hp E. split; [apply (drop_len t [c] r) in E; [unfold zlen in *; cbn in *; lia|done|done]|].
  unfold rd. rewrite <- (Nat.add_0_r (Z.to_nat p)), <- nth_skipn. change (skipn (Z.to_nat p) t) with (drop (Z.to_nat p) t).
  by rewrite E.
Qed.
Lemma starts_not_eqb c l : starts_not (eq c) l -> starts_not (fun x => (c =? x) = true) l.
Proof. intros H x Hx E%Z.eqb_eq. by apply (H x). Qed.
Lemma replicate_eqb c k : Forall (fun x => (c =? x) = true) (replicate k c).
Proof. apply Forall_replicate, Z.eqb_refl. Qed.

(** Where the loop stands after the separators. *)
Definition skipped (sep first : bool) (t : list Z) (p : Z) : Z :=
  if negb first && sep then p + span is_separator (drop (Z.to_nat p) t) else p.

Lemma match_letters_cons sep first c cp t p0 : match_letters sep first (c :: cp) t p0 =
  let p := skipped sep first t p0 in
  if (zlen t <=? p) || negb (rd 0 t p =? c) then None
  else match_letters sep false cp t
    match cp with
    | d :: _ => if d =? c then p + 1 else p + 1 + span (Z.eqb c) (drop (Z.to_nat (p + 1)) t)
    | [] => p + 1 + span (Z.eqb c) (drop (Z.to_nat (p + 1)) t)
    end.
Proof. reflexivity. Qed.

Lemma gap_skipped sep t p gap txt : 0 <= p -> drop (Z.to_nat p) t = gap ++ txt -> gap_ok sep gap txt ->
  skipped sep false t p = p + zlen gap.
Proof.
  intros Hp E Hg. unfold skipped, gap_ok in *. cbn [negb andb]. destruct sep; [|subst; change (zlen []) with 0; lia].
  rewrite E, span_app by apply Hg. done.
Qed.

(** The matcher finds every spelling. *)
Lemma match_letters_complete sep cp txt rest : spells sep cp txt rest ->
  forall t p, 0 <= p -> drop (Z.to_nat p) t = txt ->
  exists e, p < e <= zlen t /\ drop (Z.to_nat e) t = rest /\
    forall first p0, skipped sep first t p0 = p -> match_letters sep first cp t p0 = Some e.
Proof.
  induction 1 as [c k rest Hr|c k d cp gap txt rest Hd Hr Hg _ IH|c cp gap txt rest Hg _ IH]; intros t p Hp E.
  - assert (drop (Z.to_nat (p + 1)) t = replicate k c ++ rest) as E1 by (by apply (drop_z t [c])).
    pose proof (drop_head t _ c p Hp E) as [Hlt Hc]. pose proof (drop_len t (replicate (S k) c) rest p Hp ltac:(done) E) as Hle.
    exists (p + zlen (replicate (S k) c)). split_and!; [unfold zlen in *; rewrite length_replicate in *; lia..|by apply drop_z|].
    intros first p0 Hs. rewrite match_letters_cons, Hs. cbv zeta.
    destruct (Z.leb_spec (zlen t) p); [lia|]. rewrite Hc, Z.eqb_refl. cbn [orb negb].
    rewrite E1, span_app by (apply replicate_eqb || by apply starts_not_eqb).
    f_equal. unfold zlen. rewrite !length_replicate. lia.
  - assert (drop (Z.to_nat (p + 1)) t = replicate k c ++ gap ++ txt) as E1 by (by apply (drop_z t [c])).
    pose proof (drop_head t _ c p Hp E) as [Hlt Hc].
    assert (drop (Z.to_nat (p + 1 + zlen (replicate k c))) t = gap ++ txt) as E2 by (apply drop_z; [lia|done]).
    pose proof (zlen_nonneg (replicate k c)). pose proof (zlen_nonneg gap).
    destruct (IH t (p + 1 + zlen (replicate k c) + zlen gap)) as (e & He & Ee & IHm); [lia|by apply drop_z; [lia|]|].
    exists e. split_and!; [lia|lia|done|]. intros first p0 Hs.
    rewrite match_letters_cons, Hs. cbv zeta.
    destruct (Z.leb_spec (zlen t) p); [lia|]. rewrite Hc, Z.eqb_refl. cbn [orb negb].
    destruct (Z.eqb_spec d c); [congruence|].
    rewrite E1, span_app by (apply replicate_eqb || by apply starts_not_eqb).
    apply IHm. by rewrite (gap_skipped sep t _ gap txt) by (done || lia).
  - assert (drop (Z.to_nat (p + 1)) t = gap ++ txt) as E1 by (by apply (drop_z t [c])).
    pose proof (drop_head t _ c p Hp E) as [Hlt Hc]. pose proof (zlen_nonneg gap).
    destruct (IH t (p + 1 + zlen gap)) as (e & He & Ee & IHm); [lia|by apply drop_z; [lia|]|].
    exists e. split_and!; [lia|lia|done|]. intros first p0 Hs.
    rewrite match_letters_cons, Hs. cbv zeta.
    destruct (Z.leb_spec (zlen t) p); [lia|]. rewrite Hc, Z.eqb_refl. cbn [orb negb].
    apply IHm. by rewrite (gap_skipped sep t _ gap txt) by (done || lia).
Qed.

(** The front that satisfies [f], cut off. *)
Lemma span_cut f t p : 0 <= p <= zlen t ->
  let q := p + span f (drop (Z.to_nat p) t) in
  p <= q <= zlen t /\ exists a, drop (Z.to_nat p) t = a ++ drop (Z.to_nat q) t /\
    Forall (fun x => f x = true) a /\ starts_not (fun x => f x = true) (drop (Z.to_nat q) t).
Proof.
  intros Hp q. destruct (span_spec f (drop (Z.to_nat p) t)) as (S1 & S2 & S3).
  set (n := span _ _) in *. unfold zlen in *. rewrite length_drop in S1. split; [lia|].
  assert (drop (Z.to_nat q) t = drop (Z.to_nat n) (drop (Z.to_nat p) t)) as Eq by (rewrite drop_drop; f_equal; lia).
  exists (take (Z.to_nat n) (drop (Z.to_nat p) t)). rewrite Eq. split_and!; [by rewrite take_drop|done|].
  intros x Hx. destruct (drop (Z.to_nat n) _) as [|y r]; [done|]. injection Hx as ->. by rewrite (S3 x r eq_refl).
Qed.
Lemma skipped_gap sep t p : 0 <= p <= zlen t -> let q := skipped sep false t p in
  p <= q <= zlen t /\ exists gap, drop (Z.to_nat p) t = gap ++ drop (Z.to_nat q) t /\ gap_ok sep gap (drop (Z.to_nat q) t).
Proof.
  intros Hp. unfold skipped, gap_ok. cbn [negb andb]. destruct sep.
  - destruct (span_cut is_separator t p Hp) as (H1 & a & H2 & H3 & H4). split; [done|]. by exists a.
  - split; [lia|]. by exists [].
Qed.

(** What the matcher accepts is a spelling. *)
Lemma match_letters_sound sep cp : forall first t p e, cp <> [] -> 0 <= p <= zlen t ->
  skipped sep first t p <= zlen t -> p <= skipped sep first t p -> match_letters sep first cp t p = Some e ->
  skipped sep first t p < e <= zlen t /\
  spells sep cp (drop (Z.to_nat (skipped sep first t p)) t) (drop (Z.to_nat e) t).
Proof.
  induction cp as [|c cp IH]; intros first t p0 e Hne Hp0 Hs1 Hs2; [done|]. rewrite match_letters_cons. cbv zeta.
  set (p := skipped sep first t p0) in *. clearbody p.
  destruct (Z.leb_spec (zlen t) p) as [|Hlt]; [done|]. cbn [orb].
  destruct (Z.eqb_spec (rd 0 t p) c) as [Hc|]; [|done]. cbn [negb].
  assert (drop (Z.to_nat p) t = c :: drop (Z.to_nat (p + 1)) t) as E.
  { destruct (lookup_lt_is_Some_2 t (Z.to_nat p)) as [x Hx]; [unfold zlen in *; lia|].
    rewrite (drop_S _ _ _ Hx). replace (Z.to_nat (p + 1)) with (S (Z.to_nat p)) by lia. f_equal.
    unfold rd in Hc. by rewrite (nth_lookup_Some _ _ _ _ Hx) in Hc. }
  destruct (span_cut (Z.eqb c) t (p + 1)) as (Hq & a & Ea & Ha & Hn); [lia|].
  set (q := p + 1 + span (Z.eqb c) (drop (Z.to_nat (p + 1)) t)) in *. clearbody q.
  apply Forall_eq_replicate in Ha. set (k := length a) in *. clearbody k. subst a.
  assert (starts_not (eq c) (drop (Z.to_nat q) t)) as Hn'.
  { intros x Hx <-. apply (Hn c Hx), Z.eqb_refl. }
  destruct cp as [|d cp].
  - cbn [match_letters]. intros [= <-]. split; [lia|]. rewrite E, Ea. by apply (sp_last sep c k).
  - intros Hm. destruct (Z.eqb_spec d c) as [->|Hd].
    + destruct (skipped_gap sep t (p + 1)) as (G1 & gap & G2 & G3); [lia|].
      apply IH in Hm as [He Hm]; [|done|lia|lia|lia]. split; [lia|]. rewrite E, G2. by apply sp_double.
    + destruct (skipped_gap sep t q) as (G1 & gap & G2 & G3); [lia|].
      apply IH in Hm as [He Hm]; [|done|lia|lia|lia]. split; [lia|]. rewrite E, Ea, G2.
      apply (sp_next sep c k d); [done|by rewrite <- G2|done|done].
Qed.

(** [match_at] is the end of the word, 0 when the word is not there. *)
Lemma match_at_exact t orig w s e : w_cp w <> [] -> 0 <= s <= zlen t -> 0 < e ->
  match_at t orig s w = e <-> word_at t orig w s e.
Proof.
  intros Hne Hs He. unfold match_at. split.
  - destruct (negb (w_anywhere w) && (0 <? s) && is_letter _) eqn:E1; [lia|].
    destruct (match_letters _ _ _ _ _) as [p|] eqn:Ep; [|lia].
    destruct (negb (w_anywhere w) && (p <? zlen t) && is_letter _) eqn:E2; [lia|]. intros ->.
    apply match_letters_sound in Ep as [H1 H2]; [|done|done|cbn; lia|cbn; lia]. cbn in H1, H2.
    split_and!; [lia..|done| |]; intros Ha Hlt; rewrite Ha in *; cbn in *.
    + assert ((0 <? s) = true) as Et by (by apply Z.ltb_lt). by rewrite Et in E1.
    + assert ((e <? zlen t) = true) as Et by (by apply Z.ltb_lt). by rewrite Et in E2.
  - intros (H1 & H2 & H3 & H4 & H5).
    destruct (match_letters_complete _ _ _ _ H3 t s ltac:(lia) eq_refl) as (e' & He' & Ed & Hm).
    rewrite (Hm true s eq_refl). assert (e' = e) as ->.
    { apply (f_equal length) in Ed. rewrite !length_drop in Ed. unfold zlen in *. lia. }
    destruct (w_anywhere w); cbn [negb andb]; [done|].
    destruct (Z.ltb_spec 0 s); cbn [andb]; [rewrite H4 by done|]; (destruct (Z.ltb_spec e (zlen t)); cbn [andb]; [by rewrite H5|done]).
Qed.

Lemma match_at_nonneg t orig s w : w_cp w <> [] -> 0 <= s <= zlen t -> 0 <= match_at t orig s w.
Proof.
  intros Hne Hs. unfold match_at. destruct (_ && _ && _); [lia|].
  destruct (match_letters _ _ _ _ _) as [p|] eqn:Ep; [|lia].
  apply match_letters_sound in Ep as [? _]; [|done|done|cbn; lia|cbn; lia]. cbn in *. destruct (_ && _ && _); lia.
Qed.

(** ** One position *)

Definition wf_words (words : list CfWord) : Prop := Forall (fun w => w_cp w <> []) words.

Lemma match_at_first t orig w s : w_cp w <> [] -> match_at t orig s w <> 0 -> rd 0 (w_cp w) 0 = rd 0 t s.
Proof.
  intros Hne H. unfold match_at in H. destruct (_ && _ && _); [done|]. destruct (w_cp w) as [|c cp]; [done|].
  cbn [match_letters negb andb] in H. cbn.
  destruct (_ <=? _); [done|]. cbn [orb] in H. by destruct (Z.eqb_spec (rd 0 t s) c).
Qed.

(** [best_at] is the longest match of any listed word, or 0. *)
Lemma best_at_spec words t orig i : wf_words words -> let b := best_at words t orig i in
  0 <= b /\ (b = 0 \/ exists w, w ∈ words /\ match_at t orig i w = b) /\
  (forall w, w ∈ words -> match_at t orig i w <= b).
Proof.
  intros Hwf. unfold best_at.
  assert (forall acc, 0 <= acc -> let b := fold_left (fun best w =>
    if rd 0 (w_cp w) 0 =? rd 0 t i then Z.max best (match_at t orig i w) else best) words acc in
    acc <= b /\ (b = acc \/ exists w, w ∈ words /\ match_at t orig i w = b) /\
    (forall w, w ∈ words -> match_at t orig i w <= b)) as G.
  { induction Hwf as [|w words Hw _ IH]; intros acc Hacc; cbn [fold_left].
    - split_and!; [lia|by left|]. intros w Hin. by apply not_elem_of_nil in Hin.
    - set (acc' := if rd 0 (w_cp w) 0 =? rd 0 t i then Z.max acc (match_at t orig i w) else acc).
      assert (acc <= acc' /\ match_at t orig i w <= acc' /\ (acc' = acc \/ acc' = match_at t orig i w)) as (A1 & A2 & A3).
      { unfold acc'. destruct (Z.eqb_spec (rd 0 (w_cp w) 0) (rd 0 t i)) as [|Hd]; [lia|].
        destruct (Z.eq_dec (match_at t orig i w) 0) as [|Hm]; [lia|]. destruct Hd. by apply match_at_first in Hm. }
      destruct (IH acc' ltac:(lia)) as (H1 & H2 & H3). split_and!; [lia| |].
      + destruct H2 as [->|(w' & Hin & H2)].
        * destruct A3 as [->| ->]; [by left|right; exists w; split; [left|done]].
        * right. exists w'. split; [by right|done].
      + intros w' [->|Hin]%elem_of_cons; [lia|by apply H3]. }
  destruct (G 0 ltac:(lia)) as (G1 & G2 & G3). done.
Qed.

Lemma best_at_bounds words t orig i : wf_words words -> 0 <= i < zlen t -> 0 < best_at words t orig i ->
  i < best_at words t orig i <= zlen t /\ (exists w, w ∈ words /\ word_at t orig w i (best_at words t orig i)) /\
  forall w e, w ∈ words -> word_at t orig w i e -> e <= best_at words t orig i.
Proof.
  intros Hwf Hi Hb. destruct (best_at_spec words t orig i Hwf) as (_ & [H0|(w & Hin & Hm)] & Hmax); [lia|].
  pose proof (proj1 (Forall_forall _ _) Hwf w Hin) as Hne. cbn in Hne.
  assert (word_at t orig w i (best_at words t orig i)) as Hw by (apply match_at_exact; [done|lia|done|done]).
  split; [destruct Hw as (? & ? & _); lia|]. split; [by exists w|]. intros w' e Hin' Hw'.
  rewrite <- (Hmax w' Hin'). apply match_at_exact in Hw' as <-; [done| |lia|destruct Hw' as [? _]; lia].
  by apply (proj1 (Forall_forall _ _) Hwf w').
Qed.

(** ** Masking *)

Lemma length_mask orig i e : 0 <= i <= e -> e <= zlen orig -> zlen (mask orig i e) = zlen orig.
Proof. intros. unfold mask, zlen in *. rewrite !length_app, length_take, length_replicate, length_drop. lia. Qed.

Lemma rd_mask orig i e k : 0 <= i <= e -> e <= zlen orig -> 0 <= k ->
  rd 0 (mask orig i e) k = if (i <=? k) && (k <? e) then 42 else rd 0 orig k.
Proof.
  intros Hi He Hk. unfold mask, rd, zlen in *.
  destruct (Z.leb_spec i k) as [H1|H1]; cbn [andb].
  - rewrite app_nth2 by (rewrite length_take; lia). rewrite length_take, Nat.min_l by lia.
    destruct (Z.ltb_spec k e) as [H2|H2].
    + rewrite app_nth1 by (rewrite length_replicate; lia). by rewrite nth_lookup, lookup_replicate_2 by lia.
    + rewrite app_nth2 by (rewrite length_replicate; lia). rewrite length_replicate, nth_skipn. f_equal. lia.
  - rewrite app_nth1 by (rewrite length_take; lia). rewrite nth_firstn. destruct (Nat.ltb_spec (Z.to_nat k) (Z.to_nat i)); [done|lia].
Qed.

(** What the text looked like when the scan stood at [s]: masked before, as
    received from there on. *)
Definition seen (final cps : list Z) (s : Z) : list Z := take (Z.to_nat s) final ++ drop (Z.to_nat s) cps.

Lemma zlen_seen final cps s : 0 <= s <= zlen cps -> zlen final = zlen cps -> zlen (seen final cps s) = zlen cps.
Proof. intros. unfold seen, zlen in *. rewrite length_app, length_take, length_drop. lia. Qed.
Lemma rd_seen final cps s k : 0 <= s <= zlen cps -> zlen final = zlen cps -> 0 <= k ->
  rd 0 (seen final cps s) k = if k <? s then rd 0 final k else rd 0 cps k.
Proof.
  intros Hs Hl Hk. unfold seen, rd, zlen in *. destruct (Z.ltb_spec k s).
  - rewrite app_nth1 by (rewrite length_take; lia). rewrite nth_firstn.
    destruct (Nat.ltb_spec (Z.to_nat k) (Z.to_nat s)); [done|lia].
  - rewrite app_nth2 by (rewrite length_take; lia). rewrite length_take, nth_skipn. f_equal. lia.
Qed.

(** The verdict on position [k] of a line. *)
Definition clean (words : list CfWord) (t cps final : list Z) (k : Z) : Prop :=
  rd 0 final k = rd 0 cps k /\
  (is_letter (rd 0 t k) = true -> forall w e, w ∈ words -> ~ word_at t (seen final cps k) w k e).
Definition masked (words : list CfWord) (t cps final : list Z) (k : Z) : Prop :=
  rd 0 final k = 42 /\
  exists w s e, w ∈ words /\ s <= k < e /\ word_at t (seen final cps s) w s e /\
    (forall j, s <= j < e -> rd 0 final j = 42) /\
    forall w' e', w' ∈ words -> word_at t (seen final cps s) w' s e' -> e' <= e.

Lemma filter_cps_spec words cps t : wf_words words -> zlen t = zlen cps ->
  forall fuel i orig hits, zlen orig = zlen cps -> 0 <= i <= zlen cps -> (Z.to_nat (zlen cps - i) <= fuel)%nat ->
  (forall k, i <= k -> rd 0 orig k = rd 0 cps k) ->
  let r := filter_cps words fuel orig t i hits in
  hits <= r.1 /\ zlen r.2 = zlen cps /\ (forall k, 0 <= k < i -> rd 0 r.2 k = rd 0 orig k) /\
  (r.1 = hits -> r.2 = orig) /\
  forall k, i <= k < zlen cps -> clean words t cps r.2 k \/ masked words t cps r.2 k.
Proof.
  intros Hwf Ht. induction fuel as [|fuel IH]; intros i orig hits Ho Hi Hfuel Hsame; cbn [filter_cps].
  - cbn. split_and!; try done. intros k Hk. lia.
  - rewrite Ht. destruct (Z.ltb_spec i (zlen cps)) as [Hlt|Hge]; [|cbn; split_and!; try done; intros k Hk; lia].
    assert (forall final, zlen final = zlen cps -> (forall k, 0 <= k < i -> rd 0 final k = rd 0 orig k) ->
      seen final cps i = orig) as Eseen.
    { intros final Hl Hk. apply rd_ext; rewrite zlen_seen by lia; [done|]. intros k Hk'. rewrite rd_seen by lia.
      destruct (Z.ltb_spec k i); [apply Hk; lia|symmetry; apply Hsame; lia]. }
    assert ((is_letter (rd 0 t i) = true -> forall w e, w ∈ words -> ~ word_at t orig w i e) ->
      let r := filter_cps words fuel orig t (i + 1) hits in
      hits <= r.1 /\ zlen r.2 = zlen cps /\ (forall k, 0 <= k < i -> rd 0 r.2 k = rd 0 orig k) /\
      (r.1 = hits -> r.2 = orig) /\
      forall k, i <= k < zlen cps -> clean words t cps r.2 k \/ masked words t cps r.2 k) as Hskip.
    { intros Hclean. destruct (IH (i + 1) orig hits) as (H1 & H2 & H3 & H4 & H5); [done|lia|lia|intros; apply Hsame; lia|].
      split_and!; [done|done|intros; apply H3; lia|done|]. intros k Hk.
      destruct (Z.eq_dec k i) as [->|]; [left|apply H5; lia]. split; [rewrite H3 by lia; by apply Hsame|].
      rewrite Eseen; [done|done|]. intros; apply H3; lia. }
    destruct (is_letter (rd 0 t i)) eqn:El; cbn [negb]; [|by apply Hskip].
    destruct (Z.ltb_spec 0 (best_at words t orig i)) as [Hb|Hb].
    + destruct (best_at_bounds words t orig i Hwf ltac:(lia) Hb) as (He & (w & Hin & Hw) & Hlong).
      set (e := best_at words t orig i) in *. clearbody e.
      destruct (IH e (mask orig i e) (hits + 1)) as (H1 & H2 & H3 & H4 & H5).
      * rewrite length_mask; lia.
      * lia.
      * lia.
      * intros k Hk. rewrite rd_mask by lia. destruct (Z.ltb_spec k e); [lia|]. rewrite andb_false_r. apply Hsame. lia.
      * remember (filter_cps words fuel (mask orig i e) t e (hits + 1)) as r eqn:Er. clear Er.
        assert (forall k, 0 <= k < i -> rd 0 r.2 k = rd 0 orig k) as Hk0.
        { intros k Hk. rewrite H3, rd_mask by lia. by destruct (Z.leb_spec i k); [lia|]. }
        split_and!; [lia|done|done|lia|]. intros k Hk. destruct (Z_lt_le_dec k e) as [Hke|]; [|apply H5; lia].
        right. split; [rewrite H3, rd_mask by lia; destruct (Z.leb_spec i k), (Z.ltb_spec k e); lia || done|].
        exists w, i, e. split_and!; [done|lia|lia|by rewrite Eseen| |by rewrite Eseen].
        intros j Hj. rewrite H3, rd_mask by lia. destruct (Z.leb_spec i j), (Z.ltb_spec j e); lia || done.
    + apply Hskip. intros _ w e Hin Hw.
      destruct (best_at_spec words t orig i Hwf) as (H0 & _ & Hmax). specialize (Hmax w Hin).
      pose proof Hw as [Hse _]. apply match_at_exact in Hw; [lia| |lia|lia]. by apply (proj1 (Forall_forall _ _) Hwf w).
Qed.

(** ** UTF-8 *)

Lemma lor_shiftl a n b : 0 <= n -> 0 <= b < 2 ^ n -> Z.lor (Z.shiftl a n) b = a * 2 ^ n + b.
Proof.
  intros Hn Hb. rewrite Z.shiftl_mul_pow2 by done.
  assert (Z.land (a * 2 ^ n) b = 0) as Hd.
  { apply Z.bits_inj'. intros i Hi. rewrite Z.land_spec, Z.bits_0. destruct (Z.ltb_spec i n).
    - by rewrite Z.mul_pow2_bits_low by lia.
    - rewrite <- (Z.mod_small b (2 ^ n)) by done. by rewrite Z.mod_pow2_bits_high, andb_false_r by lia. }
  by rewrite <- Z.lxor_lor, <- Z.add_nocarry_lxor by done.
Qed.

Lemma land_low x n : 0 <= n -> 0 <= Z.land x (Z.ones n) < 2 ^ n.
Proof. intros. rewrite Z.land_ones by done. apply Z.mod_pos_bound. lia. Qed.

Lemma utf8_encode_length cp : zlen (utf8_encode cp) =
  if cp <? 128 then 1 else if cp <? 2048 then 2 else if cp <? 65536 then 3 else 4.
Proof. unfold utf8_encode. by repeat destruct (_ <? _). Qed.

(** A code point never encodes to more bytes than it was decoded from. *)
Lemma utf8_decode_bound s k cp : utf8_decode s = (k, cp) -> k <> 0 ->
  1 <= k <= zlen s /\ zlen (utf8_encode cp) <= k.
Proof.
  unfold utf8_decode, low6. pose proof (zlen_nonneg s). rewrite utf8_encode_length.
  pose proof (land_low (rd 0 s 1) 6 ltac:(lia)) as L1. pose proof (land_low (rd 0 s 2) 6 ltac:(lia)) as L2.
  pose proof (land_low (rd 0 s 3) 6 ltac:(lia)) as L3. pose proof (land_low (rd 0 s 0) 5 ltac:(lia)) as A5.
  pose proof (land_low (rd 0 s 0) 4 ltac:(lia)) as A4. 
  change (Z.ones 6) with 63 in *. change (Z.ones 5) with 31 in *. change (Z.ones 4) with 15 in *.
  destruct (Z.eqb_spec (zlen s) 0); [congruence|]. destruct (Z.ltb_spec (rd 0 s 0) 128) as [H0|H0].
  { intros [= <- <-] _. destruct (Z.ltb_spec (rd 0 s 0) 128); lia. }
  destruct (_ && is_cont s 1) eqn:E2.
  { bool_prop. intros [= <- <-] _. rewrite lor_shiftl by lia.
    destruct (_ <? 128); [lia|]. destruct (Z.ltb_spec (Z.land (rd 0 s 0) 31 * 2 ^ 6 + Z.land (rd 0 s 1) 63) 2048); lia. }
  destruct (_ && is_cont s 2) eqn:E3.
  { bool_prop. intros [= <- <-] _.
    replace (Z.lor (Z.lor _ _) _) with (Z.land (rd 0 s 0) 15 * 2 ^ 12 + Z.land (rd 0 s 1) 63 * 2 ^ 6 + Z.land (rd 0 s 2) 63).
    2: { rewrite <- Z.lor_assoc, (lor_shiftl (Z.land (rd 0 s 1) 63)), lor_shiftl by lia. lia. }
    destruct (_ <? 128); [lia|]. destruct (_ <? 2048); [lia|].
    destruct (Z.ltb_spec (Z.land (rd 0 s 0) 15 * 2 ^ 12 + Z.land (rd 0 s 1) 63 * 2 ^ 6 + Z.land (rd 0 s 2) 63) 65536); lia. }
  destruct (_ && is_cont s 3) eqn:E4; [|by intros [= <- <-]].
  bool_prop. intros [= <- <-] _. repeat destruct (_ <? _); lia.
Qed.

(** A line, masked or not, re-encodes within the bytes it came from. *)
Lemma decode_all_bound fuel : forall s acc cps, decode_all fuel s acc = Some cps ->
  exists tail, cps = acc ++ tail /\
    forall tail', Forall2 (fun a b => b = a \/ b = 42) tail tail' -> zlen (concat (utf8_encode <$> tail')) <= zlen s.
Proof.
  induction fuel as [|fuel IH]; intros s acc cps; (destruct s as [|b s]; cbn [decode_all];
    [intros [= <-]; exists []; rewrite app_nil_r; split; [done|]; by intros tail' ->%Forall2_nil_inv_l|]); [done|].
  destruct (_ <? CF_MAX_TEXT_CP); [|done]. destruct (utf8_decode (b :: s)) as [k cp] eqn:E.
  destruct (Z.eqb_spec k 0) as [|Hk]; [done|]. destruct (utf8_decode_bound _ _ _ E Hk) as [Hk1 Hk2].
  intros H. destruct (IH _ _ _ H) as (tail & -> & Hb). exists (cp :: tail). rewrite <- app_assoc. split; [done|].
  intros tail' (y & tl & Hy & Htl & ->)%Forall2_cons_inv_l. cbn [fmap list_fmap concat]. rewrite zlen_app.
  specialize (Hb _ Htl). assert (zlen (drop (Z.to_nat k) (b :: s)) = zlen (b :: s) - k) as Ed.
  { unfold zlen in *. rewrite length_drop. lia. }
  assert (zlen (utf8_encode y) <= k); [|lia]. destruct Hy as [->| ->]; [done|]. rewrite utf8_encode_length. cbn. lia.
Qed.

Lemma encode_all_fits cap cps : forall out, zlen out + zlen (concat (utf8_encode <$> cps)) < cap ->
  encode_all cap cps out = out ++ concat (utf8_encode <$> cps).
Proof.
  induction cps as [|c cps IH]; intros out H; cbn [encode_all fmap list_fmap concat] in *; [by rewrite app_nil_r|].
  rewrite zlen_app in H. pose proof (zlen_nonneg (concat (utf8_encode <$> cps))).
  destruct (Z.ltb_spec cap (zlen out + zlen (utf8_encode c) + 1)); [lia|].
  rewrite IH by (rewrite zlen_app; lia). by rewrite app_assoc.
Qed.

(** ** The list *)

Lemma load_lines_wf fuel : forall p words, wf_words words -> wf_words (load_lines fuel p words).
Proof.
  induction fuel as [|fuel IH]; intros p words H; [by destruct p|]. destruct p as [|b r]; [done|].
  cbn [load_lines]. destruct (_ <? CF_MAX_WORDS); [|done].
  destruct (if b =? 126 then _ else _) as [any p]. destruct (load_line _ _ _) as [cp p'].
  apply IH. destruct (Z.ltb_spec 0 (zlen cp)) as [Hcp|]; [|done].
  apply Forall_app. split; [done|]. constructor; [|done]. cbn. by intros ->.
Qed.
Lemma load_words_wf text env : wf_words (cf_words (load_words text env)).
Proof. apply load_lines_wf. constructor. Qed.

Lemma rd_Forall2 (P : Z -> Z -> Prop) (a b : list Z) : zlen a = zlen b ->
  (forall k, 0 <= k < zlen a -> P (rd 0 a k) (rd 0 b k)) -> Forall2 P a b.
Proof.
  intros Hl H. apply Forall2_same_length_lookup_2; [unfold zlen in Hl; lia|]. intros i x y Hx Hy.
  pose proof (lookup_lt_Some _ _ _ Hx). specialize (H (Z.of_nat i)). unfold rd, zlen in H. rewrite Nat2Z.id in H.
  rewrite (nth_lookup_Some _ _ _ _ Hx), (nth_lookup_Some _ _ _ _ Hy) in H. apply H. lia.
Qed.


(** The line [fuuuck] with [fuck] on the list: masked throughout. *)
Definition demo_list : list Z := [97; 115; 115; 10].
Definition demo_long : list Z := [102; 117; 99; 107; 10].
(** The examples of the header: repeats and separators are seen through. *)
Example repeats_and_separators :
  rnet_chat_filter_apply (load_words demo_long None) (bytes_of "fuuuck") 512 = (1, bytes_of "******") /\
  rnet_chat_filter_apply (load_words demo_long None) (bytes_of "f.u.c.k") 512 = (1, bytes_of "*******").
Proof. split; vm_compute; reflexivity. Qed.

(** The boundary rule looks at the unfolded neighbour, and no capital
    letter counts as a letter there: so a whole-word entry is found inside a
    longer word written in capitals. With [ass] listed, [class] is left alone
    and [CLASS] becomes [CL***]. *)
Theorem capital_is_a_boundary :
  (forall c, 65 <= c <= 90 -> is_letter c = false /\ is_letter (fold c) = true) /\
  rnet_chat_filter_apply (load_words demo_list None) (bytes_of "class") 512 = (0, bytes_of "class") /\
  rnet_chat_filter_apply (load_words demo_list None) (bytes_of "CLASS") 512 = (1, bytes_of "CL***").
Proof.
  split; [|split; vm_compute; reflexivity]. intros c Hc.
  assert (all_upto 91 (fun c => (c <? 65) || (negb (is_letter c) && is_letter (fold c))) = true) as T
    by (vm_compute; reflexivity).
  rewrite all_upto_spec in T. specialize (T c ltac:(lia)). destruct (Z.ltb_spec c 65); [lia|]. cbn in T. bool_prop. done.
Qed.

(** The table of Latin Extended-A has 129 entries for 128 characters and is
    one off from U+0143 on at the capitals: nine of them fold to the letter
    before theirs in the table, and not to what their small letter folds to. *)
Lemma latin_ext_capitals_misfold :
  zlen k_base = 129 /\
  (fun c => (fold c, fold (c + 1))) <$> [323; 332; 340; 346; 354; 360; 372; 374; 377] =
  [(108, 110); (110, 111); (111, 114); (114, 115); (115, 116); (116, 117); (117, 119); (119, 121); (121, 122)].
Proof. vm_compute. done. Qed.
