(* ===== verification/Json.v ===== *)
(** * The flat JSON readers and writers

    The lobby client ([src/lobby/rnet_lobby_client.c]), the account code
    ([src/auth/rnet_auth.c]) and chat reports ([src/chat/rnet_chat_report.c])
    each have their own; none is a JSON parser: a value is found by searching
    the text for the quoted key. Strings are lists of bytes without their
    terminator. *)

From stdpp Require Import base list numbers list_numbers strings.
From S2P Require Import Prelude CStrings.

(** String literals as bytes. *)
Definition B (s : string) : list Z := bytes_of s.
#[global] Arguments B s%_string_scope : simpl never.
Definition quote : Z := 34.
Definition backslash : Z := 92.
Definition quoted (s : list Z) : list Z := quote :: s ++ [quote].

(** ** The C library *)

Fixpoint starts_with (pat s : list Z) : bool :=
  match pat, s with
  | [], _ => true
  | a :: pat, b :: s => (a =? b) && starts_with pat s
  | _, _ => false
  end.
(** [strstr]: the text from the match on. *)
Fixpoint strstr_l (pat s : list Z) : option (list Z) :=
  if starts_with pat s then Some s
  else match s with [] => None | _ :: r => strstr_l pat r end.
(** [strchr]: the text from the character on. *)
Fixpoint strchr_l (c : Z) (s : list Z) : option (list Z) :=
  match s with [] => None | b :: r => if b =? c then Some s else strchr_l c r end.
Definition is_space_b (b : Z) : bool := (b =? 32) || ((9 <=? b) && (b <=? 13)).
Fixpoint skip_spaces (s : list Z) : list Z :=
  match s with b :: r => if is_space_b b then skip_spaces r else s | [] => [] end.
(** [snprintf(out, cap, "%s", s)]. *)
Definition cut_l (cap : Z) (s : list Z) : list Z := take (Z.to_nat (cap - 1)) s.
(** [(int)strtol(s, NULL, 10)]; [strtol] clips to a [long]. *)
Definition LONG_MAX : Z := 9223372036854775807.
Definition atoi_l (s : list Z) : Z :=
  match strtol (string_of s) with
  | Some (v, _) => s32 (Z.max (- LONG_MAX - 1) (Z.min LONG_MAX v))
  | None => 0
  end.

(** [%u] and [%d] of a number that is not negative. *)
Definition print_l (n : Z) : list Z := bytes_of (print_dec n).

(** ** Reading *)

(** The text after the key's colon: the first occurrence of the quoted key,
    wherever it is, and the next colon. [cap] is the size of [pat]. *)
Inductive Found := NoKey | NoColon | After (p : list Z).
Definition json_find (cap : Z) (json key : list Z) : Found :=
  let pat := cut_l cap (quoted key) in
  match strstr_l pat json with
  | None => NoKey
  | Some p => match strchr_l 58 (drop (length pat) p) with
              | None => NoColon
              | Some p => After (drop 1 p)
              end
  end.

(** What a string getter does with its [out] array. *)
Inductive JStr :=
| JMissing                 (* no key: [out] is emptied *)
| JBad                     (* not a string: [out] is not written *)
| JGot (s : list Z).
(** [out] after the call, from what it held. *)
Definition jput (old : list Z) (r : JStr) : list Z :=
  match r with JMissing => [] | JBad => old | JGot s => s end.

Definition unescape_char (c : Z) : Z :=
  if c =? 110 then 10 else if c =? 114 then 13 else if c =? 116 then 9 else c.
(** The copying loop: [room] more bytes fit before the terminator. *)
Fixpoint read_string (p : list Z) (room : nat) : list Z :=
  match p, room with
  | b :: r, S room =>
    if b =? quote then []
    else if b =? backslash then
      match r with
      | c :: r' => unescape_char c :: read_string r' room
      | [] => [b]
      end
    else b :: read_string r room
  | _, _ => []
  end.

Definition json_get_str (json key : list Z) (cap : Z) : JStr :=
  match json_find 80 json key with
  | NoKey => JMissing
  | NoColon => JBad
  | After p => match skip_spaces p with
               | b :: p => if b =? quote then JGot (read_string p (Z.to_nat (cap - 1))) else JBad
               | [] => JBad
               end
  end.

(** The getter of [rnet_auth.c]: [out] is emptied first, and an empty string
    counts as absent. *)
Definition json_str (json key : list Z) (cap : Z) : bool * list Z :=
  match json_find 64 json key with
  | After p => match skip_spaces p with
               | b :: p => if b =? quote
                           then let s := read_string p (Z.to_nat (cap - 1)) in (0 <? zlen s, s) else (false, [])
               | [] => (false, [])
               end
  | _ => (false, [])
  end.

Definition json_get_int (json key : list Z) (def : Z) : Z :=
  match json_find 80 json key with After p => atoi_l p | _ => def end.

Definition json_get_bool (json key : list Z) (def : bool) : bool :=
  match json_find 80 json key with
  | After p => let p := skip_spaces p in
               if starts_with (B "true") p then true else if starts_with (B "false") p then false else def
  | _ => def
  end.

(** [json_extract_object]: the object cut out by brace depth. *)
Fixpoint take_braces (p : list Z) (depth : Z) (room : nat) : option (Z * list Z) :=
  match p with
  | [] => Some (depth, [])
  | b :: r =>
    let depth := if b =? 123 then depth + 1 else if b =? 125 then depth - 1 else depth in
    match room with
    | O => None
    | S room =>
      if 0 <? depth then
        match take_braces r depth room with Some (d, s) => Some (d, b :: s) | None => None end
      else Some (depth, [b])
    end
  end.
Definition json_extract_object (json key : list Z) (out_cap : Z) : option (list Z) :=
  if out_cap <? 3 then None
  else match json_find 80 json key with
       | After p =>
         match skip_spaces p with
         | b :: r =>
           if b =? 123 then
             match take_braces (b :: r) 0 (Z.to_nat (out_cap - 1)) with
             | Some (d, s) => if (d =? 0) && (1 <? zlen s) then Some s else None
             | None => None
             end
           else None
         | [] => None
         end
       | _ => None
       end.

(** ** Writing *)

(** The lobby client's escaper: [o] bytes are written. *)
Definition esc_char (c : Z) : option Z :=
  if (c =? quote) || (c =? backslash) then Some c
  else if c =? 10 then Some 110 else if c =? 13 then Some 114 else if c =? 9 then Some 116 else None.
Fixpoint json_escape_from (inp : list Z) (cap o : Z) : list Z :=
  match inp with
  | [] => []
  | c :: r =>
    if o + 2 <? cap then
      match esc_char c with
      | Some e => if cap <=? o + 3 then [] else backslash :: e :: json_escape_from r cap (o + 2)
      | None => if c <? 32 then json_escape_from r cap o else c :: json_escape_from r cap (o + 1)
      end
    else []
  end.
Definition json_escape (inp : list Z) (cap : Z) : list Z := json_escape_from inp cap 0.

(** The escaper of [rnet_auth.c]: control characters are dropped. *)
Fixpoint json_esc_from (inp : list Z) (cap o : Z) : list Z :=
  match inp with
  | [] => []
  | c :: r =>
    if o + 2 <? cap then
      if (c =? quote) || (c =? backslash)
      then if cap <=? o + 3 then [] else backslash :: c :: json_esc_from r cap (o + 2)
      else if 32 <=? c then c :: json_esc_from r cap (o + 1) else json_esc_from r cap o
    else []
  end.
Definition json_esc (inp : list Z) (cap : Z) : list Z := json_esc_from inp cap 0.

(** ** Chat reports *)

Definition hex_digit (n : Z) : Z := if n <? 10 then 48 + n else 87 + n.
Definition hex4 (c : Z) : list Z := [48; 48; hex_digit (c / 16); hex_digit (c mod 16)].
Definition report_piece (c : Z) : list Z :=
  if (c =? quote) || (c =? backslash) then [backslash; c]
  else if c =? 10 then [backslash; 110]
  else if c =? 13 then [backslash; 114]
  else if c =? 9 then [backslash; 116]
  else if c <? 32 then backslash :: 117 :: hex4 c
  else [c].
Fixpoint report_escape_from (inp : list Z) (cap o : Z) : list Z :=
  match inp with
  | [] => []
  | c :: r => let piece := report_piece c in
              if cap <? o + zlen piece + 1 then [] else piece ++ report_escape_from r cap (o + zlen piece)
  end.
Definition report_escape (inp : list Z) (cap : Z) : list Z := report_escape_from inp cap 0.

(** [snprintf(out + o, cap - o, ...)] of [piece]: [None] when it did not fit. *)
Definition append (cap : Z) (out : option (list Z)) (piece : list Z) : option (list Z) :=
  match out with
  | Some out => if cap - zlen out <=? zlen piece then None else Some (out ++ piece)
  | None => None
  end.
Definition pair_text (key esc : list Z) : list Z := quoted key ++ 58 :: quoted esc ++ [44].
Definition append_str (cap : Z) (out : option (list Z)) (key value : list Z) : option (list Z) :=
  append cap out (pair_text key (report_escape value 1024)).

Record RNetChatReportMeta := MkReportMeta {
  rm_game : list Z; rm_game_version : list Z; rm_platform : list Z;
  rm_server : list Z; rm_lobby : list Z; rm_scope : list Z }.

Definition RNET_REPORT_MAX_MESSAGES : Z := 16.
Definition RNET_REPORT_NOTE_MAX : Z := 500.
Definition RNET_REPORT_OTHER : list Z := B "other".

(** The loop over the ids: what was written, and how many. *)
Fixpoint append_mids (cap : Z) (mids : list (list Z)) (out : option (list Z)) (written : Z) : option (list Z) * Z :=
  match mids with
  | [] => (out, written)
  | [] :: r => append_mids cap r out written
  | m :: r => append_mids cap r
      (append cap out ((if nz written then [44] else []) ++ quoted (report_escape m 96))) (written + 1)
  end.

(** [rnet_chat_report_build]: the frame, [None] for the result 0. An absent
    (NULL) string is the empty list. *)
Definition rnet_chat_report_build (cap : Z) (mids : list (list Z)) (reason note : list Z)
    (meta : RNetChatReportMeta) : option (list Z) :=
  if (cap <? 64) || (zlen mids <=? 0) then None
  else
    let mids := take (Z.to_nat RNET_REPORT_MAX_MESSAGES) mids in
    let o := append cap (Some []) ([123] ++ pair_text (B "op") (B "chat_report") ++ quoted (B "v") ++ [58; 49; 44]) in
    let o := append_str cap o (B "reason") (if 0 <? zlen reason then reason else RNET_REPORT_OTHER) in
    let o := append_str cap o (B "note") (cut_l (RNET_REPORT_NOTE_MAX + 1) note) in
    let o := append_str cap o (B "game") (rm_game meta) in
    let o := append_str cap o (B "game_version") (rm_game_version meta) in
    let o := append_str cap o (B "platform") (rm_platform meta) in
    let o := append_str cap o (B "server") (rm_server meta) in
    let o := append_str cap o (B "lobby") (rm_lobby meta) in
    let o := append_str cap o (B "scope") (rm_scope meta) in
    let o := append cap o (quoted (B "mids") ++ [58; 91]) in
    let '(o, written) := append_mids cap mids o 0 in
    if written =? 0 then None else append cap o [93; 125].

(** * What the flat JSON code reads and writes *)


(** ** The standard's string body

    [str_body body s]: between quotes, [body] is a JSON string for [s]. *)

Inductive str_body : list Z -> list Z -> Prop :=
| sb_nil : str_body [] []
| sb_plain c b s : 32 <= c -> c <> quote -> c <> backslash -> str_body b s -> str_body (c :: b) (c :: s)
| sb_esc e c b s :
    (e, c) ∈ [(34, 34); (92, 92); (47, 47); (98, 8); (102, 12); (110, 10); (114, 13); (116, 9)] ->
    str_body b s -> str_body (backslash :: e :: b) (c :: s)
| sb_hex c b s : 0 <= c < 256 -> str_body b s -> str_body (backslash :: 117 :: hex4 c ++ b) (c :: s).

(** ** Chat reports *)

Lemma report_piece_body c b s : 0 <= c -> str_body b s -> str_body (report_piece c ++ b) (c :: s).
Proof.
  intros Hc H. unfold report_piece.
  destruct (Z.eqb_spec c quote) as [->|H1]; [by apply sb_esc; [repeat constructor|]|].
  destruct (Z.eqb_spec c backslash) as [->|H2]; [by apply sb_esc; [repeat constructor|]|]. cbn [orb].
  destruct (Z.eqb_spec c 10) as [->|]; [by apply sb_esc; [repeat constructor|]|].
  destruct (Z.eqb_spec c 13) as [->|]; [by apply sb_esc; [repeat constructor|]|].
  destruct (Z.eqb_spec c 9) as [->|]; [by apply sb_esc; [repeat constructor|]|].
  destruct (Z.ltb_spec c 32); [apply (sb_hex c); [lia|done]|by apply sb_plain].
Qed.

Lemma report_escape_body cap inp : Forall in_u8 inp ->
  exists n, str_body (report_escape inp cap) (take n inp) /\ (6 * zlen inp < cap -> take n inp = inp).
Proof.
  intros H. unfold report_escape.
  assert (forall o, exists n, str_body (report_escape_from inp cap o) (take n inp) /\
    (o + 6 * zlen inp < cap -> take n inp = inp)) as G; [|apply (G 0)].
  induction H as [|c inp Hc _ IH]; intros o; cbn [report_escape_from]; [exists 0%nat; by split; [constructor|]|].
  assert (zlen (report_piece c) <= 6) as H6.
  { unfold report_piece, zlen. repeat (case_match; [cbn; lia|]). cbn. lia. }
  rewrite zlen_cons. destruct (Z.ltb_spec cap (o + zlen (report_piece c) + 1)).
  - exists 0%nat. split; [constructor|]. pose proof (zlen_nonneg inp). lia.
  - destruct (IH (o + zlen (report_piece c))) as (n & Hn & Hall). exists (S n). cbn [take]. split.
    + apply report_piece_body; [apply Hc|done].
    + intros Hfit. rewrite Hall; [done|lia].
Qed.

(** The text of a report, from the escaped fields. *)
Definition report_fields (fields : list (list Z * list Z)) : list Z :=
  concat ((fun '(k, v) => pair_text k (report_escape v 1024)) <$> fields).
Fixpoint joined (first : bool) (mids : list (list Z)) : list Z :=
  match mids with
  | [] => []
  | m :: r => (if first then [] else [44]) ++ quoted (report_escape m 96) ++ joined false r
  end.
Definition report_mids (mids : list (list Z)) : list (list Z) :=
  filter (fun m => m <> []) (take 16 mids).
Definition report_text (mids : list (list Z)) (reason note : list Z) (meta : RNetChatReportMeta) : list Z :=
  ([123] ++ pair_text (B "op") (B "chat_report") ++ quoted (B "v") ++ [58; 49; 44]) ++
  report_fields [(B "reason", if 0 <? zlen reason then reason else RNET_REPORT_OTHER);
    (B "note", take 500 note); (B "game", rm_game meta); (B "game_version", rm_game_version meta);
    (B "platform", rm_platform meta); (B "server", rm_server meta); (B "lobby", rm_lobby meta); (B "scope", rm_scope meta)] ++
  (quoted (B "mids") ++ [58; 91]) ++ joined true (report_mids mids) ++ [93; 125].

(** Appending pieces one by one is appending their concatenation, all or
    nothing. *)
Definition fits (cap : Z) (text : list Z) : option (list Z) := if zlen text <? cap then Some text else None.
Lemma append_fits cap a b : append cap (fits cap a) b = fits cap (a ++ b).
Proof.
  unfold append, fits. rewrite zlen_app. pose proof (zlen_nonneg b).
  destruct (Z.ltb_spec (zlen a) cap), (Z.ltb_spec (zlen a + zlen b) cap); try lia; [| |done].
  all: destruct (Z.leb_spec (cap - zlen a) (zlen b)); lia || done.
Qed.
Lemma append_none cap b : append cap None b = None.
Proof. done. Qed.

Lemma append_mids_fits cap mids : forall a w, 0 <= w ->
  append_mids cap mids (fits cap a) w =
  (fits cap (a ++ joined (w =? 0) (filter (fun m => m <> []) mids)), w + zlen (filter (fun m => m <> []) mids)).
Proof.
  induction mids as [|m mids IH]; intros a w Hw; cbn [append_mids].
  - cbn. rewrite app_nil_r. f_equal. unfold zlen. cbn. lia.
  - destruct m as [|c m].
    + rewrite filter_cons_False by (intros ?; done). by apply IH.
    + rewrite filter_cons_True by done. rewrite append_fits, IH by lia. cbn [joined]. rewrite zlen_cons.
      f_equal; [|lia]. f_equal. rewrite <- !app_assoc. f_equal. unfold nz.
      destruct (Z.eqb_spec w 0); cbn [negb]; (destruct (Z.eqb_spec (w + 1) 0); [lia|]); done.
Qed.

(** A chat report is written whole or not at all: with room for it, and
    at least one id that is not empty among the first sixteen, the frame is
    the object with every field and the array of those ids; otherwise nothing
    is reported. *)
Theorem report_whole_or_nothing cap mids reason note meta :
  rnet_chat_report_build cap mids reason note meta =
  if (cap <? 64) || (zlen (report_mids mids) =? 0) then None
  else fits cap (report_text mids reason note meta).
Proof.
  unfold rnet_chat_report_build, report_text. destruct (Z.ltb_spec cap 64) as [|Hcap]; [done|]. cbn [orb].
  destruct (Z.leb_spec (zlen mids) 0) as [H0|H0].
  { destruct mids as [|m mids]; [done|]. rewrite zlen_cons in H0. pose proof (zlen_nonneg mids). lia. }
  assert (Some [] = fits cap []) as -> by (unfold fits; rewrite zlen_nil; destruct (Z.ltb_spec 0 cap); [done|lia]).
  unfold append_str. rewrite !append_fits. change (Z.to_nat RNET_REPORT_MAX_MESSAGES) with 16%nat.
  rewrite append_mids_fits by lia. rewrite Z.add_0_l. fold (report_mids mids).
  destruct (Z.eqb_spec (zlen (report_mids mids)) 0); [done|]. rewrite append_fits. f_equal.
  change (0 =? 0) with true. unfold report_fields, cut_l. change (Z.to_nat (RNET_REPORT_NOTE_MAX + 1 - 1)) with 500%nat.
  cbn [fmap list_fmap concat]. rewrite app_nil_r, <- !app_assoc. done.
Qed.

(** ** Escaping and reading back *)

(** Text the lobby's escaper keeps: no control characters but newline, return
    and tab. *)
Definition printable (c : Z) : Prop := 32 <= c \/ c = 9 \/ c = 10 \/ c = 13.

Lemma esc_unescape c e : esc_char c = Some e -> unescape_char e = c.
Proof.
  unfold esc_char, unescape_char. destruct (Z.eqb_spec c quote) as [->|]; [by intros [= <-]|].
  destruct (Z.eqb_spec c backslash) as [->|]; [by intros [= <-]|]. cbn [orb].
  destruct (Z.eqb_spec c 10) as [->|]; [by intros [= <-]|].
  destruct (Z.eqb_spec c 13) as [->|]; [by intros [= <-]|].
  destruct (Z.eqb_spec c 9) as [->|]; [by intros [= <-]|done].
Qed.
Lemma esc_none c : printable c -> esc_char c = None -> 32 <= c /\ c <> quote /\ c <> backslash.
Proof.
  unfold esc_char. destruct (Z.eqb_spec c quote); [done|]. destruct (Z.eqb_spec c backslash); [done|]. cbn [orb].
  destruct (Z.eqb_spec c 10); [done|]. destruct (Z.eqb_spec c 13); [done|]. destruct (Z.eqb_spec c 9); [done|].
  intros [|[|[|]]] _; done || lia.
Qed.

Lemma read_escape v : forall cap o room rest, Forall printable v -> o + 2 * zlen v + 1 < cap -> (length v <= room)%nat ->
  read_string (json_escape_from v cap o ++ quote :: rest) room = v.
Proof.
  induction v as [|c v IH]; intros cap o room rest Hp Hcap Hroom; [by destruct room|].
  apply Forall_cons in Hp as [Hc Hp]. rewrite zlen_cons in Hcap. pose proof (zlen_nonneg v).
  destruct room as [|room]; [cbn in Hroom; lia|]. cbn [json_escape_from length] in *.
  destruct (Z.ltb_spec (o + 2) cap); [|lia]. destruct (esc_char c) as [e|] eqn:E.
  - destruct (Z.leb_spec cap (o + 3)); [lia|]. cbn [app read_string]. change (backslash =? quote) with false.
    rewrite Z.eqb_refl, IH by (done || lia). by rewrite (esc_unescape _ _ E).
  - destruct (esc_none c Hc E) as (H32 & Hq & Hb). destruct (Z.ltb_spec c 32); [lia|]. cbn [app read_string].
    apply Z.eqb_neq in Hq as ->. apply Z.eqb_neq in Hb as ->. by rewrite IH by (done || lia).
Qed.

(** Round trip of a string field: a value the lobby client escapes into a
    message (no control characters but newline, return and tab; within the
    escaper's array) is read back exactly by its getter, with spaces after the
    colon or not, as long as the key's first quoted occurrence in the message is
    the key itself. *)
Theorem json_string_roundtrip pre key sp v post cap cap2 :
  zlen key <= 77 -> Forall printable v -> 2 * zlen v + 1 < cap -> zlen v < cap2 -> forallb is_space_b sp = true ->
  strstr_l (quoted key) (pre ++ quoted key ++ 58 :: sp ++ quoted (json_escape v cap) ++ post)
    = Some (quoted key ++ 58 :: sp ++ quoted (json_escape v cap) ++ post) ->
  json_get_str (pre ++ quoted key ++ 58 :: sp ++ quoted (json_escape v cap) ++ post) key cap2 = JGot v.
Proof.
  intros Hkey Hv Hcap Hcap2 Hsp Hfirst. unfold json_get_str, json_find. pose proof (zlen_nonneg v).
  assert (cut_l 80 (quoted key) = quoted key) as Ecut.
  { unfold cut_l, quoted. apply take_ge. cbn. rewrite length_app. unfold zlen in Hkey. cbn. lia. }
  rewrite Ecut, Hfirst. rewrite drop_app_length. cbn [strchr_l Z.eqb Pos.eqb drop]. rewrite drop_0.
  assert (forall s, skip_spaces (sp ++ quoted (json_escape v cap) ++ s) = quoted (json_escape v cap) ++ s) as ->.
  { clear -Hsp. intros s. induction sp as [|b sp IH]; [done|]. cbn in Hsp |- *. apply andb_prop in Hsp as [-> Hsp]. exact (IH Hsp). }
  unfold quoted at 1. cbn [app]. rewrite Z.eqb_refl. unfold quoted. rewrite <- app_assoc. cbn [app].
  f_equal. apply read_escape; [done|lia|unfold zlen in *; lia].
Qed.

Lemma json_string_roundtrip_witness :
  json_get_str (B "{" ++ quoted (B "text") ++ 58 :: [32] ++ quoted (json_escape [72; 34; 10; 92] 32) ++ B "}") (B "text") 16
  = JGot [72; 34; 10; 92].
Proof.
  apply json_string_roundtrip; [vm_compute; congruence| |vm_compute; reflexivity|vm_compute; reflexivity|reflexivity|vm_compute; reflexivity].
  repeat (constructor; [unfold printable; lia|]). constructor.
Defined.

(** The getter searches for the quoted key anywhere in the message, so a
    value that spells a key answers for it: in a chat line from a player named
    [mid], the id of the message is read as its text; and a key whose value is
    not a string leaves the caller's array as it was. *)
Theorem value_answers_for_key :
  let chat := B "{" ++ pair_text (B "op") (B "chat") ++ pair_text (B "from") (B "mid") ++
    pair_text (B "text") (B "hello") ++ quoted (B "mid") ++ [58] ++ quoted (B "m-17") ++ B "}" in
  json_get_str chat (B "mid") 40 = JGot (B "hello") /\
  forall old, jput old (json_get_str (B "{" ++ quoted (B "op") ++ [58; 55] ++ B "}") (B "op") 32) = old.
Proof. split; [vm_compute; reflexivity|]. intros old. reflexivity. Qed.
