(* ===== verification/HostRelayText.v ===== *)
(** * Host relay: the encoders and parsers ([src/nat/rnet_host_relay.c])

    SSDP, the router's description, SOAP, NAT-PMP, the route table and HTTP.
    Text is a list of bytes without its terminator; [None] is the result 0. *)

From stdpp Require Import base list numbers list_numbers strings.
From S2P Require Import Prelude CStrings Json.

(** [copy_str(dst, cap, src, n)], [set_str]. *)
Definition copy_str (cap : Z) (src : list Z) : list Z :=
  if cap =? 0 then [] else take (Z.to_nat (Z.min (zlen src) (cap - 1))) src.
Definition set_str (cap : Z) (src : list Z) : list Z := copy_str cap src.

Definition tolower_b (c : Z) : Z := if (65 <=? c) && (c <=? 90) then c + 32 else c.
(** [ieq_n(a, b, n)] of C strings: a byte past the end is the terminator. *)
Fixpoint ieq_n (a b : list Z) (n : nat) : bool :=
  match n with
  | O => true
  | S n => let ca := tolower_b (hd 0 a) in
           if negb (ca =? tolower_b (hd 0 b)) then false
           else if ca =? 0 then true else ieq_n (tail a) (tail b) n
  end.
(** [ifind]: the text from the match on. *)
Fixpoint ifind (hay needle : list Z) : option (list Z) :=
  if (zlen hay <? zlen needle) || (zlen needle =? 0) then None
  else if ieq_n hay needle (length needle) then Some hay
  else match hay with [] => None | _ :: r => ifind r needle end.

(** The text before the first [c], and whether there is one. *)
Fixpoint upto_c (c : Z) (s : list Z) : list Z :=
  match s with [] => [] | b :: r => if b =? c then [] else b :: upto_c c r end.
Definition has_char (c : Z) (s : list Z) : bool := match strchr_l c s with Some _ => true | None => false end.

(** Blanks at both ends. *)
Fixpoint ltrim (f : Z -> bool) (s : list Z) : list Z :=
  match s with b :: r => if f b then ltrim f r else s | [] => [] end.
Definition rtrim (f : Z -> bool) (s : list Z) : list Z := rev (ltrim f (rev s)).

(** [rnet_hr_ssdp_location]; every round takes a line, so as many rounds as
    bytes are enough. *)
Fixpoint ssdp_lines (fuel : nat) (line : list Z) (cap : Z) : option (list Z) :=
  match fuel, line with
  | S fuel, _ :: _ =>
    let l := upto_c 10 line in
    if has_char 58 l && (zlen (upto_c 58 l) =? 8) && ieq_n line (B "location") 8 then
      let v := ltrim (fun b => (b =? 32) || (b =? 9)) (drop 9 l) in
      let v := rtrim (fun b => (b =? 13) || (b =? 32) || (b =? 9)) v in
      let out := copy_str cap v in
      if zlen out =? 0 then None else Some out
    else if has_char 10 line then ssdp_lines fuel (drop (S (length l)) line) cap else None
  | _, _ => None
  end.
Definition rnet_hr_ssdp_location (response : list Z) (cap : Z) : option (list Z) :=
  ssdp_lines (length response) response cap.

(** [for (open = at; open > xml && *open != '<'; --open)], from index [i]. *)
Fixpoint back_to_lt (xml : list Z) (i : nat) : nat :=
  match i with
  | O => O
  | S j => if nth i xml 0 =? 60 then i else back_to_lt xml j
  end.

(** One occurrence of the tag at index [i]: skipped, or the element's text. *)
Inductive TagAt := SkipTag | NoClose | TagText (text : list Z).
Definition tag_at (xml tag : list Z) (cap : Z) (i : nat) : TagAt :=
  let tl := length tag in
  if negb (nth (i + tl) xml 0 =? 62) then SkipTag
  else
    let open := back_to_lt xml i in
    if negb (nth open xml 0 =? 60) then SkipTag
    else
      let hl := (i - open - 1)%nat in
      let head := take hl (drop (S open) xml) in
      if (0 <? Z.of_nat hl) && ((nth (S open) xml 0 =? 47) || has_char 32 head) then SkipTag
      else if (0 <? Z.of_nat hl) && negb (nth (open + hl) xml 0 =? 58) then SkipTag
      else
        let rest := drop (i + tl + 1) xml in
        match strstr_l (B "</") rest with
        | None => NoClose
        | Some close => TagText (copy_str cap (take (length rest - length close) rest))
        end.

Fixpoint xml_scan (fuel i : nat) (xml tag : list Z) (cap : Z) : option (list Z) :=
  match fuel with
  | O => None
  | S fuel =>
    match strstr_l tag (drop i xml) with
    | None => None
    | Some p =>
      let i := (length xml - length p)%nat in
      match tag_at xml tag cap i with
      | SkipTag => xml_scan fuel (S i) xml tag cap
      | NoClose => None
      | TagText t => Some t
      end
    end
  end.
(** [rnet_hr_xml_text]. *)
Definition rnet_hr_xml_text (xml tag : list Z) (cap : Z) : option (list Z) :=
  if zlen tag =? 0 then None else xml_scan (S (length xml)) 0 xml tag cap.

(** [split_url]: origin and path. *)
Definition split_url (url : list Z) (ocap pcap : Z) : option (list Z * list Z) :=
  match strstr_l (B "://") url with
  | None => None
  | Some scheme =>
    match strchr_l 47 (drop 3 scheme) with
    | Some slash => Some (copy_str ocap (take (length url - length slash) url), set_str pcap slash)
    | None => Some (copy_str ocap url, set_str pcap (B "/"))
    end
  end.

(** [strrchr(path, '/')]: the path up to and including the last slash, or its
    first byte. *)
Fixpoint last_slash (s : list Z) : option (list Z) :=
  match s with
  | [] => None
  | b :: r => match last_slash r with
              | Some p => Some (b :: p)
              | None => if b =? 47 then Some [b] else None
              end
  end.
Definition rnet_hr_absolute_url (ref_ : list Z) (base : option (list Z)) (cap : Z) : list Z :=
  if match strstr_l (B "://") ref_ with Some _ => true | None => false end then set_str cap ref_
  else match base with
       | None => set_str cap ref_
       | Some base =>
         match split_url base 256 512 with
         | None => set_str cap ref_
         | Some (origin, path) =>
           if hd 0 ref_ =? 47 then cut_l cap (origin ++ ref_)
           else cut_l cap (origin ++ match last_slash path with Some p => p | None => take 1 path end ++ ref_)
         end
       end.

Definition igd_wanted : list (list Z) :=
  [B "urn:schemas-upnp-org:service:WANIPConnection:2"; B "urn:schemas-upnp-org:service:WANIPConnection:1";
   B "urn:schemas-upnp-org:service:WANPPPConnection:1"].

(** The services of the description, from [at_] on, for one wanted type. *)
Fixpoint igd_services (fuel : nat) (at_ : list Z) (want : list Z) : option (list Z) :=
  match fuel with
  | O => None
  | S fuel =>
    match strstr_l (B "<service>") at_ with
    | None => None
    | Some a =>
      match strstr_l (B "</service>") a with
      | None => None
      | Some e =>
        let svc := copy_str 2048 (take (length a - length e) a) in
        match rnet_hr_xml_text svc (B "serviceType") 160 with
        | Some ty =>
          if bool_decide (ty = want) then
            match rnet_hr_xml_text svc (B "controlURL") 512 with
            | Some ctl => if zlen ctl =? 0 then igd_services fuel e want else Some ctl
            | None => igd_services fuel e want
            end
          else igd_services fuel e want
        | None => igd_services fuel e want
        end
      end
    end
  end.
Fixpoint igd_first (wanted : list (list Z)) (xml : list Z) : option (list Z * list Z) :=
  match wanted with
  | [] => None
  | w :: r => match igd_services (S (length xml)) xml w with Some ctl => Some (ctl, w) | None => igd_first r xml end
  end.
(** [rnet_hr_igd_control_url]: the control URL and the service type. *)
Definition rnet_hr_igd_control_url (xml location : list Z) (cap type_cap : Z) : option (list Z * list Z) :=
  let base := match rnet_hr_xml_text xml (B "URLBase") 256 with
              | Some b => if zlen b =? 0 then location else b
              | None => location
              end in
  match igd_first igd_wanted xml with
  | None => None
  | Some (ctl, w) => Some (rnet_hr_absolute_url ctl (Some base) cap, set_str type_cap w)
  end.

(** [rnet_hr_soap_body]. *)
Definition soap_head (service_type action : list Z) : list Z :=
  B "<?xml version=" ++ quoted (B "1.0") ++ B "?>" ++ [13; 10] ++
  B "<s:Envelope xmlns:s=" ++ quoted (B "http://schemas.xmlsoap.org/soap/envelope/") ++ B " s:encodingStyle=" ++
  quoted (B "http://schemas.xmlsoap.org/soap/encoding/") ++ B "><s:Body><u:" ++ action ++ B " xmlns:u=" ++
  quoted service_type ++ B ">".
Definition soap_arg (kv : list Z * list Z) : list Z :=
  let '(k, v) := kv in B "<" ++ k ++ B ">" ++ v ++ B "</" ++ k ++ B ">".
Definition rnet_hr_soap_body (service_type action : list Z) (kv : list (list Z * list Z)) (cap : Z) : option (list Z) :=
  if cap =? 0 then None
  else append cap (fold_left (fun o a => append cap o (soap_arg a)) kv (append cap (Some []) (soap_head service_type action)))
         (B "</u:" ++ action ++ B "></s:Body></s:Envelope>" ++ [13; 10]).

(** ** NAT-PMP *)

Definition be16 (x : Z) : list Z := [u8 (Z.shiftr x 8); u8 x].
Definition rnet_hr_natpmp_mapping_request (internal_port external_port lifetime_s : Z) : list Z :=
  [0; 1; 0; 0] ++ be16 internal_port ++ be16 external_port ++
  [u8 (Z.shiftr lifetime_s 24); u8 (Z.shiftr lifetime_s 16); u8 (Z.shiftr lifetime_s 8); u8 lifetime_s].

Definition rd16 (r : list Z) (i : Z) : Z := Z.lor (Z.shiftl (rd 0 r i) 8) (rd 0 r (i + 1)).
(** The external port and the result code. *)
Definition rnet_hr_natpmp_parse_mapping (r : list Z) : option Z * option Z :=
  if (zlen r <? 16) || negb (rd 0 r 0 =? 0) || negb (rd 0 r 1 =? 129) then (None, None)
  else
    let rc := rd16 r 2 in
    if negb (rc =? 0) then (None, Some rc) else (Some (rd16 r 10), Some rc).

Definition dotted (a b c d : Z) : list Z := print_l a ++ [46] ++ print_l b ++ [46] ++ print_l c ++ [46] ++ print_l d.
Definition rnet_hr_natpmp_parse_address (r : list Z) (cap : Z) : option (list Z) :=
  if (zlen r <? 12) || negb (rd 0 r 0 =? 0) || negb (rd 0 r 1 =? 128) || negb (rd 0 r 2 =? 0) || negb (rd 0 r 3 =? 0)
  then None
  else Some (cut_l cap (dotted (rd 0 r 8) (rd 0 r 9) (rd 0 r 10) (rd 0 r 11))).

(** ** The route table *)

(** One [%31s] of [sscanf]: blanks skipped, at most 31 bytes. *)
Fixpoint take_word (n : nat) (s : list Z) : list Z * list Z :=
  match n, s with
  | S n, b :: r => if is_space_b b then ([], s) else let '(w, rest) := take_word n r in (b :: w, rest)
  | _, _ => ([], s)
  end.
Definition scan_word (s : list Z) : option (list Z * list Z) :=
  match skip_spaces s with [] => None | s => Some (take_word 31 s) end.
Definition scan3 (s : list Z) : option (list Z * list Z * list Z) :=
  match scan_word s with
  | None => None
  | Some (a, s) => match scan_word s with
                   | None => None
                   | Some (b, s) => match scan_word s with None => None | Some (c, _) => Some (a, b, c) end
                   end
  end.
(** [strtoul(gw, NULL, 16)] of a word that starts with a digit. *)
Definition hex_val (c : Z) : option Z :=
  if (48 <=? c) && (c <=? 57) then Some (c - 48)
  else if (97 <=? c) && (c <=? 102) then Some (c - 87)
  else if (65 <=? c) && (c <=? 70) then Some (c - 55) else None.
Fixpoint read_hex (acc : Z) (s : list Z) : Z :=
  match s with
  | [] => acc
  | c :: r => match hex_val c with Some v => read_hex (16 * acc + v) r | None => acc end
  end.
Definition strtoul16 (s : list Z) : Z :=
  let s := if (hd 0 s =? 48) && ((nth 1 s 0 =? 120) || (nth 1 s 0 =? 88)) &&
              match hex_val (nth 2 s 0) with Some _ => true | None => false end then drop 2 s else s in
  Z.min 18446744073709551615 (read_hex 0 s).

(** From a newline on: the next line's gateway if it is the default route. *)
Fixpoint route_lines (fuel : nat) (line : option (list Z)) (cap : Z) : option (list Z) :=
  match fuel, line with
  | S fuel, Some (_ :: line) =>
    let next := strchr_l 10 line in
    match scan3 line with
    | Some (_, dest, gw) =>
      if bool_decide (dest = B "00000000") && negb (bool_decide (gw = B "00000000")) then
        let v := strtoul16 gw in
        Some (cut_l cap (dotted (Z.land v 255) (Z.land (Z.shiftr v 8) 255) (Z.land (Z.shiftr v 16) 255)
                           (Z.land (Z.shiftr v 24) 255)))
      else route_lines fuel next cap
    | None => route_lines fuel next cap
    end
  | _, _ => None
  end.
Definition rnet_hr_gateway_from_route (text : list Z) (cap : Z) : option (list Z) :=
  route_lines (length text) (strchr_l 10 text) cap.

(** ** HTTP *)

(** What follows the blank line; nothing where there is none. *)
Definition http_tail (raw : list Z) : list Z :=
  match strstr_l [13; 10; 13; 10] raw with
  | Some p => drop 4 p
  | None => match strstr_l [10; 10] raw with Some p => drop 2 p | None => [] end
  end.

(** The status and the body; [None] for a text that is no response. *)
Definition rnet_hr_http_split (raw : list Z) : option (Z * list Z) :=
  if (zlen raw <? 12) || negb (starts_with (B "HTTP/") raw) then None
  else
    let i := 5 + zlen (upto_c 32 (drop 5 raw)) in
    if zlen raw <? i + 4 then None else Some (atoi_l (drop (Z.to_nat (i + 1)) raw), http_tail raw).

(** [url_parts]: host, port and path of an [http://] URL. *)
Definition url_parts (url : list Z) (hcap pcap : Z) : option (list Z * Z * list Z) :=
  match strstr_l (B "://") url with
  | None => None
  | Some p =>
    if negb (starts_with (B "http://") url) then None
    else
      let p := drop 3 p in
      let '(auth, path) := match strchr_l 47 p with Some s => (upto_c 47 p, s) | None => (p, B "/") end in
      let '(host, port) := if has_char 58 auth
        then (upto_c 58 auth, u16 (atoi_l (drop (S (length (upto_c 58 auth))) p))) else (auth, 80) in
      let host := copy_str hcap host in
      if (zlen host =? 0) || (port =? 0) then None else Some (host, port, set_str pcap path)
  end.
