(* ===== verification/Slots.v ===== *)
(** * Tables of slots

    An array whose free entries are [None], searched from the front; as a
    bag of its used entries. *)

From stdpp Require Import base list numbers.
From S2P Require Import Prelude.

Definition is_some {A} (o : option A) : bool := match o with Some _ => true | None => false end.

(** The first entry that satisfies [f]. *)
Fixpoint index_of {B} (f : B -> bool) (l : list B) : option (nat * B) :=
  match l with
  | [] => None
  | x :: r => if f x then Some (0%nat, x) else prod_map S id <$> index_of f r
  end.
Lemma index_of_spec {B} (f : B -> bool) l :
  match index_of f l with
  | Some (i, x) => l !! i = Some x /\ f x = true
  | None => Forall (fun x => f x = false) l
  end.
Proof.
  induction l as [|x l IH]; cbn; [done|]. destruct (f x) eqn:Ef; [done|].
  destruct (index_of f l) as [[i y]|]; cbn; [done|]. by constructor.
Qed.

Lemma bag_put {A} (l : list (option A)) i e : l !! i = Some None -> omap id (<[i := Some e]> l) ≡ₚ e :: omap id l.
Proof.
  intros Hi. rewrite <-(take_drop_middle l i None Hi) at 2. rewrite insert_take_drop by (eapply lookup_lt_Some; eauto).
  rewrite !omap_app. cbn. by rewrite Permutation_middle.
Qed.
Lemma bag_take {A} (l : list (option A)) i e : l !! i = Some (Some e) -> omap id l ≡ₚ e :: omap id (<[i := None]> l).
Proof.
  intros Hi. rewrite <-(take_drop_middle l i (Some e) Hi) at 1. rewrite insert_take_drop by (eapply lookup_lt_Some; eauto).
  rewrite !omap_app. cbn. by rewrite Permutation_middle.
Qed.
Lemma bag_replace {A} (l : list (option A)) i e e' : l !! i = Some (Some e) ->
  exists rest, omap id l ≡ₚ e :: rest /\ omap id (<[i := Some e']> l) ≡ₚ e' :: rest /\ omap id (<[i := None]> l) ≡ₚ rest.
Proof.
  intros Hi. exists (omap id (<[i := None]> l)). split; [by apply bag_take|]. split; [|done].
  rewrite <-(bag_put _ i e') by (apply list_lookup_insert_eq; by eapply lookup_lt_Some). by rewrite list_insert_insert_eq.
Qed.
(** A table without a free slot is full of entries. *)
Lemma bag_full {A} (l : list (option A)) : Forall (fun o => negb (is_some o) = false) l -> length (omap id l) = length l.
Proof. induction 1 as [|[x|] l Hx Hl IH]; cbn; [done|by rewrite IH|done]. Qed.
Lemma bag_le {A} (l : list (option A)) : (length (omap id l) <= length l)%nat.
Proof. induction l as [|[x|] l IH]; cbn; lia. Qed.
Lemma bag_free {A} (l : list (option A)) i : l !! i = Some None -> (length (omap id l) < length l)%nat.
Proof.
  intros Hi. rewrite <-(take_drop_middle l i None Hi), !omap_app, !length_app. cbn.
  pose proof (bag_le (take i l)). pose proof (bag_le (drop (S i) l)). lia.
Qed.
