(* ===== verification/Protocol.v ===== *)
(** * Wire protocol (src/protocol/rnet_protocol.c, rnet_protocol.h)

    Encoders and the decoder of the datagrams the peers exchange.

    Encoders are writers into a buffer of [cap] bytes: the state is the list
    of bytes already written, a write past [cap] is [Oob], the error return
    [-1] is [Fail] and [Ret bs] is the finished packet [out[0 .. len)]. The
    decoder reads the datagram at a cursor; a read past the datagram's last
    byte is [Oob]. Pointers the callers never pass as NULL carry no test;
    the ones the encoders do test ([frames], [acks], [rows], [text], ...) are
    options. *)

From stdpp Require Import base list numbers list_numbers.
From S2P Require Import Prelude.

(** ** Constants *)

Definition RNET_PKT_HELLO : Z := 1.
Definition RNET_PKT_READY : Z := 2.
Definition RNET_PKT_START : Z := 3.
Definition RNET_PKT_INPUT : Z := 4.
Definition RNET_PKT_DELAY_SYNC : Z := 5.
Definition RNET_PKT_INPUT_CONFIRM : Z := 6.
Definition RNET_PKT_BYE : Z := 7.
Definition RNET_PKT_STATE_BEGIN : Z := 8.
Definition RNET_PKT_STATE_CHUNK : Z := 9.
Definition RNET_PKT_STATE_ACK : Z := 10.
Definition RNET_PKT_STATE_PROBE : Z := 11.
Definition RNET_PKT_STATE_PROBE_REPLY : Z := 12.
Definition RNET_PKT_SIO_MULTI_XFER : Z := 13.
Definition RNET_PKT_STATE_PROBE_DONE : Z := 14.
Definition RNET_PKT_RB_SYNC : Z := 20.
Definition RNET_PKT_RB_SEAL_ROWS : Z := 21.
Definition RNET_PKT_RB_BASELINE : Z := 22.
Definition RNET_PKT_RB_POST : Z := 23.
Definition RNET_PKT_RB_FRAME_COMMIT : Z := 24.
Definition RNET_PKT_RB_RESOLVED : Z := 25.
Definition RNET_PKT_MODSET : Z := 26.
Definition RNET_PKT_MODSET_ACK : Z := 27.

Definition RNET_MODSET_TEXT_MAX : Z := 1024.
Definition RNET_MODSET_REASON_MAX : Z := 96.
Definition RNET_MAX_PACKET : Z := 1200.
Definition RNET_MAX_BUNDLE : Z := 21.
Definition RNET_STATE_CHUNK_MAX : Z := 1120.
Definition RNET_RB_SEAL_ROWS_WIRE_FRAME_BYTES : Z := 9.
Definition RNET_WIRE_VERSION : Z := 2.
Definition RNET_RB_SEAL_ROWS_CHUNK_MAX : Z := 24.
Definition RNET_MAX_SLOTS : Z := 8.
Definition RNET_INPUT_MAX : Z := 32.

(** ** Data *)

(** [bytes] is the whole array of [RNET_INPUT_MAX] bytes; [size] of them count. *)
Record RNetWireFrame := mkWireFrame {
  wf_tick : Z;
  wf_size : Z;
  wf_bytes : list Z
}.

Record RNetRbWireFrame := mkRbWireFrame {
  rbw_buttons : Z;
  rbw_stick_x : Z;
  rbw_stick_y : Z;
  rbw_source : Z;
  rbw_is_predicted : Z;
  rbw_is_valid : Z;
  rbw_rx : Z;
  rbw_ry : Z
}.

(** The decoder's output struct. The arrays [frames], [rb_rows],
    [state_chunk], [modset_text] and [modset_reason] are represented by the
    prefix the decoder fills ([frame_count] frames, [rb_row_count] rows,
    [state_chunk_size] / [modset_len] bytes); [acks] is the whole array of
    [RNET_MAX_SLOTS] entries. *)
Record RNetDecodedPacket := mkPacket {
  p_type : Z;
  p_session_id : Z;
  p_local_slot : Z;
  p_slot_count : Z;
  p_delay : Z;
  p_wire_version : Z;
  p_start_tick : Z;
  p_ack_tick : Z;
  p_ack_count : Z;
  p_acks : list Z;
  p_new_delay : Z;
  p_effective_tick : Z;
  p_confirm_sim_tick : Z;
  p_confirm_hash : Z;
  p_input_epoch : Z;
  p_frame_count : Z;
  p_frames : list RNetWireFrame;
  p_state_op : Z;
  p_state_slot : Z;
  p_state_xfer_id : Z;
  p_state_total_size : Z;
  p_state_payload_crc : Z;
  p_state_offset : Z;
  p_state_chunk_size : Z;
  p_state_ack_bytes : Z;
  p_state_chunk : list Z;
  p_state_probe_match : Z;
  p_state_probe_replied : Z;
  p_rb_epoch_id : Z;
  p_rb_mismatch_tick : Z;
  p_rb_load_tick : Z;
  p_rb_target_tick : Z;
  p_rb_corrected_slot : Z;
  p_rb_initiator : Z;
  p_rb_flags : Z;
  p_rb_slot : Z;
  p_rb_row_begin : Z;
  p_rb_row_count : Z;
  p_rb_rows : list RNetRbWireFrame;
  p_rb_digest_master : Z;
  p_rb_digest_a : Z;
  p_rb_digest_b : Z;
  p_rb_digest_c : Z;
  p_rb_input_digest : Z;
  p_rb_match : Z;
  p_rb_through_tick : Z;
  p_rb_state_hash : Z;
  p_rb_resolved_through : Z;
  p_modset_text : list Z;
  p_modset_len : Z;
  p_modset_status : Z;
  p_modset_reason : list Z;
  p_sio_unit_id : Z;
  p_sio_xfer_seq : Z;
  p_sio_send : Z;
  p_sio_confirm : Z;
  p_sio_vblank : Z
}.

(** Eta expansion and field updates of the packet. *)
Definition eta_packet (r : RNetDecodedPacket) : RNetDecodedPacket :=
  mkPacket
    (p_type r) (p_session_id r) (p_local_slot r) (p_slot_count r) (p_delay r)
    (p_wire_version r) (p_start_tick r) (p_ack_tick r) (p_ack_count r) (p_acks r)
    (p_new_delay r) (p_effective_tick r) (p_confirm_sim_tick r) (p_confirm_hash r)
    (p_input_epoch r) (p_frame_count r) (p_frames r) (p_state_op r) (p_state_slot r)
    (p_state_xfer_id r) (p_state_total_size r) (p_state_payload_crc r)
    (p_state_offset r) (p_state_chunk_size r) (p_state_ack_bytes r) (p_state_chunk r)
    (p_state_probe_match r) (p_state_probe_replied r) (p_rb_epoch_id r)
    (p_rb_mismatch_tick r) (p_rb_load_tick r) (p_rb_target_tick r)
    (p_rb_corrected_slot r) (p_rb_initiator r) (p_rb_flags r) (p_rb_slot r)
    (p_rb_row_begin r) (p_rb_row_count r) (p_rb_rows r) (p_rb_digest_master r)
    (p_rb_digest_a r) (p_rb_digest_b r) (p_rb_digest_c r) (p_rb_input_digest r)
    (p_rb_match r) (p_rb_through_tick r) (p_rb_state_hash r) (p_rb_resolved_through r)
    (p_modset_text r) (p_modset_len r) (p_modset_status r) (p_modset_reason r)
    (p_sio_unit_id r) (p_sio_xfer_seq r) (p_sio_send r) (p_sio_confirm r)
    (p_sio_vblank r).
Definition set_p_type := ltac:(updater eta_packet p_type).
Definition set_p_session_id := ltac:(updater eta_packet p_session_id).
Definition set_p_local_slot := ltac:(updater eta_packet p_local_slot).
Definition set_p_slot_count := ltac:(updater eta_packet p_slot_count).
Definition set_p_delay := ltac:(updater eta_packet p_delay).
Definition set_p_wire_version := ltac:(updater eta_packet p_wire_version).
Definition set_p_start_tick := ltac:(updater eta_packet p_start_tick).
Definition set_p_ack_tick := ltac:(updater eta_packet p_ack_tick).
Definition set_p_ack_count := ltac:(updater eta_packet p_ack_count).
Definition set_p_acks := ltac:(updater eta_packet p_acks).
Definition set_p_new_delay := ltac:(updater eta_packet p_new_delay).
Definition set_p_effective_tick := ltac:(updater eta_packet p_effective_tick).
Definition set_p_confirm_sim_tick := ltac:(updater eta_packet p_confirm_sim_tick).
Definition set_p_confirm_hash := ltac:(updater eta_packet p_confirm_hash).
Definition set_p_input_epoch := ltac:(updater eta_packet p_input_epoch).
Definition set_p_frame_count := ltac:(updater eta_packet p_frame_count).
Definition set_p_frames := ltac:(updater eta_packet p_frames).
Definition set_p_state_op := ltac:(updater eta_packet p_state_op).
Definition set_p_state_slot := ltac:(updater eta_packet p_state_slot).
Definition set_p_state_xfer_id := ltac:(updater eta_packet p_state_xfer_id).
Definition set_p_state_total_size := ltac:(updater eta_packet p_state_total_size).
Definition set_p_state_payload_crc := ltac:(updater eta_packet p_state_payload_crc).
Definition set_p_state_offset := ltac:(updater eta_packet p_state_offset).
Definition set_p_state_chunk_size := ltac:(updater eta_packet p_state_chunk_size).
Definition set_p_state_ack_bytes := ltac:(updater eta_packet p_state_ack_bytes).
Definition set_p_state_chunk := ltac:(updater eta_packet p_state_chunk).
Definition set_p_state_probe_match := ltac:(updater eta_packet p_state_probe_match).
Definition set_p_state_probe_replied := ltac:(updater eta_packet p_state_probe_replied).
Definition set_p_rb_epoch_id := ltac:(updater eta_packet p_rb_epoch_id).
Definition set_p_rb_mismatch_tick := ltac:(updater eta_packet p_rb_mismatch_tick).
Definition set_p_rb_load_tick := ltac:(updater eta_packet p_rb_load_tick).
Definition set_p_rb_target_tick := ltac:(updater eta_packet p_rb_target_tick).
Definition set_p_rb_corrected_slot := ltac:(updater eta_packet p_rb_corrected_slot).
Definition set_p_rb_initiator := ltac:(updater eta_packet p_rb_initiator).
Definition set_p_rb_flags := ltac:(updater eta_packet p_rb_flags).
Definition set_p_rb_slot := ltac:(updater eta_packet p_rb_slot).
Definition set_p_rb_row_begin := ltac:(updater eta_packet p_rb_row_begin).
Definition set_p_rb_row_count := ltac:(updater eta_packet p_rb_row_count).
Definition set_p_rb_rows := ltac:(updater eta_packet p_rb_rows).
Definition set_p_rb_digest_master := ltac:(updater eta_packet p_rb_digest_master).
Definition set_p_rb_digest_a := ltac:(updater eta_packet p_rb_digest_a).
Definition set_p_rb_digest_b := ltac:(updater eta_packet p_rb_digest_b).
Definition set_p_rb_digest_c := ltac:(updater eta_packet p_rb_digest_c).
Definition set_p_rb_input_digest := ltac:(updater eta_packet p_rb_input_digest).
Definition set_p_rb_match := ltac:(updater eta_packet p_rb_match).
Definition set_p_rb_through_tick := ltac:(updater eta_packet p_rb_through_tick).
Definition set_p_rb_state_hash := ltac:(updater eta_packet p_rb_state_hash).
Definition set_p_rb_resolved_through := ltac:(updater eta_packet p_rb_resolved_through).
Definition set_p_modset_text := ltac:(updater eta_packet p_modset_text).
Definition set_p_modset_len := ltac:(updater eta_packet p_modset_len).
Definition set_p_modset_status := ltac:(updater eta_packet p_modset_status).
Definition set_p_modset_reason := ltac:(updater eta_packet p_modset_reason).
Definition set_p_sio_unit_id := ltac:(updater eta_packet p_sio_unit_id).
Definition set_p_sio_xfer_seq := ltac:(updater eta_packet p_sio_xfer_seq).
Definition set_p_sio_send := ltac:(updater eta_packet p_sio_send).
Definition set_p_sio_confirm := ltac:(updater eta_packet p_sio_confirm).
Definition set_p_sio_vblank := ltac:(updater eta_packet p_sio_vblank).

(** [memset(out, 0, sizeof *out)]. *)
Definition zero_packet : RNetDecodedPacket :=
  mkPacket
    0 0 0 0 0 0 0 0 0 (replicate 8 0) 0 0 0 0 0 0 [] 0 0 0 0 0 0 0 0 [] 0 0 0 0 0 0 0 0 0
    0 0 0 [] 0 0 0 0 0 0 0 0 0 [] 0 0 [] 0 0 0 0 0.

(** ** Writers *)

Definition writer : Type := Z -> list Z -> cres (list Z).

Definition w_seq (a b : writer) : writer := fun cap out => let* out' := a cap out in b cap out'.
Notation "a >>> b" := (w_seq a b) (at level 60, right associativity) : rnet_scope.

(** Store bytes at the cursor and advance it. *)
Definition put (bs : list Z) : writer :=
  fun cap out => if zlen out + zlen bs <=? cap then Ret (out ++ bs) else Oob.
(** [memcpy(c, src, n); c += n]. *)
Definition put_from (src : list Z) (n : Z) : writer :=
  fun cap out => if zlen src <? n then Oob else put (take (Z.to_nat n) src) cap out.
Definition w_nop : writer := fun _ out => Ret out.
(** [if (c) return -1;] *)
Definition w_reject (c : Z -> list Z -> bool) : writer :=
  fun cap out => if c cap out then Fail else Ret out.
(** Move the cursor back over the last [n] bytes. *)
Definition w_back (n : Z) : writer := fun _ out => Ret (take (Z.to_nat (zlen out - n)) out).

Definition write_u8 (v : Z) : writer := put [v].
Definition write_u16 (v : Z) : writer :=
  put [Z.land v 255; Z.land (Z.shiftr v 8) 255].
Definition write_u32 (v : Z) : writer :=
  put [Z.land v 255; Z.land (Z.shiftr v 8) 255; Z.land (Z.shiftr v 16) 255;
       Z.land (Z.shiftr v 24) 255].

Definition fnv_step (sum b : Z) : Z := u32 (Z.lxor sum b * 16777619).
Definition rnet_proto_checksum (data : list Z) : Z := fold_left fnv_step data 2166136261.

Definition finish_packet : writer := fun cap out =>
  if cap <? zlen out + 4 then Fail
  else write_u32 (rnet_proto_checksum out) cap out.

Definition rnet_proto_is_rb_control (type : Z) : bool :=
  (type =? RNET_PKT_RB_SYNC) || (type =? RNET_PKT_RB_SEAL_ROWS) ||
  (type =? RNET_PKT_RB_BASELINE) || (type =? RNET_PKT_RB_POST) ||
  (type =? RNET_PKT_RB_FRAME_COMMIT) || (type =? RNET_PKT_RB_RESOLVED).

(** [buf] holds the packet of [size = zlen buf] bytes. *)
Definition rnet_proto_tag_rb_epoch (buf : list Z) (cap epoch : Z) : cres (list Z) :=
  if (zlen buf <? 14) || (cap <? zlen buf + 2) then Fail
  else (w_back 4 >>> write_u16 epoch >>> finish_packet) cap buf.

(** ** Encoders *)

Definition header (magic type session_id : Z) : writer :=
  write_u32 magic >>> write_u16 type >>> write_u32 session_id.

Definition rnet_proto_encode_hello (cap magic session_id local_slot slot_count delay : Z)
  : cres (list Z) :=
  if cap <? 20 then Fail else
  (header magic RNET_PKT_HELLO session_id >>>
   write_u8 local_slot >>> write_u8 slot_count >>> write_u8 delay >>>
   write_u8 RNET_WIRE_VERSION >>> finish_packet) cap [].

Definition rnet_proto_encode_ready (cap magic session_id local_slot : Z) : cres (list Z) :=
  if cap <? 16 then Fail else
  (header magic RNET_PKT_READY session_id >>>
   write_u8 local_slot >>> write_u8 0 >>> write_u8 0 >>> write_u8 0 >>> finish_packet) cap [].

Definition rnet_proto_encode_start (cap magic session_id start_tick : Z) : cres (list Z) :=
  if cap <? 20 then Fail else
  (header magic RNET_PKT_START session_id >>> write_u32 start_tick >>> finish_packet) cap [].

(** The frame loop of [rnet_proto_encode_input]; [n] iterations are left and
    [frames] is the rest of the caller's array. *)
Fixpoint write_frames (n : nat) (frames : list RNetWireFrame) : writer :=
  match n with
  | O => w_nop
  | S m =>
      match frames with
      | [] => fun _ _ => Oob
      | f :: rest =>
          let sz := wf_size f in
          w_reject (fun _ _ => RNET_INPUT_MAX <? sz) >>>
          w_reject (fun cap out => cap <? zlen out + 4 + 2 + sz + 4) >>>
          write_u32 (wf_tick f) >>> write_u16 sz >>>
          put_from (wf_bytes f) sz >>>
          write_frames m rest
      end
  end.

Definition rnet_proto_encode_input (cap magic session_id local_slot input_epoch ack_tick : Z)
    (frames : option (list RNetWireFrame)) (frame_count : Z) : cres (list Z) :=
  match frames with
  | None => Fail
  | Some frames =>
      if (frame_count <? 1) || (RNET_MAX_BUNDLE <? frame_count) then Fail else
      if cap <? 32 then Fail else
      (header magic RNET_PKT_INPUT session_id >>>
       write_u8 local_slot >>> write_u8 (u8 frame_count) >>>
       write_u8 (Z.land input_epoch 255) >>> write_u8 (Z.land (Z.shiftr input_epoch 8) 255) >>>
       write_u32 ack_tick >>>
       write_frames (Z.to_nat frame_count) frames >>> finish_packet) cap []
  end.

Fixpoint write_acks (n : nat) (acks : list Z) : writer :=
  match n with
  | O => w_nop
  | S m => match acks with
           | [] => fun _ _ => Oob
           | a :: rest => write_u32 a >>> write_acks m rest
           end
  end.

Definition rnet_proto_encode_input_acks
    (cap magic session_id local_slot input_epoch ack_tick : Z)
    (frames : option (list RNetWireFrame)) (frame_count : Z)
    (acks : option (list Z)) (ack_count : Z) : cres (list Z) :=
  match acks with
  | None => Fail
  | Some acks =>
      if (ack_count <? 3) || (RNET_MAX_SLOTS <? ack_count) then Fail else
      let* pkt := rnet_proto_encode_input cap magic session_id local_slot input_epoch ack_tick
                    frames frame_count in
      if cap <? zlen pkt + 1 + 4 * ack_count then Fail else
      (w_back 4 >>> write_u8 ack_count >>> write_acks (Z.to_nat ack_count) acks >>>
       finish_packet) cap pkt
  end.

Definition rnet_proto_encode_delay_sync (cap magic session_id new_delay effective_tick : Z)
  : cres (list Z) :=
  if cap <? 24 then Fail else
  (header magic RNET_PKT_DELAY_SYNC session_id >>>
   write_u8 new_delay >>> write_u8 0 >>> write_u8 0 >>> write_u8 0 >>>
   write_u32 effective_tick >>> finish_packet) cap [].

Definition rnet_proto_encode_input_confirm
    (cap magic session_id local_slot input_epoch sim_tick input_hash : Z) : cres (list Z) :=
  if cap <? 28 then Fail else
  (header magic RNET_PKT_INPUT_CONFIRM session_id >>>
   write_u8 local_slot >>>
   write_u8 (Z.land input_epoch 255) >>> write_u8 (Z.land (Z.shiftr input_epoch 8) 255) >>>
   write_u8 0 >>>
   write_u32 sim_tick >>> write_u32 input_hash >>> finish_packet) cap [].

Definition rnet_proto_encode_bye (cap magic session_id local_slot : Z) : cres (list Z) :=
  if cap <? 16 then Fail else
  (header magic RNET_PKT_BYE session_id >>>
   write_u8 local_slot >>> write_u8 0 >>> write_u8 0 >>> write_u8 0 >>> finish_packet) cap [].

Definition rnet_proto_encode_state_begin
    (cap magic session_id local_slot op slot xfer_id total_size payload_crc : Z) : cres (list Z) :=
  if cap <? 32 then Fail else
  (header magic RNET_PKT_STATE_BEGIN session_id >>>
   write_u8 local_slot >>> write_u8 op >>> write_u8 slot >>> write_u8 0 >>>
   write_u32 xfer_id >>> write_u32 total_size >>> write_u32 payload_crc >>>
   finish_packet) cap [].

Definition rnet_proto_encode_state_chunk
    (cap magic session_id local_slot xfer_id offset : Z) (data : option (list Z)) (size : Z)
  : cres (list Z) :=
  match data with
  | None => Fail
  | Some data =>
      if (size =? 0) || (RNET_STATE_CHUNK_MAX <? size) then Fail else
      if cap <? 28 + size then Fail else
      (header magic RNET_PKT_STATE_CHUNK session_id >>>
       write_u8 local_slot >>> write_u8 0 >>> write_u8 0 >>> write_u8 0 >>>
       write_u32 xfer_id >>> write_u32 offset >>> write_u16 size >>> write_u16 0 >>>
       put_from data size >>> finish_packet) cap []
  end.

Definition rnet_proto_encode_state_ack (cap magic session_id local_slot xfer_id ack_bytes : Z)
  : cres (list Z) :=
  if cap <? 24 then Fail else
  (header magic RNET_PKT_STATE_ACK session_id >>>
   write_u8 local_slot >>> write_u8 0 >>> write_u8 0 >>> write_u8 0 >>>
   write_u32 xfer_id >>> write_u32 ack_bytes >>> finish_packet) cap [].

Definition rnet_proto_encode_state_probe_ex
    (cap magic session_id local_slot op slot total_size payload_crc replied_mask : Z)
  : cres (list Z) :=
  if cap <? 28 then Fail else
  (header magic RNET_PKT_STATE_PROBE session_id >>>
   write_u8 local_slot >>> write_u8 op >>> write_u8 slot >>> write_u8 replied_mask >>>
   write_u32 total_size >>> write_u32 payload_crc >>> finish_packet) cap [].

Definition rnet_proto_encode_state_probe
    (cap magic session_id local_slot op slot total_size payload_crc : Z) : cres (list Z) :=
  rnet_proto_encode_state_probe_ex cap magic session_id local_slot op slot total_size
    payload_crc 0.

Definition rnet_proto_encode_state_probe_reply
    (cap magic session_id local_slot op slot matched total_size payload_crc : Z)
  : cres (list Z) :=
  if cap <? 28 then Fail else
  (header magic RNET_PKT_STATE_PROBE_REPLY session_id >>>
   write_u8 local_slot >>> write_u8 op >>> write_u8 slot >>> write_u8 (b2z (nz matched)) >>>
   write_u32 total_size >>> write_u32 payload_crc >>> finish_packet) cap [].

Definition rnet_proto_encode_state_probe_done
    (cap magic session_id local_slot op slot total_size payload_crc : Z) : cres (list Z) :=
  if cap <? 28 then Fail else
  (header magic RNET_PKT_STATE_PROBE_DONE session_id >>>
   write_u8 local_slot >>> write_u8 op >>> write_u8 slot >>> write_u8 0 >>>
   write_u32 total_size >>> write_u32 payload_crc >>> finish_packet) cap [].

Definition rnet_proto_encode_sio_multi_xfer
    (cap magic session_id local_slot unit_id seq send confirm_pad : Z) : cres (list Z) :=
  if cap <? 24 then Fail else
  (header magic RNET_PKT_SIO_MULTI_XFER session_id >>>
   write_u8 local_slot >>> write_u8 unit_id >>>
   write_u32 seq >>> write_u16 send >>> write_u16 confirm_pad >>> finish_packet) cap [].

Definition rnet_proto_encode_rb_sync
    (cap magic session_id local_slot epoch_id mismatch_tick load_tick target_tick
     corrected_slot initiator flags : Z) : cres (list Z) :=
  if cap <? 36 then Fail else
  (header magic RNET_PKT_RB_SYNC session_id >>>
   write_u8 local_slot >>> write_u8 corrected_slot >>> write_u8 initiator >>> write_u8 flags >>>
   write_u32 epoch_id >>> write_u32 mismatch_tick >>> write_u32 load_tick >>>
   write_u32 target_tick >>> finish_packet) cap [].

Definition write_rb_frame (f : RNetRbWireFrame) : writer :=
  write_u16 (rbw_buttons f) >>>
  put [u8 (rbw_stick_x f); u8 (rbw_stick_y f); rbw_source f; rbw_is_predicted f;
       rbw_is_valid f; rbw_rx f; rbw_ry f].

Fixpoint write_rb_frames (n : nat) (rows : list RNetRbWireFrame) : writer :=
  match n with
  | O => w_nop
  | S m => match rows with
           | [] => fun _ _ => Oob
           | f :: rest => write_rb_frame f >>> write_rb_frames m rest
           end
  end.

Definition rnet_proto_encode_rb_seal_rows
    (cap magic session_id local_slot epoch_id mismatch_tick target_tick slot row_begin : Z)
    (rows : option (list RNetRbWireFrame)) (row_count : Z) : cres (list Z) :=
  if match rows with None => negb (row_count =? 0) | Some _ => false end then Fail else
  let row_count := if RNET_RB_SEAL_ROWS_CHUNK_MAX <? row_count
                   then RNET_RB_SEAL_ROWS_CHUNK_MAX else row_count in
  (header magic RNET_PKT_RB_SEAL_ROWS session_id >>>
   write_u8 local_slot >>> write_u8 slot >>> write_u16 row_count >>>
   write_u32 epoch_id >>> write_u32 mismatch_tick >>> write_u32 target_tick >>>
   write_u32 row_begin >>>
   write_rb_frames (Z.to_nat row_count) (default [] rows) >>> finish_packet) cap [].

Definition rnet_proto_encode_rb_baseline
    (cap magic session_id local_slot epoch_id load_tick
     digest_master digest_a digest_b digest_c : Z) : cres (list Z) :=
  if cap <? 40 then Fail else
  (header magic RNET_PKT_RB_BASELINE session_id >>>
   write_u8 local_slot >>> write_u8 0 >>>
   write_u32 epoch_id >>> write_u32 load_tick >>> write_u32 digest_master >>>
   write_u32 digest_a >>> write_u32 digest_b >>> write_u32 digest_c >>> finish_packet) cap [].

Definition rnet_proto_encode_rb_post
    (cap magic session_id local_slot epoch_id target_tick digest_master input_digest matched : Z)
  : cres (list Z) :=
  if cap <? 32 then Fail else
  (header magic RNET_PKT_RB_POST session_id >>>
   write_u8 local_slot >>> write_u8 (b2z (nz matched)) >>>
   write_u32 epoch_id >>> write_u32 target_tick >>> write_u32 digest_master >>>
   write_u32 input_digest >>> finish_packet) cap [].

Definition rnet_proto_encode_rb_frame_commit
    (cap magic session_id local_slot through_tick state_hash : Z) : cres (list Z) :=
  if cap <? 24 then Fail else
  (header magic RNET_PKT_RB_FRAME_COMMIT session_id >>>
   write_u8 local_slot >>> write_u8 0 >>>
   write_u32 through_tick >>> write_u32 state_hash >>> finish_packet) cap [].

(** [text] is the caller's NUL-terminated string, without its terminator. *)
Definition clamped_len (v : option (list Z)) (cap : Z) : Z :=
  match v with None => 0 | Some v => Z.min (zlen v) cap end.

Definition rnet_proto_encode_modset (cap magic session_id local_slot : Z) (text : option (list Z))
  : cres (list Z) :=
  let n := clamped_len text RNET_MODSET_TEXT_MAX in
  if cap <? 18 + n then Fail else
  (header magic RNET_PKT_MODSET session_id >>>
   write_u8 local_slot >>> write_u8 0 >>> write_u16 (u16 n) >>>
   put_from (default [] text) n >>> finish_packet) cap [].

Definition rnet_proto_encode_modset_ack (cap magic session_id local_slot status : Z)
    (reason : option (list Z)) : cres (list Z) :=
  let n := clamped_len reason RNET_MODSET_REASON_MAX in
  if cap <? 18 + n then Fail else
  (header magic RNET_PKT_MODSET_ACK session_id >>>
   write_u8 local_slot >>> write_u8 status >>> write_u16 (u16 n) >>>
   put_from (default [] reason) n >>> finish_packet) cap [].

Definition rnet_proto_encode_rb_resolved (cap magic session_id local_slot resolved_through : Z)
  : cres (list Z) :=
  if cap <? 20 then Fail else
  (header magic RNET_PKT_RB_RESOLVED session_id >>>
   write_u8 local_slot >>> write_u8 0 >>> write_u32 resolved_through >>> finish_packet) cap [].

(** ** Readers

    A reader takes the datagram and the cursor (an offset into it) and
    returns a value and the new cursor. *)

Definition reader (A : Type) : Type := list Z -> Z -> cres (A * Z).

Definition r_ret {A} (a : A) : reader A := fun _ c => Ret (a, c).
Definition r_bind {A B} (m : reader A) (k : A -> reader B) : reader B :=
  fun d c => let* (a, c') := m d c in k a d c'.
Notation "'let!' x := m 'in' k" := (r_bind m (fun x => k))
  (at level 10, x pattern, m at level 100, k at level 200) : rnet_scope.

(** [*c++] *)
Definition read_u8 : reader Z := fun d c =>
  match d !! Z.to_nat c with Some b => Ret (b, c + 1) | None => Oob end.
(** [c += n] *)
Definition skip (n : Z) : reader unit := fun _ c => Ret (tt, c + n).

Definition read_u16 : reader Z :=
  let! b0 := read_u8 in let! b1 := read_u8 in
  r_ret (Z.lor b0 (Z.shiftl b1 8)).
Definition read_u32 : reader Z :=
  let! b0 := read_u8 in let! b1 := read_u8 in let! b2 := read_u8 in let! b3 := read_u8 in
  r_ret (Z.lor (Z.lor (Z.lor b0 (Z.shiftl b1 8)) (Z.shiftl b2 16)) (Z.shiftl b3 24)).

(** [memcpy] of [n] bytes from the cursor. *)
Definition read_bytes (n : Z) : reader (list Z) := fun d c =>
  if c + n <=? zlen d then Ret (take (Z.to_nat n) (drop (Z.to_nat c) d), c + n) else Oob.

(** [if ((size_t)(end - c) < n) return -1;] -- the difference is converted to
    an unsigned 64-bit integer before the comparison. *)
Definition need (e n : Z) : reader unit := fun _ c =>
  if u64 (e - c) <? n then Fail else Ret (tt, c).
Definition r_reject (b : bool) : reader unit := fun _ c => if b then Fail else Ret (tt, c).
Definition cursor : reader Z := fun _ c => Ret (c, c).

Definition read_rb_frame : reader RNetRbWireFrame :=
  let! buttons := read_u16 in
  let! sx := read_u8 in let! sy := read_u8 in
  let! source := read_u8 in let! is_predicted := read_u8 in let! is_valid := read_u8 in
  let! rx := read_u8 in let! ry := read_u8 in
  r_ret (mkRbWireFrame buttons (s8 sx) (s8 sy) source is_predicted is_valid rx ry).

(** ** Decoder

    One definition per case of the [switch]; [e] is the offset of the
    checksum trailer ([end]). *)

Definition decode_hello (e : Z) (p : RNetDecodedPacket) : reader RNetDecodedPacket :=
  let! _ := need e 4 in
  let! ls := read_u8 in let! sc := read_u8 in let! dl := read_u8 in let! wv := read_u8 in
  r_ret (set_p_wire_version wv (set_p_delay dl (set_p_slot_count sc (set_p_local_slot ls p)))).

(** READY and BYE. *)
Definition decode_slot_only (e : Z) (p : RNetDecodedPacket) : reader RNetDecodedPacket :=
  let! _ := need e 4 in
  let! ls := read_u8 in let! _ := skip 3 in
  r_ret (set_p_local_slot ls p).

Definition decode_start (e : Z) (p : RNetDecodedPacket) : reader RNetDecodedPacket :=
  let! _ := need e 4 in
  let! t := read_u32 in
  r_ret (set_p_start_tick t p).

Fixpoint read_frames (n : nat) (e : Z) : reader (list RNetWireFrame) :=
  match n with
  | O => r_ret []
  | S m =>
      let! _ := need e 6 in
      let! tick := read_u32 in
      let! sz := read_u16 in
      let! _ := r_reject (RNET_INPUT_MAX <? sz) in
      let! _ := need e sz in
      let! bs := read_bytes sz in
      let! rest := read_frames m e in
      r_ret (mkWireFrame tick sz (padded 32 bs) :: rest)
  end.

Fixpoint read_acks (n : nat) : reader (list Z) :=
  match n with
  | O => r_ret []
  | S m => let! a := read_u32 in let! rest := read_acks m in r_ret (a :: rest)
  end.

(** The acknowledgment extension after the frames. *)
Definition decode_input_acks (e : Z) (p : RNetDecodedPacket) : reader RNetDecodedPacket :=
  let! c := cursor in
  if c =? e then r_ret p else
  let! n := read_u8 in
  let! c := cursor in
  let! _ := r_reject ((n <? 3) || (RNET_MAX_SLOTS <? n) || negb (u64 (e - c) =? 4 * n)) in
  let! acks := read_acks (Z.to_nat n) in
  r_ret (set_p_acks (padded 8 acks) (set_p_ack_count n p)).

Definition decode_input (e : Z) (p : RNetDecodedPacket) : reader RNetDecodedPacket :=
  let! _ := need e 8 in
  let! ls := read_u8 in
  let! fc := read_u8 in
  let! e0 := read_u8 in
  let! e1 := read_u8 in
  let! at_ := read_u32 in
  let! _ := r_reject ((fc <? 1) || (RNET_MAX_BUNDLE <? fc)) in
  let! frames := read_frames (Z.to_nat fc) e in
  decode_input_acks e
    (set_p_frames frames (set_p_ack_tick at_
      (set_p_input_epoch (Z.lor e0 (Z.shiftl e1 8))
        (set_p_frame_count fc (set_p_local_slot ls p))))).

Definition decode_delay_sync (e : Z) (p : RNetDecodedPacket) : reader RNetDecodedPacket :=
  let! _ := need e 8 in
  let! nd := read_u8 in let! _ := skip 3 in let! et := read_u32 in
  r_ret (set_p_effective_tick et (set_p_new_delay nd p)).

Definition decode_input_confirm (e : Z) (p : RNetDecodedPacket) : reader RNetDecodedPacket :=
  let! _ := need e 12 in
  let! ls := read_u8 in
  let! e0 := read_u8 in
  let! e1 := read_u8 in
  let! _ := skip 1 in
  let! st := read_u32 in let! h := read_u32 in
  r_ret (set_p_confirm_hash h (set_p_confirm_sim_tick st
          (set_p_input_epoch (Z.lor e0 (Z.shiftl e1 8)) (set_p_local_slot ls p)))).

Definition decode_state_begin (e : Z) (p : RNetDecodedPacket) : reader RNetDecodedPacket :=
  let! _ := need e 16 in
  let! ls := read_u8 in let! op := read_u8 in let! sl := read_u8 in let! _ := skip 1 in
  let! id := read_u32 in let! total := read_u32 in let! crc := read_u32 in
  r_ret (set_p_state_payload_crc crc (set_p_state_total_size total (set_p_state_xfer_id id
          (set_p_state_slot sl (set_p_state_op op (set_p_local_slot ls p)))))).

Definition decode_state_chunk (e : Z) (p : RNetDecodedPacket) : reader RNetDecodedPacket :=
  let! _ := need e 16 in
  let! ls := read_u8 in let! _ := skip 3 in
  let! id := read_u32 in let! off := read_u32 in let! sz := read_u16 in let! _ := read_u16 in
  let! _ := r_reject ((sz =? 0) || (RNET_STATE_CHUNK_MAX <? sz)) in
  let! _ := need e sz in
  let! bs := read_bytes sz in
  r_ret (set_p_state_chunk bs (set_p_state_chunk_size sz (set_p_state_offset off
          (set_p_state_xfer_id id (set_p_local_slot ls p))))).

Definition decode_state_ack (e : Z) (p : RNetDecodedPacket) : reader RNetDecodedPacket :=
  let! _ := need e 12 in
  let! ls := read_u8 in let! _ := skip 3 in
  let! id := read_u32 in let! n := read_u32 in
  r_ret (set_p_state_ack_bytes n (set_p_state_xfer_id id (set_p_local_slot ls p))).

Definition decode_state_probe (e : Z) (p : RNetDecodedPacket) : reader RNetDecodedPacket :=
  let! _ := need e 12 in
  let! ls := read_u8 in let! op := read_u8 in let! sl := read_u8 in let! rep := read_u8 in
  let! total := read_u32 in let! crc := read_u32 in
  r_ret (set_p_state_payload_crc crc (set_p_state_total_size total
          (set_p_state_probe_replied rep
            (set_p_state_slot sl (set_p_state_op op (set_p_local_slot ls p)))))).

Definition decode_state_probe_reply (e : Z) (p : RNetDecodedPacket) : reader RNetDecodedPacket :=
  let! _ := need e 12 in
  let! ls := read_u8 in let! op := read_u8 in let! sl := read_u8 in let! m := read_u8 in
  let! total := read_u32 in let! crc := read_u32 in
  r_ret (set_p_state_payload_crc crc (set_p_state_total_size total
          (set_p_state_probe_match m
            (set_p_state_slot sl (set_p_state_op op (set_p_local_slot ls p)))))).

Definition decode_state_probe_done (e : Z) (p : RNetDecodedPacket) : reader RNetDecodedPacket :=
  let! _ := need e 12 in
  let! ls := read_u8 in let! op := read_u8 in let! sl := read_u8 in let! _ := skip 1 in
  let! total := read_u32 in let! crc := read_u32 in
  r_ret (set_p_state_payload_crc crc (set_p_state_total_size total
          (set_p_state_slot sl (set_p_state_op op (set_p_local_slot ls p))))).

Definition decode_sio_multi_xfer (e : Z) (p : RNetDecodedPacket) : reader RNetDecodedPacket :=
  let! _ := need e 10 in
  let! ls := read_u8 in let! unit := read_u8 in
  let! seq := read_u32 in let! snd := read_u16 in let! pad := read_u16 in
  r_ret (set_p_sio_vblank (u8 (Z.land (Z.shiftr pad 8) 255))
          (set_p_sio_confirm (u8 (Z.land pad 255))
            (set_p_sio_send snd (set_p_sio_xfer_seq seq
              (set_p_sio_unit_id unit (set_p_local_slot ls p)))))).

Definition decode_rb_sync (e : Z) (p : RNetDecodedPacket) : reader RNetDecodedPacket :=
  let! _ := need e 20 in
  let! ls := read_u8 in let! cs := read_u8 in let! ini := read_u8 in let! fl := read_u8 in
  let! ep := read_u32 in let! mm := read_u32 in let! ld := read_u32 in let! tg := read_u32 in
  r_ret (set_p_rb_target_tick tg (set_p_rb_load_tick ld (set_p_rb_mismatch_tick mm
          (set_p_rb_epoch_id ep (set_p_rb_flags fl (set_p_rb_initiator ini
            (set_p_rb_corrected_slot cs (set_p_local_slot ls p)))))))).

Fixpoint read_rb_rows (n : nat) : reader (list RNetRbWireFrame) :=
  match n with
  | O => r_ret []
  | S m => let! f := read_rb_frame in let! rest := read_rb_rows m in r_ret (f :: rest)
  end.

Definition decode_rb_seal_rows (e : Z) (p : RNetDecodedPacket) : reader RNetDecodedPacket :=
  let! _ := need e 20 in
  let! ls := read_u8 in let! sl := read_u8 in let! rc := read_u16 in
  let! ep := read_u32 in let! mm := read_u32 in let! tg := read_u32 in let! rb := read_u32 in
  let! _ := r_reject (RNET_RB_SEAL_ROWS_CHUNK_MAX <? rc) in
  let! _ := need e (rc * RNET_RB_SEAL_ROWS_WIRE_FRAME_BYTES) in
  let! rows := read_rb_rows (Z.to_nat rc) in
  r_ret (set_p_rb_rows rows (set_p_rb_row_begin rb (set_p_rb_target_tick tg
          (set_p_rb_mismatch_tick mm (set_p_rb_epoch_id ep (set_p_rb_row_count rc
            (set_p_rb_slot sl (set_p_local_slot ls p)))))))).

Definition decode_rb_baseline (e : Z) (p : RNetDecodedPacket) : reader RNetDecodedPacket :=
  let! _ := need e 26 in
  let! ls := read_u8 in let! _ := read_u8 in
  let! ep := read_u32 in let! ld := read_u32 in let! dm := read_u32 in
  let! da := read_u32 in let! db := read_u32 in let! dc := read_u32 in
  r_ret (set_p_rb_digest_c dc (set_p_rb_digest_b db (set_p_rb_digest_a da
          (set_p_rb_digest_master dm (set_p_rb_load_tick ld (set_p_rb_epoch_id ep
            (set_p_local_slot ls p))))))).

Definition decode_rb_post (e : Z) (p : RNetDecodedPacket) : reader RNetDecodedPacket :=
  let! _ := need e 18 in
  let! ls := read_u8 in let! m := read_u8 in
  let! ep := read_u32 in let! tg := read_u32 in let! dm := read_u32 in let! di := read_u32 in
  r_ret (set_p_rb_input_digest di (set_p_rb_digest_master dm (set_p_rb_target_tick tg
          (set_p_rb_epoch_id ep (set_p_rb_match m (set_p_local_slot ls p)))))).

Definition decode_rb_frame_commit (e : Z) (p : RNetDecodedPacket) : reader RNetDecodedPacket :=
  let! _ := need e 10 in
  let! ls := read_u8 in let! _ := read_u8 in
  let! t := read_u32 in let! h := read_u32 in
  r_ret (set_p_rb_state_hash h (set_p_rb_through_tick t (set_p_local_slot ls p))).

(** MODSET and MODSET_ACK; [type] selects the destination field. *)
Definition decode_modset (e : Z) (p : RNetDecodedPacket) : reader RNetDecodedPacket :=
  let! _ := need e 4 in
  let! ls := read_u8 in let! st := read_u8 in let! n := read_u16 in
  let is_text := p_type p =? RNET_PKT_MODSET in
  let dst_cap := if is_text then RNET_MODSET_TEXT_MAX else RNET_MODSET_REASON_MAX in
  let! _ := r_reject (dst_cap <=? n) in
  let! _ := need e n in
  let! bs := read_bytes n in
  r_ret (set_p_modset_len n
          ((if is_text then set_p_modset_text bs else set_p_modset_reason bs)
            (set_p_modset_status st (set_p_local_slot ls p)))).

Definition decode_rb_resolved (e : Z) (p : RNetDecodedPacket) : reader RNetDecodedPacket :=
  let! _ := need e 6 in
  let! ls := read_u8 in let! _ := read_u8 in
  let! t := read_u32 in
  r_ret (set_p_rb_resolved_through t (set_p_local_slot ls p)).

Definition decode_body (e : Z) (p : RNetDecodedPacket) : reader RNetDecodedPacket :=
  let ty := p_type p in
  if ty =? RNET_PKT_HELLO then decode_hello e p
  else if ty =? RNET_PKT_READY then decode_slot_only e p
  else if ty =? RNET_PKT_START then decode_start e p
  else if ty =? RNET_PKT_INPUT then decode_input e p
  else if ty =? RNET_PKT_DELAY_SYNC then decode_delay_sync e p
  else if ty =? RNET_PKT_INPUT_CONFIRM then decode_input_confirm e p
  else if ty =? RNET_PKT_BYE then decode_slot_only e p
  else if ty =? RNET_PKT_STATE_BEGIN then decode_state_begin e p
  else if ty =? RNET_PKT_STATE_CHUNK then decode_state_chunk e p
  else if ty =? RNET_PKT_STATE_ACK then decode_state_ack e p
  else if ty =? RNET_PKT_STATE_PROBE then decode_state_probe e p
  else if ty =? RNET_PKT_STATE_PROBE_REPLY then decode_state_probe_reply e p
  else if ty =? RNET_PKT_STATE_PROBE_DONE then decode_state_probe_done e p
  else if ty =? RNET_PKT_SIO_MULTI_XFER then decode_sio_multi_xfer e p
  else if ty =? RNET_PKT_RB_SYNC then decode_rb_sync e p
  else if ty =? RNET_PKT_RB_SEAL_ROWS then decode_rb_seal_rows e p
  else if ty =? RNET_PKT_RB_BASELINE then decode_rb_baseline e p
  else if ty =? RNET_PKT_RB_POST then decode_rb_post e p
  else if ty =? RNET_PKT_RB_FRAME_COMMIT then decode_rb_frame_commit e p
  else if (ty =? RNET_PKT_MODSET) || (ty =? RNET_PKT_MODSET_ACK) then decode_modset e p
  else if ty =? RNET_PKT_RB_RESOLVED then decode_rb_resolved e p
  else fun _ _ => Fail.

(** The generation trailer of rollback-control packets. *)
Definition decode_rb_epoch (e : Z) (p : RNetDecodedPacket) : reader RNetDecodedPacket :=
  if rnet_proto_is_rb_control (p_type p) then
    let! c := cursor in
    if e - c =? 2 then let! ep := read_u16 in r_ret (set_p_input_epoch ep p)
    else if negb (e =? c) then fun _ _ => Fail
    else r_ret p
  else r_ret p.

Definition rnet_proto_decode (data : list Z) (expect_magic : Z) : cres RNetDecodedPacket :=
  let len := zlen data in
  if len <? 10 then Fail else
  let* (magic, c) := read_u32 data 0 in
  if negb (magic =? expect_magic) then Fail else
  let* (type, c) := read_u16 data c in
  let* (session_id, c) := read_u32 data c in
  let p := set_p_session_id session_id (set_p_type type zero_packet) in
  if len <? 4 then Fail else
  let tail := len - 4 in
  let* (expect, _) := read_u32 data tail in
  let csum := rnet_proto_checksum (take (Z.to_nat tail) data) in
  if negb (csum =? expect) then Fail else
  let e := tail in
  let* (p, c) := decode_body e p data c in
  let* (p, _) := decode_rb_epoch e p data c in
  Ret p.
