(* ===== verification/ProtocolProofs.v ===== *)
(** * Wire protocol: theorems

    Integrity of the checksum, memory safety and bounds of the decoder, and
    the round trip of every message kind. *)

From stdpp Require Import base list numbers list_numbers.
From S2P Require Import Prelude Protocol.

(** ** The checksum *)

Definition FNV_INV : Z := 899433627.

Lemma u32_mul_l x y : u32 (u32 x * y) = u32 (x * y).
Proof. unfold u32. by rewrite Z.mul_mod_idemp_l. Qed.

Lemma fnv_mul_cancel x : in_u32 x -> u32 (u32 (x * 16777619) * FNV_INV) = x.
Proof.
  intros Hx. rewrite u32_mul_l, <- Z.mul_assoc.
  replace (16777619 * FNV_INV) with (1 + 3513497 * 4294967296) by reflexivity.
  unfold u32. rewrite Z.mul_add_distr_l, Z.mul_assoc, Z.mod_add, Z.mul_1_r by lia.
  by apply Z.mod_small.
Qed.

Lemma lxor_u32 x b : in_u32 x -> in_u8 b -> in_u32 (Z.lxor x b).
Proof.
  intros Hx Hb. ranges. assert (0 <= Z.lxor x b) by (apply Z.lxor_nonneg; lia).
  split; [done|].
  destruct (Z.eq_dec (Z.lxor x b) 0) as [->|]; [lia|].
  change 4294967296 with (2 ^ 32). apply Z.log2_lt_pow2; [lia|].
  eapply Z.le_lt_trans; [apply Z.log2_lxor; lia|].
  apply Z.max_lub_lt.
  - destruct (Z.eq_dec x 0) as [->|]; [done|]. apply Z.log2_lt_pow2; lia.
  - destruct (Z.eq_dec b 0) as [->|]; [done|]. apply Z.log2_lt_pow2; lia.
Qed.

Lemma lxor_cancel_r x y b : Z.lxor x b = Z.lxor y b -> x = y.
Proof.
  intros H. apply (f_equal (fun z => Z.lxor z b)) in H.
  by rewrite !Z.lxor_assoc, Z.lxor_nilpotent, !Z.lxor_0_r in H.
Qed.

Lemma fnv_step_range s b : in_u32 (fnv_step s b).
Proof. unfold fnv_step. auto with rnet. Qed.

Lemma fnv_step_xor_inj s1 b1 s2 b2 : in_u32 s1 -> in_u8 b1 -> in_u32 s2 -> in_u8 b2 ->
  fnv_step s1 b1 = fnv_step s2 b2 -> Z.lxor s1 b1 = Z.lxor s2 b2.
Proof.
  unfold fnv_step. intros ???? H.
  apply (f_equal (fun z => u32 (z * FNV_INV))) in H.
  by rewrite !fnv_mul_cancel in H by (by apply lxor_u32).
Qed.

Lemma fnv_fold_range l s : in_u32 s -> in_u32 (fold_left fnv_step l s).
Proof. revert s. induction l; simpl; auto using fnv_step_range. Qed.

Lemma fnv_fold_inj l s1 s2 : Forall in_u8 l -> in_u32 s1 -> in_u32 s2 ->
  fold_left fnv_step l s1 = fold_left fnv_step l s2 -> s1 = s2.
Proof.
  intros Hl. revert s1 s2. induction Hl as [|b l Hb Hl IH]; simpl; [done|].
  intros s1 s2 H1 H2 H. apply IH in H; auto using fnv_step_range.
  apply fnv_step_xor_inj in H; auto. by apply lxor_cancel_r in H.
Qed.

Lemma rnet_proto_checksum_range l : in_u32 (rnet_proto_checksum l).
Proof. apply fnv_fold_range. ranges; lia. Qed.

(** Changing one byte changes the checksum: every later step is injective. *)
Lemma checksum_one_byte pre a b post :
  Forall in_u8 (pre ++ a :: post) -> in_u8 b -> a <> b ->
  rnet_proto_checksum (pre ++ a :: post) <> rnet_proto_checksum (pre ++ b :: post).
Proof.
  unfold rnet_proto_checksum. intros Hall Hb Hne.
  apply Forall_app in Hall as [Hpre [Ha Hpost]%Forall_cons].
  rewrite !fold_left_app. simpl.
  set (s := fold_left fnv_step pre 2166136261).
  assert (in_u32 s) as Hs by (apply fnv_fold_range; ranges; lia).
  intros H. apply fnv_fold_inj in H; auto using fnv_step_range.
  apply fnv_step_xor_inj in H; auto.
  rewrite (Z.lxor_comm s a), (Z.lxor_comm s b) in H. by apply lxor_cancel_r in H.
Qed.

(** ** Writers *)

Lemma write_u16_le v : write_u16 v = put (le_bytes 2 v).
Proof. done. Qed.
Lemma write_u32_le v : write_u32 v = put (le_bytes 4 v).
Proof.
  unfold write_u32, le_bytes. rewrite !Z.shiftr_shiftr by lia. done.
Qed.

Lemma zlen_le_bytes n v : zlen (le_bytes n v) = Z.of_nat n.
Proof. unfold zlen. by rewrite length_le_bytes. Qed.

Lemma seq_put a w cap out : zlen out + zlen a <= cap -> (put a >>> w) cap out = w cap (out ++ a).
Proof. intros H. unfold w_seq, put. apply Z.leb_le in H. by rewrite H. Qed.

Lemma seq_put_from src n w cap out : n <= zlen src -> 0 <= n -> zlen out + n <= cap ->
  (put_from src n >>> w) cap out = w cap (out ++ take (Z.to_nat n) src).
Proof.
  intros Hs Hn Hc. unfold w_seq, put_from. destruct (Z.ltb_spec (zlen src) n); [lia|].
  unfold put. assert (zlen (take (Z.to_nat n) src) = n) as ->.
  { unfold zlen in *. rewrite length_take. lia. }
  by apply Z.leb_le in Hc as ->.
Qed.

Lemma seq_reject c w cap out : c cap out = false -> (w_reject c >>> w) cap out = w cap out.
Proof. intros H. unfold w_seq, w_reject. by rewrite H. Qed.

Lemma seq_assoc a b c cap out : ((a >>> b) >>> c) cap out = (a >>> b >>> c) cap out.
Proof. unfold w_seq. by destruct (a cap out). Qed.

Definition trailer (body : list Z) : list Z := le_bytes 4 (rnet_proto_checksum body).

Lemma finish_ok cap out : zlen out + 4 <= cap -> finish_packet cap out = Ret (out ++ trailer out).
Proof.
  intros H. unfold finish_packet.
  destruct (Z.ltb_spec cap (zlen out + 4)); [lia|].
  rewrite write_u32_le. unfold put. rewrite zlen_le_bytes.
  destruct (Z.leb_spec (zlen out + Z.of_nat 4) cap); [done|lia].
Qed.

(** ** Readers *)

(** The datagram [d] continues with [bs] at cursor [c]. *)
Definition At (d : list Z) (c : Z) (bs : list Z) : Prop :=
  0 <= c <= zlen d /\ drop (Z.to_nat c) d = bs.

Lemma At_len d c bs : At d c bs -> zlen d = c + zlen bs.
Proof. intros [Hc Hd]. unfold zlen in *. rewrite <- Hd, length_drop. lia. Qed.

Lemma At_advance d c a bs : At d c (a ++ bs) -> At d (c + zlen a) bs.
Proof.
  intros H. pose proof (At_len _ _ _ H) as L. rewrite zlen_app in L. destruct H as [Hc Hd].
  pose proof (zlen_nonneg a). pose proof (zlen_nonneg bs).
  split; [lia|].
  rewrite Z2Nat.inj_add by lia. unfold zlen at 1. rewrite Nat2Z.id, <- drop_drop, Hd.
  by rewrite drop_app_length.
Qed.

Lemma At_u8 d c b r : At d c (b :: r) -> read_u8 d c = Ret (b, c + 1).
Proof.
  intros [Hc Hd]. unfold read_u8.
  assert (d !! Z.to_nat c = Some b) as ->; [|done].
  replace (Z.to_nat c) with (Z.to_nat c + 0)%nat by lia.
  by rewrite <- lookup_drop, Hd.
Qed.

Lemma At_u8_next d c b r : At d c (b :: r) -> At d (c + 1) r.
Proof. apply (At_advance d c [b] r). Qed.

Lemma u16_bytes b0 b1 : Z.lor b0 (Z.shiftl b1 8) = le_val [b0; b1].
Proof. simpl. by rewrite Z.shiftl_0_l, Z.lor_0_r. Qed.

Lemma u32_bytes b0 b1 b2 b3 :
  Z.lor (Z.lor (Z.lor b0 (Z.shiftl b1 8)) (Z.shiftl b2 16)) (Z.shiftl b3 24)
  = le_val [b0; b1; b2; b3].
Proof.
  simpl. rewrite Z.shiftl_0_l, Z.lor_0_r, !Z.shiftl_lor, !Z.shiftl_shiftl, !Z.lor_assoc by lia.
  done.
Qed.

Lemma read_u16_bytes d c b0 b1 r : At d c (b0 :: b1 :: r) ->
  read_u16 d c = Ret (le_val [b0; b1], c + 2).
Proof.
  intros H. unfold read_u16, r_bind. rewrite (At_u8 _ _ _ _ H). apply At_u8_next in H.
  cbn [cbind]. rewrite (At_u8 _ _ _ _ H). cbn [cbind]. unfold r_ret.
  rewrite u16_bytes. do 2 f_equal. lia.
Qed.

Lemma read_u32_bytes d c b0 b1 b2 b3 r : At d c (b0 :: b1 :: b2 :: b3 :: r) ->
  read_u32 d c = Ret (le_val [b0; b1; b2; b3], c + 4).
Proof.
  intros H. unfold read_u32, r_bind. rewrite (At_u8 _ _ _ _ H). apply At_u8_next in H.
  cbn [cbind]. rewrite (At_u8 _ _ _ _ H). apply At_u8_next in H.
  cbn [cbind]. rewrite (At_u8 _ _ _ _ H). apply At_u8_next in H.
  cbn [cbind]. rewrite (At_u8 _ _ _ _ H). cbn [cbind]. unfold r_ret.
  rewrite u32_bytes. do 2 f_equal. lia.
Qed.

Lemma At_u16 d c v r : in_u16 v -> At d c (le_bytes 2 v ++ r) -> read_u16 d c = Ret (v, c + 2).
Proof.
  intros Hv H. rewrite (read_u16_bytes d c _ _ r H).
  change [Z.land v 255; Z.land (Z.shiftr v 8) 255] with (le_bytes 2 v).
  rewrite le_val_bytes by (ranges; lia). by rewrite Z.mod_small.
Qed.

Lemma At_u32 d c v r : in_u32 v -> At d c (le_bytes 4 v ++ r) -> read_u32 d c = Ret (v, c + 4).
Proof.
  intros Hv H. rewrite (read_u32_bytes d c _ _ _ _ r H).
  match goal with |- context [le_val ?l] => change l with (le_bytes 4 v) end.
  rewrite le_val_bytes by (ranges; lia). by rewrite Z.mod_small.
Qed.

Lemma At_bytes d c bs r : At d c (bs ++ r) -> read_bytes (zlen bs) d c = Ret (bs, c + zlen bs).
Proof.
  intros H. pose proof (At_len _ _ _ H) as L. rewrite zlen_app in L.
  pose proof (zlen_nonneg r). destruct H as [Hc Hd]. unfold read_bytes. rewrite Hd.
  destruct (Z.leb_spec (c + zlen bs) (zlen d)); [|lia].
  unfold zlen at 1. by rewrite Nat2Z.id, take_app_length.
Qed.

(** ** A Hoare logic for readers

    [rspec m d c Q]: reading from [c] stays inside the datagram, and a
    result satisfies [Q]. *)

Definition rspec {A} (m : reader A) (d : list Z) (c : Z) (Q : A -> Z -> Prop) : Prop :=
  match m d c with Ret (a, c') => Q a c' | Fail => True | Oob => False end.

Lemma rspec_ret {A} (a : A) d c (Q : A -> Z -> Prop) : Q a c -> rspec (r_ret a) d c Q.
Proof. done. Qed.

Lemma rspec_bind {A B} (m : reader A) (k : A -> reader B) d c Q :
  rspec m d c (fun a c' => rspec (k a) d c' Q) -> rspec (r_bind m k) d c Q.
Proof. unfold rspec, r_bind. destruct (m d c) as [[a c']| |]; simpl; auto. Qed.

Lemma rspec_mono {A} (m : reader A) d c (P Q : A -> Z -> Prop) :
  rspec m d c P -> (forall a c', P a c' -> Q a c') -> rspec m d c Q.
Proof. unfold rspec. destruct (m d c) as [[a c']| |]; auto. Qed.

Lemma rspec_fail {A} d c (Q : A -> Z -> Prop) : rspec (fun _ _ => Fail) d c Q.
Proof. done. Qed.

Section Readers.
Context (d : list Z) (Hd : Forall in_u8 d).

Lemma rspec_u8 c (Q : Z -> Z -> Prop) : 0 <= c < zlen d ->
  (forall b, in_u8 b -> Q b (c + 1)) -> rspec read_u8 d c Q.
Proof.
  intros Hc HQ. unfold rspec, read_u8.
  destruct (d !! Z.to_nat c) as [b|] eqn:E.
  - apply HQ. rewrite Forall_lookup in Hd. eauto.
  - apply lookup_ge_None in E. unfold zlen in Hc. lia.
Qed.

Lemma rspec_skip n c (Q : unit -> Z -> Prop) : Q tt (c + n) -> rspec (skip n) d c Q.
Proof. done. Qed.
Lemma rspec_cursor c (Q : Z -> Z -> Prop) : Q c c -> rspec cursor d c Q.
Proof. done. Qed.
Lemma rspec_reject b c (Q : unit -> Z -> Prop) : (b = false -> Q tt c) -> rspec (r_reject b) d c Q.
Proof. unfold rspec, r_reject. destruct b; auto. Qed.

(** Below the trailer the unsigned difference is the real one. *)
Lemma rspec_need e n c (Q : unit -> Z -> Prop) : 0 <= e - c < 18446744073709551616 ->
  (n <= e - c -> Q tt c) -> rspec (need e n) d c Q.
Proof.
  intros Hr HQ. unfold rspec, need. rewrite u64_id by done.
  destruct (Z.ltb_spec (e - c) n); auto.
Qed.

Lemma rspec_bytes n c (Q : list Z -> Z -> Prop) : 0 <= n -> 0 <= c -> c + n <= zlen d ->
  (forall bs, zlen bs = n -> Forall in_u8 bs -> Q bs (c + n)) -> rspec (read_bytes n) d c Q.
Proof.
  intros Hn Hc Hle HQ. unfold rspec, read_bytes. apply Z.leb_le in Hle. rewrite Hle.
  apply Z.leb_le in Hle. apply HQ; [|by apply Forall_take, Forall_drop].
  unfold zlen in *. rewrite length_take, length_drop. lia.
Qed.

Lemma rspec_u16 c (Q : Z -> Z -> Prop) : 0 <= c -> c + 2 <= zlen d ->
  (forall v, in_u16 v -> Q v (c + 2)) -> rspec read_u16 d c Q.
Proof.
  intros Hc Hl HQ. unfold read_u16.
  apply rspec_bind, rspec_u8; [lia|]. intros b0 H0.
  apply rspec_bind, rspec_u8; [lia|]. intros b1 H1.
  apply rspec_ret. rewrite <- Z.add_assoc. apply HQ.
  rewrite lor_byte by (ranges; lia). ranges; lia.
Qed.

Lemma rspec_u32 c (Q : Z -> Z -> Prop) : 0 <= c -> c + 4 <= zlen d ->
  (forall v, in_u32 v -> Q v (c + 4)) -> rspec read_u32 d c Q.
Proof.
  intros Hc Hl HQ. unfold read_u32.
  apply rspec_bind, rspec_u8; [lia|]. intros b0 H0.
  apply rspec_bind, rspec_u8; [lia|]. intros b1 H1.
  apply rspec_bind, rspec_u8; [lia|]. intros b2 H2.
  apply rspec_bind, rspec_u8; [lia|]. intros b3 H3.
  apply rspec_ret. rewrite u32_bytes. replace (c + 1 + 1 + 1 + 1) with (c + 4) by lia.
  apply HQ. cbn [le_val]. rewrite Z.shiftl_0_l, Z.lor_0_r, !lor_byte; ranges; try lia.
  - rewrite lor_byte; ranges; lia.
  - rewrite !lor_byte; ranges; try lia. rewrite lor_byte; ranges; lia.
Qed.
End Readers.

(** Symbolic execution of a reader. *)
Ltac rstep :=
  lazymatch goal with
  | |- rspec (r_bind _ _) _ _ _ => apply rspec_bind
  | |- rspec (r_ret _) _ _ _ => apply rspec_ret
  | |- rspec read_u8 _ _ _ => apply rspec_u8; [assumption|lia|intros]
  | |- rspec read_u16 _ _ _ => apply rspec_u16; [assumption|lia|lia|intros]
  | |- rspec read_u32 _ _ _ => apply rspec_u32; [assumption|lia|lia|intros]
  | |- rspec (read_bytes _) _ _ _ => apply rspec_bytes; [assumption|ranges; lia|lia|lia|intros]
  | |- rspec (skip _) _ _ _ => apply rspec_skip
  | |- rspec cursor _ _ _ => apply rspec_cursor
  | |- rspec (r_reject _) _ _ _ => apply rspec_reject; intros; bool_prop
  | |- rspec (need _ _) _ _ _ => apply rspec_need; [ranges; lia|intros]
  end.
Ltac rexec := repeat rstep.

(** ** What the decoder guarantees about its output *)

Definition frame_wf (f : RNetWireFrame) : Prop :=
  in_u32 (wf_tick f) /\ 0 <= wf_size f <= RNET_INPUT_MAX /\
  length (wf_bytes f) = 32%nat /\ Forall in_u8 (wf_bytes f).

(** Sizes and counts are within the arrays of [RNetDecodedPacket]. *)
Definition packet_wf (p : RNetDecodedPacket) : Prop :=
  in_u8 (p_local_slot p) /\
  (p_frame_count p = zlen (p_frames p) /\ p_frame_count p <= RNET_MAX_BUNDLE /\
   Forall frame_wf (p_frames p)) /\
  ((p_ack_count p = 0 \/ 3 <= p_ack_count p <= RNET_MAX_SLOTS) /\ length (p_acks p) = 8%nat) /\
  (p_state_chunk_size p = zlen (p_state_chunk p) /\ p_state_chunk_size p <= RNET_STATE_CHUNK_MAX) /\
  (p_rb_row_count p = zlen (p_rb_rows p) /\ p_rb_row_count p <= RNET_RB_SEAL_ROWS_CHUNK_MAX) /\
  (zlen (p_modset_text p) < RNET_MODSET_TEXT_MAX /\
   zlen (p_modset_reason p) < RNET_MODSET_REASON_MAX).

Definition start_packet (ty sid : Z) : RNetDecodedPacket :=
  set_p_session_id sid (set_p_type ty zero_packet).

Ltac consts :=
  unfold RNET_INPUT_MAX, RNET_MAX_BUNDLE, RNET_MAX_SLOTS, RNET_STATE_CHUNK_MAX,
    RNET_RB_SEAL_ROWS_CHUNK_MAX, RNET_RB_SEAL_ROWS_WIRE_FRAME_BYTES,
    RNET_MODSET_TEXT_MAX, RNET_MODSET_REASON_MAX, RNET_MAX_PACKET in *.

Lemma Forall_padded n bs : Forall in_u8 bs -> Forall in_u8 (padded n bs).
Proof.
  intros H. apply Forall_take, Forall_app. split; [done|].
  apply Forall_replicate. ranges; lia.
Qed.

Section Decode.
Context (d : list Z) (Hd : Forall in_u8 d) (e : Z).
Context (He : e = zlen d - 4) (Hmax : zlen d < 18446744073709551616).

Lemma read_frames_spec n c : 0 <= c <= e ->
  rspec (read_frames n e) d c
    (fun fs c' => zlen fs = Z.of_nat n /\ Forall frame_wf fs /\ 0 <= c' <= e).
Proof.
  revert c. induction n as [|n IH]; intros c Hc; simpl; rexec; consts.
  - auto with lia.
  - eapply rspec_mono; [apply IH; ranges; lia|].
    simpl. intros fs c' (Hl & Hf & Hc'). apply rspec_ret. split_and!; try lia.
    + rewrite zlen_cons. lia.
    + constructor; [|done]. repeat split; simpl; ranges; consts; try lia.
      * apply length_padded.
      * by apply Forall_padded.
Qed.

Lemma read_acks_spec n c : 0 <= c -> c + 4 * Z.of_nat n <= e ->
  rspec (read_acks n) d c (fun l c' => zlen l = Z.of_nat n /\ c' = c + 4 * Z.of_nat n).
Proof.
  revert c. induction n as [|n IH]; intros c Hc Hl; simpl; rexec.
  - split; [done|lia].
  - eapply rspec_mono; [apply IH; lia|]. simpl. intros fs c' [? ->]. apply rspec_ret.
    rewrite zlen_cons. lia.
Qed.

Lemma read_rb_rows_spec n c : 0 <= c -> c + 9 * Z.of_nat n <= e ->
  rspec (read_rb_rows n) d c (fun l c' => zlen l = Z.of_nat n /\ c' = c + 9 * Z.of_nat n).
Proof.
  revert c. induction n as [|n IH]; intros c Hc Hl; simpl; unfold read_rb_frame; rexec.
  - split; [done|lia].
  - eapply rspec_mono; [apply IH; lia|]. simpl. intros fs c' [? ->]. apply rspec_ret.
    rewrite zlen_cons. lia.
Qed.

(** The result of every case of the switch. *)
Definition body_post (ty : Z) (p : RNetDecodedPacket) (c : Z) : Prop :=
  packet_wf p /\ p_type p = ty /\ 0 <= c <= e.

Ltac body_case :=
  rexec; unfold body_post, packet_wf; consts; simpl; ranges;
  split_and!; try done; try lia; auto.

Lemma decode_input_spec sid c : 0 <= c <= e ->
  rspec (decode_input e (start_packet RNET_PKT_INPUT sid)) d c (body_post RNET_PKT_INPUT).
Proof.
  intros Hc. unfold decode_input. rexec. consts. eapply rspec_mono.
  { apply read_frames_spec; ranges; lia. }
  simpl. intros fs c' (Hl & Hf & Hc'). unfold decode_input_acks. rstep. rstep.
  destruct (Z.eqb_spec c' e) as [->|Hne].
  { body_case. }
  rexec. consts.
  match goal with H : u64 (e - ?c) = 4 * ?n |- _ => rewrite u64_id in H by (ranges; lia) end.
  eapply rspec_mono.
  { apply read_acks_spec; lia. }
  simpl. intros acks c2 [Ha ->]. rstep. body_case; try lia.
  apply length_padded.
Qed.

Lemma decode_modset_spec ty sid c : ty = RNET_PKT_MODSET \/ ty = RNET_PKT_MODSET_ACK ->
  0 <= c <= e -> rspec (decode_modset e (start_packet ty sid)) d c (body_post ty).
Proof. intros [-> | ->] Hc; unfold decode_modset; simpl; body_case. Qed.

Lemma decode_rb_seal_rows_spec sid c : 0 <= c <= e ->
  rspec (decode_rb_seal_rows e (start_packet RNET_PKT_RB_SEAL_ROWS sid)) d c
    (body_post RNET_PKT_RB_SEAL_ROWS).
Proof.
  intros Hc. unfold decode_rb_seal_rows. rexec. consts. eapply rspec_mono.
  { apply read_rb_rows_spec; ranges; lia. }
  simpl. intros rows c' [Hl ->]. body_case.
Qed.

Lemma decode_body_spec ty sid c : 0 <= c <= e ->
  rspec (decode_body e (start_packet ty sid)) d c (body_post ty).
Proof.
  intros Hc. unfold decode_body. change (p_type (start_packet ty sid)) with ty.
  repeat match goal with
  | |- rspec (if ?a =? ?b then _ else _) _ _ _ => destruct (Z.eqb_spec a b) as [->|_]
  | |- rspec (if orb ?a ?b then _ else _) _ _ _ => destruct (orb a b) eqn:?
  | |- rspec (fun _ _ => Fail) _ _ _ => apply rspec_fail
  | |- rspec (decode_input _ _) _ _ _ => by apply decode_input_spec
  | |- rspec (decode_rb_seal_rows _ _) _ _ _ => by apply decode_rb_seal_rows_spec
  | H : orb _ _ = true |- rspec (decode_modset _ _) _ _ _ =>
      apply decode_modset_spec; [apply orb_prop in H; destruct H; bool_prop; auto|done]
  | |- rspec (?f e (start_packet _ _)) _ _ _ => unfold f; body_case
  end.
Qed.
End Decode.

Lemma decode_rb_epoch_spec d e p c : Forall in_u8 d -> e = zlen d - 4 -> 0 <= c <= e ->
  packet_wf p -> rspec (decode_rb_epoch e p) d c (fun p' _ => packet_wf p').
Proof.
  intros Hd He Hc Hp. unfold decode_rb_epoch.
  destruct (rnet_proto_is_rb_control (p_type p)); [|by apply rspec_ret].
  rstep. rstep. destruct (Z.eqb_spec (e - c) 2); [rexec; exact Hp|].
  destruct (negb (e =? c)); [apply rspec_fail|by apply rspec_ret].
Qed.

Lemma At_drop d c : 0 <= c <= zlen d -> At d c (drop (Z.to_nat c) d).
Proof. done. Qed.

Lemma read_u16_total d c : 0 <= c -> c + 2 <= zlen d -> exists v, read_u16 d c = Ret (v, c + 2).
Proof.
  intros Hc Hl. assert (At d c (drop (Z.to_nat c) d)) as H by (apply At_drop; lia).
  pose proof (At_len _ _ _ H) as L. unfold zlen in L, Hl.
  destruct (drop (Z.to_nat c) d) as [|b0 [|b1 r]]; simpl in L; [lia..|].
  eexists. by eapply read_u16_bytes.
Qed.

Lemma read_u32_total d c : 0 <= c -> c + 4 <= zlen d -> exists v, read_u32 d c = Ret (v, c + 4).
Proof.
  intros Hc Hl. assert (At d c (drop (Z.to_nat c) d)) as H by (apply At_drop; lia).
  pose proof (At_len _ _ _ H) as L. unfold zlen in L, Hl.
  destruct (drop (Z.to_nat c) d) as [|b0 [|b1 [|b2 [|b3 r]]]]; simpl in L; [lia..|].
  eexists. by eapply read_u32_bytes.
Qed.

(** Reading the fixed header. *)
Lemma decode_unfold data magic : 10 <= zlen data -> Forall in_u8 data ->
  exists m ty sid ex,
    read_u32 data 0 = Ret (m, 4) /\ read_u16 data 4 = Ret (ty, 6) /\
    read_u32 data 6 = Ret (sid, 10) /\
    read_u32 data (zlen data - 4) = Ret (ex, zlen data) /\
    rnet_proto_decode data magic =
      if negb (m =? magic) then Fail else
      if negb (rnet_proto_checksum (take (Z.to_nat (zlen data - 4)) data) =? ex) then Fail else
      let* (p, c) := decode_body (zlen data - 4) (start_packet ty sid) data 10 in
      let* (p, _) := decode_rb_epoch (zlen data - 4) p data c in Ret p.
Proof.
  intros Hlen Hd.
  pose proof (read_u32_total data) as H32.
  destruct (read_u16_total data 4) as [ty Hty]; [lia..|].
  destruct (H32 0) as [m Hm]; [lia..|]. destruct (H32 6) as [sid Hsid]; [lia..|].
  destruct (H32 (zlen data - 4)) as [ex Hex]; [lia..|].
  change (0 + 4) with 4 in Hm. change (4 + 2) with 6 in Hty. change (6 + 4) with 10 in Hsid.
  exists m, ty, sid, ex. replace (zlen data - 4 + 4) with (zlen data) in Hex by lia.
  split_and!; try done.
  unfold rnet_proto_decode. destruct (Z.ltb_spec (zlen data) 10); [lia|].
  rewrite Hm. cbn [cbind]. destruct (m =? magic); [|done]. cbn [negb].
  rewrite Hty. cbn [cbind]. rewrite Hsid. cbn [cbind].
  destruct (Z.ltb_spec (zlen data) 4); [lia|]. rewrite Hex. done.
Qed.

(** C: memory safety and bounds of the decoder. *)
Lemma decode_spec data magic : 14 <= zlen data < 18446744073709551616 -> Forall in_u8 data ->
  match rnet_proto_decode data magic with
  | Ret p => packet_wf p | Fail => True | Oob => False end.
Proof.
  intros Hlen Hd. destruct (decode_unfold data magic) as (m & ty & sid & ex & _ & _ & _ & _ & ->);
    [lia|done|].
  destruct (negb (m =? magic)); [exact I|]. destruct (negb _); [exact I|].
  pose proof (decode_body_spec data Hd _ eq_refl ltac:(lia) ty sid 10 ltac:(lia)) as Hb.
  unfold rspec in Hb. destruct (decode_body _ _ _ _) as [[p c]| |]; [|done|done]. cbn [cbind].
  destruct Hb as (Hwf & _ & Hc).
  pose proof (decode_rb_epoch_spec data _ p c Hd eq_refl Hc Hwf) as He.
  unfold rspec in He. by destruct (decode_rb_epoch _ _ _ _) as [[p' c']| |].
Qed.

(** ** Integrity *)

Lemma le_val_inj a b : Forall in_u8 a -> Forall in_u8 b -> length a = length b ->
  le_val a = le_val b -> a = b.
Proof.
  intros Ha. revert b. induction Ha as [|x a Hx Ha IH]; intros b Hb; destruct b as [|y b]; try done.
  apply Forall_cons in Hb as [Hy Hb]. simpl. intros [= Hl].
  rewrite !lor_byte by auto using le_val_nonneg. intros H. ranges.
  assert (x = y) as -> by lia. f_equal. apply IH; auto. lia.
Qed.

(** A datagram is its checked part and the four bytes of the trailer. *)
Lemma datagram_split (d : list Z) : 10 <= zlen d ->
  exists body t, d = body ++ t /\ length t = 4%nat /\ zlen d - 4 = zlen body.
Proof.
  intros H. exists (take (Z.to_nat (zlen d - 4)) d), (drop (Z.to_nat (zlen d - 4)) d).
  split_and!; [by rewrite take_drop|rewrite length_drop|]; unfold zlen in *;
    rewrite ?length_take; lia.
Qed.

(** Acceptance needs the trailer to be the checksum of the rest. *)
Lemma decode_needs_checksum body t magic :
  length t = 4%nat -> 10 <= zlen (body ++ t) -> Forall in_u8 (body ++ t) ->
  rnet_proto_checksum body <> le_val t -> rnet_proto_decode (body ++ t) magic = Fail.
Proof.
  intros Ht Hlen Hd Hne.
  destruct (decode_unfold (body ++ t) magic Hlen Hd) as (m & ty & sid & ex & _ & _ & _ & Hex & ->).
  assert (zlen (body ++ t) - 4 = zlen body) as Hz by (rewrite zlen_app; unfold zlen; lia).
  rewrite Hz in *. destruct (negb (m =? magic)); [done|].
  unfold zlen at 1. rewrite Nat2Z.id, take_app_length.
  destruct t as [|b0 [|b1 [|b2 [|b3 [|]]]]]; try done.
  erewrite read_u32_bytes in Hex; [injection Hex as <-|split; [rewrite zlen_app; unfold zlen; lia|]].
  2: { unfold zlen. by rewrite Nat2Z.id, drop_app_length. }
  apply Z.eqb_neq in Hne. cbn [le_val] in Hne. by rewrite Hne.
Qed.

Lemma decode_accepts_checksum body t magic p :
  length t = 4%nat -> Forall in_u8 (body ++ t) ->
  rnet_proto_decode (body ++ t) magic = Ret p -> rnet_proto_checksum body = le_val t.
Proof.
  intros Ht Hd H. destruct (Z.eq_dec (rnet_proto_checksum body) (le_val t)) as [|Hne]; [done|].
  destruct (Z.ltb_spec (zlen (body ++ t)) 10) as [Hs|Hs].
  - unfold rnet_proto_decode in H. apply Z.ltb_lt in Hs. by rewrite Hs in H.
  - by rewrite (decode_needs_checksum body t) in H.
Qed.

Lemma decode_min_length d magic p : rnet_proto_decode d magic = Ret p -> 10 <= zlen d.
Proof.
  intros H. destruct (Z.ltb_spec (zlen d) 10) as [Hs|]; [|done].
  unfold rnet_proto_decode in H. apply Z.ltb_lt in Hs. by rewrite Hs in H.
Qed.

(** A corrupted byte lies in the checked part or in the trailer. *)
Lemma split_at_middle {A} (body t pre post : list A) a : body ++ t = pre ++ a :: post ->
  (exists mid, body = pre ++ a :: mid /\ post = mid ++ t) \/
  (exists mid, pre = body ++ mid /\ t = mid ++ a :: post).
Proof.
  intros H. apply app_eq_app in H as [k [[-> Hk]|[-> Hk]]].
  - destruct k as [|x k]; simpl in Hk.
    + right. exists []. rewrite !app_nil_r. auto.
    + injection Hk as -> ->. left. eauto.
  - right. eauto.
Qed.

(** C29. Integrity: when the decoder accepts a datagram, it rejects every
    datagram that differs from it in exactly one byte, wherever that byte is
    (header, body or trailer). *)
Theorem decode_rejects_one_byte_corruption pre a post b magic p :
  Forall in_u8 (pre ++ a :: post) -> in_u8 b -> a <> b ->
  rnet_proto_decode (pre ++ a :: post) magic = Ret p ->
  rnet_proto_decode (pre ++ b :: post) magic = Fail.
Proof.
  intros Hd Hb Hne H. pose proof (decode_min_length _ _ _ H) as Hlen.
  assert (10 <= zlen (pre ++ b :: post)) as Hlen'
    by (by rewrite !zlen_app, !zlen_cons in *).
  assert (Forall in_u8 (pre ++ b :: post)) as Hd'
    by (apply Forall_app in Hd as [? [? ?]%Forall_cons]; apply Forall_app; auto).
  destruct (datagram_split _ Hlen) as (body & t & Heq & Ht & _).
  pose proof Heq as Hsplit. symmetry in Hsplit. apply split_at_middle in Hsplit.
  rewrite Heq in H, Hd. apply (decode_accepts_checksum _ _ _ _ Ht) in H; [|done].
  apply Forall_app in Hd as [Hbody Htb].
  destruct Hsplit as [(mid & -> & ->)|(mid & -> & ->)].
  - change (b :: mid ++ t) with ((b :: mid) ++ t) in *. rewrite app_assoc in Hlen', Hd' |- *.
    apply decode_needs_checksum; [done..|]. rewrite <- H. intros ?. by eapply (checksum_one_byte pre a b mid).
  - rewrite <- app_assoc in Hlen', Hd' |- *. apply decode_needs_checksum; [|done..|].
    + rewrite length_app in *. done.
    + rewrite H. intros Hv. apply Forall_app in Hd' as [_ Ht'].
      apply le_val_inj in Hv; auto.
      * apply app_inv_head in Hv. congruence.
      * by rewrite !length_app.
Qed.

(** ** Messages

    [wire_msg] lists what a sender can put on the wire, one constructor per
    encoder; [encode_msg] calls that encoder and [msg_packet] is what the
    receiver is meant to see. *)

Inductive wire_msg : Type :=
| MHello (ls sc delay : Z)
| MReady (ls : Z)
| MStart (tick : Z)
| MInput (ls epoch ack : Z) (frames : list RNetWireFrame)
| MInputAcks (ls epoch ack : Z) (frames : list RNetWireFrame) (acks : list Z)
| MDelaySync (delay tick : Z)
| MInputConfirm (ls epoch tick hash : Z)
| MBye (ls : Z)
| MStateBegin (ls op slot id total crc : Z)
| MStateChunk (ls id off : Z) (data : list Z)
| MStateAck (ls id n : Z)
| MStateProbe (ls op slot total crc replied : Z)
| MStateProbeReply (ls op slot total crc : Z) (matched : bool)
| MStateProbeDone (ls op slot total crc : Z)
| MSioMultiXfer (ls unit_id seq send pad : Z)
| MRbSync (ls epoch mismatch load target corrected initiator flags : Z)
| MRbSealRows (ls epoch mismatch target slot row_begin : Z) (rows : list RNetRbWireFrame)
| MRbBaseline (ls epoch load dm da db dc : Z)
| MRbPost (ls epoch target dm di : Z) (matched : bool)
| MRbFrameCommit (ls through hash : Z)
| MModset (ls : Z) (text : list Z)
| MModsetAck (ls status : Z) (reason : list Z)
| MRbResolved (ls through : Z).

Definition encode_msg (cap magic sid : Z) (m : wire_msg) : cres (list Z) :=
  match m with
  | MHello ls sc delay => rnet_proto_encode_hello cap magic sid ls sc delay
  | MReady ls => rnet_proto_encode_ready cap magic sid ls
  | MStart tick => rnet_proto_encode_start cap magic sid tick
  | MInput ls ep ack fs => rnet_proto_encode_input cap magic sid ls ep ack (Some fs) (zlen fs)
  | MInputAcks ls ep ack fs acks =>
      rnet_proto_encode_input_acks cap magic sid ls ep ack (Some fs) (zlen fs) (Some acks)
        (zlen acks)
  | MDelaySync delay tick => rnet_proto_encode_delay_sync cap magic sid delay tick
  | MInputConfirm ls ep tick hash => rnet_proto_encode_input_confirm cap magic sid ls ep tick hash
  | MBye ls => rnet_proto_encode_bye cap magic sid ls
  | MStateBegin ls op slot id total crc =>
      rnet_proto_encode_state_begin cap magic sid ls op slot id total crc
  | MStateChunk ls id off data =>
      rnet_proto_encode_state_chunk cap magic sid ls id off (Some data) (zlen data)
  | MStateAck ls id n => rnet_proto_encode_state_ack cap magic sid ls id n
  | MStateProbe ls op slot total crc replied =>
      rnet_proto_encode_state_probe_ex cap magic sid ls op slot total crc replied
  | MStateProbeReply ls op slot total crc b =>
      rnet_proto_encode_state_probe_reply cap magic sid ls op slot (b2z b) total crc
  | MStateProbeDone ls op slot total crc =>
      rnet_proto_encode_state_probe_done cap magic sid ls op slot total crc
  | MSioMultiXfer ls unit_id seq send pad =>
      rnet_proto_encode_sio_multi_xfer cap magic sid ls unit_id seq send pad
  | MRbSync ls ep mm ld tg cs ini fl =>
      rnet_proto_encode_rb_sync cap magic sid ls ep mm ld tg cs ini fl
  | MRbSealRows ls ep mm tg slot rb rows =>
      rnet_proto_encode_rb_seal_rows cap magic sid ls ep mm tg slot rb (Some rows) (zlen rows)
  | MRbBaseline ls ep ld dm da db dc =>
      rnet_proto_encode_rb_baseline cap magic sid ls ep ld dm da db dc
  | MRbPost ls ep tg dm di b => rnet_proto_encode_rb_post cap magic sid ls ep tg dm di (b2z b)
  | MRbFrameCommit ls t h => rnet_proto_encode_rb_frame_commit cap magic sid ls t h
  | MModset ls text => rnet_proto_encode_modset cap magic sid ls (Some text)
  | MModsetAck ls st reason => rnet_proto_encode_modset_ack cap magic sid ls st (Some reason)
  | MRbResolved ls t => rnet_proto_encode_rb_resolved cap magic sid ls t
  end.

Definition msg_packet (sid : Z) (m : wire_msg) : RNetDecodedPacket :=
  let mk ty ls := set_p_local_slot ls (start_packet ty sid) in
  match m with
  | MHello ls sc delay =>
      set_p_wire_version RNET_WIRE_VERSION (set_p_delay delay (set_p_slot_count sc
        (mk RNET_PKT_HELLO ls)))
  | MReady ls => mk RNET_PKT_READY ls
  | MStart tick => set_p_start_tick tick (start_packet RNET_PKT_START sid)
  | MInput ls ep ack fs =>
      set_p_frames fs (set_p_ack_tick ack (set_p_input_epoch ep (set_p_frame_count (zlen fs)
        (mk RNET_PKT_INPUT ls))))
  | MInputAcks ls ep ack fs acks =>
      set_p_acks (padded 8 acks) (set_p_ack_count (zlen acks)
        (set_p_frames fs (set_p_ack_tick ack (set_p_input_epoch ep (set_p_frame_count (zlen fs)
          (mk RNET_PKT_INPUT ls))))))
  | MDelaySync delay tick =>
      set_p_effective_tick tick (set_p_new_delay delay (start_packet RNET_PKT_DELAY_SYNC sid))
  | MInputConfirm ls ep tick hash =>
      set_p_confirm_hash hash (set_p_confirm_sim_tick tick (set_p_input_epoch ep
        (mk RNET_PKT_INPUT_CONFIRM ls)))
  | MBye ls => mk RNET_PKT_BYE ls
  | MStateBegin ls op slot id total crc =>
      set_p_state_payload_crc crc (set_p_state_total_size total (set_p_state_xfer_id id
        (set_p_state_slot slot (set_p_state_op op (mk RNET_PKT_STATE_BEGIN ls)))))
  | MStateChunk ls id off data =>
      set_p_state_chunk data (set_p_state_chunk_size (zlen data) (set_p_state_offset off
        (set_p_state_xfer_id id (mk RNET_PKT_STATE_CHUNK ls))))
  | MStateAck ls id n =>
      set_p_state_ack_bytes n (set_p_state_xfer_id id (mk RNET_PKT_STATE_ACK ls))
  | MStateProbe ls op slot total crc replied =>
      set_p_state_payload_crc crc (set_p_state_total_size total (set_p_state_probe_replied replied
        (set_p_state_slot slot (set_p_state_op op (mk RNET_PKT_STATE_PROBE ls)))))
  | MStateProbeReply ls op slot total crc b =>
      set_p_state_payload_crc crc (set_p_state_total_size total (set_p_state_probe_match (b2z b)
        (set_p_state_slot slot (set_p_state_op op (mk RNET_PKT_STATE_PROBE_REPLY ls)))))
  | MStateProbeDone ls op slot total crc =>
      set_p_state_payload_crc crc (set_p_state_total_size total
        (set_p_state_slot slot (set_p_state_op op (mk RNET_PKT_STATE_PROBE_DONE ls))))
  | MSioMultiXfer ls unit_id seq send pad =>
      set_p_sio_vblank (pad / 256) (set_p_sio_confirm (pad mod 256) (set_p_sio_send send
        (set_p_sio_xfer_seq seq (set_p_sio_unit_id unit_id (mk RNET_PKT_SIO_MULTI_XFER ls)))))
  | MRbSync ls ep mm ld tg cs ini fl =>
      set_p_rb_target_tick tg (set_p_rb_load_tick ld (set_p_rb_mismatch_tick mm
        (set_p_rb_epoch_id ep (set_p_rb_flags fl (set_p_rb_initiator ini
          (set_p_rb_corrected_slot cs (mk RNET_PKT_RB_SYNC ls)))))))
  | MRbSealRows ls ep mm tg slot rb rows =>
      set_p_rb_rows rows (set_p_rb_row_begin rb (set_p_rb_target_tick tg
        (set_p_rb_mismatch_tick mm (set_p_rb_epoch_id ep (set_p_rb_row_count (zlen rows)
          (set_p_rb_slot slot (mk RNET_PKT_RB_SEAL_ROWS ls)))))))
  | MRbBaseline ls ep ld dm da db dc =>
      set_p_rb_digest_c dc (set_p_rb_digest_b db (set_p_rb_digest_a da
        (set_p_rb_digest_master dm (set_p_rb_load_tick ld (set_p_rb_epoch_id ep
          (mk RNET_PKT_RB_BASELINE ls))))))
  | MRbPost ls ep tg dm di b =>
      set_p_rb_input_digest di (set_p_rb_digest_master dm (set_p_rb_target_tick tg
        (set_p_rb_epoch_id ep (set_p_rb_match (b2z b) (mk RNET_PKT_RB_POST ls)))))
  | MRbFrameCommit ls t h =>
      set_p_rb_state_hash h (set_p_rb_through_tick t (mk RNET_PKT_RB_FRAME_COMMIT ls))
  | MModset ls text =>
      set_p_modset_len (zlen text) (set_p_modset_text text (mk RNET_PKT_MODSET ls))
  | MModsetAck ls st reason =>
      set_p_modset_len (zlen reason) (set_p_modset_reason reason (set_p_modset_status st
        (mk RNET_PKT_MODSET_ACK ls)))
  | MRbResolved ls t => set_p_rb_resolved_through t (mk RNET_PKT_RB_RESOLVED ls)
  end.

(** Integer arguments are within their C types; arrays and strings fit. The
    bytes of a frame past its size are zero, as the decoder leaves them. *)
Definition frame_ok (f : RNetWireFrame) : Prop :=
  in_u32 (wf_tick f) /\ 0 <= wf_size f <= RNET_INPUT_MAX /\
  exists bs, zlen bs = wf_size f /\ wf_bytes f = padded 32 bs.

Definition row_ok (f : RNetRbWireFrame) : Prop :=
  in_u16 (rbw_buttons f) /\ in_s8 (rbw_stick_x f) /\ in_s8 (rbw_stick_y f).

Definition msg_ok (m : wire_msg) : Prop :=
  match m with
  | MHello _ _ _ | MReady _ | MBye _ => True
  | MStart tick => in_u32 tick
  | MInput _ ep ack fs =>
      in_u16 ep /\ in_u32 ack /\ Forall frame_ok fs /\ 1 <= zlen fs <= RNET_MAX_BUNDLE
  | MInputAcks _ ep ack fs acks =>
      in_u16 ep /\ in_u32 ack /\ Forall frame_ok fs /\ 1 <= zlen fs <= RNET_MAX_BUNDLE /\
      Forall in_u32 acks /\ 3 <= zlen acks <= RNET_MAX_SLOTS
  | MDelaySync _ tick => in_u32 tick
  | MInputConfirm _ ep tick hash => in_u16 ep /\ in_u32 tick /\ in_u32 hash
  | MStateBegin _ _ _ id total crc => in_u32 id /\ in_u32 total /\ in_u32 crc
  | MStateChunk _ id off data =>
      in_u32 id /\ in_u32 off /\ 1 <= zlen data <= RNET_STATE_CHUNK_MAX
  | MStateAck _ id n => in_u32 id /\ in_u32 n
  | MStateProbe _ _ _ total crc _ | MStateProbeReply _ _ _ total crc _
  | MStateProbeDone _ _ _ total crc => in_u32 total /\ in_u32 crc
  | MSioMultiXfer _ _ seq send pad => in_u32 seq /\ in_u16 send /\ in_u16 pad
  | MRbSync _ ep mm ld tg _ _ _ => in_u32 ep /\ in_u32 mm /\ in_u32 ld /\ in_u32 tg
  | MRbSealRows _ ep mm tg _ rb rows =>
      in_u32 ep /\ in_u32 mm /\ in_u32 tg /\ in_u32 rb /\ Forall row_ok rows /\
      zlen rows <= RNET_RB_SEAL_ROWS_CHUNK_MAX
  | MRbBaseline _ ep ld dm da db dc =>
      in_u32 ep /\ in_u32 ld /\ in_u32 dm /\ in_u32 da /\ in_u32 db /\ in_u32 dc
  | MRbPost _ ep tg dm di _ => in_u32 ep /\ in_u32 tg /\ in_u32 dm /\ in_u32 di
  | MRbFrameCommit _ t h => in_u32 t /\ in_u32 h
  | MModset _ text => zlen text < RNET_MODSET_TEXT_MAX
  | MModsetAck _ _ reason => zlen reason < RNET_MODSET_REASON_MAX
  | MRbResolved _ t => in_u32 t
  end.

(** The bytes of each message between the header and the trailer. *)
Definition frame_bytes (f : RNetWireFrame) : list Z :=
  le_bytes 4 (wf_tick f) ++ le_bytes 2 (wf_size f) ++ take (Z.to_nat (wf_size f)) (wf_bytes f).

Definition row_bytes (f : RNetRbWireFrame) : list Z :=
  le_bytes 2 (rbw_buttons f) ++
  [u8 (rbw_stick_x f); u8 (rbw_stick_y f); rbw_source f; rbw_is_predicted f;
   rbw_is_valid f; rbw_rx f; rbw_ry f].

Definition input_bytes (ls ep ack : Z) (fs : list RNetWireFrame) : list Z :=
  [ls] ++ [zlen fs] ++ le_bytes 2 ep ++ le_bytes 4 ack ++ concat (map frame_bytes fs).

Definition msg_body (m : wire_msg) : list Z :=
  match m with
  | MHello ls sc delay => [ls] ++ [sc] ++ [delay] ++ [RNET_WIRE_VERSION]
  | MReady ls | MBye ls => [ls] ++ [0] ++ [0] ++ [0]
  | MStart tick => le_bytes 4 tick
  | MInput ls ep ack fs => input_bytes ls ep ack fs
  | MInputAcks ls ep ack fs acks =>
      input_bytes ls ep ack fs ++ [zlen acks] ++ concat (map (le_bytes 4) acks)
  | MDelaySync delay tick => [delay] ++ [0] ++ [0] ++ [0] ++ le_bytes 4 tick
  | MInputConfirm ls ep tick hash =>
      [ls] ++ le_bytes 2 ep ++ [0] ++ le_bytes 4 tick ++ le_bytes 4 hash
  | MStateBegin ls op slot id total crc =>
      [ls] ++ [op] ++ [slot] ++ [0] ++ le_bytes 4 id ++ le_bytes 4 total ++ le_bytes 4 crc
  | MStateChunk ls id off data =>
      [ls] ++ [0] ++ [0] ++ [0] ++ le_bytes 4 id ++ le_bytes 4 off ++ le_bytes 2 (zlen data) ++
      le_bytes 2 0 ++ data
  | MStateAck ls id n => [ls] ++ [0] ++ [0] ++ [0] ++ le_bytes 4 id ++ le_bytes 4 n
  | MStateProbe ls op slot total crc replied =>
      [ls] ++ [op] ++ [slot] ++ [replied] ++ le_bytes 4 total ++ le_bytes 4 crc
  | MStateProbeReply ls op slot total crc b =>
      [ls] ++ [op] ++ [slot] ++ [b2z b] ++ le_bytes 4 total ++ le_bytes 4 crc
  | MStateProbeDone ls op slot total crc =>
      [ls] ++ [op] ++ [slot] ++ [0] ++ le_bytes 4 total ++ le_bytes 4 crc
  | MSioMultiXfer ls unit_id seq send pad =>
      [ls] ++ [unit_id] ++ le_bytes 4 seq ++ le_bytes 2 send ++ le_bytes 2 pad
  | MRbSync ls ep mm ld tg cs ini fl =>
      [ls] ++ [cs] ++ [ini] ++ [fl] ++ le_bytes 4 ep ++ le_bytes 4 mm ++ le_bytes 4 ld ++
      le_bytes 4 tg
  | MRbSealRows ls ep mm tg slot rb rows =>
      [ls] ++ [slot] ++ le_bytes 2 (zlen rows) ++ le_bytes 4 ep ++ le_bytes 4 mm ++
      le_bytes 4 tg ++ le_bytes 4 rb ++ concat (map row_bytes rows)
  | MRbBaseline ls ep ld dm da db dc =>
      [ls] ++ [0] ++ le_bytes 4 ep ++ le_bytes 4 ld ++ le_bytes 4 dm ++ le_bytes 4 da ++
      le_bytes 4 db ++ le_bytes 4 dc
  | MRbPost ls ep tg dm di b =>
      [ls] ++ [b2z b] ++ le_bytes 4 ep ++ le_bytes 4 tg ++ le_bytes 4 dm ++ le_bytes 4 di
  | MRbFrameCommit ls t h => [ls] ++ [0] ++ le_bytes 4 t ++ le_bytes 4 h
  | MModset ls text => [ls] ++ [0] ++ le_bytes 2 (zlen text) ++ text
  | MModsetAck ls st reason => [ls] ++ [st] ++ le_bytes 2 (zlen reason) ++ reason
  | MRbResolved ls t => [ls] ++ [0] ++ le_bytes 4 t
  end.

Definition msg_type (m : wire_msg) : Z :=
  match m with
  | MHello _ _ _ => RNET_PKT_HELLO
  | MReady _ => RNET_PKT_READY
  | MStart _ => RNET_PKT_START
  | MInput _ _ _ _ => RNET_PKT_INPUT
  | MInputAcks _ _ _ _ _ => RNET_PKT_INPUT
  | MDelaySync _ _ => RNET_PKT_DELAY_SYNC
  | MInputConfirm _ _ _ _ => RNET_PKT_INPUT_CONFIRM
  | MBye _ => RNET_PKT_BYE
  | MStateBegin _ _ _ _ _ _ => RNET_PKT_STATE_BEGIN
  | MStateChunk _ _ _ _ => RNET_PKT_STATE_CHUNK
  | MStateAck _ _ _ => RNET_PKT_STATE_ACK
  | MStateProbe _ _ _ _ _ _ => RNET_PKT_STATE_PROBE
  | MStateProbeReply _ _ _ _ _ _ => RNET_PKT_STATE_PROBE_REPLY
  | MStateProbeDone _ _ _ _ _ => RNET_PKT_STATE_PROBE_DONE
  | MSioMultiXfer _ _ _ _ _ => RNET_PKT_SIO_MULTI_XFER
  | MRbSync _ _ _ _ _ _ _ _ => RNET_PKT_RB_SYNC
  | MRbSealRows _ _ _ _ _ _ _ => RNET_PKT_RB_SEAL_ROWS
  | MRbBaseline _ _ _ _ _ _ _ => RNET_PKT_RB_BASELINE
  | MRbPost _ _ _ _ _ _ => RNET_PKT_RB_POST
  | MRbFrameCommit _ _ _ => RNET_PKT_RB_FRAME_COMMIT
  | MModset _ _ => RNET_PKT_MODSET
  | MModsetAck _ _ _ => RNET_PKT_MODSET_ACK
  | MRbResolved _ _ => RNET_PKT_RB_RESOLVED
  end.

(** Header, body and trailer. *)
Definition packet_bytes (magic ty sid : Z) (body : list Z) : list Z :=
  let b := le_bytes 4 magic ++ le_bytes 2 ty ++ le_bytes 4 sid ++ body in b ++ trailer b.

Lemma zlen_packet_bytes magic ty sid body : zlen (packet_bytes magic ty sid body) = 14 + zlen body.
Proof. unfold packet_bytes, trailer. rewrite !zlen_app, !zlen_le_bytes. lia. Qed.

(** Run a straight-line writer. *)
Ltac zl := rewrite ?zlen_app, ?zlen_le_bytes, ?zlen_cons, ?zlen_nil; ranges; consts; lia.
Ltac wrun :=
  unfold header, write_u8; rewrite ?write_u16_le, ?write_u32_le;
  repeat first
    [ rewrite seq_assoc
    | rewrite seq_put by zl
    | rewrite seq_put_from by zl
    | rewrite seq_reject by (apply Z.ltb_ge; zl) ].
Ltac wexec :=
  wrun; rewrite ?finish_ok by zl; unfold packet_bytes; f_equal; rewrite <- ?app_assoc; try done.
Ltac pass_guard := match goal with |- context [?a <? ?b] => destruct (Z.ltb_spec a b); [zl|] end.

Lemma u8_small x : 0 <= x < 256 -> u8 x = x.
Proof. apply Z.mod_small. Qed.

Lemma zlen_frame_bytes f : frame_ok f -> zlen (frame_bytes f) = 6 + wf_size f.
Proof.
  intros (Ht & Hs & bs & Hl & Hb). unfold frame_bytes. rewrite Hb. consts. unfold zlen in *.
  rewrite take_padded by lia. rewrite !length_app, !length_le_bytes. lia.
Qed.

(** The frame loop, bounded by the room the header check leaves. *)
Lemma write_frames_ok fs w cap out : Forall frame_ok fs -> zlen out + 38 * zlen fs + 4 <= cap ->
  (write_frames (length fs) fs >>> w) cap out = w cap (out ++ concat (map frame_bytes fs)).
Proof.
  intros Hfs. revert out. induction Hfs as [|f fs Hf Hfs IH]; intros out Hc.
  - simpl. by rewrite app_nil_r.
  - pose proof (zlen_frame_bytes f Hf) as Hz. pose proof (zlen_nonneg fs).
    rewrite zlen_cons in Hc. cbn [write_frames length map concat].
    destruct Hf as (Ht & Hs & bs & Hl & Hb). consts.
    assert (zlen (wf_bytes f) = 32) by (by rewrite Hb; unfold zlen; rewrite length_padded).
    unfold frame_bytes in Hz. rewrite !zlen_app, !zlen_le_bytes in Hz.
    wrun. rewrite IH by zl.
    unfold frame_bytes. by rewrite <- !app_assoc.
Qed.

Lemma write_acks_ok acks w cap out : zlen out + 4 * zlen acks <= cap ->
  (write_acks (length acks) acks >>> w) cap out = w cap (out ++ concat (map (le_bytes 4) acks)).
Proof.
  revert out. induction acks as [|a acks IH]; intros out Hc.
  - simpl. by rewrite app_nil_r.
  - pose proof (zlen_nonneg acks). rewrite zlen_cons in Hc.
    cbn [write_acks length map concat]. wrun.
    rewrite IH by zl. by rewrite <- app_assoc.
Qed.

Lemma write_rows_ok rows w cap out : zlen out + 9 * zlen rows <= cap ->
  (write_rb_frames (length rows) rows >>> w) cap out
  = w cap (out ++ concat (map row_bytes rows)).
Proof.
  revert out. induction rows as [|f rows IH]; intros out Hc.
  - simpl. by rewrite app_nil_r.
  - pose proof (zlen_nonneg rows). rewrite zlen_cons in Hc.
    cbn [write_rb_frames length map concat]. unfold write_rb_frame.
    wrun. rewrite IH by zl.
    unfold row_bytes. by rewrite <- !app_assoc.
Qed.

Lemma zlen_frames_bytes fs : Forall frame_ok fs ->
  0 <= zlen (concat (map frame_bytes fs)) <= 38 * zlen fs.
Proof.
  induction 1 as [|f fs Hf _ IH]; cbn [map concat]; [done|].
  rewrite zlen_app, zlen_cons, (zlen_frame_bytes f Hf).
  destruct Hf as (_ & Hs & _). consts. lia.
Qed.

Lemma encode_input_bytes ls ep ack fs magic sid cap : 1200 <= cap ->
  msg_ok (MInput ls ep ack fs) ->
  rnet_proto_encode_input cap magic sid ls ep ack (Some fs) (zlen fs)
  = Ret (packet_bytes magic RNET_PKT_INPUT sid (input_bytes ls ep ack fs)).
Proof.
  intros Hcap (? & ? & Hfs & ?). unfold rnet_proto_encode_input. consts.
  destruct (Z.ltb_spec (zlen fs) 1); [lia|]. destruct (Z.ltb_spec 21 (zlen fs)); [lia|].
  cbn [orb]. pass_guard. rewrite u8_small by lia. wrun.
  rewrite to_nat_zlen, write_frames_ok by (try done; zl).
  pose proof (zlen_frames_bytes _ Hfs).
  by rewrite finish_ok by zl.
Qed.

Lemma zlen_acks_bytes acks : zlen (concat (map (le_bytes 4) acks)) = 4 * zlen acks.
Proof.
  induction acks as [|a acks IH]; [done|]. cbn [map concat].
  rewrite zlen_app, zlen_le_bytes, zlen_cons. lia.
Qed.

Lemma zlen_rows_bytes rows : zlen (concat (map row_bytes rows)) = 9 * zlen rows.
Proof.
  induction rows as [|f rows IH]; [done|]. cbn [map concat]. unfold row_bytes at 1.
  rewrite !zlen_app, zlen_le_bytes, zlen_cons, !zlen_cons, zlen_nil. lia.
Qed.

Lemma w_back_app cap a b w n : n = zlen b -> (w_back n >>> w) cap (a ++ b) = w cap a.
Proof.
  intros ->. unfold w_seq, w_back. rewrite zlen_app. cbn [cbind].
  replace (Z.to_nat (zlen a + zlen b - zlen b)) with (length a) by (unfold zlen; lia).
  by rewrite take_app_length.
Qed.

Lemma encode_input_acks_bytes ls ep ack fs acks magic sid cap : 1200 <= cap ->
  msg_ok (MInputAcks ls ep ack fs acks) ->
  encode_msg cap magic sid (MInputAcks ls ep ack fs acks)
  = Ret (packet_bytes magic RNET_PKT_INPUT sid (msg_body (MInputAcks ls ep ack fs acks))).
Proof.
  intros Hcap (? & ? & Hfs & ? & ? & ?). cbn [encode_msg msg_body].
  unfold rnet_proto_encode_input_acks. consts.
  destruct (Z.ltb_spec (zlen acks) 3); [lia|]. destruct (Z.ltb_spec 8 (zlen acks)); [lia|].
  cbn [orb]. rewrite encode_input_bytes by done. cbn [cbind].
  pose proof (zlen_frames_bytes _ Hfs). rewrite zlen_packet_bytes.
  assert (zlen (input_bytes ls ep ack fs) <= 8 + 38 * zlen fs) by (unfold input_bytes; zl).
  pass_guard. unfold packet_bytes at 1.
  rewrite w_back_app by (by unfold trailer; rewrite zlen_le_bytes).
  wrun. rewrite to_nat_zlen, write_acks_ok by zl.
  rewrite finish_ok by (rewrite !zlen_app, zlen_acks_bytes; zl).
  unfold packet_bytes. by rewrite <- !app_assoc.
Qed.

Lemma encode_state_chunk_bytes ls id off data magic sid cap : 1200 <= cap ->
  1 <= zlen data <= RNET_STATE_CHUNK_MAX ->
  rnet_proto_encode_state_chunk cap magic sid ls id off (Some data) (zlen data)
  = Ret (packet_bytes magic RNET_PKT_STATE_CHUNK sid (msg_body (MStateChunk ls id off data))).
Proof.
  intros Hcap Hl. unfold rnet_proto_encode_state_chunk. consts.
  destruct (Z.eqb_spec (zlen data) 0); [lia|]. destruct (Z.ltb_spec 1120 (zlen data)); [lia|].
  cbn [orb]. pass_guard. wrun. rewrite to_nat_zlen, take_ge by done. wexec.
Qed.

Lemma encode_seal_rows_bytes ls ep mm tg slot rb rows magic sid cap : 1200 <= cap ->
  zlen rows <= RNET_RB_SEAL_ROWS_CHUNK_MAX ->
  rnet_proto_encode_rb_seal_rows cap magic sid ls ep mm tg slot rb (Some rows) (zlen rows)
  = Ret (packet_bytes magic RNET_PKT_RB_SEAL_ROWS sid
           (msg_body (MRbSealRows ls ep mm tg slot rb rows))).
Proof.
  intros Hcap Hl. unfold rnet_proto_encode_rb_seal_rows. consts. cbn [default id].
  destruct (Z.ltb_spec 24 (zlen rows)); [lia|]. wrun.
  rewrite to_nat_zlen, write_rows_ok by zl.
  rewrite finish_ok by (rewrite zlen_app, zlen_rows_bytes; zl). done.
Qed.

Lemma encode_modset_bytes ls text magic sid cap : 1200 <= cap ->
  zlen text < RNET_MODSET_TEXT_MAX ->
  rnet_proto_encode_modset cap magic sid ls (Some text)
  = Ret (packet_bytes magic RNET_PKT_MODSET sid (msg_body (MModset ls text))).
Proof.
  intros Hcap Hl. pose proof (zlen_nonneg text). unfold rnet_proto_encode_modset, clamped_len.
  consts. rewrite Z.min_l by lia. pass_guard. rewrite u16_id by (ranges; lia). cbn [default id].
  wrun. rewrite to_nat_zlen, take_ge by done. wexec.
Qed.

Lemma encode_modset_ack_bytes ls st reason magic sid cap : 1200 <= cap ->
  zlen reason < RNET_MODSET_REASON_MAX ->
  rnet_proto_encode_modset_ack cap magic sid ls st (Some reason)
  = Ret (packet_bytes magic RNET_PKT_MODSET_ACK sid (msg_body (MModsetAck ls st reason))).
Proof.
  intros Hcap Hl. pose proof (zlen_nonneg reason).
  unfold rnet_proto_encode_modset_ack, clamped_len.
  consts. rewrite Z.min_l by lia. pass_guard. rewrite u16_id by (ranges; lia). cbn [default id].
  wrun. rewrite to_nat_zlen, take_ge by done. wexec.
Qed.

Lemma b2z_nz_b2z b : b2z (nz (b2z b)) = b2z b.
Proof. by destruct b. Qed.

(** Every encoder produces header, body and trailer, without leaving a buffer
    of [RNET_MAX_PACKET] bytes. *)
Lemma encode_msg_bytes m magic sid cap : 1200 <= cap -> msg_ok m ->
  encode_msg cap magic sid m = Ret (packet_bytes magic (msg_type m) sid (msg_body m)).
Proof.
  intros Hcap Hm. destruct m; try (by apply encode_input_acks_bytes);
    cbn [encode_msg msg_ok] in *; destruct_and?;
    try (by first [ apply encode_input_bytes | apply encode_state_chunk_bytes
                  | apply encode_seal_rows_bytes | apply encode_modset_bytes
                  | apply encode_modset_ack_bytes ]).
  all: lazymatch goal with |- ?t = _ => let rec hd u := lazymatch u with ?f _ => hd f | ?f => f end in
         let h := hd t in unfold h end.
  all: rewrite ?b2z_nz_b2z; pass_guard; wexec.
Qed.

(** ** Round trip *)

(** One step of a reader over known bytes. *)
Section Run.
Context {A : Type} (d : list Z) (c : Z) (r : list Z) (R : cres (A * Z)).

Lemma run_u8 k b : At d c ([b] ++ r) -> (At d (c + 1) r -> k b d (c + 1) = R) ->
  r_bind read_u8 k d c = R.
Proof.
  intros H Hk. unfold r_bind. rewrite (At_u8 _ _ _ _ H). apply Hk. by apply At_u8_next in H.
Qed.

Lemma run_u16 k v : in_u16 v -> At d c (le_bytes 2 v ++ r) ->
  (At d (c + 2) r -> k v d (c + 2) = R) -> r_bind read_u16 k d c = R.
Proof.
  intros Hv H Hk. unfold r_bind. rewrite (At_u16 _ _ _ _ Hv H). apply Hk.
  by apply (At_advance _ _ (le_bytes 2 v)) in H.
Qed.

Lemma run_u32 k v : in_u32 v -> At d c (le_bytes 4 v ++ r) ->
  (At d (c + 4) r -> k v d (c + 4) = R) -> r_bind read_u32 k d c = R.
Proof.
  intros Hv H Hk. unfold r_bind. rewrite (At_u32 _ _ _ _ Hv H). apply Hk.
  by apply (At_advance _ _ (le_bytes 4 v)) in H.
Qed.

Lemma run_bytes k n bs : n = zlen bs -> At d c (bs ++ r) ->
  (At d (c + n) r -> k bs d (c + n) = R) -> r_bind (read_bytes n) k d c = R.
Proof.
  intros -> H Hk. unfold r_bind. rewrite (At_bytes _ _ _ _ H). apply Hk.
  by apply At_advance in H.
Qed.

Lemma run_skip1 k : At d c ([0] ++ r) ->
  (At d (c + 1) r -> k tt d (c + 1) = R) -> r_bind (skip 1) k d c = R.
Proof. intros H Hk. apply Hk. by apply (At_advance _ _ [0]) in H. Qed.

Lemma run_skip3 k : At d c ([0] ++ [0] ++ [0] ++ r) ->
  (At d (c + 3) r -> k tt d (c + 3) = R) -> r_bind (skip 3) k d c = R.
Proof. intros H Hk. apply Hk. by apply (At_advance _ _ [0; 0; 0]) in H. Qed.

Lemma run_reject b k : b = false -> k tt d c = R -> r_bind (r_reject b) k d c = R.
Proof. by intros ->. Qed.

Lemma run_need e n k : n <= e - c -> 0 <= e - c < 18446744073709551616 -> k tt d c = R ->
  r_bind (need e n) k d c = R.
Proof.
  intros Hn Hr Hk. unfold r_bind, need. rewrite u64_id by done.
  destruct (Z.ltb_spec (e - c) n); [lia|done].
Qed.
End Run.

Lemma r_bind_assoc {A B C} (m : reader A) (k : A -> reader B) (h : B -> reader C) d c :
  r_bind (r_bind m k) h d c = r_bind m (fun a => r_bind (k a) h) d c.
Proof. unfold r_bind. by destruct (m d c) as [[]| |]. Qed.
Lemma r_bind_ret {A B} (a : A) (k : A -> reader B) d c : r_bind (r_ret a) k d c = k a d c.
Proof. done. Qed.

Ltac at_len :=
  match goal with H : At ?d _ _ |- _ =>
    let L := fresh "L" in pose proof (At_len _ _ _ H) as L;
    rewrite ?zlen_app, ?zlen_le_bytes, ?zlen_cons, ?zlen_nil in L
  end.
Ltac tests := repeat (apply orb_false_intro); first [apply Z.ltb_ge | apply Z.leb_gt | apply Z.eqb_neq].
Ltac run_step :=
  lazymatch goal with
  | |- r_bind (r_bind _ _) _ _ _ = _ => rewrite r_bind_assoc
  | |- r_bind (r_ret _) _ _ _ = _ => rewrite r_bind_ret
  | H : At ?d ?c _ |- r_bind read_u8 _ ?d ?c = _ => eapply run_u8; [exact H|clear H; intros H]
  | H : At ?d ?c _ |- r_bind read_u16 _ ?d ?c = _ =>
      eapply run_u16; [|exact H|clear H; intros H]; [ranges; consts; lia|]
  | H : At ?d ?c _ |- r_bind read_u32 _ ?d ?c = _ =>
      eapply run_u32; [|exact H|clear H; intros H]; [assumption|]
  | H : At ?d ?c _ |- r_bind (skip 1) _ ?d ?c = _ => eapply run_skip1; [exact H|clear H; intros H]
  | H : At ?d ?c _ |- r_bind (skip 3) _ ?d ?c = _ => eapply run_skip3; [exact H|clear H; intros H]
  | H : At ?d ?c _ |- r_bind (read_bytes _) _ ?d ?c = _ =>
      eapply run_bytes; [|exact H|clear H; intros H]; [by first [done|symmetry]|]
  | |- r_bind (r_reject _) _ _ _ = _ => apply run_reject; [tests; ranges; consts; lia|]
  | |- r_bind (need _ _) _ _ _ = _ =>
      apply run_need; [ranges; consts; at_len; lia|at_len; ranges; lia|]
  end; cbv beta.
Ltac run := repeat run_step.

Lemma in_u16_bytes v : in_u16 v ->
  Z.lor (Z.land v 255) (Z.shiftl (Z.land (Z.shiftr v 8) 255) 8) = v.
Proof.
  intros Hv. rewrite u16_bytes.
  change [Z.land v 255; Z.land (Z.shiftr v 8) 255] with (le_bytes 2 v).
  rewrite le_val_bytes by (ranges; lia). by apply Z.mod_small.
Qed.

Lemma sio_pad_bytes v : in_u16 v ->
  u8 (Z.land v 255) = v mod 256 /\ u8 (Z.land (Z.shiftr v 8) 255) = v / 256.
Proof.
  intros Hv. rewrite !land_255, Z.shiftr_div_pow2 by lia. change (2 ^ 8) with 256.
  unfold u8. rewrite !Z.mod_mod by lia. split; [done|].
  apply Z.mod_small. ranges. split; [apply Z.div_pos; lia|apply Z.div_lt_upper_bound; lia].
Qed.

Lemma take_frame_bytes f : frame_ok f ->
  zlen (take (Z.to_nat (wf_size f)) (wf_bytes f)) = wf_size f /\
  padded 32 (take (Z.to_nat (wf_size f)) (wf_bytes f)) = wf_bytes f.
Proof.
  intros (Ht & Hs & bs & Hl & Hb). consts. rewrite Hb. unfold zlen in *.
  rewrite take_padded by lia. auto.
Qed.

Section RoundTrip.
Context (d extra t : list Z) (e : Z).
Context (He : e = zlen d - 4) (Hmax : zlen d < 18446744073709551616) (Ht : zlen t = 4).

Lemma run_frames {A} fs c r (k : list RNetWireFrame -> reader A) R :
  Forall frame_ok fs -> At d c (concat (map frame_bytes fs) ++ r) -> 4 <= zlen r -> 0 <= c ->
  (At d (c + zlen (concat (map frame_bytes fs))) r ->
   k fs d (c + zlen (concat (map frame_bytes fs))) = R) ->
  r_bind (read_frames (length fs) e) k d c = R.
Proof.
  intros Hfs. revert c k. induction Hfs as [|f fs Hf Hfs IH]; intros c k H Hr Hc Hk.
  - cbn [map concat length read_frames] in *. rewrite r_bind_ret. rewrite zlen_nil, Z.add_0_r in Hk.
    by apply Hk.
  - cbn [map concat length read_frames] in *. unfold frame_bytes at 1 in H.
    destruct (take_frame_bytes f Hf) as [Hz Hp]. pose proof (zlen_frame_bytes f Hf) as Hfz.
    destruct Hf as (Hft & Hfs' & _).
    pose proof (zlen_frames_bytes _ Hfs) as Hfl. consts. rewrite <- !app_assoc in H.
    assert (zlen d = c + 6 + wf_size f + zlen (concat (map frame_bytes fs)) + zlen r)
      by (at_len; lia).
    run. apply (IH _ _ H Hr ltac:(lia)). clear H; intros H.
    rewrite r_bind_ret, Hp. rewrite zlen_app, Hfz in Hk.
    replace (c + 4 + 2 + wf_size f + zlen (concat (map frame_bytes fs)))
      with (c + (6 + wf_size f + zlen (concat (map frame_bytes fs)))) in * by lia.
    destruct f. auto.
Qed.

Lemma run_acks {A} acks c r (k : list Z -> reader A) R :
  Forall in_u32 acks -> At d c (concat (map (le_bytes 4) acks) ++ r) ->
  (At d (c + 4 * zlen acks) r -> k acks d (c + 4 * zlen acks) = R) ->
  r_bind (read_acks (length acks)) k d c = R.
Proof.
  intros Hf. revert c k. induction Hf as [|a acks Ha Hf IH]; intros c k H Hk;
    cbn [map concat length read_acks] in *.
  - run. rewrite (zlen_nil : @zlen Z [] = 0), Z.add_0_r in Hk. by apply Hk.
  - rewrite <- !app_assoc in H. run. apply (IH _ _ H). clear H; intros H. run.
    rewrite zlen_cons in Hk.
    replace (c + 4 + 4 * zlen acks) with (c + 4 * (zlen acks + 1)) in * by lia. auto.
Qed.

Lemma run_rows {A} rows c r (k : list RNetRbWireFrame -> reader A) R :
  Forall row_ok rows -> At d c (concat (map row_bytes rows) ++ r) ->
  (At d (c + 9 * zlen rows) r -> k rows d (c + 9 * zlen rows) = R) ->
  r_bind (read_rb_rows (length rows)) k d c = R.
Proof.
  intros Hf. revert c k. induction Hf as [|f rows Ha Hf IH]; intros c k H Hk;
    cbn [map concat length read_rb_rows] in *.
  - run. rewrite (zlen_nil : @zlen RNetRbWireFrame [] = 0), Z.add_0_r in Hk. by apply Hk.
  - unfold row_bytes at 1 in H. rewrite <- !app_assoc in H. unfold read_rb_frame.
    destruct Ha as (Hb & Hx & Hy). cbn [app] in H.
    do 2 run_step. repeat (run_step; try (eapply run_u8; [exact H|clear H; intros H])).
    apply (IH _ _ H). clear H; intros H. run. rewrite !s8_u8 by done.
    rewrite zlen_cons in Hk.
    replace (c + 2 + 1 + 1 + 1 + 1 + 1 + 1 + 1 + 9 * zlen rows)
      with (c + 9 * (zlen rows + 1)) in * by lia. destruct f; auto.
Qed.

Ltac ret := unfold r_ret; f_equal; f_equal; try done; try zl.

(** The fields before the acknowledgment extension of an INPUT. *)
Definition input_packet sid ls ep ack fs : RNetDecodedPacket :=
  set_p_frames fs (set_p_ack_tick ack (set_p_input_epoch ep (set_p_frame_count (zlen fs)
    (set_p_local_slot ls (start_packet RNET_PKT_INPUT sid))))).

Lemma run_input sid ls ep ack fs r : in_u16 ep -> in_u32 ack -> Forall frame_ok fs ->
  1 <= zlen fs <= RNET_MAX_BUNDLE -> 4 <= zlen r ->
  At d 10 (input_bytes ls ep ack fs ++ r) ->
  decode_input e (start_packet RNET_PKT_INPUT sid) d 10
  = decode_input_acks e (input_packet sid ls ep ack fs) d (10 + zlen (input_bytes ls ep ack fs))
  /\ At d (10 + zlen (input_bytes ls ep ack fs)) r.
Proof.
  intros Hep Hack Hfs Hn Hr H. split; [|by apply At_advance in H].
  pose proof (zlen_frames_bytes _ Hfs) as Hz.
  assert (zlen (input_bytes ls ep ack fs) = 8 + zlen (concat (map frame_bytes fs))) as ->
    by (unfold input_bytes; zl).
  unfold input_bytes in H. rewrite <- !app_assoc in H. unfold decode_input. consts.
  do 3 run_step. change (le_bytes 2 ep) with ([Z.land ep 255] ++ [Z.land (Z.shiftr ep 8) 255]) in H.
  rewrite <- !app_assoc in H. run. rewrite to_nat_zlen.
  apply (run_frames _ _ _ _ _ Hfs H Hr ltac:(lia)). clear H; intros H.
  rewrite in_u16_bytes by done. f_equal. lia.
Qed.

Lemma run_input_acks p acks c : Forall in_u32 acks -> 3 <= zlen acks <= RNET_MAX_SLOTS -> 0 <= c ->
  At d c ([zlen acks] ++ concat (map (le_bytes 4) acks) ++ t) ->
  decode_input_acks e p d c
  = Ret (set_p_acks (padded 8 acks) (set_p_ack_count (zlen acks) p), c + 1 + 4 * zlen acks).
Proof.
  intros Hf Hn Hc H. pose proof (At_len _ _ _ H) as Hl.
  rewrite !zlen_app, zlen_cons, zlen_nil, zlen_acks_bytes in Hl. consts.
  unfold decode_input_acks. unfold cursor at 1. unfold r_bind at 1. cbn [cbind].
  destruct (Z.eqb_spec c e); [lia|]. run. unfold cursor at 1. unfold r_bind at 1. cbn [cbind].
  rewrite u64_id by (ranges; lia).
  replace (e - (c + 1) =? 4 * zlen acks) with true by (symmetry; apply Z.eqb_eq; lia).
  cbn [negb]. rewrite orb_false_r. run. rewrite to_nat_zlen.
  apply (run_acks _ _ _ _ _ Hf H). clear H; intros H. done.
Qed.
(** The case of the switch that handles each message. *)
Definition decode_for (m : wire_msg) : Z -> RNetDecodedPacket -> reader RNetDecodedPacket :=
  match m with
  | MHello _ _ _ => decode_hello
  | MReady _ => decode_slot_only
  | MStart _ => decode_start
  | MInput _ _ _ _ => decode_input
  | MInputAcks _ _ _ _ _ => decode_input
  | MDelaySync _ _ => decode_delay_sync
  | MInputConfirm _ _ _ _ => decode_input_confirm
  | MBye _ => decode_slot_only
  | MStateBegin _ _ _ _ _ _ => decode_state_begin
  | MStateChunk _ _ _ _ => decode_state_chunk
  | MStateAck _ _ _ => decode_state_ack
  | MStateProbe _ _ _ _ _ _ => decode_state_probe
  | MStateProbeReply _ _ _ _ _ _ => decode_state_probe_reply
  | MStateProbeDone _ _ _ _ _ => decode_state_probe_done
  | MSioMultiXfer _ _ _ _ _ => decode_sio_multi_xfer
  | MRbSync _ _ _ _ _ _ _ _ => decode_rb_sync
  | MRbSealRows _ _ _ _ _ _ _ => decode_rb_seal_rows
  | MRbBaseline _ _ _ _ _ _ _ => decode_rb_baseline
  | MRbPost _ _ _ _ _ _ => decode_rb_post
  | MRbFrameCommit _ _ _ => decode_rb_frame_commit
  | MModset _ _ => decode_modset
  | MModsetAck _ _ _ => decode_modset
  | MRbResolved _ _ => decode_rb_resolved
  end.

Lemma decode_body_for m sid :
  decode_body e (start_packet (msg_type m) sid)
  = decode_for m e (start_packet (msg_type m) sid).
Proof. by destruct m. Qed.

Ltac run_body :=
  cbn [decode_for];
  lazymatch goal with |- ?f e _ d 10 = _ => unfold f end;
  run; try ret.

(** Decoding the body of each message, possibly followed by [extra] bytes
    (the generation tag of rollback-control packets). *)
Lemma decode_body_msg m sid : msg_ok m -> At d 10 (msg_body m ++ extra ++ t) ->
  (msg_type m = RNET_PKT_INPUT -> extra = []) ->
  decode_body e (start_packet (msg_type m) sid) d 10
  = Ret (msg_packet sid m, 10 + zlen (msg_body m)).
Proof.
  intros Hm H Hx. pose proof (At_len _ _ _ H) as Hl. pose proof (zlen_nonneg extra).
  rewrite decode_body_for.
  destruct m; cbn [msg_ok msg_body msg_type msg_packet] in *; destruct_and?;
    rewrite <- ?app_assoc in H; rewrite !zlen_app in Hl; cbn [decode_for].
  all: try (run_body; done).
  - rewrite Hx in H by done. destruct (run_input sid ls epoch ack frames t) as [-> Hat]; [done..|lia|done|].
    pose proof (At_len _ _ _ Hat). unfold decode_input_acks, cursor, r_bind. cbn [cbind].
    destruct (Z.eqb_spec (10 + zlen (input_bytes ls epoch ack frames)) e); [done|lia].
  - rewrite Hx in H by done.
    destruct (run_input sid ls epoch ack frames ([zlen acks] ++ concat (map (le_bytes 4) acks) ++ t))
      as [-> Hat]; [done..|rewrite !zlen_app, zlen_acks_bytes; zl|done|].
    pose proof (zlen_nonneg (input_bytes ls epoch ack frames)).
    rewrite (run_input_acks _ acks) by (done || lia). f_equal. f_equal.
    rewrite !zlen_app, zlen_acks_bytes. zl.
  - cbn [decode_for]. unfold decode_input_confirm.
    change (le_bytes 2 epoch) with ([Z.land epoch 255] ++ [Z.land (Z.shiftr epoch 8) 255]) in H.
    rewrite <- !app_assoc in H. run. rewrite in_u16_bytes by done. ret.
  - run_body. by destruct (sio_pad_bytes pad) as [-> ->].
  - pose proof (zlen_rows_bytes rows). pose proof (zlen_nonneg rows).
    unfold decode_rb_seal_rows. run. rewrite to_nat_zlen.
    eapply run_rows; [done|exact H|]. clear H; intros H. ret.
  - pose proof (zlen_nonneg text). unfold decode_modset.
    change (p_type (start_packet RNET_PKT_MODSET sid) =? RNET_PKT_MODSET) with true.
    cbv iota zeta. run. ret.
  - pose proof (zlen_nonneg reason). unfold decode_modset.
    change (p_type (start_packet RNET_PKT_MODSET_ACK sid) =? RNET_PKT_MODSET) with false.
    cbv iota zeta. run. ret.
Qed.
End RoundTrip.

Lemma At_start d : At d 0 d.
Proof. split; [pose proof (zlen_nonneg d); lia|done]. Qed.

(** The header and the trailer of a well-formed packet pass every test. *)
Lemma decode_packet_bytes magic ty sid body : in_u32 magic -> in_u16 ty -> in_u32 sid ->
  let d := packet_bytes magic ty sid body in
  let e := zlen d - 4 in
  exists t, zlen t = 4 /\ At d 10 (body ++ t) /\
    rnet_proto_decode d magic =
      let* (p, c) := decode_body e (start_packet ty sid) d 10 in
      let* (p, _) := decode_rb_epoch e p d c in Ret p.
Proof.
  intros Hm Hty Hsid d e.
  assert (zlen d = 14 + zlen body) as Hz by apply zlen_packet_bytes.
  pose proof (zlen_nonneg body) as Hb. pose proof (At_start d) as H.
  set (b := le_bytes 4 magic ++ le_bytes 2 ty ++ le_bytes 4 sid ++ body) in *.
  assert (d = b ++ trailer b) as Hd by done. rewrite Hd in H at 2. subst b.
  rewrite <- !app_assoc in H. set (t := trailer _) in *.
  assert (At d 10 (body ++ t)) as H10.
  { pose proof H as H'. apply (At_advance d _ (le_bytes 4 magic)) in H'.
    apply (At_advance d _ (le_bytes 2 ty)) in H'. by apply (At_advance d _ (le_bytes 4 sid)) in H'. }
  exists t. split; [done|]. split; [done|].
  unfold rnet_proto_decode. destruct (Z.ltb_spec (zlen d) 10); [lia|].
  rewrite (At_u32 _ _ _ _ Hm H). cbn [cbind]. rewrite Z.eqb_refl. cbn [negb].
  apply (At_advance d _ (le_bytes 4 magic)) in H.
  change (0 + zlen (le_bytes 4 magic)) with (0 + 4) in H. rewrite (At_u16 _ _ _ _ Hty H). cbn [cbind].
  apply (At_advance d _ (le_bytes 2 ty)) in H.
  change (0 + 4 + zlen (le_bytes 2 ty)) with (0 + 4 + 2) in H. rewrite (At_u32 _ _ _ _ Hsid H). cbn [cbind].
  destruct (Z.ltb_spec (zlen d) 4); [lia|].
  apply At_advance in H10. replace (10 + zlen body) with (zlen d - 4) in H10 by lia.
  rewrite <- (app_nil_r t) in H10.
  rewrite (At_u32 d _ _ _ (rnet_proto_checksum_range _) H10). cbn [cbind].
  replace (take (Z.to_nat (zlen d - 4)) d)
    with (le_bytes 4 magic ++ le_bytes 2 ty ++ le_bytes 4 sid ++ body).
  { by rewrite Z.eqb_refl. }
  rewrite Hd at 2. replace (Z.to_nat (zlen d - 4)) with
    (length (le_bytes 4 magic ++ le_bytes 2 ty ++ le_bytes 4 sid ++ body)).
  - by rewrite take_app_length.
  - rewrite !length_app, !length_le_bytes. unfold zlen in *. lia.
Qed.

Lemma msg_type_range m : in_u16 (msg_type m).
Proof. destruct m; vm_compute; split; congruence. Qed.

Lemma type_of_msg_packet sid m : p_type (msg_packet sid m) = msg_type m.
Proof. by destruct m. Qed.

Lemma decode_rb_epoch_end e p d : decode_rb_epoch e p d e = Ret (p, e).
Proof.
  unfold decode_rb_epoch, r_bind, cursor. destruct (rnet_proto_is_rb_control _); [|done].
  cbn [cbind]. rewrite Z.sub_diag, Z.eqb_refl. done.
Qed.

Lemma decode_packet_msg magic sid m : in_u32 magic -> in_u32 sid -> msg_ok m ->
  14 + zlen (msg_body m) < 18446744073709551616 ->
  rnet_proto_decode (packet_bytes magic (msg_type m) sid (msg_body m)) magic
  = Ret (msg_packet sid m).
Proof.
  intros Hmg Hsid Hm Hl. set (d := packet_bytes _ _ _ _).
  assert (zlen d = 14 + zlen (msg_body m)) as Hz by apply zlen_packet_bytes.
  destruct (decode_packet_bytes magic (msg_type m) sid (msg_body m))
    as (t & Ht & Hat & Heq); [done|apply msg_type_range|done|].
  fold d in Hat, Heq. rewrite Heq.
  rewrite (decode_body_msg d [] t _ eq_refl ltac:(lia) Ht m sid Hm Hat (fun _ => eq_refl)).
  cbn [cbind]. replace (10 + zlen (msg_body m)) with (zlen d - 4) by lia.
  by rewrite decode_rb_epoch_end.
Qed.

(** The body of every message fits a packet. *)
Lemma msg_body_bound m : msg_ok m -> 14 + zlen (msg_body m) <= RNET_MAX_PACKET.
Proof.
  intros Hm. destruct m; cbn [msg_ok msg_body] in *; destruct_and?; consts;
    try (unfold input_bytes; pose proof (zlen_frames_bytes _ ltac:(eassumption)));
    rewrite ?zlen_app, ?zlen_acks_bytes, ?zlen_rows_bytes; zl.
Qed.

(** C27. Round trip: every message a sender can form with arguments in range
    is encoded into at most [RNET_MAX_PACKET] bytes, and the receiver with the
    same magic decodes exactly the fields that were sent. *)
Theorem decode_encode_msg m magic sid cap :
  in_u32 magic -> in_u32 sid -> msg_ok m -> RNET_MAX_PACKET <= cap ->
  exists bs, encode_msg cap magic sid m = Ret bs /\ zlen bs <= RNET_MAX_PACKET /\
    rnet_proto_decode bs magic = Ret (msg_packet sid m).
Proof.
  intros Hmg Hsid Hm Hcap. pose proof (msg_body_bound m Hm) as Hb.
  exists (packet_bytes magic (msg_type m) sid (msg_body m)). consts. split_and!.
  - by apply encode_msg_bytes.
  - rewrite zlen_packet_bytes. lia.
  - apply decode_packet_msg; auto. lia.
Qed.

Definition sample_frames : list RNetWireFrame :=
  [mkWireFrame 7 3 (padded 32 [1; 2; 3]); mkWireFrame 8 3 (padded 32 [4; 5; 6])].

Lemma decode_encode_msg_witness :
  exists bs, encode_msg 1200 305419896 42 (MInputAcks 1 3 6 sample_frames [5; 6; 7]) = Ret bs /\
    zlen bs <= RNET_MAX_PACKET /\
    rnet_proto_decode bs 305419896 = Ret (msg_packet 42 (MInputAcks 1 3 6 sample_frames [5; 6; 7])).
Proof.
  apply (decode_encode_msg (MInputAcks 1 3 6 sample_frames [5; 6; 7]) 305419896 42 1200);
    ranges; consts; try lia.
  cbn [msg_ok]. ranges; consts. unfold zlen, sample_frames; simpl length. split_and!; try lia.
  - apply Forall_cons; split; [|apply Forall_cons; split; [|constructor]];
      (split; [ranges; cbn; lia|split; [consts; cbn; lia|]]);
      [exists [1; 2; 3]|exists [4; 5; 6]]; split; reflexivity.
  - repeat constructor; ranges; lia.
Defined.

(** C28. Memory safety of the decoder: on any datagram that has room for the
    header and the trailer, the decoder reads only bytes of the datagram, and
    an accepted packet has every count and size within the arrays of
    [RNetDecodedPacket]. *)
Theorem decode_in_bounds data magic : 14 <= zlen data <= RNET_MAX_PACKET -> Forall in_u8 data ->
  rnet_proto_decode data magic <> Oob /\
  forall p, rnet_proto_decode data magic = Ret p -> packet_wf p.
Proof.
  intros Hl Hd. consts. pose proof (decode_spec data magic ltac:(lia) Hd) as H.
  destruct (rnet_proto_decode data magic); [|done..]. split; [done|]. by intros ? [= ->].
Qed.

Lemma decode_in_bounds_witness :
  rnet_proto_decode (replicate 20 7) 1 <> Oob /\
  forall p, rnet_proto_decode (replicate 20 7) 1 = Ret p -> packet_wf p.
Proof.
  apply decode_in_bounds; [vm_compute; split; congruence|].
  apply Forall_replicate. ranges; lia.
Defined.

Lemma decode_rejects_one_byte_corruption_witness :
  let d := packet_bytes 9 RNET_PKT_START 5 (le_bytes 4 100) in
  d = take 11 d ++ 0 :: drop 12 d /\ rnet_proto_decode (take 11 d ++ 1 :: drop 12 d) 9 = Fail.
Proof.
  split; [reflexivity|].
  apply (decode_rejects_one_byte_corruption _ 0 _ 1 9 (msg_packet 5 (MStart 100))).
  - vm_compute. repeat constructor; congruence.
  - ranges; lia.
  - lia.
  - vm_compute. reflexivity.
Defined.

(** C40. The decoder admits datagrams shorter than header plus trailer: for
    every magic the 10-byte datagram of a HELLO whose session id doubles as
    the checksum passes all tests, the unsigned length [end - c] wraps, and
    the decoder reads past the datagram. *)
Theorem decode_short_overread magic : in_u32 magic ->
  exists data, zlen data = 10 /\ Forall in_u8 data /\ rnet_proto_decode data magic = Oob.
Proof.
  intros Hm. set (b := le_bytes 4 magic ++ le_bytes 2 RNET_PKT_HELLO).
  exists (b ++ trailer b). set (d := b ++ trailer b).
  assert (zlen d = 10) as Hz by done.
  split_and!; [done|by repeat (apply Forall_app; split); apply le_bytes_range|].
  assert (At d 0 (le_bytes 4 magic ++ le_bytes 2 RNET_PKT_HELLO ++ trailer b ++ [])) as H0.
  { split; [rewrite Hz; lia|]. unfold d, b. by rewrite app_nil_r, <- !app_assoc. }
  pose proof (At_advance _ _ _ _ H0) as H4. pose proof (At_advance _ _ _ _ H4) as H6.
  assert (in_u32 (rnet_proto_checksum b)) as Hc by apply rnet_proto_checksum_range.
  unfold rnet_proto_decode. rewrite Hz. cbv beta iota zeta. simpl (10 <? _). cbv iota.
  rewrite (At_u32 d 0 _ _ Hm H0). cbn [cbind]. rewrite Z.eqb_refl. cbn [negb].
  rewrite (At_u16 d (0 + 4) RNET_PKT_HELLO _ ltac:(ranges; unfold RNET_PKT_HELLO; lia) H4). cbn [cbind].
  rewrite (At_u32 d (0 + 4 + 2) _ _ Hc H6). cbn [cbind].
  change (10 - 4) with (0 + 4 + 2). rewrite (At_u32 d (0 + 4 + 2) _ _ Hc H6). cbn [cbind].
  change (take (Z.to_nat (0 + 4 + 2)) d) with b. rewrite Z.eqb_refl. cbn [negb]. reflexivity.
Qed.

Lemma decode_short_overread_witness :
  exists data, zlen data = 10 /\ Forall in_u8 data /\ rnet_proto_decode data 1380861268 = Oob.
Proof. apply decode_short_overread. ranges; lia. Defined.

(** ** The generation tag of rollback-control packets *)

Lemma tag_packet_bytes magic ty sid body cap ep : 16 + zlen body <= cap ->
  rnet_proto_tag_rb_epoch (packet_bytes magic ty sid body) cap ep
  = Ret (packet_bytes magic ty sid (body ++ le_bytes 2 ep)).
Proof.
  intros Hc. unfold rnet_proto_tag_rb_epoch. rewrite zlen_packet_bytes.
  pose proof (zlen_nonneg body).
  destruct (Z.ltb_spec (14 + zlen body) 14); [lia|].
  destruct (Z.ltb_spec cap (14 + zlen body + 2)); [lia|]. cbn [orb].
  unfold packet_bytes at 1. rewrite w_back_app by done. wexec.
Qed.

Lemma rb_body_bound m : msg_ok m -> rnet_proto_is_rb_control (msg_type m) = true ->
  zlen (msg_body m) <= 300.
Proof.
  intros Hm Hrb. destruct m; try discriminate Hrb; cbn [msg_ok msg_body] in *; destruct_and?;
    consts; rewrite ?zlen_app, ?zlen_rows_bytes; zl.
Qed.

(** Generation tag: tagging a rollback-control packet with a 16-bit
    generation gives a packet that decodes to the same fields plus that
    generation; the untagged packet decodes with generation 0. *)
Theorem decode_tagged_msg m magic sid ep cap :
  in_u32 magic -> in_u32 sid -> msg_ok m -> in_u16 ep -> RNET_MAX_PACKET <= cap ->
  rnet_proto_is_rb_control (msg_type m) = true ->
  exists bs tagged, encode_msg cap magic sid m = Ret bs /\
    rnet_proto_tag_rb_epoch bs cap ep = Ret tagged /\
    rnet_proto_decode tagged magic = Ret (set_p_input_epoch ep (msg_packet sid m)) /\
    p_input_epoch (msg_packet sid m) = 0.
Proof.
  intros Hmg Hsid Hm Hep Hcap Hrb. pose proof (rb_body_bound m Hm Hrb) as Hb. consts.
  exists (packet_bytes magic (msg_type m) sid (msg_body m)),
    (packet_bytes magic (msg_type m) sid (msg_body m ++ le_bytes 2 ep)).
  set (d := packet_bytes _ _ _ (_ ++ _)).
  assert (zlen d = 16 + zlen (msg_body m)) as Hz
    by (unfold d; rewrite zlen_packet_bytes, zlen_app, zlen_le_bytes; lia).
  split_and!.
  - by apply encode_msg_bytes.
  - apply tag_packet_bytes. lia.
  - destruct (decode_packet_bytes magic (msg_type m) sid (msg_body m ++ le_bytes 2 ep))
      as (t & Ht & Hat & Heq); [done|apply msg_type_range|done|].
    fold d in Hat, Heq. rewrite Heq. rewrite <- app_assoc in Hat.
    rewrite (decode_body_msg d (le_bytes 2 ep) t _ eq_refl ltac:(lia) Ht m sid Hm Hat).
    2: { intros E. by rewrite E in Hrb. }
    cbn [cbind]. unfold decode_rb_epoch. rewrite type_of_msg_packet, Hrb.
    unfold cursor, r_bind at 1. cbn [cbind].
    replace (zlen d - 4 - (10 + zlen (msg_body m)) =? 2) with true by (symmetry; apply Z.eqb_eq; lia).
    apply At_advance in Hat. unfold r_bind. by rewrite (At_u16 _ _ _ _ Hep Hat).
  - destruct m; try discriminate Hrb; done.
Qed.

Lemma decode_tagged_msg_witness :
  exists bs tagged, encode_msg 1200 77 5 (MRbResolved 1 900) = Ret bs /\
    rnet_proto_tag_rb_epoch bs 1200 513 = Ret tagged /\
    rnet_proto_decode tagged 77 = Ret (set_p_input_epoch 513 (msg_packet 5 (MRbResolved 1 900))) /\
    p_input_epoch (msg_packet 5 (MRbResolved 1 900)) = 0.
Proof.
  apply (decode_tagged_msg (MRbResolved 1 900) 77 5 513 1200); cbn [msg_ok]; ranges; consts;
    try lia; reflexivity.
Defined.

(** ** Encoders stay inside the caller's buffer *)

Lemma finish_not_Oob cap out : finish_packet cap out <> Oob.
Proof.
  unfold finish_packet. destruct (Z.ltb_spec cap (zlen out + 4)); [done|].
  rewrite write_u32_le. unfold put. rewrite zlen_le_bytes.
  destruct (Z.leb_spec (zlen out + Z.of_nat 4) cap); [done|lia].
Qed.
#[local] Hint Resolve finish_not_Oob : rnet.

(** The frame loop checks the room for each frame before it writes it. *)
Lemma write_frames_not_Oob n fs w cap out : (n <= length fs)%nat ->
  Forall (fun f => length (wf_bytes f) = 32%nat /\ 0 <= wf_size f) fs ->
  (forall out', w cap out' <> Oob) -> (write_frames n fs >>> w) cap out <> Oob.
Proof.
  intros Hn Hfs Hw. revert n out Hn. induction Hfs as [|f fs [Hb Hs] Hfs IH]; intros n out Hn.
  - destruct n; [apply Hw|simpl in Hn; lia].
  - destruct n as [|n]; [apply Hw|]. cbn [write_frames].
    destruct (RNET_INPUT_MAX <? wf_size f) eqn:E1.
    { by rewrite seq_assoc. }
    rewrite seq_assoc, seq_reject by done. bool_prop. rewrite seq_assoc.
    destruct (cap <? zlen out + 4 + 2 + wf_size f + 4) eqn:E2.
    { unfold w_seq at 1, w_reject. by rewrite E2. }
    rewrite seq_reject by done. bool_prop. assert (zlen (wf_bytes f) = 32) by (unfold zlen; lia).
    wrun. apply IH. simpl in Hn. lia.
Qed.

(** Arguments whose arrays have the sizes their C types declare. *)
Definition msg_shaped (m : wire_msg) : Prop :=
  match m with
  | MInput _ _ _ fs | MInputAcks _ _ _ fs _ =>
      Forall (fun f => length (wf_bytes f) = 32%nat /\ 0 <= wf_size f) fs
  | _ => True
  end.

Lemma encode_input_not_Oob cap magic sid ls ep ack fs :
  Forall (fun f => length (wf_bytes f) = 32%nat /\ 0 <= wf_size f) fs ->
  rnet_proto_encode_input cap magic sid ls ep ack (Some fs) (zlen fs) <> Oob.
Proof.
  intros Hfs. unfold rnet_proto_encode_input. destruct (_ || _); [done|].
  destruct (Z.ltb_spec cap 32); [done|]. wrun. rewrite to_nat_zlen.
  apply write_frames_not_Oob; auto with rnet.
Qed.

Lemma encode_input_acks_not_Oob cap magic sid ls ep ack fs acks :
  Forall (fun f => length (wf_bytes f) = 32%nat /\ 0 <= wf_size f) fs ->
  rnet_proto_encode_input_acks cap magic sid ls ep ack (Some fs) (zlen fs) (Some acks) (zlen acks)
    <> Oob.
Proof.
  intros Hfs. unfold rnet_proto_encode_input_acks. destruct (_ || _); [done|].
  apply cbind_not_Oob; [by apply encode_input_not_Oob|]. intros pkt _.
  destruct (Z.ltb_spec cap (zlen pkt + 1 + 4 * zlen acks)); [done|].
  unfold w_back. unfold w_seq at 1. cbn [cbind].
  set (out := take _ pkt). assert (zlen out <= zlen pkt)
    by (unfold out, zlen; rewrite length_take; lia).
  pose proof (zlen_nonneg acks). wrun. rewrite to_nat_zlen.
  rewrite write_acks_ok by zl. auto with rnet.
Qed.

Lemma encode_chunk_not_Oob cap magic sid ls id off data :
  rnet_proto_encode_state_chunk cap magic sid ls id off (Some data) (zlen data) <> Oob.
Proof.
  unfold rnet_proto_encode_state_chunk. destruct (_ || _); [done|].
  pose proof (zlen_nonneg data). destruct (Z.ltb_spec cap (28 + zlen data)); [done|].
  wrun. auto with rnet.
Qed.

Lemma encode_modset_not_Oob cap magic sid ls text :
  rnet_proto_encode_modset cap magic sid ls (Some text) <> Oob.
Proof.
  unfold rnet_proto_encode_modset, clamped_len. cbn [default id]. pose proof (zlen_nonneg text).
  consts. set (n := Z.min _ _). assert (0 <= n <= zlen text) by lia.
  destruct (Z.ltb_spec cap (18 + n)); [done|]. wrun. auto with rnet.
Qed.

Lemma encode_modset_ack_not_Oob cap magic sid ls st text :
  rnet_proto_encode_modset_ack cap magic sid ls st (Some text) <> Oob.
Proof.
  unfold rnet_proto_encode_modset_ack, clamped_len. cbn [default id].
  pose proof (zlen_nonneg text).
  consts. set (n := Z.min _ _). assert (0 <= n <= zlen text) by lia.
  destruct (Z.ltb_spec cap (18 + n)); [done|]. wrun. auto with rnet.
Qed.

Lemma encode_seal_rows_not_Oob cap magic sid ls ep mm tg slot rb rows :
  34 + 9 * Z.min (zlen rows) RNET_RB_SEAL_ROWS_CHUNK_MAX <= cap ->
  rnet_proto_encode_rb_seal_rows cap magic sid ls ep mm tg slot rb (Some rows) (zlen rows) <> Oob.
Proof.
  intros Hc. unfold rnet_proto_encode_rb_seal_rows. cbn [default id]. consts.
  pose proof (zlen_nonneg rows).
  set (n := if 24 <? zlen rows then 24 else zlen rows).
  assert (n = Z.min (zlen rows) 24) by (unfold n; destruct (Z.ltb_spec 24 (zlen rows)); lia).
  wrun. assert (exists rows' rest, rows = rows' ++ rest /\ zlen rows' = n) as (r1 & r2 & -> & Hn).
  { exists (take (Z.to_nat n) rows), (drop (Z.to_nat n) rows). rewrite take_drop. split; [done|].
    unfold zlen in *. rewrite length_take. lia. }
  rewrite <- Hn, to_nat_zlen.
  assert (forall l k, write_rb_frames (length l) (l ++ k) = write_rb_frames (length l) l) as ->.
  { intros l k. induction l as [|f l IH]; simpl; [by destruct k|by rewrite IH]. }
  rewrite write_rows_ok by zl. auto with rnet.
Qed.

(** Encoder bounds: no encoder writes outside a buffer of [cap] bytes,
    whatever [cap] is and whatever the argument values are; the seal-row
    encoder, which has no test of its own before the trailer, needs room for
    the rows it writes. *)
Theorem encode_in_bounds m cap magic sid : msg_shaped m ->
  (forall ls ep mm tg slot rb rows, m = MRbSealRows ls ep mm tg slot rb rows ->
     34 + 9 * Z.min (zlen rows) RNET_RB_SEAL_ROWS_CHUNK_MAX <= cap) ->
  encode_msg cap magic sid m <> Oob.
Proof.
  intros Hs Hrows. destruct m; cbn [encode_msg msg_shaped] in *;
    auto using encode_input_not_Oob, encode_input_acks_not_Oob, encode_chunk_not_Oob,
      encode_modset_not_Oob, encode_modset_ack_not_Oob.
  all: try (apply encode_seal_rows_not_Oob; by eapply Hrows).
  all: lazymatch goal with |- ?t <> _ => let rec hd u := lazymatch u with ?f _ => hd f | ?f => f end in
         let h := hd t in unfold h end.
  all: match goal with |- context [?a <? ?b] => destruct (Z.ltb_spec a b); [done|] end.
  all: wrun; auto with rnet.
Qed.

Lemma encode_in_bounds_witness :
  encode_msg 40 7 9 (MRbSealRows 0 1 10 12 1 0 []) <> Oob /\ encode_msg 20 7 9 (MBye 1) <> Oob.
Proof.
  split; apply encode_in_bounds; try exact I; intros * H; try discriminate.
  injection H as <- <- <- <- <- <- <-. vm_compute. congruence.
Defined.
