(* ===== verification/Contract.v ===== *)
(** * Input-replace contract (src/input/rnet_input_contract.c)

    The pure decision between a published input row and the authoritative row
    that arrives late: rewind, or promote the wire row into history.

    A host gate is a function pointer that may be NULL: an [option]. Gates
    are queried lazily and hosts may count or log in them, so the decision
    returns the list of gates it called, in order, beside its verdict. *)

From stdpp Require Import base list numbers.
From S2P Require Import Prelude.

(** ** Data *)

Record RNetInputContractFrame := mkContractFrame {
  cf_tick : Z;
  cf_buttons : Z;
  cf_stick_x : Z;
  cf_stick_y : Z;
  cf_is_predicted : Z
}.

Record RNetInputContractParams := mkParams {
  confirmed_deadband : Z;
  predict_deadband : Z;
  micro_deadband : Z;
  continuity_deadband : Z;
  analog_min_mag : Z;
  same_intent_min_active : Z;
  same_intent_tolerance : Z;
  onset_facing_thresh : Z;
  onset_large_delta : Z;
  dash_gate_min : Z;
  digital_axis_mag : Z
}.

(** Each gate holds what its callback returns for this decision. *)
Record RNetInputContractHostGates := mkGates {
  equal_predicted_force_rewind : option Z;
  absorb_stick_replace : option Z;
  protect_promote : option (Z -> Z -> Z -> Z -> Z);
  block_deadband_promote : option Z;
  hash_confirm_promote : option Z;
  defer_predicted_correction : option Z
}.

Inductive RNetInputContractDecision : Set :=
| Rewind
| RewindEqualDeferred
| PromoteEqual
| PromoteAbsorb
| PromoteProtect
| PromoteMicro
| PromoteContinuity
| PromoteHashConfirm
| PromoteDefer
| PromoteInsignificant.

Inductive RNetInputContractCorrectionClass : Set :=
| ClassButton
| ClassRelease
| ClassOnsetFromZero
| ClassMicroStick
| ClassSameIntentContinuity
| ClassRealStick.

Inductive gate_call : Set :=
| CallEqualForce
| CallAbsorb
| CallProtect (dx dy micro predicted : Z)
| CallBlock
| CallHashConfirm
| CallDefer.

#[export] Instance decision_eq_dec : EqDecision RNetInputContractDecision.
Proof. solve_decision. Defined.
#[export] Instance class_eq_dec : EqDecision RNetInputContractCorrectionClass.
Proof. solve_decision. Defined.

(** ** Operations *)

Definition rnet_input_contract_params_init_defaults : RNetInputContractParams :=
  mkParams 12 14 3 12 12 8 14 4 40 56 85.

Definition rnet_input_contract_decision_is_rewind (d : RNetInputContractDecision) : bool :=
  match d with Rewind | RewindEqualDeferred => true | _ => false end.

(** Differences of two 8-bit values do not overflow 32 bits. *)
Definition abs_s8_diff (a b : Z) : Z :=
  let d := a - b in if d <? 0 then - d else d.

Definition stick_sign (axis : Z) : Z :=
  if 0 <? axis then 1 else if axis <? 0 then -1 else 0.

Definition stick_axis_is_digital (axis : Z) (params : RNetInputContractParams) : bool :=
  if digital_axis_mag params =? 0 then false
  else (axis =? digital_axis_mag params) || (axis =? s8 (- digital_axis_mag params)).

Definition sticks_near_neutral (frame : RNetInputContractFrame) (deadband : Z) : bool :=
  (abs_s8_diff (cf_stick_x frame) 0 <=? s32 deadband) &&
  (abs_s8_diff (cf_stick_y frame) 0 <=? s32 deadband).

Definition rnet_input_contract_stick_looks_analog (stick_x stick_y : Z)
    (params : RNetInputContractParams) : bool :=
  if (abs_s8_diff stick_x 0 <=? s32 (analog_min_mag params)) &&
     (abs_s8_diff stick_y 0 <=? s32 (analog_min_mag params))
  then false
  else if stick_axis_is_digital stick_x params || stick_axis_is_digital stick_y params
  then false
  else true.

(** One axis of the same-intent test. *)
Definition axis_conflict (min_active a b : Z) : bool :=
  ((min_active <=? abs_s8_diff a 0) || (min_active <=? abs_s8_diff b 0)) &&
  ((min_active <=? abs_s8_diff a 0) && (min_active <=? abs_s8_diff b 0) &&
   negb (stick_sign a =? stick_sign b)).

Definition rnet_input_contract_stick_same_analog_intent (ax ay bx by_ : Z)
    (params : RNetInputContractParams) : bool :=
  if negb (rnet_input_contract_stick_looks_analog ax ay params) ||
     negb (rnet_input_contract_stick_looks_analog bx by_ params)
  then false
  else
    let min_active := s32 (same_intent_min_active params) in
    if axis_conflict min_active ax bx then false
    else if axis_conflict min_active ay by_ then false
    else true.

Definition stick_dash_gate_active_x (stick_x : Z) (params : RNetInputContractParams) : bool :=
  dash_gate_min params <=? abs_s8_diff stick_x 0.

Definition rnet_input_contract_stick_dash_gate_disagree_x (hold_x wire_x : Z)
    (params : RNetInputContractParams) : bool :=
  if dash_gate_min params <=? 0 then false
  else
    let hold_dash := stick_dash_gate_active_x hold_x params in
    let wire_dash := stick_dash_gate_active_x wire_x params in
    if negb (eqb hold_dash wire_dash) then true
    else
      let hold_sign := stick_sign hold_x in
      let wire_sign := stick_sign wire_x in
      if hold_dash && negb (hold_sign =? 0) && negb (wire_sign =? 0) &&
         negb (hold_sign =? wire_sign)
      then true
      else false.

(** The larger of the two axis magnitudes. *)
Definition stick_mag (f : RNetInputContractFrame) : Z :=
  let m := abs_s8_diff (cf_stick_x f) 0 in
  if m <? abs_s8_diff (cf_stick_y f) 0 then abs_s8_diff (cf_stick_y f) 0 else m.

(** [wire_mag + (int32_t)confirmed_db] is written with the wrap of the
    [int32_t] sum. *)
Definition rnet_input_contract_stick_replace_is_release (old_frame wire : RNetInputContractFrame)
    (params : RNetInputContractParams) : bool :=
  let confirmed_db := confirmed_deadband params in
  if sticks_near_neutral old_frame confirmed_db then false
  else if sticks_near_neutral wire confirmed_db then true
  else s32 (stick_mag wire + s32 confirmed_db) <? stick_mag old_frame.

Definition false_digital_heuristic_mismatch (published remote : RNetInputContractFrame)
    (params : RNetInputContractParams) : bool :=
  let weak_thresh := 25 in
  if stick_axis_is_digital (cf_stick_y published) params &&
     negb (stick_axis_is_digital (cf_stick_y remote) params) &&
     (abs_s8_diff (cf_stick_x published) 0 <=? 14) &&
     (abs_s8_diff (cf_stick_x remote) 0 <=? 14) &&
     (abs_s8_diff (cf_stick_y remote) 0 <=? weak_thresh)
  then true
  else if stick_axis_is_digital (cf_stick_x published) params &&
     negb (stick_axis_is_digital (cf_stick_x remote) params) &&
     (abs_s8_diff (cf_stick_y published) 0 <=? 14) &&
     (abs_s8_diff (cf_stick_y remote) 0 <=? 14) &&
     (abs_s8_diff (cf_stick_x remote) 0 <=? weak_thresh)
  then true
  else false.

Definition rnet_input_contract_correction_is_significant
    (old_frame new_frame : RNetInputContractFrame) (correction_is_predicted : Z)
    (params : RNetInputContractParams) : bool :=
  if negb (cf_buttons old_frame =? cf_buttons new_frame) then true else
  if nz correction_is_predicted &&
     false_digital_heuristic_mismatch old_frame new_frame params then false else
  let deadband := if nz correction_is_predicted then predict_deadband params
                  else confirmed_deadband params in
  let facing_thresh := onset_facing_thresh params in
  let large_delta := onset_large_delta params in
  let dx := abs_s8_diff (cf_stick_x old_frame) (cf_stick_x new_frame) in
  let dy := abs_s8_diff (cf_stick_y old_frame) (cf_stick_y new_frame) in
  if sticks_near_neutral old_frame deadband && negb (sticks_near_neutral new_frame deadband)
  then true else
  if sticks_near_neutral old_frame deadband &&
     ((25 <? abs_s8_diff (cf_stick_x new_frame) 0) || (25 <? abs_s8_diff (cf_stick_y new_frame) 0))
  then true else
  if (s32 facing_thresh <? abs_s8_diff (cf_stick_x old_frame) 0) &&
     (s32 facing_thresh <? abs_s8_diff (cf_stick_x new_frame) 0) &&
     negb (stick_sign (cf_stick_x old_frame) =? stick_sign (cf_stick_x new_frame))
  then true else
  if s32 large_delta <? dx then true else
  if s32 large_delta <? dy then true else
  if deadband =? 0 then
    negb (cf_stick_x old_frame =? cf_stick_x new_frame) ||
    negb (cf_stick_y old_frame =? cf_stick_y new_frame)
  else
  if s32 deadband <? dx then true else
  if s32 deadband <? dy then true else
  if nz correction_is_predicted && negb (sticks_near_neutral old_frame deadband) &&
     negb (sticks_near_neutral new_frame deadband) &&
     rnet_input_contract_stick_same_analog_intent (cf_stick_x old_frame) (cf_stick_y old_frame)
       (cf_stick_x new_frame) (cf_stick_y new_frame) params
  then
    let same_intent_tol := same_intent_tolerance params in
    if (dx <=? s32 same_intent_tol) && (dy <=? s32 same_intent_tol) then false else false
  else false.

Definition rnet_input_contract_classify_correction (old_frame wire : RNetInputContractFrame)
    (params : RNetInputContractParams) : RNetInputContractCorrectionClass :=
  if negb (cf_buttons old_frame =? cf_buttons wire) then ClassButton else
  if rnet_input_contract_stick_replace_is_release old_frame wire params then ClassRelease else
  if sticks_near_neutral old_frame (predict_deadband params) &&
     negb (sticks_near_neutral wire (predict_deadband params)) then ClassOnsetFromZero else
  let micro_db := micro_deadband params in
  let continuity_db := continuity_deadband params in
  let dx := abs_s8_diff (cf_stick_x old_frame) (cf_stick_x wire) in
  let dy := abs_s8_diff (cf_stick_y old_frame) (cf_stick_y wire) in
  if rnet_input_contract_stick_looks_analog (cf_stick_x old_frame) (cf_stick_y old_frame) params &&
     rnet_input_contract_stick_looks_analog (cf_stick_x wire) (cf_stick_y wire) params &&
     rnet_input_contract_stick_same_analog_intent (cf_stick_x old_frame) (cf_stick_y old_frame)
       (cf_stick_x wire) (cf_stick_y wire) params
  then
    if (0 <? micro_db) && (dx <=? s32 micro_db) && (dy <=? s32 micro_db) then ClassMicroStick
    else if (micro_db <? continuity_db) && (dx <=? s32 continuity_db) && (dy <=? s32 continuity_db)
    then ClassSameIntentContinuity
    else ClassRealStick
  else ClassRealStick.

Definition frame_gameplay_equals (a b : RNetInputContractFrame) : bool :=
  (cf_tick a =? cf_tick b) && (cf_buttons a =? cf_buttons b) &&
  (cf_stick_x a =? cf_stick_x b) && (cf_stick_y a =? cf_stick_y b).

(** ** The decision, with the gates it queries *)

Definition ask {G} (gates : option RNetInputContractHostGates)
    (field : RNetInputContractHostGates -> option G) (call : G -> Z) (c : gate_call)
  : bool * list gate_call :=
  match gates with
  | None => (false, [])
  | Some g => match field g with
              | None => (false, [])
              | Some f => (nz (call f), [c])
              end
  end.

(** [if (cond && gate()) then a else b], the gate queried only under [cond]. *)
Definition gate_if (cond : bool) (q : bool * list gate_call)
    (yes no : RNetInputContractDecision * list gate_call)
  : RNetInputContractDecision * list gate_call :=
  if cond then
    let r := if fst q then yes else no in (fst r, snd q ++ snd r)
  else no.

(** The same-intent window of the completed-sim path. *)
Definition decide_same_intent (published wire : RNetInputContractFrame)
    (params : RNetInputContractParams) (gates : option RNetInputContractHostGates)
  : RNetInputContractDecision * list gate_call :=
  let micro_db := micro_deadband params in
  let continuity_db := continuity_deadband params in
  let dx := abs_s8_diff (cf_stick_x published) (cf_stick_x wire) in
  let dy := abs_s8_diff (cf_stick_y published) (cf_stick_y wire) in
  gate_if true
    (ask gates protect_promote (fun f => f dx dy micro_db (cf_is_predicted published))
       (CallProtect dx dy micro_db (cf_is_predicted published)))
    (PromoteProtect, [])
    (gate_if true (ask gates block_deadband_promote id CallBlock)
      (Rewind, [])
      (if negb (nz (cf_is_predicted published)) then
         if (0 <? micro_db) && (dx <=? s32 micro_db) && (dy <=? s32 micro_db)
         then (PromoteMicro, [])
         else if (micro_db <? continuity_db) && (dx <=? s32 continuity_db) &&
                 (dy <=? s32 continuity_db)
         then (PromoteContinuity, [])
         else (Rewind, [])
       else gate_if ((dx <=? s32 continuity_db) && (dy <=? s32 continuity_db))
              (ask gates hash_confirm_promote id CallHashConfirm)
              (PromoteHashConfirm, []) (Rewind, []))).

Definition decide_completed (published wire : RNetInputContractFrame)
    (params : RNetInputContractParams) (gates : option RNetInputContractHostGates)
  : RNetInputContractDecision * list gate_call :=
  if negb (cf_buttons published =? cf_buttons wire) then (Rewind, []) else
  if rnet_input_contract_stick_replace_is_release published wire params then (Rewind, []) else
  if rnet_input_contract_stick_looks_analog (cf_stick_x published) (cf_stick_y published) params &&
     rnet_input_contract_stick_looks_analog (cf_stick_x wire) (cf_stick_y wire) params &&
     rnet_input_contract_stick_same_analog_intent (cf_stick_x published) (cf_stick_y published)
       (cf_stick_x wire) (cf_stick_y wire) params &&
     negb (rnet_input_contract_stick_dash_gate_disagree_x (cf_stick_x published)
             (cf_stick_x wire) params)
  then decide_same_intent published wire params gates
  else (Rewind, []).

Definition decide_runway (published wire : RNetInputContractFrame)
    (params : RNetInputContractParams) (gates : option RNetInputContractHostGates)
  : RNetInputContractDecision * list gate_call :=
  if rnet_input_contract_stick_replace_is_release published wire params then (Rewind, []) else
  gate_if true (ask gates defer_predicted_correction id CallDefer)
    (PromoteDefer, [])
    (if rnet_input_contract_correction_is_significant published wire 0 params
     then (Rewind, []) else (PromoteInsignificant, [])).

Definition rnet_input_contract_stick_replace_decide (published wire : RNetInputContractFrame)
    (completed_sim : Z) (params : RNetInputContractParams)
    (gates : option RNetInputContractHostGates) : RNetInputContractDecision * list gate_call :=
  if frame_gameplay_equals published wire then
    gate_if (nz (cf_is_predicted published))
      (ask gates equal_predicted_force_rewind id CallEqualForce)
      (RewindEqualDeferred, []) (PromoteEqual, [])
  else
    gate_if (cf_buttons published =? cf_buttons wire)
      (ask gates absorb_stick_replace id CallAbsorb)
      (PromoteAbsorb, [])
      (if nz completed_sim then decide_completed published wire params gates
       else decide_runway published wire params gates).

(** ** Properties *)

(** Thresholds as hosts configure them: far from the [int32_t] limits. *)
Definition params_sane (p : RNetInputContractParams) : Prop :=
  0 <= confirmed_deadband p < 1073741824 /\ 0 <= micro_deadband p < 1073741824 /\
  0 <= continuity_deadband p < 1073741824.

Definition sticks_ok (f : RNetInputContractFrame) : Prop :=
  in_s8 (cf_stick_x f) /\ in_s8 (cf_stick_y f).

Lemma s32_id x : in_s32 x -> s32 x = x.
Proof.
  intros H. ranges. unfold s32, u32.
  destruct (Z.ltb_spec (x mod 4294967296) 2147483648); Z.div_mod_to_equations; lia.
Qed.

Lemma stick_mag_range f : sticks_ok f -> 0 <= stick_mag f <= 128.
Proof.
  intros [Hx Hy]. unfold stick_mag, abs_s8_diff. ranges.
  repeat match goal with |- context [?a <? ?b] => destruct (Z.ltb_spec a b) end; lia.
Qed.

(** A release is a difference of the sticks. *)
Lemma release_not_equal f g p : params_sane p -> sticks_ok g ->
  rnet_input_contract_stick_replace_is_release f g p = true -> frame_gameplay_equals f g = false.
Proof.
  intros (Hc & _ & _) Hg Hr. unfold frame_gameplay_equals.
  destruct (Z.eqb_spec (cf_stick_x f) (cf_stick_x g)) as [Ex|]; [|by rewrite !andb_false_r].
  destruct (Z.eqb_spec (cf_stick_y f) (cf_stick_y g)) as [Ey|]; [|by rewrite !andb_false_r].
  exfalso. unfold rnet_input_contract_stick_replace_is_release in Hr.
  assert (sticks_near_neutral f (confirmed_deadband p) = sticks_near_neutral g (confirmed_deadband p))
    as En by (unfold sticks_near_neutral; by rewrite Ex, Ey).
  rewrite En in Hr. destruct (sticks_near_neutral g _); [done|].
  assert (stick_mag f = stick_mag g) as Em by (unfold stick_mag; by rewrite Ex, Ey).
  rewrite Em in Hr. pose proof (stick_mag_range g Hg).
  rewrite !s32_id in Hr by (rewrite ?s32_id; ranges; lia). bool_prop. lia.
Qed.

(** What the portable part of the code tests before any same-intent promote. *)
Definition same_intent_window (f g : RNetInputContractFrame) (p : RNetInputContractParams) : Prop :=
  cf_buttons f = cf_buttons g /\
  rnet_input_contract_stick_replace_is_release f g p = false /\
  rnet_input_contract_stick_same_analog_intent (cf_stick_x f) (cf_stick_y f)
    (cf_stick_x g) (cf_stick_y g) p = true /\
  rnet_input_contract_stick_dash_gate_disagree_x (cf_stick_x f) (cf_stick_x g) p = false.

(** Both axes of the two rows are within [db]. *)
Definition within (db : Z) (f g : RNetInputContractFrame) : Prop :=
  Z.abs (cf_stick_x f - cf_stick_x g) <= db /\ Z.abs (cf_stick_y f - cf_stick_y g) <= db.

Definition fires {G} (gates : option RNetInputContractHostGates)
    (field : RNetInputContractHostGates -> option G) (call : G -> Z) : Prop :=
  exists g f, gates = Some g /\ field g = Some f /\ call f <> 0.

(** The meaning of each verdict, on the completed-sim path or the runway. *)
Definition verdict_means (f g : RNetInputContractFrame) (completed : Z)
    (p : RNetInputContractParams) (gates : option RNetInputContractHostGates)
    (d : RNetInputContractDecision) : Prop :=
  let equal := frame_gameplay_equals f g = true in
  let differ := frame_gameplay_equals f g = false in
  let predicted := cf_is_predicted f <> 0 in
  match d with
  | Rewind => differ
  | RewindEqualDeferred => equal /\ predicted /\ fires gates equal_predicted_force_rewind id
  | PromoteEqual => equal
  | PromoteAbsorb => differ /\ cf_buttons f = cf_buttons g /\ fires gates absorb_stick_replace id
  | PromoteProtect =>
      differ /\ completed <> 0 /\ same_intent_window f g p /\
      exists dx dy, fires gates protect_promote
                      (fun h => h dx dy (micro_deadband p) (cf_is_predicted f))
  | PromoteMicro =>
      differ /\ completed <> 0 /\ same_intent_window f g p /\ ~ predicted /\
      within (micro_deadband p) f g
  | PromoteContinuity =>
      differ /\ completed <> 0 /\ same_intent_window f g p /\ ~ predicted /\
      within (continuity_deadband p) f g
  | PromoteHashConfirm =>
      differ /\ completed <> 0 /\ same_intent_window f g p /\ predicted /\
      within (continuity_deadband p) f g /\ fires gates hash_confirm_promote id
  | PromoteDefer =>
      differ /\ completed = 0 /\ rnet_input_contract_stick_replace_is_release f g p = false /\
      fires gates defer_predicted_correction id
  | PromoteInsignificant =>
      differ /\ completed = 0 /\ rnet_input_contract_stick_replace_is_release f g p = false /\
      cf_buttons f = cf_buttons g /\
      rnet_input_contract_correction_is_significant f g 0 p = false
  end.

Lemma ask_fires {G} gates (field : _ -> option G) call c :
  fst (ask gates field call c) = true -> fires gates field call.
Proof.
  unfold ask. destruct gates as [g|]; [|done]. destruct (field g) as [f|] eqn:E; [|done].
  simpl. intros H. unfold nz in H. bool_prop. by exists g, f.
Qed.

Lemma abs_s8_diff_abs a b : abs_s8_diff a b = Z.abs (a - b).
Proof. unfold abs_s8_diff. destruct (Z.ltb_spec (a - b) 0); lia. Qed.

Lemma within_intro db f g : 0 <= db < 1073741824 ->
  (abs_s8_diff (cf_stick_x f) (cf_stick_x g) <=? s32 db) = true ->
  (abs_s8_diff (cf_stick_y f) (cf_stick_y g) <=? s32 db) = true -> within db f g.
Proof.
  intros Hdb Hx Hy. rewrite s32_id in Hx, Hy by (ranges; lia). bool_prop.
  rewrite abs_s8_diff_abs in *. done.
Qed.

(** A gate's answer decides between the two continuations. *)
Lemma gate_if_elim (P : RNetInputContractDecision -> Prop) cond q yes no :
  (cond = true -> fst q = true -> P (fst yes)) -> P (fst no) -> P (fst (gate_if cond q yes no)).
Proof. unfold gate_if. destruct cond; [|done]. destruct (fst q); simpl; auto. Qed.

Lemma nz_true x : nz x = true -> x <> 0.
Proof. unfold nz. intros H. by bool_prop. Qed.
Lemma nz_false x : nz x = false -> x = 0.
Proof. unfold nz. intros H. by bool_prop. Qed.

Section Verdict.
Context (f g : RNetInputContractFrame) (p : RNetInputContractParams).
Context (gates : option RNetInputContractHostGates) (Hp : params_sane p).
Context (Hne : frame_gameplay_equals f g = false).

Lemma decide_same_intent_means c : c <> 0 -> same_intent_window f g p ->
  verdict_means f g c p gates (fst (decide_same_intent f g p gates)).
Proof.
  intros Hc Hw. destruct Hp as (_ & Hmi & Hco). unfold decide_same_intent.
  apply gate_if_elim.
  { intros _ Hq. apply ask_fires in Hq. simpl. eauto 8. }
  apply gate_if_elim; [done|].
  destruct (nz (cf_is_predicted f)) eqn:Epr; cbn [negb].
  - apply gate_if_elim; [|done]. intros Hb Hq. apply ask_fires in Hq. bool_prop.
    simpl. split_and!; auto using nz_true. apply within_intro; try done; by apply Z.leb_le.
  - apply nz_false in Epr.
    destruct ((0 <? _) && _ && _) eqn:E1.
    { apply andb_prop in E1 as [[_ E1]%andb_prop E2]. simpl. split_and!; auto using within_intro. }
    match goal with |- context [if ?b then _ else _] => destruct b eqn:E2 end; [|exact Hne].
    apply andb_prop in E2 as [[_ E2]%andb_prop E3]. simpl. split_and!; auto using within_intro.
Qed.

Lemma decide_completed_means c : c <> 0 ->
  verdict_means f g c p gates (fst (decide_completed f g p gates)).
Proof.
  intros Hc. unfold decide_completed. destruct (cf_buttons f =? cf_buttons g) eqn:Eb; [|done].
  destruct (rnet_input_contract_stick_replace_is_release f g p) eqn:Er; [done|].
  cbn [negb]. match goal with |- context [if ?b then _ else _] => destruct b eqn:Ew end; [|done].
  bool_prop. apply decide_same_intent_means; [done|]. by split_and!.
Qed.

Lemma decide_runway_means c : c = 0 ->
  verdict_means f g c p gates (fst (decide_runway f g p gates)).
Proof.
  intros Hc. unfold decide_runway.
  destruct (rnet_input_contract_stick_replace_is_release f g p) eqn:Er; [done|].
  apply gate_if_elim.
  { intros _ Hq. apply ask_fires in Hq. done. }
  destruct (rnet_input_contract_correction_is_significant f g 0 p) eqn:Es; [done|].
  simpl. split_and!; try done.
  unfold rnet_input_contract_correction_is_significant in Es.
  destruct (Z.eqb_spec (cf_buttons f) (cf_buttons g)); done.
Qed.
End Verdict.

(** Decision table: whatever the rows, parameters and host gates, the
    verdict carries its documented meaning. A same-intent promote needs equal
    buttons, no release, no sign conflict and no dash-gate disagreement; the
    deadband promotes apply only to confirmed rows within the deadband; a
    predicted row is promoted only by an equal row, a firing host gate, or a
    hash-confirmed watermark within the continuity deadband. *)
Theorem contract_decide_sound f g completed p gates : params_sane p ->
  verdict_means f g completed p gates
    (fst (rnet_input_contract_stick_replace_decide f g completed p gates)).
Proof.
  intros Hp. unfold rnet_input_contract_stick_replace_decide.
  destruct (frame_gameplay_equals f g) eqn:Eeq.
  - apply gate_if_elim; [|done]. intros Hn Hq. apply ask_fires in Hq. simpl. auto using nz_true.
  - apply gate_if_elim.
    { intros Hb Hq. apply ask_fires in Hq. bool_prop. done. }
    destruct (nz completed) eqn:Ec.
    + apply decide_completed_means; auto using nz_true.
    + apply decide_runway_means; auto using nz_false.
Qed.

Lemma contract_decide_sound_witness :
  let f := mkContractFrame 5 0 60 0 0 in
  let g := mkContractFrame 5 0 62 1 0 in
  let p := rnet_input_contract_params_init_defaults in
  verdict_means f g 1 p None (fst (rnet_input_contract_stick_replace_decide f g 1 p None)) /\
  fst (rnet_input_contract_stick_replace_decide f g 1 p None) = PromoteMicro.
Proof.
  split; [|reflexivity]. apply contract_decide_sound. split_and!; simpl; lia.
Defined.

(** Release: an analog stick that returns towards neutral always rewinds,
    on the completed-sim path and on the runway, unless the host's absorb
    gate claims the delta; in particular no deadband, defer or hash gate is
    consulted. *)
Theorem contract_release_rewinds f g completed p gates :
  params_sane p -> sticks_ok g ->
  rnet_input_contract_stick_replace_is_release f g p = true ->
  ~ fires gates absorb_stick_replace id ->
  fst (rnet_input_contract_stick_replace_decide f g completed p gates) = Rewind /\
  forall c, In c (snd (rnet_input_contract_stick_replace_decide f g completed p gates)) ->
    c = CallAbsorb.
Proof.
  intros Hp Hg Hr Hab. unfold rnet_input_contract_stick_replace_decide.
  rewrite (release_not_equal f g p Hp Hg Hr).
  assert (fst (ask gates absorb_stick_replace id CallAbsorb) = false) as Hq
    by (apply not_true_is_false; intros H; by apply ask_fires in H).
  assert (forall c, In c (snd (ask gates absorb_stick_replace id CallAbsorb)) -> c = CallAbsorb) as Hc.
  { unfold ask. destruct gates as [h|]; [|done]. destruct (absorb_stick_replace h); [|done].
    simpl. by intros c [<-|[]]. }
  assert ((if nz completed then decide_completed f g p gates else decide_runway f g p gates)
          = (Rewind, [])) as ->.
  { unfold decide_completed, decide_runway. rewrite Hr. by repeat case_match. }
  unfold gate_if. rewrite Hq. case_match; simpl; [rewrite app_nil_r|]; auto. done.
Qed.

Lemma contract_release_rewinds_witness :
  let f := mkContractFrame 5 0 60 0 1 in
  let g := mkContractFrame 5 0 3 0 0 in
  let p := rnet_input_contract_params_init_defaults in
  let hash_gate := Some (mkGates None None None None (Some 1) (Some 1)) in
  fst (rnet_input_contract_stick_replace_decide f g 0 p hash_gate) = Rewind /\
  forall c, In c (snd (rnet_input_contract_stick_replace_decide f g 0 p hash_gate)) ->
    c = CallAbsorb.
Proof.
  apply contract_release_rewinds.
  - split_and!; simpl; lia.
  - split; ranges; simpl; lia.
  - reflexivity.
  - intros (h & v & [= <-] & H & _). discriminate H.
Defined.

(** Gates run in the decision order, each at most once. *)
Definition gate_rank (c : gate_call) : Z :=
  match c with
  | CallEqualForce => 0 | CallAbsorb => 1 | CallProtect _ _ _ _ => 2
  | CallBlock => 3 | CallHashConfirm => 4 | CallDefer => 5
  end.

Fixpoint ranks_from (lo : Z) (l : list gate_call) : Prop :=
  match l with [] => True | c :: r => lo <= gate_rank c /\ ranks_from (gate_rank c + 1) r end.

Lemma gate_if_ranks lo cond q c yes no : lo <= gate_rank c ->
  snd q = [] \/ snd q = [c] ->
  ranks_from (gate_rank c + 1) (snd yes) -> ranks_from (gate_rank c + 1) (snd no) ->
  ranks_from lo (snd no) -> ranks_from lo (snd (gate_if cond q yes no)).
Proof.
  intros Hlo Hq Hy Hn Hn'. unfold gate_if. destruct cond; [|done].
  assert (forall l, ranks_from (gate_rank c + 1) l -> ranks_from lo l) as Hmono.
  { intros [|x l]; [done|]. simpl. intros [? ?]. split; [lia|done]. }
  destruct (fst q), Hq as [-> | ->]; simpl; auto.
Qed.

Lemma ask_calls {G} gates (field : _ -> option G) call c :
  snd (ask gates field call c) = [] \/ snd (ask gates field call c) = [c].
Proof. unfold ask. destruct gates as [g|]; [|auto]. destruct (field g); auto. Qed.

(** Lazy gates: the host gates a decision calls appear in the documented
    decision order and each is called at most once, so an implementation may
    count or log in them. *)
Theorem contract_gates_lazy f g completed p gates :
  ranks_from 0 (snd (rnet_input_contract_stick_replace_decide f g completed p gates)).
Proof.
  unfold rnet_input_contract_stick_replace_decide, decide_completed, decide_same_intent,
    decide_runway.
  repeat first
    [ exact I
    | match goal with |- context [match ?b with true => _ | false => _ end] =>
        lazymatch b with context [match _ with _ => _ end] => fail | _ => destruct b end end
    | eapply gate_if_ranks; [|apply ask_calls|..]; [simpl; lia|..] ].
Qed.

(** The significance test on rows whose buttons agree and whose sticks are
    within the deadband and on the same side. *)
Definition with_tolerance (t : Z) (p : RNetInputContractParams) : RNetInputContractParams :=
  mkParams (confirmed_deadband p) (predict_deadband p) (micro_deadband p) (continuity_deadband p)
    (analog_min_mag p) (same_intent_min_active p) t (onset_facing_thresh p)
    (onset_large_delta p) (dash_gate_min p) (digital_axis_mag p).

(** The parameter [same_intent_tolerance], documented as the predicted
    same-intent tolerance of the significance test, has no effect on it: both
    branches of the test that reads it return the same value. *)
Theorem contract_tolerance_has_no_effect t f g pred p :
  rnet_input_contract_correction_is_significant f g pred (with_tolerance t p)
  = rnet_input_contract_correction_is_significant f g pred p.
Proof.
  unfold rnet_input_contract_correction_is_significant. cbn [with_tolerance predict_deadband
    confirmed_deadband onset_facing_thresh onset_large_delta same_intent_tolerance].
  replace (false_digital_heuristic_mismatch f g (with_tolerance t p))
    with (false_digital_heuristic_mismatch f g p) by done.
  repeat (case_match; try done).
Qed.
