(* ===== verification/Config.v ===== *)
(** * Session configuration and input samples
    (include/recomp_net/config.h, include/recomp_net/input.h)

    The library never passes NULL for these pointers, so the NULL tests carry
    no counterpart. *)

From stdpp Require Import base list numbers.
From S2P Require Import Prelude.

Definition RNET_HISTORY_LENGTH : Z := 128.
Definition RNET_DEFAULT_BUNDLE_REDUNDANCY : Z := 3.
Definition MAX_SLOTS : Z := 8.

(** How a session moves its datagrams (include/recomp_net/transport.h). *)
Inductive RNetTransportMode : Set :=
| TRANSPORT_NONE | TRANSPORT_LAN_UDP | TRANSPORT_ICE | TRANSPORT_ICE_HUB.
#[export] Instance transport_mode_eq_dec : EqDecision RNetTransportMode.
Proof. solve_decision. Defined.

Record RNetConfig := mkConfig {
  cfg_slot_count : Z;
  cfg_local_slot : Z;
  cfg_wire_slot : Z;
  cfg_input_delay : Z;
  cfg_bundle_redundancy : Z;
  cfg_session_id : Z;
  cfg_protocol_magic : Z;
  cfg_occupied_mask : Z
}.

Definition eta_config (c : RNetConfig) : RNetConfig :=
  mkConfig (cfg_slot_count c) (cfg_local_slot c) (cfg_wire_slot c) (cfg_input_delay c)
    (cfg_bundle_redundancy c) (cfg_session_id c) (cfg_protocol_magic c) (cfg_occupied_mask c).
Definition set_cfg_input_delay := ltac:(updater eta_config cfg_input_delay).

Definition rnet_config_init_defaults : RNetConfig :=
  mkConfig 2 0 0 2 RNET_DEFAULT_BUNDLE_REDUNDANCY 1 1380861268 0.

Definition rnet_config_is_observer (cfg : RNetConfig) : bool :=
  cfg_slot_count cfg <=? cfg_local_slot cfg.

Definition rnet_config_wire_slot (cfg : RNetConfig) : Z :=
  if nz (cfg_wire_slot cfg) then cfg_wire_slot cfg else cfg_local_slot cfg.

Definition rnet_config_slot_occupied (cfg : RNetConfig) (slot : Z) : bool :=
  if (MAX_SLOTS <=? slot) || (cfg_slot_count cfg <=? slot) then false else
  let mask := cfg_occupied_mask cfg in
  let mask := if mask =? 0 then
                if 32 <=? cfg_slot_count cfg then UINT32_MAX
                else bit (cfg_slot_count cfg) - 1
              else mask in
  has_bit mask slot.

(** A pad sample: [is_bytes] is the whole array of [RNET_INPUT_MAX] bytes. *)
Record RNetInputSample := mkSample {
  is_tick : Z;
  is_size : Z;
  is_bytes : list Z;
  is_valid : Z
}.

Definition zero_sample : RNetInputSample := mkSample 0 0 (replicate 32 0) 0.

#[export] Instance sample_eq_dec : EqDecision RNetInputSample.
Proof. solve_decision. Defined.

Definition rnet_wire_tick_from_sim (sim_tick delay : Z) : Z := u32 (sim_tick + delay).
Definition rnet_sim_tick_from_wire (wire_tick delay : Z) : Z :=
  if wire_tick <? delay then 0 else wire_tick - delay.

(** ** Lemmas *)

Lemma ones_testbit n i : 0 <= i -> 0 <= n -> Z.testbit (bit n - 1) i = (i <? n).
Proof.
  intros Hi Hn. unfold bit. rewrite Z.shiftl_1_l.
  replace (2 ^ n - 1) with (Z.ones n) by (rewrite Z.ones_equiv; lia).
  destruct (Z.ltb_spec i n); [apply Z.ones_spec_low; lia|apply Z.ones_spec_high; lia].
Qed.

(** Every seat in range is occupied when no mask is given. *)
Lemma slot_occupied_no_mask cfg slot : cfg_occupied_mask cfg = 0 ->
  0 <= slot < cfg_slot_count cfg -> cfg_slot_count cfg <= MAX_SLOTS ->
  rnet_config_slot_occupied cfg slot = true.
Proof.
  intros Hm Hs Hn. unfold MAX_SLOTS in *. unfold rnet_config_slot_occupied, MAX_SLOTS. rewrite Hm.
  destruct (Z.leb_spec 8 slot); [lia|]. destruct (Z.leb_spec (cfg_slot_count cfg) slot); [lia|].
  simpl. destruct (Z.leb_spec 32 (cfg_slot_count cfg)); [lia|].
  rewrite has_bit_testbit, ones_testbit by lia. by apply Z.ltb_lt.
Qed.

Lemma slot_occupied_range cfg slot : rnet_config_slot_occupied cfg slot = true ->
  slot < MAX_SLOTS /\ slot < cfg_slot_count cfg.
Proof.
  unfold rnet_config_slot_occupied. destruct (_ || _) eqn:E; [done|]. bool_prop. done.
Qed.

(** The sender's tick mapping is inverted by the receiver's. *)
Lemma wire_sim_tick t d : in_u32 (t + d) -> 0 <= t -> 0 <= d ->
  rnet_sim_tick_from_wire (rnet_wire_tick_from_sim t d) d = t.
Proof.
  intros H Ht Hd. unfold rnet_wire_tick_from_sim, rnet_sim_tick_from_wire. rewrite u32_id by done.
  destruct (Z.ltb_spec (t + d) d); lia.
Qed.
