(* ===== verification/Rings.v ===== *)
(** * Input rings (src/input/rnet_rings.c)

    A ring holds the last [RNET_HISTORY_LENGTH] samples of one seat, slot
    [tick % RNET_HISTORY_LENGTH]. The class [TickStore] is what the ring (and
    the rollback input history) promises to its clients. *)

From stdpp Require Import base sets list numbers list_numbers.
From S2P Require Import Prelude Config.

(** ** Interface: a store of rows by tick over a sliding window *)

Class TickStore (S V : Type) := {
  ts_depth : Z;
  ts_ok : S -> Prop;
  ts_row : V -> Prop;
  ts_tick : V -> Z;
  ts_get : S -> Z -> option V;
  ts_put : S -> V -> S
}.

Class TickStoreLaws (S V : Type) `{TickStore S V} := {
  ts_depth_pos : 0 < ts_depth;
  ts_put_ok : forall s v, ts_ok s -> ts_row v -> ts_ok (ts_put s v);
  ts_get_tick : forall s t v, ts_get s t = Some v -> ts_tick v = t;
  ts_get_put : forall s v, ts_ok s -> ts_row v -> ts_get (ts_put s v) (ts_tick v) = Some v;
  ts_get_put_ne : forall s v t, ts_ok s -> ts_row v -> 0 <= t -> t <> ts_tick v ->
    Z.abs (t - ts_tick v) < ts_depth -> ts_get (ts_put s v) t = ts_get s t
}.

(** Putting a whole run of rows. *)
Definition ts_puts {S V} `{TickStore S V} (s : S) (vs : list V) : S := fold_left ts_put vs s.

Section Client.
Context {S V : Type} `{TickStoreLaws S V}.

Lemma ts_puts_ok (s : S) vs : ts_ok s -> Forall ts_row vs -> ts_ok (ts_puts s vs).
Proof.
  intros Hs Hv. revert s Hs. induction Hv; simpl; auto using ts_put_ok.
Qed.

(** A row stays readable under any later rows of other ticks within the
    window around it. *)
Lemma ts_puts_keep (s : S) vs t : ts_ok s -> 0 <= t ->
  Forall (fun v => ts_row v /\ ts_tick v <> t /\ Z.abs (t - ts_tick v) < ts_depth (S:=S)) vs ->
  ts_get (ts_puts s vs) t = ts_get s t.
Proof.
  intros Hs Ht Hv. revert s Hs. induction Hv as [|v vs (Hr & Hne & Hd) _ IH]; intros s Hs; [done|].
  simpl. rewrite IH by auto using ts_put_ok. apply ts_get_put_ne; auto.
Qed.

(** Any run of rows of distinct ticks no wider than the depth is readable
    in full after it was stored, in whatever order the rows came. *)
Lemma ts_window (s : S) vs v : ts_ok s -> Forall ts_row vs -> NoDup (map ts_tick vs) ->
  (forall a b, a ∈ vs -> b ∈ vs -> Z.abs (ts_tick a - ts_tick b) < ts_depth (S:=S)) ->
  v ∈ vs -> 0 <= ts_tick v -> ts_get (ts_puts s vs) (ts_tick v) = Some v.
Proof.
  intros Hs Hr Hnd Hw Hin Hpos.
  apply list_elem_of_split in Hin as (l1 & l2 & ->).
  unfold ts_puts. rewrite fold_left_app. simpl.
  apply Forall_app in Hr as [Hr1 [Hv Hr2]%Forall_cons].
  fold (ts_puts s l1). pose proof (ts_puts_ok s l1 Hs Hr1) as Hs1.
  fold (ts_puts (ts_put (ts_puts s l1) v) l2).
  rewrite ts_puts_keep; [by apply ts_get_put|by apply ts_put_ok|done|].
  apply Forall_forall. intros w Hwin. rewrite Forall_forall in Hr2.
  rewrite map_app, map_cons in Hnd. apply NoDup_app in Hnd as (_ & _ & [Hnv _]%NoDup_cons).
  split_and!; auto.
  - intros E. apply Hnv. rewrite <- E. by apply list_elem_of_fmap_2.
  - apply Hw; rewrite elem_of_app; [right; left|right; by right].
Qed.
End Client.

(** ** The ring *)

(** The [RNET_HISTORY_LENGTH] slots. *)
Definition RNetInputRing : Type := list RNetInputSample.

Definition rnet_ring_clear : RNetInputRing := replicate 128 zero_sample.

Definition rnet_ring_store (ring : RNetInputRing) (sample : RNetInputSample) : RNetInputRing :=
  if is_valid sample =? 0 then ring
  else wr ring (is_tick sample mod RNET_HISTORY_LENGTH) sample.

Definition rnet_ring_get (ring : RNetInputRing) (tick : Z) : option RNetInputSample :=
  let src := rd zero_sample ring (tick mod RNET_HISTORY_LENGTH) in
  if (is_valid src =? 0) || negb (is_tick src =? tick) then None else Some src.

(** The scan keeps the largest tick of the valid slots; the pair is
    [(best, found)]. *)
Definition highest_step (ring : RNetInputRing) (i : Z) (acc : Z * bool) : Z * bool :=
  let s := rd zero_sample ring i in
  if nz (is_valid s) && (negb (snd acc) || (fst acc <? is_tick s)) then (is_tick s, true) else acc.

Definition rnet_ring_highest_valid (ring : RNetInputRing) : Z :=
  let r := for_upto RNET_HISTORY_LENGTH (highest_step ring) (0, false) in
  if snd r then fst r else 0.

(** ** The ring implements the interface *)

#[export] Instance ring_store : TickStore RNetInputRing RNetInputSample := {
  ts_depth := RNET_HISTORY_LENGTH;
  ts_ok r := zlen r = RNET_HISTORY_LENGTH;
  ts_row v := is_valid v <> 0 /\ 0 <= is_tick v;
  ts_tick := is_tick;
  ts_get := rnet_ring_get;
  ts_put := rnet_ring_store
}.

Lemma mod_window n a b : 0 < n -> a <> b -> Z.abs (a - b) < n -> a mod n <> b mod n.
Proof.
  intros Hn Hne Hd H. assert ((a - b) mod n = 0) as Hm.
  { rewrite Zminus_mod, H, Z.sub_diag. apply Zmod_0_l. }
  apply Z.mod_divide in Hm as [k Hk]; [|lia].
  destruct (Z.eq_dec k 0) as [->|Hk0]; [lia|]. rewrite Hk, Z.abs_mul in Hd.
  rewrite (Z.abs_eq n) in Hd by lia. assert (1 <= Z.abs k) by lia. nia.
Qed.

#[export] Instance ring_laws : TickStoreLaws RNetInputRing RNetInputSample.
Proof.
  split; unfold RNET_HISTORY_LENGTH in *; simpl; unfold RNET_HISTORY_LENGTH.
  - lia.
  - intros s v Hs _. unfold rnet_ring_store. case_match; [done|]. by rewrite zlen_wr.
  - intros s t v. unfold rnet_ring_get. destruct (_ || _) eqn:E; [done|].
    intros [= <-]. bool_prop. done.
  - intros s v Hs [Hv Ht]. unfold rnet_ring_store, rnet_ring_get. apply Z.eqb_neq in Hv. rewrite Hv.
    rewrite rd_wr_eq by (rewrite Hs; apply Z.mod_pos_bound; unfold RNET_HISTORY_LENGTH; lia).
    by rewrite Hv, Z.eqb_refl.
  - intros s v t Hs [Hv Htv] Ht Hne Hd. unfold rnet_ring_store, rnet_ring_get.
    apply Z.eqb_neq in Hv. rewrite Hv.
    rewrite rd_wr_ne; [done|apply Z.mod_pos_bound; done..|].
    apply mod_window; [done|lia|]. unfold RNET_HISTORY_LENGTH. lia.
Qed.

Lemma ring_clear_ok : ts_ok (S:=RNetInputRing) rnet_ring_clear.
Proof. done. Qed.

Lemma ring_get_clear t : rnet_ring_get rnet_ring_clear t = None.
Proof. unfold rnet_ring_get, rnet_ring_clear. by rewrite rd_replicate. Qed.

(** The scan returns the maximum of the valid ticks seen so far. *)
Definition highest_upto (ring : RNetInputRing) (n : Z) (acc : Z * bool) : Prop :=
  (snd acc = false -> forall i, 0 <= i < n -> is_valid (rd zero_sample ring i) = 0) /\
  (snd acc = true ->
     (exists i, 0 <= i < n /\ is_valid (rd zero_sample ring i) <> 0 /\
        is_tick (rd zero_sample ring i) = fst acc) /\
     forall i, 0 <= i < n -> is_valid (rd zero_sample ring i) <> 0 ->
        is_tick (rd zero_sample ring i) <= fst acc).

(** Case split on the last index of a bounded quantifier. *)
Ltac snoc j :=
  let H := fresh "Hj" in
  intros j H; match type of H with _ <= j < ?i + 1 =>
    destruct (Z.eq_dec j i) as [->|]; [try done|assert (0 <= j < i) as Hj' by lia; clear H; rename Hj' into H]
  end.

Lemma highest_step_ok ring i acc : 0 <= i -> highest_upto ring i acc ->
  highest_upto ring (i + 1) (highest_step ring i acc).
Proof.
  intros Hi [Hf Ht]. unfold highest_step.
  set (s := rd zero_sample ring i).
  destruct acc as [best found]; simpl in *.
  destruct (nz (is_valid s)) eqn:Ev; simpl; unfold nz in Ev; bool_prop.
  - destruct (negb found || (best <? is_tick s)) eqn:Eb; split; simpl; try done.
    + intros _. split; [exists i; auto with lia|]. snoc j. intros Hjv. destruct found.
      * simpl in Eb. bool_prop. destruct (Ht eq_refl) as [_ Hmax]. specialize (Hmax j Hj Hjv). lia.
      * by specialize (Hf eq_refl j Hj).
    + intros ->. done.
    + intros ->. simpl in Eb. bool_prop. destruct (Ht eq_refl) as [(k & Hk & ?) Hmax].
      split; [exists k; split; [lia|done]|]. snoc j. auto.
  - split; simpl.
    + intros ->. snoc j. auto.
    + intros ->. destruct (Ht eq_refl) as [(k & Hk & ?) Hmax].
      split; [exists k; split; [lia|done]|]. snoc j. auto.
Qed.

(** The largest tick of any valid slot, or 0 when there is none. *)
Lemma highest_valid_spec ring : zlen ring = RNET_HISTORY_LENGTH ->
  (forall i, 0 <= i < RNET_HISTORY_LENGTH -> is_valid (rd zero_sample ring i) <> 0 ->
     is_tick (rd zero_sample ring i) <= rnet_ring_highest_valid ring) /\
  (rnet_ring_highest_valid ring = 0 \/
   exists i, 0 <= i < RNET_HISTORY_LENGTH /\ is_valid (rd zero_sample ring i) <> 0 /\
     is_tick (rd zero_sample ring i) = rnet_ring_highest_valid ring).
Proof.
  intros _. unfold rnet_ring_highest_valid.
  pose proof (for_upto_ind (highest_upto ring) RNET_HISTORY_LENGTH (highest_step ring) (0, false))
    as H. unfold RNET_HISTORY_LENGTH in *.
  destruct H as [Hf Ht]; [lia|split; simpl; intros; [lia|done]|
    intros; apply highest_step_ok; [lia|done]|].
  destruct (snd (for_upto _ _ _)); simpl in *.
  - destruct (Ht eq_refl) as [Hex Hmax]. auto.
  - split; [|auto]. intros i Hi Hv. by specialize (Hf eq_refl i Hi).
Qed.

(** Ring window: after any sequence of valid samples of distinct ticks
    that span fewer than [RNET_HISTORY_LENGTH] ticks, stored in any order
    into a ring, every one of them is read back unchanged, and the highest
    valid tick is at least each of theirs. *)
Theorem ring_window ring vs v :
  zlen ring = RNET_HISTORY_LENGTH ->
  Forall (fun s => is_valid s <> 0 /\ 0 <= is_tick s) vs -> NoDup (map is_tick vs) ->
  (forall a b, a ∈ vs -> b ∈ vs -> Z.abs (is_tick a - is_tick b) < RNET_HISTORY_LENGTH) ->
  v ∈ vs ->
  let ring' := fold_left rnet_ring_store vs ring in
  rnet_ring_get ring' (is_tick v) = Some v /\ is_tick v <= rnet_ring_highest_valid ring'.
Proof.
  intros Hr Hv Hnd Hw Hin ring'.
  pose proof Hv as Hv'. rewrite Forall_forall in Hv'. destruct (Hv' v Hin) as [Hval Hpos].
  pose proof (ts_puts_ok (S:=RNetInputRing) ring vs Hr Hv) as Hok.
  pose proof (ts_window (S:=RNetInputRing) ring vs v Hr Hv Hnd Hw Hin Hpos) as Hget.
  split; [exact Hget|].
  change (ts_get (ts_puts ring vs) (ts_tick v)) with (rnet_ring_get ring' (is_tick v)) in Hget.
  destruct (highest_valid_spec ring' Hok) as [Hmax _].
  unfold rnet_ring_get in Hget. destruct (_ || _); [done|]. injection Hget as Hrd.
  specialize (Hmax (is_tick v mod RNET_HISTORY_LENGTH)). rewrite Hrd in Hmax. apply Hmax; [|done].
  apply Z.mod_pos_bound. done.
Qed.

Lemma ring_window_witness :
  let s t := mkSample t 2 (replicate 32 9) 1 in
  let ring' := fold_left rnet_ring_store [s 130; s 3; s 129] rnet_ring_clear in
  rnet_ring_get ring' 3 = Some (s 3) /\ 3 <= rnet_ring_highest_valid ring'.
Proof.
  apply (ring_window rnet_ring_clear _ (mkSample 3 2 (replicate 32 9) 1)).
  - reflexivity.
  - repeat constructor; simpl; lia.
  - apply (bool_decide_unpack _). vm_compute. exact I.
  - intros a b Ha Hb. unfold RNET_HISTORY_LENGTH.
    rewrite !list_elem_of_In in *. simpl in *.
    destruct Ha as [<-|[<-|[<-|[]]]], Hb as [<-|[<-|[<-|[]]]]; simpl; lia.
  - set_solver.
Defined.
