(* ===== verification/Rollback.v ===== *)
(** * Rollback episode core (src/rollback/rnet_rollback.c)

    The episode state machine, the correction tuple, the sealed input table
    and the resolved-through watermark.

    The only host callback the core calls is [get_input_row]; an operation
    that calls it takes the host's answer for each (slot, tick) as [get]
    ([None] when the callback returns 0). [calloc] can fail, so [rnet_rb_create]
    takes the outcome of its two allocations. A session pointer that is NULL
    makes every operation return at once; sessions here are not NULL. *)

From stdpp Require Import base list numbers list_numbers.
From S2P Require Import Prelude Contract.

(** ** Constants and data *)

Definition RNET_RB_SEAL_MAX_SPAN : Z := 64.
Definition RNET_RB_MAX_SLOTS : Z := 8.
Definition RNET_RB_LIGHT_TIP_MAX_DEPTH : Z := 16.
Definition RNET_RB_TIP_SEAL_SLACK_DEFAULT : Z := 2.
Definition RNET_RB_CORR_LIGHT_TIP : Z := 1.
Definition RNET_RB_EVENT_QUEUE_MAX : Z := 8.

Inductive RNetRbPhase : Set :=
| PhaseLive | PhaseSealInputs | PhaseAwaitingBaseline | PhaseReplay
| PhaseVerify | PhaseTipHold | PhaseCommit | PhaseAbort.

#[export] Instance phase_eq_dec : EqDecision RNetRbPhase.
Proof. solve_decision. Defined.

Inductive RNetRbEventType : Set :=
| EventNone | EventInputMismatch | EventPeerSymmetric | EventStateDiverge | EventFrameCommit.

Record RNetRbCorrection := mkCorr {
  co_epoch_id : Z;
  co_mismatch_tick : Z;
  co_load_tick : Z;
  co_target_tick : Z;
  co_slot : Z;
  co_initiator : Z;
  co_from_peer_notify : Z;
  co_flags : Z
}.

Record RNetRbFrame := mkRbFrame {
  rf_tick : Z;
  rf_buttons : Z;
  rf_stick_x : Z;
  rf_stick_y : Z;
  rf_is_predicted : Z;
  rf_is_valid : Z;
  rf_analog : Z;
  rf_rx : Z;
  rf_ry : Z
}.

#[export] Instance rb_frame_eq_dec : EqDecision RNetRbFrame.
Proof. solve_decision. Defined.

Definition zero_frame : RNetRbFrame := mkRbFrame 0 0 0 0 0 0 0 0 0.

Definition eta_frame (f : RNetRbFrame) : RNetRbFrame :=
  mkRbFrame (rf_tick f) (rf_buttons f) (rf_stick_x f) (rf_stick_y f) (rf_is_predicted f)
    (rf_is_valid f) (rf_analog f) (rf_rx f) (rf_ry f).
Definition set_rf_tick := ltac:(updater eta_frame rf_tick).
Definition set_rf_is_predicted := ltac:(updater eta_frame rf_is_predicted).
Definition set_rf_is_valid := ltac:(updater eta_frame rf_is_valid).
Definition set_rf_analog := ltac:(updater eta_frame rf_analog).

Record RNetRbEvent := mkRbEvent {
  ev_type : RNetRbEventType;
  ev_slot : Z;
  ev_mismatch_tick : Z;
  ev_target_tick : Z;
  ev_load_tick : Z;
  ev_epoch_id : Z;
  ev_follower_local_auth : Z
}.

Definition zero_event : RNetRbEvent := mkRbEvent EventNone 0 0 0 0 0 0.

Record RNetRbConfig := mkRbConfig {
  rc_local_slot : Z;
  rc_delay : Z;
  rc_seal_max_span : Z;
  rc_slot_count : Z;
  rc_tip_runway : Z;
  rc_tip_seal_slack : Z;
  rc_light_tip_max_depth : Z;
  rc_occupied_mask : Z
}.

(** [rs_sealed] is the table of [seal_max_span * RNET_RB_MAX_SLOTS] rows. *)
Record RNetRbSession := mkRbSession {
  rs_cfg : RNetRbConfig;
  rs_phase : RNetRbPhase;
  rs_corr : RNetRbCorrection;
  rs_sealed : list RNetRbFrame;
  rs_sealed_span : Z;
  rs_seal_base_tick : Z;
  rs_inputs_sealed : Z;
  rs_peer_seal_mask : list Z;
  rs_resolved_through : Z;
  rs_events : list RNetRbEvent;
  rs_event_head : Z;
  rs_event_tail : Z
}.

Definition eta_session (s : RNetRbSession) : RNetRbSession :=
  mkRbSession (rs_cfg s) (rs_phase s) (rs_corr s) (rs_sealed s) (rs_sealed_span s)
    (rs_seal_base_tick s) (rs_inputs_sealed s) (rs_peer_seal_mask s) (rs_resolved_through s)
    (rs_events s) (rs_event_head s) (rs_event_tail s).
Definition set_rs_phase := ltac:(updater eta_session rs_phase).
Definition set_rs_corr := ltac:(updater eta_session rs_corr).
Definition set_rs_sealed := ltac:(updater eta_session rs_sealed).
Definition set_rs_sealed_span := ltac:(updater eta_session rs_sealed_span).
Definition set_rs_seal_base_tick := ltac:(updater eta_session rs_seal_base_tick).
Definition set_rs_inputs_sealed := ltac:(updater eta_session rs_inputs_sealed).
Definition set_rs_peer_seal_mask := ltac:(updater eta_session rs_peer_seal_mask).
Definition set_rs_resolved_through := ltac:(updater eta_session rs_resolved_through).
Definition set_rs_events := ltac:(updater eta_session rs_events).
Definition set_rs_event_head := ltac:(updater eta_session rs_event_head).
Definition set_rs_event_tail := ltac:(updater eta_session rs_event_tail).

Definition eta_corr (c : RNetRbCorrection) : RNetRbCorrection :=
  mkCorr (co_epoch_id c) (co_mismatch_tick c) (co_load_tick c) (co_target_tick c) (co_slot c)
    (co_initiator c) (co_from_peer_notify c) (co_flags c).
Definition set_co_target_tick := ltac:(updater eta_corr co_target_tick).
Definition set_co_flags := ltac:(updater eta_corr co_flags).

Definition zero_masks : list Z := replicate 8 0.

(** ** Helpers *)

Definition rnet_rb_seal_index (offset slot : Z) : Z := offset * RNET_RB_MAX_SLOTS + slot.

Definition rnet_rb_slot_valid (slot : Z) : bool := (0 <=? slot) && (slot <? RNET_RB_MAX_SLOTS).

(** The row of the sealed table at (offset, slot), and its replacement. *)
Definition sealed_at (s : RNetRbSession) (offset slot : Z) : RNetRbFrame :=
  rd zero_frame (rs_sealed s) (rnet_rb_seal_index offset slot).
Definition seal_row (offset slot : Z) (row : RNetRbFrame) (s : RNetRbSession) : RNetRbSession :=
  set_rs_sealed (wr (rs_sealed s) (rnet_rb_seal_index offset slot) row) s.
(** [peer_seal_mask[slot] |= 1ull << offset]. *)
Definition credit (slot offset : Z) (s : RNetRbSession) : RNetRbSession :=
  set_rs_peer_seal_mask
    (wr (rs_peer_seal_mask s) slot (Z.lor (rd 0 (rs_peer_seal_mask s) slot) (bit offset))) s.
Definition credited (s : RNetRbSession) (slot offset : Z) : bool :=
  has_bit (rd 0 (rs_peer_seal_mask s) slot) offset.

(** ** Lifecycle *)

Definition rnet_rb_session_reset (s : RNetRbSession) : RNetRbSession :=
  let keep_resolved := rs_resolved_through s in
  mkRbSession (rs_cfg s) PhaseLive (mkCorr 0 0 0 0 (-1) 0 0 0) (rs_sealed s) 0 0 0 zero_masks
    keep_resolved (rs_events s) 0 0.

(** The clamps [rnet_rb_create] applies to the caller's configuration. *)
Definition normalize_cfg (cfg : RNetRbConfig) : RNetRbConfig :=
  let span := if (rc_seal_max_span cfg =? 0) || (RNET_RB_SEAL_MAX_SPAN <? rc_seal_max_span cfg)
              then RNET_RB_SEAL_MAX_SPAN else rc_seal_max_span cfg in
  let count := if rc_slot_count cfg =? 0 then 2 else rc_slot_count cfg in
  let count := if RNET_RB_MAX_SLOTS <? count then RNET_RB_MAX_SLOTS else count in
  let runway := if 32 <? rc_tip_runway cfg then 32 else rc_tip_runway cfg in
  let slack := if (rc_tip_seal_slack cfg =? 0) && (0 <? runway)
               then RNET_RB_TIP_SEAL_SLACK_DEFAULT
               else if rc_tip_seal_slack cfg =? UINT32_MAX then 0 else rc_tip_seal_slack cfg in
  let slack := if 8 <? slack then 8 else slack in
  let depth := if rc_light_tip_max_depth cfg =? 0 then RNET_RB_LIGHT_TIP_MAX_DEPTH
               else rc_light_tip_max_depth cfg in
  let depth := if 32 <? depth then 32 else depth in
  mkRbConfig (rc_local_slot cfg) (rc_delay cfg) span count runway slack depth
    (rc_occupied_mask cfg).

(** [vt_complete]: the vtable has load_state, advance_sim and get_input_row;
    [alloc_session], [alloc_table]: the two allocations succeed. *)
Definition rnet_rb_create (cfg : RNetRbConfig) (vt_complete alloc_session alloc_table : bool)
  : option RNetRbSession :=
  if negb vt_complete then None else
  if negb alloc_session then None else
  let c := normalize_cfg cfg in
  if rc_slot_count c <? rc_local_slot c then None else
  if negb alloc_table then None else
  Some (rnet_rb_session_reset
    (mkRbSession c PhaseLive (mkCorr 0 0 0 0 0 0 0 0)
       (replicate (Z.to_nat (rc_seal_max_span c * RNET_RB_MAX_SLOTS)) zero_frame)
       0 0 0 zero_masks 0 (replicate 8 zero_event) 0 0)).

(** ** Introspection *)

Definition rnet_rb_is_active (s : RNetRbSession) : bool :=
  negb (bool_decide (rs_phase s = PhaseLive)).
Definition rnet_rb_is_resimulating (s : RNetRbSession) : bool :=
  match rs_phase s with PhaseAwaitingBaseline | PhaseReplay | PhaseVerify => true | _ => false end.
Definition rnet_rb_is_tip_holding (s : RNetRbSession) : bool :=
  bool_decide (rs_phase s = PhaseTipHold).
Definition rnet_rb_is_observer (s : RNetRbSession) : bool :=
  rc_slot_count (rs_cfg s) <=? rc_local_slot (rs_cfg s).

Definition rnet_rb_is_light_tip_candidate_ex
    (load_tick target_tick resolved_through max_depth : Z) : bool :=
  if target_tick <? load_tick then false else
  let depth := target_tick - load_tick in
  if max_depth <? depth then false else
  if resolved_through =? 0 then depth <=? 2 else resolved_through <=? load_tick.

Definition rnet_rb_is_light_tip_candidate (load_tick target_tick resolved_through : Z) : bool :=
  rnet_rb_is_light_tip_candidate_ex load_tick target_tick resolved_through
    RNET_RB_LIGHT_TIP_MAX_DEPTH.

Definition rnet_rb_recommend_light_tip (s : RNetRbSession) : bool :=
  nz (Z.land (co_flags (rs_corr s)) RNET_RB_CORR_LIGHT_TIP).

Definition rnet_rb_suggest_target (s : RNetRbSession) (mismatch_tick sim_tip : Z) : Z :=
  let target := if mismatch_tick <? sim_tip then sim_tip else mismatch_tick in
  let slack := rc_tip_seal_slack (rs_cfg s) in
  if (0 <? slack) && (target <=? UINT32_MAX - slack) then u32 (target + slack) else target.

(** ** Episode *)

Definition rnet_rb_begin_episode (s : RNetRbSession) (corr : RNetRbCorrection) : RNetRbSession :=
  let c := if (co_from_peer_notify corr =? 0) &&
              rnet_rb_is_light_tip_candidate_ex (co_load_tick corr) (co_target_tick corr)
                (rs_resolved_through s) (rc_light_tip_max_depth (rs_cfg s))
           then set_co_flags (u8 (Z.lor (co_flags corr) RNET_RB_CORR_LIGHT_TIP)) corr
           else corr in
  set_rs_phase PhaseSealInputs (set_rs_peer_seal_mask zero_masks (set_rs_sealed_span 0
    (set_rs_inputs_sealed 0 (set_rs_corr c s)))).

Section Host.
(** The host's [get_input_row] at the time of the call. *)
Context (get : Z -> Z -> option RNetRbFrame).

Definition rnet_rb_fill_local_row (tick offset slot : Z) (s : RNetRbSession) : RNetRbSession :=
  let s := seal_row offset slot (set_rf_tick tick zero_frame) s in
  if slot =? rc_local_slot (rs_cfg s) then
    match get slot tick with
    | Some row => seal_row offset slot (set_rf_tick tick row) s
    | None => s
    end
  else
    match get slot tick with
    | Some row =>
        if nz (rf_is_valid row) && (rf_is_predicted row =? 0) then
          let s := seal_row offset slot (set_rf_tick tick row) s in
          if offset <? 64 then credit slot offset s else s
        else s
    | None => s
    end.

(** Both sealing loops: offsets [from .. to), every active seat. *)
Definition fill_rows (begin from to_ : Z) (s : RNetRbSession) : RNetRbSession :=
  for_range from to_ (fun offset =>
    for_range 0 (rc_slot_count (rs_cfg s)) (fun slot =>
      rnet_rb_fill_local_row (u32 (begin + offset)) offset slot)) s.

Definition rnet_rb_can_extend_target (s : RNetRbSession) (new_target : Z) : bool :=
  if rs_inputs_sealed s =? 0 then false else
  match rs_phase s with
  | PhaseLive | PhaseCommit | PhaseAbort => false
  | _ =>
      let old_target := co_target_tick (rs_corr s) in
      if new_target <=? old_target then true else
      let begin := rs_seal_base_tick s in
      if new_target <? begin then false else
      negb (rc_seal_max_span (rs_cfg s) <=? new_target - begin)
  end.

Definition verify_to_replay (s : RNetRbSession) : RNetRbSession :=
  if bool_decide (rs_phase s = PhaseVerify) then set_rs_phase PhaseReplay s else s.

(** [None]: the call returns 0 and changes nothing. *)
Definition rnet_rb_extend_target (s : RNetRbSession) (new_target : Z) : option RNetRbSession :=
  if negb (rnet_rb_can_extend_target s new_target) then None else
  let old_target := co_target_tick (rs_corr s) in
  if new_target <=? old_target then Some (verify_to_replay s) else
  let begin := rs_seal_base_tick s in
  let new_span := u32 (new_target - begin + 1) in
  let s := fill_rows begin (rs_sealed_span s) new_span s in
  let s := set_rs_sealed_span new_span s in
  let s := set_rs_corr (set_co_target_tick new_target (rs_corr s)) s in
  Some (verify_to_replay s).

Definition resign_step (slot from_tick to_tick offset : Z) (s : RNetRbSession) : RNetRbSession :=
  let tick := u32 (rs_seal_base_tick s + offset) in
  if (tick <? from_tick) || (to_tick <? tick) then s else
  match get slot tick with
  | None => s
  | Some row =>
      if negb (slot =? rc_local_slot (rs_cfg s)) &&
         ((rf_is_valid row =? 0) || nz (rf_is_predicted row)) then s else
      let s := seal_row offset slot (set_rf_tick tick row) s in
      if nz (rf_is_valid row) &&
         ((slot =? rc_local_slot (rs_cfg s)) || (rf_is_predicted row =? 0))
      then credit slot offset s else s
  end.

Definition rnet_rb_resign_slot_range (s : RNetRbSession) (slot from_tick to_tick : Z)
  : option RNetRbSession :=
  if (rs_inputs_sealed s =? 0) || negb (rnet_rb_slot_valid slot) then None else
  if to_tick <? from_tick then None else
  Some (for_range 0 (rs_sealed_span s) (resign_step slot from_tick to_tick) s).

Definition rnet_rb_seal_inputs (s : RNetRbSession) (begin_tick target_tick correction_slot : Z)
  : RNetRbSession :=
  let s := set_rs_peer_seal_mask zero_masks (set_rs_sealed_span 0 (set_rs_inputs_sealed 0 s)) in
  if (target_tick <? begin_tick) || (rc_seal_max_span (rs_cfg s) <=? target_tick - begin_tick)
  then s else
  let span := u32 (target_tick - begin_tick + 1) in
  let s := set_rs_seal_base_tick begin_tick s in
  let s := fill_rows begin_tick 0 span s in
  let s := set_rs_inputs_sealed 1 (set_rs_sealed_span span s) in
  set_rs_corr (set_co_target_tick target_tick (rs_corr s)) s.

(** The row loop; [i] is the index of the first row of [rows]. *)
Fixpoint apply_rows (slot row_begin i : Z) (rows : list RNetRbFrame) (s : RNetRbSession)
  : RNetRbSession :=
  match rows with
  | [] => s
  | row :: rest =>
      let offset := u32 (row_begin + i) in
      if rs_sealed_span s <=? offset then s else
      if rf_is_valid row =? 0 then apply_rows slot row_begin (i + 1) rest s else
      let dst := sealed_at s offset slot in
      let s :=
        if nz (rf_is_predicted row) && nz (rf_is_valid dst) && (rf_is_predicted dst =? 0)
        then s
        else seal_row offset slot (set_rf_tick (u32 (rs_seal_base_tick s + offset)) row) s in
      apply_rows slot row_begin (i + 1) rest (credit slot offset s)
  end.

(** [rows] holds the [row_count] rows of the call. A [target_tick] above
    the current one extends the table before the rows are applied. *)
Definition rnet_rb_apply_peer_seal_rows (s : RNetRbSession)
    (epoch_id mismatch_tick target_tick slot row_begin : Z) (rows : option (list RNetRbFrame))
  : option RNetRbSession :=
  match rows with
  | None => None
  | Some rows =>
      if (rs_inputs_sealed s =? 0) || negb (rnet_rb_slot_valid slot) then None else
      if negb (epoch_id =? co_epoch_id (rs_corr s)) ||
         negb (mismatch_tick =? rs_seal_base_tick s) then None else
      if target_tick <? co_target_tick (rs_corr s) then None else
      let extended := if co_target_tick (rs_corr s) <? target_tick
                      then rnet_rb_extend_target s target_tick else Some s in
      match extended with
      | None => None
      | Some s => Some (apply_rows slot row_begin 0 rows s)
      end
  end.
End Host.

(** [set_phase] validates nothing; the terminal phases raise the watermark. *)
Definition raise_resolved (s : RNetRbSession) : RNetRbSession :=
  if rs_resolved_through s <? co_target_tick (rs_corr s)
  then set_rs_resolved_through (co_target_tick (rs_corr s)) s else s.

Definition rnet_rb_set_phase (s : RNetRbSession) (phase : RNetRbPhase) : RNetRbSession :=
  let s := set_rs_phase phase s in
  match phase with PhaseCommit | PhaseAbort => raise_resolved s | _ => s end.

Definition rnet_rb_commit_promote_sealed (s : RNetRbSession) : RNetRbSession := raise_resolved s.

Definition rnet_rb_enter_tip_hold (s : RNetRbSession) : option RNetRbSession :=
  if negb (bool_decide (rs_phase s = PhaseVerify)) || (rs_inputs_sealed s =? 0) then None
  else Some (set_rs_phase PhaseTipHold (rnet_rb_commit_promote_sealed s)).

Definition rnet_rb_on_post_match (s : RNetRbSession) : RNetRbSession :=
  rnet_rb_set_phase (rnet_rb_commit_promote_sealed s) PhaseCommit.
Definition rnet_rb_on_post_diverge (s : RNetRbSession) : RNetRbSession :=
  rnet_rb_set_phase s PhaseVerify.

Definition rnet_rb_decide_stick_replace (stick_gates : RNetInputContractHostGates)
    (published wire : RNetInputContractFrame) (completed_sim : Z)
  : RNetInputContractDecision * list gate_call :=
  rnet_input_contract_stick_replace_decide published wire completed_sim
    rnet_input_contract_params_init_defaults (Some stick_gates).

(** ** The sealed table *)

Definition rnet_rb_inputs_sealed (s : RNetRbSession) : bool := nz (rs_inputs_sealed s).

Definition rnet_rb_tick_in_sealed_span (s : RNetRbSession) (tick : Z) : bool :=
  if rs_inputs_sealed s =? 0 then false
  else (rs_seal_base_tick s <=? tick) && (tick - rs_seal_base_tick s <? rs_sealed_span s).

(** The row copied out, and the return value. *)
Definition rnet_rb_get_sealed_frame (s : RNetRbSession) (slot tick : Z) : option RNetRbFrame * Z :=
  if negb (rnet_rb_tick_in_sealed_span s tick) || negb (rnet_rb_slot_valid slot) then (None, 0)
  else
    let row := sealed_at s (tick - rs_seal_base_tick s) slot in
    (Some row, rf_is_valid row).

Definition rnet_rb_seat_row_authoritative (s : RNetRbSession) (slot tick : Z) : Z :=
  if negb (rnet_rb_tick_in_sealed_span s tick) || negb (rnet_rb_slot_valid slot) then 0 else
  let offset := tick - rs_seal_base_tick s in
  let row := sealed_at s offset slot in
  if slot =? rc_local_slot (rs_cfg s) then rf_is_valid row
  else if (offset <? 64) && credited s slot offset then 1
  else b2z (nz (rf_is_valid row) && (rf_is_predicted row =? 0)).

Definition rnet_rb_peer_seal_rows_complete (s : RNetRbSession) (slot : Z) : bool :=
  if negb (rnet_rb_inputs_sealed s) || negb (rnet_rb_slot_valid slot) then false else
  let want := if 64 <=? rs_sealed_span s then u64 (-1) else bit (rs_sealed_span s) - 1 in
  Z.land (rd 0 (rs_peer_seal_mask s) slot) want =? want.

Definition rnet_rb_expected_peer_mask (s : RNetRbSession) : Z :=
  let n := rc_slot_count (rs_cfg s) in
  let n := if (n =? 0) || (RNET_RB_MAX_SLOTS <? n) then RNET_RB_MAX_SLOTS else n in
  let mask := if 32 <=? n then UINT32_MAX else bit n - 1 in
  let mask := if nz (rc_occupied_mask (rs_cfg s))
              then Z.land mask (rc_occupied_mask (rs_cfg s)) else mask in
  if rc_local_slot (rs_cfg s) <? n
  then Z.land mask (u32 (Z.lnot (bit (rc_local_slot (rs_cfg s))))) else mask.

Definition rnet_rb_all_peer_seal_rows_complete (s : RNetRbSession) : bool :=
  if negb (rnet_rb_inputs_sealed s) then false else
  let want := rnet_rb_expected_peer_mask s in
  all_upto RNET_RB_MAX_SLOTS (fun slot =>
    if negb (has_bit want slot) then true else rnet_rb_peer_seal_rows_complete s slot).

(** [None]: returns 0; otherwise the rows written to the caller's array. *)
Definition rnet_rb_export_seal_rows_chunk (s : RNetRbSession) (slot row_begin max_rows : Z)
  : option (list RNetRbFrame) :=
  if negb (rnet_rb_inputs_sealed s) || negb (rnet_rb_slot_valid slot) then None else
  if rs_sealed_span s <=? row_begin then Some [] else
  let n := rs_sealed_span s - row_begin in
  let n := if max_rows <? n then max_rows else n in
  Some (map (fun i => sealed_at s (row_begin + i) slot) (seqZ 0 n)).

(** ** Watermark *)

Definition rnet_rb_set_peer_convergence (s : RNetRbSession) (peer_target : Z) : RNetRbSession :=
  if rs_resolved_through s <? peer_target then set_rs_resolved_through peer_target s else s.
Definition rnet_rb_demote_resolved_through (s : RNetRbSession) (tick : Z) : RNetRbSession :=
  if tick <? rs_resolved_through s then set_rs_resolved_through tick s else s.

(** ** Event queue *)

Definition rnet_rb_enqueue_event (s : RNetRbSession) (event : RNetRbEvent) : RNetRbSession :=
  let next := (rs_event_tail s + 1) mod RNET_RB_EVENT_QUEUE_MAX in
  if next =? rs_event_head s then s
  else set_rs_event_tail next (set_rs_events (wr (rs_events s) (rs_event_tail s) event) s).

Definition rnet_rb_drain_next_event (s : RNetRbSession) : option (RNetRbEvent * RNetRbSession) :=
  if rs_event_head s =? rs_event_tail s then None
  else Some (rd zero_event (rs_events s) (rs_event_head s),
             set_rs_event_head ((rs_event_head s + 1) mod RNET_RB_EVENT_QUEUE_MAX) s).

Definition rnet_rb_has_pending_events (s : RNetRbSession) : bool :=
  negb (rs_event_head s =? rs_event_tail s).
