(* ===== verification/RollbackProofs.v ===== *)
(** * Rollback episode core: theorems

    The functional specification of sealing, the invariant of the session and
    its preservation by every operation, what a completed seal guarantees to
    the replay, the transfer of an owner's rows to a peer, the watermark and
    the event queue. *)

From stdpp Require Import base list numbers list_numbers.
From S2P Require Import Prelude Contract Config Rollback.

(** ** The sealed table as a matrix *)

(** Shape of the arrays; every index the code forms is inside them. *)
Definition shape (s : RNetRbSession) : Prop :=
  1 <= rc_seal_max_span (rs_cfg s) <= 64 /\
  zlen (rs_sealed s) = rc_seal_max_span (rs_cfg s) * 8 /\
  zlen (rs_peer_seal_mask s) = 8 /\
  1 <= rc_slot_count (rs_cfg s) <= 8 /\
  0 <= rc_local_slot (rs_cfg s) <= rc_slot_count (rs_cfg s).

(** Everything but the table and the masks. *)
Definition same_control (s t : RNetRbSession) : Prop :=
  rs_cfg t = rs_cfg s /\ rs_phase t = rs_phase s /\ rs_corr t = rs_corr s /\
  rs_sealed_span t = rs_sealed_span s /\ rs_seal_base_tick t = rs_seal_base_tick s /\
  rs_inputs_sealed t = rs_inputs_sealed s /\ rs_resolved_through t = rs_resolved_through s /\
  rs_events t = rs_events s /\ rs_event_head t = rs_event_head s /\
  rs_event_tail t = rs_event_tail s.

#[export] Instance same_control_refl : Reflexive same_control.
Proof. intros s. by repeat split. Qed.
#[export] Instance same_control_trans : Transitive same_control.
Proof. intros s t u H1 H2. unfold same_control in *. destruct_and?. split_and!; congruence. Qed.

Definition in_table (s : RNetRbSession) (o j : Z) : Prop :=
  0 <= o < rc_seal_max_span (rs_cfg s) /\ 0 <= j < 8.

Lemma seal_index_inj o j o' j' : 0 <= j < 8 -> 0 <= j' < 8 ->
  rnet_rb_seal_index o j = rnet_rb_seal_index o' j' -> o = o' /\ j = j'.
Proof. unfold rnet_rb_seal_index, RNET_RB_MAX_SLOTS. lia. Qed.

Lemma seal_row_at s o j row o' j' : shape s -> in_table s o j -> in_table s o' j' ->
  sealed_at (seal_row o j row s) o' j' = if (o =? o') && (j =? j') then row else sealed_at s o' j'.
Proof.
  intros (Hm & Hl & _) [Ho Hj] [Ho' Hj']. unfold sealed_at, seal_row. cbn [set_rs_sealed rs_sealed].
  rewrite rd_wr by (rewrite ?Hl; unfold rnet_rb_seal_index, RNET_RB_MAX_SLOTS; lia).
  destruct (Z.eqb_spec (rnet_rb_seal_index o j) (rnet_rb_seal_index o' j')) as [E|E].
  - apply seal_index_inj in E as [-> ->]; [|done..]. by rewrite !Z.eqb_refl.
  - destruct (Z.eqb_spec o o') as [->|]; [|done]. destruct (Z.eqb_spec j j') as [->|]; [|done].
    done.
Qed.

Lemma credit_at s j o j' o' : zlen (rs_peer_seal_mask s) = 8 -> 0 <= j < 8 -> 0 <= j' < 8 ->
  0 <= o -> 0 <= o' ->
  credited (credit j o s) j' o' = credited s j' o' || ((j =? j') && (o =? o')).
Proof.
  intros Hl Hj Hj' Ho Ho'. unfold credited, credit. cbn [set_rs_peer_seal_mask rs_peer_seal_mask].
  rewrite rd_wr by lia. destruct (Z.eqb_spec j j') as [->|].
  - rewrite has_bit_lor, has_bit_bit by lia. done.
  - by rewrite orb_false_r.
Qed.

Lemma seal_row_shape s o j row : shape s -> shape (seal_row o j row s).
Proof. unfold shape, seal_row. cbn. by rewrite zlen_wr. Qed.
Lemma credit_shape s j o : shape s -> shape (credit j o s).
Proof. unfold shape, credit. cbn. by rewrite zlen_wr. Qed.
#[export] Hint Resolve seal_row_shape credit_shape : rnet.

Lemma seal_row_credited s o j row j' o' : credited (seal_row o j row s) j' o' = credited s j' o'.
Proof. done. Qed.
Lemma credit_sealed s j o o' j' : sealed_at (credit j o s) o' j' = sealed_at s o' j'.
Proof. done. Qed.

(** ** Functional specification of sealing *)

Section Fill.
Context (get : Z -> Z -> option RNetRbFrame).

(** The row that sealing writes for a seat, and whether it credits it. *)
Definition confirmed (row : RNetRbFrame) : bool :=
  nz (rf_is_valid row) && (rf_is_predicted row =? 0).
Definition filled_row (local slot tick : Z) : RNetRbFrame :=
  match get slot tick with
  | Some row => if (slot =? local) || confirmed row then set_rf_tick tick row
                else set_rf_tick tick zero_frame
  | None => set_rf_tick tick zero_frame
  end.
Definition filled_credit (local slot tick : Z) : bool :=
  match get slot tick with
  | Some row => negb (slot =? local) && confirmed row
  | None => false
  end.

(** [t] is [s] after the seats [done] were filled at ticks [tick_of]. *)
Definition filled (tick_of : Z -> Z) (done_ : Z -> Z -> bool) (s t : RNetRbSession) : Prop :=
  same_control s t /\ shape t /\
  (forall o j, in_table s o j ->
    sealed_at t o j = (if done_ o j then filled_row (rc_local_slot (rs_cfg s)) j (tick_of o)
                       else sealed_at s o j)) /\
  (forall o j, 0 <= o -> 0 <= j < 8 ->
    credited t j o = credited s j o ||
      (done_ o j && filled_credit (rc_local_slot (rs_cfg s)) j (tick_of o))).

(** Sealing one more seat at (o, j), crediting it when [filled_credit]. *)
Lemma filled_step tick_of d s t o j : filled tick_of d s t -> in_table s o j ->
  let row := filled_row (rc_local_slot (rs_cfg s)) j (tick_of o) in
  filled tick_of (fun o' j' => d o' j' || ((o =? o') && (j =? j'))) s
    (if filled_credit (rc_local_slot (rs_cfg s)) j (tick_of o)
     then credit j o (seal_row o j row t) else seal_row o j row t).
Proof.
  intros (Hc & Hsh & Hrow & Hcr) Hin row. pose proof Hc as (Ecfg & _).
  assert (in_table t o j) as Hin' by (unfold in_table; by rewrite Ecfg).
  split_and!.
  - destruct (filled_credit _ _ _); exact Hc.
  - destruct (filled_credit _ _ _); auto with rnet.
  - intros o' j' Ho'. assert (in_table t o' j') as Ho't by (unfold in_table; by rewrite Ecfg).
    assert (forall (b : bool) x, sealed_at (if b then credit j o x else x) o' j'
      = sealed_at x o' j') as -> by (by intros []).
    rewrite seal_row_at, (Hrow o' j' Ho') by done.
    destruct (Z.eqb_spec o o') as [->|]; [|by rewrite orb_false_r].
    destruct (Z.eqb_spec j j') as [->|]; cbn; [by rewrite orb_true_r|by rewrite orb_false_r].
  - intros o' j' Ho' Hj'. destruct Hsh as (_ & _ & Hml & _), Hin as [? ?].
    destruct (filled_credit _ j _) eqn:Efc;
        [rewrite credit_at by (done || lia)|]; rewrite seal_row_credited, (Hcr o' j' Ho' Hj');
        destruct (Z.eqb_spec o o') as [->|]; destruct (Z.eqb_spec j j') as [->|];
        rewrite ?Efc; destruct (credited s j' o'), (d o' j'); cbn; try done;
        rewrite ?Efc, ?orb_false_r; done.
Qed.

Lemma fill_local_row_spec tick_of d s t o j : filled tick_of d s t -> in_table s o j ->
  filled tick_of (fun o' j' => d o' j' || ((o =? o') && (j =? j'))) s
    (rnet_rb_fill_local_row get (tick_of o) o j t).
Proof.
  intros Ht Hin. pose proof (filled_step tick_of d s t o j Ht Hin) as Hgen.
  destruct Ht as ((Ecfg & _) & Hsh & _).
  assert (o < 64) as Ho by (destruct Hin as [? ?]; destruct Hsh as (? & _); rewrite Ecfg in *; lia).
  apply Z.ltb_lt in Ho. unfold rnet_rb_fill_local_row.
  cbn [seal_row set_rs_sealed rs_cfg]. rewrite Ho, Ecfg.
  set (t0 := seal_row o j (set_rf_tick (tick_of o) zero_frame) t).
  assert (forall row, seal_row o j row t0 = seal_row o j row t) as Eover.
  { intros row. unfold t0, seal_row. cbn. unfold wr. by rewrite list_insert_insert_eq. }
  unfold filled_credit, filled_row, confirmed in Hgen.
  destruct (get j (tick_of o)) as [row|].
  - destruct (j =? rc_local_slot (rs_cfg s)); cbn [orb negb andb] in *;
      [by rewrite Eover|].
    destruct (nz (rf_is_valid row) && (rf_is_predicted row =? 0)); [|done]. by rewrite Eover.
  - by destruct (j =? rc_local_slot (rs_cfg s)).
Qed.

Lemma filled_ext tick_of d d' s t : (forall o j, 0 <= o -> 0 <= j < 8 -> d o j = d' o j) ->
  filled tick_of d s t -> filled tick_of d' s t.
Proof.
  intros Hd (Hc & Hsh & Hrow & Hcr). split_and!; [done..| |].
  - intros o j [Ho Hj]. rewrite <- (Hd o j ltac:(lia) Hj). apply Hrow. by split.
  - intros o j Ho Hj. rewrite <- (Hd o j Ho Hj). auto.
Qed.

(** Filling the offsets [from, to): exactly the rows of the active seats in
    that range are replaced, and the confirmed remote ones credited. *)
Lemma fill_rows_spec s begin from to_ : shape s -> 0 <= from <= to_ ->
  to_ <= rc_seal_max_span (rs_cfg s) ->
  filled (fun o => u32 (begin + o))
    (fun o j => (from <=? o) && (o <? to_) && (j <? rc_slot_count (rs_cfg s)))
    s (fill_rows get begin from to_ s).
Proof.
  intros Hsh Hft Hto. unfold fill_rows.
  set (tk := fun o => u32 (begin + o)). set (n := rc_slot_count (rs_cfg s)).
  assert (1 <= n <= 8) as Hn by apply Hsh.
  pose (P := fun o t => filled tk (fun o' j => (from <=? o') && (o' <? o) && (j <? n)) s t).
  apply (for_range_ind P); [lia|..].
  - split_and!; [done..| |]; intros o j;
      destruct (Z.leb_spec from o), (Z.ltb_spec o from); try lia; cbn; by rewrite ?orb_false_r.
  - intros o t Ho Hp.
    pose (Q := fun j t => filled tk (fun o' j' =>
      ((from <=? o') && (o' <? o) && (j' <? n)) || ((o =? o') && (j' <? j))) s t).
    assert (Q n (for_range 0 n (fun slot => rnet_rb_fill_local_row get (tk o) o slot) t)) as Hq.
    { apply (for_range_ind Q); [lia|..].
      - eapply filled_ext; [|exact Hp]. intros o' j' _ Hj'. cbn.
        destruct (Z.ltb_spec j' 0); [lia|]. by rewrite andb_false_r, orb_false_r.
      - intros j u Hj Hu. eapply filled_ext; [|apply fill_local_row_spec; [exact Hu|]].
        + intros o' j' _ Hj'. cbn beta.
          destruct (Z.eqb_spec o o'); cbn; [|by rewrite !orb_false_r].
          rewrite <- orb_assoc. f_equal.
          destruct (Z.ltb_spec j' j), (Z.eqb_spec j j'), (Z.ltb_spec j' (j + 1)); lia || done.
        + split; lia. }
    eapply filled_ext; [|exact Hq]. intros o' j' _ Hj'. cbn beta.
    destruct (Z.leb_spec from o'), (Z.ltb_spec o' o), (Z.eqb_spec o o'), (Z.ltb_spec j' n),
      (Z.ltb_spec o' (o + 1)); lia || done.
Qed.
End Fill.

(** ** Sequences of operations

    [rb_op] lists every operation that changes a session. The host's history
    is free to change between calls: each operation that reads it carries its
    own [get_input_row]. The ghost list records the (seat, offset) pairs that
    a peer's SEAL_ROWS delivered since the last seal. *)

Definition host : Type := Z -> Z -> option RNetRbFrame.

Inductive rb_op : Type :=
| OpReset
| OpBegin (corr : RNetRbCorrection)
| OpSetPhase (phase : RNetRbPhase)
| OpSeal (get : host) (begin target slot : Z)
| OpExtend (get : host) (target : Z)
| OpResign (get : host) (slot from_ to_ : Z)
| OpApply (get : host) (epoch mismatch target slot row_begin : Z) (rows : list RNetRbFrame)
| OpTipHold
| OpPostMatch
| OpPostDiverge
| OpPromote
| OpConverge (tick : Z)
| OpDemote (tick : Z)
| OpEnqueue (event : RNetRbEvent)
| OpDrain.

(** The offsets [apply_rows] credits. *)
Fixpoint applied_offsets (span row_begin i : Z) (rows : list RNetRbFrame) : list Z :=
  match rows with
  | [] => []
  | row :: rest =>
      let offset := u32 (row_begin + i) in
      if span <=? offset then [] else
      if rf_is_valid row =? 0 then applied_offsets span row_begin (i + 1) rest
      else offset :: applied_offsets span row_begin (i + 1) rest
  end.

Definition rb_step (op : rb_op) (sg : RNetRbSession * list (Z * Z)) : RNetRbSession * list (Z * Z) :=
  let '(s, g) := sg in
  match op with
  | OpReset => (rnet_rb_session_reset s, [])
  | OpBegin corr => (rnet_rb_begin_episode s corr, [])
  | OpSetPhase ph => (rnet_rb_set_phase s ph, g)
  | OpSeal get b t c => (rnet_rb_seal_inputs get s b t c, [])
  | OpExtend get t => (default s (rnet_rb_extend_target get s t), g)
  | OpResign get j a b => (default s (rnet_rb_resign_slot_range get s j a b), g)
  | OpApply get e m t j rb rows =>
      match rnet_rb_apply_peer_seal_rows get s e m t j rb (Some rows) with
      | Some s' => (s', map (pair j) (applied_offsets (rs_sealed_span s') rb 0 rows) ++ g)
      | None => (s, g)
      end
  | OpTipHold => (default s (rnet_rb_enter_tip_hold s), g)
  | OpPostMatch => (rnet_rb_on_post_match s, g)
  | OpPostDiverge => (rnet_rb_on_post_diverge s, g)
  | OpPromote => (rnet_rb_commit_promote_sealed s, g)
  | OpConverge t => (rnet_rb_set_peer_convergence s t, g)
  | OpDemote t => (rnet_rb_demote_resolved_through s t, g)
  | OpEnqueue ev => (rnet_rb_enqueue_event s ev, g)
  | OpDrain => (match rnet_rb_drain_next_event s with Some (_, s') => s' | None => s end, g)
  end.

Definition rb_run (ops : list rb_op) (sg : RNetRbSession * list (Z * Z)) :=
  fold_left (fun x op => rb_step op x) ops sg.

(** Arguments within their C types. *)
Definition op_ok (op : rb_op) : Prop :=
  match op with
  | OpSeal _ b t _ => in_u32 b /\ in_u32 t
  | OpExtend _ t => in_u32 t
  | OpApply _ _ _ t _ _ _ => in_u32 t
  | _ => True
  end.

(** The invariant of a session with the rows [g] delivered by peers. *)
Record rb_inv (s : RNetRbSession) (g : list (Z * Z)) : Prop := {
  inv_shape : shape s;
  inv_span : 0 <= rs_sealed_span s <= rc_seal_max_span (rs_cfg s);
  inv_unsealed : rs_inputs_sealed s = 0 -> rs_sealed_span s = 0;
  inv_sealed : rs_inputs_sealed s <> 0 ->
    in_u32 (co_target_tick (rs_corr s)) /\ 0 <= rs_seal_base_tick s <= co_target_tick (rs_corr s) /\
    rs_sealed_span s = co_target_tick (rs_corr s) - rs_seal_base_tick s + 1;
  inv_mask : forall j o, 0 <= j < 8 -> 0 <= o -> credited s j o = true -> o < rs_sealed_span s;
  inv_tick : forall j o, 0 <= j < rc_slot_count (rs_cfg s) -> 0 <= o < rs_sealed_span s ->
    rf_is_valid (sealed_at s o j) <> 0 -> rf_tick (sealed_at s o j) = rs_seal_base_tick s + o;
  inv_authority : forall j o, 0 <= j < 8 -> 0 <= o -> j <> rc_local_slot (rs_cfg s) ->
    credited s j o = true ->
    rf_is_valid (sealed_at s o j) <> 0 /\
    (rf_is_predicted (sealed_at s o j) = 0 \/ (j, o) ∈ g);
  inv_queue : zlen (rs_events s) = 8 /\ 0 <= rs_event_head s < 8 /\ 0 <= rs_event_tail s < 8
}.

Lemma zero_masks_credited j o : has_bit (rd 0 zero_masks j) o = false.
Proof. unfold zero_masks. rewrite rd_replicate. apply has_bit_0. Qed.

(** A session with no sealed rows. *)
Lemma rb_inv_unsealed s g : shape s -> rs_sealed_span s = 0 -> rs_inputs_sealed s = 0 ->
  rs_peer_seal_mask s = zero_masks ->
  zlen (rs_events s) = 8 /\ 0 <= rs_event_head s < 8 /\ 0 <= rs_event_tail s < 8 -> rb_inv s g.
Proof.
  intros Hsh Hsp Hi Hm Hq.
  assert (forall j o, credited s j o = false) as Hcr
    by (intros; unfold credited; rewrite Hm; apply zero_masks_credited).
  split; try done.
  - rewrite Hsp. destruct Hsh as (? & _). lia.
  - intros j o _ _. by rewrite Hcr.
  - rewrite Hsp. intros; lia.
  - intros j o _ _ _. by rewrite Hcr.
Qed.

(** Changes outside the table, the masks and the span. *)
Lemma rb_inv_control s t g : rb_inv s g ->
  rs_cfg t = rs_cfg s -> rs_sealed t = rs_sealed s -> rs_sealed_span t = rs_sealed_span s ->
  rs_seal_base_tick t = rs_seal_base_tick s -> rs_inputs_sealed t = rs_inputs_sealed s ->
  rs_peer_seal_mask t = rs_peer_seal_mask s ->
  co_target_tick (rs_corr t) = co_target_tick (rs_corr s) ->
  zlen (rs_events t) = 8 /\ 0 <= rs_event_head t < 8 /\ 0 <= rs_event_tail t < 8 -> rb_inv t g.
Proof.
  intros [H1 H2 H3 H4 H5 H6 H7 _] E1 E2 E3 E4 E5 E6 E7 Hq.
  split; unfold shape, credited, sealed_at in *; rewrite ?E1, ?E2, ?E3, ?E4, ?E5, ?E6, ?E7; auto.
Qed.

Lemma same_control_span s t : same_control s t ->
  rs_cfg t = rs_cfg s /\ rs_sealed_span t = rs_sealed_span s /\
  rs_seal_base_tick t = rs_seal_base_tick s /\ rs_inputs_sealed t = rs_inputs_sealed s /\
  rs_corr t = rs_corr s.
Proof. intros H. unfold same_control in H. destruct_and?. auto. Qed.

Lemma filled_row_tick get local j t : rf_tick (filled_row get local j t) = t.
Proof. unfold filled_row. by repeat case_match. Qed.

Lemma filled_credit_row get local j t : filled_credit get local j t = true ->
  rf_is_valid (filled_row get local j t) <> 0 /\ rf_is_predicted (filled_row get local j t) = 0.
Proof.
  unfold filled_credit, filled_row. destruct (get j t) as [row|]; [|done].
  intros [_ H]%andb_prop. rewrite H, orb_true_r. unfold confirmed in H.
  apply andb_prop in H as [H1 H2]. cbn. unfold nz in H1. by bool_prop.
Qed.

(** Extending the sealed span by freshly filled rows. *)
Lemma rb_inv_grow get s g tgt u : rb_inv s g ->
  let base := rs_seal_base_tick s in
  let span := tgt - base + 1 in
  in_u32 tgt -> 0 <= base <= tgt -> rs_sealed_span s <= span <= rc_seal_max_span (rs_cfg s) ->
  let t := fill_rows get base (rs_sealed_span s) span s in
  rs_cfg u = rs_cfg t -> rs_sealed u = rs_sealed t -> rs_peer_seal_mask u = rs_peer_seal_mask t ->
  rs_seal_base_tick u = base -> rs_sealed_span u = span -> rs_inputs_sealed u <> 0 ->
  co_target_tick (rs_corr u) = tgt ->
  zlen (rs_events u) = 8 /\ 0 <= rs_event_head u < 8 /\ 0 <= rs_event_tail u < 8 ->
  rb_inv u g.
Proof.
  intros [Hsh Hsp Hun Hse Hma Hti Hau _] base span Htgt Hb Hspan t E1 E2 E3 E4 E5 E6 E7 Hq.
  destruct (fill_rows_spec get s base (rs_sealed_span s) span Hsh ltac:(lia) ltac:(lia))
    as (Hc & Hsht & Hrow & Hcr). fold t in Hc, Hsht, Hrow, Hcr.
  destruct (same_control_span _ _ Hc) as (Ecfg & _).
  assert (forall j o, credited u j o = credited t j o) as Hcu
    by (intros; unfold credited; by rewrite E3).
  assert (forall o j, sealed_at u o j = sealed_at t o j) as Hsu
    by (intros; unfold sealed_at; by rewrite E2).
  (* an offset of the new span is an old row or a freshly filled one *)
  assert (forall j o, 0 <= j < 8 -> 0 <= o -> credited u j o = true ->
    (o < rs_sealed_span s /\ credited s j o = true) \/
    (rs_sealed_span s <= o < span /\ j < rc_slot_count (rs_cfg s) /\
     filled_credit get (rc_local_slot (rs_cfg s)) j (u32 (base + o)) = true)) as Hcase.
  { intros j o Hj Ho H. rewrite Hcu, (Hcr o j Ho Hj) in H. apply orb_prop in H as [Hold|Hnew].
    - left. split; [by apply (Hma j)|done].
    - right. apply andb_prop in Hnew as [Hnew Hf]. bool_prop. done. }
  split; rewrite ?E4, ?E5, ?E7, ?E1, ?Ecfg; try done; try lia.
  - unfold shape in *. by rewrite E1, E2, E3.
  - intros j o Hj Ho [[? _]|[? _]]%Hcase; lia || done.
  - intros j o Hj Ho. destruct Hsh as (_ & _ & _ & ? & _). rewrite Hsu, (Hrow o j) by (split; lia).
    destruct (Z.leb_spec (rs_sealed_span s) o), (Z.ltb_spec o span),
      (Z.ltb_spec j (rc_slot_count (rs_cfg s))); try lia; cbn [andb].
    + intros _. rewrite filled_row_tick. apply u32_id. ranges. lia.
    + apply Hti; lia.
  - intros j o Hj Ho Hne H. rewrite Hsu. apply Hcase in H as [[Hlt Hold]|(Hr & Hjn & Hf)]; [|..]; try done.
    + rewrite (Hrow o j) by (split; lia).
      destruct (Z.leb_spec (rs_sealed_span s) o); [lia|]. cbn [andb]. auto.
    + rewrite (Hrow o j) by (split; lia).
      destruct (Z.leb_spec (rs_sealed_span s) o), (Z.ltb_spec o span),
        (Z.ltb_spec j (rc_slot_count (rs_cfg s))); try lia. cbn [andb].
      apply filled_credit_row in Hf as [? ?]. auto.
Qed.

(** Replacing a row inside the span, and crediting one. *)
Lemma rb_inv_put s g j o row : rb_inv s g -> 0 <= j < 8 -> 0 <= o < rs_sealed_span s ->
  rf_tick row = rs_seal_base_tick s + o ->
  (j <> rc_local_slot (rs_cfg s) ->
     rf_is_valid row <> 0 /\ (rf_is_predicted row = 0 \/ (j, o) ∈ g)) ->
  rb_inv (seal_row o j row s) g.
Proof.
  intros [Hsh Hsp Hun Hse Hma Hti Hau Hq] Hj Ho Ht Hrow. split; auto with rnet; cbn -[sealed_at].
  - intros j' o' Hj' Ho'. pose proof Hsh as (? & ? & ? & ? & ?).
    rewrite seal_row_at by first [done | split; lia].
    destruct ((o =? o') && (j =? j')) eqn:E; [|by apply Hti]. bool_prop. by subst.
  - intros j' o' Hj' Ho' Hne Hcr. rewrite seal_row_credited in Hcr.
    pose proof (Hma j' o' Hj' Ho' Hcr).
    rewrite seal_row_at by first [done | split; lia].
    destruct ((o =? o') && (j =? j')) eqn:E; [|by apply Hau]. bool_prop. subst. auto.
Qed.

Lemma rb_inv_credit s g j o : rb_inv s g -> 0 <= j < 8 -> 0 <= o < rs_sealed_span s ->
  (j <> rc_local_slot (rs_cfg s) -> rf_is_valid (sealed_at s o j) <> 0 /\
     (rf_is_predicted (sealed_at s o j) = 0 \/ (j, o) ∈ g)) ->
  rb_inv (credit j o s) g.
Proof.
  intros [Hsh Hsp Hun Hse Hma Hti Hau Hq] Hj Ho Hrow.
  assert (forall j' o', 0 <= j' < 8 -> 0 <= o' -> credited (credit j o s) j' o' = true ->
    credited s j' o' = true \/ (j' = j /\ o' = o)) as Hcase.
  { intros j' o' Hj' Ho' H. rewrite credit_at in H by (lia || apply Hsh).
    apply orb_prop in H as [?|H]; [by left|right]. by bool_prop. }
  split; auto with rnet; cbn -[sealed_at credited].
  - intros j' o' Hj' Ho' [?|[-> ->]]%Hcase; [by apply (Hma j')|lia|done|done].
  - intros j' o' Hj' Ho' Hne [?|[-> ->]]%Hcase; try done; rewrite credit_sealed; auto.
Qed.

Lemma rb_inv_mono s g g' : (forall x, x ∈ g -> x ∈ g') -> rb_inv s g -> rb_inv s g'.
Proof.
  intros Hsub [H1 H2 H3 H4 H5 H6 H7 H8]. split; auto.
  intros j o Hj Ho Hne Hcr. destruct (H7 j o Hj Ho Hne Hcr) as [? [?|?]]; auto.
Qed.

Lemma u32_offset s g o : rb_inv s g -> 0 <= o < rs_sealed_span s ->
  u32 (rs_seal_base_tick s + o) = rs_seal_base_tick s + o.
Proof.
  intros Hi Ho. destruct (Z.eq_dec (rs_inputs_sealed s) 0) as [E|E].
  - pose proof (inv_unsealed _ _ Hi E). lia.
  - destruct (inv_sealed _ _ Hi E) as (Ht & Hb & Hs). apply u32_id. ranges. lia.
Qed.

Section Rows.
Context (j : Z) (Hj : 0 <= j < 8).

Lemma apply_rows_inv rows rb i s g : rb_inv s g ->
  (forall o, o ∈ applied_offsets (rs_sealed_span s) rb i rows -> (j, o) ∈ g) ->
  rb_inv (apply_rows j rb i rows s) g /\
  rs_sealed_span (apply_rows j rb i rows s) = rs_sealed_span s.
Proof.
  revert i s. induction rows as [|row rows IH]; intros i s Hi Hg; [done|].
  cbn [apply_rows applied_offsets] in *. pose proof (u32_range (rb + i)) as Hr.
  set (o := u32 (rb + i)) in *.
  destruct (Z.leb_spec (rs_sealed_span s) o); [done|].
  destruct (Z.eqb_spec (rf_is_valid row) 0) as [E|E]; [by apply IH|].
  assert (0 <= o < rs_sealed_span s) as Ho by (ranges; lia).
  assert ((j, o) ∈ g) as Hin by (apply Hg; left).
  assert (forall o', o' ∈ applied_offsets (rs_sealed_span s) rb (i + 1) rows -> (j, o') ∈ g)
    as Hg' by (intros; apply Hg; by right).
  destruct (nz (rf_is_predicted row) && _ && _) eqn:Ek.
  - bool_prop. unfold nz in *. bool_prop.
    destruct (IH (i + 1) (credit j o s)) as [? ?]; [|done..].
    apply rb_inv_credit; auto.
  - set (s1 := seal_row _ _ _ _).
    assert (rb_inv s1 g) as Hi1.
    { apply rb_inv_put; auto. cbn. by apply (u32_offset _ g). }
    destruct (IH (i + 1) (credit j o s1)) as [? ?]; [|done..].
    apply rb_inv_credit; auto. intros _. unfold s1.
    pose proof (inv_shape _ _ Hi) as Hsh. pose proof (inv_span _ _ Hi).
    rewrite seal_row_at by first [done | split; lia]. rewrite !Z.eqb_refl. cbn. auto.
Qed.
End Rows.

Lemma resign_inv get s g j a b : rb_inv s g -> 0 <= j < 8 ->
  rb_inv (for_range 0 (rs_sealed_span s) (resign_step get j a b) s) g.
Proof.
  intros Hi Hj. pose proof (inv_span _ _ Hi) as Hsp.
  apply (for_range_ind (fun _ t => rb_inv t g /\ rs_sealed_span t = rs_sealed_span s)); [lia|done|].
  intros o t Ho [Ht Es]. rewrite <- Es in Ho. unfold resign_step.
  destruct (_ || _); [done|]. destruct (get j _) as [row|]; [|done].
  rewrite (u32_offset t g o Ht Ho).
  destruct (Z.eqb_spec j (rc_local_slot (rs_cfg t))) as [El|Hl]; cbn [negb andb orb].
  - assert (rb_inv (seal_row o j (set_rf_tick (rs_seal_base_tick t + o) row) t) g) as H1
      by (apply rb_inv_put; auto; by intros).
    destruct (nz _ && _); [|done]. split; [|done]. apply rb_inv_credit; auto. by intros.
  - destruct (rf_is_valid row =? 0) eqn:Ev; cbn [orb]; [done|].
    destruct (nz (rf_is_predicted row)) eqn:Ep; [done|]. unfold nz in *. bool_prop. cbn [orb].
    assert (rb_inv (seal_row o j (set_rf_tick (rs_seal_base_tick t + o) row) t) g) as H1
      by (apply rb_inv_put; cbn; auto).
    destruct (_ && _); [|done]. split; [|done]. apply rb_inv_credit; auto. intros _.
    pose proof (inv_shape _ _ Ht). pose proof (inv_span _ _ Ht).
    rewrite seal_row_at by first [done | split; lia]. rewrite !Z.eqb_refl. cbn. auto.
Qed.

Lemma verify_to_replay_same s :
  let t := verify_to_replay s in
  rs_cfg t = rs_cfg s /\ rs_sealed t = rs_sealed s /\ rs_sealed_span t = rs_sealed_span s /\
  rs_seal_base_tick t = rs_seal_base_tick s /\ rs_inputs_sealed t = rs_inputs_sealed s /\
  rs_peer_seal_mask t = rs_peer_seal_mask s /\ rs_corr t = rs_corr s /\
  rs_events t = rs_events s /\ rs_event_head t = rs_event_head s /\
  rs_event_tail t = rs_event_tail s.
Proof. unfold verify_to_replay. by case_bool_decide. Qed.

(** When extension is possible the new span fits the table. *)
Lemma can_extend_bounds s t : rnet_rb_can_extend_target s t = true ->
  rs_inputs_sealed s <> 0 /\
  (co_target_tick (rs_corr s) < t -> rs_seal_base_tick s <= t /\
     t - rs_seal_base_tick s < rc_seal_max_span (rs_cfg s)).
Proof.
  unfold rnet_rb_can_extend_target. intros H.
  destruct (Z.eqb_spec (rs_inputs_sealed s) 0); [done|]. split; [done|]. intros Hlt.
  destruct (rs_phase s); try done;
    (destruct (Z.leb_spec t (co_target_tick (rs_corr s))); [lia|];
     destruct (Z.ltb_spec t (rs_seal_base_tick s)); [done|]; bool_prop; lia).
Qed.

Lemma extend_inv get s g t s' : rb_inv s g -> in_u32 t ->
  rnet_rb_extend_target get s t = Some s' -> rb_inv s' g.
Proof.
  intros Hi Ht H. unfold rnet_rb_extend_target in H.
  destruct (rnet_rb_can_extend_target s t) eqn:Ec; [|done].
  apply can_extend_bounds in Ec as [Hse Hb]. cbn [negb] in H.
  destruct (inv_sealed _ _ Hi Hse) as (Htg & Hbase & Hspan).
  destruct (Z.leb_spec t (co_target_tick (rs_corr s))) as [Hle|Hlt]; injection H as <-.
  - destruct (verify_to_replay_same s) as (? & ? & ? & ? & ? & ? & Ec & E1 & E2 & E3).
    eapply rb_inv_control; eauto; rewrite ?Ec, ?E1, ?E2, ?E3; [done|apply Hi].
  - destruct (Hb Hlt) as [Hb1 Hb2]. pose proof (inv_shape _ _ Hi) as Hsh.
    rewrite (u32_id (t - rs_seal_base_tick s + 1)) by (destruct Hsh as (? & _); ranges; lia).
    set (f := fill_rows _ _ _ _ _).
    destruct (fill_rows_spec get s (rs_seal_base_tick s) (rs_sealed_span s)
      (t - rs_seal_base_tick s + 1) Hsh ltac:(lia) ltac:(lia)) as (Hc & _). fold f in Hc.
    destruct (same_control_span _ _ Hc) as (Ecfg & Esp & Eb & Ei & Eco).
    match goal with |- rb_inv (verify_to_replay ?u) _ =>
      destruct (verify_to_replay_same u) as (V1 & V2 & V3 & V4 & V5 & V6 & V7 & V8 & V9 & V10) end.
    pose proof (inv_queue _ _ Hi) as Hq. unfold same_control in Hc. destruct_and! Hc.
    eapply (rb_inv_grow get s g t); try done; try lia; rewrite ?V1, ?V2, ?V3, ?V4, ?V5, ?V6, ?V7, ?V8, ?V9, ?V10;
      cbn; try done; try congruence.
Qed.

Lemma seal_inv get s g b t c : rb_inv s g -> in_u32 b -> in_u32 t ->
  rb_inv (rnet_rb_seal_inputs get s b t c) [].
Proof.
  intros Hi Hb Ht. unfold rnet_rb_seal_inputs.
  set (s0 := set_rs_peer_seal_mask _ _).
  pose proof (inv_shape _ _ Hi) as Hsh. pose proof (inv_queue _ _ Hi) as Hq.
  assert (shape s0) as Hsh0 by (unfold shape in *; cbn; destruct_and?; by split_and!).
  destruct (_ || _) eqn:Eg; [by apply rb_inv_unsealed|]. bool_prop.
  change (rc_seal_max_span (rs_cfg s0)) with (rc_seal_max_span (rs_cfg s)) in *.
  rewrite (u32_id (t - b + 1)) by (destruct Hsh as (? & _); ranges; lia).
  set (s1 := set_rs_seal_base_tick b s0).
  assert (rb_inv s1 []) as Hi1 by (by apply rb_inv_unsealed).
  set (f := fill_rows _ _ _ _ _).
  destruct (fill_rows_spec get s1 b 0 (t - b + 1) Hsh0 ltac:(lia) ltac:(cbn; lia)) as (Hc & _).
  fold f in Hc. unfold same_control in Hc. destruct_and! Hc.
  eapply (rb_inv_grow get s1 [] t); try done; cbn; try done; try lia; try congruence.
  - ranges; lia.
  - by replace (rs_events f) with (rs_events s) by done; replace (rs_event_head f) with
      (rs_event_head s) by done; replace (rs_event_tail f) with (rs_event_tail s) by done.
Qed.

Lemma apply_inv get s g e m t j rb rows s' : rb_inv s g -> in_u32 t ->
  rnet_rb_apply_peer_seal_rows get s e m t j rb (Some rows) = Some s' ->
  rb_inv s' (map (pair j) (applied_offsets (rs_sealed_span s') rb 0 rows) ++ g).
Proof.
  intros Hi Ht H. unfold rnet_rb_apply_peer_seal_rows in H.
  destruct ((_ =? 0) || negb _) eqn:E1; [done|]. apply orb_false_elim in E1 as [_ E1].
  apply negb_false_iff in E1. unfold rnet_rb_slot_valid, RNET_RB_MAX_SLOTS in E1. bool_prop.
  destruct (_ || _); [done|]. destruct (_ <? co_target_tick _); [done|].
  destruct (if co_target_tick (rs_corr s) <? t then _ else _) as [s1|] eqn:Ex; [|done].
  injection H as <-.
  assert (rb_inv s1 g) as Hi1.
  { destruct (co_target_tick (rs_corr s) <? t); [by eapply extend_inv|congruence]. }
  set (g' := map (pair j) _ ++ g).
  assert (rb_inv s1 g') as Hi1'
    by (eapply rb_inv_mono; [|exact Hi1]; intros; apply elem_of_app; by right).
  destruct (apply_rows_inv j ltac:(lia) rows rb 0 s1 g' Hi1') as [? ?]; [|done].
  intros o Ho. unfold g'. apply elem_of_app. left. apply list_elem_of_fmap_2.
  assert (rs_sealed_span (apply_rows j rb 0 rows s1) = rs_sealed_span s1) as ->; [|done].
  clear. generalize 0 as i. revert s1. induction rows as [|r rows IH]; intros s1 i; [done|].
  cbn. repeat case_match; try done; by rewrite IH.
Qed.

Lemma raise_resolved_inv s g : rb_inv s g -> rb_inv (raise_resolved s) g.
Proof.
  intros Hi. unfold raise_resolved. case_match; [|done].
  eapply rb_inv_control; eauto. apply Hi.
Qed.

Lemma set_phase_inv s g ph : rb_inv s g -> rb_inv (rnet_rb_set_phase s ph) g.
Proof.
  intros Hi. assert (rb_inv (set_rs_phase ph s) g) as H1
    by (eapply rb_inv_control; eauto; apply Hi).
  unfold rnet_rb_set_phase. destruct ph; auto using raise_resolved_inv.
Qed.

(** Every operation preserves the invariant. *)
Lemma rb_step_inv op s g : rb_inv s g -> op_ok op ->
  rb_inv (fst (rb_step op (s, g))) (snd (rb_step op (s, g))).
Proof.
  intros Hi Hok. pose proof (inv_queue _ _ Hi) as Hq. pose proof (inv_shape _ _ Hi) as Hsh.
  destruct op; cbn [rb_step fst snd op_ok] in *.
  - apply rb_inv_unsealed; try done; [|cbn; lia].
    unfold shape in *. cbn. destruct_and?. by split_and!.
  - unfold rnet_rb_begin_episode. apply rb_inv_unsealed; try done.
    unfold shape in *. cbn. destruct_and?. by split_and!.
  - by apply set_phase_inv.
  - destruct Hok. by eapply seal_inv.
  - destruct (rnet_rb_extend_target get s target) eqn:E; [by eapply extend_inv|done].
  - unfold rnet_rb_resign_slot_range. destruct (_ || _) eqn:E; [done|]. destruct (_ <? _); [done|].
    apply orb_false_elim in E as [_ E]. apply negb_false_iff in E.
    unfold rnet_rb_slot_valid, RNET_RB_MAX_SLOTS in E. bool_prop. by apply resign_inv.
  - destruct (rnet_rb_apply_peer_seal_rows _ _ _ _ _ _ _ _) eqn:E; [|done].
    by eapply apply_inv.
  - unfold rnet_rb_enter_tip_hold. destruct (_ || _); [done|]. cbn.
    pose proof (raise_resolved_inv s g Hi) as Hr.
    eapply (rb_inv_control (raise_resolved s)); try done. apply Hr.
  - by apply set_phase_inv, raise_resolved_inv.
  - by apply set_phase_inv.
  - by apply raise_resolved_inv.
  - unfold rnet_rb_set_peer_convergence. case_match; [|done]. by eapply rb_inv_control.
  - unfold rnet_rb_demote_resolved_through. case_match; [|done]. by eapply rb_inv_control.
  - unfold rnet_rb_enqueue_event. case_match; [done|]. eapply rb_inv_control; try done. cbn.
    rewrite zlen_wr. unfold RNET_RB_EVENT_QUEUE_MAX.
    pose proof (Z.mod_pos_bound (rs_event_tail s + 1) 8). lia.
  - unfold rnet_rb_drain_next_event.
    destruct (_ =? _); [done|]. eapply rb_inv_control; try done. cbn.
    unfold RNET_RB_EVENT_QUEUE_MAX. pose proof (Z.mod_pos_bound (rs_event_head s + 1) 8). lia.
Qed.

Lemma create_inv cfg a b c s : 0 <= rc_local_slot cfg -> 0 <= rc_slot_count cfg ->
  0 <= rc_seal_max_span cfg -> rnet_rb_create cfg a b c = Some s -> rb_inv s [].
Proof.
  intros Hl Hn Hm H. unfold rnet_rb_create in H.
  assert (1 <= rc_seal_max_span (normalize_cfg cfg) <= 64 /\
          1 <= rc_slot_count (normalize_cfg cfg) <= 8 /\
          0 <= rc_local_slot (normalize_cfg cfg)) as (H1 & H2 & H3).
  { unfold normalize_cfg, RNET_RB_SEAL_MAX_SPAN, RNET_RB_MAX_SLOTS. cbn.
    destruct (Z.eqb_spec (rc_seal_max_span cfg) 0), (Z.ltb_spec 64 (rc_seal_max_span cfg)),
      (Z.eqb_spec (rc_slot_count cfg) 0); cbn [orb];
      repeat match goal with |- context [?x <? ?y] => destruct (Z.ltb_spec x y) end; lia. }
  revert H H1 H2 H3. generalize (normalize_cfg cfg) as d. intros d H H1 H2 H3.
  destruct a; [|done]. destruct b; [|done]. cbn [negb] in H.
  destruct (Z.ltb_spec (rc_slot_count d) (rc_local_slot d)); [done|].
  destruct c; [|done]. cbn [negb] in H.
  match type of H with Some ?x = _ => assert (s = x) as -> by congruence end.
  apply rb_inv_unsealed; try done.
  unfold shape. cbn. rewrite zlen_replicate. unfold RNET_RB_MAX_SLOTS.
  split_and!; try done; try lia.
Qed.

Lemma rb_run_inv ops s g : rb_inv s g -> Forall op_ok ops ->
  rb_inv (fst (rb_run ops (s, g))) (snd (rb_run ops (s, g))).
Proof.
  intros Hi Hok. revert s g Hi. induction Hok as [|op ops Hop _ IH]; intros s g Hi; [done|].
  cbn [rb_run fold_left]. pose proof (rb_step_inv op s g Hi Hop) as H1.
  destruct (rb_step op (s, g)) as [s1 g1]. by apply IH.
Qed.

(** C37. Session invariant: from any successful creation, after any sequence
    of operations, every array index is in range, the sealed span is exactly
    [target - base + 1] rows of at most [seal_max_span], every valid row of
    an active seat carries the tick of its position, and every credited row
    of a remote seat is valid and either unpredicted or delivered by a peer's
    SEAL_ROWS since the last seal. *)
Theorem rb_reachable_inv cfg s ops :
  0 <= rc_local_slot cfg -> 0 <= rc_slot_count cfg -> 0 <= rc_seal_max_span cfg ->
  rnet_rb_create cfg true true true = Some s -> Forall op_ok ops ->
  rb_inv (fst (rb_run ops (s, []))) (snd (rb_run ops (s, []))).
Proof. intros ? ? ? Hc Hok. apply rb_run_inv; [by eapply create_inv|done]. Qed.

(** A two-seat session, its host history and a short episode. *)
Definition demo_cfg : RNetRbConfig := mkRbConfig 0 2 0 2 12 0 0 0.
Definition demo_session : RNetRbSession :=
  default (rnet_rb_session_reset (mkRbSession demo_cfg PhaseLive (mkCorr 0 0 0 0 0 0 0 0) [] 0 0 0
             [] 0 [] 0 0))
    (rnet_rb_create demo_cfg true true true).
Definition demo_row (slot tick : Z) : RNetRbFrame := mkRbFrame tick (slot + 1) 5 (-3) 0 1 0 0 0.
Definition demo_host : host := fun slot tick =>
  if slot =? 0 then Some (demo_row 0 tick) else None.
Definition demo_ops : list rb_op :=
  [ OpBegin (mkCorr 4 100 98 101 1 1 0 0);
    OpSeal demo_host 98 101 1;
    OpApply demo_host 4 98 102 1 0
      [demo_row 1 98; demo_row 1 99; demo_row 1 100; demo_row 1 101; demo_row 1 102] ].

Lemma demo_ops_ok : Forall op_ok demo_ops.
Proof. repeat constructor; ranges; lia. Defined.

Lemma rb_reachable_inv_witness :
  rb_inv (fst (rb_run demo_ops (demo_session, []))) (snd (rb_run demo_ops (demo_session, []))).
Proof.
  apply (rb_reachable_inv demo_cfg demo_session demo_ops);
    [vm_compute; congruence..|reflexivity|apply demo_ops_ok].
Defined.

(** ** Completion *)

Lemma land_eq_bits m w i : Z.land m w = w -> Z.testbit w i = true -> Z.testbit m i = true.
Proof.
  intros H Hw. rewrite <- H, Z.land_spec in Hw. by apply andb_prop in Hw as [? _].
Qed.

Lemma bits_land_eq m w : (forall i, 0 <= i -> Z.testbit w i = true -> Z.testbit m i = true) ->
  Z.land m w = w.
Proof.
  intros H. apply Z.bits_inj'. intros i Hi. rewrite Z.land_spec.
  destruct (Z.testbit w i) eqn:E; [by rewrite (H i Hi E)|by rewrite andb_false_r].
Qed.

(** The mask a completed seat must have: the bits of the span. *)
Lemma span_mask_testbit span i : 0 <= span <= 64 -> 0 <= i ->
  Z.testbit (if 64 <=? span then u64 (-1) else bit span - 1) i = (i <? span).
Proof.
  intros Hs Hi. destruct (Z.leb_spec 64 span).
  - assert (span = 64) as -> by lia. change (u64 (-1)) with (bit 64 - 1). by apply ones_testbit; lia.
  - apply ones_testbit; lia.
Qed.

(** A seat is complete exactly when every row of the span is credited. *)
Lemma complete_spec s g slot : rb_inv s g -> rs_inputs_sealed s <> 0 -> 0 <= slot < 8 ->
  rnet_rb_peer_seal_rows_complete s slot = true <->
  forall o, 0 <= o < rs_sealed_span s -> credited s slot o = true.
Proof.
  intros Hi Hse Hs. unfold rnet_rb_peer_seal_rows_complete, rnet_rb_inputs_sealed.
  assert (nz (rs_inputs_sealed s) = true) as -> by (unfold nz; by apply negb_true_iff, Z.eqb_neq).
  assert (rnet_rb_slot_valid slot = true) as ->
    by (unfold rnet_rb_slot_valid, RNET_RB_MAX_SLOTS; apply andb_true_intro; split;
        [apply Z.leb_le|apply Z.ltb_lt]; lia).
  cbn [negb orb]. pose proof (inv_span _ _ Hi). pose proof (inv_shape _ _ Hi) as (? & _).
  rewrite Z.eqb_eq. split.
  - intros H1 o Ho. unfold credited. rewrite has_bit_testbit by lia.
    eapply land_eq_bits; [exact H1|]. rewrite span_mask_testbit by lia. apply Z.ltb_lt. lia.
  - intros H1. apply bits_land_eq. intros i Hi0. rewrite span_mask_testbit by lia.
    intros Hlt. bool_prop. specialize (H1 i ltac:(lia)). unfold credited in H1.
    by rewrite has_bit_testbit in H1 by lia.
Qed.

(** Seats the session waits on. *)
Lemma expected_peer_mask_spec s slot : shape s -> 0 <= slot < 8 ->
  has_bit (rnet_rb_expected_peer_mask s) slot = true <->
  slot < rc_slot_count (rs_cfg s) /\ slot <> rc_local_slot (rs_cfg s) /\
  (rc_occupied_mask (rs_cfg s) = 0 \/ has_bit (rc_occupied_mask (rs_cfg s)) slot = true).
Proof.
  intros (_ & _ & _ & Hn & Hl) Hs. unfold rnet_rb_expected_peer_mask, RNET_RB_MAX_SLOTS.
  destruct (Z.eqb_spec (rc_slot_count (rs_cfg s)) 0) as [?|_]; [lia|].
  destruct (Z.ltb_spec 8 (rc_slot_count (rs_cfg s))); [lia|]. cbn [orb].
  destruct (Z.leb_spec 32 (rc_slot_count (rs_cfg s))); [lia|].
  set (n := rc_slot_count (rs_cfg s)) in *. set (l := rc_local_slot (rs_cfg s)) in *.
  set (occ := rc_occupied_mask (rs_cfg s)) in *.
  assert (has_bit (if nz occ then Z.land (bit n - 1) occ else bit n - 1) slot = true <->
          slot < n /\ (occ = 0 \/ has_bit occ slot = true)) as Hm.
  { unfold nz. destruct (Z.eqb_spec occ 0) as [->|Hne]; cbn [negb];
      rewrite ?has_bit_land, ?has_bit_testbit, ones_testbit by lia.
    - rewrite Z.ltb_lt. intuition.
    - rewrite andb_true_iff, Z.ltb_lt. tauto. }
  set (m := if nz occ then _ else _) in *.
  destruct (Z.ltb_spec l n).
  - rewrite has_bit_land, andb_true_iff, Hm by lia.
    assert (has_bit (u32 (Z.lnot (bit l))) slot = negb (slot =? l)) as ->.
    { rewrite has_bit_testbit by lia. unfold u32. change 4294967296 with (2 ^ 32).
      rewrite Z.mod_pow2_bits_low, Z.lnot_spec, bit_testbit by lia. by rewrite Z.eqb_sym. }
    rewrite negb_true_iff, Z.eqb_neq. tauto.
  - rewrite Hm. assert (slot < n -> slot <> l) by lia. tauto.
Qed.

(** What the replay gate promises about one seat and tick. *)
Definition replay_safe (s : RNetRbSession) (g : list (Z * Z)) (slot tick : Z) : Prop :=
  rnet_rb_seat_row_authoritative s slot tick = 1 /\
  exists row v, rnet_rb_get_sealed_frame s slot tick = (Some row, v) /\ v <> 0 /\
    rf_tick row = tick /\
    (rf_is_predicted row = 0 \/ (slot, tick - rs_seal_base_tick s) ∈ g).

Lemma credited_replay_safe s g slot o : rb_inv s g -> rs_inputs_sealed s <> 0 ->
  0 <= slot < rc_slot_count (rs_cfg s) -> slot <> rc_local_slot (rs_cfg s) ->
  0 <= o < rs_sealed_span s -> credited s slot o = true ->
  replay_safe s g slot (rs_seal_base_tick s + o).
Proof.
  intros Hi Hse Hs Hl Ho Hcr. pose proof (inv_shape _ _ Hi) as Hsh.
  assert (0 <= slot < 8) as Hs8 by (destruct Hsh as (_ & _ & _ & ? & _); lia).
  assert (o < 64) as Ho64 by (pose proof (inv_span _ _ Hi); destruct Hsh as (? & _); lia).
  assert (rnet_rb_tick_in_sealed_span s (rs_seal_base_tick s + o) = true) as Hin.
  { unfold rnet_rb_tick_in_sealed_span. destruct (Z.eqb_spec (rs_inputs_sealed s) 0); [done|].
    apply andb_true_intro. split; [apply Z.leb_le|apply Z.ltb_lt]; lia. }
  assert (rnet_rb_slot_valid slot = true) as Hsv
    by (unfold rnet_rb_slot_valid, RNET_RB_MAX_SLOTS; apply andb_true_intro; split;
        [apply Z.leb_le|apply Z.ltb_lt]; lia).
  unfold replay_safe, rnet_rb_seat_row_authoritative, rnet_rb_get_sealed_frame.
  rewrite Hin, Hsv. cbn [negb orb].
  replace (rs_seal_base_tick s + o - rs_seal_base_tick s) with o by lia.
  destruct (Z.eqb_spec slot (rc_local_slot (rs_cfg s))); [done|]. rewrite Hcr.
  destruct (Z.ltb_spec o 64); [|lia]. split; [done|].
  destruct (inv_authority _ _ Hi slot o) as [Hv Ha]; try done; try lia.
  do 2 eexists. split_and!; [done|done|by apply (inv_tick _ _ Hi)|done].
Qed.

(** Replay gate: in any reachable session, once the session reports all
    peer seal rows complete, every sealed tick of every occupied remote seat
    is authoritative, and its row is valid, carries that tick and is either
    the owner's confirmed pad or a row the owner delivered: a prediction made
    by this host is never armed. *)
Theorem rb_complete_replay_safe cfg s0 ops slot tick :
  0 <= rc_local_slot cfg -> 0 <= rc_slot_count cfg -> 0 <= rc_seal_max_span cfg ->
  rnet_rb_create cfg true true true = Some s0 -> Forall op_ok ops ->
  let s := fst (rb_run ops (s0, [])) in
  rnet_rb_all_peer_seal_rows_complete s = true ->
  0 <= slot < 8 -> has_bit (rnet_rb_expected_peer_mask s) slot = true ->
  rnet_rb_tick_in_sealed_span s tick = true ->
  replay_safe s (snd (rb_run ops (s0, []))) slot tick.
Proof.
  intros H1 H2 H3 Hc Hok s Hall Hs Hexp Htick.
  pose proof (rb_run_inv ops s0 [] (create_inv _ _ _ _ _ H1 H2 H3 Hc) Hok) as Hi. fold s in Hi.
  set (g := snd _) in *.
  unfold rnet_rb_tick_in_sealed_span in Htick.
  destruct (Z.eqb_spec (rs_inputs_sealed s) 0) as [|Hse]; [done|]. bool_prop.
  unfold rnet_rb_all_peer_seal_rows_complete, rnet_rb_inputs_sealed in Hall.
  replace (nz (rs_inputs_sealed s)) with true in Hall
    by (symmetry; unfold nz; by apply negb_true_iff, Z.eqb_neq).
  cbn [negb] in Hall. rewrite all_upto_spec in Hall. specialize (Hall slot Hs). cbn beta in Hall.
  rewrite Hexp in Hall. cbn [negb] in Hall.
  rewrite (complete_spec _ _ _ Hi Hse Hs) in Hall.
  apply (expected_peer_mask_spec s slot (inv_shape _ _ Hi) Hs) in Hexp as (? & ? & _).
  replace tick with (rs_seal_base_tick s + (tick - rs_seal_base_tick s)) by lia.
  apply credited_replay_safe; try done; try lia. apply Hall. lia.
Qed.

Lemma rb_complete_replay_safe_witness :
  let s := fst (rb_run demo_ops (demo_session, [])) in
  replay_safe s (snd (rb_run demo_ops (demo_session, []))) 1 102.
Proof.
  apply (rb_complete_replay_safe demo_cfg demo_session demo_ops 1 102);
    [vm_compute; congruence..|reflexivity|apply demo_ops_ok| |lia| |];
    vm_compute; reflexivity.
Defined.

(** ** Handing an owner's rows to a peer *)

(** [apply_rows] on rows that are all confirmed and inside the span. *)
Lemma apply_rows_confirmed s g j rb rows : rb_inv s g -> 0 <= j < 8 -> 0 <= rb ->
  Forall (fun r => rf_is_valid r <> 0 /\ rf_is_predicted r = 0) rows ->
  forall i, 0 <= i -> rb + i + zlen rows <= rs_sealed_span s ->
  let t := apply_rows j rb i rows s in
  same_control s t /\ shape t /\
  forall o j', in_table s o j' ->
    sealed_at t o j' =
      (if (j =? j') && (rb + i <=? o) && (o <? rb + i + zlen rows)
       then set_rf_tick (rs_seal_base_tick s + o) (rd zero_frame rows (o - rb - i))
       else sealed_at s o j') /\
    credited t j' o = credited s j' o || ((j =? j') && (rb + i <=? o) && (o <? rb + i + zlen rows)).
Proof.
  intros Hi Hj Hrb Hrows.
  pose proof (inv_shape _ _ Hi) as Hsh0. pose proof (inv_span _ _ Hi) as Hspan.
  assert (forall o, 0 <= o < rs_sealed_span s -> in_u32 (rs_seal_base_tick s + o)) as Hu.
  { intros o Ho. rewrite <- (u32_offset s g o Hi Ho). apply u32_range. }
  assert (Hs64 : rs_sealed_span s <= 64) by (destruct Hsh0 as (? & _); lia).
  clear Hi. revert s Hsh0 Hspan Hu Hs64.
  induction Hrows as [|row rows [Hv Hp] _ IH]; intros s Hsh Hspan Hu Hs64 i Hi0 Hle.
  - cbn. split_and!; [done..|]. intros o j' _. rewrite zlen_nil.
    destruct (Z.leb_spec (rb + i) o), (Z.ltb_spec o (rb + i + 0)); try lia;
      rewrite ?andb_false_r, ?orb_false_r; done.
  - rewrite zlen_cons in *. pose proof (zlen_nonneg rows). cbn [apply_rows].
    rewrite (u32_id (rb + i)) by (ranges; lia). set (o0 := rb + i) in *.
    destruct (Z.leb_spec (rs_sealed_span s) o0); [lia|].
    destruct (Z.eqb_spec (rf_is_valid row) 0); [done|]. rewrite Hp. cbn [nz negb andb].
    change (nz 0) with false. cbn [andb].
    rewrite (u32_id (rs_seal_base_tick s + o0)) by (apply Hu; lia).
    set (s1 := credit j o0 (seal_row o0 j (set_rf_tick (rs_seal_base_tick s + o0) row) s)).
    destruct (IH s1) with (i := i + 1) as (Hc & Hsh' & Hat); auto with rnet; try lia.
    { unfold s1. auto with rnet. }
    { change (rs_sealed_span s1) with (rs_sealed_span s). lia. }
    split; [exact Hc|]. split; [exact Hsh'|]. intros o j' Hin.
    destruct (Hat o j' Hin) as [Hr Hcr].
    change (rs_seal_base_tick s1) with (rs_seal_base_tick s) in Hr.
    assert (in_table s o0 j) as Hin0 by (split; lia).
    destruct Hin as [Ho Hj'].
    unfold s1 in Hr, Hcr. rewrite credit_sealed, seal_row_at in Hr by first [done|split; lia].
    rewrite credit_at, seal_row_credited in Hcr
      by first [lia | apply Hsh | exact Hsh].
    fold s1 in Hr, Hcr. rewrite Hr, Hcr.
    replace (rb + (i + 1)) with (o0 + 1) by lia.
    destruct (Z.eqb_spec j j') as [->|]; [|split; [by rewrite andb_false_r|by rewrite !orb_false_r]].
    destruct (Z.leb_spec (o0 + 1) o), (Z.ltb_spec o (o0 + 1 + zlen rows)), (Z.eqb_spec o0 o),
      (Z.leb_spec o0 o), (Z.ltb_spec o (o0 + (zlen rows + 1))); try lia; cbn [andb];
      rewrite ?orb_false_r, ?orb_true_r; (split; [|done]); try done.
    + f_equal. unfold rd. replace (Z.to_nat (o - rb - i)) with (S (Z.to_nat (o - rb - (i + 1)))) by lia.
      done.
    + subst o. unfold rd. replace (Z.to_nat (o0 - rb - i)) with O by lia. done.
Qed.

(** The owner [a] exports a chunk and the peer [b] applies it. *)
Definition deliver_chunk (get : host) (a : RNetRbSession) (slot max_rows : Z)
    (b : RNetRbSession) (row_begin : Z) : RNetRbSession :=
  match rnet_rb_export_seal_rows_chunk a slot row_begin max_rows with
  | Some rows =>
      default b (rnet_rb_apply_peer_seal_rows get b (co_epoch_id (rs_corr a)) (rs_seal_base_tick a)
                   (co_target_tick (rs_corr a)) slot row_begin (Some rows))
  | None => b
  end.

(** The peer follows the same episode as the owner. *)
Definition same_episode (a b : RNetRbSession) : Prop :=
  rs_inputs_sealed b <> 0 /\ co_epoch_id (rs_corr b) = co_epoch_id (rs_corr a) /\
  rs_seal_base_tick b = rs_seal_base_tick a /\
  co_target_tick (rs_corr b) = co_target_tick (rs_corr a).

Lemma rd_map_seqZ (f : Z -> RNetRbFrame) n i : 0 <= i < n ->
  rd zero_frame (map f (seqZ 0 n)) i = f i.
Proof.
  intros Hi. unfold rd. rewrite nth_lookup, list_lookup_fmap, lookup_seqZ_lt by lia.
  cbn. f_equal. lia.
Qed.

Lemma set_rf_tick_id t r : rf_tick r = t -> set_rf_tick t r = r.
Proof. intros <-. by destruct r. Qed.

Section Transfer.
Context (get : host) (a : RNetRbSession) (ga : list (Z * Z)) (slot max_rows : Z).
Context (Ha : rb_inv a ga) (Hsa : rs_inputs_sealed a <> 0).
Context (Hslot : 0 <= slot < rc_slot_count (rs_cfg a)) (Hmax : 1 <= max_rows).
(** The owner holds a confirmed row for every tick of the span. *)
Context (Hown : forall o, 0 <= o < rs_sealed_span a ->
  rf_is_valid (sealed_at a o slot) <> 0 /\ rf_is_predicted (sealed_at a o slot) = 0).

(** The rows of [b] at the offsets [cov] are the owner's, and credited. *)
Definition holds (cov : Z -> Prop) (b : RNetRbSession) : Prop :=
  forall o, 0 <= o < rs_sealed_span a -> cov o ->
    sealed_at b o slot = sealed_at a o slot /\ credited b slot o = true.

Lemma deliver_chunk_spec b gb rb cov : rb_inv b gb -> same_episode a b -> 0 <= rb ->
  holds cov b ->
  exists gb', rb_inv (deliver_chunk get a slot max_rows b rb) gb' /\
    same_episode a (deliver_chunk get a slot max_rows b rb) /\
    holds (fun o => cov o \/ rb <= o < rb + max_rows) (deliver_chunk get a slot max_rows b rb).
Proof.
  intros Hb (Hsb & He & Hbase & Htg) Hrb Hcov.
  destruct (inv_sealed _ _ Ha Hsa) as (Htu & Hba & Hspa).
  destruct (inv_sealed _ _ Hb Hsb) as (_ & _ & Hspb). rewrite Hbase, Htg in Hspb.
  pose proof (inv_shape _ _ Ha) as (_ & _ & _ & Hcnt & _).
  assert (rnet_rb_slot_valid slot = true) as Hsv
    by (unfold rnet_rb_slot_valid, RNET_RB_MAX_SLOTS; apply andb_true_intro; split;
        [apply Z.leb_le|apply Z.ltb_lt]; lia).
  unfold deliver_chunk, rnet_rb_export_seal_rows_chunk, rnet_rb_inputs_sealed.
  replace (nz (rs_inputs_sealed a)) with true
    by (symmetry; unfold nz; by apply negb_true_iff, Z.eqb_neq).
  rewrite Hsv. cbn [negb orb].
  assert (forall rows, rnet_rb_apply_peer_seal_rows get b (co_epoch_id (rs_corr a))
    (rs_seal_base_tick a) (co_target_tick (rs_corr a)) slot rb (Some rows)
    = Some (apply_rows slot rb 0 rows b)) as Happ.
  { intros rows. unfold rnet_rb_apply_peer_seal_rows. rewrite Hsv, He, Hbase, Htg, !Z.eqb_refl.
    destruct (Z.eqb_spec (rs_inputs_sealed b) 0); [done|]. by rewrite Z.ltb_irrefl. }
  destruct (Z.leb_spec (rs_sealed_span a) rb) as [Hge|Hlt].
  { rewrite Happ. cbn. exists gb. split_and!; try done.
    intros o Ho [Hc|Hc]; [by apply Hcov|lia]. }
  set (n := if max_rows <? _ then _ else _).
  assert (1 <= n <= rs_sealed_span a - rb /\ (n = max_rows \/ n = rs_sealed_span a - rb)) as [Hn1 Hn2]
    by (unfold n; destruct (Z.ltb_spec max_rows (rs_sealed_span a - rb)); lia).
  rewrite Happ. cbn [default]. set (rows := map _ _). unfold id.
  assert (zlen rows = n) as Hz.
  { unfold rows, zlen. rewrite length_map, length_seqZ. lia. }
  assert (Forall (fun r => rf_is_valid r <> 0 /\ rf_is_predicted r = 0) rows) as Hrows.
  { apply Forall_forall. intros r (i & -> & Hi)%list_elem_of_fmap.
    apply elem_of_seqZ in Hi. apply Hown. lia. }
  destruct (apply_rows_confirmed b gb slot rb rows Hb ltac:(lia) Hrb Hrows 0)
    as (Hc & _ & Hat); [lia|lia|].
  destruct (same_control_span _ _ Hc) as (Ecfg & Esp & Eb & Ei & Eco).
  exists (map (pair slot) (applied_offsets (rs_sealed_span (apply_rows slot rb 0 rows b)) rb 0 rows) ++ gb).
  split_and!.
  - eapply (apply_inv get b gb); [done|exact Htu|apply Happ].
  - split_and!; congruence.
  - intros o Ho Hoc.
    destruct (Hat o slot) as [Hr Hcr].
    { pose proof (inv_span _ _ Hb). split; lia. }
    rewrite Hr, Hcr, Z.eqb_refl, Hz. rewrite Z.add_0_r, Z.sub_0_r. cbn [andb].
    destruct ((rb <=? o) && (o <? rb + n)) eqn:Ein.
    + bool_prop. unfold rows. rewrite rd_map_seqZ by lia.
      replace (rb + (o - rb)) with o by lia.
      rewrite orb_true_r, Hbase. split; [|done]. apply set_rf_tick_id.
      apply (inv_tick _ _ Ha); [lia|done|]. by apply Hown.
    + assert (cov o) as Hco.
      { destruct Hoc as [|Hoc]; [done|]. apply andb_false_iff in Ein as [Ein|Ein]; bool_prop; lia. }
      destruct (Hcov o Ho Hco) as [-> ->]. auto.
Qed.

Lemma deliver_spec rbs b gb cov : rb_inv b gb -> same_episode a b -> Forall (fun x => 0 <= x) rbs ->
  holds cov b ->
  exists gb', let b' := fold_left (deliver_chunk get a slot max_rows) rbs b in
    rb_inv b' gb' /\ same_episode a b' /\
    holds (fun o => cov o \/ exists x, x ∈ rbs /\ x <= o < x + max_rows) b'.
Proof.
  intros Hb He Hrbs. revert b gb cov Hb He.
  induction Hrbs as [|x rbs Hx _ IH]; intros b gb cov Hb He Hcov; cbn [fold_left].
  - exists gb. split_and!; try done. intros o Ho [Hc|(y & Hy & _)]; [by apply Hcov|].
    by apply not_elem_of_nil in Hy.
  - destruct (deliver_chunk_spec b gb x cov Hb He Hx Hcov) as (g1 & Hb1 & He1 & Hc1).
    destruct (IH _ _ _ Hb1 He1 Hc1) as (g2 & Hb2 & He2 & Hc2). exists g2. split_and!; try done.
    intros o Ho Hc. apply Hc2; [done|]. destruct Hc as [Hc|(y & [->|Hy]%elem_of_cons & Hr)]; eauto.
Qed.
End Transfer.

(** Seal transfer: when the owner of a seat holds confirmed rows for the
    whole span and a peer is in the same episode, delivering the owner's
    exported chunks to the peer in any order, with any repetition, as long as
    together they cover the span, leaves the peer with exactly the owner's
    rows for that seat, and the peer reports the seat complete. *)
Theorem rb_seal_transfer get a ga b gb slot max_rows rbs :
  rb_inv a ga -> rb_inv b gb -> rs_inputs_sealed a <> 0 -> same_episode a b ->
  0 <= slot < rc_slot_count (rs_cfg a) -> 1 <= max_rows ->
  (forall o, 0 <= o < rs_sealed_span a ->
     rf_is_valid (sealed_at a o slot) <> 0 /\ rf_is_predicted (sealed_at a o slot) = 0) ->
  Forall (fun x => 0 <= x) rbs ->
  (forall o, 0 <= o < rs_sealed_span a -> exists x, x ∈ rbs /\ x <= o < x + max_rows) ->
  let b' := fold_left (deliver_chunk get a slot max_rows) rbs b in
  (forall o, 0 <= o < rs_sealed_span a -> sealed_at b' o slot = sealed_at a o slot) /\
  rnet_rb_peer_seal_rows_complete b' slot = true.
Proof.
  intros Ha Hb Hsa He Hslot Hmax Hown Hrbs Hcov b'.
  destruct (deliver_spec get a ga slot max_rows Ha Hsa Hslot Hmax Hown rbs b gb (fun _ => False))
    as (g' & Hb' & He' & Hh); auto; [by intros o _|]. fold b' in Hb', He', Hh.
  split.
  - intros o Ho. apply Hh; auto.
  - pose proof (inv_shape _ _ Ha) as (_ & _ & _ & ? & _).
    apply (complete_spec _ _ _ Hb'); [apply He'|lia|]. intros o Ho. apply Hh; [|right]; [|apply Hcov].
    all: destruct He' as (Hs' & _ & Hbase & Htg); destruct (inv_sealed _ _ Hb' Hs') as (_ & _ & Hsp);
      destruct (inv_sealed _ _ Ha Hsa) as (_ & _ & Hspa); lia.
Qed.

(** Seat 0 and seat 1 of a two-seat match in the same episode. *)
Definition demo_episode (seat : Z) : list rb_op :=
  [ OpBegin (mkCorr 4 100 98 101 1 1 0 0);
    OpSeal (fun slot tick => if slot =? seat then Some (demo_row slot tick) else None) 98 101 1 ].
Definition demo_seat (seat : Z) : RNetRbSession :=
  match rnet_rb_create (mkRbConfig seat 2 0 2 12 0 0 0) true true true with
  | Some s => fst (rb_run (demo_episode seat) (s, []))
  | None => demo_session
  end.

Lemma demo_seat_inv seat : 0 <= seat <= 2 -> exists g, rb_inv (demo_seat seat) g.
Proof.
  intros Hs. unfold demo_seat. destruct (rnet_rb_create _ _ _ _) as [s|] eqn:E.
  - eexists. apply rb_run_inv; [eapply create_inv; [..|exact E]; cbn; lia|].
    repeat constructor; ranges; lia.
  - exfalso. unfold rnet_rb_create in E. cbn -[Z.ltb] in E.
    change (if RNET_RB_MAX_SLOTS <? 2 then RNET_RB_MAX_SLOTS else 2) with 2 in E.
    destruct (Z.ltb_spec 2 seat); [lia|discriminate E].
Qed.

Lemma rb_seal_transfer_witness :
  let a := demo_seat 0 in
  let b' := fold_left (deliver_chunk demo_host a 0 3) [2; 0; 2] (demo_seat 1) in
  (forall o, 0 <= o < rs_sealed_span a -> sealed_at b' o 0 = sealed_at a o 0) /\
  rnet_rb_peer_seal_rows_complete b' 0 = true.
Proof.
  destruct (demo_seat_inv 0) as [ga Ha]; [lia|]. destruct (demo_seat_inv 1) as [gb Hb]; [lia|].
  assert (rs_sealed_span (demo_seat 0) = 4) as Hspan by (vm_compute; reflexivity).
  apply (rb_seal_transfer demo_host (demo_seat 0) ga (demo_seat 1) gb 0 3 [2; 0; 2]); try done.
  - rewrite Hspan. intros o Ho.
    assert (o = 0 \/ o = 1 \/ o = 2 \/ o = 3) as [-> | [-> | [-> | ->]]] by lia;
      vm_compute; split; congruence.
  - repeat constructor; lia.
  - rewrite Hspan. intros o Ho. destruct (Z.ltb_spec o 2); [exists 0|exists 2];
      (split; [rewrite list_elem_of_In; simpl; tauto|lia]).
Defined.

(** ** Watermark *)

Lemma raise_resolved_ge u : rs_resolved_through u <= rs_resolved_through (raise_resolved u) /\
  co_target_tick (rs_corr u) <= rs_resolved_through (raise_resolved u).
Proof.
  unfold raise_resolved.
  destruct (Z.ltb_spec (rs_resolved_through u) (co_target_tick (rs_corr u))); cbn; lia.
Qed.

(** A loop whose body keeps the watermark keeps it. *)
Lemma for_range_resolved a b f (u : RNetRbSession) :
  (forall i v, rs_resolved_through (f i v) = rs_resolved_through v) ->
  rs_resolved_through (for_range a b f u) = rs_resolved_through u.
Proof.
  intros Hf. unfold for_range. generalize (seqZ a (b - a)) as l. intros l. revert u.
  induction l as [|i l IH]; intros u; [done|]. cbn. by rewrite IH.
Qed.

Lemma fill_rows_resolved get b f t u :
  rs_resolved_through (fill_rows get b f t u) = rs_resolved_through u.
Proof.
  apply for_range_resolved. intros o v. apply for_range_resolved. intros j w.
  unfold rnet_rb_fill_local_row. by repeat case_match.
Qed.

Lemma extend_resolved get t u u' : rnet_rb_extend_target get u t = Some u' ->
  rs_resolved_through u' = rs_resolved_through u.
Proof.
  assert (forall v, rs_resolved_through (verify_to_replay v) = rs_resolved_through v) as Hv
    by (intros v; unfold verify_to_replay; by case_bool_decide).
  unfold rnet_rb_extend_target. destruct (negb _); [done|].
  destruct (_ <=? _); intros [= <-]; rewrite Hv; [done|]. cbn. apply fill_rows_resolved.
Qed.

Lemma apply_rows_resolved j rb rows i u :
  rs_resolved_through (apply_rows j rb i rows u) = rs_resolved_through u.
Proof.
  revert i u. induction rows as [|r rows IH]; intros i u; [done|].
  cbn. repeat case_match; rewrite ?IH; done.
Qed.

(** Watermark: of all operations only [rnet_rb_demote_resolved_through]
    lowers the resolved-through watermark; a matched POST and a promotion
    raise it to the episode's target. *)
Theorem rb_watermark_monotone op s g :
  (forall t, op <> OpDemote t) ->
  rs_resolved_through s <= rs_resolved_through (fst (rb_step op (s, g))) /\
  (op = OpPostMatch \/ op = OpPromote ->
   co_target_tick (rs_corr s) <= rs_resolved_through (fst (rb_step op (s, g)))).
Proof.
  intros Hop. pose proof (raise_resolved_ge s) as Hr.
  assert (rs_corr (raise_resolved s) = rs_corr s) as Ec by (unfold raise_resolved; by case_match).
  pose proof (raise_resolved_ge (set_rs_phase PhaseCommit (raise_resolved s))) as Hr2.
  destruct op; cbn [rb_step fst]; (split; [|intros [|]; try discriminate]); try (cbn; lia);
    try (cbn in *; rewrite ?Ec in *; lia).
  - destruct phase; cbn; try lia;
      [pose proof (raise_resolved_ge (set_rs_phase PhaseCommit s)) as H1
      |pose proof (raise_resolved_ge (set_rs_phase PhaseAbort s)) as H1]; cbn in *; lia.
  - unfold rnet_rb_seal_inputs. destruct (_ || _); cbn; [lia|]. rewrite fill_rows_resolved. cbn. lia.
  - destruct (rnet_rb_extend_target get s target) eqn:E; cbn; [|lia].
    apply extend_resolved in E. unfold id. lia.
  - unfold rnet_rb_resign_slot_range. destruct (_ || _); cbn; [lia|]. destruct (_ <? _); cbn; [lia|].
    unfold id. rewrite for_range_resolved; [lia|]. intros i v. unfold resign_step.
    by repeat case_match.
  - unfold rnet_rb_apply_peer_seal_rows. destruct (_ || _); [cbn; lia|].
    destruct (_ || _); [cbn; lia|]. destruct (_ <? _); [cbn; lia|].
    destruct (_ <? _).
    + destruct (rnet_rb_extend_target _ _ _) eqn:E; cbn; [|lia].
      apply extend_resolved in E. rewrite apply_rows_resolved. lia.
    + cbn. rewrite apply_rows_resolved. lia.
  - unfold rnet_rb_enter_tip_hold. destruct (_ || _); cbn; [lia|]. unfold id. cbn.
    unfold rnet_rb_commit_promote_sealed. lia.
  - unfold rnet_rb_on_post_match, rnet_rb_set_phase, rnet_rb_commit_promote_sealed. cbn in Hr2. lia.
  - unfold rnet_rb_on_post_match, rnet_rb_set_phase, rnet_rb_commit_promote_sealed.
    cbn in Hr2. rewrite Ec in Hr2. lia.
  - apply Hr.
  - apply Hr.
  - unfold rnet_rb_set_peer_convergence.
    destruct (Z.ltb_spec (rs_resolved_through s) tick); cbn; lia.
  - by destruct (Hop tick).
  - unfold rnet_rb_enqueue_event. case_match; cbn; lia.
  - unfold rnet_rb_drain_next_event. destruct (_ =? _); cbn; lia.
Qed.

Lemma rb_watermark_monotone_witness :
  let s := set_rs_corr (mkCorr 1 5 4 9 0 1 0 0) demo_session in
  rs_resolved_through s <= rs_resolved_through (fst (rb_step OpPostMatch (s, []))) /\
  (OpPostMatch = OpPostMatch \/ OpPostMatch = OpPromote ->
   co_target_tick (rs_corr s) <= rs_resolved_through (fst (rb_step OpPostMatch (s, [])))).
Proof. apply rb_watermark_monotone. discriminate. Defined.

(** The watermark is documented as the highest tick agreed with the
    peers, yet entering the abort phase also raises it: an episode that is
    begun and aborted at once, with no row sealed and nothing compared, moves
    the watermark to the episode's target. *)
Theorem rb_abort_raises_watermark s corr :
  rs_resolved_through s < co_target_tick corr ->
  let s' := rnet_rb_set_phase (rnet_rb_begin_episode s corr) PhaseAbort in
  rnet_rb_inputs_sealed s' = false /\ rs_resolved_through s' = co_target_tick corr.
Proof.
  intros Hlt s'. unfold s', rnet_rb_set_phase, raise_resolved, rnet_rb_begin_episode.
  cbn [set_rs_phase set_rs_peer_seal_mask set_rs_sealed_span set_rs_inputs_sealed set_rs_corr
       rs_resolved_through rs_corr].
  set (c := if _ && _ then _ else _). assert (co_target_tick c = co_target_tick corr) as Ec
    by (unfold c; by case_match).
  rewrite Ec. apply Z.ltb_lt in Hlt. rewrite Hlt. split; [done|]. by rewrite <- Ec.
Qed.

Lemma rb_abort_raises_watermark_witness :
  let s' := rnet_rb_set_phase (rnet_rb_begin_episode demo_session (mkCorr 1 50 48 60 0 1 0 0))
              PhaseAbort in
  rnet_rb_inputs_sealed s' = false /\ rs_resolved_through s' = 60.
Proof.
  apply (rb_abort_raises_watermark demo_session (mkCorr 1 50 48 60 0 1 0 0)). vm_compute. reflexivity.
Defined.

(** ** Event queue *)

(** The queue's contents, oldest first. *)
Definition queue_len (s : RNetRbSession) : Z := (rs_event_tail s - rs_event_head s) mod 8.
Definition queue (s : RNetRbSession) : list RNetRbEvent :=
  map (fun i => rd zero_event (rs_events s) ((rs_event_head s + i) mod 8)) (seqZ 0 (queue_len s)).

Definition queue_ok (s : RNetRbSession) : Prop :=
  zlen (rs_events s) = 8 /\ 0 <= rs_event_head s < 8 /\ 0 <= rs_event_tail s < 8.

Lemma queue_len_range s : 0 <= queue_len s < 8.
Proof. apply Z.mod_pos_bound. lia. Qed.

(** Event queue: the ring refines a FIFO list of capacity 7. Enqueue
    appends the event, or drops it when seven are pending; drain returns the
    oldest event and removes it, and fails exactly on the empty list. *)
Theorem rb_event_queue_fifo s ev : queue_ok s ->
  queue (rnet_rb_enqueue_event s ev)
    = (if (length (queue s) <? 7)%nat then queue s ++ [ev] else queue s) /\
  match rnet_rb_drain_next_event s with
  | None => queue s = []
  | Some (e, s') => queue s = e :: queue s' /\ queue_ok s'
  end.
Proof.
  intros (Hl & Hh & Ht). pose proof (queue_len_range s) as Hq.
  assert (length (queue s) = Z.to_nat (queue_len s)) as Hlen
    by (unfold queue; rewrite length_map, length_seqZ; done).
  split.
  - rewrite Hlen. unfold rnet_rb_enqueue_event, RNET_RB_EVENT_QUEUE_MAX.
    destruct (Z.eqb_spec ((rs_event_tail s + 1) mod 8) (rs_event_head s)) as [E|E].
    + assert (queue_len s = 7) as -> by (unfold queue_len; mlia). done.
    + assert (queue_len s < 7) as Hlt by (unfold queue_len in *; mlia).
      destruct (Nat.ltb_spec (Z.to_nat (queue_len s)) 7); [|lia].
      set (s' := set_rs_event_tail _ _).
      assert (queue_len s' = queue_len s + 1) as Hq' by (unfold queue_len in *; cbn; mlia).
      unfold queue. rewrite Hq', seqZ_snoc, map_app by lia. cbn [map]. f_equal.
      * apply map_ext_in. intros i Hi%list_elem_of_In%elem_of_seqZ. cbn.
        apply rd_wr_ne; [lia|apply Z.mod_pos_bound; lia|]. unfold queue_len in *. mlia.
      * f_equal. cbn. replace ((rs_event_head s + queue_len s) mod 8) with (rs_event_tail s)
          by (unfold queue_len in *; mlia). apply rd_wr_eq. lia.
  - unfold rnet_rb_drain_next_event, RNET_RB_EVENT_QUEUE_MAX.
    destruct (Z.eqb_spec (rs_event_head s) (rs_event_tail s)) as [E|E].
    + assert (queue_len s = 0) as Hz by (unfold queue_len; mlia). unfold queue. by rewrite Hz.
    + set (s' := set_rs_event_head _ _).
      assert (queue_len s = queue_len s' + 1) as Hq' by (unfold queue_len in *; cbn; mlia).
      pose proof (queue_len_range s') as Hr'. split.
      * unfold queue. rewrite Hq'. rewrite seqZ_cons by lia. cbn [map]. f_equal.
        -- by rewrite Z.add_0_r, Z.mod_small by lia.
        -- replace (Z.pred (queue_len s' + 1)) with (queue_len s') by lia.
           rewrite <- (fmap_add_seqZ 1 0), map_map. apply map_ext. intros i.
           unfold s'. cbn [set_rs_event_head rs_event_head rs_events].
           rewrite Zplus_mod_idemp_l. f_equal. f_equal. lia.
      * split; [done|]. unfold s'. cbn [set_rs_event_head rs_event_head rs_event_tail].
        pose proof (Z.mod_pos_bound (rs_event_head s + 1) 8 ltac:(lia)). lia.
Qed.

Lemma rb_event_queue_fifo_witness :
  let s := rnet_rb_enqueue_event demo_session zero_event in
  queue (rnet_rb_enqueue_event s zero_event)
    = (if (length (queue s) <? 7)%nat then queue s ++ [zero_event] else queue s) /\
  match rnet_rb_drain_next_event s with
  | None => queue s = []
  | Some (e, s') => queue s = e :: queue s' /\ queue_ok s'
  end.
Proof. apply rb_event_queue_fifo. vm_compute. repeat split; congruence. Defined.

(** Light-tip agreement: a follower that begins an episode with the
    flags the initiator put on the wire classifies it exactly as the
    initiator did, whatever the two resolved-through watermarks are. *)
Theorem rb_light_tip_agreement si sf corr corr' :
  in_u8 (co_flags corr) -> co_from_peer_notify corr = 0 -> co_from_peer_notify corr' <> 0 ->
  co_flags corr' = co_flags (rs_corr (rnet_rb_begin_episode si corr)) ->
  rnet_rb_recommend_light_tip (rnet_rb_begin_episode sf corr')
  = rnet_rb_recommend_light_tip (rnet_rb_begin_episode si corr) /\
  (rnet_rb_recommend_light_tip (rnet_rb_begin_episode si corr) = true <->
   nz (Z.land (co_flags corr) 1) = true \/
   rnet_rb_is_light_tip_candidate_ex (co_load_tick corr) (co_target_tick corr)
     (rs_resolved_through si) (rc_light_tip_max_depth (rs_cfg si)) = true).
Proof.
  intros Hu8 Hi Hf Hfl. unfold rnet_rb_recommend_light_tip, RNET_RB_CORR_LIGHT_TIP. split.
  - unfold rnet_rb_begin_episode at 1. apply Z.eqb_neq in Hf. rewrite Hf. cbn [andb].
    cbn -[rnet_rb_begin_episode]. by rewrite Hfl.
  - unfold rnet_rb_begin_episode, RNET_RB_CORR_LIGHT_TIP. rewrite Hi. cbn [Z.eqb andb].
    destruct (rnet_rb_is_light_tip_candidate_ex _ _ _ _) eqn:E; cbn -[u8 nz Z.land Z.lor]; [|split; [auto|by intros [?|?]]].
    assert (has_bit (u8 (Z.lor (co_flags corr) 1)) 0 = true) as Hb.
    { rewrite has_bit_testbit by lia. unfold u8. change 256 with (2 ^ 8).
      rewrite Z.mod_pow2_bits_low, Z.lor_spec by lia. by rewrite orb_true_r. }
    unfold has_bit in Hb. change (bit 0) with 1 in Hb. rewrite Hb. tauto.
Qed.

Lemma rb_light_tip_agreement_witness :
  let c := mkCorr 3 10 9 11 0 1 0 0 in
  let c' := mkCorr 3 10 9 11 0 0 1 1 in
  let sf := set_rs_resolved_through 500 demo_session in
  rnet_rb_recommend_light_tip (rnet_rb_begin_episode sf c')
  = rnet_rb_recommend_light_tip (rnet_rb_begin_episode demo_session c) /\
  (rnet_rb_recommend_light_tip (rnet_rb_begin_episode demo_session c) = true <->
   nz (Z.land (co_flags c) 1) = true \/
   rnet_rb_is_light_tip_candidate_ex (co_load_tick c) (co_target_tick c)
     (rs_resolved_through demo_session) (rc_light_tip_max_depth (rs_cfg demo_session)) = true).
Proof.
  apply rb_light_tip_agreement; [ranges; cbn; lia|reflexivity|discriminate|reflexivity].
Defined.
