(* ===== verification/InputHist.v ===== *)
(** * Rollback input history (src/input/rnet_input_hist.c)

    Per-seat rows by tick, depth 128, with hold-last and idle invention for
    missing remote rows and promotion of late wire rows. Each seat of the
    history is a [TickStore]; [rnet_ih_get] is what hosts bind as the rollback
    core's [get_input_row]. *)

From stdpp Require Import base list numbers list_numbers.
From S2P Require Import Prelude Config Rings Contract Rollback.

(** ** Data *)

Definition RNET_INPUT_HIST_DEPTH : Z := 128.
Definition RNET_INPUT_HIST_MAX_SLOTS : Z := 8.

Record RNetInputHist := mkHist {
  ih_rows : list (list RNetRbFrame);
  ih_slot_count : Z;
  ih_invent_count : Z;
  ih_promote_count : Z;
  ih_rewind_count : Z;
  ih_neutral : list RNetRbFrame
}.

Definition eta_hist (h : RNetInputHist) : RNetInputHist :=
  mkHist (ih_rows h) (ih_slot_count h) (ih_invent_count h) (ih_promote_count h)
    (ih_rewind_count h) (ih_neutral h).
Definition set_ih_rows := ltac:(updater eta_hist ih_rows).
Definition set_ih_invent_count := ltac:(updater eta_hist ih_invent_count).
Definition set_ih_promote_count := ltac:(updater eta_hist ih_promote_count).
Definition set_ih_neutral := ltac:(updater eta_hist ih_neutral).

(** The pad of a row: everything but the tick and the flags. *)
Definition with_pad (tick predicted valid : Z) (p : RNetRbFrame) : RNetRbFrame :=
  mkRbFrame tick (rf_buttons p) (rf_stick_x p) (rf_stick_y p) predicted valid (rf_analog p)
    (rf_rx p) (rf_ry p).

(** ** Operations *)

Definition rnet_ih_reset (slot_count : Z) : RNetInputHist :=
  let n := if slot_count <? 1 then 1 else slot_count in
  let n := if RNET_INPUT_HIST_MAX_SLOTS <? n then RNET_INPUT_HIST_MAX_SLOTS else n in
  mkHist (replicate 8 (replicate 128 zero_frame)) n 0 0 0
    (replicate 8 (mkRbFrame 0 65535 0 0 0 0 0 0 0)).

Definition rnet_ih_set_neutral (h : RNetInputHist) (slot : Z) (neutral : RNetRbFrame)
  : option RNetInputHist :=
  if (slot <? 0) || (RNET_INPUT_HIST_MAX_SLOTS <=? slot) then None
  else Some (set_ih_neutral (wr (ih_neutral h) slot (with_pad 0 0 0 neutral)) h).

Definition rnet_ih_frame_to_contract (frame : RNetRbFrame) : RNetInputContractFrame :=
  mkContractFrame (rf_tick frame) (rf_buttons frame) (rf_stick_x frame) (rf_stick_y frame)
    (b2z (nz (rf_is_predicted frame))).

Definition rnet_ih_put (h : RNetInputHist) (slot : Z) (frame : RNetRbFrame)
  : option RNetInputHist :=
  if rf_is_valid frame =? 0 then None else
  if (slot <? 0) || (ih_slot_count h <=? slot) then None else
  let row := rd [] (ih_rows h) slot in
  Some (set_ih_rows
          (wr (ih_rows h) slot
             (wr row (rf_tick frame mod RNET_INPUT_HIST_DEPTH) (set_rf_is_valid 1 frame))) h).

Definition rnet_ih_get (h : RNetInputHist) (slot tick : Z) : option RNetRbFrame :=
  if (slot <? 0) || (ih_slot_count h <=? slot) then None else
  let src := rd zero_frame (rd [] (ih_rows h) slot) (tick mod RNET_INPUT_HIST_DEPTH) in
  if (rf_is_valid src =? 0) || negb (rf_tick src =? tick) then None else Some src.

(** The search of both invents: [look] runs from 1 while [n] steps remain;
    the first earlier row found. *)
Fixpoint look_back (h : RNetInputHist) (slot tick look : Z) (n : nat) : option RNetRbFrame :=
  match n with
  | O => None
  | S m =>
      if tick <? look then None else
      match rnet_ih_get h slot (tick - look) with
      | Some prev => Some prev
      | None => look_back h slot tick (look + 1) m
      end
  end.
Definition last_row (h : RNetInputHist) (slot tick : Z) : option RNetRbFrame :=
  look_back h slot tick 1 127.

(** Store an invented row and count it. *)
Definition put_invented (h : RNetInputHist) (slot : Z) (invented : RNetRbFrame)
  : option (RNetInputHist * RNetRbFrame) :=
  match rnet_ih_put h slot invented with
  | None => None
  | Some h' => Some (set_ih_invent_count (u32 (ih_invent_count h' + 1)) h', invented)
  end.

Definition rnet_ih_invent_hold_last (h : RNetInputHist) (slot tick : Z)
  : option (RNetInputHist * RNetRbFrame) :=
  if (slot <? 0) || (ih_slot_count h <=? slot) then None else
  let invented := with_pad tick 1 1 (rd zero_frame (ih_neutral h) slot) in
  let invented := match last_row h slot tick with
                  | Some prev => with_pad tick 1 1 prev
                  | None => invented
                  end in
  put_invented h slot invented.

Definition rnet_ih_invent_idle (h : RNetInputHist) (slot tick : Z)
  : option (RNetInputHist * RNetRbFrame) :=
  if (slot <? 0) || (ih_slot_count h <=? slot) then None else
  let invented := with_pad tick 1 1 (rd zero_frame (ih_neutral h) slot) in
  let invented := match last_row h slot tick with
                  | Some prev => set_rf_analog (rf_analog prev) invented
                  | None => invented
                  end in
  put_invented h slot invented.

Definition rnet_ih_promote (h : RNetInputHist) (slot : Z) (wire : RNetRbFrame)
  : option RNetInputHist :=
  if rf_is_valid wire =? 0 then None else
  let auth := set_rf_is_valid 1 (set_rf_is_predicted 0 wire) in
  match rnet_ih_put h slot auth with
  | None => None
  | Some h' => Some (set_ih_promote_count (u32 (ih_promote_count h' + 1)) h')
  end.

(** ** Each seat is a tick store *)

Definition hist_ok (h : RNetInputHist) : Prop :=
  1 <= ih_slot_count h <= 8 /\ zlen (ih_rows h) = 8 /\
  Forall (fun r => zlen r = RNET_INPUT_HIST_DEPTH) (ih_rows h).

Lemma hist_row_len h slot : hist_ok h -> 0 <= slot < 8 -> zlen (rd [] (ih_rows h) slot) = 128.
Proof.
  intros (_ & Hl & Hf) Hs. unfold rd. rewrite nth_lookup.
  destruct (ih_rows h !! Z.to_nat slot) as [r|] eqn:E.
  - rewrite Forall_lookup in Hf. by apply (Hf _ _ E).
  - apply lookup_ge_None in E. unfold zlen in Hl. lia.
Qed.

Section Seat.
Context (slot : Z).

Definition seat_store : TickStore RNetInputHist RNetRbFrame := {|
  ts_depth := RNET_INPUT_HIST_DEPTH;
  ts_ok h := hist_ok h /\ 0 <= slot < ih_slot_count h;
  ts_row f := rf_is_valid f = 1 /\ 0 <= rf_tick f;
  ts_tick := rf_tick;
  ts_get h t := rnet_ih_get h slot t;
  ts_put h f := default h (rnet_ih_put h slot f)
|}.

Lemma slot_test h : 0 <= slot < ih_slot_count h -> (slot <? 0) || (ih_slot_count h <=? slot) = false.
Proof. intros. apply orb_false_intro; [apply Z.ltb_ge|apply Z.leb_gt]; lia. Qed.

Lemma put_some h f : rf_is_valid f <> 0 -> 0 <= slot < ih_slot_count h ->
  rnet_ih_put h slot f = Some (set_ih_rows (wr (ih_rows h) slot
    (wr (rd [] (ih_rows h) slot) (rf_tick f mod RNET_INPUT_HIST_DEPTH) (set_rf_is_valid 1 f))) h).
Proof.
  intros Hv Hs. unfold rnet_ih_put. apply Z.eqb_neq in Hv. by rewrite Hv, slot_test.
Qed.

Lemma put_some_default h f : rf_is_valid f <> 0 -> 0 <= slot < ih_slot_count h ->
  rnet_ih_put h slot f = Some (@ts_put _ _ seat_store h f).
Proof.
  intros Hv Hs. change (@ts_put _ _ seat_store h f) with (default h (rnet_ih_put h slot f)).
  by rewrite put_some.
Qed.

Lemma set_valid_id f : rf_is_valid f = 1 -> set_rf_is_valid 1 f = f.
Proof. destruct f; cbn. by intros ->. Qed.

Lemma put_hist_ok h f h' : hist_ok h -> rnet_ih_put h slot f = Some h' ->
  hist_ok h' /\ ih_slot_count h' = ih_slot_count h.
Proof.
  intros Hh H. pose proof (hist_row_len h slot Hh) as Hrl. destruct Hh as (Hn & Hl & Hf).
  unfold rnet_ih_put in H. destruct (_ =? 0); [done|].
  destruct (_ || _) eqn:E; [done|]. bool_prop. injection H as <-. split; [|done].
  split; [done|]. cbn. rewrite zlen_wr. split; [done|].
  apply Forall_insert; [done|]. rewrite zlen_wr. apply Hrl. lia.
Qed.

Lemma seat_laws : @TickStoreLaws RNetInputHist RNetRbFrame seat_store.
Proof.
  split; cbn.
  - done.
  - intros h f [Hh Hs] [Hv Ht]. rewrite put_some by (done || lia). cbn -[hist_ok].
    split; [|done]. eapply put_hist_ok; [exact Hh|]. apply put_some; [lia|done].
  - intros h t f. unfold rnet_ih_get. destruct (_ || _); [done|].
    destruct (_ || _) eqn:E; [done|]. intros [= <-]. by bool_prop.
  - intros h f [Hh Hs] [Hv Ht]. pose proof Hh as (? & Hl & _).
    rewrite put_some by (done || lia). unfold rnet_ih_get.
    cbn [default id set_ih_rows ih_rows ih_slot_count].
    rewrite slot_test by done. rewrite rd_wr_eq by lia.
    rewrite rd_wr_eq
      by (rewrite hist_row_len by (done || lia); apply Z.mod_pos_bound; done).
    cbn. rewrite Z.eqb_refl. cbn. by rewrite set_valid_id.
  - intros h f t [Hh Hs] [Hv Htv] Ht Hne Hd. pose proof Hh as (? & Hl & _).
    rewrite put_some by (done || lia). unfold rnet_ih_get.
    cbn [default id set_ih_rows ih_rows ih_slot_count].
    rewrite slot_test by done. rewrite rd_wr_eq by lia.
    rewrite rd_wr_ne; [done|apply Z.mod_pos_bound; done..|].
    apply mod_window; [done|lia|]. unfold RNET_INPUT_HIST_DEPTH in *. lia.
Qed.
End Seat.

(** Writing one seat leaves the others alone. *)
Lemma put_other_seat h slot f h' slot' t : hist_ok h -> slot' <> slot ->
  rnet_ih_put h slot f = Some h' -> rnet_ih_get h' slot' t = rnet_ih_get h slot' t.
Proof.
  intros (Hn & Hl & _) Hne H. unfold rnet_ih_put in H. destruct (_ =? 0); [done|].
  destruct (_ || _) eqn:E; [done|]. bool_prop. injection H as <-. unfold rnet_ih_get.
  cbn [set_ih_rows ih_rows ih_slot_count].
  destruct (_ || _) eqn:E'; [done|]. bool_prop. by rewrite rd_wr_ne by lia.
Qed.

(** The search finds the nearest earlier row. *)
Definition nearest_row (h : RNetInputHist) (slot tick : Z) (r : option RNetRbFrame) : Prop :=
  match r with
  | Some prev => exists look, 1 <= look <= 127 /\ look <= tick /\
      rnet_ih_get h slot (tick - look) = Some prev /\
      forall l, 1 <= l < look -> rnet_ih_get h slot (tick - l) = None
  | None => forall l, 1 <= l <= 127 -> l <= tick -> rnet_ih_get h slot (tick - l) = None
  end.

Lemma look_back_spec h slot tick n look : 1 <= look -> look + Z.of_nat n = 128 ->
  (forall l, 1 <= l < look -> rnet_ih_get h slot (tick - l) = None) ->
  nearest_row h slot tick (look_back h slot tick look n).
Proof.
  revert look. induction n as [|n IH]; intros look Hl Hn Hnone.
  - cbn. intros l Hr _. apply Hnone. lia.
  - cbn [look_back]. destruct (Z.ltb_spec tick look) as [Hlt|Hge].
    + cbn. intros l Hr Hlt'. apply Hnone. lia.
    + destruct (rnet_ih_get h slot (tick - look)) as [prev|] eqn:E.
      * exists look. split_and!; try lia; done.
      * apply IH; [lia..|]. intros l Hr. destruct (Z.eq_dec l look) as [->|]; [done|].
        apply Hnone. lia.
Qed.

Lemma last_row_nearest h slot tick : nearest_row h slot tick (last_row h slot tick).
Proof. apply look_back_spec; intros; lia. Qed.

(** Hold-last invention: for an active seat, the invented row carries
    the pad of the nearest earlier row of that seat within the history depth,
    or the seat's neutral pad when there is none; it is valid and marked
    predicted, is what the history then returns for that tick, and leaves
    every other seat, and every other tick of the window, as it was. *)
Theorem ih_invent_hold_last_spec h slot tick :
  hist_ok h -> 0 <= slot < ih_slot_count h -> 0 <= tick ->
  exists h' r pad, rnet_ih_invent_hold_last h slot tick = Some (h', r) /\
    (nearest_row h slot tick (Some pad) \/
     nearest_row h slot tick None /\ pad = rd zero_frame (ih_neutral h) slot) /\
    r = with_pad tick 1 1 pad /\ hist_ok h' /\
    rnet_ih_get h' slot tick = Some r /\
    (forall t, 0 <= t -> t <> tick -> Z.abs (t - tick) < RNET_INPUT_HIST_DEPTH ->
       rnet_ih_get h' slot t = rnet_ih_get h slot t) /\
    (forall s t, s <> slot -> rnet_ih_get h' s t = rnet_ih_get h s t).
Proof.
  intros Hh Hs Ht. pose proof (last_row_nearest h slot tick) as Hnr.
  unfold rnet_ih_invent_hold_last, put_invented. rewrite slot_test by done.
  set (pad := match last_row h slot tick with Some p => p | None => rd zero_frame (ih_neutral h) slot end).
  set (r := with_pad tick 1 1 pad).
  assert (match last_row h slot tick with
          | Some prev => with_pad tick 1 1 prev
          | None => with_pad tick 1 1 (rd zero_frame (ih_neutral h) slot) end = r) as ->
    by (unfold r, pad; by destruct (last_row h slot tick)).
  pose proof (seat_laws slot) as L.
  assert (rnet_ih_put h slot r = Some (@ts_put _ _ (seat_store slot) h r)) as Hput
    by (by apply put_some_default).
  set (h1 := @ts_put _ _ (seat_store slot) h r) in *. rewrite Hput.
  destruct (put_hist_ok slot h r h1 Hh Hput) as [Hh1 Hsc1].
  exists (set_ih_invent_count (u32 (ih_invent_count h1 + 1)) h1), r, pad. split_and!; try done.
  - unfold pad. destruct (last_row h slot tick); [by left|by right].
  - by apply (@ts_get_put _ _ _ L h r).
  - intros t Ht0 Hne Hd. by apply (@ts_get_put_ne _ _ _ L h r).
  - intros s t Hne. exact (put_other_seat h slot r h1 s t Hh Hne Hput).
Qed.

Definition demo_hist : RNetInputHist :=
  default (rnet_ih_reset 2) (rnet_ih_put (rnet_ih_reset 2) 1 (mkRbFrame 40 65527 10 0 0 1 2 0 0)).

Lemma demo_hist_ok : hist_ok demo_hist.
Proof. split; [cbn; lia|]. split; [reflexivity|]. repeat constructor. Defined.

Lemma ih_invent_hold_last_spec_witness :
  exists h' r pad, rnet_ih_invent_hold_last demo_hist 1 43 = Some (h', r) /\
    (nearest_row demo_hist 1 43 (Some pad) \/
     nearest_row demo_hist 1 43 None /\ pad = rd zero_frame (ih_neutral demo_hist) 1) /\
    r = with_pad 43 1 1 pad /\ hist_ok h' /\
    rnet_ih_get h' 1 43 = Some r /\
    (forall t, 0 <= t -> t <> 43 -> Z.abs (t - 43) < RNET_INPUT_HIST_DEPTH ->
       rnet_ih_get h' 1 t = rnet_ih_get demo_hist 1 t) /\
    (forall s t, s <> 1 -> rnet_ih_get h' s t = rnet_ih_get demo_hist s t).
Proof.
  apply ih_invent_hold_last_spec; [apply demo_hist_ok|vm_compute; split; congruence|lia].
Defined.

(** Promotion: promoting a valid wire row makes the history return that
    row, unpredicted, at its tick; when an invented row had guessed the same
    buttons and sticks, the contract promotes it without a rewind, and when
    the guess differs in its buttons on a completed tick it rewinds. *)
Theorem ih_promote_then_decide h slot wire guess :
  hist_ok h -> 0 <= slot < ih_slot_count h -> rf_is_valid wire <> 0 -> 0 <= rf_tick wire ->
  rnet_ih_get h slot (rf_tick wire) = Some guess ->
  exists h' auth, rnet_ih_promote h slot wire = Some h' /\
    rnet_ih_get h' slot (rf_tick wire) = Some auth /\
    auth = set_rf_is_valid 1 (set_rf_is_predicted 0 wire) /\
    let decide c := fst (rnet_input_contract_stick_replace_decide
                  (rnet_ih_frame_to_contract guess) (rnet_ih_frame_to_contract auth) c
                  rnet_input_contract_params_init_defaults None) in
    (rf_buttons guess = rf_buttons wire -> rf_stick_x guess = rf_stick_x wire ->
     rf_stick_y guess = rf_stick_y wire -> forall c, decide c = PromoteEqual) /\
    (rf_buttons guess <> rf_buttons wire -> decide 1 = Rewind).
Proof.
  intros Hh Hs Hv Ht Hg. set (auth := set_rf_is_valid 1 (set_rf_is_predicted 0 wire)).
  pose proof (seat_laws slot) as L.
  assert (rf_tick guess = rf_tick wire) as Htg by exact (@ts_get_tick _ _ _ L h _ _ Hg).
  assert (rnet_ih_put h slot auth = Some (@ts_put _ _ (seat_store slot) h auth)) as Hput
    by (by apply put_some_default).
  set (h1 := @ts_put _ _ (seat_store slot) h auth) in *.
  exists (set_ih_promote_count (u32 (ih_promote_count h1 + 1)) h1), auth. split_and!; try done.
  - unfold rnet_ih_promote. apply Z.eqb_neq in Hv. rewrite Hv. fold auth. by rewrite Hput.
  - by apply (@ts_get_put _ _ _ L h auth).
  - intros decide. unfold decide, rnet_input_contract_stick_replace_decide, frame_gameplay_equals.
    cbn -[decide_completed decide_runway]. split.
    + intros Hb Hx Hy c. rewrite Htg, Hb, Hx, Hy, !Z.eqb_refl. cbn. unfold gate_if. by case_match.
    + intros Hb. apply Z.eqb_neq in Hb. rewrite Hb, andb_false_r. cbn -[decide_completed].
      unfold decide_completed. cbn. by rewrite Hb.
Qed.

Lemma ih_promote_then_decide_witness :
  exists h' auth, rnet_ih_promote demo_hist 1 (mkRbFrame 40 65535 10 0 1 1 2 0 0) = Some h' /\
    rnet_ih_get h' 1 40 = Some auth /\
    auth = set_rf_is_valid 1 (set_rf_is_predicted 0 (mkRbFrame 40 65535 10 0 1 1 2 0 0)) /\
    let decide c := fst (rnet_input_contract_stick_replace_decide
                  (rnet_ih_frame_to_contract (mkRbFrame 40 65527 10 0 0 1 2 0 0))
                  (rnet_ih_frame_to_contract auth) c
                  rnet_input_contract_params_init_defaults None) in
    (65527 = 65535 -> 10 = 10 -> 0 = 0 -> forall c, decide c = PromoteEqual) /\
    (65527 <> 65535 -> decide 1 = Rewind).
Proof.
  apply (ih_promote_then_decide demo_hist 1 (mkRbFrame 40 65535 10 0 1 1 2 0 0)
           (mkRbFrame 40 65527 10 0 0 1 2 0 0));
    [apply demo_hist_ok|vm_compute; split; congruence|discriminate|cbn; lia|reflexivity].
Defined.
