(* ===== verification/Quorum.v ===== *)
(** * Episode handshake quorum (src/rollback/rnet_rb_quorum.c)

    Records every expected seat's reply for one epoch; complete once all have
    replied, agreed only when all replies carry the same digests. *)

From stdpp Require Import base list numbers list_numbers.
From S2P Require Import Prelude Config.

Definition RNET_RB_QUORUM_SEATS : Z := 8.
Definition RNET_RB_QUORUM_DIGESTS : Z := 4.

Record RNetRbQuorum := mkQuorum {
  q_expect : Z;
  q_epoch : Z;
  q_seen : Z;
  q_ready : Z;
  q_digest : list (list Z)
}.

(** ** Operations *)

Definition rnet_rb_quorum_reset (expect epoch : Z) : RNetRbQuorum :=
  mkQuorum (Z.land expect (bit RNET_RB_QUORUM_SEATS - 1)) epoch 0 0 (replicate 8 (replicate 4 0)).

(** [digest] NULL records zeros. *)
Definition rnet_rb_quorum_note (q : RNetRbQuorum) (seat epoch : Z) (digest : option (list Z))
    (ready : Z) : RNetRbQuorum * Z :=
  if negb (epoch =? q_epoch q) || (seat <? 0) || (RNET_RB_QUORUM_SEATS <=? seat) then (q, 0) else
  if negb (has_bit (q_expect q) seat) then (q, 0) else
  let row := map (fun i => match digest with Some d => rd 0 d i | None => 0 end)
               (seqZ 0 RNET_RB_QUORUM_DIGESTS) in
  (mkQuorum (q_expect q) (q_epoch q) (Z.lor (q_seen q) (bit seat))
     (if nz ready then Z.lor (q_ready q) (bit seat) else q_ready q)
     (wr (q_digest q) seat row), 1).

Definition rnet_rb_quorum_complete (q : RNetRbQuorum) : bool :=
  Z.land (q_seen q) (q_expect q) =? q_expect q.
Definition rnet_rb_quorum_all_ready (q : RNetRbQuorum) : bool :=
  Z.land (q_ready q) (q_expect q) =? q_expect q.
Definition rnet_rb_quorum_missing (q : RNetRbQuorum) : Z :=
  Z.land (q_expect q) (u32 (Z.lnot (q_seen q))).
Definition rnet_rb_quorum_not_ready (q : RNetRbQuorum) : Z :=
  Z.land (q_expect q) (u32 (Z.lnot (q_ready q))).

Definition digest_at (q : RNetRbQuorum) (s i : Z) : Z := rd 0 (rd [] (q_digest q) s) i.
Definition replied (q : RNetRbQuorum) (s : Z) : bool :=
  has_bit (Z.land (q_expect q) (q_seen q)) s.

(** One seat of the inner loop at digest [i]: the value, the agreement flag
    and the first dissenting seat. *)
Definition view_seat (q : RNetRbQuorum) (local : option (list Z)) (first i s : Z)
    (st : Z * bool * Z) : Z * bool * Z :=
  let '(v, agree, dissent) := st in
  if negb (replied q s) then st else
  let differs := negb (digest_at q s i =? digest_at q first i) in
  let agree := if differs then false else agree in
  let dissent := if differs && (dissent <? 0) then s else dissent in
  let v := match local with
           | Some l => if negb (digest_at q s i =? rd 0 l i) then digest_at q s i else v
           | None => v
           end in
  (v, agree, dissent).

(** One digest: appends [out[i]], threads [dissent]. *)
Definition view_digest (q : RNetRbQuorum) (local : option (list Z)) (first i : Z)
    (st : list Z * Z) : list Z * Z :=
  let '(out, dissent) := st in
  let '(v, agree, dissent) :=
    for_upto RNET_RB_QUORUM_SEATS (view_seat q local first i) (digest_at q first i, true, dissent) in
  (out ++ [if (agree : bool) then digest_at q first i else v], dissent).

Definition view_first (q : RNetRbQuorum) : option Z :=
  list_find (fun s => Is_true (replied q s)) (seqZ 0 RNET_RB_QUORUM_SEATS) ≫= fun x => Some (snd x).

(** The returned flag, the digests written and the dissenting seat. *)
Definition rnet_rb_quorum_view (q : RNetRbQuorum) (local : option (list Z)) : Z * list Z * Z :=
  match view_first q with
  | None => (0, replicate 4 0, -1)
  | Some first =>
      let '(out, dissent) :=
        for_upto RNET_RB_QUORUM_DIGESTS (view_digest q local first) ([], -1) in
      (b2z (dissent <? 0), out, dissent)
  end.

(** [expect & (expect - 1u)] clears the lowest set bit. *)
Definition rnet_rb_quorum_sole_seat (expect : Z) : Z :=
  if (expect =? 0) || nz (Z.land expect (u32 (expect - 1))) then -1 else
  match list_find (fun s => Is_true (has_bit expect s)) (seqZ 0 RNET_RB_QUORUM_SEATS) with
  | Some (_, s) => s
  | None => -1
  end.

(** ** The record of replies *)

Record reply := mkReply { re_seat : Z; re_epoch : Z; re_digest : option (list Z); re_ready : Z }.

Definition notes (rs : list reply) (q : RNetRbQuorum) : RNetRbQuorum :=
  fold_left (fun q r => fst (rnet_rb_quorum_note q (re_seat r) (re_epoch r) (re_digest r) (re_ready r)))
    rs q.

(** The replies of seat [s] for epoch [e]. *)
Definition replies_of (s e : Z) (rs : list reply) : list reply :=
  filter (fun r => re_seat r = s /\ re_epoch r = e) rs.

Definition reply_digest (r : reply) (i : Z) : Z :=
  match re_digest r with Some d => rd 0 d i | None => 0 end.

(** What a quorum knows after the replies [rs], newest last. *)
Record quorum_knows (expect epoch : Z) (rs : list reply) (q : RNetRbQuorum) : Prop := {
  qk_expect : q_expect q = Z.land expect 255;
  qk_epoch : q_epoch q = epoch;
  qk_len : zlen (q_digest q) = 8;
  qk_seen : forall s, 0 <= s < 8 ->
    has_bit (q_seen q) s = has_bit expect s && bool_decide (replies_of s epoch rs <> []);
  qk_ready : forall s, 0 <= s < 8 ->
    has_bit (q_ready q) s =
      has_bit expect s && existsb (fun r => nz (re_ready r)) (replies_of s epoch rs);
  qk_digest : forall s r, 0 <= s < 8 -> has_bit expect s = true ->
    last (replies_of s epoch rs) = Some r ->
    forall i, 0 <= i < 4 -> digest_at q s i = reply_digest r i
}.

Lemma land_255_bit expect s : 0 <= s < 8 -> has_bit (Z.land expect 255) s = has_bit expect s.
Proof.
  intros Hs. rewrite has_bit_land by lia.
  assert (has_bit 255 s = true) as ->; [|by rewrite andb_true_r].
  rewrite has_bit_testbit by lia. change 255 with (Z.ones 8). apply Z.ones_spec_low. lia.
Qed.

Lemma replies_snoc s e rs r : replies_of s e (rs ++ [r])
  = replies_of s e rs ++ (if bool_decide (re_seat r = s /\ re_epoch r = e) then [r] else []).
Proof.
  unfold replies_of. rewrite filter_app. f_equal. case_bool_decide.
  - by rewrite filter_cons_True.
  - by rewrite filter_cons_False.
Qed.

Lemma rd_row_digest (f : Z -> Z) i : 0 <= i < 4 -> rd 0 (map f (seqZ 0 4)) i = f i.
Proof.
  intros Hi. unfold rd. rewrite nth_lookup, list_lookup_fmap, lookup_seqZ_lt by lia.
  cbn. f_equal. lia.
Qed.

Lemma note_knows expect epoch rs q r : quorum_knows expect epoch rs q ->
  quorum_knows expect epoch (rs ++ [r])
    (fst (rnet_rb_quorum_note q (re_seat r) (re_epoch r) (re_digest r) (re_ready r))).
Proof.
  intros [He Hep Hl Hs Hr Hd]. unfold rnet_rb_quorum_note, RNET_RB_QUORUM_SEATS.
  destruct ((_ || _) || _) eqn:Eg.
  { (* ignored: another epoch or no such seat *)
    assert (forall s, 0 <= s < 8 -> ~ (re_seat r = s /\ re_epoch r = epoch)) as Hno.
    { intros s Hr8 [E1 E2]. rewrite Hep, E1, E2, Z.eqb_refl in Eg. cbn in Eg.
      apply orb_prop in Eg as [Eg|Eg]; bool_prop; lia. }
    assert (forall s, 0 <= s < 8 -> replies_of s epoch (rs ++ [r]) = replies_of s epoch rs) as Hsame
      by (intros s Hs8; by rewrite replies_snoc, bool_decide_false, app_nil_r by auto).
    split; auto.
    - intros s Hs8. rewrite Hsame by done. auto.
    - intros s Hs8. rewrite Hsame by done. auto.
    - intros s r' Hs8. rewrite Hsame by done. auto. }
  bool_prop. subst. rewrite He. rewrite land_255_bit by lia.
  destruct (has_bit expect (re_seat r)) eqn:Eb; cbn [negb fst].
  - split; cbn [q_expect q_epoch q_seen q_ready q_digest]; auto.
    + by rewrite zlen_wr.
    + intros s Hs8. rewrite has_bit_lor, has_bit_bit, Hs by lia. rewrite replies_snoc.
      destruct (Z.eqb_spec (re_seat r) s) as [<-|Hne].
      * rewrite Eb, (bool_decide_true (_ /\ _)) by done. rewrite orb_true_r. cbn.
        by rewrite bool_decide_true by (by destruct (replies_of _ _ rs)).
      * rewrite (bool_decide_false (_ /\ _)) by (by intros [? _]). by rewrite app_nil_r, orb_false_r.
    + intros s Hs8. rewrite replies_snoc.
      destruct (Z.eq_dec (re_seat r) s) as [<-|Hne].
      * rewrite (bool_decide_true (_ /\ _)), existsb_app by done. cbn [existsb].
        destruct (nz (re_ready r)).
        -- rewrite has_bit_lor, has_bit_bit, Hr, Eb by lia. by rewrite Z.eqb_refl, !orb_true_r.
        -- by rewrite Hr, Eb, !orb_false_r by lia.
      * rewrite (bool_decide_false (_ /\ _)), app_nil_r by (by intros [? _]).
        destruct (nz (re_ready r)); [|by apply Hr].
        rewrite has_bit_lor, has_bit_bit, Hr by lia. apply Z.eqb_neq in Hne. by rewrite Hne, orb_false_r.
    + intros s r' Hs8 Hbs. rewrite replies_snoc. intros Hlast i Hi. unfold digest_at. cbn [q_digest].
      rewrite rd_wr by lia. destruct (Z.eqb_spec (re_seat r) s) as [<-|Hne].
      * rewrite bool_decide_true, last_snoc in Hlast by done. injection Hlast as <-.
        by apply rd_row_digest.
      * rewrite bool_decide_false, app_nil_r in Hlast by (by intros [? _]). by apply Hd.
  - (* ignored: a seat outside the mask *)
    assert (forall s, has_bit expect s = true ->
      replies_of s (q_epoch q) (rs ++ [r]) = replies_of s (q_epoch q) rs) as Hsame.
    { intros s Hb. rewrite replies_snoc, bool_decide_false, app_nil_r; [done|].
      intros [E _]. congruence. }
    split; auto.
    + intros s Hs8. rewrite Hs by done. destruct (has_bit expect s) eqn:E; [|done]. by rewrite Hsame.
    + intros s Hs8. rewrite Hr by done. destruct (has_bit expect s) eqn:E; [|done]. by rewrite Hsame.
    + intros s r' Hs8 Hbs. rewrite Hsame by done. by apply Hd.
Qed.

Lemma notes_knows expect epoch rs q0 pre : quorum_knows expect epoch pre q0 ->
  quorum_knows expect epoch (pre ++ rs) (notes rs q0).
Proof.
  revert q0 pre. induction rs as [|r rs IH]; intros q0 pre Hq; [by rewrite app_nil_r|].
  cbn [notes fold_left]. replace (pre ++ r :: rs) with ((pre ++ [r]) ++ rs) by (by rewrite <- app_assoc).
  apply IH. by apply note_knows.
Qed.

Lemma reset_knows expect epoch : quorum_knows expect epoch [] (rnet_rb_quorum_reset expect epoch).
Proof.
  split; try done.
  - intros s Hs. cbn [rnet_rb_quorum_reset q_seen]. rewrite has_bit_0.
    rewrite bool_decide_false by (by intros H; apply H). by rewrite andb_false_r.
  - intros s Hs. cbn. by rewrite has_bit_0, andb_false_r.
Qed.

(** Quorum: after any sequence of replies, the quorum is complete exactly
    when every expected seat has a reply for its epoch, ready exactly when
    every expected seat has sent a ready one, and each seat's digests are
    those of its latest reply; replies of other epochs or of seats outside
    the mask count for nothing. *)
Theorem quorum_tracks_replies expect epoch rs :
  let q := notes rs (rnet_rb_quorum_reset expect epoch) in
  (rnet_rb_quorum_complete q = true <->
   forall s, 0 <= s < 8 -> has_bit expect s = true -> replies_of s epoch rs <> []) /\
  (rnet_rb_quorum_all_ready q = true <->
   forall s, 0 <= s < 8 -> has_bit expect s = true ->
     exists r, r ∈ replies_of s epoch rs /\ re_ready r <> 0) /\
  (forall s r, 0 <= s < 8 -> has_bit expect s = true -> last (replies_of s epoch rs) = Some r ->
     forall i, 0 <= i < 4 -> digest_at q s i = reply_digest r i).
Proof.
  intros q. pose proof (notes_knows expect epoch rs _ [] (reset_knows expect epoch)) as Hk.
  change ([] ++ rs) with rs in Hk. fold q in Hk. destruct Hk as [He _ _ Hs Hr Hd].
  assert (forall m (P : Z -> Prop), (forall s, 0 <= s < 8 -> has_bit expect s = true ->
            (has_bit m s = true <-> P s)) ->
          (Z.land m (q_expect q) =? q_expect q) = true <->
          forall s, 0 <= s < 8 -> has_bit expect s = true -> P s) as Hall.
  { intros m P HP. rewrite Z.eqb_eq, He. split.
    - intros E s Hs8 Hb. apply HP; [done..|]. rewrite <- (land_255_bit expect) in Hb by done.
      rewrite <- E, has_bit_land in Hb by lia. by apply andb_prop in Hb as [? _].
    - intros H. apply Z.bits_inj'. intros i Hi. rewrite Z.land_spec.
      destruct (Z.testbit (Z.land expect 255) i) eqn:Eb; [|by rewrite andb_false_r].
      rewrite <- has_bit_testbit in Eb |- * by lia. rewrite andb_true_r.
      assert (i < 8) as Hi8.
      { destruct (Z.ltb_spec i 8); [done|]. rewrite has_bit_testbit, Z.land_spec in Eb by lia.
        change 255 with (Z.ones 8) in Eb. by rewrite Z.ones_spec_high, andb_false_r in Eb by lia. }
      rewrite land_255_bit in Eb by lia. apply HP; [lia|done|]. apply H; [lia|done]. }
  split_and!; [| |done].
  - apply (Hall (q_seen q) (fun s => replies_of s epoch rs <> [])). intros s Hs8 Hb.
    rewrite Hs, Hb by done. cbn. apply bool_decide_eq_true.
  - apply (Hall (q_ready q) (fun s => exists r, r ∈ replies_of s epoch rs /\ re_ready r <> 0)).
    intros s Hs8 Hb. rewrite Hr, Hb by done. cbn. rewrite existsb_exists.
    split; intros (r & Hin & Hz); exists r; rewrite <- list_elem_of_In in *;
      (split; [done|]); unfold nz in *; [by bool_prop|by apply negb_true_iff, Z.eqb_neq].
Qed.

(** ** The view *)

Section View.
Context (q : RNetRbQuorum) (local : list Z) (first : Z).

(** All seats below [n] that replied carry the first seat's digest [i]. *)
Definition agree_upto (n i : Z) : Prop :=
  forall s, 0 <= s < n -> replied q s = true -> digest_at q s i = digest_at q first i.

Definition seat_inv (i d0 n : Z) (st : Z * bool * Z) : Prop :=
  let '(v, agree, dissent) := st in
  (agree = true <-> agree_upto n i) /\
  ((v = digest_at q first i /\
    forall s, 0 <= s < n -> replied q s = true -> digest_at q s i = rd 0 local i)
   \/ v <> rd 0 local i) /\
  (dissent < 0 <-> d0 < 0 /\ agree = true).

Lemma view_seat_inv i d0 n st : 0 <= n -> seat_inv i d0 n st ->
  seat_inv i d0 (n + 1) (view_seat q (Some local) first i n st).
Proof.
  intros Hn. destruct st as [[v agree] dissent]. intros (Ha & Hv & Hd). unfold view_seat.
  assert (forall P : Z -> Prop, (forall s, 0 <= s < n -> replied q s = true -> P s) ->
    (replied q n = true -> P n) -> forall s, 0 <= s < n + 1 -> replied q s = true -> P s) as Hsnoc.
  { intros P H1 H2 s Hs Hr. destruct (Z.eq_dec s n) as [->|]; [auto|apply H1; [lia|done]]. }
  assert (agree_upto (n + 1) i -> agree_upto n i) as Hdown
    by (intros H s Hs Hr; apply H; [lia|done]).
  assert (digest_at q n i = rd 0 local i \/ replied q n = false ->
    (v = digest_at q first i /\
     (forall s, 0 <= s < n + 1 -> replied q s = true -> digest_at q s i = rd 0 local i))
    \/ v <> rd 0 local i) as Hv'.
  { intros Hn'. destruct Hv as [[? Hall]|?]; [left; split; [done|]|by right].
    refine (Hsnoc (fun s => digest_at q s i = rd 0 local i) _ _); [done|].
    intros Hr. destruct Hn' as [?|Hn']; [done|congruence]. }
  destruct (replied q n) eqn:Er; cbn [negb].
  - assert (let v' := if negb (digest_at q n i =? rd 0 local i) then digest_at q n i else v in
      (v' = digest_at q first i /\
       (forall s, 0 <= s < n + 1 -> replied q s = true -> digest_at q s i = rd 0 local i))
      \/ v' <> rd 0 local i) as Hv2.
    { destruct (Z.eqb_spec (digest_at q n i) (rd 0 local i)); cbn [negb]; [auto|by right]. }
    destruct (Z.eqb_spec (digest_at q n i) (digest_at q first i)) as [E|E]; cbn [negb andb];
      (split; [|split; [exact Hv2|]]).
    + rewrite Ha. split; [|done]. intros H.
      refine (Hsnoc (fun s => digest_at q s i = digest_at q first i) _ _); auto.
    + done.
    + split; [done|]. intros H. destruct E. apply H; [lia|done].
    + destruct (Z.ltb_spec dissent 0); split; intros; try lia; by destruct_and?.
  - split; [|split; [auto|done]]. rewrite Ha. split; [|done]. intros H.
    refine (Hsnoc (fun s => digest_at q s i = digest_at q first i) _ _); done.
Qed.

Definition row_ok (i o : Z) : Prop :=
  (agree_upto 8 i -> o = digest_at q first i) /\
  (o <> rd 0 local i <-> exists s, 0 <= s < 8 /\ replied q s = true /\ digest_at q s i <> rd 0 local i).

Context (Hfirst : 0 <= first < 8) (Hreplied : replied q first = true).

Lemma seat_inv_row i d0 st : seat_inv i d0 8 st ->
  row_ok i (if snd (fst st) then digest_at q first i else fst (fst st)).
Proof.
  destruct st as [[v agree] dissent]. intros (Ha & Hv & _). cbn [fst snd].
  unfold row_ok. destruct agree.
  - assert (agree_upto 8 i) as Hall by (by apply Ha). split; [done|]. split.
    + intros Hne. exists first. done.
    + intros (s & Hs & Hr & Hne). by rewrite <- (Hall s Hs Hr).
  - split; [intros H; by apply Ha in H|].
    destruct Hv as [[-> Hloc]|Hne].
    + exfalso. assert (agree_upto 8 i) as H; [|by apply Ha in H].
      intros s Hs Hr. by rewrite (Hloc s Hs Hr), (Hloc first Hfirst Hreplied).
    + split; [|done]. intros _. 
      destruct (decide (Exists (fun s => replied q s = true /\ digest_at q s i <> rd 0 local i) (seqZ 0 8)))
        as [(s & Hs & ? & ?)%Exists_exists|Hno].
      * apply elem_of_seqZ in Hs. exists s. split; [lia|done].
      * exfalso. assert (agree_upto 8 i) as H; [|by apply Ha in H].
        assert (forall s, 0 <= s < 8 -> replied q s = true -> digest_at q s i = rd 0 local i) as Hloc.
        { intros s Hs Hr. destruct (decide (digest_at q s i = rd 0 local i)); [done|].
          destruct Hno. apply Exists_exists. exists s. split; [apply elem_of_seqZ; lia|done]. }
        intros s Hs Hr. by rewrite (Hloc s Hs Hr), (Hloc first Hfirst Hreplied).
Qed.

Definition out_inv (n : Z) (st : list Z * Z) : Prop :=
  zlen (fst st) = n /\ (forall i, 0 <= i < n -> row_ok i (rd 0 (fst st) i)) /\
  (snd st < 0 <-> forall i, 0 <= i < n -> agree_upto 8 i).

Lemma view_digest_inv n st : 0 <= n -> out_inv n st ->
  out_inv (n + 1) (view_digest q (Some local) first n st).
Proof.
  intros Hn. destruct st as [out d0]. intros (Hl & Hrows & Hd). cbn [fst snd] in *.
  unfold view_digest.
  assert (seat_inv n d0 8 (for_upto RNET_RB_QUORUM_SEATS (view_seat q (Some local) first n)
    (digest_at q first n, true, d0))) as Hs.
  { apply (for_upto_ind (seat_inv n d0)); [done| |intros; apply view_seat_inv; [lia|done]].
    split; [split; [intros _ s Hs; lia|done]|]. split; [left; split; [done|intros; lia]|tauto]. }
  pose proof (seat_inv_row _ _ _ Hs) as Hrow.
  destruct (for_upto _ _ _) as [[v agree] dissent]. cbn [fst snd] in *.
  destruct Hs as (Ha & _ & Hdis). split; [|split]; cbn [fst snd].
  - rewrite zlen_app, zlen_cons, zlen_nil. lia.
  - intros i Hi. unfold rd. rewrite nth_lookup. destruct (Z.eq_dec i n) as [->|].
    + rewrite lookup_app_r by (unfold zlen in Hl; lia).
      replace (Z.to_nat n - length out)%nat with O by (unfold zlen in Hl; lia). exact Hrow.
    + rewrite lookup_app_l by (unfold zlen in Hl; lia). specialize (Hrows i ltac:(lia)).
      unfold rd in Hrows. by rewrite nth_lookup in Hrows.
  - rewrite Hdis, Hd, Ha. split.
    + intros [H1 H2] i Hi. destruct (Z.eq_dec i n) as [->|]; [done|apply H1; lia].
    + intros H. split; [intros i Hi; apply H; lia|apply H; lia].
Qed.
End View.

Lemma view_first_spec q : match view_first q with
  | Some f => 0 <= f < 8 /\ replied q f = true
  | None => forall s, 0 <= s < 8 -> replied q s = false
  end.
Proof.
  unfold view_first, RNET_RB_QUORUM_SEATS. destruct (list_find _ _) as [[k f]|] eqn:E; cbn.
  - apply list_find_Some in E as (Hk & Hr & _). split; [|by apply Is_true_eq_true].
    apply list_elem_of_lookup_2, elem_of_seqZ in Hk. lia.
  - intros s Hs. apply list_find_None in E. rewrite Forall_forall in E.
    apply not_true_is_false. intros Hr. apply (E s); [apply elem_of_seqZ; lia|by rewrite Hr].
Qed.

(** View: once some expected seat has replied, the view's digest at each
    position differs from the local one exactly when some replying seat's
    digest there does, so comparing the view with the local digests fails
    whenever any seat disagrees with this host; the view reports agreement
    exactly when all replies are equal, and then returns their common value. *)
Theorem quorum_view_detects q local :
  (exists s, 0 <= s < 8 /\ replied q s = true) ->
  let '(ret, out, dissent) := rnet_rb_quorum_view q (Some local) in
  zlen out = 4 /\
  (forall i, 0 <= i < 4 ->
     (rd 0 out i <> rd 0 local i <->
      exists s, 0 <= s < 8 /\ replied q s = true /\ digest_at q s i <> rd 0 local i)) /\
  (ret = 1 <-> forall s s' i, 0 <= s < 8 -> 0 <= s' < 8 -> 0 <= i < 4 ->
     replied q s = true -> replied q s' = true -> digest_at q s i = digest_at q s' i) /\
  (ret = 1 -> forall s i, 0 <= s < 8 -> 0 <= i < 4 -> replied q s = true ->
     rd 0 out i = digest_at q s i).
Proof.
  intros (s0 & Hs0 & Hr0). unfold rnet_rb_quorum_view.
  pose proof (view_first_spec q) as Hf. destruct (view_first q) as [f|];
    [|by rewrite (Hf s0) in Hr0].
  destruct Hf as [Hf Hrf]. unfold RNET_RB_QUORUM_DIGESTS.
  assert (out_inv q local f 4 (for_upto 4 (view_digest q (Some local) f) ([], -1))) as H.
  { apply (for_upto_ind (out_inv q local f)); [lia| |intros; apply view_digest_inv; done || lia].
    split; [done|]. split; [intros; lia|]. cbn. split; [intros _ i Hi; lia|lia]. }
  destruct (for_upto _ _ _) as [out dissent]. destruct H as (Hl & Hrows & Hd). cbn [fst snd] in *.
  assert (b2z (dissent <? 0) = 1 <-> forall i, 0 <= i < 4 -> agree_upto q f 8 i) as Hret.
  { rewrite <- Hd. destruct (Z.ltb_spec dissent 0); cbn; lia. }
  split_and!; [done|intros i Hi; apply (Hrows i Hi)| |].
  - rewrite Hret. split.
    + intros H s s' i Hs Hs' Hi Hr Hr'. by rewrite (H i Hi s Hs Hr), (H i Hi s' Hs' Hr').
    + intros H i Hi s Hs Hr. by apply H.
  - intros Hone s i Hs Hi Hr. rewrite Hret in Hone. destruct (Hrows i Hi) as [Hc _].
    rewrite (Hc (Hone i Hi)). symmetry. by apply Hone.
Qed.

Definition demo_quorum : RNetRbQuorum :=
  notes [mkReply 1 7 (Some [5; 6; 7; 8]) 1; mkReply 2 7 (Some [5; 6; 9; 8]) 0]
    (rnet_rb_quorum_reset 6 7).

Lemma quorum_view_detects_witness :
  let '(ret, out, dissent) := rnet_rb_quorum_view demo_quorum (Some [5; 6; 7; 8]) in
  zlen out = 4 /\
  (forall i, 0 <= i < 4 ->
     (rd 0 out i <> rd 0 [5; 6; 7; 8] i <->
      exists s, 0 <= s < 8 /\ replied demo_quorum s = true /\
        digest_at demo_quorum s i <> rd 0 [5; 6; 7; 8] i)) /\
  (ret = 1 <-> forall s s' i, 0 <= s < 8 -> 0 <= s' < 8 -> 0 <= i < 4 ->
     replied demo_quorum s = true -> replied demo_quorum s' = true ->
     digest_at demo_quorum s i = digest_at demo_quorum s' i) /\
  (ret = 1 -> forall s i, 0 <= s < 8 -> 0 <= i < 4 -> replied demo_quorum s = true ->
     rd 0 out i = digest_at demo_quorum s i).
Proof.
  apply (quorum_view_detects demo_quorum [5; 6; 7; 8]). exists 1. split; [lia|reflexivity].
Defined.
