(* ===== verification/HashConfirm.v ===== *)
(** * Hash confirmation (src/rollback/rnet_hash_confirm.c)

    A ring of local digests matched against the peers' FRAME_COMMITs; the
    resolved-through watermark advances over contiguous matching ticks. With
    a peer mask the chain is a quorum: a tick's peer digest exists once every
    masked seat has committed it, and matches only when all agree.

    [try_advance] is an unbounded loop; [try_advance_n] runs it with fuel and
    [hc_try_advance_terminates] shows that the fuel of [try_advance] always
    reaches the loop's exit. *)

From stdpp Require Import base list numbers list_numbers.
From S2P Require Import Prelude Config Rings.

(** ** Data *)

Definition RNET_HC_RING : Z := 128.
Definition RNET_HC_MAX_PEERS : Z := 8.

Record RNetHashConfirm := mkHc {
  hc_local_tick : list Z;
  hc_local_digest : list Z;
  hc_local_valid : list Z;
  hc_peer_tick : list Z;
  hc_peer_digest : list Z;
  hc_peer_valid : list Z;
  hc_resolved_through : Z;
  hc_resolved_valid : Z;
  hc_peer_mask : Z;
  hc_quorum_tick : list Z;
  hc_quorum_seen : list Z;
  hc_quorum_conflict : list Z;
  hc_quorum_digest : list (list Z)
}.

Definition eta_hc (h : RNetHashConfirm) : RNetHashConfirm :=
  mkHc (hc_local_tick h) (hc_local_digest h) (hc_local_valid h) (hc_peer_tick h)
    (hc_peer_digest h) (hc_peer_valid h) (hc_resolved_through h) (hc_resolved_valid h)
    (hc_peer_mask h) (hc_quorum_tick h) (hc_quorum_seen h) (hc_quorum_conflict h)
    (hc_quorum_digest h).
Definition set_hc_local_tick := ltac:(updater eta_hc hc_local_tick).
Definition set_hc_local_digest := ltac:(updater eta_hc hc_local_digest).
Definition set_hc_local_valid := ltac:(updater eta_hc hc_local_valid).
Definition set_hc_peer_tick := ltac:(updater eta_hc hc_peer_tick).
Definition set_hc_peer_digest := ltac:(updater eta_hc hc_peer_digest).
Definition set_hc_peer_valid := ltac:(updater eta_hc hc_peer_valid).
Definition set_hc_resolved_through := ltac:(updater eta_hc hc_resolved_through).
Definition set_hc_resolved_valid := ltac:(updater eta_hc hc_resolved_valid).
Definition set_hc_peer_mask := ltac:(updater eta_hc hc_peer_mask).
Definition set_hc_quorum_tick := ltac:(updater eta_hc hc_quorum_tick).
Definition set_hc_quorum_seen := ltac:(updater eta_hc hc_quorum_seen).
Definition set_hc_quorum_conflict := ltac:(updater eta_hc hc_quorum_conflict).
Definition set_hc_quorum_digest := ltac:(updater eta_hc hc_quorum_digest).

(** [memset] to zero. *)
Definition zero_hc : RNetHashConfirm :=
  let z := replicate 128 0 in
  mkHc z z z z z z 0 0 0 z z z (replicate 128 (replicate 8 0)).

Definition slot_of (tick : Z) : Z := tick mod RNET_HC_RING.

(** [arr[i] = v] on a field. *)
Definition put_at {A} (get : RNetHashConfirm -> list A)
    (set : list A -> RNetHashConfirm -> RNetHashConfirm) (i : Z) (v : A)
    (h : RNetHashConfirm) : RNetHashConfirm := set (wr (get h) i v) h.

(** ** Operations *)

Definition rnet_hc_reset (hc : RNetHashConfirm) : RNetHashConfirm :=
  set_hc_peer_mask (hc_peer_mask hc) zero_hc.

Definition rnet_hc_prime_after (hc : RNetHashConfirm) (last_ok : Z) : RNetHashConfirm :=
  set_hc_resolved_valid 1 (set_hc_resolved_through last_ok (rnet_hc_reset hc)).

Definition local_at (hc : RNetHashConfirm) (tick : Z) : option Z :=
  let i := slot_of tick in
  if (rd 0 (hc_local_valid hc) i =? 0) || negb (rd 0 (hc_local_tick hc) i =? tick) then None
  else Some (rd 0 (hc_local_digest hc) i).

Definition peer_at (hc : RNetHashConfirm) (tick : Z) : option Z :=
  let i := slot_of tick in
  if (rd 0 (hc_peer_valid hc) i =? 0) || negb (rd 0 (hc_peer_tick hc) i =? tick) then None
  else Some (rd 0 (hc_peer_digest hc) i).

(** The tick the watermark waits for; [None] at the end of the range. *)
Definition next_tick (hc : RNetHashConfirm) : option Z :=
  if hc_resolved_valid hc =? 0 then Some 0
  else if hc_resolved_through hc =? UINT32_MAX then None
  else Some (u32 (hc_resolved_through hc + 1)).

(** One iteration of the loop; [None] where it returns. *)
Definition advance_once (hc : RNetHashConfirm) : option RNetHashConfirm :=
  match next_tick hc with
  | None => None
  | Some next =>
      match local_at hc next, peer_at hc next with
      | Some ld, Some pd =>
          if negb (ld =? pd) || nz (rd 0 (hc_quorum_conflict hc) (slot_of next)) then None
          else Some (set_hc_resolved_valid 1 (set_hc_resolved_through next hc))
      | _, _ => None
      end
  end.

Fixpoint try_advance_n (n : nat) (hc : RNetHashConfirm) : RNetHashConfirm :=
  match n with
  | O => hc
  | S m => match advance_once hc with Some hc' => try_advance_n m hc' | None => hc end
  end.
Definition try_advance (hc : RNetHashConfirm) : RNetHashConfirm := try_advance_n 129 hc.

Definition rnet_hc_note_local (hc : RNetHashConfirm) (tick digest : Z) : RNetHashConfirm :=
  let i := slot_of tick in
  try_advance
    (put_at hc_local_valid set_hc_local_valid i 1
      (put_at hc_local_digest set_hc_local_digest i digest
        (put_at hc_local_tick set_hc_local_tick i tick hc))).

Definition note_peer_slot (i tick digest conflict : Z) (hc : RNetHashConfirm) : RNetHashConfirm :=
  put_at hc_quorum_conflict set_hc_quorum_conflict i conflict
    (put_at hc_peer_valid set_hc_peer_valid i 1
      (put_at hc_peer_digest set_hc_peer_digest i digest
        (put_at hc_peer_tick set_hc_peer_tick i tick hc))).

Definition rnet_hc_note_peer (hc : RNetHashConfirm) (tick digest : Z) : RNetHashConfirm :=
  try_advance (note_peer_slot (slot_of tick) tick digest 0 hc).

Definition rnet_hc_set_peer_mask (hc : RNetHashConfirm) (peer_mask : Z) : RNetHashConfirm :=
  set_hc_peer_mask (Z.land peer_mask (bit RNET_HC_MAX_PEERS - 1)) hc.

Definition digest_of (hc : RNetHashConfirm) (i s : Z) : Z := rd 0 (rd [] (hc_quorum_digest hc) i) s.

(** The scan over the masked seats: [(first, have_first, conflict)]. *)
Definition scan_seat (hc : RNetHashConfirm) (i s : Z) (st : Z * bool * Z) : Z * bool * Z :=
  let '(first, have_first, conflict) := st in
  if negb (has_bit (hc_peer_mask hc) s) then st
  else if negb have_first then (digest_of hc i s, true, conflict)
  else if negb (digest_of hc i s =? first) then (first, have_first, 1)
  else st.

Definition rnet_hc_note_peer_from (hc : RNetHashConfirm) (seat tick digest : Z) : RNetHashConfirm :=
  if hc_peer_mask hc =? 0 then rnet_hc_note_peer hc tick digest else
  if (seat <? 0) || (RNET_HC_MAX_PEERS <=? seat) || negb (has_bit (hc_peer_mask hc) seat) then hc else
  let i := slot_of tick in
  let hc :=
    if negb (rd 0 (hc_quorum_tick hc) i =? tick) || (rd 0 (hc_quorum_seen hc) i =? 0) then
      let h := put_at hc_quorum_seen set_hc_quorum_seen i 0
                 (put_at hc_quorum_tick set_hc_quorum_tick i tick hc) in
      if negb (rd 0 (hc_peer_tick h) i =? tick)
      then put_at hc_peer_valid set_hc_peer_valid i 0 h else h
    else hc in
  let hc := put_at hc_quorum_digest set_hc_quorum_digest i
              (wr (rd [] (hc_quorum_digest hc) i) seat digest) hc in
  let hc := put_at hc_quorum_seen set_hc_quorum_seen i
              (u8 (Z.lor (rd 0 (hc_quorum_seen hc) i) (bit seat))) hc in
  if negb (Z.land (rd 0 (hc_quorum_seen hc) i) (hc_peer_mask hc) =? hc_peer_mask hc) then hc else
  let '(first, _, conflict) := for_upto RNET_HC_MAX_PEERS (scan_seat hc i) (0, false, 0) in
  try_advance (note_peer_slot i tick first conflict hc).

Definition reported_peer (hc : RNetHashConfirm) (i local : Z) : Z :=
  if rd 0 (hc_quorum_conflict hc) i =? 0 then rd 0 (hc_peer_digest hc) i else
  match list_find (fun s => Is_true (has_bit (hc_peer_mask hc) s && negb (digest_of hc i s =? local)))
          (seqZ 0 RNET_HC_MAX_PEERS) with
  | Some (_, s) => digest_of hc i s
  | None => rd 0 (hc_peer_digest hc) i
  end.

Definition rnet_hc_resolved_through (hc : RNetHashConfirm) : Z :=
  if hc_resolved_valid hc =? 0 then 0 else hc_resolved_through hc.
Definition rnet_hc_confirm_through (hc : RNetHashConfirm) (tick : Z) : bool :=
  if hc_resolved_valid hc =? 0 then false else tick <=? hc_resolved_through hc.
Definition rnet_hc_local_digest (hc : RNetHashConfirm) (tick : Z) : option Z := local_at hc tick.
Definition rnet_hc_peer_digest (hc : RNetHashConfirm) (tick : Z) : option Z := peer_at hc tick.

(** The mismatch at the watermark's next tick: tick, local and peer digest. *)
Definition rnet_hc_peek_mismatch (hc : RNetHashConfirm) : option (Z * Z * Z) :=
  match next_tick hc with
  | None => None
  | Some next =>
      match local_at hc next, peer_at hc next with
      | Some ld, Some pd =>
          if (ld =? pd) && (rd 0 (hc_quorum_conflict hc) (slot_of next) =? 0) then None
          else Some (next, ld, reported_peer hc (slot_of next) ld)
      | _, _ => None
      end
  end.

(** The scan for the newest matching tick; [None]: a mismatch ends the call. *)
Definition heal_step (hc : RNetHashConfirm) (i : Z) (st : option (Z * bool)) : option (Z * bool) :=
  match st with
  | None => None
  | Some (best, have_best) =>
      if (rd 0 (hc_local_valid hc) i =? 0) || (rd 0 (hc_peer_valid hc) i =? 0) then st else
      if negb (rd 0 (hc_local_tick hc) i =? rd 0 (hc_peer_tick hc) i) then st else
      let t := rd 0 (hc_local_tick hc) i in
      if t <=? hc_resolved_through hc then st else
      if negb (rd 0 (hc_local_digest hc) i =? rd 0 (hc_peer_digest hc) i) ||
         nz (rd 0 (hc_quorum_conflict hc) i) then None else
      if negb have_best || (best <? t) then Some (t, true) else st
  end.

Definition rnet_hc_heal_stale_gap (hc : RNetHashConfirm) : RNetHashConfirm * Z :=
  if hc_resolved_valid hc =? 0 then (hc, 0) else
  if hc_resolved_through hc =? UINT32_MAX then (hc, 0) else
  let next := u32 (hc_resolved_through hc + 1) in
  match local_at hc next, peer_at hc next with
  | Some _, Some _ => (hc, 0)
  | Some _, None => (hc, 0)
  | None, Some _ => (hc, 0)
  | None, None =>
      match for_upto RNET_HC_RING (heal_step hc) (Some (0, false)) with
      | None => (hc, 0)
      | Some (best, have_best) =>
          if negb have_best || (best <=? hc_resolved_through hc) then (hc, 0)
          else (set_hc_resolved_through best hc, 1)
      end
  end.

(** ** Termination *)

(** The rings are untouched by the loop. *)
Definition set_resolved (t : Z) (hc : RNetHashConfirm) : RNetHashConfirm :=
  set_hc_resolved_valid 1 (set_hc_resolved_through t hc).

Lemma advance_once_inv hc hc' : advance_once hc = Some hc' ->
  exists next d, next_tick hc = Some next /\ local_at hc next = Some d /\
    peer_at hc next = Some d /\ rd 0 (hc_quorum_conflict hc) (slot_of next) = 0 /\
    hc' = set_resolved next hc.
Proof.
  unfold advance_once. destruct (next_tick hc) as [next|]; [|done].
  destruct (local_at hc next) as [ld|] eqn:El; [|done].
  destruct (peer_at hc next) as [pd|] eqn:Ep; [|done].
  destruct (_ || _) eqn:E; [done|]. intros [= <-]. unfold nz in E. bool_prop. subst.
  exists next, pd. done.
Qed.

Lemma next_tick_resolved t hc : next_tick (set_resolved t hc) =
  if t =? UINT32_MAX then None else Some (u32 (t + 1)).
Proof. done. Qed.

Lemma next_tick_range hc t : next_tick hc = Some t -> in_u32 t.
Proof.
  unfold next_tick. destruct (_ =? 0); [intros [= <-]; ranges; lia|].
  destruct (_ =? _); [done|]. intros [= <-]. apply u32_range.
Qed.

(** Fuel [n] reaches the exit, or [n] consecutive ticks are all in the ring. *)
Lemma try_advance_fuel n hc t0 : next_tick hc = Some t0 ->
  advance_once (try_advance_n n hc) = None \/
  forall j, 0 <= j < Z.of_nat n -> is_Some (local_at hc (t0 + j)).
Proof.
  revert hc t0. induction n as [|n IH]; intros hc t0 Ht; [right; lia|].
  cbn [try_advance_n]. destruct (advance_once hc) as [hc'|] eqn:E; [|by left].
  apply advance_once_inv in E as (next & d & Hn & Hl & _ & _ & ->).
  assert (t0 = next) as -> by congruence.
  pose proof (next_tick_range _ _ Hn) as Hr.
  destruct (Z.eq_dec next UINT32_MAX) as [Em|Em].
  - left. assert (advance_once (set_resolved next hc) = None) as Hnone.
    { unfold advance_once. rewrite next_tick_resolved, Em. done. }
    destruct n as [|n]; cbn [try_advance_n]; [done|]. by rewrite Hnone.
  - destruct (IH (set_resolved next hc) (next + 1)) as [?|Hall]; [|by left|].
    + rewrite next_tick_resolved. apply Z.eqb_neq in Em. rewrite Em. f_equal.
      apply u32_id. apply Z.eqb_neq in Em. ranges. lia.
    + right. intros j Hj. destruct (Z.eq_dec j 0) as [->|].
      * rewrite Z.add_0_r. by eexists.
      * specialize (Hall (j - 1) ltac:(lia)).
        replace (next + 1 + (j - 1)) with (next + j) in Hall by lia. exact Hall.
Qed.

Lemma local_at_tick hc t d : local_at hc t = Some d -> rd 0 (hc_local_tick hc) (slot_of t) = t.
Proof. unfold local_at. destruct (_ || _) eqn:E; [done|]. by bool_prop. Qed.

(** Termination: whatever the rings hold, the advance loop stops: after
    the fuel [try_advance] gives it, no further iteration is possible, because
    a ring of 128 slots cannot hold 129 consecutive ticks. *)
Theorem hc_try_advance_terminates hc : advance_once (try_advance hc) = None.
Proof.
  unfold try_advance. destruct (next_tick hc) as [t0|] eqn:Et.
  - destruct (try_advance_fuel 129 hc t0 Et) as [|Hall]; [done|]. exfalso.
    destruct (Hall 0) as [d0 H0]; [lia|]. destruct (Hall 128) as [d1 H1]; [lia|].
    apply local_at_tick in H0, H1. unfold slot_of, RNET_HC_RING in *.
    replace (t0 + 128) with (t0 + 1 * 128) in H1 by lia. rewrite Z.mod_add in H1 by lia.
    rewrite Z.add_0_r in H0. lia.
  - cbn. unfold advance_once at 2. rewrite Et. unfold advance_once. by rewrite Et.
Qed.

(** ** Soundness of the watermark *)

(** The rings are shaped; the mask is of 8 seats. *)
Definition hc_ok (hc : RNetHashConfirm) : Prop :=
  zlen (hc_local_tick hc) = 128 /\ zlen (hc_local_digest hc) = 128 /\
  zlen (hc_local_valid hc) = 128 /\ zlen (hc_peer_tick hc) = 128 /\
  zlen (hc_peer_digest hc) = 128 /\ zlen (hc_peer_valid hc) = 128 /\
  zlen (hc_quorum_tick hc) = 128 /\ zlen (hc_quorum_seen hc) = 128 /\
  zlen (hc_quorum_conflict hc) = 128 /\ zlen (hc_quorum_digest hc) = 128 /\
  (forall i, 0 <= i < 128 -> zlen (rd [] (hc_quorum_digest hc) i) = 8).

(** What the session reports to the chain, in order. *)
Inductive hc_event : Type :=
| Local (tick digest : Z)
| Commit (seat tick digest : Z).

Definition hc_feed (hc : RNetHashConfirm) (e : hc_event) : RNetHashConfirm :=
  match e with
  | Local t d => rnet_hc_note_local hc t d
  | Commit s t d => rnet_hc_note_peer_from hc s t d
  end.
Definition hc_feeds (es : list hc_event) (hc : RNetHashConfirm) : RNetHashConfirm :=
  fold_left hc_feed es hc.

(** Every seat of the mask committed digest [d] at [t], and so did this host. *)
Definition unanimous (mask : Z) (es : list hc_event) (t d : Z) : Prop :=
  Local t d ∈ es /\ forall s, 0 <= s < 8 -> has_bit mask s = true -> Commit s t d ∈ es.

(** Two masked seats committed different digests, and all did at this tick. *)
Definition split_vote (hc : RNetHashConfirm) (i : Z) : Prop :=
  exists s s', 0 <= s < 8 /\ 0 <= s' < 8 /\ has_bit (hc_peer_mask hc) s = true /\
    has_bit (hc_peer_mask hc) s' = true /\ digest_of hc i s <> digest_of hc i s'.

(** The invariant; ring slot [skip] is exempt from the conflict clause, while
    its commits are being updated. *)
Record hc_invx (skip mask base : Z) (es : list hc_event) (hc : RNetHashConfirm) : Prop := {
  hi_ok : hc_ok hc;
  hi_mask : hc_peer_mask hc = mask;
  hi_local : forall i, 0 <= i < 128 -> rd 0 (hc_local_valid hc) i <> 0 ->
    Local (rd 0 (hc_local_tick hc) i) (rd 0 (hc_local_digest hc) i) ∈ es;
  hi_seen : forall i s, 0 <= i < 128 -> 0 <= s < 8 ->
    has_bit (rd 0 (hc_quorum_seen hc) i) s = true ->
    Commit s (rd 0 (hc_quorum_tick hc) i) (digest_of hc i s) ∈ es;
  hi_peer : forall i s, 0 <= i < 128 -> rd 0 (hc_peer_valid hc) i <> 0 ->
    rd 0 (hc_quorum_conflict hc) i = 0 -> 0 <= s < 8 -> has_bit mask s = true ->
    Commit s (rd 0 (hc_peer_tick hc) i) (rd 0 (hc_peer_digest hc) i) ∈ es;
  hi_conflict : forall i, 0 <= i < 128 -> i <> skip -> rd 0 (hc_peer_valid hc) i <> 0 ->
    rd 0 (hc_quorum_conflict hc) i <> 0 ->
    split_vote hc i /\ rd 0 (hc_quorum_tick hc) i = rd 0 (hc_peer_tick hc) i /\
    Z.land (rd 0 (hc_quorum_seen hc) i) mask = mask;
  hi_resolved : hc_resolved_valid hc <> 0 /\
    (in_u32 (hc_resolved_through hc) /\ base <= hc_resolved_through hc) /\
    forall t, base < t <= hc_resolved_through hc -> exists d, unanimous mask es t d
}.

Definition hc_inv : Z -> Z -> list hc_event -> RNetHashConfirm -> Prop := hc_invx (-1).

Lemma slot_of_range t : 0 <= slot_of t < 128.
Proof. apply Z.mod_pos_bound. done. Qed.
#[local] Hint Resolve slot_of_range : rnet.

(** The event list only grows. *)
Lemma hc_inv_mono k mask base es es' hc : (forall e, e ∈ es -> e ∈ es') ->
  hc_invx k mask base es hc -> hc_invx k mask base es' hc.
Proof.
  intros Hs [H1 H2 H3 H4 H5 H6 (H7 & H8 & H9)]. split; auto.
  split; [done|]. split; [done|]. intros t Ht. destruct (H9 t Ht) as (d & Hl & Hc). exists d. split; auto.
Qed.

Lemma advance_inv mask base es hc hc' : hc_inv mask base es hc -> advance_once hc = Some hc' ->
  hc_inv mask base es hc'.
Proof.
  intros Hi E. apply advance_once_inv in E as (next & d & Hn & Hl & Hp & Hc & ->).
  destruct Hi as [H1 H2 H3 H4 H5 H6 (H7 & H8 & H9)]. split; auto.
  pose proof (next_tick_range _ _ Hn) as Hnr.
  assert (next = hc_resolved_through hc + 1) as Hnx.
  { unfold next_tick in Hn. apply Z.eqb_neq in H7. rewrite H7 in Hn.
    destruct (Z.eqb_spec (hc_resolved_through hc) UINT32_MAX) as [|Hm]; [done|].
    injection Hn as <-. apply u32_id. ranges. lia. }
  assert (exists d, unanimous mask es next d) as Hun.
  { pose proof (slot_of_range next) as Hs. unfold local_at in Hl. unfold peer_at in Hp.
    destruct ((rd 0 (hc_local_valid hc) _ =? 0) || _) eqn:El; [done|].
    destruct ((rd 0 (hc_peer_valid hc) _ =? 0) || _) eqn:Ep; [done|].
    injection Hl as El'. injection Hp as Ep'. bool_prop.
    exists d. split.
    - specialize (H3 _ Hs ltac:(done)). by replace (rd 0 (hc_local_tick hc) _) with next in H3;
        rewrite El' in H3.
    - intros s Hs8 Hb. specialize (H5 _ s Hs ltac:(done) Hc Hs8 Hb).
      by replace (rd 0 (hc_peer_tick hc) _) with next in H5; rewrite Ep' in H5. }
  cbn. split; [done|]. split; [split; [done|lia]|]. intros t Ht.
  destruct (Z.eq_dec t next) as [->|]; [done|]. apply H9. lia.
Qed.

Lemma try_advance_inv mask base es hc : hc_inv mask base es hc ->
  hc_inv mask base es (try_advance hc).
Proof.
  unfold try_advance. generalize 129%nat as n. intros n. revert hc.
  induction n as [|n IH]; intros hc Hi; [done|]. cbn.
  destruct (advance_once hc) as [hc'|] eqn:E; [|done]. apply IH. by eapply advance_inv.
Qed.

Lemma prime_inv hc last : in_u32 last ->
  hc_inv (hc_peer_mask hc) last [] (rnet_hc_prime_after hc last).
Proof.
  intros Hl.
  assert (forall i, rd 0 (replicate 128 0) i = 0) as Hz by (intros; apply rd_replicate).
  split; cbn -[rd replicate]; try (intros *; rewrite Hz; done).
  - unfold hc_ok; cbn -[rd replicate]. split_and!; try done. intros i Hi.
    unfold rd. rewrite nth_lookup, lookup_replicate_2 by lia. done.
  - done.
  - split; [done|]. split; [split; [done|lia]|]. intros; lia.
Qed.

(** Recording the local digest of a tick. *)
Lemma note_local_inv mask base es hc t d : hc_inv mask base es hc ->
  hc_inv mask base (es ++ [Local t d]) (rnet_hc_note_local hc t d).
Proof.
  intros Hi. apply try_advance_inv. pose proof (slot_of_range t) as Hs.
  apply (hc_inv_mono _ _ _ _ (es ++ [Local t d])) in Hi; [|intros; apply elem_of_app; by left].
  destruct Hi as [H1 H2 H3 H4 H5 H6 H7].
  assert (hc_ok hc) as (L1 & L2 & L3 & _) by done.
  split; auto; unfold put_at; cbn -[rd wr slot_of].
  - unfold hc_ok in *. cbn -[rd]. by rewrite !zlen_wr.
  - intros i Hi. rewrite !rd_wr by lia.
    destruct (Z.eqb_spec (slot_of t) i); [|by apply H3].
    intros _. apply elem_of_app. right. by left.
Qed.

(** The rows of a ring slot after a tick's commits are complete. *)
Lemma note_peer_slot_inv mask base es hc i t d c : hc_invx i mask base es hc -> 0 <= i < 128 ->
  (c = 0 -> forall s, 0 <= s < 8 -> has_bit mask s = true -> Commit s t d ∈ es) ->
  (c <> 0 -> split_vote hc i /\ rd 0 (hc_quorum_tick hc) i = t /\
     Z.land (rd 0 (hc_quorum_seen hc) i) mask = mask) ->
  hc_inv mask base es (note_peer_slot i t d c hc).
Proof.
  intros [H1 H2 H3 H4 H5 H6 H7] Hi Hc0 Hc1.
  assert (hc_ok hc) as (_ & _ & _ & L4 & L5 & L6 & _ & _ & L9 & _) by done.
  unfold note_peer_slot, put_at. split; auto; cbn -[rd wr split_vote slot_of].
  - unfold hc_ok in *. cbn -[rd]. by rewrite !zlen_wr.
  - intros k s Hk. rewrite !rd_wr by lia.
    destruct (Z.eqb_spec i k) as [->|]; [|by apply H5]. auto.
  - intros k Hk. rewrite !rd_wr by lia.
    destruct (Z.eqb_spec i k) as [->|]; [|intros _; by apply H6]. intros _ _ Hne. by apply Hc1.
Qed.

(** The scan over the masked seats. *)
Definition scan_inv (hc : RNetHashConfirm) (i n : Z) (st : Z * bool * Z) : Prop :=
  let '(first, have, conflict) := st in
  (have = false -> conflict = 0 /\
     forall s, 0 <= s < n -> has_bit (hc_peer_mask hc) s = false) /\
  (have = true -> exists f, 0 <= f < n /\ has_bit (hc_peer_mask hc) f = true /\
     first = digest_of hc i f) /\
  (conflict = 0 -> forall s, 0 <= s < n -> has_bit (hc_peer_mask hc) s = true ->
     digest_of hc i s = first) /\
  (conflict <> 0 -> exists s, 0 <= s < n /\ has_bit (hc_peer_mask hc) s = true /\
     digest_of hc i s <> first).

Lemma scan_seat_inv hc i n st : 0 <= n -> scan_inv hc i n st ->
  scan_inv hc i (n + 1) (scan_seat hc i n st).
Proof.
  intros Hn. destruct st as [[first have] conflict]. intros (H1 & H2 & H3 & H4). unfold scan_seat.
  destruct (has_bit (hc_peer_mask hc) n) eqn:Eb; cbn [negb].
  - destruct have; cbn [negb].
    + destruct (H2 eq_refl) as (f & Hf & Hfb & ->).
      destruct (Z.eqb_spec (digest_of hc i n) (digest_of hc i f)) as [E|E]; cbn [negb].
      * split; [done|]. split; [intros _; exists f; auto with lia|]. split.
        -- intros Hc. snoc s. by apply H3.
        -- intros Hc. destruct (H4 Hc) as (s & Hs & ?). exists s. split; [lia|done].
      * split; [done|]. split; [intros _; exists f; auto with lia|]. split; [done|].
        intros _. exists n. auto with lia.
    + destruct (H1 eq_refl) as [-> Hno]. split; [done|].
      split; [intros _; exists n; auto with lia|]. split; [|done].
      intros _. snoc s. by rewrite (Hno s).
  - split; [|split; [|split]].
    + intros Hh. destruct (H1 Hh) as [? Hno]. split; [done|]. snoc s. by apply Hno.
    + intros Hh. destruct (H2 Hh) as (f & Hf & ?). exists f. split; [lia|done].
    + intros Hc. snoc s; [by rewrite Eb|]. by apply H3.
    + intros Hc. destruct (H4 Hc) as (s & Hs & ?). exists s. split; [lia|done].
Qed.

Lemma scan_spec hc i : scan_inv hc i 8 (for_upto RNET_HC_MAX_PEERS (scan_seat hc i) (0, false, 0)).
Proof.
  apply (for_upto_ind (scan_inv hc i)); [done| |intros; apply scan_seat_inv; [lia|done]].
  split; [split; [done|intros; lia]|]. split; [done|]. split; [intros; lia|done].
Qed.

(** The three stages of a commit: a fresh ring slot for a new tick, the
    seat's digest, and the verdict once every masked seat has committed. *)
Definition fresh_slot (i tick : Z) (hc : RNetHashConfirm) : RNetHashConfirm :=
  if negb (rd 0 (hc_quorum_tick hc) i =? tick) || (rd 0 (hc_quorum_seen hc) i =? 0) then
    let h := put_at hc_quorum_seen set_hc_quorum_seen i 0
               (put_at hc_quorum_tick set_hc_quorum_tick i tick hc) in
    if negb (rd 0 (hc_peer_tick h) i =? tick)
    then put_at hc_peer_valid set_hc_peer_valid i 0 h else h
  else hc.

Definition store_commit (i seat digest : Z) (hc : RNetHashConfirm) : RNetHashConfirm :=
  let hc := put_at hc_quorum_digest set_hc_quorum_digest i
              (wr (rd [] (hc_quorum_digest hc) i) seat digest) hc in
  put_at hc_quorum_seen set_hc_quorum_seen i
    (u8 (Z.lor (rd 0 (hc_quorum_seen hc) i) (bit seat))) hc.

Section Commit.
Context (mask base : Z) (es : list hc_event) (Hmask : mask <> 0).

Lemma fresh_slot_inv hc i tick : hc_inv mask base es hc -> 0 <= i < 128 ->
  hc_inv mask base es (fresh_slot i tick hc) /\
  rd 0 (hc_quorum_tick (fresh_slot i tick hc)) i = tick.
Proof.
  intros Hi Hr. unfold fresh_slot.
  destruct (negb _ || _) eqn:Eg.
  2: { apply orb_false_elim in Eg as [Eg _]. bool_prop. done. }
  destruct Hi as [H1 H2 H3 H4 H5 H6 H7].
  assert (hc_ok hc) as (_ & _ & _ & _ & _ & L6 & L7 & L8 & _) by done.
  unfold put_at. cbn -[rd wr]. rewrite if_negb.
  (* a verdict that stays valid belongs to this tick, and had no conflict *)
  assert (rd 0 (hc_peer_tick hc) i = tick -> rd 0 (hc_peer_valid hc) i <> 0 ->
          rd 0 (hc_quorum_conflict hc) i = 0) as Hnc.
  { intros Ht Hv. destruct (Z.eq_dec (rd 0 (hc_quorum_conflict hc) i) 0); [done|].
    destruct (H6 i Hr ltac:(lia) Hv ltac:(done)) as (_ & Eq & Es).
    apply orb_prop in Eg as [Eg|Eg]; bool_prop; [congruence|].
    rewrite Eg, Z.land_0_l in Es. congruence. }
  split.
  2: { destruct (rd 0 (hc_peer_tick hc) i =? tick); cbn -[rd wr]; by rewrite rd_wr_eq by lia. }
  split; try (destruct (rd 0 (hc_peer_tick hc) i =? tick); done).
  - destruct (rd 0 (hc_peer_tick hc) i =? tick); unfold hc_ok in *; cbn -[rd]; by rewrite ?zlen_wr.
  - intros k s Hk Hs.
    assert (forall X, has_bit (rd 0 (wr (hc_quorum_seen hc) i 0) k) s = true ->
      Commit s (rd 0 (wr (hc_quorum_tick hc) i X) k) (digest_of hc k s) ∈ es) as Hgoal.
    { intros X. rewrite !rd_wr by lia. destruct (Z.eqb_spec i k) as [->|];
        [by rewrite has_bit_0|by apply H4]. }
    destruct (rd 0 (hc_peer_tick hc) i =? tick); apply Hgoal.
  - intros k s Hk. destruct (rd 0 (hc_peer_tick hc) i =? tick); cbn -[rd wr]; [by apply H5|].
    rewrite rd_wr by lia. destruct (Z.eqb_spec i k); [done|by apply H5].
  - intros k Hk Hsk.
    destruct (Z.eq_dec k i) as [->|Hne].
    + destruct (Z.eqb_spec (rd 0 (hc_peer_tick hc) i) tick) as [Et|Et]; cbn -[rd wr split_vote].
      * intros Hv Hc. by rewrite Hnc in Hc.
      * by rewrite rd_wr_eq by lia.
    + destruct (rd 0 (hc_peer_tick hc) i =? tick); cbn -[rd wr split_vote]; rewrite ?(rd_wr_ne 0 _ i k) by lia;
        by apply H6.
Qed.

Lemma u8_lor_bit seen seat s : 0 <= seat < 8 -> 0 <= s < 8 ->
  has_bit (u8 (Z.lor seen (bit seat))) s = has_bit seen s || (seat =? s).
Proof.
  intros Hs Hs'. rewrite has_bit_testbit by lia. unfold u8. change 256 with (2 ^ 8).
  rewrite Z.mod_pow2_bits_low, Z.lor_spec, bit_testbit by lia. by rewrite has_bit_testbit by lia.
Qed.

Lemma store_commit_inv hc i seat digest : hc_inv mask base es hc -> 0 <= i < 128 ->
  0 <= seat < 8 -> 0 <= mask < 256 ->
  let tick := rd 0 (hc_quorum_tick hc) i in
  let h := store_commit i seat digest hc in
  hc_invx i mask base (es ++ [Commit seat tick digest]) h /\
  rd 0 (hc_quorum_tick h) i = tick /\
  (Z.land (rd 0 (hc_quorum_seen h) i) mask <> mask ->
   hc_inv mask base (es ++ [Commit seat tick digest]) h).
Proof.
  intros Hi Hr Hs Hm8 tick h.
  apply (hc_inv_mono _ _ _ _ (es ++ [Commit seat tick digest])) in Hi;
    [|intros; apply elem_of_app; by left].
  destruct Hi as [H1 H2 H3 H4 H5 H6 H7].
  assert (hc_ok hc) as (_ & _ & _ & _ & _ & _ & L7 & L8 & _ & L10 & L11) by done.
  assert (forall k s, 0 <= k < 128 -> 0 <= s < 8 ->
    digest_of h k s = if (i =? k) && (seat =? s) then digest else digest_of hc k s) as Hdig.
  { intros k s Hk Hs'. unfold digest_of, h, store_commit, put_at. cbn -[rd wr].
    rewrite rd_wr by lia. destruct (Z.eqb_spec i k) as [->|]; cbn; [|done].
    rewrite rd_wr by (rewrite ?L11; lia). done. }
  assert (hc_invx i mask base (es ++ [Commit seat tick digest]) h) as Hx.
  { split; auto.
    - unfold hc_ok in *. unfold h, store_commit, put_at. cbn -[rd wr].
      rewrite !zlen_wr. split_and!; try tauto. intros k Hk. rewrite rd_wr by lia.
      destruct (_ =? _); [rewrite zlen_wr|]; by apply L11.
    - intros k s Hk Hs'. rewrite Hdig by done. unfold h, store_commit, put_at. cbn -[rd wr].
      rewrite rd_wr by lia. destruct (Z.eqb_spec i k) as [->|]; cbn [andb]; [|by apply H4].
      rewrite u8_lor_bit by done. destruct (Z.eqb_spec seat s) as [->|].
      + intros _. apply elem_of_app. right. by left.
      + rewrite orb_false_r. by apply H4.
    - intros k Hk Hne Hv Hc. destruct (H6 k Hk ltac:(lia) Hv Hc) as ((s & s' & V) & Eq & Es).
      destruct V as (V1 & V2 & V3 & V4 & V5). split_and!; try done.
      + exists s, s'. rewrite !Hdig by done. destruct (Z.eqb_spec i k); [lia|]. cbn. done.
      + unfold h, store_commit, put_at. cbn -[rd wr]. by rewrite rd_wr_ne by lia. }
  split; [done|]. split; [done|]. intros Hinc.
  destruct Hx as [X1 X2 X3 X4 X5 X6 X7]. split; auto. intros k Hk Hsk Hv Hc.
  destruct (Z.eq_dec k i) as [->|]; [|by apply X6]. exfalso. apply Hinc.
  destruct (H6 i Hr ltac:(lia) Hv Hc) as (_ & _ & Es).
  unfold h, store_commit, put_at. cbn -[rd wr]. rewrite rd_wr_eq by lia.
  apply Z.bits_inj'. intros b Hb. rewrite Z.land_spec.
  destruct (Z.testbit mask b) eqn:Eb; [|by rewrite andb_false_r]. rewrite andb_true_r.
  assert (b < 8) as Hb8.
  { destruct (Z.ltb_spec b 8); [done|]. rewrite <- (Z.mod_small mask (2 ^ 8)) in Eb by lia.
    by rewrite Z.mod_pow2_bits_high in Eb by lia. }
  rewrite <- has_bit_testbit, u8_lor_bit by lia. rewrite <- Es, Z.land_spec in Eb.
  apply andb_prop in Eb as [Eb _]. by rewrite has_bit_testbit, Eb by lia.
Qed.
End Commit.

Lemma note_peer_from_unfold hc seat tick digest : hc_peer_mask hc <> 0 -> 0 <= seat < 8 ->
  has_bit (hc_peer_mask hc) seat = true ->
  rnet_hc_note_peer_from hc seat tick digest =
    let i := slot_of tick in
    let h := store_commit i seat digest (fresh_slot i tick hc) in
    if negb (Z.land (rd 0 (hc_quorum_seen h) i) (hc_peer_mask h) =? hc_peer_mask h) then h else
    let '(first, _, conflict) := for_upto RNET_HC_MAX_PEERS (scan_seat h i) (0, false, 0) in
    try_advance (note_peer_slot i tick first conflict h).
Proof.
  intros Hm Hs Hb. unfold rnet_hc_note_peer_from, RNET_HC_MAX_PEERS.
  apply Z.eqb_neq in Hm. rewrite Hm, Hb.
  destruct (Z.ltb_spec seat 0); [lia|]. destruct (Z.leb_spec 8 seat); [lia|]. done.
Qed.

Lemma note_peer_from_inv mask base es hc s t d : mask <> 0 -> 0 <= mask < 256 ->
  hc_inv mask base es hc ->
  hc_inv mask base (es ++ [Commit s t d]) (rnet_hc_note_peer_from hc s t d).
Proof.
  intros Hm0 Hm Hi. pose proof (hi_mask _ _ _ _ _ Hi) as Em.
  assert (hc_inv mask base (es ++ [Commit s t d]) hc) as Hign
    by (eapply hc_inv_mono; [|exact Hi]; intros; apply elem_of_app; by left).
  destruct ((s <? 0) || (RNET_HC_MAX_PEERS <=? s) || negb (has_bit (hc_peer_mask hc) s)) eqn:Eg.
  { unfold rnet_hc_note_peer_from. rewrite Em in *. apply Z.eqb_neq in Hm0. by rewrite Hm0, Eg. }
  unfold RNET_HC_MAX_PEERS in Eg. bool_prop.
  rewrite note_peer_from_unfold by (rewrite ?Em in *; done || lia). cbv zeta.
  pose proof (slot_of_range t) as Hr. set (i := slot_of t) in *.
  destruct (fresh_slot_inv mask base es Hm0 hc i t Hi Hr) as [Hf Hft].
  set (h0 := fresh_slot i t hc) in *.
  destruct (store_commit_inv mask base es Hm0 h0 i s d Hf Hr ltac:(lia) Hm) as (Hx & Ht & Hinc).
  rewrite Hft in Hx, Ht, Hinc. set (h := store_commit i s d h0) in *.
  pose proof (hi_mask _ _ _ _ _ Hx) as Emh. rewrite Emh.
  destruct (Z.eqb_spec (Z.land (rd 0 (hc_quorum_seen h) i) mask) mask) as [Ec|Ec]; cbn [negb];
    [|by apply Hinc].
  pose proof (scan_spec h i) as Hscan. destruct (for_upto _ _ _) as [[first have] conflict].
  destruct Hscan as (S1 & S2 & S3 & S4). apply try_advance_inv. rewrite Emh in *.
  assert (forall x, 0 <= x < 8 -> has_bit mask x = true -> has_bit (rd 0 (hc_quorum_seen h) i) x = true)
    as Hall.
  { intros x Hx8 Hb. rewrite <- Ec, has_bit_land in Hb by lia. by apply andb_prop in Hb as [? _]. }
  apply note_peer_slot_inv; [done|done| |].
  - intros Hc x Hx8 Hb. rewrite <- (S3 Hc x Hx8 Hb).
    pose proof (hi_seen _ _ _ _ _ Hx i x Hr Hx8 (Hall x Hx8 Hb)) as Hin. by rewrite Ht in Hin.
  - intros Hc. split; [|done]. destruct (S4 Hc) as (x & Hx8 & Hb & Hne).
    assert (have = true) as Hh.
    { destruct have; [done|]. by destruct (S1 eq_refl). }
    destruct (S2 Hh) as (f & Hf8 & Hfb & ->). exists x, f. rewrite Emh. done.
Qed.

Lemma hc_feeds_inv mask base es hc pre : mask <> 0 -> 0 <= mask < 256 ->
  hc_inv mask base pre hc -> hc_inv mask base (pre ++ es) (hc_feeds es hc).
Proof.
  intros Hm0 Hm. revert hc pre. induction es as [|e es IH]; intros hc pre Hi; [by rewrite app_nil_r|].
  cbn [hc_feeds fold_left]. replace (pre ++ e :: es) with ((pre ++ [e]) ++ es) by (by rewrite <- app_assoc).
  apply IH. destruct e; [by apply note_local_inv|by apply note_peer_from_inv].
Qed.

(** C38. Confirmation is unanimous: after priming at [base] with a peer mask,
    whatever local digests and peer commits arrive, in any order and from any
    seat, every tick the watermark confirms above [base] has one digest that
    this host noted and that every masked seat committed for that tick. *)
Theorem hc_confirm_unanimous hc mask base es t :
  hc_peer_mask hc = mask -> mask <> 0 -> 0 <= mask < 256 -> in_u32 base ->
  rnet_hc_confirm_through (hc_feeds es (rnet_hc_prime_after hc base)) t = true ->
  base < t -> exists d, unanimous mask es t d.
Proof.
  intros <- Hm0 Hm Hb Hc Hlt. pose proof (prime_inv hc base Hb) as Hi.
  apply (hc_feeds_inv _ _ es _ _ Hm0 Hm) in Hi. cbn [app] in Hi.
  destruct (hi_resolved _ _ _ _ _ Hi) as (Hv & _ & Hall). apply Hall.
  unfold rnet_hc_confirm_through in Hc. apply Z.eqb_neq in Hv. rewrite Hv in Hc. bool_prop. lia.
Qed.

Definition demo_events : list hc_event :=
  [Commit 2 11 77; Local 11 77; Commit 1 12 5; Commit 1 11 77].

Lemma hc_confirm_unanimous_witness :
  exists d, unanimous 6 demo_events 11 d.
Proof.
  apply (hc_confirm_unanimous (rnet_hc_set_peer_mask zero_hc 6) 6 10 demo_events 11);
    [reflexivity|lia|lia|ranges; lia|vm_compute; reflexivity|lia].
Defined.

(** Mismatch report: in such a session, whenever a mismatch is reported
    at the watermark's next tick, the two digests it reports differ: when the
    peers disagree among themselves, a dissenting digest is found. *)
Theorem hc_peek_reports_difference hc mask base es t l p :
  hc_peer_mask hc = mask -> mask <> 0 -> 0 <= mask < 256 -> in_u32 base ->
  rnet_hc_peek_mismatch (hc_feeds es (rnet_hc_prime_after hc base)) = Some (t, l, p) -> l <> p.
Proof.
  intros <- Hm0 Hm Hb H. pose proof (prime_inv hc base Hb) as Hi.
  apply (hc_feeds_inv _ _ es _ _ Hm0 Hm) in Hi. set (h := hc_feeds _ _) in *.
  unfold rnet_hc_peek_mismatch in H. destruct (next_tick h) as [next|]; [|done].
  destruct (local_at h next) as [ld|]; [|done].
  destruct (peer_at h next) as [pd|] eqn:Ep; [|done].
  destruct (_ && _) eqn:E; [done|]. injection H as <- <- <-.
  pose proof (slot_of_range next) as Hr. unfold peer_at in Ep. set (i := slot_of next) in *.
  destruct ((rd 0 (hc_peer_valid h) i =? 0) || _) eqn:Ev; [done|]. injection Ep as Epd.
  apply orb_false_elim in Ev as [Ev _]. bool_prop. unfold reported_peer. rewrite Epd.
  destruct (Z.eqb_spec (rd 0 (hc_quorum_conflict h) i) 0) as [Ec|Ec].
  - rewrite andb_true_r in E. by bool_prop.
  - destruct (hi_conflict _ _ _ _ _ Hi i Hr ltac:(lia) Ev Ec) as ((s & s' & Hs & Hs' & Hb1 & Hb2 & Hne) & _).
    destruct (list_find _ _) as [[k x]|] eqn:El.
    + apply list_find_Some in El as (_ & Hx & _). apply Is_true_eq_true in Hx. bool_prop. congruence.
    + exfalso. apply list_find_None in El. rewrite Forall_forall in El.
      assert (forall x, 0 <= x < 8 -> has_bit (hc_peer_mask h) x = true -> digest_of h i x = ld) as Hall.
      { intros x Hx Hbx. destruct (Z.eqb_spec (digest_of h i x) ld) as [|Hd]; [done|].
        exfalso. apply (El x); [apply elem_of_seqZ; unfold RNET_HC_MAX_PEERS; lia|].
        apply Z.eqb_neq in Hd. by rewrite Hbx, Hd. }
      by rewrite (Hall s), (Hall s') in Hne.
Qed.

Lemma hc_peek_reports_difference_witness :
  let es := [Local 11 77; Commit 1 11 77; Commit 2 11 78] in
  rnet_hc_peek_mismatch
    (hc_feeds es (rnet_hc_prime_after (rnet_hc_set_peer_mask zero_hc 6) 10)) = Some (11, 77, 78) /\
  77 <> 78.
Proof.
  split; [vm_compute; reflexivity|].
  apply (hc_peek_reports_difference (rnet_hc_set_peer_mask zero_hc 6) 6 10
           [Local 11 77; Commit 1 11 77; Commit 2 11 78] 11);
    [reflexivity|lia|lia|ranges; lia|vm_compute; reflexivity].
Defined.

(** ** The gap repair *)

Lemma try_advance_stuck hc : advance_once hc = None -> try_advance hc = hc.
Proof. intros H. unfold try_advance. cbn. by rewrite H. Qed.

Section Gap.
Context (base d : Z) (Hbase : 0 <= base < UINT32_MAX - 2).
Let j := slot_of (base + 2).

(** Primed at [base], with one digest noted at [base + 2]. *)
Definition gap_local : RNetHashConfirm :=
  put_at hc_local_valid set_hc_local_valid j 1
    (put_at hc_local_digest set_hc_local_digest j d
      (put_at hc_local_tick set_hc_local_tick j (base + 2) (rnet_hc_prime_after zero_hc base))).
Definition gap_both : RNetHashConfirm := note_peer_slot j (base + 2) d 0 gap_local.

Lemma gap_next : next_tick gap_local = Some (base + 1) /\ next_tick gap_both = Some (base + 1).
Proof.
  unfold next_tick, gap_both, gap_local, note_peer_slot, put_at. cbn -[rd wr slot_of u32 Z.eqb].
  change (1 =? 0) with false. destruct (Z.eqb_spec base UINT32_MAX); [lia|].
  rewrite u32_id by (unfold UINT32_MAX in *; ranges; lia). done.
Qed.

Lemma gap_slot : slot_of (base + 1) <> j.
Proof. apply mod_window; unfold RNET_HC_RING; lia. Qed.

Lemma gap_local_none : local_at gap_local (base + 1) = None /\ local_at gap_both (base + 1) = None
  /\ peer_at gap_both (base + 1) = None.
Proof.
  pose proof gap_slot. pose proof (slot_of_range (base + 1)). pose proof (slot_of_range (base + 2)).
  unfold local_at, peer_at, gap_both, gap_local, note_peer_slot, put_at.
  cbn -[rd wr slot_of replicate].
  rewrite !(rd_wr_ne 0 _ j (slot_of (base + 1))) by (unfold j; lia). by rewrite !rd_replicate.
Qed.

Lemma gap_state : rnet_hc_note_peer (rnet_hc_note_local (rnet_hc_prime_after zero_hc base)
  (base + 2) d) (base + 2) d = gap_both.
Proof.
  destruct gap_next as [N1 N2], gap_local_none as (L1 & L2 & P2).
  unfold rnet_hc_note_local. fold j. fold gap_local.
  rewrite (try_advance_stuck gap_local) by (unfold advance_once; by rewrite N1, L1).
  unfold rnet_hc_note_peer. fold j. fold gap_both.
  apply try_advance_stuck. unfold advance_once. by rewrite N2, L2.
Qed.

(** Only slot [j] of the ring is occupied. *)
Lemma gap_heal_step i st : 0 <= i < 128 ->
  heal_step gap_both i (Some st) =
    Some (if i =? j then (if negb (snd st) || (fst st <? base + 2) then (base + 2, true) else st)
          else st).
Proof.
  intros Hi. pose proof (slot_of_range (base + 2)) as Hj. fold j in Hj. destruct st as [best have].
  unfold heal_step, gap_both, gap_local, note_peer_slot, put_at.
  cbn -[rd wr slot_of replicate Z.eqb Z.leb Z.ltb].
  rewrite !rd_wr by (rewrite ?zlen_replicate; lia). rewrite !rd_replicate, (Z.eqb_sym i j).
  destruct (Z.eqb_spec j i) as [_|]; [|done].
  change (1 =? 0) with false. rewrite !Z.eqb_refl. cbn [orb negb nz].
  destruct (Z.leb_spec (base + 2) base); [lia|]. change (nz 0) with false. cbn.
  by destruct (negb have || (best <? base + 2)).
Qed.

Lemma gap_heal : for_upto RNET_HC_RING (heal_step gap_both) (Some (0, false))
  = Some (base + 2, true).
Proof.
  pose proof (slot_of_range (base + 2)) as Hj. fold j in Hj.
  assert (for_upto RNET_HC_RING (heal_step gap_both) (Some (0, false))
    = Some (if j <? 128 then (base + 2, true) else (0, false))) as ->.
  2: { by destruct (Z.ltb_spec j 128); [|lia]. }
  apply (for_upto_ind (fun n st => st = Some (if j <? n then (base + 2, true) else (0, false))));
    [done| |].
  - destruct (Z.ltb_spec j 0); [lia|done].
  - intros i st Hi ->. unfold RNET_HC_RING in Hi. rewrite gap_heal_step by done. f_equal.
    destruct (Z.eqb_spec i j), (Z.ltb_spec j i), (Z.ltb_spec j (i + 1)); try lia; cbn; try done.
Qed.
End Gap.

(** The gap repair confirms ticks nobody reported: after priming at
    [base], one matching digest at [base + 2] and a repair make the chain
    confirm [base + 1], although no digest of that tick was ever noted and it
    has not aged out of the ring. *)
Theorem hc_heal_confirms_unreported base d : 0 <= base < UINT32_MAX - 2 ->
  let hc := rnet_hc_note_peer (rnet_hc_note_local (rnet_hc_prime_after zero_hc base) (base + 2) d)
              (base + 2) d in
  rnet_hc_confirm_through hc (base + 1) = false /\
  rnet_hc_local_digest hc (base + 1) = None /\ rnet_hc_peer_digest hc (base + 1) = None /\
  snd (rnet_hc_heal_stale_gap hc) = 1 /\
  rnet_hc_confirm_through (fst (rnet_hc_heal_stale_gap hc)) (base + 1) = true.
Proof.
  intros Hb hc. unfold hc. rewrite gap_state by done.
  destruct (gap_next base d Hb) as [_ N2], (gap_local_none base d) as (_ & L2 & P2).
  assert (hc_resolved_through (gap_both base d) = base) as Er by done.
  assert (hc_resolved_valid (gap_both base d) = 1) as Ev by done.
  assert (rnet_hc_heal_stale_gap (gap_both base d)
          = (set_hc_resolved_through (base + 2) (gap_both base d), 1)) as ->.
  { unfold rnet_hc_heal_stale_gap. rewrite Er, Ev. change (1 =? 0) with false.
    destruct (Z.eqb_spec base UINT32_MAX); [lia|].
    rewrite u32_id by (unfold UINT32_MAX in *; ranges; lia). rewrite L2, P2, gap_heal by done.
    cbn [negb orb]. destruct (Z.leb_spec (base + 2) base); [lia|done]. }
  split_and!; try done; unfold rnet_hc_confirm_through; cbn [fst set_hc_resolved_through
    hc_resolved_valid hc_resolved_through]; rewrite ?Er, ?Ev; change (1 =? 0) with false; cbv iota.
  - apply Z.leb_gt. lia.
  - change (hc_resolved_valid _ =? 0) with false. apply Z.leb_le. lia.
Qed.

Lemma hc_heal_confirms_unreported_witness :
  let hc := rnet_hc_note_peer (rnet_hc_note_local (rnet_hc_prime_after zero_hc 100) 102 5) 102 5 in
  rnet_hc_confirm_through hc 101 = false /\
  rnet_hc_local_digest hc 101 = None /\ rnet_hc_peer_digest hc 101 = None /\
  snd (rnet_hc_heal_stale_gap hc) = 1 /\
  rnet_hc_confirm_through (fst (rnet_hc_heal_stale_gap hc)) 101 = true.
Proof. apply (hc_heal_confirms_unreported 100 5). unfold UINT32_MAX. lia. Defined.
