(* ===== verification/CtrlQueue.v ===== *)
(** * Bounded message queues of the session (src/session/rnet_session.c)

    The session keeps peer control messages in fixed circular buffers (head,
    tail, count over an array). This file models such a queue once, with the
    arrival rule that the episode-control packets share (coalesce a
    retransmission, shed the oldest entry of an older episode, refuse when
    full) and the rule of the commit and SIO queues (drop the oldest).
    [q_list] is the abstract queue, and every operation is shown to act on it
    as the obvious list operation. *)

From stdpp Require Import base list numbers list_numbers.
From S2P Require Import Prelude Protocol.

Definition RNET_RB_CTRL_QUEUE : Z := 32.
Definition RNET_RB_FC_QUEUE : Z := 256.
Definition RNET_SIO_XFER_QUEUE : Z := 32.

Record ring_q (A : Type) := mkQ {
  q_buf : list A;
  q_head : Z; (* next write *)
  q_tail : Z; (* next read *)
  q_count : Z
}.
Arguments mkQ {A}.
Arguments q_buf {A}.
Arguments q_head {A}.
Arguments q_tail {A}.
Arguments q_count {A}.

(** [(rnet_s32)(a - b) < 0]: serial-number order on episode ids. *)
Definition rb_epoch_before (a b : Z) : bool := s32 (a - b) <? 0.

Section Queue.
Context {A : Type} (cap : Z) (d : A).

Definition RB_Q_AT (q : ring_q A) (i : Z) : Z := (q_tail q + i) mod cap.

(** Index of the first waiting entry satisfying [same]. *)
Definition q_find (same : A -> bool) (q : ring_q A) : option Z :=
  find (fun i => same (rd d (q_buf q) (RB_Q_AT q i))) (seqZ 0 (q_count q)).

Definition q_update (i : Z) (f : A -> A) (q : ring_q A) : ring_q A :=
  let k := RB_Q_AT q i in
  mkQ (wr (q_buf q) k (f (rd d (q_buf q) k))) (q_head q) (q_tail q) (q_count q).

Definition q_push (x : A) (q : ring_q A) : ring_q A :=
  mkQ (wr (q_buf q) (q_head q) x) ((q_head q + 1) mod cap) (q_tail q) (q_count q + 1).

Definition q_drop (q : ring_q A) : ring_q A :=
  mkQ (q_buf q) (q_head q) ((q_tail q + 1) mod cap) (q_count q - 1).

(** [while (count >= cap && older(q[tail])) drop the oldest]: after one
    drop the queue is no longer full, so one test is the whole loop. *)
Fixpoint q_shed (n : nat) (older : A -> bool) (q : ring_q A) : ring_q A :=
  match n with
  | O => q
  | S m => if (cap <=? q_count q) && older (rd d (q_buf q) (q_tail q))
           then q_shed m older (q_drop q) else q
  end.

(** The arrival of an episode-control message [x]. The flag says that the
    message was refused. *)
Definition q_arrive (same : A -> bool) (merge : A -> A) (older : A -> bool) (x : A)
    (q : ring_q A) : ring_q A * bool :=
  match q_find same q with
  | Some i => (q_update i merge q, false)
  | None =>
      let q := q_shed (Z.to_nat (q_count q)) older q in
      if q_count q <? cap then (q_push x q, false) else (q, true)
  end.

(** The arrival rule of the commit and SIO queues. *)
Definition q_push_drop_oldest (x : A) (q : ring_q A) : ring_q A :=
  if q_count q <? cap then q_push x q else q_push x (q_drop q).

Definition q_take (q : ring_q A) : option (A * ring_q A) :=
  if q_count q <=? 0 then None else Some (rd d (q_buf q) (q_tail q), q_drop q).

(** [head = tail = count = 0]; the entries stay. *)
Definition q_reset (q : ring_q A) : ring_q A := mkQ (q_buf q) 0 0 0.

(** ** The abstract queue *)

Definition q_ok (q : ring_q A) : Prop :=
  zlen (q_buf q) = cap /\ 0 <= q_tail q < cap /\ 0 <= q_count q <= cap /\
  q_head q = (q_tail q + q_count q) mod cap.

Definition q_list (q : ring_q A) : list A :=
  map (fun i => rd d (q_buf q) (RB_Q_AT q i)) (seqZ 0 (q_count q)).

(** The list-level meaning of an arrival. *)
Fixpoint merge_first (same : A -> bool) (merge : A -> A) (l : list A) : option (list A) :=
  match l with
  | [] => None
  | a :: r => if same a then Some (merge a :: r) else (a ::.) <$> merge_first same merge r
  end.

Definition shed_oldest (older : A -> bool) (l : list A) : list A :=
  match l with
  | [] => []
  | a :: r => if (cap <=? zlen l) && older a then r else l
  end.

Definition arrive (same : A -> bool) (merge : A -> A) (older : A -> bool) (x : A)
    (l : list A) : list A * bool :=
  match merge_first same merge l with
  | Some l' => (l', false)
  | None => let l := shed_oldest older l in
            if zlen l <? cap then (l ++ [x], false) else (l, true)
  end.

Definition push_drop_oldest (x : A) (l : list A) : list A :=
  if zlen l <? cap then l ++ [x] else tail l ++ [x].

Context (Hcap : 0 < cap).

Lemma q_list_length q : 0 <= q_count q -> zlen (q_list q) = q_count q.
Proof. intros. unfold q_list, zlen. rewrite length_map, length_seqZ. lia. Qed.

Lemma slot_range q i : 0 <= RB_Q_AT q i < cap.
Proof. apply Z.mod_pos_bound. done. Qed.

(** Distinct positions of a full or partial queue are distinct slots. *)
Lemma slot_inj q i j : 0 <= i < cap -> 0 <= j < cap -> RB_Q_AT q i = RB_Q_AT q j -> i = j.
Proof.
  unfold RB_Q_AT. intros Hi Hj H.
  assert ((i - j) mod cap = 0) as Hm.
  { replace (i - j) with ((q_tail q + i) - (q_tail q + j)) by lia.
    rewrite Zminus_mod, H, Z.sub_diag. apply Z.mod_0_l. lia. }
  apply Z.mod_divide in Hm as [k Hk]; [|lia].
  assert (k = 0) by nia. lia.
Qed.

Lemma q_reset_ok q : q_ok q -> q_ok (q_reset q) /\ q_list (q_reset q) = [].
Proof.
  intros (Hl & _). split; [|done]. unfold q_ok, q_reset. simpl.
  split_and!; try lia. rewrite Z.mod_0_l; lia.
Qed.

Lemma q_push_ok x q : q_ok q -> q_count q < cap ->
  q_ok (q_push x q) /\ q_list (q_push x q) = q_list q ++ [x].
Proof.
  intros (Hl & Ht & Hc & Hh) Hlt. split.
  - unfold q_ok, q_push. simpl. rewrite zlen_wr. split_and!; try lia.
    rewrite Hh, Z.add_assoc, Zplus_mod_idemp_l. done.
  - unfold q_list, q_push. simpl. rewrite seqZ_snoc, map_app by lia. f_equal.
    + apply list_fmap_ext. intros k i Hk%lookup_seqZ. unfold RB_Q_AT. simpl.
      rewrite rd_wr_ne; [done|rewrite Hh; apply Z.mod_pos_bound; lia|apply Z.mod_pos_bound; lia|].
      rewrite Hh. intros E. apply (slot_inj q) in E; lia.
    + simpl. f_equal. unfold RB_Q_AT. simpl. rewrite <- Hh. apply rd_wr_eq.
      rewrite Hl, Hh. apply Z.mod_pos_bound. lia.
Qed.

Lemma q_drop_ok q : q_ok q -> 0 < q_count q ->
  q_ok (q_drop q) /\ q_list q = rd d (q_buf q) (q_tail q) :: q_list (q_drop q).
Proof.
  intros (Hl & Ht & Hc & Hh) Hlt. split.
  - unfold q_ok, q_drop. simpl. split_and!; try lia; try (apply Z.mod_pos_bound; lia).
    rewrite Hh, Zplus_mod_idemp_l. f_equal. lia.
  - unfold q_list at 1. rewrite seqZ_cons by lia. simpl. f_equal.
    + unfold RB_Q_AT. rewrite Z.add_0_r, Z.mod_small by lia. done.
    + unfold q_list, q_drop. simpl. rewrite <- (fmap_add_seqZ 1 0), Z.sub_1_r.
      change (@fmap list list_fmap) with (@map). rewrite map_map.
      apply list_fmap_ext. intros k i Hk. unfold RB_Q_AT. simpl. f_equal.
      rewrite Zplus_mod_idemp_l. f_equal. lia.
Qed.

Lemma q_take_ok q : q_ok q ->
  match q_take q with
  | None => q_list q = []
  | Some (a, q') => q_ok q' /\ q_list q = a :: q_list q'
  end.
Proof.
  intros Hq. unfold q_take. destruct (Z.leb_spec (q_count q) 0).
  - destruct Hq as (_ & _ & ? & _). unfold q_list. by replace (q_count q) with 0 by lia.
  - by apply q_drop_ok.
Qed.

Lemma q_push_drop_oldest_ok x q : q_ok q ->
  q_ok (q_push_drop_oldest x q) /\
  q_list (q_push_drop_oldest x q) = push_drop_oldest x (q_list q).
Proof.
  intros Hq. destruct (Hq) as (_ & _ & Hc & _). unfold q_push_drop_oldest, push_drop_oldest.
  rewrite q_list_length by lia. destruct (Z.ltb_spec (q_count q) cap); [by apply q_push_ok|].
  destruct (q_drop_ok q Hq ltac:(lia)) as [Hd ->]. simpl. apply q_push_ok; [done|simpl; lia].
Qed.

(** *** Coalescing *)

Lemma merge_first_spec same merge l :
  match merge_first same merge l with
  | Some l' => exists l1 a l2, l = l1 ++ a :: l2 /\ l' = l1 ++ merge a :: l2 /\
                 same a = true /\ Forall (fun b => same b = false) l1
  | None => Forall (fun b => same b = false) l
  end.
Proof.
  induction l as [|a r IH]; simpl; [done|]. destruct (same a) eqn:E.
  - exists [], a, r. auto.
  - destruct (merge_first same merge r) as [l'|]; simpl; [|by constructor].
    destruct IH as (l1 & b & l2 & -> & -> & Hb & Hf). exists (a :: l1), b, l2. auto.
Qed.

Lemma q_find_ok same merge q : q_ok q ->
  match q_find same q with
  | Some i => q_ok (q_update i merge q) /\
              merge_first same merge (q_list q) = Some (q_list (q_update i merge q))
  | None => merge_first same merge (q_list q) = None
  end.
Proof.
  intros (Hl & Ht & Hc & Hh).
  assert (Hgen : forall n k, 0 <= k -> k + Z.of_nat n = q_count q ->
    match find (fun i => same (rd d (q_buf q) (RB_Q_AT q i))) (seqZ k (Z.of_nat n)) with
    | Some i => k <= i < q_count q /\
        merge_first same merge (map (fun i => rd d (q_buf q) (RB_Q_AT q i)) (seqZ k (Z.of_nat n))) =
        Some (map (fun j => let a := rd d (q_buf q) (RB_Q_AT q j) in if j =? i then merge a else a)
                (seqZ k (Z.of_nat n)))
    | None => merge_first same merge
                (map (fun i => rd d (q_buf q) (RB_Q_AT q i)) (seqZ k (Z.of_nat n))) = None
    end).
  { induction n as [|n IH]; intros k Hk Hn; [done|].
    rewrite seqZ_cons by lia. replace (Z.pred (Z.of_nat (S n))) with (Z.of_nat n) by lia.
    simpl. destruct (same _) eqn:E.
    - split; [lia|]. rewrite Z.eqb_refl. do 2 f_equal. apply list_fmap_ext.
      intros m j Hj%lookup_seqZ. destruct (Z.eqb_spec j k); [lia|done].
    - specialize (IH (Z.succ k) ltac:(lia) ltac:(lia)). destruct (find _ _) as [i|].
      + destruct IH as [Hi ->]. split; [lia|]. simpl. do 2 f_equal.
        destruct (Z.eqb_spec k i); [lia|done].
      + by rewrite IH. }
  specialize (Hgen (Z.to_nat (q_count q)) 0 ltac:(lia) ltac:(lia)).
  rewrite Z2Nat.id in Hgen by lia. unfold q_find, q_list. destruct (find _ _) as [i|]; [|done].
  destruct Hgen as [Hi Hm]. split.
  - unfold q_ok, q_update. simpl. rewrite zlen_wr. auto.
  - rewrite Hm. f_equal. apply list_fmap_ext. intros k j Hj%lookup_seqZ.
    simpl in Hj. unfold q_update. simpl. change (RB_Q_AT (mkQ _ _ _ _) j) with (RB_Q_AT q j).
    pose proof (slot_range q i). rewrite rd_wr; [|by rewrite Hl|apply slot_range].
    destruct (Z.eqb_spec j i) as [->|Hne]; [by rewrite Z.eqb_refl|].
    destruct (Z.eqb_spec (RB_Q_AT q i) (RB_Q_AT q j)) as [E|]; [|done].
    apply slot_inj in E; lia.
Qed.

Lemma q_shed_ok older q n : q_ok q -> (0 < n)%nat ->
  q_ok (q_shed n older q) /\ q_list (q_shed n older q) = shed_oldest older (q_list q).
Proof.
  intros Hq Hn. destruct (Hq) as (_ & _ & Hc & _). destruct n as [|n]; [lia|]. simpl.
  destruct (Z.leb_spec cap (q_count q)).
  - destruct (q_drop_ok q Hq ltac:(lia)) as [Hd El].
    unfold shed_oldest. pose proof (q_list_length q ltac:(lia)) as Hlen. rewrite El in Hlen |- *.
    rewrite Hlen. destruct (Z.leb_spec cap (q_count q)); [|lia]. simpl.
    destruct (older _); [|done].
    assert (q_shed n older (q_drop q) = q_drop q) as ->; [|done].
    destruct n; [done|]. simpl. destruct (Z.leb_spec cap (q_count q - 1)); [lia|done].
  - simpl. split; [done|]. unfold shed_oldest. destruct (q_list q) as [|a r] eqn:E; [done|].
    rewrite <- E, q_list_length by lia. destruct (Z.leb_spec cap (q_count q)); [lia|done].
Qed.

Lemma q_arrive_ok same merge older x q : q_ok q ->
  q_ok (fst (q_arrive same merge older x q)) /\
  (q_list (fst (q_arrive same merge older x q)), snd (q_arrive same merge older x q)) =
    arrive same merge older x (q_list q).
Proof.
  intros Hq. unfold q_arrive, arrive. pose proof (q_find_ok same merge q Hq) as Hf.
  destruct (q_find same q) as [i|].
  - destruct Hf as [H1 ->]. done.
  - rewrite Hf. destruct (Hq) as (_ & _ & Hc & _).
    assert (q_ok (q_shed (Z.to_nat (q_count q)) older q) /\
            q_list (q_shed (Z.to_nat (q_count q)) older q) = shed_oldest older (q_list q)) as [Hs El].
    { destruct (Z.eq_dec (q_count q) 0) as [E|]; [|apply q_shed_ok; [done|lia]].
      rewrite E. simpl. split; [done|]. unfold q_list. by rewrite E. }
    rewrite <- El, q_list_length by apply Hs.
    destruct (Z.ltb_spec (q_count (q_shed (Z.to_nat (q_count q)) older q)) cap); [|done].
    simpl. destruct (q_push_ok x _ Hs ltac:(lia)) as [? ->]. done.
Qed.
End Queue.

(** ** What a queue asks of its message type

    [cm_same x a]: the arriving [x] is a retransmission of the waiting [a];
    [cm_merge x a]: what the entry becomes then; [cm_epoch a]: the episode
    the message names, if it names one; [cm_sheds]: whether the arrival code
    of this queue has the loop that sheds. *)

Class CtrlMsg (A : Type) := {
  cm_default : A;
  cm_same : A -> A -> bool;
  cm_merge : A -> A -> A;
  cm_epoch : A -> option Z;
  cm_sheds : bool
}.

(** The waiting [a] belongs to an older episode than [x]. *)
Definition older_episode {A} `{CtrlMsg A} (a x : A) : bool :=
  match cm_epoch a, cm_epoch x with
  | Some e, Some f => rb_epoch_before e f
  | _, _ => false
  end.

(** The waiting [a] may be shed for [x]. *)
Definition cm_older {A} `{CtrlMsg A} (a x : A) : bool := cm_sheds && older_episode a x.

Class CtrlMsgLaws (A : Type) `{CtrlMsg A} : Prop := {
  cm_same_refl : forall x, cm_same x x = true;
  cm_same_sym : forall x y, cm_same x y = cm_same y x;
  cm_same_merge : forall x a y, cm_same x a = true -> cm_same y (cm_merge x a) = cm_same y a
}.

Section Messages.
Context {A : Type} `{CtrlMsg A}.

Definition ctrl_empty : ring_q A := mkQ (replicate 32 cm_default) 0 0 0.

Definition ctrl_arrive (x : A) (q : ring_q A) : ring_q A * bool :=
  q_arrive RNET_RB_CTRL_QUEUE cm_default (cm_same x) (cm_merge x) (fun a => cm_older a x) x q.

Definition ctrl_take (q : ring_q A) : option (A * ring_q A) :=
  q_take RNET_RB_CTRL_QUEUE cm_default q.

(** A run of arrivals and takes, with what each reports: whether the
    arrival was refused, or the message taken. *)
Inductive ctrl_event : Type :=
| Arrive (x : A)
| Take.

Inductive ctrl_report : Type :=
| Refused (b : bool)
| Taken (a : option A).

Fixpoint ctrl_run (es : list ctrl_event) (q : ring_q A) : ring_q A * list ctrl_report :=
  match es with
  | [] => (q, [])
  | Arrive x :: r =>
      let (q', b) := ctrl_arrive x q in
      let (q'', out) := ctrl_run r q' in (q'', Refused b :: out)
  | Take :: r =>
      match ctrl_take q with
      | None => let (q'', out) := ctrl_run r q in (q'', Taken None :: out)
      | Some (a, q') => let (q'', out) := ctrl_run r q' in (q'', Taken (Some a) :: out)
      end
  end.

(** The same run on the abstract queue. *)
Definition l_arrive (x : A) (l : list A) : list A * bool :=
  arrive RNET_RB_CTRL_QUEUE (cm_same x) (cm_merge x) (fun a => cm_older a x) x l.

Fixpoint l_run (es : list ctrl_event) (l : list A) : list A * list ctrl_report :=
  match es with
  | [] => (l, [])
  | Arrive x :: r =>
      let (l', b) := l_arrive x l in
      let (l'', out) := l_run r l' in (l'', Refused b :: out)
  | Take :: r =>
      match l with
      | [] => let (l'', out) := l_run r l in (l'', Taken None :: out)
      | a :: l' => let (l'', out) := l_run r l' in (l'', Taken (Some a) :: out)
      end
  end.

Definition ctrl_ok : ring_q A -> Prop := q_ok RNET_RB_CTRL_QUEUE.
Definition ctrl_list : ring_q A -> list A := q_list RNET_RB_CTRL_QUEUE cm_default.

Lemma ctrl_empty_ok : ctrl_ok ctrl_empty /\ ctrl_list ctrl_empty = [].
Proof. split; [|done]. unfold ctrl_ok, q_ok, RNET_RB_CTRL_QUEUE. simpl. split_and!; try done; lia. Qed.

Lemma ctrl_arrive_ok x q : ctrl_ok q ->
  ctrl_ok (fst (ctrl_arrive x q)) /\
  (ctrl_list (fst (ctrl_arrive x q)), snd (ctrl_arrive x q)) = l_arrive x (ctrl_list q).
Proof. by apply q_arrive_ok. Qed.

Lemma ctrl_run_refines es q : ctrl_ok q ->
  ctrl_ok (fst (ctrl_run es q)) /\
  (ctrl_list (fst (ctrl_run es q)), snd (ctrl_run es q)) = l_run es (ctrl_list q).
Proof.
  revert q. induction es as [|[x|] r IH]; intros q Hq; simpl; [done|..].
  - destruct (ctrl_arrive_ok x q Hq) as [Hq' <-]. destruct (ctrl_arrive x q) as [q' b]. simpl in *.
    destruct (IH q' Hq') as [H1 <-]. by destruct (ctrl_run r q').
  - pose proof (q_take_ok RNET_RB_CTRL_QUEUE cm_default ltac:(done) q Hq) as Ht.
    unfold ctrl_take. destruct (q_take _ _ q) as [[a q']|].
    + destruct Ht as [Hq' El]. unfold ctrl_list at 2. rewrite El.
      destruct (IH q' Hq') as [H1 H2]. fold (ctrl_list q'). rewrite <- H2. by destruct (ctrl_run r q').
    + destruct (IH q Hq) as [H1 H2]. change (ctrl_list q = []) in Ht. rewrite Ht in H2 |- *.
      rewrite <- H2. by destruct (ctrl_run r q).
Qed.

(** No two waiting messages are retransmissions of each other. *)
Definition coalesced (l : list A) : Prop :=
  forall l1 a l2 b l3, l = l1 ++ a :: l2 ++ b :: l3 -> cm_same a b = false.

Lemma coalesced_tail a l : coalesced (a :: l) -> coalesced l.
Proof. intros Hc l1 x l2 y l3 ->. by apply (Hc (a :: l1) x l2 y l3). Qed.

Lemma coalesced_cons a l : coalesced (a :: l) <-> Forall (fun b => cm_same a b = false) l /\ coalesced l.
Proof.
  split.
  - intros Hc. split; [|by eapply coalesced_tail].
    apply Forall_forall. intros b (l2 & l3 & ->)%list_elem_of_split. by apply (Hc [] a l2 b l3).
  - intros [Hf Hc] [|z l1] x l2 y l3 E; simplify_eq/=.
    + rewrite Forall_forall in Hf. apply Hf. rewrite elem_of_app, elem_of_cons. auto.
    + by eapply Hc.
Qed.
Context `{!CtrlMsgLaws A}.

Lemma coalesced_snoc l x : coalesced l -> Forall (fun b => cm_same x b = false) l -> coalesced (l ++ [x]).
Proof.
  induction l as [|a l IH]; intros Hc Hf; simpl.
  - apply coalesced_cons. split; [done|]. intros ? ? ? ? ? E%(f_equal length).
    repeat (rewrite length_app in E; simpl in E). lia.
  - apply coalesced_cons in Hc as [Ha Hc]. apply Forall_cons in Hf as [Hx Hf].
    apply coalesced_cons. split; [|by apply IH]. apply Forall_app. split; [done|].
    apply Forall_singleton. by rewrite cm_same_sym.
Qed.

Lemma coalesced_merge x l1 a l2 : cm_same x a = true ->
  coalesced (l1 ++ a :: l2) -> coalesced (l1 ++ cm_merge x a :: l2).
Proof.
  intros Hs. induction l1 as [|b l1 IH]; simpl; intros Hc; apply coalesced_cons in Hc as [Ha Hc].
  - apply coalesced_cons. split; [|done]. eapply Forall_impl; [exact Ha|].
    intros y Hy. simpl in *. by rewrite cm_same_sym, cm_same_merge, cm_same_sym.
  - apply coalesced_cons. split; [|by apply IH].
    apply Forall_app in Ha as [H1 [H2 H3]%Forall_cons]. apply Forall_app. split; [done|].
    constructor; [|done]. by rewrite cm_same_merge.
Qed.

Lemma shed_coalesced older l : coalesced l -> coalesced (shed_oldest RNET_RB_CTRL_QUEUE older l).
Proof.
  destruct l as [|a l]; simpl; [done|]. intros Hc. destruct (_ && _); [|done].
  by eapply coalesced_tail.
Qed.

Lemma shed_incl older (l : list A) : shed_oldest RNET_RB_CTRL_QUEUE older l ⊆ l.
Proof. destruct l as [|a l]; simpl; [done|]. destruct (_ && _); [by apply list_subseteq_cons|done]. Qed.

Lemma shed_length older (l : list A) : zlen l <= RNET_RB_CTRL_QUEUE ->
  zlen (shed_oldest RNET_RB_CTRL_QUEUE older l) <= RNET_RB_CTRL_QUEUE.
Proof. destruct l as [|a l]; simpl; [done|]. rewrite zlen_cons. destruct (_ && _); rewrite ?zlen_cons; lia. Qed.

(** Shedding changes nothing when the oldest entry may not be shed, and
    otherwise loses at most the oldest entry of a full queue. *)
Lemma shed_keeps older (l : list A) : (forall a, head l = Some a -> older a = false) ->
  shed_oldest RNET_RB_CTRL_QUEUE older l = l.
Proof. destruct l as [|a l]; simpl; [done|]. intros ->; [|done]. by rewrite andb_false_r. Qed.

Lemma shed_loses older (l : list A) b : zlen l <= RNET_RB_CTRL_QUEUE -> b ∈ l ->
  b ∈ shed_oldest RNET_RB_CTRL_QUEUE older l \/
  head l = Some b /\ zlen l = RNET_RB_CTRL_QUEUE /\ older b = true.
Proof.
  destruct l as [|a l]; simpl; [by auto|]. rewrite elem_of_cons. intros Hl [->|Hb].
  - destruct (Z.leb_spec RNET_RB_CTRL_QUEUE (zlen (a :: l))); simpl; [|left; rewrite elem_of_cons; auto].
    destruct (older a) eqn:E; [|left; rewrite elem_of_cons; auto]. right. split_and!; [done|lia|done].
  - left. destruct (_ && _); rewrite ?elem_of_cons; auto.
Qed.

Lemma l_arrive_spec x l : coalesced l -> zlen l <= RNET_RB_CTRL_QUEUE ->
  let '(l', refused) := l_arrive x l in
  coalesced l' /\ zlen l' <= RNET_RB_CTRL_QUEUE /\
  (refused = true <->
    Forall (fun a => cm_same x a = false) l /\ zlen l = RNET_RB_CTRL_QUEUE /\
    (forall a, head l = Some a -> cm_older a x = false)) /\
  if refused then l' = l
  else (exists a, a ∈ l' /\ cm_same x a = true) /\
       (forall b, b ∈ l -> cm_same x b = false -> b ∈ l' \/
          head l = Some b /\ zlen l = RNET_RB_CTRL_QUEUE /\ cm_older b x = true).
Proof.
  intros Hc Hl. unfold l_arrive, arrive. pose proof (merge_first_spec (cm_same x) (cm_merge x) l) as Hm.
  destruct (merge_first _ _ l) as [l'|].
  - destruct Hm as (l1 & a & l2 & -> & -> & Ha & _). split_and!.
    + by apply coalesced_merge.
    + revert Hl. by rewrite !zlen_app, !zlen_cons.
    + split; [done|]. intros [Hf _]. apply Forall_app in Hf as [_ [Hf _]%Forall_cons]. congruence.
    + exists (cm_merge x a). split; [rewrite elem_of_app, elem_of_cons; auto|].
      by rewrite cm_same_merge.
    + intros b Hb Hx. left. rewrite elem_of_app, elem_of_cons in Hb |- *.
      destruct Hb as [?|[->|?]]; [by auto|congruence|by auto].
  - destruct (Z.ltb_spec (zlen (shed_oldest RNET_RB_CTRL_QUEUE (fun a => cm_older a x) l)) RNET_RB_CTRL_QUEUE).
    + split_and!.
      * apply coalesced_snoc; [by apply shed_coalesced|].
        rewrite Forall_forall in Hm |- *. intros y Hy. apply Hm. by eapply shed_incl.
      * rewrite zlen_app, zlen_cons, zlen_nil. lia.
      * split; [done|]. intros (_ & Hf & Ho). rewrite shed_keeps in H0 by done. lia.
      * exists x. split; [rewrite elem_of_app, elem_of_cons; auto|]. apply cm_same_refl.
      * intros b Hb _. destruct (shed_loses (fun a => cm_older a x) l b Hl Hb) as [?|?]; [|by auto].
        left. rewrite elem_of_app. auto.
    + pose proof (shed_length (fun a => cm_older a x) l Hl) as Hle.
      assert (shed_oldest RNET_RB_CTRL_QUEUE (fun a => cm_older a x) l = l /\
              forall a, head l = Some a -> cm_older a x = false) as [E Hh].
      { destruct l as [|a l]; simpl in *; [done|]. rewrite zlen_cons in *.
        destruct (Z.leb_spec RNET_RB_CTRL_QUEUE (zlen l + 1)); simpl in *; [|rewrite zlen_cons in *; lia].
        destruct (cm_older a x) eqn:Eo; [lia|]. split; [done|]. by intros ? [= <-]. }
      rewrite E in *. split_and!; [done|done| |done]. split; [|done]. intros _. split_and!; [done|lia|done].
Qed.

Lemma l_run_coalesced es l : coalesced l -> zlen l <= RNET_RB_CTRL_QUEUE ->
  coalesced (fst (l_run es l)) /\ zlen (fst (l_run es l)) <= RNET_RB_CTRL_QUEUE.
Proof.
  revert l. induction es as [|[x|] r IH]; intros l Hc Hl; simpl; [done|..].
  - pose proof (l_arrive_spec x l Hc Hl) as Hs. destruct (l_arrive x l) as [l' b].
    destruct Hs as (H1 & H2 & _). specialize (IH l' H1 H2). by destruct (l_run r l').
  - destruct l as [|a l'].
    + specialize (IH [] Hc Hl). by destruct (l_run r (@nil A)).
    + rewrite zlen_cons in Hl. specialize (IH l' ltac:(by eapply coalesced_tail) ltac:(lia)).
      by destruct (l_run r l').
Qed.
End Messages.
Arguments ctrl_event A : clear implicits.
Arguments ctrl_report A : clear implicits.

(** ** The five episode-control messages *)

Record rb_sync_entry := mkSync {
  sy_epoch_id : Z; sy_mismatch_tick : Z; sy_load_tick : Z; sy_target_tick : Z;
  sy_corrected_slot : Z; sy_initiator : Z; sy_flags : Z; sy_from : Z
}.

Record rb_seal_entry := mkSeal {
  se_epoch_id : Z; se_mismatch_tick : Z; se_target_tick : Z; se_row_begin : Z;
  se_slot : Z; se_row_count : Z; se_rows : list RNetRbWireFrame; se_from : Z
}.

Record rb_base_entry := mkBase {
  ba_epoch_id : Z; ba_load_tick : Z; ba_digest_master : Z; ba_digest_a : Z;
  ba_digest_b : Z; ba_digest_c : Z; ba_from : Z
}.

Record rb_post_entry := mkPost {
  po_epoch_id : Z; po_target_tick : Z; po_digest_master : Z; po_input_digest : Z;
  po_match : Z; po_from : Z
}.

Record rb_resolved_entry := mkResolved { re_through : Z; re_from : Z }.

(** RB_SYNC: an identical message is dropped; nothing is shed. *)
Definition sync_same (x a : rb_sync_entry) : bool :=
  (sy_from a =? sy_from x) && (sy_epoch_id a =? sy_epoch_id x) &&
  (sy_mismatch_tick a =? sy_mismatch_tick x) && (sy_load_tick a =? sy_load_tick x) &&
  (sy_target_tick a =? sy_target_tick x) && (sy_corrected_slot a =? sy_corrected_slot x) &&
  (sy_initiator a =? sy_initiator x) && (sy_flags a =? sy_flags x).

(** RB_SEAL_ROWS: a chunk already waiting is not stored twice. The entry of
    [x] holds the clamped row count. *)
Definition seal_same (x a : rb_seal_entry) : bool :=
  (se_from a =? se_from x) && (se_epoch_id a =? se_epoch_id x) &&
  (se_mismatch_tick a =? se_mismatch_tick x) && (se_target_tick a =? se_target_tick x) &&
  (se_slot a =? se_slot x) && (se_row_begin a =? se_row_begin x) &&
  (se_row_count a =? se_row_count x).

Definition base_same (x a : rb_base_entry) : bool :=
  (ba_from a =? ba_from x) && (ba_epoch_id a =? ba_epoch_id x) && (ba_load_tick a =? ba_load_tick x).
Definition base_merge (x a : rb_base_entry) : rb_base_entry :=
  mkBase (ba_epoch_id a) (ba_load_tick a) (ba_digest_master x) (ba_digest_a x) (ba_digest_b x)
    (ba_digest_c x) (ba_from a).

Definition post_same (x a : rb_post_entry) : bool :=
  (po_from a =? po_from x) && (po_epoch_id a =? po_epoch_id x) && (po_target_tick a =? po_target_tick x).
Definition post_merge (x a : rb_post_entry) : rb_post_entry :=
  mkPost (po_epoch_id a) (po_target_tick a) (po_digest_master x) (po_input_digest x) (po_match x)
    (po_from a).

(** RB_RESOLVED: one entry per sender, the highest watermark. *)
Definition resolved_same (x a : rb_resolved_entry) : bool := re_from a =? re_from x.
Definition resolved_merge (x a : rb_resolved_entry) : rb_resolved_entry :=
  if rb_epoch_before (re_through a) (re_through x) then mkResolved (re_through x) (re_from a) else a.

#[export] Instance sync_msg : CtrlMsg rb_sync_entry := {
  cm_default := mkSync 0 0 0 0 0 0 0 0;
  cm_same := sync_same; cm_merge _ a := a;
  cm_epoch a := Some (sy_epoch_id a); cm_sheds := false
}.
#[export] Instance seal_msg : CtrlMsg rb_seal_entry := {
  cm_default := mkSeal 0 0 0 0 0 0 [] 0;
  cm_same := seal_same; cm_merge _ a := a;
  cm_epoch a := Some (se_epoch_id a); cm_sheds := true
}.
#[export] Instance base_msg : CtrlMsg rb_base_entry := {
  cm_default := mkBase 0 0 0 0 0 0 0;
  cm_same := base_same; cm_merge := base_merge;
  cm_epoch a := Some (ba_epoch_id a); cm_sheds := true
}.
#[export] Instance post_msg : CtrlMsg rb_post_entry := {
  cm_default := mkPost 0 0 0 0 0 0;
  cm_same := post_same; cm_merge := post_merge;
  cm_epoch a := Some (po_epoch_id a); cm_sheds := true
}.
#[export] Instance resolved_msg : CtrlMsg rb_resolved_entry := {
  cm_default := mkResolved 0 0;
  cm_same := resolved_same; cm_merge := resolved_merge;
  cm_epoch _ := None; cm_sheds := false
}.

(** Symmetry of a conjunction of field comparisons. *)
Ltac eqb_swap := repeat (apply f_equal2; [|apply Z.eqb_sym]); apply Z.eqb_sym.

#[export] Instance sync_laws : CtrlMsgLaws rb_sync_entry.
Proof.
  constructor; simpl; unfold sync_same; intros; rewrite ?Z.eqb_refl; try done.
  eqb_swap.
Qed.
#[export] Instance seal_laws : CtrlMsgLaws rb_seal_entry.
Proof.
  constructor; simpl; unfold seal_same; intros; rewrite ?Z.eqb_refl; try done.
  eqb_swap.
Qed.
#[export] Instance base_laws : CtrlMsgLaws rb_base_entry.
Proof.
  constructor; simpl; unfold base_same; intros; rewrite ?Z.eqb_refl; try done.
  eqb_swap.
Qed.
#[export] Instance post_laws : CtrlMsgLaws rb_post_entry.
Proof.
  constructor; simpl; unfold post_same; intros; rewrite ?Z.eqb_refl; try done.
  eqb_swap.
Qed.
#[export] Instance resolved_laws : CtrlMsgLaws rb_resolved_entry.
Proof.
  constructor; simpl; unfold resolved_same; intros; rewrite ?Z.eqb_refl; try done.
  - apply Z.eqb_sym.
  - unfold resolved_merge. by destruct (rb_epoch_before _ _).
Qed.

(** ** Properties *)

(** C39. Every episode-control queue (SYNC, SEAL_ROWS, BASELINE, POST,
    RESOLVED), started empty and driven by any sequence of arrivals and
    takes, behaves as the abstract first-in first-out list: its circular
    indices stay consistent, it holds at most 32 messages, what is taken and
    what is refused is what the list specification says, and no two waiting
    messages are retransmissions of each other. From any such state an
    arriving message is refused exactly when it is not a retransmission of a
    waiting message, the queue is full, and the queue cannot shed: it is one
    of the two queues whose arrival code has no shedding (SYNC and RESOLVED),
    or its oldest entry does not belong to an older episode. A refusal leaves
    the queue unchanged; otherwise the message is represented in the queue and
    no other waiting message is lost, except the oldest of a full SEAL_ROWS,
    BASELINE or POST queue when that belongs to an older episode. *)
Theorem ctrl_queue_correct {A} `{CtrlMsgLaws A} (es : list (ctrl_event A)) :
  let '(q, out) := ctrl_run es ctrl_empty in
  ctrl_ok q /\ (ctrl_list q, out) = l_run es [] /\
  coalesced (ctrl_list q) /\ zlen (ctrl_list q) <= RNET_RB_CTRL_QUEUE /\
  forall x,
    let '(q', refused) := ctrl_arrive x q in
    (refused = true <->
      Forall (fun a => cm_same x a = false) (ctrl_list q) /\
      zlen (ctrl_list q) = RNET_RB_CTRL_QUEUE /\
      (cm_sheds = false \/ forall a, head (ctrl_list q) = Some a -> older_episode a x = false)) /\
    if refused then ctrl_list q' = ctrl_list q
    else (exists a, a ∈ ctrl_list q' /\ cm_same x a = true) /\
         (forall b, b ∈ ctrl_list q -> cm_same x b = false ->
            b ∈ ctrl_list q' \/
            head (ctrl_list q) = Some b /\ zlen (ctrl_list q) = RNET_RB_CTRL_QUEUE /\
            cm_sheds = true /\ older_episode b x = true).
Proof.
  destruct (ctrl_empty_ok (A:=A)) as [He El].
  destruct (ctrl_run_refines es ctrl_empty He) as [Hq Er]. rewrite El in Er.
  assert (coalesced (fst (l_run (A:=A) es [])) /\ zlen (fst (l_run (A:=A) es [])) <= RNET_RB_CTRL_QUEUE) as [Hc Hl].
  { apply l_run_coalesced; [|done]. intros ? ? ? ? ? E%(f_equal length).
    repeat (rewrite length_app in E; simpl in E). lia. }
  rewrite <- Er in Hc, Hl. destruct (ctrl_run es ctrl_empty) as [q out]. simpl in *.
  split_and!; try done. intros x. destruct (ctrl_arrive_ok x q Hq) as [_ Ea].
  pose proof (l_arrive_spec x (ctrl_list q) Hc Hl) as Hs. rewrite <- Ea in Hs.
  destruct (ctrl_arrive x q) as [q' r]; simpl in *. destruct Hs as (_ & _ & Hr & Hs). split.
  - rewrite Hr. apply and_iff_compat_l, and_iff_compat_l. unfold cm_older.
    destruct cm_sheds; simpl; [|by intuition]. split; [by auto|]. by intros [[=]|].
  - destruct r; [done|]. destruct Hs as [Hs Hk]. split; [done|]. intros b Hb Hx.
    destruct (Hk b Hb Hx) as [?|(? & ? & Ho)]; [by auto|]. right.
    unfold cm_older in Ho. apply andb_prop in Ho. tauto.
Qed.

(** Two POSTs of one episode from the same seat: the second replaces the
    first, and the take returns the merged message. *)
Lemma ctrl_queue_correct_witness :
  let es := [Arrive (mkPost 7 40 1 2 0 1); Arrive (mkPost 7 40 9 2 1 1); Arrive (mkPost 8 44 5 5 1 2)] in
  ctrl_list (fst (ctrl_run es ctrl_empty)) = [mkPost 7 40 9 2 1 1; mkPost 8 44 5 5 1 2] /\
  zlen (ctrl_list (fst (ctrl_run es ctrl_empty))) <= RNET_RB_CTRL_QUEUE.
Proof.
  split; [vm_compute; reflexivity|].
  pose proof (ctrl_queue_correct (A:=rb_post_entry)
    [Arrive (mkPost 7 40 1 2 0 1); Arrive (mkPost 7 40 9 2 1 1); Arrive (mkPost 8 44 5 5 1 2)]) as Hq.
  destruct (ctrl_run _ _) as [q out]. apply Hq.
Defined.

(** A SYNC of the next episode is refused by a queue that still holds 32 SYNCs
    of the one before: the SYNC arrival code has no shedding, although the
    comment above [rb_epoch_before] says that a full queue first sheds its
    oldest entry when it belongs to an older episode. *)
Theorem full_sync_queue_refuses_next_episode :
  let old := map (fun i => mkSync 1 i 0 0 0 0 0 1) (seqZ 0 32) in
  let q := fst (ctrl_run (Arrive <$> old) ctrl_empty) in
  let next := mkSync 2 40 36 44 0 1 0 1 in
  ctrl_list q = old /\ (forall a, head old = Some a -> older_episode a next = true) /\
  snd (ctrl_arrive next q) = true /\ ctrl_list (fst (ctrl_arrive next q)) = old.
Proof. split_and!; [vm_compute; reflexivity| |vm_compute; reflexivity..]. by intros ? [= <-]. Qed.
