(* ===== verification/Session.v ===== *)
(** * The session: data and input plane (src/session/rnet_session.c)

    A session owns the input rings, the START handshake, the input bundles,
    the confirmation of resolved inputs and the admission of simulation ticks.
    This file models its state and the operations on the input plane; the blob
    transfer and the packet dispatch build on it.

    The state is passed explicitly. [RNetIo] stands for the outside: the host
    callbacks, the clock, the transport and the allocator. Datagrams are the
    byte lists the encoders produce. An encoder that fails sends nothing; the
    capacities used here are large enough that no encoder writes outside its
    buffer. Logging is left out. *)

From stdpp Require Import base list numbers list_numbers.
From S2P Require Import Prelude Protocol Config Rings CtrlQueue Rollback.

(** ** Data *)

Inductive RNetSessionPhase : Set :=
| PHASE_IDLE | PHASE_LINKING | PHASE_READY | PHASE_RUNNING.
#[export] Instance session_phase_eq_dec : EqDecision RNetSessionPhase.
Proof. solve_decision. Defined.

Inductive RNetAdmitStall : Set :=
| ADMIT_OK | ADMIT_NOT_RUNNING | ADMIT_STATE_XFER | ADMIT_SIM_MISMATCH | ADMIT_DESYNC
| ADMIT_WAIT_LOCAL_INPUT | ADMIT_WAIT_REMOTE_INPUT | ADMIT_WAIT_CONFIRM.
#[export] Instance admit_stall_eq_dec : EqDecision RNetAdmitStall.
Proof. solve_decision. Defined.

Definition RNET_STATE_MAX : Z := 8388608.
Definition RNET_STATE_MAX_CHUNKS : Z := (RNET_STATE_MAX + RNET_STATE_CHUNK_MAX - 1) / RNET_STATE_CHUNK_MAX.
Definition RNET_STATE_TAKEN_TX : Z := RNET_MAX_SLOTS.

Record RNetProfileCaps := mkCaps {
  pc_cpu_features : Z;
  pc_backends : Z;
  pc_profiles : Z;
  pc_architecture : Z
}.


(** The startup agreement ([profiles] of the session struct). *)
Record RNetProfiles := mkProfiles {
  pf_active : Z;
  pf_refused : Z;
  pf_qualification : Z;
  pf_occupied : Z;
  pf_offers : Z;
  pf_acks : Z;
  pf_acknowledged_by : Z;
  pf_selected : Z;
  pf_transcript : Z;
  pf_caps : list RNetProfileCaps;
  pf_last_tx : Z;
  pf_dirty : Z
}.

Definition eta_profiles (r : RNetProfiles) : RNetProfiles :=
  mkProfiles
    (pf_active r) (pf_refused r) (pf_qualification r) (pf_occupied r) (pf_offers r) (pf_acks r)
    (pf_acknowledged_by r) (pf_selected r) (pf_transcript r) (pf_caps r) (pf_last_tx r)
    (pf_dirty r).
Definition set_pf_active := ltac:(updater eta_profiles pf_active).
Definition set_pf_refused := ltac:(updater eta_profiles pf_refused).
Definition set_pf_qualification := ltac:(updater eta_profiles pf_qualification).
Definition set_pf_occupied := ltac:(updater eta_profiles pf_occupied).
Definition set_pf_offers := ltac:(updater eta_profiles pf_offers).
Definition set_pf_acks := ltac:(updater eta_profiles pf_acks).
Definition set_pf_acknowledged_by := ltac:(updater eta_profiles pf_acknowledged_by).
Definition set_pf_selected := ltac:(updater eta_profiles pf_selected).
Definition set_pf_transcript := ltac:(updater eta_profiles pf_transcript).
Definition set_pf_caps := ltac:(updater eta_profiles pf_caps).
Definition set_pf_last_tx := ltac:(updater eta_profiles pf_last_tx).
Definition set_pf_dirty := ltac:(updater eta_profiles pf_dirty).

(** Resolved hashes, peer confirmations (rows of [RNET_MAX_SLOTS] per ring slot) and the
    desync latch. *)
Record RNetConfirm := mkConfirm {
  cn_published_tick : list Z;
  cn_published_hash : list Z;
  cn_published_valid : list Z;
  cn_peer_tick : list (list Z);
  cn_peer_hash : list (list Z);
  cn_peer_valid : list (list Z);
  cn_last_sent_ms : list Z;
  cn_input_desync : Z;
  cn_desync_tick : Z;
  cn_desync_local_hash : Z;
  cn_desync_remote_hash : Z
}.

Definition eta_confirm (r : RNetConfirm) : RNetConfirm :=
  mkConfirm
    (cn_published_tick r) (cn_published_hash r) (cn_published_valid r) (cn_peer_tick r)
    (cn_peer_hash r) (cn_peer_valid r) (cn_last_sent_ms r) (cn_input_desync r)
    (cn_desync_tick r) (cn_desync_local_hash r) (cn_desync_remote_hash r).
Definition set_cn_published_tick := ltac:(updater eta_confirm cn_published_tick).
Definition set_cn_published_hash := ltac:(updater eta_confirm cn_published_hash).
Definition set_cn_published_valid := ltac:(updater eta_confirm cn_published_valid).
Definition set_cn_peer_tick := ltac:(updater eta_confirm cn_peer_tick).
Definition set_cn_peer_hash := ltac:(updater eta_confirm cn_peer_hash).
Definition set_cn_peer_valid := ltac:(updater eta_confirm cn_peer_valid).
Definition set_cn_last_sent_ms := ltac:(updater eta_confirm cn_last_sent_ms).
Definition set_cn_input_desync := ltac:(updater eta_confirm cn_input_desync).
Definition set_cn_desync_tick := ltac:(updater eta_confirm cn_desync_tick).
Definition set_cn_desync_local_hash := ltac:(updater eta_confirm cn_desync_local_hash).
Definition set_cn_desync_remote_hash := ltac:(updater eta_confirm cn_desync_remote_hash).

(** Peer liveness. *)
Record RNetLiveness := mkLive {
  lv_last_peer_rx_ms : Z;
  lv_session_start_ms : Z;
  lv_peer_gone : Z;
  lv_peer_rx_ms : list Z;
  lv_peer_gone_mask : Z
}.

Definition eta_live (r : RNetLiveness) : RNetLiveness :=
  mkLive
    (lv_last_peer_rx_ms r) (lv_session_start_ms r) (lv_peer_gone r) (lv_peer_rx_ms r)
    (lv_peer_gone_mask r).
Definition set_lv_last_peer_rx_ms := ltac:(updater eta_live lv_last_peer_rx_ms).
Definition set_lv_session_start_ms := ltac:(updater eta_live lv_session_start_ms).
Definition set_lv_peer_gone := ltac:(updater eta_live lv_peer_gone).
Definition set_lv_peer_rx_ms := ltac:(updater eta_live lv_peer_rx_ms).
Definition set_lv_peer_gone_mask := ltac:(updater eta_live lv_peer_gone_mask).

(** Admission diagnostics. *)
Record RNetDiag := mkDiag {
  dg_last_stall : RNetAdmitStall;
  dg_consecutive_stalls : Z;
  dg_admit_ok_count : Z;
  dg_stall_streaks : Z;
  dg_stall_started_ms : Z;
  dg_last_admit_wait_ms : Z;
  dg_max_admit_wait_ms : Z;
  dg_packets_rx : Z;
  dg_input_bundle_sends : Z
}.

Definition eta_diag (r : RNetDiag) : RNetDiag :=
  mkDiag
    (dg_last_stall r) (dg_consecutive_stalls r) (dg_admit_ok_count r) (dg_stall_streaks r)
    (dg_stall_started_ms r) (dg_last_admit_wait_ms r) (dg_max_admit_wait_ms r) (dg_packets_rx r)
    (dg_input_bundle_sends r).
Definition set_dg_last_stall := ltac:(updater eta_diag dg_last_stall).
Definition set_dg_consecutive_stalls := ltac:(updater eta_diag dg_consecutive_stalls).
Definition set_dg_admit_ok_count := ltac:(updater eta_diag dg_admit_ok_count).
Definition set_dg_stall_streaks := ltac:(updater eta_diag dg_stall_streaks).
Definition set_dg_stall_started_ms := ltac:(updater eta_diag dg_stall_started_ms).
Definition set_dg_last_admit_wait_ms := ltac:(updater eta_diag dg_last_admit_wait_ms).
Definition set_dg_max_admit_wait_ms := ltac:(updater eta_diag dg_max_admit_wait_ms).
Definition set_dg_packets_rx := ltac:(updater eta_diag dg_packets_rx).
Definition set_dg_input_bundle_sends := ltac:(updater eta_diag dg_input_bundle_sends).

(** Outbound blob transfer. *)
Record RNetStateTx := mkTx {
  tx_active : Z;
  tx_ready : Z;
  tx_op : Z;
  tx_slot : Z;
  tx_xfer_id : Z;
  tx_total : Z;
  tx_crc : Z;
  tx_buf : option (list Z);
  tx_expect_mask : Z;
  tx_ack : list Z;
  tx_ack_timer_ms : list Z;
  tx_send_cursor : Z;
  tx_last_tx_ms : Z;
  tx_last_begin_ms : Z;
  tx_last_progress_log_ms : Z;
  tx_last_progress_acked : Z;
  tx_start_ms : Z;
  tx_cwnd : Z;
  tx_chunks_cap : Z;
  tx_ack_timeout_ms : Z
}.

Definition eta_tx (r : RNetStateTx) : RNetStateTx :=
  mkTx
    (tx_active r) (tx_ready r) (tx_op r) (tx_slot r) (tx_xfer_id r) (tx_total r) (tx_crc r)
    (tx_buf r) (tx_expect_mask r) (tx_ack r) (tx_ack_timer_ms r) (tx_send_cursor r)
    (tx_last_tx_ms r) (tx_last_begin_ms r) (tx_last_progress_log_ms r)
    (tx_last_progress_acked r) (tx_start_ms r) (tx_cwnd r) (tx_chunks_cap r)
    (tx_ack_timeout_ms r).
Definition set_tx_active := ltac:(updater eta_tx tx_active).
Definition set_tx_ready := ltac:(updater eta_tx tx_ready).
Definition set_tx_op := ltac:(updater eta_tx tx_op).
Definition set_tx_slot := ltac:(updater eta_tx tx_slot).
Definition set_tx_xfer_id := ltac:(updater eta_tx tx_xfer_id).
Definition set_tx_total := ltac:(updater eta_tx tx_total).
Definition set_tx_crc := ltac:(updater eta_tx tx_crc).
Definition set_tx_buf := ltac:(updater eta_tx tx_buf).
Definition set_tx_expect_mask := ltac:(updater eta_tx tx_expect_mask).
Definition set_tx_ack := ltac:(updater eta_tx tx_ack).
Definition set_tx_ack_timer_ms := ltac:(updater eta_tx tx_ack_timer_ms).
Definition set_tx_send_cursor := ltac:(updater eta_tx tx_send_cursor).
Definition set_tx_last_tx_ms := ltac:(updater eta_tx tx_last_tx_ms).
Definition set_tx_last_begin_ms := ltac:(updater eta_tx tx_last_begin_ms).
Definition set_tx_last_progress_log_ms := ltac:(updater eta_tx tx_last_progress_log_ms).
Definition set_tx_last_progress_acked := ltac:(updater eta_tx tx_last_progress_acked).
Definition set_tx_start_ms := ltac:(updater eta_tx tx_start_ms).
Definition set_tx_cwnd := ltac:(updater eta_tx tx_cwnd).
Definition set_tx_chunks_cap := ltac:(updater eta_tx tx_chunks_cap).
Definition set_tx_ack_timeout_ms := ltac:(updater eta_tx tx_ack_timeout_ms).

(** Inbound blob transfer of one source seat; [rx_bits] is the chunk bitmap as a number. *)
Record RNetStateRx := mkRx {
  rx_active : Z;
  rx_ready : Z;
  rx_op : Z;
  rx_slot : Z;
  rx_xfer_id : Z;
  rx_total : Z;
  rx_crc : Z;
  rx_contiguity : Z;
  rx_buf : option (list Z);
  rx_last_ack_ms : Z;
  rx_start_ms : Z;
  rx_bits : Z
}.

Definition eta_rx (r : RNetStateRx) : RNetStateRx :=
  mkRx
    (rx_active r) (rx_ready r) (rx_op r) (rx_slot r) (rx_xfer_id r) (rx_total r) (rx_crc r)
    (rx_contiguity r) (rx_buf r) (rx_last_ack_ms r) (rx_start_ms r) (rx_bits r).
Definition set_rx_active := ltac:(updater eta_rx rx_active).
Definition set_rx_ready := ltac:(updater eta_rx rx_ready).
Definition set_rx_op := ltac:(updater eta_rx rx_op).
Definition set_rx_slot := ltac:(updater eta_rx rx_slot).
Definition set_rx_xfer_id := ltac:(updater eta_rx rx_xfer_id).
Definition set_rx_total := ltac:(updater eta_rx rx_total).
Definition set_rx_crc := ltac:(updater eta_rx rx_crc).
Definition set_rx_contiguity := ltac:(updater eta_rx rx_contiguity).
Definition set_rx_buf := ltac:(updater eta_rx rx_buf).
Definition set_rx_last_ack_ms := ltac:(updater eta_rx rx_last_ack_ms).
Definition set_rx_start_ms := ltac:(updater eta_rx rx_start_ms).
Definition set_rx_bits := ltac:(updater eta_rx rx_bits).

(** The last transfer received from one sender. *)
Record RNetStateReceived := mkReceived {
  sr_id : Z;
  sr_total : Z;
  sr_crc : Z;
  sr_op : Z;
  sr_slot : Z;
  sr_finished : Z;
  sr_last_reack_ms : Z
}.

Definition eta_received (r : RNetStateReceived) : RNetStateReceived :=
  mkReceived
    (sr_id r) (sr_total r) (sr_crc r) (sr_op r) (sr_slot r) (sr_finished r) (sr_last_reack_ms r).
Definition set_sr_id := ltac:(updater eta_received sr_id).
Definition set_sr_total := ltac:(updater eta_received sr_total).
Definition set_sr_crc := ltac:(updater eta_received sr_crc).
Definition set_sr_op := ltac:(updater eta_received sr_op).
Definition set_sr_slot := ltac:(updater eta_received sr_slot).
Definition set_sr_finished := ltac:(updater eta_received sr_finished).
Definition set_sr_last_reack_ms := ltac:(updater eta_received sr_last_reack_ms).

(** The hash probe (the [state_probe_*] fields). *)
Record RNetStateProbe := mkProbe {
  pr_active : Z;
  pr_sender : Z;
  pr_expect_mask : Z;
  pr_reply_mask : Z;
  pr_match_mask : Z;
  pr_pending : Z;
  pr_matched : Z;
  pr_op : Z;
  pr_slot : Z;
  pr_size : Z;
  pr_crc : Z;
  pr_last_tx_ms : Z;
  pr_parked : Z
}.

Definition eta_probe (r : RNetStateProbe) : RNetStateProbe :=
  mkProbe
    (pr_active r) (pr_sender r) (pr_expect_mask r) (pr_reply_mask r) (pr_match_mask r)
    (pr_pending r) (pr_matched r) (pr_op r) (pr_slot r) (pr_size r) (pr_crc r) (pr_last_tx_ms r)
    (pr_parked r).
Definition set_pr_active := ltac:(updater eta_probe pr_active).
Definition set_pr_sender := ltac:(updater eta_probe pr_sender).
Definition set_pr_expect_mask := ltac:(updater eta_probe pr_expect_mask).
Definition set_pr_reply_mask := ltac:(updater eta_probe pr_reply_mask).
Definition set_pr_match_mask := ltac:(updater eta_probe pr_match_mask).
Definition set_pr_pending := ltac:(updater eta_probe pr_pending).
Definition set_pr_matched := ltac:(updater eta_probe pr_matched).
Definition set_pr_op := ltac:(updater eta_probe pr_op).
Definition set_pr_slot := ltac:(updater eta_probe pr_slot).
Definition set_pr_size := ltac:(updater eta_probe pr_size).
Definition set_pr_crc := ltac:(updater eta_probe pr_crc).
Definition set_pr_last_tx_ms := ltac:(updater eta_probe pr_last_tx_ms).
Definition set_pr_parked := ltac:(updater eta_probe pr_parked).

Record RNetProbeReleased := mkReleased {
  rl_valid : Z;
  rl_op : Z;
  rl_slot : Z;
  rl_size : Z;
  rl_crc : Z
}.


(** All transfer state of the session. *)
Record RNetXfer := mkXfer {
  xf_tx : RNetStateTx;
  xf_rx : list RNetStateRx;
  xf_taken : Z;
  xf_stall_sim : Z;
  xf_next_xfer_id : Z;
  xf_received : list RNetStateReceived;
  xf_sticky_cwnd : Z;
  xf_sticky_chunks : Z;
  xf_probe : RNetStateProbe;
  xf_released : RNetProbeReleased
}.

Definition eta_xfer (r : RNetXfer) : RNetXfer :=
  mkXfer
    (xf_tx r) (xf_rx r) (xf_taken r) (xf_stall_sim r) (xf_next_xfer_id r) (xf_received r)
    (xf_sticky_cwnd r) (xf_sticky_chunks r) (xf_probe r) (xf_released r).
Definition set_xf_tx := ltac:(updater eta_xfer xf_tx).
Definition set_xf_rx := ltac:(updater eta_xfer xf_rx).
Definition set_xf_taken := ltac:(updater eta_xfer xf_taken).
Definition set_xf_stall_sim := ltac:(updater eta_xfer xf_stall_sim).
Definition set_xf_next_xfer_id := ltac:(updater eta_xfer xf_next_xfer_id).
Definition set_xf_received := ltac:(updater eta_xfer xf_received).
Definition set_xf_sticky_cwnd := ltac:(updater eta_xfer xf_sticky_cwnd).
Definition set_xf_sticky_chunks := ltac:(updater eta_xfer xf_sticky_chunks).
Definition set_xf_probe := ltac:(updater eta_xfer xf_probe).
Definition set_xf_released := ltac:(updater eta_xfer xf_released).

Record fc_entry := mkFc { fc_tick : Z; fc_hash : Z; fc_from : Z }.
Record sio_entry := mkSio { si_seq : Z; si_send : Z; si_confirm_pad : Z; si_unit_id : Z }.

(** Control queues and the mod-set handshake. *)
Record RNetCtl := mkCtl {
  ct_rb_peer_slot : Z;
  ct_fc_q : ring_q fc_entry;
  ct_sync_q : ring_q rb_sync_entry;
  ct_seal_q : ring_q rb_seal_entry;
  ct_base_q : ring_q rb_base_entry;
  ct_post_q : ring_q rb_post_entry;
  ct_rb_last_from : Z;
  ct_rb_ctrl_dropped : Z;
  ct_peer_wire_version_mismatch : Z;
  ct_modset_text : list Z;
  ct_modset_pending : Z;
  ct_modset_ack_reason : list (list Z);
  ct_modset_ack_status : list Z;
  ct_modset_ack_pending : Z;
  ct_resolved_q : ring_q rb_resolved_entry;
  ct_sio_q : ring_q sio_entry
}.

Definition eta_ctl (r : RNetCtl) : RNetCtl :=
  mkCtl
    (ct_rb_peer_slot r) (ct_fc_q r) (ct_sync_q r) (ct_seal_q r) (ct_base_q r) (ct_post_q r)
    (ct_rb_last_from r) (ct_rb_ctrl_dropped r) (ct_peer_wire_version_mismatch r)
    (ct_modset_text r) (ct_modset_pending r) (ct_modset_ack_reason r) (ct_modset_ack_status r)
    (ct_modset_ack_pending r) (ct_resolved_q r) (ct_sio_q r).
Definition set_ct_rb_peer_slot := ltac:(updater eta_ctl ct_rb_peer_slot).
Definition set_ct_fc_q := ltac:(updater eta_ctl ct_fc_q).
Definition set_ct_sync_q := ltac:(updater eta_ctl ct_sync_q).
Definition set_ct_seal_q := ltac:(updater eta_ctl ct_seal_q).
Definition set_ct_base_q := ltac:(updater eta_ctl ct_base_q).
Definition set_ct_post_q := ltac:(updater eta_ctl ct_post_q).
Definition set_ct_rb_last_from := ltac:(updater eta_ctl ct_rb_last_from).
Definition set_ct_rb_ctrl_dropped := ltac:(updater eta_ctl ct_rb_ctrl_dropped).
Definition set_ct_peer_wire_version_mismatch := ltac:(updater eta_ctl ct_peer_wire_version_mismatch).
Definition set_ct_modset_text := ltac:(updater eta_ctl ct_modset_text).
Definition set_ct_modset_pending := ltac:(updater eta_ctl ct_modset_pending).
Definition set_ct_modset_ack_reason := ltac:(updater eta_ctl ct_modset_ack_reason).
Definition set_ct_modset_ack_status := ltac:(updater eta_ctl ct_modset_ack_status).
Definition set_ct_modset_ack_pending := ltac:(updater eta_ctl ct_modset_ack_pending).
Definition set_ct_resolved_q := ltac:(updater eta_ctl ct_resolved_q).
Definition set_ct_sio_q := ltac:(updater eta_ctl ct_sio_q).

(** The outside: successive readings of the host clock, successive answers of the host's
    [sample_local], datagrams waiting at the transport, outcomes of [malloc]; and the
    datagrams handed to the transport and rows handed to the host's [publish], oldest
    first. A stream that ran out reads as 0, a zero sample, no datagram, success. *)
Record RNetIo := mkIo {
  io_clock : list Z;
  io_pads : list RNetInputSample;
  io_inbox : list (list Z);
  io_malloc : list bool;
  io_sent : list (list Z);
  io_published : list (Z * list RNetInputSample)
}.

Definition eta_io (r : RNetIo) : RNetIo :=
  mkIo
    (io_clock r) (io_pads r) (io_inbox r) (io_malloc r) (io_sent r) (io_published r).
Definition set_io_clock := ltac:(updater eta_io io_clock).
Definition set_io_pads := ltac:(updater eta_io io_pads).
Definition set_io_inbox := ltac:(updater eta_io io_inbox).
Definition set_io_malloc := ltac:(updater eta_io io_malloc).
Definition set_io_sent := ltac:(updater eta_io io_sent).
Definition set_io_published := ltac:(updater eta_io io_published).

(** The session struct; related fields are grouped in the records above. *)
Record RNetSession := mkSession {
  s_profiles : RNetProfiles;
  s_cfg : RNetConfig;
  s_mode : RNetTransportMode;
  s_phase : RNetSessionPhase;
  s_local_ring : RNetInputRing;
  s_remote_rings : list RNetInputRing;
  s_peer_ready : list Z;
  s_local_ready : Z;
  s_start_sent : Z;
  s_delay : Z;
  s_delay_pending : Z;
  s_delay_pending_value : Z;
  s_delay_pending_effective : Z;
  s_delay_pending_last_tx_ms : Z;
  s_sim_tick : Z;
  s_highest_remote_ack : Z;
  s_remote_contiguous_ack : list Z;
  s_peer_ack_tick : list Z;
  s_peer_ack_seen : list Z;
  s_last_hello_ms : Z;
  s_last_ready_ms : Z;
  s_last_input_ms : Z;
  s_last_input_tip : Z;
  s_last_input_tip_valid : Z;
  s_is_sim_authority : Z;
  s_is_observer : Z;
  s_wire_slot : Z;
  s_confirm : RNetConfirm;
  s_live : RNetLiveness;
  s_xfer : RNetXfer;
  s_input_send_suppress : Z;
  s_input_epoch : Z;
  s_diag : RNetDiag;
  s_arr_ms : list (list Z);
  s_arr_tick : list (list Z);
  s_ctl : RNetCtl;
  s_io : RNetIo
}.

Definition eta_sess (r : RNetSession) : RNetSession :=
  mkSession
    (s_profiles r) (s_cfg r) (s_mode r) (s_phase r) (s_local_ring r) (s_remote_rings r)
    (s_peer_ready r) (s_local_ready r) (s_start_sent r) (s_delay r) (s_delay_pending r)
    (s_delay_pending_value r) (s_delay_pending_effective r) (s_delay_pending_last_tx_ms r)
    (s_sim_tick r) (s_highest_remote_ack r) (s_remote_contiguous_ack r) (s_peer_ack_tick r)
    (s_peer_ack_seen r) (s_last_hello_ms r) (s_last_ready_ms r) (s_last_input_ms r)
    (s_last_input_tip r) (s_last_input_tip_valid r) (s_is_sim_authority r) (s_is_observer r)
    (s_wire_slot r) (s_confirm r) (s_live r) (s_xfer r) (s_input_send_suppress r)
    (s_input_epoch r) (s_diag r) (s_arr_ms r) (s_arr_tick r) (s_ctl r) (s_io r).
Definition set_s_profiles := ltac:(updater eta_sess s_profiles).
Definition set_s_cfg := ltac:(updater eta_sess s_cfg).
Definition set_s_mode := ltac:(updater eta_sess s_mode).
Definition set_s_phase := ltac:(updater eta_sess s_phase).
Definition set_s_local_ring := ltac:(updater eta_sess s_local_ring).
Definition set_s_remote_rings := ltac:(updater eta_sess s_remote_rings).
Definition set_s_peer_ready := ltac:(updater eta_sess s_peer_ready).
Definition set_s_local_ready := ltac:(updater eta_sess s_local_ready).
Definition set_s_start_sent := ltac:(updater eta_sess s_start_sent).
Definition set_s_delay := ltac:(updater eta_sess s_delay).
Definition set_s_delay_pending := ltac:(updater eta_sess s_delay_pending).
Definition set_s_delay_pending_value := ltac:(updater eta_sess s_delay_pending_value).
Definition set_s_delay_pending_effective := ltac:(updater eta_sess s_delay_pending_effective).
Definition set_s_delay_pending_last_tx_ms := ltac:(updater eta_sess s_delay_pending_last_tx_ms).
Definition set_s_sim_tick := ltac:(updater eta_sess s_sim_tick).
Definition set_s_highest_remote_ack := ltac:(updater eta_sess s_highest_remote_ack).
Definition set_s_remote_contiguous_ack := ltac:(updater eta_sess s_remote_contiguous_ack).
Definition set_s_peer_ack_tick := ltac:(updater eta_sess s_peer_ack_tick).
Definition set_s_peer_ack_seen := ltac:(updater eta_sess s_peer_ack_seen).
Definition set_s_last_hello_ms := ltac:(updater eta_sess s_last_hello_ms).
Definition set_s_last_ready_ms := ltac:(updater eta_sess s_last_ready_ms).
Definition set_s_last_input_ms := ltac:(updater eta_sess s_last_input_ms).
Definition set_s_last_input_tip := ltac:(updater eta_sess s_last_input_tip).
Definition set_s_last_input_tip_valid := ltac:(updater eta_sess s_last_input_tip_valid).
Definition set_s_is_sim_authority := ltac:(updater eta_sess s_is_sim_authority).
Definition set_s_is_observer := ltac:(updater eta_sess s_is_observer).
Definition set_s_wire_slot := ltac:(updater eta_sess s_wire_slot).
Definition set_s_confirm := ltac:(updater eta_sess s_confirm).
Definition set_s_live := ltac:(updater eta_sess s_live).
Definition set_s_xfer := ltac:(updater eta_sess s_xfer).
Definition set_s_input_send_suppress := ltac:(updater eta_sess s_input_send_suppress).
Definition set_s_input_epoch := ltac:(updater eta_sess s_input_epoch).
Definition set_s_diag := ltac:(updater eta_sess s_diag).
Definition set_s_arr_ms := ltac:(updater eta_sess s_arr_ms).
Definition set_s_arr_tick := ltac:(updater eta_sess s_arr_tick).
Definition set_s_ctl := ltac:(updater eta_sess s_ctl).
Definition set_s_io := ltac:(updater eta_sess s_io).

(** Updates of a grouped field. *)
Definition on_profiles (f : RNetProfiles -> RNetProfiles) (s : RNetSession) := set_s_profiles (f (s_profiles s)) s.
Definition on_confirm (f : RNetConfirm -> RNetConfirm) (s : RNetSession) := set_s_confirm (f (s_confirm s)) s.
Definition on_live (f : RNetLiveness -> RNetLiveness) (s : RNetSession) := set_s_live (f (s_live s)) s.
Definition on_diag (f : RNetDiag -> RNetDiag) (s : RNetSession) := set_s_diag (f (s_diag s)) s.
Definition on_ctl (f : RNetCtl -> RNetCtl) (s : RNetSession) := set_s_ctl (f (s_ctl s)) s.
Definition on_xfer (f : RNetXfer -> RNetXfer) (s : RNetSession) := set_s_xfer (f (s_xfer s)) s.
Definition on_io (f : RNetIo -> RNetIo) (s : RNetSession) := set_s_io (f (s_io s)) s.

(** ** The outside *)

Definition session_now (s : RNetSession) : Z * RNetSession :=
  (hd 0 (io_clock (s_io s)), on_io (fun io => set_io_clock (tl (io_clock io)) io) s).

(** The host's [sample_local]. *)
Definition sample_local (s : RNetSession) : RNetInputSample * RNetSession :=
  (hd zero_sample (io_pads (s_io s)), on_io (fun io => set_io_pads (tl (io_pads io)) io) s).

Definition malloc_ok (s : RNetSession) : bool * RNetSession :=
  (hd true (io_malloc (s_io s)), on_io (fun io => set_io_malloc (tl (io_malloc io)) io) s).

Definition transport_send (buf : list Z) (s : RNetSession) : RNetSession :=
  on_io (fun io => set_io_sent (io_sent io ++ [buf]) io) s.

Definition host_publish (sim_tick : Z) (rows : list RNetInputSample) (s : RNetSession) : RNetSession :=
  on_io (fun io => set_io_published (io_published io ++ [(sim_tick, rows)]) io) s.

(** Rollback-control packets leave with the generation trailer. *)
Definition send_raw (enc : cres (list Z)) (s : RNetSession) : RNetSession :=
  match enc with
  | Ret buf =>
      if (14 <=? zlen buf) &&
         rnet_proto_is_rb_control (Z.lor (rd 0 buf 4) (Z.shiftl (rd 0 buf 5) 8))
      then
        if RNET_MAX_PACKET <? zlen buf + 2 then s else
        match rnet_proto_tag_rb_epoch buf RNET_MAX_PACKET (s_input_epoch s) with
        | Ret tagged => transport_send tagged s
        | _ => s
        end
      else if zlen buf <=? 0 then s else transport_send buf s
  | _ => s
  end.

(** ** Admission diagnostics *)

Definition note_wait (wait : Z) (d : RNetDiag) : RNetDiag :=
  let d := set_dg_last_admit_wait_ms wait d in
  if dg_max_admit_wait_ms d <? wait then set_dg_max_admit_wait_ms wait d else d.

Definition note_admit_stall (reason : RNetAdmitStall) (s : RNetSession) : RNetSession :=
  let s := on_diag (fun d =>
    let d := set_dg_last_stall reason d in
    let d := if dg_consecutive_stalls d =? 0
             then set_dg_stall_streaks (u32 (dg_stall_streaks d + 1)) d else d in
    set_dg_consecutive_stalls (u32 (dg_consecutive_stalls d + 1)) d) s in
  let '(now, s) := session_now s in
  on_diag (fun d =>
    let d := if dg_stall_started_ms d =? 0
             then set_dg_stall_started_ms (if nz now then now else 1) d else d in
    note_wait (u32 (now - dg_stall_started_ms d)) d) s.

Definition note_admit_ok (s : RNetSession) : RNetSession :=
  let '(now, s) := session_now s in
  on_diag (fun d =>
    let d := if nz (dg_stall_started_ms d)
             then set_dg_stall_started_ms 0 (note_wait (u32 (now - dg_stall_started_ms d)) d)
             else set_dg_last_admit_wait_ms 0 d in
    set_dg_admit_ok_count (u32 (dg_admit_ok_count d + 1))
      (set_dg_consecutive_stalls 0 (set_dg_last_stall ADMIT_OK d))) s.

(** ** Remote input rows *)

Definition remote_ring (s : RNetSession) (slot : Z) : RNetInputRing :=
  rd rnet_ring_clear (s_remote_rings s) slot.

Definition running (s : RNetSession) : bool := bool_decide (s_phase s = PHASE_RUNNING).

Definition remote_tick_in_live_window (s : RNetSession) (slot tick : Z) : bool :=
  if negb (running s) then true else
  let tip := rnet_wire_tick_from_sim (s_sim_tick s) (s_delay s) in
  let slop := cfg_bundle_redundancy (s_cfg s) + 8 in
  let slop := if slop <? 8 then 8 else slop in
  let lo := if slop <? s_sim_tick s then s_sim_tick s - slop else 0 in
  let hi := u32 (tip + slop) in
  if (lo <=? tick) && (tick <=? hi) then true else
  if cfg_slot_count (s_cfg s) <=? slot then false else
  let remote_hi := rnet_ring_highest_valid (remote_ring s slot) in
  let ancient := 64 in
  (remote_hi <? tick) && (tick <=? hi) &&
  ((s_sim_tick s <=? ancient) || (s_sim_tick s <=? u32 (tick + ancient))).

(** The acknowledgment loop of [store_remote_frame]. Consecutive ticks sit in
    distinct slots of the ring, so it makes at most 128 steps. *)
Fixpoint advance_ack (n : nat) (ring : RNetInputRing) (next ack : Z) : Z :=
  match n with
  | O => ack
  | S m =>
      match rnet_ring_get ring next with
      | None => ack
      | Some _ => if next =? UINT32_MAX then next else advance_ack m ring (next + 1) next
      end
  end.

Definition sample_of_frame (frame : RNetWireFrame) : RNetInputSample :=
  mkSample (wf_tick frame) (wf_size frame)
    (padded 32 (take (Z.to_nat (wf_size frame)) (wf_bytes frame))) 1.

Definition store_remote_frame (slot : Z) (frame : RNetWireFrame) (s : RNetSession) : RNetSession :=
  if (cfg_slot_count (s_cfg s) <=? slot) || (slot =? cfg_local_slot (s_cfg s)) then s else
  if negb (remote_tick_in_live_window s slot (wf_tick frame)) then s else
  match rnet_ring_get (remote_ring s slot) (wf_tick frame) with
  | Some _ => s
  | None =>
      let ring := rnet_ring_store (remote_ring s slot) (sample_of_frame frame) in
      let s := set_s_remote_rings (wr (s_remote_rings s) slot ring) s in
      let s :=
        if 2 <? cfg_slot_count (s_cfg s) then
          let ack := rd 0 (s_remote_contiguous_ack s) slot in
          set_s_remote_contiguous_ack
            (wr (s_remote_contiguous_ack s) slot (advance_ack 129 ring (u32 (ack + 1)) ack)) s
        else s in
      let idx := wf_tick frame mod RNET_HISTORY_LENGTH in
      let '(now, s) := session_now s in
      let s := set_s_arr_tick (wr (s_arr_tick s) slot (wr (rd [] (s_arr_tick s) slot) idx (wf_tick frame))) s in
      set_s_arr_ms (wr (s_arr_ms s) slot (wr (rd [] (s_arr_ms s) slot) idx (if nz now then now else 1))) s
  end.

(** ** Confirmation of resolved inputs *)

(** One seat's contribution to the hashed buffer. *)
Definition hash_row (row : RNetInputSample) : list Z :=
  let sz := if RNET_INPUT_MAX <? is_size row then RNET_INPUT_MAX else is_size row in
  [Z.land sz 255; Z.land (Z.shiftr sz 8) 255] ++ take (Z.to_nat sz) (is_bytes row).

Definition hash_resolved_inputs (sim_tick : Z) (by_slot : list RNetInputSample) (slots : Z) : Z :=
  rnet_proto_checksum (le_bytes 4 sim_tick ++ concat (map hash_row (take (Z.to_nat slots) by_slot))).

Definition hist (tick : Z) : Z := tick mod RNET_HISTORY_LENGTH.

Definition send_input_confirm_tick (tick hash : Z) (s : RNetSession) : RNetSession :=
  let s := send_raw (rnet_proto_encode_input_confirm RNET_MAX_PACKET (cfg_protocol_magic (s_cfg s))
                       (cfg_session_id (s_cfg s)) (s_wire_slot s) (s_input_epoch s) tick hash) s in
  let '(now, s) := session_now s in
  on_confirm (fun c => set_cn_last_sent_ms (wr (cn_last_sent_ms c) (hist tick) now) c) s.

(** Seats other than ours that really have a peer. *)
Definition remote_seat (s : RNetSession) (slot : Z) : bool :=
  negb (slot =? cfg_local_slot (s_cfg s)) && rnet_config_slot_occupied (s_cfg s) slot.

Definition remotes_ready_for_play_wire (s : RNetSession) (play_wire : Z) : bool :=
  all_upto (cfg_slot_count (s_cfg s)) (fun slot =>
    if remote_seat s slot then bool_decide (is_Some (rnet_ring_get (remote_ring s slot) play_wire))
    else true).

Definition neutral_sample (tick : Z) : RNetInputSample := mkSample tick 0 (replicate 32 0) 1.

(** Gameplay ticks 0..D-1 have no prior sample and are seeded neutral. *)
Definition seed_delay_prefix (s : RNetSession) : RNetSession :=
  for_upto (s_delay s) (fun t s =>
    match rnet_ring_get (s_local_ring s) t with
    | Some _ => s
    | None => set_s_local_ring (rnet_ring_store (s_local_ring s) (neutral_sample t)) s
    end) s.

(** One seat of the resolved row at a wire tick. *)
Definition collect_slot (s : RNetSession) (wire slot : Z) : option RNetInputSample :=
  if negb (rnet_config_slot_occupied (s_cfg s) slot) then Some (neutral_sample wire) else
  match (if slot =? cfg_local_slot (s_cfg s) then rnet_ring_get (s_local_ring s) wire
         else rnet_ring_get (remote_ring s slot) wire) with
  | None => None
  | Some sample => Some (mkSample wire (is_size sample) (is_bytes sample) (is_valid sample))
  end.

(** The rows of the [slot_count] seats, or nothing when one is missing. *)
Definition collect_wire_inputs (s : RNetSession) (wire : Z) : option (list RNetInputSample) :=
  mapM (collect_slot s wire) (seqZ 0 (cfg_slot_count (s_cfg s))).

(** The first remote seat whose confirmation of [wire] differs from [hash]. *)
Definition confirm_conflict (s : RNetSession) (wire hash : Z) : option Z :=
  find (fun slot =>
    remote_seat s slot && nz (rd 0 (rd [] (cn_peer_valid (s_confirm s)) (hist wire)) slot) &&
    (rd 0 (rd [] (cn_peer_tick (s_confirm s)) (hist wire)) slot =? wire) &&
    negb (rd 0 (rd [] (cn_peer_hash (s_confirm s)) (hist wire)) slot =? hash))
    (seqZ 0 (cfg_slot_count (s_cfg s))).

Definition note_desync (tick local_hash remote_hash : Z) (c : RNetConfirm) : RNetConfirm :=
  set_cn_desync_remote_hash remote_hash (set_cn_desync_local_hash local_hash
    (set_cn_desync_tick tick (set_cn_input_desync 1 c))).

Definition resend_due (now last period : Z) : bool := (last =? 0) || (period <=? u64 (now - last)).

Definition prepare_wire_confirm (wire : Z) (force_send : bool) (s : RNetSession) : bool * RNetSession :=
  match collect_wire_inputs s wire with
  | None => (false, s)
  | Some resolved =>
      let hash := hash_resolved_inputs wire resolved (cfg_slot_count (s_cfg s)) in
      let s := on_confirm (fun c =>
        set_cn_published_valid (wr (cn_published_valid c) (hist wire) 1)
          (set_cn_published_hash (wr (cn_published_hash c) (hist wire) hash)
            (set_cn_published_tick (wr (cn_published_tick c) (hist wire) wire) c))) s in
      match confirm_conflict s wire hash with
      | Some slot =>
          (false, on_confirm (fun c =>
             note_desync wire hash (rd 0 (rd [] (cn_peer_hash c) (hist wire)) slot) c) s)
      | None =>
          let '(now, s) := session_now s in
          if force_send || resend_due now (rd 0 (cn_last_sent_ms (s_confirm s)) (hist wire)) 4
          then (true, send_input_confirm_tick wire hash s) else (true, s)
      end
  end.

Definition published_at (s : RNetSession) (wire : Z) : option Z :=
  let c := s_confirm s in
  if nz (rd 0 (cn_published_valid c) (hist wire)) && (rd 0 (cn_published_tick c) (hist wire) =? wire)
  then Some (rd 0 (cn_published_hash c) (hist wire)) else None.

Definition confirmed_at (s : RNetSession) (slot wire : Z) : option Z :=
  let c := s_confirm s in
  if nz (rd 0 (rd [] (cn_peer_valid c) (hist wire)) slot) &&
     (rd 0 (rd [] (cn_peer_tick c) (hist wire)) slot =? wire)
  then Some (rd 0 (rd [] (cn_peer_hash c) (hist wire)) slot) else None.

Definition wire_confirmations_agree (s : RNetSession) (wire : Z) : bool :=
  match published_at s wire with
  | None => false
  | Some hash =>
      all_upto (cfg_slot_count (s_cfg s)) (fun slot =>
        if remote_seat s slot then bool_decide (confirmed_at s slot wire = Some hash) else true)
  end.

(** One tick of the retransmission window. The clock was read once before the
    loop; [send_input_confirm_tick] reads it again. *)
Definition refresh_confirm_tick (now w : Z) (s : RNetSession) : RNetSession :=
  match published_at s w with
  | Some hash =>
      if resend_due now (rd 0 (cn_last_sent_ms (s_confirm s)) (hist w)) 4
      then send_input_confirm_tick w hash s else s
  | None => snd (prepare_wire_confirm w false s)
  end.

Definition refresh_confirm_window (play_wire sample_wire : Z) (s : RNetSession) : RNetSession :=
  let trail := s_delay s + cfg_bundle_redundancy (s_cfg s) + 8 in
  let trail := if trail <? 16 then 16 else trail in
  let trail := if RNET_HISTORY_LENGTH / 2 <? trail then RNET_HISTORY_LENGTH / 2 else trail in
  let lo := if trail <? play_wire then play_wire - trail else 0 in
  let sample_wire := if sample_wire <? lo then lo else sample_wire in
  let '(now, s) := session_now s in
  for_range lo (sample_wire + 1) (refresh_confirm_tick now) s.

(** ** Input bundles *)

Definition frame_of_sample (sample : RNetInputSample) : RNetWireFrame :=
  mkWireFrame (is_tick sample) (is_size sample)
    (padded 32 (take (Z.to_nat (is_size sample)) (is_bytes sample))).

(** The inner loop: collect up to [RNET_MAX_BUNDLE] rows from tick [t] on;
    the result is the frames and the tick where the loop stopped. Each step
    but the last moves [t] towards [tip]. *)
Fixpoint fill_bundle (n : nat) (ring : RNetInputRing) (t tip : Z) (frames : list RNetWireFrame)
  : list RNetWireFrame * Z :=
  match n with
  | O => (frames, t)
  | S m =>
      if (t <=? tip) && (zlen frames <? RNET_MAX_BUNDLE) then
        let frames := match rnet_ring_get ring t with
                      | Some sample => frames ++ [frame_of_sample sample]
                      | None => frames
                      end in
        if t =? UINT32_MAX then (frames, t) else fill_bundle m ring (t + 1) tip frames
      else (frames, t)
  end.

Definition encode_bundle (s : RNetSession) (ack : Z) (frames : list RNetWireFrame) : cres (list Z) :=
  let cfg := s_cfg s in
  if 2 <? cfg_slot_count cfg then
    rnet_proto_encode_input_acks RNET_MAX_PACKET (cfg_protocol_magic cfg) (cfg_session_id cfg)
      (s_wire_slot s) (s_input_epoch s) ack (Some frames) (zlen frames)
      (Some (take (Z.to_nat (cfg_slot_count cfg)) (s_remote_contiguous_ack s))) (cfg_slot_count cfg)
  else
    rnet_proto_encode_input RNET_MAX_PACKET (cfg_protocol_magic cfg) (cfg_session_id cfg)
      (s_wire_slot s) (s_input_epoch s) ack (Some frames) (zlen frames).

(** The packet loop [while (t <= tip)]. The result is the state, whether a
    packet went out, and whether the loop came to its end within [n] rounds. *)
Fixpoint bundle_loop (n : nat) (ack t tip : Z) (s : RNetSession) (sent_any : bool)
  : RNetSession * bool * bool :=
  match n with
  | O => (s, sent_any, false)
  | S m =>
      if t <=? tip then
        let '(frames, t) := fill_bundle (Z.to_nat (tip - t + 1)) (s_local_ring s) t tip [] in
        if zlen frames =? 0 then bundle_loop m ack t tip s sent_any else
        match encode_bundle s ack frames with
        | Ret buf =>
            let s := send_raw (Ret buf) s in
            let s := on_diag (fun d => set_dg_input_bundle_sends (u32 (dg_input_bundle_sends d + 1)) d) s in
            bundle_loop m ack t tip s true
        | _ => (s, sent_any, true)
        end
      else (s, sent_any, true)
  end.

(** The lowest tick some remote seat of a room of more than two still needs. *)
Definition min_peer_lo (s : RNetSession) (tip : Z) : Z :=
  for_upto (cfg_slot_count (s_cfg s)) (fun slot lo =>
    if remote_seat s slot then
      let a := rd 0 (s_peer_ack_tick s) slot in
      let peer_lo := if (rd 0 (s_peer_ack_seen s) slot =? 0) || (a =? UINT32_MAX) then 0 else u32 (a + 1) in
      if peer_lo <? lo then peer_lo else lo
    else lo) (u32 (tip + 1)).

(** [max_back = RNET_HISTORY_LENGTH / 2], already within its clamps. *)
Definition max_back : Z := 64.

Definition clamp_back (tip ack_lo : Z) : Z :=
  if (max_back <? u32 (tip + 1)) && (u32 (ack_lo + max_back) <=? tip)
  then u32 (tip + 1 - max_back) else ack_lo.

(** First tick of the window a bundle covers. *)
Definition bundle_lo (s : RNetSession) (tip : Z) : Z :=
  let red := cfg_bundle_redundancy (s_cfg s) in
  let red := if red <? 1 then 1 else red in
  let red := if red <? s_delay s + 1 then s_delay s + 1 else red in
  let lo := if red <? u32 (tip + 1) then u32 (tip + 1) - red else 0 in
  if 2 <? cfg_slot_count (s_cfg s) then
    let ack_lo := clamp_back tip (min_peer_lo s tip) in
    if ack_lo <? lo then ack_lo else lo
  else if s_highest_remote_ack s <? tip then
    let ack_lo := clamp_back tip (u32 (s_highest_remote_ack s + 1)) in
    if ack_lo <? lo then ack_lo else lo
  else lo.

Definition send_input_bundle (s : RNetSession) : RNetSession :=
  let '(now, s) := session_now s in
  if nz (s_is_observer s) then s else
  if negb (running s) then s else
  if nz (xf_stall_sim (s_xfer s)) || nz (s_input_send_suppress s) then s else
  let tip := rnet_wire_tick_from_sim (s_sim_tick s) (s_delay s) in
  if nz (s_last_input_tip_valid s) && (s_last_input_tip s =? tip) &&
     (u64 (now - s_last_input_ms s) <? 8) then s else
  let lo := bundle_lo s tip in
  let ack := rnet_ring_highest_valid
    (remote_ring s (if nz (s_is_observer s) then 0
                    else (cfg_local_slot (s_cfg s) + 1) mod cfg_slot_count (s_cfg s))) in
  let '(s, sent_any, _) := bundle_loop (Z.to_nat (tip - lo + 2)) ack lo tip s false in
  if negb sent_any then s else
  set_s_last_input_tip_valid 1 (set_s_last_input_tip tip (set_s_last_input_ms now s)).

(** ** Session start *)

Definition send_hello (s : RNetSession) : RNetSession :=
  send_raw (rnet_proto_encode_hello RNET_MAX_PACKET (cfg_protocol_magic (s_cfg s))
              (cfg_session_id (s_cfg s)) (s_wire_slot s) (cfg_slot_count (s_cfg s)) (s_delay s)) s.
Definition send_start (s : RNetSession) : RNetSession :=
  send_raw (rnet_proto_encode_start RNET_MAX_PACKET (cfg_protocol_magic (s_cfg s))
              (cfg_session_id (s_cfg s)) 0) s.

(** The READY scan: empty seats are marked ready on the way; the scan stops
    at the first occupied seat that is not. *)
Fixpoint scan_ready (cfg : RNetConfig) (slots : list Z) (ready : list Z) : list Z * bool :=
  match slots with
  | [] => (ready, true)
  | slot :: rest =>
      if negb (rnet_config_slot_occupied cfg slot) then scan_ready cfg rest (wr ready slot 1)
      else if rd 0 ready slot =? 0 then (ready, false)
      else scan_ready cfg rest ready
  end.

Definition bootstrap_hello (now : Z) (s : RNetSession) : RNetSession :=
  if bool_decide (s_phase s = PHASE_LINKING) then
    if 100 <=? u64 (now - s_last_hello_ms s) then set_s_last_hello_ms now (send_hello s) else s
  else s.

Definition bootstrap_ready (now : Z) (s : RNetSession) : RNetSession * bool :=
  let s := if s_local_ready s =? 0 then set_s_local_ready 1 s else s in
  let s := if 100 <=? u64 (now - s_last_ready_ms s)
           then set_s_last_ready_ms now
                  (send_raw (rnet_proto_encode_ready RNET_MAX_PACKET (cfg_protocol_magic (s_cfg s))
                               (cfg_session_id (s_cfg s)) (s_wire_slot s)) s)
           else s in
  let s := if s_is_observer s =? 0
           then set_s_peer_ready (wr (s_peer_ready s) (cfg_local_slot (s_cfg s)) 1) s else s in
  let '(ready, all_ready) := scan_ready (s_cfg s) (seqZ 0 (cfg_slot_count (s_cfg s))) (s_peer_ready s) in
  (set_s_peer_ready ready s, all_ready).

Definition maybe_bootstrap (s : RNetSession) : RNetSession :=
  let '(now, s) := session_now s in
  let s := bootstrap_hello now s in
  if bool_decide (s_phase s = PHASE_READY) || bool_decide (s_phase s = PHASE_LINKING) then
    let '(s, all_ready) := bootstrap_ready now s in
    if all_ready && nz (s_is_sim_authority s) && (s_start_sent s =? 0) then
      let s := send_start s in
      let s := set_s_phase PHASE_RUNNING (set_s_sim_tick 0 (set_s_start_sent 1 s)) in
      send_input_bundle (seed_delay_prefix s)
    else s
  else s.

(** ** Creation *)

Definition zero_tx : RNetStateTx :=
  mkTx 0 0 0 0 0 0 0 None 0 (replicate 8 0) (replicate 8 0) 0 0 0 0 0 0 0 0 0.
Definition zero_rx : RNetStateRx := mkRx 0 0 0 0 0 0 0 0 None 0 0 0.
Definition zero_probe : RNetStateProbe := mkProbe 0 0 0 0 0 0 0 0 0 0 0 0 0.
Definition zero_caps : RNetProfileCaps := mkCaps 0 0 0 0.

(** [host_ok]: the host table has both [sample_local] and [publish];
    [os_now]: the OS clock. *)
Definition rnet_session_create (cfg : RNetConfig) (host_ok alloc_ok : bool) (os_now : Z) (io : RNetIo)
  : option RNetSession :=
  if negb host_ok then None else
  if (cfg_slot_count cfg <? 2) || (RNET_MAX_SLOTS <? cfg_slot_count cfg) then None else
  if cfg_slot_count cfg <? cfg_local_slot cfg then None else
  if (cfg_local_slot cfg =? cfg_slot_count cfg) && (rnet_config_wire_slot cfg <? cfg_slot_count cfg)
  then None else
  if negb alloc_ok then None else
  let observer := b2z (rnet_config_is_observer cfg) in
  Some (mkSession
    (mkProfiles 0 0 0 0 0 0 0 0 0 (replicate 8 zero_caps) 0 0)
    cfg TRANSPORT_NONE PHASE_IDLE rnet_ring_clear (replicate 8 rnet_ring_clear)
    (replicate 8 0) 0 0 (cfg_input_delay cfg) 0 0 0 0 0 0
    (replicate 8 UINT32_MAX) (replicate 8 0) (replicate 8 0)
    0 0 0 0 0 (b2z ((observer =? 0) && (cfg_local_slot cfg =? 0))) observer
    (rnet_config_wire_slot cfg)
    (mkConfirm (replicate 128 0) (replicate 128 0) (replicate 128 0)
       (replicate 128 (replicate 8 0)) (replicate 128 (replicate 8 0)) (replicate 128 (replicate 8 0))
       (replicate 128 0) 0 0 0 0)
    (mkLive 0 os_now 0 (replicate 8 0) 0)
    (mkXfer zero_tx (replicate 8 zero_rx) (-1) 0 0 (replicate 8 (mkReceived 0 0 0 0 0 0 0)) 0 0
       zero_probe (mkReleased 0 0 0 0 0))
    0 0
    (mkDiag ADMIT_OK 0 0 0 0 0 0 0 0)
    (replicate 8 (replicate 128 0)) (replicate 8 (replicate 128 0))
    (mkCtl (-1) (mkQ (replicate 256 (mkFc 0 0 0)) 0 0 0) ctrl_empty ctrl_empty ctrl_empty ctrl_empty
       (-1) 0 0 (replicate 1024 0) 0 (replicate 8 (replicate 96 0)) (replicate 8 0) 0 ctrl_empty
       (mkQ (replicate 32 (mkSio 0 0 0 0)) 0 0 0))
    io).

(** ** Startup profiles *)

Definition PROFILE_OFFER : Z := 7.
Definition PROFILE_ACK : Z := 8.

Definition profile_fold (h word : Z) : Z := fold_left fnv_step (le_bytes 4 word) h.

Definition fold_seat (i : Z) (c : RNetProfileCaps) (h : Z) : Z :=
  profile_fold (profile_fold (profile_fold (profile_fold (profile_fold h i)
    (pc_cpu_features c)) (pc_backends c)) (pc_profiles c)) (pc_architecture c).

(** The seat loop: the profiles common to the occupied seats and the hash. *)
Definition fold_offers (occupied slot_count : Z) (caps : list RNetProfileCaps) (h : Z) : Z * Z :=
  for_upto slot_count (fun i '(common, h) =>
    if has_bit occupied i
    then (Z.land common (pc_profiles (rd zero_caps caps i)), fold_seat i (rd zero_caps caps i) h)
    else (common, h)) (UINT32_MAX, h).

(** [for (i = 31; i > 0 && !(common & (1u << i)); --i)]: the highest bit. *)
Fixpoint highest_bit (n : nat) (common : Z) : Z :=
  match n with
  | O => 0
  | S m => if has_bit common (Z.of_nat n) then Z.of_nat n else highest_bit m common
  end.

(** What a complete set of offers determines: the hash before the selection
    is folded in, and the common profiles. *)
Definition offers_verdict (qualification slot_count occupied : Z) (caps : list RNetProfileCaps) : Z * Z :=
  fold_offers occupied slot_count caps
    (profile_fold (profile_fold (profile_fold 2166136261 qualification) slot_count) occupied).

Definition profiles_choose (cfg : RNetConfig) (p : RNetProfiles) : RNetProfiles :=
  if negb (pf_offers p =? pf_occupied p) || nz (pf_acks p) then p else
  let '(common, h) := offers_verdict (pf_qualification p) (cfg_slot_count cfg) (pf_occupied p) (pf_caps p) in
  if negb (has_bit common 0) then set_pf_refused 1 p else
  let i := highest_bit 31 common in
  set_pf_dirty 1 (set_pf_acknowledged_by (bit (cfg_local_slot cfg)) (set_pf_acks (bit (cfg_local_slot cfg))
    (set_pf_transcript (profile_fold h i) (set_pf_selected i p)))).

Definition caps_eqb (a b : RNetProfileCaps) : bool :=
  (pc_cpu_features a =? pc_cpu_features b) && (pc_backends a =? pc_backends b) &&
  (pc_profiles a =? pc_profiles b) && (pc_architecture a =? pc_architecture b).

Definition profiles_on_offer (cfg : RNetConfig) (pkt : RNetDecodedPacket) (p : RNetProfiles) : RNetProfiles :=
  let slot := p_local_slot pkt in
  let caps := mkCaps (p_rb_mismatch_tick pkt) (p_rb_load_tick pkt) (p_rb_target_tick pkt)
                (p_rb_corrected_slot pkt) in
  if negb (has_bit (pc_profiles caps) 0) ||
     (has_bit (pf_offers p) slot && negb (caps_eqb caps (rd zero_caps (pf_caps p) slot)))
  then set_pf_refused 1 p
  else profiles_choose cfg
         (set_pf_offers (Z.lor (pf_offers p) (bit slot)) (set_pf_caps (wr (pf_caps p) slot caps) p)).

Definition profiles_on_ack (cfg : RNetConfig) (pkt : RNetDecodedPacket) (p : RNetProfiles) : RNetProfiles :=
  let slot := p_local_slot pkt in
  if negb (pf_offers p =? pf_occupied p) then p else
  if negb (p_rb_mismatch_tick pkt =? pf_selected p) || negb (p_rb_load_tick pkt =? pf_transcript p) ||
     negb (p_rb_corrected_slot pkt =? 0) || negb (has_bit (p_rb_target_tick pkt) slot) ||
     nz (Z.land (p_rb_target_tick pkt) (Z.lxor UINT32_MAX (pf_occupied p)))
  then set_pf_refused 1 p
  else
    let p := if has_bit (pf_acks p) slot then p else set_pf_dirty 1 p in
    let p := set_pf_acks (Z.lor (pf_acks p) (bit slot)) p in
    if has_bit (p_rb_target_tick pkt) (cfg_local_slot cfg)
    then set_pf_acknowledged_by (Z.lor (pf_acknowledged_by p) (bit slot)) p else p.

Definition profiles_receive (cfg : RNetConfig) (pkt : RNetDecodedPacket) (p : RNetProfiles) : RNetProfiles :=
  if (pf_active p =? 0) || nz (pf_refused p) || (cfg_slot_count cfg <=? p_local_slot pkt) ||
     (p_local_slot pkt =? cfg_local_slot cfg) then p else
  if negb (has_bit (pf_occupied p) (p_local_slot pkt)) then p else
  if negb (p_rb_epoch_id pkt =? pf_qualification p) || negb (p_rb_flags pkt =? 0)
  then set_pf_refused 1 p
  else if p_rb_initiator pkt =? PROFILE_OFFER then profiles_on_offer cfg pkt p
  else profiles_on_ack cfg pkt p.

(** [false] stands for the return value -1 (nothing sent). *)
Definition rnet_session_send_rb_sync (epoch_id mismatch_tick load_tick target_tick corrected_slot op flags : Z)
    (s : RNetSession) : bool * RNetSession :=
  if negb (running s) then (false, s) else
  match rnet_proto_encode_rb_sync RNET_MAX_PACKET (cfg_protocol_magic (s_cfg s)) (cfg_session_id (s_cfg s))
          (s_wire_slot s) epoch_id mismatch_tick load_tick target_tick corrected_slot op flags with
  | Ret buf => (true, send_raw (Ret buf) s)
  | _ => (false, s)
  end.

Definition profiles_drive (s : RNetSession) : RNetSession :=
  let p := s_profiles s in
  if (pf_active p =? 0) || nz (pf_refused p) || negb (running s) then s else
  if (pf_dirty p =? 0) && (pf_acknowledged_by p =? pf_occupied p) then s else
  let '(now, s) := session_now s in
  if (pf_dirty p =? 0) && nz (pf_last_tx p) && (u64 (now - pf_last_tx p) <? 100) then s else
  let c := rd zero_caps (pf_caps p) (cfg_local_slot (s_cfg s)) in
  let s := snd (rnet_session_send_rb_sync (pf_qualification p) (pc_cpu_features c) (pc_backends c)
                  (pc_profiles c) (u8 (pc_architecture c)) PROFILE_OFFER 0 s) in
  let s := if nz (pf_acks p)
           then snd (rnet_session_send_rb_sync (pf_qualification p) (pf_selected p) (pf_transcript p)
                       (pf_acks p) 0 PROFILE_ACK 0 s)
           else s in
  on_profiles (fun p => set_pf_dirty 0 (set_pf_last_tx (if nz now then now else 1) p)) s.

(** The occupied seats as a mask. *)
Definition occupied_seats (cfg : RNetConfig) : Z :=
  for_upto (cfg_slot_count cfg) (fun i m =>
    if rnet_config_slot_occupied cfg i then Z.lor m (bit i) else m) 0.

Definition rnet_session_profiles_begin (qualification : Z) (caps : RNetProfileCaps) (s : RNetSession)
  : option RNetSession :=
  let cfg := s_cfg s in
  if (qualification =? 0) || negb (has_bit (pc_profiles caps) 0) || (255 <? pc_architecture caps) ||
     nz (s_is_observer s) || nz (pf_active (s_profiles s)) ||
     negb (rnet_config_slot_occupied cfg (cfg_local_slot cfg)) ||
     negb (bool_decide (s_phase s = PHASE_IDLE)) || negb (s_sim_tick s =? 0)
  then None
  else Some (on_profiles (fun p =>
    let p := set_pf_active 1 (set_pf_occupied (Z.lor (pf_occupied p) (occupied_seats cfg)) p) in
    let p := set_pf_caps (wr (pf_caps p) (cfg_local_slot cfg) caps) (set_pf_qualification qualification p) in
    profiles_choose cfg (set_pf_dirty 1 (set_pf_offers (bit (cfg_local_slot cfg)) p))) s).

(** 1 agreed (with the profile and the transcript), 0 pending, -1 refused. *)
Definition rnet_session_profiles_status (s : RNetSession) : Z * option (Z * Z) :=
  let p := s_profiles s in
  if (pf_active p =? 0) || nz (pf_refused p) then (-1, None)
  else if negb (pf_acks p =? pf_occupied p) then (0, None)
  else (1, Some (pf_selected p, pf_transcript p)).

Definition rnet_session_profiles_peer (s : RNetSession) (seat : Z) : option RNetProfileCaps :=
  if (seat <? 0) || (cfg_slot_count (s_cfg s) <=? seat) || negb (has_bit (pf_offers (s_profiles s)) seat)
  then None else Some (rd zero_caps (pf_caps (s_profiles s)) seat).

(** ** Input delay *)

Definition set_delay (d : Z) (s : RNetSession) : RNetSession :=
  set_s_cfg (set_cfg_input_delay d (s_cfg s)) (set_s_delay d s).

Definition apply_pending_delay (s : RNetSession) : RNetSession :=
  if s_delay_pending s =? 0 then s else
  if s_sim_tick s <? s_delay_pending_effective s then s else
  set_s_delay_pending 0 (set_delay (s_delay_pending_value s) s).

Definition emit_delay_sync (new_delay effective_tick : Z) (s : RNetSession) : RNetSession :=
  match rnet_proto_encode_delay_sync RNET_MAX_PACKET (cfg_protocol_magic (s_cfg s))
          (cfg_session_id (s_cfg s)) new_delay effective_tick with
  | Ret buf =>
      let s := send_raw (Ret buf) s in
      let '(now, s) := session_now s in
      set_s_delay_pending_last_tx_ms now s
  | _ => s
  end.

Definition rnet_session_request_delay_change (new_delay : Z) (s : RNetSession) : bool * RNetSession :=
  if negb (running s) then (false, s) else
  let clamped := if new_delay <? 2 then 2 else new_delay in
  let clamped := if 20 <? clamped then 20 else clamped in
  if (clamped =? s_delay s) && (s_delay_pending s =? 0) then (false, s) else
  let effective := u32 (s_sim_tick s + s_delay s * 2 + 8) in
  if nz (s_delay_pending s) && (s_sim_tick s <? s_delay_pending_effective s) &&
     (s_delay_pending_value s =? clamped)
  then (true, emit_delay_sync clamped (s_delay_pending_effective s) s)
  else (true, emit_delay_sync clamped effective
                (set_s_delay_pending_effective effective
                  (set_s_delay_pending_value clamped (set_s_delay_pending 1 s)))).

Definition rnet_session_advance (s : RNetSession) : RNetSession :=
  apply_pending_delay (set_s_sim_tick (u32 (s_sim_tick s + 1)) s).

Definition rnet_session_set_sim_tick (sim_tick : Z) (s : RNetSession) : RNetSession :=
  apply_pending_delay (set_s_sim_tick sim_tick s).
