(* ===== verification/SessionState.v ===== *)
(** * The session: blob transfers and hash probes (src/session/rnet_session.c)

    One outbound transfer at a time, one inbound transfer per source seat:
    BEGIN / CHUNK / ACK with a send window per slowest receiver, a chunk
    bitmap at the receiver, and the PROBE / REPLY / DONE handshake that
    decides whether a transfer is needed. Progress logging is left out. *)

From stdpp Require Import base list numbers list_numbers.
From S2P Require Import Prelude Protocol Config Rings CtrlQueue Session.

Definition RNET_STATE_OP_SAVE : Z := 0.
Definition RNET_STATE_OP_LOAD : Z := 1.
Definition RNET_STATE_OP_SRAM : Z := 2.
Definition RNET_STATE_OP_RB_KF : Z := 3.
Definition RNET_STATE_OP_BOOT : Z := 4.
Definition RNET_STATE_OP_MEMCARD : Z := 5.
Definition RNET_STATE_OP_MENU : Z := 6.
Definition RNET_STATE_FROM_ALL : Z := -1.

Definition zero_received : RNetStateReceived := mkReceived 0 0 0 0 0 0 0.

Definition s_tx (s : RNetSession) : RNetStateTx := xf_tx (s_xfer s).
Definition s_rx (s : RNetSession) (src : Z) : RNetStateRx := rd zero_rx (xf_rx (s_xfer s)) src.
Definition s_probe (s : RNetSession) : RNetStateProbe := xf_probe (s_xfer s).
Definition s_received (s : RNetSession) (src : Z) : RNetStateReceived :=
  rd zero_received (xf_received (s_xfer s)) src.

Definition on_tx (f : RNetStateTx -> RNetStateTx) : RNetSession -> RNetSession :=
  on_xfer (fun x => set_xf_tx (f (xf_tx x)) x).
Definition on_rx (src : Z) (f : RNetStateRx -> RNetStateRx) : RNetSession -> RNetSession :=
  on_xfer (fun x => set_xf_rx (wr (xf_rx x) src (f (rd zero_rx (xf_rx x) src))) x).
Definition on_probe (f : RNetStateProbe -> RNetStateProbe) : RNetSession -> RNetSession :=
  on_xfer (fun x => set_xf_probe (f (xf_probe x)) x).
Definition on_received (src : Z) (f : RNetStateReceived -> RNetStateReceived) : RNetSession -> RNetSession :=
  on_xfer (fun x => set_xf_received (wr (xf_received x) src (f (rd zero_received (xf_received x) src))) x).
Definition set_stall (v : Z) : RNetSession -> RNetSession := on_xfer (set_xf_stall_sim v).

Definition magic (s : RNetSession) : Z := cfg_protocol_magic (s_cfg s).
Definition sid (s : RNetSession) : Z := cfg_session_id (s_cfg s).

(** ** Which transfers are open *)

Definition state_rx_any_active (s : RNetSession) : bool :=
  existsb (fun rx => nz (rx_active rx)) (xf_rx (s_xfer s)).
Definition state_any_active (s : RNetSession) : bool := nz (tx_active (s_tx s)) || state_rx_any_active s.
Definition state_any_in_progress (s : RNetSession) : bool :=
  (nz (tx_active (s_tx s)) && (tx_ready (s_tx s) =? 0)) ||
  existsb (fun rx => nz (rx_active rx) && (rx_ready rx =? 0)) (xf_rx (s_xfer s)).

(** Seats a transfer or probe from this session must reach. *)
Definition state_default_receivers (s : RNetSession) (op : Z) : Z :=
  if op =? RNET_STATE_OP_MEMCARD then 1 else
  let peer := ct_rb_peer_slot (s_ctl s) in
  if 0 <=? peer then
    if (peer <? RNET_MAX_SLOTS) && negb (peer =? cfg_local_slot (s_cfg s)) &&
       rnet_config_slot_occupied (s_cfg s) peer
    then bit peer else 0
  else
    for_upto (Z.min (cfg_slot_count (s_cfg s)) RNET_MAX_SLOTS) (fun slot mask =>
      if remote_seat s slot then Z.lor mask (bit slot) else mask) 0.

Definition probe_all_replied (p : RNetStateProbe) : bool :=
  Z.land (pr_reply_mask p) (pr_expect_mask p) =? pr_expect_mask p.
Definition probe_all_matched (p : RNetStateProbe) : bool :=
  Z.land (pr_match_mask p) (pr_expect_mask p) =? pr_expect_mask p.

Definition state_probe_clear (s : RNetSession) : RNetSession :=
  let s := on_probe (fun _ => zero_probe) s in
  if state_any_active s then s else set_stall 0 s.

(** ** Pacing *)

Definition ICE_CWND_MIN : Z := 8192.
Definition ICE_CWND_START : Z := 32768.
Definition ICE_CWND_MAX : Z := 262144.
Definition ICE_CHUNKS_MIN : Z := 4.
Definition ICE_CHUNKS_START : Z := 16.
Definition ICE_CHUNKS_MAX : Z := 64.
Definition ICE_AI_CWND : Z := 8192.
Definition ICE_AI_CHUNKS : Z := 2.
Definition ICE_ACK_TO_MIN_MS : Z := 40.
Definition ICE_ACK_TO_START_MS : Z := 80.
Definition ICE_ACK_TO_MAX_MS : Z := 180.
Definition LAN_CWND : Z := 262144.
Definition LAN_CHUNKS : Z := 128.
Definition LAN_ACK_TO_MS : Z := 40.
Definition STATE_REACK_MS : Z := 20.

Definition state_transport_is_ice (s : RNetSession) : bool :=
  match s_mode s with TRANSPORT_ICE | TRANSPORT_ICE_HUB => true | _ => false end.

Definition state_pacing_reset (s : RNetSession) : RNetSession :=
  if state_transport_is_ice s then
    let cwnd := if ICE_CWND_START <=? xf_sticky_cwnd (s_xfer s)
                then Z.min (xf_sticky_cwnd (s_xfer s)) ICE_CWND_MAX else ICE_CWND_START in
    let chunks := if ICE_CHUNKS_START <=? xf_sticky_chunks (s_xfer s)
                  then Z.min (xf_sticky_chunks (s_xfer s)) ICE_CHUNKS_MAX else ICE_CHUNKS_START in
    on_tx (fun t => set_tx_ack_timeout_ms ICE_ACK_TO_START_MS (set_tx_chunks_cap chunks (set_tx_cwnd cwnd t))) s
  else
    on_tx (fun t => set_tx_ack_timeout_ms LAN_ACK_TO_MS (set_tx_chunks_cap LAN_CHUNKS (set_tx_cwnd LAN_CWND t))) s.

Definition pacing_progress (t : RNetStateTx) : RNetStateTx :=
  let t := if tx_cwnd t <? ICE_CWND_MAX
           then set_tx_cwnd (Z.min (tx_cwnd t + ICE_AI_CWND) ICE_CWND_MAX) t else t in
  let t := if tx_chunks_cap t <? ICE_CHUNKS_MAX
           then set_tx_chunks_cap (Z.min (tx_chunks_cap t + ICE_AI_CHUNKS) ICE_CHUNKS_MAX) t else t in
  if ICE_ACK_TO_MIN_MS <? tx_ack_timeout_ms t
  then set_tx_ack_timeout_ms (Z.max (tx_ack_timeout_ms t - 5) ICE_ACK_TO_MIN_MS) t else t.

Definition state_pacing_on_ack_progress (s : RNetSession) : RNetSession :=
  if state_transport_is_ice s then on_tx pacing_progress s else s.

Definition pacing_backoff (t : RNetStateTx) : RNetStateTx :=
  set_tx_ack_timeout_ms (Z.min (u32 (tx_ack_timeout_ms t + 20)) ICE_ACK_TO_MAX_MS)
    (set_tx_chunks_cap (Z.max (tx_chunks_cap t / 2) ICE_CHUNKS_MIN)
      (set_tx_cwnd (Z.max (tx_cwnd t / 2) ICE_CWND_MIN) t)).

Definition state_pacing_on_timeout (s : RNetSession) : RNetSession :=
  if state_transport_is_ice s then
    let s := on_tx pacing_backoff s in
    on_xfer (fun x =>
      let x := if tx_cwnd (xf_tx x) <? xf_sticky_cwnd x then set_xf_sticky_cwnd (tx_cwnd (xf_tx x)) x else x in
      if tx_chunks_cap (xf_tx x) <? xf_sticky_chunks x
      then set_xf_sticky_chunks (tx_chunks_cap (xf_tx x)) x else x) s
  else s.

Definition state_pacing_remember_success (s : RNetSession) : RNetSession :=
  if state_transport_is_ice s then
    on_xfer (fun x =>
      let x := if xf_sticky_cwnd x <? tx_cwnd (xf_tx x) then set_xf_sticky_cwnd (tx_cwnd (xf_tx x)) x else x in
      if xf_sticky_chunks x <? tx_chunks_cap (xf_tx x)
      then set_xf_sticky_chunks (tx_chunks_cap (xf_tx x)) x else x) s
  else s.

(** ** Clearing *)

Definition state_recompute_stall (s : RNetSession) : RNetSession :=
  set_stall (if state_any_active s then 1 else b2z (nz (pr_active (s_probe s)))) s.

Definition state_tx_clear (s : RNetSession) : RNetSession :=
  let s := on_tx (fun _ => zero_tx) s in
  if xf_taken (s_xfer s) =? RNET_STATE_TAKEN_TX then on_xfer (set_xf_taken (-1)) s else s.

Definition state_rx_clear (src : Z) (s : RNetSession) : RNetSession :=
  let s := on_rx src (fun _ => zero_rx) s in
  if xf_taken (s_xfer s) =? src then on_xfer (set_xf_taken (-1)) s else s.

Definition state_clear (s : RNetSession) : RNetSession :=
  let s := for_upto RNET_MAX_SLOTS state_rx_clear (state_tx_clear s) in
  state_recompute_stall (on_xfer (set_xf_taken (-1)) s).

(** ** Receiving *)

(** The bitmap [rx->bits] as a number: bit [i] is chunk [i]. *)
Definition state_rx_set_chunk (chunk_index : Z) (rx : RNetStateRx) : RNetStateRx :=
  if RNET_STATE_MAX_CHUNKS <=? chunk_index then rx
  else set_rx_bits (Z.lor (rx_bits rx) (bit chunk_index)) rx.

Definition state_rx_has_chunk (rx : RNetStateRx) (chunk_index : Z) : bool :=
  if RNET_STATE_MAX_CHUNKS <=? chunk_index then false else has_bit (rx_bits rx) chunk_index.

Definition state_chunks (rx : RNetStateRx) : Z :=
  u32 (rx_total rx + RNET_STATE_CHUNK_MAX - 1) / RNET_STATE_CHUNK_MAX.

(** The loop runs at most once per chunk. *)
Fixpoint advance_contiguity (n : nat) (i : Z) (rx : RNetStateRx) : RNetStateRx :=
  match n with
  | O => rx
  | S m =>
      if (i <? state_chunks rx) && state_rx_has_chunk rx i then
        let end_ := u32 ((i + 1) * RNET_STATE_CHUNK_MAX) in
        let end_ := if rx_total rx <? end_ then rx_total rx else end_ in
        advance_contiguity m (i + 1) (set_rx_contiguity end_ rx)
      else rx
  end.

Definition state_rx_advance_contiguity (rx : RNetStateRx) : RNetStateRx :=
  advance_contiguity (Z.to_nat (state_chunks rx)) (rx_contiguity rx / RNET_STATE_CHUNK_MAX) rx.

Definition state_send_ack_raw (xfer_id ack_bytes : Z) (s : RNetSession) : RNetSession :=
  send_raw (rnet_proto_encode_state_ack 64 (magic s) (sid s) (s_wire_slot s) xfer_id ack_bytes) s.

Definition state_rx_send_ack (src : Z) (s : RNetSession) : RNetSession :=
  let s := state_send_ack_raw (rx_xfer_id (s_rx s src)) (rx_contiguity (s_rx s src)) s in
  let '(now, s) := session_now s in
  on_rx src (set_rx_last_ack_ms now) s.

Definition state_rx_mark_ready_if_complete (src : Z) (s : RNetSession) : RNetSession :=
  let rx := s_rx s src in
  match rx_buf rx with
  | None => s
  | Some buf =>
      if (rx_active rx =? 0) || nz (rx_ready rx) then s else
      if rx_contiguity rx <? rx_total rx then s else
      let crc := rnet_proto_checksum (take (Z.to_nat (rx_total rx)) buf) in
      if negb (crc =? rx_crc rx)
      then state_rx_send_ack src (on_rx src (set_rx_contiguity 0) s)
      else state_rx_send_ack src (on_rx src (set_rx_ready 1) s)
  end.

(** [memcpy(rx->buf + offset, chunk, size)]. *)
Definition blit (buf : list Z) (offset : Z) (chunk : list Z) : list Z :=
  take (Z.to_nat offset) buf ++ chunk ++ drop (Z.to_nat offset + length chunk) buf.

(** A BEGIN against the sender's last one: [None] means it goes on as a new
    transfer; otherwise the answer to a repeated or stale BEGIN. *)
Definition begin_known (src : Z) (pkt : RNetDecodedPacket) (s : RNetSession) : option RNetSession :=
  let r := s_received s src in
  if sr_id r =? 0 then None else
  let seat_ids := has_bit (p_state_xfer_id pkt) 30 && has_bit (sr_id r) 30 in
  let space := if seat_ids then 16777215 else 1073741823 in
  let half := space / 2 + 1 in
  let distance := Z.land (u32 (p_state_xfer_id pkt - sr_id r)) space in
  if (distance =? 0) && negb (p_state_xfer_id pkt =? sr_id r) then Some s else
  if distance =? 0 then
    Some (if negb (p_state_total_size pkt =? sr_total r) || negb (p_state_payload_crc pkt =? sr_crc r) ||
             negb (p_state_op pkt =? sr_op r) || negb (p_state_slot pkt =? sr_slot r)
          then s
          else if nz (sr_finished r)
          then state_send_ack_raw (p_state_xfer_id pkt) (p_state_total_size pkt) s
          else if nz (rx_active (s_rx s src)) && (rx_xfer_id (s_rx s src) =? p_state_xfer_id pkt) &&
                  bool_decide (is_Some (rx_buf (s_rx s src)))
          then state_rx_send_ack src s
          else s)
  else if half <=? distance then Some s
  else None.

(** Opening the receive of a new transfer. *)
Definition begin_receive (src : Z) (pkt : RNetDecodedPacket) (s : RNetSession) : RNetSession :=
  let total := p_state_total_size pkt in
  let s := if nz (pr_active (s_probe s)) &&
              ((pr_sender (s_probe s) =? 0) || (pr_expect_mask (s_probe s) =? bit src))
           then state_probe_clear s else s in
  let s := if nz (tx_active (s_tx s)) && (tx_expect_mask (s_tx s) =? bit src)
           then state_tx_clear s else s in
  let s := state_rx_clear src s in
  let '(ok, s) := malloc_ok s in
  if negb ok then state_recompute_stall s else
  let s := set_stall 1 s in
  let s := on_received src (fun _ =>
    mkReceived (p_state_xfer_id pkt) total (p_state_payload_crc pkt) (p_state_op pkt) (p_state_slot pkt) 0 0) s in
  let '(now, s) := session_now s in
  let s := on_rx src (fun rx =>
    mkRx 1 0 (p_state_op pkt) (p_state_slot pkt) (p_state_xfer_id pkt) total (p_state_payload_crc pkt) 0
      (Some (replicate (Z.to_nat total) 0)) (rx_last_ack_ms rx) now (rx_bits rx)) s in
  state_rx_send_ack src s.

Definition state_on_begin (pkt : RNetDecodedPacket) (s : RNetSession) : RNetSession :=
  let src := p_local_slot pkt in
  if src =? s_wire_slot s then s else
  if (if p_state_op pkt =? RNET_STATE_OP_MEMCARD
      then negb (cfg_local_slot (s_cfg s) =? 0) || (src =? 0)
      else cfg_local_slot (s_cfg s) =? 0) then s else
  if (p_state_total_size pkt =? 0) || (RNET_STATE_MAX <? p_state_total_size pkt) then s else
  if (RNET_MAX_SLOTS <=? src) || (p_state_xfer_id pkt =? 0) then s else
  match begin_known src pkt s with
  | Some s => s
  | None => begin_receive src pkt s
  end.

(** A chunk of a transfer that is not open: re-acknowledge a finished one. *)
Definition chunk_reack (src : Z) (pkt : RNetDecodedPacket) (s : RNetSession) : RNetSession :=
  let r := s_received s src in
  if nz (sr_id r) && nz (sr_finished r) && (sr_id r =? p_state_xfer_id pkt) then
    let '(now, s) := session_now s in
    if (sr_last_reack_ms r =? 0) || (STATE_REACK_MS <=? u64 (now - sr_last_reack_ms r))
    then on_received src (set_sr_last_reack_ms (if nz now then now else 1))
           (state_send_ack_raw (p_state_xfer_id pkt) (sr_total r) s)
    else s
  else s.

(** Storing a chunk of the open transfer. *)
Definition rx_store (pkt : RNetDecodedPacket) (buf : list Z) (rx : RNetStateRx) : RNetStateRx :=
  let rx := set_rx_buf (Some (blit buf (p_state_offset pkt)
              (take (Z.to_nat (p_state_chunk_size pkt)) (p_state_chunk pkt)))) rx in
  state_rx_advance_contiguity (state_rx_set_chunk (p_state_offset pkt / RNET_STATE_CHUNK_MAX) rx).

Definition state_on_chunk (pkt : RNetDecodedPacket) (s : RNetSession) : RNetSession :=
  let src := p_local_slot pkt in
  if (RNET_MAX_SLOTS <=? src) || (src =? s_wire_slot s) then s else
  let rx := s_rx s src in
  match rx_buf rx with
  | Some buf =>
      if (rx_active rx =? 0) || negb (p_state_xfer_id pkt =? rx_xfer_id rx) then chunk_reack src pkt s else
      if (rx_total rx <? p_state_offset pkt) || (p_state_chunk_size pkt =? 0) then s else
      if rx_total rx <? u32 (p_state_offset pkt + p_state_chunk_size pkt) then s else
      let s := on_rx src (rx_store pkt buf) s in
      let '(now, s) := session_now s in
      let rx := s_rx s src in
      let s := if state_transport_is_ice s || (4 <=? u64 (now - rx_last_ack_ms rx)) ||
                  (rx_total rx <=? rx_contiguity rx)
               then state_rx_send_ack src s else s in
      state_rx_mark_ready_if_complete src s
  | None => chunk_reack src pkt s
  end.

(** ** Sending *)

Definition tx_expects (t : RNetStateTx) (r : Z) : bool := has_bit (tx_expect_mask t) r.
Definition tx_ack_of (t : RNetStateTx) (r : Z) : Z := rd 0 (tx_ack t) r.

Definition state_tx_min_ack (t : RNetStateTx) : Z :=
  for_upto RNET_MAX_SLOTS (fun r m =>
    if tx_expects t r && (tx_ack_of t r <? m) then tx_ack_of t r else m) (tx_total t).

Definition state_tx_done_mask (t : RNetStateTx) : Z :=
  for_upto RNET_MAX_SLOTS (fun r done =>
    if tx_expects t r && (tx_total t <=? tx_ack_of t r) then Z.lor done (bit r) else done) 0.

Definition state_tx_mark_ready_if_complete (s : RNetSession) : RNetSession :=
  let t := s_tx s in
  if (tx_active t =? 0) || nz (tx_ready t) || bool_decide (tx_buf t = None) then s else
  if tx_total t <=? state_tx_min_ack t
  then state_pacing_remember_success (on_tx (set_tx_ready 1) s) else s.

Definition send_state_begin (cap : Z) (s : RNetSession) : RNetSession :=
  let t := s_tx s in
  send_raw (rnet_proto_encode_state_begin cap (magic s) (sid s) (s_wire_slot s) (tx_op t)
              (tx_slot t) (tx_xfer_id t) (tx_total t) (tx_crc t)) s.

(** BEGIN is repeated until every expected receiver has acknowledged it. *)
Definition drive_begin (now : Z) (s : RNetSession) : RNetSession :=
  let t := s_tx s in
  let need_begin := existsb (fun r => tx_expects t r && (tx_ack_of t r =? 0)) (seqZ 0 RNET_MAX_SLOTS) in
  if need_begin && resend_due now (tx_last_begin_ms t) (if state_transport_is_ice s then 80 else 40)
  then on_tx (set_tx_last_begin_ms now) (send_state_begin RNET_MAX_PACKET s) else s.

(** One receiver of the timeout scan; the flag says that a timeout counts as
    loss. *)
Definition timeout_receiver (now ack_timeout_ms min_ack r : Z) (st : RNetStateTx * bool) : RNetStateTx * bool :=
  let '(t, backoff) := st in
  if negb (tx_expects t r) || (tx_total t <=? tx_ack_of t r) then st else
  let base := if nz (rd 0 (tx_ack_timer_ms t) r) then rd 0 (tx_ack_timer_ms t) r else tx_start_ms t in
  if u64 (now - base) <? ack_timeout_ms then st else
  let backoff := backoff || (tx_ack_of t r <? tx_send_cursor t) || (tx_ack_of t r =? min_ack) in
  let t := if tx_ack_of t r <? tx_send_cursor t then set_tx_send_cursor (tx_ack_of t r) t else t in
  (set_tx_ack_timer_ms (wr (tx_ack_timer_ms t) r now) t, backoff).

(** The chunk loop: at most [chunks_cap] chunks up to [window_end]. *)
Fixpoint send_chunks (n : nat) (buf : list Z) (window_end : Z) (s : RNetSession) : RNetSession :=
  match n with
  | O => s
  | S m =>
      let t := s_tx s in
      let off := tx_send_cursor t in
      if off <? window_end then
        let left := u32 (tx_total t - off) in
        let chunk := if RNET_STATE_CHUNK_MAX <? left then RNET_STATE_CHUNK_MAX else u16 left in
        match rnet_proto_encode_state_chunk RNET_MAX_PACKET (magic s) (sid s) (s_wire_slot s)
                (tx_xfer_id t) off (Some (drop (Z.to_nat off) buf)) chunk with
        | Ret pkt => send_chunks m buf window_end
                       (on_tx (set_tx_send_cursor (u32 (off + chunk))) (send_raw (Ret pkt) s))
        | _ => s
        end
      else s
  end.

Definition drive_window (now min_ack : Z) (buf : list Z) (s : RNetSession) : RNetSession :=
  let ack_timeout_ms := if tx_ack_timeout_ms (s_tx s) =? 0
                        then (if state_transport_is_ice s then ICE_ACK_TO_START_MS else LAN_ACK_TO_MS)
                        else tx_ack_timeout_ms (s_tx s) in
  let '(t, backoff) := for_upto RNET_MAX_SLOTS (timeout_receiver now ack_timeout_ms min_ack) (s_tx s, false) in
  let s := on_tx (fun _ => t) s in
  let s := if backoff then state_pacing_on_timeout s else s in
  let s := if tx_send_cursor (s_tx s) <? min_ack then on_tx (set_tx_send_cursor min_ack) s else s in
  let window_end := u32 (min_ack + tx_cwnd (s_tx s)) in
  let window_end := if tx_total (s_tx s) <? window_end then tx_total (s_tx s) else window_end in
  let s := send_chunks (Z.to_nat (tx_chunks_cap (s_tx s))) buf window_end s in
  on_tx (set_tx_last_tx_ms now) s.

(** The stamps of the progress log. *)
Definition note_progress (now min_ack : Z) (t : RNetStateTx) : RNetStateTx :=
  if negb (min_ack =? tx_last_progress_acked t) || (tx_last_progress_log_ms t =? 0) ||
     (500 <=? u64 (now - tx_last_progress_log_ms t))
  then set_tx_last_progress_acked min_ack (set_tx_last_progress_log_ms now t) else t.

Definition state_drive_sender (s : RNetSession) : RNetSession :=
  match tx_buf (s_tx s) with
  | None => s
  | Some buf =>
      if (tx_active (s_tx s) =? 0) || nz (tx_ready (s_tx s)) then s else
      let s := if (tx_cwnd (s_tx s) =? 0) || (tx_chunks_cap (s_tx s) =? 0) then state_pacing_reset s else s in
      let '(now, s) := session_now s in
      let s := drive_begin now s in
      let min_ack := state_tx_min_ack (s_tx s) in
      if tx_total (s_tx s) <=? min_ack then state_tx_mark_ready_if_complete s else
      let s := drive_window now min_ack buf s in
      state_tx_mark_ready_if_complete (on_tx (note_progress now min_ack) s)
  end.

Definition state_on_ack (pkt : RNetDecodedPacket) (s : RNetSession) : RNetSession :=
  let from := p_local_slot pkt in
  if tx_active (s_tx s) =? 0 then s else
  if negb (p_state_xfer_id pkt =? tx_xfer_id (s_tx s)) then s else
  if (RNET_MAX_SLOTS <=? from) || negb (tx_expects (s_tx s) from) then s else
  let ack := Z.min (p_state_ack_bytes pkt) (tx_total (s_tx s)) in
  let s :=
    if tx_ack_of (s_tx s) from <? ack then
      let '(now, s) := session_now s in
      let min_before := state_tx_min_ack (s_tx s) in
      let s := on_tx (fun t =>
        set_tx_last_tx_ms 0 (set_tx_ack_timer_ms (wr (tx_ack_timer_ms t) from (if nz now then now else 1))
          (set_tx_ack (wr (tx_ack t) from ack) t))) s in
      if min_before <? state_tx_min_ack (s_tx s) then state_pacing_on_ack_progress s else s
    else s in
  state_tx_mark_ready_if_complete s.

(** ** Probes *)

Definition send_probe_reply (matched : Z) (s : RNetSession) : cres (list Z) :=
  let p := s_probe s in
  rnet_proto_encode_state_probe_reply 64 (magic s) (sid s) (s_wire_slot s) (pr_op p) (pr_slot p) matched
    (pr_size p) (pr_crc p).

Definition state_drive_probe (s : RNetSession) : RNetSession :=
  let p := s_probe s in
  if nz (pr_active p) && (pr_sender p =? 0) && nz (pr_parked p) then
    let '(now, s) := session_now s in
    if resend_due now (pr_last_tx_ms p) 50 then
      match send_probe_reply 1 s with
      | Ret buf => on_probe (set_pr_last_tx_ms now) (send_raw (Ret buf) s)
      | _ => s
      end
    else s
  else if (pr_active p =? 0) || (pr_sender p =? 0) || probe_all_replied p then s
  else
    let '(now, s) := session_now s in
    if nz (pr_last_tx_ms p) && (u64 (now - pr_last_tx_ms p) <? 8) then s else
    match rnet_proto_encode_state_probe_ex 64 (magic s) (sid s) (s_wire_slot s) (pr_op p) (pr_slot p)
            (pr_size p) (pr_crc p) (Z.land (pr_reply_mask p) 255) with
    | Ret buf => on_probe (set_pr_last_tx_ms now) (send_raw (Ret buf) s)
    | _ => s
    end.

(** Same probe generation: operation, slot, size and hash. *)
Definition same_generation (pkt : RNetDecodedPacket) (op slot size crc : Z) : bool :=
  (p_state_op pkt =? op) && (p_state_slot pkt =? slot) && (p_state_total_size pkt =? size) &&
  (p_state_payload_crc pkt =? crc).

Definition probe_generation (pkt : RNetDecodedPacket) (p : RNetStateProbe) : bool :=
  same_generation pkt (pr_op p) (pr_slot p) (pr_size p) (pr_crc p).

Definition state_on_probe (pkt : RNetDecodedPacket) (s : RNetSession) : RNetSession :=
  if p_local_slot pkt =? s_wire_slot s then s else
  if cfg_local_slot (s_cfg s) =? 0 then s else
  if (s_wire_slot s <? 8) && has_bit (p_state_probe_replied pkt) (s_wire_slot s) then s else
  if state_any_active s then s else
  let p := s_probe s in
  if nz (pr_active p) && (pr_sender p =? 0) && (pr_pending p =? 0) && probe_generation pkt p
  then send_raw (send_probe_reply (pr_matched p) s) s
  else
    let s := on_probe (fun p =>
      mkProbe 1 0 0 0 0 1 0 (p_state_op pkt) (p_state_slot pkt) (p_state_total_size pkt)
        (p_state_payload_crc pkt) (pr_last_tx_ms p) (pr_parked p)) s in
    set_stall (b2z (nz (p_state_total_size pkt))) s.

Definition send_probe_done (op slot size crc : Z) (s : RNetSession) : RNetSession :=
  send_raw (rnet_proto_encode_state_probe_done 64 (magic s) (sid s) (s_wire_slot s) op slot size crc) s.

Definition state_on_probe_reply (pkt : RNetDecodedPacket) (s : RNetSession) : RNetSession :=
  let from := p_local_slot pkt in
  let p := s_probe s in
  let r := xf_released (s_xfer s) in
  if (pr_active p =? 0) || (pr_sender p =? 0) then
    if nz (rl_valid r) && nz (p_state_probe_match pkt) && negb (from =? s_wire_slot s) &&
       same_generation pkt (rl_op r) (rl_slot r) (rl_size r) (rl_crc r)
    then send_probe_done (rl_op r) (rl_slot r) (rl_size r) (rl_crc r) s
    else s
  else if from =? s_wire_slot s then s
  else if negb (probe_generation pkt p) then s
  else if (RNET_MAX_SLOTS <=? from) || negb (has_bit (pr_expect_mask p) from) then s
  else on_probe (fun p =>
    let p := set_pr_reply_mask (Z.lor (pr_reply_mask p) (bit from)) p in
    set_pr_match_mask (if nz (p_state_probe_match pkt) then Z.lor (pr_match_mask p) (bit from)
                       else Z.ldiff (pr_match_mask p) (bit from)) p) s.

Definition state_on_probe_done (pkt : RNetDecodedPacket) (s : RNetSession) : RNetSession :=
  let p := s_probe s in
  if (cfg_local_slot (s_cfg s) =? 0) || (p_local_slot pkt =? s_wire_slot s) || (pr_active p =? 0) ||
     nz (pr_sender p) || (pr_parked p =? 0) || negb (probe_generation pkt p)
  then s else state_probe_clear s.

(** Host: release every parked guest once all expected seats matched. *)
Definition state_send_probe_done (s : RNetSession) : RNetSession :=
  let p := s_probe s in
  if (pr_active p =? 0) || (pr_sender p =? 0) || (pr_size p =? 0) || negb (probe_all_replied p) ||
     negb (probe_all_matched p)
  then s
  else on_xfer (set_xf_released (mkReleased 1 (pr_op p) (pr_slot p) (pr_size p) (pr_crc p)))
         (send_probe_done (pr_op p) (pr_slot p) (pr_size p) (pr_crc p) s).

(** ** Host calls *)

Definition host_state_op (op : Z) : bool :=
  (op =? RNET_STATE_OP_SAVE) || (op =? RNET_STATE_OP_LOAD) || (op =? RNET_STATE_OP_SRAM) ||
  (op =? RNET_STATE_OP_RB_KF) || (op =? RNET_STATE_OP_BOOT) || (op =? RNET_STATE_OP_MENU).

(** [None]: the call returns -1 and changes nothing. *)
Definition rnet_session_state_probe (op slot total_size payload_crc : Z) (s : RNetSession)
  : option RNetSession :=
  if negb (cfg_local_slot (s_cfg s) =? 0) || negb (running s) then None else
  let p := s_probe s in
  if state_any_active s || (nz (pr_active p) && nz (pr_sender p) && negb (probe_all_replied p)) then None else
  if negb (host_state_op op) then None else
  if RNET_STATE_MAX <? total_size then None else
  let expect := state_default_receivers s op in
  if expect =? 0 then None else
  let s := state_probe_clear s in
  let s := on_xfer (fun x => set_xf_released
             (let r := xf_released x in mkReleased 0 (rl_op r) (rl_slot r) (rl_size r) (rl_crc r)) x) s in
  let s := on_probe (fun _ => mkProbe 1 1 expect 0 0 0 0 op slot total_size payload_crc 0 0) s in
  Some (state_drive_probe (set_stall (b2z (nz total_size)) s)).

Definition rnet_session_state_probe_take_reply (s : RNetSession) : option Z :=
  let p := s_probe s in
  if (pr_active p =? 0) || (pr_sender p =? 0) || negb (probe_all_replied p) then None
  else Some (b2z (probe_all_matched p)).

Definition rnet_session_state_probe_take_reply_from (s : RNetSession) (slot : Z) : option Z :=
  let p := s_probe s in
  if (pr_active p =? 0) || (pr_sender p =? 0) || (slot <? 0) || (RNET_MAX_SLOTS <=? slot) ||
     negb (has_bit (pr_expect_mask p) slot) || negb (has_bit (pr_reply_mask p) slot)
  then None else Some (b2z (has_bit (pr_match_mask p) slot)).

Definition rnet_session_state_probe_replies (s : RNetSession) : option (Z * Z * Z) :=
  let p := s_probe s in
  if (pr_active p =? 0) || (pr_sender p =? 0) then None
  else Some (pr_expect_mask p, Z.land (pr_reply_mask p) (pr_expect_mask p),
             Z.land (Z.land (pr_match_mask p) (pr_reply_mask p)) (pr_expect_mask p)).

Definition rnet_session_state_probe_pending (s : RNetSession) : option (Z * Z * Z * Z) :=
  let p := s_probe s in
  if (pr_active p =? 0) || (pr_pending p =? 0) then None
  else Some (pr_op p, pr_slot p, pr_size p, pr_crc p).

Definition rnet_session_state_probe_reply (match_ : Z) (s : RNetSession) : option RNetSession :=
  let p := s_probe s in
  if (pr_active p =? 0) || nz (pr_sender p) || (pr_pending p =? 0) then None else
  match send_probe_reply (b2z (nz match_)) s with
  | Ret buf =>
      let s := send_raw (Ret buf) s in
      let s := on_probe (fun p => set_pr_matched (b2z (nz match_)) (set_pr_pending 0 p)) s in
      let load := (pr_op p =? RNET_STATE_OP_LOAD) || (pr_op p =? RNET_STATE_OP_BOOT) in
      Some
        (if pr_size p =? 0 then
           let s := set_stall 0 s in
           if load then state_probe_clear s else s
         else if nz match_ then
           if load then state_probe_clear s
           else
             let s := on_probe (set_pr_parked 1) s in
             let '(now, s) := session_now s in
             on_probe (set_pr_last_tx_ms now) s
         else s)
  | _ => None
  end.

Definition rnet_session_state_probe_finish (s : RNetSession) : RNetSession :=
  state_probe_clear (state_send_probe_done s).

Definition next_xfer_id (s : RNetSession) : Z :=
  let n := u32 (xf_next_xfer_id (s_xfer s) + 1) in if n =? 0 then 1 else n.

(** A MEMCARD id carries the uploading seat in bits 24..29. *)
Definition xfer_id_of (op local_slot serial : Z) : Z :=
  if op =? RNET_STATE_OP_MEMCARD
  then Z.lor (Z.lor 1073741824 (Z.shiftl (Z.land (u32 (local_slot - 1)) 63) 24)) (Z.land serial 16777215)
  else serial.

Definition rnet_session_state_begin (op slot : Z) (data : list Z) (s : RNetSession)
  : bool * RNetSession :=
  let size := zlen data in
  if (size =? 0) || (RNET_STATE_MAX <? size) then (false, s) else
  if negb (running s) || state_any_active s || nz (s_is_observer s) then (false, s) else
  if (if op =? RNET_STATE_OP_MEMCARD then cfg_local_slot (s_cfg s) =? 0
      else negb (cfg_local_slot (s_cfg s) =? 0) || negb (host_state_op op)) then (false, s) else
  let expect := state_default_receivers s op in
  if expect =? 0 then (false, s) else
  let s := state_tx_clear (state_probe_clear s) in
  let '(ok, s) := malloc_ok s in
  if negb ok then (false, state_recompute_stall s) else
  let s := set_stall 1 s in
  let serial := next_xfer_id s in
  let s := on_xfer (set_xf_next_xfer_id serial) s in
  let '(now, s) := session_now s in
  let s := on_tx (fun t =>
    mkTx 1 0 op slot (xfer_id_of op (cfg_local_slot (s_cfg s)) serial) size (rnet_proto_checksum data)
      (Some data) expect (tx_ack t) (tx_ack_timer_ms t) 0 (tx_last_tx_ms t) (tx_last_begin_ms t)
      (tx_last_progress_log_ms t) (tx_last_progress_acked t) now (tx_cwnd t) (tx_chunks_cap t)
      (tx_ack_timeout_ms t)) s in
  let s := state_pacing_reset s in
  let s := send_state_begin 64 s in
  let '(now, s) := session_now s in
  let s := on_tx (set_tx_last_begin_ms now) s in
  (true, state_drive_sender s).

Definition rnet_session_state_busy (s : RNetSession) : bool :=
  let p := s_probe s in
  if nz (pr_active p) && nz (pr_sender p) && negb (probe_all_replied p) then true else
  if nz (pr_active p) && (nz (pr_pending p) || nz (pr_parked p)) then true else
  state_any_in_progress s.

Definition rx_takeable (s : RNetSession) (i : Z) : bool :=
  nz (rx_active (s_rx s i)) && nz (rx_ready (s_rx s i)) && bool_decide (is_Some (rx_buf (s_rx s i))).

Definition state_pick_ready (s : RNetSession) : Z :=
  if nz (tx_active (s_tx s)) && nz (tx_ready (s_tx s)) && bool_decide (is_Some (tx_buf (s_tx s)))
  then RNET_STATE_TAKEN_TX
  else default (-1) (find (rx_takeable s) (seqZ 0 RNET_MAX_SLOTS)).

(** The transfer reported: [(from, op, slot, data)]. *)
Definition rnet_session_state_take_ready_from (s : RNetSession)
  : option (Z * Z * Z * list Z) * RNetSession :=
  let pick := state_pick_ready s in
  if pick <? 0 then (None, s) else
  let s' := on_xfer (set_xf_taken pick) s in
  if pick =? RNET_STATE_TAKEN_TX
  then let t := s_tx s in
       (Some (cfg_local_slot (s_cfg s), tx_op t, tx_slot t,
              take (Z.to_nat (tx_total t)) (default [] (tx_buf t))), s')
  else let rx := s_rx s pick in
       (Some (pick, rx_op rx, rx_slot rx, take (Z.to_nat (rx_total rx)) (default [] (rx_buf rx))), s').

Definition rnet_session_state_drop_peer (slot : Z) (s : RNetSession) : bool * RNetSession :=
  if (slot <? 0) || (RNET_MAX_SLOTS <=? slot) then (false, s) else
  let '(changed, s) :=
    if nz (tx_active (s_tx s)) && tx_expects (s_tx s) slot
    then (true, state_tx_mark_ready_if_complete
                  (on_tx (fun t => set_tx_expect_mask (Z.ldiff (tx_expect_mask t) (bit slot)) t) s))
    else (false, s) in
  if nz (pr_active (s_probe s)) && nz (pr_sender (s_probe s)) && has_bit (pr_expect_mask (s_probe s)) slot
  then (true, on_probe (fun p => set_pr_expect_mask (Z.ldiff (pr_expect_mask p) (bit slot)) p) s)
  else (changed, s).

Definition rnet_session_state_progress (s : RNetSession) (slot : Z) : option (Z * Z) :=
  let t := s_tx s in
  if (tx_active t =? 0) || (slot <? 0) || (RNET_MAX_SLOTS <=? slot) || negb (tx_expects t slot) then None
  else Some (tx_ack_of t slot, tx_total t).

Definition rnet_session_state_pending_receivers (s : RNetSession) : Z :=
  let t := s_tx s in
  if tx_active t =? 0 then 0 else Z.ldiff (tx_expect_mask t) (state_tx_done_mask t).

Definition rnet_session_state_inbound_mask (s : RNetSession) : Z :=
  for_upto RNET_MAX_SLOTS (fun i mask => if nz (rx_active (s_rx s i)) then Z.lor mask (bit i) else mask) 0.

(** ** Hard resync *)

Definition resync_confirm (c : RNetConfirm) : RNetConfirm :=
  mkConfirm (cn_published_tick c) (cn_published_hash c) (replicate 128 0) (cn_peer_tick c) (cn_peer_hash c)
    (replicate 128 (replicate 8 0)) (replicate 128 0) 0 0 0 0.

Definition resync_queues (c : RNetCtl) : RNetCtl :=
  set_ct_rb_last_from (-1) (set_ct_resolved_q (q_reset (ct_resolved_q c)) (set_ct_post_q (q_reset (ct_post_q c))
    (set_ct_base_q (q_reset (ct_base_q c)) (set_ct_seal_q (q_reset (ct_seal_q c))
      (set_ct_sync_q (q_reset (ct_sync_q c)) (set_ct_fc_q (q_reset (ct_fc_q c)) c)))))).

Definition rnet_session_hard_resync (s : RNetSession) : RNetSession :=
  let s := set_s_remote_rings (replicate 8 rnet_ring_clear) (set_s_local_ring rnet_ring_clear s) in
  let s := on_confirm resync_confirm s in
  let s := set_s_peer_ack_seen (replicate 8 0) (set_s_remote_contiguous_ack (replicate 8 UINT32_MAX)
             (set_s_highest_remote_ack 0 s)) in
  let s := set_s_input_epoch (u16 (s_input_epoch s + 1)) (set_s_sim_tick 0 (set_s_last_input_tip_valid 0 s)) in
  let s := on_ctl resync_queues s in
  set_s_delay_pending 0 (set_s_input_send_suppress 1 s).

Definition rnet_session_set_input_send_suppress (suppress : Z) (s : RNetSession) : RNetSession :=
  set_s_input_send_suppress (b2z (nz suppress)) s.

(** [bytes] holds the [size] bytes of the call. *)
Definition rnet_session_prime_delay_inputs (bytes : list Z) (s : RNetSession) : RNetSession :=
  let size := zlen bytes in
  if (size =? 0) || (RNET_INPUT_MAX <? size) then s else
  if negb (running s) then s else
  let tip := rnet_wire_tick_from_sim (s_sim_tick s) (s_delay s) in
  let s := for_range (s_sim_tick s) tip (fun t s =>
    set_s_local_ring (rnet_ring_store (s_local_ring s) (mkSample t size (padded 32 bytes) 1)) s) s in
  let s := set_s_input_send_suppress 0 (set_s_last_input_tip_valid 0 (set_s_last_input_ms 0 s)) in
  let saved_stall := xf_stall_sim (s_xfer s) in
  set_stall saved_stall (send_input_bundle (set_stall 0 s)).

Definition rnet_session_clear_remote_inputs (s : RNetSession) : RNetSession :=
  let s := set_s_remote_rings
    (for_upto RNET_MAX_SLOTS (fun i rings =>
       if i =? cfg_local_slot (s_cfg s) then rings else wr rings i rnet_ring_clear) (s_remote_rings s)) s in
  set_s_peer_ack_seen (replicate 8 0) (set_s_remote_contiguous_ack (replicate 8 UINT32_MAX)
    (set_s_highest_remote_ack 0 s)).

Definition state_finish_rx (src : Z) (s : RNetSession) : RNetSession :=
  let s := if nz (rx_active (s_rx s src)) && nz (rx_ready (s_rx s src))
           then on_received src (set_sr_finished 1) s else s in
  state_rx_clear src s.

Definition rnet_session_state_finish_from (from_slot hard_resync : Z) (s : RNetSession) : RNetSession :=
  let s := if from_slot =? RNET_STATE_FROM_ALL
           then state_tx_clear (for_upto RNET_MAX_SLOTS state_finish_rx s)
           else if (s_is_observer s =? 0) && (from_slot =? cfg_local_slot (s_cfg s)) then state_tx_clear s
           else if (0 <=? from_slot) && (from_slot <? RNET_MAX_SLOTS) then state_finish_rx from_slot s
           else s in
  state_recompute_stall (if nz hard_resync then rnet_session_hard_resync s else s).

Definition rnet_session_state_finish (hard_resync : Z) (s : RNetSession) : RNetSession :=
  let target := xf_taken (s_xfer s) in
  let gone := if target =? RNET_STATE_TAKEN_TX then tx_active (s_tx s) =? 0
              else (target <? 0) || (rx_active (s_rx s target) =? 0) in
  let target := if gone then state_pick_ready s else target in
  if target <? 0 then rnet_session_state_finish_from RNET_STATE_FROM_ALL hard_resync s else
  let s := if target =? RNET_STATE_TAKEN_TX then state_tx_clear s else state_finish_rx target s in
  let s := on_xfer (set_xf_taken (-1)) s in
  state_recompute_stall (if nz hard_resync then rnet_session_hard_resync s else s).
