(* ===== verification/SessionMain.v ===== *)
(** * The session: packets, pump and admission (src/session/rnet_session.c)

    The dispatch of decoded packets, the receive pump, the admission of a
    simulation tick, and the host calls that queue, take and send messages. *)

From stdpp Require Import base list numbers list_numbers.
From S2P Require Import Prelude Protocol Config Rings CtrlQueue Rollback Session SessionState.

(** ** One handler per packet type *)

Definition on_hello (pkt : RNetDecodedPacket) (s : RNetSession) : RNetSession :=
  if negb (p_slot_count pkt =? cfg_slot_count (s_cfg s)) then s else
  if negb (p_wire_version pkt =? RNET_WIRE_VERSION)
  then on_ctl (set_ct_peer_wire_version_mismatch
         (if nz (p_wire_version pkt) then p_wire_version pkt else 255)) s else
  let s := if bool_decide (s_phase s = PHASE_LINKING) then set_s_phase PHASE_READY s else s in
  if negb (cfg_local_slot (s_cfg s) =? 0) && (p_local_slot pkt =? 0) then
    let d := p_delay pkt in
    if (2 <=? d) && (d <=? 20) && negb (d =? s_delay s) then
      if negb (running s) || (s_sim_tick s =? 0) then
        let s := set_delay d s in
        if negb (running s) then seed_delay_prefix s else s
      else s
    else s
  else s.

Definition on_ready (pkt : RNetDecodedPacket) (s : RNetSession) : RNetSession :=
  let slot := p_local_slot pkt in
  if slot <? cfg_slot_count (s_cfg s) then
    let s := set_s_peer_ready (wr (s_peer_ready s) slot 1) s in
    if nz (s_is_sim_authority s) && nz (s_start_sent s) && running s &&
       rnet_config_slot_occupied (s_cfg s) slot
    then send_start s else s
  else s.

Definition on_start (pkt : RNetDecodedPacket) (s : RNetSession) : RNetSession :=
  if negb (running s)
  then send_input_bundle (seed_delay_prefix (set_s_phase PHASE_RUNNING (set_s_sim_tick (p_start_tick pkt) s)))
  else s.

(** The acknowledgment part of INPUT. In a full room of eight an observer's
    [local_slot] is one past [acks]; the model then reads 0. *)
Definition note_acks (pkt : RNetDecodedPacket) (s : RNetSession) : RNetSession :=
  let slot := p_local_slot pkt in
  let cfg := s_cfg s in
  if (2 <? cfg_slot_count cfg) && (slot <? cfg_slot_count cfg) &&
     (p_ack_count pkt =? cfg_slot_count cfg) && rnet_config_slot_occupied cfg slot then
    let ack := rd 0 (p_acks pkt) (cfg_local_slot cfg) in
    let seen := rd 0 (s_peer_ack_tick s) slot in
    if (rd 0 (s_peer_ack_seen s) slot =? 0) ||
       (negb (ack =? UINT32_MAX) && ((seen =? UINT32_MAX) || (seen <? ack)))
    then set_s_peer_ack_seen (wr (s_peer_ack_seen s) slot 1)
           (set_s_peer_ack_tick (wr (s_peer_ack_tick s) slot ack) s)
    else s
  else if (cfg_slot_count cfg =? 2) && (s_highest_remote_ack s <? p_ack_tick pkt)
  then set_s_highest_remote_ack (p_ack_tick pkt) s
  else s.

Definition on_input (pkt : RNetDecodedPacket) (s : RNetSession) : RNetSession :=
  if negb (p_input_epoch pkt =? s_input_epoch s) then s else
  note_acks pkt (fold_left (fun s f => store_remote_frame (p_local_slot pkt) f s) (p_frames pkt) s).

Definition on_delay_sync (pkt : RNetDecodedPacket) (s : RNetSession) : RNetSession :=
  if (p_effective_tick pkt <=? s_sim_tick s) || negb (running s)
  then set_s_delay_pending 0 (set_delay (p_new_delay pkt) s)
  else set_s_delay_pending_effective (p_effective_tick pkt)
         (set_s_delay_pending_value (p_new_delay pkt) (set_s_delay_pending 1 s)).

Definition on_input_confirm (pkt : RNetDecodedPacket) (s : RNetSession) : RNetSession :=
  if negb (p_input_epoch pkt =? s_input_epoch s) then s else
  let slot := p_local_slot pkt in
  if slot <? cfg_slot_count (s_cfg s) then
    let tick := p_confirm_sim_tick pkt in
    let put v l := wr l (hist tick) (wr (rd [] l (hist tick)) slot v) in
    let s := on_confirm (fun c =>
      set_cn_peer_valid (put 1 (cn_peer_valid c))
        (set_cn_peer_hash (put (p_confirm_hash pkt) (cn_peer_hash c))
          (set_cn_peer_tick (put tick (cn_peer_tick c)) c))) s in
    match published_at s tick with
    | Some hash => if negb (hash =? p_confirm_hash pkt)
                   then on_confirm (note_desync tick hash (p_confirm_hash pkt)) s else s
    | None => s
    end
  else s.

Definition on_bye (pkt : RNetDecodedPacket) (s : RNetSession) : RNetSession :=
  if p_local_slot pkt =? s_wire_slot s then s else
  on_live (fun l =>
    let l := set_lv_peer_gone 1 l in
    if p_local_slot pkt <? RNET_MAX_SLOTS
    then set_lv_peer_gone_mask (Z.lor (lv_peer_gone_mask l) (bit (p_local_slot pkt))) l else l) s.

(** Episode and state packets of another console group are ignored. *)
Definition group_filtered (pkt : RNetDecodedPacket) (s : RNetSession) : bool :=
  (0 <=? ct_rb_peer_slot (s_ctl s)) && negb (p_local_slot pkt =? ct_rb_peer_slot (s_ctl s)).

Definition zero_sio : sio_entry := mkSio 0 0 0 0.
Definition zero_fc : fc_entry := mkFc 0 0 0.

Definition on_sio (pkt : RNetDecodedPacket) (s : RNetSession) : RNetSession :=
  if p_local_slot pkt =? s_wire_slot s then s else
  let pad := u16 (Z.lor (p_sio_confirm pkt) (u16 (Z.shiftl (p_sio_vblank pkt) 8))) in
  on_ctl (fun c => set_ct_sio_q
    (q_push_drop_oldest RNET_SIO_XFER_QUEUE
       (mkSio (p_sio_xfer_seq pkt) (p_sio_send pkt) pad (p_sio_unit_id pkt)) (ct_sio_q c)) c) s.

Definition on_frame_commit (pkt : RNetDecodedPacket) (s : RNetSession) : RNetSession :=
  if p_local_slot pkt =? s_wire_slot s then s else
  on_ctl (fun c => set_ct_fc_q
    (q_push_drop_oldest RNET_RB_FC_QUEUE
       (mkFc (p_rb_through_tick pkt) (p_rb_state_hash pkt) (p_local_slot pkt)) (ct_fc_q c)) c) s.

(** A message arrives at one of the episode-control queues; a refusal is
    counted. *)
Definition enqueue_ctl {A} `{CtrlMsg A} (get : RNetCtl -> ring_q A)
    (put : ring_q A -> RNetCtl -> RNetCtl) (x : A) : RNetSession -> RNetSession :=
  on_ctl (fun c =>
    let '(q, refused) := ctrl_arrive x (get c) in
    let c := put q c in
    if refused then set_ct_rb_ctrl_dropped (u32 (ct_rb_ctrl_dropped c + 1)) c else c).

Definition on_rb_sync (pkt : RNetDecodedPacket) (s : RNetSession) : RNetSession :=
  if (p_rb_initiator pkt =? PROFILE_OFFER) || (p_rb_initiator pkt =? PROFILE_ACK)
  then on_profiles (profiles_receive (s_cfg s) pkt) s else
  if group_filtered pkt s then s else
  if p_local_slot pkt =? s_wire_slot s then s else
  enqueue_ctl ct_sync_q set_ct_sync_q
    (mkSync (p_rb_epoch_id pkt) (p_rb_mismatch_tick pkt) (p_rb_load_tick pkt) (p_rb_target_tick pkt)
       (p_rb_corrected_slot pkt) (p_rb_initiator pkt) (p_rb_flags pkt) (p_local_slot pkt)) s.

Definition on_rb_seal_rows (pkt : RNetDecodedPacket) (s : RNetSession) : RNetSession :=
  if p_local_slot pkt =? s_wire_slot s then s else
  let n := Z.min (p_rb_row_count pkt) RNET_RB_SEAL_ROWS_CHUNK_MAX in
  enqueue_ctl ct_seal_q set_ct_seal_q
    (mkSeal (p_rb_epoch_id pkt) (p_rb_mismatch_tick pkt) (p_rb_target_tick pkt) (p_rb_row_begin pkt)
       (p_rb_slot pkt) n (take (Z.to_nat n) (p_rb_rows pkt)) (p_local_slot pkt)) s.

Definition on_rb_baseline (pkt : RNetDecodedPacket) (s : RNetSession) : RNetSession :=
  if group_filtered pkt s then s else
  if p_local_slot pkt =? s_wire_slot s then s else
  enqueue_ctl ct_base_q set_ct_base_q
    (mkBase (p_rb_epoch_id pkt) (p_rb_load_tick pkt) (p_rb_digest_master pkt) (p_rb_digest_a pkt)
       (p_rb_digest_b pkt) (p_rb_digest_c pkt) (p_local_slot pkt)) s.

Definition on_rb_post (pkt : RNetDecodedPacket) (s : RNetSession) : RNetSession :=
  if group_filtered pkt s then s else
  if p_local_slot pkt =? s_wire_slot s then s else
  enqueue_ctl ct_post_q set_ct_post_q
    (mkPost (p_rb_epoch_id pkt) (p_rb_target_tick pkt) (p_rb_digest_master pkt) (p_rb_input_digest pkt)
       (p_rb_match pkt) (p_local_slot pkt)) s.

Definition on_rb_resolved (pkt : RNetDecodedPacket) (s : RNetSession) : RNetSession :=
  if p_local_slot pkt =? s_wire_slot s then s else
  enqueue_ctl ct_resolved_q set_ct_resolved_q (mkResolved (p_rb_resolved_through pkt) (p_local_slot pkt)) s.

Definition on_modset (pkt : RNetDecodedPacket) (s : RNetSession) : RNetSession :=
  if p_local_slot pkt =? s_wire_slot s then s else
  on_ctl (fun c => set_ct_modset_pending 1
    (set_ct_modset_text (wr (padded 1024 (p_modset_text pkt)) 1023 0) c)) s.

Definition on_modset_ack (pkt : RNetDecodedPacket) (s : RNetSession) : RNetSession :=
  let from := p_local_slot pkt in
  if (from =? s_wire_slot s) || (RNET_MAX_SLOTS <=? from) then s else
  on_ctl (fun c =>
    set_ct_modset_ack_pending (Z.lor (ct_modset_ack_pending c) (bit from))
      (set_ct_modset_ack_status (wr (ct_modset_ack_status c) from (p_modset_status pkt))
        (set_ct_modset_ack_reason
          (wr (ct_modset_ack_reason c) from (wr (padded 96 (p_modset_reason pkt)) 95 0)) c))) s.

Definition on_state_packet (pkt : RNetDecodedPacket) (s : RNetSession) : RNetSession :=
  if group_filtered pkt s then s else
  let ty := p_type pkt in
  if ty =? RNET_PKT_STATE_BEGIN then state_on_begin pkt s
  else if ty =? RNET_PKT_STATE_CHUNK then state_on_chunk pkt s
  else if ty =? RNET_PKT_STATE_ACK then state_on_ack pkt s
  else if ty =? RNET_PKT_STATE_PROBE then state_on_probe pkt s
  else if ty =? RNET_PKT_STATE_PROBE_REPLY then state_on_probe_reply pkt s
  else state_on_probe_done pkt s.

Definition is_state_packet (ty : Z) : bool :=
  (ty =? RNET_PKT_STATE_BEGIN) || (ty =? RNET_PKT_STATE_CHUNK) || (ty =? RNET_PKT_STATE_ACK) ||
  (ty =? RNET_PKT_STATE_PROBE) || (ty =? RNET_PKT_STATE_PROBE_REPLY) || (ty =? RNET_PKT_STATE_PROBE_DONE).

Definition handle_decoded (pkt : RNetDecodedPacket) (s : RNetSession) : RNetSession :=
  let ty := p_type pkt in
  if rnet_proto_is_rb_control ty && negb (p_input_epoch pkt =? s_input_epoch s) then s else
  if negb (p_session_id pkt =? cfg_session_id (s_cfg s)) then s else
  if ty =? RNET_PKT_HELLO then on_hello pkt s
  else if ty =? RNET_PKT_READY then on_ready pkt s
  else if ty =? RNET_PKT_START then on_start pkt s
  else if ty =? RNET_PKT_INPUT then on_input pkt s
  else if ty =? RNET_PKT_DELAY_SYNC then on_delay_sync pkt s
  else if ty =? RNET_PKT_INPUT_CONFIRM then on_input_confirm pkt s
  else if ty =? RNET_PKT_BYE then on_bye pkt s
  else if is_state_packet ty then on_state_packet pkt s
  else if ty =? RNET_PKT_SIO_MULTI_XFER then on_sio pkt s
  else if ty =? RNET_PKT_RB_FRAME_COMMIT then on_frame_commit pkt s
  else if ty =? RNET_PKT_RB_SYNC then on_rb_sync pkt s
  else if ty =? RNET_PKT_RB_SEAL_ROWS then on_rb_seal_rows pkt s
  else if ty =? RNET_PKT_RB_BASELINE then on_rb_baseline pkt s
  else if ty =? RNET_PKT_RB_POST then on_rb_post pkt s
  else if ty =? RNET_PKT_MODSET then on_modset pkt s
  else if ty =? RNET_PKT_MODSET_ACK then on_modset_ack pkt s
  else if ty =? RNET_PKT_RB_RESOLVED then on_rb_resolved pkt s
  else s.

(** ** The pump *)

Definition packet_sender_slot (pkt : RNetDecodedPacket) : Z :=
  if p_type pkt =? RNET_PKT_START then 0
  else if p_type pkt =? RNET_PKT_DELAY_SYNC then -1
  else p_local_slot pkt.

(** A datagram taken from the transport. *)
Definition receive_datagram (data : list Z) (s : RNetSession) : RNetSession :=
  match rnet_proto_decode data (cfg_protocol_magic (s_cfg s)) with
  | Ret pkt =>
      if p_session_id pkt =? cfg_session_id (s_cfg s) then
        let from := packet_sender_slot pkt in
        let '(now, s) := session_now s in
        let s := on_live (fun l =>
          let l := set_lv_last_peer_rx_ms now l in
          if (0 <=? from) && (from <? RNET_MAX_SLOTS) && negb (from =? s_wire_slot s)
          then set_lv_peer_rx_ms (wr (lv_peer_rx_ms l) from (if nz now then now else 1)) l else l) s in
        handle_decoded pkt (on_diag (fun d => set_dg_packets_rx (u32 (dg_packets_rx d + 1)) d) s)
      else s
  | _ => s
  end.

(** [rnet_transport_recv]: the next waiting datagram, at most
    [RNET_MAX_PACKET] bytes of it. *)
Fixpoint recv_loop (guard : nat) (s : RNetSession) : RNetSession :=
  match guard with
  | O => s
  | S m =>
      match io_inbox (s_io s) with
      | [] => s
      | data :: rest =>
          let s := on_io (set_io_inbox rest) s in
          if zlen data <=? 0 then s
          else recv_loop m (receive_datagram (take (Z.to_nat RNET_MAX_PACKET) data) s)
      end
  end.

Definition pump_recv (s : RNetSession) : RNetSession :=
  recv_loop (if state_any_active s then 512 else 64) s.

(** Up to four rounds of send and receive while a transfer runs. *)
Fixpoint state_burst (n : nat) (s : RNetSession) : RNetSession :=
  match n with
  | O => s
  | S m =>
      let s := state_drive_sender s in
      if state_any_in_progress s then state_burst m (pump_recv s) else s
  end.

Definition keepalive_hello (s : RNetSession) : RNetSession :=
  if running s && (nz (s_input_send_suppress s) || nz (xf_stall_sim (s_xfer s))) then
    let '(now, s) := session_now s in
    if 250 <=? u64 (now - s_last_hello_ms s) then set_s_last_hello_ms now (send_hello s) else s
  else s.

Definition pump_delay_sync (s : RNetSession) : RNetSession :=
  if nz (s_delay_pending s) && running s then
    let '(now, s) := session_now s in
    if resend_due now (s_delay_pending_last_tx_ms s) 50
    then emit_delay_sync (s_delay_pending_value s) (s_delay_pending_effective s) s else s
  else s.

(** The pump without the ICE agents (LAN transport). *)
Definition rnet_session_pump (s : RNetSession) : RNetSession :=
  let s := profiles_drive (maybe_bootstrap (pump_recv s)) in
  let s := if nz (pr_active (s_probe s)) then state_drive_probe s else s in
  let s := if state_any_active s then state_burst 4 s else s in
  pump_delay_sync (send_input_bundle (keepalive_hello s)).

(** ** Admission of a simulation tick *)

(** The guards before any input is looked at. *)
Definition admit_guard (s : RNetSession) (sim_tick : Z) : option RNetAdmitStall :=
  if negb (running s) then Some ADMIT_NOT_RUNNING else
  if nz (pf_active (s_profiles s)) && negb (fst (rnet_session_profiles_status s) =? 1)
  then Some ADMIT_NOT_RUNNING else
  if nz (xf_stall_sim (s_xfer s)) && (state_any_active s || nz (pr_active (s_probe s)))
  then Some ADMIT_STATE_XFER else
  if negb (sim_tick =? s_sim_tick s) then Some ADMIT_SIM_MISMATCH else
  if nz (cn_input_desync (s_confirm s)) then Some ADMIT_DESYNC else None.

(** The host's sample for wire tick [w], clamped as stored. *)
Definition host_sample (w : Z) (pad : RNetInputSample) : RNetInputSample :=
  mkSample w (Z.min (is_size pad) RNET_INPUT_MAX) (is_bytes pad) 1.

(** Sample for T+D unless it is there already, and send. The result carries
    the sample now at T+D. *)
Definition admit_sample (sample_wire : Z) (s : RNetSession) : RNetInputSample * RNetSession :=
  if nz (s_is_observer s) then (zero_sample, s) else
  let '(future, s) :=
    match rnet_ring_get (s_local_ring s) sample_wire with
    | Some x => (x, s)
    | None =>
        let '(pad, s) := sample_local s in
        let x := host_sample sample_wire pad in
        (x, set_s_local_ring (rnet_ring_store (s_local_ring s) x) s)
    end in
  (future, send_input_bundle s).

(** The seats' rows as [try_admit] assembles them; [None] is the (already
    excluded) missing remote row. *)
Definition admit_slot (s : RNetSession) (local_play : RNetInputSample) (sim_tick slot : Z)
  : option RNetInputSample :=
  if slot =? cfg_local_slot (s_cfg s)
  then Some (mkSample sim_tick (is_size local_play) (is_bytes local_play) (is_valid local_play))
  else if negb (rnet_config_slot_occupied (s_cfg s) slot) then Some (neutral_sample sim_tick)
  else (fun r => mkSample sim_tick (is_size r) (is_bytes r) (is_valid r)) <$>
         rnet_ring_get (remote_ring s slot) sim_tick.

Definition admit_rows (s : RNetSession) (local_play : RNetInputSample) (sim_tick : Z)
  : option (list RNetInputSample) :=
  mapM (admit_slot s local_play sim_tick) (seqZ 0 (cfg_slot_count (s_cfg s))).

(** The confirmation barrier and the publish. *)
Definition admit_confirm (resolved : list RNetInputSample) (sim_tick : Z) (s : RNetSession)
  : bool * RNetSession :=
  let hash := hash_resolved_inputs sim_tick resolved (cfg_slot_count (s_cfg s)) in
  let '(ok, s) := prepare_wire_confirm sim_tick false s in
  if negb ok || nz (cn_input_desync (s_confirm s))
  then (false, note_admit_stall (if nz (cn_input_desync (s_confirm s)) then ADMIT_DESYNC
                                 else ADMIT_WAIT_CONFIRM) s) else
  let published := rd 0 (cn_published_hash (s_confirm s)) (hist sim_tick) in
  if negb (published =? hash)
  then (false, note_admit_stall ADMIT_DESYNC (on_confirm (note_desync sim_tick hash published) s)) else
  if negb (wire_confirmations_agree s sim_tick)
  then
    let s := send_input_bundle (snd (prepare_wire_confirm sim_tick false s)) in
    (false, note_admit_stall ADMIT_WAIT_CONFIRM s)
  else (true, note_admit_ok (host_publish sim_tick resolved s)).

Definition rnet_session_try_admit (sim_tick : Z) (s : RNetSession) : bool * RNetSession :=
  match admit_guard s sim_tick with
  | Some reason => (false, note_admit_stall reason s)
  | None =>
      let sample_wire := rnet_wire_tick_from_sim sim_tick (s_delay s) in
      let '(local_future, s) := admit_sample sample_wire s in
      let s := refresh_confirm_window sim_tick sample_wire s in
      let local_play :=
        if nz (s_is_observer s) then Some zero_sample else
        match rnet_ring_get (s_local_ring s) sim_tick with
        | Some x => Some x
        | None => if sim_tick =? sample_wire then Some local_future else None
        end in
      match local_play with
      | None => (false, note_admit_stall ADMIT_WAIT_LOCAL_INPUT (send_input_bundle s))
      | Some local_play =>
          if negb (remotes_ready_for_play_wire s sim_tick)
          then (false, note_admit_stall ADMIT_WAIT_REMOTE_INPUT (send_input_bundle s)) else
          match admit_rows s local_play sim_tick with
          | None => (false, note_admit_stall ADMIT_WAIT_REMOTE_INPUT s)
          | Some resolved => admit_confirm resolved sim_tick s
          end
      end
  end.

(** ** Sampling ahead *)

(** One tick of the back-fill; [have] is the sample once taken. *)
Definition fill_tip (w : Z) (st : RNetSession * option RNetInputSample)
  : RNetSession * option RNetInputSample :=
  let '(s, have) := st in
  match rnet_ring_get (s_local_ring s) w with
  | Some _ => st
  | None =>
      let '(x, s) := match have with
                     | Some x => (x, s)
                     | None => let '(pad, s) := sample_local s in (host_sample w pad, s)
                     end in
      let x := mkSample w (is_size x) (is_bytes x) (is_valid x) in
      (set_s_local_ring (rnet_ring_store (s_local_ring s) x) s, Some x)
  end.

Definition rnet_session_prepare_local_tip (sim_tick : Z) (s : RNetSession) : bool * RNetSession :=
  if negb (running s) then (false, s) else
  if negb (sim_tick =? s_sim_tick s) then (false, s) else
  let sample_wire := rnet_wire_tick_from_sim sim_tick (s_delay s) in
  let '(s, _) := for_range sim_tick (sample_wire + 1) fill_tip (s, None) in
  (true, send_input_bundle s).

Definition rnet_session_remote_tip (s : RNetSession) (slot : Z) : option Z :=
  if (slot <? 0) || (cfg_slot_count (s_cfg s) <=? slot) || negb (remote_seat s slot) then None
  else Some (rnet_ring_highest_valid (remote_ring s slot)).

Definition rnet_session_peek_input (s : RNetSession) (slot wire_tick : Z) : option RNetInputSample :=
  if (slot <? 0) || (cfg_slot_count (s_cfg s) <=? slot) then None else
  if slot =? cfg_local_slot (s_cfg s) then rnet_ring_get (s_local_ring s) wire_tick
  else rnet_ring_get (remote_ring s slot) wire_tick.

Definition rnet_session_peek_remote_input (s : RNetSession) (slot wire_tick : Z) : option RNetInputSample :=
  if slot =? cfg_local_slot (s_cfg s) then None else
  if (slot <? 0) || (cfg_slot_count (s_cfg s) <=? slot) then None else
  if negb (rnet_config_slot_occupied (s_cfg s) slot) then Some (neutral_sample wire_tick)
  else rnet_session_peek_input s slot wire_tick.

Definition rnet_session_remote_arrival_age_ms (slot wire_tick : Z) (s : RNetSession) : Z * RNetSession :=
  if (slot <? 0) || (cfg_slot_count (s_cfg s) <=? slot) || (slot =? cfg_local_slot (s_cfg s))
  then (UINT32_MAX, s) else
  let idx := hist wire_tick in
  let ms := rd 0 (rd [] (s_arr_ms s) slot) idx in
  if (ms =? 0) || negb (rd 0 (rd [] (s_arr_tick s) slot) idx =? wire_tick) then (UINT32_MAX, s) else
  let '(now, s) := session_now s in
  if now <=? ms then (0, s) else (u32 (now - ms), s).

(** ** Taking queued messages

    Each take returns the oldest message and records its sender. *)

Definition take_ctl {A} `{CtrlMsg A} (get : RNetCtl -> ring_q A) (put : ring_q A -> RNetCtl -> RNetCtl)
    (from : A -> Z) (s : RNetSession) : option A * RNetSession :=
  match ctrl_take (get (s_ctl s)) with
  | None => (None, s)
  | Some (a, q) => (Some a, on_ctl (fun c => put q (set_ct_rb_last_from (from a) c)) s)
  end.

Definition rnet_session_take_rb_sync := take_ctl ct_sync_q set_ct_sync_q sy_from.
Definition rnet_session_take_rb_baseline := take_ctl ct_base_q set_ct_base_q ba_from.
Definition rnet_session_take_rb_post := take_ctl ct_post_q set_ct_post_q po_from.
Definition rnet_session_take_rb_resolved := take_ctl ct_resolved_q set_ct_resolved_q re_from.

(** Seal rows are handed out as engine rows, with ticks counted from
    [row_begin]. *)
Definition frame_of_wire (tick : Z) (w : RNetRbWireFrame) : RNetRbFrame :=
  mkRbFrame tick (rbw_buttons w) (rbw_stick_x w) (rbw_stick_y w) (rbw_is_predicted w) (rbw_is_valid w)
    (rbw_source w) (rbw_rx w) (rbw_ry w).
Definition wire_of_frame (f : RNetRbFrame) : RNetRbWireFrame :=
  mkRbWireFrame (rf_buttons f) (rf_stick_x f) (rf_stick_y f) (rf_analog f) (rf_is_predicted f)
    (rf_is_valid f) (rf_rx f) (rf_ry f).

Definition seal_frames (e : rb_seal_entry) : list RNetRbFrame :=
  zip_with (fun i w => frame_of_wire (u32 (se_row_begin e + i)) w) (seqZ 0 (se_row_count e)) (se_rows e).

Definition rnet_session_take_rb_seal_rows (s : RNetSession)
  : option (rb_seal_entry * list RNetRbFrame) * RNetSession :=
  let '(e, s) := take_ctl ct_seal_q set_ct_seal_q se_from s in
  ((fun e => (e, seal_frames e)) <$> e, s).

Definition rnet_session_take_rb_frame_commit (s : RNetSession) : option (Z * Z) * RNetSession :=
  match q_take RNET_RB_FC_QUEUE zero_fc (ct_fc_q (s_ctl s)) with
  | None => (None, s)
  | Some (e, q) => (Some (fc_tick e, fc_hash e),
                    on_ctl (fun c => set_ct_fc_q q (set_ct_rb_last_from (fc_from e) c)) s)
  end.

Definition rnet_session_poll_sio_multi_xfer (s : RNetSession) : option sio_entry * RNetSession :=
  match q_take RNET_SIO_XFER_QUEUE zero_sio (ct_sio_q (s_ctl s)) with
  | None => (None, s)
  | Some (e, q) => (Some e, on_ctl (set_ct_sio_q q) s)
  end.

(** The bytes of a C string before its terminator. *)
Fixpoint cstr (l : list Z) : list Z :=
  match l with
  | [] => []
  | c :: r => if c =? 0 then [] else c :: cstr r
  end.

(** [cap] is the size of the caller's buffer. *)
Definition rnet_session_take_modset (cap : Z) (s : RNetSession) : option (list Z) * RNetSession :=
  if (cap =? 0) || (ct_modset_pending (s_ctl s) =? 0) then (None, s) else
  let text := cstr (ct_modset_text (s_ctl s)) in
  let s := on_ctl (set_ct_modset_pending 0) s in
  if cap <=? zlen text then (None, s) else (Some text, s).

(** The lowest seat with a waiting answer: [(status, reason)]. *)
Definition rnet_session_take_modset_ack (cap : Z) (s : RNetSession) : option (Z * list Z) * RNetSession :=
  let c := s_ctl s in
  if ct_modset_ack_pending c =? 0 then (None, s) else
  let from := default 8 (find (has_bit (ct_modset_ack_pending c)) (seqZ 0 RNET_MAX_SLOTS)) in
  let reason := cstr (rd [] (ct_modset_ack_reason c) from) in
  let reason := if cap <=? zlen reason then take (Z.to_nat (cap - 1)) reason else reason in
  (Some (rd 0 (ct_modset_ack_status c) from, reason),
   on_ctl (fun c => set_ct_rb_last_from from
     (set_ct_modset_ack_pending (Z.ldiff (ct_modset_ack_pending c) (bit from)) c)) s).

(** ** Sending control messages

    [false] stands for the return value -1. *)

Definition send_if (allowed : bool) (enc : cres (list Z)) (s : RNetSession) : bool * RNetSession :=
  if negb allowed then (false, s) else
  match enc with
  | Ret buf => (true, send_raw (Ret buf) s)
  | _ => (false, s)
  end.

Definition rnet_session_send_rb_frame_commit (through_tick state_hash : Z) (s : RNetSession) :=
  send_if (running s) (rnet_proto_encode_rb_frame_commit RNET_MAX_PACKET (magic s) (sid s) (s_wire_slot s)
                         through_tick state_hash) s.

Definition rnet_session_send_rb_seal_rows (epoch_id mismatch_tick target_tick slot row_begin : Z)
    (rows : list RNetRbFrame) (s : RNetSession) :=
  let wire := map wire_of_frame (take (Z.to_nat RNET_RB_SEAL_ROWS_CHUNK_MAX) rows) in
  send_if (running s) (rnet_proto_encode_rb_seal_rows RNET_MAX_PACKET (magic s) (sid s) (s_wire_slot s)
                         epoch_id mismatch_tick target_tick slot row_begin (Some wire) (zlen wire)) s.

Definition rnet_session_send_rb_baseline (epoch_id load_tick digest_master digest_a digest_b digest_c : Z)
    (s : RNetSession) :=
  send_if (running s) (rnet_proto_encode_rb_baseline RNET_MAX_PACKET (magic s) (sid s) (s_wire_slot s)
                         epoch_id load_tick digest_master digest_a digest_b digest_c) s.

Definition rnet_session_send_rb_post (epoch_id target_tick digest_master input_digest match_ : Z)
    (s : RNetSession) :=
  send_if (running s) (rnet_proto_encode_rb_post RNET_MAX_PACKET (magic s) (sid s) (s_wire_slot s)
                         epoch_id target_tick digest_master input_digest match_) s.

Definition rnet_session_send_rb_resolved (resolved_through : Z) (s : RNetSession) :=
  send_if (running s) (rnet_proto_encode_rb_resolved RNET_MAX_PACKET (magic s) (sid s) (s_wire_slot s)
                         resolved_through) s.

(** MODSET packets bypass [send_raw]. *)
Definition send_direct (allowed : bool) (enc : cres (list Z)) (s : RNetSession) : bool * RNetSession :=
  if negb allowed then (false, s) else
  match enc with
  | Ret buf => (true, transport_send buf s)
  | _ => (false, s)
  end.

Definition rnet_session_send_modset (text : list Z) (s : RNetSession) :=
  send_direct (running s) (rnet_proto_encode_modset RNET_MAX_PACKET (magic s) (sid s) (s_wire_slot s) (Some text)) s.

Definition rnet_session_send_modset_ack (status : Z) (reason : option (list Z)) (s : RNetSession) :=
  send_direct (running s) (rnet_proto_encode_modset_ack RNET_MAX_PACKET (magic s) (sid s) (s_wire_slot s)
                             status reason) s.

Definition rnet_session_send_sio_multi_xfer (unit_id seq send confirm_pad : Z) (s : RNetSession) : bool * RNetSession :=
  if bool_decide (s_mode s = TRANSPORT_NONE) then (false, s) else
  if negb (running s) && negb (bool_decide (s_phase s = PHASE_READY)) then (false, s) else
  match rnet_proto_encode_sio_multi_xfer 64 (magic s) (sid s) (s_wire_slot s) unit_id seq send confirm_pad with
  | Ret buf => (true, send_raw (Ret buf) (send_raw (Ret buf) s))
  | _ => (false, s)
  end.

Definition rnet_session_send_bye (s : RNetSession) : bool * RNetSession :=
  if bool_decide (s_mode s = TRANSPORT_NONE) then (false, s) else
  match rnet_proto_encode_bye 64 (magic s) (sid s) (s_wire_slot s) with
  | Ret buf => (true, transport_send buf (transport_send buf (transport_send buf s)))
  | _ => (false, s)
  end.

(** ** Peer liveness ([os_now] is the OS clock) *)

Definition link_budget_ms (timeout_ms : Z) : Z :=
  let b := u64 (timeout_ms * 60) in if b <? 90000 then 90000 else b.

Definition linking_or_running (s : RNetSession) : bool :=
  match s_phase s with PHASE_RUNNING | PHASE_LINKING => true | _ => false end.

Definition link_expired (os_now timeout_ms : Z) (s : RNetSession) : bool :=
  linking_or_running s && nz (lv_session_start_ms (s_live s)) &&
  (link_budget_ms timeout_ms <? u64 (os_now - lv_session_start_ms (s_live s))).

Definition rnet_session_peer_disconnected (os_now timeout_ms : Z) (s : RNetSession) : bool :=
  let l := s_live s in
  if nz (lv_peer_gone l) then true else
  if timeout_ms =? 0 then false else
  if lv_last_peer_rx_ms l =? 0 then link_expired os_now timeout_ms s else
  (lv_last_peer_rx_ms l <? os_now) && (timeout_ms <=? os_now - lv_last_peer_rx_ms l).

Definition rnet_session_touch_peer_liveness (s : RNetSession) : RNetSession :=
  let '(now, s) := session_now s in
  on_live (fun l =>
    let l := for_upto (Z.min (cfg_slot_count (s_cfg s)) RNET_MAX_SLOTS) (fun slot l =>
      if remote_seat s slot && negb (has_bit (lv_peer_gone_mask l) slot)
      then set_lv_peer_rx_ms (wr (lv_peer_rx_ms l) slot (if nz now then now else 1)) l else l) l in
    if nz (lv_peer_gone l) then l else set_lv_last_peer_rx_ms now l) s.

Definition liveness_seat_ok (s : RNetSession) (slot : Z) : bool :=
  (0 <=? slot) && (slot <? cfg_slot_count (s_cfg s)) && (slot <? RNET_MAX_SLOTS) &&
  negb (slot =? cfg_local_slot (s_cfg s)).

Definition rnet_session_peer_gone (s : RNetSession) (slot : Z) : bool :=
  liveness_seat_ok s slot && has_bit (lv_peer_gone_mask (s_live s)) slot.

Definition RNET_PEER_RX_NEVER : Z := 18446744073709551615.

Definition rnet_session_peer_rx_age_ms (slot : Z) (s : RNetSession) : Z * RNetSession :=
  let rx := rd 0 (lv_peer_rx_ms (s_live s)) slot in
  if negb (liveness_seat_ok s slot) || (rx =? 0) then (RNET_PEER_RX_NEVER, s) else
  let '(now, s) := session_now s in
  ((if rx <? now then now - rx else 0), s).

Definition rnet_session_peer_slot_disconnected (os_now timeout_ms slot : Z) (s : RNetSession)
  : bool * RNetSession :=
  if negb (liveness_seat_ok s slot) || negb (rnet_config_slot_occupied (s_cfg s) slot) then (false, s) else
  if has_bit (lv_peer_gone_mask (s_live s)) slot then (true, s) else
  if timeout_ms =? 0 then (false, s) else
  if rd 0 (lv_peer_rx_ms (s_live s)) slot =? 0 then (link_expired os_now timeout_ms s, s) else
  let '(age, s) := rnet_session_peer_rx_age_ms slot s in
  (timeout_ms <=? age, s).

(** The mask of disconnected seats. *)
Definition rnet_session_disconnected_peers (os_now timeout_ms : Z) (s : RNetSession) : Z * RNetSession :=
  for_upto (Z.min (cfg_slot_count (s_cfg s)) RNET_MAX_SLOTS) (fun slot '(mask, s) =>
    let '(gone, s) := rnet_session_peer_slot_disconnected os_now timeout_ms slot s in
    (if gone then Z.lor mask (bit slot) else mask, s)) (0, s).

Definition rnet_session_set_rb_peer_slot (slot : Z) : RNetSession -> RNetSession :=
  on_ctl (set_ct_rb_peer_slot slot).

(** Both LAN starts; [transport_ok]: the transport could be opened. *)
Definition rnet_session_start_lan (transport_ok : bool) (s : RNetSession) : bool * RNetSession :=
  if negb transport_ok then (false, s)
  else (true, set_s_last_hello_ms 0 (set_s_phase PHASE_LINKING (set_s_mode TRANSPORT_LAN_UDP s))).
