(* ===== verification/SessionProofs.v ===== *)
(** * The session: properties of the input plane *)

From stdpp Require Import base list numbers list_numbers.
From S2P Require Import Prelude Protocol Config Rings CtrlQueue Session SessionState SessionMain.

#[global] Arguments send_raw : simpl never.
#[global] Arguments send_input_bundle : simpl never.
#[global] Arguments note_admit_stall : simpl never.
#[global] Arguments note_admit_ok : simpl never.
#[global] Arguments hist : simpl never.

(** ** Steps that only talk to the outside

    [quiet s s']: [s'] is [s] up to the clock and the datagrams sent, the
    diagnostics and the stamps that pace INPUT bundles; nothing was published
    or sampled. *)

Record quiet (s s' : RNetSession) : Prop := {
  quiet_eq : exists io d ms tip v,
    s' = set_s_io io (set_s_diag d (set_s_last_input_ms ms (set_s_last_input_tip tip
           (set_s_last_input_tip_valid v s))));
  quiet_published : io_published (s_io s') = io_published (s_io s);
  quiet_pads : io_pads (s_io s') = io_pads (s_io s);
  quiet_sent : io_sent (s_io s) `prefix_of` io_sent (s_io s')
}.

#[export] Instance quiet_preorder : PreOrder quiet.
Proof.
  split.
  - intros s. constructor; [|done..].
    exists (s_io s), (s_diag s), (s_last_input_ms s), (s_last_input_tip s), (s_last_input_tip_valid s).
    by destruct s.
  - intros a b c [(io & d & ms & tip & v & ->) Hp Hd Hs] [(io' & d' & ms' & tip' & v' & ->) Hp' Hd' Hs'].
    constructor; [|by rewrite Hp', Hp|by rewrite Hd', Hd|by etrans]. by exists io', d', ms', tip', v'.
Qed.

(** Rewrite any unaffected field of the later state to that of the earlier. *)
Ltac quiet_fields H :=
  let io := fresh "io" in let d := fresh "d" in let ms := fresh in let tip := fresh in let v := fresh in
  destruct (quiet_eq _ _ H) as (io & d & ms & tip & v & ->); simpl in *.

Lemma quiet_io f s : io_published (f (s_io s)) = io_published (s_io s) ->
  io_pads (f (s_io s)) = io_pads (s_io s) -> io_sent (s_io s) `prefix_of` io_sent (f (s_io s)) ->
  quiet s (on_io f s).
Proof.
  intros. constructor; [|done..].
  exists (f (s_io s)), (s_diag s), (s_last_input_ms s), (s_last_input_tip s), (s_last_input_tip_valid s).
  by destruct s.
Qed.
Lemma quiet_diag f s : quiet s (on_diag f s).
Proof.
  constructor; [|done..].
  exists (s_io s), (f (s_diag s)), (s_last_input_ms s), (s_last_input_tip s), (s_last_input_tip_valid s).
  by destruct s.
Qed.
Lemma quiet_now s : quiet s (snd (session_now s)).
Proof. by apply quiet_io. Qed.
Lemma quiet_send buf s : quiet s (transport_send buf s).
Proof. apply quiet_io; [done..|]. by apply prefix_app_r. Qed.
Lemma quiet_send_raw enc s : quiet s (send_raw enc s).
Proof.
  unfold send_raw. destruct enc as [buf| |]; [|done..].
  destruct (_ && _); [destruct (_ <? _); [done|]|destruct (_ <=? _); [done|apply quiet_send]].
  destruct (rnet_proto_tag_rb_epoch _ _ _); [apply quiet_send|done..].
Qed.
Lemma quiet_stall r s : quiet s (note_admit_stall r s).
Proof.
  unfold note_admit_stall. cbn [session_now fst snd].
  etrans; [apply quiet_diag|]. etrans; [|apply quiet_diag]. apply quiet_now.
Qed.
Lemma quiet_ok s : quiet s (note_admit_ok s).
Proof. unfold note_admit_ok. cbn [session_now]. etrans; [apply quiet_now|apply quiet_diag]. Qed.

Lemma quiet_bundle_loop n ack t tip s b : quiet s (fst (fst (bundle_loop n ack t tip s b))).
Proof.
  revert t s b. induction n as [|n IH]; intros t s b; simpl; [done|].
  destruct (t <=? tip); [|done]. destruct (fill_bundle _ _ _ _ _) as [frames t'].
  destruct (zlen frames =? 0); [apply IH|].
  destruct (encode_bundle _ _ _) as [buf| |]; [|done..].
  etrans; [|apply IH]. etrans; [apply quiet_send_raw|apply quiet_diag].
Qed.

Lemma quiet_send_input_bundle s : quiet s (send_input_bundle s).
Proof.
  unfold send_input_bundle. cbn [session_now].
  set (s1 := on_io _ s). assert (quiet s s1) as H1 by apply quiet_now.
  repeat (match goal with |- quiet _ (if ?b then _ else _) => destruct b; [done|] end).
  match goal with |- context [bundle_loop ?n ?a ?t ?tip s1 false] =>
    pose proof (quiet_bundle_loop n a t tip s1 false) as H2; destruct (bundle_loop n a t tip s1 false) as [[s2 []] f] end;
  simpl in *; [|by etrans].
  etrans; [exact H1|]. etrans; [exact H2|].
  constructor; [|done..]. by exists (s_io s2), (s_diag s2),
    (hd 0 (io_clock (s_io s))), (rnet_wire_tick_from_sim (s_sim_tick s1) (s_delay s1)), 1.
Qed.
#[export] Hint Resolve quiet_now quiet_send quiet_send_raw quiet_stall quiet_ok quiet_send_input_bundle : rnet.

(** ** What a tick's admission leaves alone *)

Record keeps (s s' : RNetSession) : Prop := {
  k_cfg : s_cfg s' = s_cfg s;
  k_local : s_local_ring s' = s_local_ring s;
  k_remote : s_remote_rings s' = s_remote_rings s;
  k_observer : s_is_observer s' = s_is_observer s;
  k_sim : s_sim_tick s' = s_sim_tick s;
  k_delay : s_delay s' = s_delay s;
  k_peer_tick : cn_peer_tick (s_confirm s') = cn_peer_tick (s_confirm s);
  k_peer_hash : cn_peer_hash (s_confirm s') = cn_peer_hash (s_confirm s);
  k_peer_valid : cn_peer_valid (s_confirm s') = cn_peer_valid (s_confirm s);
  k_published : io_published (s_io s') = io_published (s_io s)
}.

#[export] Instance keeps_preorder : PreOrder keeps.
Proof.
  split; [by constructor|]. intros a b c [] []. constructor; congruence.
Qed.

Lemma quiet_keeps s s' : quiet s s' -> keeps s s'.
Proof. intros H. pose proof (quiet_published _ _ H). quiet_fields H. by constructor. Qed.

Lemma keeps_confirm f s :
  cn_peer_tick (f (s_confirm s)) = cn_peer_tick (s_confirm s) ->
  cn_peer_hash (f (s_confirm s)) = cn_peer_hash (s_confirm s) ->
  cn_peer_valid (f (s_confirm s)) = cn_peer_valid (s_confirm s) -> keeps s (on_confirm f s).
Proof. by constructor. Qed.

Lemma keeps_confirm_tick t h s : keeps s (send_input_confirm_tick t h s).
Proof.
  unfold send_input_confirm_tick. cbn [session_now]. etrans; [|by apply keeps_confirm].
  etrans; [apply quiet_keeps, quiet_send_raw|apply quiet_keeps, quiet_now].
Qed.

Lemma keeps_prepare w f s : keeps s (snd (prepare_wire_confirm w f s)).
Proof.
  unfold prepare_wire_confirm. destruct (collect_wire_inputs s w) as [rows|]; [|done].
  cbn [session_now]. set (s1 := on_confirm _ s). assert (keeps s s1) as H1 by by apply keeps_confirm.
  destruct (confirm_conflict s1 w _) as [slot|].
  - simpl. etrans; [exact H1|]. by apply keeps_confirm.
  - etrans; [exact H1|]. destruct (_ || _); simpl.
    + etrans; [apply quiet_keeps, quiet_now|apply keeps_confirm_tick].
    + apply quiet_keeps, quiet_now.
Qed.

Lemma keeps_refresh p w s : keeps s (refresh_confirm_window p w s).
Proof.
  unfold refresh_confirm_window. cbn [session_now].
  match goal with |- context [for_range ?a ?b ?f ?s1] =>
    generalize b as hi; generalize a as lo; set (s0 := s1); set (g := f); intros lo hi end.
  assert (keeps s s0) as H0 by apply quiet_keeps, quiet_now.
  destruct (Z.le_gt_cases lo hi).
  - apply (for_range_ind (fun _ t => keeps s t)); [lia|exact H0|].
    intros i t _ Ht. etrans; [exact Ht|]. unfold g, refresh_confirm_tick.
    destruct (published_at t i); [destruct (resend_due _ _ _); [apply keeps_confirm_tick|done]|apply keeps_prepare].
  - unfold for_range. by rewrite seqZ_nil by lia.
Qed.

Lemma keeps_publish t rows s : io_published (s_io (host_publish t rows s)) = io_published (s_io s) ++ [(t, rows)].
Proof. done. Qed.

(** Rows of [mapM] over the seats. *)
Lemma mapM_seats {A} (f : Z -> option A) n l d : mapM f (seqZ 0 n) = Some l ->
  zlen l = Z.max 0 n /\ forall i, 0 <= i < n -> f i = Some (rd d l i).
Proof.
  intros H%mapM_Some. split.
  - apply Forall2_length in H. unfold zlen. rewrite <- H, length_seqZ. lia.
  - intros i Hi. assert (seqZ 0 n !! Z.to_nat i = Some i) as Hs.
    { apply lookup_seqZ. lia. }
    destruct (Forall2_lookup_l _ _ _ _ _ H Hs) as (x & Hx & Hfx).
    unfold rd. by rewrite nth_lookup, Hx.
Qed.

Definition retag (t : Z) (x : RNetInputSample) : RNetInputSample :=
  mkSample t (is_size x) (is_bytes x) (is_valid x).

Lemma remote_seat_keeps s s' slot : keeps s s' -> remote_seat s' slot = remote_seat s slot.
Proof. intros H. unfold remote_seat. by rewrite (k_cfg _ _ H). Qed.
Lemma remote_ring_keeps s s' slot : keeps s s' -> remote_ring s' slot = remote_ring s slot.
Proof. intros H. unfold remote_ring. by rewrite (k_remote _ _ H). Qed.
Lemma confirmed_keeps s s' slot t : keeps s s' -> confirmed_at s' slot t = confirmed_at s slot t.
Proof.
  intros H. unfold confirmed_at. by rewrite (k_peer_tick _ _ H), (k_peer_hash _ _ H), (k_peer_valid _ _ H).
Qed.

(** The publish of a tick: what [admit_confirm] requires before it. *)
Lemma admit_confirm_true rows t s s' : admit_confirm rows t s = (true, s') ->
  io_published (s_io s') = io_published (s_io s) ++ [(t, rows)] /\
  (forall slot, 0 <= slot < cfg_slot_count (s_cfg s) -> remote_seat s slot = true ->
    confirmed_at s slot t = Some (hash_resolved_inputs t rows (cfg_slot_count (s_cfg s)))).
Proof.
  unfold admit_confirm. pose proof (keeps_prepare t false s) as Hk.
  destruct (prepare_wire_confirm t false s) as [ok s1]. simpl in Hk.
  destruct (negb ok || _); [done|]. destruct (_ =? _) eqn:Eh; simpl; [|done]. bool_prop.
  destruct (wire_confirmations_agree s1 t) eqn:Ea; simpl; [|done]. intros [= <-]. split.
  - rewrite (k_published _ _ (quiet_keeps _ _ (quiet_ok _))), keeps_publish. by rewrite (k_published _ _ Hk).
  - intros slot Hs Hr. unfold wire_confirmations_agree in Ea.
    destruct (published_at s1 t) as [h|] eqn:Ep; [|done].
    rewrite all_upto_spec, (k_cfg _ _ Hk) in Ea. specialize (Ea slot Hs).
    rewrite (remote_seat_keeps _ _ _ Hk), Hr in Ea. apply bool_decide_eq_true in Ea.
    rewrite (confirmed_keeps _ _ _ _ Hk) in Ea. rewrite Ea. f_equal.
    unfold published_at in Ep. destruct (_ && _); simplify_eq. done.
Qed.

Lemma admit_confirm_local rows t s s' : admit_confirm rows t s = (true, s') ->
  s_local_ring s' = s_local_ring s.
Proof.
  unfold admit_confirm. pose proof (keeps_prepare t false s) as Hk.
  destruct (prepare_wire_confirm t false s) as [ok s1]. simpl in Hk.
  destruct (negb ok || _); [done|]. destruct (_ =? _); simpl; [|done].
  destruct (wire_confirmations_agree s1 t); simpl; [|done]. intros [= <-].
  rewrite (k_local _ _ (quiet_keeps _ _ (quiet_ok _))). apply (k_local _ _ Hk).
Qed.

Lemma admit_confirm_false rows t s s' : admit_confirm rows t s = (false, s') -> keeps s s'.
Proof.
  unfold admit_confirm. pose proof (keeps_prepare t false s) as Hk.
  destruct (prepare_wire_confirm t false s) as [ok s1]. simpl in Hk.
  destruct (negb ok || _); [intros [= <-]; etrans; [exact Hk|apply quiet_keeps, quiet_stall]|].
  destruct (_ =? _); simpl.
  - destruct (wire_confirmations_agree s1 t); simpl; [done|]. intros [= <-].
    etrans; [exact Hk|]. etrans; [apply (keeps_prepare t false)|].
    etrans; apply quiet_keeps; [apply quiet_send_input_bundle|apply quiet_stall].
  - intros [= <-]. etrans; [exact Hk|]. etrans; [|apply quiet_keeps, quiet_stall]. by apply keeps_confirm.
Qed.

(** The ring's interface laws, on the ring's own names. *)
Lemma ring_get_store r x : zlen r = RNET_HISTORY_LENGTH -> is_valid x <> 0 -> 0 <= is_tick x ->
  rnet_ring_get (rnet_ring_store r x) (is_tick x) = Some x.
Proof. intros. exact (ts_get_put (S:=RNetInputRing) (V:=RNetInputSample) r x H (conj H0 H1)). Qed.
Lemma ring_get_store_ne r x t : zlen r = RNET_HISTORY_LENGTH -> is_valid x <> 0 -> 0 <= is_tick x ->
  0 <= t -> t <> is_tick x -> Z.abs (t - is_tick x) < RNET_HISTORY_LENGTH ->
  rnet_ring_get (rnet_ring_store r x) t = rnet_ring_get r t.
Proof.
  intros. exact (ts_get_put_ne (S:=RNetInputRing) (V:=RNetInputSample) r x t H (conj H0 H1) H2 H3 H4).
Qed.

(** ** Admission: soundness *)

Lemma admit_sample_spec w s x s1 : admit_sample w s = (x, s1) ->
  exists r, keeps (set_s_local_ring r s) s1 /\
    (nz (s_is_observer s) = false ->
      (rnet_ring_get (s_local_ring s) w = Some x /\ r = s_local_ring s) \/
      (rnet_ring_get (s_local_ring s) w = None /\ r = rnet_ring_store (s_local_ring s) x /\
       is_tick x = w /\ is_valid x = 1)).
Proof.
  unfold admit_sample. destruct (nz (s_is_observer s)).
  { intros [= <- <-]. exists (s_local_ring s). by split; [destruct s|]. }
  destruct (rnet_ring_get (s_local_ring s) w) as [y|] eqn:E; simpl; intros [= <- <-].
  - exists (s_local_ring s). split; [|auto]. etrans; [|apply quiet_keeps, quiet_send_input_bundle].
    by destruct s.
  - eexists. split; [|right; split_and!; try reflexivity; done].
    etrans; [|apply quiet_keeps, quiet_send_input_bundle]. by constructor.
Qed.

(** The local row that [try_admit] plays is the one its ring holds for the
    tick. *)
Lemma admit_local w s x s1 t y : zlen (s_local_ring s) = RNET_HISTORY_LENGTH -> 0 <= w ->
  nz (s_is_observer s) = false -> admit_sample w s = (x, s1) ->
  (match rnet_ring_get (s_local_ring s1) t with
   | Some x => Some x
   | None => if t =? w then Some x else None
   end) = Some y -> rnet_ring_get (s_local_ring s1) t = Some y.
Proof.
  intros Hl Hw Ho Hs. destruct (admit_sample_spec _ _ _ _ Hs) as (r & Hk & Hr).
  specialize (Hr Ho). rewrite (k_local _ _ Hk). simpl.
  destruct (rnet_ring_get r t) as [z|] eqn:E; [done|].
  destruct (Z.eqb_spec t w) as [->|]; [|done]. intros [= <-]. exfalso.
  destruct Hr as [[Hg ->]|(_ & -> & Ht & Hv)]; [congruence|].
  rewrite <- Ht in E.
  rewrite ring_get_store in E by (done || lia). done.
Qed.

(** The row each seat gets. *)
Definition row_of (s s' : RNetSession) (t slot : Z) (rows : list RNetInputSample) : Prop :=
  let row := rd zero_sample rows slot in
  if slot =? cfg_local_slot (s_cfg s)
  then nz (s_is_observer s) = false ->
       exists x, rnet_ring_get (s_local_ring s') t = Some x /\ row = retag t x
  else if rnet_config_slot_occupied (s_cfg s) slot
  then (exists x, rnet_ring_get (remote_ring s slot) t = Some x /\ row = retag t x) /\
       confirmed_at s slot t = Some (hash_resolved_inputs t rows (cfg_slot_count (s_cfg s)))
  else row = neutral_sample t.

Lemma admit_guard_none s t : admit_guard s t = None ->
  running s = true /\ t = s_sim_tick s /\ cn_input_desync (s_confirm s) = 0 /\
  (nz (pf_active (s_profiles s)) = true -> fst (rnet_session_profiles_status s) = 1).
Proof.
  unfold admit_guard. destruct (running s); simpl; [|done].
  destruct (nz (pf_active _)) eqn:Ea; simpl.
  - destruct (_ =? 1) eqn:E1; simpl; [|done]. bool_prop.
    destruct (_ && _); [done|]. destruct (_ =? _) eqn:E2; simpl; [|done].
    unfold nz. destruct (_ =? 0) eqn:E3; simpl; [|done]. bool_prop. intros _; auto.
  - destruct (_ && _); [done|]. destruct (_ =? _) eqn:E2; simpl; [|done].
    unfold nz. destruct (_ =? 0) eqn:E3; simpl; [|done]. bool_prop. intros _; split_and!; congruence.
Qed.

(** The state in which the rows are assembled, and how it came about. *)
Lemma try_admit_inv s t b s' : rnet_session_try_admit t s = (b, s') ->
  (exists reason, b = false /\ admit_guard s t = Some reason /\ s' = note_admit_stall reason s) \/
  (admit_guard s t = None /\ exists x s1 s2 y,
     admit_sample (rnet_wire_tick_from_sim t (s_delay s)) s = (x, s1) /\ keeps s1 s2 /\
     ((b = false /\ keeps s1 s') \/
      ((nz (s_is_observer s) = false ->
        (match rnet_ring_get (s_local_ring s1) t with
         | Some x => Some x
         | None => if t =? rnet_wire_tick_from_sim t (s_delay s) then Some x else None
         end) = Some y) /\
       exists rows, admit_rows s2 y t = Some rows /\ admit_confirm rows t s2 = (b, s')))).
Proof.
  unfold rnet_session_try_admit. destruct (admit_guard s t) as [r|]; [intros [= <- <-]; left; eauto|].
  intros H. right. split; [done|]. set (w := rnet_wire_tick_from_sim t (s_delay s)) in *.
  destruct (admit_sample w s) as [x s1] eqn:Es.
  destruct (admit_sample_spec _ _ _ _ Es) as (r & Hk & _).
  pose proof (keeps_refresh t w s1) as Hr. set (s2 := refresh_confirm_window t w s1) in *.
  assert (s_is_observer s2 = s_is_observer s) as Eo
    by (rewrite (k_observer _ _ Hr), (k_observer _ _ Hk); done).
  rewrite Eo, (k_local _ _ Hr) in H.
  destruct (if nz (s_is_observer s) then _ else _) as [y|] eqn:Ey.
  - exists x, s1, s2, y. split; [done|]. split; [done|].
    destruct (remotes_ready_for_play_wire s2 t); simpl in H.
    + destruct (admit_rows s2 y t) as [rows|].
      * right. split; [|eauto]. intros Ho. by rewrite Ho in Ey.
      * left. simplify_eq. split; [done|]. etrans; [exact Hr|apply quiet_keeps, quiet_stall].
    + left. simplify_eq. split; [done|]. etrans; [exact Hr|].
      etrans; apply quiet_keeps; [apply quiet_send_input_bundle|apply quiet_stall].
  - exists x, s1, s2, zero_sample. split; [done|]. split; [done|]. left. simplify_eq.
    split; [done|]. etrans; [exact Hr|].
    etrans; apply quiet_keeps; [apply quiet_send_input_bundle|apply quiet_stall].
Qed.

(** C33. A tick is handed to the game only when every peer agrees on its
    inputs. When [try_admit] returns 1, the session was running at exactly
    this tick with no desync recorded, exactly one row vector was published,
    one row per seat: our own row is the one our ring holds for the tick, an
    empty seat is neutral, and every occupied remote seat's row is the one
    latched from its INPUT packets - and each of those seats has confirmed, for
    this tick, exactly the hash of the published rows. When it returns 0,
    nothing was published. *)
Theorem try_admit_sound s t b s' :
  zlen (s_local_ring s) = RNET_HISTORY_LENGTH -> 0 <= t ->
  rnet_session_try_admit t s = (b, s') ->
  if b then
    running s = true /\ t = s_sim_tick s /\ cn_input_desync (s_confirm s) = 0 /\
    exists rows, io_published (s_io s') = io_published (s_io s) ++ [(t, rows)] /\
      zlen rows = Z.max 0 (cfg_slot_count (s_cfg s)) /\
      forall slot, 0 <= slot < cfg_slot_count (s_cfg s) -> row_of s s' t slot rows
  else io_published (s_io s') = io_published (s_io s).
Proof.
  intros Hl Ht H. apply try_admit_inv in H as [(r & -> & _ & ->)|(Hg & x & s1 & s2 & y & Hs & Hk2 & H)].
  { apply (k_published _ _ (quiet_keeps _ _ (quiet_stall r s))). }
  destruct (admit_sample_spec _ _ _ _ Hs) as (r & Hk1 & _).
  assert (Hp : io_published (s_io s1) = io_published (s_io s)) by apply (k_published _ _ Hk1).
  destruct H as [[-> Hk]|[Hy (rows & Hrows & Hc)]]; [by rewrite (k_published _ _ Hk)|].
  destruct b; [|by rewrite (k_published _ _ (admit_confirm_false _ _ _ _ Hc)), (k_published _ _ Hk2)].
  destruct (admit_guard_none _ _ Hg) as (Hrun & Htick & Hd & _). split_and!; [done..|].
  assert (Ecfg : s_cfg s2 = s_cfg s) by (rewrite (k_cfg _ _ Hk2); apply (k_cfg _ _ Hk1)).
  destruct (admit_confirm_true _ _ _ _ Hc) as [Hpub Hconf]. rewrite Ecfg in Hconf.
  destruct (mapM_seats _ _ _ zero_sample Hrows) as [Hlen Hseat]. rewrite Ecfg in Hlen, Hseat.
  assert (El : s_local_ring s' = s_local_ring s1).
  { rewrite <- (k_local _ _ Hk2). by apply admit_confirm_local in Hc. }
  exists rows. split; [by rewrite Hpub, (k_published _ _ Hk2), Hp|]. split; [done|].
  intros slot Hslot. specialize (Hseat slot Hslot). unfold row_of, admit_slot in *. rewrite Ecfg in Hseat.
  destruct (Z.eqb_spec slot (cfg_local_slot (s_cfg s))) as [Eloc|Hne].
  { intros Ho. exists y. split; [|by injection Hseat as <-]. rewrite El.
    eapply admit_local; [exact Hl| |exact Ho|exact Hs|by apply Hy]. apply u32_range. }
  destruct (rnet_config_slot_occupied (s_cfg s) slot) eqn:Eocc; simpl in Hseat; [|congruence].
  assert (Er : remote_ring s2 slot = remote_ring s slot).
  { rewrite (remote_ring_keeps _ _ _ Hk2). apply (remote_ring_keeps _ _ _ Hk1). }
  rewrite Er in Hseat. split.
  - destruct (rnet_ring_get (remote_ring s slot) t) as [z|]; simpl in Hseat; [|done]. exists z.
    split; [done|]. by injection Hseat as <-.
  - rewrite <- (Hconf slot Hslot).
    + symmetry. rewrite (confirmed_keeps _ _ _ _ Hk2). apply (confirmed_keeps _ _ _ _ Hk1).
    + unfold remote_seat. rewrite Ecfg, Eocc. destruct (Z.eqb_spec slot (cfg_local_slot (s_cfg s))); done.
Qed.

(** *** A concrete session: seat 0 of two, running, with the peer's rows and
    confirmation for tick 0 *)

Definition demo_io : RNetIo := mkIo [] [] [] [] [] [].
Definition demo_base : RNetSession := ltac:(
  let x := eval vm_compute in (rnet_session_create rnet_config_init_defaults true true 1 demo_io) in
  match x with Some ?s => exact s end).

Definition demo_packet (ty slot : Z) : RNetDecodedPacket :=
  set_p_local_slot slot (set_p_session_id 1 (set_p_type ty zero_packet)).
Definition demo_input : RNetDecodedPacket :=
  set_p_frames [mkWireFrame 0 1 (padded 32 [7]); mkWireFrame 1 0 (padded 32 [])] (demo_packet RNET_PKT_INPUT 1).
Definition demo_confirm (t h : Z) : RNetDecodedPacket :=
  set_p_confirm_hash h (set_p_confirm_sim_tick t (demo_packet RNET_PKT_INPUT_CONFIRM 1)).

Definition demo_running : RNetSession := Eval vm_compute in
  maybe_bootstrap (handle_decoded (demo_packet RNET_PKT_READY 1) (snd (rnet_session_start_lan true demo_base))).
Definition demo_rows : list RNetInputSample := [neutral_sample 0; mkSample 0 1 (padded 32 [7]) 1].
Definition demo_agreed : RNetSession := Eval vm_compute in
  handle_decoded (demo_confirm 0 (hash_resolved_inputs 0 demo_rows 2)) (handle_decoded demo_input demo_running).

Lemma try_admit_sound_witness :
  let '(b, s') := rnet_session_try_admit 0 demo_agreed in
  b = true /\ io_published (s_io s') = [(0, demo_rows)] /\
  exists rows, io_published (s_io s') = [] ++ [(0, rows)] /\ row_of demo_agreed s' 0 1 rows.
Proof.
  destruct (rnet_session_try_admit 0 demo_agreed) as [b s'] eqn:E.
  pose proof (try_admit_sound demo_agreed 0 b s' ltac:(vm_compute; reflexivity) ltac:(lia) E) as H.
  assert (b = true) as -> by (change b with (fst (b, s')); rewrite <- E; vm_compute; reflexivity).
  split; [done|]. split.
  - change s' with (snd (true, s')). rewrite <- E. vm_compute. reflexivity.
  - destruct H as (_ & _ & _ & rows & Hp & _ & Hr). exists rows. split; [exact Hp|].
    apply Hr. vm_compute. split; [discriminate|reflexivity].
Defined.

(** ** Admission: completeness *)

(** The arrays of the published hashes have their length, and no desync is
    recorded. *)
Definition conf_clean (s : RNetSession) : Prop :=
  let c := s_confirm s in
  zlen (cn_published_tick c) = RNET_HISTORY_LENGTH /\ zlen (cn_published_hash c) = RNET_HISTORY_LENGTH /\
  zlen (cn_published_valid c) = RNET_HISTORY_LENGTH /\ cn_input_desync c = 0.

(** What the peers have confirmed agrees with the inputs this session holds. *)
Definition consistent (s : RNetSession) : Prop := forall slot w h rows,
  0 <= slot < cfg_slot_count (s_cfg s) -> remote_seat s slot = true ->
  confirmed_at s slot w = Some h -> collect_wire_inputs s w = Some rows ->
  h = hash_resolved_inputs w rows (cfg_slot_count (s_cfg s)).

Lemma collect_keeps s s' w : keeps s s' -> collect_wire_inputs s' w = collect_wire_inputs s w.
Proof.
  intros H. unfold collect_wire_inputs. rewrite (k_cfg _ _ H). 
  assert (forall slot, collect_slot s' w slot = collect_slot s w slot) as E.
  { intros slot. unfold collect_slot. by rewrite (k_cfg _ _ H), (k_local _ _ H), (remote_ring_keeps _ _ _ H). }
  induction (seqZ _ _) as [|i l IH]; [done|]. simpl. by rewrite E, IH.
Qed.

Lemma consistent_keeps s s' : keeps s s' -> consistent s -> consistent s'.
Proof.
  intros H Hc slot w h rows. rewrite (k_cfg _ _ H), (remote_seat_keeps _ _ _ H), (confirmed_keeps _ _ _ _ H),
    (collect_keeps _ _ _ H). apply Hc.
Qed.

Lemma hist_range w : 0 <= hist w < RNET_HISTORY_LENGTH.
Proof. apply Z.mod_pos_bound. done. Qed.

Lemma quiet_confirm s s' : quiet s s' -> s_confirm s' = s_confirm s.
Proof. intros H. by quiet_fields H. Qed.

(** The part of the confirmation state that a CONFIRM datagram leaves alone. *)
Lemma confirm_tick_fields t h s :
  let c' := s_confirm (send_input_confirm_tick t h s) in let c := s_confirm s in
  cn_published_tick c' = cn_published_tick c /\ cn_published_hash c' = cn_published_hash c /\
  cn_published_valid c' = cn_published_valid c /\ cn_input_desync c' = cn_input_desync c.
Proof.
  unfold send_input_confirm_tick. cbn [session_now].
  match goal with |- context [send_raw ?e s] =>
    pose proof (quiet_confirm _ _ (quiet_send_raw e s)) as E; destruct (send_raw e s) end.
  simpl in *. by subst.
Qed.

Lemma no_conflict s w rows : consistent s -> collect_wire_inputs s w = Some rows ->
  confirm_conflict s w (hash_resolved_inputs w rows (cfg_slot_count (s_cfg s))) = None.
Proof.
  intros Hc Hr. destruct (confirm_conflict _ _ _) as [slot|] eqn:E; [|done]. exfalso.
  unfold confirm_conflict in E. apply find_some in E as [Hin E].
  apply list_elem_of_In, elem_of_seqZ in Hin. bool_prop.
  assert (confirmed_at s slot w = Some (rd 0 (rd [] (cn_peer_hash (s_confirm s)) (hist w)) slot)) as Hconf.
  { unfold confirmed_at. rewrite H2. rewrite (proj2 (Z.eqb_eq _ _) H1). done. }
  specialize (Hc slot w _ rows ltac:(lia) H Hconf Hr). congruence.
Qed.

Lemma prepare_spec w f s rows : conf_clean s -> consistent s -> collect_wire_inputs s w = Some rows ->
  let '(ok, s') := prepare_wire_confirm w f s in
  ok = true /\ conf_clean s' /\
  published_at s' w = Some (hash_resolved_inputs w rows (cfg_slot_count (s_cfg s))).
Proof.
  intros (H1 & H2 & H3 & H4) Hc Hr. unfold prepare_wire_confirm. rewrite Hr.
  set (h := hash_resolved_inputs w rows (cfg_slot_count (s_cfg s))). cbn [session_now].
  set (s1 := on_confirm _ s). assert (keeps s s1) as Hk by by apply keeps_confirm.
  assert (conf_clean s1 /\ published_at s1 w = Some h) as [Hcl Hp].
  { pose proof (hist_range w). unfold conf_clean, published_at, s1. simpl. rewrite !zlen_wr.
    split; [done|]. rewrite !rd_wr_eq by lia. by rewrite Z.eqb_refl. }
  assert (confirm_conflict s1 w h = None) as ->.
  { change h with (hash_resolved_inputs w rows (cfg_slot_count (s_cfg s1))). apply no_conflict.
    - by eapply consistent_keeps.
    - by rewrite (collect_keeps _ _ _ Hk). }
  assert (forall s2, s_confirm s2 = s_confirm s1 -> conf_clean s2 /\ published_at s2 w = Some h) as Hs.
  { intros s2 E. unfold conf_clean, published_at in *. by rewrite E. }
  destruct (_ || _); simpl.
  - match goal with |- context [send_input_confirm_tick w h ?s2] =>
      destruct (confirm_tick_fields w h s2) as (E1 & E2 & E3 & E4); destruct (Hs s2 eq_refl) as [A B] end.
    split; [done|]. unfold conf_clean, published_at in *. by rewrite E1, E2, E3, E4.
  - split; [done|]. by apply Hs.
Qed.

Lemma clean_prepare w f s : conf_clean s -> consistent s -> conf_clean (snd (prepare_wire_confirm w f s)).
Proof.
  intros Hcl Hc. destruct (collect_wire_inputs s w) as [rows|] eqn:E.
  - pose proof (prepare_spec w f s rows Hcl Hc E) as H. destruct (prepare_wire_confirm w f s). apply H.
  - unfold prepare_wire_confirm. by rewrite E.
Qed.

Lemma clean_refresh p w s : conf_clean s -> consistent s -> conf_clean (refresh_confirm_window p w s).
Proof.
  intros Hcl Hc. unfold refresh_confirm_window. cbn [session_now].
  match goal with |- context [for_range ?a ?b ?f ?s1] =>
    generalize b as hi; generalize a as lo; set (s0 := s1); set (g := f); intros lo hi end.
  assert (keeps s s0) as H0 by apply quiet_keeps, quiet_now.
  assert (conf_clean s0) as Hcl0 by done. 
  destruct (Z.le_gt_cases lo hi); [|unfold for_range; by rewrite seqZ_nil by lia].
  apply (for_range_ind (fun _ t => keeps s t /\ conf_clean t)); [done|done|].
  intros i t _ [Ht Hct]. unfold g, refresh_confirm_tick. destruct (published_at t i) as [h|] eqn:Ep.
  - destruct (resend_due _ _ _); [|done]. split; [etrans; [exact Ht|apply keeps_confirm_tick]|].
    destruct (confirm_tick_fields i h t) as (E1 & E2 & E3 & E4).
    unfold conf_clean. by rewrite E1, E2, E3, E4.
  - split; [etrans; [exact Ht|apply keeps_prepare]|].
    apply clean_prepare; [done|by eapply consistent_keeps].
Qed.

Lemma admit_keeps_row w s t : zlen (s_local_ring s) = RNET_HISTORY_LENGTH -> 0 <= t ->
  0 <= w -> Z.abs (t - w) < RNET_HISTORY_LENGTH -> nz (s_is_observer s) = false ->
  is_Some (rnet_ring_get (s_local_ring s) t) ->
  is_Some (rnet_ring_get (s_local_ring (snd (admit_sample w s))) t).
Proof.
  intros Hl Ht Hw Hd Ho Hrow. destruct (admit_sample w s) as [x s1] eqn:Es. simpl.
  destruct (admit_sample_spec _ _ _ _ Es) as (r & Hk & Hr). rewrite (k_local _ _ Hk). simpl.
  destruct (Hr Ho) as [[_ ->]|(Hn & -> & Htk & Hv)]; [done|].
  destruct (Z.eq_dec t w) as [->|Hne]; [rewrite Hn in Hrow; by destruct Hrow|].
  rewrite ring_get_store_ne; [done|done|lia|lia|done|lia|by rewrite Htk].
Qed.

(** With its own seat occupied, the rows of [try_admit] are the rows it
    confirms. *)
Lemma admit_rows_collect s y t : rnet_config_slot_occupied (s_cfg s) (cfg_local_slot (s_cfg s)) = true ->
  rnet_ring_get (s_local_ring s) t = Some y -> admit_rows s y t = collect_wire_inputs s t.
Proof.
  intros Hocc Hy. unfold admit_rows, collect_wire_inputs.
  assert (forall slot, admit_slot s y t slot = collect_slot s t slot) as E.
  { intros slot. unfold admit_slot, collect_slot. destruct (Z.eqb_spec slot (cfg_local_slot (s_cfg s))) as [->|].
    - rewrite Hocc, Hy. done.
    - destruct (rnet_config_slot_occupied _ slot); [|done]. simpl. by destruct (rnet_ring_get _ _). }
  induction (seqZ _ _) as [|i l IH]; [done|]. simpl. by rewrite E, IH.
Qed.

Lemma admit_confirm_complete rows t s : conf_clean s -> consistent s ->
  collect_wire_inputs s t = Some rows ->
  (forall slot, 0 <= slot < cfg_slot_count (s_cfg s) -> remote_seat s slot = true ->
     is_Some (confirmed_at s slot t)) ->
  fst (admit_confirm rows t s) = true.
Proof.
  intros Hcl Hc Hr Hall. unfold admit_confirm.
  pose proof (prepare_spec t false s rows Hcl Hc Hr) as Hp. pose proof (keeps_prepare t false s) as Hk.
  destruct (prepare_wire_confirm t false s) as [ok s1]. simpl in Hk. destruct Hp as (-> & Hcl1 & Hpub).
  destruct (Hcl1) as (_ & _ & _ & ->). simpl.
  assert (rd 0 (cn_published_hash (s_confirm s1)) (hist t) =
          hash_resolved_inputs t rows (cfg_slot_count (s_cfg s))) as E.
  { unfold published_at in Hpub. destruct (_ && _); by simplify_eq. }
  rewrite E, Z.eqb_refl. simpl.
  assert (wire_confirmations_agree s1 t = true) as ->; [|done].
  unfold wire_confirmations_agree. rewrite Hpub. apply all_upto_spec. rewrite (k_cfg _ _ Hk).
  intros slot Hslot. rewrite (remote_seat_keeps _ _ _ Hk). destruct (remote_seat s slot) eqn:Er; [|done].
  apply bool_decide_eq_true. rewrite (confirmed_keeps _ _ _ _ Hk).
  destruct (Hall slot Hslot Er) as [h Hh]. rewrite Hh. f_equal. by eapply Hc.
Qed.

Lemma clean_sample w s x s1 : conf_clean s -> admit_sample w s = (x, s1) -> conf_clean s1.
Proof.
  unfold admit_sample. intros Hcl. destruct (nz _); [intros [= _ <-]; done|].
  destruct (rnet_ring_get _ _) as [y|]; simpl; intros [= _ <-]; unfold conf_clean;
    by rewrite (quiet_confirm _ _ (quiet_send_input_bundle _)).
Qed.

Lemma collect_rows s t y : rnet_config_slot_occupied (s_cfg s) (cfg_local_slot (s_cfg s)) = true ->
  rnet_ring_get (s_local_ring s) t = Some y ->
  (forall slot, 0 <= slot < cfg_slot_count (s_cfg s) -> remote_seat s slot = true ->
     is_Some (rnet_ring_get (remote_ring s slot) t)) ->
  is_Some (collect_wire_inputs s t).
Proof.
  intros Hocc Hy Hall. apply mapM_is_Some_2, Forall_forall. intros slot Hin%elem_of_seqZ.
  unfold compose, collect_slot. destruct (rnet_config_slot_occupied (s_cfg s) slot) eqn:Eo; simpl; [|by eexists].
  destruct (Z.eqb_spec slot (cfg_local_slot (s_cfg s))) as [->|Hne]; [rewrite Hy; by eexists|].
  destruct (Hall slot ltac:(lia)) as [z ->]; [|by eexists].
  unfold remote_seat. rewrite Eo. by destruct (Z.eqb_spec slot (cfg_local_slot (s_cfg s))).
Qed.

(** C34. A tick is admitted as soon as it can be: if the session of a player
    (not an observer, with its own seat occupied) is running at tick T with
    nothing stalled, the delay D is shorter than the ring and T + D does not
    wrap, our own row for wire tick T is in the ring (it was sampled D ticks
    earlier), every occupied remote seat's row and confirmation for wire tick T
    have arrived, and the confirmations received agree with the inputs held,
    then [try_admit] returns 1 in this very call. The remote rows needed are
    those of wire tick T alone: README.md, docs/architecture.md and
    docs/protocol.md say that admission waits for the remote rows of wire tick
    T + D, which the code does not look at. *)
Theorem try_admit_complete s t :
  admit_guard s t = None -> conf_clean s -> nz (s_is_observer s) = false ->
  zlen (s_local_ring s) = RNET_HISTORY_LENGTH ->
  0 <= t -> 0 <= s_delay s < RNET_HISTORY_LENGTH -> in_u32 (t + s_delay s) ->
  rnet_config_slot_occupied (s_cfg s) (cfg_local_slot (s_cfg s)) = true ->
  is_Some (rnet_ring_get (s_local_ring s) t) ->
  (forall slot, 0 <= slot < cfg_slot_count (s_cfg s) -> remote_seat s slot = true ->
     is_Some (rnet_ring_get (remote_ring s slot) t) /\ is_Some (confirmed_at s slot t)) ->
  consistent (snd (admit_sample (rnet_wire_tick_from_sim t (s_delay s)) s)) ->
  fst (rnet_session_try_admit t s) = true.
Proof.
  intros Hg Hcl Ho Hl Ht Hd Hin Hocc Hrow Hall Hcons. unfold rnet_session_try_admit. rewrite Hg.
  set (w := rnet_wire_tick_from_sim t (s_delay s)) in *.
  assert (w = t + s_delay s) as Hw by by apply u32_id.
  assert (is_Some (rnet_ring_get (s_local_ring (snd (admit_sample w s))) t)) as [y Hy]
    by (apply admit_keeps_row; done || lia).
  destruct (admit_sample w s) as [x s1] eqn:Es. simpl in *.
  destruct (admit_sample_spec _ _ _ _ Es) as (r & Hk1 & _).
  assert (conf_clean s1) as Hcl1 by (eapply clean_sample; eauto).
  pose proof (keeps_refresh t w s1) as Hk2. pose proof (clean_refresh t w s1 Hcl1 Hcons) as Hcl2.
  set (s2 := refresh_confirm_window t w s1) in *. pose proof (consistent_keeps _ _ Hk2 Hcons) as Hc2.
  assert (nz (s_is_observer s2) = false) as -> by (rewrite (k_observer _ _ Hk2), (k_observer _ _ Hk1); exact Ho).
  assert (rnet_ring_get (s_local_ring s2) t = Some y) as Hy2 by (rewrite (k_local _ _ Hk2); done).
  rewrite Hy2.
  assert (s_cfg s2 = s_cfg s) as Ecfg by (rewrite (k_cfg _ _ Hk2); apply (k_cfg _ _ Hk1)).
  assert (forall slot, remote_seat s2 slot = remote_seat s slot /\ remote_ring s2 slot = remote_ring s slot /\
                       confirmed_at s2 slot t = confirmed_at s slot t) as Esame.
  { intros slot. split_and!.
    - rewrite (remote_seat_keeps _ _ _ Hk2). apply (remote_seat_keeps _ _ _ Hk1).
    - rewrite (remote_ring_keeps _ _ _ Hk2). apply (remote_ring_keeps _ _ _ Hk1).
    - rewrite (confirmed_keeps _ _ _ _ Hk2). apply (confirmed_keeps _ _ _ _ Hk1). }
  assert (remotes_ready_for_play_wire s2 t = true) as ->.
  { apply all_upto_spec. rewrite Ecfg. intros slot Hslot. destruct (Esame slot) as (-> & -> & _).
    destruct (remote_seat s slot) eqn:Er; [|done]. apply bool_decide_eq_true. by apply Hall. }
  simpl. rewrite admit_rows_collect by (rewrite ?Ecfg; done).
  destruct (collect_rows s2 t y) as [rows Hrows]; [by rewrite Ecfg|done|..].
  { rewrite Ecfg. intros slot Hslot Hr. destruct (Esame slot) as (E1 & E2 & _). rewrite E2. rewrite E1 in Hr.
    by apply Hall. }
  rewrite Hrows. apply admit_confirm_complete; [done..|].
  rewrite Ecfg. intros slot Hslot Hr. destruct (Esame slot) as (E1 & _ & ->). rewrite E1 in Hr. by apply Hall.
Qed.

Lemma rd_default_all {A} (p : A -> bool) d L i : p d = true -> forallb p L = true -> p (rd d L i) = true.
Proof.
  intros Hd HL. unfold rd. destruct (nth_in_or_default (Z.to_nat i) L d) as [Hin| ->]; [|done].
  rewrite forallb_forall in HL. by apply HL.
Qed.

Lemma demo_consistent : consistent (snd (admit_sample 2 demo_agreed)).
Proof.
  intros slot w h rows Hs Hr Hc Hrows.
  assert (slot = 1) as ->.
  { destruct (Z.eq_dec slot 0) as [->|]; [vm_compute in Hr; done|]. change (0 <= slot < 2) in Hs. lia. }
  destruct (Z.eq_dec w 0) as [->|Hw].
  - vm_compute in Hc, Hrows. simplify_eq. vm_compute. reflexivity.
  - exfalso. unfold confirmed_at in Hc.
    assert (rd 0 (rd [] (cn_peer_tick (s_confirm (snd (admit_sample 2 demo_agreed)))) (hist w)) 1 = 0) as E.
    { apply Z.eqb_eq. apply (rd_default_all (fun l => rd 0 l 1 =? 0)); vm_compute; reflexivity. }
    rewrite E in Hc. destruct (Z.eqb_spec 0 w); [lia|]. by rewrite andb_false_r in Hc.
Qed.

(** Admitted with D = 2 and no remote row at wire tick 2. *)
Lemma try_admit_complete_witness :
  admit_guard demo_agreed 0 = None /\ s_delay demo_agreed = 2 /\ rnet_ring_get (remote_ring demo_agreed 1) 2 = None /\
  fst (rnet_session_try_admit 0 demo_agreed) = true.
Proof.
  split; [vm_compute; reflexivity|]. split; [vm_compute; reflexivity|]. split; [vm_compute; reflexivity|].
  apply (try_admit_complete demo_agreed 0).
  - vm_compute. reflexivity.
  - vm_compute. auto.
  - vm_compute. reflexivity.
  - vm_compute. reflexivity.
  - lia.
  - vm_compute. split; [discriminate|reflexivity].
  - vm_compute. split; [discriminate|reflexivity].
  - vm_compute. reflexivity.
  - vm_compute. eauto.
  - intros slot Hs Hr. destruct (Z.eq_dec slot 1) as [->|].
    + split; vm_compute; eauto.
    + assert (slot = 0) as -> by (change (0 <= slot < 2) in Hs; lia). vm_compute in Hr. discriminate.
  - exact demo_consistent.
Defined.

(** ** Latching of remote rows *)

Lemma ring_get_tick r t x : rnet_ring_get r t = Some x -> is_tick x = t /\ x = rd zero_sample r (t mod RNET_HISTORY_LENGTH).
Proof.
  unfold rnet_ring_get. destruct (_ || _) eqn:E; [done|]. intros [= <-]. bool_prop. auto.
Qed.

Lemma advance_ack_spec n ring next ack : 0 <= next <= UINT32_MAX ->
  let a := advance_ack n ring next ack in
  (a = ack /\ (rnet_ring_get ring next = None \/ n = O)) \/
  (next <= a <= UINT32_MAX /\ (forall u, next <= u <= a -> is_Some (rnet_ring_get ring u)) /\
   (a = UINT32_MAX \/ rnet_ring_get ring (a + 1) = None \/ a = next + Z.of_nat n - 1)).
Proof.
  revert next ack. induction n as [|n IH]; intros next ack Hn; simpl; [auto|].
  destruct (rnet_ring_get ring next) as [x|] eqn:E; [|auto]. right.
  assert (forall u, next <= u <= next -> is_Some (rnet_ring_get ring u)) as Hone.
  { intros u Hu. replace u with next by lia. by rewrite E. }
  destruct (Z.eqb_spec next UINT32_MAX) as [->|Hmax]; [split_and!; auto; lia|].
  destruct (IH (next + 1) next ltac:(lia)) as [[-> Hend]|(Hr & Hall & Hend)].
  - split; [lia|]. split; [done|]. destruct Hend as [?| ->]; [auto|]. right; right; lia.
  - split; [lia|]. split.
    + intros u Hu. destruct (Z.eq_dec u next) as [->|]; [by rewrite E|apply Hall; lia].
    + destruct Hend as [?|[?|Hend]]; [auto..|right; right; lia].
Qed.

(** Consecutive rows of one ring number at most its length, so the loop's
    fuel never runs out: the acknowledgment is the end of the run of rows
    present after it. *)
Lemma advance_ack_run ring next ack : 0 <= next <= UINT32_MAX ->
  let a := advance_ack 129 ring next ack in
  (a = ack /\ rnet_ring_get ring next = None) \/
  (next <= a <= UINT32_MAX /\ (forall u, next <= u <= a -> is_Some (rnet_ring_get ring u)) /\
   (a = UINT32_MAX \/ rnet_ring_get ring (a + 1) = None)).
Proof.
  intros Hn a. destruct (advance_ack_spec 129 ring next ack Hn) as [[Ha Hend]|(Hr & Hall & Hend)].
  - left. destruct Hend; [auto|lia].
  - right. split; [done|]. split; [done|]. destruct Hend as [?|[?|Hend]]; [auto..|]. exfalso.
    destruct (Hall next ltac:(lia)) as [x Hx]. destruct (Hall (next + 128) ltac:(lia)) as [y Hy].
    apply ring_get_tick in Hx as [Hx Ex]. apply ring_get_tick in Hy as [Hy Ey].
    assert ((next + 128) mod RNET_HISTORY_LENGTH = next mod RNET_HISTORY_LENGTH) as E.
    { unfold RNET_HISTORY_LENGTH. replace (next + 128) with (next + 1 * 128) by lia. by rewrite Z.mod_add by lia. }
    rewrite E in Ey. subst y. rewrite <- Ex in Hy. lia.
Qed.

(** Arrays of a session: one ring and one acknowledgment per seat. *)
Definition rings_ok (s : RNetSession) : Prop :=
  zlen (s_remote_rings s) = RNET_MAX_SLOTS /\ zlen (s_remote_contiguous_ack s) = RNET_MAX_SLOTS /\
  (forall k, zlen (remote_ring s k) = RNET_HISTORY_LENGTH) /\
  (forall k, in_u32 (rd 0 (s_remote_contiguous_ack s) k)).

(** The two outcomes of a received frame. *)
Lemma store_remote_cases slot frame s :
  store_remote_frame slot frame s = s \/
  (slot < cfg_slot_count (s_cfg s) /\ slot <> cfg_local_slot (s_cfg s) /\
   rnet_ring_get (remote_ring s slot) (wf_tick frame) = None /\
   let ring := rnet_ring_store (remote_ring s slot) (sample_of_frame frame) in
   let s' := store_remote_frame slot frame s in
   s_remote_rings s' = wr (s_remote_rings s) slot ring /\ s_local_ring s' = s_local_ring s /\
   (s_remote_contiguous_ack s' =
      if 2 <? cfg_slot_count (s_cfg s) then
        let ack := rd 0 (s_remote_contiguous_ack s) slot in
        wr (s_remote_contiguous_ack s) slot (advance_ack 129 ring (u32 (ack + 1)) ack)
      else s_remote_contiguous_ack s)).
Proof.
  unfold store_remote_frame. destruct (_ || _) eqn:E; [auto|]. bool_prop.
  destruct (negb _); [auto|]. destruct (rnet_ring_get (remote_ring s slot) _) eqn:Eg; [auto|]. right.
  split; [done|]. split; [done|]. split; [done|].
  change (s_cfg (set_s_remote_rings _ s)) with (s_cfg s).
  destruct (2 <? cfg_slot_count (s_cfg s)); split_and!; reflexivity.
Qed.

(** Remote rows are latched, first come first kept. Whatever frame
    arrives for a seat: no other seat's ring and not our own ring change, our
    own seat is never written from the wire, a row already present for a tick
    within the ring's span keeps its contents, a frame accepted for a missing
    tick is then readable as sent, and in rooms of more than two seats the
    acknowledgment advertised for that seat only ever covers ticks whose rows
    are all present, ending where the next row is missing. *)
Theorem store_remote_frame_latches slot frame s :
  rings_ok s -> 0 <= slot < RNET_MAX_SLOTS -> 0 <= wf_tick frame ->
  let s' := store_remote_frame slot frame s in
  s_local_ring s' = s_local_ring s /\
  (forall k, 0 <= k -> k <> slot -> remote_ring s' k = remote_ring s k) /\
  (slot = cfg_local_slot (s_cfg s) -> s' = s) /\
  (forall u x, 0 <= u -> Z.abs (u - wf_tick frame) < RNET_HISTORY_LENGTH ->
     rnet_ring_get (remote_ring s slot) u = Some x -> rnet_ring_get (remote_ring s' slot) u = Some x) /\
  (s' <> s -> rnet_ring_get (remote_ring s' slot) (wf_tick frame) = Some (sample_of_frame frame)) /\
  (2 < cfg_slot_count (s_cfg s) -> s' <> s ->
     let next := u32 (rd 0 (s_remote_contiguous_ack s) slot + 1) in
     let ack' := rd 0 (s_remote_contiguous_ack s') slot in
     let get := rnet_ring_get (remote_ring s' slot) in
     (ack' = rd 0 (s_remote_contiguous_ack s) slot /\ get next = None) \/
     (next <= ack' <= UINT32_MAX /\ (forall u, next <= u <= ack' -> is_Some (get u)) /\
      (ack' = UINT32_MAX \/ get (ack' + 1) = None))).
Proof.
  intros (Hr & Ha & Hl & Hu) Hs Ht s'.
  destruct (store_remote_cases slot frame s) as [E|(Hc & Hne & Hg & Er & El & Ea)].
  { fold s' in E. rewrite E. split_and!; auto; congruence. }
  fold s' in Er, El, Ea. set (ring := rnet_ring_store (remote_ring s slot) (sample_of_frame frame)) in *.
  assert (remote_ring s' slot = ring) as Eslot.
  { unfold remote_ring. rewrite Er. apply rd_wr_eq. lia. }
  split; [done|]. split.
  { intros k Hk Hks. unfold remote_ring. rewrite Er. apply rd_wr_ne; lia. }
  split; [congruence|]. split.
  { intros u x Hpos Hd Hx. rewrite Eslot. unfold ring.
    rewrite ring_get_store_ne; simpl; [done|apply Hl|lia|done|done| |done]. intros ->. congruence. }
  split.
  { intros _. rewrite Eslot. apply (ring_get_store (remote_ring s slot) (sample_of_frame frame) (Hl slot)); [cbn; lia|exact Ht]. }
  intros H2 _. cbv zeta. rewrite Eslot, Ea. destruct (Z.ltb_spec 2 (cfg_slot_count (s_cfg s))); [|lia].
  cbv zeta. rewrite rd_wr_eq by lia. apply advance_ack_run. pose proof (u32_range (rd 0 (s_remote_contiguous_ack s) slot + 1)).
  ranges. lia.
Qed.

Lemma demo_rings_ok : rings_ok demo_running.
Proof.
  split; [reflexivity|]. split; [reflexivity|]. split.
  - intros k. unfold remote_ring. apply Z.eqb_eq.
    apply (rd_default_all (fun r => zlen r =? RNET_HISTORY_LENGTH)); vm_compute; reflexivity.
  - intros k. assert (forall x, (0 <=? x) && (x <? 4294967296) = true -> in_u32 x) as H.
    { intros x Hx. bool_prop. done. }
    apply H. apply (rd_default_all (fun x => (0 <=? x) && (x <? 4294967296))); vm_compute; reflexivity.
Qed.

(** A retransmission with other contents does not replace the row. *)
Lemma store_remote_frame_latches_witness :
  let s1 := store_remote_frame 1 (mkWireFrame 3 1 (padded 32 [5])) demo_running in
  rnet_ring_get (remote_ring s1 1) 3 = Some (sample_of_frame (mkWireFrame 3 1 (padded 32 [5]))) /\
  rnet_ring_get (remote_ring (store_remote_frame 1 (mkWireFrame 3 1 (padded 32 [9])) s1) 1) 3 =
    Some (sample_of_frame (mkWireFrame 3 1 (padded 32 [5]))).
Proof.
  split.
  - apply (store_remote_frame_latches 1 (mkWireFrame 3 1 (padded 32 [5])) demo_running).
    + exact demo_rings_ok.
    + unfold RNET_MAX_SLOTS. lia.
    + simpl. lia.
    + intros E. apply (f_equal (fun s => rnet_ring_get (remote_ring s 1) 3)) in E. vm_compute in E. discriminate.
  - vm_compute. reflexivity.
Defined.
