(* ===== verification/SessionStart.v ===== *)
(** * The session: start barrier, resync, bundles and startup profiles *)

From stdpp Require Import base list numbers list_numbers.
From S2P Require Import Prelude Protocol ProtocolProofs Config Rings CtrlQueue Session SessionState SessionMain SessionProofs.

(** ** Generations *)

Definition generational (ty : Z) : bool :=
  (ty =? RNET_PKT_INPUT) || (ty =? RNET_PKT_INPUT_CONFIRM) || rnet_proto_is_rb_control ty.

(** An input, confirmation or rollback-control packet of another generation
    has no effect at all. *)
Lemma other_epoch_ignored pkt s : generational (p_type pkt) = true ->
  p_input_epoch pkt <> s_input_epoch s -> handle_decoded pkt s = s.
Proof.
  intros Hg Hne. assert ((p_input_epoch pkt =? s_input_epoch s) = false) as E by by apply Z.eqb_neq.
  unfold handle_decoded. rewrite E. simpl. rewrite andb_true_r.
  unfold generational in Hg. destruct (rnet_proto_is_rb_control (p_type pkt)); [done|].
  destruct (negb _); [done|]. rewrite orb_false_r in Hg.
  apply orb_prop in Hg as [Hg|Hg]; apply Z.eqb_eq in Hg; rewrite Hg.
  - unfold on_input. by rewrite E.
  - unfold on_input_confirm. by rewrite E.
Qed.

(** The control queues of a session are empty. *)
Definition queues_empty (c : RNetCtl) : Prop :=
  ctrl_list (ct_sync_q c) = [] /\ ctrl_list (ct_seal_q c) = [] /\ ctrl_list (ct_base_q c) = [] /\
  ctrl_list (ct_post_q c) = [] /\ ctrl_list (ct_resolved_q c) = [] /\
  q_list RNET_RB_FC_QUEUE zero_fc (ct_fc_q c) = [].

(** A hard resync starts a clean generation: all rings, published hashes,
    peer confirmations and control queues are empty, the desync latch is
    cleared and the clock is at tick 0; and every INPUT, INPUT_CONFIRM and
    rollback-control packet sent under the previous generation is ignored
    from then on, so nothing in flight can enter the new era. *)
Theorem hard_resync_isolates s pkt :
  in_u16 (s_input_epoch s) -> p_input_epoch pkt = s_input_epoch s ->
  generational (p_type pkt) = true ->
  let s' := rnet_session_hard_resync s in
  handle_decoded pkt s' = s' /\ s_sim_tick s' = 0 /\ cn_input_desync (s_confirm s') = 0 /\
  (forall t, rnet_ring_get (s_local_ring s') t = None /\ published_at s' t = None) /\
  (forall slot t, rnet_ring_get (remote_ring s' slot) t = None /\ confirmed_at s' slot t = None) /\
  queues_empty (s_ctl s').
Proof.
  intros He Hp Hg s'. split_and!.
  - apply other_epoch_ignored; [done|]. rewrite Hp. unfold s'. simpl. unfold in_u16, u16 in *.
    intros E. destruct (Z.eq_dec (s_input_epoch s) 65535) as [E'|]; [rewrite E' in E; vm_compute in E; done|].
    rewrite Z.mod_small in E; lia.
  - done.
  - done.
  - intros t. split; [apply ring_get_clear|]. unfold published_at.
    change (cn_published_valid (s_confirm s')) with (replicate 128 0). by rewrite rd_replicate.
  - intros slot t. split.
    + unfold remote_ring. change (s_remote_rings s') with (replicate 8 rnet_ring_clear).
      rewrite rd_replicate. apply ring_get_clear.
    + unfold confirmed_at. change (cn_peer_valid (s_confirm s')) with (replicate 128 (replicate 8 0)).
      assert (rd 0 (rd [] (replicate 128 (replicate 8 0)) (hist t)) slot = 0) as E.
      { apply Z.eqb_eq. pose proof (rd_default_all (fun l => forallb (Z.eqb 0) l) [] (replicate 128 (replicate 8 0)) (hist t)
          eq_refl ltac:(vm_compute; reflexivity)) as H.
        rewrite Z.eqb_sym. by apply (rd_default_all (Z.eqb 0)). }
      by rewrite E.
  - by repeat split.
Qed.

Lemma hard_resync_isolates_witness :
  handle_decoded demo_input (rnet_session_hard_resync demo_agreed) = rnet_session_hard_resync demo_agreed /\
  handle_decoded demo_input demo_running <> demo_running.
Proof.
  split.
  - apply (hard_resync_isolates demo_agreed demo_input);
      [split; [discriminate|reflexivity]|reflexivity|reflexivity].
  - intros E. apply (f_equal (fun s => rnet_ring_get (remote_ring s 1) 0)) in E. vm_compute in E. discriminate.
Defined.

(** ** The START barrier *)

Lemma scan_ready_true cfg slots ready : NoDup slots -> Forall (fun i => 0 <= i) slots ->
  snd (scan_ready cfg slots ready) = true <->
  forall i, i ∈ slots -> rnet_config_slot_occupied cfg i = true -> rd 0 ready i <> 0.
Proof.
  intros Hnd Hpos. revert ready. induction slots as [|i l IH]; intros ready; simpl.
  { split; [by intros _ i Hi%elem_of_nil|done]. }
  apply NoDup_cons in Hnd as [Hni Hnd]. apply Forall_cons in Hpos as [Hi Hpos].
  destruct (rnet_config_slot_occupied cfg i) eqn:Eo; simpl.
  - destruct (Z.eqb_spec (rd 0 ready i) 0) as [E|E]; simpl.
    + split; [done|]. intros H. exfalso. by apply (H i (list_elem_of_here _ _)).
    + rewrite IH by done. split.
      * intros H j [->|Hj]%elem_of_cons Hocc; [done|by apply H].
      * intros H j Hj. apply H. by right.
  - rewrite IH by done. assert (forall j, j ∈ l -> rd 0 (wr ready i 1) j = rd 0 ready j) as Hw.
    { intros j Hj. rewrite Forall_forall in Hpos. specialize (Hpos j Hj).
      apply rd_wr_ne; [done|done|]. intros ->. done. }
    split.
    + intros H j [->|Hj]%elem_of_cons Hocc; [congruence|]. rewrite <- Hw by done. by apply H.
    + intros H j Hj Hocc. rewrite Hw by done. apply H; [by right|done].
Qed.

(** Every occupied seat but our own has announced READY. *)
Definition all_peers_ready (s : RNetSession) : Prop :=
  forall slot, 0 <= slot < cfg_slot_count (s_cfg s) -> remote_seat s slot = true ->
    rd 0 (s_peer_ready s) slot <> 0.

Lemma bootstrap_ready_spec now s : nz (s_is_observer s) = false -> zlen (s_peer_ready s) = RNET_MAX_SLOTS ->
  0 <= cfg_local_slot (s_cfg s) < RNET_MAX_SLOTS ->
  (snd (bootstrap_ready now s) = true <-> all_peers_ready s).
Proof.
  intros Ho Hl Hs. unfold bootstrap_ready.
  set (s1 := if s_local_ready s =? 0 then set_s_local_ready 1 s else s).
  set (s2 := if 100 <=? u64 (now - s_last_ready_ms s1) then _ else s1).
  assert (s_cfg s2 = s_cfg s /\ s_peer_ready s2 = s_peer_ready s /\ s_is_observer s2 = s_is_observer s) as (E1 & E2 & E3).
  { assert (s_cfg s1 = s_cfg s /\ s_peer_ready s1 = s_peer_ready s /\ s_is_observer s1 = s_is_observer s) as (A1 & A2 & A3)
      by (unfold s1; by destruct (_ =? _)).
    unfold s2. destruct (_ <=? _); [|done].
    match goal with |- context [send_raw ?e s1] => pose proof (quiet_send_raw e s1) as Hq end.
    quiet_fields Hq. destruct s1. simpl in *. by subst. }
  unfold nz in Ho. rewrite E3. apply negb_false_iff in Ho. rewrite Ho.
  change (s_cfg (set_s_peer_ready _ s2)) with (s_cfg s2).
  change (s_peer_ready (set_s_peer_ready ?v s2)) with v. rewrite E1, E2.
  pose proof (scan_ready_true (s_cfg s) (seqZ 0 (cfg_slot_count (s_cfg s)))
    (wr (s_peer_ready s) (cfg_local_slot (s_cfg s)) 1) (NoDup_seqZ _ _)) as Hsc.
  destruct (scan_ready _ _ _) as [ready all]. simpl in *. rewrite Hsc.
  2:{ apply Forall_forall. intros i Hi%elem_of_seqZ. lia. }
  unfold all_peers_ready, remote_seat. split.
  - intros H slot Hslot Hr. bool_prop. specialize (H slot). rewrite rd_wr_ne in H by lia.
    apply H; [apply elem_of_seqZ; lia|done].
  - intros H i Hi%elem_of_seqZ Hocc. destruct (Z.eq_dec i (cfg_local_slot (s_cfg s))) as [->|Hne].
    + rewrite rd_wr_eq by lia. done.
    + rewrite rd_wr_ne by lia. apply H; [lia|]. rewrite Hocc. by apply Z.eqb_neq in Hne as ->.
Qed.

Lemma seed_prefix_rows s : zlen (s_local_ring s) = RNET_HISTORY_LENGTH -> 0 <= s_delay s <= RNET_HISTORY_LENGTH ->
  forall t, 0 <= t < s_delay s -> is_Some (rnet_ring_get (s_local_ring (seed_delay_prefix s)) t).
Proof.
  intros Hl Hd. unfold seed_delay_prefix.
  match goal with |- context [for_upto _ ?f s] => set (g := f) end.
  apply (for_upto_ind (fun i u => zlen (s_local_ring u) = RNET_HISTORY_LENGTH /\
    forall t, 0 <= t < i -> is_Some (rnet_ring_get (s_local_ring u) t))
    (s_delay s) g s (proj1 Hd)); [split; [done|]; lia|].
  intros i u Hi [Hu Hrows]. unfold g. destruct (rnet_ring_get (s_local_ring u) i) as [x|] eqn:E.
  - split; [done|]. intros t Ht. destruct (Z.eq_dec t i) as [->|]; [by rewrite E|apply Hrows; lia].
  - change (s_local_ring (set_s_local_ring ?r u)) with r. split.
    + unfold rnet_ring_store. simpl. by rewrite zlen_wr.
    + intros t Ht. destruct (Z.eq_dec t i) as [->|].
      * rewrite (ring_get_store _ (neutral_sample i)); simpl; [done|done|lia|lia].
      * rewrite ring_get_store_ne; simpl; try lia; try done. apply Hrows. lia.
Qed.

(** [seed_delay_prefix] only writes the local ring. *)
Lemma seed_prefix_ring s : exists r, seed_delay_prefix s = set_s_local_ring r s.
Proof.
  unfold seed_delay_prefix.
  match goal with |- context [for_upto ?n ?f s] => set (g := f); generalize n as m end. intros m.
  destruct (Z.le_gt_cases 0 m).
  - apply (for_upto_ind (fun _ u => exists r, u = set_s_local_ring r s)); [done|by exists (s_local_ring s); destruct s|].
    intros i u _ [r ->]. unfold g. destruct (rnet_ring_get _ _); eauto.
  - exists (s_local_ring s). unfold for_upto. rewrite seqZ_nil by lia. by destruct s.
Qed.

Lemma hello_stamp_comm ms io d a b c s :
  set_s_last_hello_ms ms (set_s_io io (set_s_diag d (set_s_last_input_ms a (set_s_last_input_tip b
    (set_s_last_input_tip_valid c s))))) =
  set_s_io io (set_s_diag d (set_s_last_input_ms a (set_s_last_input_tip b
    (set_s_last_input_tip_valid c (set_s_last_hello_ms ms s))))).
Proof. destruct s. reflexivity. Qed.

Lemma quiet_hello_stamp ms s u : quiet s u -> quiet (set_s_last_hello_ms ms s) (set_s_last_hello_ms ms u).
Proof.
  intros [(io & d & a & b & c & E) Hp Hd Hs]. constructor; [|exact Hp|exact Hd|exact Hs].
  exists io, d, a, b, c. rewrite E. apply hello_stamp_comm.
Qed.

Lemma bootstrap_hello_quiet now s : exists ms, quiet (set_s_last_hello_ms ms s) (bootstrap_hello now s).
Proof.
  unfold bootstrap_hello. destruct (bool_decide _); [destruct (_ <=? _)|].
  2,3: exists (s_last_hello_ms s); by destruct s.
  exists now. apply quiet_hello_stamp, quiet_send_raw.
Qed.

(** What the READY step keeps. *)
Lemma bootstrap_ready_keeps now s : let s' := fst (bootstrap_ready now s) in
  s_phase s' = s_phase s /\ s_is_sim_authority s' = s_is_sim_authority s /\
  s_start_sent s' = s_start_sent s /\ s_local_ring s' = s_local_ring s /\ s_delay s' = s_delay s /\
  s_cfg s' = s_cfg s.
Proof.
  unfold bootstrap_ready.
  set (s1 := if s_local_ready s =? 0 then _ else s).
  assert (s_phase s1 = s_phase s /\ s_is_sim_authority s1 = s_is_sim_authority s /\
    s_start_sent s1 = s_start_sent s /\ s_local_ring s1 = s_local_ring s /\ s_delay s1 = s_delay s /\
    s_cfg s1 = s_cfg s) as A by (unfold s1; by destruct (_ =? _)).
  set (s2 := if _ <=? _ then _ else s1).
  assert (s_phase s2 = s_phase s /\ s_is_sim_authority s2 = s_is_sim_authority s /\
    s_start_sent s2 = s_start_sent s /\ s_local_ring s2 = s_local_ring s /\ s_delay s2 = s_delay s /\
    s_cfg s2 = s_cfg s) as B.
  { unfold s2. destruct (_ <=? _); [|done].
    match goal with |- context [send_raw ?e s1] => pose proof (quiet_send_raw e s1) as Hq end.
    quiet_fields Hq. exact A. }
  destruct (s_is_observer s2 =? 0).
  - destruct (scan_ready _ _ _) as [ready all]. exact B.
  - destruct (scan_ready _ _ _) as [ready all]. exact B.
Qed.

(** An untagged packet leaves as it was encoded. *)
Lemma send_raw_plain magic ty sid body s : 0 <= ty < 65536 -> rnet_proto_is_rb_control ty = false ->
  send_raw (Ret (packet_bytes magic ty sid body)) s = transport_send (packet_bytes magic ty sid body) s.
Proof.
  intros Hty Hrb. unfold send_raw. rewrite zlen_packet_bytes. pose proof (zlen_nonneg body).
  assert (Z.lor (rd 0 (packet_bytes magic ty sid body) 4)
            (Z.shiftl (rd 0 (packet_bytes magic ty sid body) 5) 8) = ty) as ->.
  { change (rd 0 (packet_bytes magic ty sid body) 4) with (Z.land ty 255).
    change (rd 0 (packet_bytes magic ty sid body) 5) with (Z.land (Z.shiftr ty 8) 255).
    transitivity (le_val (le_bytes 2 ty)); [cbn [le_val le_bytes]; by rewrite Z.shiftl_0_l, Z.lor_0_r|].
    rewrite le_val_bytes by lia. by apply Z.mod_small. }
  rewrite Hrb, andb_false_r. by destruct (Z.leb_spec (14 + zlen body) 0); [lia|].
Qed.

Lemma send_start_plain s : exists buf,
  rnet_proto_encode_start RNET_MAX_PACKET (cfg_protocol_magic (s_cfg s)) (cfg_session_id (s_cfg s)) 0 = Ret buf
  /\ send_start s = transport_send buf s.
Proof.
  pose proof (encode_msg_bytes (MStart 0) (cfg_protocol_magic (s_cfg s)) (cfg_session_id (s_cfg s))
    RNET_MAX_PACKET ltac:(done) ltac:(split; done)) as E. cbn [encode_msg] in E.
  eexists. split; [exact E|]. unfold send_start. rewrite E. by apply send_raw_plain.
Qed.

(** The START barrier. While linking, one call of [maybe_bootstrap]
    starts the match if and only if this session is the simulation authority,
    has not started it before, and every occupied remote seat has announced
    READY. When it starts, START has been sent, the clock is at tick 0, and
    the neutral rows of the first D ticks are in the local ring; otherwise the
    phase is unchanged. *)
Theorem bootstrap_barrier s :
  s_phase s = PHASE_LINKING \/ s_phase s = PHASE_READY ->
  nz (s_is_observer s) = false -> zlen (s_peer_ready s) = RNET_MAX_SLOTS ->
  0 <= cfg_local_slot (s_cfg s) < RNET_MAX_SLOTS ->
  zlen (s_local_ring s) = RNET_HISTORY_LENGTH -> 0 <= s_delay s <= RNET_HISTORY_LENGTH ->
  let s' := maybe_bootstrap s in
  let starts := nz (s_is_sim_authority s) = true /\ s_start_sent s = 0 /\ all_peers_ready s in
  (running s' = true <-> starts) /\
  (starts -> s_sim_tick s' = 0 /\
     (exists buf, rnet_proto_encode_start RNET_MAX_PACKET (cfg_protocol_magic (s_cfg s))
                    (cfg_session_id (s_cfg s)) 0 = Ret buf /\ buf ∈ io_sent (s_io s')) /\
     forall t, 0 <= t < s_delay s -> is_Some (rnet_ring_get (s_local_ring s') t)) /\
  (~ starts -> s_phase s' = s_phase s).
Proof.
  intros Hph Ho Hl Hs Hr Hd s' starts. unfold s', maybe_bootstrap. cbn [session_now].
  set (s0 := on_io _ s). destruct (bootstrap_hello_quiet (hd 0 (io_clock (s_io s))) s0) as [ms Hq].
  set (s1 := bootstrap_hello _ s0) in *. clearbody s1. quiet_fields Hq.
  assert (bool_decide (s_phase s = PHASE_READY) || bool_decide (s_phase s = PHASE_LINKING) = true) as ->
    by (destruct Hph as [-> | ->]; done).
  match goal with |- context [bootstrap_ready ?n ?u] => set (s2 := u); set (now := n) end.
  pose proof (bootstrap_ready_spec now s2 Ho Hl Hs) as Hspec.
  destruct (bootstrap_ready_keeps now s2) as (Kp & Ka & Kst & Klr & Kd & Kc).
  assert (all_peers_ready s2 <-> all_peers_ready s) as Hap by done. rewrite Hap in Hspec.
  destruct (bootstrap_ready now s2) as [s3 all]. cbn [fst snd] in *. rewrite Ka, Kst.
  change (s_is_sim_authority s2) with (s_is_sim_authority s). change (s_start_sent s2) with (s_start_sent s).
  destruct (all && nz (s_is_sim_authority s) && (s_start_sent s =? 0)) eqn:E.
  - bool_prop. assert starts as Hst by (unfold starts; rewrite <- Hspec; auto). 
    destruct (send_start_plain s3) as (buf & Eb & Es). rewrite Kc in Eb.
    set (s4 := set_s_phase _ _). destruct (seed_prefix_ring s4) as [r Er].
    pose proof (quiet_send_input_bundle (seed_delay_prefix s4)) as Hq2. pose proof (quiet_sent _ _ Hq2) as Hpre.
    assert (s_local_ring s4 = s_local_ring s /\ s_delay s4 = s_delay s) as [L1 L2].
    { unfold s4. rewrite Es. simpl. by rewrite Klr, Kd. }
    pose proof (seed_prefix_rows s4 ltac:(by rewrite L1) ltac:(by rewrite L2)) as Hrows. rewrite L2 in Hrows.
    assert (buf ∈ io_sent (s_io s4)) as Hb
      by (unfold s4; rewrite Es; apply elem_of_app; right; by apply list_elem_of_singleton).
    assert (s_phase s4 = PHASE_RUNNING /\ s_sim_tick s4 = 0) as [L3 L4] by done.
    clearbody s4. rewrite Er in Hpre, Hrows, Hq2 |- *.
    destruct (quiet_eq _ _ Hq2) as (io' & d' & a & b & c & Es'). unfold running.
    split; [|split]; [..|done].
    + rewrite Es'. simpl. by rewrite L3.
    + intros _. split; [by rewrite Es'|]. split; [|by rewrite Es'].
      exists buf. split; [done|]. destruct Hpre as [k ->]. apply elem_of_app. by left.
  - assert (~ starts) as Hst.
    { intros (A & B & C). apply Hspec in C. by rewrite A, B, C in E. }
    split; [|split].
    + unfold running. rewrite Kp. destruct Hph as [Hph|Hph]; simpl; rewrite Hph; split; done.
    + done.
    + done.
Qed.

Lemma bootstrap_barrier_witness :
  let s := handle_decoded (demo_packet RNET_PKT_READY 1) (snd (rnet_session_start_lan true demo_base)) in
  running (maybe_bootstrap s) = true /\
  running (maybe_bootstrap (snd (rnet_session_start_lan true demo_base))) = false.
Proof.
  cbv zeta. split.
  - apply (bootstrap_barrier (handle_decoded (demo_packet RNET_PKT_READY 1)
             (snd (rnet_session_start_lan true demo_base)))).
    + left. reflexivity.
    + reflexivity.
    + reflexivity.
    + split; [discriminate|reflexivity].
    + reflexivity.
    + split; discriminate.
    + split; [reflexivity|]. split; [reflexivity|]. intros slot Hslot Hr.
      destruct (Z.eq_dec slot 1) as [->|]; [vm_compute; discriminate|].
      assert (slot = 0) as -> by (change (0 <= slot < 2) in Hslot; lia). vm_compute in Hr. discriminate.
  - vm_compute. reflexivity.
Defined.
