(* ===== verification/StateProofs.v ===== *)
(** * The session: properties of the blob transfer and the hash probe

    The receive side reassembles what the send side cuts up, whatever the
    order and duplication of the chunks; the send side reports completion
    exactly when every expected receiver has acknowledged the whole blob. *)

From stdpp Require Import base list numbers list_numbers.
From S2P Require Import Prelude Protocol ProtocolProofs Config Rings CtrlQueue Session SessionState SessionMain SessionProofs SessionStart.

#[local] Abbreviation CM := RNET_STATE_CHUNK_MAX.

(** ** Buffers *)

(** Chunk [i] of a blob. *)
Definition chunk_of (data : list Z) (i : Z) : list Z :=
  take (Z.to_nat CM) (drop (Z.to_nat (i * CM)) data).

(** Number of chunks of a blob of [n] bytes. *)
Definition n_chunks (n : Z) : Z := (n + CM - 1) / CM.

Lemma rd_lookup {A} (d : A) l i x : l !! Z.to_nat i = Some x -> rd d l i = x.
Proof. intros H. unfold rd. by rewrite nth_lookup, H. Qed.

Lemma zlen_blit buf off c : 0 <= off -> off + zlen c <= zlen buf -> zlen (blit buf off c) = zlen buf.
Proof.
  unfold blit, zlen. intros. rewrite !length_app, length_take, length_drop. lia.
Qed.

(** What a write into the buffer leaves inside and outside its range. *)
Lemma rd_blit buf off c k : 0 <= off -> off + zlen c <= zlen buf -> 0 <= k < zlen buf ->
  rd 0 (blit buf off c) k = if (off <=? k) && (k <? off + zlen c) then rd 0 c (k - off) else rd 0 buf k.
Proof.
  unfold blit, zlen, rd. intros Ho Hl Hk. rewrite !nth_lookup.
  destruct (Z.leb_spec off k); simpl.
  - rewrite lookup_app_r by (rewrite length_take; lia). rewrite length_take, Nat.min_l by lia.
    destruct (Z.ltb_spec k (off + Z.of_nat (length c))).
    + rewrite lookup_app_l by lia. do 2 f_equal. lia.
    + rewrite lookup_app_r by lia. rewrite lookup_drop. do 2 f_equal. lia.
  - rewrite lookup_app_l by (rewrite length_take; lia). by rewrite lookup_take_lt by lia.
Qed.

Lemma zlen_chunk data i : 0 <= i -> zlen (chunk_of data i) = Z.max 0 (Z.min CM (zlen data - i * CM)).
Proof. unfold chunk_of, zlen. intros. rewrite length_take, length_drop. lia. Qed.

Lemma rd_chunk data i k : 0 <= i -> 0 <= k < zlen (chunk_of data i) ->
  rd 0 (chunk_of data i) k = rd 0 data (i * CM + k).
Proof.
  intros Hi Hk. rewrite zlen_chunk in Hk by done. unfold rd, chunk_of. rewrite !nth_lookup.
  rewrite lookup_take_lt by lia. rewrite lookup_drop. do 2 f_equal. consts. lia.
Qed.

Lemma n_chunks_spec n i : 0 < n -> i < n_chunks n <-> i * CM < n.
Proof. unfold n_chunks. consts. intros. split; intros; mlia. Qed.

Lemma n_chunks_cover n : 0 < n -> n <= n_chunks n * CM < n + CM.
Proof. unfold n_chunks. consts. intros. mlia. Qed.

(** ** The receive side of one transfer *)

Definition valid_total (data : list Z) : Prop := 0 < zlen data <= RNET_STATE_MAX.

Lemma state_chunks_n rx data : valid_total data -> rx_total rx = zlen data ->
  state_chunks rx = n_chunks (zlen data).
Proof.
  unfold valid_total, state_chunks, n_chunks, RNET_STATE_MAX. intros H ->.
  rewrite u32_id; [done|]. consts. ranges. lia.
Qed.

Lemma n_chunks_max data : valid_total data -> 0 < n_chunks (zlen data) <= RNET_STATE_MAX_CHUNKS.
Proof. unfold valid_total, n_chunks, RNET_STATE_MAX_CHUNKS, RNET_STATE_MAX. consts. intros. split; mlia. Qed.

(** The receive holds exactly the chunks [got] of [data], its watermark is the
    end of the longest prefix of received chunks. *)
Record rx_holds (data : list Z) (got : Z -> Prop) (id : Z) (rx : RNetStateRx) : Prop := {
  rh_active : rx_active rx = 1;
  rh_id : rx_xfer_id rx = id;
  rh_total : rx_total rx = zlen data;
  rh_crc : rx_crc rx = rnet_proto_checksum data;
  rh_bits : forall i, 0 <= i < n_chunks (zlen data) -> state_rx_has_chunk rx i = true <-> got i;
  rh_buf : exists buf, rx_buf rx = Some buf /\ zlen buf = zlen data /\
    forall i k, 0 <= i -> got i -> i * CM <= k < (i + 1) * CM -> k < zlen data -> rd 0 buf k = rd 0 data k;
  rh_prefix : exists n, 0 <= n <= n_chunks (zlen data) /\ (forall i, 0 <= i < n -> got i) /\
    (n < n_chunks (zlen data) -> ~ got n) /\ rx_contiguity rx = Z.min (n * CM) (zlen data)
}.

Definition complete (data : list Z) (got : Z -> Prop) : Prop :=
  forall i, 0 <= i < n_chunks (zlen data) -> got i.

Lemma has_chunk_set rx i j : 0 <= i -> 0 <= j < RNET_STATE_MAX_CHUNKS -> i < RNET_STATE_MAX_CHUNKS ->
  state_rx_has_chunk (state_rx_set_chunk i rx) j = (i =? j) || state_rx_has_chunk rx j.
Proof.
  intros Hi Hj Hm. unfold state_rx_has_chunk, state_rx_set_chunk.
  destruct (Z.leb_spec RNET_STATE_MAX_CHUNKS i); [lia|]. destruct (Z.leb_spec RNET_STATE_MAX_CHUNKS j); [lia|].
  cbn [rx_bits set_rx_bits]. rewrite has_bit_lor, has_bit_bit by lia. apply orb_comm.
Qed.

(** The watermark loop stops at the first missing chunk. *)
Lemma advance_contiguity_spec data n i rx : valid_total data -> rx_total rx = zlen data ->
  0 <= i <= n_chunks (zlen data) -> n_chunks (zlen data) - i <= Z.of_nat n ->
  (rx_contiguity rx = Z.min (i * CM) (zlen data) \/
   i < n_chunks (zlen data) /\ state_rx_has_chunk rx i = true) ->
  exists c m, advance_contiguity n i rx = set_rx_contiguity c rx /\ i <= m <= n_chunks (zlen data) /\
    (forall j, i <= j < m -> state_rx_has_chunk rx j = true) /\
    (m < n_chunks (zlen data) -> state_rx_has_chunk rx m = false) /\ c = Z.min (m * CM) (zlen data).
Proof.
  intros Hd. revert i rx. induction n as [|n IH]; intros i rx Ht Hi Hn Hc.
  - exists (rx_contiguity rx), i. split_and!; try lia. by destruct rx.
  - cbn [advance_contiguity]. rewrite (state_chunks_n rx data) by done.
    destruct (Z.ltb_spec i (n_chunks (zlen data))) as [Hlt|Hge]; cbn [andb].
    2:{ exists (rx_contiguity rx), i. split_and!; try lia. by destruct rx. }
    destruct (state_rx_has_chunk rx i) eqn:E.
    2:{ exists (rx_contiguity rx), i. split_and!; try done; [by destruct rx|lia..|].
        destruct Hc as [Hc|[_ Hc]]; [done|congruence]. }
    pose proof (proj1 (n_chunks_spec (zlen data) i ltac:(unfold valid_total in Hd; lia)) Hlt) as Hb.
    set (e := if rx_total rx <? _ then _ else _).
    assert (e = Z.min ((i + 1) * CM) (zlen data)) as Ee.
    { unfold e. unfold valid_total, RNET_STATE_MAX in Hd. consts.
      rewrite u32_id by (ranges; lia). rewrite Ht. destruct (Z.ltb_spec (zlen data) ((i + 1) * 1120)); lia. }
    destruct (IH (i + 1) (set_rx_contiguity e rx)) as (c & m & -> & Hm & Hj & Hstop & ->); try (done || lia).
    { left. exact Ee. }
    exists (Z.min (m * CM) (zlen data)), m. split; [by destruct rx|].
    split_and!; try (done || lia). intros j Hjm. destruct (Z.eq_dec j i) as [->|]; [done|]. apply (Hj j). lia.
Qed.

(** Packet [pkt] carries chunk [i] of [data]. *)
Definition genuine (data : list Z) (i : Z) (pkt : RNetDecodedPacket) : Prop :=
  0 <= i < n_chunks (zlen data) /\ p_state_offset pkt = i * CM /\
  p_state_chunk_size pkt = zlen (chunk_of data i) /\
  take (Z.to_nat (p_state_chunk_size pkt)) (p_state_chunk pkt) = chunk_of data i.

Lemma chunk_nonempty data i : valid_total data -> 0 <= i < n_chunks (zlen data) ->
  0 < zlen (chunk_of data i) /\ i * CM + zlen (chunk_of data i) <= zlen data.
Proof.
  intros Hd Hi. unfold valid_total in Hd. rewrite zlen_chunk by lia.
  pose proof (proj1 (n_chunks_spec (zlen data) i ltac:(lia)) (proj2 Hi)). consts. lia.
Qed.

(** Storing a genuine chunk. *)
Lemma rx_store_holds data got id rx buf i pkt : valid_total data -> rx_holds data got id rx ->
  rx_buf rx = Some buf -> genuine data i pkt ->
  rx_holds data (fun j => j = i \/ got j) id (rx_store pkt buf rx) /\
  rx_ready (rx_store pkt buf rx) = rx_ready rx.
Proof.
  intros Hd [Ha Hid Ht Hc Hb (buf' & Eb & Hbl & Hbuf) (n & Hn & Hpre & Hstop & Hcont)] Eb' (Hi & Eo & Es & Ec).
  rewrite Eb in Eb'. simplify_eq. pose proof (n_chunks_max data Hd) as Hmax.
  destruct (chunk_nonempty data i Hd Hi) as [Hne Hend]. unfold rx_store. rewrite Ec, Eo.
  replace (i * CM / CM) with i by (symmetry; apply Z.div_mul; done).
  set (rx1 := state_rx_set_chunk i (set_rx_buf (Some (blit buf (i * CM) (chunk_of data i))) rx)).
  assert (forall j, 0 <= j < n_chunks (zlen data) -> state_rx_has_chunk rx1 j = true <-> j = i \/ got j) as Hbits.
  { intros j Hj. unfold rx1. rewrite has_chunk_set by lia. rewrite orb_true_iff, Z.eqb_eq.
    rewrite <- (Hb j Hj). unfold state_rx_has_chunk. cbn. intuition congruence. }
  assert (exists b, rx1 = set_rx_bits b (set_rx_buf (Some (blit buf (i * CM) (chunk_of data i))) rx)) as [b E1].
  { unfold rx1, state_rx_set_chunk. destruct (_ <=? _); [exists (rx_bits rx); by destruct rx|by eexists]. }
  unfold state_rx_advance_contiguity. rewrite (state_chunks_n rx1 data) by (done || by rewrite E1).
  assert (rx_contiguity rx1 = Z.min (n * CM) (zlen data)) as Hc1 by (by rewrite E1).
  unfold valid_total in Hd. pose proof (n_chunks_cover (zlen data) ltac:(lia)) as Hcov.
  set (start := rx_contiguity rx1 / CM).
  assert (0 <= start <= n /\ (start = n \/ n = n_chunks (zlen data) /\ start = n - 1)) as [Hs Hs'].
  { unfold start. rewrite Hc1. clear -Hn Hcov Hd. consts. mlia. }
  destruct (advance_contiguity_spec data (Z.to_nat (n_chunks (zlen data))) start rx1)
    as (c & m & -> & Hm & Hj & Hst & ->); [done|by rewrite E1|lia|lia| |].
  { destruct Hs' as [->|[En Es']]; [by left|right]. split; [lia|]. apply Hbits; [lia|]. right. apply Hpre. lia. }
  rewrite E1 in Hbits, Hj, Hst |- *. split; [|done]. constructor; try done.
  - eexists. split; [done|]. rewrite zlen_blit by (consts; lia). split; [done|].
    intros j k Hj0 Hgot Hk Hkl. rewrite rd_blit by (consts; lia).
    destruct (Z.leb_spec (i * CM) k); cbn [andb]; [destruct (Z.ltb_spec k (i * CM + zlen (chunk_of data i)))|].
    + rewrite rd_chunk by lia. f_equal. lia.
    + destruct Hgot as [->|Hgot]; [rewrite zlen_chunk in * by lia; consts; lia|by apply (Hbuf j)].
    + destruct Hgot as [->|Hgot]; [lia|by apply (Hbuf j)].
  - exists m. split; [lia|]. split; [|split; [|done]].
    + intros j Hj0. destruct (Z.lt_ge_cases j start) as [|]; [right; apply Hpre; lia|].
      apply Hbits; [lia|]. apply Hj. lia.
    + intros Hlt Hg. apply Hbits in Hg; [|lia]. rewrite Hst in Hg by done. done.
Qed.

Lemma contiguity_complete data got id rx : valid_total data -> rx_holds data got id rx ->
  rx_total rx <= rx_contiguity rx <-> complete data got.
Proof.
  intros Hd [_ _ Ht _ _ _ (n & Hn & Hpre & Hstop & ->)]. rewrite Ht.
  pose proof (n_chunks_cover (zlen data) ltac:(unfold valid_total in Hd; lia)).
  split.
  - intros Hle i Hi. apply Hpre.
    assert (~ n < n_chunks (zlen data)); [|lia].
    intros Hlt%n_chunks_spec; [lia|unfold valid_total in Hd; lia].
  - intros Hc. destruct (Z.lt_ge_cases n (n_chunks (zlen data))) as [Hlt|].
    + destruct (Hstop Hlt). apply Hc. lia.
    + consts. lia.
Qed.

Lemma complete_buf data got id rx : valid_total data -> rx_holds data got id rx -> complete data got ->
  rx_buf rx = Some data.
Proof.
  intros Hd H Hc. destruct (rh_buf _ _ _ _ H) as (buf & -> & Hl & Hb). f_equal. apply rd_ext; [done|].
  intros k Hk. apply (Hb (k / CM)).
  - apply Z.div_pos; [lia|done].
  - apply Hc. split; [apply Z.div_pos; [lia|done]|].
    apply n_chunks_spec; [lia|]. consts. mlia.
  - consts. mlia.
  - lia.
Qed.

(** ** The receive side inside the session *)

Definition rx_slots (s : RNetSession) : Prop := zlen (xf_rx (s_xfer s)) = RNET_MAX_SLOTS.

Lemma s_rx_on_rx src f s j : rx_slots s -> 0 <= src < RNET_MAX_SLOTS -> 0 <= j ->
  s_rx (on_rx src f s) j = if src =? j then f (s_rx s src) else s_rx s j.
Proof. intros Hl Hs Hj. unfold s_rx, on_rx. cbn. apply rd_wr; [by rewrite Hl|done]. Qed.

Lemma rx_slots_on_rx src f s : rx_slots s -> rx_slots (on_rx src f s).
Proof. unfold rx_slots, on_rx. cbn. by rewrite zlen_wr. Qed.

Lemma quiet_xfer s s' : quiet s s' -> s_xfer s' = s_xfer s.
Proof. intros H. by quiet_fields H. Qed.
Lemma quiet_wire_slot s s' : quiet s s' -> s_wire_slot s' = s_wire_slot s.
Proof. intros H. by quiet_fields H. Qed.

(** Acknowledging only stamps the receive. *)
Lemma send_ack_spec src s : exists ms u, quiet s u /\
  state_rx_send_ack src s = on_rx src (set_rx_last_ack_ms ms) u.
Proof.
  unfold state_rx_send_ack, state_send_ack_raw.
  match goal with |- context [send_raw ?e s] => pose proof (quiet_send_raw e s) as Hq; generalize dependent (send_raw e s) end.
  intros u Hq. exists (fst (session_now u)), (snd (session_now u)). split; [|done].
  etrans; [exact Hq|apply quiet_now].
Qed.

Lemma rx_holds_stamp data got id ms rx : rx_holds data got id rx -> rx_holds data got id (set_rx_last_ack_ms ms rx).
Proof. by intros [? ? ? ? ? ? ?]. Qed.
Lemma rx_holds_ready data got id v rx : rx_holds data got id rx -> rx_holds data got id (set_rx_ready v rx).
Proof. by intros [? ? ? ? ? ? ?]. Qed.

Record receiving (data : list Z) (got : Z -> Prop) (id src : Z) (s : RNetSession) : Prop := {
  rv_slots : rx_slots s;
  rv_other : s_wire_slot s <> src;
  rv_rx : rx_holds data got id (s_rx s src);
  rv_ready : rx_ready (s_rx s src) <> 0 <-> complete data got
}.

Lemma receiving_quiet data got id src s s' : quiet s s' -> receiving data got id src s -> receiving data got id src s'.
Proof.
  intros Hq [Hl Ho Hr Hd]. pose proof (quiet_xfer _ _ Hq) as E.
  constructor; unfold rx_slots, s_rx in *; rewrite ?E; try done. by rewrite (quiet_wire_slot _ _ Hq).
Qed.

Lemma receiving_stamp data got id src j ms s : 0 <= src < RNET_MAX_SLOTS -> 0 <= j < RNET_MAX_SLOTS ->
  receiving data got id src s -> receiving data got id src (on_rx j (set_rx_last_ack_ms ms) s).
Proof.
  intros Hs Hj [Hl Ho Hr Hd]. constructor; [by apply rx_slots_on_rx|done|..];
    rewrite s_rx_on_rx by (done || lia); (destruct (Z.eqb_spec j src) as [->|]; [|done]); [|done].
  by apply rx_holds_stamp.
Qed.

(** The completion test: with genuine contents the digest always agrees. *)
Lemma mark_ready_spec data got id src s : valid_total data -> 0 <= src < RNET_MAX_SLOTS ->
  rx_slots s -> s_wire_slot s <> src -> rx_holds data got id (s_rx s src) ->
  (rx_ready (s_rx s src) <> 0 -> complete data got) ->
  receiving data got id src (state_rx_mark_ready_if_complete src s).
Proof.
  intros Hd Hs Hl Ho Hr Hready. unfold state_rx_mark_ready_if_complete.
  destruct (rh_buf _ _ _ _ Hr) as (buf & Eb & Hbl & _). rewrite Eb, (rh_active _ _ _ _ Hr). cbn [orb Z.eqb].
  pose proof (contiguity_complete _ _ _ _ Hd Hr) as Hcc. unfold nz.
  destruct (Z.eqb_spec (rx_ready (s_rx s src)) 0) as [E0|E0]; cbn [negb].
  2:{ by constructor. }
  destruct (Z.ltb_spec (rx_contiguity (s_rx s src)) (rx_total (s_rx s src))) as [Hlt|Hge].
  { constructor; try done. rewrite E0. split; [done|]. intros Hc%Hcc. lia. }
  apply Hcc in Hge. pose proof (complete_buf _ _ _ _ Hd Hr Hge) as Eb'. rewrite Eb in Eb'. simplify_eq.
  rewrite (rh_total _ _ _ _ Hr), to_nat_zlen, take_ge, (rh_crc _ _ _ _ Hr), Z.eqb_refl by lia. cbn [negb].
  destruct (send_ack_spec src (on_rx src (set_rx_ready 1) s)) as (ms & u & Hq & ->).
  apply receiving_stamp; [done..|]. eapply receiving_quiet; [exact Hq|]. constructor.
  - by apply rx_slots_on_rx.
  - done.
  - rewrite s_rx_on_rx by (done || lia). rewrite Z.eqb_refl. by apply rx_holds_ready.
  - rewrite s_rx_on_rx by (done || lia). rewrite Z.eqb_refl. cbn. split; [done|lia].
Qed.

(** Steps that leave the receive from [src] alone. *)
Definition aside (src : Z) (s s' : RNetSession) : Prop :=
  (rx_slots s -> rx_slots s') /\ s_wire_slot s' = s_wire_slot s /\ (rx_slots s -> s_rx s' src = s_rx s src).

#[export] Instance aside_preorder src : PreOrder (aside src).
Proof.
  split; [intros s; by unfold aside|]. intros a b c (L1 & W1 & R1) (L2 & W2 & R2).
  split; [auto|]. split; [by rewrite W2|]. intros Ha. rewrite R2; auto.
Qed.
Lemma aside_quiet src s s' : quiet s s' -> aside src s s'.
Proof.
  intros Hq. unfold aside, rx_slots, s_rx. rewrite (quiet_xfer _ _ Hq). by rewrite (quiet_wire_slot _ _ Hq).
Qed.
Lemma aside_on_rx src j f s : 0 <= src -> 0 <= j < RNET_MAX_SLOTS -> j <> src -> aside src s (on_rx j f s).
Proof.
  intros Hs Hj Hne. split; [apply rx_slots_on_rx|]. split; [done|]. intros Hl.
  rewrite s_rx_on_rx by done. by destruct (Z.eqb_spec j src).
Qed.
Lemma aside_received src j f s : aside src s (on_received j f s).
Proof. by unfold aside. Qed.
Lemma aside_ack src j s : 0 <= src -> 0 <= j < RNET_MAX_SLOTS -> j <> src -> aside src s (state_rx_send_ack j s).
Proof.
  intros. destruct (send_ack_spec j s) as (ms & u & Hq & ->).
  etrans; [by apply aside_quiet|by apply aside_on_rx].
Qed.
#[export] Hint Resolve aside_quiet aside_on_rx aside_received aside_ack quiet_now quiet_send_raw : rnet.

Lemma aside_mark_ready src j s : 0 <= src -> 0 <= j < RNET_MAX_SLOTS -> j <> src ->
  aside src s (state_rx_mark_ready_if_complete j s).
Proof.
  intros. unfold state_rx_mark_ready_if_complete. destruct (rx_buf _); [|reflexivity].
  repeat (case_match; try reflexivity); (etrans; [by apply aside_on_rx|by apply aside_ack]).
Qed.
Lemma aside_reack src j pkt s : aside src s (chunk_reack j pkt s).
Proof.
  unfold chunk_reack. destruct (_ && _); [|reflexivity]. unfold session_now.
  etrans; [apply aside_quiet, quiet_now|]. unfold session_now. cbn [snd].
  destruct (_ || _); [|reflexivity]. etrans; [|apply aside_received]. apply aside_quiet, quiet_send_raw.
Qed.

(** The tail of a stored chunk: acknowledge when due, then test completion. *)
Definition chunk_tail (src : Z) (s : RNetSession) : RNetSession :=
  let '(now, s) := session_now s in
  let rx := s_rx s src in
  let s := if state_transport_is_ice s || (4 <=? u64 (now - rx_last_ack_ms rx)) ||
              (rx_total rx <=? rx_contiguity rx)
           then state_rx_send_ack src s else s in
  state_rx_mark_ready_if_complete src s.

Lemma on_chunk_tail pkt s buf : let src := p_local_slot pkt in let rx := s_rx s src in
  src < RNET_MAX_SLOTS -> src <> s_wire_slot s -> rx_buf rx = Some buf ->
  rx_active rx <> 0 -> p_state_xfer_id pkt = rx_xfer_id rx ->
  p_state_offset pkt <= rx_total rx -> p_state_chunk_size pkt <> 0 ->
  u32 (p_state_offset pkt + p_state_chunk_size pkt) <= rx_total rx ->
  state_on_chunk pkt s = chunk_tail src (on_rx src (rx_store pkt buf) s).
Proof.
  intros src rx Hs Hw Eb Ha Hid Ho Hz He. unfold state_on_chunk. fold src. fold rx.
  destruct (Z.leb_spec RNET_MAX_SLOTS src); [lia|]. destruct (Z.eqb_spec src (s_wire_slot s)); [done|].
  cbn [orb]. rewrite Eb. rewrite (proj2 (Z.eqb_neq (rx_active rx) 0) Ha), Hid, Z.eqb_refl. cbn [orb negb].
  rewrite (proj2 (Z.ltb_ge _ _) Ho), (proj2 (Z.eqb_neq (p_state_chunk_size pkt) 0) Hz), (proj2 (Z.ltb_ge _ _) He).
  done.
Qed.

Lemma chunk_tail_aside src j s : 0 <= src -> 0 <= j < RNET_MAX_SLOTS -> j <> src -> aside src s (chunk_tail j s).
Proof.
  intros. unfold chunk_tail. etrans; [apply aside_quiet, quiet_now|]. destruct (session_now s) as [now s1]. cbn [snd].
  etrans; [|by apply aside_mark_ready]. destruct (_ || _); [by apply aside_ack|reflexivity].
Qed.

Lemma chunk_tail_receiving data got id src s : valid_total data -> 0 <= src < RNET_MAX_SLOTS ->
  rx_slots s -> s_wire_slot s <> src -> rx_holds data got id (s_rx s src) ->
  (rx_ready (s_rx s src) <> 0 -> complete data got) ->
  receiving data got id src (chunk_tail src s).
Proof.
  intros Hd Hs Hl Ho Hr Hready. unfold chunk_tail. pose proof (quiet_now s) as Hq.
  destruct (session_now s) as [now s1]. cbn [snd] in Hq.
  destruct (aside_quiet src _ _ Hq) as (L1 & W1 & R1).
  destruct (_ || _).
  - destruct (send_ack_spec src s1) as (ms & u & Hq2 & ->).
    destruct (aside_quiet src _ _ Hq2) as (L2 & W2 & R2).
    apply mark_ready_spec; auto using rx_slots_on_rx; change (s_wire_slot (on_rx ?j ?f ?x)) with (s_wire_slot x).
    + by rewrite W2, W1.
    + rewrite s_rx_on_rx, Z.eqb_refl by (auto || lia). apply rx_holds_stamp. by rewrite R2, R1 by auto.
    + rewrite s_rx_on_rx, Z.eqb_refl by (auto || lia). cbn [rx_ready set_rx_last_ack_ms]. by rewrite R2, R1 by auto.
  - apply mark_ready_spec; auto; rewrite ?W1, ?R1; auto.
Qed.

(** A chunk packet of another source or another transfer. *)
Lemma on_chunk_aside src pkt s : 0 <= src -> 0 <= p_local_slot pkt -> rx_slots s ->
  p_local_slot pkt <> src \/ rx_active (s_rx s src) <> 0 /\ p_state_xfer_id pkt <> rx_xfer_id (s_rx s src) ->
  aside src s (state_on_chunk pkt s).
Proof.
  intros Hs Hp Hl Hor. unfold state_on_chunk. destruct (_ || _) eqn:E; [reflexivity|]. bool_prop.
  destruct (rx_buf _) as [buf|]; [|apply aside_reack]. destruct (_ || _) eqn:E2; [apply aside_reack|]. bool_prop.
  destruct Hor as [Hne|[_ Hne]].
  - destruct (_ || _); [reflexivity|]. destruct (_ <? _); [reflexivity|].
    etrans; [by apply aside_on_rx|]. apply (chunk_tail_aside src (p_local_slot pkt)); done.
  - destruct (Z.eq_dec (p_local_slot pkt) src) as [Eq|Hne']; [rewrite Eq in *; congruence|].
    destruct (_ || _); [reflexivity|]. destruct (_ <? _); [reflexivity|].
    etrans; [by apply aside_on_rx|]. apply (chunk_tail_aside src (p_local_slot pkt)); done.
Qed.

(** A genuine chunk of this transfer. *)
Lemma on_chunk_genuine data got id src s pkt i : valid_total data -> 0 <= src < RNET_MAX_SLOTS ->
  receiving data got id src s -> p_local_slot pkt = src -> p_state_xfer_id pkt = id -> genuine data i pkt ->
  receiving data (fun j => j = i \/ got j) id src (state_on_chunk pkt s).
Proof.
  intros Hd Hs [Hl Ho Hr Hready] Hp Hid Hg. destruct (rh_buf _ _ _ _ Hr) as (buf & Eb & Hbl & _).
  destruct (rx_store_holds data got id _ buf i pkt Hd Hr Eb Hg) as [Hr' Er'].
  pose proof Hg as (Hi & Eo & Es & _). destruct (chunk_nonempty data i Hd Hi) as [Hne Hend].
  pose proof (rh_total _ _ _ _ Hr). unfold valid_total, RNET_STATE_MAX in Hd.
  assert (0 <= i * CM) by (consts; lia).
  rewrite (on_chunk_tail pkt s buf); rewrite ?Hp, ?Eo, ?Es; try (done || lia).
  2:{ by rewrite (rh_active _ _ _ _ Hr). } 2:{ by rewrite (rh_id _ _ _ _ Hr). }
  2:{ rewrite u32_id by (ranges; lia). lia. }
  apply chunk_tail_receiving; try done.
  - by apply rx_slots_on_rx.
  - by rewrite s_rx_on_rx, Z.eqb_refl by (done || lia).
  - rewrite s_rx_on_rx, Z.eqb_refl by (done || lia). rewrite Er'. intros Hc%Hready j Hj. right. by apply Hc.
Qed.

Lemma receiving_ext data got got' id src s : (forall j, got j <-> got' j) ->
  receiving data got id src s -> receiving data got' id src s.
Proof.
  intros He [Hl Ho [Ha Hid Ht Hc Hb (buf & Eb & Hbl & Hbuf) (n & Hn & Hpre & Hstop & Hcont)] Hd].
  constructor; try done.
  - constructor; try done.
    + intros i Hi. by rewrite <- He, <- Hb.
    + exists buf. split_and!; try done. intros i k Hi Hg. apply (Hbuf i k); [done|]. by apply He.
    + exists n. split; [done|]. split; [intros; apply He; auto|].
      split; [|done]. intros Hlt Hg. by apply (Hstop Hlt), He.
  - rewrite Hd. split; intros Hc' i Hi; apply He; by apply Hc'.
Qed.

Definition delivered (data : list Z) (id src : Z) (pkts : list RNetDecodedPacket) (i : Z) : Prop :=
  exists p, p ∈ pkts /\ p_local_slot p = src /\ p_state_xfer_id p = id /\ genuine data i p.

Lemma genuine_inj data i j p : genuine data i p -> genuine data j p -> i = j.
Proof. intros (_ & E1 & _) (_ & E2 & _). rewrite E1 in E2. consts. lia. Qed.

Lemma on_chunks_receiving data id src pkts : valid_total data -> 0 <= src < RNET_MAX_SLOTS ->
  Forall (fun p => 0 <= p_local_slot p) pkts ->
  (forall p, p ∈ pkts -> p_local_slot p = src -> p_state_xfer_id p = id -> exists i, genuine data i p) ->
  forall got s, receiving data got id src s ->
  receiving data (fun i => delivered data id src pkts i \/ got i) id src
    (fold_left (fun s p => state_on_chunk p s) pkts s).
Proof.
  intros Hd Hs Hp. induction Hp as [|p pkts Hp _ IH]; intros Hg got s H.
  - simpl. eapply receiving_ext; [|exact H]. intros j. split; [by right|].
    intros [(p & Hin & _)|]; [by apply elem_of_nil in Hin|done].
  - cbn [fold_left]. destruct (decide (p_local_slot p = src /\ p_state_xfer_id p = id)) as [[E1 E2]|Hne].
    + destruct (Hg p ltac:(left) E1 E2) as [i Hi].
      eapply receiving_ext; [|apply IH; [intros q Hq; apply Hg; by right|by eapply on_chunk_genuine]].
      intros j. unfold delivered. split.
      * intros [(q & Hq & Hr)|[->|]]; [left; exists q; split; [by right|done]| |by right].
        left. exists p. split; [left|done].
      * intros [(q & [->|Hq]%elem_of_cons & E3 & E4 & Hj)|]; [|left; by exists q|by right; right].
        right. left. by eapply genuine_inj.
    + eapply receiving_ext; [|apply (IH ltac:(intros q Hq; apply Hg; by right) got)].
      * intros j. unfold delivered. split.
        -- intros [(q & Hq & Hr)|]; [left; exists q; split; [by right|done]|by right].
        -- intros [(q & [->|Hq]%elem_of_cons & E3 & E4 & Hj)|]; [by destruct Hne|left; by exists q|by right].
      * destruct H as [Hl Ho Hr Hd']. destruct (on_chunk_aside src p s) as (L & W & R); [lia|done|done| |].
        { destruct (decide (p_local_slot p = src)) as [E|]; [|by left]. right.
          rewrite (rh_active _ _ _ _ Hr), (rh_id _ _ _ _ Hr). split; [done|]. intros E2. by apply Hne. }
        constructor; rewrite ?W, ?R; auto.
Qed.

(** ** Opening a receive *)

(** BEGIN [b] announces the transfer [id] of [data] from [src]. *)
Definition announces (data : list Z) (id src : Z) (b : RNetDecodedPacket) : Prop :=
  p_local_slot b = src /\ p_state_xfer_id b = id /\ id <> 0 /\
  p_state_total_size b = zlen data /\ p_state_payload_crc b = rnet_proto_checksum data.

(** Whom a BEGIN concerns: MEMCARD the host, anything else the guests. *)
Definition concerned (s : RNetSession) (b : RNetDecodedPacket) : bool :=
  if p_state_op b =? RNET_STATE_OP_MEMCARD
  then (cfg_local_slot (s_cfg s) =? 0) && negb (p_local_slot b =? 0)
  else negb (cfg_local_slot (s_cfg s) =? 0).

Lemma aside_xfer src f s : (forall x, xf_rx (f x) = xf_rx x) -> aside src s (on_xfer f s).
Proof. intros H. unfold aside, rx_slots, s_rx. cbn. by rewrite H. Qed.
Lemma aside_malloc src s : aside src s (snd (malloc_ok s)).
Proof. by apply aside_quiet, quiet_io. Qed.

(** Transfer bookkeeping does not talk to the outside. *)
Definition inside (s s' : RNetSession) : Prop :=
  s_io s' = s_io s /\ s_wire_slot s' = s_wire_slot s /\ (rx_slots s -> rx_slots s').

#[export] Instance inside_preorder : PreOrder inside.
Proof.
  split; [by intros s|]. intros a b c (I1 & W1 & L1) (I2 & W2 & L2).
  split; [by rewrite I2|]. split; [by rewrite W2|auto].
Qed.
Lemma inside_xfer f s : (forall x, xf_rx (f x) = xf_rx x) -> inside s (on_xfer f s).
Proof. intros H. unfold inside, rx_slots. cbn. by rewrite H. Qed.
Lemma inside_on_rx src f s : inside s (on_rx src f s).
Proof. split; [done|]. split; [done|]. apply rx_slots_on_rx. Qed.

Lemma inside_probe_clear s : inside s (state_probe_clear s).
Proof.
  unfold state_probe_clear. transitivity (on_probe (fun _ => zero_probe) s); [by apply inside_xfer|]. destruct (state_any_active _); [reflexivity|].
  by apply inside_xfer.
Qed.
Lemma inside_tx_clear s : inside s (state_tx_clear s).
Proof.
  unfold state_tx_clear. transitivity (on_tx (fun _ => zero_tx) s); [by apply inside_xfer|]. destruct (_ =? _); [|reflexivity]. by apply inside_xfer.
Qed.
Lemma inside_rx_clear src s : inside s (state_rx_clear src s).
Proof.
  unfold state_rx_clear. transitivity (on_rx src (fun _ => zero_rx) s); [apply inside_on_rx|]. destruct (_ =? _); [|reflexivity]. by apply inside_xfer.
Qed.

Lemma rx_clear_zero src s : 0 <= src < RNET_MAX_SLOTS -> rx_slots s -> s_rx (state_rx_clear src s) src = zero_rx.
Proof.
  intros Hs Hl. unfold state_rx_clear.
  assert (s_rx (on_rx src (fun _ => zero_rx) s) src = zero_rx) as E
    by (rewrite s_rx_on_rx, Z.eqb_refl by (done || lia); done).
  destruct (_ =? _); [|done]. exact E.
Qed.

Lemma zero_rx_holds data id now ms : valid_total data ->
  let rx := mkRx 1 0 ms 0 id (zlen data) (rnet_proto_checksum data) 0
              (Some (replicate (Z.to_nat (zlen data)) 0)) 0 now 0 in
  forall op slot, rx_holds data (fun _ => False) id (set_rx_slot slot (set_rx_op op rx)).
Proof.
  intros Hd rx op slot. pose proof (n_chunks_max data Hd). constructor; try done.
  - intros i Hi. unfold state_rx_has_chunk. cbn. destruct (_ <=? _); [done|]. by rewrite has_bit_0.
  - eexists. split; [done|]. rewrite zlen_replicate. split; [unfold zlen; lia|done].
  - exists 0. split_and!; try (lia || done). cbn. pose proof (zlen_nonneg data). lia.
Qed.

Lemma begin_receive_opens data id src b s : valid_total data -> 0 <= src < RNET_MAX_SLOTS -> rx_slots s ->
  s_wire_slot s <> src -> announces data id src b -> hd true (io_malloc (s_io s)) = true ->
  receiving data (fun _ => False) id src (begin_receive src b s).
Proof.
  intros Hd Hs Hl Hw (_ & Eid & _ & Et & Ec) Hm. unfold begin_receive.
  set (s1 := if _ && _ then state_probe_clear s else s).
  assert (inside s s1) as I1 by (unfold s1; destruct (_ && _); [apply inside_probe_clear|reflexivity]).
  clearbody s1. set (s2 := if _ && _ then state_tx_clear s1 else s1).
  assert (inside s s2) as I2.
  { etrans; [exact I1|]. unfold s2. destruct (_ && _); [apply inside_tx_clear|reflexivity]. }
  clearbody s2. clear s1 I1.
  assert (inside s (state_rx_clear src s2)) as I3 by (etrans; [exact I2|apply inside_rx_clear]).
  pose proof (rx_clear_zero src s2 Hs (proj2 (proj2 I2) Hl)) as Z3.
  set (s3 := state_rx_clear src s2) in *. clearbody s3. destruct I3 as (Io & W & L).
  pose proof (aside_malloc src s3) as A4. unfold malloc_ok at 1. rewrite Io, Hm. cbn [negb].
  unfold malloc_ok in A4. cbn [snd] in A4. set (s4 := on_io _ s3) in *. clearbody s4.
  assert (aside src s3 (set_stall 1 s4)) as A5 by (etrans; [exact A4|unfold set_stall; by apply aside_xfer]).
  set (s5 := set_stall 1 s4) in *. clearbody s5.
  match goal with |- context [on_received src ?f s5] => set (g := f) end.
  assert (aside src s3 (snd (session_now (on_received src g s5)))) as A6.
  { etrans; [exact A5|]. etrans; [apply aside_received|]. apply aside_quiet, quiet_now. }
  destruct (session_now (on_received src g s5)) as [now s6]. cbn [snd] in A6. clear g. destruct A6 as (L6 & W6 & R6).
  match goal with |- context [on_rx src ?f s6] => set (h := f) end.
  destruct (send_ack_spec src (on_rx src h s6)) as (ms & u & Hq & ->).
  apply receiving_stamp; [done..|]. eapply receiving_quiet; [exact Hq|].
  pose proof (n_chunks_max data Hd).
  assert (h (s_rx s6 src) = set_rx_slot (p_state_slot b) (set_rx_op (p_state_op b)
    (mkRx 1 0 0 0 id (zlen data) (rnet_proto_checksum data) 0 (Some (replicate (Z.to_nat (zlen data)) 0)) 0 now 0)))
    as Eh by (rewrite R6, Z3 by auto; unfold h; cbn; by rewrite Eid, Et, Ec).
  constructor; [apply rx_slots_on_rx; auto|cbn; by rewrite W6, W|..];
    rewrite s_rx_on_rx, Z.eqb_refl, Eh by (auto || lia).
  - by apply zero_rx_holds.
  - cbn. split; [done|]. intros Hc. destruct (Hc 0). lia.
Qed.

Lemma on_begin_opens data id src b s : valid_total data -> 0 <= src < RNET_MAX_SLOTS -> rx_slots s ->
  s_wire_slot s <> src -> announces data id src b -> concerned s b = true ->
  begin_known src b s = None -> hd true (io_malloc (s_io s)) = true ->
  receiving data (fun _ => False) id src (state_on_begin b s).
Proof.
  intros Hd Hs Hl Hw Ha Hc Hk Hm. pose proof Ha as (Ep & Ei & Hid & Et & _). unfold state_on_begin. rewrite Ep, Et, Ei.
  rewrite (proj2 (Z.eqb_neq src (s_wire_slot s))) by congruence. unfold concerned in Hc. rewrite Ep in Hc.
  unfold valid_total in Hd.
  assert ((if p_state_op b =? RNET_STATE_OP_MEMCARD
           then negb (cfg_local_slot (s_cfg s) =? 0) || (src =? 0)
           else cfg_local_slot (s_cfg s) =? 0) = false) as ->.
  { destruct (p_state_op b =? _); [|by apply negb_true_iff in Hc].
    apply andb_prop in Hc as [-> Hc]. by apply negb_true_iff in Hc as ->. }
  rewrite (proj2 (Z.eqb_neq (zlen data) 0)), (proj2 (Z.ltb_ge RNET_STATE_MAX (zlen data))) by lia.
  rewrite (proj2 (Z.leb_gt RNET_MAX_SLOTS src)), (proj2 (Z.eqb_neq id 0)) by (done || lia). cbn [orb].
  rewrite Hk. by apply begin_receive_opens.
Qed.

(** C35. A blob arrives intact. A BEGIN that opens a receive for [data] is
    followed by any sequence of chunk packets: from any seats, of any
    transfers, in any order and with any duplication, of which those of this
    transfer carry chunks of [data]. Then the transfer is ready exactly when
    every chunk of [data] has arrived, the host takes [data] byte for byte,
    and the acknowledged watermark never exceeds the received prefix. *)
Theorem state_receive_delivers data id src b s pkts :
  0 < zlen data <= RNET_STATE_MAX -> 0 <= src < RNET_MAX_SLOTS -> rx_slots s -> s_wire_slot s <> src ->
  announces data id src b -> concerned s b = true -> begin_known src b s = None ->
  hd true (io_malloc (s_io s)) = true -> Forall (fun p => 0 <= p_local_slot p) pkts ->
  (forall p, p ∈ pkts -> p_local_slot p = src -> p_state_xfer_id p = id -> exists i, genuine data i p) ->
  let rx := s_rx (fold_left (fun s p => state_on_chunk p s) pkts (state_on_begin b s)) src in
  (rx_ready rx <> 0 <-> forall i, 0 <= i < n_chunks (zlen data) -> delivered data id src pkts i) /\
  (rx_ready rx <> 0 -> rx_buf rx = Some data /\ rx_contiguity rx = zlen data) /\
  (forall i, 0 <= i -> i * RNET_STATE_CHUNK_MAX < rx_contiguity rx -> delivered data id src pkts i).
Proof.
  intros Hd Hs Hl Hw Ha Hc Hk Hm Hp Hg rx.
  pose proof (on_begin_opens data id src b s Hd Hs Hl Hw Ha Hc Hk Hm) as H0.
  pose proof (on_chunks_receiving data id src pkts Hd Hs Hp Hg _ _ H0) as [_ _ Hr Hready]. fold rx in Hr, Hready.
  assert (forall i, (delivered data id src pkts i \/ False) <-> delivered data id src pkts i) as E by (clear; tauto).
  unfold complete in Hready. setoid_rewrite E in Hready. split; [done|]. split.
  - intros Hrd. assert (complete data (fun i => delivered data id src pkts i \/ False)) as Hcomp
      by (intros i Hi; left; by apply Hready).
    split; [by eapply complete_buf|]. apply (contiguity_complete _ _ _ _ Hd Hr) in Hcomp.
    destruct (rh_prefix _ _ _ _ Hr) as (n & _ & _ & _ & Hn). rewrite (rh_total _ _ _ _ Hr) in Hcomp. lia.
  - intros i Hi Hlt. destruct (rh_prefix _ _ _ _ Hr) as (n & Hn & Hpre & _ & En). rewrite En in Hlt.
    destruct (Hpre i) as [|[]]; [|done]. consts. lia.
Qed.

(** *** A guest that receives 1200 bytes from the host, last chunk first *)

Definition demo_guest : RNetSession := Eval vm_compute in
  match rnet_session_create (mkConfig 2 1 1 2 RNET_DEFAULT_BUNDLE_REDUNDANCY 1 1380861268 0) true true 1 demo_io with
  | Some s => s
  | None => demo_base
  end.
Definition demo_data : list Z := replicate 1200 5.
Definition demo_begin : RNetDecodedPacket :=
  set_p_state_xfer_id 1 (set_p_state_total_size 1200 (set_p_state_payload_crc (rnet_proto_checksum demo_data)
    (demo_packet RNET_PKT_STATE_BEGIN 0))).
Definition demo_chunk (i : Z) : RNetDecodedPacket :=
  set_p_state_xfer_id 1 (set_p_state_offset (i * RNET_STATE_CHUNK_MAX)
    (set_p_state_chunk_size (zlen (chunk_of demo_data i)) (set_p_state_chunk (chunk_of demo_data i)
      (demo_packet RNET_PKT_STATE_CHUNK 0)))).

Lemma demo_genuine i : 0 <= i < 2 -> genuine demo_data i (demo_chunk i).
Proof.
  intros Hi. split; [exact Hi|]. split; [done|]. split; [done|].
  change (p_state_chunk_size (demo_chunk i)) with (zlen (chunk_of demo_data i)).
  change (p_state_chunk (demo_chunk i)) with (chunk_of demo_data i). rewrite to_nat_zlen. by apply take_ge.
Qed.

Lemma state_receive_delivers_witness :
  rx_buf (s_rx (fold_left (fun s p => state_on_chunk p s) [demo_chunk 1; demo_chunk 1; demo_chunk 0]
    (state_on_begin demo_begin demo_guest)) 0) = Some demo_data.
Proof.
  apply (state_receive_delivers demo_data 1 0 demo_begin demo_guest [demo_chunk 1; demo_chunk 1; demo_chunk 0]).
  - by split.
  - by split.
  - reflexivity.
  - discriminate.
  - repeat split. discriminate.
  - reflexivity.
  - reflexivity.
  - reflexivity.
  - repeat constructor; discriminate.
  - intros p Hp _ _. apply list_elem_of_In in Hp as [<-|[<-|[<-|[]]]];
      [exists 1|exists 1|exists 0]; by apply demo_genuine.
  - vm_compute. discriminate.
Defined.
