(* ===== verification/SenderProofs.v ===== *)
(** * The session: the sending side of the blob transfer

    What [state_drive_sender] puts on the wire, and when a transfer counts as
    complete. *)

From stdpp Require Import base list numbers list_numbers.
From S2P Require Import Prelude Protocol ProtocolProofs Config Rings CtrlQueue Session SessionState SessionMain SessionProofs SessionStart StateProofs.

#[local] Abbreviation CM := RNET_STATE_CHUNK_MAX.

(** ** Datagrams *)

(** A prefix of a longer buffer is encoded as a chunk of its own. *)
Lemma encode_chunk_from ls id off l n magic sid : 1 <= n <= CM -> n <= zlen l ->
  rnet_proto_encode_state_chunk RNET_MAX_PACKET magic sid ls id off (Some l) n
  = Ret (packet_bytes magic RNET_PKT_STATE_CHUNK sid (msg_body (MStateChunk ls id off (take (Z.to_nat n) l)))).
Proof.
  intros Hn Hl. unfold rnet_proto_encode_state_chunk.
  assert (zlen (take (Z.to_nat n) l) = n) as E by (unfold zlen in *; rewrite length_take; lia).
  cbn [msg_body]. rewrite E. consts.
  destruct (Z.eqb_spec n 0); [lia|]. destruct (Z.ltb_spec 1120 n); [lia|].
  cbn [orb]. pass_guard. wrun. wexec.
Qed.

(** [s'] has sent some more datagrams than [s], each satisfying [P]. *)
Definition sends (P : list Z -> Prop) (s s' : RNetSession) : Prop :=
  exists new, io_sent (s_io s') = io_sent (s_io s) ++ new /\ Forall P new.

#[export] Instance sends_preorder P : PreOrder (sends P).
Proof.
  split.
  - intros s. exists []. by rewrite app_nil_r.
  - intros a b c (n1 & E1 & F1) (n2 & E2 & F2). exists (n1 ++ n2). rewrite E2, E1, app_assoc.
    split; [done|]. by apply Forall_app.
Qed.

Lemma sends_none P s s' : io_sent (s_io s') = io_sent (s_io s) -> sends P s s'.
Proof. intros E. exists []. by rewrite app_nil_r. Qed.

Lemma sends_packet P magic ty sid body s : 0 <= ty < 65536 -> rnet_proto_is_rb_control ty = false ->
  P (packet_bytes magic ty sid body) -> sends P s (send_raw (Ret (packet_bytes magic ty sid body)) s).
Proof. intros H1 H2 HP. rewrite send_raw_plain by done. eexists. split; [done|]. by apply Forall_singleton. Qed.

(** ** The sender's state *)

(** A position the protocol can stop at: a chunk boundary or the end. *)
Definition aligned (data : list Z) (x : Z) : Prop := exists n, 0 <= n /\ x = Z.min (n * CM) (zlen data).

(** The part of a transfer that only BEGIN, ACK and the host change. *)
Definition tx_core (t : RNetStateTx) :=
  (tx_active t, tx_buf t, tx_total t, tx_crc t, tx_xfer_id t, tx_op t, tx_slot t, tx_expect_mask t, tx_ack t).

Definition same_core (s s' : RNetSession) : Prop :=
  s_cfg s' = s_cfg s /\ s_wire_slot s' = s_wire_slot s /\ tx_core (s_tx s') = tx_core (s_tx s).

#[export] Instance same_core_preorder : PreOrder same_core.
Proof.
  split; [by intros s|]. intros a b c (C1 & W1 & T1) (C2 & W2 & T2).
  split_and!; congruence.
Qed.

Record sending (data : list Z) (id : Z) (s : RNetSession) : Prop := {
  sn_total : valid_total data;
  sn_active : tx_active (s_tx s) <> 0;
  sn_buf : tx_buf (s_tx s) = Some data;
  sn_size : tx_total (s_tx s) = zlen data;
  sn_crc : tx_crc (s_tx s) = rnet_proto_checksum data;
  sn_id : tx_xfer_id (s_tx s) = id /\ in_u32 id /\ id <> 0;
  sn_magic : in_u32 (magic s);
  sn_sid : in_u32 (sid s);
  sn_acks : forall r, 0 <= r < RNET_MAX_SLOTS -> tx_expects (s_tx s) r = true -> aligned data (tx_ack_of (s_tx s) r);
  sn_cursor : aligned data (tx_send_cursor (s_tx s))
}.

Lemma sending_core data id s s' : same_core s s' -> aligned data (tx_send_cursor (s_tx s')) ->
  sending data id s -> sending data id s'.
Proof.
  intros (C & W & T) Hc [? ? ? ? ? ? ? ? Ha ?]. unfold tx_core in T. injection T as H H7 H6 H5 H4 H3 H2 H1 H0.
  constructor; unfold magic, sid, tx_expects, tx_ack_of in *; rewrite ?C; try congruence.
  by rewrite H1, H0.
Qed.

(** What a transfer of [data] may put on the wire. *)
Definition transfer_packet (data : list Z) (id : Z) (s : RNetSession) (d : list Z) : Prop :=
  exists p, rnet_proto_decode d (magic s) = Ret p /\ p_session_id p = sid s /\ p_local_slot p = s_wire_slot s /\
    (p_type p = RNET_PKT_STATE_BEGIN /\ announces data id (s_wire_slot s) p \/
     p_type p = RNET_PKT_STATE_CHUNK /\ p_state_xfer_id p = id /\ exists i, genuine data i p).

Lemma transfer_packet_core data id s s' d : same_core s s' -> transfer_packet data id s' d -> transfer_packet data id s d.
Proof. intros (C & W & _). unfold transfer_packet, magic, sid. by rewrite C, W. Qed.

Lemma decode_of_msg m mg si : in_u32 mg -> in_u32 si -> msg_ok m ->
  rnet_proto_decode (packet_bytes mg (msg_type m) si (msg_body m)) mg = Ret (msg_packet si m).
Proof. intros. pose proof (msg_body_bound m ltac:(done)). apply decode_packet_msg; try done. consts. lia. Qed.

(** *** BEGIN *)
Lemma send_begin_ok data id s : sending data id s -> sends (transfer_packet data id s) s (send_state_begin RNET_MAX_PACKET s).
Proof.
  intros [Hd _ _ Ht Hc (Hi & Hi32 & Hi0) Hm Hs _ _]. unfold send_state_begin.
  set (m := MStateBegin (s_wire_slot s) (tx_op (s_tx s)) (tx_slot (s_tx s)) (tx_xfer_id (s_tx s))
    (tx_total (s_tx s)) (tx_crc (s_tx s))).
  assert (msg_ok m) as Hok.
  { cbn. rewrite Hi, Ht, Hc. split; [done|]. split; [|apply rnet_proto_checksum_range].
    unfold valid_total, RNET_STATE_MAX in Hd. ranges. lia. }
  pose proof (encode_msg_bytes m (magic s) (sid s) RNET_MAX_PACKET ltac:(done) Hok) as E. cbn [encode_msg m] in E.
  rewrite E. apply sends_packet; [done..|]. exists (msg_packet (sid s) m). split; [by apply (decode_of_msg m)|].
  split; [done|]. split; [done|]. left. split; [done|]. unfold announces. cbn. by rewrite Hi, Ht, Hc.
Qed.

(** *** Chunks *)

Lemma on_tx_core f s : (forall t, tx_core (f t) = tx_core t) -> same_core s (on_tx f s).
Proof. intros H. split_and!; [done..|]. apply H. Qed.
Lemma quiet_core s s' : quiet s s' -> same_core s s'.
Proof.
  intros Hq. unfold same_core, s_tx. rewrite (quiet_xfer _ _ Hq), (quiet_wire_slot _ _ Hq).
  split; [by quiet_fields Hq|done].
Qed.
Lemma quiet_tx s s' : quiet s s' -> s_tx s' = s_tx s.
Proof. intros Hq. unfold s_tx. by rewrite (quiet_xfer _ _ Hq). Qed.

Lemma next_chunk data k : valid_total data -> 0 <= k -> k * CM < zlen data ->
  let left := u32 (zlen data - k * CM) in
  let chunk := if CM <? left then CM else u16 left in
  0 <= k < n_chunks (zlen data) /\ chunk = zlen (chunk_of data k) /\ 1 <= chunk <= CM /\
  chunk <= zlen (drop (Z.to_nat (k * CM)) data) /\
  take (Z.to_nat chunk) (drop (Z.to_nat (k * CM)) data) = chunk_of data k /\
  u32 (k * CM + chunk) = Z.min ((k + 1) * CM) (zlen data).
Proof.
  intros Hd Hk Hlt left chunk. unfold valid_total, RNET_STATE_MAX in Hd.
  assert (zlen (drop (Z.to_nat (k * CM)) data) = zlen data - k * CM) as Hdr
    by (unfold zlen in *; rewrite length_drop; consts; lia).
  assert (left = zlen data - k * CM) as El by (unfold left; apply u32_id; ranges; consts; lia).
  assert (chunk = Z.min CM (zlen data - k * CM)) as Ec.
  { unfold chunk. rewrite El. destruct (Z.ltb_spec CM (zlen data - k * CM)); [lia|].
    rewrite u16_id by (ranges; consts; lia). lia. }
  rewrite zlen_chunk, Hdr, Ec by done. split; [split; [done|]; apply n_chunks_spec; lia|]. consts.
  split_and!; try lia.
  - unfold chunk_of. destruct (Z.le_gt_cases 1120 (zlen data - k * 1120)); [consts; by rewrite Z.min_l by lia|].
    rewrite Z.min_r by lia. rewrite !take_ge; unfold zlen in *; consts; try done; lia.
  - rewrite u32_id by (ranges; lia). lia.
Qed.

Lemma send_chunk_ok data id k s : sending data id s -> 0 <= k -> k * CM < zlen data ->
  transfer_packet data id s
    (packet_bytes (magic s) RNET_PKT_STATE_CHUNK (sid s) (msg_body (MStateChunk (s_wire_slot s) id (k * CM) (chunk_of data k)))).
Proof.
  intros [Hd _ _ _ _ (_ & Hi & _) Hm Hs _ _] Hk Hlt. destruct (next_chunk data k Hd Hk Hlt) as (Hn & Ec & Hc & _).
  rewrite Ec in Hc. set (m := MStateChunk _ _ _ _).
  assert (msg_ok m) as Hok.
  { cbn. unfold valid_total, RNET_STATE_MAX in Hd. split_and!; try done; ranges; consts; lia. }
  exists (msg_packet (sid s) m). split; [by apply (decode_of_msg m)|]. split; [done|]. split; [done|].
  right. split; [done|]. split; [done|]. exists k. split; [done|]. split; [done|]. split; [done|].
  cbn. rewrite to_nat_zlen. by apply take_ge.
Qed.

Lemma send_chunks_ok data id n we s : sending data id s -> we <= zlen data ->
  sends (transfer_packet data id s) s (send_chunks n data we s) /\ same_core s (send_chunks n data we s) /\
  aligned data (tx_send_cursor (s_tx (send_chunks n data we s))).
Proof.
  revert s. induction n as [|n IH]; intros s Hs Hwe; cbn [send_chunks].
  { split; [reflexivity|]. split; [reflexivity|apply (sn_cursor _ _ _ Hs)]. }
  destruct (Z.ltb_spec (tx_send_cursor (s_tx s)) we) as [Hlt|].
  2:{ split; [reflexivity|]. split; [reflexivity|apply (sn_cursor _ _ _ Hs)]. }
  destruct (sn_cursor _ _ _ Hs) as (k & Hk & Ek). pose proof (sn_total _ _ _ Hs) as Hd.
  assert (tx_send_cursor (s_tx s) = k * CM /\ k * CM < zlen data) as [Ek' Hk'] by lia.
  rewrite Ek', (sn_size _ _ _ Hs). destruct (next_chunk data k Hd Hk Hk') as (Hn & Ec & Hc & Hle & Et & Eu).
  rewrite encode_chunk_from by done. rewrite Et, Eu, (proj1 (sn_id _ _ _ Hs)).
  pose proof (send_chunk_ok data id k s Hs Hk Hk') as HP.
  match goal with |- context [send_raw ?e s] =>
    assert (sends (transfer_packet data id s) s (send_raw e s)) as Hsend by (by apply sends_packet);
    pose proof (quiet_send_raw e s) as Hq; generalize dependent (send_raw e s) end. intros u Hsend Hq.
  set (u' := on_tx _ u).
  assert (same_core s u') as Hcore by (etrans; [by apply quiet_core|by apply on_tx_core]).
  assert (aligned data (tx_send_cursor (s_tx u'))) as Hal by (exists (k + 1); split; [lia|done]).
  destruct (IH u') as (S1 & C1 & A1); [by eapply sending_core|done|].
  split; [|split; [by etrans|done]]. etrans; [exact Hsend|].
  destruct S1 as (new & E & F). exists new. split; [done|]. eapply Forall_impl; [exact F|].
  intros d. by apply transfer_packet_core.
Qed.

(** *** The window *)

Lemma aligned_total data : valid_total data -> aligned data (zlen data).
Proof.
  intros Hd. unfold valid_total in Hd. exists (n_chunks (zlen data)). pose proof (n_chunks_cover (zlen data)).
  split; [unfold n_chunks; consts; mlia|lia].
Qed.

Lemma min_ack_aligned data id s : sending data id s -> aligned data (state_tx_min_ack (s_tx s)).
Proof.
  intros Hs. unfold state_tx_min_ack. apply (for_upto_ind (fun _ m => aligned data m)); [done|..].
  - rewrite (sn_size _ _ _ Hs). apply aligned_total, (sn_total _ _ _ Hs).
  - intros r m Hr Hm. destruct (tx_expects _ r) eqn:E; cbn [andb]; [|done].
    destruct (_ <? _); [by apply (sn_acks _ _ _ Hs)|done].
Qed.

Definition same_part (data : list Z) (t0 t : RNetStateTx) : Prop :=
  tx_core t = tx_core t0 /\ aligned data (tx_send_cursor t).

Lemma timeouts_ok data id s now to min : sending data id s ->
  same_part data (s_tx s) (fst (for_upto RNET_MAX_SLOTS (timeout_receiver now to min) (s_tx s, false))).
Proof.
  intros Hs. apply (for_upto_ind (fun _ st => same_part data (s_tx s) (fst st))); [done|..].
  - split; [done|apply (sn_cursor _ _ _ Hs)].
  - intros r [t b] Hr [Hc Ha]. cbn [fst] in *. unfold timeout_receiver.
    destruct (negb (tx_expects t r) || _) eqn:E; [done|]. bool_prop. destruct (_ <? to); [done|].
    cbn [fst]. destruct (tx_ack_of t r <? tx_send_cursor t); split; try done.
    cbn. injection Hc as _ _ _ _ _ _ _ He Hk. unfold tx_ack_of, tx_expects in *. rewrite Hk.
    apply (sn_acks _ _ _ Hs); [done|]. unfold tx_expects. congruence.
Qed.

(** Steps that neither send nor touch the core. *)
Definition paced (data : list Z) (s s' : RNetSession) : Prop :=
  same_core s s' /\ s_io s' = s_io s /\ (aligned data (tx_send_cursor (s_tx s)) -> aligned data (tx_send_cursor (s_tx s'))).

#[export] Instance paced_preorder data : PreOrder (paced data).
Proof.
  split; [by intros s; split|]. intros a b c (C1 & I1 & A1) (C2 & I2 & A2).
  split; [by etrans|]. split; [by rewrite I2|auto].
Qed.
Lemma paced_on_tx data f s : (forall t, tx_core (f t) = tx_core t) ->
  (aligned data (tx_send_cursor (s_tx s)) -> aligned data (tx_send_cursor (f (s_tx s)))) -> paced data s (on_tx f s).
Proof. intros. split; [by apply on_tx_core|]. by split. Qed.
Lemma paced_xfer data f s : (forall x, xf_tx (f x) = xf_tx x) -> paced data s (on_xfer f s).
Proof. intros H. unfold paced, same_core, s_tx. cbn. by rewrite H. Qed.

Lemma paced_reset data s : paced data s (state_pacing_reset s).
Proof. unfold state_pacing_reset. destruct (state_transport_is_ice s); by apply paced_on_tx. Qed.
Lemma paced_timeout data s : paced data s (state_pacing_on_timeout s).
Proof.
  unfold state_pacing_on_timeout. destruct (state_transport_is_ice s); [|reflexivity].
  transitivity (on_tx pacing_backoff s); [by apply paced_on_tx|]. apply paced_xfer.
  intros x. by repeat case_match.
Qed.
Lemma paced_remember data s : paced data s (state_pacing_remember_success s).
Proof.
  unfold state_pacing_remember_success. destruct (state_transport_is_ice s); [|reflexivity].
  apply paced_xfer. intros x. by repeat case_match.
Qed.
Lemma paced_mark_ready data s : paced data s (state_tx_mark_ready_if_complete s).
Proof.
  unfold state_tx_mark_ready_if_complete. destruct (_ || _); [reflexivity|]. destruct (_ <=? _); [|reflexivity].
  transitivity (on_tx (set_tx_ready 1) s); [by apply paced_on_tx|apply paced_remember].
Qed.
Lemma paced_progress data now m s : paced data s (on_tx (note_progress now m) s).
Proof. apply paced_on_tx; [intros t|]; unfold note_progress; by destruct (_ || _). Qed.

(** What one step of the sender does. *)
Definition sender_step (data : list Z) (id : Z) (s s' : RNetSession) : Prop :=
  sends (transfer_packet data id s) s s' /\ same_core s s' /\ sending data id s'.

Lemma sender_step_trans data id s1 s2 s3 : sender_step data id s1 s2 -> sender_step data id s2 s3 ->
  sender_step data id s1 s3.
Proof.
  intros (S1 & C1 & _) (S2 & C2 & H). split; [|split; [by etrans|done]]. etrans; [exact S1|].
  destruct S2 as (new & E & F). exists new. split; [done|]. eapply Forall_impl; [exact F|].
  intros d. by apply transfer_packet_core.
Qed.
Lemma sender_step_paced data id s s' : sending data id s -> paced data s s' -> sender_step data id s s'.
Proof.
  intros Hs (C & I & A). split; [apply sends_none; by rewrite I|]. split; [done|].
  eapply sending_core; [done| |done]. apply A, (sn_cursor _ _ _ Hs).
Qed.
Lemma sender_step_now data id s : sending data id s -> sender_step data id s (snd (session_now s)).
Proof.
  intros Hs. pose proof (quiet_now s) as Hq. split; [by apply sends_none|]. split; [by apply quiet_core|].
  eapply sending_core; [by apply quiet_core| |done]. rewrite (quiet_tx _ _ Hq). apply (sn_cursor _ _ _ Hs).
Qed.

Lemma drive_begin_step data id now s : sending data id s -> sender_step data id s (drive_begin now s).
Proof.
  intros Hs. unfold drive_begin. destruct (_ && _); [|by apply sender_step_paced].
  apply (sender_step_trans _ _ _ (send_state_begin RNET_MAX_PACKET s)).
  - pose proof (quiet_send_raw (rnet_proto_encode_state_begin RNET_MAX_PACKET (magic s) (sid s) (s_wire_slot s)
      (tx_op (s_tx s)) (tx_slot (s_tx s)) (tx_xfer_id (s_tx s)) (tx_total (s_tx s)) (tx_crc (s_tx s))) s) as Hq.
    split; [by apply send_begin_ok|]. split; [by apply quiet_core|].
    eapply sending_core; [by apply quiet_core| |exact Hs].
    unfold send_state_begin. rewrite (quiet_tx _ _ Hq). apply (sn_cursor _ _ _ Hs).
  - apply sender_step_paced; [|by apply paced_on_tx].
    eapply sending_core; [apply quiet_core, quiet_send_raw| |exact Hs].
    unfold send_state_begin. rewrite (quiet_tx _ _ (quiet_send_raw _ _)). apply (sn_cursor _ _ _ Hs).
Qed.

Lemma drive_window_step data id now s : sending data id s ->
  sender_step data id s (drive_window now (state_tx_min_ack (s_tx s)) data s).
Proof.
  intros Hs. unfold drive_window. set (to := if _ =? 0 then _ else _).
  pose proof (timeouts_ok data id s now to (state_tx_min_ack (s_tx s)) Hs) as [Hc Ha].
  pose proof (min_ack_aligned data id s Hs) as Hmin. set (min := state_tx_min_ack (s_tx s)) in *. clearbody min to.
  destruct (for_upto _ _ _) as [t backoff]. cbn [fst] in *.
  assert (paced data s (on_tx (fun _ => t) s)) as P1 by (split; [by split_and!|by split]).
  set (s1 := on_tx _ s) in *. clearbody s1.
  set (s2 := if backoff then _ else _).
  assert (paced data s s2) as P2 by (etrans; [exact P1|]; unfold s2; destruct backoff; [apply paced_timeout|reflexivity]).
  clearbody s2. set (s3 := if _ <? min then _ else _).
  assert (paced data s s3) as P3.
  { etrans; [exact P2|]. unfold s3. destruct (_ <? _); [|reflexivity]. by apply paced_on_tx. }
  clearbody s3. pose proof (sender_step_paced data id s s3 Hs P3) as St3. destruct St3 as (S3 & C3 & H3).
  set (we := if _ <? u32 _ then _ else _).
  assert (we <= zlen data) as Hwe.
  { unfold we. rewrite (sn_size _ _ _ H3). destruct (Z.ltb_spec (zlen data) (u32 (min + tx_cwnd (s_tx s3)))); lia. }
  destruct (send_chunks_ok data id (Z.to_nat (tx_chunks_cap (s_tx s3))) we s3 H3 Hwe) as (S4 & C4 & A4).
  set (s4 := send_chunks _ _ _ s3) in *. clearbody s4.
  apply (sender_step_trans _ _ _ s3); [by split_and!|]. apply (sender_step_trans _ _ _ s4).
  - split; [done|]. split; [done|]. by eapply sending_core.
  - apply sender_step_paced; [by eapply sending_core|by apply paced_on_tx].
Qed.

(** The sender only puts pieces of the blob on the wire: while a transfer
    of [data] is being sent, everything one call of [state_drive_sender] hands
    to the transport decodes, at the receivers, either to the BEGIN that
    announces [data] or to a chunk of [data], cut at a chunk boundary - so the
    receivers may assume what [state_receive_delivers] asks of the packets.
    The transfer stays in this state. *)
Theorem state_sender_genuine data id s : sending data id s ->
  (exists new, io_sent (s_io (state_drive_sender s)) = io_sent (s_io s) ++ new /\
     Forall (transfer_packet data id s) new) /\
  sending data id (state_drive_sender s).
Proof.
  intros Hs. assert (sender_step data id s (state_drive_sender s)) as (S & _ & H); [|by split].
  unfold state_drive_sender. rewrite (sn_buf _ _ _ Hs). destruct (_ || _); [by apply sender_step_paced|].
  set (s1 := if _ || _ then state_pacing_reset s else s).
  assert (paced data s s1) as P1 by (unfold s1; destruct (_ || _); [apply paced_reset|reflexivity]).
  pose proof (sender_step_paced _ _ _ _ Hs P1) as St1. clearbody s1. pose proof St1 as (_ & _ & H1).
  pose proof (sender_step_now data id s1 H1) as St2. destruct (session_now s1) as [now s2]. cbn [snd] in St2.
  apply (sender_step_trans _ _ _ s1); [done|]. apply (sender_step_trans _ _ _ s2); [done|].
  destruct St2 as (_ & _ & H2). pose proof (drive_begin_step data id now s2 H2) as St3.
  set (s3 := drive_begin now s2) in *. clearbody s3. apply (sender_step_trans _ _ _ s3); [done|].
  destruct St3 as (_ & _ & H3). destruct (_ <=? _); [apply sender_step_paced; [done|apply paced_mark_ready]|].
  pose proof (drive_window_step data id now s3 H3) as St4.
  eapply sender_step_trans; [exact St4|]. destruct St4 as (_ & _ & H4). apply sender_step_paced; [done|].
  etrans; [apply paced_progress|apply paced_mark_ready].
Qed.

(** *** The host of the demo sends 1200 bytes to the guest *)

Definition demo_sender : RNetSession := Eval vm_compute in
  snd (rnet_session_state_begin RNET_STATE_OP_SAVE 0 demo_data demo_running).

Lemma demo_sending : sending demo_data 1 demo_sender.
Proof.
  constructor; try (vm_compute; reflexivity).
  - split; vm_compute; [reflexivity|discriminate].
  - discriminate.
  - split; [reflexivity|]. split; [split; [discriminate|reflexivity]|discriminate].
  - split; [discriminate|reflexivity].
  - split; [discriminate|reflexivity].
  - intros r _ _. exists 0. split; [done|]. transitivity 0; [|reflexivity]. apply (rd_replicate 0 8).
  - apply aligned_total. by split.
Qed.

Lemma state_sender_genuine_witness :
  exists new, io_sent (s_io (state_drive_sender demo_sender)) = io_sent (s_io demo_sender) ++ new /\
    Forall (transfer_packet demo_data 1 demo_sender) new.
Proof. apply (state_sender_genuine demo_data 1 demo_sender demo_sending). Defined.

(** ** When a transfer is complete *)

Definition all_acked (t : RNetStateTx) : Prop := forall r, 0 <= r < RNET_MAX_SLOTS ->
  tx_expects t r = true -> tx_total t <= tx_ack_of t r.

Lemma min_ack_all t : tx_total t <= state_tx_min_ack t <-> all_acked t.
Proof.
  unfold state_tx_min_ack, all_acked.
  apply (for_upto_ind (fun i m => tx_total t <= m <->
    forall r, 0 <= r < i -> tx_expects t r = true -> tx_total t <= tx_ack_of t r)); [done|split; [lia|done]|].
  intros i m Hi IH. destruct (tx_expects t i) eqn:E; cbn [andb].
  - destruct (Z.ltb_spec (tx_ack_of t i) m) as [Hlt|Hge].
    + split; [|intros H; apply H; [lia|done]]. intros Hle r Hr He.
      destruct (Z.eq_dec r i) as [->|]; [done|]. apply IH; [lia|lia|done].
    + rewrite IH. split; intros H1 r Hr He; [|apply H1; [lia|done]].
      destruct (Z.eq_dec r i) as [->|]; [|apply H1; [lia|done]]. pose proof (proj2 IH H1). lia.
  - rewrite IH. split; intros H1 r Hr He; [|apply H1; [lia|done]].
    destruct (Z.eq_dec r i) as [->|]; [congruence|apply H1; [lia|done]].
Qed.

Lemma all_acked_core t t' : tx_core t' = tx_core t -> all_acked t' <-> all_acked t.
Proof.
  intros E. injection E as _ _ Et _ _ _ _ Ee Ea. unfold all_acked, tx_expects, tx_ack_of. by rewrite Et, Ee, Ea.
Qed.

(** Bookkeeping of an outbound transfer: it is open, and its completion flag
    says exactly that every receiver still expected has everything. *)
Record tx_inv (s : RNetSession) : Prop := {
  ti_active : tx_active (s_tx s) <> 0;
  ti_buf : is_Some (tx_buf (s_tx s));
  ti_acks : zlen (tx_ack (s_tx s)) = RNET_MAX_SLOTS;
  ti_ready : tx_ready (s_tx s) <> 0 <-> all_acked (s_tx s)
}.

(** After a change of the acknowledgments or of the expected receivers that
    can only complete the transfer, the completion test restores the
    invariant. *)
Lemma tx_mark_inv s : tx_active (s_tx s) <> 0 -> is_Some (tx_buf (s_tx s)) ->
  zlen (tx_ack (s_tx s)) = RNET_MAX_SLOTS -> (tx_ready (s_tx s) <> 0 -> all_acked (s_tx s)) ->
  tx_inv (state_tx_mark_ready_if_complete s).
Proof.
  intros Ha [buf Eb] Hl Hr. destruct (paced_mark_ready [] s) as ((_ & _ & Hc) & _).
  pose proof (all_acked_core _ _ Hc) as Hall. injection Hc as Eact Ebuf _ _ _ _ _ _ Ek.
  constructor; rewrite ?Eact, ?Ebuf, ?Ek; try done; try (by eexists).
  rewrite Hall. unfold state_tx_mark_ready_if_complete. rewrite Eb, (proj2 (Z.eqb_neq _ _) Ha). cbn [orb].
  rewrite bool_decide_false by done. rewrite orb_false_r. pose proof (min_ack_all (s_tx s)) as Hm. unfold nz.
  destruct (Z.eqb_spec (tx_ready (s_tx s)) 0) as [E|E]; cbn [negb]; [|by split; auto].
  destruct (Z.leb_spec (tx_total (s_tx s)) (state_tx_min_ack (s_tx s))).
  - split; [intros _; by apply Hm|]. intros _. unfold state_pacing_remember_success.
    destruct (state_transport_is_ice _); [|done]. unfold s_tx. cbn. by repeat case_match.
  - rewrite E. split; [done|]. intros H1%Hm. lia.
Qed.

(** The acknowledgment a packet from [from] leaves recorded for it. *)
Definition acked_by (pkt : RNetDecodedPacket) (t : RNetStateTx) (r : Z) : Z :=
  if (p_state_xfer_id pkt =? tx_xfer_id t) && (p_local_slot pkt =? r) && tx_expects t r
  then Z.max (tx_ack_of t r) (Z.min (p_state_ack_bytes pkt) (tx_total t)) else tx_ack_of t r.

(** The state in which [state_on_ack] runs the completion test. *)
Lemma on_ack_spec pkt s : zlen (tx_ack (s_tx s)) = RNET_MAX_SLOTS -> 0 <= p_local_slot pkt -> tx_active (s_tx s) <> 0 ->
  state_on_ack pkt s = s /\ (forall r, 0 <= r < RNET_MAX_SLOTS -> acked_by pkt (s_tx s) r = tx_ack_of (s_tx s) r) \/
  exists u, state_on_ack pkt s = state_tx_mark_ready_if_complete u /\
    tx_active (s_tx u) = tx_active (s_tx s) /\ tx_buf (s_tx u) = tx_buf (s_tx s) /\
    zlen (tx_ack (s_tx u)) = RNET_MAX_SLOTS /\ tx_ready (s_tx u) = tx_ready (s_tx s) /\
    tx_total (s_tx u) = tx_total (s_tx s) /\ tx_xfer_id (s_tx u) = tx_xfer_id (s_tx s) /\
    tx_expect_mask (s_tx u) = tx_expect_mask (s_tx s) /\
    forall r, 0 <= r < RNET_MAX_SLOTS -> tx_ack_of (s_tx u) r = acked_by pkt (s_tx s) r.
Proof.
  intros Hl Hp Ha. unfold state_on_ack. rewrite (proj2 (Z.eqb_neq _ _) Ha). unfold acked_by.
  destruct (Z.eqb_spec (p_state_xfer_id pkt) (tx_xfer_id (s_tx s))) as [Eid|]; cbn [negb andb]; [|by left].
  destruct (Z.leb_spec RNET_MAX_SLOTS (p_local_slot pkt)) as [Hge|Hlt]; cbn [orb].
  { left. split; [done|]. intros r Hr. by destruct (Z.eqb_spec (p_local_slot pkt) r); [lia|]. }
  destruct (tx_expects (s_tx s) (p_local_slot pkt)) eqn:Ee; cbn [negb].
  2:{ left. split; [done|]. intros r Hr. destruct (Z.eqb_spec (p_local_slot pkt) r) as [<-|]; [|done]. by rewrite Ee. }
  right. set (ack := Z.min _ _). destruct (Z.ltb_spec (tx_ack_of (s_tx s) (p_local_slot pkt)) ack) as [Hlt'|Hge'].
  2:{ exists s. split_and!; try done. intros r Hr. destruct (Z.eqb_spec (p_local_slot pkt) r) as [<-|]; [|done].
      rewrite Ee. cbn [andb]. lia. }
  eexists. split; [reflexivity|]. unfold session_now.
  match goal with |- context [on_tx ?g ?v] => set (f := g); set (u := on_tx f v) end.
  assert (forall w, w = u \/ w = state_pacing_on_ack_progress u ->
    tx_core (s_tx w) = tx_core (s_tx u) /\ tx_ready (s_tx w) = tx_ready (s_tx u)) as Hw.
  { intros w [->| ->]; [done|]. unfold state_pacing_on_ack_progress. destruct (state_transport_is_ice u); [|done].
    unfold on_tx. cbn. unfold pacing_progress. by repeat case_match. }
  match goal with |- context [if ?b then state_pacing_on_ack_progress u else u] =>
    destruct (Hw (if b then state_pacing_on_ack_progress u else u)) as [Hc Hr];
      [destruct b; auto|generalize dependent (if b then state_pacing_on_ack_progress u else u)] end.
  intros w Hc Hr. injection Hc as -> -> Et _ Ex _ _ Em Ek. unfold tx_ack_of at 1. rewrite Ek, Hr, Et, Ex, Em.
  unfold u, f. cbn. split_and!; try done; [by rewrite zlen_wr|].
  intros r Hr'. fold (s_tx s). rewrite rd_wr by lia. unfold tx_ack_of in *.
  destruct (Z.eqb_spec (p_local_slot pkt) r) as [<-|]; [|done]. rewrite Ee. cbn [andb]. lia.
Qed.

Lemma on_ack_inv pkt s : 0 <= p_local_slot pkt -> tx_inv s -> tx_inv (state_on_ack pkt s).
Proof.
  intros Hp [Ha Hb Hl Hr]. destruct (on_ack_spec pkt s Hl Hp Ha) as [[-> _]|(u & -> & Ea & Eb & Hl' & Er & Et & _ & Em & Hack)].
  - by constructor.
  - apply tx_mark_inv; [by rewrite Ea|by rewrite Eb|done|]. rewrite Er. intros Hrd%Hr r Hr' He.
    rewrite Hack, Et by done. unfold tx_expects in He. rewrite Em in He. specialize (Hrd r Hr' He).
    unfold acked_by. destruct (_ && _); lia.
Qed.

Lemma drop_peer_inv slot s : tx_inv s -> tx_inv (snd (rnet_session_state_drop_peer slot s)).
Proof.
  intros [Ha Hb Hl Hr]. unfold rnet_session_state_drop_peer. destruct (_ || _) eqn:E; [by constructor|]. bool_prop.
  assert (forall u, tx_inv u -> tx_inv (on_probe (fun p => set_pr_expect_mask (Z.ldiff (pr_expect_mask p) (bit slot)) p) u))
    as Hprobe by (by intros u [? ? ? ?]).
  destruct (nz (tx_active (s_tx s)) && _) eqn:E2.
  - set (u := on_tx _ s). assert (tx_inv (state_tx_mark_ready_if_complete u)) as H1.
    { apply tx_mark_inv; try done. intros Hrd%Hr r Hr' He. apply Hrd; [done|].
      unfold tx_expects, u in He. cbn in He. rewrite has_bit_testbit, Z.ldiff_spec in He by lia.
      unfold tx_expects. rewrite has_bit_testbit by lia. by apply andb_prop in He as [He _]. }
    match goal with |- context [if ?b then _ else _] => destruct b end; [by apply Hprobe|done].
  - match goal with |- context [if ?b then _ else _] => destruct b end; [apply Hprobe|]; by constructor.
Qed.

(** Everything in [state_drive_sender] but its completion test. *)
Definition tx_kept (s s' : RNetSession) : Prop :=
  tx_core (s_tx s') = tx_core (s_tx s) /\ tx_ready (s_tx s') = tx_ready (s_tx s).

#[export] Instance tx_kept_preorder : PreOrder tx_kept.
Proof. split; [by intros s|]. intros a b c [C1 R1] [C2 R2]. split; congruence. Qed.

Lemma kept_quiet s s' : quiet s s' -> tx_kept s s'.
Proof. intros Hq. unfold tx_kept. by rewrite (quiet_tx _ _ Hq). Qed.
Lemma kept_on_tx f s : (forall t, tx_core (f t) = tx_core t /\ tx_ready (f t) = tx_ready t) -> tx_kept s (on_tx f s).
Proof. intros H. apply H. Qed.
Lemma kept_xfer f s : (forall x, xf_tx (f x) = xf_tx x) -> tx_kept s (on_xfer f s).
Proof. intros H. unfold tx_kept, s_tx. cbn. by rewrite H. Qed.
#[export] Hint Resolve kept_quiet quiet_now quiet_send_raw : rnet.

Lemma kept_chunks n buf we s : tx_kept s (send_chunks n buf we s).
Proof.
  revert s. induction n as [|n IH]; intros s; cbn [send_chunks]; [reflexivity|].
  destruct (_ <? _); [|reflexivity]. destruct (rnet_proto_encode_state_chunk _ _ _ _ _ _ _ _); try reflexivity.
  etrans; [apply kept_quiet, quiet_send_raw|]. etrans; [|apply IH]. by apply kept_on_tx.
Qed.

Lemma kept_timeout s : tx_kept s (state_pacing_on_timeout s).
Proof.
  unfold state_pacing_on_timeout. destruct (state_transport_is_ice s); [|reflexivity].
  transitivity (on_tx pacing_backoff s); [by apply kept_on_tx|]. apply kept_xfer. intros x. by repeat case_match.
Qed.

Lemma kept_window now m buf s : tx_kept s (drive_window now m buf s).
Proof.
  unfold drive_window. set (to := if _ =? 0 then _ else _).
  assert (let t := fst (for_upto RNET_MAX_SLOTS (timeout_receiver now to m) (s_tx s, false)) in
    tx_core t = tx_core (s_tx s) /\ tx_ready t = tx_ready (s_tx s)) as Ht.
  { apply (for_upto_ind (fun _ st => tx_core (fst st) = tx_core (s_tx s) /\ tx_ready (fst st) = tx_ready (s_tx s))); [done..|].
    intros r [t b] _ [Hc Hr]. cbn [fst] in *. unfold timeout_receiver. repeat case_match; done. }
  destruct (for_upto _ _ _) as [t backoff]. cbn [fst] in Ht. cbv zeta in Ht.
  transitivity (on_tx (fun _ => t) s); [done|]. set (s1 := on_tx _ s). clearbody s1.
  set (s2 := if backoff then _ else s1).
  transitivity s2; [unfold s2; destruct backoff; [apply kept_timeout|reflexivity]|]. clearbody s2.
  set (s3 := if _ <? m then _ else s2).
  transitivity s3; [unfold s3; destruct (_ <? _); [by apply kept_on_tx|reflexivity]|]. clearbody s3.
  etrans; [apply kept_chunks|by apply kept_on_tx].
Qed.

Lemma tx_inv_kept s s' : tx_kept s s' -> tx_inv s -> tx_inv s'.
Proof.
  intros [Hc Hr] [Ha Hb Hl Hrd]. pose proof (all_acked_core _ _ Hc) as Hall.
  injection Hc as Eact Ebuf _ _ _ _ _ _ Ek. constructor; rewrite ?Eact, ?Ebuf, ?Ek, ?Hr; try done. by rewrite Hall.
Qed.

(** The drive is bookkeeping and sending, then the completion test. *)
Lemma drive_sender_shape s : state_drive_sender s = s \/
  exists u, tx_kept s u /\ state_drive_sender s = state_tx_mark_ready_if_complete u.
Proof.
  unfold state_drive_sender. destruct (tx_buf (s_tx s)) as [buf|]; [|by left]. destruct (_ || _); [by left|]. right.
  set (s1 := if _ || _ then _ else s).
  assert (tx_kept s s1) as K1.
  { unfold s1. destruct (_ || _); [|reflexivity]. unfold state_pacing_reset.
    destruct (state_transport_is_ice s); by apply kept_on_tx. }
  clearbody s1. pose proof (kept_quiet _ _ (quiet_now s1)) as K2.
  destruct (session_now s1) as [now s2]. cbn [snd] in K2.
  assert (tx_kept s (drive_begin now s2)) as K3.
  { etrans; [exact K1|]. etrans; [exact K2|]. unfold drive_begin. destruct (_ && _); [|reflexivity].
    etrans; [apply kept_quiet, quiet_send_raw|by apply kept_on_tx]. }
  set (s3 := drive_begin now s2) in *. clearbody s3. destruct (_ <=? _); [by exists s3|].
  eexists. split; [|reflexivity]. etrans; [exact K3|]. etrans; [apply kept_window|].
  apply kept_on_tx. intros t. unfold note_progress. by destruct (_ || _).
Qed.

Lemma drive_sender_inv s : tx_inv s -> tx_inv (state_drive_sender s).
Proof.
  intros H. destruct (drive_sender_shape s) as [->|(u & K & ->)]; [done|].
  destruct (tx_inv_kept _ _ K H) as [? ? ? Hu]. apply tx_mark_inv; try done. apply Hu.
Qed.

Lemma drive_sender_core s : tx_core (s_tx (state_drive_sender s)) = tx_core (s_tx s).
Proof.
  destruct (drive_sender_shape s) as [->|(u & [K _] & ->)]; [done|]. rewrite <- K.
  by destruct (paced_mark_ready [] u) as ((_ & _ & Hc) & _).
Qed.

(** ** A whole transfer *)

Lemma default_receivers_seat s op : 0 <= cfg_slot_count (s_cfg s) -> state_default_receivers s op <> 0 ->
  exists r, 0 <= r < RNET_MAX_SLOTS /\ has_bit (state_default_receivers s op) r = true.
Proof.
  intros Hn. unfold state_default_receivers. destruct (_ =? _); [intros _; exists 0; by split|].
  destruct (Z.leb_spec 0 (ct_rb_peer_slot (s_ctl s))).
  - destruct (_ && _) eqn:E; [|done]. bool_prop. intros _. exists (ct_rb_peer_slot (s_ctl s)).
    split; [done|]. rewrite has_bit_bit by done. apply Z.eqb_refl.
  - apply (for_upto_ind (fun i m => m <> 0 -> exists r, 0 <= r < RNET_MAX_SLOTS /\ has_bit m r = true)); [consts; lia|done|].
    intros i m Hi IH. destruct (remote_seat s i); [|done]. intros _. exists i. split; [lia|].
    rewrite has_bit_lor, has_bit_bit, Z.eqb_refl by lia. apply orb_true_r.
Qed.

(** What happens to an outbound transfer: an ACK arrives, the pump drives the
    sender, the host gives up on a peer. *)
Inductive tx_event : Type :=
| EvAck (pkt : RNetDecodedPacket)
| EvDrive
| EvDrop (slot : Z).

Definition tx_step (s : RNetSession) (e : tx_event) : RNetSession :=
  match e with
  | EvAck pkt => state_on_ack pkt s
  | EvDrive => state_drive_sender s
  | EvDrop slot => snd (rnet_session_state_drop_peer slot s)
  end.

Definition event_ok (e : tx_event) : Prop :=
  match e with EvAck pkt => 0 <= p_local_slot pkt | _ => True end.

(** Seat [r] has acknowledged the whole blob of [total] bytes. *)
Definition heard (id total : Z) (evs : list tx_event) (r : Z) : Prop :=
  exists pkt, EvAck pkt ∈ evs /\ p_local_slot pkt = r /\ p_state_xfer_id pkt = id /\ total <= p_state_ack_bytes pkt.

Record tx_hist (id total : Z) (past : list tx_event) (s : RNetSession) : Prop := {
  th_inv : tx_inv s;
  th_id : tx_xfer_id (s_tx s) = id;
  th_total : tx_total (s_tx s) = total;
  th_acks : forall r, 0 <= r < RNET_MAX_SLOTS -> tx_expects (s_tx s) r = true ->
    total <= tx_ack_of (s_tx s) r <-> heard id total past r
}.

Lemma hist_core id total past s s' : tx_inv s' -> tx_core (s_tx s') = tx_core (s_tx s) -> tx_hist id total past s ->
  tx_hist id total past s'.
Proof.
  intros Hi Hc [_ Hid Ht Ha]. injection Hc as _ _ Et _ Ei _ _ Em Ek.
  constructor; unfold tx_expects, tx_ack_of in *; rewrite ?Et, ?Ei, ?Em, ?Ek; done.
Qed.

Lemma heard_snoc id total past e r : heard id total (past ++ [e]) r <->
  heard id total past r \/ exists pkt, e = EvAck pkt /\ p_local_slot pkt = r /\ p_state_xfer_id pkt = id /\
    total <= p_state_ack_bytes pkt.
Proof.
  unfold heard. setoid_rewrite elem_of_app. setoid_rewrite list_elem_of_singleton. split.
  - intros (pkt & [Hin|<-] & H); [left; by exists pkt|right; by exists pkt].
  - intros [(pkt & Hin & H)|(pkt & -> & H)]; exists pkt; auto.
Qed.

Lemma hist_ack id total past s pkt : 0 <= p_local_slot pkt -> tx_hist id total past s ->
  tx_hist id total (past ++ [EvAck pkt]) (state_on_ack pkt s).
Proof.
  intros Hp [Hi Hid Ht Ha]. pose proof (on_ack_inv pkt s Hp Hi) as Hi'.
  assert (forall r, 0 <= r < RNET_MAX_SLOTS -> tx_expects (s_tx s) r = true ->
    total <= acked_by pkt (s_tx s) r <-> heard id total (past ++ [EvAck pkt]) r) as Hstep.
  { intros r Hr He. rewrite heard_snoc, <- (Ha r Hr He). unfold acked_by. rewrite Hid, Ht, He, andb_true_r.
    destruct (Z.eqb_spec (p_state_xfer_id pkt) id) as [Ex|Ex]; cbn [andb];
      [destruct (Z.eqb_spec (p_local_slot pkt) r) as [Es|Es]|].
    - rewrite Z.max_le_iff, Z.min_glb_iff. split; [intros [|[]]; [by left|right; by exists pkt]|].
      intros [|(p & [= <-] & _ & _ & Hle)]; [by left|right; lia].
    - split; [by left|]. by intros [|(p & [= <-] & ? & _)].
    - split; [by left|]. by intros [|(p & [= <-] & _ & ? & _)]. }
  destruct (on_ack_spec pkt s (ti_acks _ Hi) Hp (ti_active _ Hi))
    as [[E Hsame]|(u & E & _ & _ & _ & _ & Et & Ex & Em & Hack)]; rewrite E in *.
  - constructor; try done. intros r Hr He. by rewrite <- Hstep, Hsame.
  - destruct (paced_mark_ready [] u) as ((_ & _ & Hc) & _). injection Hc as _ _ Et' _ Ei' _ _ Em' Ek'.
    constructor; [done|congruence|congruence|]. unfold tx_expects, tx_ack_of in *. rewrite Em', Ek', Em.
    intros r Hr He. by rewrite Hack, Hstep.
Qed.

Lemma heard_other id total past e r : (forall pkt, e <> EvAck pkt) ->
  heard id total (past ++ [e]) r <-> heard id total past r.
Proof. intros He. rewrite heard_snoc. split; [|by left]. by intros [|(pkt & -> & _)]; [|destruct (He pkt)]. Qed.

Lemma hist_step id total past s e : event_ok e -> tx_hist id total past s ->
  tx_hist id total (past ++ [e]) (tx_step s e).
Proof.
  intros Ho H. destruct e as [pkt| |slot]; cbn [tx_step]; [by apply hist_ack|..].
  - assert (tx_hist id total past (state_drive_sender s)) as [Hi Hid Ht Ha].
    { eapply hist_core; [apply drive_sender_inv, H|apply drive_sender_core|done]. }
    constructor; try done. intros r Hr He. by rewrite heard_other, Ha.
  - pose proof (drop_peer_inv slot s (th_inv _ _ _ _ H)) as Hi. destruct H as [Hi0 Hid Ht Ha].
    assert (let t := s_tx (snd (rnet_session_state_drop_peer slot s)) in tx_xfer_id t = tx_xfer_id (s_tx s) /\
      tx_total t = tx_total (s_tx s) /\ tx_ack t = tx_ack (s_tx s) /\
      forall r, 0 <= r -> tx_expects t r = true -> tx_expects (s_tx s) r = true) as (E1 & E2 & E3 & E4).
    { unfold rnet_session_state_drop_peer. destruct (_ || _) eqn:E; [done|]. bool_prop.
      destruct (nz (tx_active (s_tx s)) && _).
      - set (u := on_tx _ s). destruct (paced_mark_ready [] u) as ((_ & _ & Hc) & _).
        injection Hc as _ _ Et _ Ei _ _ Em Ek.
        assert (forall r, 0 <= r -> has_bit (tx_expect_mask (s_tx u)) r = true -> tx_expects (s_tx s) r = true) as Hx.
        { intros r Hr He. unfold u in He. cbn in He. rewrite has_bit_testbit, Z.ldiff_spec in He by lia.
          unfold tx_expects. rewrite has_bit_testbit by lia. by apply andb_prop in He as [He _]. }
        match goal with |- context [if ?b then _ else _] => destruct b end;
          unfold tx_expects at 1; cbn [snd on_probe]; unfold s_tx in *; cbn; rewrite ?Et, ?Ei, ?Em, ?Ek; done.
      - match goal with |- context [if ?b then _ else _] => destruct b end; done. }
    constructor; [done|congruence|congruence|]. intros r Hr He. rewrite heard_other by done.
    unfold tx_ack_of. rewrite E3. apply Ha; [done|]. by apply E4; [lia|].
Qed.

Lemma hist_run id total evs : Forall event_ok evs -> forall past s, tx_hist id total past s ->
  tx_hist id total (past ++ evs) (fold_left tx_step evs s).
Proof.
  induction 1 as [|e evs He _ IH]; intros past s H; cbn [fold_left]; [by rewrite app_nil_r|].
  rewrite (app_assoc past [e] evs : past ++ e :: evs = _). apply IH. by apply hist_step.
Qed.

(** A transfer that was just opened. *)
Lemma fresh_tx_hist t s : s_tx s = t -> tx_active t <> 0 -> is_Some (tx_buf t) -> tx_ready t = 0 ->
  tx_ack t = replicate 8 0 -> 0 < tx_total t ->
  (exists r, 0 <= r < RNET_MAX_SLOTS /\ tx_expects t r = true) -> tx_hist (tx_xfer_id t) (tx_total t) [] s.
Proof.
  intros E Ha Hb Hr Hk Ht (r & Hr8 & He).
  assert (forall i, tx_ack_of t i = 0) as H0 by (intros i; unfold tx_ack_of; rewrite Hk; apply (rd_replicate 0 8)).
  constructor; rewrite ?E; try done.
  - constructor; rewrite ?E; try done; [by rewrite Hk|]. rewrite Hr. split; [done|].
    intros Hall. specialize (Hall r Hr8 He). rewrite H0 in Hall. lia.
  - intros i Hi _. rewrite H0. split; [lia|]. by intros (pkt & Hin%elem_of_nil & _).
Qed.

Lemma state_begin_hist op slot data s s1 : 0 <= cfg_slot_count (s_cfg s) ->
  rnet_session_state_begin op slot data s = (true, s1) ->
  tx_buf (s_tx s1) = Some data /\ tx_expect_mask (s_tx s1) = state_default_receivers s op /\
  tx_hist (tx_xfer_id (s_tx s1)) (zlen data) [] s1.
Proof.
  intros Hn. unfold rnet_session_state_begin. set (expect := state_default_receivers s op).
  destruct (_ || (RNET_STATE_MAX <? _)) eqn:Esz; [done|]. bool_prop. destruct (_ || _); [done|].
  match goal with |- context [if (if ?a then ?b else ?c) then _ else _] => destruct (if a then b else c); [done|] end.
  destruct (Z.eqb_spec expect 0) as [|Hexp]; [done|].
  assert (tx_ack (s_tx (state_tx_clear (state_probe_clear s))) = replicate 8 0) as Hz.
  { unfold state_tx_clear. by destruct (_ =? _). }
  set (s0 := state_tx_clear _) in *. clearbody s0. unfold malloc_ok. destruct (hd true _); cbn [negb]; [|done].
  set (s2 := on_xfer _ _). assert (tx_ack (s_tx s2) = replicate 8 0) as Hz2 by done.
  set (serial := next_xfer_id _). clearbody s2 serial.
  pose proof (quiet_now s2) as Hq. destruct (session_now s2) as [now s3]. cbn [snd] in Hq.
  assert (tx_ack (s_tx s3) = replicate 8 0) as Hz3 by (by rewrite (quiet_tx _ _ Hq)). clear Hq Hz Hz2.
  set (s4 := on_tx _ s3).
  destruct (default_receivers_seat s op Hn Hexp) as (r & Hr & Hb).
  assert (tx_hist (tx_xfer_id (s_tx s4)) (zlen data) [] s4) as H4.
  { pose proof (zlen_nonneg data). apply (fresh_tx_hist (s_tx s4)); try done; cbn; [lia|]. by exists r. }
  assert (tx_buf (s_tx s4) = Some data /\ tx_expect_mask (s_tx s4) = expect) as [B4 X4] by done.
  clearbody s4. set (s5 := send_state_begin 64 _).
  assert (tx_kept s4 s5) as K5.
  { transitivity (state_pacing_reset s4).
    - unfold state_pacing_reset. destruct (state_transport_is_ice s4); by apply kept_on_tx.
    - apply kept_quiet, quiet_send_raw. }
  clearbody s5. pose proof (kept_quiet _ _ (quiet_now s5)) as K6. destruct (session_now s5) as [now' s6]. cbn [snd] in K6.
  set (s7 := on_tx _ s6). assert (tx_kept s4 s7) as K7.
  { etrans; [exact K5|]. etrans; [exact K6|]. by apply kept_on_tx. }
  clearbody s7. intros [= <-]. pose proof (drive_sender_core s7) as Hc. rewrite (proj1 K7) in Hc.
  assert (tx_hist (tx_xfer_id (s_tx s4)) (zlen data) [] (state_drive_sender s7)) as H8.
  { eapply hist_core; [|exact Hc|exact H4]. eapply drive_sender_inv, tx_inv_kept; [exact K7|apply H4]. }
  injection Hc as _ Eb _ _ Ei _ _ Em _. rewrite Ei, Eb, Em. done.
Qed.

(** A transfer is complete exactly when everyone has it. The host opens a
    transfer of [data]; then acknowledgments of any kind arrive from anywhere,
    the pump drives the sender and the host drops peers, in any order. At any
    point the transfer is reported complete if and only if every receiver that
    is still expected has itself acknowledged, for this transfer, the whole
    blob; the expected receivers are those of the start less the dropped. *)
Theorem state_tx_completes op slot data s s1 evs : 0 <= cfg_slot_count (s_cfg s) ->
  rnet_session_state_begin op slot data s = (true, s1) -> Forall event_ok evs ->
  let t := s_tx (fold_left tx_step evs s1) in
  tx_ready t <> 0 <->
  forall r, 0 <= r < RNET_MAX_SLOTS -> tx_expects t r = true ->
    heard (tx_xfer_id (s_tx s1)) (zlen data) evs r.
Proof.
  intros Hn E Hev t. destruct (state_begin_hist op slot data s s1 Hn E) as (_ & _ & H).
  pose proof (hist_run _ _ evs Hev [] s1 H) as [Hi Hid Ht Ha]. pose proof (ti_ready _ Hi) as Hrd.
  fold t in Ha, Hid, Ht, Hrd. rewrite Hrd. unfold all_acked. rewrite Ht. cbn [app] in Ha.
  split; intros Hall r Hr He; apply (Ha r Hr He), Hall; done.
Qed.

Definition demo_ack (bytes : Z) : RNetDecodedPacket :=
  set_p_state_xfer_id 1 (set_p_state_ack_bytes bytes (demo_packet RNET_PKT_STATE_ACK 1)).

Lemma state_tx_completes_witness :
  tx_ready (s_tx (fold_left tx_step [EvAck (demo_ack 1120); EvDrive; EvAck (demo_ack 1200)] demo_sender)) <> 0.
Proof.
  apply (state_tx_completes RNET_STATE_OP_SAVE 0 demo_data demo_running demo_sender
    [EvAck (demo_ack 1120); EvDrive; EvAck (demo_ack 1200)]).
  - discriminate.
  - vm_compute. reflexivity.
  - repeat constructor; discriminate.
  - intros r Hr He. exists (demo_ack 1200). split; [right; right; left|].
    split; [|split; [reflexivity|discriminate]].
    destruct (Z.eq_dec r 1) as [->|Hne]; [reflexivity|exfalso].
    change (has_bit 2 r = true) in He. rewrite has_bit_testbit in He by lia.
    change 2 with (2 ^ 1) in He. rewrite Z.pow2_bits_false in He by lia. discriminate.
Defined.
