(* ===== verification/ProbeProofs.v ===== *)
(** * The session: error paths of the transfer and the hash probe

    Two situations in which the two ends of a transfer come to different
    conclusions. *)

From stdpp Require Import base list numbers list_numbers.
From S2P Require Import Prelude Protocol ProtocolProofs Config Rings CtrlQueue Session SessionState SessionMain SessionProofs SessionStart StateProofs SenderProofs.

(** ** A digest that does not match *)

(** The datagram of an acknowledgment. *)
Definition ack_datagram (s : RNetSession) (id bytes : Z) : list Z :=
  packet_bytes (magic s) RNET_PKT_STATE_ACK (sid s) (msg_body (MStateAck (s_wire_slot s) id bytes)).

Lemma ack_raw_sends s id bytes : in_u32 id -> in_u32 bytes ->
  state_send_ack_raw id bytes s = transport_send (ack_datagram s id bytes) s.
Proof.
  intros Hi Hb. unfold state_send_ack_raw.
  assert (rnet_proto_encode_state_ack 64 (magic s) (sid s) (s_wire_slot s) id bytes = Ret (ack_datagram s id bytes)) as ->.
  { unfold rnet_proto_encode_state_ack, ack_datagram. cbn [msg_body]. pass_guard. wexec. }
  by apply send_raw_plain.
Qed.

Lemma ack_datagram_decodes s id bytes : in_u32 (magic s) -> in_u32 (sid s) -> in_u32 id -> in_u32 bytes ->
  rnet_proto_decode (ack_datagram s id bytes) (magic s) = Ret (msg_packet (sid s) (MStateAck (s_wire_slot s) id bytes)).
Proof. intros. by apply (decode_of_msg (MStateAck (s_wire_slot s) id bytes)). Qed.

(** What an acknowledgment does to the sender's books. *)
Lemma on_ack_value pkt t : 0 <= p_local_slot pkt -> tx_inv t ->
  let t' := s_tx (state_on_ack pkt t) in
  tx_inv (state_on_ack pkt t) /\ tx_xfer_id t' = tx_xfer_id (s_tx t) /\ tx_total t' = tx_total (s_tx t) /\
  tx_expect_mask t' = tx_expect_mask (s_tx t) /\
  forall r, 0 <= r < RNET_MAX_SLOTS -> tx_ack_of t' r = acked_by pkt (s_tx t) r.
Proof.
  intros Hp Hi t'. split; [by apply on_ack_inv|].
  destruct (on_ack_spec pkt t (ti_acks _ Hi) Hp (ti_active _ Hi))
    as [[E Hs]|(u & E & _ & _ & _ & _ & Et & Ex & Em & Ha)]; unfold t'; rewrite E.
  - split_and!; try done; intros r Hr; by rewrite Hs.
  - destruct (paced_mark_ready [] u) as ((_ & _ & Hc) & _). injection Hc as _ _ Et' _ Ei' _ _ Em' Ek'.
    unfold tx_ack_of at 1. rewrite Et', Ei', Em', Ek'. split_and!; try done; intros r Hr; by apply Ha.
Qed.

Lemma ack_sent src s : in_u32 (rx_xfer_id (s_rx s src)) -> in_u32 (rx_contiguity (s_rx s src)) ->
  exists ms u, state_rx_send_ack src s = on_rx src (set_rx_last_ack_ms ms) u /\ quiet s u /\
    io_sent (s_io u) = io_sent (s_io s) ++ [ack_datagram s (rx_xfer_id (s_rx s src)) (rx_contiguity (s_rx s src))].
Proof.
  intros Hi Hc. unfold state_rx_send_ack. rewrite ack_raw_sends by done.
  set (v := transport_send _ s). exists (fst (session_now v)), (snd (session_now v)).
  split; [done|]. split; [|done]. etrans; [apply quiet_send|apply quiet_now].
Qed.

(** A stored chunk touches the buffer, the bitmap and the watermark only. *)
Lemma rx_store_shape pkt buf rx : exists b c, rx_store pkt buf rx =
  set_rx_contiguity c (set_rx_bits b (set_rx_buf (Some (blit buf (p_state_offset pkt)
    (take (Z.to_nat (p_state_chunk_size pkt)) (p_state_chunk pkt)))) rx)).
Proof.
  assert (forall n i r, exists c, advance_contiguity n i r = set_rx_contiguity c r) as Hadv.
  { induction n as [|n IH]; intros i r; cbn [advance_contiguity]; [exists (rx_contiguity r); by destruct r|].
    destruct (_ && _); [|exists (rx_contiguity r); by destruct r].
    match goal with |- context [advance_contiguity n ?j ?x] => destruct (IH j x) as [c ->] end. by exists c. }
  unfold rx_store, state_rx_advance_contiguity.
  match goal with |- context [advance_contiguity ?n ?j ?x] => destruct (Hadv n j x) as [c ->] end.
  unfold state_rx_set_chunk. destruct (_ <=? _); [exists (rx_bits rx), c; by destruct rx|by eexists _, c].
Qed.

(** The identity a session puts on its packets. *)
Definition same_id (s s' : RNetSession) : Prop := s_cfg s' = s_cfg s /\ s_wire_slot s' = s_wire_slot s.

Lemma same_id_datagram s s' id bytes : same_id s s' -> ack_datagram s' id bytes = ack_datagram s id bytes.
Proof. intros [C W]. unfold ack_datagram, magic, sid. by rewrite C, W. Qed.
Lemma quiet_same_id s s' : quiet s s' -> same_id s s'.
Proof. intros Hq. split; [by quiet_fields Hq|by apply quiet_wire_slot]. Qed.

(** Acknowledging: the datagram sent, the receive only stamped. *)
Lemma ack_effect src s rx : rx_slots s -> 0 <= src < RNET_MAX_SLOTS -> s_rx s src = rx ->
  in_u32 (rx_xfer_id rx) -> in_u32 (rx_contiguity rx) ->
  let s' := state_rx_send_ack src s in
  rx_slots s' /\ same_id s s' /\ (exists ms, s_rx s' src = set_rx_last_ack_ms ms rx) /\
  io_sent (s_io s') = io_sent (s_io s) ++ [ack_datagram s (rx_xfer_id rx) (rx_contiguity rx)].
Proof.
  intros Hl Hs <- Hi Hc s'. destruct (ack_sent src s Hi Hc) as (ms & u & E & Hq & Hsent). unfold s'. rewrite E.
  destruct (aside_quiet src _ _ Hq) as (L & _ & R). split; [by apply rx_slots_on_rx, L|].
  split; [by apply quiet_same_id in Hq|]. split; [|done].
  exists ms. rewrite s_rx_on_rx, Z.eqb_refl by (auto || lia). by rewrite R.
Qed.

Lemma mark_mismatch src s b : rx_buf (s_rx s src) = Some b -> rx_active (s_rx s src) <> 0 -> rx_ready (s_rx s src) = 0 ->
  rx_contiguity (s_rx s src) = rx_total (s_rx s src) ->
  rnet_proto_checksum (take (Z.to_nat (rx_total (s_rx s src))) b) <> rx_crc (s_rx s src) ->
  state_rx_mark_ready_if_complete src s = state_rx_send_ack src (on_rx src (set_rx_contiguity 0) s).
Proof.
  intros Eb Ha Hr Hc Hcrc. unfold state_rx_mark_ready_if_complete.
  rewrite Eb, Hr, Hc, (proj2 (Z.eqb_neq _ _) Ha), Z.ltb_irrefl, (proj2 (Z.eqb_neq _ _) Hcrc). reflexivity.
Qed.

(** Two acknowledgments in a row: everything, then nothing. *)
Lemma ack_full_then_zero m si ws id total t : tx_inv t -> tx_xfer_id (s_tx t) = id -> tx_total (s_tx t) = total ->
  0 <= ws < RNET_MAX_SLOTS -> tx_expects (s_tx t) ws = true ->
  let p n := msg_packet si (MStateAck ws id n) in
  m = p total -> total <= tx_ack_of (s_tx (state_on_ack (p 0) (state_on_ack m t))) ws.
Proof.
  intros Ht Eid Etot Hws Hex p ->.
  destruct (on_ack_value (p total) t) as (Hi1 & _ & _ & _ & A1); [apply Hws|done|].
  destruct (on_ack_value (p 0) (state_on_ack (p total) t)) as (_ & _ & _ & _ & A2); [apply Hws|done|].
  rewrite A2 by done.
  assert (total <= tx_ack_of (s_tx (state_on_ack (p total) t)) ws) as Hfull.
  { rewrite A1 by done. unfold acked_by.
    change (p_state_xfer_id (p total)) with id. change (p_local_slot (p total)) with ws.
    change (p_state_ack_bytes (p total)) with total. rewrite Eid, Hex, !Z.eqb_refl, Etot. cbn [andb]. lia. }
  unfold acked_by. destruct (_ && _); lia.
Qed.

(** Chunk completed, digest wrong: both acknowledgments leave. *)
Lemma chunk_tail_mismatch src s rx b : rx_slots s -> 0 <= src < RNET_MAX_SLOTS -> s_rx s src = rx ->
  rx_buf rx = Some b -> rx_active rx <> 0 -> rx_ready rx = 0 -> rx_contiguity rx = rx_total rx ->
  rnet_proto_checksum (take (Z.to_nat (rx_total rx)) b) <> rx_crc rx ->
  in_u32 (rx_xfer_id rx) -> in_u32 (rx_total rx) ->
  let s' := chunk_tail src s in
  rx_ready (s_rx s' src) = 0 /\ rx_contiguity (s_rx s' src) = 0 /\
  io_sent (s_io s') = io_sent (s_io s) ++
    [ack_datagram s (rx_xfer_id rx) (rx_total rx); ack_datagram s (rx_xfer_id rx) 0].
Proof.
  intros L1 Hs E1 Eb Ha Hr Hc Hcrc Ui Ut s'. unfold s', chunk_tail.
  pose proof (quiet_now s) as Q1. assert (io_sent (s_io (snd (session_now s))) = io_sent (s_io s)) as Q1s by reflexivity.
  destruct (session_now s) as [now s2]. cbn [snd] in Q1, Q1s.
  destruct (aside_quiet src _ _ Q1) as (L & _ & R). specialize (L L1). specialize (R L1). rewrite E1 in R.
  assert (forall i n, ack_datagram s2 i n = ack_datagram s i n) as Ed
    by (intros; apply same_id_datagram, quiet_same_id, Q1).
  clear Q1. rewrite R, Hc, (proj2 (Z.leb_le _ _) (Z.le_refl _)), orb_true_r.
  destruct (ack_effect src s2 rx L Hs R Ui) as (L3 & I3 & (ms & E3) & S3); [rewrite Hc; exact Ut|].
  rewrite Ed, Hc, Q1s in S3. set (s3 := state_rx_send_ack src s2) in *. clearbody s3.
  rewrite (mark_mismatch src s3 b) by (rewrite E3; assumption).
  set (s4 := on_rx src (set_rx_contiguity 0) s3).
  assert (s_rx s4 src = set_rx_contiguity 0 (set_rx_last_ack_ms ms rx)) as E4.
  { unfold s4. rewrite s_rx_on_rx, Z.eqb_refl, E3 by (assumption || lia). reflexivity. }
  assert (io_sent (s_io s4) = io_sent (s_io s3)) as Io4 by reflexivity.
  assert (forall i n, ack_datagram s4 i n = ack_datagram s i n) as Ed4.
  { intros i n. rewrite <- Ed, <- (same_id_datagram s2 s3) by exact I3. reflexivity. }
  assert (rx_slots s4) as L4 by (apply rx_slots_on_rx, L3). clearbody s4.
  destruct (ack_effect src s4 _ L4 Hs E4 Ui (conj (Z.le_refl 0) eq_refl)) as (_ & _ & (ms' & E5) & S5).
  rewrite E5. split; [exact Hr|]. split; [reflexivity|].
  rewrite S5, Io4, S3, <- app_assoc, Ed4. reflexivity.
Qed.

(** A transfer whose digest does not match is reported complete to the
    sender. When the chunk arrives that fills the last gap and the digest of
    the blob differs from the announced one, the receiver is not ready and its
    watermark goes back to 0, which the comment at the place calls a request to
    resend from 0. But it has by then acknowledged the whole blob, and only
    after that 0; and a sender that hears the two acknowledgments counts this
    receiver as done. *)
Theorem crc_mismatch_counts_as_done pkt s buf :
  let src := p_local_slot pkt in let rx := s_rx s src in let rx1 := rx_store pkt buf rx in
  rx_slots s -> 0 <= src < RNET_MAX_SLOTS -> src <> s_wire_slot s -> rx_buf rx = Some buf ->
  rx_active rx <> 0 -> rx_ready rx = 0 -> p_state_xfer_id pkt = rx_xfer_id rx ->
  p_state_offset pkt <= rx_total rx -> p_state_chunk_size pkt <> 0 ->
  u32 (p_state_offset pkt + p_state_chunk_size pkt) <= rx_total rx ->
  in_u32 (rx_xfer_id rx) -> in_u32 (rx_total rx) -> in_u32 (magic s) -> in_u32 (sid s) ->
  rx_contiguity rx1 = rx_total rx ->
  (forall b, rx_buf rx1 = Some b -> rnet_proto_checksum (take (Z.to_nat (rx_total rx)) b) <> rx_crc rx) ->
  let s' := state_on_chunk pkt s in
  rx_ready (s_rx s' src) = 0 /\ rx_contiguity (s_rx s' src) = 0 /\
  exists d1 d2 p1 p2, io_sent (s_io s') = io_sent (s_io s) ++ [d1; d2] /\
    rnet_proto_decode d1 (magic s) = Ret p1 /\ rnet_proto_decode d2 (magic s) = Ret p2 /\
    forall t, tx_inv t -> tx_xfer_id (s_tx t) = rx_xfer_id rx -> tx_total (s_tx t) = rx_total rx ->
      0 <= s_wire_slot s < RNET_MAX_SLOTS -> tx_expects (s_tx t) (s_wire_slot s) = true ->
      tx_total (s_tx t) <= tx_ack_of (s_tx (state_on_ack p2 (state_on_ack p1 t))) (s_wire_slot s).
Proof.
  intros src rx rx1 Hl Hs Hw Eb Ha Hr Hid Ho Hz He Ui Ut Um Us Hc Hcrc s'.
  destruct (rx_store_shape pkt buf rx) as (bits & c & Esh). fold rx1 in Esh.
  assert (rx_xfer_id rx1 = rx_xfer_id rx /\ rx_total rx1 = rx_total rx /\ rx_ready rx1 = rx_ready rx /\
    rx_active rx1 = rx_active rx /\ rx_crc rx1 = rx_crc rx) as (F1 & F2 & F3 & F4 & F5) by (rewrite Esh; split_and!; reflexivity).
  assert (exists b, rx_buf rx1 = Some b) as [b F6] by (rewrite Esh; eexists; reflexivity).
  destruct (chunk_tail_mismatch src (on_rx src (rx_store pkt buf) s) rx1 b) as (R1 & R2 & S).
  { apply rx_slots_on_rx, Hl. } { exact Hs. }
  { rewrite s_rx_on_rx, Z.eqb_refl by (assumption || lia). reflexivity. }
  { exact F6. } { congruence. } { congruence. } { congruence. } { rewrite F2, F5. apply Hcrc, F6. }
  { rewrite F1. exact Ui. } { rewrite F2. exact Ut. }
  unfold s'. rewrite (on_chunk_tail pkt s buf) by (assumption || apply Hs).
  split; [exact R1|]. split; [exact R2|]. rewrite F1, F2 in S.
  exists (ack_datagram s (rx_xfer_id rx) (rx_total rx)), (ack_datagram s (rx_xfer_id rx) 0).
  exists (msg_packet (sid s) (MStateAck (s_wire_slot s) (rx_xfer_id rx) (rx_total rx))),
    (msg_packet (sid s) (MStateAck (s_wire_slot s) (rx_xfer_id rx) 0)).
  split; [exact S|]. split; [apply ack_datagram_decodes; assumption|].
  split; [apply ack_datagram_decodes; try assumption; exact (conj (Z.le_refl 0) eq_refl)|].
  intros t Ht Etid Ettot Hws Hex. rewrite Ettot. by apply (ack_full_then_zero _ (sid s)).
Qed.

(** *** The transfer of the demo, announced with another digest *)

Definition demo_mismatch : RNetSession := Eval vm_compute in
  state_on_chunk (demo_chunk 0) (state_on_begin (set_p_state_payload_crc 0 demo_begin) demo_guest).
Definition demo_half : list Z := Eval vm_compute in default [] (rx_buf (s_rx demo_mismatch 0)).

Lemma demo_sender_inv : tx_inv demo_sender.
Proof.
  destruct (state_begin_hist RNET_STATE_OP_SAVE 0 demo_data demo_running demo_sender) as (_ & _ & H);
    [discriminate|vm_compute; reflexivity|apply H].
Qed.

Lemma crc_mismatch_counts_as_done_witness :
  rx_ready (s_rx (state_on_chunk (demo_chunk 1) demo_mismatch) 0) = 0 /\
  exists p1 p2, tx_ack_of (s_tx (state_on_ack p2 (state_on_ack p1 demo_sender))) 1 >= 1200.
Proof.
  destruct (crc_mismatch_counts_as_done (demo_chunk 1) demo_mismatch demo_half) as (H & _ & _ & _ & p1 & p2 & _ & _ & _ & Hs).
  - reflexivity.
  - split; [discriminate|reflexivity].
  - discriminate.
  - vm_compute. reflexivity.
  - discriminate.
  - reflexivity.
  - reflexivity.
  - discriminate.
  - discriminate.
  - vm_compute. discriminate.
  - split; [discriminate|reflexivity].
  - split; [discriminate|reflexivity].
  - split; [discriminate|reflexivity].
  - split; [discriminate|reflexivity].
  - vm_compute. reflexivity.
  - intros b Hb. vm_compute in Hb. injection Hb as <-. vm_compute. discriminate.
  - split; [exact H|]. exists p1, p2. apply Z.le_ge. apply (Hs demo_sender demo_sender_inv).
    + reflexivity.
    + reflexivity.
    + split; [discriminate|reflexivity].
    + reflexivity.
Defined.

(** ** A parked seat and a new probe *)

Lemma probe_reply_bytes magic sid ls op slot total crc :
  rnet_proto_encode_state_probe_reply 64 magic sid ls op slot 1 total crc
  = Ret (packet_bytes magic RNET_PKT_STATE_PROBE_REPLY sid (msg_body (MStateProbeReply ls op slot total crc true))).
Proof. unfold rnet_proto_encode_state_probe_reply. cbn [msg_body b2z]. pass_guard. wexec. Qed.

(** A parked probe that is due sends a matching reply for whatever contents
    the probe names. *)
Lemma drive_parked s : nz (pr_active (s_probe s)) = true -> pr_sender (s_probe s) = 0 -> nz (pr_parked (s_probe s)) = true ->
  resend_due (hd 0 (io_clock (s_io s))) (pr_last_tx_ms (s_probe s)) 50 = true ->
  let p := s_probe s in
  io_sent (s_io (state_drive_probe s)) = io_sent (s_io s) ++
    [packet_bytes (magic s) RNET_PKT_STATE_PROBE_REPLY (sid s)
       (msg_body (MStateProbeReply (s_wire_slot s) (pr_op p) (pr_slot p) (pr_size p) (pr_crc p) true))].
Proof.
  intros Ha Hse Hp Hd p. unfold state_drive_probe. fold p. fold p in Ha, Hse, Hp, Hd. rewrite Ha, Hse, Hp. cbn [andb Z.eqb].
  unfold session_now. rewrite Hd. unfold send_probe_reply.
  set (s2 := on_io _ s). assert (s_probe s2 = p /\ magic s2 = magic s /\ sid s2 = sid s /\ s_wire_slot s2 = s_wire_slot s /\
    io_sent (s_io s2) = io_sent (s_io s)) as (-> & -> & -> & -> & <-) by (split_and!; reflexivity).
  clearbody s2. rewrite probe_reply_bytes. rewrite send_raw_plain by done. reflexivity.
Qed.

(** The prober records the reply of a seat it waits on. *)
Lemma probe_reply_recorded p h : nz (pr_active (s_probe h)) && nz (pr_sender (s_probe h)) = true ->
  probe_generation p (s_probe h) = true -> 0 <= p_local_slot p < RNET_MAX_SLOTS -> s_wire_slot h <> p_local_slot p ->
  has_bit (pr_expect_mask (s_probe h)) (p_local_slot p) = true -> nz (p_state_probe_match p) = true ->
  rnet_session_state_probe_take_reply_from (state_on_probe_reply p h) (p_local_slot p) = Some 1.
Proof.
  intros Hact Hgen Hs Hw He Hm. apply andb_prop in Hact as [Ha Hse]. unfold nz in Ha, Hse. bool_prop.
  unfold state_on_probe_reply. rewrite (proj2 (Z.eqb_neq _ _) Ha), (proj2 (Z.eqb_neq _ _) Hse). cbn [orb].
  rewrite (proj2 (Z.eqb_neq (p_local_slot p) (s_wire_slot h))) by congruence. rewrite Hgen, He, Hm. cbn [negb].
  destruct (Z.leb_spec RNET_MAX_SLOTS (p_local_slot p)); [lia|]. cbn [orb].
  unfold rnet_session_state_probe_take_reply_from. cbn. fold (s_probe h).
  rewrite (proj2 (Z.eqb_neq _ _) Ha), (proj2 (Z.eqb_neq _ _) Hse), He, !has_bit_lor, !has_bit_bit, Z.eqb_refl, !orb_true_r by lia.
  destruct (Z.ltb_spec (p_local_slot p) 0); [lia|]. destruct (Z.leb_spec RNET_MAX_SLOTS (p_local_slot p)); [lia|]. reflexivity.
Qed.

(** A seat that answered a hash probe with a match waits, parked, for the
    release. If instead the host opens another probe, for other contents, the
    seat's application has not compared anything yet: the new probe is pending.
    But the seat is still marked parked, and the next time the probe is driven
    it repeats a matching reply - which now names the new contents, and which a
    host that waits on this seat takes as its answer. *)
Theorem parked_seat_answers_new_probe pkt s :
  p_local_slot pkt <> s_wire_slot s -> cfg_local_slot (s_cfg s) <> 0 ->
  has_bit (p_state_probe_replied pkt) (s_wire_slot s) = false -> state_any_active s = false ->
  probe_generation pkt (s_probe s) = false -> nz (pr_parked (s_probe s)) = true ->
  resend_due (hd 0 (io_clock (s_io s))) (pr_last_tx_ms (s_probe s)) 50 = true ->
  in_u32 (magic s) -> in_u32 (sid s) -> in_u32 (p_state_total_size pkt) -> in_u32 (p_state_payload_crc pkt) ->
  rnet_session_state_probe_pending (state_on_probe pkt s) =
    Some (p_state_op pkt, p_state_slot pkt, p_state_total_size pkt, p_state_payload_crc pkt) /\
  exists d p, io_sent (s_io (state_drive_probe (state_on_probe pkt s))) = io_sent (s_io s) ++ [d] /\
    rnet_proto_decode d (magic s) = Ret p /\ p_local_slot p = s_wire_slot s /\
    same_generation p (p_state_op pkt) (p_state_slot pkt) (p_state_total_size pkt) (p_state_payload_crc pkt) = true /\
    forall h, nz (pr_active (s_probe h)) && nz (pr_sender (s_probe h)) = true ->
      probe_generation p (s_probe h) = true -> 0 <= s_wire_slot s < RNET_MAX_SLOTS -> s_wire_slot h <> s_wire_slot s ->
      has_bit (pr_expect_mask (s_probe h)) (s_wire_slot s) = true ->
      rnet_session_state_probe_take_reply_from (state_on_probe_reply p h) (s_wire_slot s) = Some 1.
Proof.
  intros Hw Hl Hrep Hact Hgen Hpark Hdue Um Us Ut Uc.
  assert (state_on_probe pkt s = set_stall (b2z (nz (p_state_total_size pkt))) (on_probe (fun p =>
    mkProbe 1 0 0 0 0 1 0 (p_state_op pkt) (p_state_slot pkt) (p_state_total_size pkt)
      (p_state_payload_crc pkt) (pr_last_tx_ms p) (pr_parked p)) s)) as E.
  { unfold state_on_probe. rewrite (proj2 (Z.eqb_neq _ _) Hw), (proj2 (Z.eqb_neq _ _) Hl), Hrep, andb_false_r, Hact, Hgen.
    rewrite andb_false_r. reflexivity. }
  rewrite E. split; [reflexivity|].
  set (s1 := set_stall _ _).
  assert (s_probe s1 = mkProbe 1 0 0 0 0 1 0 (p_state_op pkt) (p_state_slot pkt) (p_state_total_size pkt)
      (p_state_payload_crc pkt) (pr_last_tx_ms (s_probe s)) (pr_parked (s_probe s))) as Ep by reflexivity.
  pose proof (drive_parked s1) as Hd. rewrite Ep in Hd. specialize (Hd eq_refl eq_refl Hpark Hdue). cbv zeta in Hd.
  set (m := MStateProbeReply (s_wire_slot s) (p_state_op pkt) (p_state_slot pkt) (p_state_total_size pkt)
    (p_state_payload_crc pkt) true).
  exists (packet_bytes (magic s) (msg_type m) (sid s) (msg_body m)), (msg_packet (sid s) m).
  split; [exact Hd|]. split; [by apply (decode_of_msg m)|]. split; [reflexivity|].
  split; [|intros h Ha Hg Hs Hh He; by apply (probe_reply_recorded (msg_packet (sid s) m))].
  unfold same_generation, m. simpl. by rewrite !Z.eqb_refl.
Qed.

Definition demo_probe (size crc : Z) : RNetDecodedPacket :=
  set_p_state_total_size size (set_p_state_payload_crc crc (demo_packet RNET_PKT_STATE_PROBE 0)).
Definition demo_parked : RNetSession := Eval vm_compute in
  default demo_guest (rnet_session_state_probe_reply 1 (state_on_probe (demo_probe 64 7) demo_guest)).

Lemma parked_seat_answers_new_probe_witness :
  rnet_session_state_probe_pending (state_on_probe (demo_probe 96 8) demo_parked) = Some (0, 0, 96, 8) /\
  length (io_sent (s_io (state_drive_probe (state_on_probe (demo_probe 96 8) demo_parked)))) =
    S (length (io_sent (s_io demo_parked))).
Proof.
  destruct (parked_seat_answers_new_probe (demo_probe 96 8) demo_parked) as (H & d & p & E & _);
    try reflexivity; try discriminate; try (split; [discriminate|reflexivity]).
  split; [exact H|]. rewrite E, length_app. vm_compute. reflexivity.
Defined.
