(* ===== verification/ProfileProofs.v ===== *)
(** * The session: agreement on a startup profile

    Every seat offers the profiles it can run; once all offers are known each
    seat selects the highest common one and acknowledges its choice together
    with a hash of all offers. *)

From stdpp Require Import base list numbers list_numbers.
From S2P Require Import Prelude Protocol Config Rings CtrlQueue Session SessionState SessionMain SessionProofs.

(** ** What the offers determine *)

Lemma fold_offers_common occ n caps h i : 0 <= n -> 0 <= i < 32 ->
  has_bit (fst (fold_offers occ n caps h)) i = true <->
  forall seat, 0 <= seat < n -> has_bit occ seat = true ->
    has_bit (pc_profiles (rd zero_caps caps seat)) i = true.
Proof.
  intros Hn Hi. unfold fold_offers.
  match goal with |- context [for_upto n ?f ?x] => set (g := f); set (x0 := x) end.
  apply (for_upto_ind (fun k st => has_bit (fst st) i = true <-> forall seat, 0 <= seat < k ->
    has_bit occ seat = true -> has_bit (pc_profiles (rd zero_caps caps seat)) i = true)); [done|..].
  - split; [lia|]. intros _. rewrite has_bit_testbit by lia. unfold x0. cbn [fst].
    change UINT32_MAX with (Z.ones 32). apply Z.ones_spec_low. lia.
  - intros k [common h'] Hk IH. unfold g. cbn [fst] in IH. destruct (has_bit occ k) eqn:Eo; cbn [fst].
    + rewrite has_bit_land, andb_true_iff by lia. rewrite IH. split.
      * intros [Ha Hb] seat Hs Ho. destruct (Z.eq_dec seat k) as [->|]; [done|]. apply Ha; [lia|done].
      * intros Ha. split; [|apply Ha; [lia|done]]. intros seat Hs Ho. apply Ha; [lia|done].
    + rewrite IH. split; intros Ha seat Hs Ho; [|apply Ha; [lia|done]].
      destruct (Z.eq_dec seat k) as [->|]; [congruence|]. apply Ha; [lia|done].
Qed.

Lemma highest_bit_spec n c : has_bit c 0 = true -> let i := highest_bit n c in
  0 <= i <= Z.of_nat n /\ has_bit c i = true /\ forall j, i < j <= Z.of_nat n -> has_bit c j = false.
Proof.
  intros H0. induction n as [|n IH]; cbn [highest_bit]; [split_and!; [lia..|done|lia]|].
  cbv zeta in IH |- *. destruct (has_bit c (Z.of_nat (S n))) eqn:E.
  - split_and!; [lia..|done|lia].
  - destruct IH as (Hr & Hb & Hj). split; [lia|]. split; [done|]. intros j Hlt.
    destruct (Z.eq_dec j (Z.of_nat (S n))) as [->|]; [done|]. apply Hj. lia.
Qed.

Lemma wr_rd {A} (d : A) l i : 0 <= i < zlen l -> wr l i (rd d l i) = l.
Proof.
  unfold wr, rd, zlen. intros Hi. apply list_insert_id. rewrite nth_lookup.
  destruct (lookup_lt_is_Some_2 l (Z.to_nat i)) as [x ->]; [lia|done].
Qed.

Lemma caps_eqb_eq a b : caps_eqb a b = true -> a = b.
Proof. destruct a, b. unfold caps_eqb. cbn. intros H. bool_prop. by subst. Qed.

(** The offer a packet carries. *)
Definition offer_of (pkt : RNetDecodedPacket) : RNetProfileCaps :=
  mkCaps (p_rb_mismatch_tick pkt) (p_rb_load_tick pkt) (p_rb_target_tick pkt) (p_rb_corrected_slot pkt).

(** The choice the recorded offers determine. *)
Definition chosen (cfg : RNetConfig) (p : RNetProfiles) : Prop :=
  let '(common, h) := offers_verdict (pf_qualification p) (cfg_slot_count cfg) (pf_occupied p) (pf_caps p) in
  has_bit common 0 = true /\ pf_selected p = highest_bit 31 common /\
  pf_transcript p = profile_fold h (pf_selected p).

(** ** The invariant of an agreement *)

Section Agreement.
Context (cfg : RNetConfig) (own : RNetProfileCaps) (occ q : Z).
Context (Hlocal : 0 <= cfg_local_slot cfg < RNET_MAX_SLOTS).

(** Where the recorded offer of a seat comes from. *)
Definition offered (pkts : list RNetDecodedPacket) (p : RNetProfiles) (seat : Z) : Prop :=
  if seat =? cfg_local_slot cfg then rd zero_caps (pf_caps p) seat = own
  else exists pkt, pkt ∈ pkts /\ p_local_slot pkt = seat /\ p_rb_initiator pkt = PROFILE_OFFER /\
    p_rb_epoch_id pkt = q /\ rd zero_caps (pf_caps p) seat = offer_of pkt.

(** Where the recorded acknowledgment of a seat comes from. *)
Definition acked (pkts : list RNetDecodedPacket) (p : RNetProfiles) (seat : Z) : Prop :=
  seat = cfg_local_slot cfg \/ exists pkt, pkt ∈ pkts /\ p_local_slot pkt = seat /\ p_rb_epoch_id pkt = q /\
    p_rb_mismatch_tick pkt = pf_selected p /\ p_rb_load_tick pkt = pf_transcript p.

Record pf_facts (pkts : list RNetDecodedPacket) (p : RNetProfiles) : Prop := {
  po_occ : pf_occupied p = occ;
  po_q : pf_qualification p = q;
  po_len : zlen (pf_caps p) = RNET_MAX_SLOTS;
  po_chosen : pf_acks p <> 0 -> pf_offers p = occ /\ chosen cfg p;
  po_offered : forall seat, 0 <= seat < RNET_MAX_SLOTS -> has_bit (pf_offers p) seat = true -> offered pkts p seat;
  po_acked : forall seat, 0 <= seat -> has_bit (pf_acks p) seat = true -> acked pkts p seat
}.

(** Unless it was refused, an agreement has chosen as soon as all offers are
    there. *)
Definition pf_ok (pkts : list RNetDecodedPacket) (p : RNetProfiles) : Prop :=
  pf_refused p = 0 -> pf_facts pkts p /\ (pf_offers p = occ -> pf_acks p <> 0).

Lemma bit_nonzero i : 0 <= i -> bit i <> 0.
Proof.
  intros Hi E. assert (has_bit (bit i) i = true) as H by (rewrite has_bit_bit by done; apply Z.eqb_refl).
  by rewrite E, has_bit_0 in H.
Qed.

Lemma choose_ok pkts p : pf_facts pkts p -> pf_ok pkts (profiles_choose cfg p).
Proof.
  intros [Ho Hq Hl Hc Hof Hac]. unfold profiles_choose, pf_ok.
  destruct (negb (pf_offers p =? pf_occupied p)) eqn:E1; cbn [orb].
  { bool_prop. intros _. split; [by constructor|]. rewrite <- Ho. done. }
  bool_prop. unfold nz. destruct (Z.eqb_spec (pf_acks p) 0) as [E0|E0]; cbn [negb].
  2:{ intros _. split; [by constructor|done]. }
  destruct (offers_verdict _ _ _ _) as [common h] eqn:Ev.
  destruct (has_bit common 0) eqn:Eb; cbn [negb]; [|done]. intros _.
  split; [|intros _; apply bit_nonzero, Hlocal]. constructor; try done.
  - intros _. split; [cbn; congruence|]. unfold chosen. cbn. by rewrite Ev.
  - intros seat Hs Hb. left. cbn in Hb. rewrite has_bit_bit in Hb by lia. apply Z.eqb_eq in Hb. done.
Qed.

Lemma facts_more pkts pkt p : pf_facts pkts p -> pf_facts (pkts ++ [pkt]) p.
Proof.
  intros [Ho Hq Hl Hc Hof Hac]. constructor; try done.
  - intros seat Hs Hb. specialize (Hof seat Hs Hb). unfold offered in *. destruct (_ =? _); [done|].
    destruct Hof as (x & Hx & Hr). exists x. split; [|done]. apply elem_of_app. by left.
  - intros seat Hs Hb. destruct (Hac seat Hs Hb) as [|(x & Hx & Hr)]; [by left|right].
    exists x. split; [|done]. apply elem_of_app. by left.
Qed.

(** An OFFER: a first one is recorded, a repeated one must be the same. *)
Lemma on_offer_ok pkts pkt p : pf_facts pkts p -> pf_refused p = 0 ->
  0 <= p_local_slot pkt < RNET_MAX_SLOTS -> p_local_slot pkt <> cfg_local_slot cfg ->
  has_bit occ (p_local_slot pkt) = true -> p_rb_epoch_id pkt = q -> p_rb_initiator pkt = PROFILE_OFFER ->
  pf_ok (pkts ++ [pkt]) (profiles_on_offer cfg pkt p).
Proof.
  intros H Hr Hs Hne Hocc Eq Ei. pose proof (facts_more pkts pkt p H) as [Ho Hq Hl Hc Hof Hac].
  unfold profiles_on_offer. fold (offer_of pkt). destruct (_ || _) eqn:E; [done|]. bool_prop.
  assert (has_bit (pf_offers p) (p_local_slot pkt) = true -> rd zero_caps (pf_caps p) (p_local_slot pkt) = offer_of pkt) as Hsame.
  { intros Hb. rewrite Hb in *. cbn [andb] in *. bool_prop. symmetry. by apply caps_eqb_eq. }
  apply choose_ok. constructor; try done.
  - cbn. by rewrite zlen_wr.
  - intros Hacks. destruct (Hc Hacks) as [Hoff Hch]. rewrite <- Hoff in Hocc. specialize (Hsame Hocc).
    assert (Z.lor (pf_offers p) (bit (p_local_slot pkt)) = pf_offers p) as E1.
    { apply Z.bits_inj'. intros n Hn. rewrite Z.lor_spec, bit_testbit by lia.
      destruct (Z.eqb_spec (p_local_slot pkt) n) as [<-|]; [|apply orb_false_r].
      rewrite has_bit_testbit in Hocc by lia. by rewrite Hocc. }
    assert (wr (pf_caps p) (p_local_slot pkt) (offer_of pkt) = pf_caps p) as E2.
    { rewrite <- Hsame. apply wr_rd. lia. }
    split; [cbn; by rewrite E1|]. unfold chosen in *. cbn. by rewrite E2.
  - intros seat Hseat Hb. unfold offered. cbn [pf_caps pf_offers set_pf_offers set_pf_caps] in Hb |- *. rewrite rd_wr by lia.
    rewrite has_bit_lor, has_bit_bit in Hb by lia. destruct (Z.eqb_spec (p_local_slot pkt) seat) as [<-|Hns].
    + rewrite (proj2 (Z.eqb_neq _ _) Hne). exists pkt. split; [|done]. apply elem_of_app. right. by left.
    + rewrite orb_false_r in Hb. apply (Hof seat Hseat Hb).
Qed.

(** An ACK counts only when it names our own choice. *)
Lemma on_ack_ok pkts pkt p : pf_facts pkts p -> (pf_offers p = occ -> pf_acks p <> 0) -> pf_refused p = 0 ->
  0 <= p_local_slot pkt < RNET_MAX_SLOTS -> p_rb_epoch_id pkt = q ->
  pf_ok (pkts ++ [pkt]) (profiles_on_ack cfg pkt p).
Proof.
  intros H Hch0 Hr Hs Eq. pose proof (facts_more pkts pkt p H) as [Ho Hq Hl Hc Hof Hac].
  unfold profiles_on_ack. destruct (negb (pf_offers p =? pf_occupied p)) eqn:E0; [intros _; split; [by constructor|done]|].
  bool_prop. destruct (_ || _) eqn:E; [done|]. bool_prop.
  set (p1 := if has_bit (pf_acks p) _ then p else _). set (p2 := set_pf_acks _ p1).
  assert (pf_ok (pkts ++ [pkt]) p2) as Hok2.
  { assert (exists d, p1 = set_pf_dirty d p) as [d ->].
    { unfold p1. destruct (has_bit (pf_acks p) _); [exists (pf_dirty p); by destruct p|by eexists]. }
    intros _. assert (pf_acks p <> 0) as Hnz by (apply Hch0; congruence). split.
    - constructor; try done.
      + intros _. by apply Hc.
      + intros seat Hseat Hb. cbn in Hb. rewrite has_bit_lor, has_bit_bit in Hb by lia.
        destruct (Z.eqb_spec (p_local_slot pkt) seat) as [<-|Hne]; [|rewrite orb_false_r in Hb; by apply Hac].
        right. exists pkt. split; [apply elem_of_app; right; by left|]. done.
    - intros _. cbn. intros Hz. apply Z.lor_eq_0_iff in Hz as [Hz _]. done. }
  destruct (has_bit (p_rb_target_tick pkt) (cfg_local_slot cfg)); [|done].
  intros Hr2. destruct (Hok2 Hr2) as [[? ? ? ? ? ?] ?]. split; [by constructor|done].
Qed.

Lemma receive_ok pkts pkt p : 0 <= p_local_slot pkt -> cfg_slot_count cfg <= RNET_MAX_SLOTS -> pf_ok pkts p ->
  pf_ok (pkts ++ [pkt]) (profiles_receive cfg pkt p).
Proof.
  intros Hs Hn H. assert (pf_ok (pkts ++ [pkt]) p) as Hskip.
  { intros Hr. destruct (H Hr) as [Hf Hch]. split; [by apply facts_more|done]. }
  unfold profiles_receive. destruct (_ || _) eqn:E; [done|]. bool_prop. unfold nz in *. bool_prop.
  destruct (H ltac:(done)) as [Hf Hch].
  destruct (has_bit (pf_occupied p) (p_local_slot pkt)) eqn:Eo; cbn [negb]; [|done]. rewrite (po_occ _ _ Hf) in Eo.
  destruct (_ || _) eqn:E2; [done|]. bool_prop. rewrite (po_q _ _ Hf) in *.
  destruct (Z.eqb_spec (p_rb_initiator pkt) PROFILE_OFFER).
  - apply on_offer_ok; try done. lia.
  - apply on_ack_ok; try done. lia.
Qed.

Lemma receives_ok pkts : Forall (fun pkt => 0 <= p_local_slot pkt) pkts -> cfg_slot_count cfg <= RNET_MAX_SLOTS ->
  forall past p, pf_ok past p -> pf_ok (past ++ pkts) (fold_left (fun p pkt => profiles_receive cfg pkt p) pkts p).
Proof.
  intros Hp Hn. induction Hp as [|pkt pkts Hpkt _ IH]; intros past p H; cbn [fold_left]; [by rewrite app_nil_r|].
  rewrite (app_assoc past [pkt] pkts : past ++ pkt :: pkts = _). apply IH. by apply receive_ok.
Qed.
End Agreement.

Lemma occupied_seats_bit cfg seat : 0 <= cfg_slot_count cfg -> 0 <= seat ->
  has_bit (occupied_seats cfg) seat = (seat <? cfg_slot_count cfg) && rnet_config_slot_occupied cfg seat.
Proof.
  intros Hn Hs. unfold occupied_seats.
  apply (for_upto_ind (fun k m => has_bit m seat = (seat <? k) && rnet_config_slot_occupied cfg seat) _ _ _ Hn).
  - rewrite has_bit_0. by destruct (Z.ltb_spec seat 0); [lia|].
  - intros i m Hi IH. destruct (rnet_config_slot_occupied cfg i) eqn:Eo; rewrite ?has_bit_lor, ?has_bit_bit, IH by lia.
    all: destruct (Z.eq_dec seat i) as [->|Hne].
    + rewrite Z.eqb_refl, Eo, orb_true_r. by destruct (Z.ltb_spec i (i + 1)); [|lia].
    + rewrite (proj2 (Z.eqb_neq i seat)), orb_false_r by lia.
      destruct (Z.ltb_spec seat i), (Z.ltb_spec seat (i + 1)); try lia; done.
    + by rewrite Eo, !andb_false_r.
    + destruct (Z.ltb_spec seat i), (Z.ltb_spec seat (i + 1)); try lia; done.
Qed.

(** The profiles of a session over a sequence of profile packets. *)
Definition receive_profiles (pkts : list RNetDecodedPacket) (s : RNetSession) : RNetSession :=
  fold_left (fun s pkt => on_profiles (profiles_receive (s_cfg s) pkt) s) pkts s.

Lemma receive_profiles_eq pkts s : s_cfg (receive_profiles pkts s) = s_cfg s /\
  s_profiles (receive_profiles pkts s) = fold_left (fun p pkt => profiles_receive (s_cfg s) pkt p) pkts (s_profiles s).
Proof.
  revert s. induction pkts as [|pkt pkts IH]; intros s; [done|].
  destruct (IH (on_profiles (profiles_receive (s_cfg s) pkt) s)) as [E1 E2]. done.
Qed.

Definition fresh_profiles : RNetProfiles := mkProfiles 0 0 0 0 0 0 0 0 0 (replicate 8 zero_caps) 0 0.

Lemma begin_ok s0 q own s1 : s_profiles s0 = fresh_profiles ->
  0 <= cfg_local_slot (s_cfg s0) < RNET_MAX_SLOTS ->
  rnet_session_profiles_begin q own s0 = Some s1 ->
  s_cfg s1 = s_cfg s0 /\ rnet_config_slot_occupied (s_cfg s0) (cfg_local_slot (s_cfg s0)) = true /\
  pf_ok (s_cfg s0) own (occupied_seats (s_cfg s0)) q [] (s_profiles s1).
Proof.
  intros Hf Hl. unfold rnet_session_profiles_begin. destruct (_ || _) eqn:E; [done|]. bool_prop. intros [= <-].
  match goal with |- context [on_profiles ?f s0] => set (g := f) end. split; [done|]. split; [done|].
  change (s_profiles (on_profiles g s0)) with (g (s_profiles s0)). unfold g. clear g. rewrite Hf. cbv beta zeta.
  set (p := set_pf_dirty 1 _). apply choose_ok; [done|]. unfold p. constructor; try done; [cbn; by rewrite zlen_wr|].
  intros seat Hs Hb. unfold offered. cbn in Hb. rewrite has_bit_bit in Hb by lia. apply Z.eqb_eq in Hb. subst seat.
  rewrite Z.eqb_refl. apply rd_wr_eq. exact Hl.
Qed.

(** C36. Agreement on a profile is real. A seat starts the agreement and then
    receives any sequence of profile packets. If it reports agreement on
    profile [sel] with transcript [tr], then every occupied seat offered [sel],
    no higher profile was offered by all of them, and every other occupied seat
    has acknowledged this very profile and transcript; the offer recorded for a
    seat is one that seat sent. *)
Theorem profiles_agreement s0 q own s1 pkts sel tr :
  s_profiles s0 = fresh_profiles -> 0 <= cfg_local_slot (s_cfg s0) < cfg_slot_count (s_cfg s0) ->
  cfg_slot_count (s_cfg s0) <= RNET_MAX_SLOTS -> rnet_session_profiles_begin q own s0 = Some s1 ->
  Forall (fun pkt => 0 <= p_local_slot pkt) pkts ->
  let s2 := receive_profiles pkts s1 in
  let seat_of i := 0 <= i < cfg_slot_count (s_cfg s0) /\ rnet_config_slot_occupied (s_cfg s0) i = true in
  rnet_session_profiles_status s2 = (1, Some (sel, tr)) ->
  (forall i, seat_of i -> exists caps, rnet_session_profiles_peer s2 i = Some caps /\
     has_bit (pc_profiles caps) sel = true /\
     (i = cfg_local_slot (s_cfg s0) /\ caps = own \/
      exists pkt, pkt ∈ pkts /\ p_local_slot pkt = i /\ p_rb_initiator pkt = PROFILE_OFFER /\ caps = offer_of pkt)) /\
  (forall j, sel < j < 32 -> ~ forall i caps, seat_of i -> rnet_session_profiles_peer s2 i = Some caps ->
     has_bit (pc_profiles caps) j = true) /\
  (forall i, seat_of i -> i <> cfg_local_slot (s_cfg s0) -> exists pkt, pkt ∈ pkts /\ p_local_slot pkt = i /\
     p_rb_mismatch_tick pkt = sel /\ p_rb_load_tick pkt = tr).
Proof.
  intros Hf Hl Hn Hb Hp s2 seat_of Hst.
  destruct (begin_ok s0 q own s1 Hf ltac:(lia) Hb) as (Ec & Hlo & H1).
  destruct (receive_profiles_eq pkts s1) as [Ec2 Ep2]. rewrite Ec in Ec2, Ep2. fold s2 in Ec2, Ep2.
  pose proof (receives_ok (s_cfg s0) own _ q ltac:(lia) pkts Hp Hn [] _ H1) as H2. rewrite <- Ep2 in H2. cbn [app] in H2.
  unfold rnet_session_profiles_status in Hst. set (p := s_profiles s2) in *.
  destruct (_ || _) eqn:E; [done|]. destruct (negb _) eqn:E2; [done|]. bool_prop. unfold nz in *. bool_prop.
  assert (pf_acks p = pf_occupied p) as Hall by done.
  injection Hst as Hsel Htr. destruct (H2 ltac:(done)) as [[Ho Hq Hlen Hc Hof Hac] Hch].
  assert (forall i, seat_of i -> has_bit (pf_occupied p) i = true) as Hocc.
  { intros i [Hi Hio]. rewrite Ho, occupied_seats_bit, Hio by lia. by destruct (Z.ltb_spec i (cfg_slot_count (s_cfg s0))); [|lia]. }
  assert (pf_acks p <> 0) as Hnz.
  { intros Hz. specialize (Hocc _ (conj Hl Hlo)). rewrite <- Hall, Hz, has_bit_0 in Hocc. done. }
  destruct (Hc Hnz) as [Hoff Hchosen]. unfold chosen in Hchosen. rewrite Ho in *.
  pose proof (fun i Hi => fold_offers_common (occupied_seats (s_cfg s0)) (cfg_slot_count (s_cfg s0)) (pf_caps p)
    (profile_fold (profile_fold (profile_fold 2166136261 (pf_qualification p)) (cfg_slot_count (s_cfg s0)))
       (occupied_seats (s_cfg s0))) i ltac:(lia) Hi) as Hcommon.
  fold (offers_verdict (pf_qualification p) (cfg_slot_count (s_cfg s0)) (occupied_seats (s_cfg s0)) (pf_caps p)) in Hcommon.
  destruct (offers_verdict _ _ _ _) as [common h]. cbn [fst] in Hcommon. destruct Hchosen as (Hb0 & Esel & Etr).
  destruct (highest_bit_spec 31 common Hb0) as (Hrange & Hbit & Hmax). rewrite <- Esel, Hsel in *.
  assert (forall i, seat_of i -> rnet_session_profiles_peer s2 i = Some (rd zero_caps (pf_caps p) i)) as Hpeer.
  { intros i Hi. pose proof (Hocc i Hi) as Hbi. destruct Hi as [Hi _]. unfold rnet_session_profiles_peer. fold p. rewrite Ec2, Hoff, Hbi.
    destruct (Z.ltb_spec i 0); [lia|]. destruct (Z.leb_spec (cfg_slot_count (s_cfg s0)) i); [lia|]. done. }
  split_and!.
  - intros i Hi. exists (rd zero_caps (pf_caps p) i). split; [by apply Hpeer|].
    pose proof (Hocc i Hi) as Hob. pose proof Hi as [Hir _]. split; [apply (Hcommon sel); [lia|done|lia|done]|].
    specialize (Hof i ltac:(lia)). rewrite Hoff in Hof. specialize (Hof Hob). unfold offered in Hof.
    destruct (Z.eqb_spec i (cfg_local_slot (s_cfg s0))) as [Ei|]; [left; by rewrite Ei in *|right].
    destruct Hof as (pkt & ? & ? & ? & ? & ?). by exists pkt.
  - intros j Hj Hevery. specialize (Hmax j ltac:(lia)). apply not_true_iff_false in Hmax. apply Hmax, Hcommon; [lia|].
    intros i Hi Hio. rewrite occupied_seats_bit in Hio by lia. apply andb_prop in Hio as [_ Hio].
    apply (Hevery i); [done|]. by apply Hpeer.
  - intros i Hi Hne. specialize (Hac i ltac:(destruct Hi; lia)). rewrite Hall in Hac.
    destruct (Hac (Hocc i Hi)) as [|(pkt & ? & ? & _ & ? & ?)]; [done|]. exists pkt. split_and!; try done; congruence.
Qed.

(** *** Seats 0 and 1 offer the profiles 0-2 and 0-1: profile 1 *)

Definition demo_own : RNetProfileCaps := mkCaps 15 1 7 2.
Definition demo_profile_packet (op a b c arch : Z) : RNetDecodedPacket :=
  set_p_rb_epoch_id 9 (set_p_rb_initiator op (set_p_rb_mismatch_tick a (set_p_rb_load_tick b
    (set_p_rb_target_tick c (set_p_rb_corrected_slot arch (demo_packet RNET_PKT_RB_SYNC 1)))))).
Definition demo_started : RNetSession := Eval vm_compute in
  default demo_base (rnet_session_profiles_begin 9 demo_own demo_base).
Definition demo_offer : RNetDecodedPacket := demo_profile_packet PROFILE_OFFER 12 1 3 2.
Definition demo_transcript : Z := Eval vm_compute in
  pf_transcript (s_profiles (receive_profiles [demo_offer] demo_started)).
Definition demo_profile_ack : RNetDecodedPacket := demo_profile_packet PROFILE_ACK 1 demo_transcript 2 0.

Lemma profiles_agreement_witness :
  exists caps, rnet_session_profiles_peer (receive_profiles [demo_offer; demo_profile_ack] demo_started) 1 = Some caps /\
    has_bit (pc_profiles caps) 1 = true.
Proof.
  destruct (profiles_agreement demo_base 9 demo_own demo_started [demo_offer; demo_profile_ack] 1 demo_transcript)
    as (H & _ & _).
  - reflexivity.
  - split; [discriminate|reflexivity].
  - discriminate.
  - vm_compute. reflexivity.
  - repeat constructor; discriminate.
  - vm_compute. reflexivity.
  - destruct (H 1) as (caps & Hc & Hb & _); [split; [split; [discriminate|reflexivity]|reflexivity]|]. exists caps. split; [exact Hc|exact Hb].
Defined.
