(* ===== verification/BundleProofs.v ===== *)
(** * The session: the loops that build input bundles *)

From stdpp Require Import base list numbers list_numbers.
From S2P Require Import Prelude Protocol Config Rings CtrlQueue Session SessionState SessionMain SessionProofs.

(** Below the last tick the inner loop moves on, by at least one tick. *)
Lemma fill_bundle_progress n ring t tip frames : t <= tip < UINT32_MAX -> tip - t < Z.of_nat n ->
  t <= snd (fill_bundle n ring t tip frames) <= tip + 1 /\
  (zlen frames < RNET_MAX_BUNDLE -> t < snd (fill_bundle n ring t tip frames)).
Proof.
  revert t frames. induction n as [|n IH]; intros t frames Ht Hn; cbn [fill_bundle]; [lia|].
  destruct (Z.leb_spec t tip); [|lia]. cbn [andb].
  destruct (Z.ltb_spec (zlen frames) RNET_MAX_BUNDLE); [|cbn [snd]; lia].
  destruct (Z.eqb_spec t UINT32_MAX); [lia|].
  set (fs := match rnet_ring_get ring t with Some _ => _ | None => _ end).
  destruct (Z.eq_dec t tip) as [->|Hne].
  - destruct n as [|n]; cbn [fill_bundle]; [cbn [snd]; lia|].
    destruct (Z.leb_spec (tip + 1) tip); [lia|]. cbn [andb snd]. lia.
  - destruct (IH (t + 1) fs) as [Hr _]; [lia|lia|]. lia.
Qed.

(** With no row of the window in the ring, the inner loop runs to the end of
    the tick range and stays there. *)
Lemma fill_bundle_stuck n ring t frames : (forall w, t <= w <= UINT32_MAX -> rnet_ring_get ring w = None) ->
  t <= UINT32_MAX -> zlen frames < RNET_MAX_BUNDLE -> UINT32_MAX - t < Z.of_nat n ->
  fill_bundle n ring t UINT32_MAX frames = (frames, UINT32_MAX).
Proof.
  revert t. induction n as [|n IH]; intros t Hg Ht Hf Hn; cbn [fill_bundle]; [lia|].
  destruct (Z.leb_spec t UINT32_MAX); [|lia]. destruct (Z.ltb_spec (zlen frames) RNET_MAX_BUNDLE); [|lia]. cbn [andb].
  rewrite (Hg t) by lia. destruct (Z.eqb_spec t UINT32_MAX) as [->|]; [done|]. apply IH; try done; try lia.
  intros w Hw. apply Hg. lia.
Qed.

(** The loop that sends a window of input rows ends, except at the end of
    the tick range. From tick [t] up to any [tip] below 2^32 - 1 it is over
    after at most one round per tick, whatever the ring holds and whatever the
    encoder answers. But with [tip] the last tick, when none of the window's
    rows is in the ring, it never ends: no number of rounds is enough. *)
Theorem bundle_loop_termination ack t tip s sent :
  0 <= t -> tip <= UINT32_MAX ->
  (tip < UINT32_MAX -> forall n, tip - t + 2 <= Z.of_nat n -> (0 < n)%nat -> snd (bundle_loop n ack t tip s sent) = true) /\
  (tip = UINT32_MAX -> t <= tip -> (forall w, t <= w <= tip -> rnet_ring_get (s_local_ring s) w = None) ->
     forall n, bundle_loop n ack t tip s sent = (s, sent, false)).
Proof.
  intros Ht Htip. split.
  - intros Hlt n. revert t s sent Ht. induction n as [|n IH]; intros t s sent Ht Hn Hpos; [lia|]. cbn [bundle_loop].
    destruct (Z.leb_spec t tip) as [Hle|]; [|done].
    destruct (fill_bundle_progress (Z.to_nat (tip - t + 1)) (s_local_ring s) t tip []) as [Hr Hp]; [lia|lia|].
    destruct (fill_bundle _ _ _ _ _) as [frames t']. cbn [snd] in *. specialize (Hp ltac:(done)).
    destruct (_ =? _); [apply IH; lia|]. destruct (encode_bundle s ack frames); try done. apply IH; lia.
  - intros -> Hle Hg n. revert t Ht Hle Hg. induction n as [|n IH]; intros t Ht Hle Hg; cbn [bundle_loop]; [done|].
    destruct (Z.leb_spec t UINT32_MAX); [|lia]. rewrite fill_bundle_stuck by (done || lia).
    change (zlen (@nil RNetWireFrame) =? 0) with true. apply IH; [ranges; lia..|]. intros w Hw. apply Hg. lia.
Qed.

Lemma bundle_loop_termination_witness :
  snd (bundle_loop 4 0 0 2 demo_running false) = true /\
  snd (bundle_loop 1000 0 4294967290 4294967295 demo_running false) = false.
Proof.
  split.
  - apply (bundle_loop_termination 0 0 2 demo_running false); [done|done|done|done|lia].
  - rewrite (proj2 (bundle_loop_termination 0 4294967290 4294967295 demo_running false ltac:(done) ltac:(done)));
      [reflexivity|reflexivity|done|].
    intros w Hw. assert (w = 4294967290 \/ w = 4294967291 \/ w = 4294967292 \/ w = 4294967293 \/ w = 4294967294 \/
      w = 4294967295) as [->|[->|[->|[->|[->| ->]]]]] by lia; vm_compute; reflexivity.
Defined.
