(* ===== verification/StateM.v ===== *)
(** * State-passing computations

    The rollback driver threads its state through many calls and returns early
    from nested loops. Its model is written in this state monad, which reads
    like the source; the rules below are how its properties are proved:
    [stable] for what every computation leaves alone (syntax directed), [wp]
    for what one computation achieves. *)

From stdpp Require Import base list numbers list_numbers.
From S2P Require Import Prelude.

Definition M (S A : Type) : Type := S -> A * S.

Section Monad.
Context {S : Type}.

Definition ret {A} (a : A) : M S A := fun s => (a, s).
Definition bind {A B} (m : M S A) (k : A -> M S B) : M S B :=
  fun s => let '(a, s') := m s in k a s'.
(** The whole state, a projection of it, and an update. *)
Definition gets {A} (f : S -> A) : M S A := fun s => (f s, s).
Definition modify (f : S -> S) : M S unit := fun s => (tt, f s).
Definition when (b : bool) (m : M S unit) : M S unit := if b then m else ret tt.

(** [for x in l] without an early exit. *)
Fixpoint each {A} (l : list A) (f : A -> M S unit) : M S unit :=
  match l with
  | [] => ret tt
  | x :: r => bind (f x) (fun _ => each r f)
  end.

(** [for x in l] that returns from the function at the first [Some]. *)
Fixpoint first_of {A B} (l : list A) (f : A -> M S (option B)) : M S (option B) :=
  match l with
  | [] => ret None
  | x :: r => bind (f x) (fun o => match o with Some b => ret (Some b) | None => first_of r f end)
  end.

(** [while (take(&x)) handle(x);]. The answer says that the loop ended by
    itself within [n] rounds. *)
Fixpoint drain {A} (n : nat) (take : M S (option A)) (handle : A -> M S unit) : M S bool :=
  match n with
  | O => ret false
  | Datatypes.S m => bind take (fun o =>
      match o with
      | None => ret true
      | Some a => bind (handle a) (fun _ => drain m take handle)
      end)
  end.
End Monad.

Notation "'do' x <- c1 ; c2" := (bind c1 (fun x => c2))
  (at level 60, x pattern, c1 at next level, right associativity) : rnet_scope.
Notation "'do!' e1 ; e2" := (bind e1 (fun _ => e2))
  (at level 60, right associativity) : rnet_scope.

(** ** What a computation leaves alone *)

Definition stable {S A} (R : S -> S -> Prop) (m : M S A) : Prop := forall s, R s (snd (m s)).

Create HintDb stable discriminated.
#[export] Hint Constants Opaque : stable.
#[export] Hint Variables Opaque : stable.

Section Stable.
Context {S : Type} (R : S -> S -> Prop) `{!PreOrder R}.

Lemma stable_ret {A} (a : A) : stable R (ret a).
Proof. intros s. reflexivity. Qed.
Lemma stable_gets {A} (f : S -> A) : stable R (gets f).
Proof. intros s. reflexivity. Qed.
Lemma stable_modify f : (forall s, R s (f s)) -> stable R (modify f).
Proof. intros H s. apply H. Qed.
Lemma stable_bind {A B} (m : M S A) (k : A -> M S B) :
  stable R m -> (forall a, stable R (k a)) -> stable R (bind m k).
Proof.
  intros Hm Hk s. unfold bind. specialize (Hm s). destruct (m s) as [a s']. simpl in *.
  etransitivity; [exact Hm|apply Hk].
Qed.
Lemma stable_when b (m : M S unit) : stable R m -> stable R (when b m).
Proof. intros H. unfold when. destruct b; [done|apply stable_ret]. Qed.
Lemma stable_each {A} (l : list A) f : (forall a, stable R (f a)) -> stable R (each l f).
Proof. intros H. induction l; [apply stable_ret|]. by apply stable_bind. Qed.
Lemma stable_first_of {A B} (l : list A) (f : A -> M S (option B)) :
  (forall a, a ∈ l -> stable R (f a)) -> stable R (first_of l f).
Proof.
  intros H. induction l as [|x l IH]; [apply stable_ret|]. apply stable_bind; [apply H; left|].
  intros [b|]; [apply stable_ret|]. apply IH. intros a Ha. apply H. by right.
Qed.
Lemma stable_drain {A} n (take : M S (option A)) handle :
  stable R take -> (forall a, stable R (handle a)) -> stable R (drain n take handle).
Proof.
  intros Ht Hh. induction n; [apply stable_ret|]. apply stable_bind; [done|].
  intros [a|]; [|apply stable_ret]. by apply stable_bind.
Qed.
End Stable.

(** One step of a [stable] proof, by the shape of the computation; [tac] for
    the updates and the calls. *)
Ltac stable_step :=
  match goal with
  | |- stable _ (bind _ _) => apply stable_bind; [typeclasses eauto| |intros ?]
  | |- stable _ (ret _) => apply stable_ret; typeclasses eauto
  | |- stable _ (gets _) => apply stable_gets; typeclasses eauto
  | |- stable _ (when _ _) => apply stable_when; [typeclasses eauto|]
  | |- stable _ (each _ _) => apply stable_each; [typeclasses eauto|intros ?]
  | |- stable _ (first_of _ _) => apply stable_first_of; [typeclasses eauto|intros ? ?]
  | |- stable _ (drain _ _ _) => apply stable_drain; [typeclasses eauto| |intros ?]
  | |- stable _ (if ?b then _ else _) => destruct b
  | |- stable _ (match ?o with _ => _ end) => destruct o
  | |- stable _ (let '(_, _) := ?p in _) => destruct p
  end.
Ltac stable_tac := repeat first [solve [auto with stable nocore] | stable_step].

(** ** Weakest preconditions *)

Definition wp {S A} (m : M S A) (Q : A -> S -> Prop) (s : S) : Prop := Q (fst (m s)) (snd (m s)).

Section Wp.
Context {S : Type}.

Lemma wp_ret {A} (a : A) Q (s : S) : wp (ret a) Q s <-> Q a s.
Proof. done. Qed.
Lemma wp_gets {A} (f : S -> A) Q s : wp (gets f) Q s <-> Q (f s) s.
Proof. done. Qed.
Lemma wp_modify f Q (s : S) : wp (modify f) Q s <-> Q tt (f s).
Proof. done. Qed.
Lemma wp_bind {A B} (m : M S A) (k : A -> M S B) Q s :
  wp (bind m k) Q s <-> wp m (fun a => wp (k a) Q) s.
Proof. unfold wp, bind. by destruct (m s). Qed.
Lemma wp_mono {A} (m : M S A) (P Q : A -> S -> Prop) s :
  wp m P s -> (forall a s', P a s' -> Q a s') -> wp m Q s.
Proof. unfold wp. auto. Qed.
Lemma wp_any {A} (m : M S A) (Q : A -> S -> Prop) s : (forall a s', Q a s') -> wp m Q s.
Proof. intros HQ. apply HQ. Qed.
Lemma wp_and {A} (m : M S A) (P Q : A -> S -> Prop) s :
  wp m P s -> wp m Q s -> wp m (fun a s' => P a s' /\ Q a s') s.
Proof. done. Qed.
Lemma wp_stable {A} (R : S -> S -> Prop) (m : M S A) s :
  stable R m -> wp m (fun _ s' => R s s') s.
Proof. intros H. apply H. Qed.

(** Invariants of the loops. *)
Lemma wp_each {A} (P : S -> Prop) (l : list A) f s :
  P s -> (forall a s, a ∈ l -> P s -> wp (f a) (fun _ => P) s) -> wp (each l f) (fun _ => P) s.
Proof.
  revert s. induction l as [|a l IH]; intros s Hs Hf; [done|]. cbn [each]. apply wp_bind.
  eapply wp_mono; [apply Hf; [left|done]|]. intros ? s' Hs'. apply IH; [done|].
  intros b t Hb. apply Hf. by right.
Qed.
Lemma wp_first_of {A B} (P : S -> Prop) (Q : B -> S -> Prop) (l : list A) (f : A -> M S (option B)) s :
  P s ->
  (forall a s, a ∈ l -> P s -> wp (f a) (fun o s' => match o with None => P s' | Some b => Q b s' end) s) ->
  wp (first_of l f) (fun o s' => match o with None => P s' | Some b => Q b s' end) s.
Proof.
  revert s. induction l as [|a l IH]; intros s Hs Hf; [done|]. cbn [first_of]. apply wp_bind.
  eapply wp_mono; [apply Hf; [left|done]|]. intros [b|] s' Hs'; [done|].
  apply IH; [done|]. intros c t Hc. apply Hf. by right.
Qed.
Lemma wp_drain {A} (P : S -> Prop) n (take : M S (option A)) handle s :
  P s -> (forall s, P s -> wp take (fun _ => P) s) -> (forall a s, P s -> wp (handle a) (fun _ => P) s) ->
  wp (drain n take handle) (fun _ => P) s.
Proof.
  intros Hs Ht Hh. revert s Hs. induction n as [|n IH]; intros s Hs; [done|]. cbn [drain].
  apply wp_bind. eapply wp_mono; [by apply Ht|]. intros [a|] s' Hs'; [|done].
  apply wp_bind. eapply wp_mono; [by apply Hh|]. intros ? s'' Hs''. by apply IH.
Qed.
End Wp.
