(* ===== verification/Auth.v ===== *)
(** * Accounts: sign-in, the stored key, sessions ([src/auth/rnet_auth.c])

    The worker's jobs in the state monad, over the file-scope struct [g]. What
    is outside is part of the state: the files, the answers the server will
    give ([ac_http], one per request), the moments the launcher sets the cancel
    flag ([ac_cancels], one per reading of the flag), whether a file can be
    written and a browser opened, and the requests sent. Text is a list of
    bytes. *)

From stdpp Require Import base list numbers list_numbers strings gmap.
From S2P Require Import Prelude CStrings Digest Json StateM.

Open Scope rnet_scope.

Definition SECRET_MAX : Z := 96.
Definition SESSION_MAX : Z := 1024.
Definition NAME_MAX_LEN : Z := 64.
Definition ID_MAX : Z := 64.

Inductive AccountState := ACCOUNT_GUEST | ACCOUNT_WAITING | ACCOUNT_SIGNED_IN | ACCOUNT_FAILED.
Inductive AuthJob := JOB_NONE | JOB_LOGIN | JOB_SESSION | JOB_SET_HANDLE | JOB_SIGN_OUT.
Inductive SessionVerdict := SESSION_OK | SESSION_REJECTED | SESSION_UNREACHABLE.
#[export] Instance session_verdict_eq_dec : EqDecision SessionVerdict.
Proof. solve_decision. Defined.

(** What comes of one exchange: no connection (the negative result), or the
    bytes received before the server closed. *)
Inductive HttpOut := NoReply (code : Z) | Reply (raw : list Z).

Record Account := MkAccount {
  ac_host : list Z;
  ac_port : Z;
  ac_state : AccountState;
  ac_unavailable : bool;
  ac_cancel : bool;
  ac_busy : bool;
  ac_secret : list Z;
  ac_session : list Z;
  ac_player_id : list Z;
  ac_handle : list Z;
  ac_username : list Z;
  ac_error : list Z;
  ac_pair_code : list Z;
  ac_pending_handle : list Z;
  ac_job : AuthJob;
  ac_initialized : bool;
  ac_tried_stored_key : bool;
  ac_secret_path : list Z;              (* g_secret_path *)
  ac_files : gmap (list Z) (list Z);
  ac_can_write : bool;
  ac_browser : bool;
  ac_thread_ok : bool;
  ac_http : list HttpOut;
  ac_cancels : list bool;
  ac_requests : list (list Z) }.

Definition eta_ac (a : Account) : Account :=
  MkAccount (ac_host a) (ac_port a) (ac_state a) (ac_unavailable a) (ac_cancel a) (ac_busy a) (ac_secret a)
    (ac_session a) (ac_player_id a) (ac_handle a) (ac_username a) (ac_error a) (ac_pair_code a)
    (ac_pending_handle a) (ac_job a) (ac_initialized a) (ac_tried_stored_key a) (ac_secret_path a) (ac_files a)
    (ac_can_write a) (ac_browser a) (ac_thread_ok a) (ac_http a) (ac_cancels a) (ac_requests a).
Definition set_ac_host := ltac:(updater eta_ac ac_host).
Definition set_ac_port := ltac:(updater eta_ac ac_port).
Definition set_ac_state := ltac:(updater eta_ac ac_state).
Definition set_ac_unavailable := ltac:(updater eta_ac ac_unavailable).
Definition set_ac_cancel := ltac:(updater eta_ac ac_cancel).
Definition set_ac_busy := ltac:(updater eta_ac ac_busy).
Definition set_ac_secret := ltac:(updater eta_ac ac_secret).
Definition set_ac_session := ltac:(updater eta_ac ac_session).
Definition set_ac_player_id := ltac:(updater eta_ac ac_player_id).
Definition set_ac_handle := ltac:(updater eta_ac ac_handle).
Definition set_ac_username := ltac:(updater eta_ac ac_username).
Definition set_ac_error := ltac:(updater eta_ac ac_error).
Definition set_ac_pair_code := ltac:(updater eta_ac ac_pair_code).
Definition set_ac_pending_handle := ltac:(updater eta_ac ac_pending_handle).
Definition set_ac_job := ltac:(updater eta_ac ac_job).
Definition set_ac_initialized := ltac:(updater eta_ac ac_initialized).
Definition set_ac_tried_stored_key := ltac:(updater eta_ac ac_tried_stored_key).
Definition set_ac_secret_path := ltac:(updater eta_ac ac_secret_path).
Definition set_ac_files := ltac:(updater eta_ac ac_files).
Definition set_ac_http := ltac:(updater eta_ac ac_http).
Definition set_ac_cancels := ltac:(updater eta_ac ac_cancels).
Definition set_ac_requests := ltac:(updater eta_ac ac_requests).

Abbreviation AM := (M Account).

Definition set_err (e : string) : AM unit := modify (set_ac_error (cut_l 192 (B e))).

(** ** Digest, proof *)

Definition hex_encode (inp : list Z) : list Z :=
  concat ((fun b => [hex_digit (Z.shiftr b 4); hex_digit (Z.land b 15)]) <$> inp).

(** The key block: hashed when longer than a block, zero padded. *)
Definition hmac_key (key : list Z) : list Z :=
  if 64 <? zlen key then rnet_sha256_compute key ++ replicate 32 0
  else key ++ replicate (64 - length key) 0.
Definition xor_pad (k : list Z) (x : Z) : list Z := (fun b => Z.lxor b x) <$> k.

Definition hmac_sha256_hex (key msg : list Z) : list Z :=
  let k := hmac_key key in
  let c := rnet_sha256_update (rnet_sha256_update rnet_sha256_init (xor_pad k 54)) msg in
  let inner := rnet_sha256_final c in
  let tmp := xor_pad k 92 ++ inner in
  hex_encode (rnet_sha256_compute tmp).

(** ** The secret file *)

Definition SECRET_LEGACY_NAME : list Z := B "netplay_secret".

Definition rnet_account_set_secret_path (path : list Z) : AM unit := modify (set_ac_secret_path (cut_l 512 path)).
Definition secret_path (a : Account) : list Z :=
  if 0 <? zlen (ac_secret_path a) then ac_secret_path a else SECRET_LEGACY_NAME.

Definition secret_store (player_id secret : list Z) : AM unit :=
  do a <- gets id;
  if ac_can_write a then
    do! modify (set_ac_files (<[secret_path a := player_id ++ [32] ++ secret ++ [10]]> (ac_files a)));
    do! modify (set_ac_secret (cut_l SECRET_MAX secret));
    modify (set_ac_player_id (cut_l ID_MAX player_id))
  else ret tt.

Definition secret_forget : AM unit :=
  do a <- gets id;
  do! modify (set_ac_files (delete (secret_path a) (ac_files a)));
  do! modify (set_ac_secret []);
  modify (set_ac_player_id []).

(** The line up to a carriage return or newline, split at its first space. *)
Fixpoint line_of (s : list Z) : list Z :=
  match s with [] => [] | b :: r => if (b =? 13) || (b =? 10) then [] else b :: line_of r end.
Fixpoint split_space (s : list Z) : option (list Z * list Z) :=
  match s with
  | [] => None
  | b :: r => if b =? 32 then Some ([], r)
              else match split_space r with Some (x, y) => Some (b :: x, y) | None => None end
  end.
(** A line of the secret file as [secret_load] reads it: the array holds the
    first 167 bytes of the file. *)
Definition read_secret (file : list Z) : option (list Z * list Z) :=
  split_space (line_of (take (Z.to_nat (ID_MAX + SECRET_MAX + 8 - 1)) file)).

Definition secret_load : AM unit :=
  do a <- gets id;
  do! modify (set_ac_secret []);
  do! modify (set_ac_player_id []);
  let '(file, from_legacy) :=
    match ac_files a !! secret_path a with
    | Some f => (Some f, false)
    | None => if 0 <? zlen (ac_secret_path a)
              then (ac_files a !! SECRET_LEGACY_NAME, true) else (None, false)
    end in
  match file with
  | None => ret tt
  | Some f =>
    match read_secret f with
    | None => ret tt
    | Some (pid, secret) =>
      do! modify (set_ac_player_id (cut_l ID_MAX pid));
      do! modify (set_ac_secret (cut_l SECRET_MAX secret));
      do b <- gets id;
      when (from_legacy && (0 <? zlen (ac_secret b))) (secret_store (ac_player_id b) (ac_secret b))
    end
  end.

(** ** HTTP *)

Definition crlf : list Z := [13; 10].
Definition http_request (host : list Z) (port : Z) (path json : list Z) : list Z :=
  cut_l 2048 (B "POST " ++ path ++ B " HTTP/1.1" ++ crlf ++ B "Host: " ++ host ++ [58] ++ print_l port ++ crlf ++
    B "Content-Type: application/json" ++ crlf ++ B "Content-Length: " ++ print_l (zlen json) ++ crlf ++
    B "Connection: close" ++ crlf ++ crlf ++ json).
(** The status and the body of what was received. *)
Definition http_parse (raw : list Z) (cap : Z) : Z * list Z :=
  let buf := take 4095 raw in
  if zlen buf <? 12 then (-4, [])
  else (atoi_l (drop 9 buf),
        match strstr_l (crlf ++ crlf) buf with Some p => cut_l cap (drop 4 p) | None => [] end).

Definition http_post (path : string) (json : list Z) (cap : Z) : AM (Z * list Z) :=
  do a <- gets id;
  do! modify (set_ac_requests (ac_requests a ++ [http_request (ac_host a) (ac_port a) (B path) json]));
  match ac_http a with
  | [] => ret (-1, [])
  | r :: rest =>
    do! modify (set_ac_http rest);
    match r with
    | NoReply code => ret (code, [])
    | Reply raw => ret (http_parse raw cap)
    end
  end.

(** ** One challenge/proof round *)

Definition session_verdict_from_status (st : Z) : SessionVerdict :=
  if (st =? 401) || (st =? 403) || (st =? 404) then SESSION_REJECTED else SESSION_UNREACHABLE.

Definition field (k : string) (v : list Z) : list Z := quoted (B k) ++ 58 :: quoted v.
Definition object (fields : list (list Z)) : list Z :=
  [123] ++ match fields with [] => [] | f :: r => f ++ concat ((fun g => 44 :: g) <$> r) end ++ [125].

(** The verifier and the proof: all the server sees of the key. *)
Definition verifier_hex (secret : list Z) : list Z := hex_encode (rnet_sha256_compute secret).
Definition proof_of (secret nonce : list Z) : list Z := hmac_sha256_hex (verifier_hex secret) nonce.

(** [json_str] into a field that keeps what the getter leaves there. *)
Definition has_key : AM bool := gets (fun a => (0 <? zlen (ac_secret a)) && (0 <? zlen (ac_player_id a))).
Definition take_names (body : list Z) : AM unit :=
  do! modify (set_ac_session (snd (json_str body (B "session") SESSION_MAX)));
  do! modify (set_ac_handle (snd (json_str body (B "handle") NAME_MAX_LEN)));
  modify (set_ac_username (snd (json_str body (B "discord_username") NAME_MAX_LEN))).

Definition prove_and_get_session : AM SessionVerdict :=
  do key <- has_key;
  if negb key then ret SESSION_REJECTED
  else
    do a <- gets id;
    let id_esc := json_esc (ac_player_id a) 128 in
    do (st, body) <- http_post "/auth/challenge" (cut_l 512 (object [field "player_id" id_esc])) 2048;
    if negb (st =? 200) then ret (session_verdict_from_status st)
    else
      let '(ok, nonce) := json_str body (B "nonce") 128 in
      if negb ok then ret SESSION_UNREACHABLE
      else
        let proof := proof_of (ac_secret a) nonce in
        do (st, body) <- http_post "/auth/session"
          (cut_l 512 (object [field "player_id" id_esc; field "nonce" nonce; field "proof" proof])) 2048;
        if negb (st =? 200) then ret (session_verdict_from_status st)
        else
          do! take_names body;
          do s <- gets ac_session;
          ret (if 0 <? zlen s then SESSION_OK else SESSION_UNREACHABLE).

(** ** The worker *)

(** Reading [g.cancel], which the launcher may have set since. *)
Definition read_cancel : AM bool :=
  do a <- gets id;
  match ac_cancels a with
  | [] => ret (ac_cancel a)
  | c :: rest =>
    do! modify (set_ac_cancels rest);
    do! modify (set_ac_cancel (ac_cancel a || c));
    ret (ac_cancel a || c)
  end.

Definition open_url_allowed (url : list Z) : bool := starts_with (B "http://") url || starts_with (B "https://") url.
Definition rnet_open_url (url : list Z) : AM bool :=
  do a <- gets id; ret (open_url_allowed url && ac_browser a).

(** [for (slice = 0; slice < 8 && !g.cancel; ++slice)]. *)
Fixpoint sleep_slices (n : nat) : AM unit :=
  match n with
  | O => ret tt
  | S n => do c <- read_cancel; if c then ret tt else sleep_slices n
  end.

Definition contains (pat s : list Z) : bool := match strstr_l pat s with Some _ => true | None => false end.

(** The polling loop, [tries] rounds left; the answer says whether the loop
    returned from the function. *)
Fixpoint poll_login (tries : nat) : AM bool :=
  match tries with
  | O => ret false
  | S tries =>
    do c <- read_cancel;
    if c then ret false
    else
      do a <- gets id;
      do (st, body) <- http_post "/auth/discord/poll"
        (cut_l 256 (object [field "code" (json_esc (ac_pair_code a) 160)])) 2048;
      if st =? 200 then
        do! take_names body;
        let '(ok1, secret) := json_str body (B "netplay_secret") SECRET_MAX in
        let '(ok2, pid) := json_str body (B "player_id") ID_MAX in
        do! when (ok1 && ok2) (secret_store pid secret);
        do! modify (set_ac_state ACCOUNT_SIGNED_IN);
        ret true
      else if st =? 202 then do! sleep_slices 8; poll_login tries
      else
        do! (if (st =? 403) && contains (B "expired") body
             then set_err "That sign-in expired before it finished. Press Retry to start a new one."
             else if st <? 0 then set_err "Lost contact with the lobby server during sign-in. Press Retry."
             else set_err "Discord sign-in did not complete. Press Retry.");
        do! modify (set_ac_state ACCOUNT_FAILED);
        ret true
  end.

Definition job_login : AM unit :=
  do (st, body) <- http_post "/auth/discord/start" (B "{}") 2048;
  if st =? 503 then
    do! modify (set_ac_unavailable true);
    do! set_err "This lobby server does not offer Discord sign-in.";
    modify (set_ac_state ACCOUNT_FAILED)
  else
    let '(ok1, url) := json_str body (B "url") 1024 in
    let '(ok2, code) := json_str body (B "code") 128 in
    do! when ((st =? 200) && ok1) (modify (set_ac_pair_code code));
    if negb ((st =? 200) && ok1 && ok2) then
      do! set_err "Could not reach the lobby server to start the sign-in.";
      modify (set_ac_state ACCOUNT_FAILED)
    else
      do! modify (set_ac_unavailable false);
      do opened <- rnet_open_url url;
      if negb opened then
        do! set_err "Could not launch a browser. Check your default browser setup, then press Retry.";
        modify (set_ac_state ACCOUNT_FAILED)
      else
        do returned <- poll_login 150;
        if returned then ret tt
        else
          do c <- read_cancel;
          if c then ret tt
          else
            do! set_err "Discord did not answer in time. Press Retry.";
            modify (set_ac_state ACCOUNT_FAILED).

Definition SESSION_ATTEMPTS : nat := 3.

(** The attempts of [job_session]: [None] when a cancel ended the job. *)
Fixpoint attempts (n : nat) (first : bool) : AM (option SessionVerdict) :=
  match n with
  | O => ret (Some SESSION_UNREACHABLE)
  | S n =>
    do c1 <- (if first then ret false else read_cancel);
    do c2 <- (if first || c1 then ret false else read_cancel);
    if c1 || c2 then ret None
    else
      do v <- prove_and_get_session;
      if decide (v = SESSION_UNREACHABLE) then attempts n false else ret (Some v)
  end.

Definition job_session : AM unit :=
  do v <- attempts SESSION_ATTEMPTS true;
  match v with
  | None => ret tt
  | Some SESSION_OK => modify (set_ac_state ACCOUNT_SIGNED_IN)
  | Some SESSION_REJECTED =>
    do! modify (set_ac_session []);
    do! secret_forget;
    modify (set_ac_state ACCOUNT_GUEST)
  | Some SESSION_UNREACHABLE =>
    do! modify (set_ac_session []);
    do! set_err "Could not reach the sign-in server. Your sign-in is saved; this will retry next time.";
    modify (set_ac_state ACCOUNT_FAILED)
  end.

Definition job_set_handle : AM unit :=
  do key <- has_key;
  if negb key then set_err "Sign in before changing your name."
  else
    do a <- gets id;
    let id_esc := json_esc (ac_player_id a) 128 in
    do (st, body) <- http_post "/auth/challenge" (cut_l 768 (object [field "player_id" id_esc])) 1024;
    let '(ok, nonce) := json_str body (B "nonce") 128 in
    if negb (st =? 200) || negb ok then set_err "Could not reach the lobby server."
    else
      let proof := proof_of (ac_secret a) nonce in
      let esc := json_esc (ac_pending_handle a) 160 in
      do (st, body) <- http_post "/auth/handle"
        (cut_l 768 (object [field "player_id" id_esc; field "nonce" nonce; field "proof" proof; field "handle" esc])) 1024;
      if st =? 200 then modify (set_ac_handle (snd (json_str body (B "handle") NAME_MAX_LEN)))
      else set_err "That name can't be used. Please pick another one.".

Definition job_sign_out : AM unit :=
  do key <- has_key;
  do! when key (
    do a <- gets id;
    let id_esc := json_esc (ac_player_id a) 128 in
    do (st, body) <- http_post "/auth/challenge" (cut_l 512 (object [field "player_id" id_esc])) 512;
    let '(ok, nonce) := json_str body (B "nonce") 128 in
    when ((st =? 200) && ok) (
      do _r <- http_post "/auth/secret/revoke"
        (cut_l 512 (object [field "player_id" id_esc; field "nonce" nonce; field "proof" (proof_of (ac_secret a) nonce)])) 512;
      ret tt));
  do! secret_forget;
  do! modify (set_ac_session []);
  do! modify (set_ac_handle []);
  do! modify (set_ac_username []);
  modify (set_ac_state ACCOUNT_GUEST).

Definition auth_worker (job : AuthJob) : AM unit :=
  do! (match job with
       | JOB_LOGIN => job_login
       | JOB_SESSION => job_session
       | JOB_SET_HANDLE => job_set_handle
       | JOB_SIGN_OUT => job_sign_out
       | JOB_NONE => ret tt
       end);
  modify (set_ac_busy false).

(** [start_job]: -1 is [false]. The worker runs concurrently; here it is
    started, [auth_worker] is what it does. *)
Definition start_job (job : AuthJob) : AM bool :=
  do a <- gets id;
  if ac_busy a then ret false
  else
    do! modify (set_ac_busy true);
    do! modify (set_ac_job job);
    if ac_thread_ok a then ret true else do! modify (set_ac_busy false); ret false.

(** ** The launcher's calls *)

(** [strrchr(hostport, ':')]: the host and the text after the last colon. *)
Fixpoint split_last_colon (s : list Z) : option (list Z * list Z) :=
  match s with
  | [] => None
  | b :: r => match split_last_colon r with
              | Some (h, p) => Some (b :: h, p)
              | None => if b =? 58 then Some ([], r) else None
              end
  end.
Definition up_to (c : Z) (s : list Z) : list Z :=
  match strchr_l c s with Some r => take (length s - length r) s | None => s end.
Definition strip_scheme (p : list Z) : list Z :=
  if starts_with (B "ws://") p then drop 5 p else if starts_with (B "wss://") p then drop 6 p else p.
(** The host and port of a lobby URL. *)
Definition url_host (ws_url : list Z) : list Z * Z :=
  let hostport := cut_l 192 (up_to 47 (strip_scheme ws_url)) in
  match split_last_colon hostport with
  | Some (h, p) => match strchr_l 93 p with
                   | None => (h, atoi_l p)
                   | Some _ => (hostport, 8765)
                   end
  | None => (hostport, 8765)
  end.

Definition rnet_account_init (ws_url : option (list Z)) : AM unit :=
  let '(host, port) := match ws_url with Some u => url_host u | None => ([], 8765) end in
  do! modify (set_ac_host host);
  do! modify (set_ac_port port);
  do a <- gets id;
  if ac_initialized a then ret tt
  else
    do! modify (set_ac_state ACCOUNT_GUEST);
    do! secret_load;
    modify (set_ac_initialized true).

Definition rnet_account_pump : AM unit :=
  do a <- gets id;
  if negb (ac_initialized a) || ac_busy a then ret tt
  else if negb (ac_tried_stored_key a) && (0 <? zlen (ac_secret a)) && (0 <? zlen (ac_player_id a)) then
    do! modify (set_ac_tried_stored_key true);
    do! modify (set_ac_state ACCOUNT_WAITING);
    do _r <- start_job JOB_SESSION; ret tt
  else ret tt.

Definition rnet_account_available (a : Account) : bool := negb (ac_unavailable a).

(** [rnet_account_login_begin]: [finished] says whether a running worker ends
    within the two seconds it is waited for. *)
Definition rnet_account_login_begin (finished : bool) : AM bool :=
  do a <- gets id;
  do! when (ac_busy a) (modify (set_ac_cancel true));
  if ac_busy a && negb finished then
    do! set_err "Still finishing the last sign-in attempt. Try again in a moment."; ret false
  else
    do! modify (set_ac_busy false);
    do! modify (set_ac_cancel false);
    do! modify (set_ac_error []);
    do! modify (set_ac_state ACCOUNT_WAITING);
    start_job JOB_LOGIN.

Definition rnet_account_sign_out : AM bool :=
  do a <- gets id;
  if ac_busy a then ret false else start_job JOB_SIGN_OUT.

(** The request part of [rnet_account_set_handle]; the caller then waits for
    the worker and reports [ac_error]. *)
Definition set_handle_begin (handle : list Z) : AM bool :=
  do a <- gets id;
  if ac_busy a || (zlen handle =? 0) then ret false
  else
    do! modify (set_ac_pending_handle (cut_l NAME_MAX_LEN handle));
    do! modify (set_ac_error []);
    start_job JOB_SET_HANDLE.
