(* ===== verification/AuthProofs.v ===== *)
(** * Accounts: the stored key survives, proofs are standard, jobs settle *)

From stdpp Require Import base list numbers list_numbers strings gmap.
From S2P Require Import Prelude CStrings Digest Json StateM Auth.

Open Scope rnet_scope.

(** ** The proof of possession *)

(** RFC 2104 over SHA-256. *)
Definition sha256_ref (msg : list Z) : list Z := md_hash sha256_block sha256_iv msg.
Definition hmac_ref (key msg : list Z) : list Z :=
  let k := (if 64 <? zlen key then sha256_ref key else key) in
  let k := k ++ replicate (64 - length k) 0 in
  sha256_ref (xor_pad k 92 ++ sha256_ref (xor_pad k 54 ++ msg)).

Lemma sha256_compute_ref msg : rnet_sha256_compute msg = sha256_ref msg.
Proof. pose proof (sha256_final_standard (rnet_sha256_update rnet_sha256_init msg) msg) as H. apply H.
  apply (sha256_update_absorbs _ [] msg), sha256_init_absorbs. Qed.

Lemma length_sha256_ref msg : length (sha256_ref msg) = 32%nat.
Proof.
  unfold sha256_ref, md_hash.
  assert (forall n h d, length h = 8%nat -> length (iterate sha256_block n h d) = 8%nat) as G.
  { induction n as [|n IH]; intros h d Hh; [done|]. cbn [iterate]. apply IH. unfold sha256_block.
    destruct (for_upto _ _ _) as [[[[[[[? ?] ?] ?] ?] ?] ?] ?]. by rewrite length_zip_with, Hh. }
  specialize (G (length (md_pad msg) / 64)%nat sha256_iv (md_pad msg) eq_refl).
  destruct (iterate _ _ _ _) as [|? [|? [|? [|? [|? [|? [|? [|? [|? ?]]]]]]]]]; cbn in G; try lia. reflexivity.
Qed.

(** The proof a client answers a challenge with is HMAC-SHA-256 of the
    nonce as RFC 2104 defines it, for every key (hashed first when it is longer
    than a block) and every nonce, in lower-case hexadecimal. *)
Theorem hmac_is_standard key msg : hmac_sha256_hex key msg = hex_encode (hmac_ref key msg).
Proof.
  unfold hmac_sha256_hex, hmac_ref.
  assert (hmac_key key = (if 64 <? zlen key then sha256_ref key else key) ++
    replicate (64 - length (if 64 <? zlen key then sha256_ref key else key)) 0) as ->.
  { unfold hmac_key. rewrite sha256_compute_ref. destruct (64 <? zlen key); [|done]. by rewrite length_sha256_ref. }
  set (k := _ ++ replicate _ _). rewrite sha256_compute_ref. do 3 f_equal.
  apply sha256_final_standard.
  apply (sha256_update_absorbs _ (xor_pad k 54)), (sha256_update_absorbs _ []), sha256_init_absorbs.
Qed.

(** ** The secret file *)

Definition no_eol (s : list Z) : Prop := Forall (fun b => b <> 13 /\ b <> 10) s.

Lemma line_of_app s r : no_eol s -> line_of (s ++ 10 :: r) = s.
Proof.
  induction 1 as [|b s [H1 H2] _ IH]; [done|]. cbn. apply Z.eqb_neq in H1 as ->. apply Z.eqb_neq in H2 as ->.
  cbn. by rewrite IH.
Qed.
Lemma split_space_app a b : Forall (fun c => c <> 32) a -> split_space (a ++ 32 :: b) = Some (a, b).
Proof. induction 1 as [|c a H _ IH]; [done|]. cbn. apply Z.eqb_neq in H as ->. by rewrite IH. Qed.

(** The stored key survives a restart: an id and a key within their arrays,
    without line ends (and no space in the id), that one run stores are what
    the next run loads, at the configured path or, when none is configured, at
    the legacy one. *)
Theorem secret_survives_restart a pid secret next :
  ac_can_write a = true -> zlen pid < ID_MAX -> zlen secret < SECRET_MAX ->
  no_eol pid -> no_eol secret -> Forall (fun c => c <> 32) pid ->
  ac_secret_path next = ac_secret_path a -> ac_files next = ac_files (snd (secret_store pid secret a)) ->
  ac_player_id (snd (secret_load next)) = pid /\ ac_secret (snd (secret_load next)) = secret.
Proof.
  intros Hw Hpid Hsec Hp Hs Hsp Hpath Hfiles. unfold ID_MAX, SECRET_MAX in *.
  assert (ac_files next !! secret_path next = Some (pid ++ [32] ++ secret ++ [10])) as Hf.
  { rewrite Hfiles. replace (secret_path next) with (secret_path a) by (unfold secret_path; by rewrite Hpath).
    unfold secret_store, bind, gets, id. rewrite Hw. apply lookup_insert_eq. }
  assert (read_secret (pid ++ [32] ++ secret ++ [10]) = Some (pid, secret)) as Hr.
  { unfold read_secret. rewrite take_ge.
    - replace (pid ++ [32] ++ secret ++ [10]) with ((pid ++ 32 :: secret) ++ 10 :: []) by (by rewrite <- app_assoc).
      rewrite line_of_app; [by apply split_space_app|]. apply Forall_app. split; [done|]. by constructor.
    - unfold zlen, ID_MAX, SECRET_MAX in *. rewrite !length_app. cbn [length]. lia. }
  unfold secret_load, bind, gets, modify, id. rewrite Hf. cbn iota. rewrite Hr. cbn.
  unfold cut_l, zlen, ID_MAX, SECRET_MAX in *. by rewrite !take_ge by lia.
Qed.

Definition acct (files : gmap (list Z) (list Z)) (http : list HttpOut) : Account :=
  MkAccount (B "lobby") 8765 ACCOUNT_WAITING false false true [] [] [] [] [] [] [] [] JOB_SESSION true true
    (B "key") files true true true http [] [].
Lemma secret_survives_restart_witness :
  let a := acct ∅ [] in let next := acct (ac_files (snd (secret_store (B "p1") (B "s3cret") a))) [] in
  ac_player_id (snd (secret_load next)) = B "p1" /\ ac_secret (snd (secret_load next)) = B "s3cret".
Proof.
  intros a next. apply (secret_survives_restart a (B "p1") (B "s3cret") next).
  - reflexivity.
  - vm_compute; reflexivity.
  - vm_compute; reflexivity.
  - repeat (constructor; [vm_compute; split; congruence|]); constructor.
  - repeat (constructor; [vm_compute; split; congruence|]); constructor.
  - repeat (constructor; [vm_compute; congruence|]); constructor.
  - reflexivity.
  - reflexivity.
Defined.

(** ** Redeeming the stored key *)

Definition reply_status (r : HttpOut) : Z :=
  match r with NoReply code => code | Reply raw => fst (http_parse raw 2048) end.
(** The server knows nothing of the key. *)
Definition refusing (st : Z) : Prop := st = 401 \/ st = 403 \/ st = 404.

(** What no exchange with the server touches; answers are only consumed. *)
Record keeps (a b : Account) : Prop := {
  keeps_secret : ac_secret b = ac_secret a;
  keeps_id : ac_player_id b = ac_player_id a;
  keeps_files : ac_files b = ac_files a;
  keeps_path : ac_secret_path b = ac_secret_path a;
  keeps_http : ac_http b ⊆ ac_http a }.
#[export] Instance keeps_preorder : PreOrder keeps.
Proof.
  split; [by intros a; constructor|]. intros a b c [] []. constructor; try congruence. set_solver.
Qed.
Ltac keeps_upd := by constructor.

Lemma status_any_cap raw c1 c2 : fst (http_parse raw c1) = fst (http_parse raw c2).
Proof. unfold http_parse. generalize (take 4095 raw). intros buf. by destruct (zlen buf <? 12). Qed.

Lemma wp_http p j cap a (Q : Z * list Z -> Account -> Prop) :
  (forall st body b, keeps a b -> (st = -1 \/ exists r, r ∈ ac_http a /\ st = reply_status r) -> Q (st, body) b) ->
  wp (http_post p j cap) Q a.
Proof.
  intros H. unfold wp, http_post, bind, gets, modify, id, ret.
  destruct (ac_http a) as [|r rest] eqn:E; cbn; [apply H; [by constructor|by left]|].
  destruct r as [code|raw]; cbn.
  - apply H; [constructor; cbn; try done; rewrite E; set_solver|right]. exists (NoReply code). split; [left|done].
  - destruct (http_parse raw cap) as [st body] eqn:Ep. apply H; [constructor; cbn; try done; rewrite E; set_solver|right].
    exists (Reply raw). split; [left|]. cbn. by rewrite (status_any_cap _ _ cap), Ep.
Qed.

Lemma verdict_refusing st : session_verdict_from_status st = SESSION_REJECTED <-> refusing st.
Proof.
  unfold session_verdict_from_status, refusing.
  destruct (Z.eqb_spec st 401), (Z.eqb_spec st 403), (Z.eqb_spec st 404); cbn; intuition (congruence || done).
Qed.

(** A round with a key: it says "rejected" only on a refusing answer. *)
Lemma prove_spec a : has_key a = (true, a) ->
  wp prove_and_get_session (fun v b => keeps a b /\
    (v = SESSION_REJECTED -> exists r, r ∈ ac_http a /\ refusing (reply_status r))) a.
Proof.
  intros Hk. unfold prove_and_get_session. apply wp_bind. unfold wp at 1. rewrite Hk. cbn [fst snd negb].
  apply wp_bind, wp_gets, wp_bind, wp_http. intros st body b Hb Hst. unfold id.
  assert (session_verdict_from_status st = SESSION_REJECTED -> exists r, r ∈ ac_http a /\ refusing (reply_status r)) as H1.
  { rewrite verdict_refusing. destruct Hst as [->|(r & ? & ->)]; [intros [|[|]]; lia|eauto]. }
  destruct (negb (st =? 200)); [by apply wp_ret|]. destruct (json_str _ _ _) as [ok nonce].
  destruct (negb ok); [by apply wp_ret|]. apply wp_bind, wp_http. intros st2 body2 c Hc Hst2.
  assert (keeps a c) as Hac by (by etransitivity).
  destruct (negb (st2 =? 200)).
  - apply wp_ret. split; [done|]. rewrite verdict_refusing.
    destruct Hst2 as [->|(r & Hr & ->)]; [intros [|[|]]; lia|]. intros Href. exists r. split; [|done].
    by apply (keeps_http _ _ Hb).
  - cbv [wp take_names bind modify gets ret fst snd].
    split; [|by destruct (0 <? _)]. etransitivity; [exact Hac|]. by constructor.
Qed.

Lemma has_key_keeps a b : keeps a b -> has_key a = (true, a) -> has_key b = (true, b).
Proof. intros [Hs Hi _ _ _] Hk. unfold has_key, gets in *. rewrite Hs, Hi. by injection Hk as ->. Qed.

Lemma wp_cancel a (Q : bool -> Account -> Prop) : (forall c b, keeps a b -> ac_state b = ac_state a -> (c = true -> ac_cancel b = true) -> Q c b) ->
  wp read_cancel Q a.
Proof.
  intros H. unfold wp, read_cancel, bind, gets, modify, id, ret. destruct (ac_cancels a) as [|c rest]; cbn.
  - by apply H.
  - apply H; [by constructor|done|done].
Qed.

Lemma attempts_spec n : forall first a, has_key a = (true, a) ->
  wp (attempts n first) (fun v b => keeps a b /\
    (v = Some SESSION_REJECTED -> exists r, r ∈ ac_http a /\ refusing (reply_status r))) a.
Proof.
  induction n as [|n IH]; intros first a Hk; cbn [attempts]; [by apply wp_ret|].
  assert (forall b, keeps a b -> wp (do v <- prove_and_get_session;
    if decide (v = SESSION_UNREACHABLE) then attempts n false else ret (Some v)) (fun v b => keeps a b /\
    (v = Some SESSION_REJECTED -> exists r, r ∈ ac_http a /\ refusing (reply_status r))) b) as Hgo.
  { intros b Hb. apply wp_bind. eapply wp_mono; [apply prove_spec; by eapply has_key_keeps|].
    intros v c [Hc Hv]. assert (keeps a c) as Hac by (by etransitivity).
    destruct (decide (v = SESSION_UNREACHABLE)).
    - eapply wp_mono; [apply IH; by eapply has_key_keeps|]. intros v' d [Hd Hv']. split; [by etransitivity|].
      intros E. destruct (Hv' E) as (r & Hr & ?). exists r. split; [by apply (keeps_http _ _ Hac)|done].
    - apply wp_ret. split; [done|]. intros [= ->]. destruct (Hv eq_refl) as (r & Hr & ?). exists r.
      split; [by apply (keeps_http _ _ Hb)|done]. }
  apply wp_bind. destruct first; cbn [orb].
  - apply wp_ret, wp_bind, wp_ret. by apply Hgo.
  - apply wp_cancel. intros c1 b Hb _ _. apply wp_bind. destruct c1; cbn [orb].
    + apply wp_ret. by apply wp_ret.
    + apply wp_cancel. intros c2 c Hc _ _. assert (keeps a c) by (by etransitivity).
      destruct c2; [by apply wp_ret|by apply Hgo].
Qed.

(** C25. A stored key is destroyed only on authority: unless one of the server's
    answers to this job was 401, 403 or 404, redeeming the key (three rounds,
    whatever fails: no connection, a server fault, a reply without a nonce or a
    session, a cancel in between) leaves the key, the id and the file as they
    were. *)
Theorem stored_key_survives a : has_key a = (true, a) ->
  (forall r, r ∈ ac_http a -> ~ refusing (reply_status r)) ->
  let b := snd (job_session a) in
  ac_secret b = ac_secret a /\ ac_player_id b = ac_player_id a /\ ac_files b = ac_files a.
Proof.
  intros Hk Hno. cut (wp job_session (fun _ b =>
    ac_secret b = ac_secret a /\ ac_player_id b = ac_player_id a /\ ac_files b = ac_files a) a); [done|].
  unfold job_session. apply wp_bind. eapply wp_mono; [by apply attempts_spec|]. intros v b [[] Hv].
  destruct v as [[]|]; [by apply wp_modify| | |by apply wp_ret].
  - destruct (Hv eq_refl) as (r & Hr & ?). by destruct (Hno r Hr).
  - cbv [wp set_err bind modify fst snd]. done.
Qed.

(** A server that answers 500, then drops the connection. *)
Definition key_acct : Account :=
  set_ac_player_id (B "p1") (set_ac_secret (B "k")
    (acct ∅ [Reply (B "HTTP/1.1 500 Oops"); NoReply (-2)])).
Lemma stored_key_survives_witness : ac_secret (snd (job_session key_acct)) = B "k".
Proof.
  apply (stored_key_survives key_acct); [reflexivity|]. intros r Hr.
  repeat (apply elem_of_cons in Hr as [->|Hr]; [vm_compute; intros [H|[H|H]]; discriminate|]).
  by apply not_elem_of_nil in Hr.
Defined.

(** ** Jobs settle *)

(** The published state a worker may leave. *)
Definition settled (a : Account) : Prop :=
  ac_busy a = false /\ (ac_state a = ACCOUNT_WAITING -> ac_cancel a = true).

Lemma poll_login_spec n : forall a, wp (poll_login n) (fun r b => r = true -> ac_state b <> ACCOUNT_WAITING) a.
Proof.
  induction n as [|n IH]; intros a; cbn [poll_login]; [by apply wp_ret|].
  apply wp_bind, wp_any. intros [] b; [by apply wp_ret|]. apply wp_bind, wp_gets, wp_bind, wp_any. intros [st body] c.
  destruct (st =? 200).
  - apply wp_bind, wp_any. intros _ d. destruct (json_str _ _ _), (json_str _ _ _).
    apply wp_bind, wp_any. intros _ e. apply wp_bind, wp_modify, wp_ret. done.
  - destruct (st =? 202); [apply wp_bind, wp_any; intros _ d; apply IH|].
    apply wp_bind, wp_any. intros _ d. apply wp_bind, wp_modify, wp_ret. done.
Qed.

Lemma job_login_spec a : wp job_login (fun _ b => ac_state b = ACCOUNT_WAITING -> ac_cancel b = true) a.
Proof.
  unfold job_login. apply wp_bind, wp_any. intros [st body] b. destruct (st =? 503).
  { apply wp_bind, wp_any. intros _ c. apply wp_bind, wp_any. intros _ d. by apply wp_modify. }
  destruct (json_str _ _ _) as [ok1 url], (json_str _ _ _) as [ok2 code].
  apply wp_bind, wp_any. intros _ c. destruct (negb _).
  { apply wp_bind, wp_any. intros _ d. by apply wp_modify. }
  apply wp_bind, wp_any. intros _ d. apply wp_bind, wp_any. intros opened e. destruct (negb opened).
  { apply wp_bind, wp_any. intros _ f. by apply wp_modify. }
  apply wp_bind. eapply wp_mono; [apply poll_login_spec|]. intros [] f Hf.
  { apply wp_ret. intros Hw. by destruct (Hf eq_refl). }
  apply wp_bind, wp_cancel. intros c' g _ _ Hc. destruct c'; [apply wp_ret; auto|].
  apply wp_bind, wp_any. intros _ h. by apply wp_modify.
Qed.

Lemma attempts_cancel n : forall first a, wp (attempts n first) (fun v b => v = None -> ac_cancel b = true) a.
Proof.
  induction n as [|n IH]; intros first a; cbn [attempts]; [by apply wp_ret|]. apply wp_bind.
  assert (forall b, wp (do v <- prove_and_get_session;
    if decide (v = SESSION_UNREACHABLE) then attempts n false else ret (Some v))
    (fun v b => v = None -> ac_cancel b = true) b) as Hgo.
  { intros b. apply wp_bind, wp_any. intros v c. destruct (decide _); [apply IH|by apply wp_ret]. }
  destruct first; cbn [orb]; [apply wp_ret, wp_bind, wp_ret; apply Hgo|].
  apply wp_cancel. intros c1 b _ _ H1. apply wp_bind. destruct c1; cbn [orb].
  - apply wp_ret, wp_ret. auto.
  - apply wp_cancel. intros c2 c _ _ H2. destruct c2; [apply wp_ret; auto|apply Hgo].
Qed.

(** A sign-in never hangs in silence: whatever the server answers and
    however the job ends, the worker clears the busy flag, and the published
    state is "waiting" only when the launcher asked the job to stand down. *)
Theorem sign_in_settles job a : job = JOB_LOGIN \/ job = JOB_SESSION ->
  settled (snd (auth_worker job a)).
Proof.
  intros Hj. cut (wp (auth_worker job) (fun _ b => settled b) a); [done|]. unfold auth_worker.
  apply wp_bind. destruct Hj as [->| ->].
  - eapply wp_mono; [apply job_login_spec|]. intros ? b Hb. apply wp_modify. by split.
  - unfold job_session. apply wp_bind. eapply wp_mono; [apply attempts_cancel|].
    intros [[]|] b Hb; [| | |apply wp_ret, wp_modify; split; [done|]; intros _; by apply Hb].
    + cbv [wp modify fst snd]. by split.
    + apply wp_bind, wp_any. intros ? c. apply wp_bind, wp_any. intros ? d. cbv [wp modify fst snd]. by split.
    + apply wp_bind, wp_any. intros ? c. apply wp_bind, wp_any. intros ? d. cbv [wp modify fst snd]. by split.
Qed.

Lemma sign_in_settles_witness : settled (snd (auth_worker JOB_SESSION key_acct)).
Proof. apply sign_in_settles. right. reflexivity. Defined.
