(* ===== verification/SessionStats.v ===== *)
(** * Session statistics (src/session/rnet_session.c, rnet_session_get_stats)

    The record the scheduler and the rollback driver pace themselves by: above
    all the highest remote row held and its lead over the local clock. *)

From stdpp Require Import base list numbers list_numbers.
From S2P Require Import Prelude Protocol Config Rings CtrlQueue Rollback Session SessionState SessionMain.

(** The snapshot a host reads; the four ICE diagnostics fields are left out. *)
Record RNetSessionStats := mkStats {
  ss_sim_tick : Z;
  ss_delay : Z;
  ss_local_slot : Z;
  ss_slot_count : Z;
  ss_is_running : bool;
  ss_peer_gone : Z;
  ss_last_peer_rx_age_ms : Z;
  ss_highest_remote_wire : Z;
  ss_remote_lead : Z;
  ss_last_stall : RNetAdmitStall;
  ss_consecutive_stalls : Z;
  ss_admit_ok_count : Z;
  ss_stall_streaks : Z;
  ss_last_admit_wait_ms : Z;
  ss_max_admit_wait_ms : Z;
  ss_input_desync : Z;
  ss_desync_tick : Z;
  ss_desync_local_hash : Z;
  ss_desync_remote_hash : Z;
  ss_state_busy : bool;
  ss_state_op : Z;
  ss_state_sender : Z;
  ss_state_bytes_total : Z;
  ss_state_bytes_acked : Z;
  ss_packets_rx : Z;
  ss_input_bundle_sends : Z;
  ss_state_expect_mask : Z;
  ss_state_done_mask : Z;
  ss_state_rx_mask : Z;
  ss_state_probe_expect_mask : Z;
  ss_state_probe_reply_mask : Z;
  ss_peer_gone_mask : Z;
  ss_peer_rx_age_ms : list Z
}.
Definition eta_ss (r : RNetSessionStats) : RNetSessionStats :=
  mkStats
    (ss_sim_tick r) (ss_delay r) (ss_local_slot r) (ss_slot_count r) (ss_is_running r)
    (ss_peer_gone r) (ss_last_peer_rx_age_ms r) (ss_highest_remote_wire r) (ss_remote_lead r)
    (ss_last_stall r) (ss_consecutive_stalls r) (ss_admit_ok_count r) (ss_stall_streaks r)
    (ss_last_admit_wait_ms r) (ss_max_admit_wait_ms r) (ss_input_desync r) (ss_desync_tick r)
    (ss_desync_local_hash r) (ss_desync_remote_hash r) (ss_state_busy r) (ss_state_op r)
    (ss_state_sender r) (ss_state_bytes_total r) (ss_state_bytes_acked r) (ss_packets_rx r)
    (ss_input_bundle_sends r) (ss_state_expect_mask r) (ss_state_done_mask r) (ss_state_rx_mask r)
    (ss_state_probe_expect_mask r) (ss_state_probe_reply_mask r) (ss_peer_gone_mask r)
    (ss_peer_rx_age_ms r).
Definition set_ss_highest_remote_wire := ltac:(updater eta_ss ss_highest_remote_wire).
Definition set_ss_remote_lead := ltac:(updater eta_ss ss_remote_lead).

(** The highest row held of any occupied remote seat; [None] without one. *)
Definition highest_remote (s : RNetSession) : option Z :=
  for_upto (cfg_slot_count (s_cfg s)) (fun slot best =>
    if (slot =? cfg_local_slot (s_cfg s)) || negb (rnet_config_slot_occupied (s_cfg s) slot) then best else
    let tip := rnet_ring_highest_valid (remote_ring s slot) in
    match best with
    | Some b => if b <? tip then Some tip else best
    | None => Some tip
    end) None.

(** [(op, total, done)] of the transfer the single-transfer fields describe. *)
Definition stats_transfer (s : RNetSession) : Z * Z * Z :=
  if nz (tx_active (s_tx s)) then (tx_op (s_tx s), tx_total (s_tx s), state_tx_min_ack (s_tx s)) else
  match find (fun i => nz (rx_active (s_rx s i))) (seqZ 0 RNET_MAX_SLOTS) with
  | Some i => (rx_op (s_rx s i), rx_total (s_rx s i), rx_contiguity (s_rx s i))
  | None => (if nz (pr_active (s_probe s)) then pr_op (s_probe s) else 0, 0, 0)
  end.

Definition rnet_session_get_stats (s : RNetSession) : RNetSessionStats * RNetSession :=
  let d := s_diag s in let cn := s_confirm s in let lv := s_live s in let t := s_tx s in
  let '(op, total, acked) := stats_transfer s in
  let rx_mask := for_upto RNET_MAX_SLOTS (fun i m =>
                   if nz (rx_active (s_rx s i)) then Z.lor m (bit i) else m) 0 in
  let probing := nz (pr_active (s_probe s)) && nz (pr_sender (s_probe s)) in
  let busy := state_any_active s || nz (pr_active (s_probe s)) in
  let '(ages, s) := for_upto RNET_MAX_SLOTS (fun i '(l, s) =>
                      let '(age, s) := rnet_session_peer_rx_age_ms i s in (l ++ [age], s)) ([], s) in
  let '(now, s) := session_now s in
  let rx_age := if nz (lv_last_peer_rx_ms lv) then u64 (now - lv_last_peer_rx_ms lv) else 0 in
  let wait := if nz (dg_stall_started_ms d) && negb (bool_decide (dg_last_stall d = ADMIT_OK))
              then u32 (now - dg_stall_started_ms d) else dg_last_admit_wait_ms d in
  let max_wait := if dg_max_admit_wait_ms d <? wait then wait else dg_max_admit_wait_ms d in
  let max_wait := if nz (dg_stall_started_ms d) && negb (bool_decide (dg_last_stall d = ADMIT_OK))
                  then max_wait else dg_max_admit_wait_ms d in
  let '(tip, lead) := match highest_remote s with
                      | Some tip => (tip, s32 (tip - s_sim_tick s))
                      | None => (0, 0)
                      end in
  (mkStats (s_sim_tick s) (s_delay s) (cfg_local_slot (s_cfg s)) (cfg_slot_count (s_cfg s)) (running s)
     (lv_peer_gone lv) rx_age tip lead (dg_last_stall d) (dg_consecutive_stalls d) (dg_admit_ok_count d)
     (dg_stall_streaks d) wait max_wait (cn_input_desync cn) (cn_desync_tick cn) (cn_desync_local_hash cn)
     (cn_desync_remote_hash cn) busy op (b2z (nz (tx_active t))) total acked (dg_packets_rx d)
     (dg_input_bundle_sends d)
     (if nz (tx_active t) then tx_expect_mask t else 0) (if nz (tx_active t) then state_tx_done_mask t else 0)
     rx_mask (if probing then pr_expect_mask (s_probe s) else 0)
     (if probing then pr_reply_mask (s_probe s) else 0) (lv_peer_gone_mask lv) ages, s).
