(* ===== verification/DriverData.v ===== *)
(** * The rollback driver: data (src/rollback/rnet_rb_driver.c, include/recomp_net/rb_driver.h)

    The driver runs rollback episodes: it opens, follows, replays, verifies and
    commits corrections over the session, the episode core, the input history
    and one hash chain per peer. This file has its state, the host's vtable
    and the scheduler's interface as classes, and the environment knobs.

    The struct's fields are grouped in records. Fields that only feed log lines
    are left out; the lines that report a correction as lost are kept, as
    [d_lost]. An [int] that is only ever 0 or 1 is a [bool]. *)

From stdpp Require Import base list numbers list_numbers strings.
From S2P Require Import Prelude StateM Protocol Config Rings Contract Rollback InputHist HashConfirm CtrlQueue Session SessionState SessionMain SessionStats.

(** ** Constants *)

Definition RNET_RB_PEER_SEAL_MASK_BITS : Z := 64.
Definition RNET_RB_TIP_RUNWAY_DEFAULT : Z := 12.
Definition RNET_RB_EPOCH_SLOT_BITS : Z := 3.
Definition RNET_RB_EPOCH_SLOT_MASK : Z := 7.

Definition RNET_RB_SYNC_OP_NACK : Z := 0.
Definition RNET_RB_SYNC_OP_BEGIN : Z := 1.
Definition RNET_RB_SYNC_OP_ABORT : Z := 2.
Definition RNET_RB_SYNC_OP_COMMIT : Z := 3.
Definition RNET_RB_SYNC_OP_IDENT : Z := 4.
Definition RNET_RB_SYNC_OP_QUIESCE : Z := 5.
Definition RNET_RB_SYNC_OP_FRAME_COMMIT_REQUEST : Z := 6.
Definition RNET_RB_SYNC_FLAG_LIGHT_TIP : Z := 1.
Definition RNET_RB_SYNC_FLAG_REREPLAY : Z := 2.
Definition RNET_RB_ABORT_CLASS_REALIGN : Z := 0.
Definition RNET_RB_ABORT_CLASS_ABORT : Z := 1.
Definition RNET_RB_ABORT_CLASS_NO_SNAP : Z := 3.

Definition RB_BEGIN_SEEN : Z := 32.
Definition RB_NACKED : Z := 16.
Definition RB_EARLY_SEAL_MAX : Z := 16.
Definition RB_BOOT_DIGEST_TIMEOUT_MS : Z := 4000.
Definition RB_MODSET_TIMEOUT_MS : Z := 4000.
Definition RB_LOCKSTEP_TICKS_DEFAULT : Z := 60.
Definition RB_IDENT_RETRY_TICKS : Z := 90.
Definition RB_IDENT_RESEND_MS : Z := 100.
Definition RB_COOLDOWN_TICKS : Z := 30.
Definition RB_MAX_TIP_EXTENDS : Z := 4.
Definition RB_POST_RESEND_MIN_MS : Z := 50.
Definition RB_QUIESCE_RESEND_MS : Z := 50.
Definition RB_QUIESCE_ACK_GRACE_MS : Z := 500.
Definition RNET_RB_QUIESCE_TIMEOUT_MS : Z := 10000.

(** Epoch ids: the sequence number above the initiator's seat. *)
Definition rnet_rb_epoch_make (seq initiator_slot : Z) : Z :=
  Z.lor (u32 (Z.shiftl seq RNET_RB_EPOCH_SLOT_BITS)) (Z.land initiator_slot RNET_RB_EPOCH_SLOT_MASK).
Definition rnet_rb_epoch_initiator (epoch : Z) : Z := Z.land epoch RNET_RB_EPOCH_SLOT_MASK.
Definition epoch_seq (epoch : Z) : Z := Z.shiftr epoch RNET_RB_EPOCH_SLOT_BITS.

(** rb_post.h *)
Definition rnet_rb_peer_post_tip_ok (peer_target episode_tip : Z) : bool := peer_target =? episode_tip.

(** ** Data *)

Inductive RbEpisodeStage : Set :=
| kRbIdle | kRbSealing | kRbReplaying | kRbVerifying | kRbTipHold.
#[export] Instance stage_eq_dec : EqDecision RbEpisodeStage.
Proof. solve_decision. Defined.
Definition stage_index (st : RbEpisodeStage) : Z :=
  match st with kRbIdle => 0 | kRbSealing => 1 | kRbReplaying => 2 | kRbVerifying => 3 | kRbTipHold => 4 end.

Inductive RNetRbReplayMode : Set := REPLAY_INLINE | REPLAY_INCREMENTAL.
#[export] Instance replay_mode_eq_dec : EqDecision RNetRbReplayMode.
Proof. solve_decision. Defined.

Inductive RNetRbAdmit : Set := RNET_RB_ADMIT_STALL | RNET_RB_ADMIT_LIVE | RNET_RB_ADMIT_REPLAY.
#[export] Instance rb_admit_eq_dec : EqDecision RNetRbAdmit.
Proof. solve_decision. Defined.

Inductive RNetRbQuiesce : Set :=
| RNET_RB_QUIESCE_NONE | RNET_RB_QUIESCE_DRAINING | RNET_RB_QUIESCE_DRAINED | RNET_RB_QUIESCE_TIMED_OUT.
#[export] Instance rb_quiesce_eq_dec : EqDecision RNetRbQuiesce.
Proof. solve_decision. Defined.

Record RNetRbDigestParts := mkParts { dp_master : Z; dp_part : list Z }.
Definition zero_parts : RNetRbDigestParts := mkParts 0 [0; 0; 0].
Definition zero_corr : RNetRbCorrection := mkCorr 0 0 0 0 0 0 0 0.

(** A chunk of seal rows that arrived before its episode opened here. *)
Record early_chunk := mkChunk {
  ch_epoch : Z; ch_base : Z; ch_target : Z; ch_row_begin : Z; ch_slot : Z; ch_rows : list RNetRbFrame
}.

(** A BEGIN that was refused. *)
Record nacked_begin := mkNacked {
  nk_epoch : Z; nk_mismatch : Z; nk_load : Z; nk_frontier : Z; nk_slot : Z
}.
Definition zero_nacked : nacked_begin := mkNacked 0 0 0 0 0.

(** The configuration; a NULL pointer is [None]. The values behind the
    pointers are the host's, so they are part of the state. *)
Record RNetRbDriverConfig := mkDcfg {
  dc_session_bound : bool;
  dc_local_slot : option Z;
  dc_slot_count : option Z;
  dc_input_delay : option Z;
  dc_input_prediction : option Z;
  dc_force_turn : Z;
  dc_occupied_mask : Z;
  dc_replay_mode : RNetRbReplayMode;
  dc_part_names : list (option string);
  dc_snap_depth : Z;
  dc_env_alias : option string;
  dc_inject_flip_bits : Z
}.
Definition eta_dc (r : RNetRbDriverConfig) : RNetRbDriverConfig :=
  mkDcfg
    (dc_session_bound r) (dc_local_slot r) (dc_slot_count r) (dc_input_delay r)
    (dc_input_prediction r) (dc_force_turn r) (dc_occupied_mask r) (dc_replay_mode r)
    (dc_part_names r) (dc_snap_depth r) (dc_env_alias r) (dc_inject_flip_bits r).
Definition set_dc_session_bound := ltac:(updater eta_dc dc_session_bound).
Definition set_dc_local_slot := ltac:(updater eta_dc dc_local_slot).
Definition set_dc_slot_count := ltac:(updater eta_dc dc_slot_count).
Definition set_dc_input_delay := ltac:(updater eta_dc dc_input_delay).
Definition set_dc_input_prediction := ltac:(updater eta_dc dc_input_prediction).
Definition set_dc_force_turn := ltac:(updater eta_dc dc_force_turn).
Definition set_dc_occupied_mask := ltac:(updater eta_dc dc_occupied_mask).
Definition set_dc_replay_mode := ltac:(updater eta_dc dc_replay_mode).
Definition set_dc_part_names := ltac:(updater eta_dc dc_part_names).
Definition set_dc_snap_depth := ltac:(updater eta_dc dc_snap_depth).
Definition set_dc_env_alias := ltac:(updater eta_dc dc_env_alias).
Definition set_dc_inject_flip_bits := ltac:(updater eta_dc dc_inject_flip_bits).

(** The open episode and the answers of the peers. [ep_seq] is [epoch_seq]. *)
Record RbEpisode := mkEp {
  ep_stage : RbEpisodeStage;
  ep_corr : RNetRbCorrection;
  ep_initiator : bool;
  ep_seq : Z;
  ep_local_post_digest : Z;
  ep_peer_post_mask : Z;
  ep_peer_post_digest : list Z;
  ep_peer_post_target : list Z;
  ep_peer_commit_mask : Z;
  ep_local_base : RNetRbDigestParts;
  ep_local_base_valid : bool;
  ep_peer_base_mask : Z;
  ep_peer_base : list RNetRbDigestParts;
  ep_cooldown_until_tick : Z;
  ep_stage_entered_ms : Z;
  ep_tip_extends : Z;
  ep_post_sent_ms : Z;
  ep_post_resend_ms : Z;
  ep_begin_resend_ms : Z;
  ep_answered_mask : Z;
  ep_tiphold_enter_sim : Z
}.
Definition eta_ep (r : RbEpisode) : RbEpisode :=
  mkEp
    (ep_stage r) (ep_corr r) (ep_initiator r) (ep_seq r) (ep_local_post_digest r)
    (ep_peer_post_mask r) (ep_peer_post_digest r) (ep_peer_post_target r) (ep_peer_commit_mask r)
    (ep_local_base r) (ep_local_base_valid r) (ep_peer_base_mask r) (ep_peer_base r)
    (ep_cooldown_until_tick r) (ep_stage_entered_ms r) (ep_tip_extends r) (ep_post_sent_ms r)
    (ep_post_resend_ms r) (ep_begin_resend_ms r) (ep_answered_mask r) (ep_tiphold_enter_sim r).
Definition set_ep_stage := ltac:(updater eta_ep ep_stage).
Definition set_ep_corr := ltac:(updater eta_ep ep_corr).
Definition set_ep_initiator := ltac:(updater eta_ep ep_initiator).
Definition set_ep_seq := ltac:(updater eta_ep ep_seq).
Definition set_ep_local_post_digest := ltac:(updater eta_ep ep_local_post_digest).
Definition set_ep_peer_post_mask := ltac:(updater eta_ep ep_peer_post_mask).
Definition set_ep_peer_post_digest := ltac:(updater eta_ep ep_peer_post_digest).
Definition set_ep_peer_post_target := ltac:(updater eta_ep ep_peer_post_target).
Definition set_ep_peer_commit_mask := ltac:(updater eta_ep ep_peer_commit_mask).
Definition set_ep_local_base := ltac:(updater eta_ep ep_local_base).
Definition set_ep_local_base_valid := ltac:(updater eta_ep ep_local_base_valid).
Definition set_ep_peer_base_mask := ltac:(updater eta_ep ep_peer_base_mask).
Definition set_ep_peer_base := ltac:(updater eta_ep ep_peer_base).
Definition set_ep_cooldown_until_tick := ltac:(updater eta_ep ep_cooldown_until_tick).
Definition set_ep_stage_entered_ms := ltac:(updater eta_ep ep_stage_entered_ms).
Definition set_ep_tip_extends := ltac:(updater eta_ep ep_tip_extends).
Definition set_ep_post_sent_ms := ltac:(updater eta_ep ep_post_sent_ms).
Definition set_ep_post_resend_ms := ltac:(updater eta_ep ep_post_resend_ms).
Definition set_ep_begin_resend_ms := ltac:(updater eta_ep ep_begin_resend_ms).
Definition set_ep_answered_mask := ltac:(updater eta_ep ep_answered_mask).
Definition set_ep_tiphold_enter_sim := ltac:(updater eta_ep ep_tiphold_enter_sim).

(** Answers that beat their BEGIN, BEGINs seen and refused, and the BEGIN held until its load tick.
    [ea_seal] is the used part of [early_seal]. *)
Record RbEarly := mkEarly {
  ea_post_mask : Z;
  ea_post_epoch : list Z;
  ea_post_target : list Z;
  ea_post_digest : list Z;
  ea_base_mask : Z;
  ea_base_epoch : list Z;
  ea_base_load : list Z;
  ea_base : list RNetRbDigestParts;
  ea_begin_seen_seq : list Z;
  ea_begin_seen : list Z;
  ea_begin_seen_n : Z;
  ea_nacked : list nacked_begin;
  ea_nacked_n : Z;
  ea_seal : list early_chunk;
  ea_defer_valid : bool;
  ea_defer_epoch : Z;
  ea_defer_mismatch : Z;
  ea_defer_load : Z;
  ea_defer_target : Z;
  ea_defer_slot : Z;
  ea_defer_flags : Z;
  ea_defer_since_ms : Z
}.
Definition eta_ea (r : RbEarly) : RbEarly :=
  mkEarly
    (ea_post_mask r) (ea_post_epoch r) (ea_post_target r) (ea_post_digest r) (ea_base_mask r)
    (ea_base_epoch r) (ea_base_load r) (ea_base r) (ea_begin_seen_seq r) (ea_begin_seen r)
    (ea_begin_seen_n r) (ea_nacked r) (ea_nacked_n r) (ea_seal r) (ea_defer_valid r)
    (ea_defer_epoch r) (ea_defer_mismatch r) (ea_defer_load r) (ea_defer_target r)
    (ea_defer_slot r) (ea_defer_flags r) (ea_defer_since_ms r).
Definition set_ea_post_mask := ltac:(updater eta_ea ea_post_mask).
Definition set_ea_post_epoch := ltac:(updater eta_ea ea_post_epoch).
Definition set_ea_post_target := ltac:(updater eta_ea ea_post_target).
Definition set_ea_post_digest := ltac:(updater eta_ea ea_post_digest).
Definition set_ea_base_mask := ltac:(updater eta_ea ea_base_mask).
Definition set_ea_base_epoch := ltac:(updater eta_ea ea_base_epoch).
Definition set_ea_base_load := ltac:(updater eta_ea ea_base_load).
Definition set_ea_base := ltac:(updater eta_ea ea_base).
Definition set_ea_begin_seen_seq := ltac:(updater eta_ea ea_begin_seen_seq).
Definition set_ea_begin_seen := ltac:(updater eta_ea ea_begin_seen).
Definition set_ea_begin_seen_n := ltac:(updater eta_ea ea_begin_seen_n).
Definition set_ea_nacked := ltac:(updater eta_ea ea_nacked).
Definition set_ea_nacked_n := ltac:(updater eta_ea ea_nacked_n).
Definition set_ea_seal := ltac:(updater eta_ea ea_seal).
Definition set_ea_defer_valid := ltac:(updater eta_ea ea_defer_valid).
Definition set_ea_defer_epoch := ltac:(updater eta_ea ea_defer_epoch).
Definition set_ea_defer_mismatch := ltac:(updater eta_ea ea_defer_mismatch).
Definition set_ea_defer_load := ltac:(updater eta_ea ea_defer_load).
Definition set_ea_defer_target := ltac:(updater eta_ea ea_defer_target).
Definition set_ea_defer_slot := ltac:(updater eta_ea ea_defer_slot).
Definition set_ea_defer_flags := ltac:(updater eta_ea ea_defer_flags).
Definition set_ea_defer_since_ms := ltac:(updater eta_ea ea_defer_since_ms).

(** The replay. *)
Record RbReplay := mkReplay {
  rp_in_resim : bool;
  rp_replay_next : Z;
  rp_pending_admit : RNetRbAdmit;
  rp_replay_dig : list Z;
  rp_replay_dig_mask : Z;
  rp_rewound : bool;
  rp_tip_tick : Z;
  rp_missing_slot : Z;
  rp_missing_tick : Z;
  rp_resim_ticks : Z
}.
Definition eta_rp (r : RbReplay) : RbReplay :=
  mkReplay
    (rp_in_resim r) (rp_replay_next r) (rp_pending_admit r) (rp_replay_dig r)
    (rp_replay_dig_mask r) (rp_rewound r) (rp_tip_tick r) (rp_missing_slot r) (rp_missing_tick r)
    (rp_resim_ticks r).
Definition set_rp_in_resim := ltac:(updater eta_rp rp_in_resim).
Definition set_rp_replay_next := ltac:(updater eta_rp rp_replay_next).
Definition set_rp_pending_admit := ltac:(updater eta_rp rp_pending_admit).
Definition set_rp_replay_dig := ltac:(updater eta_rp rp_replay_dig).
Definition set_rp_replay_dig_mask := ltac:(updater eta_rp rp_replay_dig_mask).
Definition set_rp_rewound := ltac:(updater eta_rp rp_rewound).
Definition set_rp_tip_tick := ltac:(updater eta_rp rp_tip_tick).
Definition set_rp_missing_slot := ltac:(updater eta_rp rp_missing_slot).
Definition set_rp_missing_tick := ltac:(updater eta_rp rp_missing_tick).
Definition set_rp_resim_ticks := ltac:(updater eta_rp rp_resim_ticks).

(** Identity, the mod-set handshake, the boot digests and the verdict. *)
Record RbBoot := mkBoot {
  bt_local_build_fp : Z;
  bt_local_content_fp : Z;
  bt_peer_build_fp : list Z;
  bt_peer_content_fp : list Z;
  bt_peer_ident_mask : Z;
  bt_local_modset : option (list Z);
  bt_modset_settled : bool;
  bt_modset_ack_mask : Z;
  bt_modset_ok : bool;
  bt_modset_sent : bool;
  bt_modset_since_ms : Z;
  bt_ident_sent : bool;
  bt_ident_owed : bool;
  bt_ident_sent_ms : Z;
  bt_boot_dig_local : Z;
  bt_boot_dig_peer : list Z;
  bt_boot_dig_hold_since_ms : Z;
  bt_boot_dig_local_valid : bool;
  bt_boot_dig_peer_mask : Z;
  bt_boot_dig_settled : bool;
  bt_refusal : option string
}.
Definition eta_bt (r : RbBoot) : RbBoot :=
  mkBoot
    (bt_local_build_fp r) (bt_local_content_fp r) (bt_peer_build_fp r) (bt_peer_content_fp r)
    (bt_peer_ident_mask r) (bt_local_modset r) (bt_modset_settled r) (bt_modset_ack_mask r)
    (bt_modset_ok r) (bt_modset_sent r) (bt_modset_since_ms r) (bt_ident_sent r) (bt_ident_owed r)
    (bt_ident_sent_ms r) (bt_boot_dig_local r) (bt_boot_dig_peer r) (bt_boot_dig_hold_since_ms r)
    (bt_boot_dig_local_valid r) (bt_boot_dig_peer_mask r) (bt_boot_dig_settled r) (bt_refusal r).
Definition set_bt_local_build_fp := ltac:(updater eta_bt bt_local_build_fp).
Definition set_bt_local_content_fp := ltac:(updater eta_bt bt_local_content_fp).
Definition set_bt_peer_build_fp := ltac:(updater eta_bt bt_peer_build_fp).
Definition set_bt_peer_content_fp := ltac:(updater eta_bt bt_peer_content_fp).
Definition set_bt_peer_ident_mask := ltac:(updater eta_bt bt_peer_ident_mask).
Definition set_bt_local_modset := ltac:(updater eta_bt bt_local_modset).
Definition set_bt_modset_settled := ltac:(updater eta_bt bt_modset_settled).
Definition set_bt_modset_ack_mask := ltac:(updater eta_bt bt_modset_ack_mask).
Definition set_bt_modset_ok := ltac:(updater eta_bt bt_modset_ok).
Definition set_bt_modset_sent := ltac:(updater eta_bt bt_modset_sent).
Definition set_bt_modset_since_ms := ltac:(updater eta_bt bt_modset_since_ms).
Definition set_bt_ident_sent := ltac:(updater eta_bt bt_ident_sent).
Definition set_bt_ident_owed := ltac:(updater eta_bt bt_ident_owed).
Definition set_bt_ident_sent_ms := ltac:(updater eta_bt bt_ident_sent_ms).
Definition set_bt_boot_dig_local := ltac:(updater eta_bt bt_boot_dig_local).
Definition set_bt_boot_dig_peer := ltac:(updater eta_bt bt_boot_dig_peer).
Definition set_bt_boot_dig_hold_since_ms := ltac:(updater eta_bt bt_boot_dig_hold_since_ms).
Definition set_bt_boot_dig_local_valid := ltac:(updater eta_bt bt_boot_dig_local_valid).
Definition set_bt_boot_dig_peer_mask := ltac:(updater eta_bt bt_boot_dig_peer_mask).
Definition set_bt_boot_dig_settled := ltac:(updater eta_bt bt_boot_dig_settled).
Definition set_bt_refusal := ltac:(updater eta_bt bt_refusal).

(** Forks found, and the bounds they impose. *)
Record RbFork := mkFork {
  fk_fork_tick : Z;
  fk_fork_seen : bool;
  fk_fork_partition : option string;
  fk_fork_mine : Z;
  fk_fork_theirs : Z;
  fk_fork_cap : Z;
  fk_chain_fork_tick : list Z;
  fk_chain_pending_tick : list Z;
  fk_chain_pending_ms : list Z;
  fk_desync_count : Z;
  fk_lockstep_until : Z
}.
Definition eta_fk (r : RbFork) : RbFork :=
  mkFork
    (fk_fork_tick r) (fk_fork_seen r) (fk_fork_partition r) (fk_fork_mine r) (fk_fork_theirs r)
    (fk_fork_cap r) (fk_chain_fork_tick r) (fk_chain_pending_tick r) (fk_chain_pending_ms r)
    (fk_desync_count r) (fk_lockstep_until r).
Definition set_fk_fork_tick := ltac:(updater eta_fk fk_fork_tick).
Definition set_fk_fork_seen := ltac:(updater eta_fk fk_fork_seen).
Definition set_fk_fork_partition := ltac:(updater eta_fk fk_fork_partition).
Definition set_fk_fork_mine := ltac:(updater eta_fk fk_fork_mine).
Definition set_fk_fork_theirs := ltac:(updater eta_fk fk_fork_theirs).
Definition set_fk_fork_cap := ltac:(updater eta_fk fk_fork_cap).
Definition set_fk_chain_fork_tick := ltac:(updater eta_fk fk_chain_fork_tick).
Definition set_fk_chain_pending_tick := ltac:(updater eta_fk fk_chain_pending_tick).
Definition set_fk_chain_pending_ms := ltac:(updater eta_fk fk_chain_pending_ms).
Definition set_fk_desync_count := ltac:(updater eta_fk fk_desync_count).
Definition set_fk_lockstep_until := ltac:(updater eta_fk fk_lockstep_until).

(** Settings read at start, and the injectors' counters. *)
Record RbKnobs := mkKnobs {
  kn_snap_interval : Z;
  kn_prediction_cap : Z;
  kn_seal_timeout_ms : Z;
  kn_lockstep_ticks : Z;
  kn_lockstep_pinned : bool;
  kn_force_fork_every : Z;
  kn_force_fork_n : Z;
  kn_force_mispredict_every : Z;
  kn_force_mispredict_n : Z;
  kn_force_boot_fork : Z;
  kn_force_mod_mismatch : Z;
  kn_force_modset : list Z;
  kn_allow_boot_fork : bool;
  kn_allow_mod_mismatch : bool;
  kn_force_mispredict_row : list Z;
  kn_force_invent_slot : Z
}.
Definition eta_kn (r : RbKnobs) : RbKnobs :=
  mkKnobs
    (kn_snap_interval r) (kn_prediction_cap r) (kn_seal_timeout_ms r) (kn_lockstep_ticks r)
    (kn_lockstep_pinned r) (kn_force_fork_every r) (kn_force_fork_n r)
    (kn_force_mispredict_every r) (kn_force_mispredict_n r) (kn_force_boot_fork r)
    (kn_force_mod_mismatch r) (kn_force_modset r) (kn_allow_boot_fork r) (kn_allow_mod_mismatch r)
    (kn_force_mispredict_row r) (kn_force_invent_slot r).
Definition set_kn_snap_interval := ltac:(updater eta_kn kn_snap_interval).
Definition set_kn_prediction_cap := ltac:(updater eta_kn kn_prediction_cap).
Definition set_kn_seal_timeout_ms := ltac:(updater eta_kn kn_seal_timeout_ms).
Definition set_kn_lockstep_ticks := ltac:(updater eta_kn kn_lockstep_ticks).
Definition set_kn_lockstep_pinned := ltac:(updater eta_kn kn_lockstep_pinned).
Definition set_kn_force_fork_every := ltac:(updater eta_kn kn_force_fork_every).
Definition set_kn_force_fork_n := ltac:(updater eta_kn kn_force_fork_n).
Definition set_kn_force_mispredict_every := ltac:(updater eta_kn kn_force_mispredict_every).
Definition set_kn_force_mispredict_n := ltac:(updater eta_kn kn_force_mispredict_n).
Definition set_kn_force_boot_fork := ltac:(updater eta_kn kn_force_boot_fork).
Definition set_kn_force_mod_mismatch := ltac:(updater eta_kn kn_force_mod_mismatch).
Definition set_kn_force_modset := ltac:(updater eta_kn kn_force_modset).
Definition set_kn_allow_boot_fork := ltac:(updater eta_kn kn_allow_boot_fork).
Definition set_kn_allow_mod_mismatch := ltac:(updater eta_kn kn_allow_mod_mismatch).
Definition set_kn_force_mispredict_row := ltac:(updater eta_kn kn_force_mispredict_row).
Definition set_kn_force_invent_slot := ltac:(updater eta_kn kn_force_invent_slot).

(** The coordinated stop. *)
Record RbDrain := mkDrain {
  qu_quiesce : RNetRbQuiesce;
  qu_req_ms : Z;
  qu_req_sim : Z;
  qu_sent_ms : Z;
  qu_all_ms : Z;
  qu_peer_mask : Z;
  qu_peer_ack_mask : Z;
  qu_drain_unopened : Z
}.
Definition eta_qu (r : RbDrain) : RbDrain :=
  mkDrain
    (qu_quiesce r) (qu_req_ms r) (qu_req_sim r) (qu_sent_ms r) (qu_all_ms r) (qu_peer_mask r)
    (qu_peer_ack_mask r) (qu_drain_unopened r).
Definition set_qu_quiesce := ltac:(updater eta_qu qu_quiesce).
Definition set_qu_req_ms := ltac:(updater eta_qu qu_req_ms).
Definition set_qu_req_sim := ltac:(updater eta_qu qu_req_sim).
Definition set_qu_sent_ms := ltac:(updater eta_qu qu_sent_ms).
Definition set_qu_all_ms := ltac:(updater eta_qu qu_all_ms).
Definition set_qu_peer_mask := ltac:(updater eta_qu qu_peer_mask).
Definition set_qu_peer_ack_mask := ltac:(updater eta_qu qu_peer_ack_mask).
Definition set_qu_drain_unopened := ltac:(updater eta_qu qu_drain_unopened).

(** Counters and the link estimate. *)
Record RbCounters := mkCounters {
  cc_drop_stage_n : list Z;
  cc_episode_count : Z;
  cc_n_post_resent : Z;
  cc_n_begin_resent : Z;
  cc_ep_initiated : Z;
  cc_ep_followed : Z;
  cc_n_follow_deferred : Z;
  cc_n_follow_at_tip : Z;
  cc_n_observer_skipped : Z;
  cc_frame_commit_request_ms : Z;
  cc_rtt_ema_ms : Z
}.
Definition eta_cc (r : RbCounters) : RbCounters :=
  mkCounters
    (cc_drop_stage_n r) (cc_episode_count r) (cc_n_post_resent r) (cc_n_begin_resent r)
    (cc_ep_initiated r) (cc_ep_followed r) (cc_n_follow_deferred r) (cc_n_follow_at_tip r)
    (cc_n_observer_skipped r) (cc_frame_commit_request_ms r) (cc_rtt_ema_ms r).
Definition set_cc_drop_stage_n := ltac:(updater eta_cc cc_drop_stage_n).
Definition set_cc_episode_count := ltac:(updater eta_cc cc_episode_count).
Definition set_cc_n_post_resent := ltac:(updater eta_cc cc_n_post_resent).
Definition set_cc_n_begin_resent := ltac:(updater eta_cc cc_n_begin_resent).
Definition set_cc_ep_initiated := ltac:(updater eta_cc cc_ep_initiated).
Definition set_cc_ep_followed := ltac:(updater eta_cc cc_ep_followed).
Definition set_cc_n_follow_deferred := ltac:(updater eta_cc cc_n_follow_deferred).
Definition set_cc_n_follow_at_tip := ltac:(updater eta_cc cc_n_follow_at_tip).
Definition set_cc_n_observer_skipped := ltac:(updater eta_cc cc_n_observer_skipped).
Definition set_cc_frame_commit_request_ms := ltac:(updater eta_cc cc_frame_commit_request_ms).
Definition set_cc_rtt_ema_ms := ltac:(updater eta_cc cc_rtt_ema_ms).

(** The driver. [d_session] is the session behind the configuration's pointer; [d_hc] has one chain
    per seat; [d_lost] are the (tick, seat) pairs reported as lost, and
    [d_replayed] the spans whose replay ran to its end: two histories kept for the properties. *)
Record RNetRbDriver := mkDriver {
  d_cfg : RNetRbDriverConfig;
  d_session : option RNetSession;
  d_rb : option RNetRbSession;
  d_ih : RNetInputHist;
  d_hc : list RNetHashConfirm;
  d_started : bool;
  d_sim : Z;
  d_rows : list RNetRbFrame;
  d_ep : RbEpisode;
  d_early : RbEarly;
  d_replay : RbReplay;
  d_boot : RbBoot;
  d_fork : RbFork;
  d_knobs : RbKnobs;
  d_drain : RbDrain;
  d_count : RbCounters;
  d_tip_prepared_for : Z;
  d_tip_prepared_valid : bool;
  d_stall_tag : option string;
  d_owed_tick : list Z;
  d_owed_slot : list Z;
  d_owed_retry_after : Z;
  d_hold_active : bool;
  d_hold_at : Z;
  d_lost : list (Z * Z);
  d_replayed : list (Z * Z)
}.
Definition eta_d (r : RNetRbDriver) : RNetRbDriver :=
  mkDriver
    (d_cfg r) (d_session r) (d_rb r) (d_ih r) (d_hc r) (d_started r) (d_sim r) (d_rows r) (d_ep r)
    (d_early r) (d_replay r) (d_boot r) (d_fork r) (d_knobs r) (d_drain r) (d_count r)
    (d_tip_prepared_for r) (d_tip_prepared_valid r) (d_stall_tag r) (d_owed_tick r)
    (d_owed_slot r) (d_owed_retry_after r) (d_hold_active r) (d_hold_at r) (d_lost r)
    (d_replayed r).
Definition set_d_cfg := ltac:(updater eta_d d_cfg).
Definition set_d_session := ltac:(updater eta_d d_session).
Definition set_d_rb := ltac:(updater eta_d d_rb).
Definition set_d_ih := ltac:(updater eta_d d_ih).
Definition set_d_hc := ltac:(updater eta_d d_hc).
Definition set_d_started := ltac:(updater eta_d d_started).
Definition set_d_sim := ltac:(updater eta_d d_sim).
Definition set_d_rows := ltac:(updater eta_d d_rows).
Definition set_d_ep := ltac:(updater eta_d d_ep).
Definition set_d_early := ltac:(updater eta_d d_early).
Definition set_d_replay := ltac:(updater eta_d d_replay).
Definition set_d_boot := ltac:(updater eta_d d_boot).
Definition set_d_fork := ltac:(updater eta_d d_fork).
Definition set_d_knobs := ltac:(updater eta_d d_knobs).
Definition set_d_drain := ltac:(updater eta_d d_drain).
Definition set_d_count := ltac:(updater eta_d d_count).
Definition set_d_tip_prepared_for := ltac:(updater eta_d d_tip_prepared_for).
Definition set_d_tip_prepared_valid := ltac:(updater eta_d d_tip_prepared_valid).
Definition set_d_stall_tag := ltac:(updater eta_d d_stall_tag).
Definition set_d_owed_tick := ltac:(updater eta_d d_owed_tick).
Definition set_d_owed_slot := ltac:(updater eta_d d_owed_slot).
Definition set_d_owed_retry_after := ltac:(updater eta_d d_owed_retry_after).
Definition set_d_hold_active := ltac:(updater eta_d d_hold_active).
Definition set_d_hold_at := ltac:(updater eta_d d_hold_at).
Definition set_d_lost := ltac:(updater eta_d d_lost).
Definition set_d_replayed := ltac:(updater eta_d d_replayed).

Definition on_ep (f : RbEpisode -> RbEpisode) (d : RNetRbDriver) := set_d_ep (f (d_ep d)) d.
Definition on_early (f : RbEarly -> RbEarly) (d : RNetRbDriver) := set_d_early (f (d_early d)) d.
Definition on_replay (f : RbReplay -> RbReplay) (d : RNetRbDriver) := set_d_replay (f (d_replay d)) d.
Definition on_boot (f : RbBoot -> RbBoot) (d : RNetRbDriver) := set_d_boot (f (d_boot d)) d.
Definition on_fork (f : RbFork -> RbFork) (d : RNetRbDriver) := set_d_fork (f (d_fork d)) d.
Definition on_knobs (f : RbKnobs -> RbKnobs) (d : RNetRbDriver) := set_d_knobs (f (d_knobs d)) d.
Definition on_drain (f : RbDrain -> RbDrain) (d : RNetRbDriver) := set_d_drain (f (d_drain d)) d.
Definition on_count (f : RbCounters -> RbCounters) (d : RNetRbDriver) := set_d_count (f (d_count d)) d.

Definition stage (d : RNetRbDriver) : RbEpisodeStage := ep_stage (d_ep d).
Definition corr (d : RNetRbDriver) : RNetRbCorrection := ep_corr (d_ep d).
Definition idle (d : RNetRbDriver) : bool := bool_decide (stage d = kRbIdle).
Definition quiesce (d : RNetRbDriver) : RNetRbQuiesce := qu_quiesce (d_drain d).
Definition draining (d : RNetRbDriver) : bool := negb (bool_decide (quiesce d = RNET_RB_QUIESCE_NONE)).
Definition refusal (d : RNetRbDriver) : option string := bt_refusal (d_boot d).

(** The struct of zeros that [start] leaves, but for the fields it names. *)
Definition zero_dcfg : RNetRbDriverConfig :=
  mkDcfg false None None None None 0 0 REPLAY_INLINE [None; None; None] 0 None 0.
Definition eights : list Z := replicate 8 0.
Definition zero_driver : RNetRbDriver :=
  mkDriver zero_dcfg None None (mkHist (replicate 8 (replicate 128 zero_frame)) 0 0 0 0 (replicate 8 zero_frame))
    (replicate 8 zero_hc) false 0 (replicate 8 zero_frame)
    (mkEp kRbIdle zero_corr false 0 0 0 eights eights 0 zero_parts false 0 (replicate 8 zero_parts) 0 0 0 0 0 0 0 0)
    (mkEarly 0 eights eights eights 0 eights eights (replicate 8 zero_parts) eights (replicate 32 0) 0
       (replicate 16 zero_nacked) 0 [] false 0 0 0 0 0 0 0)
    (mkReplay false 0 RNET_RB_ADMIT_STALL (replicate 64 0) 0 false 0 (-1) 0 0)
    (mkBoot 0 0 eights eights 0 None false 0 false false 0 false false 0 0 eights 0 false 0 false None)
    (mkFork 0 false None 0 0 0 eights eights eights 0 0)
    (mkKnobs 0 0 0 0 false 0 0 0 0 0 0 [] false false eights (-1))
    (mkDrain RNET_RB_QUIESCE_NONE 0 0 0 0 0 0 0)
    (mkCounters (replicate 5 0) 0 0 0 0 0 0 0 0 0 0)
    0 false None (replicate 128 0) (replicate 128 (-1)) 0 false 0 [] [].

(** ** The host

    The callbacks of [RNetRbHost]. [H] is the host: its machine, its snapshot
    store, its clock and what it was told. A callback that only answers a
    question is a function of [H]. An optional callback the host left out is
    the identity. The decoding of a pad is a function of the sample. *)
Class RbHost (H : Type) := {
  host_snap_save : Z -> H -> bool * H;
  host_snap_load : Z -> H -> bool * H;
  host_snap_has : H -> Z -> bool;
  host_snap_oldest : H -> option Z;
  host_snap_drop_after : Z -> H -> H;
  host_publish : Z -> list RNetRbFrame -> Z -> bool -> H -> H;
  host_run_tick : Z -> H -> bool * H;
  host_resim_begin : H -> H;
  host_resim_end : H -> H;
  host_digest_master : H -> Z;
  host_digest_parts : H -> RNetRbDigestParts;
  host_decode_sample : Z -> RNetInputSample -> RNetRbFrame -> RNetRbFrame;
  host_sanitize_row : Z -> RNetRbFrame -> RNetRbFrame;
  host_neutral_row : Z -> RNetRbFrame -> RNetRbFrame;
  host_admit_sample : Z -> Z -> RNetInputSample -> H -> H;
  host_boot_digest_noted : H -> H;
  host_request_return_to_lobby : H -> H;
  host_now_ms : H -> Z * H
}.

(** ** The scheduler's interface (include/recomp_net/sched.h)

    The scheduler decides when a live tick may run and when a missing remote
    row may be invented. It sees the driver through the bridge it was bound
    to: the session, the delay and the gates. [D] is the driver's side. A flag
    that is not bound reads as false. The hold gate answers with its tag, the
    empty string when it set none. *)
Record RNetSchedBridge (D : Type) := mkBridge {
  br_session : D -> option RNetSession;
  br_put_session : RNetSession -> D -> D;
  br_input_delay : D -> option Z;
  br_put_input_delay : Z -> D -> D;
  br_input_prediction : D -> Z;
  br_local_slot : D -> option Z;
  br_force_turn : D -> Z;
  br_rollback : D -> bool;
  gt_now_ms : M D Z;
  gt_rtt_ms : D -> Z;
  gt_episode_active : D -> bool;
  gt_tip_holding : D -> bool;
  gt_lockstep_no_invent : D -> bool;
  gt_lockstep_stall_tag : option (D -> string);
  gt_media_active : D -> bool;
  gt_desync_hold : D -> bool;
  gt_pre_admit_hold : Z -> Z -> M D (option string);
  gt_episode_count : D -> Z;
  gt_replay_ticks_total : D -> Z
}.
Arguments mkBridge {D}.
Arguments br_session {D}. Arguments br_put_session {D}. Arguments br_input_delay {D}.
Arguments br_put_input_delay {D}. Arguments br_input_prediction {D}. Arguments br_local_slot {D}.
Arguments br_force_turn {D}. Arguments br_rollback {D}. Arguments gt_media_active {D}.
Arguments gt_desync_hold {D}. Arguments gt_now_ms {D}. Arguments gt_rtt_ms {D}.
Arguments gt_episode_active {D}. Arguments gt_tip_holding {D}. Arguments gt_lockstep_no_invent {D}.
Arguments gt_lockstep_stall_tag {D}. Arguments gt_pre_admit_hold {D}. Arguments gt_episode_count {D}.
Arguments gt_replay_ticks_total {D}.

(** [Sc] is the scheduler's own state. The answer of [sched_pre_admit] is
    "stall"; that of [sched_on_remote_miss] is "stall" with its reason. *)
Class SchedOps (Sc : Type) := {
  sched_reset_session : Sc -> Sc;
  sched_real_delay_enabled : Sc -> bool;
  sched_admit_stall_tag : Sc -> option string;
  sched_clear_admit_stall : Sc -> Sc;
  sched_sync_delay_from_session : forall D, RNetSchedBridge D -> M (Sc * D) unit;
  sched_pre_admit : forall D, RNetSchedBridge D -> Z -> Z -> RNetSessionStats -> M (Sc * D) bool;
  sched_on_remote_miss : forall D, RNetSchedBridge D -> Z -> Z -> Z -> RNetSessionStats -> Z ->
    M (Sc * D) (bool * option string);
  sched_note_remote_hit : forall D, RNetSchedBridge D -> M (Sc * D) unit;
  sched_post_admit : forall D, RNetSchedBridge D -> bool -> M (Sc * D) unit;
  sched_note_mispredict : forall D, RNetSchedBridge D -> Z -> M (Sc * D) unit;
  sched_note_episode_boundary : forall D, RNetSchedBridge D -> M (Sc * D) unit
}.
Arguments sched_sync_delay_from_session {Sc _ D}. Arguments sched_pre_admit {Sc _ D}.
Arguments sched_on_remote_miss {Sc _ D}. Arguments sched_note_remote_hit {Sc _ D}.
Arguments sched_post_admit {Sc _ D}. Arguments sched_note_mispredict {Sc _ D}.
Arguments sched_note_episode_boundary {Sc _ D}.

(** sim-to-wire mapping of src/sched/rnet_sched.c. *)
Definition rnet_sched_wire_for_sim (real_delay : bool) (delay : option Z) (sim_tick : Z) : Z :=
  if real_delay then sim_tick else
  let d := default 0 delay in
  let d := if d <? 0 then 0 else d in
  let d := if 255 <? d then 255 else d in
  rnet_wire_tick_from_sim sim_tick d.
