(* ===== verification/Driver.v ===== *)
(** * The rollback driver: episodes (src/rollback/rnet_rb_driver.c, lines 454 to 2899)

    Seats, hash chains, rows, owed corrections, snapshots, the replay, and the
    opening, following, extending, verifying and ending of episodes. Every
    function is a computation on [RbState]: the driver, the host and the
    scheduler. *)

From stdpp Require Import base list numbers list_numbers strings.
From S2P Require Import Prelude StateM Protocol Config Rings Contract Rollback InputHist HashConfirm CtrlQueue Session SessionState SessionMain SessionStats DriverData.

(** ** Seats *)

Definition rb_slot_count (d : RNetRbDriver) : Z :=
  let n := default 2 (dc_slot_count (d_cfg d)) in
  let n := if n <? 1 then 1 else n in
  if RNET_RB_MAX_SLOTS <? n then RNET_RB_MAX_SLOTS else n.

Definition rb_local_slot (d : RNetRbDriver) : Z :=
  let s := default 0 (dc_local_slot (d_cfg d)) in
  if (0 <=? s) && (s <=? RNET_RB_MAX_SLOTS) then s else 0.

Definition rb_session (d : RNetRbDriver) : option RNetSession :=
  if dc_session_bound (d_cfg d) then d_session d else None.

Definition rb_input_delay (d : RNetRbDriver) : Z :=
  let dl := default 2 (dc_input_delay (d_cfg d)) in if dl <? 0 then 0 else dl.

Definition rb_expect_mask (d : RNetRbDriver) : Z :=
  let n := rb_slot_count d in let local := rb_local_slot d in
  let seats := if 32 <=? n then UINT32_MAX else bit n - 1 in
  let mask := if nz (dc_occupied_mask (d_cfg d)) then Z.land (dc_occupied_mask (d_cfg d)) seats else seats in
  if local <? n then Z.ldiff mask (bit local) else mask.

Definition rb_from_bit (d : RNetRbDriver) (from : Z) : Z :=
  let expect := rb_expect_mask d in
  if nz expect && (Z.land expect (expect - 1) =? 0) then expect else
  if (0 <=? from) && (from <? RNET_RB_MAX_SLOTS) && has_bit expect from then bit from else 0.

Definition rb_bit_slot (b : Z) : Z := default (-1) (find (has_bit b) (seqZ 0 RNET_RB_MAX_SLOTS)).
Definition rb_popcount (m : Z) : Z := zlen (List.filter (has_bit m) (seqZ 0 32)).
Definition rb_is_observer (d : RNetRbDriver) : bool := rb_slot_count d <=? rb_local_slot d.

(** The loops [while (m) { bit = m & (~m + 1); ... }] visit the seats of a
    mask in ascending order. *)
Definition seats_of (m : Z) : list Z := List.filter (has_bit m) (seqZ 0 RNET_RB_MAX_SLOTS).

(** ** Hash chains: one per peer *)

Definition hc_at (d : RNetRbDriver) (i : Z) : RNetHashConfirm := rd zero_hc (d_hc d) i.
Definition on_hc (i : Z) (f : RNetHashConfirm -> RNetHashConfirm) (d : RNetRbDriver) : RNetRbDriver :=
  set_d_hc (wr (d_hc d) i (f (hc_at d i))) d.

Definition rb_hc_note_local (tick dig : Z) (d : RNetRbDriver) : RNetRbDriver :=
  let m := rb_expect_mask d in
  for_upto RNET_RB_MAX_SLOTS (fun i d =>
    if has_bit m i then on_hc i (fun h => rnet_hc_note_local h tick dig) d else d) d.

(** [(best, any)] over the expected peers. *)
Definition rb_hc_resolved (d : RNetRbDriver) : Z :=
  let m := rb_expect_mask d in
  fst (for_upto RNET_RB_MAX_SLOTS (fun i '(best, any) =>
    if negb (has_bit m i) then (best, any) else
    let r := rnet_hc_resolved_through (hc_at d i) in
    (if negb any || (r <? best) then r else best, true)) (0, false)).

Definition rb_hc_confirm_through (d : RNetRbDriver) (tick : Z) : bool :=
  let m := rb_expect_mask d in
  if m =? 0 then false else
  all_upto RNET_RB_MAX_SLOTS (fun i => negb (has_bit m i && negb (rnet_hc_confirm_through (hc_at d i) tick))).

Definition rb_hc_prime_after (last_ok : Z) (d : RNetRbDriver) : RNetRbDriver :=
  for_upto RNET_RB_MAX_SLOTS (fun i => on_hc i (fun h => rnet_hc_prime_after h last_ok)) d.

Definition rb_hc_heal (d : RNetRbDriver) : RNetRbDriver :=
  let m := rb_expect_mask d in
  for_upto RNET_RB_MAX_SLOTS (fun i d =>
    if has_bit m i then on_hc i (fun h => fst (rnet_hc_heal_stale_gap h)) d else d) d.

(** ** Owed corrections *)

Definition owed_at (d : RNetRbDriver) (t : Z) : bool :=
  let i := t mod RNET_INPUT_HIST_DEPTH in
  (0 <=? rd (-1) (d_owed_slot d) i) && (rd 0 (d_owed_tick d) i =? t).

Definition rb_owed_reset (d : RNetRbDriver) : RNetRbDriver :=
  set_d_owed_retry_after 0 (set_d_owed_slot (replicate 128 (-1)) (set_d_owed_tick (replicate 128 0) d)).

Definition rb_owed_mark (tick slot : Z) (d : RNetRbDriver) : RNetRbDriver :=
  let i := tick mod RNET_INPUT_HIST_DEPTH in
  set_d_owed_slot (wr (d_owed_slot d) i (s8 slot)) (set_d_owed_tick (wr (d_owed_tick d) i tick) d).

Definition rb_owed_clear (t : Z) (d : RNetRbDriver) : RNetRbDriver :=
  if owed_at d t then set_d_owed_slot (wr (d_owed_slot d) (t mod RNET_INPUT_HIST_DEPTH) (-1)) d else d.

Definition rb_owed_clear_span (load target : Z) (d : RNetRbDriver) : RNetRbDriver :=
  if (target <? load) || (RNET_INPUT_HIST_DEPTH <=? target - load) then d
  else for_range load (target + 1) rb_owed_clear d.

Definition hist_from (d : RNetRbDriver) : Z :=
  if RNET_INPUT_HIST_DEPTH <? d_sim d then d_sim d - RNET_INPUT_HIST_DEPTH else 0.

Definition rb_owed_first (d : RNetRbDriver) : option (Z * Z) :=
  (fun t => (t, rd (-1) (d_owed_slot d) (t mod RNET_INPUT_HIST_DEPTH))) <$>
  find (owed_at d) (seqZ (hist_from d) (d_sim d - hist_from d)).

Definition rb_owed_outstanding (d : RNetRbDriver) : Z :=
  zlen (List.filter (owed_at d) (seqZ (hist_from d) (d_sim d - hist_from d))).

Definition rb_rows_equal (a b : RNetRbFrame) : bool :=
  (rf_buttons a =? rf_buttons b) && (rf_stick_x a =? rf_stick_x b) && (rf_stick_y a =? rf_stick_y b).

Definition rb_cooldown_active (d : RNetRbDriver) : bool :=
  nz (ep_cooldown_until_tick (d_ep d)) && (d_sim d <? ep_cooldown_until_tick (d_ep d)).

Definition rb_claimed_content_fp (d : RNetRbDriver) : Z :=
  if 0 <? kn_force_mod_mismatch (d_knobs d) then Z.lxor (bt_local_content_fp (d_boot d)) 1515870810
  else bt_local_content_fp (d_boot d).

Definition rb_gate_episode_active (d : RNetRbDriver) : bool :=
  match stage d with kRbSealing | kRbReplaying | kRbVerifying => true | _ => false end.
Definition rb_gate_tip_holding (d : RNetRbDriver) : bool := bool_decide (stage d = kRbTipHold).
Definition rb_gate_lockstep_no_invent (d : RNetRbDriver) : bool :=
  kn_lockstep_pinned (d_knobs d) || d_hold_active d ||
  (nz (fk_lockstep_until (d_fork d)) && (d_sim d <? fk_lockstep_until (d_fork d))).
Definition rb_gate_lockstep_tag (d : RNetRbDriver) : string :=
  if d_hold_active d then "session_hold"
  else if kn_lockstep_pinned (d_knobs d) then "lockstep_pinned" else "desync_cooldown".

Definition rb_epoch_is_early (d : RNetRbDriver) (epoch : Z) : bool :=
  let init := rnet_rb_epoch_initiator epoch in
  if (init =? rb_local_slot d) || (RNET_RB_MAX_SLOTS <=? init) then false else
  if negb (idle d) && (epoch =? co_epoch_id (corr d)) then false else
  if ea_defer_valid (d_early d) && (epoch =? ea_defer_epoch (d_early d)) then true else
  rd 0 (ea_begin_seen_seq (d_early d)) init <? epoch_seq epoch.

(** [stick_gates] of the vtable is zeroed: no gate is asked. *)
Definition no_gates : RNetInputContractHostGates := mkGates None None None None None None.

(** ** The state of a computation *)

Record RbState (H Sc : Type) := mkRbState { r_drv : RNetRbDriver; r_host : H; r_sched : Sc }.
Arguments mkRbState {H Sc}.
Arguments r_drv {H Sc}.
Arguments r_host {H Sc}.
Arguments r_sched {H Sc}.

Section Ops.
Context {H Sc : Type} `{RbHost H} `{SchedOps Sc}.
Notation St := (RbState H Sc).
Notation P := (M St).

(** Reading and updating the three parts of the state. *)
Definition drv {A} (f : RNetRbDriver -> A) : P A := gets (fun st => f (r_drv st)).
Definition upd (f : RNetRbDriver -> RNetRbDriver) : P unit :=
  modify (fun st => mkRbState (f (r_drv st)) (r_host st) (r_sched st)).
Definition hostq {A} (f : H -> A) : P A := gets (fun st => f (r_host st)).
Definition hostm {A} (f : H -> A * H) : P A := fun st =>
  let '(a, h) := f (r_host st) in (a, mkRbState (r_drv st) h (r_sched st)).
Definition hostu (f : H -> H) : P unit := modify (fun st => mkRbState (r_drv st) (f (r_host st)) (r_sched st)).

(** A call on the session; [dflt] when there is none. *)
Definition sess {A} (dflt : A) (f : RNetSession -> A * RNetSession) : P A := fun st =>
  match rb_session (r_drv st) with
  | None => (dflt, st)
  | Some s => let '(a, s') := f s in
              (a, mkRbState (set_d_session (Some s') (r_drv st)) (r_host st) (r_sched st))
  end.
Definition sessq {A} (dflt : A) (f : RNetSession -> A) : P A := sess dflt (fun s => (f s, s)).
Definition sessu (f : RNetSession -> RNetSession) : P unit := sess tt (fun s => (tt, f s)).

(** A call on the episode core. *)
Definition coreq {A} (dflt : A) (f : RNetRbSession -> A) : P A :=
  drv (fun d => match d_rb d with Some rb => f rb | None => dflt end).
Definition coreu (f : RNetRbSession -> RNetRbSession) : P unit :=
  upd (fun d => match d_rb d with Some rb => set_d_rb (Some (f rb)) d | None => d end).

Definition rb_now : P Z := hostm host_now_ms.

Definition send_sync (epoch mismatch load target slot op flags : Z) : P bool :=
  sess false (rnet_session_send_rb_sync epoch mismatch load target slot op flags).
(** [(rnet_u8)(slot < 0 ? 0 : slot)] *)
Definition slot_u8 (slot : Z) : Z := if slot <? 0 then 0 else u8 slot.
Definition last_from : P Z := sessq (-1) (fun s => ct_rb_last_from (s_ctl s)).
Definition has_session : P bool := drv (fun d => bool_decide (is_Some (rb_session d))).
Definition resolved_through : P Z := coreq 0 rs_resolved_through.

(** ** Missing frame commits *)

Definition rb_request_missing_frame_commits : P unit :=
  do ok <- has_session;
  do st <- drv stage;
  if negb ok || negb (bool_decide (st = kRbIdle) || bool_decide (st = kRbTipHold)) then ret tt else
  do mask <- drv rb_expect_mask;
  if mask =? 0 then ret tt else
  do now <- rb_now;
  do last <- drv (fun d => cc_frame_commit_request_ms (d_count d));
  if u32 (now - last) <? 50 then ret tt else
  do! each (seats_of mask) (fun i =>
    do h <- drv (fun d => hc_at d i);
    do sim <- drv d_sim;
    let next := if nz (hc_resolved_valid h) then u32 (hc_resolved_through h + 1) else 0 in
    if (sim <=? next) || bool_decide (rnet_hc_local_digest h next = None) ||
       bool_decide (is_Some (rnet_hc_peer_digest h next)) then ret tt else
    do! send_sync 0 next 0 0 i RNET_RB_SYNC_OP_FRAME_COMMIT_REQUEST 0;
    upd (on_count (set_cc_frame_commit_request_ms now)));
  ret tt.

(** ** Rows *)

Definition rb_wire (tick : Z) : P Z := gets (fun st =>
  rnet_sched_wire_for_sim (sched_real_delay_enabled (r_sched st)) (dc_input_delay (d_cfg (r_drv st))) tick).

Definition mark_real (tick : Z) (f : RNetRbFrame) : RNetRbFrame :=
  set_rf_is_predicted 0 (set_rf_is_valid 1 (set_rf_tick tick f)).
Definition rb_row_from_sample (slot tick : Z) (x : RNetInputSample) : RNetRbFrame :=
  mark_real tick (host_decode_sample slot x (mark_real tick zero_frame)).
Definition rb_row_neutral (slot tick : Z) : RNetRbFrame := mark_real tick (host_neutral_row slot zero_frame).

Definition ih_put (slot : Z) (row : RNetRbFrame) : P unit :=
  upd (fun d => match rnet_ih_put (d_ih d) slot row with Some h => set_d_ih h d | None => d end).

(** The core's [get_input_row]. *)
Definition rb_vt_get_input_row (slot tick : Z) : P (option RNetRbFrame) :=
  do d <- drv id;
  do wire <- rb_wire tick;
  let occ := dc_occupied_mask (d_cfg d) in
  if (slot <? 0) || (rb_slot_count d <=? slot) then ret None else
  if negb (slot =? rb_local_slot d) && nz occ && negb (has_bit occ slot)
  then ret (Some (host_sanitize_row slot (rb_row_from_sample slot tick (neutral_sample wire)))) else
  match rnet_ih_get (d_ih d) slot tick with
  | Some row => ret (Some (host_sanitize_row slot row))
  | None =>
      if negb (slot =? rb_local_slot d) then ret None else
      match rb_session d ≫= (fun s => rnet_session_peek_input s slot wire) with
      | Some x =>
          if is_valid x =? 0 then ret None else
          let out := rb_row_from_sample slot tick x in
          do! ih_put slot out;
          ret (Some (host_sanitize_row slot out))
      | None => ret None
      end
  end.

(** A call of the core that asks the host for rows: it gets the answers of
    [rb_vt_get_input_row], whose effect - completing the history with our own
    published rows - then happens for every row asked: those of the offsets
    from [from] to the new span, for every seat. The rows completed lie in the
    span and never replace one of it, so no answer depends on an earlier one. *)
Definition core_ask (from : RNetRbSession -> Z)
    (f : (Z -> Z -> option RNetRbFrame) -> RNetRbSession -> option RNetRbSession) : P bool := fun st =>
  match d_rb (r_drv st) with
  | None => (false, st)
  | Some rb =>
      match f (fun slot tick => fst (rb_vt_get_input_row slot tick st)) rb with
      | None => (false, st)
      | Some rb' =>
          (do! upd (set_d_rb (Some rb'));
           do! each (seqZ (from rb) (rs_sealed_span rb' - from rb)) (fun offset =>
             each (seqZ 0 (rc_slot_count (rs_cfg rb'))) (fun slot =>
               do _ <- rb_vt_get_input_row slot (u32 (rs_seal_base_tick rb' + offset)); ret tt));
           ret true) st
      end
  end.

Definition rb_local_rows_cover (load target : Z) : P bool :=
  do obs <- drv rb_is_observer;
  do local <- drv rb_local_slot;
  if obs || (target <? load) then ret true else
  do gap <- first_of (seqZ load (target - load + 1)) (fun t =>
    do row <- rb_vt_get_input_row local t;
    ret (match row with None => Some t | Some _ => None end));
  ret (bool_decide (gap = None)).

(** ** Snapshots *)

Definition rb_snap_take (tick : Z) : P unit :=
  do k <- drv (fun d => kn_snap_interval (d_knobs d));
  if (1 <? k) && nz (tick mod k) then ret tt
  else do _ <- hostm (host_snap_save tick); ret tt.

Definition rb_snap_has (tick : Z) : P bool := hostq (fun h => host_snap_has h tick).

(** The deepest snapshot at or below [want], below the fork cap. *)
Definition rb_snap_floor (want : Z) : P (option Z) :=
  do o <- hostq host_snap_oldest;
  match o with
  | None => ret None
  | Some oldest =>
      do cap <- drv (fun d => fk_fork_cap (d_fork d));
      do! when ((0 <? cap) && (cap <=? oldest)) (upd (on_fork (set_fk_fork_cap 0)));
      let want := if (0 <? cap) && (oldest <? cap) && (cap <=? want) then cap - 1 else want in
      if want <? oldest then ret None else
      hostq (fun h => find (host_snap_has h) (reverse (seqZ oldest (want - oldest + 1))))
  end.

(** ** The machine *)

Definition rb_publish (tick : Z) (replay : bool) : P unit :=
  do rows <- drv d_rows;
  do n <- drv rb_slot_count;
  hostu (host_publish tick rows n replay).

Definition rb_load_sealed_rows (tick : Z) : P bool :=
  do n <- drv rb_slot_count;
  do missing <- first_of (seqZ 0 n) (fun i =>
    do r <- coreq (None, 0) (fun rb => rnet_rb_get_sealed_frame rb i tick);
    if snd r =? 0 then
      do! upd (on_replay (fun r => set_rp_missing_tick tick (set_rp_missing_slot i r)));
      ret (Some tt)
    else
      do! upd (fun d => set_d_rows (wr (d_rows d) i (host_sanitize_row i (default zero_frame (fst r)))) d);
      ret None);
  ret (bool_decide (missing = None)).

Definition rb_replay_note (tick : Z) : P unit :=
  do load <- drv (fun d => co_load_tick (corr d));
  if tick <? load then ret tt else
  let off := tick - load in
  if RNET_RB_PEER_SEAL_MASK_BITS <=? off then ret tt else
  do dig <- hostq host_digest_master;
  upd (on_replay (fun r => set_rp_replay_dig_mask (Z.lor (rp_replay_dig_mask r) (bit off))
                             (set_rp_replay_dig (wr (rp_replay_dig r) off dig) r))).

Definition count_resim : P unit := upd (on_replay (fun r => set_rp_resim_ticks (u64 (rp_resim_ticks r + 1)) r)).

Definition rb_advance_sim (tick : Z) : P bool :=
  do ok <- rb_load_sealed_rows tick;
  if negb ok then ret false else
  do! rb_publish tick true;
  do ran <- hostm (host_run_tick tick);
  if negb ran then
    do! upd (on_replay (fun r => set_rp_missing_tick tick (set_rp_missing_slot (-2) r)));
    ret false
  else
    do! rb_replay_note tick;
    do! count_resim;
    ret true.

Definition rb_resim_begin : P unit :=
  do! upd (on_replay (set_rp_in_resim true));
  hostu host_resim_begin.
Definition rb_resim_end : P unit :=
  do b <- drv (fun d => rp_in_resim (d_replay d));
  if negb b then ret tt else
  do! hostu host_resim_end;
  upd (on_replay (set_rp_in_resim false)).

(** ** Ending an episode *)

Definition rb_stage_set (st : RbEpisodeStage) : P unit :=
  do d <- drv id;
  do! when (bool_decide (st = kRbTipHold) && negb (bool_decide (stage d = kRbTipHold)))
        (upd (on_ep (set_ep_tiphold_enter_sim (d_sim d))));
  do! upd (on_ep (set_ep_stage st));
  do now <- rb_now;
  upd (on_ep (set_ep_stage_entered_ms now)).

Definition rb_episode_clear : P unit :=
  do! rb_stage_set kRbIdle;
  do! upd (on_ep (fun e => set_ep_corr zero_corr (set_ep_peer_base_mask 0 (set_ep_local_base_valid false
        (set_ep_peer_commit_mask 0 (set_ep_peer_post_mask 0 (set_ep_initiator false e)))))));
  coreu rnet_rb_session_reset.

Definition rb_restore_tip : P unit :=
  do b <- drv (fun d => rp_rewound (d_replay d));
  if negb b then ret tt else
  do! upd (on_replay (set_rp_rewound false));
  do! rb_resim_end;
  do tip <- drv (fun d => rp_tip_tick (d_replay d));
  do _ <- hostm (host_snap_load tip);
  ret tt.

Definition rb_episode_abort (abort_class : Z) : P unit :=
  do c <- drv corr;
  do sim <- drv d_sim;
  do _ <- send_sync (co_epoch_id c) abort_class sim 0 (slot_u8 (co_slot c)) RNET_RB_SYNC_OP_ABORT 0;
  do! rb_restore_tip;
  do! rb_episode_clear;
  upd (fun d => on_ep (set_ep_cooldown_until_tick (u32 (d_sim d + RB_COOLDOWN_TICKS))) d).

Definition rb_enter_lockstep : P unit :=
  upd (fun d =>
    if kn_lockstep_ticks (d_knobs d) =? 0 then d else
    let until := u32 (d_sim d + kn_lockstep_ticks (d_knobs d)) in
    if until <=? fk_lockstep_until (d_fork d) then d else on_fork (set_fk_lockstep_until until) d).

(** ** Seal rows *)

(** [n] bounds the chunks: each has at least one row. *)
Fixpoint send_chunks_of (n : nat) (slot span off : Z) : P unit :=
  match n with
  | O => ret tt
  | Datatypes.S m =>
      if span <=? off then ret tt else
      do c <- drv corr;
      let want := Z.min (span - off) RNET_RB_SEAL_ROWS_CHUNK_MAX in
      do rows <- coreq None (fun rb => rnet_rb_export_seal_rows_chunk rb slot off want);
      match rows with
      | None | Some [] => ret tt
      | Some rows =>
          do _ <- sess false (rnet_session_send_rb_seal_rows (co_epoch_id c) (co_load_tick c)
                                (co_target_tick c) (u8 slot) off rows);
          send_chunks_of m slot span (off + zlen rows)
      end
  end.

Definition rb_send_local_seal_rows : P unit :=
  do d <- drv id;
  let c := corr d in
  let span := if co_load_tick c <=? co_target_tick c then u32 (co_target_tick c - co_load_tick c + 1) else 0 in
  if rb_is_observer d || bool_decide (rb_session d = None) || bool_decide (d_rb d = None) then ret tt
  else send_chunks_of (Z.to_nat span) (rb_local_slot d) span 0.

(** ** Baselines *)

(** Which part differs, for the report. *)
Definition fork_part (cfg : RNetRbDriverConfig) (mine theirs : RNetRbDigestParts) : string :=
  let differs i := negb (rd 0 (dp_part mine) i =? rd 0 (dp_part theirs) i) in
  if differs 0 then default "part0"%string (rd None (dc_part_names cfg) 0)
  else if differs 1 then default "part1"%string (rd None (dc_part_names cfg) 1)
  else if differs 2 then default "part2"%string (rd None (dc_part_names cfg) 2)
  else "other"%string.

(** The injector's verdict for one exchange. *)
Definition forced_fork : P bool :=
  do k <- drv d_knobs;
  if kn_force_fork_every k <=? 0 then ret false else
  let n := u64 (kn_force_fork_n k + 1) in
  do! upd (on_knobs (set_kn_force_fork_n n));
  ret (n mod kn_force_fork_every k =? 0).

Definition note_fork (tick mine theirs : Z) (part : string) : P unit :=
  upd (on_fork (fun f => set_fk_desync_count (u32 (fk_desync_count f + 1))
    (set_fk_fork_partition (Some part) (set_fk_fork_theirs theirs (set_fk_fork_mine mine
      (set_fk_fork_tick tick (set_fk_fork_seen true f))))))).

Definition baseline_fork (mine theirs : RNetRbDigestParts) : P unit :=
  do d <- drv id;
  let load := co_load_tick (corr d) in
  do! note_fork load (dp_master mine) (dp_master theirs) (fork_part (d_cfg d) mine theirs);
  do! upd (on_fork (fun f => if (fk_fork_cap f =? 0) || (load <? fk_fork_cap f) then set_fk_fork_cap load f else f));
  do! rb_enter_lockstep;
  rb_episode_abort RNET_RB_ABORT_CLASS_ABORT.

Definition rb_baseline_try_compare : P unit :=
  do e <- drv d_ep;
  if negb (ep_local_base_valid e) || (ep_peer_base_mask e =? 0) then ret tt else
  do! upd (on_ep (set_ep_peer_base_mask 0));
  let mine := ep_local_base e in
  do _ <- first_of (seats_of (ep_peer_base_mask e)) (fun from =>
    let theirs := rd zero_parts (ep_peer_base e) from in
    do forced <- forced_fork;
    if (dp_master mine =? dp_master theirs) && negb forced then ret None
    else do! baseline_fork mine theirs; ret (Some tt));
  ret tt.

Definition rb_send_baseline : P unit :=
  do ok <- has_session;
  if negb ok then ret tt else
  do p <- hostq host_digest_parts;
  do! upd (on_ep (fun e => set_ep_local_base_valid true (set_ep_local_base p e)));
  do c <- drv corr;
  do _ <- sess false (rnet_session_send_rb_baseline (co_epoch_id c) (co_load_tick c) (dp_master p)
                        (rd 0 (dp_part p) 0) (rd 0 (dp_part p) 1) (rd 0 (dp_part p) 2));
  rb_baseline_try_compare.

(** ** The replay *)

Definition rb_replay_missing_abort : P unit := rb_episode_abort RNET_RB_ABORT_CLASS_ABORT.

Definition rb_replay_finish : P unit :=
  do! upd (on_replay (set_rp_rewound false));
  do d <- drv id;
  let load := co_load_tick (corr d) in let target := co_target_tick (corr d) in
  do! each (seqZ 0 RNET_RB_PEER_SEAL_MASK_BITS) (fun off =>
    if negb (has_bit (rp_replay_dig_mask (d_replay d)) off) then ret tt else
    let t := u32 (load + off) in let dig := rd 0 (rp_replay_dig (d_replay d)) off in
    do! upd (rb_hc_note_local t dig);
    do _ <- sess false (rnet_session_send_rb_frame_commit t dig);
    ret tt);
  do! upd (on_replay (set_rp_replay_dig_mask 0));
  do! upd (fun d => set_d_replayed (d_replayed d ++ [(load, target)]) (rb_owed_clear_span load target d));
  do! rb_resim_end;
  do! hostu (host_snap_drop_after target);
  do! upd (set_d_sim (u32 (target + 1)));
  sessu (rnet_session_set_sim_tick (u32 (target + 1))).

(** [true]: the replay ran to its end. *)
(** The replay proper, from the rewound machine on. *)
Definition replay_rewound : P bool :=
  do! rb_send_baseline;
  do i <- drv idle;
  if (i : bool) then ret false else
  do! coreu (fun rb => rnet_rb_set_phase rb PhaseReplay);
  do! rb_resim_begin;
  do d <- drv id;
  let load := co_load_tick (corr d) in let target := co_target_tick (corr d) in
  if bool_decide (dc_replay_mode (d_cfg d) = REPLAY_INCREMENTAL) then
    do! upd (on_replay (set_rp_replay_next load));
    do! rb_stage_set kRbReplaying;
    ret false
  else
    do failed <- first_of (seqZ load (target - load + 1)) (fun t =>
      do! rb_snap_take t;
      do ok <- rb_advance_sim t;
      ret (if (ok : bool) then None else Some tt));
    if bool_decide (failed = None) then do! rb_replay_finish; ret true
    else do! rb_resim_end; do! rb_replay_missing_abort; ret false.

Definition rb_run_replay : P bool :=
  do sim <- drv d_sim;
  do! upd (on_replay (set_rp_tip_tick sim));
  do saved <- hostm (host_snap_save sim);
  if negb saved then do! rb_episode_abort RNET_RB_ABORT_CLASS_NO_SNAP; ret false else
  do load <- drv (fun d => co_load_tick (corr d));
  do loaded <- hostm (host_snap_load load);
  if negb loaded then do! rb_episode_abort RNET_RB_ABORT_CLASS_NO_SNAP; ret false else
  do! upd (on_replay (fun r => set_rp_replay_dig_mask 0 (set_rp_rewound true r)));
  replay_rewound.

Definition rb_enter_verify : P unit :=
  do master <- hostq host_digest_master;
  do! coreu (fun rb => rnet_rb_set_phase rb PhaseVerify);
  do! upd (on_ep (set_ep_local_post_digest master));
  do c <- drv corr;
  do _ <- sess false (rnet_session_send_rb_post (co_epoch_id c) (co_target_tick c) master 0 1);
  do now <- rb_now;
  do! upd (on_ep (fun e => set_ep_post_resend_ms now (set_ep_post_sent_ms now e)));
  rb_stage_set kRbVerifying.
End Ops.
