(* ===== verification/DriverEpisode.v ===== *)
(** * The rollback driver: opening, extending and committing episodes
    (src/rollback/rnet_rb_driver.c, lines 2136 to 2956)

    The handlers that open an episode as initiator or follower, hold a BEGIN
    or an answer that came early, extend the span, and commit. *)

From stdpp Require Import base list numbers list_numbers strings.
From S2P Require Import Prelude StateM Protocol Config Rings Contract Rollback InputHist HashConfirm CtrlQueue Session SessionState SessionMain SessionStats DriverData Driver.

(** ** Early seal rows *)

(** The buffer holds 16 chunks; the oldest makes room. *)
Definition rb_early_seal_hold (c : early_chunk) (d : RNetRbDriver) : RNetRbDriver :=
  let l := ea_seal (d_early d) in
  let l := if RB_EARLY_SEAL_MAX <=? zlen l then drop 1 l else l in
  on_early (set_ea_seal (l ++ [mkChunk (ch_epoch c) (ch_base c) (ch_target c) (ch_row_begin c) (ch_slot c)
                                 (take (Z.to_nat RNET_RB_SEAL_ROWS_CHUNK_MAX) (ch_rows c))])) d.

(** ** Early answers *)

(** What a follower takes over for its epoch, and what it keeps for others. *)
Definition take_early_post (i : Z) (d : RNetRbDriver) : RNetRbDriver :=
  let e := d_early d in
  if negb (rd 0 (ea_post_epoch e) i =? co_epoch_id (corr d)) then d else
  on_ep (fun p => set_ep_peer_post_mask (Z.lor (ep_peer_post_mask p) (bit i))
    (set_ep_peer_post_target (wr (ep_peer_post_target p) i (rd 0 (ea_post_target e) i))
      (set_ep_peer_post_digest (wr (ep_peer_post_digest p) i (rd 0 (ea_post_digest e) i)) p))) d.
Definition keep_early_post (d : RNetRbDriver) (i : Z) : bool :=
  let ep := rd 0 (ea_post_epoch (d_early d)) i in
  negb (ep =? co_epoch_id (corr d)) && rb_epoch_is_early d ep.

Definition take_early_base (i : Z) (d : RNetRbDriver) : RNetRbDriver :=
  let e := d_early d in
  if negb (rd 0 (ea_base_epoch e) i =? co_epoch_id (corr d)) ||
     negb (rd 0 (ea_base_load e) i =? co_load_tick (corr d)) then d else
  on_ep (fun p => set_ep_peer_base_mask (Z.lor (ep_peer_base_mask p) (bit i))
    (set_ep_peer_base (wr (ep_peer_base p) i (rd zero_parts (ea_base e) i)) p)) d.
Definition keep_early_base (d : RNetRbDriver) (i : Z) : bool :=
  let ep := rd 0 (ea_base_epoch (d_early d)) i in
  negb (ep =? co_epoch_id (corr d)) && rb_epoch_is_early d ep.

Definition mask_of (keep : Z -> bool) (seats : list Z) : Z :=
  fold_left (fun m i => if keep i then Z.lor m (bit i) else m) seats 0.

(** Both loops of a follower's opening. *)
Definition rb_take_early_answers (d : RNetRbDriver) : RNetRbDriver :=
  let posts := seats_of (ea_post_mask (d_early d)) in
  let bases := seats_of (ea_base_mask (d_early d)) in
  let keep_post := mask_of (keep_early_post d) posts in
  let keep_base := mask_of (keep_early_base d) bases in
  let d := fold_left (fun d i => take_early_post i d) posts d in
  let d := fold_left (fun d i => take_early_base i d) bases d in
  on_early (fun e => set_ea_base_mask keep_base (set_ea_post_mask keep_post e)) d.

Section Ops.
Context {H Sc : Type} `{RbHost H} `{SchedOps Sc}.
Notation St := (RbState H Sc).
Notation P := (M St).

(** ** The driver as the scheduler's bridge *)

Section Bridge.
Context (pre_admit_hold : Z -> Z -> P (option string)).

Definition rb_bridge : RNetSchedBridge St := mkBridge
  (fun st => rb_session (r_drv st))
  (fun s st => mkRbState (set_d_session (Some s) (r_drv st)) (r_host st) (r_sched st))
  (fun st => dc_input_delay (d_cfg (r_drv st)))
  (fun v st => mkRbState (set_d_cfg (set_dc_input_delay (Some v) (d_cfg (r_drv st))) (r_drv st))
                 (r_host st) (r_sched st))
  (fun st => kn_prediction_cap (d_knobs (r_drv st)))
  (fun st => dc_local_slot (d_cfg (r_drv st)))
  (fun st => dc_force_turn (d_cfg (r_drv st)))
  (fun _ => true)
  rb_now
  (fun st => cc_rtt_ema_ms (d_count (r_drv st)))
  (fun st => rb_gate_episode_active (r_drv st))
  (fun st => rb_gate_tip_holding (r_drv st))
  (fun st => rb_gate_lockstep_no_invent (r_drv st))
  (Some (fun st => rb_gate_lockstep_tag (r_drv st)))
  (fun _ => false)
  (fun st => rb_gate_lockstep_no_invent (r_drv st))
  pre_admit_hold
  (fun st => cc_episode_count (d_count (r_drv st)))
  (fun st => rp_resim_ticks (d_replay (r_drv st))).

(** A call of the scheduler: its own state is the third part of ours. *)
Definition sched_call {A} (op : RNetSchedBridge St -> M (Sc * St) A) : P A := fun st =>
  let '(a, (sc, st')) := op rb_bridge (r_sched st, st) in
  (a, mkRbState (r_drv st') (r_host st') sc).
End Bridge.

(** The calls that do not run the admission gate. *)
Definition sched_note {A} (op : RNetSchedBridge St -> M (Sc * St) A) : P A :=
  sched_call (fun _ _ => ret None) op.

(** ** Commit *)

Definition send_commit : P unit :=
  do c <- drv corr;
  do _ <- send_sync (co_epoch_id c) (co_mismatch_tick c) (co_load_tick c) (co_target_tick c)
            (slot_u8 (co_slot c)) RNET_RB_SYNC_OP_COMMIT 0;
  do r <- resolved_through;
  do _ <- sess false (rnet_session_send_rb_resolved r);
  ret tt.

Definition rb_commit_episode : P unit :=
  do! coreu rnet_rb_commit_promote_sealed;
  do! upd (on_fork (set_fk_fork_cap 0));
  do target <- drv (fun d => co_target_tick (corr d));
  do! upd (rb_hc_prime_after target);
  do! sched_note sched_note_episode_boundary;
  do held <- coreq None rnet_rb_enter_tip_hold;
  do! match held with
      | Some rb =>
          do! upd (set_d_rb (Some rb));
          do! upd (on_ep (set_ep_peer_commit_mask 0));
          rb_stage_set kRbTipHold
      | None =>
          do! coreu rnet_rb_on_post_match;
          rb_episode_clear
      end;
  send_commit.

(** ** Tip-extend *)

Definition core_extend (new_target : Z) : P bool :=
  do can <- coreq false (fun rb => rnet_rb_can_extend_target rb new_target);
  if negb can then ret false
  else core_ask rs_sealed_span (fun get rb => rnet_rb_extend_target get rb new_target).

Definition rb_tip_extend (tick slot : Z) (notify_peer : bool) : P bool :=
  do d <- drv id;
  let c := corr d in
  let new_target := if co_target_tick c <? tick then tick else co_target_tick c in
  if bool_decide (d_rb d = None) ||
     negb (bool_decide (stage d = kRbTipHold) || bool_decide (stage d = kRbVerifying)) then ret false else
  if notify_peer && draining d then ret false else
  if RB_MAX_TIP_EXTENDS <=? ep_tip_extends (d_ep d) then ret false else
  do has <- rb_snap_has (co_load_tick c);
  if negb has then ret false else
  do cover <- rb_local_rows_cover (co_load_tick c) new_target;
  if negb cover then ret false else
  do ok <- core_extend new_target;
  if negb ok then ret false else
  do! upd (on_ep (fun e => set_ep_tip_extends (ep_tip_extends e + 1) e));
  do! when notify_peer (do _ <- send_sync (co_epoch_id c) tick (co_load_tick c) new_target (slot_u8 slot)
                                  RNET_RB_SYNC_OP_BEGIN RNET_RB_SYNC_FLAG_REREPLAY; ret tt);
  do! upd (on_ep (fun e => set_ep_peer_base_mask 0 (set_ep_local_base_valid false (set_ep_local_post_digest 0
        (set_ep_peer_commit_mask 0 (set_ep_peer_post_mask 0
          (set_ep_corr (set_co_target_tick new_target (ep_corr e)) e)))))));
  do! coreu (fun rb => rnet_rb_set_phase rb PhaseSealInputs);
  do! rb_send_local_seal_rows;
  do! rb_stage_set kRbSealing;
  ret true.

(** ** Applying seal rows *)

Definition core_apply (epoch base target slot row_begin : Z) (rows : list RNetRbFrame) : P bool :=
  core_ask rs_sealed_span (fun get rb =>
    rnet_rb_apply_peer_seal_rows get rb epoch base target slot row_begin (Some rows)).

Definition rb_early_seal_take : P unit :=
  do d <- drv id;
  let epoch := co_epoch_id (corr d) in
  do! each (List.filter (fun c => ch_epoch c =? epoch) (ea_seal (d_early d))) (fun c =>
    do _ <- core_apply (ch_epoch c) (ch_base c) (ch_target c) (ch_slot c) (ch_row_begin c) (ch_rows c);
    ret tt);
  upd (fun d => on_early (set_ea_seal (List.filter (fun c =>
    negb (ch_epoch c =? co_epoch_id (corr d)) && rb_epoch_is_early d (ch_epoch c)) (ea_seal (d_early d)))) d).

(** ** Refusing a BEGIN *)

Definition rb_nack_begin (epoch mismatch load frontier slot : Z) : P unit :=
  do! upd (on_early (fun e =>
    set_ea_nacked (wr (ea_nacked e) (ea_nacked_n e mod RB_NACKED) (mkNacked epoch mismatch load frontier slot))
      (set_ea_nacked_n (u32 (ea_nacked_n e + 1)) e)));
  do _ <- send_sync epoch mismatch load frontier (slot_u8 slot) RNET_RB_SYNC_OP_NACK 0;
  ret tt.

Definition rb_send_nack (epoch mismatch load slot : Z) : P unit :=
  do r <- resolved_through;
  rb_nack_begin epoch mismatch load r slot.

(** [true]: seen before; the refusal is repeated if there was one. *)
Definition rb_begin_repeat (epoch : Z) : P bool :=
  do e <- drv d_early;
  let seen := take (Z.to_nat (Z.min (ea_begin_seen_n e) RB_BEGIN_SEEN)) (ea_begin_seen e) in
  if existsb (Z.eqb epoch) seen then
    do! each (List.filter (fun k => nk_epoch k =? epoch)
                (take (Z.to_nat (Z.min (ea_nacked_n e) RB_NACKED)) (ea_nacked e))) (fun k =>
      do _ <- send_sync epoch (nk_mismatch k) (nk_load k) (nk_frontier k) (slot_u8 (nk_slot k))
                RNET_RB_SYNC_OP_NACK 0;
      ret tt);
    ret true
  else
    do! upd (on_early (fun e =>
      set_ea_begin_seen (wr (ea_begin_seen e) (ea_begin_seen_n e mod RB_BEGIN_SEEN) epoch)
        (set_ea_begin_seen_n (u32 (ea_begin_seen_n e + 1)) e)));
    ret false.

(** ** Opening an episode *)

(** The span the initiator opens: [(load, target)]. *)
Definition initiator_span (mismatch_tick : Z) : P (option (Z * Z)) :=
  do d <- drv id;
  let sim_tip := if nz (d_sim d) then d_sim d - 1 else 0 in
  do load <- rb_snap_floor mismatch_tick;
  match load with
  | None =>
      do! sched_note (fun br => sched_note_mispredict br (u32 (d_sim d - mismatch_tick)));
      ret None
  | Some load =>
      do target <- coreq 0 (fun rb => rnet_rb_suggest_target rb mismatch_tick sim_tip);
      ret (Some (load, if sim_tip <? target then sim_tip else target))
  end.

(** The follower's checks: the load snapshot (taken now when the load tick is
    our tip), no older correction owed, our own rows for the whole span. *)
Definition follower_span (mismatch_tick slot peer_load peer_target peer_epoch : Z) : P (option (Z * Z)) :=
  do d <- drv id;
  do has <- rb_snap_has peer_load;
  do! when (negb has && (peer_load =? d_sim d) && negb (rp_in_resim (d_replay d)))
        (do saved <- hostm (host_snap_save peer_load);
         when saved (upd (on_count (fun c => set_cc_n_follow_at_tip (u32 (cc_n_follow_at_tip c + 1)) c))));
  do has <- rb_snap_has peer_load;
  if negb has then
    do! rb_send_nack peer_epoch mismatch_tick peer_load slot;
    ret None
  else
  match rb_owed_first d with
  | Some (owed_t, _) =>
      if owed_t <? peer_load then
        do! rb_nack_begin peer_epoch mismatch_tick peer_load (if nz owed_t then owed_t - 1 else 0) slot;
        ret None
      else
        do cover <- rb_local_rows_cover peer_load (Z.max peer_target mismatch_tick);
        if (cover : bool) then ret (Some (peer_load, peer_target))
        else do! rb_send_nack peer_epoch mismatch_tick peer_load slot; ret None
  | None =>
      do cover <- rb_local_rows_cover peer_load (Z.max peer_target mismatch_tick);
      if (cover : bool) then ret (Some (peer_load, peer_target))
      else do! rb_send_nack peer_epoch mismatch_tick peer_load slot; ret None
  end.

Definition light_flag (b : bool) : Z := if b then RNET_RB_CORR_LIGHT_TIP else 0.

(** The correction tuple of an episode over [load .. target]. *)
Definition open_corr (mismatch_tick slot load target peer_epoch peer_flags : Z) (as_initiator : bool)
    (d : RNetRbDriver) : RNetRbCorrection :=
  let light := if as_initiator
    then match d_rb d with
         | Some rb => rnet_rb_is_light_tip_candidate_ex load target (rs_resolved_through rb)
                        (rc_light_tip_max_depth (rs_cfg rb))
         | None => false
         end
    else nz (Z.land peer_flags RNET_RB_SYNC_FLAG_LIGHT_TIP) in
  mkCorr (if as_initiator then rnet_rb_epoch_make (ep_seq (d_ep d)) (rb_local_slot d) else peer_epoch)
    mismatch_tick load target slot (b2z as_initiator) (b2z (negb as_initiator)) (light_flag light).

(** The episode is on record: announce it and wait for the peers. *)
Definition announce (mismatch_tick slot load target : Z) (as_initiator : bool) : P unit :=
  do c <- drv corr;
  do! when as_initiator
        (do _ <- send_sync (co_epoch_id c) mismatch_tick load target (slot_u8 slot) RNET_RB_SYNC_OP_BEGIN
                   (if nz (Z.land (co_flags c) RNET_RB_CORR_LIGHT_TIP) then RNET_RB_SYNC_FLAG_LIGHT_TIP else 0);
         ret tt);
  do now <- rb_now;
  do! upd (on_ep (fun e => set_ep_answered_mask 0 (set_ep_begin_resend_ms now e)));
  do! rb_send_local_seal_rows;
  do! upd (on_ep (fun e => set_ep_peer_base_mask 0 (set_ep_peer_commit_mask 0 (set_ep_peer_post_mask 0
        (set_ep_tip_extends 0 (set_ep_initiator as_initiator e))))));
  do! rb_stage_set kRbSealing;
  upd (on_count (fun c =>
    let c := set_cc_episode_count (u32 (cc_episode_count c + 1)) c in
    if as_initiator then set_cc_ep_initiated (u32 (cc_ep_initiated c + 1)) c
    else set_cc_ep_followed (u32 (cc_ep_followed c + 1)) c)).

(** [memset(&corr)], the new tuple, and the core's seal of the span. *)
Definition open_span (mismatch_tick slot load target peer_epoch peer_flags : Z) (as_initiator : bool) : P bool :=
  do! when as_initiator (upd (on_ep (fun e => set_ep_seq (u32 (ep_seq e + 1)) e)));
  do! upd (fun d => on_ep (set_ep_corr
        (open_corr mismatch_tick slot load target peer_epoch peer_flags as_initiator d)) d);
  do c <- drv corr;
  do! coreu (fun rb => rnet_rb_begin_episode rb c);
  do _ <- core_ask (fun _ => 0) (fun get rb => Some (rnet_rb_seal_inputs get rb load target slot));
  coreq false rnet_rb_inputs_sealed.

Definition rb_begin_episode (mismatch_tick slot : Z) (as_initiator : bool)
    (peer_load peer_target peer_epoch peer_flags : Z) : P bool :=
  do d <- drv id;
  if bool_decide (d_rb d = None) || negb (idle d) then ret false else
  if as_initiator && rb_cooldown_active d then ret false else
  if as_initiator && draining d then
    do! upd (on_drain (fun q => set_qu_drain_unopened (u32 (qu_drain_unopened q + 1)) q));
    ret false
  else
  if mismatch_tick =? 0 then ret false else
  do span <- (if as_initiator then initiator_span mismatch_tick
              else follower_span mismatch_tick slot peer_load peer_target peer_epoch);
  match span with
  | None => ret false
  | Some (load, target) =>
      let target := if target <? mismatch_tick then mismatch_tick else target in
      if (load <=? target) && (RNET_RB_PEER_SEAL_MASK_BITS <=? target - load) then ret false else
      do sealed <- open_span mismatch_tick slot load target peer_epoch peer_flags as_initiator;
      if negb sealed then do! rb_episode_clear; ret false else
      do! announce mismatch_tick slot load target as_initiator;
      do! when (negb as_initiator) (do! upd rb_take_early_answers; rb_early_seal_take);
      ret true
  end.

(** An episode of our own. *)
Definition rb_open (tick slot : Z) : P bool := rb_begin_episode tick slot true 0 0 0 0.

(** ** Deferred follow *)

Definition rb_follow_or_defer (epoch mismatch load target slot flags : Z) : P unit :=
  do d <- drv id;
  if (d_sim d <? load) && nz mismatch && idle d then
    if negb (ea_defer_valid (d_early d)) || negb (ea_defer_epoch (d_early d) =? epoch) then
      do! upd (on_early (fun e => set_ea_defer_flags flags (set_ea_defer_slot slot (set_ea_defer_target target
            (set_ea_defer_load load (set_ea_defer_mismatch mismatch (set_ea_defer_epoch epoch
              (set_ea_defer_valid true e))))))));
      do now <- rb_now;
      do! upd (on_early (set_ea_defer_since_ms now));
      upd (on_count (fun c => set_cc_n_follow_deferred (u32 (cc_n_follow_deferred c + 1)) c))
    else ret tt
  else do _ <- rb_begin_episode mismatch slot false load target epoch flags; ret tt.

Definition rb_defer_pump : P unit :=
  do d <- drv id;
  let e := d_early d in
  if negb (ea_defer_valid e) || negb (idle d) then ret tt else
  do now <- rb_now;
  let waited := u32 (now - ea_defer_since_ms e) in
  if ea_defer_load e <=? d_sim d then
    do! upd (on_early (set_ea_defer_valid false));
    do _ <- rb_begin_episode (ea_defer_mismatch e) (ea_defer_slot e) false (ea_defer_load e)
              (ea_defer_target e) (ea_defer_epoch e) (ea_defer_flags e);
    ret tt
  else if kn_seal_timeout_ms (d_knobs d) / 2 <? waited then
    do! upd (on_early (set_ea_defer_valid false));
    rb_send_nack (ea_defer_epoch e) (ea_defer_mismatch e) (ea_defer_load e) (ea_defer_slot e)
  else ret tt.

(** ** Answers of the peers *)

Definition rb_on_peer_baseline (from epoch load_tick : Z) (p : RNetRbDigestParts) : P unit :=
  do d <- drv id;
  let b := rb_from_bit d from in let i := rb_bit_slot b in
  if rb_epoch_is_early d epoch then
    when (nz b) (upd (on_early (fun e => set_ea_base_mask (Z.lor (ea_base_mask e) b)
      (set_ea_base (wr (ea_base e) i p) (set_ea_base_load (wr (ea_base_load e) i load_tick)
        (set_ea_base_epoch (wr (ea_base_epoch e) i epoch) e))))))
  else if idle d || negb (epoch =? co_epoch_id (corr d)) || negb (load_tick =? co_load_tick (corr d))
  then ret tt
  else if b =? 0 then ret tt else
  do! upd (on_ep (fun e => set_ep_answered_mask (Z.lor (ep_answered_mask e) b)
        (set_ep_peer_base_mask (Z.lor (ep_peer_base_mask e) b)
          (set_ep_peer_base (wr (ep_peer_base e) i p) e))));
  rb_baseline_try_compare.

(** The link estimate, from our POST to the peer's. *)
Definition sample_rtt : P unit :=
  do d <- drv id;
  if bool_decide (stage d = kRbVerifying) && nz (ep_post_sent_ms (d_ep d)) then
    do now <- rb_now;
    let sample := u32 (now - ep_post_sent_ms (d_ep d)) in
    do! upd (on_ep (set_ep_post_sent_ms 0));
    when (sample <=? 1000) (upd (on_count (fun c =>
      set_cc_rtt_ema_ms (if nz (cc_rtt_ema_ms c) then u32 (3 * cc_rtt_ema_ms c + sample) / 4 else sample) c)))
  else ret tt.

Definition rb_on_peer_post (from epoch target master : Z) : P unit :=
  do d <- drv id;
  let b := rb_from_bit d from in let i := rb_bit_slot b in
  if rb_epoch_is_early d epoch then
    when (nz b) (upd (on_early (fun e => set_ea_post_mask (Z.lor (ea_post_mask e) b)
      (set_ea_post_digest (wr (ea_post_digest e) i master) (set_ea_post_target (wr (ea_post_target e) i target)
        (set_ea_post_epoch (wr (ea_post_epoch e) i epoch) e))))))
  else if idle d || negb (epoch =? co_epoch_id (corr d)) then ret tt
  else if b =? 0 then ret tt else
  do! sample_rtt;
  upd (on_ep (fun e => set_ep_answered_mask (Z.lor (ep_answered_mask e) b)
    (set_ep_peer_post_mask (Z.lor (ep_peer_post_mask e) b)
      (set_ep_peer_post_target (wr (ep_peer_post_target e) i target)
        (set_ep_peer_post_digest (wr (ep_peer_post_digest e) i master) e))))).
End Ops.
