(* ===== verification/DriverWire.v ===== *)
(** * The rollback driver: wire, watchdogs and reconciliation
    (src/rollback/rnet_rb_driver.c, lines 1067 to 1365, 1773 to 1827 and 2958 to 3769)

    What one poll does before a tick may run: drain the control messages, pump
    the handshakes and the open episode, reconcile late rows with predicted
    ones, and drain for a coordinated stop. *)

From stdpp Require Import base list numbers list_numbers strings.
From S2P Require Import Prelude CStrings StateM Protocol Config Rings Contract Rollback InputHist HashConfirm CtrlQueue Session SessionState SessionMain SessionStats DriverData Driver DriverEpisode.

Section Ops.
Context {H Sc : Type} `{RbHost H} `{SchedOps Sc}.
Notation St := (RbState H Sc).
Notation P := (M St).

(** ** Refusing the match *)

Definition rb_refuse (code : string) : P unit :=
  do r <- drv refusal;
  match r with
  | Some _ => ret tt
  | None =>
      do! upd (fun d => set_d_stall_tag (Some "refused"%string) (on_boot (set_bt_refusal (Some code)) d));
      hostu host_request_return_to_lobby
  end.

(** ** Boot digests *)

(** Our tick-0 digest; [None] while it is not noted. *)
Definition boot_local : P (option Z) :=
  do d <- drv id;
  if bt_boot_dig_local_valid (d_boot d) then ret (Some (bt_boot_dig_local (d_boot d))) else
  let first := rb_bit_slot (rb_expect_mask d) in
  match (if 0 <=? first then rnet_hc_local_digest (hc_at d first) 0 else None) with
  | Some local =>
      do! upd (on_boot (fun b => set_bt_boot_dig_local_valid true (set_bt_boot_dig_local local b)));
      do! hostu host_boot_digest_noted;
      ret (Some local)
  | None => ret None
  end.

Definition boot_collect (d : RNetRbDriver) : RNetRbDriver :=
  for_upto RNET_RB_MAX_SLOTS (fun i d =>
    if negb (has_bit (rb_expect_mask d) i) || has_bit (bt_boot_dig_peer_mask (d_boot d)) i then d else
    match rnet_hc_peer_digest (hc_at d i) 0 with
    | Some peer => on_boot (fun b => set_bt_boot_dig_peer_mask (Z.lor (bt_boot_dig_peer_mask b) (bit i))
                                       (set_bt_boot_dig_peer (wr (bt_boot_dig_peer b) i peer) b)) d
    | None => d
    end) d.

(** The peers whose tick 0 differs from ours. *)
Definition boot_bad (d : RNetRbDriver) (local : Z) : Z :=
  mask_of (fun i => negb (rd 0 (bt_boot_dig_peer (d_boot d)) i =? local)) (seats_of (rb_expect_mask d)).

(** [true]: hold. *)
Definition rb_boot_digest_gate : P bool :=
  do d <- drv id;
  if bt_boot_dig_settled (d_boot d) || negb (d_started d) then ret false else
  do l <- boot_local;
  match l with
  | None => ret true
  | Some local =>
      do! upd boot_collect;
      do d <- drv id;
      let missing := Z.ldiff (rb_expect_mask d) (bt_boot_dig_peer_mask (d_boot d)) in
      if nz missing then
        do now <- rb_now;
        do! when (bt_boot_dig_hold_since_ms (d_boot d) =? 0) (upd (on_boot (set_bt_boot_dig_hold_since_ms now)));
        do since <- drv (fun d => bt_boot_dig_hold_since_ms (d_boot d));
        if RB_BOOT_DIGEST_TIMEOUT_MS <? u32 (now - since) then
          do! upd (on_boot (set_bt_boot_dig_settled true));
          do! rb_refuse "boot_digest_timeout";
          ret false
        else ret true
      else
        do! upd (on_boot (set_bt_boot_dig_settled true));
        if nz (boot_bad d local) && negb (kn_allow_boot_fork (d_knobs d)) then
          do! rb_refuse "boot_digest_mismatch";
          ret false
        else ret false
  end.

Definition rb_gate_pre_admit_hold (sim wire : Z) : P (option string) :=
  do d <- drv id;
  if bool_decide (is_Some (bt_local_modset (d_boot d))) && negb (bt_modset_settled (d_boot d)) && idle d
  then ret (Some "modset_wait"%string) else
  do hold <- (if (sim =? 1) && idle d then rb_boot_digest_gate else ret false);
  if (hold : bool) then ret (Some "boot_digest_wait"%string) else
  do r <- drv refusal;
  ret (if bool_decide (is_Some r) then Some "refused"%string else None).

(** ** The mod-set handshake

    [check] is the host's verdict on a set: its result and the reason it
    wrote, if any. [junk] is what the uninitialised [reason] buffer of the
    source holds before that. *)

Definition rb_modset_fail : P unit :=
  do d <- drv id;
  if bt_modset_settled (d_boot d) then ret tt else
  do! upd (on_boot (fun b => set_bt_modset_ok false (set_bt_modset_settled true b)));
  if kn_allow_mod_mismatch (d_knobs d) then upd (on_boot (set_bt_modset_ok true))
  else rb_refuse "mod_set_not_agreed".

Definition modset_agreed : P unit :=
  upd (on_boot (fun b => set_bt_modset_ok true (set_bt_modset_settled true b))).

(** The host's answers; [true]: one of them ended the handshake. *)
Fixpoint modset_acks (n : nat) : P bool :=
  match n with
  | O => ret false
  | Datatypes.S m =>
      do a <- sess None (rnet_session_take_modset_ack 96);
      match a with
      | None => ret false
      | Some (status, _) =>
          do from <- last_from;
          do b <- drv (fun d => rb_from_bit d from);
          if b =? 0 then modset_acks m
          else if status =? 0 then
            do! upd (on_boot (fun t => set_bt_modset_ack_mask (Z.lor (bt_modset_ack_mask t) b) t));
            modset_acks m
          else do! rb_modset_fail; ret true
      end
  end.

Definition modset_deadline : P unit :=
  do now <- rb_now;
  do since <- drv (fun d => bt_modset_since_ms (d_boot d));
  when (RB_MODSET_TIMEOUT_MS <? u32 (now - since)) rb_modset_fail.

Definition modset_host : P unit :=
  do d <- drv id;
  do! when (negb (bt_modset_sent (d_boot d)) || (d_sim d mod 30 =? 0))
        (let t := match kn_force_modset (d_knobs d) with
                  | [] => default [] (bt_local_modset (d_boot d))
                  | f => f
                  end in
         do sent <- sess false (rnet_session_send_modset t);
         when sent (upd (on_boot (set_bt_modset_sent true))));
  do over <- modset_acks 9;
  if (over : bool) then ret tt else
  do d <- drv id;
  if Z.land (bt_modset_ack_mask (d_boot d)) (rb_expect_mask d) =? rb_expect_mask d
  then modset_agreed else modset_deadline.

Context (check : option (list Z -> Z * option (list Z))) (junk : list Z).

Definition modset_guest : P unit :=
  do text <- sess None (rnet_session_take_modset 1024);
  match text with
  | None => modset_deadline
  | Some text =>
      let '(rc, reason) := match check with Some f => f text | None => (0, None) end in
      do _ <- sess false (rnet_session_send_modset_ack (u8 rc) (Some (default junk reason)));
      if rc =? 0 then modset_agreed else rb_modset_fail
  end.

Definition rb_modset_pump : P unit :=
  do d <- drv id;
  let host := rb_local_slot d =? 0 in
  if bool_decide (rb_session d = None) || bool_decide (bt_local_modset (d_boot d) = None) then ret tt else
  if bt_modset_settled (d_boot d) then
    if (host : bool) then ret tt else
    do text <- sess None (rnet_session_take_modset 1024);
    match text with
    | None => ret tt
    | Some _ =>
        let ok := bt_modset_ok (d_boot d) in
        do _ <- sess false (rnet_session_send_modset_ack (if ok then 0 else 1)
                  (Some (if ok then [] else bytes_of "cannot honour the host's set")));
        ret tt
    end
  else
    do! when (bt_modset_since_ms (d_boot d) =? 0) (do now <- rb_now; upd (on_boot (set_bt_modset_since_ms now)));
    if (host : bool) then modset_host else modset_guest.

(** ** Identity *)

Definition rb_send_identity : P unit :=
  do d <- drv id;
  let b := d_boot d in
  if bool_decide (rb_session d = None) || (RB_IDENT_RETRY_TICKS <? d_sim d) then ret tt else
  if (bt_local_build_fp b =? 0) && (bt_local_content_fp b =? 0) then ret tt else
  if (Z.land (bt_peer_ident_mask b) (rb_expect_mask d) =? rb_expect_mask d) && bt_ident_sent b &&
     negb (bt_ident_owed b) then ret tt else
  do now <- rb_now;
  if bt_ident_sent b && (u32 (now - bt_ident_sent_ms b) <? RB_IDENT_RESEND_MS) then ret tt else
  do sent <- send_sync 0 (bt_local_build_fp b) (rb_claimed_content_fp d)
               (Z.lor (bt_peer_ident_mask b) (bit (rb_local_slot d))) (slot_u8 (rb_local_slot d))
               RNET_RB_SYNC_OP_IDENT 0;
  when (sent || (0 <? kn_force_mod_mismatch (d_knobs d)))
    (upd (on_boot (fun b => set_bt_ident_owed false (set_bt_ident_sent_ms now (set_bt_ident_sent true b))))).

(** ** The stop *)

Definition rnet_rb_driver_request_quiesce : P unit :=
  do d <- drv id;
  if negb (d_started d) || draining d then ret tt else
  do! upd (on_drain (set_qu_quiesce RNET_RB_QUIESCE_DRAINING));
  do now <- rb_now;
  upd (fun d => on_knobs (set_kn_force_invent_slot (-1))
    (on_drain (fun q => set_qu_req_sim (d_sim d) (set_qu_req_ms now q)) d)).

Definition rb_quiesce_send : P unit :=
  do d <- drv id;
  let have_all := Z.land (qu_peer_mask (d_drain d)) (rb_expect_mask d) =? rb_expect_mask d in
  do _ <- send_sync 0 (b2z have_all) (d_sim d) 0 (u8 (rb_local_slot d)) RNET_RB_SYNC_OP_QUIESCE 0;
  do now <- rb_now;
  upd (on_drain (set_qu_sent_ms (if now =? 0 then 1 else now))).

Definition rb_quiesce_pump (wire_ok : bool) : P unit :=
  do d <- drv id;
  if negb (bool_decide (quiesce d = RNET_RB_QUIESCE_DRAINING)) then ret tt else
  do now <- rb_now;
  let expect := rb_expect_mask d in
  if RNET_RB_QUIESCE_TIMEOUT_MS <? u32 (now - qu_req_ms (d_drain d))
  then upd (on_drain (set_qu_quiesce RNET_RB_QUIESCE_TIMED_OUT)) else
  if negb (idle d) || ea_defer_valid (d_early d) then ret tt else
  do! when (wire_ok && ((qu_sent_ms (d_drain d) =? 0) ||
                        (RB_QUIESCE_RESEND_MS <=? u32 (now - qu_sent_ms (d_drain d))))) rb_quiesce_send;
  if negb (Z.land (qu_peer_mask (d_drain d)) expect =? expect) then ret tt else
  do! when (qu_all_ms (d_drain d) =? 0) (upd (on_drain (set_qu_all_ms (if nz now then now else 1))));
  do all_ms <- drv (fun d => qu_all_ms (d_drain d));
  if wire_ok && negb (Z.land (qu_peer_ack_mask (d_drain d)) expect =? expect) &&
     (u32 (now - all_ms) <? RB_QUIESCE_ACK_GRACE_MS) then ret tt else
  do! when wire_ok rb_quiesce_send;
  upd (on_drain (set_qu_quiesce RNET_RB_QUIESCE_DRAINED)).

(** ** Control messages *)

Definition on_frame_commit_request (from : Z) (m : rb_sync_entry) : P unit :=
  do d <- drv id;
  let a := sy_mismatch_tick m in let mask := rb_expect_mask d in
  if negb ((sy_corrected_slot m =? rb_local_slot d) && nz (rb_from_bit d from)) then ret tt else
  if negb (nz mask && (a <? d_sim d)) then ret tt else
  if (a =? 0) && bt_boot_dig_local_valid (d_boot d) then
    do _ <- sess false (rnet_session_send_rb_frame_commit a (bt_boot_dig_local (d_boot d))); ret tt
  else
    match rnet_hc_local_digest (hc_at d (rb_bit_slot mask)) a with
    | Some digest => do _ <- sess false (rnet_session_send_rb_frame_commit a digest); ret tt
    | None => ret tt
    end.

(** A BEGIN with the re-replay flag: the span of an episode grew. *)
Definition on_rereplay (m : rb_sync_entry) : P unit :=
  do d <- drv id;
  let epoch := sy_epoch_id m in let target := sy_target_tick m in
  if (bool_decide (stage d = kRbTipHold) || bool_decide (stage d = kRbVerifying)) &&
     (epoch =? co_epoch_id (corr d)) then
    do ok <- rb_tip_extend target (sy_corrected_slot m) false;
    when (negb ok) (rb_episode_abort RNET_RB_ABORT_CLASS_REALIGN)
  else if ea_defer_valid (d_early d) && (epoch =? ea_defer_epoch (d_early d)) then
    when (ea_defer_target (d_early d) <? target) (upd (on_early (set_ea_defer_target target)))
  else
    do r <- resolved_through;
    do _ <- send_sync epoch (sy_mismatch_tick m) (sy_load_tick m) r (sy_corrected_slot m) RNET_RB_SYNC_OP_NACK 0;
    ret tt.

Definition nack_msg (m : rb_sync_entry) : P unit :=
  do r <- resolved_through;
  rb_nack_begin (sy_epoch_id m) (sy_mismatch_tick m) (sy_load_tick m) r (sy_corrected_slot m).

(** The newest BEGIN per initiator; [false]: overtaken by a newer one. *)
Definition note_begin_seq (m : rb_sync_entry) : P bool :=
  do d <- drv id;
  let init := rnet_rb_epoch_initiator (sy_epoch_id m) in let seq := epoch_seq (sy_epoch_id m) in
  let seen := rd 0 (ea_begin_seen_seq (d_early d)) init in
  if seen <? seq then
    do! upd (on_early (fun e => set_ea_begin_seen_seq (wr (ea_begin_seen_seq e) init seq) e));
    ret true
  else ret (negb (seq <? seen)).

(** Two episodes at once: the lower initiator seat wins, and a newer episode of
    the same seat ends the older one. [true]: the new one may be followed. *)
Definition arbitrate_open (m : rb_sync_entry) : P bool :=
  do d <- drv id;
  if idle d then ret true else
  let peer_init := rnet_rb_epoch_initiator (sy_epoch_id m) in
  let held_init := rnet_rb_epoch_initiator (co_epoch_id (corr d)) in
  if (peer_init <? held_init) ||
     (negb (ep_initiator (d_ep d)) && (peer_init =? held_init) &&
      (epoch_seq (co_epoch_id (corr d)) <? epoch_seq (sy_epoch_id m)))
  then do! rb_episode_clear; ret true
  else do! nack_msg m; ret false.

Definition arbitrate_deferred (m : rb_sync_entry) : P bool :=
  do d <- drv id;
  let e := d_early d in let epoch := sy_epoch_id m in
  if negb (ea_defer_valid e) then ret true else
  if epoch =? ea_defer_epoch e then ret false else
  let held_init := rnet_rb_epoch_initiator (ea_defer_epoch e) in
  let new_init := rnet_rb_epoch_initiator epoch in
  if (new_init <? held_init) ||
     ((new_init =? held_init) && (epoch_seq (ea_defer_epoch e) <? epoch_seq epoch)) then
    do! rb_send_nack (ea_defer_epoch e) (ea_defer_mismatch e) (ea_defer_load e) (ea_defer_slot e);
    do! upd (on_early (set_ea_defer_valid false));
    ret true
  else do! nack_msg m; ret false.

Definition on_begin (m : rb_sync_entry) : P unit :=
  do obs <- drv rb_is_observer;
  if (obs : bool) then
    upd (on_count (fun c => set_cc_n_observer_skipped (u32 (cc_n_observer_skipped c + 1)) c))
  else if nz (Z.land (sy_flags m) RNET_RB_SYNC_FLAG_REREPLAY) then on_rereplay m else
  do repeat <- rb_begin_repeat (sy_epoch_id m);
  if (repeat : bool) then ret tt else
  do fresh <- note_begin_seq m;
  if negb fresh then nack_msg m else
  do go <- arbitrate_open m;
  if negb go then ret tt else
  do go <- arbitrate_deferred m;
  if negb go then ret tt else
  rb_follow_or_defer (sy_epoch_id m) (sy_mismatch_tick m) (sy_load_tick m) (sy_target_tick m)
    (sy_corrected_slot m) (sy_flags m).

Definition on_nack (m : rb_sync_entry) : P unit :=
  do d <- drv id;
  if idle d || negb (sy_epoch_id m =? co_epoch_id (corr d)) then ret tt else
  do! coreu (fun rb => rnet_rb_demote_resolved_through rb (sy_target_tick m));
  rb_episode_abort RNET_RB_ABORT_CLASS_REALIGN.

Definition on_abort (m : rb_sync_entry) : P unit :=
  do d <- drv id;
  if ea_defer_valid (d_early d) && (sy_epoch_id m =? ea_defer_epoch (d_early d))
  then upd (on_early (set_ea_defer_valid false)) else
  if idle d || negb (sy_epoch_id m =? co_epoch_id (corr d)) then ret tt else
  do! rb_episode_clear;
  upd (fun d => on_ep (set_ep_cooldown_until_tick
    (u32 (d_sim d + if sy_mismatch_tick m =? RNET_RB_ABORT_CLASS_REALIGN then 0 else RB_COOLDOWN_TICKS))) d).

Definition on_ident (from : Z) (m : rb_sync_entry) : P unit :=
  do d <- drv id;
  let a := sy_mismatch_tick m in let b := sy_load_tick m in
  let p := rb_from_bit d from in let seat := rb_bit_slot p in let t := d_boot d in
  if p =? 0 then ret tt else
  do! when (negb (has_bit (sy_target_tick m) (rb_local_slot d))) (upd (on_boot (set_bt_ident_owed true)));
  if nz (Z.land (bt_peer_ident_mask t) p) && (rd 0 (bt_peer_build_fp t) seat =? a) &&
     (rd 0 (bt_peer_content_fp t) seat =? b) then ret tt else
  do! upd (on_boot (fun t => set_bt_peer_ident_mask (Z.lor (bt_peer_ident_mask t) p)
        (set_bt_peer_content_fp (wr (bt_peer_content_fp t) seat b)
          (set_bt_peer_build_fp (wr (bt_peer_build_fp t) seat a) t))));
  if nz (Z.lor (bt_local_build_fp t) (bt_local_content_fp t)) && negb (b =? rb_claimed_content_fp d) &&
     negb (kn_allow_mod_mismatch (d_knobs d))
  then rb_refuse "mod_set_mismatch" else ret tt.

Definition on_commit (from : Z) (m : rb_sync_entry) : P unit :=
  do d <- drv id;
  if negb (bool_decide (stage d = kRbTipHold)) || negb (sy_epoch_id m =? co_epoch_id (corr d)) then ret tt else
  do! upd (on_ep (fun e => set_ep_peer_commit_mask (Z.lor (ep_peer_commit_mask e) (rb_from_bit d from)) e));
  do d <- drv id;
  when (Z.land (ep_peer_commit_mask (d_ep d)) (rb_expect_mask d) =? rb_expect_mask d) rb_episode_clear.

Definition on_quiesce (from : Z) (m : rb_sync_entry) : P unit :=
  do d <- drv id;
  let b := rb_from_bit d from in
  if b =? 0 then ret tt else
  do! upd (on_drain (fun q => set_qu_peer_mask (Z.lor (qu_peer_mask q) b) q));
  do! when (nz (sy_mismatch_tick m)) (upd (on_drain (fun q => set_qu_peer_ack_mask (Z.lor (qu_peer_ack_mask q) b) q)));
  when (negb (draining d)) rnet_rb_driver_request_quiesce.

Definition on_sync (m : rb_sync_entry) : P unit :=
  do from <- last_from;
  let op := sy_initiator m in
  if op =? RNET_RB_SYNC_OP_FRAME_COMMIT_REQUEST then on_frame_commit_request from m
  else if op =? RNET_RB_SYNC_OP_BEGIN then on_begin m
  else if op =? RNET_RB_SYNC_OP_NACK then on_nack m
  else if op =? RNET_RB_SYNC_OP_ABORT then on_abort m
  else if op =? RNET_RB_SYNC_OP_IDENT then on_ident from m
  else if op =? RNET_RB_SYNC_OP_COMMIT then on_commit from m
  else if op =? RNET_RB_SYNC_OP_QUIESCE then on_quiesce from m
  else ret tt.

Definition on_seal_rows (m : rb_seal_entry * list RNetRbFrame) : P unit :=
  let '(e, rows) := m in
  if se_row_count e =? 0 then ret tt else
  do d <- drv id;
  let rows := map (host_sanitize_row (se_slot e)) rows in
  if idle d || negb (se_epoch_id e =? co_epoch_id (corr d)) then
    when (rb_epoch_is_early d (se_epoch_id e))
      (upd (rb_early_seal_hold (mkChunk (se_epoch_id e) (se_mismatch_tick e) (se_target_tick e)
                                  (se_row_begin e) (se_slot e) rows)))
  else
    do _ <- core_apply (se_epoch_id e) (se_mismatch_tick e) (se_target_tick e) (se_slot e) (se_row_begin e) rows;
    do from <- last_from;
    upd (fun d => on_ep (fun e => set_ep_answered_mask (Z.lor (ep_answered_mask e) (rb_from_bit d from)) e) d).

Definition on_baseline (m : rb_base_entry) : P unit :=
  do from <- last_from;
  rb_on_peer_baseline from (ba_epoch_id m) (ba_load_tick m)
    (mkParts (ba_digest_master m) [ba_digest_a m; ba_digest_b m; ba_digest_c m]).

Definition on_post (m : rb_post_entry) : P unit :=
  do from <- last_from;
  rb_on_peer_post from (po_epoch_id m) (po_target_tick m) (po_digest_master m).

Definition on_peer_frame_commit (m : Z * Z) : P unit :=
  do from <- last_from;
  do d <- drv id;
  let b := rb_from_bit d from in
  when (nz b) (upd (on_hc (rb_bit_slot b) (fun h => rnet_hc_note_peer h (fst m) (snd m)))).

(** A queue is drained in at most one round per entry, and one to see it
    empty. *)
Definition RB_DRAIN_ROUNDS : nat := 33.
Definition RB_FC_ROUNDS : nat := 257.

(** The answer: every loop ended within its rounds. *)
Definition rb_drain_wire : P bool :=
  do ok <- has_session;
  if negb ok then ret true else
  do b1 <- drain RB_DRAIN_ROUNDS (sess None rnet_session_take_rb_sync) on_sync;
  do b2 <- drain RB_DRAIN_ROUNDS (sess None rnet_session_take_rb_seal_rows) on_seal_rows;
  do b3 <- drain RB_DRAIN_ROUNDS (sess None rnet_session_take_rb_baseline) on_baseline;
  do b4 <- drain RB_DRAIN_ROUNDS (sess None rnet_session_take_rb_post) on_post;
  do b5 <- drain RB_DRAIN_ROUNDS (sess None rnet_session_take_rb_resolved)
             (fun m => coreu (fun rb => rnet_rb_set_peer_convergence rb (re_through m)));
  do b6 <- drain RB_FC_ROUNDS (sess None rnet_session_take_rb_frame_commit) on_peer_frame_commit;
  ret (b1 && b2 && b3 && b4 && b5 && b6).

(** ** The episode pump *)

Definition rb_stage_expired : P bool :=
  do now <- rb_now;
  do d <- drv id;
  ret (kn_seal_timeout_ms (d_knobs d) <? u32 (now - ep_stage_entered_ms (d_ep d))).

Definition resend_every (d : RNetRbDriver) : Z :=
  if RB_POST_RESEND_MIN_MS <? cc_rtt_ema_ms (d_count d) then cc_rtt_ema_ms (d_count d) else RB_POST_RESEND_MIN_MS.

Definition rb_begin_resend : P unit :=
  do now <- rb_now;
  do d <- drv id;
  let expect := rb_expect_mask d in let c := corr d in
  if bool_decide (rb_session d = None) || negb (ep_initiator (d_ep d)) ||
     (Z.land (ep_answered_mask (d_ep d)) expect =? expect) ||
     (u32 (now - ep_begin_resend_ms (d_ep d)) <? resend_every d) then ret tt else
  do _ <- send_sync (co_epoch_id c) (co_mismatch_tick c) (co_load_tick c) (co_target_tick c)
            (slot_u8 (co_slot c)) RNET_RB_SYNC_OP_BEGIN
            (if nz (Z.land (co_flags c) RNET_RB_CORR_LIGHT_TIP) then RNET_RB_SYNC_FLAG_LIGHT_TIP else 0);
  upd (fun d => on_count (fun k => set_cc_n_begin_resent (u32 (cc_n_begin_resent k + 1)) k)
    (on_ep (set_ep_begin_resend_ms now) d)).

Definition rb_post_resend : P unit :=
  do now <- rb_now;
  do d <- drv id;
  let c := corr d in
  if bool_decide (rb_session d = None) || (u32 (now - ep_post_resend_ms (d_ep d)) <? resend_every d)
  then ret tt else
  do _ <- sess false (rnet_session_send_rb_post (co_epoch_id c) (co_target_tick c)
                        (ep_local_post_digest (d_ep d)) 0 1);
  upd (fun d => on_count (fun k => set_cc_n_post_resent (u32 (cc_n_post_resent k + 1)) k)
    (on_ep (set_ep_post_resend_ms now) d)).

Definition pump_sealing : P unit :=
  do complete <- coreq false rnet_rb_all_peer_seal_rows_complete;
  if (complete : bool) then
    do! coreu (fun rb => rnet_rb_set_phase rb PhaseAwaitingBaseline);
    do ran <- rb_run_replay;
    when ran rb_enter_verify
  else
    do late <- rb_stage_expired;
    if (late : bool) then rb_episode_abort RNET_RB_ABORT_CLASS_ABORT else rb_begin_resend.

(** A POST that names another tip than ours is dropped. *)
Definition drop_stale_posts (d : RNetRbDriver) : RNetRbDriver :=
  on_ep (fun e => set_ep_peer_post_mask
    (mask_of (fun i => rnet_rb_peer_post_tip_ok (rd 0 (ep_peer_post_target e) i) (co_target_tick (ep_corr e)))
       (seats_of (ep_peer_post_mask e))) e) d.

(** The first expected peer whose digest differs. *)
Definition post_differs (d : RNetRbDriver) : option Z :=
  find (fun i => negb (rd 0 (ep_peer_post_digest (d_ep d)) i =? ep_local_post_digest (d_ep d)))
    (seats_of (rb_expect_mask d)).

Definition post_fork (bad : Z) : P unit :=
  do d <- drv id;
  do! note_fork (co_target_tick (corr d)) (ep_local_post_digest (d_ep d))
        (rd 0 (ep_peer_post_digest (d_ep d)) bad) "post";
  do! coreu rnet_rb_on_post_diverge;
  do! rb_enter_lockstep;
  rb_episode_abort RNET_RB_ABORT_CLASS_ABORT.

Definition pump_verifying : P unit :=
  do! upd drop_stale_posts;
  do d <- drv id;
  let mask := ep_peer_post_mask (d_ep d) in let expect := rb_expect_mask d in
  if nz mask && (Z.land mask expect =? expect) then
    match post_differs d with
    | None => rb_commit_episode
    | Some bad => post_fork bad
    end
  else
    do late <- rb_stage_expired;
    if (late : bool) then rb_episode_abort RNET_RB_ABORT_CLASS_ABORT
    else do! rb_begin_resend; rb_post_resend.

Definition pump_tip_hold : P unit :=
  do d <- drv id;
  let runway := match d_rb d with Some rb => rc_tip_runway (rs_cfg rb) | None => 0 end in
  if u32 (co_target_tick (corr d) + runway) <? d_sim d then rb_episode_clear else
  do late <- rb_stage_expired;
  if (late : bool) then rb_episode_clear else rb_post_resend.

Definition rb_pump_episode : P unit :=
  do st <- drv stage;
  match st with
  | kRbSealing => pump_sealing
  | kRbVerifying => pump_verifying
  | kRbTipHold => pump_tip_hold
  | _ => ret tt
  end.

(** ** Reconciliation *)

Definition note_mispredict (age : Z) : P unit := sched_note (fun br => sched_note_mispredict br age).

(** Reported as lost, and no longer owed. *)
Definition rb_owed_lost (t slot : Z) : P unit :=
  upd (fun d => set_d_lost (d_lost d ++ [(t, slot)]) (rb_owed_clear_span t t d)).

(** The oldest correction still owed. *)
Definition retry_owed (t oslot : Z) : P unit :=
  do load <- rb_snap_floor t;
  match load with
  | None => rb_owed_lost t oslot
  | Some _ =>
      do sim <- drv d_sim;
      if (t <? sim) && (RNET_RB_PEER_SEAL_MASK_BITS <=? sim - 1 - t) then rb_owed_lost t oslot else
      do opened <- rb_open t oslot;
      if (opened : bool) then ret tt
      else upd (fun d => set_d_owed_retry_after (u32 (d_sim d + RB_COOLDOWN_TICKS)) d)
  end.

(** What to do with a late row that contradicts a predicted one. *)
Definition apply_late (t slot : Z) : P unit :=
  do d <- drv id;
  do! note_mispredict (if t <? d_sim d then d_sim d - t else 0);
  do! upd (rb_owed_mark t slot);
  do d <- drv id;
  if idle d then
    if rb_cooldown_active d || ea_defer_valid (d_early d) then ret tt
    else do _ <- rb_open t slot; ret tt
  else if (co_load_tick (corr d) <=? t) && (t <=? co_target_tick (corr d)) then ret tt
  else
    do extended <- (if bool_decide (stage d = kRbTipHold) then rb_tip_extend t slot true else ret false);
    if (extended : bool) then ret tt else
    upd (fun d => on_count (fun k =>
      let i := stage_index (stage d) in
      set_cc_drop_stage_n (wr (cc_drop_stage_n k) i (u32 (rd 0 (cc_drop_stage_n k) i + 1))) k) d).

(** One row of the scan; [Some tt]: a correction was handled, stop. *)
Definition reconcile_row (slot t : Z) : P (option unit) :=
  do d <- drv id;
  do wire_tick <- rb_wire t;
  match rnet_ih_get (d_ih d) slot t with
  | None => ret None
  | Some published =>
      if rf_is_predicted published =? 0 then ret None else
      match rb_session d ≫= (fun s => rnet_session_peek_remote_input s slot wire_tick) with
      | None => ret None
      | Some x =>
          if is_valid x =? 0 then ret None else
          let wire := rb_row_from_sample slot t x in
          let rewind := negb (rb_rows_equal wire published) &&
            rnet_input_contract_decision_is_rewind (fst (rnet_rb_decide_stick_replace no_gates
              (rnet_ih_frame_to_contract published) (rnet_ih_frame_to_contract wire) 1)) in
          do! upd (fun d => match rnet_ih_promote (d_ih d) slot wire with
                            | Some h => set_d_ih h d | None => d end);
          if negb rewind then ret None else
          do! apply_late t slot;
          ret (Some tt)
      end
  end.

Definition rb_reconcile_wire : P unit :=
  do d <- drv id;
  do r <- resolved_through;
  let from := u32 (r + 1) in
  let from := if (RNET_INPUT_HIST_DEPTH <? d_sim d) && (from <? d_sim d - RNET_INPUT_HIST_DEPTH)
              then d_sim d - RNET_INPUT_HIST_DEPTH else from in
  if bool_decide (rb_session d = None) then ret tt else
  let may_retry := idle d && negb (rb_cooldown_active d) && (d_owed_retry_after d <=? d_sim d) &&
                   negb (draining d) && negb (ea_defer_valid (d_early d)) in
  match (if may_retry then rb_owed_first d else None) with
  | Some (t, oslot) => retry_owed t oslot
  | None =>
      do _ <- first_of (List.filter (fun s => negb (s =? rb_local_slot d)) (seqZ 0 (rb_slot_count d)))
        (fun slot => first_of (seqZ from (d_sim d - from)) (reconcile_row slot));
      ret tt
  end.
End Ops.
