(* ===== verification/DriverMain.v ===== *)
(** * The rollback driver: the host's calls
    (src/rollback/rnet_rb_driver.c, lines 412 to 450, 1484 to 1855 and 3790 to 4387)

    [rnet_rb_driver_poll_admit] and [rnet_rb_driver_finish_frame] bracket a
    tick; start and shutdown bracket a match. *)

From stdpp Require Import base list numbers list_numbers strings.
From S2P Require Import Prelude CStrings StateM Protocol Config Rings Contract Rollback InputHist HashConfirm CtrlQueue Session SessionState SessionMain SessionStats DriverData Driver DriverEpisode DriverWire.

(** ** The environment

    [env] is [getenv]. A key is cut to the 95 characters of its buffer. *)

Definition rb_env_str (env : string -> option string) (cfg : RNetRbDriverConfig) (name : string) : option string :=
  let key prefix := String.substring 0 95 (prefix +:+ "_" +:+ name)%string in
  match dc_env_alias cfg with
  | Some (String _ _ as alias) =>
      match env (key alias) with Some v => Some v | None => env (key "RNET_RB"%string) end
  | _ => env (key "RNET_RB"%string)
  end.

Definition rb_env_int (env : string -> option string) (cfg : RNetRbDriverConfig) (name : string) (def lo hi : Z) : Z :=
  match rb_env_str env cfg name with
  | None | Some EmptyString => def
  | Some v =>
      match strtol v with
      | Some (n, EmptyString) => if (n <? lo) || (hi <? n) then def else n
      | _ => def
      end
  end.

(** [atoi], and 0 when unset, empty or negative. *)
Definition rb_env_count (env : string -> option string) (cfg : RNetRbDriverConfig) (name : string) : Z :=
  match rb_env_str env cfg name with
  | None => 0
  | Some v => Z.max 0 (s32 (default 0 (fst <$> strtol v)))
  end.

(** ** Starting *)

Definition start_prediction (env : string -> option string) (d : RNetRbDriver) : Z :=
  let bound := default 0 (dc_input_prediction (d_cfg d)) in
  let dflt := if 2 <=? bound then bound else Z.min 16 (Z.max 6 (4 + rb_input_delay d)) in
  rb_env_int env (d_cfg d) "PREDICTION" dflt 1 32.

Definition start_pinned (env : string -> option string) (d : RNetRbDriver) : bool :=
  match rb_env_str env (d_cfg d) "LOCKSTEP" with
  | Some (String c _) => negb (ch c =? 48) || rb_is_observer d
  | _ => rb_is_observer d
  end.

Definition start_knobs (env : string -> option string) (d : RNetRbDriver) : RbKnobs :=
  let cfg := d_cfg d in
  mkKnobs (rb_env_int env cfg "SNAP_INTERVAL" 1 1 16) (start_prediction env d)
    (rb_env_int env cfg "EPISODE_TIMEOUT_MS" 2000 100 30000)
    (rb_env_int env cfg "LOCKSTEP_TICKS" RB_LOCKSTEP_TICKS_DEFAULT 0 600) (start_pinned env d)
    (rb_env_count env cfg "FORCE_FORK") 0 (rb_env_count env cfg "FORCE_MISPREDICT") 0
    (rb_env_int env cfg "FORCE_BOOT_FORK" 0 0 1) (rb_env_int env cfg "FORCE_MOD_MISMATCH" 0 0 1)
    (take 1023 (bytes_of (default EmptyString (rb_env_str env cfg "FORCE_MODSET"))))
    (nz (rb_env_int env cfg "ALLOW_BOOT_FORK" 0 0 1)) (nz (rb_env_int env cfg "ALLOW_MOD_MISMATCH" 0 0 1))
    eights (-1).

Definition start_core_config (env : string -> option string) (d : RNetRbDriver) : RNetRbConfig :=
  let runway := rb_env_int env (d_cfg d) "TIP_RUNWAY" RNET_RB_TIP_RUNWAY_DEFAULT 0 32 in
  mkRbConfig (rb_local_slot d) (rb_input_delay d) 0 (rb_slot_count d) runway 0
    (if RNET_RB_LIGHT_TIP_MAX_DEPTH <? runway then runway else RNET_RB_LIGHT_TIP_MAX_DEPTH)
    (dc_occupied_mask (d_cfg d)).

(** What survives a restart: the identity and the mod set of the process. *)
Definition rb_cold_reset (d : RNetRbDriver) : RNetRbDriver :=
  on_boot (fun b => set_bt_local_modset (bt_local_modset (d_boot d))
    (set_bt_local_content_fp (bt_local_content_fp (d_boot d))
      (set_bt_local_build_fp (bt_local_build_fp (d_boot d)) b))) zero_driver.

Definition rnet_rb_driver_create : RNetRbDriver := zero_driver.

Definition rnet_rb_driver_set_identity (build_fp content_fp : Z) (d : RNetRbDriver) : RNetRbDriver :=
  on_boot (fun b => set_bt_local_content_fp content_fp (set_bt_local_build_fp build_fp b)) d.
Definition rnet_rb_driver_set_modset (text : option (list Z)) (d : RNetRbDriver) : RNetRbDriver :=
  on_boot (set_bt_local_modset text) d.

(** Shutdown leaves everything else as it was. *)
Definition shutdown_drv (d : RNetRbDriver) : RNetRbDriver :=
  set_d_stall_tag None (set_d_sim 0 (set_d_started false (set_d_rb None
    (on_fork (fun f => set_fk_fork_seen false (set_fk_desync_count 0 f))
    (on_count (set_cc_episode_count 0)
    (on_ep (fun e => set_ep_peer_commit_mask 0 (set_ep_peer_post_mask 0 (set_ep_stage kRbIdle e)))
    (on_replay (fun r => set_rp_resim_ticks 0 (set_rp_pending_admit RNET_RB_ADMIT_STALL (set_rp_in_resim false r)))
       d))))))).

(** ** The stop, the hold, the diagnostics *)

Definition rnet_rb_driver_set_hold (tick : Z) (d : RNetRbDriver) : RNetRbDriver :=
  set_d_hold_at tick (set_d_hold_active true d).
Definition rnet_rb_driver_clear_hold (d : RNetRbDriver) : RNetRbDriver :=
  if d_hold_active d then set_d_hold_active false d else d.

Definition rnet_rb_driver_hold_settled (d : RNetRbDriver) : bool :=
  if negb (d_started d) || negb (d_hold_active d) || (d_sim d <? d_hold_at d) then false else
  if negb (idle d) then false else
  forallb (fun slot =>
    (slot =? rb_local_slot d) || negb (has_bit (rb_expect_mask d) slot) ||
    forallb (fun t => match rnet_ih_get (d_ih d) slot t with
                      | Some row => negb (nz (rf_is_valid row) && nz (rf_is_predicted row))
                      | None => true
                      end) (seqZ (hist_from d) (d_sim d - hist_from d)))
    (seqZ 0 (rb_slot_count d)).

Definition rnet_rb_driver_confirmed_through (d : RNetRbDriver) : Z :=
  match d_rb d with Some rb => rs_resolved_through rb | None => 0 end.
Definition rnet_rb_driver_confirmed_remaining (d : RNetRbDriver) : Z :=
  let through := rnet_rb_driver_confirmed_through d in
  if through <? d_sim d then d_sim d - through else 0.
Definition rnet_rb_driver_last_fork (d : RNetRbDriver) : option (Z * string) :=
  if fk_fork_seen (d_fork d)
  then Some (fk_fork_tick (d_fork d), default "?"%string (fk_fork_partition (d_fork d))) else None.
Definition rnet_rb_driver_fork_digests (d : RNetRbDriver) : option (Z * Z) :=
  if fk_fork_seen (d_fork d) then Some (fk_fork_mine (d_fork d), fk_fork_theirs (d_fork d)) else None.

(** ** Pacing by the slowest peer *)

Definition with_tip (tip : Z) (st : RNetSessionStats) : RNetSessionStats :=
  set_ss_remote_lead (s32 (tip - ss_sim_tick st)) (set_ss_highest_remote_wire tip st).

Definition rb_stats_slowest_tip (d : RNetRbDriver) (s : RNetSession) (st : RNetSessionStats) : RNetSessionStats :=
  if rb_popcount (rb_expect_mask d) <? 2 then st else
  match fold_left (fun lo i =>
          match rnet_session_remote_tip s i, lo with
          | None, _ => lo
          | Some tip, Some l => if tip <? l then Some tip else lo
          | Some tip, None => Some tip
          end) (seats_of (rb_expect_mask d)) None with
  | None => st
  | Some lo => with_tip lo st
  end.

Definition rb_stats_seat_tip (d : RNetRbDriver) (s : RNetSession) (slot : Z) (st : RNetSessionStats)
  : RNetSessionStats :=
  if rb_popcount (rb_expect_mask d) <? 2 then st else
  match rnet_session_remote_tip s slot with
  | None => st
  | Some tip => with_tip tip st
  end.

(** [strlen(why) > 6] and [why] ends in "_grace". *)
Definition is_grace (why : option string) : bool :=
  match why with
  | None => false
  | Some w => let n := String.length w in
              (6 <? n)%nat && String.eqb (String.substring (n - 6) 6 w) "_grace"
  end.

Section Ops.
Context {H Sc : Type} `{RbHost H} `{SchedOps Sc}.
Context (check : option (list Z -> Z * option (list Z))) (junk : list Z).
Notation St := (RbState H Sc).
Notation P := (M St).

Definition rnet_rb_driver_shutdown : P unit :=
  do d <- drv id;
  do! when (rp_in_resim (d_replay d)) (hostu host_resim_end);
  do! when (d_started d) (modify (fun st => mkRbState (r_drv st) (r_host st) (sched_reset_session (r_sched st))));
  upd shutdown_drv.

(** [cfg_ok]: both arguments are there; [host_ok]: no required callback is
    missing; [session]: the session behind the configuration's pointer;
    [alloc_s], [alloc_t]: the core's two allocations succeed. *)
Definition rnet_rb_driver_start (env : string -> option string) (cfg : RNetRbDriverConfig)
    (session : option RNetSession) (cfg_ok host_ok alloc_s alloc_t : bool) : P bool :=
  do! rnet_rb_driver_shutdown;
  do! upd rb_cold_reset;
  if negb cfg_ok then ret false else
  do! upd (fun d => set_d_session session (set_d_cfg cfg d));
  if negb host_ok || negb (dc_session_bound cfg) then ret false else
  do! upd (fun d => set_d_knobs (start_knobs env d) d);
  do d <- drv id;
  match rnet_rb_create (start_core_config env d) true alloc_s alloc_t with
  | None => ret false
  | Some rb =>
      let slots := rb_slot_count d in
      do! upd (fun d => set_d_hc (map rnet_hc_reset (d_hc d)) (set_d_ih (rnet_ih_reset slots)
                          (set_d_rb (Some rb) d)));
      do! each (seqZ 0 slots) (fun i =>
        let f := rb_row_neutral i 0 in
        do! upd (fun d => match rnet_ih_set_neutral (d_ih d) i f with Some h => set_d_ih h d | None => d end);
        ih_put i f);
      do! modify (fun st => mkRbState (r_drv st) (r_host st) (sched_reset_session (r_sched st)));
      let expect := rb_expect_mask d in
      do! sessu (rnet_session_set_rb_peer_slot (if rb_popcount expect =? 1 then rb_bit_slot expect else -1));
      do! upd (fun d => set_d_stall_tag None (set_d_started true (on_ep (set_ep_stage kRbIdle) (set_d_sim 0 d))));
      ret true
  end.

(** ** The hash chain's watch *)

Definition chain_pending (i tick : Z) : P unit :=
  upd (on_fork (fun f => set_fk_chain_pending_tick (wr (fk_chain_pending_tick f) i tick) f)).
Definition chain_pending_since (i now : Z) : P unit :=
  upd (on_fork (fun f => set_fk_chain_pending_ms (wr (fk_chain_pending_ms f) i now) f)).

(** One peer's chain; [Some tt]: a repair was opened. *)
Definition check_chain (now settle : Z) (owed : option (Z * Z)) (i : Z) : P (option unit) :=
  do d <- drv id;
  let many := 1 <? rb_popcount (rb_expect_mask d) in
  match rnet_hc_peek_mismatch (hc_at d i) with
  | None => do! chain_pending i 0; ret None
  | Some (tick, _, _) =>
      if match owed with Some (t, _) => t <=? tick | None => false end
      then do! chain_pending i 0; ret None else
      if negb (rd 0 (fk_chain_pending_tick (d_fork d)) i =? tick)
      then do! chain_pending i tick; do! chain_pending_since i now; ret None else
      if u32 (now - rd 0 (fk_chain_pending_ms (d_fork d)) i) <? settle then ret None else
      if negb many && (rd 0 (fk_chain_fork_tick (d_fork d)) i =? tick) then ret None else
      if (many : bool) then
        do opened <- rb_open tick i;
        if (opened : bool) then
          do! upd (rb_owed_mark tick i);
          do! chain_pending i 0;
          ret (Some tt)
        else do! chain_pending_since i now; ret None
      else
        do! upd (on_fork (fun f => set_fk_chain_fork_tick (wr (fk_chain_fork_tick f) i tick) f));
        ret None
  end.

Definition rb_check_chain_fork : P unit :=
  do d <- drv id;
  if negb (idle d) || bool_decide (d_rb d = None) then ret tt else
  do now <- rb_now;
  let settle := u32 (cc_rtt_ema_ms (d_count d) * 2 + 250) in
  let settle := if settle <? 300 then 300 else settle in
  do _ <- first_of (seats_of (rb_expect_mask d)) (check_chain now settle (rb_owed_first d));
  ret tt.

(** ** Admission *)

(** INCREMENTAL: the next replayed tick. *)
Definition rb_replay_step : P RNetRbAdmit :=
  do t <- drv (fun d => rp_replay_next (d_replay d));
  do! upd (set_d_stall_tag (Some "replay"%string));
  do! rb_snap_take t;
  do ok <- rb_load_sealed_rows t;
  if negb ok then
    do! rb_resim_end;
    do! rb_replay_missing_abort;
    ret RNET_RB_ADMIT_STALL
  else
    do! rb_publish t true;
    do! upd (on_replay (set_rp_pending_admit RNET_RB_ADMIT_REPLAY));
    ret RNET_RB_ADMIT_REPLAY.

Definition use_row (slot : Z) (row : RNetRbFrame) : P unit :=
  do! ih_put slot row;
  upd (fun d => set_d_rows (wr (d_rows d) slot row) d).

(** Our own seat plays the row we published for this tick. *)
Definition admit_local (slot wire : Z) : P unit :=
  do sim <- drv d_sim;
  do x <- sessq None (fun s => rnet_session_peek_input s slot wire);
  match x with
  | Some x =>
      if is_valid x =? 0 then use_row slot (rb_row_neutral slot sim) else
      do! hostu (host_admit_sample slot sim x);
      use_row slot (rb_row_from_sample slot sim x)
  | None => use_row slot (rb_row_neutral slot sim)
  end.

(** The injector, once per row; it is cancelled where nothing is invented. *)
Definition inject (slot : Z) : P unit :=
  do d <- drv id;
  let k := d_knobs d in
  do! when ((0 <? kn_force_mispredict_every k) && bt_boot_dig_settled (d_boot d) && negb (draining d) &&
            negb (rd 0 (kn_force_mispredict_row k) slot =? u32 (d_sim d + 1)))
        (let n := u64 (kn_force_mispredict_n k + 1) in
         do! upd (on_knobs (fun k => set_kn_force_mispredict_n n
               (set_kn_force_mispredict_row (wr (kn_force_mispredict_row k) slot (u32 (d_sim d + 1))) k)));
         when (n mod kn_force_mispredict_every k =? 0) (upd (on_knobs (set_kn_force_invent_slot slot))));
  upd (fun d => if (kn_force_invent_slot (d_knobs d) =? slot) && rb_gate_lockstep_no_invent d
                then on_knobs (set_kn_force_invent_slot (-1)) d else d).

Definition rb_sched {A} (op : RNetSchedBridge St -> M (Sc * St) A) : P A :=
  sched_call rb_gate_pre_admit_hold op.

(** No real row for a remote seat: the scheduler decides. [Some tt]: stall. *)
Definition admit_missing (slot wire : Z) (st : RNetSessionStats) : P (option unit) :=
  do d <- drv id;
  let st_seat := match rb_session d with Some s => rb_stats_seat_tip d s slot st | None => st end in
  do r <- rb_sched (fun br => sched_on_remote_miss br slot (d_sim d) wire st_seat (kn_prediction_cap (d_knobs d)));
  let '(stall, why) := r in
  if (stall : bool) then
    do! upd (fun d => if (kn_force_invent_slot (d_knobs d) =? slot) && negb (is_grace why)
                      then on_knobs (set_kn_force_invent_slot (-1)) d else d);
    do! upd (set_d_stall_tag (Some (default "remote_miss"%string why)));
    ret (Some tt)
  else
    do d <- drv id;
    match rnet_ih_invent_hold_last (d_ih d) slot (d_sim d) with
    | None => ret (Some tt)
    | Some (h, row) =>
        do! upd (set_d_ih h);
        let forced := kn_force_invent_slot (d_knobs d) =? slot in
        let flip := if nz (dc_inject_flip_bits (d_cfg d)) then dc_inject_flip_bits (d_cfg d) else 64 in
        let row := if forced then mkRbFrame (rf_tick row) (Z.lxor (rf_buttons row) flip) (rf_stick_x row)
                     (rf_stick_y row) (rf_is_predicted row) (rf_is_valid row) (rf_analog row) (rf_rx row) (rf_ry row)
                   else row in
        do! when forced (upd (on_knobs (set_kn_force_invent_slot (-1))));
        do! use_row slot (host_sanitize_row slot row);
        ret None
    end.

(** One seat of the live tick: the answer says whether its row was invented;
    [None]: the tick stalls. *)
Definition admit_seat (wire : Z) (st : RNetSessionStats) (slot : Z) : P (option bool) :=
  do d <- drv id;
  if slot =? rb_local_slot d then do! admit_local slot wire; ret (Some false) else
  do! inject slot;
  do d <- drv id;
  let real := match rb_session d ≫= (fun s => rnet_session_peek_remote_input s slot wire) with
              | Some x => if nz (is_valid x) && negb (kn_force_invent_slot (d_knobs d) =? slot) then Some x else None
              | None => None
              end in
  match real with
  | Some x =>
      do! hostu (host_admit_sample slot (d_sim d) x);
      do! use_row slot (rb_row_from_sample slot (d_sim d) x);
      do! rb_sched sched_note_remote_hit;
      ret (Some false)
  | None =>
      do stalled <- admit_missing slot wire st;
      ret (match stalled with Some _ => None | None => Some true end)
  end.

(** The seats in order; [None]: one of them stalled the tick. *)
Fixpoint admit_seats (wire : Z) (st : RNetSessionStats) (any : bool) (slots : list Z) : P (option bool) :=
  match slots with
  | [] => ret (Some any)
  | slot :: r =>
      do a <- admit_seat wire st slot;
      match a with
      | None => ret None
      | Some b => admit_seats wire st (any || b) r
      end
  end.

Definition stall (tag : string) : P RNetRbAdmit :=
  do! upd (set_d_stall_tag (Some tag));
  ret RNET_RB_ADMIT_STALL.

Definition prepare_tip : P unit :=
  do d <- drv id;
  when (negb (d_tip_prepared_valid d) || negb (d_tip_prepared_for d =? d_sim d))
    (do _ <- sess false (rnet_session_prepare_local_tip (d_sim d));
     upd (fun d => set_d_tip_prepared_valid true (set_d_tip_prepared_for (d_sim d) d))).

(** The live tick, once nothing else owns the machine. *)
Definition admit_live : P RNetRbAdmit :=
  do st <- sess None (fun s => let '(st, s) := rnet_session_get_stats s in (Some st, s));
  do d <- drv id;
  match st, rb_session d with
  | Some st, Some s =>
      let st := rb_stats_slowest_tip d s st in
      do! rb_sched sched_sync_delay_from_session;
      do! prepare_tip;
      do sim <- drv d_sim;
      do wire <- rb_wire sim;
      do hold <- rb_sched (fun br => sched_pre_admit br sim wire st);
      if (hold : bool) then
        do! (fun x => upd (set_d_stall_tag (sched_admit_stall_tag (r_sched x))) x);
        ret RNET_RB_ADMIT_STALL
      else
        do n <- drv rb_slot_count;
        do rows <- admit_seats wire st false (seqZ 0 n);
        match rows with
        | None => ret RNET_RB_ADMIT_STALL
        | Some any_invent =>
            do! rb_sched (fun br => sched_post_admit br any_invent);
            do! modify (fun x => mkRbState (r_drv x) (r_host x) (sched_clear_admit_stall (r_sched x)));
            do! upd (set_d_stall_tag None);
            do! rb_snap_take sim;
            do! rb_publish sim false;
            do! upd (on_replay (set_rp_pending_admit RNET_RB_ADMIT_LIVE));
            ret RNET_RB_ADMIT_LIVE
        end
  | _, _ => ret RNET_RB_ADMIT_STALL
  end.

(** Everything a poll does for the wire and the episodes. *)
Definition poll_pumps : P unit :=
  do _ <- rb_drain_wire;
  do! rb_request_missing_frame_commits;
  do! rb_defer_pump;
  do! rb_modset_pump check junk;
  do! rb_send_identity;
  do! rb_reconcile_wire;
  do! rb_pump_episode;
  do d <- drv id;
  let gone := match rb_session d with
              | Some s => (rb_popcount (rb_expect_mask d) =? 1) && rnet_session_peer_disconnected 0 0 s
              | None => false
              end in
  do! rb_quiesce_pump (negb gone);
  rb_check_chain_fork.

Definition rnet_rb_driver_poll_admit : P RNetRbAdmit :=
  do d <- drv id;
  if negb (d_started d) then ret RNET_RB_ADMIT_STALL else
  match rb_session d with
  | None => ret RNET_RB_ADMIT_STALL
  | Some s =>
      if bool_decide (stage d = kRbReplaying) then rb_replay_step else
      if negb (running s) then
        do! when (bool_decide (quiesce d = RNET_RB_QUIESCE_DRAINING)) (do _ <- rb_drain_wire; ret tt);
        do! rb_quiesce_pump false;
        ret RNET_RB_ADMIT_STALL
      else
        do! poll_pumps;
        do d <- drv id;
        match stage d with
        | kRbReplaying => rb_replay_step
        | kRbSealing | kRbVerifying => stall "episode"
        | _ =>
            if bool_decide (is_Some (refusal d)) then stall "refused"
            else if d_hold_active d && (d_hold_at d <=? d_sim d) then stall "session_hold"
            else admit_live
        end
  end.

(** ** The end of a tick *)

Definition finish_replay_tick : P unit :=
  do st <- drv stage;
  if negb (bool_decide (st = kRbReplaying)) then ret tt else
  do t <- drv (fun d => rp_replay_next (d_replay d));
  do! rb_replay_note t;
  do! count_resim;
  do! upd (on_replay (set_rp_replay_next (u32 (t + 1))));
  do target <- drv (fun d => co_target_tick (corr d));
  when (target <? u32 (t + 1)) (do! rb_replay_finish; rb_enter_verify).

(** A correction that leaves the history window is reported as lost. *)
Definition age_out : P unit :=
  upd (fun d =>
    if negb (RNET_INPUT_HIST_DEPTH + 1 <? d_sim d) then d else
    let t := d_sim d - RNET_INPUT_HIST_DEPTH - 1 in
    let i := t mod RNET_INPUT_HIST_DEPTH in
    if owed_at d t
    then set_d_lost (d_lost d ++ [(t, rd (-1) (d_owed_slot d) i)]) (set_d_owed_slot (wr (d_owed_slot d) i (-1)) d)
    else d).

Definition rb_lockstep_tick : P unit :=
  upd (fun d =>
    let until := fk_lockstep_until (d_fork d) in
    if (until =? 0) || (d_sim d <? until) then d else on_fork (set_fk_lockstep_until 0) d).

Definition rnet_rb_driver_finish_frame : P unit :=
  do d <- drv id;
  if negb (d_started d) then ret tt else
  let admitted := rp_pending_admit (d_replay d) in
  do! upd (on_replay (set_rp_pending_admit RNET_RB_ADMIT_STALL));
  if bool_decide (admitted = RNET_RB_ADMIT_REPLAY) then finish_replay_tick else
  if rp_in_resim (d_replay d) then ret tt else
  do master <- hostq host_digest_master;
  let master := if (d_sim d =? 0) && (0 <? kn_force_boot_fork (d_knobs d))
                then Z.lxor master 2779096485 else master in
  do! upd (rb_hc_note_local (d_sim d) master);
  do _ <- sess false (rnet_session_send_rb_frame_commit (d_sim d) master);
  do! upd (set_d_sim (u32 (d_sim d + 1)));
  do! sessu (rnet_session_set_sim_tick (u32 (d_sim d + 1)));
  do! age_out;
  do! rb_lockstep_tick;
  do! rb_send_identity;
  do! upd rb_hc_heal;
  do! rb_check_chain_fork;
  upd (fun d => match d_rb d with
                | Some rb => set_d_rb (Some (rnet_rb_set_peer_convergence rb (rb_hc_resolved d))) d
                | None => d
                end).
End Ops.
