(* ===== verification/DriverFrame.v ===== *)
(** * What the driver's calls leave alone

    A [Frame] is a relation between driver states that every update of the
    driver respects. One syntax-directed pass shows that every call of the
    driver then respects it; the properties instantiate it with the refusal
    latch, the ledger of owed corrections and the message queues. *)

From stdpp Require Import base list numbers list_numbers strings.
From S2P Require Import Prelude StateM Protocol Config Rings Contract Rollback InputHist HashConfirm CtrlQueue Session SessionState SessionMain SessionStats DriverData Driver DriverEpisode DriverWire DriverMain.

(** ** Sends leave the message queues alone *)

Lemma send_raw_ctl enc s : s_ctl (send_raw enc s) = s_ctl s.
Proof. unfold send_raw. by repeat case_match. Qed.
Lemma send_sync_ctl e m l t sl op fl s : s_ctl (snd (rnet_session_send_rb_sync e m l t sl op fl s)) = s_ctl s.
Proof. unfold rnet_session_send_rb_sync. repeat case_match; try done. apply send_raw_ctl. Qed.
Lemma send_if_ctl b enc s : s_ctl (snd (send_if b enc s)) = s_ctl s.
Proof. unfold send_if. repeat case_match; try done. apply send_raw_ctl. Qed.
Lemma send_direct_ctl b enc s : s_ctl (snd (send_direct b enc s)) = s_ctl s.
Proof. unfold send_direct. by repeat case_match. Qed.
Lemma seal_rows_ctl e m t sl rb rows s : s_ctl (snd (rnet_session_send_rb_seal_rows e m t sl rb rows s)) = s_ctl s.
Proof. apply send_if_ctl. Qed.
Lemma baseline_ctl e l a b c d s : s_ctl (snd (rnet_session_send_rb_baseline e l a b c d s)) = s_ctl s.
Proof. apply send_if_ctl. Qed.
Lemma post_ctl e t a b c s : s_ctl (snd (rnet_session_send_rb_post e t a b c s)) = s_ctl s.
Proof. apply send_if_ctl. Qed.
Lemma resolved_ctl r s : s_ctl (snd (rnet_session_send_rb_resolved r s)) = s_ctl s.
Proof. apply send_if_ctl. Qed.
Lemma commit_ctl t h s : s_ctl (snd (rnet_session_send_rb_frame_commit t h s)) = s_ctl s.
Proof. apply send_if_ctl. Qed.
Lemma modset_ctl t s : s_ctl (snd (rnet_session_send_modset t s)) = s_ctl s.
Proof. apply send_direct_ctl. Qed.
Lemma modset_ack_ctl c r s : s_ctl (snd (rnet_session_send_modset_ack c r s)) = s_ctl s.
Proof. apply send_direct_ctl. Qed.
Lemma set_sim_tick_ctl t s : s_ctl (rnet_session_set_sim_tick t s) = s_ctl s.
Proof. unfold rnet_session_set_sim_tick, apply_pending_delay. by repeat case_match. Qed.

(** ** Frames *)

(** The boot digests and the verdict. *)
Definition boot_core (b : RbBoot) :=
  (bt_boot_dig_local b, bt_boot_dig_peer b, bt_boot_dig_local_valid b, bt_boot_dig_peer_mask b,
   bt_boot_dig_settled b, bt_refusal b).

Class Frame (R : RNetRbDriver -> RNetRbDriver -> Prop) : Prop := {
  fr_pre :: PreOrder R;
  fr_ep f d0 d : R d0 d -> (forall e, ep_seq (f e) = ep_seq e) -> R d0 (on_ep f d);
  fr_early f d0 d : R d0 d -> R d0 (on_early f d);
  fr_replay f d0 d : R d0 d -> R d0 (on_replay f d);
  fr_fork f d0 d : R d0 d -> R d0 (on_fork f d);
  fr_knobs f d0 d : R d0 d -> (forall k, kn_allow_boot_fork (f k) = kn_allow_boot_fork k) -> R d0 (on_knobs f d);
  fr_drain f d0 d : R d0 d ->
    (forall q, qu_quiesce q <> RNET_RB_QUIESCE_NONE -> qu_quiesce (f q) <> RNET_RB_QUIESCE_NONE) ->
    R d0 (on_drain f d);
  fr_count f d0 d : R d0 d -> R d0 (on_count f d);
  fr_boot f d0 d : R d0 d -> (forall b, boot_core (f b) = boot_core b) -> R d0 (on_boot f d);
  fr_session s s' d0 d : R d0 d -> rb_session d = Some s -> s_ctl s' = s_ctl s ->
    R d0 (set_d_session (Some s') d);
  fr_rb v d0 d : R d0 d -> R d0 (set_d_rb v d);
  fr_ih v d0 d : R d0 d -> R d0 (set_d_ih v d);
  fr_hc v d0 d : R d0 d -> R d0 (set_d_hc v d);
  fr_sim v d0 d : R d0 d -> R d0 (set_d_sim v d);
  fr_rows v d0 d : R d0 d -> R d0 (set_d_rows v d);
  fr_tip_for v d0 d : R d0 d -> R d0 (set_d_tip_prepared_for v d);
  fr_tip_valid v d0 d : R d0 d -> R d0 (set_d_tip_prepared_valid v d);
  fr_stall v d0 d : R d0 d -> R d0 (set_d_stall_tag v d);
  fr_retry v d0 d : R d0 d -> R d0 (set_d_owed_retry_after v d);
  fr_hold v d0 d : R d0 d -> R d0 (set_d_hold_active v d);
  fr_hold_at v d0 d : R d0 d -> R d0 (set_d_hold_at v d);
  fr_delay v d0 d : R d0 d -> R d0 (set_d_cfg (set_dc_input_delay v (d_cfg d)) d);
  fr_mark t slot d0 d : R d0 d -> 0 <= slot < RNET_RB_MAX_SLOTS -> R d0 (rb_owed_mark t slot d);
  fr_paid load target d0 d : R d0 d ->
    R d0 (set_d_replayed (d_replayed d ++ [(load, target)]) (rb_owed_clear_span load target d));
  fr_lost t slot d0 d : R d0 d -> R d0 (set_d_lost (d_lost d ++ [(t, slot)]) (rb_owed_clear_span t t d));
  fr_aged t slot d0 d : R d0 d -> owed_at d t = true ->
    R d0 (set_d_lost (d_lost d ++ [(t, slot)]) (set_d_owed_slot (wr (d_owed_slot d) (t mod RNET_INPUT_HIST_DEPTH) (-1)) d))
}.

(** ** Seats are 0 to 7 *)

Lemma slot_count_range d : 1 <= rb_slot_count d <= RNET_RB_MAX_SLOTS.
Proof. unfold rb_slot_count, RNET_RB_MAX_SLOTS. repeat case_match; bool_prop; lia. Qed.
Lemma filter_seat keep d slot :
  slot ∈ List.filter keep (seqZ 0 (rb_slot_count d)) -> 0 <= slot < RNET_RB_MAX_SLOTS.
Proof.
  rewrite list_elem_of_In, filter_In, <-list_elem_of_In, elem_of_seqZ.
  pose proof (slot_count_range d). lia.
Qed.
Lemma seats_range m i : i ∈ seats_of m -> 0 <= i < RNET_RB_MAX_SLOTS.
Proof. unfold seats_of. rewrite list_elem_of_In, filter_In, <-list_elem_of_In, elem_of_seqZ. lia. Qed.

(** The relation on the whole state. *)
Definition on_drv {H Sc} (R : RNetRbDriver -> RNetRbDriver -> Prop) (a b : RbState H Sc) : Prop :=
  R (r_drv a) (r_drv b).
#[export] Instance on_drv_pre {H Sc} R `{!PreOrder R} : PreOrder (@on_drv H Sc R).
Proof. split; unfold on_drv; [intros a; reflexivity|intros a b c ? ?; etransitivity; eassumption]. Qed.

(** ** The scheduler sees the driver only through its bridge

    Apart from the admission gate, a call through the bridge reads the clock,
    changes the session as a send does, and sets the delay. *)

(** A change of the session that leaves alone the control queues, the
    configuration and the rows the peers sent. *)
Record quiet_session (s s' : RNetSession) : Prop := {
  qs_ctl : s_ctl s' = s_ctl s;
  qs_cfg : s_cfg s' = s_cfg s;
  qs_rings : s_remote_rings s' = s_remote_rings s
}.
#[export] Instance quiet_session_pre : PreOrder quiet_session.
Proof. split; [by intros s; split|]. intros a b c [] []. split; congruence. Qed.

Record bridge_quiet {D} (R : D -> D -> Prop) (br : RNetSchedBridge D) : Prop := {
  bs_now : stable R (gt_now_ms br);
  bs_session d s s' : br_session br d = Some s -> quiet_session s s' -> R d (br_put_session br s' d);
  bs_delay d v : R d (br_put_input_delay br v d)
}.
Record bridge_respects {D} (R : D -> D -> Prop) (br : RNetSchedBridge D) : Prop := {
  bs_quiet : bridge_quiet R br;
  bs_hold sim wire : stable R (gt_pre_admit_hold br sim wire)
}.

Definition sched_quiet {Sc D A} (br : RNetSchedBridge D) (m : M (Sc * D) A) : Prop :=
  forall R : D -> D -> Prop, PreOrder R -> bridge_quiet R br -> stable (fun a b => R (snd a) (snd b)) m.
Definition sched_stable {Sc D A} (br : RNetSchedBridge D) (m : M (Sc * D) A) : Prop :=
  forall R : D -> D -> Prop, PreOrder R -> bridge_respects R br -> stable (fun a b => R (snd a) (snd b)) m.
(** "Do not stall" is answered only after the gate said not to hold. *)
Definition asks_gate {Sc D} (br : RNetSchedBridge D) (sim wire : Z) (m : M (Sc * D) bool) : Prop :=
  forall sc d, fst (m (sc, d)) = false ->
  forall R : D -> D -> Prop, PreOrder R -> bridge_quiet R br ->
  exists d1 d2, R d d1 /\ gt_pre_admit_hold br sim wire d1 = (None, d2) /\ R d2 (snd (snd (m (sc, d)))).

(** What the driver relies on. *)
Class SchedFrame (Sc : Type) `{SchedOps Sc} : Prop := {
  sf_sync D (br : RNetSchedBridge D) : sched_quiet br (sched_sync_delay_from_session br);
  sf_pre_admit D (br : RNetSchedBridge D) sim wire st : sched_stable br (sched_pre_admit br sim wire st);
  sf_gate D (br : RNetSchedBridge D) sim wire st : asks_gate br sim wire (sched_pre_admit br sim wire st);
  sf_miss D (br : RNetSchedBridge D) slot sim wire st pred :
    sched_quiet br (sched_on_remote_miss br slot sim wire st pred);
  (** Under lockstep a missing row stalls: none is invented. Reading the
      clock does not end lockstep. *)
  sf_lockstep D (br : RNetSchedBridge D) slot sim wire st pred sc d :
    (forall d, gt_lockstep_no_invent br (snd (gt_now_ms br d)) = gt_lockstep_no_invent br d) ->
    gt_lockstep_no_invent br d = true -> fst (fst (sched_on_remote_miss br slot sim wire st pred (sc, d))) = true;
  sf_hit D (br : RNetSchedBridge D) : sched_quiet br (sched_note_remote_hit br);
  sf_post D (br : RNetSchedBridge D) b : sched_quiet br (sched_post_admit br b);
  sf_mispredict D (br : RNetSchedBridge D) age : sched_quiet br (sched_note_mispredict br age);
  sf_boundary D (br : RNetSchedBridge D) : sched_quiet br (sched_note_episode_boundary br)
}.

(** ** The frame of every call *)

Section Frames.
Context {H Sc : Type} `{RbHost H} `{SF : SchedFrame Sc}.
Context (R : RNetRbDriver -> RNetRbDriver -> Prop) `{FR : !Frame R}.
Notation P := (M (RbState H Sc)).
Notation st_ok m := (stable (@on_drv H Sc R) m).

Lemma st_drv {A} (f : RNetRbDriver -> A) : st_ok (drv f).
Proof. intros s. reflexivity. Qed.
Lemma st_hostq {A} (f : H -> A) : st_ok (hostq f).
Proof. intros s. reflexivity. Qed.
Lemma st_hostm {A} (f : H -> A * H) : st_ok (hostm f).
Proof. intros s. unfold hostm. destruct (f (r_host s)). apply (reflexivity (R := R)). Qed.
Lemma st_hostu (f : H -> H) : st_ok (hostu f).
Proof. intros s. apply (reflexivity (R := R)). Qed.
Lemma st_now : st_ok rb_now.
Proof. apply st_hostm. Qed.
Lemma st_wire t : st_ok (rb_wire t).
Proof. intros s. reflexivity. Qed.
Lemma st_coreq {A} (x : A) f : st_ok (coreq x f).
Proof. intros s. reflexivity. Qed.
Lemma st_upd f : (forall d0 d, R d0 d -> R d0 (f d)) -> st_ok (upd f).
Proof. intros Hf s. apply Hf. reflexivity. Qed.
Lemma st_coreu f : st_ok (coreu f).
Proof. apply st_upd. intros d0 d Hd. destruct (d_rb d); [by apply fr_rb|done]. Qed.
Lemma st_sess {A} (x : A) f : (forall s, s_ctl (snd (f s)) = s_ctl s) -> st_ok (sess x f).
Proof.
  intros Hf s. unfold sess. destruct (rb_session (r_drv s)) as [ss|] eqn:E; [|reflexivity].
  specialize (Hf ss). destruct (f ss) as [a s']. simpl in *. unfold on_drv. simpl.
  eapply fr_session; [reflexivity|exact E|exact Hf].
Qed.
Lemma st_sessq {A} (x : A) f : st_ok (sessq x f).
Proof. by apply st_sess. Qed.

(** Updates of the driver: backward through the layers. *)
Ltac fr_step :=
  match goal with
  | HR : R ?a ?b |- R ?a ?b => exact HR
  | |- R _ (on_ep _ _) => apply fr_ep; [|intros ?; reflexivity]
  | |- R _ (on_early _ _) => apply fr_early
  | |- R _ (on_replay _ _) => apply fr_replay
  | |- R _ (on_fork _ _) => apply fr_fork
  | |- R _ (on_knobs _ _) => apply fr_knobs; [|intros ?; reflexivity]
  | |- R _ (on_drain _ _) => apply fr_drain; [|intros ? ?; (assumption || discriminate)]
  | |- R _ (on_count _ _) => apply fr_count
  | |- R _ (on_boot _ _) => apply fr_boot; [|intros ?; reflexivity]
  | |- R _ (set_d_rb _ _) => apply fr_rb
  | |- R _ (set_d_ih _ _) => apply fr_ih
  | |- R _ (set_d_hc _ _) => apply fr_hc
  | |- R _ (set_d_sim _ _) => apply fr_sim
  | |- R _ (set_d_rows _ _) => apply fr_rows
  | |- R _ (set_d_tip_prepared_for _ _) => apply fr_tip_for
  | |- R _ (set_d_tip_prepared_valid _ _) => apply fr_tip_valid
  | |- R _ (set_d_stall_tag _ _) => apply fr_stall
  | |- R _ (set_d_owed_retry_after _ _) => apply fr_retry
  | |- R _ (rb_owed_mark _ _ _) => apply fr_mark; [|assumption]
  | |- R _ (set_d_replayed _ _) => apply fr_paid
  | |- R _ (set_d_lost (_ ++ [_]) (rb_owed_clear_span _ _ _)) => apply fr_lost
  | |- R _ (if ?b then _ else _) => destruct b
  | |- R _ (match ?o with _ => _ end) => destruct o
  end.
Ltac fr := intros; cbv zeta; repeat fr_step.

Lemma fr_on_hc i f d0 d : R d0 d -> R d0 (on_hc i f d).
Proof. intros. by apply fr_hc. Qed.
Lemma fr_hcs (f : Z -> RNetRbDriver -> RNetRbDriver) d0 d :
  (forall i e, R d0 e -> R d0 (f i e)) -> R d0 d -> R d0 (for_upto RNET_RB_MAX_SLOTS f d).
Proof. intros Hf Hd. apply (for_upto_ind (fun _ e => R d0 e)); [done|done|]. intros. by apply Hf. Qed.
Lemma fr_hc_note_local t dig d0 d : R d0 d -> R d0 (rb_hc_note_local t dig d).
Proof. apply fr_hcs. intros i e He. case_match; [by apply fr_on_hc|done]. Qed.
Lemma fr_hc_prime t d0 d : R d0 d -> R d0 (rb_hc_prime_after t d).
Proof. apply fr_hcs. intros i e He. by apply fr_on_hc. Qed.
Lemma fr_hc_heal d0 d : R d0 d -> R d0 (rb_hc_heal d).
Proof. apply fr_hcs. intros i e He. case_match; [by apply fr_on_hc|done]. Qed.
Lemma fr_fold {A} (f : RNetRbDriver -> A -> RNetRbDriver) l d0 d :
  (forall e a, R d0 e -> R d0 (f e a)) -> R d0 d -> R d0 (fold_left f l d).
Proof. intros Hf. revert d. induction l; simpl; auto. Qed.
Lemma fr_take_early d0 d : R d0 d -> R d0 (rb_take_early_answers d).
Proof.
  intros Hd. unfold rb_take_early_answers. apply fr_early. apply fr_fold.
  - intros e a He. unfold take_early_base. fr.
  - apply fr_fold; [|done]. intros e a He. unfold take_early_post. fr.
Qed.

Lemma fr_seal_hold c d0 d : R d0 d -> R d0 (rb_early_seal_hold c d).
Proof. intros. unfold rb_early_seal_hold. fr. Qed.
Lemma fr_stale_posts d0 d : R d0 d -> R d0 (drop_stale_posts d).
Proof. intros. by apply fr_ep. Qed.

Local Ltac upd_tac :=
  apply st_upd; solve [fr | intros; by apply fr_on_hc | intros; by apply fr_seal_hold | intros; by apply fr_stale_posts | intros; by apply fr_hc_note_local | intros; by apply fr_hc_prime
    | intros; by apply fr_hc_heal | intros; by apply fr_take_early ].
Local Ltac sess_tac :=
  apply st_sess; intros ?;
  lazymatch goal with
  | |- s_ctl (snd (rnet_session_send_rb_sync _ _ _ _ _ _ _ _)) = _ => apply send_sync_ctl
  | |- s_ctl (snd (rnet_session_send_rb_seal_rows _ _ _ _ _ _ _)) = _ => apply seal_rows_ctl
  | |- s_ctl (snd (rnet_session_send_rb_baseline _ _ _ _ _ _ _)) = _ => apply baseline_ctl
  | |- s_ctl (snd (rnet_session_send_rb_post _ _ _ _ _ _)) = _ => apply post_ctl
  | |- s_ctl (snd (rnet_session_send_rb_resolved _ _)) = _ => apply resolved_ctl
  | |- s_ctl (snd (rnet_session_send_rb_frame_commit _ _ _)) = _ => apply commit_ctl
  | |- s_ctl (snd (rnet_session_send_modset _ _)) = _ => apply modset_ctl
  | |- s_ctl (snd (rnet_session_send_modset_ack _ _ _)) = _ => apply modset_ack_ctl
  | |- s_ctl (snd (_, rnet_session_set_sim_tick _ _)) = _ => apply set_sim_tick_ctl
  end.
Local Hint Resolve st_drv st_hostq st_hostm st_hostu st_now st_wire st_coreq st_coreu st_sessq : stable.
Local Hint Extern 3 (stable _ (upd _)) => upd_tac : stable.
Local Hint Extern 3 (stable _ (sess _ _)) => sess_tac : stable.
Local Hint Extern 3 (stable _ (sessu _)) => unfold sessu; sess_tac : stable.

Lemma st_send_sync e m l t sl op fl : st_ok (send_sync e m l t sl op fl).
Proof. unfold send_sync. stable_tac. Qed.
Local Hint Resolve st_send_sync : stable.
Lemma st_last_from : st_ok last_from. Proof. apply st_sessq. Qed.
Lemma st_has_session : st_ok has_session. Proof. apply st_drv. Qed.
Lemma st_resolved : st_ok resolved_through. Proof. apply st_coreq. Qed.
Local Hint Resolve st_last_from st_has_session st_resolved : stable.

Lemma st_request : st_ok rb_request_missing_frame_commits.
Proof. unfold rb_request_missing_frame_commits. stable_tac. Qed.
Lemma st_ih_put slot row : st_ok (ih_put slot row).
Proof. unfold ih_put. stable_tac. Qed.
Local Hint Resolve st_request st_ih_put : stable.
Lemma st_get_row slot t : st_ok (rb_vt_get_input_row slot t).
Proof. unfold rb_vt_get_input_row. stable_tac. Qed.
Local Hint Resolve st_get_row : stable.
Lemma st_core_ask from f : st_ok (core_ask from f).
Proof.
  intros s. unfold core_ask. destruct (d_rb (r_drv s)); [|reflexivity].
  destruct (f _ _); [|reflexivity].
  match goal with |- on_drv R s (snd (?m s)) => assert (st_ok m) as Hm; [stable_tac|apply Hm] end.
Qed.
Lemma st_cover l t : st_ok (rb_local_rows_cover l t).
Proof. unfold rb_local_rows_cover. stable_tac. Qed.
Lemma st_snap_take t : st_ok (rb_snap_take t).
Proof. unfold rb_snap_take. stable_tac. Qed.
Lemma st_snap_has t : st_ok (rb_snap_has t).
Proof. apply st_hostq. Qed.
Lemma st_snap_floor t : st_ok (rb_snap_floor t).
Proof. unfold rb_snap_floor. stable_tac. Qed.
Local Hint Resolve st_core_ask st_cover st_snap_take st_snap_has st_snap_floor : stable.
Lemma st_publish t b : st_ok (rb_publish t b).
Proof. unfold rb_publish. stable_tac. Qed.
Local Hint Resolve st_publish : stable.
Lemma st_load_rows t : st_ok (rb_load_sealed_rows t).
Proof. unfold rb_load_sealed_rows. stable_tac. Qed.
Local Hint Resolve st_load_rows : stable.
Lemma st_note t : st_ok (rb_replay_note t).
Proof. unfold rb_replay_note. stable_tac. Qed.
Local Hint Resolve st_note : stable.
Lemma st_count_resim : st_ok (count_resim).
Proof. unfold count_resim. stable_tac. Qed.
Local Hint Resolve st_count_resim : stable.
Lemma st_advance t : st_ok (rb_advance_sim t).
Proof. unfold rb_advance_sim. stable_tac. Qed.
Local Hint Resolve st_advance : stable.
Lemma st_resim_begin : st_ok (rb_resim_begin).
Proof. unfold rb_resim_begin. stable_tac. Qed.
Local Hint Resolve st_resim_begin : stable.
Lemma st_resim_end : st_ok (rb_resim_end).
Proof. unfold rb_resim_end. stable_tac. Qed.
Local Hint Resolve st_resim_end : stable.
Lemma st_stage_set s : st_ok (rb_stage_set s).
Proof. unfold rb_stage_set. stable_tac. Qed.
Local Hint Resolve st_stage_set : stable.
Lemma st_clear : st_ok (rb_episode_clear).
Proof. unfold rb_episode_clear. stable_tac. Qed.
Local Hint Resolve st_clear : stable.
Lemma st_restore : st_ok (rb_restore_tip).
Proof. unfold rb_restore_tip. stable_tac. Qed.
Local Hint Resolve st_restore : stable.
Lemma st_abort c : st_ok (rb_episode_abort c).
Proof. unfold rb_episode_abort. stable_tac. Qed.
Local Hint Resolve st_abort : stable.
Lemma st_lockstep : st_ok (rb_enter_lockstep).
Proof. unfold rb_enter_lockstep. stable_tac. Qed.
Local Hint Resolve st_lockstep : stable.
Lemma st_chunks n slot span off : st_ok (send_chunks_of n slot span off).
Proof.
  revert off. induction n as [|n IH]; intros off; cbn [send_chunks_of]; [stable_tac|].
  generalize (@send_chunks_of H Sc n) as rest, IH. clear IH n. intros rest IH. cbv zeta. stable_tac.
Qed.
Local Hint Resolve st_chunks : stable.
Lemma st_send_rows : st_ok (rb_send_local_seal_rows).
Proof. unfold rb_send_local_seal_rows. stable_tac. Qed.
Local Hint Resolve st_send_rows : stable.
Lemma st_forced : st_ok (forced_fork).
Proof. unfold forced_fork. stable_tac. Qed.
Local Hint Resolve st_forced : stable.
Lemma st_note_fork t m o p : st_ok (note_fork t m o p).
Proof. unfold note_fork. stable_tac. Qed.
Local Hint Resolve st_note_fork : stable.
Lemma st_base_fork m o : st_ok (baseline_fork m o).
Proof. unfold baseline_fork. stable_tac. Qed.
Local Hint Resolve st_base_fork : stable.
Lemma st_compare : st_ok (rb_baseline_try_compare).
Proof. unfold rb_baseline_try_compare. stable_tac. Qed.
Local Hint Resolve st_compare : stable.
Lemma st_send_base : st_ok (rb_send_baseline).
Proof. unfold rb_send_baseline. stable_tac. Qed.
Local Hint Resolve st_send_base : stable.
Lemma st_missing : st_ok (rb_replay_missing_abort).
Proof. unfold rb_replay_missing_abort. stable_tac. Qed.
Local Hint Resolve st_missing : stable.
Lemma st_finish : st_ok (rb_replay_finish).
Proof. unfold rb_replay_finish. stable_tac. Qed.
Local Hint Resolve st_finish : stable.
Lemma st_run_replay : st_ok (rb_run_replay).
Proof. unfold rb_run_replay, replay_rewound. stable_tac. Qed.
Local Hint Resolve st_run_replay : stable.
Lemma st_enter_verify : st_ok (rb_enter_verify).
Proof. unfold rb_enter_verify. stable_tac. Qed.
Local Hint Resolve st_enter_verify : stable.

Lemma rb_bridge_quiet hold : bridge_quiet (@on_drv H Sc R) (rb_bridge hold).
Proof.
  split; [apply st_now| |].
  - intros st x x' E Hx. unfold on_drv. simpl in *. eapply fr_session; [reflexivity|exact E|apply Hx].
  - intros st v. unfold on_drv. simpl. apply fr_delay. reflexivity.
Qed.
Lemma st_sched_call {A} hold (op : RNetSchedBridge (RbState H Sc) -> M (Sc * RbState H Sc) A) :
  stable (fun a b => on_drv R (snd a) (snd b)) (op (rb_bridge hold)) -> st_ok (sched_call hold op).
Proof.
  intros Hs s. unfold sched_call. specialize (Hs (r_sched s, s)).
  destruct (op _ _) as [a [sc st']]. simpl in *. exact Hs.
Qed.
Lemma st_sched_quiet {A} hold (op : RNetSchedBridge (RbState H Sc) -> M (Sc * RbState H Sc) A) :
  (forall br, sched_quiet br (op br)) -> st_ok (sched_call hold op).
Proof. intros Hop. apply st_sched_call, Hop; [apply _|apply rb_bridge_quiet]. Qed.
Lemma st_sched_note {A} (op : RNetSchedBridge (RbState H Sc) -> M (Sc * RbState H Sc) A) :
  (forall br, sched_quiet br (op br)) -> st_ok (sched_note op).
Proof. apply st_sched_quiet. Qed.
Lemma st_note_boundary : st_ok (sched_note sched_note_episode_boundary).
Proof. apply st_sched_note. intros. apply sf_boundary. Qed.
Lemma st_note_mispredict age : st_ok (sched_note (fun br => sched_note_mispredict br age)).
Proof. apply st_sched_note. intros. apply sf_mispredict. Qed.
Local Hint Resolve st_note_boundary st_note_mispredict : stable.

Lemma st_send_commit : st_ok (send_commit).
Proof. unfold send_commit. stable_tac. Qed.
Local Hint Resolve st_send_commit : stable.
Lemma st_commit : st_ok (rb_commit_episode).
Proof. unfold rb_commit_episode. stable_tac. Qed.
Local Hint Resolve st_commit : stable.
Lemma st_core_extend t : st_ok (core_extend t).
Proof. unfold core_extend. stable_tac. Qed.
Local Hint Resolve st_core_extend : stable.
Lemma st_tip_extend t s n : st_ok (rb_tip_extend t s n).
Proof. unfold rb_tip_extend. stable_tac. Qed.
Local Hint Resolve st_tip_extend : stable.
Lemma st_core_apply e b t s r l : st_ok (core_apply e b t s r l).
Proof. unfold core_apply. stable_tac. Qed.
Local Hint Resolve st_core_apply : stable.
Lemma st_early_seal_take : st_ok (rb_early_seal_take).
Proof. unfold rb_early_seal_take. stable_tac. Qed.
Local Hint Resolve st_early_seal_take : stable.
Lemma st_nack_begin e m l f s : st_ok (rb_nack_begin e m l f s).
Proof. unfold rb_nack_begin. stable_tac. Qed.
Local Hint Resolve st_nack_begin : stable.
Lemma st_send_nack e m l s : st_ok (rb_send_nack e m l s).
Proof. unfold rb_send_nack. stable_tac. Qed.
Local Hint Resolve st_send_nack : stable.
Lemma st_begin_repeat e : st_ok (rb_begin_repeat e).
Proof. unfold rb_begin_repeat. stable_tac. Qed.
Local Hint Resolve st_begin_repeat : stable.
Lemma st_initiator_span t : st_ok (initiator_span t).
Proof. unfold initiator_span. stable_tac. Qed.
Local Hint Resolve st_initiator_span : stable.
Lemma st_follower_span a b c d e : st_ok (follower_span a b c d e).
Proof. unfold follower_span. stable_tac. Qed.
Local Hint Resolve st_follower_span : stable.
Lemma st_announce a b c d e : st_ok (announce a b c d e).
Proof. unfold announce. stable_tac. Qed.
Local Hint Resolve st_announce : stable.
Lemma st_open_span_with a b c d e f (own : bool) :
  (own = true -> forall g d0 d, R d0 d -> R d0 (on_ep g d)) -> st_ok (open_span a b c d e f own).
Proof. intros Hown. unfold open_span. destruct own; [specialize (Hown eq_refl)|cbn [when]]; stable_tac.
  apply st_upd. intros. by apply Hown. Qed.
Lemma st_begin_with a b own c d e f :
  (own = true -> forall g d0 d, R d0 d -> R d0 (on_ep g d)) -> st_ok (rb_begin_episode a b own c d e f).
Proof.
  intros Hown. pose proof (fun m n o p q r => st_open_span_with m n o p q r own Hown).
  unfold rb_begin_episode. stable_tac.
Qed.
Lemma st_begin_follow a b c d e f : st_ok (rb_begin_episode a b false c d e f).
Proof. by apply st_begin_with. Qed.
Local Hint Resolve st_begin_follow : stable.
(** Opening an episode of our own. *)
Lemma st_open_own : (forall g d0 d, R d0 d -> R d0 (on_ep g d)) -> forall tick slot, st_ok (rb_open tick slot).
Proof. intros Hown tick slot. by apply st_begin_with. Qed.
Context (may_open : forall tick slot, st_ok (rb_open tick slot)).
Local Hint Resolve may_open : stable.
Lemma st_follow a b c d e f : st_ok (rb_follow_or_defer a b c d e f).
Proof. unfold rb_follow_or_defer. stable_tac. Qed.
Local Hint Resolve st_follow : stable.
Lemma st_defer_pump : st_ok (rb_defer_pump).
Proof. unfold rb_defer_pump. stable_tac. Qed.
Local Hint Resolve st_defer_pump : stable.
Lemma st_on_peer_baseline a b c d : st_ok (rb_on_peer_baseline a b c d).
Proof. unfold rb_on_peer_baseline. stable_tac. Qed.
Local Hint Resolve st_on_peer_baseline : stable.
Lemma st_sample_rtt : st_ok (sample_rtt).
Proof. unfold sample_rtt. stable_tac. Qed.
Local Hint Resolve st_sample_rtt : stable.
Lemma st_on_peer_post a b c d : st_ok (rb_on_peer_post a b c d).
Proof. unfold rb_on_peer_post. stable_tac. Qed.
Local Hint Resolve st_on_peer_post : stable.

(** Refusing the match, and the boot gate. *)
Lemma st_refuse_with :
  (forall c d0 d, R d0 d -> refusal d = None -> R d0 (on_boot (set_bt_refusal (Some c)) d)) ->
  forall c, st_ok (rb_refuse c).
Proof.
  intros Hr c s. unfold rb_refuse, bind, drv, gets. destruct (refusal (r_drv s)) eqn:E; [reflexivity|].
  unfold upd, hostu, modify, on_drv. simpl. apply fr_stall, Hr; [reflexivity|exact E].
Qed.
Context (may_refuse : forall c, st_ok (rb_refuse c)).
Local Hint Resolve may_refuse : stable.
Lemma st_boot_gate_with :
  (forall f d0 d, R d0 d -> (forall b, bt_refusal (f b) = bt_refusal b) -> R d0 (on_boot f d)) ->
  st_ok rb_boot_digest_gate.
Proof.
  intros Hb.
  assert (forall f, (forall b, bt_refusal (f b) = bt_refusal b) -> st_ok (upd (on_boot f))) as Hu.
  { intros f Hf. apply st_upd. intros. by apply Hb. }
  assert (st_ok (upd boot_collect)) as Hc.
  { apply st_upd. intros d0 d Hd. apply fr_hcs; [|done]. intros i e He.
    case_match; [done|]. case_match; [|done]. apply Hb; done. }
  assert (st_ok boot_local) as Hl.
  { unfold boot_local. stable_tac. apply Hu. done. }
  unfold rb_boot_digest_gate. stable_tac; apply Hu; done.
Qed.
Context (may_gate : st_ok rb_boot_digest_gate).
Local Hint Resolve may_gate : stable.
Lemma st_pre_admit_hold s w : st_ok (rb_gate_pre_admit_hold s w).
Proof. unfold rb_gate_pre_admit_hold. stable_tac. Qed.
Local Hint Resolve st_pre_admit_hold : stable.
Lemma st_modset_fail : st_ok (rb_modset_fail).
Proof. unfold rb_modset_fail. stable_tac. Qed.
Local Hint Resolve st_modset_fail : stable.
Lemma st_agreed : st_ok (modset_agreed).
Proof. unfold modset_agreed. stable_tac. Qed.
Local Hint Resolve st_agreed : stable.
Lemma st_deadline : st_ok (modset_deadline).
Proof. unfold modset_deadline. stable_tac. Qed.
Local Hint Resolve st_deadline : stable.
Lemma st_send_identity : st_ok (rb_send_identity).
Proof. unfold rb_send_identity. stable_tac. Qed.
Local Hint Resolve st_send_identity : stable.
Lemma st_quiesce_req : st_ok (rnet_rb_driver_request_quiesce).
Proof. unfold rnet_rb_driver_request_quiesce. stable_tac. Qed.
Local Hint Resolve st_quiesce_req : stable.
Lemma st_quiesce_send : st_ok (rb_quiesce_send).
Proof. unfold rb_quiesce_send. stable_tac. Qed.
Local Hint Resolve st_quiesce_send : stable.
Lemma st_quiesce_pump b : st_ok (rb_quiesce_pump b).
Proof. unfold rb_quiesce_pump. stable_tac. Qed.
Local Hint Resolve st_quiesce_pump : stable.
Lemma st_fc_request f m : st_ok (on_frame_commit_request f m).
Proof. unfold on_frame_commit_request. stable_tac. Qed.
Local Hint Resolve st_fc_request : stable.
Lemma st_rereplay m : st_ok (on_rereplay m).
Proof. unfold on_rereplay. stable_tac. Qed.
Local Hint Resolve st_rereplay : stable.
Lemma st_nack_msg m : st_ok (nack_msg m).
Proof. unfold nack_msg. stable_tac. Qed.
Local Hint Resolve st_nack_msg : stable.
Lemma st_note_begin m : st_ok (note_begin_seq m).
Proof. unfold note_begin_seq. stable_tac. Qed.
Local Hint Resolve st_note_begin : stable.
Lemma st_arb_open m : st_ok (arbitrate_open m).
Proof. unfold arbitrate_open. stable_tac. Qed.
Local Hint Resolve st_arb_open : stable.
Lemma st_arb_def m : st_ok (arbitrate_deferred m).
Proof. unfold arbitrate_deferred. stable_tac. Qed.
Local Hint Resolve st_arb_def : stable.
Lemma st_on_begin m : st_ok (on_begin m).
Proof. unfold on_begin. stable_tac. Qed.
Local Hint Resolve st_on_begin : stable.
Lemma st_on_nack m : st_ok (on_nack m).
Proof. unfold on_nack. stable_tac. Qed.
Local Hint Resolve st_on_nack : stable.
Lemma st_on_abort m : st_ok (on_abort m).
Proof. unfold on_abort. stable_tac. Qed.
Local Hint Resolve st_on_abort : stable.
Lemma st_on_ident f m : st_ok (on_ident f m).
Proof. unfold on_ident. stable_tac. Qed.
Local Hint Resolve st_on_ident : stable.
Lemma st_on_commit f m : st_ok (on_commit f m).
Proof. unfold on_commit. stable_tac. Qed.
Local Hint Resolve st_on_commit : stable.
Lemma st_on_quiesce f m : st_ok (on_quiesce f m).
Proof. unfold on_quiesce. stable_tac. Qed.
Local Hint Resolve st_on_quiesce : stable.
Lemma st_on_sync m : st_ok (on_sync m).
Proof. unfold on_sync. stable_tac. Qed.
Local Hint Resolve st_on_sync : stable.
Lemma st_on_seal m : st_ok (on_seal_rows m).
Proof. unfold on_seal_rows. stable_tac. Qed.
Local Hint Resolve st_on_seal : stable.
Lemma st_on_base m : st_ok (on_baseline m).
Proof. unfold on_baseline. stable_tac. Qed.
Local Hint Resolve st_on_base : stable.
Lemma st_on_post m : st_ok (on_post m).
Proof. unfold on_post. stable_tac. Qed.
Local Hint Resolve st_on_post : stable.
Lemma st_on_fc m : st_ok (on_peer_frame_commit m).
Proof. unfold on_peer_frame_commit. stable_tac. Qed.
Local Hint Resolve st_on_fc : stable.
Lemma st_expired : st_ok (rb_stage_expired).
Proof. unfold rb_stage_expired. stable_tac. Qed.
Local Hint Resolve st_expired : stable.
Lemma st_begin_resend : st_ok (rb_begin_resend).
Proof. unfold rb_begin_resend. stable_tac. Qed.
Local Hint Resolve st_begin_resend : stable.
Lemma st_post_resend : st_ok (rb_post_resend).
Proof. unfold rb_post_resend. stable_tac. Qed.
Local Hint Resolve st_post_resend : stable.
Lemma st_pump_seal : st_ok (pump_sealing).
Proof. unfold pump_sealing. stable_tac. Qed.
Local Hint Resolve st_pump_seal : stable.
Lemma st_post_fork b : st_ok (post_fork b).
Proof. unfold post_fork. stable_tac. Qed.
Local Hint Resolve st_post_fork : stable.
Lemma st_pump_verify : st_ok (pump_verifying).
Proof. unfold pump_verifying. stable_tac. Qed.
Local Hint Resolve st_pump_verify : stable.
Lemma st_pump_hold : st_ok (pump_tip_hold).
Proof. unfold pump_tip_hold. stable_tac. Qed.
Local Hint Resolve st_pump_hold : stable.
Lemma st_pump : st_ok (rb_pump_episode).
Proof. unfold rb_pump_episode. stable_tac. Qed.
Local Hint Resolve st_pump : stable.
Lemma st_mispredict a : st_ok (note_mispredict a).
Proof. unfold note_mispredict. stable_tac. Qed.
Local Hint Resolve st_mispredict : stable.
Lemma st_owed_lost t s : st_ok (rb_owed_lost t s).
Proof. unfold rb_owed_lost. stable_tac. Qed.
Local Hint Resolve st_owed_lost : stable.
Lemma st_retry t s : st_ok (retry_owed t s).
Proof. unfold retry_owed. stable_tac. Qed.
Local Hint Resolve st_retry : stable.
Lemma st_late t s : 0 <= s < RNET_RB_MAX_SLOTS -> st_ok (apply_late t s).
Proof. intros. unfold apply_late. stable_tac. Qed.
Local Hint Resolve st_late : stable.
Lemma st_rec_row s t : 0 <= s < RNET_RB_MAX_SLOTS -> st_ok (reconcile_row s t).
Proof. intros. unfold reconcile_row. stable_tac. Qed.
Local Hint Resolve st_rec_row : stable.
Lemma st_rec_seats (keep : Z -> bool) (ticks : list Z) d :
  st_ok (first_of (List.filter keep (seqZ 0 (rb_slot_count d))) (fun slot => first_of ticks (reconcile_row slot))).
Proof.
  apply stable_first_of; [apply _|]. intros slot Hs.
  assert (0 <= slot < RNET_RB_MAX_SLOTS) by by eapply filter_seat. stable_tac.
Qed.
Local Hint Resolve st_rec_seats : stable.
Lemma st_reconcile : st_ok (rb_reconcile_wire).
Proof. unfold rb_reconcile_wire. stable_tac. Qed.
Local Hint Resolve st_reconcile : stable.
Lemma st_chain_p i t : st_ok (chain_pending i t).
Proof. unfold chain_pending. stable_tac. Qed.
Local Hint Resolve st_chain_p : stable.
Lemma st_chain_s i t : st_ok (chain_pending_since i t).
Proof. unfold chain_pending_since. stable_tac. Qed.
Local Hint Resolve st_chain_s : stable.
Lemma st_check_chain a b c i : 0 <= i < RNET_RB_MAX_SLOTS -> st_ok (check_chain a b c i).
Proof. intros. unfold check_chain. stable_tac. Qed.
Lemma st_check_chains a b c m : st_ok (first_of (seats_of m) (check_chain a b c)).
Proof. apply stable_first_of; [apply _|]. intros i Hi. by eapply st_check_chain, seats_range. Qed.
Local Hint Resolve st_check_chains : stable.
Lemma st_chain_fork : st_ok (rb_check_chain_fork).
Proof. unfold rb_check_chain_fork. stable_tac. Qed.
Local Hint Resolve st_chain_fork : stable.
Lemma st_replay_step : st_ok (rb_replay_step).
Proof. unfold rb_replay_step. stable_tac. Qed.
Local Hint Resolve st_replay_step : stable.
Lemma st_use_row s r : st_ok (use_row s r).
Proof. unfold use_row. stable_tac. Qed.
Local Hint Resolve st_use_row : stable.
Lemma st_admit_local s w : st_ok (admit_local s w).
Proof. unfold admit_local. stable_tac. Qed.
Local Hint Resolve st_admit_local : stable.
Lemma st_inject s : st_ok (inject s).
Proof. unfold inject. stable_tac. Qed.
Local Hint Resolve st_inject : stable.
Lemma st_stall g : st_ok (stall g).
Proof. unfold stall. stable_tac. Qed.
Local Hint Resolve st_stall : stable.
Lemma st_fin_replay : st_ok (finish_replay_tick).
Proof. unfold finish_replay_tick. stable_tac. Qed.
Local Hint Resolve st_fin_replay : stable.
Lemma st_lock_tick : st_ok (rb_lockstep_tick).
Proof. unfold rb_lockstep_tick. stable_tac. Qed.
Local Hint Resolve st_lock_tick : stable.

Lemma fr_age_out d0 d :
  R d0 d ->
  R d0 (if negb (RNET_INPUT_HIST_DEPTH + 1 <? d_sim d) then d else
    let t := d_sim d - RNET_INPUT_HIST_DEPTH - 1 in
    let i := t mod RNET_INPUT_HIST_DEPTH in
    if owed_at d t
    then set_d_lost (d_lost d ++ [(t, rd (-1) (d_owed_slot d) i)]) (set_d_owed_slot (wr (d_owed_slot d) i (-1)) d)
    else d).
Proof. intros. case_match; [done|]. cbv zeta. case_match; [by apply fr_aged|done]. Qed.
Lemma st_age_out : st_ok age_out.
Proof. apply st_upd, fr_age_out. Qed.
Lemma st_fin_frame : st_ok (rnet_rb_driver_finish_frame).
Proof. pose proof st_age_out. unfold rnet_rb_driver_finish_frame. stable_tac. Qed.

(** ** Calls that also take messages from the session or let it sample

    These respect a frame that does not look at the session's contents. *)

Context (any_session : forall s d0 d, R d0 d -> R d0 (set_d_session (Some s) d)).
Context (check : option (list Z -> Z * option (list Z))) (junk : list Z).

Lemma st_any_sess {A} (x : A) f : st_ok (sess x f).
Proof.
  intros s. unfold sess. destruct (rb_session (r_drv s)); [|reflexivity]. destruct (f _).
  apply any_session. reflexivity.
Qed.
Local Hint Resolve st_any_sess : stable.
Lemma st_drain_wire : st_ok rb_drain_wire.
Proof. unfold rb_drain_wire. stable_tac. Qed.
Lemma st_modset_acks n : st_ok (modset_acks n).
Proof.
  induction n as [|n IH]; cbn [modset_acks]; [stable_tac|].
  generalize dependent (@modset_acks H Sc _ n). intros rest IH. stable_tac.
Qed.
Local Hint Resolve st_drain_wire st_modset_acks : stable.
Lemma st_modset_host : st_ok modset_host.
Proof. unfold modset_host. stable_tac. Qed.
Lemma st_modset_guest : st_ok (modset_guest check junk).
Proof. unfold modset_guest. stable_tac. Qed.
Local Hint Resolve st_modset_host st_modset_guest : stable.
Lemma st_modset_pump : st_ok (rb_modset_pump check junk).
Proof. unfold rb_modset_pump. stable_tac. Qed.
Lemma st_prepare_tip : st_ok prepare_tip.
Proof. unfold prepare_tip. stable_tac. Qed.
Local Hint Resolve st_modset_pump st_prepare_tip : stable.
Lemma st_sched_sync : st_ok (rb_sched sched_sync_delay_from_session).
Proof. apply st_sched_quiet. intros. apply sf_sync. Qed.
Lemma st_sched_pre sim wire st : st_ok (rb_sched (fun br => sched_pre_admit br sim wire st)).
Proof.
  apply st_sched_call, sf_pre_admit; [apply _|]. split; [apply rb_bridge_quiet|].
  intros. apply st_pre_admit_hold.
Qed.
Lemma st_sched_miss slot sim wire st cap : st_ok (rb_sched (fun br => sched_on_remote_miss br slot sim wire st cap)).
Proof. apply st_sched_quiet. intros. apply sf_miss. Qed.
Lemma st_sched_hit : st_ok (rb_sched sched_note_remote_hit).
Proof. apply st_sched_quiet. intros. apply sf_hit. Qed.
Lemma st_sched_post b : st_ok (rb_sched (fun br => sched_post_admit br b)).
Proof. apply st_sched_quiet. intros. apply sf_post. Qed.
Local Hint Resolve st_sched_sync st_sched_pre st_sched_miss st_sched_hit st_sched_post : stable.
Lemma st_admit_missing slot wire st : st_ok (admit_missing slot wire st).
Proof. unfold admit_missing. stable_tac. Qed.
Local Hint Resolve st_admit_missing : stable.
Lemma st_admit_seat wire st slot : st_ok (admit_seat wire st slot).
Proof. unfold admit_seat. stable_tac. Qed.
Local Hint Resolve st_admit_seat : stable.
Lemma st_admit_seats wire st any slots : st_ok (admit_seats wire st any slots).
Proof.
  revert any. induction slots as [|x r IH]; intros any; cbn [admit_seats]; [stable_tac|].
  generalize dependent (@admit_seats H Sc _ _ wire st). intros rest IH. stable_tac.
Qed.
Local Hint Resolve st_admit_seats : stable.
Lemma st_sched_only f : st_ok (modify (fun x : RbState H Sc => mkRbState (r_drv x) (r_host x) (f (r_sched x)))).
Proof. intros s. apply (reflexivity (R := R)). Qed.
Lemma st_stall_tag f : st_ok (fun x : RbState H Sc => upd (set_d_stall_tag (f (r_sched x))) x).
Proof. intros s. unfold on_drv. simpl. apply fr_stall. reflexivity. Qed.
Lemma st_admit_live : st_ok admit_live.
Proof.
  pose proof (st_sched_only sched_clear_admit_stall). pose proof (st_stall_tag sched_admit_stall_tag).
  unfold admit_live. stable_tac.
Qed.
Lemma st_poll_pumps : st_ok (poll_pumps check junk).
Proof. unfold poll_pumps. stable_tac. Qed.
Local Hint Resolve st_admit_live st_poll_pumps : stable.
Lemma st_poll_admit : st_ok (rnet_rb_driver_poll_admit check junk).
Proof. unfold rnet_rb_driver_poll_admit. stable_tac. Qed.
End Frames.
