(* ===== verification/DriverDemo.v ===== *)
(** * A concrete match

    A small host and the simplest scheduler the driver can run under - it asks
    the gates and never paces - with a started driver on them, for evaluating
    the driver on concrete inputs. *)

From stdpp Require Import base list numbers list_numbers strings.
From S2P Require Import Prelude StateM Protocol Config Rings Contract Rollback InputHist HashConfirm CtrlQueue Session SessionState SessionMain SessionProofs SessionStats DriverData Driver DriverEpisode DriverWire DriverMain DriverFrame.

(** ** The host: a counter for a machine, and every snapshot kept *)

Record toy_host := mkToy { toy_state : Z; toy_snaps : list (Z * Z); toy_now : Z; toy_rows : list RNetRbFrame }.

Definition toy_find (h : toy_host) (t : Z) : option Z := snd <$> find (fun p => fst p =? t) (toy_snaps h).
Definition toy_host_ops : RbHost toy_host := {|
  host_snap_save t h := (true, mkToy (toy_state h) ((t, toy_state h) :: toy_snaps h) (toy_now h) (toy_rows h));
  host_snap_load t h := match toy_find h t with
                        | Some m => (true, mkToy m (toy_snaps h) (toy_now h) (toy_rows h))
                        | None => (false, h)
                        end;
  host_snap_has h t := bool_decide (is_Some (toy_find h t));
  host_snap_oldest h := match toy_snaps h with
                        | [] => None
                        | l => Some (fold_left Z.min (map fst l) UINT32_MAX)
                        end;
  host_snap_drop_after t h :=
    mkToy (toy_state h) (List.filter (fun p => fst p <=? t) (toy_snaps h)) (toy_now h) (toy_rows h);
  host_publish _ rows _ _ h := mkToy (toy_state h) (toy_snaps h) (toy_now h) rows;
  host_run_tick _ h :=
    (true, mkToy (fold_left (fun s r => u32 (3 * s + rf_buttons r + 1)) (toy_rows h) (toy_state h))
             (toy_snaps h) (toy_now h) (toy_rows h));
  host_resim_begin h := h;
  host_resim_end h := h;
  host_digest_master := toy_state;
  host_digest_parts h := mkParts (toy_state h) [toy_state h; 0; 0];
  host_decode_sample _ x f := mkRbFrame (rf_tick f) (rd 0 (is_bytes x) 0) 0 0 0 1 0 0 0;
  host_sanitize_row _ f := f;
  host_neutral_row _ f := f;
  host_admit_sample _ _ _ h := h;
  host_boot_digest_noted h := h;
  host_request_return_to_lobby h := h;
  host_now_ms h := (toy_now h, h)
|}.
#[export] Existing Instance toy_host_ops.

(** ** The scheduler *)

Definition plain_sched_ops : SchedOps unit := {|
  sched_reset_session sc := sc;
  sched_real_delay_enabled _ := true;
  sched_admit_stall_tag _ := None;
  sched_clear_admit_stall sc := sc;
  sched_sync_delay_from_session _ _ := ret tt;
  sched_pre_admit _ br sim wire _ := fun x =>
    let '(tag, d) := gt_pre_admit_hold br sim wire (snd x) in (bool_decide (is_Some tag), (fst x, d));
  sched_on_remote_miss _ br _ _ _ _ _ := fun x =>
    if gt_lockstep_no_invent br (snd x) then ((true, (fun tag => tag (snd x)) <$> gt_lockstep_stall_tag br), x) else ((false, None), x);
  sched_note_remote_hit _ _ := ret tt;
  sched_post_admit _ _ _ := ret tt;
  sched_note_mispredict _ _ _ := ret tt;
  sched_note_episode_boundary _ _ := ret tt
|}.
#[export] Existing Instance plain_sched_ops.
#[export] Instance plain_sched_frame : SchedFrame unit.
Proof.
  split; intros; simpl.
  all: try (intros R HR _ x; apply (reflexivity (R := R))).
  - intros R HR [_ Hh] [sc d]. simpl. specialize (Hh sim wire d). destruct (gt_pre_admit_hold _ _ _ _). exact Hh.
  - intros sc d E R HR Hq. simpl in *. destruct (gt_pre_admit_hold br sim wire d) as [[tag|] d'] eqn:Eg; [done|].
    exists d, d'. split; [reflexivity|]. split; [exact Eg|reflexivity].
  - intros R HR _ x. destruct (gt_lockstep_no_invent _ _); apply (reflexivity (R := R)).
  - by rewrite H0.
Qed.

(** ** A started driver in seat 0 of a two-seat match *)

Definition demo_driver_cfg : RNetRbDriverConfig :=
  mkDcfg true (Some 0) (Some 2) (Some 2) None 0 0 REPLAY_INLINE [None; None; None] 16 None 0.
Definition demo_match : RbState toy_host unit := Eval vm_compute in
  snd (rnet_rb_driver_start (fun _ => None) demo_driver_cfg (Some demo_running) true true true true
         (mkRbState zero_driver (mkToy 0 [] 1 []) tt)).
Example demo_match_started : d_started (r_drv demo_match) = true /\ rb_expect_mask (r_drv demo_match) = 2.
Proof. split; reflexivity. Qed.

(** The first tick is admitted live; the second waits for the peer's digest. *)
Example demo_first_ticks :
  fst (rnet_rb_driver_poll_admit None [] demo_match) = RNET_RB_ADMIT_LIVE /\
  let st := snd (rnet_rb_driver_finish_frame (snd (rnet_rb_driver_poll_admit None [] demo_match))) in
  fst (rnet_rb_driver_poll_admit None [] st) = RNET_RB_ADMIT_STALL.
Proof. split; vm_compute; reflexivity. Qed.

(** The session after seat 1 announced digest [h] for tick 0. *)
Definition demo_announced (h : Z) : RNetSession :=
  rnet_session_set_rb_peer_slot 1
    (handle_decoded (set_p_rb_state_hash h (set_p_rb_through_tick 0 (demo_packet RNET_PKT_RB_FRAME_COMMIT 1))) demo_running).

Definition on_match (f : RNetRbDriver -> RNetRbDriver) : RbState toy_host unit :=
  mkRbState (f (r_drv demo_match)) (r_host demo_match) tt.
