(* ===== verification/DriverLive.v ===== *)
(** * A live tick of the rollback driver

    What the admission of a live tick leaves alone once nothing else owns the
    machine, and what its answer says about the gates it passed. *)

From stdpp Require Import base list numbers list_numbers strings.
From S2P Require Import Prelude StateM Protocol Config Rings Contract Rollback InputHist HashConfirm CtrlQueue Session SessionState SessionMain SessionStats DriverData Driver DriverEpisode DriverWire DriverMain DriverFrame.

(** The seats of a match: everything of the configuration but the delay. *)
Definition seats_cfg (c : RNetRbDriverConfig) : RNetRbDriverConfig := set_dc_input_delay None c.

(** The parts of the driver an admission only reads. *)
Record live_same (d d' : RNetRbDriver) : Prop := {
  ls_cfg : seats_cfg (d_cfg d') = seats_cfg (d_cfg d);
  ls_ep : d_ep d' = d_ep d;
  ls_boot : d_boot d' = d_boot d;
  ls_fork : d_fork d' = d_fork d;
  ls_sim : d_sim d' = d_sim d;
  ls_started : d_started d' = d_started d;
  ls_hold : d_hold_active d' = d_hold_active d;
  ls_allow : kn_allow_boot_fork (d_knobs d') = kn_allow_boot_fork (d_knobs d);
  ls_pinned : kn_lockstep_pinned (d_knobs d') = kn_lockstep_pinned (d_knobs d)
}.
#[export] Instance live_same_pre : PreOrder live_same.
Proof.
  split; [by split|]. intros a b c [] []. split; etransitivity; eassumption.
Qed.

Lemma cfg_expect d d' : seats_cfg (d_cfg d') = seats_cfg (d_cfg d) -> rb_expect_mask d' = rb_expect_mask d.
Proof.
  intros E.
  assert (dc_slot_count (d_cfg d') = dc_slot_count (d_cfg d)) as E1 by exact (f_equal dc_slot_count E).
  assert (dc_local_slot (d_cfg d') = dc_local_slot (d_cfg d)) as E2 by exact (f_equal dc_local_slot E).
  assert (dc_occupied_mask (d_cfg d') = dc_occupied_mask (d_cfg d)) as E3 by exact (f_equal dc_occupied_mask E).
  unfold rb_expect_mask, rb_slot_count, rb_local_slot. by rewrite E1, E2, E3.
Qed.
Lemma live_expect d d' : live_same d d' -> rb_expect_mask d' = rb_expect_mask d.
Proof. intros []. by apply cfg_expect. Qed.
Lemma live_no_invent d d' : live_same d d' -> rb_gate_lockstep_no_invent d' = rb_gate_lockstep_no_invent d.
Proof. intros []. unfold rb_gate_lockstep_no_invent. congruence. Qed.

Section Live.
Context {H Sc : Type} `{RbHost H} `{SF : SchedFrame Sc}.
Notation P := (M (RbState H Sc)).
Notation st_ok m := (stable (@on_drv H Sc live_same) m).

Lemma lv_drv {A} (f : RNetRbDriver -> A) : st_ok (drv f).
Proof. intros s. reflexivity. Qed.
Lemma lv_host {A} (f : H -> A * H) : st_ok (hostm f).
Proof. intros s. unfold hostm, on_drv. destruct (f (r_host s)). reflexivity. Qed.
Lemma lv_hostu (f : H -> H) : st_ok (hostu f).
Proof. intros s. apply (reflexivity (R := live_same)). Qed.
Lemma lv_upd f : (forall d, live_same d (f d)) -> st_ok (upd f).
Proof. intros Hf s. apply Hf. Qed.
Lemma lv_sess {A} (x : A) f : st_ok (sess x f).
Proof.
  intros s. unfold sess. destruct (rb_session (r_drv s)); [|reflexivity].
  destruct (f _). unfold on_drv. by split.
Qed.
Lemma lv_wire t : st_ok (rb_wire t).
Proof. intros s. reflexivity. Qed.
Lemma lv_bridge hold : bridge_quiet (@on_drv H Sc live_same) (rb_bridge hold).
Proof. split; [apply lv_host| |]; intros; unfold on_drv; simpl; by split. Qed.
Lemma lv_sched {A} (op : RNetSchedBridge (RbState H Sc) -> M (Sc * RbState H Sc) A) :
  (forall br, sched_quiet br (op br)) -> st_ok (rb_sched op).
Proof.
  intros Hop s. unfold rb_sched, sched_call.
  specialize (Hop (rb_bridge rb_gate_pre_admit_hold) (on_drv live_same) _ (lv_bridge _) (r_sched s, s)).
  destruct (op _ _) as [a [sc st']]. exact Hop.
Qed.

Local Hint Resolve lv_drv lv_host lv_hostu lv_sess lv_wire : stable.
Local Hint Extern 3 (stable _ (upd _)) =>
  apply lv_upd; intros; repeat (match goal with |- live_same _ (if ?b then _ else _) => destruct b
    | |- live_same _ (match ?o with _ => _ end) => destruct o end); by split : stable.

Lemma lv_use_row slot row : st_ok (use_row slot row).
Proof. unfold use_row, ih_put. stable_tac. Qed.
Local Hint Resolve lv_use_row : stable.
Lemma lv_admit_local slot wire : st_ok (admit_local slot wire).
Proof. unfold admit_local, sessq. stable_tac. Qed.
Lemma lv_inject slot : st_ok (inject slot).
Proof. unfold inject. stable_tac. Qed.
Lemma lv_hit : st_ok (rb_sched sched_note_remote_hit).
Proof. apply lv_sched. intros. apply sf_hit. Qed.
Lemma lv_miss slot sim wire st cap : st_ok (rb_sched (fun br => sched_on_remote_miss br slot sim wire st cap)).
Proof. apply lv_sched. intros. apply sf_miss. Qed.
Lemma lv_sync : st_ok (rb_sched sched_sync_delay_from_session).
Proof. apply lv_sched. intros. apply sf_sync. Qed.
Lemma lv_post b : st_ok (rb_sched (fun br => sched_post_admit br b)).
Proof. apply lv_sched. intros. apply sf_post. Qed.
Local Hint Resolve lv_admit_local lv_inject lv_hit lv_miss lv_sync lv_post : stable.
Lemma lv_missing slot wire st : st_ok (admit_missing slot wire st).
Proof. unfold admit_missing. stable_tac. Qed.
Local Hint Resolve lv_missing : stable.
Lemma lv_seat wire st slot : st_ok (admit_seat wire st slot).
Proof. unfold admit_seat. stable_tac. Qed.
Local Hint Resolve lv_seat : stable.
Lemma lv_seats wire st any slots : st_ok (admit_seats wire st any slots).
Proof.
  revert any. induction slots as [|x r IH]; intros any; cbn [admit_seats]; [stable_tac|].
  generalize dependent (@admit_seats H Sc _ _ wire st). intros rest IH. stable_tac.
Qed.
Lemma lv_prepare : st_ok prepare_tip.
Proof. unfold prepare_tip. stable_tac. Qed.
Lemma lv_snap t : st_ok (rb_snap_take t).
Proof. unfold rb_snap_take. stable_tac. Qed.
Lemma lv_publish t b : st_ok (rb_publish t b).
Proof. unfold rb_publish. stable_tac. Qed.
Lemma lv_clear_stall f : st_ok (modify (fun x : RbState H Sc => mkRbState (r_drv x) (r_host x) (f (r_sched x)))).
Proof. intros s. apply (reflexivity (R := live_same)). Qed.

(** One step of an admission, carrying what it left alone. *)
Lemma wp_live {A B} (m : P A) (k : A -> P B) Q s d0 :
  st_ok m -> live_same d0 (r_drv s) ->
  (forall a s', live_same d0 (r_drv s') -> wp (k a) Q s') -> wp (bind m k) Q s.
Proof.
  intros Hm Hd Hk. apply wp_bind. specialize (Hm s). unfold wp at 1. apply Hk.
  etransitivity; [exact Hd|exact Hm].
Qed.
End Live.
