(* ===== verification/DriverBoot.v ===== *)
(** * The verdicts of a match: refusal and the boot-digest gate

    A refused match admits no live tick again, and the first tick of a match
    is admitted only once every peer's tick-0 digest is known to equal ours. *)

From stdpp Require Import base list numbers list_numbers strings.
From S2P Require Import Prelude StateM Protocol Config Rings Contract Rollback InputHist HashConfirm CtrlQueue Session SessionState SessionMain SessionStats DriverData Driver DriverEpisode DriverWire SessionProofs DriverMain DriverFrame DriverDemo DriverLive.

(** ** What the driver is asked, in any order *)

Inductive rb_event (H : Type) : Type :=
| EvPoll
| EvFinish
| EvQuiesce
| EvHold (tick : Z)
| EvRelease
| EvSession (s : RNetSession)
| EvHost (h : H).
Arguments EvPoll {H}. Arguments EvFinish {H}. Arguments EvQuiesce {H}. Arguments EvHold {H}.
Arguments EvRelease {H}. Arguments EvSession {H}. Arguments EvHost {H}.

Section Run.
Context {H Sc : Type} `{RbHost H} `{SchedOps Sc}.
Context (check : option (list Z -> Z * option (list Z))) (junk : list Z).
Notation P := (M (RbState H Sc)).

(** Between two calls the session may have been pumped and the host may have
    moved on: both may be anything. The answer of a poll is kept. *)
Definition rb_step (e : rb_event H) : P (list RNetRbAdmit) :=
  match e with
  | EvPoll => do a <- rnet_rb_driver_poll_admit check junk; ret [a]
  | EvFinish => do! rnet_rb_driver_finish_frame; ret []
  | EvQuiesce => do! rnet_rb_driver_request_quiesce; ret []
  | EvHold t => do! upd (rnet_rb_driver_set_hold t); ret []
  | EvRelease => do! upd rnet_rb_driver_clear_hold; ret []
  | EvSession s => do! sessu (fun _ => s); ret []
  | EvHost h => do! hostu (fun _ => h); ret []
  end.

Fixpoint rb_run (evs : list (rb_event H)) : P (list RNetRbAdmit) :=
  match evs with
  | [] => ret []
  | e :: r => do a <- rb_step e; do b <- rb_run r; ret (a ++ b)
  end.
End Run.

(** Every frame that does not look into the session covers every run. *)
Section RunFrame.
Context {H Sc : Type} `{RbHost H} `{SF : SchedFrame Sc}.
Context (R : RNetRbDriver -> RNetRbDriver -> Prop) `{FR : !Frame R}.
Context (may_open : forall tick slot, stable (@on_drv H Sc R) (rb_open tick slot)).
Context (may_refuse : forall c, stable (@on_drv H Sc R) (rb_refuse c)).
Context (may_gate : stable (@on_drv H Sc R) rb_boot_digest_gate).
Context (any_session : forall s d0 d, R d0 d -> R d0 (set_d_session (Some s) d)).
Context (check : option (list Z -> Z * option (list Z))) (junk : list Z).

Lemma st_step e : stable (@on_drv H Sc R) (rb_step check junk e).
Proof.
  destruct e; apply stable_bind; try apply _; try (intros; apply stable_ret, _).
  - by apply st_poll_admit.
  - by apply st_fin_frame.
  - by apply st_quiesce_req.
  - apply st_upd; [apply _|]. intros. by apply fr_hold_at, fr_hold.
  - apply st_upd; [apply _|]. intros. unfold rnet_rb_driver_clear_hold. case_match; [by apply fr_hold|done].
  - unfold sessu. by apply st_any_sess.
  - by apply st_hostu.
Qed.
Lemma st_run evs : stable (@on_drv H Sc R) (rb_run check junk evs).
Proof.
  induction evs as [|e r IH]; [apply stable_ret, _|]. cbn [rb_run].
  apply stable_bind; [apply _|apply st_step|]. intros a.
  apply stable_bind; [apply _|apply IH|]. intros b. apply stable_ret, _.
Qed.
End RunFrame.

(** ** The refusal latch *)

Definition refusal_kept (d0 d : RNetRbDriver) : Prop :=
  match refusal d0 with Some c => refusal d = Some c | None => True end.
#[export] Instance refusal_kept_frame : Frame refusal_kept.
Proof.
  assert (forall d0 d e, refusal_kept d0 d -> refusal e = refusal d -> refusal_kept d0 e) as Hk.
  { unfold refusal_kept. intros d0 d e Hd He. destruct (refusal d0); congruence. }
  assert (forall load target d, d_boot (rb_owed_clear_span load target d) = d_boot d) as Hc.
  { intros load target d. unfold rb_owed_clear_span, for_range. case_match; [done|].
    generalize (seqZ load (target + 1 - load)). intros l. revert d.
    induction l as [|t l IH]; intros d; [done|]. cbn [fold_left]. rewrite IH.
    unfold rb_owed_clear. by case_match. }
  split; try (intros; eapply Hk; [eassumption|reflexivity]).
  - split; [intros d; unfold refusal_kept; by case_match|].
    unfold refusal_kept. intros a b c. destruct (refusal a); [|done]. intros ->. done.
  - intros f d0 d Hd Hf. eapply Hk; [eassumption|]. specialize (Hf (d_boot d)). unfold boot_core in Hf.
    injection Hf. auto.
  - intros load target d0 d Hd. eapply Hk; [eassumption|]. unfold refusal. simpl. by rewrite Hc.
  - intros t slot d0 d Hd. eapply Hk; [eassumption|]. unfold refusal. simpl. by rewrite Hc.
Qed.

Section Refused.
Context {H Sc : Type} `{RbHost H} `{SF : SchedFrame Sc}.
Context (check : option (list Z -> Z * option (list Z))) (junk : list Z).
Notation ok m := (stable (@on_drv H Sc refusal_kept) m).

Lemma kept_open tick slot : ok (rb_open tick slot).
Proof. apply st_open_own; [apply _|]. intros g d0 d Hd. exact Hd. Qed.
Lemma kept_refuse c : ok (rb_refuse c).
Proof.
  apply st_refuse_with; [apply _|]. unfold refusal_kept. intros c' d0 d Hd E.
  destruct (refusal d0); congruence.
Qed.
Lemma kept_gate : ok rb_boot_digest_gate.
Proof.
  apply st_boot_gate_with; [apply _|apply kept_refuse|]. unfold refusal_kept, refusal.
  intros f d0 d Hd Hf. destruct (bt_refusal (d_boot d0)); [|done]. simpl. by rewrite Hf.
Qed.
Lemma kept_session s d0 d : refusal_kept d0 d -> refusal_kept d0 (set_d_session (Some s) d).
Proof. exact id. Qed.

Lemma kept_pumps : ok (poll_pumps check junk).
Proof. apply st_poll_pumps; [apply _|apply kept_open|apply kept_refuse|apply kept_session]. Qed.
Lemma kept_step e : ok (rb_step check junk e).
Proof. apply st_step; [apply _|apply kept_open|apply kept_refuse|apply kept_gate|apply kept_session]. Qed.

(** A poll answers LIVE only by the live admission, and only while the match
    is not refused. *)
Lemma replay_step_not_live s : fst (@rb_replay_step H Sc _ s) <> RNET_RB_ADMIT_LIVE.
Proof.
  pattern (fst (@rb_replay_step H Sc _ s)).
  change (wp rb_replay_step (fun a _ => a <> RNET_RB_ADMIT_LIVE) s). unfold rb_replay_step.
  repeat (apply wp_bind; apply wp_any; intros ? ?). case_match.
  all: repeat (apply wp_bind; apply wp_any; intros ? ?); by apply wp_ret.
Qed.
Lemma poll_live s :
  wp (rnet_rb_driver_poll_admit check junk) (fun a s' => a = RNET_RB_ADMIT_LIVE ->
    let s1 := snd (poll_pumps check junk s) in
    d_started (r_drv s) = true /\ refusal (r_drv s1) = None /\ admit_live s1 = (RNET_RB_ADMIT_LIVE, s')) s.
Proof.
  unfold rnet_rb_driver_poll_admit. apply wp_bind, wp_gets. simpl.
  destruct (d_started (r_drv s)) eqn:Es; [|done]. simpl. destruct (rb_session (r_drv s)); [|done].
  case_bool_decide; [intros E; by apply replay_step_not_live in E|].
  destruct (running _); simpl.
  2: { apply wp_bind, wp_any. intros _ ?. apply wp_bind, wp_any. intros _ ?. done. }
  apply wp_bind. unfold wp at 1. set (s1 := snd (poll_pumps check junk s)).
  apply wp_bind, wp_gets. simpl.
  assert (wp admit_live (fun a s' => a = RNET_RB_ADMIT_LIVE -> admit_live s1 = (RNET_RB_ADMIT_LIVE, s')) s1) as Hl.
  { unfold wp. intros E. by rewrite (surjective_pairing (admit_live s1)), E. }
  assert (wp rb_replay_step (fun a _ => a <> RNET_RB_ADMIT_LIVE) s1) as Hr by apply replay_step_not_live.
  destruct (stage (r_drv s1)); try done; try (intros E; by apply Hr in E).
  all: destruct (refusal (r_drv s1)) eqn:Er; [done|]; simpl; case_match; [done|].
  all: intros E; repeat split; by apply Hl.
Qed.
Lemma refused_no_live s c :
  refusal (r_drv s) = Some c -> fst (rnet_rb_driver_poll_admit check junk s) <> RNET_RB_ADMIT_LIVE.
Proof.
  intros Hc E. pose proof (poll_live s E) as (_ & Hn & _). pose proof (kept_pumps s) as Hk.
  unfold on_drv, refusal_kept in Hk. rewrite Hc in Hk. simpl in Hn. congruence.
Qed.
End Refused.

(** C1. A refused match is over: from the state where a refusal is latched,
    whatever the host asks the driver in whatever order, and whatever the
    session and the host do in between, the refusal stays and no poll admits a
    live tick. *)
Theorem refused_match_stays_refused {H Sc : Type} `{RbHost H} `{SchedFrame Sc} check junk
    (evs : list (rb_event H)) (st : RbState H Sc) (code : string) :
  refusal (r_drv st) = Some code ->
  wp (rb_run check junk evs) (fun answers st' =>
    refusal (r_drv st') = Some code /\ RNET_RB_ADMIT_LIVE ∉ answers) st.
Proof.
  revert st. induction evs as [|e r IH]; intros st Hc; [by split; [|apply not_elem_of_nil]|].
  cbn [rb_run]. apply wp_bind.
  assert (wp (rb_step check junk e) (fun a s' => refusal (r_drv s') = Some code /\ RNET_RB_ADMIT_LIVE ∉ a) st) as Hs.
  { split.
    - pose proof (kept_step check junk e st) as Hk. unfold on_drv, refusal_kept in Hk. by rewrite Hc in Hk.
    - pose proof (refused_no_live check junk st code Hc) as Hn.
      destruct e; cbn [rb_step]; unfold bind; [|by case_match; apply not_elem_of_nil ..].
      destruct (rnet_rb_driver_poll_admit check junk st). simpl in *. rewrite list_elem_of_singleton. congruence. }
  eapply wp_mono; [exact Hs|]. intros a s' [Ha Hl]. apply wp_bind.
  eapply wp_mono; [by apply IH|]. intros b s'' [Hb Hm]. apply wp_ret. split; [done|].
  rewrite elem_of_app. tauto.
Qed.

(** ** The boot-digest gate *)

(** Every expected peer's tick-0 digest is in, and equals ours. *)
Definition boot_agreed (d : RNetRbDriver) : Prop :=
  bt_boot_dig_local_valid (d_boot d) = true /\
  forall i, i ∈ seats_of (rb_expect_mask d) ->
    has_bit (bt_boot_dig_peer_mask (d_boot d)) i = true /\
    rd 0 (bt_boot_dig_peer (d_boot d)) i = bt_boot_dig_local (d_boot d).
(** What a settled gate means. *)
Definition boot_ok (d : RNetRbDriver) : Prop :=
  bt_boot_dig_settled (d_boot d) = true ->
  is_Some (refusal d) \/ kn_allow_boot_fork (d_knobs d) = true \/ boot_agreed d.

Lemma boot_ok_same d d' :
  boot_core (d_boot d') = boot_core (d_boot d) -> kn_allow_boot_fork (d_knobs d') = kn_allow_boot_fork (d_knobs d) ->
  rb_expect_mask d' = rb_expect_mask d -> boot_ok d -> boot_ok d'.
Proof.
  intros E Ek Em. injection E as E1 E2 E3 E4 E5 E6.
  unfold boot_ok, boot_agreed, refusal. by rewrite E1, E2, E3, E4, E5, E6, Ek, Em.
Qed.

Lemma mask_of_bits (keep : Z -> bool) (l : list Z) i m :
  (forall j, j ∈ l -> 0 <= j) -> 0 <= i ->
  has_bit (fold_left (fun m i => if keep i then Z.lor m (bit i) else m) l m) i =
  has_bit m i || existsb (fun j => keep j && (j =? i)) l.
Proof.
  revert m. induction l as [|j l IH]; intros m Hl Hi; [by rewrite orb_false_r|]. cbn [fold_left existsb].
  assert (0 <= j) by (apply Hl; left). rewrite IH; [|intros; apply Hl; by right|done].
  destruct (keep j); simpl; [|done]. rewrite has_bit_lor, has_bit_bit by done. by rewrite orb_assoc.
Qed.
Lemma mask_of_zero (keep : Z -> bool) (l : list Z) i :
  (forall j, j ∈ l -> 0 <= j) -> mask_of keep l = 0 -> i ∈ l -> keep i = false.
Proof.
  intros Hl E Hi. pose proof (mask_of_bits keep l i 0 Hl (Hl _ Hi)) as Hb. fold (mask_of keep l) in Hb.
  rewrite E, has_bit_0 in Hb. simpl in Hb. destruct (keep i) eqn:Ek; [|done].
  symmetry in Hb. rewrite <-not_true_iff_false in Hb. exfalso. apply Hb, existsb_exists.
  exists i. rewrite <-list_elem_of_In, Ek, Z.eqb_refl. done.
Qed.
Lemma missing_none m p i : Z.ldiff m p = 0 -> i ∈ seats_of m -> has_bit p i = true.
Proof.
  intros E Hi. pose proof (seats_range _ _ Hi). unfold seats_of in Hi.
  rewrite list_elem_of_In, filter_In in Hi. destruct Hi as [_ Hi].
  assert (Z.testbit (Z.ldiff m p) i = false) as Hb by (rewrite E; apply Z.bits_0).
  rewrite Z.ldiff_spec in Hb. rewrite !has_bit_testbit in * by lia. rewrite Hi in Hb.
  by destruct (Z.testbit p i).
Qed.

(** What the gate leaves alone. *)
Record gate_same (d d' : RNetRbDriver) : Prop := {
  gs_cfg : d_cfg d' = d_cfg d;
  gs_ep : d_ep d' = d_ep d;
  gs_knobs : d_knobs d' = d_knobs d;
  gs_sim : d_sim d' = d_sim d;
  gs_started : d_started d' = d_started d;
  gs_modset : bt_local_modset (d_boot d') = bt_local_modset (d_boot d);
  gs_modset_settled : bt_modset_settled (d_boot d') = bt_modset_settled (d_boot d)
}.
#[export] Instance gate_same_pre : PreOrder gate_same.
Proof. split; [by split|]. intros a b c [] []. split; etransitivity; eassumption. Qed.
Lemma gate_expect d d' : gate_same d d' -> rb_expect_mask d' = rb_expect_mask d.
Proof. intros [E _ _ _ _ _ _]. unfold rb_expect_mask, rb_slot_count, rb_local_slot. by rewrite E. Qed.

Section Gate.
Context {H Sc : Type} `{RbHost H} `{SF : SchedFrame Sc}.
Notation St := (RbState H Sc).

Lemma refuse_spec c (s : St) :
  wp (rb_refuse c) (fun _ s' => gate_same (r_drv s) (r_drv s') /\ is_Some (refusal (r_drv s')) /\
    bt_boot_dig_settled (d_boot (r_drv s')) = bt_boot_dig_settled (d_boot (r_drv s))) s.
Proof.
  unfold rb_refuse. apply wp_bind, wp_gets. destruct (refusal (r_drv s)) eqn:E.
  - apply wp_ret. rewrite E. split; [reflexivity|]. eauto.
  - apply wp_bind, wp_modify, wp_modify. simpl. split; [by split|]. split; [by eexists|done].
Qed.

Lemma boot_local_spec (s : St) :
  wp boot_local (fun l s' => gate_same (r_drv s) (r_drv s') /\
    bt_boot_dig_settled (d_boot (r_drv s')) = bt_boot_dig_settled (d_boot (r_drv s)) /\
    match l with
    | Some local => bt_boot_dig_local_valid (d_boot (r_drv s')) = true /\ bt_boot_dig_local (d_boot (r_drv s')) = local
    | None => True
    end) s.
Proof.
  unfold boot_local. apply wp_bind, wp_gets. simpl.
  destruct (bt_boot_dig_local_valid _) eqn:E; [apply wp_ret; repeat split; auto|].
  case_match; [|apply wp_ret; repeat split; auto].
  apply wp_bind, wp_modify, wp_bind, wp_modify, wp_ret. repeat split.
Qed.

Lemma boot_collect_spec d :
  let d' := boot_collect d in
  gate_same d d' /\ bt_boot_dig_settled (d_boot d') = bt_boot_dig_settled (d_boot d) /\
  bt_boot_dig_local_valid (d_boot d') = bt_boot_dig_local_valid (d_boot d) /\
  bt_boot_dig_local (d_boot d') = bt_boot_dig_local (d_boot d).
Proof.
  apply (for_upto_ind (fun _ e => gate_same d e /\ bt_boot_dig_settled (d_boot e) = bt_boot_dig_settled (d_boot d) /\
    bt_boot_dig_local_valid (d_boot e) = bt_boot_dig_local_valid (d_boot d) /\
    bt_boot_dig_local (d_boot e) = bt_boot_dig_local (d_boot d))); [done|by repeat split|].
  intros i e Hi ([] & ? & ? & ?). case_match; [by repeat split|]. case_match; by repeat split.
Qed.

(** The gate settles only in a refusal, under the override, or in agreement. *)
Lemma boot_gate_spec (s : St) :
  wp rb_boot_digest_gate (fun hold s' => gate_same (r_drv s) (r_drv s') /\
    (boot_ok (r_drv s) -> boot_ok (r_drv s') /\
      (hold = false -> d_started (r_drv s) = true -> bt_boot_dig_settled (d_boot (r_drv s')) = true))) s.
Proof.
  unfold rb_boot_digest_gate. apply wp_bind, wp_gets. simpl.
  destruct (bt_boot_dig_settled (d_boot (r_drv s))) eqn:Es.
  { apply wp_ret. split; [reflexivity|]. auto. }
  destruct (d_started (r_drv s)) eqn:Ed; simpl.
  2: { apply wp_ret. split; [reflexivity|]. done. }
  apply wp_bind. eapply wp_mono; [apply boot_local_spec|]. intros [local|] s1 (G1 & S1 & L1).
  2: { apply wp_ret. split; [done|]. split; [|done]. intros E. congruence. }
  destruct L1 as [L1 L2]. apply wp_bind.
  eapply wp_mono with (P := fun _ s' => gate_same (r_drv s1) (r_drv s') /\
    bt_boot_dig_settled (d_boot (r_drv s')) = bt_boot_dig_settled (d_boot (r_drv s1)) /\
    bt_boot_dig_local_valid (d_boot (r_drv s')) = bt_boot_dig_local_valid (d_boot (r_drv s1)) /\
    bt_boot_dig_local (d_boot (r_drv s')) = bt_boot_dig_local (d_boot (r_drv s1))).
  { apply wp_modify. apply boot_collect_spec. }
  intros _ s2 (G2 & S2 & V2 & C2). apply wp_bind, wp_gets. cbv beta. unfold id.
  rewrite S1, Es in S2.
  assert (gate_same (r_drv s) (r_drv s2)) as G by (etransitivity; eassumption). clear G1 G2.
  set (d2 := r_drv s2) in *.
  destruct (nz (Z.ldiff (rb_expect_mask d2) (bt_boot_dig_peer_mask (d_boot d2)))) eqn:Em.
  - apply wp_bind.
    eapply wp_mono with (P := fun _ s' => r_drv s' = d2).
    { unfold wp, rb_now, hostm. by destruct (host_now_ms _). }
    intros now s2' E2. apply wp_bind.
    eapply wp_mono with (P := fun _ s' => gate_same d2 (r_drv s') /\
      bt_boot_dig_settled (d_boot (r_drv s')) = false).
    { unfold when. case_match; [apply wp_modify|apply wp_ret]; cbn [r_drv]; rewrite E2; (split; [by split|exact S2]). }
    intros _ s3 [G3 S3]. apply wp_bind, wp_gets. case_match.
    + apply wp_bind, wp_modify, wp_bind. eapply wp_mono; [apply refuse_spec|].
      intros _ s4 (G4 & R4 & S4). apply wp_ret. split; [|intros _; split; [by left|by rewrite S4]].
      etransitivity; [exact G|]. etransitivity; [exact G3|]. etransitivity; [|exact G4]. by split.
    + apply wp_ret. split; [etransitivity; eassumption|]. split; [|done]. intros E. congruence.
  - apply wp_bind, wp_modify. simpl.
    assert (gate_same (r_drv s) (on_boot (set_bt_boot_dig_settled true) d2)) as G3.
    { etransitivity; [exact G|]. by split. }
    destruct (nz (boot_bad d2 local)) eqn:Eb; [destruct (kn_allow_boot_fork (d_knobs d2)) eqn:Ea|]; simpl.
    + apply wp_ret. split; [done|]. intros _. split; [|done]. intros _. by right; left.
    + apply wp_bind. eapply wp_mono; [apply refuse_spec|]. intros _ s4 (G4 & R4 & S4). apply wp_ret.
      split; [etransitivity; eassumption|]. intros _. split; [by left|by rewrite S4].
    + apply wp_ret. split; [done|]. intros _. split; [|done]. intros _. right; right.
      apply negb_false_iff, Z.eqb_eq in Em, Eb. split; [transitivity (bt_boot_dig_local_valid (d_boot d2)); [done|by rewrite V2]|]. intros i Hi. split.
      * by eapply missing_none.
      * eapply mask_of_zero in Eb; [|intros j Hj; apply seats_range in Hj; lia|exact Hi].
        apply negb_false_iff, Z.eqb_eq in Eb. transitivity local; [exact Eb|].
        transitivity (bt_boot_dig_local (d_boot d2)); [by rewrite C2|done].
Qed.

Lemma hold_gate_spec sim wire (s : St) :
  wp (rb_gate_pre_admit_hold sim wire) (fun tag s' => gate_same (r_drv s) (r_drv s') /\
    (boot_ok (r_drv s) -> boot_ok (r_drv s')) /\
    (tag = None -> refusal (r_drv s') = None /\
      (idle (r_drv s) = true -> is_Some (bt_local_modset (d_boot (r_drv s))) ->
         bt_modset_settled (d_boot (r_drv s)) = true) /\
      (idle (r_drv s) = true -> sim = 1 -> d_started (r_drv s) = true -> boot_ok (r_drv s) ->
         bt_boot_dig_settled (d_boot (r_drv s')) = true))) s.
Proof.
  unfold rb_gate_pre_admit_hold. apply wp_bind, wp_gets. unfold id.
  destruct (bool_decide _ && _ && _) eqn:Em; [apply wp_ret; split; [reflexivity|done]|].
  apply wp_bind. eapply wp_mono with (P := fun hold s' => gate_same (r_drv s) (r_drv s') /\
    (boot_ok (r_drv s) -> boot_ok (r_drv s')) /\
    (hold = false -> idle (r_drv s) = true -> sim = 1 -> d_started (r_drv s) = true -> boot_ok (r_drv s) ->
         bt_boot_dig_settled (d_boot (r_drv s')) = true)).
  { destruct ((sim =? 1) && idle (r_drv s)) eqn:E.
    - eapply wp_mono; [apply boot_gate_spec|]. intros hold s' [G B]. split; [done|]. split; [apply B|].
      intros -> _ _ Hst Hb. by apply B.
    - apply wp_ret. split; [reflexivity|]. split; [done|]. intros _ Hi -> _. by rewrite Hi in E. }
  intros hold s1 (G & B & D). destruct hold; [apply wp_ret; split; [done|]; by split|].
  apply wp_bind, wp_gets, wp_ret. split; [done|]. split; [done|]. intros Er.
  assert (refusal (r_drv s1) = None) as Hr by (destruct (refusal (r_drv s1)); done).
  split; [done|]. split; [|by apply D]. intros Hi Hm. rewrite Hi, bool_decide_eq_true_2 in Em by done.
  by destruct (bt_modset_settled _).
Qed.

Lemma pre_admit_gate sim wire st (s : St) :
  wp (rb_sched (fun br => sched_pre_admit br sim wire st)) (fun hold s' => hold = false ->
    exists s1 s2 : St, live_same (r_drv s) (r_drv s1) /\ rb_gate_pre_admit_hold sim wire s1 = (None, s2) /\
      live_same (r_drv s2) (r_drv s')) s.
Proof.
  unfold wp, rb_sched, sched_call.
  pose proof (sf_gate _ (rb_bridge rb_gate_pre_admit_hold) sim wire st (r_sched s) s) as Hg.
  destruct (sched_pre_admit _ _ _ _ _) as [hold [sc s']]. simpl in *. intros ->.
  exact (Hg eq_refl (on_drv live_same) _ (lv_bridge _)).
Qed.

(** The live admission passed the hold gate, and changed nothing it reads. *)
Lemma admit_live_gate (s : St) :
  wp admit_live (fun a s' => a = RNET_RB_ADMIT_LIVE ->
    exists wire (s1 s2 : St), live_same (r_drv s) (r_drv s1) /\
      rb_gate_pre_admit_hold (d_sim (r_drv s)) wire s1 = (None, s2) /\ live_same (r_drv s2) (r_drv s')) s.
Proof.
  unfold admit_live. apply (wp_live _ _ _ _ (r_drv s)); [apply lv_sess|reflexivity|]. intros st s1 L1.
  apply wp_bind, wp_gets. unfold id. destruct st as [st|], (rb_session (r_drv s1)); try done. cbv zeta.
  apply (wp_live _ _ _ _ (r_drv s)); [apply lv_sync|done|]. intros _ s2 L2.
  apply (wp_live _ _ _ _ (r_drv s)); [apply lv_prepare|done|]. intros _ s3 L3.
  apply wp_bind, wp_gets, wp_bind, wp_gets. cbv beta. apply wp_bind.
  eapply wp_mono; [apply pre_admit_gate|]. intros [] s4 Hg.
  { apply wp_bind, wp_any. intros _ ?. apply wp_ret. done. }
  destruct (Hg eq_refl) as (t1 & t2 & T1 & T2 & T3). rewrite (ls_sim _ _ L3) in T2.
  apply wp_bind, wp_gets. cbv beta.
  apply (wp_live _ _ _ _ (r_drv t2)); [apply lv_seats|done|]. intros [any|] s5 L5; [|done].
  apply (wp_live _ _ _ _ (r_drv t2)); [apply lv_post|done|]. intros _ s6 L6.
  apply (wp_live _ _ _ _ (r_drv t2)); [apply lv_clear_stall|done|]. intros _ s7 L7.
  apply (wp_live _ _ _ _ (r_drv t2)); [apply lv_upd; by split|done|]. intros _ s8 L8.
  apply (wp_live _ _ _ _ (r_drv t2)); [apply lv_snap|done|]. intros _ s9 L9.
  apply (wp_live _ _ _ _ (r_drv t2)); [apply lv_publish|done|]. intros _ s10 L10.
  apply (wp_live _ _ _ _ (r_drv t2)); [apply lv_upd; by split|done|]. intros _ s11 L11.
  apply wp_ret. intros _. eexists _, t1, t2. split; [etransitivity; eassumption|]. split; [exact T2|exact L11].
Qed.
End Gate.

(** Every update of the driver keeps what a settled gate means. *)
Definition boot_kept (d0 d : RNetRbDriver) : Prop :=
  (boot_ok d0 -> boot_ok d) /\ (d_started d0 = true -> d_started d = true).

Lemma owed_clear_same load target d :
  let e := rb_owed_clear_span load target d in
  d_boot e = d_boot d /\ d_knobs e = d_knobs d /\ d_cfg e = d_cfg d /\ d_started e = d_started d.
Proof.
  unfold rb_owed_clear_span, for_range. case_match; [done|].
  generalize (seqZ load (target + 1 - load)). intros l. cbv zeta. revert d.
  induction l as [|t l IH]; intros d; [done|]. cbn [fold_left].
  destruct (IH (rb_owed_clear t d)) as (-> & -> & -> & ->). unfold rb_owed_clear. by case_match.
Qed.

#[export] Instance boot_kept_frame : Frame boot_kept.
Proof.
  assert (forall d0 d e, boot_kept d0 d -> boot_core (d_boot e) = boot_core (d_boot d) ->
    kn_allow_boot_fork (d_knobs e) = kn_allow_boot_fork (d_knobs d) -> seats_cfg (d_cfg e) = seats_cfg (d_cfg d) ->
    d_started e = d_started d -> boot_kept d0 e) as Hk.
  { intros d0 d e [Hd Hs] E1 E2 E3 E4. split; [|by rewrite E4]. intros Ho.
    eapply boot_ok_same; [done..| |by apply Hd]. by apply cfg_expect. }
  split; try (intros; eapply Hk; [eassumption|try reflexivity..]).
  all: try match goal with |- context [rb_owed_clear_span ?a ?b ?c] =>
    destruct (owed_clear_same a b c) as (E1 & E2 & E3 & E4); generalize dependent (rb_owed_clear_span a b c);
    intros; simpl; congruence end.
  - split; [by intros d; split|]. intros a b c [] []. split; auto.
  - unfold on_knobs. simpl. auto.
  - unfold on_boot. simpl. auto.
Qed.

Section BootLive.
Context {H Sc : Type} `{RbHost H} `{SF : SchedFrame Sc}.
Context (check : option (list Z -> Z * option (list Z))) (junk : list Z).
Notation ok m := (stable (@on_drv H Sc boot_kept) m).

Lemma booted_open tick slot : ok (rb_open tick slot).
Proof. apply st_open_own; [apply _|]. intros g d0 d [Hd Hs]. by split. Qed.
Lemma booted_refuse c : ok (rb_refuse c).
Proof.
  intros s. pose proof (refuse_spec c s) as (G & Hr & _). unfold on_drv. split; [|by rewrite (gs_started _ _ G)].
  intros _ _. by left.
Qed.
Lemma booted_gate : ok rb_boot_digest_gate.
Proof.
  intros s. pose proof (boot_gate_spec s) as (G & B). unfold on_drv. split; [|by rewrite (gs_started _ _ G)].
  intros Hb. by apply B.
Qed.
Lemma booted_session s d0 d : boot_kept d0 d -> boot_kept d0 (set_d_session (Some s) d).
Proof. intros [Hd Hs]. by split. Qed.
Lemma booted_run evs : ok (rb_run check junk evs).
Proof. apply st_run; [apply _|apply booted_open|apply booted_refuse|apply booted_gate|apply booted_session]. Qed.
Lemma booted_pumps : ok (poll_pumps check junk).
Proof. apply st_poll_pumps; [apply _|apply booted_open|apply booted_refuse|apply booted_session]. Qed.

(** A poll that admits a live tick passed the gates in the state it leaves. *)
Lemma poll_live_gates (s : RbState H Sc) :
  boot_ok (r_drv s) ->
  wp (rnet_rb_driver_poll_admit check junk) (fun a s' => a = RNET_RB_ADMIT_LIVE ->
    let d := r_drv s' in
    refusal d = None /\
    (idle d = true -> is_Some (bt_local_modset (d_boot d)) -> bt_modset_settled (d_boot d) = true) /\
    (idle d = true -> d_sim d = 1 -> kn_allow_boot_fork (d_knobs d) = true \/ boot_agreed d)) s.
Proof.
  intros Hb Ha. pose proof (poll_live check junk s Ha) as (Hst & _ & Hl). cbv zeta in Hl.
  pose proof (booted_pumps s) as [Hb1 Hst1]. unfold on_drv in *.
  set (s1 := snd (poll_pumps check junk s)) in *. set (s' := snd (rnet_rb_driver_poll_admit check junk s)) in *.
  assert (exists wire (t1 t2 : RbState H Sc), live_same (r_drv s1) (r_drv t1) /\
    rb_gate_pre_admit_hold (d_sim (r_drv s1)) wire t1 = (None, t2) /\ live_same (r_drv t2) (r_drv s'))
    as (wire & t1 & t2 & L1 & G & L2).
  { pose proof (admit_live_gate s1) as Hg. unfold wp in Hg. rewrite Hl in Hg. by apply Hg. }
  pose proof (hold_gate_spec (d_sim (r_drv s1)) wire t1) as Hs. unfold wp in Hs. rewrite G in Hs.
  cbn [fst snd] in Hs. destruct Hs as (G2 & B2 & Hn). destruct (Hn eq_refl) as (R2 & M2 & D2).
  assert (boot_ok (r_drv t1)) as Ht1.
  { eapply boot_ok_same; [by rewrite (ls_boot _ _ L1)|apply (ls_allow _ _ L1)|by apply live_expect|by apply Hb1]. }
  assert (idle (r_drv s') = idle (r_drv t1)) as Ei.
  { unfold idle, stage. by rewrite (ls_ep _ _ L2), (gs_ep _ _ G2). }
  cbv zeta. unfold refusal in *. rewrite Ei, (ls_boot _ _ L2), (gs_modset _ _ G2), (gs_modset_settled _ _ G2).
  split; [done|]. split; [done|]. intros Hi Hsim.
  assert (d_sim (r_drv s1) = 1) as Hsim1.
  { by rewrite <-(ls_sim _ _ L1), <-(gs_sim _ _ G2), <-(ls_sim _ _ L2). }
  assert (boot_ok (r_drv s')) as Hs'.
  { eapply boot_ok_same; [by rewrite (ls_boot _ _ L2)|apply (ls_allow _ _ L2)|by apply live_expect|by apply B2]. }
  assert (d_started (r_drv t1) = true) as Hst2 by (rewrite (ls_started _ _ L1); auto).
  destruct Hs' as [[c Hc]|Hs']; [|unfold refusal in Hc; rewrite (ls_boot _ _ L2) in Hc; congruence|done].
  rewrite (ls_boot _ _ L2). by apply D2.
Qed.
End BootLive.

(** C2. No live tick of an undecided match: whatever was asked of the driver
    since a start, a poll that admits a live tick leaves a match that is not
    refused; and if no episode is open (the code asks both gates only then, so
    not of the live ticks a tip-hold admits), a match whose mod-set handshake (if
    there is one) is settled, and - when the tick is tick 1 - for which every
    expected peer's tick-0 digest is in and equals ours, unless the operator
    overrode the gate. *)
Theorem live_tick_passes_boot_gate {H Sc : Type} `{RbHost H} `{SchedFrame Sc} check junk
    (evs : list (rb_event H)) (st : RbState H Sc) :
  bt_boot_dig_settled (d_boot (r_drv st)) = false ->
  wp (do! rb_run check junk evs; rnet_rb_driver_poll_admit check junk) (fun a st' => a = RNET_RB_ADMIT_LIVE ->
    let d := r_drv st' in
    refusal d = None /\
    (idle d = true -> is_Some (bt_local_modset (d_boot d)) -> bt_modset_settled (d_boot d) = true) /\
    (idle d = true -> d_sim d = 1 -> kn_allow_boot_fork (d_knobs d) = true \/ boot_agreed d)) st.
Proof.
  intros Hs. apply wp_bind. pose proof (booted_run check junk evs st) as [Hk _].
  apply poll_live_gates, Hk. intros E. congruence.
Qed.

(** ** On the concrete match *)

(** Tick 0 is played, then seat 1 announces its digest of it. *)
Definition demo_boot (h : Z) : list (rb_event toy_host) := [EvPoll; EvFinish; EvSession (demo_announced h)].
Definition demo_refused : RbState toy_host unit := Eval vm_compute in
  snd (rnet_rb_driver_poll_admit None [] (snd (rb_run None [] (demo_boot 5) demo_match))).

Lemma refused_match_stays_refused_witness :
  refusal (r_drv demo_refused) = Some "boot_digest_mismatch"%string /\
  RNET_RB_ADMIT_LIVE ∉ fst (rb_run None [] [EvPoll; EvFinish; EvSession (demo_announced 0); EvPoll] demo_refused).
Proof.
  split; [vm_compute; reflexivity|].
  apply (refused_match_stays_refused None [] [EvPoll; EvFinish; EvSession (demo_announced 0); EvPoll] demo_refused
           "boot_digest_mismatch"). vm_compute. reflexivity.
Defined.

Lemma live_tick_passes_boot_gate_witness :
  let '(a, st') := (do! rb_run None [] (demo_boot 0); rnet_rb_driver_poll_admit None []) demo_match in
  a = RNET_RB_ADMIT_LIVE /\ d_sim (r_drv st') = 1 /\
  (kn_allow_boot_fork (d_knobs (r_drv st')) = true \/ boot_agreed (r_drv st')).
Proof.
  pose proof (live_tick_passes_boot_gate None [] (demo_boot 0) demo_match ltac:(vm_compute; reflexivity)) as H.
  unfold wp in H. destruct ((do! rb_run None [] (demo_boot 0); rnet_rb_driver_poll_admit None []) demo_match)
    as [a st'] eqn:E. cbn [fst snd] in H.
  assert (a = RNET_RB_ADMIT_LIVE) as Ha.
  { change a with (fst (a, st')). rewrite <-E. vm_compute. reflexivity. }
  assert (idle (r_drv st') = true) as Hi.
  { change st' with (snd (a, st')). rewrite <-E. vm_compute. reflexivity. }
  assert (d_sim (r_drv st') = 1) as Hs.
  { change st' with (snd (a, st')). rewrite <-E. vm_compute. reflexivity. }
  split; [exact Ha|]. split; [exact Hs|]. apply H; assumption.
Defined.
