(* ===== verification/DriverLedger.v ===== *)
(** * Owed corrections, and the stop

    A tick that ran on a wrong prediction is entered in a ledger until it has
    been replayed. The ledger loses nothing silently but by reusing an entry;
    and once the driver drains, it opens no episode of its own. *)

From stdpp Require Import base list numbers list_numbers strings sets.
From S2P Require Import Prelude StateM Protocol Config Rings Contract Rollback InputHist HashConfirm CtrlQueue Session SessionState SessionMain SessionStats DriverData Driver DriverEpisode DriverWire SessionProofs DriverMain DriverFrame DriverDemo DriverLive DriverBoot.

(** ** The ledger *)

(** Tick [t] is accounted for: owed, reported as lost, replayed, or its entry
    is taken by another tick. *)
Definition accounted (d : RNetRbDriver) (t : Z) : Prop :=
  owed_at d t = true \/ (exists slot, (t, slot) ∈ d_lost d) \/
  (exists load target, (load, target) ∈ d_replayed d /\ load <= t <= target) \/
  rd 0 (d_owed_tick d) (t mod RNET_INPUT_HIST_DEPTH) <> t.
Definition ledger_ok (d : RNetRbDriver) : Prop :=
  length (d_owed_tick d) = 128%nat /\ length (d_owed_slot d) = 128%nat.
Definition ledger_kept (d0 d : RNetRbDriver) : Prop :=
  ledger_ok d0 -> ledger_ok d /\ forall t, accounted d0 t -> accounted d t.

Lemma hist_index t : 0 <= t mod RNET_INPUT_HIST_DEPTH < 128.
Proof. apply Z.mod_pos_bound. reflexivity. Qed.

Section Ledger.
Context (d : RNetRbDriver) (Hok : ledger_ok d).

Lemma accounted_weaken e t :
  d_owed_tick e = d_owed_tick d -> d_owed_slot e = d_owed_slot d ->
  (forall x, x ∈ d_lost d -> x ∈ d_lost e) -> (forall x, x ∈ d_replayed d -> x ∈ d_replayed e) ->
  accounted d t -> accounted e t.
Proof.
  intros E1 E2 Hl Hr. unfold accounted, owed_at. rewrite E1, E2.
  intros [?|[[slot ?]|[(load & target & ? & ?)|?]]]; [by left|right; left; eauto| |by right; right; right].
  right; right; left. exists load, target. auto.
Qed.

Lemma mark_accounted u slot t :
  0 <= slot < RNET_RB_MAX_SLOTS -> accounted d t -> accounted (rb_owed_mark u slot d) t.
Proof.
  intros Hs Ha. destruct Hok as [L1 L2]. pose proof (hist_index u). pose proof (hist_index t).
  unfold RNET_RB_MAX_SLOTS in Hs.
  destruct (decide (u mod RNET_INPUT_HIST_DEPTH = t mod RNET_INPUT_HIST_DEPTH)) as [E|E].
  - destruct (decide (t = u)) as [->|Hne].
    + left. unfold owed_at, rb_owed_mark. simpl. rewrite !rd_wr_eq by (unfold zlen; lia).
      rewrite Z.eqb_refl, andb_true_r. apply Z.leb_le.
      unfold s8. rewrite u8_id by (unfold in_u8; lia). case_match; bool_prop; lia.
    + right; right; right. unfold rb_owed_mark. simpl. rewrite E, rd_wr_eq by (unfold zlen; lia). congruence.
  - unfold accounted, owed_at, rb_owed_mark. simpl. rewrite !rd_wr_ne by lia. exact Ha.
Qed.

Lemma mark_ok u slot : ledger_ok (rb_owed_mark u slot d).
Proof. destruct Hok. unfold ledger_ok, rb_owed_mark, wr. simpl. by rewrite !length_insert. Qed.

Lemma clear_accounted u t : t <> u -> accounted d t -> accounted (rb_owed_clear u d) t.
Proof.
  intros Hne Ha. unfold rb_owed_clear. destruct (owed_at d u) eqn:Eu; [|done].
  destruct Hok as [L1 L2]. pose proof (hist_index u). pose proof (hist_index t).
  destruct (decide (u mod RNET_INPUT_HIST_DEPTH = t mod RNET_INPUT_HIST_DEPTH)) as [E|E].
  - right; right; right. simpl. unfold owed_at in Eu. bool_prop. rewrite <-E. congruence.
  - unfold accounted, owed_at. simpl. rewrite rd_wr_ne by lia. exact Ha.
Qed.

Lemma clear_ok u : ledger_ok (rb_owed_clear u d).
Proof.
  destruct Hok. unfold rb_owed_clear. case_match; [|done]. unfold ledger_ok, wr. simpl. by rewrite length_insert.
Qed.
Lemma clear_lists u : d_lost (rb_owed_clear u d) = d_lost d /\ d_replayed (rb_owed_clear u d) = d_replayed d.
Proof. unfold rb_owed_clear. by case_match. Qed.
End Ledger.

Lemma clear_span_accounted load target d :
  ledger_ok d ->
  let e := rb_owed_clear_span load target d in
  ledger_ok e /\ d_lost e = d_lost d /\ d_replayed e = d_replayed d /\
  forall t, ~ load <= t <= target -> accounted d t -> accounted e t.
Proof.
  intros Hok. unfold rb_owed_clear_span. case_match; [done|]. bool_prop.
  apply (for_range_ind (fun _ e => ledger_ok e /\ d_lost e = d_lost d /\ d_replayed e = d_replayed d /\
    forall t, ~ load <= t <= target -> accounted d t -> accounted e t)); [lia|done|].
  intros i e Hi (He & El & Er & Ha). destruct (clear_lists e i) as [Cl Cr].
  split; [by apply clear_ok|]. split; [congruence|]. split; [congruence|].
  intros t Ht Hd. apply clear_accounted; [done|lia|by apply Ha].
Qed.

#[export] Instance ledger_frame : Frame ledger_kept.
Proof.
  assert (forall d0 d e, ledger_kept d0 d -> (ledger_ok d -> ledger_ok e /\ forall t, accounted d t -> accounted e t) ->
    ledger_kept d0 e) as Hk.
  { intros d0 d e Hd He Ho. destruct (Hd Ho) as [Hd' Ha]. destruct (He Hd') as [He' Hb]. split; auto. }
  split; try (intros; eapply Hk; [eassumption|]; intros Ho; split; [exact Ho|]; intros t' Ht'; exact Ht').
  - split; [by intros d Ho|]. intros a b c Hab Hbc. by eapply Hk.
  - intros t slot d0 d Hd Hs. eapply Hk; [exact Hd|]. intros Ho. split; [by apply mark_ok|].
    intros u Hu. by apply mark_accounted.
  - intros load target d0 d Hd. eapply Hk; [exact Hd|]. intros Ho.
    destruct (clear_span_accounted load target d Ho) as (He & El & Er & Ha). split; [exact He|].
    intros t Ht. destruct (decide (load <= t <= target)) as [Hin|Hout].
    + right; right; left. exists load, target. split; [|done]. simpl. set_solver.
    + eapply accounted_weaken; [..|by apply Ha]; simpl; [done|done|done|]. rewrite Er. set_solver.
  - intros u slot d0 d Hd. eapply Hk; [exact Hd|]. intros Ho.
    destruct (clear_span_accounted u u d Ho) as (He & El & Er & Ha). split; [exact He|].
    intros t Ht. destruct (decide (t = u)) as [->|Hne].
    + right; left. exists slot. simpl. set_solver.
    + eapply accounted_weaken; [..|apply Ha; [lia|done]]; simpl; [done|done| |done]. rewrite El. set_solver.
  - intros u slot d0 d Hd Hu. eapply Hk; [exact Hd|]. intros Ho.
    pose proof (clear_ok d Ho u) as Hc. pose proof (fun t => clear_accounted d Ho u t) as Ha.
    unfold rb_owed_clear in Hc, Ha. rewrite Hu in Hc, Ha. split; [exact Hc|].
    intros t Ht. destruct (decide (t = u)) as [->|Hne].
    + right; left. exists slot. simpl. set_solver.
    + eapply accounted_weaken; [..|by apply Ha]; simpl; [done|done| |done]. set_solver.
Qed.

Section LedgerRun.
Context {H Sc : Type} `{RbHost H} `{SF : SchedFrame Sc}.
Context (check : option (list Z -> Z * option (list Z))) (junk : list Z).

(** A relation that ignores the session, the episode and the boot record
    covers a run without further conditions. *)
Lemma st_run_ignoring (R : RNetRbDriver -> RNetRbDriver -> Prop) `{!Frame R} evs :
  (forall f d0 d, R d0 d -> R d0 (on_ep f d)) -> (forall f d0 d, R d0 d -> R d0 (on_boot f d)) ->
  (forall s d0 d, R d0 d -> R d0 (set_d_session (Some s) d)) ->
  stable (@on_drv H Sc R) (rb_run check junk evs).
Proof.
  intros He Hb Hs.
  assert (forall c, stable (@on_drv H Sc R) (rb_refuse c)) as Hr by (apply st_refuse_with; auto).
  apply st_run; [done|by apply st_open_own|done|by apply st_boot_gate_with; auto|done].
Qed.
End LedgerRun.

(** C5. No correction is dropped silently: a tick the driver owes a correction
    stays accounted for, through any sequence of calls and whatever the
    session and the host do in between. It is still owed, was reported as
    lost, was part of a span whose replay ran to its end, or its entry of the
    128-tick ring now belongs to another tick. *)
Theorem owed_correction_accounted {H Sc : Type} `{RbHost H} `{SchedFrame Sc} check junk
    (evs : list (rb_event H)) (st : RbState H Sc) (t : Z) :
  ledger_ok (r_drv st) -> owed_at (r_drv st) t = true ->
  wp (rb_run check junk evs) (fun _ st' =>
    let d := r_drv st' in
    owed_at d t = true \/ (exists slot, (t, slot) ∈ d_lost d) \/
    (exists load target, (load, target) ∈ d_replayed d /\ load <= t <= target) \/
    rd 0 (d_owed_tick d) (t mod RNET_INPUT_HIST_DEPTH) <> t) st.
Proof.
  intros Ho Ht.
  assert (stable (on_drv ledger_kept) (rb_run check junk evs : M (RbState H Sc) _)) as Hr.
  { apply st_run_ignoring; [apply _|..]; intros x d0 d Hd; exact Hd. }
  destruct (Hr st Ho) as [_ Ha]. apply Ha. by left.
Qed.

(** ** The stop *)

(** While the driver drains, it keeps draining and starts no episode: the
    sequence number of its own episodes stands still. *)
Definition drain_kept (d0 d : RNetRbDriver) : Prop :=
  draining d0 = true -> draining d = true /\ ep_seq (d_ep d) = ep_seq (d_ep d0).

Lemma draining_spec d : draining d = true <-> qu_quiesce (d_drain d) <> RNET_RB_QUIESCE_NONE.
Proof. unfold draining, quiesce. case_bool_decide; simpl; split; congruence. Qed.

#[export] Instance drain_frame : Frame drain_kept.
Proof.
  assert (forall d0 d e, drain_kept d0 d -> d_drain e = d_drain d -> ep_seq (d_ep e) = ep_seq (d_ep d) ->
    drain_kept d0 e) as Hk.
  { unfold drain_kept, draining, quiesce. intros d0 d e Hd E1 E2. by rewrite E1, E2. }
  assert (forall a b d, d_drain (rb_owed_clear_span a b d) = d_drain d /\
    d_ep (rb_owed_clear_span a b d) = d_ep d) as Hc.
  { intros a b d. unfold rb_owed_clear_span, for_range. case_match; [done|].
    generalize (seqZ a (b + 1 - a)). intros l. revert d. induction l as [|t l IH]; intros d; [done|].
    cbn [fold_left]. destruct (IH (rb_owed_clear t d)) as [-> ->]. unfold rb_owed_clear. by case_match. }
  split; try (intros; eapply Hk; [eassumption|reflexivity|reflexivity]).
  - split; [by intros d|]. intros a b c Hab Hbc Ha. destruct (Hab Ha) as [Hb Eb]. destruct (Hbc Hb) as [? ?].
    split; [done|congruence].
  - intros f d0 d Hd Hf. eapply Hk; [exact Hd|done|apply Hf].
  - intros f d0 d Hd Hf Ha. destruct (Hd Ha) as [Hb Eb]. split; [|done]. apply draining_spec, Hf, draining_spec, Hb.
  - intros load target d0 d Hd. destruct (Hc load target d) as [E1 E2].
    eapply Hk; [exact Hd|exact E1|by simpl; rewrite E2].
  - intros t slot d0 d Hd. destruct (Hc t t d) as [E1 E2]. eapply Hk; [exact Hd|exact E1|by simpl; rewrite E2].
Qed.

Section Draining.
Context {H Sc : Type} `{RbHost H} `{SF : SchedFrame Sc}.

Lemma drain_open tick slot : stable (@on_drv H Sc drain_kept) (rb_open tick slot).
Proof.
  intros s Hd. unfold on_drv in *.
  assert (wp (rb_open tick slot) (fun _ s' => draining (r_drv s') = true /\
    ep_seq (d_ep (r_drv s')) = ep_seq (d_ep (r_drv s))) s) as Hw; [|exact Hw].
  unfold rb_open, rb_begin_episode. apply wp_bind, wp_gets. unfold id. rewrite Hd. cbn [andb].
  case_match; [by apply wp_ret|]. case_match; [by apply wp_ret|]. by apply wp_bind, wp_modify, wp_ret.
Qed.
End Draining.

(** A coordinated stop opens nothing: once the driver drains, any sequence
    of calls leaves it draining, drained or timed out, and it initiates no
    episode; following and finishing the peers' episodes goes on. *)
Theorem draining_initiates_nothing {H Sc : Type} `{RbHost H} `{SchedFrame Sc} check junk
    (evs : list (rb_event H)) (st : RbState H Sc) :
  draining (r_drv st) = true ->
  wp (rb_run check junk evs) (fun _ st' =>
    draining (r_drv st') = true /\ ep_seq (d_ep (r_drv st')) = ep_seq (d_ep (r_drv st))) st.
Proof.
  intros Hd.
  assert (stable (on_drv drain_kept) (rb_run check junk evs : M (RbState H Sc) _)) as Hr; [|by apply Hr].
  assert (forall c, stable (@on_drv H Sc drain_kept) (rb_refuse c)) as Hf.
  { apply st_refuse_with; [apply _|]. intros c d0 d Hk _. exact Hk. }
  apply st_run; [apply _|apply drain_open|exact Hf| |intros s d0 d Hk; exact Hk].
  apply st_boot_gate_with; [apply _|exact Hf|]. intros f d0 d Hk _. exact Hk.
Qed.

(** ** On the concrete match *)

Lemma owed_correction_accounted_witness :
  let st := on_match (fun d => rb_owed_mark 3 1 (set_d_sim 5 d)) in
  owed_at (r_drv st) 3 = true /\
  wp (rb_run None [] [EvPoll; EvFinish]) (fun _ st' => accounted (r_drv st') 3) st.
Proof.
  split; [vm_compute; reflexivity|].
  apply (owed_correction_accounted None [] [EvPoll; EvFinish]
           (on_match (fun d => rb_owed_mark 3 1 (set_d_sim 5 d))) 3); vm_compute; [split; reflexivity|reflexivity].
Defined.

Lemma draining_initiates_nothing_witness :
  let st := snd (rnet_rb_driver_request_quiesce demo_match) in
  quiesce (r_drv st) = RNET_RB_QUIESCE_DRAINING /\
  draining (r_drv (snd (rb_run None [] [EvPoll; EvFinish; EvPoll] st))) = true.
Proof.
  split; [vm_compute; reflexivity|].
  apply (draining_initiates_nothing None [] [EvPoll; EvFinish; EvPoll] (snd (rnet_rb_driver_request_quiesce demo_match))).
  vm_compute. reflexivity.
Defined.
