(* ===== verification/DriverDrain.v ===== *)
(** * Draining the wire

    The driver empties the six queues of peer messages in loops that end when
    a queue is empty. The handlers never add to a queue, so each loop ends
    within one round per waiting message, and nothing is left waiting. *)

From stdpp Require Import base list numbers list_numbers strings.
From S2P Require Import Prelude StateM Protocol Config Rings Contract Rollback InputHist HashConfirm CtrlQueue Session SessionState SessionMain SessionStats DriverData Driver DriverEpisode DriverWire SessionProofs DriverMain DriverFrame DriverDemo.

(** The number of messages waiting: sync, seal rows, baselines, posts,
    resolved and frame commits. *)
Definition ctl_waiting (c : RNetCtl) : list Z :=
  [q_count (ct_sync_q c); q_count (ct_seal_q c); q_count (ct_base_q c); q_count (ct_post_q c);
   q_count (ct_resolved_q c); q_count (ct_fc_q c)].
Definition waiting (d : RNetRbDriver) : option (list Z) := (fun s => ctl_waiting (s_ctl s)) <$> rb_session d.
Definition waiting_same (d0 d : RNetRbDriver) : Prop := waiting d = waiting d0.

#[export] Instance waiting_frame : Frame waiting_same.
Proof.
  assert (forall d0 d e, waiting_same d0 d -> d_session e = d_session d ->
    dc_session_bound (d_cfg e) = dc_session_bound (d_cfg d) -> waiting_same d0 e) as Hk.
  { unfold waiting_same, waiting, rb_session. intros d0 d e Hd E1 E2. by rewrite E1, E2. }
  assert (forall a b d, d_session (rb_owed_clear_span a b d) = d_session d /\
    d_cfg (rb_owed_clear_span a b d) = d_cfg d) as Hc.
  { intros a b d. unfold rb_owed_clear_span, for_range. case_match; [done|].
    generalize (seqZ a (b + 1 - a)). intros l. revert d. induction l as [|t l IH]; intros d; [done|].
    cbn [fold_left]. destruct (IH (rb_owed_clear t d)) as [-> ->]. unfold rb_owed_clear. by case_match. }
  split; try (intros; eapply Hk; [eassumption|reflexivity|reflexivity]).
  - split; [by intros d|]. intros a b c Hab Hbc. unfold waiting_same in *. congruence.
  - intros s s' d0 d Hd Es Ec. unfold waiting_same, waiting, rb_session in *. simpl.
    destruct (dc_session_bound (d_cfg d)); [|done]. simpl in Es. rewrite Es in Hd. rewrite <-Hd. simpl. by rewrite Ec.
  - intros load target d0 d Hd. destruct (Hc load target d) as [E1 E2].
    eapply Hk; [exact Hd|exact E1|by simpl; rewrite E2].
  - intros t slot d0 d Hd. destruct (Hc t t d) as [E1 E2]. eapply Hk; [exact Hd|exact E1|by simpl; rewrite E2].
Qed.

(** A [drain] whose handler keeps the measure ends, and leaves nothing. *)
Lemma drain_ends {S A} (Inv : S -> Prop) (mu : S -> Z) n (tk : M S (option A)) (handle : A -> M S unit) s :
  (forall s, Inv s -> 0 <= mu s) ->
  (forall s, Inv s -> wp tk (fun o s' => Inv s' /\
     match o with None => mu s' <= 0 | Some _ => 0 < mu s /\ mu s' = mu s - 1 end) s) ->
  (forall a s, Inv s -> wp (handle a) (fun _ s' => Inv s' /\ mu s' = mu s) s) ->
  Inv s -> mu s < Z.of_nat n ->
  wp (drain n tk handle) (fun b s' => b = true /\ Inv s' /\ mu s' <= 0) s.
Proof.
  intros Hp Ht Hh. revert s. induction n as [|n IH]; intros s Hs Hn; [pose proof (Hp s Hs); lia|].
  cbn [drain]. apply wp_bind. eapply wp_mono; [by apply Ht|]. intros [a|] s1 [Hs1 Hm].
  - apply wp_bind. eapply wp_mono; [by apply Hh|]. intros _ s2 [Hs2 Hm2]. apply IH; [done|lia].
  - by apply wp_ret.
Qed.

Section Drain.
Context {H Sc : Type} `{RbHost H} `{SF : SchedFrame Sc}.
Notation St := (RbState H Sc).
Notation ok m := (stable (@on_drv H Sc waiting_same) m).

Lemma waiting_refuse c : ok (rb_refuse c).
Proof. apply st_refuse_with; [apply _|]. intros c' d0 d Hd _. exact Hd. Qed.

(** The first [k] queues are empty, the others hold at most what fits. *)
Definition drained_to (k : nat) (l : list Z) : Prop :=
  length l = 6%nat /\
  forall i n, l !! i = Some n -> 0 <= n <= (if (i <? k)%nat then 0 else if (i <? 5)%nat then 32 else 256).
Definition drain_inv (k : nat) (s : St) : Prop := exists l, waiting (r_drv s) = Some l /\ drained_to k l.
Definition left_in (k : nat) (s : St) : Z := default 0 (waiting (r_drv s) ≫= (.!! k)).

Lemma left_range k s : drain_inv k s -> 0 <= left_in k s.
Proof.
  intros (l & E & Hl & Hb). unfold left_in. rewrite E. simpl.
  destruct (l !! k) as [n|] eqn:En; [|done]. apply Hb in En. simpl. lia.
Qed.

(** Taking from queue [k]. *)
Definition takes {A} (k : nat) (f : RNetSession -> option A * RNetSession) : Prop := forall x,
  match f x with
  | (None, x') => x' = x /\ (forall n, ctl_waiting (s_ctl x) !! k = Some n -> n <= 0)
  | (Some _, x') => exists n, ctl_waiting (s_ctl x) !! k = Some n /\ 0 < n /\
      ctl_waiting (s_ctl x') = <[k := n - 1]> (ctl_waiting (s_ctl x))
  end.

Lemma take_spec {A} k (f : RNetSession -> option A * RNetSession) s :
  (k < 6)%nat -> takes k f -> drain_inv k s ->
  wp (sess None f) (fun o s' => drain_inv k s' /\
    match o with None => left_in k s' <= 0 | Some _ => 0 < left_in k s /\ left_in k s' = left_in k s - 1 end) s.
Proof.
  intros Hk Hf (l & E & Hl & Hb). unfold wp, sess.
  assert (left_in k s = default 0 (l !! k)) as El by (unfold left_in; by rewrite E).
  rewrite !El. clear El. unfold waiting in E.
  destruct (rb_session (r_drv s)) as [x|] eqn:Ex; [|done]. simpl in E. injection E as <-.
  specialize (Hf x). destruct (f x) as [[a|] x']; simpl.
  - destruct Hf as (n & En & Hn & Ew). rewrite En. simpl.
    assert (waiting (set_d_session (Some x') (r_drv s)) = Some (<[k := n - 1]> (ctl_waiting (s_ctl x)))) as Ew'.
    { unfold waiting, rb_session in *. simpl. destruct (dc_session_bound _); [|done]. simpl. by rewrite Ew. }
    unfold left_in. simpl. rewrite Ew'. simpl. rewrite list_lookup_insert_eq by (simpl; lia). simpl.
    split; [|lia]. eexists. split; [exact Ew'|]. split; [by rewrite length_insert|].
    intros i m Hi. destruct (decide (i = k)) as [->|Hne].
    + rewrite list_lookup_insert_eq in Hi by (simpl; lia). injection Hi as <-.
      pose proof (Hb k n En). lia.
    + rewrite list_lookup_insert_ne in Hi by done. by apply Hb.
  - destruct Hf as [-> Hn].
    assert (waiting (set_d_session (Some x) (r_drv s)) = Some (ctl_waiting (s_ctl x))) as Ew'.
    { unfold waiting, rb_session in *. simpl. destruct (dc_session_bound _); done. }
    split; [eexists; split; [exact Ew'|by split]|]. unfold left_in. simpl. rewrite Ew'. simpl.
    destruct (ctl_waiting (s_ctl x) !! k) as [n|] eqn:En; [|done]. simpl. by apply Hn.
Qed.

Lemma takes_ctl {A} `{CtrlMsg A} k (get : RNetCtl -> ring_q A) put from :
  (forall c, ctl_waiting c !! k = Some (q_count (get c))) ->
  (forall q from' c, ctl_waiting (put q (set_ct_rb_last_from from' c)) = <[k := q_count q]> (ctl_waiting c)) ->
  takes k (take_ctl get put from).
Proof.
  intros Hg Hp x. unfold take_ctl, ctrl_take, q_take. destruct (Z.leb_spec (q_count (get (s_ctl x))) 0) as [Hz|Hz].
  - split; [done|]. intros n. rewrite Hg. intros [= <-]. lia.
  - exists (q_count (get (s_ctl x))). split; [apply Hg|]. split; [lia|]. simpl. by rewrite Hp.
Qed.
Lemma takes_sync : takes 0 rnet_session_take_rb_sync.
Proof. by apply takes_ctl. Qed.
Lemma takes_base : takes 2 rnet_session_take_rb_baseline.
Proof. by apply takes_ctl. Qed.
Lemma takes_post : takes 3 rnet_session_take_rb_post.
Proof. by apply takes_ctl. Qed.
Lemma takes_resolved : takes 4 rnet_session_take_rb_resolved.
Proof. by apply takes_ctl. Qed.
Lemma takes_seal : takes 1 rnet_session_take_rb_seal_rows.
Proof.
  intros x. unfold rnet_session_take_rb_seal_rows.
  assert (takes 1 (take_ctl ct_seal_q set_ct_seal_q se_from)) as Ht by by apply takes_ctl.
  specialize (Ht x). destruct (take_ctl _ _ _ x) as [[e|] x']; exact Ht.
Qed.
Lemma takes_fc : takes 5 rnet_session_take_rb_frame_commit.
Proof.
  intros x. unfold rnet_session_take_rb_frame_commit, q_take.
  destruct (Z.leb_spec (q_count (ct_fc_q (s_ctl x))) 0) as [Hz|Hz].
  - split; [done|]. intros n [= <-]. lia.
  - exists (q_count (ct_fc_q (s_ctl x))). split; [done|]. split; [lia|]. done.
Qed.

(** One of the six loops. *)
Lemma drain_queue {A} k n (f : RNetSession -> option A * RNetSession) handle (s : St) :
  (k < 6)%nat -> takes k f -> (forall a, ok (handle a)) -> (if (k <? 5)%nat then 33 else 257) <= Z.of_nat n ->
  drain_inv k s -> wp (drain n (sess None f) handle) (fun b s' => b = true /\ drain_inv (S k) s') s.
Proof.
  intros Hk Hf Hh Hn Hs.
  assert (left_in k s < Z.of_nat n) as Hlt.
  { destruct Hs as (l & E & Hl & Hb). unfold left_in. rewrite E. simpl.
    destruct (l !! k) as [m|] eqn:Em; simpl; [|case_match; lia]. apply Hb in Em.
    rewrite Nat.ltb_irrefl in Em. case_match; lia. }
  eapply wp_mono; [apply (drain_ends (drain_inv k) (left_in k))|].
  - apply left_range.
  - intros t Ht. by apply take_spec.
  - intros a t (l & E & Hl). pose proof (Hh a t) as Hw. unfold on_drv, waiting_same in Hw. unfold wp.
    split; [exists l; by rewrite Hw|]. unfold left_in. by rewrite Hw.
  - exact Hs.
  - exact Hlt.
  - intros b t (-> & (l & E & Hl & Hb) & Hz). split; [done|]. exists l. split; [done|]. split; [done|].
    intros i m Hi. pose proof (Hb i m Hi) as Hm. unfold left_in in Hz. rewrite E in Hz. simpl in Hz.
    destruct (decide (i = k)) as [->|Hne].
    + rewrite Hi in Hz. simpl in Hz. replace (k <? S k)%nat with true by (symmetry; apply Nat.ltb_lt; lia). lia.
    + replace (i <? S k)%nat with (i <? k)%nat; [done|].
      destruct (Nat.ltb_spec i k), (Nat.ltb_spec i (S k)); try done; lia.
Qed.
End Drain.

(** C8. The wire is drained, always: with what the session's queues can hold
    (32 messages each, 256 frame commits), the six loops of [rb_drain_wire]
    all end, and when they have ended no message is left waiting - the
    handlers, which may open, follow, extend, commit or abort an episode and
    send messages of their own, never add to a queue. *)
Theorem drain_wire_terminates {H Sc : Type} `{RbHost H} `{SchedFrame Sc} (st : RbState H Sc) (s : RNetSession) :
  rb_session (r_drv st) = Some s ->
  (forall i n, ctl_waiting (s_ctl s) !! i = Some n -> 0 <= n <= (if (i <? 5)%nat then RNET_RB_CTRL_QUEUE else RNET_RB_FC_QUEUE)) ->
  wp rb_drain_wire (fun ended st' =>
    ended = true /\ waiting (r_drv st') = Some [0; 0; 0; 0; 0; 0]) st.
Proof.
  intros Es Hb.
  assert (drain_inv 0 st) as H0'.
  { exists (ctl_waiting (s_ctl s)). split; [unfold waiting; by rewrite Es|]. split; [done|exact Hb]. }
  pose proof (@waiting_refuse H Sc _) as Hr.
  unfold rb_drain_wire. apply wp_bind, wp_gets. rewrite Es. cbn [negb bool_decide].
  apply wp_bind; eapply wp_mono;
    [apply (drain_queue 0); [lia|apply takes_sync|exact (st_on_sync waiting_same Hr)|done|done]|]. intros b1 s1 [-> I1].
  apply wp_bind; eapply wp_mono;
    [apply (drain_queue 1); [lia|apply takes_seal|exact (st_on_seal waiting_same)|done|done]|]. intros b2 s2 [-> I2].
  apply wp_bind; eapply wp_mono;
    [apply (drain_queue 2); [lia|apply takes_base|exact (st_on_base waiting_same)|done|done]|]. intros b3 s3 [-> I3].
  apply wp_bind; eapply wp_mono;
    [apply (drain_queue 3); [lia|apply takes_post|exact (st_on_post waiting_same)|done|done]|]. intros b4 s4 [-> I4].
  apply wp_bind; eapply wp_mono;
    [apply (drain_queue 4); [lia|apply takes_resolved|intros a; exact (st_coreu waiting_same _)|done|done]|]. intros b5 s5 [-> I5].
  apply wp_bind; eapply wp_mono;
    [apply (drain_queue 5); [lia|apply takes_fc|exact (st_on_fc waiting_same)|done|done]|]. intros b6 s6 [-> I6].
  apply wp_ret. split; [done|]. destruct I6 as (l & -> & Hl & Hz). f_equal.
  do 6 (destruct l as [|? l]; [done|]). destruct l; [|done].
  pose proof (Hz 0%nat _ eq_refl). pose proof (Hz 1%nat _ eq_refl). pose proof (Hz 2%nat _ eq_refl).
  pose proof (Hz 3%nat _ eq_refl). pose proof (Hz 4%nat _ eq_refl). pose proof (Hz 5%nat _ eq_refl).
  simpl in *. repeat f_equal; lia.
Qed.

(** ** On the concrete match *)

Definition demo_waiting : RbState toy_host unit :=
  Eval vm_compute in on_match (set_d_session (Some (demo_announced 0))).
Definition demo_waiting_session : RNetSession := Eval vm_compute in demo_announced 0.
Lemma demo_waiting_bound i n :
  ctl_waiting (s_ctl demo_waiting_session) !! i = Some n ->
  0 <= n <= (if (i <? 5)%nat then RNET_RB_CTRL_QUEUE else RNET_RB_FC_QUEUE).
Proof.
  change (ctl_waiting (s_ctl demo_waiting_session)) with [0; 0; 0; 0; 0; 1].
  do 6 (destruct i as [|i]; [intros [= <-]; vm_compute; split; discriminate|]). done.
Qed.
Lemma drain_wire_terminates_witness :
  waiting (r_drv demo_waiting) = Some [0; 0; 0; 0; 0; 1] /\
  fst (rb_drain_wire demo_waiting) = true /\
  waiting (r_drv (snd (rb_drain_wire demo_waiting))) = Some [0; 0; 0; 0; 0; 0].
Proof.
  split; [vm_compute; reflexivity|].
  pose proof (drain_wire_terminates demo_waiting demo_waiting_session ltac:(vm_compute; reflexivity) demo_waiting_bound) as Hd.
  unfold wp in Hd. destruct (rb_drain_wire demo_waiting) as [b s]. exact Hd.
Defined.
