(* ===== verification/DriverPump.v ===== *)
(** * The episode pump

    What ends an episode: agreement of the digests commits it and raises the
    confirmed watermark; disagreement, a refusal to replay or the watchdog
    aborts it; nothing else touches the watermark. *)

From stdpp Require Import base list numbers list_numbers strings.
From S2P Require Import Prelude StateM Protocol Config Rings Contract Rollback InputHist HashConfirm CtrlQueue Session SessionState SessionMain SessionStats DriverData Driver DriverEpisode DriverWire SessionProofs DriverMain DriverFrame DriverDemo DriverLive DriverBoot.

(** The tick through which the peers are known to agree. *)
Definition watermark (d : RNetRbDriver) : Z := match d_rb d with Some rb => rs_resolved_through rb | None => 0 end.
Definition watermark_same (d d' : RNetRbDriver) : Prop := watermark d' = watermark d.
#[export] Instance watermark_same_pre : PreOrder watermark_same.
Proof. split; unfold watermark_same; [by intros d|]. intros a b c. congruence. Qed.

Section Watermark.
Context {H Sc : Type} `{RbHost H} `{SF : SchedFrame Sc}.
Notation ok m := (stable (@on_drv H Sc watermark_same) m).

Lemma wm_drv {A} (f : RNetRbDriver -> A) : ok (drv f).
Proof. intros s. reflexivity. Qed.
Lemma wm_hostq {A} (f : H -> A) : ok (hostq f).
Proof. intros s. reflexivity. Qed.
Lemma wm_host {A} (f : H -> A * H) : ok (hostm f).
Proof. intros s. unfold hostm, on_drv. destruct (f (r_host s)). reflexivity. Qed.
Lemma wm_hostu (f : H -> H) : ok (hostu f).
Proof. intros s. apply (reflexivity (R := watermark_same)). Qed.
Lemma wm_coreq {A} (x : A) f : ok (coreq x f).
Proof. intros s. reflexivity. Qed.
Lemma wm_sess {A} (x : A) f : ok (sess x f).
Proof. intros s. unfold sess. destruct (rb_session (r_drv s)); [|reflexivity]. by destruct (f _). Qed.
Lemma wm_upd f : (forall d, d_rb (f d) = d_rb d) -> ok (upd f).
Proof. intros Hf s. unfold on_drv, watermark_same, watermark. simpl. by rewrite Hf. Qed.
Lemma wm_coreu f : (forall rb, rs_resolved_through (f rb) = rs_resolved_through rb) -> ok (coreu f).
Proof.
  intros Hf s. unfold on_drv, watermark_same, watermark. simpl.
  destruct (d_rb (r_drv s)) eqn:E; simpl; [apply Hf|by rewrite E].
Qed.
Lemma hc_note_rb t dig d : d_rb (rb_hc_note_local t dig d) = d_rb d.
Proof.
  apply (for_upto_ind (fun _ e => d_rb e = d_rb d)); [done|done|]. intros i e _ He. by case_match.
Qed.
Lemma clear_span_rb a b d : d_rb (rb_owed_clear_span a b d) = d_rb d.
Proof.
  unfold rb_owed_clear_span. case_match; [done|]. bool_prop.
  apply (for_range_ind (fun _ e => d_rb e = d_rb d)); [lia|done|]. intros i e _ He.
  unfold rb_owed_clear. by case_match.
Qed.

Local Hint Resolve wm_drv wm_hostq wm_host wm_hostu wm_coreq wm_sess : stable.
Local Hint Extern 3 (stable _ (upd _)) =>
  apply wm_upd; intros;
  solve [repeat (match goal with |- d_rb (if ?b then _ else _) = _ => destruct b end); reflexivity
        | apply hc_note_rb | apply clear_span_rb] : stable.
Local Hint Extern 3 (stable _ (coreu _)) => apply wm_coreu; reflexivity : stable.

Lemma wm_stage_set st : ok (rb_stage_set st).
Proof. unfold rb_stage_set, rb_now. stable_tac. Qed.
Local Hint Resolve wm_stage_set : stable.
Lemma wm_clear : ok rb_episode_clear.
Proof. unfold rb_episode_clear. stable_tac. Qed.
Lemma wm_resim_end : ok rb_resim_end.
Proof. unfold rb_resim_end. stable_tac. Qed.
Local Hint Resolve wm_clear wm_resim_end : stable.
Lemma wm_restore : ok rb_restore_tip.
Proof. unfold rb_restore_tip. stable_tac. Qed.
Local Hint Resolve wm_restore : stable.
Lemma wm_abort c : ok (rb_episode_abort c).
Proof. unfold rb_episode_abort, send_sync. stable_tac. Qed.
Local Hint Resolve wm_abort : stable.
Lemma wm_lockstep : ok rb_enter_lockstep.
Proof. unfold rb_enter_lockstep. stable_tac. Qed.
Local Hint Resolve wm_lockstep : stable.
Lemma wm_compare : ok rb_baseline_try_compare.
Proof. unfold rb_baseline_try_compare, baseline_fork, note_fork, forced_fork. stable_tac. Qed.
Local Hint Resolve wm_compare : stable.
Lemma wm_send_baseline : ok rb_send_baseline.
Proof. unfold rb_send_baseline, has_session. stable_tac. Qed.
Lemma wm_load_rows t : ok (rb_load_sealed_rows t).
Proof. unfold rb_load_sealed_rows. stable_tac. Qed.
Lemma wm_snap t : ok (rb_snap_take t).
Proof. unfold rb_snap_take. stable_tac. Qed.
Local Hint Resolve wm_send_baseline wm_load_rows wm_snap : stable.
Lemma wm_advance t : ok (rb_advance_sim t).
Proof. unfold rb_advance_sim, rb_publish, rb_replay_note, count_resim. stable_tac. Qed.
Lemma wm_finish : ok rb_replay_finish.
Proof. unfold rb_replay_finish, sessu. stable_tac. Qed.
Local Hint Resolve wm_advance wm_finish : stable.
Lemma wm_run_replay : ok rb_run_replay.
Proof. unfold rb_run_replay, replay_rewound, rb_resim_begin, rb_replay_missing_abort. stable_tac. Qed.
Lemma wm_verify : ok rb_enter_verify.
Proof. unfold rb_enter_verify, rb_now. stable_tac. Qed.
Lemma wm_expired : ok rb_stage_expired.
Proof. unfold rb_stage_expired, rb_now. stable_tac. Qed.
Lemma wm_begin_resend : ok rb_begin_resend.
Proof. unfold rb_begin_resend, rb_now, send_sync. stable_tac. Qed.
Lemma wm_post_resend : ok rb_post_resend.
Proof. unfold rb_post_resend, rb_now. stable_tac. Qed.
Local Hint Resolve wm_run_replay wm_verify wm_expired wm_begin_resend wm_post_resend : stable.
Lemma wm_sealing : ok pump_sealing.
Proof. unfold pump_sealing. stable_tac. Qed.
Lemma wm_tip_hold : ok pump_tip_hold.
Proof. unfold pump_tip_hold. stable_tac. Qed.
Lemma wm_fork bad : ok (post_fork bad).
Proof. unfold post_fork, note_fork. stable_tac. Qed.
End Watermark.

(** ** The masks *)

Lemma expect_bits d i : Z.testbit (rb_expect_mask d) i = true -> 0 <= i < RNET_RB_MAX_SLOTS.
Proof.
  intros Hi. destruct (Z.neg_nonneg_cases i) as [Hn|Hn]; [by rewrite Z.testbit_neg_r in Hi|].
  split; [done|]. pose proof (slot_count_range d) as Hc. unfold RNET_RB_MAX_SLOTS in *.
  destruct (Z.lt_ge_cases i 8) as [|Hge]; [done|]. exfalso.
  assert (Z.testbit (bit (rb_slot_count d) - 1) i = false) as Hb.
  { unfold bit. rewrite Z.shiftl_1_l, Z.sub_1_r, <-Z.ones_equiv. apply Z.ones_spec_high. lia. }
  unfold rb_expect_mask in Hi. replace (32 <=? rb_slot_count d) with false in Hi by (symmetry; apply Z.leb_gt; lia).
  repeat (case_match || rewrite Z.ldiff_spec in Hi || rewrite Z.land_spec in Hi || rewrite Hb in Hi); bool_prop.
  all: try rewrite andb_false_r in Hi; done.
Qed.
Lemma expect_seats d i : i ∈ seats_of (rb_expect_mask d) <-> 0 <= i /\ has_bit (rb_expect_mask d) i = true.
Proof.
  unfold seats_of. rewrite list_elem_of_In, filter_In, <-list_elem_of_In, elem_of_seqZ. split; [intuition lia|].
  intros [Hi Hb]. split; [|done]. rewrite has_bit_testbit in Hb by done. apply expect_bits in Hb. lia.
Qed.
Lemma covers_expect d m :
  (Z.land m (rb_expect_mask d) =? rb_expect_mask d) = true <->
  forall i, i ∈ seats_of (rb_expect_mask d) -> has_bit m i = true.
Proof.
  rewrite Z.eqb_eq. split.
  - intros E i [Hi Hb]%expect_seats. rewrite <-E, has_bit_land in Hb by done. by bool_prop.
  - intros Ha. apply Z.bits_inj'. intros i Hi. rewrite Z.land_spec.
    destruct (Z.testbit (rb_expect_mask d) i) eqn:E; [|apply andb_false_r]. rewrite andb_true_r.
    rewrite <-has_bit_testbit by done. apply Ha, expect_seats. by rewrite has_bit_testbit.
Qed.

(** Every expected peer posted, for our target tick, the digest we have. *)
Definition posts_agree (d : RNetRbDriver) : Prop :=
  forall i, i ∈ seats_of (rb_expect_mask d) ->
    has_bit (ep_peer_post_mask (d_ep d)) i = true /\
    rd 0 (ep_peer_post_target (d_ep d)) i = co_target_tick (corr d) /\
    rd 0 (ep_peer_post_digest (d_ep d)) i = ep_local_post_digest (d_ep d).

Lemma drop_stale_bit d i : 0 <= i ->
  has_bit (ep_peer_post_mask (d_ep (drop_stale_posts d))) i =
  has_bit (ep_peer_post_mask (d_ep d)) i && (i <? RNET_RB_MAX_SLOTS) &&
  (rd 0 (ep_peer_post_target (d_ep d)) i =? co_target_tick (corr d)).
Proof.
  intros Hi. unfold drop_stale_posts, mask_of. simpl.
  rewrite mask_of_bits; [|intros j Hj; apply seats_range in Hj; lia|done]. rewrite has_bit_0. simpl.
  unfold rnet_rb_peer_post_tip_ok, corr. apply eq_true_iff_eq. rewrite existsb_exists. split.
  - intros (j & Hj & E). bool_prop. subst j. unfold seats_of in Hj.
    rewrite filter_In, <-list_elem_of_In, elem_of_seqZ in Hj. destruct Hj as [Hr ->].
    rewrite (proj2 (Z.ltb_lt i _)) by lia. simpl. by apply Z.eqb_eq.
  - intros E. bool_prop. exists i. unfold seats_of.
    rewrite filter_In, <-list_elem_of_In, elem_of_seqZ, Z.eqb_refl, andb_true_r.
    split; [split; [lia|done]|by apply Z.eqb_eq].
Qed.

Lemma posts_verdict d :
  rb_expect_mask d <> 0 ->
  let e := drop_stale_posts d in
  let m := ep_peer_post_mask (d_ep e) in
  posts_agree d <->
  nz m && (Z.land m (rb_expect_mask e) =? rb_expect_mask e) = true /\ post_differs e = None.
Proof.
  intros Hne e m.
  assert (rb_expect_mask e = rb_expect_mask d) as Ee by done. rewrite Ee.
  assert (forall i, i ∈ seats_of (rb_expect_mask d) -> has_bit m i =
    has_bit (ep_peer_post_mask (d_ep d)) i && (rd 0 (ep_peer_post_target (d_ep d)) i =? co_target_tick (corr d))) as Hb.
  { intros i Hi. pose proof (seats_range _ _ Hi). unfold m, e. rewrite drop_stale_bit by lia.
    by rewrite (proj2 (Z.ltb_lt i _)), andb_true_r by lia. }
  assert (post_differs e = None <-> forall i, i ∈ seats_of (rb_expect_mask d) ->
    rd 0 (ep_peer_post_digest (d_ep d)) i = ep_local_post_digest (d_ep d)) as Hd.
  { unfold post_differs. rewrite Ee. split.
    - intros Hf i Hi. apply list_elem_of_In in Hi. pose proof (find_none _ _ Hf i Hi) as Hn.
      apply negb_false_iff, Z.eqb_eq in Hn. exact Hn.
    - intros Ha. destruct (find _ _) as [i|] eqn:Ef; [|done]. apply find_some in Ef as [Hi Hx].
      apply list_elem_of_In, Ha in Hi. apply negb_true_iff, Z.eqb_neq in Hx. simpl in Hx. contradiction. }
  rewrite Hd, andb_true_iff, covers_expect. split.
  - intros Ha. split; [|intros i Hi; by apply Ha]. assert (forall i, i ∈ seats_of (rb_expect_mask d) -> has_bit m i = true) as Hm.
    { intros i Hi. rewrite (Hb i Hi). destruct (Ha i Hi) as (-> & -> & _). by rewrite Z.eqb_refl. }
    split; [|done]. unfold nz. apply negb_true_iff, Z.eqb_neq. intros E0. apply Hne.
    apply Z.bits_inj'. intros i Hi. rewrite Z.bits_0. destruct (Z.testbit (rb_expect_mask d) i) eqn:E; [|done].
    rewrite <-has_bit_testbit in E by done. specialize (Hm i (proj2 (expect_seats d i) (conj Hi E))).
    by rewrite E0, has_bit_0 in Hm.
  - intros [[_ Hm] Hg] i Hi. specialize (Hm i Hi). rewrite (Hb i Hi) in Hm. bool_prop.
    split; [done|]. split; [done|by apply Hg].
Qed.

(** ** What each step does to the stage *)

Section Stage.
Context {H Sc : Type} `{RbHost H} `{SF : SchedFrame Sc}.
Notation St := (RbState H Sc).
Notation P := (M St).

Lemma stage_set_spec st (s : St) : wp (rb_stage_set st) (fun _ s' => stage (r_drv s') = st) s.
Proof.
  unfold rb_stage_set. apply wp_bind, wp_gets, wp_bind, wp_any. intros _ s1. apply wp_bind, wp_modify, wp_bind.
  eapply wp_mono with (P := fun _ s' => stage (r_drv s') = st).
  { unfold wp, rb_now, hostm. by destruct (host_now_ms _). }
  intros now s2 E. apply wp_modify. exact E.
Qed.
Lemma clear_idle (s : St) : wp rb_episode_clear (fun _ s' => stage (r_drv s') = kRbIdle) s.
Proof.
  unfold rb_episode_clear. apply wp_bind. eapply wp_mono; [apply stage_set_spec|]. intros ? s1 E. cbv beta in E.
  apply wp_bind, wp_modify, wp_modify. unfold stage in *. simpl. by case_match.
Qed.
Lemma abort_idle c (s : St) : wp (rb_episode_abort c) (fun _ s' => stage (r_drv s') = kRbIdle) s.
Proof.
  unfold rb_episode_abort. do 4 (apply wp_bind, wp_any; intros ? ?). apply wp_bind.
  eapply wp_mono; [apply clear_idle|]. intros ? s1 E. cbv beta in E. apply wp_modify. exact E.
Qed.

(** The replay that did not run to its end: aborted, or handed to the host. *)
Lemma run_replay_stage (s : St) :
  wp rb_run_replay (fun ran s' => ran = false -> stage (r_drv s') = kRbIdle \/ stage (r_drv s') = kRbReplaying) s.
Proof.
  assert (forall c (t : St), wp (do! rb_episode_abort c; ret false)
    (fun ran s' => ran = false -> stage (r_drv s') = kRbIdle \/ stage (r_drv s') = kRbReplaying) t) as Ha.
  { intros c t. apply wp_bind. eapply wp_mono; [apply abort_idle|]. intros ? t' E. cbv beta in E. apply wp_ret. auto. }
  unfold rb_run_replay, replay_rewound. do 2 (apply wp_bind, wp_any; intros ? ?). apply wp_bind, wp_any. intros [] s1; [|apply Ha].
  apply wp_bind, wp_any. intros load s2. apply wp_bind, wp_any. intros [] s3; [|apply Ha].
  do 2 (apply wp_bind, wp_any; intros ? ?). apply wp_bind, wp_gets.
  destruct (idle _) eqn:Ei; [apply wp_ret; intros _; left; by apply bool_decide_eq_true in Ei|].
  do 2 (apply wp_bind, wp_any; intros ? ?). apply wp_bind, wp_gets. case_bool_decide.
  - apply wp_bind, wp_any. intros ? ?. apply wp_bind. eapply wp_mono; [apply stage_set_spec|].
    intros ? t E. cbv beta in E. apply wp_ret. auto.
  - apply wp_bind, wp_any. intros failed s4. case_bool_decide.
    + apply wp_bind, wp_any. intros _ s5. apply wp_ret. done.
    + apply wp_bind, wp_any. intros _ s5. apply Ha.
Qed.
Lemma verify_stage (s : St) : wp rb_enter_verify (fun _ s' => stage (r_drv s') = kRbVerifying) s.
Proof. unfold rb_enter_verify. do 6 (apply wp_bind, wp_any; intros ? ?). apply wp_bind, wp_any. intros ? ?. apply stage_set_spec. Qed.

(** The core is left alone. *)
Definition core_same (d d' : RNetRbDriver) : Prop := d_rb d' = d_rb d.
#[export] Instance core_same_pre : PreOrder core_same.
Proof. split; unfold core_same; [by intros d|]. intros a b c. congruence. Qed.
Lemma note_core {A} (op : RNetSchedBridge St -> M (Sc * St) A) (s : St) :
  (forall br, sched_quiet br (op br)) -> wp (sched_note op) (fun _ s' => d_rb (r_drv s') = d_rb (r_drv s)) s.
Proof.
  intros Hop. unfold wp, sched_note, sched_call.
  specialize (Hop (rb_bridge (fun _ _ => ret None)) (on_drv core_same) _).
  assert (bridge_quiet (on_drv core_same) (rb_bridge (fun _ _ => ret None) : RNetSchedBridge St)) as Hq.
  { split; [|done|done]. intros t. simpl. unfold rb_now, hostm, on_drv. by destruct (host_now_ms _). }
  specialize (Hop Hq (r_sched s, s)). destruct (op _ _) as [a [sc s']]. exact Hop.
Qed.
Lemma raise_resolved_max rb :
  rs_resolved_through (raise_resolved rb) = Z.max (rs_resolved_through rb) (co_target_tick (rs_corr rb)) /\
  rs_corr (raise_resolved rb) = rs_corr rb.
Proof. unfold raise_resolved. destruct (Z.ltb_spec (rs_resolved_through rb) (co_target_tick (rs_corr rb))); simpl; split; try done; lia. Qed.

Lemma send_commit_keeps (s : St) : wp send_commit (fun _ s' => stage (r_drv s') = stage (r_drv s) /\
  d_rb (r_drv s') = d_rb (r_drv s)) s.
Proof.
  assert (forall A (x : A) f (t : St), wp (sess x f) (fun _ t' => stage (r_drv t') = stage (r_drv t) /\
    d_rb (r_drv t') = d_rb (r_drv t)) t) as Hs.
  { intros A x f t. unfold wp, sess. destruct (rb_session (r_drv t)); [|done]. by destruct (f _). }
  unfold send_commit, send_sync. apply wp_bind, wp_gets, wp_bind.
  eapply wp_mono; [apply Hs|]. intros ? s1 [E1 E2]. apply wp_bind, wp_gets, wp_bind.
  eapply wp_mono; [apply Hs|]. intros ? s2 [E3 E4]. apply wp_ret. cbv beta in *. split; congruence.
Qed.

Lemma commit_spec rb (s : St) :
  d_rb (r_drv s) = Some rb ->
  wp rb_commit_episode (fun _ s' =>
    (stage (r_drv s') = kRbTipHold \/ stage (r_drv s') = kRbIdle) /\
    watermark (r_drv s') = Z.max (rs_resolved_through rb) (co_target_tick (rs_corr rb))) s.
Proof.
  intros Erb. destruct (raise_resolved_max rb) as [Er Ec]. unfold rb_commit_episode.
  apply wp_bind, wp_modify, wp_bind, wp_modify, wp_bind, wp_gets, wp_bind, wp_modify, wp_bind.
  rewrite Erb. eapply wp_mono.
  { apply note_core. intros. apply sf_boundary. }
  intros ? s1 E1. cbv beta in E1. assert (d_rb (r_drv s1) = Some (raise_resolved rb)) as E1'.
  { rewrite E1. cbn [r_drv]. unfold rb_hc_prime_after.
    apply (for_upto_ind (fun _ e => d_rb e = Some (raise_resolved rb))); [done|done|]. intros i e _ He. exact He. }
  clear E1. apply wp_bind, wp_gets. rewrite E1'. apply wp_bind.
  set (r1 := raise_resolved rb) in *. destruct (raise_resolved_max r1) as [Er1 Ec1].
  eapply wp_mono with (P := fun _ s' => (stage (r_drv s') = kRbTipHold \/ stage (r_drv s') = kRbIdle) /\
    watermark (r_drv s') = Z.max (rs_resolved_through rb) (co_target_tick (rs_corr rb))).
  - unfold rnet_rb_enter_tip_hold. destruct (negb _ || _).
    + apply wp_bind, wp_modify. rewrite E1'.
      assert (forall t : St, watermark (r_drv t) = Z.max (rs_resolved_through rb) (co_target_tick (rs_corr rb)) ->
        wp rb_episode_clear (fun _ s' => (stage (r_drv s') = kRbTipHold \/ stage (r_drv s') = kRbIdle) /\
          watermark (r_drv s') = Z.max (rs_resolved_through rb) (co_target_tick (rs_corr rb))) t) as Hc.
      { intros t Et. pose proof (clear_idle t) as Hi. pose proof (wm_clear t) as Hw. unfold wp in *.
        split; [by right|]. unfold on_drv, watermark_same in Hw. congruence. }
      apply Hc. transitivity (rs_resolved_through (raise_resolved (set_rs_phase PhaseCommit (raise_resolved r1))));
        [reflexivity|].
      destruct (raise_resolved_max (set_rs_phase PhaseCommit (raise_resolved r1))) as [-> _].
      transitivity (Z.max (rs_resolved_through (raise_resolved r1)) (co_target_tick (rs_corr (raise_resolved r1))));
        [reflexivity|]. rewrite Er1, Ec1, Er, Ec. lia.
    + apply wp_bind, wp_modify, wp_bind, wp_modify.
      match goal with |- wp _ _ ?t => pose proof (stage_set_spec kRbTipHold t) as Hi;
        pose proof (wm_stage_set kRbTipHold t) as Hw end.
      unfold wp, on_drv, watermark_same in *. split; [by left|]. rewrite Hw.
      transitivity (rs_resolved_through (raise_resolved r1)); [reflexivity|]. rewrite Er1, Er, Ec. lia.
  - intros ? s2 [Es2 Ew2]. eapply wp_mono; [apply send_commit_keeps|]. intros ? s3 [E3 E4].
    unfold watermark in *. rewrite E3, E4. auto.
Qed.

Lemma resend_stage (s : St) : wp rb_begin_resend (fun _ s' => stage (r_drv s') = stage (r_drv s)) s /\
  wp rb_post_resend (fun _ s' => stage (r_drv s') = stage (r_drv s)) s.
Proof.
  assert (forall t : St, wp rb_now (fun _ t' => r_drv t' = r_drv t) t) as Hn.
  { intros t. unfold wp, rb_now, hostm. by destruct (host_now_ms _). }
  assert (forall A (x : A) f (t : St), wp (sess x f) (fun _ t' => stage (r_drv t') = stage (r_drv t)) t) as Hs.
  { intros A x f t. unfold wp, sess. destruct (rb_session (r_drv t)); [|done]. by destruct (f _). }
  split.
  - unfold rb_begin_resend. apply wp_bind. eapply wp_mono; [apply Hn|]. intros now s1 E1. cbv beta in E1.
    apply wp_bind, wp_gets. cbv zeta. case_match; [apply wp_ret; by rewrite E1|]. apply wp_bind.
    eapply wp_mono; [apply Hs|]. intros ? s2 E2. cbv beta in E2. apply wp_modify. rewrite <-E1, <-E2. done.
  - unfold rb_post_resend. apply wp_bind. eapply wp_mono; [apply Hn|]. intros now s1 E1. cbv beta in E1.
    apply wp_bind, wp_gets. cbv zeta. case_match; [apply wp_ret; by rewrite E1|]. apply wp_bind.
    eapply wp_mono; [apply Hs|]. intros ? s2 E2. cbv beta in E2. apply wp_modify. rewrite <-E1, <-E2. done.
Qed.

(** The watchdog's verdict at a state. *)
Definition overdue (s : St) : bool :=
  kn_seal_timeout_ms (d_knobs (r_drv s)) <?
  u32 (fst (host_now_ms (r_host s)) - ep_stage_entered_ms (d_ep (r_drv s))).
Lemma expired_spec (s : St) : wp rb_stage_expired (fun late s' => late = overdue s /\ r_drv s' = r_drv s) s.
Proof.
  unfold rb_stage_expired, overdue, wp, rb_now, hostm, bind, drv, gets, ret. by destruct (host_now_ms _).
Qed.

(** What the pump of a waiting stage makes of it. *)
Lemma sealing_stage (s : St) :
  stage (r_drv s) = kRbSealing ->
  wp pump_sealing (fun _ s' => stage (r_drv s') <> kRbTipHold /\
    (stage (r_drv s') = kRbSealing -> overdue s = false)) s.
Proof.
  intros Es. unfold pump_sealing. apply wp_bind, wp_gets. case_match.
  - apply wp_bind, wp_any. intros _ s1. apply wp_bind. eapply wp_mono; [apply run_replay_stage|].
    intros [] s2 E; cbv beta in E; cbn [when].
    + eapply wp_mono; [apply verify_stage|]. intros ? s3 E3. cbv beta in E3. rewrite E3. done.
    + apply wp_ret. destruct (E eq_refl) as [->| ->]; done.
  - apply wp_bind. eapply wp_mono; [apply expired_spec|]. intros late s1 [-> E1]. destruct (overdue s) eqn:Eo.
    + eapply wp_mono; [apply abort_idle|]. intros ? s2 E2. cbv beta in E2. by rewrite E2.
    + eapply wp_mono; [apply resend_stage|]. intros ? s2 E2. cbv beta in E2. by rewrite E2, E1, Es.
Qed.
Lemma tip_hold_stage (s : St) :
  wp pump_tip_hold (fun _ s' => stage (r_drv s') = kRbIdle \/ (stage (r_drv s') = stage (r_drv s) /\ overdue s = false)) s.
Proof.
  unfold pump_tip_hold. apply wp_bind, wp_gets. cbv zeta. case_match.
  { eapply wp_mono; [apply clear_idle|]. intros ? s1 E. by left. }
  apply wp_bind. eapply wp_mono; [apply expired_spec|]. intros late s1 [-> E1]. destruct (overdue s).
  - eapply wp_mono; [apply clear_idle|]. intros ? s2 E. by left.
  - eapply wp_mono; [apply resend_stage|]. intros ? s2 E. cbv beta in E. right. by rewrite E, E1.
Qed.
Lemma verifying_verdict rb (s : St) :
  d_rb (r_drv s) = Some rb -> rb_expect_mask (r_drv s) <> 0 -> stage (r_drv s) = kRbVerifying ->
  wp pump_verifying (fun _ s' =>
    (posts_agree (r_drv s) -> (stage (r_drv s') = kRbTipHold \/ stage (r_drv s') = kRbIdle) /\
       watermark (r_drv s') = Z.max (rs_resolved_through rb) (co_target_tick (rs_corr rb))) /\
    (~ posts_agree (r_drv s) -> watermark (r_drv s') = rs_resolved_through rb /\
       (stage (r_drv s') = kRbIdle \/ (stage (r_drv s') = kRbVerifying /\ overdue s = false)))) s.
Proof.
  intros Erb Hne Es. pose proof (posts_verdict (r_drv s) Hne) as Hv. cbv zeta in Hv.
  unfold pump_verifying. apply wp_bind, wp_modify, wp_bind, wp_gets. cbn [r_drv]. unfold id. cbv zeta.
  set (e := drop_stale_posts (r_drv s)) in *. set (s1 := mkRbState e (r_host s) (r_sched s)).
  assert (watermark e = rs_resolved_through rb) as Ew by (unfold watermark, e; simpl; by rewrite Erb).
  destruct (decide (nz (ep_peer_post_mask (d_ep e)) &&
    (Z.land (ep_peer_post_mask (d_ep e)) (rb_expect_mask e) =? rb_expect_mask e) = true /\ post_differs e = None))
    as [[Em Ed]|Hn].
  { rewrite Em, Ed. eapply wp_mono; [by apply (commit_spec rb)|]. intros ? s' Hc. split; [done|].
    intros Hna. exfalso. by apply Hna, Hv. }
  apply wp_mono with (P := fun _ s' => watermark (r_drv s') = rs_resolved_through rb /\
       (stage (r_drv s') = kRbIdle \/ (stage (r_drv s') = kRbVerifying /\ overdue s = false))).
  2: { intros ? s' Hc. split; [|done]. intros Ha. by apply Hv in Ha. }
  destruct (nz _ && _) eqn:Em; [destruct (post_differs e) as [bad|] eqn:Ed; [|by destruct Hn]|].
  - apply wp_and; [pose proof (wm_fork bad s1) as Hw; unfold wp, on_drv, watermark_same in *; by rewrite <-Ew|].
    unfold post_fork. do 4 (apply wp_bind, wp_any; intros ? ?).
    eapply wp_mono; [apply abort_idle|]. intros ? t E. by left.
  - apply wp_bind. eapply wp_mono; [apply expired_spec|]. intros late s2 [-> E1].
    assert (overdue s1 = overdue s) as Eo by done. rewrite Eo. destruct (overdue s).
    + apply wp_and; [pose proof (wm_abort RNET_RB_ABORT_CLASS_ABORT s2) as Hw|].
      * unfold wp, on_drv, watermark_same in *. by rewrite Hw, E1.
      * eapply wp_mono; [apply abort_idle|]. intros ? t E. by left.
    + apply wp_bind. eapply wp_mono; [apply wp_and; [apply resend_stage|apply wp_stable, wm_begin_resend]|].
      intros ? s3 [E3 W3]. cbv beta in *.
      eapply wp_mono; [apply wp_and; [apply resend_stage|apply wp_stable, wm_post_resend]|].
      intros ? s4 [E4 W4]. cbv beta in *. unfold on_drv, watermark_same in *.
      rewrite E4, E3, W4, W3, E1. split; [done|]. right. split; [exact Es|done].
Qed.
End Stage.

(** C3. An episode commits exactly on agreement: one pump of the driver raises
    the confirmed watermark to the episode's target tick when it is verifying
    and every expected peer's POST names our target tick and our digest; in
    every other case - another stage, a missing POST, one for another tip, a
    differing digest, an expired watchdog - the watermark stays where it was
    and the episode does not enter tip-hold. *)
Theorem pump_commits_exactly_on_agreement {H Sc : Type} `{RbHost H} `{SchedFrame Sc} (st : RbState H Sc) rb :
  d_rb (r_drv st) = Some rb -> rb_expect_mask (r_drv st) <> 0 ->
  wp rb_pump_episode (fun _ st' =>
    let d := r_drv st in let d' := r_drv st' in
    (stage d = kRbVerifying -> posts_agree d ->
       (stage d' = kRbTipHold \/ stage d' = kRbIdle) /\
       watermark d' = Z.max (rs_resolved_through rb) (co_target_tick (rs_corr rb))) /\
    (~ (stage d = kRbVerifying /\ posts_agree d) ->
       watermark d' = watermark d /\ (stage d' = kRbTipHold -> stage d = kRbTipHold))) st.
Proof.
  intros Erb Hne. assert (watermark (r_drv st) = rs_resolved_through rb) as Ew by (unfold watermark; by rewrite Erb).
  unfold rb_pump_episode. apply wp_bind, wp_gets. destruct (stage (r_drv st)) eqn:Es; try (apply wp_ret; by rewrite Es).
  - pose proof (sealing_stage st Es) as [Hs _]. pose proof (wm_sealing st) as Hw. unfold wp. split; [done|]. done.
  - pose proof (verifying_verdict rb st Erb Hne Es) as [Ha Hn]. unfold wp. split; [intros _; exact Ha|].
    intros Hd. destruct Hn as [-> Hst]; [tauto|]. split; [done|]. intros E. rewrite E in Hst. by destruct Hst as [|[]].
  - pose proof (wm_tip_hold st) as Hw. unfold wp. split; [done|]. done.
Qed.

(** C9. No waiting stage outlives its watchdog: pumped once more than the
    episode budget after it was entered, an episode that waits for seal rows,
    for POSTs or in tip-hold leaves that stage. *)
Theorem overdue_stage_ends {H Sc : Type} `{RbHost H} `{SchedFrame Sc} (st : RbState H Sc) rb :
  d_rb (r_drv st) = Some rb -> rb_expect_mask (r_drv st) <> 0 ->
  rb_gate_episode_active (r_drv st) = true \/ rb_gate_tip_holding (r_drv st) = true ->
  stage (r_drv st) <> kRbReplaying ->
  overdue st = true ->
  wp rb_pump_episode (fun _ st' => stage (r_drv st') <> stage (r_drv st)) st.
Proof.
  intros Erb Hne Hact Hrep Ho. unfold rb_pump_episode. apply wp_bind, wp_gets.
  unfold rb_gate_episode_active, rb_gate_tip_holding in Hact.
  destruct (stage (r_drv st)) eqn:Es; [by destruct Hact|..]; [|done| |].
  - eapply wp_mono; [by apply sealing_stage|]. intros ? s' [_ Hs] E. apply Hs in E. congruence.
  - pose proof (verifying_verdict rb st Erb Hne Es) as [Ha Hn]. unfold wp. intros E.
    assert (~ posts_agree (r_drv st)) as Hna.
    { intros Hp. destruct (Ha Hp) as [[Hx|Hx] _]; congruence. }
    destruct (Hn Hna) as [_ [Hx|[_ Hx]]]; congruence.
  - eapply wp_mono; [apply tip_hold_stage|]. intros ? s' [E|[_ E]]; [by rewrite E|congruence].
Qed.

(** ** On the concrete match *)

(** Verifying a span up to tick 5, with seat 1's POST for tick [t] of digest [h]. *)
Definition demo_verifying (t h : Z) : RbState toy_host unit := on_match (fun d =>
  set_d_sim 6 (set_d_rb (set_rs_corr (mkCorr 8 3 2 5 1 1 0 0) <$> d_rb d)
    (on_ep (fun e => set_ep_peer_post_mask 2 (set_ep_peer_post_target [0; t; 0; 0; 0; 0; 0; 0]
       (set_ep_peer_post_digest [0; h; 0; 0; 0; 0; 0; 0] (set_ep_local_post_digest 77
         (set_ep_corr (mkCorr 8 3 2 5 1 1 0 0) (set_ep_stage kRbVerifying e)))))) d))).

Lemma pump_commits_exactly_on_agreement_witness :
  watermark (r_drv (snd (rb_pump_episode (demo_verifying 5 77)))) = 5 /\
  watermark (r_drv (snd (rb_pump_episode (demo_verifying 4 77)))) = 0.
Proof.
  split.
  - destruct (d_rb (r_drv (demo_verifying 5 77))) as [rb|] eqn:E; [|discriminate].
    destruct (pump_commits_exactly_on_agreement (demo_verifying 5 77) rb E ltac:(vm_compute; discriminate)) as [H _].
    destruct H as [_ ->]; [reflexivity| |].
    + intros i Hi. vm_compute in Hi. apply list_elem_of_singleton in Hi. subst i. vm_compute. auto.
    + injection E as <-. vm_compute. reflexivity.
  - destruct (d_rb (r_drv (demo_verifying 4 77))) as [rb|] eqn:E; [|discriminate].
    destruct (pump_commits_exactly_on_agreement (demo_verifying 4 77) rb E ltac:(vm_compute; discriminate)) as [_ H].
    destruct H as [-> _]; [|vm_compute; reflexivity]. intros [_ Ha].
    destruct (Ha 1) as (_ & Ht & _); [vm_compute; left|]. vm_compute in Ht. discriminate.
Defined.

Definition demo_late : RbState toy_host unit :=
  mkRbState (on_ep (set_ep_peer_post_mask 0) (r_drv (demo_verifying 5 77))) (mkToy 0 [] 5000 []) tt.
Lemma overdue_stage_ends_witness :
  stage (r_drv demo_late) = kRbVerifying /\ stage (r_drv (snd (rb_pump_episode demo_late))) <> kRbVerifying.
Proof.
  split; [reflexivity|]. destruct (d_rb (r_drv demo_late)) as [rb|] eqn:E; [|discriminate].
  exact (overdue_stage_ends demo_late rb E ltac:(vm_compute; discriminate) (or_introl eq_refl)
           ltac:(vm_compute; discriminate) ltac:(vm_compute; reflexivity)).
Defined.
