(* ===== verification/DriverArb.v ===== *)
(** * Two episodes at once

    Two peers may each find a wrong prediction and open an episode before the
    other's BEGIN arrives. The lower seat wins on both sides. *)

From stdpp Require Import base list numbers list_numbers strings.
From S2P Require Import Prelude StateM Protocol Config Rings Contract Rollback InputHist HashConfirm CtrlQueue Session SessionState SessionMain SessionStats DriverData Driver DriverEpisode DriverWire SessionProofs DriverMain DriverFrame DriverDemo DriverLive DriverBoot DriverPump.

(** Which episode is open, and whether it is ours. *)
Definition episode (d : RNetRbDriver) : RbEpisodeStage * RNetRbCorrection * bool :=
  (stage d, corr d, ep_initiator (d_ep d)).
Definition episode_same (d d' : RNetRbDriver) : Prop := episode d' = episode d.
#[export] Instance episode_same_pre : PreOrder episode_same.
Proof. split; unfold episode_same; [by intros d|]. intros a b c. congruence. Qed.

Section Keep.
Context {H Sc : Type} `{RbHost H} `{SF : SchedFrame Sc}.
Notation St := (RbState H Sc).
Notation ok m := (stable (@on_drv H Sc episode_same) m).

Lemma ek_drv {A} (f : RNetRbDriver -> A) : ok (drv f).
Proof. intros s. reflexivity. Qed.
Lemma ek_hostq {A} (f : H -> A) : ok (hostq f).
Proof. intros s. reflexivity. Qed.
Lemma ek_host {A} (f : H -> A * H) : ok (hostm f).
Proof. intros s. unfold hostm, on_drv. destruct (f (r_host s)). reflexivity. Qed.
Lemma ek_coreq {A} (x : A) f : ok (coreq x f).
Proof. intros s. reflexivity. Qed.
Lemma ek_wire t : ok (rb_wire t).
Proof. intros s. reflexivity. Qed.
Lemma ek_sess {A} (x : A) f : ok (sess x f).
Proof. intros s. unfold sess. destruct (rb_session (r_drv s)); [|reflexivity]. by destruct (f _). Qed.
Lemma ek_upd f : (forall d, episode (f d) = episode d) -> ok (upd f).
Proof. intros Hf s. apply Hf. Qed.
Lemma ek_coreu f : ok (coreu f).
Proof. apply ek_upd. intros d. by case_match. Qed.
Local Hint Resolve ek_drv ek_hostq ek_host ek_coreq ek_wire ek_sess ek_coreu : stable.
Local Hint Extern 3 (stable _ (upd _)) =>
  apply ek_upd; intros;
  repeat (match goal with |- episode (if ?b then _ else _) = _ => destruct b
          | |- episode (match ?o with _ => _ end) = _ => destruct o end); reflexivity : stable.

Lemma ek_row slot t : ok (rb_vt_get_input_row slot t).
Proof. unfold rb_vt_get_input_row, ih_put. stable_tac. Qed.
Local Hint Resolve ek_row : stable.
Lemma ek_core_ask from f : ok (core_ask from f).
Proof.
  intros s. unfold core_ask. destruct (d_rb (r_drv s)); [|reflexivity].
  destruct (f _ _); [|reflexivity].
  match goal with |- on_drv _ s (snd (?m s)) => assert (ok m) as Hm; [stable_tac|apply Hm] end.
Qed.
Lemma ek_cover l t : ok (rb_local_rows_cover l t).
Proof. unfold rb_local_rows_cover. stable_tac. Qed.
Lemma ek_nack_begin a b c d e : ok (rb_nack_begin a b c d e).
Proof. unfold rb_nack_begin, send_sync. stable_tac. Qed.
Local Hint Resolve ek_core_ask ek_cover ek_nack_begin : stable.
Lemma ek_send_nack a b c d : ok (rb_send_nack a b c d).
Proof. unfold rb_send_nack, resolved_through. stable_tac. Qed.
Lemma ek_nack_msg m : ok (nack_msg m).
Proof. unfold nack_msg, resolved_through. stable_tac. Qed.
Local Hint Resolve ek_send_nack ek_nack_msg : stable.
Lemma ek_repeat e : ok (rb_begin_repeat e).
Proof. unfold rb_begin_repeat, send_sync. stable_tac. Qed.
Lemma ek_note_seq m : ok (note_begin_seq m).
Proof. unfold note_begin_seq. stable_tac. Qed.
Lemma ek_deferred m : ok (arbitrate_deferred m).
Proof. unfold arbitrate_deferred. stable_tac. Qed.
Lemma ek_follower_span a b c d e : ok (follower_span a b c d e).
Proof. unfold follower_span, rb_snap_has. stable_tac. Qed.
Lemma ek_chunks n slot span off : ok (send_chunks_of n slot span off).
Proof.
  revert off. induction n as [|n IH]; intros off; cbn [send_chunks_of]; [stable_tac|].
  generalize (@send_chunks_of H Sc n) as rest, IH. clear IH n. intros rest IH. cbv zeta. stable_tac.
Qed.
Local Hint Resolve ek_chunks : stable.
Lemma ek_send_rows : ok rb_send_local_seal_rows.
Proof. unfold rb_send_local_seal_rows. stable_tac. Qed.
Lemma ek_seal_take : ok rb_early_seal_take.
Proof. unfold rb_early_seal_take, core_apply. stable_tac. Qed.
Lemma early_answers_episode d : episode (rb_take_early_answers d) = episode d.
Proof.
  unfold rb_take_early_answers. cbv zeta.
  assert (forall l e, episode (fold_left (fun d i => take_early_post i d) l e) = episode e) as Hp.
  { induction l as [|i l IH]; intros e; [done|]. cbn [fold_left]. rewrite IH. unfold take_early_post. by case_match. }
  assert (forall l e, episode (fold_left (fun d i => take_early_base i d) l e) = episode e) as Hb.
  { induction l as [|i l IH]; intros e; [done|]. cbn [fold_left]. rewrite IH. unfold take_early_base. by case_match. }
  match goal with |- episode (on_early _ ?e) = _ => transitivity (episode e); [done|] end. by rewrite Hb, Hp.
Qed.
Lemma ek_early_answers : ok (upd rb_take_early_answers).
Proof. apply ek_upd, early_answers_episode. Qed.
End Keep.

Section Arbitration.
Context {H Sc : Type} `{RbHost H} `{SF : SchedFrame Sc}.
Notation St := (RbState H Sc).
Notation P := (M St).

(** A step that keeps the episode. *)
Lemma wp_keep {A B} (m : P A) (k : A -> P B) Q s ep :
  stable (on_drv episode_same) m -> episode (r_drv s) = ep ->
  (forall a s', episode (r_drv s') = ep -> wp (k a) Q s') -> wp (bind m k) Q s.
Proof.
  intros Hm He Hk. apply wp_bind. unfold wp at 1. apply Hk. specialize (Hm s).
  unfold on_drv, episode_same in Hm. congruence.
Qed.

(** Following an episode: it is the announced one, or none. *)
Definition follows (epoch : Z) (d : RNetRbDriver) : Prop :=
  idle d = true \/ (co_epoch_id (corr d) = epoch /\ ep_initiator (d_ep d) = false).
Lemma follows_episode epoch d d' : episode d' = episode d -> follows epoch d -> follows epoch d'.
Proof. unfold episode, follows, idle. intros [= -> -> ->]. done. Qed.

Lemma announce_spec mis slot load target (s : St) :
  wp (announce mis slot load target false) (fun _ s' =>
    corr (r_drv s') = corr (r_drv s) /\ ep_initiator (d_ep (r_drv s')) = false) s.
Proof.
  unfold announce. apply wp_bind, wp_gets. cbn [when]. apply wp_bind, wp_ret.
  apply (wp_keep _ _ _ _ (episode (r_drv s))); [apply ek_host|done|]. intros now s1 E1.
  apply wp_bind, wp_modify.
  eapply (wp_keep _ _ _ _ (episode (r_drv s))); [apply ek_send_rows|rewrite <-E1; done|]. intros _ s2 E2.
  apply wp_bind, wp_modify, wp_bind.
  eapply wp_mono with (P := fun _ s' => corr (r_drv s') = corr (r_drv s) /\ ep_initiator (d_ep (r_drv s')) = false).
  - injection E2 as _ E2 _. unfold rb_stage_set. apply wp_bind, wp_gets.
    apply wp_bind. cbn [when andb bool_decide]. apply wp_ret. apply wp_bind, wp_modify, wp_bind.
    unfold wp, rb_now, hostm. destruct (host_now_ms _). simpl. split; [exact E2|done].
  - intros _ s3 [E3 E4]. apply wp_modify. by split.
Qed.

Lemma follow_spec mis slot load target epoch flags (s : St) :
  idle (r_drv s) = true ->
  wp (rb_begin_episode mis slot false load target epoch flags) (fun _ s' => follows epoch (r_drv s')) s.
Proof.
  intros Hi. assert (follows epoch (r_drv s)) as Hs by by left.
  unfold rb_begin_episode. apply wp_bind, wp_gets. cbn [andb]. case_match; [by apply wp_ret|].
  case_match; [by apply wp_ret|].
  apply (wp_keep _ _ _ _ (episode (r_drv s))); [apply ek_follower_span|done|]. intros span s1 E1.
  assert (follows epoch (r_drv s1)) as Hs1 by by eapply follows_episode.
  destruct span as [[l t]|]; [|by apply wp_ret]. cbv zeta. case_match; [by apply wp_ret|].
  unfold open_span at 1. cbn [when]. apply wp_bind.
  eapply wp_mono with (P := fun _ s' => co_epoch_id (corr (r_drv s')) = epoch).
  { apply wp_bind, wp_ret, wp_bind, wp_modify, wp_bind, wp_gets.
    eapply (wp_keep _ _ _ _ (episode _)); [apply ek_coreu|reflexivity|]. intros _ s3 E3.
    eapply (wp_keep _ _ _ _ (episode _)); [apply ek_core_ask|exact E3|]. intros _ s4 E4.
    unfold coreq. apply wp_gets. injection E4 as _ E4 _. rewrite E4. reflexivity. }
  intros sealed s2 E2. cbv beta in E2. destruct (negb sealed).
  { apply wp_bind. eapply wp_mono; [apply clear_idle|]. intros ? s3 E3. cbv beta in E3. apply wp_ret.
    left. unfold idle. by rewrite E3. }
  apply wp_bind. eapply wp_mono; [apply announce_spec|]. intros ? s3 [E3 E4]. cbn [when negb].
  assert (follows epoch (r_drv s3)) as Hs3 by (right; split; [by rewrite E3|done]).
  apply wp_bind.
  eapply (wp_keep _ _ _ _ (episode (r_drv s3))); [apply ek_early_answers|done|]. intros _ s4 E5.
  eapply wp_mono; [apply wp_stable, ek_seal_take|]. intros ? s5 E6. cbv beta in E6. apply wp_ret.
  eapply follows_episode; [|exact Hs3].
  unfold on_drv, episode_same in E6. congruence.
Qed.

Lemma arb_loses m (s : St) :
  idle (r_drv s) = false -> ep_initiator (d_ep (r_drv s)) = true ->
  rnet_rb_epoch_initiator (sy_epoch_id m) < rnet_rb_epoch_initiator (co_epoch_id (corr (r_drv s))) ->
  wp (arbitrate_open m) (fun go s' => go = true /\ idle (r_drv s') = true) s.
Proof.
  intros Hi Ho Hlt. unfold arbitrate_open. apply wp_bind, wp_gets. unfold id. rewrite Hi. cbv zeta.
  rewrite (proj2 (Z.ltb_lt _ _) Hlt). cbn [orb]. apply wp_bind.
  eapply wp_mono; [apply clear_idle|]. intros ? s1 E. cbv beta in E. apply wp_ret. split; [done|].
  unfold idle. by rewrite E.
Qed.
Lemma arb_wins m (s : St) :
  idle (r_drv s) = false -> ep_initiator (d_ep (r_drv s)) = true ->
  rnet_rb_epoch_initiator (co_epoch_id (corr (r_drv s))) < rnet_rb_epoch_initiator (sy_epoch_id m) ->
  wp (arbitrate_open m) (fun go s' => go = false /\ episode (r_drv s') = episode (r_drv s)) s.
Proof.
  intros Hi Ho Hlt. unfold arbitrate_open. apply wp_bind, wp_gets. unfold id. rewrite Hi, Ho. cbv zeta.
  rewrite (proj2 (Z.ltb_ge _ _)) by lia. cbn [negb andb orb]. apply wp_bind.
  eapply wp_mono; [apply wp_stable, ek_nack_msg|]. intros ? s1 E. cbv beta in E. by apply wp_ret.
Qed.

(** The side whose seat is lower keeps its episode through the other's BEGIN. *)
Lemma on_begin_wins m (s : St) :
  Z.land (sy_flags m) RNET_RB_SYNC_FLAG_REREPLAY = 0 ->
  idle (r_drv s) = false -> ep_initiator (d_ep (r_drv s)) = true ->
  rnet_rb_epoch_initiator (co_epoch_id (corr (r_drv s))) < rnet_rb_epoch_initiator (sy_epoch_id m) ->
  wp (on_begin m) (fun _ s' => episode (r_drv s') = episode (r_drv s)) s.
Proof.
  intros Hf Hi Ho Hlt. unfold on_begin. apply wp_bind, wp_gets. case_match; [by apply wp_modify|].
  rewrite Hf. cbn [nz negb Z.eqb].
  apply (wp_keep _ _ _ _ (episode (r_drv s))); [apply ek_repeat|done|]. intros rep s1 E1.
  destruct rep; [by apply wp_ret|].
  apply (wp_keep _ _ _ _ (episode (r_drv s))); [apply ek_note_seq|done|]. intros fresh s2 E2.
  destruct fresh; cbn [negb].
  2: { eapply wp_mono; [apply wp_stable, ek_nack_msg|]. intros ? s3 E3. cbv beta in E3.
       unfold on_drv, episode_same in E3. congruence. }
  injection E2 as Es Ec Ei. apply wp_bind. eapply wp_mono.
  - apply arb_wins; [unfold idle; by rewrite Es|congruence|by rewrite Ec].
  - intros go s3 [-> E3]. apply wp_ret. rewrite E3. unfold episode. congruence.
Qed.

(** The other side's BEGIN, heard for the first time. *)
Definition first_heard (d : RNetRbDriver) (epoch : Z) : Prop :=
  existsb (Z.eqb epoch) (take (Z.to_nat (Z.min (ea_begin_seen_n (d_early d)) RB_BEGIN_SEEN))
    (ea_begin_seen (d_early d))) = false /\
  rd 0 (ea_begin_seen_seq (d_early d)) (rnet_rb_epoch_initiator epoch) < epoch_seq epoch.

Lemma on_begin_loses m (s : St) :
  Z.land (sy_flags m) RNET_RB_SYNC_FLAG_REREPLAY = 0 -> rb_is_observer (r_drv s) = false ->
  first_heard (r_drv s) (sy_epoch_id m) ->
  idle (r_drv s) = false -> ep_initiator (d_ep (r_drv s)) = true ->
  rnet_rb_epoch_initiator (sy_epoch_id m) < rnet_rb_epoch_initiator (co_epoch_id (corr (r_drv s))) ->
  wp (on_begin m) (fun _ s' => follows (sy_epoch_id m) (r_drv s')) s.
Proof.
  intros Hf Hob [Hseen Hseq] Hi Ho Hlt. unfold on_begin. apply wp_bind, wp_gets. rewrite Hob, Hf. cbn [nz negb Z.eqb].
  unfold rb_begin_repeat. apply wp_bind, wp_bind, wp_gets. cbv zeta. rewrite Hseen.
  apply wp_bind, wp_modify, wp_ret.
  unfold note_begin_seq. apply wp_bind, wp_bind, wp_gets. cbv zeta.
  match goal with |- wp (if ?b then _ else _) _ _ => replace b with true by (symmetry; by apply Z.ltb_lt) end.
  apply wp_bind, wp_modify, wp_ret. cbn [negb]. apply wp_bind.
  eapply wp_mono; [by apply arb_loses|]. intros go s1 [-> E1]. cbn [negb].
  apply (wp_keep _ _ _ _ (episode (r_drv s1))); [apply ek_deferred|done|]. intros go s2 E2.
  assert (idle (r_drv s2) = true) as E2i by (injection E2 as E2 _ _; unfold idle in *; by rewrite E2).
  destruct go; cbn [negb]; [|apply wp_ret; by left].
  unfold rb_follow_or_defer. apply wp_bind, wp_gets. unfold id. case_match.
  - case_match; [|apply wp_ret; by left]. apply wp_bind, wp_modify.
    eapply (wp_keep _ _ _ _ (episode (r_drv s2))); [apply ek_host|reflexivity|]. intros now s3 E3.
    apply wp_bind, wp_modify, wp_modify. left. injection E3 as E3 _ _. unfold idle, stage in *. simpl. by rewrite E3.
  - apply wp_bind. eapply wp_mono; [by apply follow_spec|]. intros ? s3 E3. by apply wp_ret.
Qed.
End Arbitration.

(** C6. Dual initiation has one winner: when two peers each hold an episode of
    their own and each hears the other's BEGIN for the first time, the peer in
    the lower seat keeps its episode untouched, and the other gives its own
    up - it follows the winner's episode, or waits without one - so the two
    never run different episodes side by side. *)
Theorem dual_initiation_has_one_winner {H1 H2 Sc1 Sc2 : Type} `{RbHost H1} `{RbHost H2}
    `{SchedFrame Sc1} `{SchedFrame Sc2} (low : RbState H1 Sc1) (high : RbState H2 Sc2)
    (begin_low begin_high : rb_sync_entry) :
  sy_epoch_id begin_low = co_epoch_id (corr (r_drv low)) ->
  sy_epoch_id begin_high = co_epoch_id (corr (r_drv high)) ->
  Z.land (sy_flags begin_low) RNET_RB_SYNC_FLAG_REREPLAY = 0 ->
  Z.land (sy_flags begin_high) RNET_RB_SYNC_FLAG_REREPLAY = 0 ->
  idle (r_drv low) = false -> ep_initiator (d_ep (r_drv low)) = true ->
  idle (r_drv high) = false -> ep_initiator (d_ep (r_drv high)) = true ->
  rb_is_observer (r_drv high) = false -> first_heard (r_drv high) (sy_epoch_id begin_low) ->
  rnet_rb_epoch_initiator (sy_epoch_id begin_low) < rnet_rb_epoch_initiator (sy_epoch_id begin_high) ->
  wp (on_begin begin_high) (fun _ low' => episode (r_drv low') = episode (r_drv low)) low /\
  wp (on_begin begin_low) (fun _ high' =>
    idle (r_drv high') = true \/
    (co_epoch_id (corr (r_drv high')) = co_epoch_id (corr (r_drv low)) /\
     ep_initiator (d_ep (r_drv high')) = false)) high.
Proof.
  intros El Eh Fl Fh Il Ol Ih Oh Hob Hfirst Hlt. split.
  - apply on_begin_wins; [done..|]. by rewrite <-El.
  - eapply wp_mono; [apply on_begin_loses; [done..|by rewrite <-Eh]|]. intros ? s' Hs. unfold follows in Hs.
    by rewrite El in Hs.
Qed.

(** ** On the concrete match *)

(** Seat [seat] holds an episode of its own. *)
Definition demo_opened (seat : Z) : RbState toy_host unit := on_match (fun d =>
  set_d_cfg (set_dc_local_slot (Some seat) (d_cfg d))
    (on_ep (fun e => set_ep_initiator true (set_ep_corr (mkCorr (rnet_rb_epoch_make 1 seat) 3 2 5 0 1 0 0)
       (set_ep_stage kRbSealing e))) d)).
Definition demo_begin_msg (seat : Z) : rb_sync_entry := mkSync (rnet_rb_epoch_make 1 seat) 3 2 5 0 1 0 seat.

Lemma dual_initiation_has_one_winner_witness :
  wp (on_begin (demo_begin_msg 1)) (fun _ low' => episode (r_drv low') = episode (r_drv (demo_opened 0))) (demo_opened 0) /\
  wp (on_begin (demo_begin_msg 0)) (fun _ high' =>
    idle (r_drv high') = true \/
    (co_epoch_id (corr (r_drv high')) = co_epoch_id (corr (r_drv (demo_opened 0))) /\
     ep_initiator (d_ep (r_drv high')) = false)) (demo_opened 1).
Proof.
  apply (dual_initiation_has_one_winner (demo_opened 0) (demo_opened 1) (demo_begin_msg 0) (demo_begin_msg 1));
    vm_compute; try reflexivity. split; reflexivity.
Defined.
