(* ===== verification/DriverLockstep.v ===== *)
(** * Lockstep

    Under lockstep - after a fork, for an observer, or while a hold is set - a
    tick runs only on rows the peers really sent. *)

From stdpp Require Import base list numbers list_numbers strings.
From S2P Require Import Prelude StateM Protocol Config Rings Contract Rollback InputHist HashConfirm CtrlQueue Session SessionState SessionMain SessionStats DriverData Driver DriverEpisode DriverWire SessionProofs DriverMain DriverFrame DriverDemo.

(** What the session knows of the remote seats. *)
Definition rows_of (s : RNetSession) := (s_cfg s, s_remote_rings s).
Lemma peek_rows s s' slot wire : rows_of s' = rows_of s ->
  rnet_session_peek_remote_input s' slot wire = rnet_session_peek_remote_input s slot wire.
Proof.
  intros [= E1 E2]. unfold rnet_session_peek_remote_input, rnet_session_peek_input, remote_ring. rewrite E1, E2.
  destruct (slot =? _) eqn:E; done.
Qed.
(** A row of the seat that is really there: sent by the peer, or the neutral
    row of a seat nobody holds. *)
Definition has_row (d : RNetRbDriver) (slot wire : Z) : Prop :=
  exists s x, rb_session d = Some s /\ rnet_session_peek_remote_input s slot wire = Some x /\ is_valid x <> 0.

(** An admission step that invents no row. *)
Record real_rows (d d' : RNetRbDriver) : Prop := {
  rr_gate : rb_gate_lockstep_no_invent d' = rb_gate_lockstep_no_invent d;
  rr_invented : ih_invent_count (d_ih d') = ih_invent_count (d_ih d);
  rr_count : rb_slot_count d' = rb_slot_count d;
  rr_local_slot : rb_local_slot d' = rb_local_slot d;
  rr_sim : d_sim d' = d_sim d;
  rr_rows : rows_of <$> rb_session d' = rows_of <$> rb_session d
}.
Lemma has_row_back d d' slot wire : real_rows d d' -> has_row d' slot wire -> has_row d slot wire.
Proof.
  intros [_ _ _ _ _ E] (s' & x & Es & Hx & Hv). rewrite Es in E. cbn in E.
  destruct (rb_session d) as [s|] eqn:Ed; [|done]. injection E as E1 E2. exists s, x. split; [done|].
  split; [|done]. rewrite <- Hx. symmetry. apply peek_rows. unfold rows_of. congruence.
Qed.
#[export] Instance real_rows_pre : PreOrder real_rows.
Proof. split; [by intros d; split|]. intros a b c [] []. split; congruence. Qed.

(** Filling our own tip touches no remote row. *)
Lemma bundle_rows s : rows_of (send_input_bundle s) = rows_of s.
Proof. pose proof (quiet_send_input_bundle s) as Hq. by destruct (quiet_eq _ _ Hq) as (io & d & ms & tip & v & ->). Qed.
Lemma tip_rows sim s : rows_of (snd (rnet_session_prepare_local_tip sim s)) = rows_of s.
Proof.
  unfold rnet_session_prepare_local_tip. destruct (negb _); [done|]. destruct (negb _); [done|]. cbv zeta.
  match goal with |- context [for_range ?a ?b fill_tip ?p] => assert (rows_of (fst (for_range a b fill_tip p)) = rows_of s) as E end.
  { unfold for_range. generalize (seqZ sim (rnet_wire_tick_from_sim sim (s_delay s) + 1 - sim)). intros l.
    assert (forall l p, rows_of (fst (fold_left (fun s i => fill_tip i s) l p)) = rows_of (fst p)) as K; [|by rewrite K].
    clear. induction l as [|i l IH]; intros p; [done|]. cbn [fold_left]. rewrite IH. destruct p as [s prev]. unfold fill_tip.
    repeat case_match; try done; simplify_eq/=; unfold sample_local in *; simplify_eq/=; done. }
  destruct (for_range _ _ _ _) as [s1 o]. cbn [fst snd] in *. by rewrite bundle_rows.
Qed.
Lemma stats_rows s : rows_of (snd (rnet_session_get_stats s)) = rows_of s.
Proof.
  unfold rnet_session_get_stats. cbv zeta. destruct (stats_transfer s) as [[op total] acked].
  match goal with |- context [for_upto RNET_MAX_SLOTS ?f (@nil Z, s)] => set (ages := f) end.
  assert (rows_of (snd (for_upto RNET_MAX_SLOTS ages ([], s))) = rows_of s) as Ha.
  { apply (for_upto_ind (fun _ p => rows_of (snd p) = rows_of s)); [done|done|].
    intros i [l s1] _ E. unfold ages, rnet_session_peer_rx_age_ms. cbn [snd] in E. destruct (_ || _); exact E. }
  destruct (for_upto RNET_MAX_SLOTS ages ([], s)) as [l s1]. cbn [snd] in Ha. cbn. by destruct (highest_remote _).
Qed.

Lemma ih_put_invented h slot row h' : rnet_ih_put h slot row = Some h' -> ih_invent_count h' = ih_invent_count h.
Proof. unfold rnet_ih_put. repeat case_match; try done. by intros [= <-]. Qed.

Section Lockstep.
Context {H Sc : Type} `{RbHost H} `{SF : SchedFrame Sc}.
Notation St := (RbState H Sc).
Notation P := (M St).
Notation ok m := (stable (@on_drv H Sc real_rows) m).

Lemma rr_drv {A} (f : RNetRbDriver -> A) : ok (drv f).
Proof. intros s. reflexivity. Qed.
Lemma rr_host {A} (f : H -> A * H) : ok (hostm f).
Proof. intros s. unfold hostm, on_drv. destruct (f (r_host s)). reflexivity. Qed.
Lemma rr_hostu (f : H -> H) : ok (hostu f).
Proof. intros s. apply (reflexivity (R := real_rows)). Qed.
Lemma session_put s' d s : rb_session d = Some s -> rows_of s' = rows_of s -> real_rows d (set_d_session (Some s') d).
Proof.
  intros Es Er. split; try done. rewrite Es. cbn. unfold rb_session in *. cbn. destruct (dc_session_bound _); [|done].
  cbn. by rewrite Er.
Qed.
Lemma rr_sess {A} (x : A) f : (forall s, rows_of (snd (f s)) = rows_of s) -> ok (sess x f).
Proof.
  intros Hf s. unfold sess. destruct (rb_session (r_drv s)) as [x'|] eqn:E; [|reflexivity].
  specialize (Hf x'). destruct (f x') as [a s']. by apply (session_put s' _ x').
Qed.
Lemma rr_sessq {A} (x : A) f : ok (sessq x f).
Proof. by apply rr_sess. Qed.
Lemma rr_upd f : (forall d, real_rows d (f d)) -> ok (upd f).
Proof. intros Hf s. apply Hf. Qed.
Lemma rr_sched {A} (op : RNetSchedBridge St -> M (Sc * St) A) : (forall br, sched_quiet br (op br)) -> ok (rb_sched op).
Proof.
  intros Hop s. unfold rb_sched, sched_call.
  assert (bridge_quiet (on_drv real_rows) (rb_bridge rb_gate_pre_admit_hold : RNetSchedBridge St)) as Hq.
  { split; [apply rr_host| |]; intros; unfold on_drv; simpl; [|by split].
    eapply session_put; [done|]. match goal with H : quiet_session _ _ |- _ => destruct H end. unfold rows_of. congruence. }
  specialize (Hop (rb_bridge rb_gate_pre_admit_hold) (on_drv real_rows) _ Hq (r_sched s, s)).
  destruct (op _ _) as [a [sc st']]. exact Hop.
Qed.
Lemma rr_ih_put slot row : ok (ih_put slot row).
Proof.
  apply rr_upd. intros d. destruct (rnet_ih_put (d_ih d) slot row) eqn:E; [|reflexivity].
  split; try done. by apply ih_put_invented in E.
Qed.
Local Hint Resolve rr_drv rr_host rr_hostu rr_sessq rr_ih_put : stable.
Local Hint Extern 3 (stable _ (upd _)) =>
  apply rr_upd; intros; repeat (match goal with |- real_rows _ (if ?b then _ else _) => destruct b end); by split : stable.
Lemma rr_use_row slot row : ok (use_row slot row).
Proof. unfold use_row. stable_tac. Qed.
Local Hint Resolve rr_use_row : stable.
Lemma rr_local slot wire : ok (admit_local slot wire).
Proof. unfold admit_local. stable_tac. Qed.
Lemma rr_inject slot : ok (inject slot).
Proof. unfold inject. stable_tac. Qed.
Lemma rr_hit : ok (rb_sched sched_note_remote_hit).
Proof. apply rr_sched. intros. apply sf_hit. Qed.

Lemma now_keeps_lockstep hold (s : St) :
  gt_lockstep_no_invent (rb_bridge hold) (snd (gt_now_ms (rb_bridge hold) s)) = gt_lockstep_no_invent (rb_bridge hold) s.
Proof. simpl. unfold rb_now, hostm. by destruct (host_now_ms (r_host s)). Qed.

(** No row: the scheduler stalls the tick. *)
Lemma missing_stalls slot wire st (s : St) :
  rb_gate_lockstep_no_invent (r_drv s) = true ->
  wp (admit_missing slot wire st) (fun r _ => r = Some tt) s.
Proof.
  intros Hl. unfold admit_missing. apply wp_bind, wp_gets. cbv zeta. unfold id. apply wp_bind.
  match goal with |- wp (rb_sched ?op) _ _ => set (miss := op) end.
  assert (wp (rb_sched miss) (fun r _ => fst r = true) s) as Hm.
  { unfold wp, rb_sched, sched_call. cbv beta.
    match goal with |- context [miss ?br (?a, ?b)] => pose proof (sf_lockstep _ br slot (d_sim (r_drv s)) wire
      (match rb_session (r_drv s) with Some x => rb_stats_seat_tip (r_drv s) x slot st | None => st end)
      (kn_prediction_cap (d_knobs (r_drv s))) a b (now_keeps_lockstep _) Hl) as Hs end.
    fold (miss (rb_bridge rb_gate_pre_admit_hold)) in Hs. unfold miss in *.
    destruct (sched_on_remote_miss _ _ _ _ _ _ _) as [r [sc s']]. exact Hs. }
  eapply wp_mono; [exact Hm|]. intros [[] why] s1 E; [|done].
  apply wp_bind, wp_any. intros _ s2. apply wp_bind, wp_any. intros _ s3. by apply wp_ret.
Qed.

Lemma seat_real wire st slot (s : St) :
  rb_gate_lockstep_no_invent (r_drv s) = true ->
  wp (admit_seat wire st slot) (fun r s' => r = None \/ (r = Some false /\ real_rows (r_drv s) (r_drv s') /\
    (slot <> rb_local_slot (r_drv s) -> has_row (r_drv s) slot wire))) s.
Proof.
  intros Hl. unfold admit_seat. apply wp_bind, wp_gets. unfold id. destruct (Z.eqb_spec slot (rb_local_slot (r_drv s))) as [El|El].
  { apply wp_bind. eapply wp_mono; [apply wp_stable, rr_local|]. intros ? s1 E. apply wp_ret. right. split_and!; done. }
  apply wp_bind. eapply wp_mono; [apply wp_stable, rr_inject|]. intros ? s1 E1. cbv beta in E1. unfold on_drv in E1.
  apply wp_bind, wp_gets. unfold id.
  match goal with |- context [match ?o with Some _ => _ | None => do _ <- _; _ end] => destruct o as [x|] eqn:Ex end.
  - assert (has_row (r_drv s) slot wire) as Hrow.
    { apply (has_row_back _ _ _ _ E1). destruct (rb_session (r_drv s1)) as [ss|] eqn:Es; [|done]. cbn in Ex.
      destruct (rnet_session_peek_remote_input ss slot wire) as [y|] eqn:Ep; [|done].
      destruct (nz (is_valid y) && _) eqn:Ev; [|done]. exists ss, y. split_and!; [done|done|].
      apply andb_prop in Ev as [Ev _]. unfold nz in Ev. by apply negb_true_iff, Z.eqb_neq in Ev. }
    apply wp_bind. eapply wp_mono; [apply wp_stable, rr_hostu|]. intros ? s2 E2. cbv beta in E2.
    apply wp_bind. eapply wp_mono; [apply wp_stable, rr_use_row|]. intros ? s3 E3. cbv beta in E3.
    apply wp_bind. eapply wp_mono; [apply wp_stable, rr_hit|]. intros ? s4 E4. cbv beta in E4.
    apply wp_ret. right. split; [done|]. split; [|done]. unfold on_drv in *. do 3 (etransitivity; [eassumption|]). done.
  - apply wp_bind. eapply wp_mono; [apply missing_stalls|].
    + by rewrite (rr_gate _ _ E1).
    + intros r s2 E2. cbv beta in E2. subst r. apply wp_ret. by left.
Qed.

Lemma seats_real wire st slots any (s : St) :
  rb_gate_lockstep_no_invent (r_drv s) = true ->
  wp (admit_seats wire st any slots) (fun r s' => r = None \/ (r = Some any /\ real_rows (r_drv s) (r_drv s') /\
    forall slot, slot ∈ slots -> slot <> rb_local_slot (r_drv s) -> has_row (r_drv s) slot wire)) s.
Proof.
  revert any s. induction slots as [|x slots IH]; intros any s Hl; cbn [admit_seats].
  { apply wp_ret. right. split_and!; [done|reflexivity|]. by intros slot ?%elem_of_nil. }
  apply wp_bind. eapply wp_mono; [by apply seat_real|]. intros r s1 [-> | (-> & E1 & R1)]; [by apply wp_ret; left|].
  rewrite orb_false_r. eapply wp_mono; [apply IH; by rewrite (rr_gate _ _ E1)|].
  intros r s2 [-> | (-> & E2 & R2)]; [by left|]. right. split_and!; [done|by etransitivity|].
  intros slot [->|Hin]%elem_of_cons Hne; [by apply R1|]. apply (has_row_back _ _ _ _ E1), R2; [done|].
  by rewrite (rr_local_slot _ _ E1).
Qed.
Lemma rr_sync : ok (rb_sched sched_sync_delay_from_session).
Proof. apply rr_sched. intros. apply sf_sync. Qed.
Lemma rr_post b : ok (rb_sched (fun br => sched_post_admit br b)).
Proof. apply rr_sched. intros. apply sf_post. Qed.
Lemma rr_prepare : ok prepare_tip.
Proof.
  unfold prepare_tip. stable_step; [stable_tac|]. unfold when. case_match; [|stable_tac].
  stable_step; [apply rr_sess; intros; apply tip_rows|stable_tac].
Qed.
Lemma rr_snap t : ok (rb_snap_take t).
Proof. unfold rb_snap_take. stable_tac. Qed.
Lemma rr_publish t b : ok (rb_publish t b).
Proof. unfold rb_publish. stable_tac. Qed.
Lemma rr_clear_stall f : ok (modify (fun x : St => mkRbState (r_drv x) (r_host x) (f (r_sched x)))).
Proof. intros s. apply (reflexivity (R := real_rows)). Qed.
Lemma wp_real {A B} (m : P A) (k : A -> P B) Q s d0 :
  ok m -> real_rows d0 (r_drv s) -> (forall a s', real_rows d0 (r_drv s') -> wp (k a) Q s') -> wp (bind m k) Q s.
Proof.
  intros Hm Hd Hk. apply wp_bind. specialize (Hm s). unfold wp at 1. apply Hk.
  etransitivity; [exact Hd|exact Hm].
Qed.

(** The admission gate. *)
Lemma collect_real d : real_rows d (boot_collect d).
Proof.
  apply (for_upto_ind (fun _ e => real_rows d e)); [done|reflexivity|]. intros i e _ [].
  case_match; [done|]. case_match; by split.
Qed.
Local Hint Resolve rr_use_row rr_local rr_inject rr_hit : stable.
Lemma rr_refuse c : ok (rb_refuse c).
Proof. unfold rb_refuse. stable_tac. Qed.
Local Hint Resolve rr_refuse : stable.
Lemma rr_boot_gate : ok rb_boot_digest_gate.
Proof.
  assert (ok (upd boot_collect)) as Hc by apply rr_upd, collect_real.
  unfold rb_boot_digest_gate, boot_local, rb_now. stable_tac.
Qed.
Local Hint Resolve rr_boot_gate : stable.
Lemma rr_hold_gate sim wire : ok (rb_gate_pre_admit_hold sim wire).
Proof. unfold rb_gate_pre_admit_hold. stable_tac. Qed.
Lemma rr_pre sim wire st : ok (rb_sched (fun br => sched_pre_admit br sim wire st)).
Proof.
  intros s. unfold rb_sched, sched_call.
  assert (bridge_respects (on_drv real_rows) (rb_bridge rb_gate_pre_admit_hold : RNetSchedBridge St)) as Hq.
  { split; [split; [apply rr_host| |]; intros; unfold on_drv; simpl; [|by split]|apply rr_hold_gate].
    eapply session_put; [done|]. match goal with H : quiet_session _ _ |- _ => destruct H end. unfold rows_of. congruence. }
  pose proof (sf_pre_admit _ (rb_bridge rb_gate_pre_admit_hold) sim wire st (on_drv real_rows) _ Hq (r_sched s, s)) as Hop.
  destruct (sched_pre_admit _ _ _ _ _) as [a [sc st']]. exact Hop.
Qed.
End Lockstep.


(** ** On the concrete match *)

Definition demo_lockstep : RbState toy_host unit := Eval vm_compute in
  on_match (fun d => set_d_session (Some demo_agreed) (on_knobs (set_kn_lockstep_pinned true) d)).
(** The same match, the peer's rows not there yet. *)
Definition demo_lockstep_missing : RbState toy_host unit := Eval vm_compute in
  on_match (fun d => set_d_session (Some (set_s_remote_rings (repeat rnet_ring_clear 8) demo_agreed))
                       (on_knobs (set_kn_lockstep_pinned true) d)).
