(* ===== verification/DriverReplay.v ===== *)
(** * The replay of an episode

    A replay rewinds the machine to the load tick. If it cannot be run to its
    end - the peers differ on the state it starts from, a row is missing, the
    host fails a tick - the episode is aborted and the machine put back. *)

From stdpp Require Import base list numbers list_numbers strings.
From S2P Require Import Prelude StateM Protocol Config Rings Contract Rollback InputHist HashConfirm CtrlQueue Session SessionState SessionMain SessionStats DriverData Driver DriverEpisode DriverWire SessionProofs DriverMain DriverFrame DriverDemo DriverLive DriverBoot DriverPump DriverArb.

(** ** The host's snapshot store

    A snapshot keyed [t] is the machine before tick [t]: [snap h t] is what
    loading it puts the machine into, and [None] if the load answers 0. Only a
    save puts a snapshot under a key, and the one it was asked for; any call may
    lose one. A load that answers 0 has loaded nothing. *)
Class Machine (H : Type) := { Img : Type; machine : H -> Img }.
Definition snap {H : Type} `{RbHost H} `{Machine H} (h : H) (t : Z) : option Img :=
  let '(ok, h') := host_snap_load t h in if (ok : bool) then Some (machine h') else None.
(** No key loads anything else after [f]. *)
Definition keeps_snaps {H : Type} `{RbHost H} `{Machine H} (f : H -> H) : Prop := forall h u, snap (f h) u = snap h u \/ snap (f h) u = None.
Class SnapHost (H : Type) `{RbHost H} `{Machine H} : Prop := {
  sh_save_machine t h : machine (snd (host_snap_save t h)) = machine h;
  sh_save t h : fst (host_snap_save t h) = true -> snap (snd (host_snap_save t h)) t = Some (machine h) \/ snap (snd (host_snap_save t h)) t = None;
  sh_save_other t u h : u <> t -> snap (snd (host_snap_save t h)) u = snap h u \/ snap (snd (host_snap_save t h)) u = None;
  sh_load_fail t h : fst (host_snap_load t h) = false -> machine (snd (host_snap_load t h)) = machine h;
  sh_load_keeps t : keeps_snaps (fun h => snd (host_snap_load t h));
  sh_publish t rows n b : keeps_snaps (host_publish t rows n b);
  sh_run t : keeps_snaps (fun h => snd (host_run_tick t h));
  sh_begin : keeps_snaps host_resim_begin;
  sh_end : keeps_snaps host_resim_end;
  sh_now : keeps_snaps (fun h => snd (host_now_ms h));
  sh_now_machine h : machine (snd (host_now_ms h)) = machine h
}.

Section Replay.
Context {H Sc : Type} `{SnapHost H} `{SF : SchedFrame Sc}.
Notation St := (RbState H Sc).
Notation P := (M St).
Context (tip : Z).

(** What a step of the replay leaves alone: the episode, the mark that the
    machine is rewound, and the snapshot of the tip. *)
Record replay_same (s s' : St) : Prop := {
  rs_episode : episode (r_drv s') = episode (r_drv s);
  rs_rewound : rp_rewound (d_replay (r_drv s')) = rp_rewound (d_replay (r_drv s));
  rs_tip : rp_tip_tick (d_replay (r_drv s')) = rp_tip_tick (d_replay (r_drv s));
  rs_next : rp_replay_next (d_replay (r_drv s')) = rp_replay_next (d_replay (r_drv s));
  rs_stored : snap (r_host s') tip = snap (r_host s) tip \/ snap (r_host s') tip = None
}.
#[local] Instance replay_same_pre : PreOrder replay_same.
Proof. split; [intros s; split; auto|]. intros a b c [? ? ? ? [] ] [? ? ? ? [] ]. all: split; [congruence..|]; (left; congruence) || (right; congruence). Qed.
Notation ok m := (stable replay_same m).

Lemma rk_drv {A} (f : RNetRbDriver -> A) : ok (drv f).
Proof. intros s. reflexivity. Qed.
Lemma rk_hostq {A} (f : H -> A) : ok (hostq f).
Proof. intros s. reflexivity. Qed.
Lemma rk_coreq {A} (x : A) f : ok (coreq x f).
Proof. intros s. reflexivity. Qed.
Lemma rk_hostu (f : H -> H) : keeps_snaps f -> ok (hostu f).
Proof. intros Hf s. split; [done..|apply Hf]. Qed.
Lemma rk_hostm {A} (f : H -> A * H) : (forall h, snap (snd (f h)) tip = snap h tip \/ snap (snd (f h)) tip = None) -> ok (hostm f).
Proof. intros Hf s. specialize (Hf (r_host s)). unfold hostm. destruct (f (r_host s)). by split. Qed.
Lemma rk_upd f : (forall d, episode (f d) = episode d /\ rp_rewound (d_replay (f d)) = rp_rewound (d_replay d) /\
  rp_tip_tick (d_replay (f d)) = rp_tip_tick (d_replay d) /\ rp_replay_next (d_replay (f d)) = rp_replay_next (d_replay d)) -> ok (upd f).
Proof. intros Hf s. destruct (Hf (r_drv s)) as (? & ? & ? & ?). by split; auto. Qed.
Lemma rk_coreu f : ok (coreu f).
Proof. apply rk_upd. intros d. by case_match. Qed.
Lemma rk_sess {A} (x : A) f : ok (sess x f).
Proof. intros s. unfold sess. destruct (rb_session (r_drv s)); [|reflexivity]. destruct (f _). by split; auto. Qed.
Lemma rk_hc_note t dig : ok (upd (rb_hc_note_local t dig)).
Proof.
  apply rk_upd. intros d. apply (for_upto_ind (fun _ e => episode e = episode d /\
    rp_rewound (d_replay e) = rp_rewound (d_replay d) /\ rp_tip_tick (d_replay e) = rp_tip_tick (d_replay d) /\
    rp_replay_next (d_replay e) = rp_replay_next (d_replay d))); [done|done|].
  intros i e _ He. by case_match.
Qed.
Lemma rk_now : ok rb_now.
Proof. apply rk_hostm. intros h. apply (sh_now h). Qed.
Lemma rk_run t : ok (hostm (host_run_tick t)).
Proof. apply rk_hostm. intros h. apply (sh_run t h). Qed.
Local Hint Resolve rk_drv rk_hostq rk_coreq rk_coreu rk_sess rk_hc_note rk_now rk_run : stable.
Local Hint Extern 3 (stable _ (upd _)) => apply rk_upd; intros; by repeat split : stable.
Lemma rk_load_rows t : ok (rb_load_sealed_rows t).
Proof. unfold rb_load_sealed_rows. stable_tac. Qed.
Lemma rk_publish t b : ok (rb_publish t b).
Proof. unfold rb_publish. stable_tac. apply rk_hostu, sh_publish. Qed.
Local Hint Resolve rk_load_rows rk_publish : stable.
Lemma rk_note t : ok (rb_replay_note t).
Proof. unfold rb_replay_note. stable_tac. Qed.
Local Hint Resolve rk_note : stable.
Lemma rk_advance t : ok (rb_advance_sim t).
Proof. unfold rb_advance_sim, count_resim. stable_tac. Qed.
Lemma rk_snap t : t <> tip -> ok (rb_snap_take t).
Proof.
  intros Ht. assert (ok (hostm (host_snap_save t))) by (apply rk_hostm; intros h; by apply sh_save_other).
  unfold rb_snap_take. stable_tac.
Qed.
Lemma rk_begin : ok rb_resim_begin.
Proof. unfold rb_resim_begin. stable_tac. apply rk_hostu, sh_begin. Qed.
Lemma rk_end : ok rb_resim_end.
Proof. unfold rb_resim_end. stable_tac. apply rk_hostu, sh_end. Qed.
Local Hint Resolve rk_advance rk_begin rk_end : stable.

(** Rewound, with [m] stored at the tip unless the host lost it; and a machine
    that is [m] again, unless the host lost it. *)
Definition tip_is (m : Img) (h : H) : Prop := snap h tip = Some m \/ snap h tip = None.
Definition back_at (m : Img) (s : St) : Prop := machine (r_host s) = m \/ snap (r_host s) tip = None.
Definition rewound_from (m : Img) (s : St) : Prop :=
  rp_rewound (d_replay (r_drv s)) = true /\ rp_tip_tick (d_replay (r_drv s)) = tip /\ tip_is m (r_host s).
Lemma rewound_same m s s' : replay_same s s' -> rewound_from m s -> rewound_from m s'.
Proof. intros [? ? ? _ Hk] (? & ? & Ht). split_and!; [congruence..|]. unfold tip_is in *. destruct Hk as [-> |]; auto. Qed.

(** One step of the replay. *)
Lemma wp_replay {A B} (c : P A) (k : A -> P B) Q s s0 :
  ok c -> replay_same s0 s -> (forall a s', replay_same s0 s' -> wp (k a) Q s') -> wp (bind c k) Q s.
Proof.
  intros Hm Hd Hk. apply wp_bind. specialize (Hm s). unfold wp at 1. apply Hk.
  etransitivity; [exact Hd|exact Hm].
Qed.

(** Clearing an episode leaves the machine and the snapshots alone. *)
Lemma clear_machine (s : St) :
  wp rb_episode_clear (fun _ s' => machine (r_host s') = machine (r_host s) /\ (snap (r_host s') tip = snap (r_host s) tip \/ snap (r_host s') tip = None)) s.
Proof.
  unfold rb_episode_clear, rb_stage_set. apply wp_bind, wp_bind, wp_gets, wp_bind. unfold when. cbn [andb bool_decide].
  apply wp_ret. apply wp_bind, wp_modify, wp_bind. unfold rb_now, hostm, wp at 1. cbn [r_host].
  pose proof (sh_now_machine (r_host s)) as Hm. pose proof (sh_now (r_host s) tip) as Hk. cbv beta in Hk.
  destruct (host_now_ms (r_host s)) as [now h]. cbn [fst snd] in *.
  apply wp_modify, wp_bind, wp_modify, wp_modify. by split.
Qed.
Lemma clear_back m (s : St) : back_at m s -> wp rb_episode_clear (fun _ s' => back_at m s') s.
Proof.
  intros Hb. eapply wp_mono; [apply clear_machine|]. intros ? s' [E1 E2]. unfold back_at in *. destruct Hb as [Hb|Hb]; [left; congruence|right]. destruct E2; congruence.
Qed.

Lemma restore_spec m (s : St) : rewound_from m s -> wp rb_restore_tip (fun _ s' => back_at m s') s.
Proof.
  intros (Hr & Ht & Hs). unfold rb_restore_tip. apply wp_bind, wp_gets. rewrite Hr. cbn [negb].
  apply wp_bind, wp_modify. apply wp_bind.
  eapply wp_mono; [apply wp_stable, rk_end|]. intros ? s1 E. cbv beta in E. destruct E as [_ _ E2 _ E3].
  cbn [r_drv r_host] in *. apply wp_bind, wp_gets, wp_bind.
  assert (rp_tip_tick (d_replay (r_drv s1)) = tip) as Et by (rewrite E2; exact Ht). rewrite Et.
  assert (tip_is m (r_host s1)) as Hst by (unfold tip_is in *; destruct E3 as [-> |]; auto).
  unfold hostm, wp at 1. pose proof (sh_load_keeps tip (r_host s1) tip) as Hk. cbv beta in Hk. unfold tip_is, snap in Hst.
  unfold back_at. destruct (host_snap_load tip (r_host s1)) as [b h] eqn:El. apply wp_ret. cbn [snd r_host] in *.
  destruct b; [left; destruct Hst; congruence|right].
  destruct Hk as [-> |Hk]; [|exact Hk]. unfold snap. by rewrite El.
Qed.

Lemma abort_restores m c (s : St) : rewound_from m s -> wp (rb_episode_abort c) (fun _ s' => back_at m s') s.
Proof.
  intros Hs. unfold rb_episode_abort. apply wp_bind, wp_gets, wp_bind, wp_gets.
  apply (wp_replay _ _ _ _ s); [apply rk_sess|reflexivity|]. intros _ s1 E1.
  apply wp_bind. eapply wp_mono; [apply (restore_spec m); by eapply rewound_same|]. intros ? s2 E2. cbv beta in E2.
  apply wp_bind. eapply wp_mono; [by apply clear_back|]. intros ? s3 E3. cbv beta in E3. by apply wp_modify.
Qed.
Lemma abort_unrewound c (s : St) :
  rp_rewound (d_replay (r_drv s)) = false ->
  wp (rb_episode_abort c) (fun _ s' => machine (r_host s') = machine (r_host s)) s.
Proof.
  intros Hr. unfold rb_episode_abort. apply wp_bind, wp_gets, wp_bind, wp_gets.
  assert (forall f, wp (send_sync (co_epoch_id (corr (r_drv s))) c (d_sim (r_drv s)) 0 f RNET_RB_SYNC_OP_ABORT 0 : P bool)
    (fun _ s' => r_host s' = r_host s /\ d_replay (r_drv s') = d_replay (r_drv s)) s) as Hs.
  { intros f. unfold send_sync, wp, sess. destruct (rb_session (r_drv s)); [|done]. by destruct (rnet_session_send_rb_sync _ _ _ _ _ _ _ _). }
  apply wp_bind. eapply wp_mono; [apply Hs|]. intros ? s1 [E1 E2]. cbv beta in *.
  apply wp_bind. unfold rb_restore_tip. apply wp_bind, wp_gets. rewrite E2, Hr. cbn [negb]. apply wp_ret.
  apply wp_bind. eapply wp_mono; [apply clear_machine|]. intros ? s2 [E3 _]. apply wp_modify. cbn [r_host]. congruence.
Qed.

(** The exchange of baselines: it goes on, or the episode was aborted and the
    machine put back. *)
Lemma baseline_or_abort m (s : St) :
  rewound_from m s ->
  wp rb_send_baseline (fun _ s' => replay_same s s' \/ (stage (r_drv s') = kRbIdle /\ back_at m s')) s.
Proof.
  intros Hs. unfold rb_send_baseline, has_session. apply wp_bind, wp_gets. case_match; [apply wp_ret; left; reflexivity|].
  apply (wp_replay _ _ _ _ s); [apply rk_hostq|reflexivity|]. intros p s1 E1.
  apply (wp_replay _ _ _ _ s); [stable_tac|done|]. intros _ s2 E2.
  apply (wp_replay _ _ _ _ s); [apply rk_drv|done|]. intros c s3 E3.
  apply (wp_replay _ _ _ _ s); [apply rk_sess|done|]. intros _ s4 E4.
  unfold rb_baseline_try_compare.
  apply (wp_replay _ _ _ _ s); [apply rk_drv|done|]. intros e s5 E5. case_match; [apply wp_ret; by left|].
  apply (wp_replay _ _ _ _ s); [stable_tac|done|]. intros _ s6 E6. cbv zeta. apply wp_bind.
  eapply wp_mono; [apply (wp_first_of (replay_same s)
    (fun _ s' => stage (r_drv s') = kRbIdle /\ back_at m s')); [exact E6|]|].
  - intros from t _ Ht. unfold forced_fork. apply (wp_replay _ _ _ _ s); [stable_tac|done|].
    intros forced t1 Ht1. case_match; [by apply wp_ret|]. apply wp_bind. unfold baseline_fork, note_fork, rb_enter_lockstep.
    apply (wp_replay _ _ _ _ s); [apply rk_drv|done|]. intros d t2 Ht2. cbv zeta.
    apply (wp_replay _ _ _ _ s); [stable_tac|done|]. intros _ t3 Ht3.
    apply (wp_replay _ _ _ _ s); [stable_tac|done|]. intros _ t4 Ht4.
    apply (wp_replay _ _ _ _ s); [apply rk_upd; intros d'; repeat case_match; by repeat split|done|]. intros _ t5 Ht5.
    eapply wp_mono; [apply wp_and; [apply abort_idle|apply (abort_restores m); by eapply rewound_same]|].
    intros ? t6 Ht6. by apply wp_ret.
  - intros [u|] s7 H7; apply wp_ret; [by right|by left].
Qed.

(** The finish keeps the episode open. *)
Lemma finish_episode (s : St) : wp rb_replay_finish (fun _ s' => episode (r_drv s') = episode (r_drv s)) s.
Proof.
  assert (stable (@on_drv H Sc episode_same) rb_replay_finish) as Hf; [|apply Hf].
  assert (forall f : H -> H, stable (@on_drv H Sc episode_same) (hostu f)) as Hu by (intros f t; done).
  assert (forall t dig, stable (@on_drv H Sc episode_same) (upd (rb_hc_note_local t dig))) as Hh.
  { intros t dig. apply ek_upd. intros d. apply (for_upto_ind (fun _ e => episode e = episode d)); [done|done|].
    intros i e _ He. by case_match. }
  assert (forall a b l, stable (@on_drv H Sc episode_same)
    (upd (fun d => set_d_replayed (l d) (rb_owed_clear_span a b d)))) as Ho.
  { intros a b l. apply ek_upd. intros d. transitivity (episode (rb_owed_clear_span a b d)); [done|].
    unfold rb_owed_clear_span. case_match; [done|]. bool_prop.
    apply (for_range_ind (fun _ e => episode e = episode d)); [lia|done|]. intros i e _ He.
    unfold rb_owed_clear. by case_match. }
  assert (stable (@on_drv H Sc episode_same) rb_resim_end) as He.
  { unfold rb_resim_end. apply stable_bind; [apply _|apply ek_drv|]. intros b. case_match; [apply stable_ret, _|].
    apply stable_bind; [apply _|apply Hu|]. intros _. by apply ek_upd. }
  unfold rb_replay_finish, sessu.
  repeat first [ apply Hh | apply Ho | apply Hu | apply He | apply ek_sess | apply ek_drv | by apply ek_upd | stable_step ].
Qed.
(** Between two ticks of an incremental replay. *)
Record replaying (m : Img) (s : St) : Prop := {
  ry_rewound : rewound_from m s;
  ry_stage : stage (r_drv s) = kRbReplaying;
  ry_target : co_target_tick (corr (r_drv s)) < tip;
  ry_next : rp_replay_next (d_replay (r_drv s)) <> tip
}.
(** An episode that is over has put the machine back; one that is not may go
    on replaying. *)
Definition replay_safe (m : Img) (s : St) : Prop :=
  (stage (r_drv s) = kRbIdle -> back_at m s) /\ (stage (r_drv s) = kRbReplaying -> replaying m s).
Lemma safe_back m s : stage (r_drv s) = kRbIdle /\ back_at m s -> replay_safe m s.
Proof. intros [E B]. split; [done|]. rewrite E. done. Qed.
Lemma safe_other m s : stage (r_drv s) <> kRbIdle -> stage (r_drv s) <> kRbReplaying -> replay_safe m s.
Proof. by split. Qed.
Lemma episode_parts (s s' : St) : episode (r_drv s') = episode (r_drv s) -> stage (r_drv s') = stage (r_drv s) /\ corr (r_drv s') = corr (r_drv s).
Proof. intros E. by injection E. Qed.
Lemma missing_safe m (s : St) : rewound_from m s -> wp (do! rb_resim_end; rb_replay_missing_abort) (fun _ s' => stage (r_drv s') = kRbIdle /\ back_at m s') s.
Proof.
  intros Hs. apply (wp_replay _ _ _ _ s); [apply rk_end|reflexivity|]. intros _ s1 E1.
  apply wp_and; [apply abort_idle|apply (abort_restores m); by eapply rewound_same].
Qed.
Lemma stage_set_replaying m (s : St) : rewound_from m s -> co_target_tick (corr (r_drv s)) < tip -> rp_replay_next (d_replay (r_drv s)) <> tip ->
  wp (rb_stage_set kRbReplaying) (fun _ s' => replaying m s') s.
Proof.
  intros Hs Ht Hn. unfold rb_stage_set. apply wp_bind, wp_gets, wp_bind. unfold when. cbn [andb bool_decide]. apply wp_ret. apply wp_bind, wp_modify.
  match goal with |- wp _ _ ?x => set (s1 := x) end. assert (rewound_from m s1) as H1' by exact Hs.
  apply wp_bind. unfold rb_now, hostm, wp at 1. pose proof (sh_now (r_host s1) tip) as Hk. cbv beta in Hk.
  destruct (host_now_ms (r_host s1)) as [now h]. cbn [fst snd] in *. apply wp_modify. split; [|done|exact Ht|exact Hn].
  destruct H1' as (R1 & R2 & R3). split; [exact R1|]. split; [exact R2|]. unfold tip_is in *. cbn [r_host]. destruct Hk as [-> |]; auto.
Qed.

(** From the rewound machine on. *)
Lemma rewound_replay m (s : St) :
  rewound_from m s -> stage (r_drv s) = kRbSealing ->
  co_target_tick (corr (r_drv s)) < tip -> co_load_tick (corr (r_drv s)) < tip ->
  wp replay_rewound (fun _ s' => replay_safe m s') s.
Proof.
  intros Hrw Hi Ht Hld. unfold replay_rewound.
  apply wp_bind. eapply wp_mono; [by apply (baseline_or_abort m)|]. intros ? s3 K3. cbv beta in K3.
  apply wp_bind, wp_gets. destruct K3 as [K3|[K3 K3m]]; [|unfold idle; rewrite K3; apply wp_ret; by apply safe_back].
  assert (forall t : St, replay_same s t -> stage (r_drv t) = kRbSealing /\ corr (r_drv t) = corr (r_drv s)) as Hni.
  { intros t Hs. destruct (episode_parts _ _ (rs_episode _ _ Hs)) as [-> ->]. by split. }
  assert (idle (r_drv s3) = false) as -> by (unfold idle; by rewrite (proj1 (Hni s3 K3))).
  apply (wp_replay _ _ _ _ s); [apply rk_coreu|done|]. intros _ s4 K4.
  apply (wp_replay _ _ _ _ s); [apply rk_begin|done|]. intros _ s5 K5.
  apply wp_bind, wp_gets. unfold id. cbv zeta. rewrite (proj2 (Hni s5 K5)).
  destruct (bool_decide (dc_replay_mode (d_cfg (r_drv s5)) = REPLAY_INCREMENTAL)).
  { apply wp_bind, wp_modify, wp_bind. pose proof (rewound_same _ _ _ K5 Hrw) as Hr5. pose proof (proj2 (Hni s5 K5)) as Hc5.
    eapply wp_mono; [apply (stage_set_replaying m)|].
    - exact Hr5.
    - cbn [r_drv]. change (co_target_tick (corr (r_drv s5)) < tip). by rewrite Hc5.
    - cbn. lia.
    - intros ? s6 E6. apply wp_ret. split; [by rewrite (ry_stage _ _ E6)|done]. }
  apply (wp_replay _ _ _ _ s); [|done|].
  { apply stable_first_of; [apply replay_same_pre|]. intros t Hr%elem_of_seqZ.
    apply stable_bind; [apply replay_same_pre|apply rk_snap; lia|]. intros _.
    apply stable_bind; [apply replay_same_pre|apply rk_advance|]. intros ok. apply stable_ret, replay_same_pre. }
  intros failed s6 K6. destruct (bool_decide (failed = None)).
  - apply wp_bind. eapply wp_mono; [apply finish_episode|]. intros ? s7 E7. cbv beta in E7. apply wp_ret.
    destruct (episode_parts _ _ E7) as [E7s _]. apply safe_other; rewrite E7s, (proj1 (Hni s6 K6)); done.
  - apply (wp_replay _ _ _ _ s); [apply rk_end|done|]. intros _ s7 K7. apply wp_bind.
    eapply wp_mono; [apply wp_and; [apply abort_idle|apply (abort_restores m); by eapply rewound_same]|]. intros ? s8 E8. apply wp_ret. by apply safe_back.
Qed.

(** One tick of an incremental replay: the poll, what the host does with the
    tick, and, if the tick was admitted, its end. *)
Lemma step_safe m (s : St) : replaying m s ->
  wp rb_replay_step (fun a s' => (a = RNET_RB_ADMIT_STALL /\ replay_safe m s') \/
    (a = RNET_RB_ADMIT_REPLAY /\ replay_same s s' /\ rp_pending_admit (d_replay (r_drv s')) = RNET_RB_ADMIT_REPLAY)) s.
Proof.
  intros [Hr Hs Ht Hn]. unfold rb_replay_step. apply wp_bind, wp_gets.
  apply (wp_replay _ _ _ _ s); [stable_tac|reflexivity|]. intros _ s1 K1.
  apply (wp_replay _ _ _ _ s); [by apply rk_snap|done|]. intros _ s2 K2.
  apply (wp_replay _ _ _ _ s); [apply rk_load_rows|done|]. intros ok s3 K3. destruct ok; cbn [negb].
  - apply (wp_replay _ _ _ _ s); [apply rk_publish|done|]. intros _ s4 K4. apply wp_bind, wp_modify, wp_ret. right. split; [done|]. split; [|done].
    etransitivity; [exact K4|]. split; auto.
  - apply (wp_replay _ _ _ _ s); [apply rk_end|done|]. intros _ s4 K4. apply wp_bind.
    eapply wp_mono; [apply wp_and; [apply abort_idle|apply (abort_restores m); by eapply rewound_same]|]. intros ? s5 E5. apply wp_ret. left. split; [done|by apply safe_back].
Qed.
Lemma finish_safe m (s : St) : rewound_from m s -> stage (r_drv s) = kRbReplaying -> co_target_tick (corr (r_drv s)) < tip ->
  rp_replay_next (d_replay (r_drv s)) <> tip -> rp_pending_admit (d_replay (r_drv s)) = RNET_RB_ADMIT_REPLAY ->
  wp rnet_rb_driver_finish_frame (fun _ s' => replay_safe m s') s.
Proof.
  intros Hr Hs Ht Hn Hp. unfold rnet_rb_driver_finish_frame. apply wp_bind, wp_gets. unfold id.
  destruct (d_started (r_drv s)); cbn [negb]; [|apply wp_ret; split; [by rewrite Hs|by split]]. apply wp_bind, wp_modify.
  rewrite Hp. cbn [bool_decide]. match goal with |- wp _ _ ?x => set (s1 := x) end.
  assert (replay_same s s1) as K1 by (split; auto).
  rewrite bool_decide_eq_true_2 by done. unfold finish_replay_tick. apply wp_bind, wp_gets.
  rewrite bool_decide_eq_true_2 by (by rewrite <- Hs). cbn [negb]. apply wp_bind, wp_gets.
  apply (wp_replay _ _ _ _ s); [apply rk_note|done|]. intros _ s2 K2.
  apply (wp_replay _ _ _ _ s); [unfold count_resim; stable_tac|done|]. intros _ s3 K3.
  apply wp_bind, wp_modify. match goal with |- wp _ _ ?x => set (s4 := x) end.
  assert (episode (r_drv s4) = episode (r_drv s) /\ rewound_from m s4) as [E4 R4] by (split; [exact (rs_episode _ _ K3)|exact (rewound_same _ _ _ K3 Hr)]).
  apply wp_bind, wp_gets. destruct (episode_parts _ _ E4) as [E4s E4c]. unfold when.
  destruct (Z.ltb_spec (co_target_tick (corr (r_drv s4))) (u32 (rp_replay_next (d_replay (r_drv s1)) + 1))) as [L|L].
  - apply wp_bind, wp_any. intros _ s5. eapply wp_mono; [apply verify_stage|]. intros ? s6 E6. cbv beta in E6. apply safe_other; by rewrite E6.
  - apply wp_ret. split; [by rewrite E4s, Hs|]. intros _. rewrite E4c in L.
    split; [done|by rewrite E4s|by rewrite E4c|]. change (u32 (rp_replay_next (d_replay (r_drv s1)) + 1) <> tip). lia.
Qed.

Context (check : option (list Z -> Z * option (list Z))) (junk : list Z).
Fixpoint replay_frames (ticks : list (H -> H)) : P unit :=
  match ticks with
  | [] => ret tt
  | f :: ticks =>
    do st <- drv stage;
    if negb (bool_decide (st = kRbReplaying)) then ret tt else
    do a <- rnet_rb_driver_poll_admit check junk;
    if negb (bool_decide (a = RNET_RB_ADMIT_REPLAY)) then replay_frames ticks else
    do! hostu f;
    do! rnet_rb_driver_finish_frame;
    replay_frames ticks
  end.

Lemma poll_safe m (s : St) : replaying m s ->
  wp (rnet_rb_driver_poll_admit check junk) (fun a s' => (a = RNET_RB_ADMIT_STALL /\ replay_safe m s') \/
    (a = RNET_RB_ADMIT_REPLAY /\ replay_same s s' /\ rp_pending_admit (d_replay (r_drv s')) = RNET_RB_ADMIT_REPLAY)) s.
Proof.
  intros Hs. assert (replay_safe m s) as Hsafe by (split; [by rewrite (ry_stage _ _ Hs)|done]).
  unfold rnet_rb_driver_poll_admit. apply wp_bind, wp_gets. unfold id. destruct (d_started (r_drv s)); cbn [negb]; [|apply wp_ret; by left].
  destruct (rb_session (r_drv s)); [|apply wp_ret; by left]. rewrite bool_decide_eq_true_2 by apply Hs. by apply step_safe.
Qed.
Lemma frames_safe m ticks : Forall keeps_snaps ticks -> forall s : St, replay_safe m s -> wp (replay_frames ticks) (fun _ s' => replay_safe m s') s.
Proof.
  induction 1 as [|f ticks Hf Hfs IH]; intros s Hs; cbn [replay_frames]; [by apply wp_ret|]. apply wp_bind, wp_gets.
  case_bool_decide as E; cbn [negb]; [|by apply wp_ret]. destruct Hs as [_ Hs]. specialize (Hs E).
  apply wp_bind. eapply wp_mono; [by apply poll_safe|]. intros a s1 [[-> K]|(-> & K & Kp)].
  - rewrite bool_decide_eq_false_2 by done. cbn [negb]. by apply IH.
  - rewrite bool_decide_eq_true_2 by done. cbn [negb]. destruct Hs as [Hr Hst Ht Hn].
    destruct (episode_parts _ _ (rs_episode _ _ K)) as [E1 E2]. apply wp_bind. unfold hostu, wp at 1. cbn [fst snd].
    match goal with |- wp _ _ ?x => set (s2 := x) end. assert (replay_same s s2) as K2.
    { etransitivity; [exact K|]. split; [done..|]. apply Hf. }
    apply wp_bind. eapply wp_mono; [apply (finish_safe m)|]; [by eapply rewound_same|by rewrite <- Hst, <- E1|..|done|].
    + change (co_target_tick (corr (r_drv s1)) < tip). by rewrite E2.
    + by rewrite (rs_next _ _ K2).
    + intros ? s3 K3. by apply IH.
Qed.
End Replay.

(** C4. An aborted replay leaves no trace, whichever way replays are run: from an
    episode whose rows are being sealed, over ticks the machine has already run
    (the load and the target tick are before the current one), start the replay
    and, if it goes tick by tick, let the host poll, run and finish any number
    of ticks. If the episode is then over because it was given up - no
    snapshot, a fork at the baseline, a row missing from the seal, a tick the
    host could not run - the machine is back in the state it had when the
    replay began, unless the host no longer has the snapshot of that tick
    (which the driver reports). The host must keep what it says of snapshots:
    one keyed by a tick is the machine saved for it, if it is still there. *)
Theorem aborted_replay_restores_tip {H Sc : Type} `{SnapHost H} `{SchedFrame Sc} check junk (ticks : list (H -> H)) (st : RbState H Sc) :
  stage (r_drv st) = kRbSealing -> rp_rewound (d_replay (r_drv st)) = false ->
  co_load_tick (corr (r_drv st)) < d_sim (r_drv st) -> co_target_tick (corr (r_drv st)) < d_sim (r_drv st) -> Forall keeps_snaps ticks ->
  wp (do _ <- rb_run_replay; replay_frames check junk ticks) (fun _ st' => stage (r_drv st') = kRbIdle ->
    machine (r_host st') = machine (r_host st) \/ snap (r_host st') (d_sim (r_drv st)) = None) st.
Proof.
  intros Hi Hr Hld Htg Hf. set (tip := d_sim (r_drv st)). set (m := machine (r_host st)).
  apply wp_bind. eapply wp_mono with (P := fun _ s => replay_safe tip m s).
  2: { intros _ s Hs. eapply wp_mono; [by apply (frames_safe tip)|]. intros ? s' [Hs' _]. exact Hs'. }
  unfold rb_run_replay. apply wp_bind, wp_gets, wp_bind, wp_modify. cbv beta. fold tip. apply wp_bind.
  unfold hostm at 1, wp at 1. cbn [r_host].
  pose proof (sh_save_machine tip (r_host st)) as Hm1. pose proof (sh_save tip (r_host st)) as Hs1.
  destruct (host_snap_save tip (r_host st)) as [saved h1]. cbn [fst snd r_drv r_sched] in *.
  set (d1 := on_replay (set_rp_tip_tick tip) (r_drv st)).
  assert (forall (s : RbState H Sc) c, rp_rewound (d_replay (r_drv s)) = false -> machine (r_host s) = m ->
    wp (do! rb_episode_abort c; ret false) (fun _ s => replay_safe tip m s) s) as Hab.
  { intros s c Hs Hm. apply wp_bind. eapply wp_mono; [apply wp_and; [apply abort_idle|by apply abort_unrewound]|]. intros ? s' [E1 E2]. apply wp_ret.
    apply safe_back. split; [done|]. left. congruence. }
  destruct saved; cbn [negb]; [|by apply Hab].
  apply wp_bind, wp_gets, wp_bind. unfold hostm at 1, wp at 1. cbn [r_host r_drv].
  change (co_load_tick (corr d1)) with (co_load_tick (corr (r_drv st))).
  pose proof (sh_load_fail (co_load_tick (corr (r_drv st))) h1) as Hm2.
  pose proof (sh_load_keeps (co_load_tick (corr (r_drv st))) h1 tip) as Hs2. cbv beta in Hs2.
  destruct (host_snap_load (co_load_tick (corr (r_drv st))) h1) as [loaded h2]. cbn [fst snd] in *.
  destruct loaded; cbn [negb]; [|apply Hab; [done|cbn [r_host]; rewrite Hm2 by done; exact Hm1]].
  apply wp_bind, wp_modify. cbn [r_drv r_host r_sched].
  match goal with |- wp _ _ ?x => set (s2 := x) end.
  assert (rewound_from tip m s2) as Hrw.
  { split; [done|]. split; [done|]. unfold s2, tip_is. cbn [r_host]. destruct Hs2 as [-> |]; [|by right]. by apply Hs1. }
  by apply (rewound_replay tip m).
Qed.

(** ** On the concrete match *)

#[export] Instance toy_machine : Machine toy_host := {| Img := Z; machine := toy_state |}.
#[export] Instance toy_snap_host : SnapHost toy_host.
Proof.
  assert (forall h t, snap h t = toy_find h t) as Es by (intros h t; unfold snap; simpl; by destruct (toy_find h t)).
  assert (forall f : toy_host -> toy_host, (forall h t, toy_find (f h) t = toy_find h t) -> keeps_snaps f) as K by (intros f Hf h u; left; by rewrite !Es).
  split; try (intros; apply K; intros h u; by simpl).
  - done.
  - intros t h _. left. rewrite Es. unfold toy_find. simpl. by rewrite Z.eqb_refl.
  - intros t u h Hu. left. rewrite !Es. unfold toy_find. simpl. by rewrite (proj2 (Z.eqb_neq t u)).
  - intros t h. simpl. by destruct (toy_find h t).
  - intros t. apply K. intros h u. simpl. by destruct (toy_find h t).
  - done.
Defined.

(** An episode over ticks 1 and 2, none of whose rows is sealed. *)
Definition demo_replaying : RbState toy_host unit :=
  mkRbState (set_d_sim 3 (on_ep (fun e => set_ep_corr (mkCorr 8 1 1 2 1 1 0 0) (set_ep_stage kRbSealing e))
    (r_drv demo_match))) (mkToy 42 [(1, 7)] 1 []) tt.
Definition demo_aborted : RbState toy_host unit := Eval vm_compute in
  snd ((do _ <- rb_run_replay; replay_frames None [] []) demo_replaying).
Lemma aborted_replay_restores_tip_witness :
  fst (host_snap_load 1 (r_host demo_replaying)) = true /\
  stage (r_drv demo_aborted) = kRbIdle /\ snap (r_host demo_aborted) 3 = Some 42 /\
  (machine (r_host demo_aborted) = machine (r_host demo_replaying) \/ snap (r_host demo_aborted) (d_sim (r_drv demo_replaying)) = None).
Proof.
  split; [reflexivity|]. assert (stage (r_drv demo_aborted) = kRbIdle) as E by (vm_compute; reflexivity).
  split; [exact E|]. split; [vm_compute; reflexivity|].
  pose proof (aborted_replay_restores_tip None [] [] demo_replaying eq_refl eq_refl eq_refl eq_refl (Forall_nil_2 _)) as Hr.
  unfold wp in Hr.
  assert ((do _ <- rb_run_replay; replay_frames None [] []) demo_replaying = (tt, demo_aborted)) as Ed by (vm_compute; reflexivity).
  rewrite Ed in Hr. exact (Hr E).
Defined.
