(* ===== verification/SchedData.v ===== *)
(** * The frame scheduler: data (src/sched/rnet_sched.c, include/recomp_net/sched.h)

    The scheduler paces the live ticks: it holds a tick back when this peer
    runs ahead, waits a little for a missing remote row before it lets the
    driver invent one, refuses to invent past the prediction cap, and moves the
    input delay to what the arrivals need.

    Its state is the file's static variables, those inside functions included;
    variables that only throttle a log line are left out. The environment
    variables are read once by the source, at first use; [SchedEnv] holds
    their values. *)

From stdpp Require Import base list numbers list_numbers strings.
From S2P Require Import Prelude CStrings StateM Protocol Config Rings CtrlQueue Rollback Session SessionState SessionMain SessionStats DriverData Driver DriverEpisode DriverWire DriverMain.

(** ** Environment

    A variable that is unset or empty is [None]; otherwise [atoi] of it. *)

Definition rnet_env (env : string -> option string) (primary legacy : string) : option string :=
  match env primary with
  | Some (String _ _ as e) => Some e
  | _ => match env legacy with Some (String _ _ as e) => Some e | _ => None end
  end.
Definition env_atoi (env : string -> option string) (primary legacy : string) : option Z :=
  (fun e => s32 (default 0 (fst <$> strtol e))) <$> rnet_env env primary legacy.

Record SchedEnv := mkSchedEnv {
  se_zero_delay : option Z;
  se_invent_grace_ms : option Z;
  se_gap1_grace_ms : option Z;
  se_timesync : option Z;
  se_adapt_delay : option Z;
  se_auto_delay : option Z;
  se_gap1_invent : option Z
}.
Definition read_sched_env (env : string -> option string) : SchedEnv :=
  mkSchedEnv (env_atoi env "RBE_RB_ZERO_DELAY" "PSX_RB_ZERO_DELAY")
    (env_atoi env "RBE_RB_INVENT_GRACE_MS" "PSX_RB_INVENT_GRACE_MS")
    (env_atoi env "RBE_RB_GAP1_GRACE_MS" "PSX_RB_GAP1_GRACE_MS")
    (env_atoi env "RBE_RB_TIMESYNC" "PSX_RB_TIMESYNC")
    (env_atoi env "RBE_RB_ADAPT_DELAY" "PSX_RB_ADAPT_DELAY")
    (env_atoi env "RBE_RB_AUTO_DELAY" "PSX_RB_AUTO_DELAY")
    (env_atoi env "RBE_RB_GAP1_INVENT" "PSX_RB_GAP1_INVENT").
Definition clamp (lo hi x : Z) : Z := Z.min hi (Z.max lo x).
(** On unless the variable is 0. *)
Definition knob_on (v : option Z) : bool := match v with Some n => nz n | None => true end.
Definition rnet_sched_real_delay_enabled (e : SchedEnv) : bool := negb (nz (default 0 (se_zero_delay e))).
Definition grace_floor_ms (e : SchedEnv) : Z := clamp 0 200 (default 8 (se_invent_grace_ms e)).
Definition np_timesync_enabled (e : SchedEnv) : bool := knob_on (se_timesync e).
Definition adapt_delay_enabled (e : SchedEnv) : bool := knob_on (se_adapt_delay e).
Definition auto_delay_enabled (e : SchedEnv) : bool := knob_on (se_auto_delay e).
Definition gap1_legacy (e : SchedEnv) : bool := knob_on (se_gap1_invent e).

(** ** State *)

(** The delay cushion after an episode. *)
Record SchedCushion := mkSchedCushion {
  cu_boot_tip_logged : bool;
  cu_rebuild : bool;
  cu_since_ms : Z;
  cu_catchup_until_ms : Z
}.
Definition eta_cu (r : SchedCushion) : SchedCushion :=
  mkSchedCushion (cu_boot_tip_logged r) (cu_rebuild r) (cu_since_ms r) (cu_catchup_until_ms r).
Definition set_cu_boot_tip_logged := ltac:(updater eta_cu cu_boot_tip_logged).
Definition set_cu_rebuild := ltac:(updater eta_cu cu_rebuild).
Definition set_cu_since_ms := ltac:(updater eta_cu cu_since_ms).
Definition set_cu_catchup_until_ms := ltac:(updater eta_cu cu_catchup_until_ms).

(** The delay controller's window, its transit estimate, and the statics of [np_auto_delay_tick]. *)
Record SchedArrival := mkSchedArrival {
  ad_ticks : Z;
  ad_lead_sum : Z;
  ad_lead_min : Z;
  ad_miss : Z;
  ad_late_n : Z;
  ad_late_sum_ms : Z;
  ad_late_max_ms : Z;
  ad_miss_pending : bool;
  ad_miss_t0_ms : Z;
  ad_transit_x16 : Z;
  ad_transit_have : bool;
  ad_last_eval_ms : Z;
  ad_last_change_ms : Z;
  ad_agree_streak : Z;
  ad_last_target : Z
}.
Definition eta_ad (r : SchedArrival) : SchedArrival :=
  mkSchedArrival (ad_ticks r) (ad_lead_sum r) (ad_lead_min r) (ad_miss r) (ad_late_n r) (ad_late_sum_ms r)
    (ad_late_max_ms r) (ad_miss_pending r) (ad_miss_t0_ms r) (ad_transit_x16 r) (ad_transit_have r)
    (ad_last_eval_ms r) (ad_last_change_ms r) (ad_agree_streak r) (ad_last_target r).
Definition set_ad_ticks := ltac:(updater eta_ad ad_ticks).
Definition set_ad_lead_sum := ltac:(updater eta_ad ad_lead_sum).
Definition set_ad_lead_min := ltac:(updater eta_ad ad_lead_min).
Definition set_ad_miss := ltac:(updater eta_ad ad_miss).
Definition set_ad_late_n := ltac:(updater eta_ad ad_late_n).
Definition set_ad_late_sum_ms := ltac:(updater eta_ad ad_late_sum_ms).
Definition set_ad_late_max_ms := ltac:(updater eta_ad ad_late_max_ms).
Definition set_ad_miss_pending := ltac:(updater eta_ad ad_miss_pending).
Definition set_ad_miss_t0_ms := ltac:(updater eta_ad ad_miss_t0_ms).
Definition set_ad_transit_x16 := ltac:(updater eta_ad ad_transit_x16).
Definition set_ad_transit_have := ltac:(updater eta_ad ad_transit_have).
Definition set_ad_last_eval_ms := ltac:(updater eta_ad ad_last_eval_ms).
Definition set_ad_last_change_ms := ltac:(updater eta_ad ad_last_change_ms).
Definition set_ad_agree_streak := ltac:(updater eta_ad ad_agree_streak).
Definition set_ad_last_target := ltac:(updater eta_ad ad_last_target).

(** The cadence of the remote tip, and the gap-1 patience. *)
Record SchedTip := mkSchedTip {
  ti_last_highest : Z;
  ti_last_advance_ms : Z;
  ti_arrival_ema_ms : Z;
  ti_have_advance : bool;
  ti_shrink_until_ms : Z;
  ti_expire_streak : Z
}.
Definition eta_ti (r : SchedTip) : SchedTip :=
  mkSchedTip (ti_last_highest r) (ti_last_advance_ms r) (ti_arrival_ema_ms r) (ti_have_advance r)
    (ti_shrink_until_ms r) (ti_expire_streak r).
Definition set_ti_last_highest := ltac:(updater eta_ti ti_last_highest).
Definition set_ti_last_advance_ms := ltac:(updater eta_ti ti_last_advance_ms).
Definition set_ti_arrival_ema_ms := ltac:(updater eta_ti ti_arrival_ema_ms).
Definition set_ti_have_advance := ltac:(updater eta_ti ti_have_advance).
Definition set_ti_shrink_until_ms := ltac:(updater eta_ti ti_shrink_until_ms).
Definition set_ti_expire_streak := ltac:(updater eta_ti ti_expire_streak).

(** The statics of [np_invent_grace_stall_ex] and [rnet_sched_on_remote_miss]. *)
Record SchedGrace := mkSchedGrace {
  gr_wire : list Z;
  gr_t0 : list Z;
  gr_expired : list Z;
  gr_expire_streak : Z;
  gr_off_until : Z;
  gr_tick_ema_ms : Z;
  gr_miss_wire : Z;
  gr_miss_t0 : Z;
  gr_cw_wire : Z;
  gr_gap1_wait_wire : Z;
  gr_gap1_grace_wire : Z
}.
Definition eta_gr (r : SchedGrace) : SchedGrace :=
  mkSchedGrace (gr_wire r) (gr_t0 r) (gr_expired r) (gr_expire_streak r) (gr_off_until r) (gr_tick_ema_ms r)
    (gr_miss_wire r) (gr_miss_t0 r) (gr_cw_wire r) (gr_gap1_wait_wire r) (gr_gap1_grace_wire r).
Definition set_gr_wire := ltac:(updater eta_gr gr_wire).
Definition set_gr_t0 := ltac:(updater eta_gr gr_t0).
Definition set_gr_expired := ltac:(updater eta_gr gr_expired).
Definition set_gr_expire_streak := ltac:(updater eta_gr gr_expire_streak).
Definition set_gr_off_until := ltac:(updater eta_gr gr_off_until).
Definition set_gr_tick_ema_ms := ltac:(updater eta_gr gr_tick_ema_ms).
Definition set_gr_miss_wire := ltac:(updater eta_gr gr_miss_wire).
Definition set_gr_miss_t0 := ltac:(updater eta_gr gr_miss_t0).
Definition set_gr_cw_wire := ltac:(updater eta_gr gr_cw_wire).
Definition set_gr_gap1_wait_wire := ltac:(updater eta_gr gr_gap1_wait_wire).
Definition set_gr_gap1_grace_wire := ltac:(updater eta_gr gr_gap1_grace_wire).

(** Timesync pacing. *)
Record SchedPacing := mkSchedPacing {
  ts_tick_ema_ms : Z;
  ts_debt_ms : Z;
  ts_pegged_streak : Z;
  ts_off_until_ms : Z;
  ts_ahead_streak : Z;
  ts_last_wire : Z;
  ts_last_wire_ms : Z;
  ts_stall_until : Z;
  ts_stall_logged : bool
}.
Definition eta_ts (r : SchedPacing) : SchedPacing :=
  mkSchedPacing (ts_tick_ema_ms r) (ts_debt_ms r) (ts_pegged_streak r) (ts_off_until_ms r) (ts_ahead_streak r)
    (ts_last_wire r) (ts_last_wire_ms r) (ts_stall_until r) (ts_stall_logged r).
Definition set_ts_tick_ema_ms := ltac:(updater eta_ts ts_tick_ema_ms).
Definition set_ts_debt_ms := ltac:(updater eta_ts ts_debt_ms).
Definition set_ts_pegged_streak := ltac:(updater eta_ts ts_pegged_streak).
Definition set_ts_off_until_ms := ltac:(updater eta_ts ts_off_until_ms).
Definition set_ts_ahead_streak := ltac:(updater eta_ts ts_ahead_streak).
Definition set_ts_last_wire := ltac:(updater eta_ts ts_last_wire).
Definition set_ts_last_wire_ms := ltac:(updater eta_ts ts_last_wire_ms).
Definition set_ts_stall_until := ltac:(updater eta_ts ts_stall_until).
Definition set_ts_stall_logged := ltac:(updater eta_ts ts_stall_logged).

(** Counters of the pacing. *)
Record SchedPacingStats := mkSchedPacingStats {
  tc_mispredict_count : Z;
  tc_mispredict_age_sum : Z;
  tc_mispredict_age_max : Z;
  tc_note_late_applied : Z;
  tc_suppressed_rb : Z;
  tc_suppressed_off : Z;
  tc_debt_added_ms : Z;
  tc_lead_sum : Z;
  tc_lead_n : Z;
  tc_lead_min : Z;
  tc_lead_max : Z;
  tc_lead_have : bool;
  tc_phase_log_ms : Z
}.
Definition eta_tc (r : SchedPacingStats) : SchedPacingStats :=
  mkSchedPacingStats (tc_mispredict_count r) (tc_mispredict_age_sum r) (tc_mispredict_age_max r)
    (tc_note_late_applied r) (tc_suppressed_rb r) (tc_suppressed_off r) (tc_debt_added_ms r)
    (tc_lead_sum r) (tc_lead_n r) (tc_lead_min r) (tc_lead_max r) (tc_lead_have r) (tc_phase_log_ms r).
Definition set_tc_mispredict_count := ltac:(updater eta_tc tc_mispredict_count).
Definition set_tc_mispredict_age_sum := ltac:(updater eta_tc tc_mispredict_age_sum).
Definition set_tc_mispredict_age_max := ltac:(updater eta_tc tc_mispredict_age_max).
Definition set_tc_note_late_applied := ltac:(updater eta_tc tc_note_late_applied).
Definition set_tc_suppressed_rb := ltac:(updater eta_tc tc_suppressed_rb).
Definition set_tc_suppressed_off := ltac:(updater eta_tc tc_suppressed_off).
Definition set_tc_debt_added_ms := ltac:(updater eta_tc tc_debt_added_ms).
Definition set_tc_lead_sum := ltac:(updater eta_tc tc_lead_sum).
Definition set_tc_lead_n := ltac:(updater eta_tc tc_lead_n).
Definition set_tc_lead_min := ltac:(updater eta_tc tc_lead_min).
Definition set_tc_lead_max := ltac:(updater eta_tc tc_lead_max).
Definition set_tc_lead_have := ltac:(updater eta_tc tc_lead_have).
Definition set_tc_phase_log_ms := ltac:(updater eta_tc tc_phase_log_ms).

(** The prediction-cap freeze and the reactive delay bump. *)
Record SchedPcap := mkSchedPcap {
  pc_frozen : bool;
  pc_enters_window : Z;
  pc_window_t0_ms : Z;
  pc_last_enter_ms : Z;
  pc_last_bump_ms : Z
}.
Definition eta_pc (r : SchedPcap) : SchedPcap :=
  mkSchedPcap (pc_frozen r) (pc_enters_window r) (pc_window_t0_ms r) (pc_last_enter_ms r) (pc_last_bump_ms r).
Definition set_pc_frozen := ltac:(updater eta_pc pc_frozen).
Definition set_pc_enters_window := ltac:(updater eta_pc pc_enters_window).
Definition set_pc_window_t0_ms := ltac:(updater eta_pc pc_window_t0_ms).
Definition set_pc_last_enter_ms := ltac:(updater eta_pc pc_last_enter_ms).
Definition set_pc_last_bump_ms := ltac:(updater eta_pc pc_last_bump_ms).

(** Admission counters. *)
Record SchedAdmit := mkSchedAdmit {
  am_gap1 : Z;
  am_gap2 : Z;
  am_gap3p : Z;
  am_gap1_grace : Z;
  am_pcap_stalls : Z;
  am_pcap_enters : Z;
  am_stats_log_ms : Z;
  am_runway_empty : Z;
  am_tip_stale : Z;
  am_gap1_legacy : Z;
  am_cushion_wait : Z;
  am_case_a : Z;
  am_case_b : Z
}.
Definition eta_am (r : SchedAdmit) : SchedAdmit :=
  mkSchedAdmit (am_gap1 r) (am_gap2 r) (am_gap3p r) (am_gap1_grace r) (am_pcap_stalls r) (am_pcap_enters r)
    (am_stats_log_ms r) (am_runway_empty r) (am_tip_stale r) (am_gap1_legacy r) (am_cushion_wait r)
    (am_case_a r) (am_case_b r).
Definition set_am_gap1 := ltac:(updater eta_am am_gap1).
Definition set_am_gap2 := ltac:(updater eta_am am_gap2).
Definition set_am_gap3p := ltac:(updater eta_am am_gap3p).
Definition set_am_gap1_grace := ltac:(updater eta_am am_gap1_grace).
Definition set_am_pcap_stalls := ltac:(updater eta_am am_pcap_stalls).
Definition set_am_pcap_enters := ltac:(updater eta_am am_pcap_enters).
Definition set_am_stats_log_ms := ltac:(updater eta_am am_stats_log_ms).
Definition set_am_runway_empty := ltac:(updater eta_am am_runway_empty).
Definition set_am_tip_stale := ltac:(updater eta_am am_tip_stale).
Definition set_am_gap1_legacy := ltac:(updater eta_am am_gap1_legacy).
Definition set_am_cushion_wait := ltac:(updater eta_am am_cushion_wait).
Definition set_am_case_a := ltac:(updater eta_am am_case_a).
Definition set_am_case_b := ltac:(updater eta_am am_case_b).

(** The scorecard window, and the statics of its two samplers. *)
Record SchedScore := mkSchedScore {
  sk_window_t0_ms : Z;
  sk_ep0 : Z;
  sk_rt0 : Z;
  sk_gap1_0 : Z;
  sk_tip_stale0 : Z;
  sk_lead_sum : Z;
  sk_lead_n : Z;
  sk_lead_min : Z;
  sk_lead_max : Z;
  sk_slack_sum : Z;
  sk_slack_n : Z;
  sk_slack_min : Z;
  sk_slack_max : Z;
  sk_miss_at_need : Z;
  sk_counted_wire : Z;
  sk_last_sim : Z
}.
Definition eta_sk (r : SchedScore) : SchedScore :=
  mkSchedScore (sk_window_t0_ms r) (sk_ep0 r) (sk_rt0 r) (sk_gap1_0 r) (sk_tip_stale0 r) (sk_lead_sum r)
    (sk_lead_n r) (sk_lead_min r) (sk_lead_max r) (sk_slack_sum r) (sk_slack_n r) (sk_slack_min r)
    (sk_slack_max r) (sk_miss_at_need r) (sk_counted_wire r) (sk_last_sim r).
Definition set_sk_window_t0_ms := ltac:(updater eta_sk sk_window_t0_ms).
Definition set_sk_ep0 := ltac:(updater eta_sk sk_ep0).
Definition set_sk_rt0 := ltac:(updater eta_sk sk_rt0).
Definition set_sk_gap1_0 := ltac:(updater eta_sk sk_gap1_0).
Definition set_sk_tip_stale0 := ltac:(updater eta_sk sk_tip_stale0).
Definition set_sk_lead_sum := ltac:(updater eta_sk sk_lead_sum).
Definition set_sk_lead_n := ltac:(updater eta_sk sk_lead_n).
Definition set_sk_lead_min := ltac:(updater eta_sk sk_lead_min).
Definition set_sk_lead_max := ltac:(updater eta_sk sk_lead_max).
Definition set_sk_slack_sum := ltac:(updater eta_sk sk_slack_sum).
Definition set_sk_slack_n := ltac:(updater eta_sk sk_slack_n).
Definition set_sk_slack_min := ltac:(updater eta_sk sk_slack_min).
Definition set_sk_slack_max := ltac:(updater eta_sk sk_slack_max).
Definition set_sk_miss_at_need := ltac:(updater eta_sk sk_miss_at_need).
Definition set_sk_counted_wire := ltac:(updater eta_sk sk_counted_wire).
Definition set_sk_last_sim := ltac:(updater eta_sk sk_last_sim).

(** The scheduler: what the file keeps in static variables. *)
Record Sched := mkSched {
  sc_env : SchedEnv;
  sc_cushion : SchedCushion;
  sc_ad : SchedArrival;
  sc_tip : SchedTip;
  sc_grace : SchedGrace;
  sc_ts : SchedPacing;
  sc_tc : SchedPacingStats;
  sc_pcap : SchedPcap;
  sc_adm : SchedAdmit;
  sc_score : SchedScore;
  sc_stall_tag : string
}.
Definition eta_sc (r : Sched) : Sched :=
  mkSched (sc_env r) (sc_cushion r) (sc_ad r) (sc_tip r) (sc_grace r) (sc_ts r) (sc_tc r) (sc_pcap r)
    (sc_adm r) (sc_score r) (sc_stall_tag r).
Definition set_sc_env := ltac:(updater eta_sc sc_env).
Definition set_sc_cushion := ltac:(updater eta_sc sc_cushion).
Definition set_sc_ad := ltac:(updater eta_sc sc_ad).
Definition set_sc_tip := ltac:(updater eta_sc sc_tip).
Definition set_sc_grace := ltac:(updater eta_sc sc_grace).
Definition set_sc_ts := ltac:(updater eta_sc sc_ts).
Definition set_sc_tc := ltac:(updater eta_sc sc_tc).
Definition set_sc_pcap := ltac:(updater eta_sc sc_pcap).
Definition set_sc_adm := ltac:(updater eta_sc sc_adm).
Definition set_sc_score := ltac:(updater eta_sc sc_score).
Definition set_sc_stall_tag := ltac:(updater eta_sc sc_stall_tag).

(** Updates of one group. *)
Definition on_sc_cushion (f : SchedCushion -> SchedCushion) (s : Sched) : Sched := set_sc_cushion (f (sc_cushion s)) s.
Definition on_sc_ad (f : SchedArrival -> SchedArrival) (s : Sched) : Sched := set_sc_ad (f (sc_ad s)) s.
Definition on_sc_tip (f : SchedTip -> SchedTip) (s : Sched) : Sched := set_sc_tip (f (sc_tip s)) s.
Definition on_sc_grace (f : SchedGrace -> SchedGrace) (s : Sched) : Sched := set_sc_grace (f (sc_grace s)) s.
Definition on_sc_ts (f : SchedPacing -> SchedPacing) (s : Sched) : Sched := set_sc_ts (f (sc_ts s)) s.
Definition on_sc_tc (f : SchedPacingStats -> SchedPacingStats) (s : Sched) : Sched := set_sc_tc (f (sc_tc s)) s.
Definition on_sc_pcap (f : SchedPcap -> SchedPcap) (s : Sched) : Sched := set_sc_pcap (f (sc_pcap s)) s.
Definition on_sc_adm (f : SchedAdmit -> SchedAdmit) (s : Sched) : Sched := set_sc_adm (f (sc_adm s)) s.
Definition on_sc_score (f : SchedScore -> SchedScore) (s : Sched) : Sched := set_sc_score (f (sc_score s)) s.

(** The process starts with every static variable at its initialiser. *)
Definition RNET_SCHED_MAX_SLOTS : Z := 8.
Definition zero_sched (e : SchedEnv) : Sched :=
  mkSched e (mkSchedCushion false false 0 0)
    (mkSchedArrival 0 0 0 0 0 0 0 false 0 0 false 0 0 0 (-1))
    (mkSchedTip 0 0 0 false 0 0)
    (mkSchedGrace (repeat 0 8) (repeat 0 8) (repeat 0 8) 0 0 0 0 0 0 0 0)
    (mkSchedPacing 0 0 0 0 0 0 0 0 false)
    (mkSchedPacingStats 0 0 0 0 0 0 0 0 0 0 0 false 0)
    (mkSchedPcap false 0 0 0 0)
    (mkSchedAdmit 0 0 0 0 0 0 0 0 0 0 0 0 0)
    (mkSchedScore 0 0 0 0 0 0 0 0 0 0 0 0 0 0 UINT32_MAX UINT32_MAX)
    EmptyString.

(** What [rnet_sched_reset_session] clears; [ad_lead_min] and the statics
    inside functions keep their values. *)
Definition rnet_sched_reset_session (s : Sched) : Sched :=
  let a := sc_ad s in let k := sc_score s in
  mkSched (sc_env s) (mkSchedCushion false false 0 0)
    (mkSchedArrival 0 0 (ad_lead_min a) 0 0 0 0 false 0 0 false
       (ad_last_eval_ms a) (ad_last_change_ms a) (ad_agree_streak a) (ad_last_target a))
    (mkSchedTip 0 0 0 false 0 0)
    (sc_grace s)
    (mkSchedPacing 0 0 0 0 0 0 0 0 false)
    (mkSchedPacingStats 0 0 0 0 0 0 0 0 0 0 0 false (tc_phase_log_ms (sc_tc s)))
    (mkSchedPcap false 0 0 0 0)
    (mkSchedAdmit 0 0 0 0 0 0 0 0 0 0 0 0 0)
    (mkSchedScore 0 0 0 0 0 0 0 0 0 0 0 0 0 0 (sk_counted_wire k) (sk_last_sim k))
    EmptyString.
