(* ===== verification/Sched.v ===== *)
(** * The frame scheduler: operations (src/sched/rnet_sched.c)

    Every function is a computation on the scheduler's state and the driver's
    side [D] of the bridge. Log lines are left out; what they change or read -
    counters, windows, the clock - is kept. *)

From stdpp Require Import base list numbers list_numbers strings.
From S2P Require Import Prelude StateM Protocol Config Rings CtrlQueue Rollback Session SessionState SessionMain SessionStats DriverData SchedData.

Definition RB_FORCE_TURN_DELAY_FLOOR : Z := 6.
Definition RB_AUTO_DELAY_LOWER_FLOOR : Z := 3.
Definition RB_ABSURD_INVENT_CATCHUP_MS : Z := 2500.
Definition RB_GAP1_SHRINK_CAP_MS : Z := 6.
Definition RB_GAP1_SHRINK_HOLD_MS : Z := 1000.
Definition RB_INVENT_DEPTH_STALE_FLOOR_MS : Z := 40.
Definition RB_TIP_FRESH_MULT_X2 : Z := 3.
Definition RB_GAP1_LAN_RTT_MAX_MS : Z := 48.
Definition RB_GAP1_LAN_GRACE_BASE_MS : Z := 4.
Definition RB_GAP1_LAN_GRACE_CAP_MS : Z := 20.
Definition RB_GAP1_RELAY_GRACE_CAP_MS : Z := 20.
Definition RB_INVENT_RUNWAY_GRACE_CAP_MS : Z := 12.
Definition RB_ADAPT_FREEZE_ENTERS_THRESH : Z := 3.
Definition RB_ADAPT_WINDOW_MS : Z := 5000.
Definition RB_ADAPT_COOLDOWN_MS : Z := 10000.
Definition RB_ADAPT_DELAY_MAX : Z := 16.
Definition RB_AUTO_DELAY_EVAL_MS : Z := 5000.
Definition RB_AUTO_DELAY_AGREE : Z := 2.
Definition RB_AUTO_DELAY_LEAD_MARGIN : Z := 2.
Definition RB_AUTO_DELAY_COOLDOWN_MS : Z := 30000.

(** [now ? now : 1u]: 0 stands for "never". *)
Definition stamp (now : Z) : Z := if now =? 0 then 1 else now.
(** [t != 0 && (int32_t)(now - t) < 0]: the deadline [t] is set and ahead. *)
Definition before (now t : Z) : bool := nz t && (s32 (now - t) <? 0).
(** An average over the last periods of 1 to 250 ms; [k] is the weight of the past. *)
Definition ema (k old dt : Z) : Z :=
  if (1 <=? dt) && (dt <=? 250) then (if nz old then u32 (k * old + dt) / (k + 1) else dt) else old.

Section Ops.
Context {D : Type} (br : RNetSchedBridge D).
Notation P := (M (Sched * D)).

Definition sc {A} (f : Sched -> A) : P A := gets (fun x => f (fst x)).
Definition put (f : Sched -> Sched) : P unit := modify (fun x => (f (fst x), snd x)).
Definition side {A} (f : D -> A) : P A := gets (fun x => f (snd x)).
(** A call of the driver's side. *)
Definition call {A} (m : M D A) : P A := fun x => let '(a, d) := m (snd x) in (a, (fst x, d)).
(** A call on the session, when there is one. *)
Definition on_session {A} (dflt : A) (f : RNetSession -> A * RNetSession) : P A := fun x =>
  match br_session br (snd x) with
  | None => (dflt, x)
  | Some s => let '(a, s) := f s in (a, (fst x, br_put_session br s (snd x)))
  end.

(** ** Bridge and gates *)

Definition sched_mono_ms : P Z := call (gt_now_ms br).
Definition sched_delay (d : D) : Z := default 0 (br_input_delay br d).
Definition sched_local_slot (d : D) : Z := default (-1) (br_local_slot br d).
Definition sched_has_session (d : D) : bool := bool_decide (is_Some (br_session br d)).
Definition sched_lockstep_stall_tag (d : D) : string :=
  match gt_lockstep_stall_tag br with
  | Some tag => tag d
  | None => if gt_media_active br d then "media"
            else if gt_desync_hold br d then "desync_hold" else "lockstep_no_invent"
  end.

Definition rnet_sched_sync_delay_from_session : P unit := fun x =>
  match br_session br (snd x), br_input_delay br (snd x) with
  | Some s, Some _ =>
      let d := s_delay s in
      let d := if (2 <=? d) && (d <? RB_AUTO_DELAY_LOWER_FLOOR) && br_rollback br (snd x) &&
                  rnet_sched_real_delay_enabled (sc_env (fst x))
               then RB_AUTO_DELAY_LOWER_FLOOR else d in
      if 2 <=? d then (tt, (fst x, br_put_input_delay br d (snd x))) else (tt, x)
  | _, _ => (tt, x)
  end.

(** ** The stall tag: 79 characters of an 80-byte buffer *)

Definition rnet_sched_set_admit_stall (tag : string) : P unit :=
  put (set_sc_stall_tag (String.substring 0 79 tag)).
Definition rnet_sched_clear_admit_stall (s : Sched) : Sched := set_sc_stall_tag EmptyString s.

(** ** Patience: round trip, grace and the cadence of the remote tip *)

(** The estimate used for waiting: a share of the delay, raised by a trusted
    sample. *)
Definition np_invent_rtt_ms (d : D) : Z :=
  let raw := gt_rtt_ms br d in
  let delay := sched_delay d in
  let synth := clamp 8 24 (u32 ((if 0 <? delay then delay else 4) * 17) / 4) in
  if (4 <=? raw) && (synth <? raw) then raw else synth.

(** How long one missing row of one seat may hold the tick. *)
Definition grace_budget (s : Sched) (d : D) (cap : Z) : Z :=
  let rtt := np_invent_rtt_ms d in
  let ema := gr_tick_ema_ms (sc_grace s) in
  let delay := sched_delay d in
  let delay_ms := u32 ((if 0 <? delay then delay else 0) * (if nz ema then ema else 17)) in
  let ceiling := clamp 20 80 (delay_ms / 2) in
  let scaled := u32 (rtt + rtt / 2) in
  let floor_ms := grace_floor_ms (sc_env s) in
  let budget := Z.min ceiling (if floor_ms <? scaled then scaled else floor_ms) in
  if negb (cap =? UINT32_MAX) && (cap <? budget) then cap else budget.

(** The wait for a new wire tick begins. *)
Definition grace_open (slot wire now : Z) (g : SchedGrace) : SchedGrace :=
  let old := rd 0 (gr_wire g) slot in
  let g := if nz old && (rd 0 (gr_expired g) slot =? 0) then set_gr_expire_streak 0 g else g in
  let g := if nz old && (wire =? u32 (old + 1))
           then set_gr_tick_ema_ms (ema 3 (gr_tick_ema_ms g) (u32 (now - rd 0 (gr_t0 g) slot))) g else g in
  set_gr_expired (wr (gr_expired g) slot 0)
    (set_gr_t0 (wr (gr_t0 g) slot now) (set_gr_wire (wr (gr_wire g) slot wire) g)).

(** The budget of the wait is spent. *)
Definition grace_expire (slot now : Z) (count : bool) (g : SchedGrace) : SchedGrace :=
  if nz (rd 0 (gr_expired g) slot) then g else
  let g := set_gr_expired (wr (gr_expired g) slot 1) g in
  if negb count then g else
  let streak := u32 (gr_expire_streak g + 1) in
  if 15 <=? streak then set_gr_off_until (u32 (now + 5000)) (set_gr_expire_streak 0 g)
  else set_gr_expire_streak streak g.

(** "Keep waiting" for the row of [wire]. *)
Definition np_invent_grace_stall_ex (slot wire budget_cap : Z) (count_expire : bool) : P bool :=
  do floor_ms <- sc (fun s => grace_floor_ms (sc_env s));
  if (floor_ms =? 0) || (budget_cap =? 0) || (slot <? 0) || (RNET_SCHED_MAX_SLOTS <=? slot) then ret false else
  do now <- sched_mono_ms;
  do g <- sc sc_grace;
  if before now (gr_off_until g) then ret false else
  do! put (on_sc_grace (set_gr_off_until 0));
  if negb (rd 0 (gr_wire g) slot =? wire) then
    do! put (on_sc_grace (grace_open slot wire now));
    ret true
  else
    do s <- sc id;
    do budget <- side (fun d => grace_budget s d budget_cap);
    if u32 (now - rd 0 (gr_t0 g) slot) <? budget then ret true else
    do! put (on_sc_grace (grace_expire slot now count_expire));
    ret false.

Definition np_tip_track_advance (highest_remote_wire : Z) : P unit :=
  do now <- sched_mono_ms;
  put (on_sc_tip (fun t =>
    if negb (ti_have_advance t)
    then set_ti_have_advance true (set_ti_last_advance_ms now (set_ti_last_highest highest_remote_wire t))
    else if highest_remote_wire =? ti_last_highest t then t
    else set_ti_last_advance_ms now (set_ti_last_highest highest_remote_wire
           (set_ti_arrival_ema_ms (ema 3 (ti_arrival_ema_ms t) (u32 (now - ti_last_advance_ms t))) t)))).

(** Milliseconds since the tip moved; [UINT32_MAX] when it never did. *)
Definition np_tip_age_ms : P Z :=
  do t <- sc sc_tip;
  if negb (ti_have_advance t) then ret UINT32_MAX else
  do now <- sched_mono_ms;
  ret (u32 (now - ti_last_advance_ms t)).

(** The flat cap of [RBE_RB_GAP1_GRACE_MS]; [None] when it is not set. *)
Definition np_gap1_grace_cap_ms : P (option Z) :=
  do e <- sc (fun s => se_gap1_grace_ms (sc_env s));
  match e with
  | None => ret None
  | Some n =>
      let cap := clamp 0 40 n in
      do now <- sched_mono_ms;
      if cap =? 0 then ret (Some 0) else
      do rtt <- side (gt_rtt_ms br);
      do until <- sc (fun s => ti_shrink_until_ms (sc_tip s));
      if (4 <=? rtt) && before now until then ret (Some (Z.min cap RB_GAP1_SHRINK_CAP_MS))
      else do! put (on_sc_tip (set_ti_shrink_until_ms 0)); ret (Some cap)
  end.

Definition np_gap1_note_expire_invent : P unit :=
  do now <- sched_mono_ms;
  do rtt <- side (gt_rtt_ms br);
  put (on_sc_tip (fun t =>
    if rtt <? 4 then set_ti_expire_streak 0 t else
    let streak := u32 (ti_expire_streak t + 1) in
    if streak <? 10 then set_ti_expire_streak streak t
    else set_ti_shrink_until_ms (u32 (now + RB_GAP1_SHRINK_HOLD_MS)) (set_ti_expire_streak 0 t))).

Definition rnet_sched_note_remote_hit : P unit :=
  do! put (on_sc_tip (set_ti_expire_streak 0));
  do a <- sc sc_ad;
  when (ad_miss_pending a)
    (do now <- sched_mono_ms;
     let late := u32 (now - ad_miss_t0_ms a) in
     put (on_sc_ad (fun a =>
       let a := set_ad_miss_pending false a in
       if negb (late <? 2000) then a else
       set_ad_late_n (u32 (ad_late_n a + 1)) (set_ad_late_max_ms (Z.max (ad_late_max_ms a) late)
         (set_ad_late_sum_ms (u32 (ad_late_sum_ms a + late)) a))))).

(** ** Timesync: the peer that runs ahead gives time back *)

Definition rnet_sched_note_episode_boundary : P unit :=
  do! put (on_sc_ts (set_ts_pegged_streak 0));
  do rebuilding <- sc (fun s => cu_rebuild (sc_cushion s));
  do! when (negb rebuilding)
        (do now <- sched_mono_ms; put (on_sc_cushion (set_cu_since_ms (stamp now))));
  put (on_sc_cushion (set_cu_rebuild true)).

Definition rnet_sched_arm_absurd_invent_catchup : P unit :=
  do now <- sched_mono_ms;
  put (on_sc_cushion (set_cu_catchup_until_ms (stamp (u32 (now + RB_ABSURD_INVENT_CATCHUP_MS))))).

Definition absurd_invent_catchup_active (now : Z) : P bool :=
  do until <- sc (fun s => cu_catchup_until_ms (sc_cushion s));
  if before now until then ret true else
  do! put (on_sc_cushion (set_cu_catchup_until_ms 0));
  ret false.

(** At most three ticks of debt. *)
Definition ts_cap (t : SchedPacing) : Z := if nz (ts_tick_ema_ms t) then u32 (ts_tick_ema_ms t * 3) else 50.
(** [debt += add], cut at the cap. *)
Definition ts_owe (add : Z) (t : SchedPacing) : SchedPacing :=
  set_ts_debt_ms (Z.min (ts_cap t) (u32 (ts_debt_ms t + add))) t.
(** What a prediction that was wrong after [age] ticks adds. *)
Definition late_debt (t : SchedPacing) (delay age : Z) : Z :=
  let add := if nz (ts_tick_ema_ms t) then u32 (ts_tick_ema_ms t * 5) / 4 else 20 in
  let expected := if 0 <? delay then delay else 2 in
  let extra := if expected <? age then age - expected else 0 in
  if nz extra then u32 (add + u32 (add * extra) / 4) else add.

Definition tc_bump_rb (c : SchedPacingStats) := set_tc_suppressed_rb (u32 (tc_suppressed_rb c + 1)) c.
Definition tc_owed (add : Z) (c : SchedPacingStats) := set_tc_debt_added_ms (u32 (tc_debt_added_ms c + add)) c.

Definition np_timesync_note_late (age : Z) : P unit :=
  do on <- sc (fun s => np_timesync_enabled (sc_env s));
  if negb on then ret tt else
  do busy <- side (fun d => gt_episode_active br d || gt_tip_holding br d || gt_media_active br d);
  if (busy : bool) then put (on_sc_tc tc_bump_rb) else
  do now <- sched_mono_ms;
  do t <- sc sc_ts;
  if before now (ts_off_until_ms t) then put (on_sc_tc (fun c => set_tc_suppressed_off (u32 (tc_suppressed_off c + 1)) c)) else
  do! put (on_sc_ts (set_ts_off_until_ms 0));
  do delay <- side sched_delay;
  let add := late_debt t delay age in
  let pegged := ts_cap t <=? ts_debt_ms t in
  if pegged && (18 <=? u32 (ts_pegged_streak t + 1))
  then put (on_sc_ts (fun t => set_ts_off_until_ms (u32 (now + 10000)) (set_ts_debt_ms 0 (set_ts_pegged_streak 0 t))))
  else
    do! put (on_sc_ts (fun t => set_ts_pegged_streak (if pegged then u32 (ts_pegged_streak t + 1) else 0) t));
    do! put (on_sc_ts (ts_owe add));
    put (on_sc_tc (fun c => tc_owed add (set_tc_note_late_applied (u32 (tc_note_late_applied c + 1)) c))).

Definition rnet_sched_note_mispredict (age : Z) : P unit :=
  do! put (on_sc_tc (fun c =>
        set_tc_mispredict_age_max (Z.max (tc_mispredict_age_max c) age)
          (set_tc_mispredict_age_sum (u64 (tc_mispredict_age_sum c + age))
            (set_tc_mispredict_count (u32 (tc_mispredict_count c + 1)) c))));
  np_timesync_note_late age.

Definition np_timesync_sample_lead (lead : Z) (c : SchedPacingStats) : SchedPacingStats :=
  let have := tc_lead_have c in
  set_tc_lead_n (u32 (tc_lead_n c + 1)) (set_tc_lead_sum (tc_lead_sum c + lead)
    (set_tc_lead_max (if have then Z.max (tc_lead_max c) lead else lead)
      (set_tc_lead_min (if have then Z.min (tc_lead_min c) lead else lead) (set_tc_lead_have true c)))).

Definition np_timesync_note_ahead_skew (remote_lead : Z) : P unit :=
  do on <- sc (fun s => np_timesync_enabled (sc_env s));
  do busy <- side (fun d => gt_media_active br d || gt_episode_active br d || gt_tip_holding br d ||
                            gt_lockstep_no_invent br d);
  if negb on || busy || (0 <=? remote_lead) then put (on_sc_ts (set_ts_ahead_streak 0)) else
  do! put (on_sc_ts (fun t => set_ts_ahead_streak (u32 (ts_ahead_streak t + 1)) t));
  do t <- sc sc_ts;
  if (ts_ahead_streak t <? 8) || nz (Z.land (ts_ahead_streak t) 3) then ret tt else
  let add := clamp 4 12 (if nz (ts_tick_ema_ms t) then ts_tick_ema_ms t / 2 else 8) in
  do! put (on_sc_ts (ts_owe add));
  put (on_sc_tc (tc_owed add)).

(** The lead window is cleared with each line of the phase log. *)
Definition np_phase_ctrl_maybe_log (now : Z) (c : SchedPacingStats) : SchedPacingStats :=
  if nz (tc_phase_log_ms c) && (u32 (now - tc_phase_log_ms c) <? 1000) then c else
  set_tc_phase_log_ms (stamp now) (set_tc_lead_have false (set_tc_lead_n 0 (set_tc_lead_sum 0 c))).

(** A tick not seen before pays off at most 6 ms of the debt. *)
Definition ts_new_wire (wire now : Z) (t : SchedPacing) : SchedPacing :=
  if wire =? ts_last_wire t then t else
  let t := if nz (ts_last_wire t) && (wire =? u32 (ts_last_wire t + 1))
           then set_ts_tick_ema_ms (ema 7 (ts_tick_ema_ms t) (u32 (now - ts_last_wire_ms t))) t else t in
  let t := set_ts_last_wire_ms now (set_ts_last_wire wire t) in
  if negb (0 <? ts_debt_ms t) then t else
  let slice := Z.min 6 (ts_debt_ms t) in
  set_ts_stall_logged true (set_ts_stall_until (u32 (now + slice)) (set_ts_debt_ms (ts_debt_ms t - slice) t)).

Definition np_timesync_throttle (wire : Z) : P bool :=
  do on <- sc (fun s => np_timesync_enabled (sc_env s));
  if negb on then ret false else
  do media <- side (gt_media_active br);
  if (media : bool) then
    do! put (on_sc_ts (fun t => set_ts_stall_logged false (set_ts_stall_until 0 (set_ts_debt_ms 0 t))));
    ret false
  else
    do now <- sched_mono_ms;
    do! put (on_sc_ts (ts_new_wire wire now));
    do until <- sc (fun s => ts_stall_until (sc_ts s));
    if before now until then ret true else
    do! put (on_sc_ts (set_ts_stall_until 0));
    ret false.

(** ** Counters and the scorecard *)

Definition np_admit_note_invent_gap (wire highest_remote : Z) (c : SchedAdmit) : SchedAdmit :=
  let gap := if wire <=? highest_remote then 0 else wire - highest_remote in
  if gap <=? 1 then set_am_gap1 (u32 (am_gap1 c + 1)) c
  else if gap =? 2 then set_am_gap2 (u32 (am_gap2 c + 1)) c
  else set_am_gap3p (u32 (am_gap3p c + 1)) c.
Definition np_admit_maybe_log_stats (now : Z) (c : SchedAdmit) : SchedAdmit :=
  if nz (am_stats_log_ms c) && (u32 (now - am_stats_log_ms c) <? 5000) then c else set_am_stats_log_ms (stamp now) c.

Definition np_scorecard_window_reset (now : Z) : P unit :=
  do ep <- side (gt_episode_count br);
  do rt <- side (gt_replay_ticks_total br);
  do c <- sc sc_adm;
  put (on_sc_score (fun k => mkSchedScore (stamp now) ep rt (am_gap1 c) (am_tip_stale c) 0 0 0 0 0 0 0 0 0
                               (sk_counted_wire k) (sk_last_sim k))).

(** The first time a wire tick is found missing: count it and start timing. *)
Definition np_scorecard_note_miss (wire : Z) : P unit :=
  do counted <- sc (fun s => sk_counted_wire (sc_score s));
  when (negb (counted =? wire))
    (do! put (on_sc_score (fun k => set_sk_miss_at_need (u32 (sk_miss_at_need k + 1)) (set_sk_counted_wire wire k)));
     do! put (on_sc_ad (fun a => set_ad_miss_pending true (set_ad_miss (u32 (ad_miss a + 1)) a)));
     do now <- sched_mono_ms;
     put (on_sc_ad (set_ad_miss_t0_ms now))).

Definition np_auto_delay_undo_invent_miss (a : SchedArrival) : SchedArrival :=
  if negb (ad_miss_pending a) then a else
  set_ad_miss_pending false (if 0 <? ad_miss a then set_ad_miss (ad_miss a - 1) a else a).

Definition ad_sample_lead (lead : Z) (a : SchedArrival) : SchedArrival :=
  let first := ad_ticks a =? 0 in
  set_ad_lead_sum (ad_lead_sum a + lead) (set_ad_ticks (u32 (ad_ticks a + 1))
    (set_ad_lead_min (if first || (lead <? ad_lead_min a) then lead else ad_lead_min a) a)).
Definition sk_sample_lead (lead : Z) (k : SchedScore) : SchedScore :=
  let first := sk_lead_n k =? 0 in
  set_sk_lead_n (u32 (sk_lead_n k + 1)) (set_sk_lead_sum (sk_lead_sum k + lead)
    (set_sk_lead_max (if first then lead else Z.max (sk_lead_max k) lead)
      (set_sk_lead_min (if first then lead else Z.min (sk_lead_min k) lead) k))).
Definition sk_sample_slack (age : Z) (k : SchedScore) : SchedScore :=
  let first := sk_slack_n k =? 0 in
  set_sk_slack_n (u32 (sk_slack_n k + 1)) (set_sk_slack_sum (u64 (sk_slack_sum k + age))
    (set_sk_slack_max (if first then age else Z.max (sk_slack_max k) age)
      (set_sk_slack_min (if first then age else Z.min (sk_slack_min k) age) k))).

(** One tick's samples: the lead, and how long each seat's row had waited. *)
Definition sample_tick (sim wire : Z) (st : RNetSessionStats) : P unit :=
  let lead := ss_remote_lead st in
  do! put (on_sc_score (set_sk_last_sim sim));
  do live <- side (fun d => negb (gt_episode_active br d) && negb (gt_tip_holding br d));
  do! when (live && (-32 <? lead) && (lead <? 32)) (put (on_sc_ad (ad_sample_lead lead)));
  do! put (on_sc_score (sk_sample_lead lead));
  each (seqZ 0 RNET_MAX_SLOTS) (fun slot =>
    do age <- on_session UINT32_MAX (rnet_session_remote_arrival_age_ms slot wire);
    when (negb (age =? UINT32_MAX)) (put (on_sc_score (sk_sample_slack age)))).

Definition np_scorecard_sample (now sim wire : Z) (st : RNetSessionStats) : P unit :=
  do t0 <- sc (fun s => sk_window_t0_ms (sc_score s));
  do! when (t0 =? 0) (np_scorecard_window_reset now);
  do last <- sc (fun s => sk_last_sim (sc_score s));
  do! when (negb (last =? sim)) (sample_tick sim wire st);
  do t0 <- sc (fun s => sk_window_t0_ms (sc_score s));
  when (30000 <=? u32 (now - t0)) (np_scorecard_window_reset now).

(** ** The prediction cap and the delay controller *)

(** Repeated freezes within a window raise the delay by one; seat 0 decides. *)
Definition np_adapt_delay_on_pcap_enter (now : Z) : P unit :=
  do on <- sc (fun s => adapt_delay_enabled (sc_env s));
  do ok <- side (fun d => sched_has_session d && (sched_local_slot d =? 0) && negb (gt_media_active br d));
  if negb on || negb ok then ret tt else
  do! put (on_sc_pcap (fun p =>
        let p := if (pc_window_t0_ms p =? 0) || (RB_ADAPT_WINDOW_MS <? u32 (now - pc_window_t0_ms p))
                 then set_pc_enters_window 0 (set_pc_window_t0_ms (stamp now) p) else p in
        set_pc_enters_window (u32 (pc_enters_window p + 1)) p));
  do p <- sc sc_pcap;
  do d <- side sched_delay;
  if (pc_enters_window p <? RB_ADAPT_FREEZE_ENTERS_THRESH) ||
     (nz (pc_last_bump_ms p) && (u32 (now - pc_last_bump_ms p) <? RB_ADAPT_COOLDOWN_MS)) ||
     (RB_ADAPT_DELAY_MAX <=? d)
  then ret tt else
  do changed <- on_session false (rnet_session_request_delay_change (u8 (Z.min RB_ADAPT_DELAY_MAX (d + 1))));
  when changed (put (on_sc_pcap (fun p =>
    set_pc_window_t0_ms (stamp now) (set_pc_enters_window 0 (set_pc_last_bump_ms (stamp now) p))))).

Definition np_pcap_freeze_enter : P unit :=
  do now <- sched_mono_ms;
  do! put (on_sc_adm (fun c => set_am_pcap_stalls (u32 (am_pcap_stalls c + 1)) c));
  do! put (on_sc_pcap (set_pc_last_enter_ms (stamp now)));
  do frozen <- sc (fun s => pc_frozen (sc_pcap s));
  do! when (negb frozen)
        (do! put (on_sc_pcap (set_pc_frozen true));
         do! put (on_sc_adm (fun c => set_am_pcap_enters (u32 (am_pcap_enters c + 1)) c));
         np_adapt_delay_on_pcap_enter now);
  put (on_sc_adm (np_admit_maybe_log_stats now)).

Definition np_pcap_freeze_exit (s : Sched) : Sched := on_sc_pcap (set_pc_frozen false) s.

(** The window is taken and cleared; [ad_lead_min] is overwritten by the next
    first sample. *)
Definition ad_harvested (a : SchedArrival) : SchedArrival :=
  set_ad_late_max_ms 0 (set_ad_late_sum_ms 0 (set_ad_late_n 0 (set_ad_miss 0 (set_ad_lead_sum 0 (set_ad_ticks 0 a))))).

(** transit = D - 1 - average lead, in 1/16 ticks, averaged over the windows. *)
Definition ad_note_transit (w : SchedArrival) (d : Z) (a : SchedArrival) : SchedArrival :=
  let lead_avg_x16 := s32 (Z.quot (ad_lead_sum w * 16) (ad_ticks w)) in
  let t := clamp 0 192 ((d - 1) * 16 - lead_avg_x16) in
  set_ad_transit_have true
    (set_ad_transit_x16 (if ad_transit_have a then u32 (ad_transit_x16 a * 7 + t) / 8 else t) a).

Definition miss_per_mille (w : SchedArrival) : Z := u32 (ad_miss w * 1000 / ad_ticks w).

(** The delay the window [w] asks for. *)
Definition auto_delay_target (w : SchedArrival) (tick_ms d force_turn : Z) : Z :=
  let target :=
    if (20 <? miss_per_mille w) && (0 <? ad_late_n w) then
      let bump := clamp 1 2 (u32 (ad_late_sum_ms w / ad_late_n w + tick_ms - 1) / tick_ms) in
      d + Z.min 4 (Z.max bump (1 - ad_lead_min w))
    else if (miss_per_mille w <? 1) && (RB_AUTO_DELAY_LEAD_MARGIN <? ad_lead_min w)
    then d - (ad_lead_min w - RB_AUTO_DELAY_LEAD_MARGIN)
    else d in
  let floor_d := if nz force_turn then RB_FORCE_TURN_DELAY_FLOOR else RB_AUTO_DELAY_LOWER_FLOOR in
  Z.min RB_ADAPT_DELAY_MAX (Z.max floor_d target).

(** Consecutive windows must agree: the target to act on, if they do. *)
Definition auto_delay_agree (target d : Z) (a : SchedArrival) : option Z * SchedArrival :=
  let need := if target <? d then (if ad_last_change_ms a =? 0 then 1 else RB_AUTO_DELAY_AGREE)
              else if ad_last_change_ms a =? 0 then 1 else 2 in
  let last := ad_last_target a in
  let more := u32 (ad_agree_streak a + 1) in
  if (target <? d) && (0 <=? last) && (last <? d) then
    let target := Z.max target last in
    (if more <? need then None else Some target, set_ad_agree_streak more (set_ad_last_target target a))
  else if negb (target =? last) then
    (if 1 <? need then None else Some target, set_ad_agree_streak 1 (set_ad_last_target target a))
  else (if more <? need then None else Some target, set_ad_agree_streak more a).

(** A lower delay waits 30 s after a change and after a freeze. *)
Definition auto_delay_cooling (s : Sched) (now : Z) : bool :=
  let since t := nz t && (u32 (now - t) <? RB_AUTO_DELAY_COOLDOWN_MS) in
  since (ad_last_change_ms (sc_ad s)) || since (pc_last_enter_ms (sc_pcap s)).

Definition np_auto_delay_tick (now : Z) : P unit :=
  do s <- sc id;
  let w := sc_ad s in
  let tick_ms := if nz (ts_tick_ema_ms (sc_ts s)) then ts_tick_ema_ms (sc_ts s) else 17 in
  do bound <- side sched_has_session;
  if negb (auto_delay_enabled (sc_env s)) || negb bound || negb (rnet_sched_real_delay_enabled (sc_env s)) ||
     (nz (ad_last_eval_ms w) && (u32 (now - ad_last_eval_ms w) <? RB_AUTO_DELAY_EVAL_MS))
  then ret tt else
  do! put (on_sc_ad (fun a => ad_harvested (set_ad_last_eval_ms (stamp now) a)));
  do media <- side (gt_media_active br);
  if (media : bool) then ret tt else
  do d <- side sched_delay;
  if ad_ticks w <? 120 then put (on_sc_ad (set_ad_agree_streak 0)) else
  do! put (on_sc_ad (ad_note_transit w d));
  do host <- side (fun x => sched_local_slot x =? 0);
  if negb host then ret tt else
  do turn <- side (br_force_turn br);
  let target := auto_delay_target w tick_ms d turn in
  if target =? d then put (on_sc_ad (fun a => set_ad_last_target target (set_ad_agree_streak 0 a))) else
  do a <- sc sc_ad;
  let '(agreed, a) := auto_delay_agree target d a in
  do! put (on_sc_ad (fun _ => a));
  match agreed with
  | None => ret tt
  | Some target =>
      do cooling <- sc (fun s => auto_delay_cooling s now);
      if (target <? d) && cooling then ret tt else
      do changed <- on_session false (rnet_session_request_delay_change (u8 target));
      when changed (put (on_sc_ad (fun a => set_ad_agree_streak 0 (set_ad_last_change_ms (stamp now) a))))
  end.

(** The tip is ahead of the missing row: the retransmissions may no longer
    reach it. *)
Definition np_diag_wire_hole (wire : Z) (st : RNetSessionStats) : P unit :=
  do bound <- side sched_has_session;
  if negb bound || (ss_highest_remote_wire st <=? wire) then ret tt else
  do _ <- sched_mono_ms;
  rnet_sched_set_admit_stall "wire_hole".

(** ** The calls of the driver *)

Definition cushion_max_ok (d : D) (full : Z) : Z :=
  let pred := br_input_prediction br d in
  Z.max (sched_delay d + (if 0 <? pred then pred else 4)) (full + 2).
(** The lead the measured transit allows: D - 1 - transit, at least 1. *)
Definition achievable_lead (a : SchedArrival) (d : Z) : Z :=
  if ad_transit_have a then
    let x := d - 1 - u32 (ad_transit_x16 a + 8) / 16 in
    let x := if x <? 1 then 1 else x in
    if d - 1 <? x then d - 1 else x
  else d - 1.

(** The cushion counts as rebuilt at a full lead, or after 400 ms at the lead
    the link allows. *)
Definition cushion_check (now : Z) (st : RNetSessionStats) : P unit :=
  do d <- side sched_delay;
  let full := if 0 <? d then d else 0 in
  do max_ok <- side (fun x => cushion_max_ok x full);
  do s <- sc id;
  let lead := ss_remote_lead st in
  let rebuilt := put (on_sc_cushion (fun c => set_cu_catchup_until_ms 0 (set_cu_rebuild false c))) in
  if (full <=? lead) && (lead <=? max_ok) then rebuilt
  else if (achievable_lead (sc_ad s) d <=? lead) && (lead <=? max_ok) then
    let since := cu_since_ms (sc_cushion s) in
    when (400 <=? (if nz since then u32 (now - since) else 0)) rebuilt
  else if max_ok <? lead then
    do now_a <- sched_mono_ms;
    do _ <- absurd_invent_catchup_active now_a;
    ret tt
  else ret tt.

(** A tick the hold gate let pass: pace it, sample, and move the delay. *)
Definition pre_admit_open (sim wire : Z) (st : RNetSessionStats) : P bool :=
  do active <- side (gt_episode_active br);
  do paced <- (if (active : bool) then ret false else np_timesync_throttle wire);
  if (paced : bool) then
    do! rnet_sched_set_admit_stall "timesync_pace";
    do _ <- sched_mono_ms;
    ret true
  else
    do now <- sched_mono_ms;
    do! put (on_sc_tc (np_timesync_sample_lead (ss_remote_lead st)));
    do! np_timesync_note_ahead_skew (ss_remote_lead st);
    do! put (on_sc_tc (np_phase_ctrl_maybe_log now));
    do! np_auto_delay_tick now;
    do! np_scorecard_sample now sim wire st;
    do rebuilding <- sc (fun s => cu_rebuild (sc_cushion s));
    do active <- side (gt_episode_active br);
    do! when (rebuilding && negb active) (cushion_check now st);
    ret false.

(** "Hold this tick back." *)
Definition rnet_sched_pre_admit (sim wire : Z) (st : RNetSessionStats) : P bool :=
  do! np_tip_track_advance (ss_highest_remote_wire st);
  do hold <- call (gt_pre_admit_hold br sim wire);
  match hold with
  | Some tag =>
      do! rnet_sched_set_admit_stall (match tag with EmptyString => "pre_admit_hold"%string | _ => tag end);
      do _ <- sched_mono_ms;
      ret true
  | None => pre_admit_open sim wire st
  end.

(** A wait for [wire]: the tag says "wire_hole" when the tip is ahead of it. *)
Definition stall_for (wire : Z) (st : RNetSessionStats) (why : string) : P unit :=
  if wire <? ss_highest_remote_wire st then np_diag_wire_hole wire st else rnet_sched_set_admit_stall why.

(** The reasons not to invent at all: lockstep, a peer that has not left the
    delay prefix, the prediction cap, a cushion being rebuilt. [None]: the row
    may be invented, after a wait. *)
Definition miss_gates (wire : Z) (st : RNetSessionStats) (pred : Z) : P (option string) :=
  do lockstep <- side (gt_lockstep_no_invent br);
  if (lockstep : bool) then
    do tag <- side sched_lockstep_stall_tag;
    let why := match tag with EmptyString => "lockstep_no_invent"%string | _ => tag end in
    do! stall_for wire st why;
    ret (Some why)
  else
  do d <- side sched_delay;
  if ss_highest_remote_wire st <=? (if d <? 2 then 2 else d) then
    do! put (on_sc_cushion (set_cu_boot_tip_logged true));
    do! rnet_sched_set_admit_stall "boot_tip_wait";
    ret (Some "boot_tip_wait"%string)
  else
  if u32 (ss_highest_remote_wire st + u32 pred) <? wire then
    do! np_pcap_freeze_enter;
    do! rnet_sched_set_admit_stall "pcap_freeze";
    ret (Some "pcap_freeze"%string)
  else
  do rebuilding <- sc (fun s => cu_rebuild (sc_cushion s));
  do active <- side (gt_episode_active br);
  if negb (rebuilding && negb active) then ret None else
  do max_ok <- side (fun x => cushion_max_ok x d);
  do now <- sched_mono_ms;
  do catchup <- absurd_invent_catchup_active now;
  if catchup && (max_ok <? ss_remote_lead st) then
    do! rnet_sched_set_admit_stall "absurd_catchup";
    ret None
  else
    do! stall_for wire st "cushion_rebuild";
    ret (Some "cushion_rebuild"%string).

(** The patience of a gap of one tick: the cap in ms (0: none), and whether
    the tip looks fresh. *)
Definition gap1_patience (st : RNetSessionStats) : P (Z * bool) :=
  do override <- np_gap1_grace_cap_ms;
  match override with
  | Some cap => ret (cap, false)
  | None =>
      do tip_age <- np_tip_age_ms;
      do ema <- sc (fun s => ti_arrival_ema_ms (sc_tip s));
      let period := if nz ema then ema else 17 in
      let case_a := (1 <=? ss_remote_lead st) && negb (tip_age =? UINT32_MAX) &&
                    (u32 (tip_age * 2) <? u32 (period * RB_TIP_FRESH_MULT_X2)) in
      do! put (on_sc_adm (fun c => if case_a then set_am_case_a (u32 (am_case_a c + 1)) c
                                   else set_am_case_b (u32 (am_case_b c + 1)) c));
      do media <- side (gt_media_active br);
      do rtt_raw <- side (gt_rtt_ms br);
      let lan := rtt_raw <=? RB_GAP1_LAN_RTT_MAX_MS in
      let tip_due := negb (tip_age =? UINT32_MAX) && (period <=? u32 (tip_age + RB_GAP1_LAN_GRACE_CAP_MS)) in
      let cap := if lan || tip_due then RB_GAP1_LAN_GRACE_CAP_MS else RB_GAP1_RELAY_GRACE_CAP_MS in
      ret (if (media : bool) then 0
           else Z.max RB_GAP1_LAN_GRACE_BASE_MS (Z.min cap (u32 (rtt_raw / 2 + RB_GAP1_LAN_GRACE_BASE_MS))), case_a)
  end.

Definition am_count_grace (now : Z) (c : SchedAdmit) : SchedAdmit :=
  np_admit_maybe_log_stats now (set_am_gap1_grace (u32 (am_gap1_grace c + 1)) c).

(** A gap of one tick: a short grace, then invent. [inl]: keep waiting. *)
Definition wait_gap1 (slot wire : Z) (st : RNetSessionStats) : P (string + string) :=
  do patience <- gap1_patience st;
  let '(cap, case_a) := patience in
  do waiting <- (if cap =? 0 then ret false else np_invent_grace_stall_ex slot wire cap false);
  if (waiting : bool) then
    do counted <- sc (fun s => gr_gap1_grace_wire (sc_grace s));
    do! when (negb (counted =? wire))
          (do! put (on_sc_grace (set_gr_gap1_grace_wire wire));
           do now <- sched_mono_ms;
           put (on_sc_adm (am_count_grace now)));
    do! rnet_sched_set_admit_stall "gap1_grace";
    ret (inl "gap1_grace"%string)
  else
    do! when (negb (cap =? 0)) np_gap1_note_expire_invent;
    do! put (on_sc_adm (fun c => set_am_gap1_legacy (u32 (am_gap1_legacy c + 1)) c));
    ret (inr (if (case_a : bool) then "GAP1_PHASE" else "GAP1_LEGACY")%string).

(** Without gap-1 invention, while the tip is ahead of the simulation. *)
Definition wait_tip_stale (wire gap now t0 : Z) (st : RNetSessionStats) : P (string + string) :=
  do rtt <- side np_invent_rtt_ms;
  if u32 (now - t0) <? clamp 150 400 (u32 (rtt * 4)) then
    do g <- sc sc_grace;
    do! when (negb (gr_cw_wire g =? wire))
          (do! put (on_sc_grace (set_gr_cw_wire wire));
           put (on_sc_adm (fun c => set_am_cushion_wait (u32 (am_cushion_wait c + 1)) c)));
    do! when ((gap =? 1) && negb (gr_gap1_wait_wire g =? wire))
          (do! put (on_sc_grace (set_gr_gap1_wait_wire wire));
           put (on_sc_adm (am_count_grace now)));
    do! stall_for wire st "tip_stale_wait";
    ret (inl "tip_stale_wait"%string)
  else
    do! put (on_sc_adm (fun c => set_am_tip_stale (u32 (am_tip_stale c + 1)) c));
    ret (inr "TIP_STALE"%string).

(** Everything else: deep gaps wait until the tip looks stale, then a grace. *)
Definition wait_runway (slot wire gap now t0 : Z) (st : RNetSessionStats) : P (string + string) :=
  do rtt <- side np_invent_rtt_ms;
  if (2 <=? gap) && (u32 (now - t0) <? Z.max RB_INVENT_DEPTH_STALE_FLOOR_MS rtt) then
    do! rnet_sched_set_admit_stall "depth_stale_wait";
    ret (inl "depth_stale_wait"%string)
  else
    do waiting <- np_invent_grace_stall_ex slot wire RB_INVENT_RUNWAY_GRACE_CAP_MS true;
    if (waiting : bool) then
      do! stall_for wire st "runway_grace";
      ret (inl "runway_grace"%string)
    else
      do! put (on_sc_adm (fun c => set_am_runway_empty (u32 (am_runway_empty c + 1)) c));
      ret (inr "RUNWAY_EMPTY"%string).

Definition wait_or_invent (slot wire : Z) (st : RNetSessionStats) : P (string + string) :=
  do legacy <- sc (fun s => gap1_legacy (sc_env s));
  let gap := if ss_highest_remote_wire st <? wire then wire - ss_highest_remote_wire st else 0 in
  do now <- sched_mono_ms;
  do! put (on_sc_grace (fun g => if gr_miss_wire g =? wire then g
                                 else set_gr_miss_t0 now (set_gr_miss_wire wire g)));
  do t0 <- sc (fun s => gr_miss_t0 (sc_grace s));
  if negb legacy && (0 <? ss_remote_lead st) then wait_tip_stale wire gap now t0 st
  else if legacy && (gap =? 1) then wait_gap1 slot wire st
  else wait_runway slot wire gap now t0 st.

(** No row of [slot] for [wire]: [(true, why)] to stall, [(false, why)] to
    invent it. *)
Definition rnet_sched_on_remote_miss (slot sim wire : Z) (st : RNetSessionStats) (pred : Z) : P (bool * option string) :=
  do! np_scorecard_note_miss wire;
  do stalled <- miss_gates wire st pred;
  match stalled with
  | Some why => ret (true, Some why)
  | None =>
      do r <- wait_or_invent slot wire st;
      match r with
      | inl why => ret (true, Some why)
      | inr reason =>
          do! put (on_sc_adm (np_admit_note_invent_gap wire (ss_highest_remote_wire st)));
          do _ <- sched_mono_ms;
          do! put (on_sc_ad np_auto_delay_undo_invent_miss);
          do! put rnet_sched_clear_admit_stall;
          ret (false, Some reason)
      end
  end.

Definition rnet_sched_post_admit (any_invent : bool) : P unit :=
  do! put rnet_sched_clear_admit_stall;
  do! put np_pcap_freeze_exit;
  do now <- sched_mono_ms;
  do! when any_invent (put (on_sc_adm (np_admit_maybe_log_stats now)));
  do _ <- on_session tt (fun s => (tt, snd (rnet_session_get_stats s)));
  ret tt.
End Ops.

(** The scheduler as the driver sees it. *)
#[export] Instance rnet_sched_ops : SchedOps Sched := {|
  sched_reset_session := rnet_sched_reset_session;
  sched_real_delay_enabled s := rnet_sched_real_delay_enabled (sc_env s);
  sched_admit_stall_tag s := Some (sc_stall_tag s);
  sched_clear_admit_stall := rnet_sched_clear_admit_stall;
  sched_sync_delay_from_session _ br := rnet_sched_sync_delay_from_session br;
  sched_pre_admit _ br := rnet_sched_pre_admit br;
  sched_on_remote_miss _ br := rnet_sched_on_remote_miss br;
  sched_note_remote_hit _ br := rnet_sched_note_remote_hit br;
  sched_post_admit _ br := rnet_sched_post_admit br;
  sched_note_mispredict _ br := rnet_sched_note_mispredict br;
  sched_note_episode_boundary _ br := rnet_sched_note_episode_boundary br
|}.
