(* ===== verification/SchedProofs.v ===== *)
(** * The frame scheduler: when a row is invented, and when a tick waits *)

From stdpp Require Import base list numbers list_numbers strings.
From S2P Require Import Prelude StateM Protocol Config Rings CtrlQueue Rollback Session SessionState SessionMain SessionStats DriverData SchedData Sched.

(** ** Running the small steps *)

Section Steps.
Context {D : Type} (br : RNetSchedBridge D).

Lemma wp_sc {A B} (f : Sched -> A) (k : A -> M (Sched * D) B) Q x :
  wp (k (f (fst x))) Q x -> wp (bind (sc f) k) Q x.
Proof. done. Qed.
Lemma wp_side {A B} (f : D -> A) (k : A -> M (Sched * D) B) Q x :
  wp (k (f (snd x))) Q x -> wp (bind (side f) k) Q x.
Proof. done. Qed.
Lemma wp_put {B} f (k : unit -> M (Sched * D) B) Q x :
  wp (k tt) Q (f (fst x), snd x) -> wp (bind (put f) k) Q x.
Proof. done. Qed.
Lemma wp_now {B} (k : Z -> M (Sched * D) B) Q x :
  wp (k (fst (gt_now_ms br (snd x)))) Q (fst x, snd (gt_now_ms br (snd x))) -> wp (bind (sched_mono_ms br) k) Q x.
Proof. intros H. apply wp_bind. unfold wp at 1, sched_mono_ms, call. by destruct (gt_now_ms br (snd x)). Qed.
Lemma wp_skip {A B} (m : M (Sched * D) A) (k : A -> M (Sched * D) B) Q x :
  (forall a x', wp (k a) Q x') -> wp (bind m k) Q x.
Proof. intros H. apply wp_bind, wp_any. done. Qed.
End Steps.

(** ** The clock

    What the scheduler reads of the driver's side besides the clock; reading
    the clock changes none of it. *)
Definition gates_of {D} (br : RNetSchedBridge D) (d : D) :=
  (gt_lockstep_no_invent br d, br_input_delay br d, br_input_prediction br d,
   gt_episode_active br d, gt_rtt_ms br d, gt_media_active br d).
Definition clock_only {D} (br : RNetSchedBridge D) : Prop :=
  forall d, gates_of br (snd (gt_now_ms br d)) = gates_of br d.

(** The next [n] readings of the clock show times between [a] and [b]. The
    clock has 32 bits and may wrap; [a] and [b] do not. *)
Fixpoint clock_within {D} (br : RNetSchedBridge D) (n : nat) (a b : Z) (d : D) : Prop :=
  match n with
  | O => True
  | S n => (exists T, a <= T <= b /\ fst (gt_now_ms br d) = u32 T) /\ clock_within br n a b (snd (gt_now_ms br d))
  end.

(** ** When a missing row may be invented *)

(** The conditions under which a prediction is allowed at all, when the clock
    shows [now]. *)
Definition may_invent {D} (br : RNetSchedBridge D) (now : Z) (s : Sched) (d : D) (wire : Z) (st : RNetSessionStats) (pred : Z) : Prop :=
  gt_lockstep_no_invent br d = false /\
  Z.max 2 (sched_delay br d) < ss_highest_remote_wire st /\
  wire <= u32 (ss_highest_remote_wire st + u32 pred) /\
  (cu_rebuild (sc_cushion s) = false \/ gt_episode_active br d = true \/
   (before now (cu_catchup_until_ms (sc_cushion s)) = true /\
    cushion_max_ok br d (sched_delay br d) < ss_remote_lead st)).

Section Miss.
Context {D : Type} (br : RNetSchedBridge D) (Hclock : clock_only br).

Definition same_gates (d d' : D) : Prop := gates_of br d' = gates_of br d.
Lemma same_now d : same_gates d (snd (gt_now_ms br d)).
Proof using Hclock. apply Hclock. Qed.
Lemma within_less n a b d : clock_within br (S n) a b d -> clock_within br n a b d.
Proof using. revert d. induction n as [|n IH]; intros d; [done|]. intros [H1 H2]. split; [done|]. by apply IH. Qed.

(** Counting the miss reads the clock at most once. *)
Lemma note_miss_gates wire s d :
  wp (np_scorecard_note_miss br wire) (fun _ x =>
    same_gates d (snd x) /\ (forall n a b, clock_within br (S n) a b d -> clock_within br n a b (snd x)) /\
    sc_cushion (fst x) = sc_cushion s /\ sc_grace (fst x) = sc_grace s) (s, d).
Proof using Hclock.
  unfold np_scorecard_note_miss. apply wp_sc. unfold when. destruct (negb _).
  - apply wp_put, wp_put, wp_now. cbn [fst snd]. unfold put, wp, modify. cbn [fst snd].
    split_and!; [apply same_now| |done|done]. by intros n a b [_ H].
  - split_and!; [done| |done|done]. intros n a b. apply within_less.
Qed.

Lemma gates_iff wire st pred s d :
  wp (miss_gates br wire st pred) (fun o x =>
    (o = None <-> may_invent br (fst (gt_now_ms br d)) s d wire st pred) /\
    (o = None -> same_gates d (snd x) /\ (forall n a b, clock_within br (S n) a b d -> clock_within br n a b (snd x)) /\
       sc_grace (fst x) = sc_grace s)) (s, d).
Proof using Hclock.
  unfold miss_gates, may_invent. apply wp_side. cbn [snd].
  destruct (gt_lockstep_no_invent br d) eqn:El.
  { apply wp_side, wp_skip. intros _ x. apply wp_ret. split; [split; [done|intros [? _]; done]|done]. }
  apply wp_side. cbn [snd]. destruct (_ <=? (if _ <? 2 then _ else _)) eqn:Eb.
  { apply wp_put, wp_skip. intros _ x. apply wp_ret. split; [split; [done|]|done].
    intros (_ & Hb & _). destruct (sched_delay br d <? 2) eqn:?; bool_prop; lia. }
  destruct (_ <? wire) eqn:Ep.
  { apply wp_skip. intros _ x. apply wp_skip. intros _ y. apply wp_ret. split; [split; [done|]|done].
    intros (_ & _ & Hp & _). bool_prop. lia. }
  assert (Z.max 2 (sched_delay br d) < ss_highest_remote_wire st) as Hb.
  { destruct (sched_delay br d <? 2) eqn:?; bool_prop; lia. }
  assert (wire <= u32 (ss_highest_remote_wire st + u32 pred)) as Hp by (bool_prop; lia).
  assert (same_gates d d /\ (forall n a b, clock_within br (S n) a b d -> clock_within br n a b d)) as Hd
    by (split; [done|intros n a b; apply within_less]).
  apply wp_sc, wp_side. cbn [fst snd].
  destruct (cu_rebuild (sc_cushion s)) eqn:Er, (gt_episode_active br d) eqn:Ea; cbn [negb andb];
    try (apply wp_ret; split; [split; [auto 10|done]|intros _; destruct Hd; split_and!; done]).
  apply wp_side, wp_now. cbn [fst snd]. unfold absurd_invent_catchup_active. apply wp_bind.
  apply wp_sc. cbn [fst snd].
  destruct (before (fst (gt_now_ms br d)) (cu_catchup_until_ms (sc_cushion s))) eqn:Ec.
  - apply wp_ret. cbn [andb]. destruct (_ <? ss_remote_lead st) eqn:Em.
    + apply wp_put, wp_ret. cbn [fst snd]. split; [split; [|done]|].
      * intros _. bool_prop. auto 10.
      * intros _. split_and!; [apply same_now|by intros n a b [_ H]|done].
    + apply wp_skip. intros _ x. apply wp_ret. split; [split; [done|]|done].
      intros (_ & _ & _ & [?|[?|[_ ?]]]); [done|done|]. bool_prop. lia.
  - apply wp_put, wp_ret. cbn [andb]. apply wp_skip. intros _ x. apply wp_ret. split; [split; [done|]|done].
    intros (_ & _ & _ & [?|[?|[? _]]]); congruence.
Qed.

Lemma may_invent_gates now s s' d d' wire st pred :
  same_gates d d' -> sc_cushion s' = sc_cushion s ->
  may_invent br now s' d' wire st pred <-> may_invent br now s d wire st pred.
Proof using.
  unfold same_gates, gates_of, may_invent, cushion_max_ok, sched_delay. intros [= E2 E3 E4 E5 E6 E7] ->.
  by rewrite E2, E3, E4, E5.
Qed.

(** ** How long a row is waited for *)

(** The grace of the seat is for [wire], and less than 80 ms old at some time
    between [a] and [b]; or at least 80 ms old at all of them. *)
Definition slot_grace (a b slot wire : Z) (g : SchedGrace) : Prop :=
  rd 0 (gr_wire g) slot = wire /\ exists T, a <= T <= b /\ u32 (T - rd 0 (gr_t0 g) slot) < 80.
Definition slot_spent (a b slot wire : Z) (g : SchedGrace) : Prop :=
  rd 0 (gr_wire g) slot = wire /\ forall T, a <= T <= b -> 80 <= u32 (T - rd 0 (gr_t0 g) slot).
Definition misses_same (g g' : SchedGrace) : Prop :=
  gr_miss_wire g' = gr_miss_wire g /\ gr_miss_t0 g' = gr_miss_t0 g.

Lemma u32_sub_l x y : u32 (u32 x - y) = u32 (x - y).
Proof using. unfold u32. by rewrite Zminus_mod_idemp_l. Qed.
Lemma budget_le s (d : D) cap : grace_budget br s d cap <= 80.
Proof using.
  unfold grace_budget. cbv zeta. match goal with |- context [Z.min ?c ?b] => set (budget := Z.min c b) end.
  assert (budget <= 80) by (unfold budget, clamp; lia). destruct (negb _ && _) eqn:E; [|done].
  apply andb_true_iff in E as [_ E]. lia.
Qed.

Definition lens (g : SchedGrace) : Prop :=
  length (gr_wire g) = 8%nat /\ length (gr_t0 g) = 8%nat /\ length (gr_expired g) = 8%nat.
Lemma open_lens slot wire now g : lens g -> lens (grace_open slot wire now g).
Proof using.
  intros (L1 & L2 & L3). unfold lens, grace_open, wr. cbv zeta.
  repeat case_match; cbn; by rewrite !length_insert.
Qed.
Lemma expire_lens slot now c g : lens g -> lens (grace_expire slot now c g).
Proof using.
  intros (L1 & L2 & L3). unfold lens, grace_expire, wr. cbv zeta.
  repeat case_match; cbn; by rewrite ?length_insert.
Qed.

(** A grace that keeps waiting has been open for less than 80 ms. *)
Lemma grace_wait slot wire cap c s d a b :
  0 <= slot < 8 -> lens (sc_grace s) -> clock_within br 1 a b d ->
  wp (np_invent_grace_stall_ex br slot wire cap c) (fun waiting x =>
    misses_same (sc_grace s) (sc_grace (fst x)) /\ lens (sc_grace (fst x)) /\
    (waiting = true -> slot_grace a b slot wire (sc_grace (fst x)) /\ ~ slot_spent a b slot wire (sc_grace s))) (s, d).
Proof using.
  intros Hs HL [(T & HT & Enow) _]. pose proof HL as (L1 & L2 & _). unfold np_invent_grace_stall_ex. apply wp_sc. destruct (_ || _); [apply wp_ret; done|].
  apply wp_now, wp_sc. cbn [fst snd]. rewrite Enow. set (g := sc_grace s).
  destruct (before _ _); [apply wp_ret; done|]. apply wp_put. cbn [fst snd].
  destruct (rd 0 (gr_wire g) slot =? wire) eqn:Ew; cbn [negb].
  - apply wp_sc, wp_side. cbn [fst snd]. set (s1 := on_sc_grace (set_gr_off_until 0) s).
    pose proof (budget_le s1 (snd (gt_now_ms br d)) cap) as Hb. destruct (_ <? _) eqn:Eb.
    + apply wp_ret. split; [done|]. split; [exact HL|]. intros _. cbn [fst snd].
      apply Z.ltb_lt in Eb. change (id s1) with s1 in Eb. apply Z.eqb_eq in Ew. rewrite u32_sub_l in Eb.
      pose proof (Z.lt_le_trans _ _ _ Eb Hb) as Hlt.
      split; [split; [exact Ew|by exists T]|]. intros [_ Hge].
      exact (Z.lt_irrefl _ (Z.lt_le_trans _ _ _ Hlt (Hge T HT))).
    + apply wp_put, wp_ret. split; [|split; [by apply expire_lens|done]].
      cbn. unfold grace_expire, misses_same. by repeat case_match.
  - apply wp_put, wp_ret. cbn [fst snd]. bool_prop. unfold slot_grace, slot_spent, misses_same.
    split; [unfold grace_open; cbn; by repeat case_match|]. split; [by apply open_lens|]. intros _.
    split; [|intros [? _]; done]. unfold grace_open. cbn.
    assert (forall g' : SchedGrace, gr_wire g' = gr_wire g -> gr_t0 g' = gr_t0 g ->
      rd 0 (wr (gr_wire g') slot wire) slot = wire /\
      exists T', a <= T' <= b /\ u32 (T' - rd 0 (wr (gr_t0 g') slot (u32 T)) slot) < 80) as Hg'.
    { intros g' -> ->. rewrite !rd_wr_eq by (unfold zlen, g; lia). split; [done|]. exists T. split; [done|].
      by rewrite <- u32_sub_l, Z.sub_diag. }
    repeat case_match; apply Hg'; done.
Qed.

(** The estimate is the raw sample, or at most 24 ms. *)
Lemma rtt_le (d : D) : np_invent_rtt_ms br d <= Z.max 24 (gt_rtt_ms br d).
Proof using.
  unfold np_invent_rtt_ms. cbv zeta. match goal with |- context [clamp 8 24 ?x] => set (y := clamp 8 24 x) end.
  assert (y <= 24) by (unfold y, clamp; lia). destruct (_ && _); lia.
Qed.
Lemma patience_keeps st s d :
  wp (gap1_patience br st) (fun _ x =>
    (forall n a b, clock_within br (S n) a b d -> clock_within br n a b (snd x)) /\ sc_grace (fst x) = sc_grace s) (s, d).
Proof using.
  assert (forall n a b, clock_within br (S n) a b d -> clock_within br n a b d) as H0 by (intros n a b; apply within_less).
  assert (forall n a b, clock_within br (S n) a b d -> clock_within br n a b (snd (gt_now_ms br d))) as H1 by (by intros n a b [_ H]).
  unfold gap1_patience, np_gap1_grace_cap_ms. apply wp_bind, wp_sc. cbn [fst].
  destruct (se_gap1_grace_ms (sc_env s)) as [n|].
  - apply wp_now. cbn [fst snd]. destruct (_ =? 0); [by apply wp_ret, wp_ret|].
    apply wp_side, wp_sc. destruct (_ && _); [by apply wp_ret, wp_ret|].
    by apply wp_put, wp_ret, wp_ret.
  - apply wp_ret, wp_bind. unfold np_tip_age_ms. apply wp_sc. cbn [fst]. destruct (negb _).
    + by apply wp_ret, wp_sc, wp_put, wp_side, wp_side, wp_ret.
    + by apply wp_now, wp_ret, wp_sc, wp_put, wp_side, wp_side, wp_ret.
Qed.

(** A wait that goes on, asked between [a] and [b]: the miss is stamped, and
    once it is old enough only the grace of the seat can be what goes on, for
    less than 80 ms. *)
Definition wait_goes_on (a b slot wire : Z) (s : Sched) (d : D) (s' : Sched) : Prop :=
  let g := sc_grace s in let g' := sc_grace s' in
  lens g' /\ gr_miss_wire g' = wire /\
  (if gr_miss_wire g =? wire then gr_miss_t0 g' = gr_miss_t0 g
   else exists T, a <= T <= b /\ gr_miss_t0 g' = u32 T) /\
  ((forall T, a <= T <= b -> Z.max 400 (gt_rtt_ms br d) <= u32 (T - gr_miss_t0 g')) ->
     slot_grace a b slot wire g' /\ ~ slot_spent a b slot wire g).

Lemma stall_for_grace wire st why s d :
  wp (stall_for br wire st why) (fun _ x => sc_grace (fst x) = sc_grace s) (s, d).
Proof using.
  unfold stall_for, np_diag_wire_hole. destruct (wire <? _); [|done]. apply wp_side. cbn [snd].
  destruct (_ || _); [done|]. by apply wp_now.
Qed.

(** The three ways to wait, from a state whose miss is stamped, the clock
    having shown [T]. *)
Section Stamped.
Context (slot wire : Z) (st : RNetSessionStats) (s : Sched) (d : D) (a b T : Z).
Context (Hs : 0 <= slot < 8) (HL : lens (sc_grace s)) (Hw : gr_miss_wire (sc_grace s) = wire) (HT : a <= T <= b).
Notation t0 := (gr_miss_t0 (sc_grace s)).
Notation now := (u32 T).

Lemma goes_on_grace s' :
  misses_same (sc_grace s) (sc_grace s') -> lens (sc_grace s') -> slot_grace a b slot wire (sc_grace s') ->
  ~ slot_spent a b slot wire (sc_grace s) -> wait_goes_on a b slot wire s d s'.
Proof using Hw.
  intros [E1 E2] HL' Hg Hn. unfold wait_goes_on. cbv zeta. rewrite E1, E2, Hw, Z.eqb_refl. done.
Qed.
Lemma goes_on_young s' :
  sc_grace s' = sc_grace s \/ misses_same (sc_grace s) (sc_grace s') /\ lens (sc_grace s') ->
  u32 (now - t0) < Z.max 400 (gt_rtt_ms br d) -> wait_goes_on a b slot wire s d s'.
Proof using HL HT Hw.
  intros Hm Hy. unfold wait_goes_on. cbv zeta. rewrite Hw, Z.eqb_refl, u32_sub_l in *.
  destruct Hm as [->|[[E1 E2] ?]]; [|rewrite E1, E2]; (split; [done|]); (split; [done|]); (split; [done|]);
    intros Ho; specialize (Ho T HT); lia.
Qed.

Lemma wait_tip_stale_spec gap :
  wp (wait_tip_stale br wire gap now t0 st) (fun r x =>
    forall why, r = inl why -> wait_goes_on a b slot wire s d (fst x)) (s, d).
Proof using HL HT Hw.
  unfold wait_tip_stale. apply wp_side. cbn [snd]. destruct (_ <? clamp _ _ _) eqn:Ec; [|by apply wp_put, wp_ret].
  assert (u32 (now - t0) < 400) as Hy by (apply Z.ltb_lt in Ec; unfold clamp in Ec; lia). clear Ec.
  set (K := fun x : Sched * D => misses_same (sc_grace s) (sc_grace (fst x)) /\ lens (sc_grace (fst x))).
  apply wp_sc. cbn [fst]. apply wp_bind. eapply (wp_mono _ (fun _ => K)).
  { unfold when. destruct (negb _); by split. }
  intros _ [s1 d1] K1. apply wp_bind. eapply (wp_mono _ (fun _ => K)).
  { unfold when. destruct (_ && _); [|done]. exact K1. }
  intros _ [s2 d2] K2. apply wp_bind. eapply wp_mono; [apply stall_for_grace|]. intros _ [s3 d3] E3. apply wp_ret.
  intros why _. apply goes_on_young; [right|lia]. cbn [fst] in *. rewrite E3. exact K2.
Qed.
Lemma wait_runway_spec gap : clock_within br 1 a b d ->
  wp (wait_runway br slot wire gap now t0 st) (fun r x =>
    forall why, r = inl why -> wait_goes_on a b slot wire s d (fst x)) (s, d).
Proof using HL HT Hs Hw.
  intros Hin. unfold wait_runway. apply wp_side. cbn [snd]. destruct (_ && _) eqn:Ec.
  { apply wp_put, wp_ret. intros why _. apply goes_on_young; [by left|].
    apply andb_true_iff in Ec as [_ Ec]. apply Z.ltb_lt in Ec. unfold RB_INVENT_DEPTH_STALE_FLOOR_MS in Ec.
    pose proof (rtt_le d). lia. }
  apply wp_bind. eapply wp_mono; [by apply (grace_wait slot wire _ _ s d a b)|]. intros [] [s1 d1] (Hm & HL1 & Ht); [|by apply wp_put, wp_ret].
  destruct (Ht eq_refl) as (Hg & Hn). apply wp_bind. eapply wp_mono; [apply stall_for_grace|].
  intros _ [s2 d2] E2. apply wp_ret. intros why _. cbn [fst] in *.
  apply goes_on_grace; rewrite ?E2; done.
Qed.
Lemma wait_gap1_spec : clock_within br 2 a b d ->
  wp (wait_gap1 br slot wire st) (fun r x =>
    forall why, r = inl why -> wait_goes_on a b slot wire s d (fst x)) (s, d).
Proof using HL Hs Hw.
  intros Hin. unfold wait_gap1. apply wp_bind. eapply wp_mono; [apply (patience_keeps st s d)|].
  intros [cap case_a] [s1 d1] [Hin1 G1]. cbn [fst snd] in *. apply Hin1 in Hin.
  apply wp_bind. destruct (cap =? 0).
  { apply wp_ret. apply wp_skip. intros _ x. by apply wp_put, wp_ret. }
  eapply wp_mono; [apply (grace_wait slot wire cap false s1 d1 a b Hs); [by rewrite G1|done]|].
  rewrite G1. intros [] [s2 d2] (Hm & HL2 & Ht); [|apply wp_skip; intros _ x; by apply wp_put, wp_ret].
  destruct (Ht eq_refl) as (Hg & Hn). cbn [fst snd] in *.
  set (K := fun x : Sched * D => misses_same (sc_grace s) (sc_grace (fst x)) /\ lens (sc_grace (fst x)) /\
              slot_grace a b slot wire (sc_grace (fst x))).
  apply wp_sc, wp_bind. eapply (wp_mono _ (fun _ => K)).
  { unfold when. destruct (negb _); [|done]. by apply wp_put, wp_now. }
  intros _ [s3 d3] (K1 & K2 & K3). apply wp_put, wp_ret. intros why _. by apply goes_on_grace.
Qed.
End Stamped.

Lemma wait_spec slot wire st s d a b :
  0 <= slot < 8 -> lens (sc_grace s) -> clock_within br 3 a b d ->
  wp (wait_or_invent br slot wire st) (fun r x =>
    forall why, r = inl why -> wait_goes_on a b slot wire s d (fst x)) (s, d).
Proof using Hclock.
  intros Hs HL [(T & HT & Enow) Hin]. unfold wait_or_invent. apply wp_sc, wp_now, wp_put, wp_sc. cbn [fst snd]. rewrite Enow.
  set (d1 := snd (gt_now_ms br d)) in *.
  assert (gt_rtt_ms br d1 = gt_rtt_ms br d) as Er by (pose proof (same_now d) as [= _ _ _ _ Er _]; exact Er).
  match goal with |- context [on_sc_grace ?f s] => set (s1 := on_sc_grace f s) end.
  assert (gr_miss_wire (sc_grace s1) = wire /\ lens (sc_grace s1) /\
    gr_wire (sc_grace s1) = gr_wire (sc_grace s) /\ gr_t0 (sc_grace s1) = gr_t0 (sc_grace s) /\
    gr_miss_t0 (sc_grace s1) = if gr_miss_wire (sc_grace s) =? wire then gr_miss_t0 (sc_grace s) else u32 T) as (M1 & HL1 & W1 & T1 & S1).
  { unfold s1. cbn. destruct (gr_miss_wire (sc_grace s) =? wire) eqn:E; bool_prop; done. }
  assert (forall s', wait_goes_on a b slot wire s1 d1 s' -> wait_goes_on a b slot wire s d s') as Hback.
  { intros s'. unfold wait_goes_on, slot_spent. cbv zeta. rewrite M1, Z.eqb_refl, Er, W1, T1, S1.
    intros (H1 & H2 & H3 & H4). split_and!; [done|done| |done]. case_match; [done|]. by exists T. }
  assert (forall m : M (Sched * D) (string + string),
    wp m (fun r x => forall why, r = inl why -> wait_goes_on a b slot wire s1 d1 (fst x)) (s1, d1) ->
    wp m (fun r x => forall why, r = inl why -> wait_goes_on a b slot wire s d (fst x)) (s1, d1)) as Hm.
  { intros m Hm. eapply wp_mono; [exact Hm|]. intros r x Hx why E. by apply Hback, (Hx why). }
  apply Hm. destruct (_ && _); [by apply wait_tip_stale_spec|destruct (_ && _)].
  - by apply wait_gap1_spec.
  - apply wait_runway_spec; [done..|]. by apply within_less.
Qed.

(** ** One call for a missing row *)

Lemma miss_spec slot sim wire st pred s d a b :
  0 <= slot < 8 -> lens (sc_grace s) -> clock_within br 5 a b d ->
  wp (rnet_sched_on_remote_miss br slot sim wire st pred) (fun r x =>
    fst r = true -> (forall T, a <= T <= b -> may_invent br (u32 T) s d wire st pred) ->
    wait_goes_on a b slot wire s d (fst x)) (s, d).
Proof using Hclock.
  intros Hs HL Hin. unfold rnet_sched_on_remote_miss. apply wp_bind. eapply wp_mono; [apply note_miss_gates|].
  intros _ [s1 d1] (Hv1 & Hin1 & C1 & G1). cbn [fst snd] in *. apply Hin1 in Hin. apply wp_bind.
  eapply wp_mono; [apply gates_iff|]. cbv beta. intros o [s2 d2] [Hiff Hnone]. cbn [fst snd] in *.
  destruct o as [why|].
  { apply wp_ret. intros _ Hm. destruct Hin as [(T & HT & Enow) _]. rewrite Enow in Hiff.
    assert (Some why = None); [|done]. apply Hiff, (may_invent_gates _ s s1 d d1); [done|done|by apply Hm]. }
  destruct (Hnone eq_refl) as (Hv2 & Hin2 & G2). apply Hin2 in Hin.
  assert (sc_grace s2 = sc_grace s) as Gs by congruence.
  assert (gt_rtt_ms br d2 = gt_rtt_ms br d) as Er.
  { unfold same_gates in *. rewrite Hv1 in Hv2. by injection Hv2. }
  apply wp_bind. eapply wp_mono; [apply (wait_spec slot wire st s2 d2 a b); [done|by rewrite Gs|done]|]. intros r [s3 d3] Hr.
  destruct r as [why|reason].
  - apply wp_ret. intros _ _. specialize (Hr why eq_refl). unfold wait_goes_on in *. cbv zeta in *.
    by rewrite Gs, Er in Hr.
  - by apply wp_put, wp_now, wp_put, wp_put, wp_ret.
Qed.
End Miss.

(** A prediction stays within its budget: when the scheduler lets a
    missing row be invented, the driver is not in lockstep, the peer has left
    the delay prefix, the row is at most [pred] ticks past the newest row the
    peer sent (in 32-bit ticks), and no cushion is being rebuilt - unless an
    episode runs or the catch-up after a realignment is armed and the peer is
    ahead by more than a cushion. *)
Theorem invention_within_budget {D : Type} (br : RNetSchedBridge D) slot sim wire st pred s d :
  clock_only br ->
  wp (rnet_sched_on_remote_miss br slot sim wire st pred) (fun r _ =>
    fst r = false -> exists now, may_invent br now s d wire st pred) (s, d).
Proof.
  intros Hclock. unfold rnet_sched_on_remote_miss. apply wp_bind.
  eapply wp_mono; [by apply note_miss_gates|]. intros _ [s1 d1] (Hv1 & _ & C1 & _). cbn [fst snd] in *.
  apply wp_bind. eapply wp_mono; [by apply gates_iff|]. cbv beta. intros [why|] x [Hiff _]; [by apply wp_ret|].
  apply wp_any. intros r y _. exists (fst (gt_now_ms br d1)). rewrite <-(may_invent_gates br _ s s1 d d1) by done. by apply Hiff.
Qed.

(** ** On a concrete bridge: seat 0, delay 2, a cap of 8, and a clock that
    shows the driver's side *)

Definition plain_env : SchedEnv := mkSchedEnv None None None None None None None.
Definition clock_bridge : RNetSchedBridge Z :=
  mkBridge (fun _ => None) (fun _ d => d) (fun _ => Some 2) (fun _ d => d) (fun _ => 8) (fun _ => Some 0) (fun _ => 0)
    (fun _ => true) (fun d => (d, d)) (fun _ => 30) (fun _ => false) (fun _ => false) (fun _ => false) None
    (fun _ => false) (fun _ => false) (fun _ _ => ret None) (fun _ => 0) (fun _ => 0).
(** The peer's newest row is [hi]; we are at tick [sim]. *)
Definition tip_stats (hi sim : Z) : RNetSessionStats :=
  mkStats sim 2 0 2 true 0 0 hi (hi - sim) ADMIT_OK 0 0 0 0 0 0 0 0 0 false 0 0 0 0 0 0 0 0 0 0 0 0 [].
Lemma clock_bridge_only : clock_only clock_bridge.
Proof. done. Qed.

(** A gap of two ticks: waited for at 1000, at 1400 the grace opens, at 1480
    the row is invented. *)
Definition miss_at (now : Z) : M (Sched * Z) (bool * option string) := fun x =>
  rnet_sched_on_remote_miss clock_bridge 1 12 12 (tip_stats 10 12) 8 (fst x, now).
Example miss_waits :
  (let m := do a <- miss_at 1000; do b <- miss_at 1400; do c <- miss_at 1480; ret (a, b, c) in
   fst (m (zero_sched plain_env, 0))) =
  ((true, Some "depth_stale_wait"), (true, Some "runway_grace"), (false, Some "RUNWAY_EMPTY"))%string.
Proof. vm_compute. reflexivity. Qed.

Lemma invention_within_budget_witness :
  let s := on_sc_grace (set_gr_t0 (repeat 1000 8)) (on_sc_grace (set_gr_wire (repeat 11 8)) (zero_sched plain_env)) in
  fst (fst (rnet_sched_on_remote_miss clock_bridge 1 12 11 (tip_stats 10 12) 8 (s, 2000))) = false /\
  exists now, may_invent clock_bridge now s 2000 11 (tip_stats 10 12) 8.
Proof.
  split; [vm_compute; reflexivity|].
  apply (invention_within_budget clock_bridge 1 12 11 (tip_stats 10 12) 8 _ 2000 clock_bridge_only).
  vm_compute. reflexivity.
Defined.
