(* ===== verification/SchedFrames.v ===== *)
(** * The scheduler keeps to its interface

    The real scheduler discharges what the driver's theorems assume of one: it
    touches the driver's side only through the bridge, answers "admit" only
    after the hold gate let the tick pass, and never lets a row be invented
    under lockstep. *)

From stdpp Require Import base list numbers list_numbers strings.
From S2P Require Import Prelude StateM Protocol Config Rings CtrlQueue Rollback Session SessionState SessionMain SessionProofs SessionStats DriverData Driver DriverEpisode DriverWire DriverMain DriverFrame DriverDemo SchedData Sched SchedProofs.

(** ** What the session calls of the scheduler leave alone *)

Lemma quiet_raw enc s : quiet_session s (send_raw enc s).
Proof. unfold send_raw. repeat case_match; by split. Qed.
Lemma quiet_delay_sync v e s : quiet_session s (emit_delay_sync v e s).
Proof.
  unfold emit_delay_sync. destruct (rnet_proto_encode_delay_sync _ _ _ _ _); [|reflexivity|reflexivity].
  pose proof (quiet_raw (Ret a) s) as Hr. by destruct Hr.
Qed.
Lemma quiet_request_delay v s : quiet_session s (snd (rnet_session_request_delay_change v s)).
Proof.
  unfold rnet_session_request_delay_change. cbv zeta.
  repeat match goal with |- context [if ?b then _ else _] => destruct b end; try reflexivity; cbn [snd];
    (etransitivity; [|apply quiet_delay_sync]; by split).
Qed.
Lemma quiet_arrival_age slot w s : quiet_session s (snd (rnet_session_remote_arrival_age_ms slot w s)).
Proof.
  unfold rnet_session_remote_arrival_age_ms. cbv zeta.
  repeat match goal with |- context [if ?b then _ else _] => destruct b end; try reflexivity; cbn;
    by repeat match goal with |- context [if ?b then _ else _] => destruct b end.
Qed.
Lemma quiet_peer_age i s : quiet_session s (snd (rnet_session_peer_rx_age_ms i s)).
Proof.
  unfold rnet_session_peer_rx_age_ms.
  repeat match goal with |- context [if ?b then _ else _] => destruct b end; by split.
Qed.
Lemma quiet_stats s : quiet_session s (snd (rnet_session_get_stats s)).
Proof.
  unfold rnet_session_get_stats. cbv zeta. destruct (stats_transfer s) as [[op total] acked].
  match goal with |- context [for_upto RNET_MAX_SLOTS ?f (@nil Z, s)] => set (ages := f) end.
  assert (quiet_session s (snd (for_upto RNET_MAX_SLOTS ages ([], s)))) as Ha.
  { apply (for_upto_ind (fun _ p => quiet_session s (snd p))); [done|reflexivity|].
    intros i [l s1] _ E. unfold ages. pose proof (quiet_peer_age i s1) as Hp.
    destruct (rnet_session_peer_rx_age_ms i s1). cbn in *. by etransitivity. }
  destruct (for_upto RNET_MAX_SLOTS ages ([], s)) as [l s1]. cbn in Ha |- *. destruct Ha.
  destruct (highest_remote _); by split.
Qed.

(** ** The quiet calls *)

Section Quiet.
Context {D : Type} (br : RNetSchedBridge D) (R : D -> D -> Prop) `{!PreOrder R} (Hq : bridge_quiet R br).
Notation ok m := (stable (fun a b : Sched * D => R (snd a) (snd b)) m).

#[local] Instance side_pre : PreOrder (fun a b : Sched * D => R (snd a) (snd b)).
Proof. split; [intros a; reflexivity|intros a b c ? ?; etransitivity; eassumption]. Qed.

Lemma qt_sc {A} (f : Sched -> A) : ok (sc f).
Proof. intros x. reflexivity. Qed.
Lemma qt_put f : ok (put f).
Proof. intros x. apply (reflexivity (R := R)). Qed.
Lemma qt_side {A} (f : D -> A) : ok (side f).
Proof. intros x. reflexivity. Qed.
Lemma qt_now : ok (sched_mono_ms br).
Proof.
  intros [s d]. unfold sched_mono_ms, call. simpl. pose proof (bs_now _ _ Hq d) as H.
  by destruct (gt_now_ms br d).
Qed.
Lemma qt_session {A} (x : A) f : (forall s, quiet_session s (snd (f s))) -> ok (on_session br x f).
Proof.
  intros Hf [s d]. unfold on_session. simpl. destruct (br_session br d) as [ss|] eqn:E; [|reflexivity].
  specialize (Hf ss). destruct (f ss) as [a s']. by apply (bs_session _ _ Hq d ss).
Qed.
Lemma qt_delay_change v : ok (on_session br false (rnet_session_request_delay_change v)).
Proof. apply qt_session, quiet_request_delay. Qed.
Lemma qt_arrival slot w : ok (on_session br UINT32_MAX (rnet_session_remote_arrival_age_ms slot w)).
Proof. apply qt_session, quiet_arrival_age. Qed.
Lemma qt_stats : ok (on_session br tt (fun s => (tt, snd (rnet_session_get_stats s)))).
Proof. apply qt_session. intros s. apply quiet_stats. Qed.
Hint Resolve qt_sc qt_put qt_side qt_now qt_delay_change qt_arrival : stable.

Lemma qt_sync : ok (rnet_sched_sync_delay_from_session br).
Proof.
  intros [s d]. unfold rnet_sched_sync_delay_from_session. cbn [fst snd].
  destruct (br_session br d) as [ss|]; [|reflexivity]. destruct (br_input_delay br d); [|reflexivity]. cbv zeta.
  match goal with |- context [2 <=? ?x] => set (v := x) end. destruct (2 <=? v); [apply (bs_delay _ _ Hq)|reflexivity].
Qed.
Lemma qt_stall tag : ok (rnet_sched_set_admit_stall tag : M (Sched * D) unit).
Proof. apply qt_put. Qed.
Hint Resolve qt_stall : stable.
Lemma qt_grace slot wire cap c : ok (np_invent_grace_stall_ex br slot wire cap c).
Proof. unfold np_invent_grace_stall_ex. stable_tac. Qed.
Lemma qt_tip h : ok (np_tip_track_advance br h).
Proof. unfold np_tip_track_advance. stable_tac. Qed.
Lemma qt_tip_age : ok (np_tip_age_ms br).
Proof. unfold np_tip_age_ms. stable_tac. Qed.
Lemma qt_gap1_cap : ok (np_gap1_grace_cap_ms br).
Proof. unfold np_gap1_grace_cap_ms. stable_tac. Qed.
Lemma qt_expire_invent : ok (np_gap1_note_expire_invent br).
Proof. unfold np_gap1_note_expire_invent. stable_tac. Qed.
Lemma qt_hit : ok (rnet_sched_note_remote_hit br).
Proof. unfold rnet_sched_note_remote_hit. stable_tac. Qed.
Lemma qt_boundary : ok (rnet_sched_note_episode_boundary br).
Proof. unfold rnet_sched_note_episode_boundary. stable_tac. Qed.
Lemma qt_catchup now : ok (absurd_invent_catchup_active now : M (Sched * D) bool).
Proof. unfold absurd_invent_catchup_active. stable_tac. Qed.
Lemma qt_late age : ok (np_timesync_note_late br age).
Proof. unfold np_timesync_note_late. stable_tac. Qed.
Hint Resolve qt_grace qt_tip qt_tip_age qt_gap1_cap qt_expire_invent qt_catchup qt_late : stable.
Lemma qt_mispredict age : ok (rnet_sched_note_mispredict br age).
Proof. unfold rnet_sched_note_mispredict. stable_tac. Qed.
Lemma qt_ahead lead : ok (np_timesync_note_ahead_skew br lead).
Proof. unfold np_timesync_note_ahead_skew. stable_tac. Qed.
Lemma qt_throttle w : ok (np_timesync_throttle br w).
Proof. unfold np_timesync_throttle. stable_tac. Qed.
Lemma qt_window now : ok (np_scorecard_window_reset br now).
Proof. unfold np_scorecard_window_reset. stable_tac. Qed.
Lemma qt_note_miss w : ok (np_scorecard_note_miss br w).
Proof. unfold np_scorecard_note_miss. stable_tac. Qed.
Hint Resolve qt_ahead qt_throttle qt_window qt_note_miss : stable.
Lemma qt_sample sim w st : ok (sample_tick br sim w st).
Proof. unfold sample_tick. stable_tac. Qed.
Hint Resolve qt_sample : stable.
Lemma qt_scorecard now sim w st : ok (np_scorecard_sample br now sim w st).
Proof. unfold np_scorecard_sample. stable_tac. Qed.
Lemma qt_adapt now : ok (np_adapt_delay_on_pcap_enter br now).
Proof. unfold np_adapt_delay_on_pcap_enter. stable_tac. Qed.
Hint Resolve qt_scorecard qt_adapt : stable.
Lemma qt_freeze : ok (np_pcap_freeze_enter br).
Proof. unfold np_pcap_freeze_enter. stable_tac. Qed.
Lemma qt_auto now : ok (np_auto_delay_tick br now).
Proof. unfold np_auto_delay_tick. cbv zeta. stable_tac. Qed.
Lemma qt_hole w st : ok (np_diag_wire_hole br w st).
Proof. unfold np_diag_wire_hole. stable_tac. Qed.
Lemma qt_cushion now st : ok (cushion_check br now st).
Proof. unfold cushion_check. cbv zeta. stable_tac. Qed.
Hint Resolve qt_freeze qt_auto qt_hole qt_cushion : stable.
Lemma qt_stall_for w st why : ok (stall_for br w st why).
Proof. unfold stall_for. stable_tac. Qed.
Hint Resolve qt_stall_for : stable.
Lemma qt_gates w st pred : ok (miss_gates br w st pred).
Proof. unfold miss_gates. cbv zeta. stable_tac. Qed.
Lemma qt_patience st : ok (gap1_patience br st).
Proof. unfold gap1_patience. cbv zeta. stable_tac. Qed.
Hint Resolve qt_gates qt_patience : stable.
Lemma qt_wait slot w st : ok (wait_or_invent br slot w st).
Proof. unfold wait_or_invent, wait_tip_stale, wait_gap1, wait_runway. cbv zeta. stable_tac. Qed.
Hint Resolve qt_wait : stable.
Lemma qt_miss slot sim w st pred : ok (rnet_sched_on_remote_miss br slot sim w st pred).
Proof. unfold rnet_sched_on_remote_miss. stable_tac. Qed.
Lemma qt_post b : ok (rnet_sched_post_admit br b).
Proof. pose proof qt_stats. unfold rnet_sched_post_admit. stable_tac. Qed.
Lemma qt_open sim w st : ok (pre_admit_open br sim w st).
Proof. unfold pre_admit_open. stable_tac. Qed.
End Quiet.

(** The gate comes after one reading of the clock, and nothing before it
    decides. *)
Lemma pre_admit_stable {D} (br : RNetSchedBridge D) sim w st : sched_stable br (rnet_sched_pre_admit br sim w st).
Proof.
  intros R HR [Hq Hh]. pose proof (@side_pre D R _). unfold rnet_sched_pre_admit.
  apply stable_bind; [typeclasses eauto|by apply qt_tip|]. intros _.
  apply stable_bind; [typeclasses eauto| |].
  { intros [s d]. unfold call. simpl. specialize (Hh sim w d). by destruct (gt_pre_admit_hold br sim w d). }
  intros [tag|]; [|by apply qt_open].
  apply stable_bind; [typeclasses eauto|by apply qt_put|]. intros _.
  apply stable_bind; [typeclasses eauto|by apply qt_now|]. intros _. apply stable_ret, _.
Qed.
Lemma pre_admit_asks_gate {D} (br : RNetSchedBridge D) sim w st : asks_gate br sim w (rnet_sched_pre_admit br sim w st).
Proof.
  intros s d E R HR Hq. unfold rnet_sched_pre_admit, bind in *.
  pose proof (qt_tip br R Hq (ss_highest_remote_wire st) (s, d)) as H1.
  destruct (np_tip_track_advance br (ss_highest_remote_wire st) (s, d)) as [u [s1 d1]]. unfold call in *.
  cbn [fst snd] in *. destruct (gt_pre_admit_hold br sim w d1) as [[tag|] d2] eqn:Eg.
  - cbn in E. destruct (sched_mono_ms br _) in E. done.
  - exists d1, d2. split; [exact H1|]. split; [exact Eg|]. exact (qt_open br R Hq sim w st (s1, d2)).
Qed.

(** Under lockstep the gates of a missing row stall. *)
Lemma gates_lockstep {D} (br : RNetSchedBridge D) w st pred s d :
  gt_lockstep_no_invent br d = true -> exists why, fst (miss_gates br w st pred (s, d)) = Some why.
Proof.
  intros Hl. unfold miss_gates, side, bind, gets. cbn [snd]. rewrite Hl. cbv zeta.
  destruct (stall_for br w st _ _) as [u x]. eexists. reflexivity.
Qed.
Lemma miss_lockstep {D} (br : RNetSchedBridge D) slot sim w st pred s d :
  (forall d, gt_lockstep_no_invent br (snd (gt_now_ms br d)) = gt_lockstep_no_invent br d) ->
  gt_lockstep_no_invent br d = true ->
  fst (fst (rnet_sched_on_remote_miss br slot sim w st pred (s, d))) = true.
Proof.
  intros Hnow Hl. set (R d d' := gt_lockstep_no_invent br d' = gt_lockstep_no_invent br d).
  assert (wp (np_scorecard_note_miss br w) (fun _ x => gt_lockstep_no_invent br (snd x) = true) (s, d)) as H1.
  { unfold np_scorecard_note_miss. apply wp_bind, wp_gets. destruct (negb _); [|exact Hl].
    apply wp_bind, wp_modify, wp_bind, wp_modify, wp_bind. unfold wp, sched_mono_ms, call. cbn [snd fst].
    specialize (Hnow d). destruct (gt_now_ms br d) as [now d']. cbn in *. by rewrite Hnow. }
  unfold rnet_sched_on_remote_miss.
  assert (wp (rnet_sched_on_remote_miss br slot sim w st pred) (fun r _ => fst r = true) (s, d)) as H2; [|exact H2].
  apply wp_bind. eapply wp_mono; [exact H1|]. intros _ [s1 d1] E. apply wp_bind.
  destruct (gates_lockstep br w st pred s1 d1 E) as [why Ew]. unfold wp at 1. by rewrite Ew.
Qed.

(** ** The interface *)

#[export] Instance rnet_sched_frame : SchedFrame Sched.
Proof.
  split.
  - intros D br R HR Hq. by apply qt_sync.
  - intros D br sim w st. apply pre_admit_stable.
  - intros D br sim w st. apply pre_admit_asks_gate.
  - intros D br slot sim w st pred R HR Hq. by apply qt_miss.
  - intros D br slot sim w st pred s d. apply miss_lockstep.
  - intros D br R HR Hq. by apply qt_hit.
  - intros D br b R HR Hq. by apply qt_post.
  - intros D br age R HR Hq. by apply qt_mispredict.
  - intros D br R HR Hq. by apply qt_boundary.
Qed.

(** C30. The scheduler keeps its promises to the driver: it reaches the
    driver's side only through the bridge - reading the clock, using the
    session without touching the control queues, setting the delay -, lets a
    tick run only after the hold gate let it pass, and stalls on a missing row
    under lockstep. This is all the driver's theorems assume of a scheduler,
    so they hold of the driver on this one. *)
Theorem rnet_sched_meets_interface : SchedFrame Sched.
Proof. apply rnet_sched_frame. Qed.

(** ** The driver on the scheduler *)

Definition sched_match : RbState toy_host Sched := Eval vm_compute in
  snd (rnet_rb_driver_start (fun _ => None) demo_driver_cfg (Some demo_running) true true true true
         (mkRbState zero_driver (mkToy 0 [] 1 []) (zero_sched (read_sched_env (fun _ => None))))).
(** Tick 0 waits: the peer has not left the delay prefix. Once its row is in,
    the tick runs. *)
Example sched_match_ticks :
  let st := snd (rnet_rb_driver_poll_admit None [] sched_match) in
  fst (rnet_rb_driver_poll_admit None [] sched_match) = RNET_RB_ADMIT_STALL /\
  d_stall_tag (r_drv st) = Some "boot_tip_wait"%string /\
  fst (rnet_rb_driver_poll_admit None []
         (mkRbState (set_d_session (Some demo_agreed) (r_drv st)) (r_host st) (r_sched st))) = RNET_RB_ADMIT_LIVE.
Proof. vm_compute. repeat split. Qed.
