(* ===== verification/SchedBounds.v ===== *)
(** * The frame scheduler: bounds of its state

    Whatever the driver asks, in whatever order and whatever its side does in
    between, the averages, debts, streaks and estimates the scheduler decides
    by stay within fixed bounds, and a tick is paced for less than 6 ms. *)

From stdpp Require Import base list numbers list_numbers strings.
From S2P Require Import Prelude StateM Protocol Config Rings CtrlQueue Rollback Session SessionState SessionMain SessionStats DriverData SchedData Sched SchedProofs.

(** ** The bounds *)

Record ts_ok (t : SchedPacing) : Prop := {
  to_ema : 0 <= ts_tick_ema_ms t <= 250;
  to_debt : 0 <= ts_debt_ms t <= 750;
  to_pegged : 0 <= ts_pegged_streak t < 18
}.
Record grace_ok (g : SchedGrace) : Prop := {
  go_lens : lens g;
  go_streak : 0 <= gr_expire_streak g < 15;
  go_ema : 0 <= gr_tick_ema_ms g <= 250
}.
Record tip_ok (t : SchedTip) : Prop := {
  tip_ema : 0 <= ti_arrival_ema_ms t <= 250;
  tip_streak : 0 <= ti_expire_streak t < 10
}.
Record ad_ok (a : SchedArrival) : Prop := {
  ao_transit : 0 <= ad_transit_x16 a <= 192;
  ao_target : -1 <= ad_last_target a <= RB_ADAPT_DELAY_MAX
}.
Record sched_ok (s : Sched) : Prop := {
  so_ts : ts_ok (sc_ts s);
  so_grace : grace_ok (sc_grace s);
  so_tip : tip_ok (sc_tip s);
  so_ad : ad_ok (sc_ad s);
  so_tag : (String.length (sc_stall_tag s) <= 79)%nat
}.

(** ** Pure steps *)

Lemma ema_range k old dt : 0 <= k <= 7 -> 0 <= old <= 250 -> 0 <= ema k old dt <= 250.
Proof.
  intros Hk Ho. unfold ema. destruct (_ && _) eqn:E; [|done]. bool_prop. destruct (nz old); [|lia].
  unfold u32. rewrite Z.mod_small by nia. split; [apply Z.div_pos; nia|]. apply Z.div_le_upper_bound; nia.
Qed.
Lemma cap_range t : 0 <= ts_tick_ema_ms t <= 250 -> 0 <= ts_cap t <= 750.
Proof. intros. unfold ts_cap. destruct (nz _); [|lia]. unfold u32. rewrite Z.mod_small; lia. Qed.
Lemma u32_nonneg x : 0 <= u32 x.
Proof. unfold u32. pose proof (Z.mod_pos_bound x 4294967296 eq_refl). lia. Qed.
Lemma owe_ok add t : ts_ok t -> ts_ok (ts_owe add t).
Proof.
  intros [H1 H2 H3]. pose proof (cap_range t H1). pose proof (u32_nonneg (ts_debt_ms t + add)).
  split; try done. unfold ts_owe. cbn. lia.
Qed.
Lemma new_wire_ok w now t : ts_ok t -> ts_ok (ts_new_wire w now t).
Proof.
  intros [H1 H2 H3]. unfold ts_new_wire. destruct (w =? _); [by split|]. cbv zeta.
  pose proof (ema_range 7 (ts_tick_ema_ms t) (u32 (now - ts_last_wire_ms t)) ltac:(lia) H1) as He.
  destruct (nz (ts_last_wire t) && _); cbn [ts_debt_ms set_ts_last_wire_ms set_ts_last_wire set_ts_tick_ema_ms];
    destruct (0 <? ts_debt_ms t) eqn:Ed; cbn [negb]; split; cbn; done || lia.
Qed.
Lemma open_ok slot w now g : grace_ok g -> grace_ok (grace_open slot w now g).
Proof.
  intros [H1 H2 H3]. split; [by apply open_lens|..]; unfold grace_open; cbv zeta;
    repeat case_match; cbn; try done; try lia; apply ema_range; done || lia.
Qed.
Lemma expire_ok slot now c g : grace_ok g -> grace_ok (grace_expire slot now c g).
Proof.
  intros [H1 H2 H3]. split; [by apply expire_lens|..]; unfold grace_expire; cbv zeta;
    repeat case_match; cbn; try done; try lia. bool_prop. cbn in *. pose proof (u32_nonneg (gr_expire_streak g + 1)). lia.
Qed.
Lemma transit_ok w d a : ad_ok a -> ad_ok (ad_note_transit w d a).
Proof.
  intros [H1 H2]. split; [|done]. unfold ad_note_transit. cbv zeta. cbn.
  match goal with |- context [clamp 0 192 ?x] => set (y := clamp 0 192 x) end.
  assert (0 <= y <= 192) by (unfold y, clamp; lia). destruct (ad_transit_have a); [|done].
  unfold u32. rewrite Z.mod_small by lia. split; [apply Z.div_pos; lia|apply Z.div_le_upper_bound; lia].
Qed.
Lemma target_range w tick d turn : RB_AUTO_DELAY_LOWER_FLOOR <= auto_delay_target w tick d turn <= RB_ADAPT_DELAY_MAX.
Proof.
  unfold auto_delay_target, RB_AUTO_DELAY_LOWER_FLOOR, RB_FORCE_TURN_DELAY_FLOOR, RB_ADAPT_DELAY_MAX. cbv zeta.
  destruct (nz turn); lia.
Qed.
Lemma agree_ok target d a : -1 <= target <= RB_ADAPT_DELAY_MAX -> ad_ok a -> ad_ok (snd (auto_delay_agree target d a)).
Proof.
  intros Ht [H1 H2]. unfold auto_delay_agree. cbv zeta. repeat case_match; cbn; split; cbn; done || lia.
Qed.

Lemma substring_short n tag : (String.length (String.substring 0 n tag) <= n)%nat.
Proof. revert n. induction tag as [|c r IH]; intros [|n]; cbn; try lia. specialize (IH n). lia. Qed.

(** ** Every call keeps the bounds *)

Definition kept {D} (a b : Sched * D) : Prop := sched_ok (fst a) -> sched_ok (fst b).
#[export] Instance kept_pre {D} : PreOrder (@kept D).
Proof. split; [intros a Ha; exact Ha|intros a b c H1 H2 Ha; exact (H2 (H1 Ha))]. Qed.

Section Kept.
Context {D : Type} (br : RNetSchedBridge D).
Notation ok m := (stable (@kept D) m).

Lemma kp_sc {A} (f : Sched -> A) : ok (sc f).
Proof. intros x Hx. exact Hx. Qed.
Lemma kp_side {A} (f : D -> A) : ok (side f).
Proof. intros x Hx. exact Hx. Qed.
Lemma kp_call {A} (m : M D A) : ok (call m).
Proof. intros [s d]. unfold call, kept. cbn. by destruct (m d). Qed.
Lemma kp_now : ok (sched_mono_ms br).
Proof. apply kp_call. Qed.
Lemma kp_session {A} (x : A) f : ok (on_session br x f).
Proof. intros [s d]. unfold on_session, kept. cbn. destruct (br_session br d) as [ss|]; [|done]. by destruct (f ss). Qed.
Lemma kp_put f : (forall s, sched_ok s -> sched_ok (f s)) -> ok (put f).
Proof. intros Hf [s d]. exact (Hf s). Qed.
Lemma kp_cushion f : ok (put (on_sc_cushion f)).
Proof. apply kp_put. by intros s []. Qed.
Lemma kp_tc f : ok (put (on_sc_tc f)).
Proof. apply kp_put. by intros s []. Qed.
Lemma kp_pcap f : ok (put (on_sc_pcap f)).
Proof. apply kp_put. by intros s []. Qed.
Lemma kp_adm f : ok (put (on_sc_adm f)).
Proof. apply kp_put. by intros s []. Qed.
Lemma kp_score f : ok (put (on_sc_score f)).
Proof. apply kp_put. by intros s []. Qed.
Lemma kp_ts f : (forall t, ts_ok t -> ts_ok (f t)) -> ok (put (on_sc_ts f)).
Proof. intros Hf. apply kp_put. intros s []. split; try done. by apply Hf. Qed.
Lemma kp_grace f : (forall g, grace_ok g -> grace_ok (f g)) -> ok (put (on_sc_grace f)).
Proof. intros Hf. apply kp_put. intros s []. split; try done. by apply Hf. Qed.
Lemma kp_tip f : (forall t, tip_ok t -> tip_ok (f t)) -> ok (put (on_sc_tip f)).
Proof. intros Hf. apply kp_put. intros s []. split; try done. by apply Hf. Qed.
Lemma kp_ad f : (forall a, ad_ok a -> ad_ok (f a)) -> ok (put (on_sc_ad f)).
Proof. intros Hf. apply kp_put. intros s []. split; try done. by apply Hf. Qed.
Lemma kp_stall tag : ok (rnet_sched_set_admit_stall tag : M (Sched * D) unit).
Proof. apply kp_put. intros s []. split; try done. apply substring_short. Qed.
Lemma kp_clear : ok (put rnet_sched_clear_admit_stall).
Proof. apply kp_put. intros s []. split; try done. cbn. lia. Qed.
Hint Resolve kp_sc kp_side kp_call kp_now kp_session kp_cushion kp_tc kp_pcap kp_adm kp_score kp_stall kp_clear : stable.

Lemma kp_off v : ok (put (on_sc_grace (set_gr_off_until v))).
Proof. apply kp_grace. by intros g []. Qed.
Lemma kp_open slot w now : ok (put (on_sc_grace (grace_open slot w now))).
Proof. apply kp_grace, open_ok. Qed.
Lemma kp_expire slot now c : ok (put (on_sc_grace (grace_expire slot now c))).
Proof. apply kp_grace, expire_ok. Qed.
Hint Resolve kp_off kp_open kp_expire : stable.
Lemma kp_grace_stall slot w cap c : ok (np_invent_grace_stall_ex br slot w cap c).
Proof. unfold np_invent_grace_stall_ex. stable_tac. Qed.
Lemma kp_track h : ok (np_tip_track_advance br h).
Proof.
  unfold np_tip_track_advance. stable_step; [stable_tac|]. apply kp_tip. intros t [H1 H2].
  repeat case_match; split; cbn; try done. apply ema_range; [lia|done].
Qed.
Lemma kp_tip_age : ok (np_tip_age_ms br).
Proof. unfold np_tip_age_ms. stable_tac. Qed.
Lemma kp_shrink v : ok (put (on_sc_tip (set_ti_shrink_until_ms v))).
Proof. apply kp_tip. by intros t []. Qed.
Lemma kp_streak0 : ok (put (on_sc_tip (set_ti_expire_streak 0))).
Proof. apply kp_tip. intros t []. split; [done|cbn; lia]. Qed.
Hint Resolve kp_grace_stall kp_track kp_tip_age kp_shrink kp_streak0 : stable.
Lemma kp_gap1_cap : ok (np_gap1_grace_cap_ms br).
Proof. unfold np_gap1_grace_cap_ms. cbv zeta. stable_tac. Qed.
Lemma kp_expire_invent : ok (np_gap1_note_expire_invent br).
Proof.
  unfold np_gap1_note_expire_invent. stable_step; [stable_tac|]. stable_step; [stable_tac|].
  apply kp_tip. intros t [H1 H2]. pose proof (u32_nonneg (ti_expire_streak t + 1)).
  repeat case_match; split; cbn; try done; try lia.
Qed.
Lemma kp_hit : ok (rnet_sched_note_remote_hit br).
Proof.
  unfold rnet_sched_note_remote_hit. stable_step; [stable_tac|]. stable_step; [stable_tac|]. stable_step.
  stable_step; [stable_tac|]. apply kp_ad. intros a' []. cbv zeta. by case_match.
Qed.
Lemma kp_pegged : ok (put (on_sc_ts (set_ts_pegged_streak 0))).
Proof. apply kp_ts. intros t []. split; try done. Qed.
Hint Resolve kp_gap1_cap kp_expire_invent kp_hit kp_pegged : stable.
Lemma kp_boundary : ok (rnet_sched_note_episode_boundary br).
Proof. unfold rnet_sched_note_episode_boundary. stable_tac. Qed.
Lemma kp_arm : ok (rnet_sched_arm_absurd_invent_catchup br).
Proof. unfold rnet_sched_arm_absurd_invent_catchup. stable_tac. Qed.
Lemma kp_catchup now : ok (absurd_invent_catchup_active now : M (Sched * D) bool).
Proof. unfold absurd_invent_catchup_active. stable_tac. Qed.
Lemma kp_owe add : ok (put (on_sc_ts (ts_owe add))).
Proof. apply kp_ts, owe_ok. Qed.
Hint Resolve kp_boundary kp_arm kp_catchup kp_owe : stable.

Lemma ts_kept s f : sched_ok s -> ts_ok (f (sc_ts s)) -> sched_ok (on_sc_ts f s).
Proof. by intros [] ?. Qed.
(** The streak stays below the limit, which was tested just before. *)
Lemma kp_late age : ok (np_timesync_note_late br age).
Proof.
  intros [s d] Hs. cbn [fst] in Hs.
  assert (wp (np_timesync_note_late br age) (fun _ x => sched_ok (fst x)) (s, d)) as H; [|exact H].
  unfold np_timesync_note_late. apply wp_sc. destruct (negb _); [done|]. apply wp_side.
  destruct (_ || _); [by apply kp_tc|]. apply wp_now, wp_sc. cbn [fst snd].
  destruct (before _ _); [by apply kp_tc|]. apply wp_put, wp_side. cbn [fst snd].
  pose proof (so_ts _ Hs) as [H1 H2 H3]. pose proof (u32_nonneg (ts_pegged_streak (sc_ts s) + 1)).
  set (s1 := on_sc_ts (set_ts_off_until_ms 0) s). assert (sched_ok s1) as Hs1 by by apply ts_kept.
  destruct (_ && _) eqn:Ep.
  - unfold wp. cbn [fst snd]. apply ts_kept; [done|]. split; cbn; done || lia.
  - apply wp_put, wp_put. apply kp_tc. cbn [fst snd]. apply ts_kept; [|apply owe_ok].
    all: [> apply ts_kept; [done|] | ].
    all: split; cbn; try done; destruct (ts_cap (sc_ts s) <=? ts_debt_ms (sc_ts s)); cbn in *; bool_prop; lia.
Qed.
Hint Resolve kp_late : stable.
Lemma kp_mispredict age : ok (rnet_sched_note_mispredict br age).
Proof. unfold rnet_sched_note_mispredict. stable_tac. Qed.
Lemma kp_ahead_streak f : (forall t, ts_ok t -> ts_ok (set_ts_ahead_streak (f t) t)).
Proof. by intros t []. Qed.
Lemma kp_ahead lead : ok (np_timesync_note_ahead_skew br lead).
Proof.
  pose proof (kp_ts _ (kp_ahead_streak (fun _ => 0))) as H1.
  pose proof (kp_ts _ (kp_ahead_streak (fun t => u32 (ts_ahead_streak t + 1)))) as H2.
  unfold np_timesync_note_ahead_skew. cbv zeta. stable_tac.
Qed.
Lemma kp_new_wire w now : ok (put (on_sc_ts (ts_new_wire w now))).
Proof. apply kp_ts, new_wire_ok. Qed.
Lemma kp_until v : ok (put (on_sc_ts (set_ts_stall_until v))).
Proof. apply kp_ts. by intros t []. Qed.
Lemma kp_media : ok (put (on_sc_ts (fun t => set_ts_stall_logged false (set_ts_stall_until 0 (set_ts_debt_ms 0 t))))).
Proof. apply kp_ts. intros t []. by split. Qed.
Hint Resolve kp_mispredict kp_ahead kp_new_wire kp_until kp_media : stable.
Lemma kp_throttle w : ok (np_timesync_throttle br w).
Proof. unfold np_timesync_throttle. stable_tac. Qed.
Lemma kp_window now : ok (np_scorecard_window_reset br now).
Proof. unfold np_scorecard_window_reset. stable_tac. Qed.
Lemma kp_miss_t0 v : ok (put (on_sc_ad (set_ad_miss_t0_ms v))).
Proof. apply kp_ad. by intros a []. Qed.
Lemma kp_miss_count : ok (put (on_sc_ad (fun a => set_ad_miss_pending true (set_ad_miss (u32 (ad_miss a + 1)) a)))).
Proof. apply kp_ad. by intros a []. Qed.
Lemma kp_lead l : ok (put (on_sc_ad (ad_sample_lead l))).
Proof. apply kp_ad. by intros a []. Qed.
Lemma kp_undo : ok (put (on_sc_ad np_auto_delay_undo_invent_miss)).
Proof. apply kp_ad. intros a []. unfold np_auto_delay_undo_invent_miss. by repeat case_match. Qed.
Hint Resolve kp_throttle kp_window kp_miss_t0 kp_miss_count kp_lead kp_undo : stable.
Lemma kp_note_miss w : ok (np_scorecard_note_miss br w).
Proof. unfold np_scorecard_note_miss. stable_tac. Qed.
Lemma kp_sample sim w st : ok (sample_tick br sim w st).
Proof. unfold sample_tick. cbv zeta. stable_tac. Qed.
Hint Resolve kp_note_miss kp_sample : stable.
Lemma kp_scorecard now sim w st : ok (np_scorecard_sample br now sim w st).
Proof. unfold np_scorecard_sample. stable_tac. Qed.
Lemma kp_adapt now : ok (np_adapt_delay_on_pcap_enter br now).
Proof. unfold np_adapt_delay_on_pcap_enter. stable_tac. Qed.
Hint Resolve kp_scorecard kp_adapt : stable.
Lemma kp_freeze : ok (np_pcap_freeze_enter br).
Proof. unfold np_pcap_freeze_enter. stable_tac. Qed.
Hint Resolve kp_freeze : stable.
Lemma ad_kept s f : sched_ok s -> ad_ok (f (sc_ad s)) -> sched_ok (on_sc_ad f s).
Proof. by intros [] ?. Qed.
Lemma kp_auto now : ok (np_auto_delay_tick br now).
Proof.
  intros [s d] Hs. cbn [fst] in Hs.
  assert (wp (np_auto_delay_tick br now) (fun _ x => sched_ok (fst x)) (s, d)) as H; [|exact H].
  unfold np_auto_delay_tick. apply wp_sc. cbv zeta. apply wp_side. unfold id. cbn [fst snd].
  destruct (_ || _ || _ || _); [done|]. apply wp_put, wp_side. cbn [fst snd].
  set (s1 := on_sc_ad _ s). assert (sched_ok s1) as Hs1 by (apply ad_kept; [done|]; by destruct (so_ad _ Hs)).
  destruct (gt_media_active br d); [done|]. apply wp_side. cbn [snd].
  destruct (_ <? 120); [apply kp_ad; [by intros a []|done]|]. apply wp_put, wp_side. cbn [fst snd].
  set (s2 := on_sc_ad (ad_note_transit _ _) s1).
  assert (sched_ok s2) as Hs2 by (apply ad_kept; [done|apply transit_ok, Hs1]).
  destruct (_ =? 0); cbn [negb]; [|done]. apply wp_side. cbn [snd].
  match goal with |- context [auto_delay_target ?w ?t ?d ?f] => pose proof (target_range w t d f) as Hr; set (target := auto_delay_target w t d f) in * end.
  unfold RB_AUTO_DELAY_LOWER_FLOOR in Hr.
  destruct (target =? _); [apply kp_ad; [intros a []; split; [done|cbn; lia]|done]|]. apply wp_sc. cbn [fst].
  pose proof (agree_ok target (sched_delay br d) (sc_ad s2) ltac:(lia) (so_ad _ Hs2)) as Ha.
  destruct (auto_delay_agree _ _ _) as [agreed a]. cbn [snd] in Ha. apply wp_put. cbn [fst snd].
  set (s3 := on_sc_ad (fun _ => a) s2). assert (sched_ok s3) as Hs3 by by apply ad_kept.
  destruct agreed as [v|]; [|done]. apply wp_sc. cbn [fst]. destruct (_ && _); [done|].
  apply wp_bind. eapply wp_mono; [apply (wp_stable kept), kp_session|]. intros changed [s4 d4] K. apply K in Hs3. cbn [fst] in Hs3.
  unfold when. destruct changed; [|done]. apply kp_ad; [by intros a4 []|done].
Qed.
Hint Resolve kp_auto : stable.
Lemma kp_hole w st : ok (np_diag_wire_hole br w st).
Proof. unfold np_diag_wire_hole. stable_tac. Qed.
Lemma kp_cushion_check now st : ok (cushion_check br now st).
Proof. unfold cushion_check. cbv zeta. stable_tac. Qed.
Hint Resolve kp_hole kp_cushion_check : stable.
Lemma kp_pre_open sim w st : ok (pre_admit_open br sim w st).
Proof. unfold pre_admit_open. stable_tac. Qed.
Hint Resolve kp_pre_open : stable.
Lemma kp_pre sim w st : ok (rnet_sched_pre_admit br sim w st).
Proof. unfold rnet_sched_pre_admit. stable_tac. Qed.
Lemma kp_stall_for w st why : ok (stall_for br w st why).
Proof. unfold stall_for. stable_tac. Qed.
Hint Resolve kp_pre kp_stall_for : stable.
Lemma kp_gates w st pred : ok (miss_gates br w st pred).
Proof. unfold miss_gates. cbv zeta. stable_tac. Qed.
Lemma kp_patience st : ok (gap1_patience br st).
Proof. unfold gap1_patience. cbv zeta. stable_tac. Qed.
Lemma kp_cw v : ok (put (on_sc_grace (set_gr_cw_wire v))).
Proof. apply kp_grace. by intros g []. Qed.
Lemma kp_gw v : ok (put (on_sc_grace (set_gr_gap1_wait_wire v))).
Proof. apply kp_grace. by intros g []. Qed.
Lemma kp_gg v : ok (put (on_sc_grace (set_gr_gap1_grace_wire v))).
Proof. apply kp_grace. by intros g []. Qed.
Lemma kp_stamp w now : ok (put (on_sc_grace (fun g => if gr_miss_wire g =? w then g
                             else set_gr_miss_t0 now (set_gr_miss_wire w g)))).
Proof. apply kp_grace. intros g []. by case_match. Qed.
Hint Resolve kp_gates kp_patience kp_cw kp_gw kp_gg kp_stamp : stable.
Lemma kp_wait slot w st : ok (wait_or_invent br slot w st).
Proof. unfold wait_or_invent, wait_tip_stale, wait_gap1, wait_runway. cbv zeta. stable_tac. Qed.
Hint Resolve kp_wait : stable.
Lemma kp_miss slot sim w st pred : ok (rnet_sched_on_remote_miss br slot sim w st pred).
Proof. unfold rnet_sched_on_remote_miss. stable_tac. Qed.
Lemma kp_exit : ok (put np_pcap_freeze_exit).
Proof. apply kp_put. by intros s []. Qed.
Hint Resolve kp_miss kp_exit : stable.
Lemma kp_post b : ok (rnet_sched_post_admit br b).
Proof. unfold rnet_sched_post_admit. stable_tac. Qed.
Lemma kp_sync : ok (rnet_sched_sync_delay_from_session br).
Proof.
  intros [s d] Hs. unfold rnet_sched_sync_delay_from_session. cbn [fst snd].
  destruct (br_session br d); [|done]. destruct (br_input_delay br d); [|done]. cbv zeta.
  match goal with |- context [2 <=? ?x] => set (v := x) end. by destruct (2 <=? v).
Qed.
Lemma kp_reset : ok (put rnet_sched_reset_session).
Proof.
  apply kp_put. intros s [H1 H2 H3 [A1 A2] H5].
  split; [split|done|split|split|]; cbn; done || lia.
Qed.

(** ** Any sequence of calls *)

Inductive sched_event :=
| SePreAdmit (sim wire : Z) (st : RNetSessionStats)
| SeMiss (slot sim wire : Z) (st : RNetSessionStats) (pred : Z)
| SeHit
| SePost (any_invent : bool)
| SeMispredict (age : Z)
| SeBoundary
| SeCatchup
| SeSync
| SeReset
| SeClear
(** The driver's side moves on. *)
| SeSide (d : D).
Definition sched_step (e : sched_event) : M (Sched * D) unit :=
  match e with
  | SePreAdmit sim wire st => do _ <- rnet_sched_pre_admit br sim wire st; ret tt
  | SeMiss slot sim wire st pred => do _ <- rnet_sched_on_remote_miss br slot sim wire st pred; ret tt
  | SeHit => rnet_sched_note_remote_hit br
  | SePost b => rnet_sched_post_admit br b
  | SeMispredict age => rnet_sched_note_mispredict br age
  | SeBoundary => rnet_sched_note_episode_boundary br
  | SeCatchup => rnet_sched_arm_absurd_invent_catchup br
  | SeSync => rnet_sched_sync_delay_from_session br
  | SeReset => put rnet_sched_reset_session
  | SeClear => put rnet_sched_clear_admit_stall
  | SeSide d => modify (fun x => (fst x, d))
  end.
Lemma kp_side_moves (d : D) : ok (modify (fun x : Sched * D => (fst x, d))).
Proof. intros x Hx. exact Hx. Qed.
Hint Resolve kp_post kp_sync kp_reset kp_side_moves : stable.
Lemma kp_step e : ok (sched_step e).
Proof. unfold sched_step. stable_tac. Qed.
End Kept.

Lemma zero_ok e : sched_ok (zero_sched e).
Proof. split; [split|split|split|split|]; cbn; done || lia. Qed.

(** C32. The scheduler's numbers stay bounded: from the start of the process,
    through any sequence of calls and resets and whatever the driver's side
    does in between, the tick averages stay below 251 ms, the pacing debt at
    most 750 ms, the streaks below their limits, the transit estimate at most
    12 ticks, the last proposed delay at most 16, and the stall tag within its
    80-byte buffer - in spite of the 32-bit additions that may wrap. *)
Theorem sched_state_bounded {D : Type} (br : RNetSchedBridge D) (env : SchedEnv) (evs : list sched_event) (d : D) :
  wp (each evs (sched_step br)) (fun _ x => sched_ok (fst x)) (zero_sched env, d).
Proof.
  assert (stable (@kept D) (each evs (sched_step br))) as H; [|exact (H (zero_sched env, d) (zero_ok env))].
  apply stable_each; [apply _|]. intros e. apply kp_step.
Qed.
