(* ===== verification/SchedWait.v ===== *)
(** * The frame scheduler: no missing row is waited for forever

    The wait for a missing row through the calls the driver makes while it
    waits: the stamps that time it survive all of them, so that the third ask
    at the latest is answered. *)

From stdpp Require Import base list numbers list_numbers strings.
From S2P Require Import Prelude StateM Protocol Config Rings CtrlQueue Rollback Session SessionState SessionMain SessionProofs SessionStats DriverData Driver DriverEpisode DriverWire DriverMain DriverFrame DriverDemo SchedData Sched SchedProofs SchedFrames SchedBounds.

(** ** The driver's bridge *)

(** Reading the host's clock, whatever it does to the host, changes nothing
    the scheduler reads of the driver. *)
Lemma rb_clock_only {H Sc : Type} `{RbHost H} `{SchedOps Sc} hold : clock_only (rb_bridge hold : RNetSchedBridge (RbState H Sc)).
Proof.
  intros d. unfold rb_bridge. cbn [gt_now_ms snd]. unfold rb_now, hostm.
  by destruct (host_now_ms (r_host d)).
Qed.

(** ** The stamps survive every call for the same tick *)

Record still (slot wire : Z) (g g' : SchedGrace) : Prop := {
  st_lens : lens g -> lens g';
  st_miss : gr_miss_wire g = wire -> gr_miss_wire g' = wire /\ gr_miss_t0 g' = gr_miss_t0 g;
  st_slot : lens g -> rd 0 (gr_wire g) slot = wire ->
    rd 0 (gr_wire g') slot = wire /\ rd 0 (gr_t0 g') slot = rd 0 (gr_t0 g) slot
}.
#[export] Instance still_pre slot wire : PreOrder (still slot wire).
Proof.
  split; [by split|]. intros g1 g2 g3 [A1 A2 A3] [B1 B2 B3]. split; [auto| |].
  - intros E. destruct (A2 E) as [E1 <-]. auto.
  - intros L E. destruct (A3 L E) as [E1 <-]. auto.
Qed.
Definition still_sc {D} (slot wire : Z) (a b : Sched * D) : Prop := still slot wire (sc_grace (fst a)) (sc_grace (fst b)).
#[export] Instance still_sc_pre {D} slot wire : PreOrder (@still_sc D slot wire).
Proof. split; [intros a; apply (reflexivity (R := still slot wire))|]. intros a b c. apply (transitivity (R := still slot wire)). Qed.

Lemma still_expire slot wire s now c g : still slot wire g (grace_expire s now c g).
Proof. split; [apply expire_lens|..]; unfold grace_expire; cbv zeta; repeat case_match; done. Qed.

(** A grace is opened only where the one before it was for another tick. *)
Lemma still_open slot wire s now g :
  0 <= slot -> 0 <= s -> rd 0 (gr_wire g) s <> wire -> still slot wire g (grace_open s wire now g).
Proof.
  intros Hslot Hs Hne. split; [apply open_lens|unfold grace_open; cbv zeta; repeat case_match; done|].
  intros _ E. assert (s <> slot) by congruence. unfold grace_open. cbv zeta.
  repeat case_match; cbn -[rd]; by rewrite !rd_wr_ne.
Qed.

Section Still.
Context {D : Type} (br : RNetSchedBridge D) (slot wire : Z) (Hslot : 0 <= slot).
Notation ok m := (stable (@still_sc D slot wire) m).

Lemma sl_sc {A} (f : Sched -> A) : ok (sc f).
Proof using. intros x. reflexivity. Qed.
Lemma sl_side {A} (f : D -> A) : ok (side f).
Proof using. intros x. reflexivity. Qed.
Lemma sl_call {A} (m : M D A) : ok (call m).
Proof using. intros [s d]. unfold call, still_sc. cbn. by destruct (m d). Qed.
Lemma sl_now : ok (sched_mono_ms br).
Proof using. apply sl_call. Qed.
Lemma sl_session {A} (x : A) f : ok (on_session br x f).
Proof using. intros [s d]. unfold on_session, still_sc. cbn. destruct (br_session br d) as [ss|]; [|done]. by destruct (f ss). Qed.
Lemma sl_put f : (forall s, sc_grace (f s) = sc_grace s) -> ok (put f).
Proof using. intros Hf [s d]. unfold still_sc. cbn. by rewrite Hf. Qed.
Lemma sl_grace f : (forall g, still slot wire g (f g)) -> ok (put (on_sc_grace f)).
Proof using. intros Hf [s d]. exact (Hf (sc_grace s)). Qed.
Lemma sl_misc v : ok (put (on_sc_grace (set_gr_off_until v))) /\ ok (put (on_sc_grace (set_gr_cw_wire v))) /\
  ok (put (on_sc_grace (set_gr_gap1_wait_wire v))) /\ ok (put (on_sc_grace (set_gr_gap1_grace_wire v))).
Proof using. split_and!; by apply sl_grace. Qed.
Hint Resolve sl_sc sl_side sl_call sl_now sl_session : stable.
Hint Extern 2 (stable _ (put _)) => apply sl_put; intros; repeat case_match; reflexivity : stable.
Hint Extern 2 (stable _ (put (on_sc_grace _))) => apply sl_misc : stable.

(** *** The calls that do not time the wait *)

Lemma sl_sets tag : ok (rnet_sched_set_admit_stall tag : M (Sched * D) unit).
Proof using. by apply sl_put. Qed.
Lemma sl_tip h : ok (np_tip_track_advance br h).
Proof using. unfold np_tip_track_advance. stable_tac. Qed.
Lemma sl_tip_age : ok (np_tip_age_ms br).
Proof using. unfold np_tip_age_ms. stable_tac. Qed.
Hint Resolve sl_sets sl_tip sl_tip_age : stable.
Lemma sl_gap1_cap : ok (np_gap1_grace_cap_ms br).
Proof using. unfold np_gap1_grace_cap_ms. cbv zeta. stable_tac. Qed.
Lemma sl_expire_invent : ok (np_gap1_note_expire_invent br).
Proof using. unfold np_gap1_note_expire_invent. stable_tac. Qed.
Lemma sl_catchup now : ok (absurd_invent_catchup_active now : M (Sched * D) bool).
Proof using. unfold absurd_invent_catchup_active. stable_tac. Qed.
Lemma sl_late age : ok (np_timesync_note_late br age).
Proof using. unfold np_timesync_note_late. stable_tac. Qed.
Lemma sl_ahead lead : ok (np_timesync_note_ahead_skew br lead).
Proof using. unfold np_timesync_note_ahead_skew. cbv zeta. stable_tac. Qed.
Lemma sl_throttle w : ok (np_timesync_throttle br w).
Proof using. unfold np_timesync_throttle. stable_tac. Qed.
Lemma sl_window now : ok (np_scorecard_window_reset br now).
Proof using. unfold np_scorecard_window_reset. stable_tac. Qed.
Lemma sl_note_miss w : ok (np_scorecard_note_miss br w).
Proof using. unfold np_scorecard_note_miss. stable_tac. Qed.
Hint Resolve sl_gap1_cap sl_expire_invent sl_catchup sl_late sl_ahead sl_throttle sl_window sl_note_miss : stable.
Lemma sl_sample sim w st : ok (sample_tick br sim w st).
Proof using. unfold sample_tick. cbv zeta. stable_tac. Qed.
Hint Resolve sl_sample : stable.
Lemma sl_scorecard now sim w st : ok (np_scorecard_sample br now sim w st).
Proof using. unfold np_scorecard_sample. stable_tac. Qed.
Lemma sl_freeze : ok (np_pcap_freeze_enter br).
Proof using. unfold np_pcap_freeze_enter, np_adapt_delay_on_pcap_enter. stable_tac. Qed.
Lemma sl_auto now : ok (np_auto_delay_tick br now).
Proof using. unfold np_auto_delay_tick. cbv zeta. stable_tac. Qed.
Lemma sl_hole w st : ok (np_diag_wire_hole br w st).
Proof using. unfold np_diag_wire_hole. stable_tac. Qed.
Lemma sl_cushion now st : ok (cushion_check br now st).
Proof using. unfold cushion_check. cbv zeta. stable_tac. Qed.
Hint Resolve sl_scorecard sl_freeze sl_auto sl_hole sl_cushion : stable.
Lemma sl_pre sim w st : ok (rnet_sched_pre_admit br sim w st).
Proof using. unfold rnet_sched_pre_admit, pre_admit_open. stable_tac. Qed.
Lemma sl_stall_for w st why : ok (stall_for br w st why).
Proof using. unfold stall_for. stable_tac. Qed.
Hint Resolve sl_pre sl_stall_for : stable.
Lemma sl_gates w st pred : ok (miss_gates br w st pred).
Proof using. unfold miss_gates. cbv zeta. stable_tac. Qed.
Lemma sl_patience st : ok (gap1_patience br st).
Proof using. unfold gap1_patience. cbv zeta. stable_tac. Qed.
Hint Resolve sl_gates sl_patience : stable.

(** *** An ask for a seat of the same tick *)

Lemma sl_grace_stall s cap c : ok (np_invent_grace_stall_ex br s wire cap c).
Proof using Hslot.
  intros [x d]. assert (wp (np_invent_grace_stall_ex br s wire cap c) (fun _ y => still_sc slot wire (x, d) y) (x, d)) as H; [|exact H].
  unfold np_invent_grace_stall_ex. apply wp_sc. destruct (_ || _) eqn:Eg; [by apply wp_ret|].
  assert (0 <= s) as Hs by (apply orb_false_iff in Eg as [Eg _]; apply orb_false_iff in Eg as [_ Eg]; lia). clear Eg.
  apply wp_now, wp_sc. cbn [fst snd]. destruct (before _ _); [by apply wp_ret|]. apply wp_put. cbn [fst snd].
  destruct (rd 0 (gr_wire (sc_grace x)) s =? wire) eqn:Ew; cbn [negb].
  - apply wp_sc, wp_side. destruct (_ <? _); [by apply wp_ret|]. apply wp_put, wp_ret. unfold still_sc. cbn.
    etransitivity; [|apply still_expire]. by split.
  - apply wp_put, wp_ret. unfold still_sc. cbn. bool_prop.
    etransitivity; [|apply still_open]; [by split|done..].
Qed.
Lemma sl_stamp now : ok (put (on_sc_grace (fun g => if gr_miss_wire g =? wire then g
                             else set_gr_miss_t0 now (set_gr_miss_wire wire g)))).
Proof using.
  apply sl_grace. intros g. destruct (gr_miss_wire g =? wire) eqn:E; [done|]. bool_prop. by split.
Qed.
Hint Resolve sl_grace_stall sl_stamp : stable.
Lemma sl_wait s st : ok (wait_or_invent br s wire st).
Proof using Hslot. unfold wait_or_invent, wait_tip_stale, wait_gap1, wait_runway. cbv zeta. stable_tac. Qed.
Hint Resolve sl_wait : stable.
Lemma sl_miss s sim st pred : ok (rnet_sched_on_remote_miss br s sim wire st pred).
Proof using Hslot. unfold rnet_sched_on_remote_miss. stable_tac. Qed.

(** *** Everything the driver does while it waits for a row of [wire] *)

Definition same_tick (e : @sched_event D) : Prop :=
  match e with SeMiss _ _ w _ _ => w = wire | _ => True end.
Lemma sl_hit : ok (rnet_sched_note_remote_hit br).
Proof using. unfold rnet_sched_note_remote_hit. stable_tac. Qed.
Lemma sl_sync : ok (rnet_sched_sync_delay_from_session br).
Proof using.
  intros [s d]. unfold rnet_sched_sync_delay_from_session. cbn [fst snd].
  repeat case_match; done.
Qed.
Lemma sl_side_moves (d : D) : ok (modify (fun x : Sched * D => (fst x, d))).
Proof using. intros x. apply (reflexivity (R := still slot wire)). Qed.
Hint Resolve sl_miss sl_hit sl_sync sl_side_moves : stable.
Lemma sl_step e : same_tick e -> ok (sched_step br e).
Proof using Hslot.
  destruct e; intros He; cbn in He; subst; unfold sched_step, rnet_sched_post_admit, rnet_sched_note_mispredict,
    rnet_sched_note_episode_boundary, rnet_sched_arm_absurd_invent_catchup; stable_tac.
Qed.
Lemma sl_steps es x : Forall same_tick es -> still_sc slot wire x (snd (each es (sched_step br) x)).
Proof using Hslot.
  intros Hes. apply (wp_each (fun y => still_sc slot wire x y)); [reflexivity|]. intros e y He Hy.
  unfold wp. etransitivity; [exact Hy|]. apply sl_step. by eapply Forall_forall in Hes.
Qed.
End Still.

(** ** Three asks *)

(** An ask for the row: the tick, the session's statistics and the prediction
    budget it is made with, and the times between which the clock is read. *)
Record row_ask := mkAsk { ak_sim : Z; ak_stats : RNetSessionStats; ak_pred : Z; ak_from : Z; ak_to : Z }.

Section Asks.
Context {D : Type} (br : RNetSchedBridge D) (Hclock : clock_only br) (slot wire : Z) (Hslot : 0 <= slot < 8).

Definition ask_row (k : row_ask) : M (Sched * D) (bool * option string) :=
  rnet_sched_on_remote_miss br slot (ak_sim k) wire (ak_stats k) (ak_pred k).
(** The clock shows the times of the ask, and at none of them do the gates
    forbid a prediction. *)
Definition fair_ask (k : row_ask) (x : Sched * D) : Prop :=
  clock_within br 5 (ak_from k) (ak_to k) (snd x) /\
  forall T, ak_from k <= T <= ak_to k -> may_invent br (u32 T) (fst x) (snd x) wire (ak_stats k) (ak_pred k).
Definition waits (k : row_ask) (x : Sched * D) : Prop := fst (fst (ask_row k x)) = true.
(** The state after the ask and the calls that follow it. *)
Definition after (k : row_ask) (es : list sched_event) (x : Sched * D) : Sched * D :=
  snd (each es (sched_step br) (snd (ask_row k x))).
(** The miss of [wire] is stamped with a time in [lo..hi]. *)
Definition miss_stamped (lo hi : Z) (g : SchedGrace) : Prop :=
  gr_miss_wire g = wire /\ exists T, lo <= T <= hi /\ gr_miss_t0 g = u32 T.

Lemma ask_goes_on k x : lens (sc_grace (fst x)) -> fair_ask k x -> waits k x ->
  wait_goes_on br (ak_from k) (ak_to k) slot wire (fst x) (snd x) (fst (snd (ask_row k x))).
Proof using Hclock Hslot.
  destruct x as [s d]. intros HL [Hin Hm] Hw.
  by apply (miss_spec br Hclock slot (ak_sim k) wire (ak_stats k) (ak_pred k) s d (ak_from k) (ak_to k) Hslot HL Hin).
Qed.
Lemma after_lens k es x : Forall (same_tick wire) es -> lens (sc_grace (fst x)) -> lens (sc_grace (fst (after k es x))).
Proof using Hslot.
  intros Hes HL. apply (sl_steps br slot wire (proj1 Hslot) es _ Hes).
  by apply (sl_miss br slot wire (proj1 Hslot) slot (ak_sim k) (ak_stats k) (ak_pred k) x).
Qed.

(** The first ask stamps the miss. *)
Lemma first_stamps k es x lo :
  Forall (same_tick wire) es -> lens (sc_grace (fst x)) -> fair_ask k x -> waits k x -> lo <= ak_from k ->
  (gr_miss_wire (sc_grace (fst x)) = wire -> miss_stamped lo (ak_to k) (sc_grace (fst x))) ->
  miss_stamped lo (ak_to k) (sc_grace (fst (after k es x))).
Proof using Hclock Hslot.
  intros Hes HL Hf Hw Hlo H0. destruct (ask_goes_on k x HL Hf Hw) as (_ & E1 & E2 & _).
  destruct (st_miss _ _ _ _ (sl_steps br slot wire (proj1 Hslot) es (snd (ask_row k x)) Hes) E1) as [E3 E4].
  split; [exact E3|]. unfold after. rewrite E4. destruct (gr_miss_wire (sc_grace (fst x)) =? wire) eqn:E; bool_prop.
  - rewrite E2. by apply H0.
  - destruct E2 as (T & HT & ->). exists T. split; [lia|done].
Qed.

(** An ask for a miss that is old enough waits for the grace of the seat only. *)
Lemma old_miss k x lo hi :
  lens (sc_grace (fst x)) -> fair_ask k x -> waits k x -> miss_stamped lo hi (sc_grace (fst x)) ->
  hi + Z.max 400 (gt_rtt_ms br (snd x)) <= ak_from k -> ak_to k < lo + 4294967296 ->
  slot_grace (ak_from k) (ak_to k) slot wire (sc_grace (fst (snd (ask_row k x)))) /\
  ~ slot_spent (ak_from k) (ak_to k) slot wire (sc_grace (fst x)).
Proof using Hclock Hslot.
  intros HL Hf Hw [E (T0 & HT0 & E0)] Hold Hnew. destruct (ask_goes_on k x HL Hf Hw) as (_ & _ & E2 & H).
  rewrite E, Z.eqb_refl in E2. apply H. intros T HT. rewrite E2, E0. unfold u32. rewrite Zminus_mod_idemp_r, Z.mod_small; lia.
Qed.

(** A grace seen open at the second ask is spent at the third. *)
Lemma grace_spent a b a' b' g :
  slot_grace a b slot wire g -> b + 80 <= a' -> b' < a + 4294967296 - 80 -> slot_spent a' b' slot wire g.
Proof using.
  intros [E (T & HT & Hy)] H1 H2. split; [done|]. intros T' HT'. unfold u32 in *.
  set (t0 := rd 0 (gr_t0 g) slot) in *. pose proof (Z.mod_pos_bound (T - t0) 4294967296 eq_refl).
  replace (T' - t0) with ((T - t0) + (T' - T)) by lia. rewrite <-Zplus_mod_idemp_l, Z.mod_small; lia.
Qed.

Lemma third_ask_ends k1 k2 k3 es1 es2 x1 :
  let x2 := after k1 es1 x1 in let x3 := after k2 es2 x2 in
  lens (sc_grace (fst x1)) -> Forall (same_tick wire) es1 -> Forall (same_tick wire) es2 ->
  fair_ask k1 x1 -> fair_ask k2 x2 -> fair_ask k3 x3 ->
  (gr_miss_wire (sc_grace (fst x1)) = wire -> miss_stamped (ak_to k3 - 4294967295) (ak_to k1) (sc_grace (fst x1))) ->
  ak_to k1 + Z.max 400 (gt_rtt_ms br (snd x2)) <= ak_from k2 ->
  ak_to k1 + Z.max 400 (gt_rtt_ms br (snd x3)) <= ak_from k3 ->
  ak_to k2 + 80 <= ak_from k3 -> ak_to k3 - ak_from k1 < 4294967296 - 80 ->
  ~ (waits k1 x1 /\ waits k2 x2 /\ waits k3 x3).
Proof using Hclock Hslot.
  intros x2 x3 HL Hes1 Hes2 Hf1 Hf2 Hf3 H0 Ho2 Ho3 Hg Hspan (W1 & W2 & W3).
  assert (ak_from k1 <= ak_to k1 /\ ak_from k2 <= ak_to k2 /\ ak_from k3 <= ak_to k3) as (O1 & O2 & O3).
  { destruct Hf1 as [[(? & ? & _) _] _], Hf2 as [[(? & ? & _) _] _], Hf3 as [[(? & ? & _) _] _]. lia. }
  assert (lens (sc_grace (fst x2))) as HL2 by by apply after_lens.
  assert (lens (sc_grace (fst x3))) as HL3 by by apply after_lens.
  pose proof (first_stamps k1 es1 x1 (ak_to k3 - 4294967295) Hes1 HL Hf1 W1 ltac:(lia) H0) as S2. fold x2 in S2.
  pose proof (old_miss k2 x2 _ _ HL2 Hf2 W2 S2 Ho2 ltac:(lia)) as [G2 _].
  pose proof (sl_miss br slot wire (proj1 Hslot) slot (ak_sim k2) (ak_stats k2) (ak_pred k2) x2) as Ka.
  pose proof (sl_steps br slot wire (proj1 Hslot) es2 (snd (ask_row k2 x2)) Hes2) as Kb.
  assert (miss_stamped (ak_to k3 - 4294967295) (ak_to k1) (sc_grace (fst x3))) as S3.
  { destruct S2 as [E (T & HT & ET)]. destruct (st_miss _ _ _ _ (transitivity Ka Kb) E) as [E1 E2].
    split; [exact E1|]. exists T. split; [done|]. unfold x3, after. by rewrite E2. }
  destruct (old_miss k3 x3 _ _ HL3 Hf3 W3 S3 Ho3 ltac:(lia)) as [_ Hno]. apply Hno.
  destruct (st_slot _ _ _ _ Kb (st_lens _ _ _ _ Ka HL2) (proj1 G2)) as [E1 E2].
  apply (grace_spent (ak_from k2) (ak_to k2)); [|done|lia].
  destruct G2 as [_ (T & HT & Hy)]. split; [exact E1|]. exists T. split; [done|]. unfold x3, after. by rewrite E2.
Qed.
End Asks.

(** ** The driver's wait *)


(** A match on a host whose clock shows [t]. *)
Definition match_at_time (t : Z) : RbState toy_host Sched :=
  mkRbState (r_drv sched_match) (mkToy 0 [] t []) (r_sched sched_match).
Definition wait_ask (t : Z) : row_ask := mkAsk 10 (tip_stats 10 12) 8 t t.
Definition wait_calls (t : Z) : list (@sched_event (RbState toy_host Sched)) :=
  [SeSide (match_at_time t); SePreAdmit 10 12 (tip_stats 10 12)].

(** The driver's bridge on that host, and the states of the three asks. *)
Definition wait_hold : Z -> Z -> M (RbState toy_host Sched) (option string) := rb_gate_pre_admit_hold.
#[local] Notation wait_bridge := (rb_bridge wait_hold).
#[local] Notation wait_start := (snd (each [] (sched_step wait_bridge) (zero_sched plain_env, match_at_time 1000))).
#[local] Notation wait_second := (after wait_bridge 1 12 (wait_ask 1000) (wait_calls 1400) wait_start).
#[local] Notation wait_third := (after wait_bridge 1 12 (wait_ask 1400) (wait_calls 1480) wait_second).
Lemma wait_fair t x :
  fst (gt_now_ms wait_bridge (snd x)) = t -> u32 t = t -> snd (gt_now_ms wait_bridge (snd x)) = snd x ->
  may_invent wait_bridge t (fst x) (snd x) 12 (tip_stats 10 12) 8 -> fair_ask wait_bridge 12 (wait_ask t) x.
Proof.
  intros E1 E2 E3 Hm. split.
  - assert (exists T, t <= T <= t /\ fst (gt_now_ms wait_bridge (snd x)) = u32 T) as Ht.
    { exists t. rewrite E2. split; [lia|done]. }
    cbn [clock_within wait_ask ak_from ak_to]. by rewrite !E3.
  - cbn. intros T HT. replace T with t by lia. by rewrite E2.
Qed.

