(* ===== verification/SchedDelay.v ===== *)
(** * The frame scheduler: pacing and the delay controller

    A tick is held back for pacing by at most 6 ms, and a change of the input
    delay is proposed only for a reason the arrivals gave. *)

From stdpp Require Import base list numbers list_numbers strings.
From S2P Require Import Prelude StateM Protocol Config Rings CtrlQueue Rollback Session SessionState SessionMain SessionProofs SessionStats DriverData SchedData Sched SchedProofs SchedBounds.

(** ** Pacing *)

(** The tick last seen and the deadline of its stall. *)
Definition pace (s : Sched) : Z * Z := (ts_last_wire (sc_ts s), ts_stall_until (sc_ts s)).
Definition pace_same {D} (a b : Sched * D) : Prop := pace (fst b) = pace (fst a).
#[export] Instance pace_pre {D} : PreOrder (@pace_same D).
Proof. split; [done|]. unfold pace_same. intros a b c H1 H2. congruence. Qed.

Section Pace.
Context {D : Type} (br : RNetSchedBridge D).
Notation ok m := (stable (@pace_same D) m).

Lemma pc_sc {A} (f : Sched -> A) : ok (sc f).
Proof. by intros x. Qed.
Lemma pc_side {A} (f : D -> A) : ok (side f).
Proof. by intros x. Qed.
Lemma pc_now : ok (sched_mono_ms br).
Proof. intros [s d]. unfold sched_mono_ms, call. cbn. by destruct (gt_now_ms br d). Qed.
Lemma pc_session {A} (x : A) f : ok (on_session br x f).
Proof. intros [s d]. unfold on_session. cbn. destruct (br_session br d) as [ss|]; [|done]. by destruct (f ss). Qed.
Lemma pc_put f : (forall s, pace (f s) = pace s) -> ok (put f).
Proof. intros Hf [s d]. exact (Hf s). Qed.
Lemma pc_tc f : ok (put (on_sc_tc f)).
Proof. by apply pc_put. Qed.
Lemma pc_ad f : ok (put (on_sc_ad f)).
Proof. by apply pc_put. Qed.
Lemma pc_score f : ok (put (on_sc_score f)).
Proof. by apply pc_put. Qed.
Lemma pc_cushion f : ok (put (on_sc_cushion f)).
Proof. by apply pc_put. Qed.
Lemma pc_streak v : ok (put (on_sc_ts (set_ts_ahead_streak v))).
Proof. by apply pc_put. Qed.
Lemma pc_more : ok (put (on_sc_ts (fun t => set_ts_ahead_streak (u32 (ts_ahead_streak t + 1)) t))).
Proof. by apply pc_put. Qed.
Lemma pc_owe add : ok (put (on_sc_ts (ts_owe add))).
Proof. by apply pc_put. Qed.
Hint Resolve pc_sc pc_side pc_now pc_session pc_tc pc_ad pc_score pc_cushion pc_streak pc_more pc_owe : stable.
Lemma pc_ahead lead : ok (np_timesync_note_ahead_skew br lead).
Proof. unfold np_timesync_note_ahead_skew. cbv zeta. stable_tac. Qed.
Lemma pc_auto now : ok (np_auto_delay_tick br now).
Proof. unfold np_auto_delay_tick. cbv zeta. stable_tac. Qed.
Lemma pc_scorecard now sim w st : ok (np_scorecard_sample br now sim w st).
Proof. unfold np_scorecard_sample, sample_tick, np_scorecard_window_reset. cbv zeta. stable_tac. Qed.
Lemma pc_cushion_check now st : ok (cushion_check br now st).
Proof. unfold cushion_check, absurd_invent_catchup_active. cbv zeta. stable_tac. Qed.
Hint Resolve pc_ahead pc_auto pc_scorecard pc_cushion_check : stable.

(** What follows the throttle in a call that does not hold the tick. *)
Definition after_throttle (sim w : Z) (st : RNetSessionStats) (paced : bool) : M (Sched * D) bool :=
  if paced then
    do! rnet_sched_set_admit_stall "timesync_pace";
    do _ <- sched_mono_ms br;
    ret true
  else
    do now <- sched_mono_ms br;
    do! put (on_sc_tc (np_timesync_sample_lead (ss_remote_lead st)));
    do! np_timesync_note_ahead_skew br (ss_remote_lead st);
    do! put (on_sc_tc (np_phase_ctrl_maybe_log now));
    do! np_auto_delay_tick br now;
    do! np_scorecard_sample br now sim w st;
    do rebuilding <- sc (fun s => cu_rebuild (sc_cushion s));
    do active <- side (gt_episode_active br);
    do! when (rebuilding && negb active) (cushion_check br now st);
    ret false.
Lemma pc_after sim w st paced : ok (after_throttle sim w st paced).
Proof. pose proof (pc_put (set_sc_stall_tag (String.substring 0 79 "timesync_pace")) ltac:(done)).
  unfold after_throttle, rnet_sched_set_admit_stall. stable_tac.
Qed.
Lemma after_answer sim w st paced x : fst (after_throttle sim w st paced x) = paced.
Proof.
  destruct paced.
  - assert (wp (after_throttle sim w st true) (fun a _ => a = true) x) as H; [|exact H].
    unfold after_throttle. apply wp_skip. intros _ y. apply wp_skip. intros _ z. done.
  - assert (wp (after_throttle sim w st false) (fun a _ => a = false) x) as H; [|exact H].
    unfold after_throttle. repeat (apply wp_skip; intros ? ?). done.
Qed.

(** A deadline at most 6 ms ahead of the clock. *)
Definition short_deadline (now until : Z) : Prop :=
  until = 0 \/ exists k, -2147483648 < k <= 6 /\ until = u32 (now + k).
Lemma s32_small x y : -2147483648 <= y < 2147483648 -> x mod 4294967296 = y mod 4294967296 -> s32 x = y.
Proof.
  intros Hy E. unfold s32, u32. rewrite E. destruct (Z.le_gt_cases 0 y).
  - rewrite Z.mod_small by lia. destruct (Z.ltb_spec y 2147483648); lia.
  - replace (y mod 4294967296) with (y + 4294967296).
    + destruct (Z.ltb_spec (y + 4294967296) 2147483648); lia.
    + symmetry. rewrite <-(Z.mod_small (y + 4294967296) 4294967296) by lia. rewrite <-Zplus_mod_idemp_r, Z_mod_same_full, Z.add_0_r. done.
Qed.
Lemma s32_deadline later now k : -2147483648 <= later - now - k < 2147483648 ->
  s32 (later - u32 (now + k)) = later - now - k.
Proof. intros H. apply s32_small; [done|]. unfold u32. rewrite Zminus_mod_idemp_r. f_equal. lia. Qed.

Lemma deadline_ahead now until : short_deadline now until -> before now until = true ->
  exists k, 0 < k <= 6 /\ until = u32 (now + k).
Proof.
  intros [->|(k & Hk & ->)]; [done|]. unfold before. rewrite andb_true_iff. intros [_ H].
  rewrite s32_deadline in H by lia. exists k. split; [|done]. bool_prop. lia.
Qed.
Lemma deadline_over now later k : 0 < k <= 6 -> 6 <= later - now < 2147483648 -> before later (u32 (now + k)) = false.
Proof.
  intros Hk Hl. unfold before. rewrite s32_deadline by lia. apply andb_false_iff. right. apply Z.ltb_ge. lia.
Qed.

(** After the throttle has looked at a tick, its deadline is the tick's own. *)
Lemma throttle_sees w s d :
  np_timesync_enabled (sc_env s) = true -> gt_media_active br d = false ->
  let now := fst (gt_now_ms br d) in short_deadline now (ts_stall_until (sc_ts s)) ->
  wp (np_timesync_throttle br w) (fun _ x =>
    sc_env (fst x) = sc_env s /\ ts_last_wire (sc_ts (fst x)) = w /\
    (ts_stall_until (sc_ts (fst x)) = 0 \/
     exists k, 0 < k <= 6 /\ ts_stall_until (sc_ts (fst x)) = u32 (now + k))) (s, d).
Proof.
  intros He Hm. cbv zeta. intros Hd. unfold np_timesync_throttle. apply wp_sc. cbn [fst]. rewrite He. cbn [negb].
  apply wp_side. cbn [snd]. rewrite Hm. apply wp_now, wp_put, wp_sc. cbn [fst snd].
  set (now := fst (gt_now_ms br d)) in *. set (t := ts_new_wire w now (sc_ts s)).
  assert (ts_last_wire t = w /\ short_deadline now (ts_stall_until t)) as [Ew Hd'].
  { unfold t, ts_new_wire. destruct (w =? _) eqn:E; [bool_prop; done|]. cbv zeta.
    destruct (nz _ && _); cbn [ts_debt_ms set_ts_last_wire_ms set_ts_last_wire set_ts_tick_ema_ms];
      destruct (0 <? ts_debt_ms (sc_ts s)) eqn:Ed; cbn [negb]; (split; [done|]); cbn [ts_stall_until set_ts_stall_logged set_ts_stall_until set_ts_debt_ms set_ts_last_wire set_ts_last_wire_ms set_ts_tick_ema_ms]; try done.
    all: right; exists (Z.min 6 (ts_debt_ms (sc_ts s))); split; [bool_prop; lia|done]. }
  change (sc_ts (on_sc_ts (ts_new_wire w now) s)) with t. destruct (before now (ts_stall_until t)) eqn:Eb.
  - apply wp_ret. split; [done|]. split; [exact Ew|]. right. by apply deadline_ahead.
  - apply wp_put, wp_ret. split; [done|]. split; [exact Ew|]. by left.
Qed.
(** The same tick, 6 ms later. *)
Lemma throttle_lets w s d now :
  ts_last_wire (sc_ts s) = w ->
  ts_stall_until (sc_ts s) = 0 \/ (exists k, 0 < k <= 6 /\ ts_stall_until (sc_ts s) = u32 (now + k)) ->
  6 <= fst (gt_now_ms br d) - now < 2147483648 ->
  wp (np_timesync_throttle br w) (fun held _ => held = false) (s, d).
Proof.
  intros Ew Hd Ht. unfold np_timesync_throttle. apply wp_sc. destruct (negb _); [done|]. apply wp_side.
  destruct (gt_media_active br _); [by apply wp_put|]. apply wp_now, wp_put, wp_sc. cbn [fst snd].
  assert (ts_new_wire w (fst (gt_now_ms br d)) (sc_ts s) = sc_ts s) as En by (unfold ts_new_wire; by rewrite Ew, Z.eqb_refl).
  change (sc_ts (on_sc_ts ?f s)) with (f (sc_ts s)). cbn [sc_ts on_sc_ts set_sc_ts]. rewrite En.
  assert (before (fst (gt_now_ms br d)) (ts_stall_until (sc_ts s)) = false) as ->; [|by apply wp_put].
  destruct Hd as [->|(k & Hk & ->)]; [done|]. by apply deadline_over.
Qed.
End Pace.

Lemma open_runs {D} (br : RNetSchedBridge D) sim w st s (d : D) Q :
  (gt_episode_active br d = false -> wp (np_timesync_throttle br w) (fun p => wp (after_throttle br sim w st p) Q) (s, d)) ->
  (gt_episode_active br d = true -> wp (after_throttle br sim w st false) Q (s, d)) ->
  wp (pre_admit_open br sim w st) Q (s, d).
Proof.
  intros H1 H2. unfold pre_admit_open. apply wp_side, wp_bind. cbn [snd]. destruct (gt_episode_active br d); [apply wp_ret|]; auto.
Qed.

(** Pacing holds a tick back for less than 6 ms: a tick that the scheduler
    looked at outside an episode at [t1] and that passes the hold gate is not
    held for pacing 6 ms later, whatever debt there is and whatever the
    driver's side did in between. *)
Theorem pacing_ends {D : Type} (br : RNetSchedBridge D) sim1 sim2 wire st1 st2 (s : Sched) (d1 d2 : D) :
  let t1 := fst (gt_now_ms br d1) in let t2 := fst (gt_now_ms br d2) in
  short_deadline t1 (ts_stall_until (sc_ts s)) -> 6 <= t2 - t1 < 2147483648 ->
  np_timesync_enabled (sc_env s) = true -> gt_episode_active br d1 = false -> gt_media_active br d1 = false ->
  let s1 := fst (snd (pre_admit_open br sim1 wire st1 (s, d1))) in
  fst (pre_admit_open br sim2 wire st2 (s1, d2)) = false.
Proof.
  cbv zeta. intros Hd Ht He Ha Hm. set (t1 := fst (gt_now_ms br d1)) in *.
  assert (wp (pre_admit_open br sim1 wire st1) (fun _ x => ts_last_wire (sc_ts (fst x)) = wire /\
    (ts_stall_until (sc_ts (fst x)) = 0 \/ exists k, 0 < k <= 6 /\ ts_stall_until (sc_ts (fst x)) = u32 (t1 + k))) (s, d1)) as H1.
  { apply open_runs; [intros _|congruence]. eapply wp_mono; [by apply throttle_sees|].
    intros p [s1 x1] (_ & Ew & Hu). eapply wp_mono; [apply (wp_stable pace_same), pc_after|].
    intros _ [s2 x2] E. unfold pace_same, pace in E. cbn [fst] in *. by injection E as -> ->. }
  unfold wp in H1. destruct (pre_admit_open br sim1 wire st1 (s, d1)) as [h [s1 x1]]. cbn [fst snd] in *.
  destruct H1 as [Ew Hu].
  assert (wp (pre_admit_open br sim2 wire st2) (fun held _ => held = false) (s1, d2)) as H2; [|exact H2].
  apply open_runs; intros _; [|apply after_answer].
  eapply wp_mono; [by apply (throttle_lets br wire s1 d2 t1)|]. intros p x ->. apply after_answer.
Qed.

(** ** The delay controller *)

(** What the arrivals of a window say for a change of the delay from [d]. *)
Definition delay_floor (turn : Z) : Z := if nz turn then RB_FORCE_TURN_DELAY_FLOOR else RB_AUTO_DELAY_LOWER_FLOOR.
Definition rows_late (w : SchedArrival) : Prop := 20 < miss_per_mille w /\ 0 < ad_late_n w.
Definition rows_early (w : SchedArrival) (by_ticks : Z) : Prop :=
  miss_per_mille w < 1 /\ RB_AUTO_DELAY_LEAD_MARGIN + by_ticks <= ad_lead_min w.
Definition change_justified (s : Sched) (now d turn target : Z) : Prop :=
  let w := sc_ad s in
  target <> d /\ delay_floor turn <= target <= RB_ADAPT_DELAY_MAX /\
  (d < target -> d < delay_floor turn \/ (rows_late w /\ target <= d + 4)) /\
  (target < d -> (RB_ADAPT_DELAY_MAX < d \/ rows_early w (d - target)) /\ auto_delay_cooling s now = false).

Lemma target_justified w tick d turn :
  let target := auto_delay_target w tick d turn in
  delay_floor turn <= target <= RB_ADAPT_DELAY_MAX /\
  (d < target -> d < delay_floor turn \/ (rows_late w /\ target <= d + 4)) /\
  (target < d -> RB_ADAPT_DELAY_MAX < d \/ rows_early w (d - target)).
Proof.
  unfold auto_delay_target, rows_late, rows_early, delay_floor, RB_AUTO_DELAY_LEAD_MARGIN, RB_ADAPT_DELAY_MAX,
    RB_FORCE_TURN_DELAY_FLOOR, RB_AUTO_DELAY_LOWER_FLOOR, clamp. cbv zeta.
  destruct ((20 <? miss_per_mille w) && (0 <? ad_late_n w)) eqn:E1;
    [|destruct ((miss_per_mille w <? 1) && (2 <? ad_lead_min w)) eqn:E2];
    rewrite ?andb_true_iff, ?Z.ltb_lt in *; destruct (nz turn); repeat split; lia.
Qed.

(** Agreement keeps the target, or raises it to the last one below [d]. *)
Lemma agree_target target d a v : fst (auto_delay_agree target d a) = Some v ->
  v = target \/ (target < d /\ target <= v < d /\ v = ad_last_target a).
Proof.
  unfold auto_delay_agree. cbv zeta.
  match goal with |- context [if target <? d then ?x else ?y] => generalize (if target <? d then x else y) end. intros need.
  destruct (_ && _) eqn:E; [|destruct (negb _)]; cbn [fst]; destruct (_ <? need); intros [= <-]; auto.
  bool_prop. destruct (Z.max_spec target (ad_last_target a)) as [[? ->]|[? ->]]; [right; lia|by left].
Qed.

Lemma cooling_same s s' now :
  ad_last_change_ms (sc_ad s') = ad_last_change_ms (sc_ad s) -> pc_last_enter_ms (sc_pcap s') = pc_last_enter_ms (sc_pcap s) ->
  auto_delay_cooling s' now = auto_delay_cooling s now.
Proof. unfold auto_delay_cooling. by intros -> ->. Qed.
Lemma justified_agreed s now d turn target v :
  ad_ok (sc_ad s) -> target <> d -> delay_floor turn <= target <= RB_ADAPT_DELAY_MAX ->
  (d < target -> d < delay_floor turn \/ (rows_late (sc_ad s) /\ target <= d + 4)) ->
  (target < d -> RB_ADAPT_DELAY_MAX < d \/ rows_early (sc_ad s) (d - target)) ->
  v = target \/ (target < d /\ target <= v < d /\ v = ad_last_target (sc_ad s)) ->
  (v <? d) && auto_delay_cooling s now = false ->
  change_justified s now d turn v.
Proof.
  intros [_ Hl] Hne Hr Hup Hdown Hv Hc. unfold change_justified, rows_early in *. cbv zeta.
  assert (v < d -> auto_delay_cooling s now = false) as Hcool.
  { intros Hlt. rewrite (proj2 (Z.ltb_lt v d) Hlt) in Hc. exact Hc. }
  destruct Hv as [->|(H1 & H2 & H3)]; [split; [done|]; split; [done|]; split; [exact Hup|]; intros Hlt; split; auto|].
  split; [lia|]. split; [lia|]. split; [lia|]. intros _. split; [|apply Hcool; lia].
  destruct (Hdown H1) as [?|[? ?]]; [by left|right; split; [done|lia]].
Qed.

(** The delay is changed only for a reason: when the controller asks the
    session for another delay, this peer is seat 0, the new delay lies between
    the floor (3, or 6 behind a relay) and 16; it is higher only when the
    window had late rows - more than 2 % missing, some of which arrived late -
    and by at most 4, or when the delay was below the floor; and it is lower
    only when no row was missing and the earliest margin of the window stays at
    least 2 ticks (or the delay was above 16), and not within 30 s of the last
    change or freeze. Otherwise the driver's side is left alone. *)
Theorem delay_change_justified {D : Type} (br : RNetSchedBridge D) now (s : Sched) (d : D) :
  sched_ok s ->
  wp (np_auto_delay_tick br now) (fun _ x =>
    snd x = d \/
    exists ss target, br_session br d = Some ss /\ sched_local_slot br d = 0 /\
      change_justified s now (sched_delay br d) (br_force_turn br d) target /\
      snd x = br_put_session br (snd (rnet_session_request_delay_change target ss)) d) (s, d).
Proof.
  intros Hs. unfold np_auto_delay_tick. apply wp_sc. cbv zeta. apply wp_side. unfold id. cbn [fst snd].
  destruct (_ || _ || _ || _); [by left|]. apply wp_put, wp_side. cbn [fst snd].
  destruct (gt_media_active br d); [by left|]. apply wp_side. cbn [snd]. destruct (_ <? 120); [by left|].
  apply wp_put, wp_side. cbn [fst snd]. destruct (_ =? 0) eqn:Eh; cbn [negb]; [|by left]. apply Z.eqb_eq in Eh.
  apply wp_side. cbn [snd].
  match goal with |- context [auto_delay_target ?w ?t ?d ?f] =>
    pose proof (target_justified w t d f) as (J1 & J2 & J3); set (target := auto_delay_target w t d f) in * end.
  destruct (target =? _) eqn:Et; [by left|]. apply Z.eqb_neq in Et. apply wp_sc. cbn [fst].
  set (s2 := on_sc_ad _ (on_sc_ad _ s)). pose proof (agree_target target (sched_delay br d) (sc_ad s2)) as Hv.
  assert (ad_last_change_ms (snd (auto_delay_agree target (sched_delay br d) (sc_ad s2))) = ad_last_change_ms (sc_ad s)) as Hl.
  { unfold auto_delay_agree. cbv zeta. by repeat case_match. }
  destruct (auto_delay_agree _ _ _) as [agreed a]. cbn [fst snd] in *. apply wp_put. cbn [fst snd].
  destruct agreed as [v|]; [|by left]. specialize (Hv v eq_refl). apply wp_sc. cbn [fst].
  rewrite (cooling_same s (on_sc_ad (fun _ => a) s2)) by done. destruct (_ && _) eqn:Ec; [by left|].
  assert (change_justified s now (sched_delay br d) (br_force_turn br d) v) as J.
  { apply (justified_agreed s now _ _ target v); try done. apply Hs. }
  assert (u8 v = v) as ->.
  { destruct J as (_ & [J4 J5] & _). unfold delay_floor, RB_FORCE_TURN_DELAY_FLOOR, RB_AUTO_DELAY_LOWER_FLOOR, RB_ADAPT_DELAY_MAX in *.
    unfold u8. apply Z.mod_small. revert J4. case_match; lia. }
  apply wp_bind. unfold on_session, wp at 1. cbn [fst snd]. destruct (br_session br d) as [ss|] eqn:Es; [|by left].
  destruct (rnet_session_request_delay_change v ss) as [changed ss'] eqn:Er. cbn [fst snd].
  assert (wp (when changed (put (on_sc_ad (fun a => set_ad_agree_streak 0 (set_ad_last_change_ms (stamp now) a)))))
    (fun _ x => snd x = br_put_session br ss' d) (on_sc_ad (fun _ => a) s2, br_put_session br ss' d)) as Hw by (by destruct changed).
  eapply wp_mono; [exact Hw|]. intros u x Ex. right. exists ss, v. rewrite Er. done.
Qed.

(** ** A rematch *)

(** A rematch inherits the delay history: [rnet_sched_reset_session],
    which drops the policy of the previous match, keeps the statics of the
    delay controller. Once any match of the process has changed the delay, the
    first raise of a later match is not confirmed by one window, as it is in
    the first match, but waits for a second one. *)
Theorem rematch_delays_first_raise (s : Sched) (env : SchedEnv) (target d : Z) :
  ad_last_change_ms (sc_ad s) <> 0 -> ad_last_target (sc_ad s) <> target -> 0 <= d < target ->
  fst (auto_delay_agree target d (sc_ad (zero_sched env))) = Some target /\
  fst (auto_delay_agree target d (sc_ad (rnet_sched_reset_session s))) = None.
Proof.
  intros Hc Hl Hd. unfold auto_delay_agree. cbn [sc_ad rnet_sched_reset_session zero_sched ad_last_change_ms ad_last_target]. cbv zeta.
  assert ((target <? d) = false) as -> by lia. cbn [andb]. rewrite (proj2 (Z.eqb_neq _ _) Hc).
  assert ((target =? -1) = false) as -> by lia. assert ((target =? ad_last_target (sc_ad s)) = false) as -> by (apply Z.eqb_neq; congruence).
  done.
Qed.

(** ** On a concrete bridge *)

Definition demo_owing : Sched := on_sc_ts (set_ts_debt_ms 40) (zero_sched plain_env).
Lemma pacing_ends_witness :
  fst (pre_admit_open clock_bridge 20 20 (tip_stats 22 20) (demo_owing, 1000)) = true /\
  fst (pre_admit_open clock_bridge 20 20 (tip_stats 22 20)
         (fst (snd (pre_admit_open clock_bridge 20 20 (tip_stats 22 20) (demo_owing, 1000))), 1006)) = false.
Proof.
  split; [vm_compute; reflexivity|].
  apply (pacing_ends clock_bridge 20 20 20 (tip_stats 22 20) (tip_stats 22 20) demo_owing 1000 1006);
    [by left|vm_compute; split; [discriminate|reflexivity]|reflexivity|reflexivity|reflexivity].
Defined.
Lemma rematch_delays_first_raise_witness :
  let s := on_sc_ad (set_ad_last_change_ms 5000) (on_sc_ad (set_ad_last_target 4) (zero_sched plain_env)) in
  fst (auto_delay_agree 6 4 (sc_ad (zero_sched plain_env))) = Some 6 /\
  fst (auto_delay_agree 6 4 (sc_ad (rnet_sched_reset_session s))) = None.
Proof. apply rematch_delays_first_raise; [discriminate|discriminate|lia]. Defined.

(** Seat 0 with a delay of 8; every row of the window came 6 ticks early. *)
Definition session_bridge : RNetSchedBridge RNetSession :=
  mkBridge Some (fun s _ => s) (fun _ => Some 8) (fun _ d => d) (fun _ => 8) (fun _ => Some 0) (fun _ => 0)
    (fun _ => true) (fun d => (10000, d)) (fun _ => 30) (fun _ => false) (fun _ => false) (fun _ => false) None
    (fun _ => false) (fun _ => false) (fun _ _ => ret None) (fun _ => 0) (fun _ => 0).
Definition demo_early : Sched :=
  on_sc_ad (fun a => set_ad_lead_min 6 (set_ad_lead_sum 1800 (set_ad_ticks 300 a))) (zero_sched plain_env).
Lemma demo_early_ok : sched_ok demo_early.
Proof. destruct (zero_ok plain_env) as [H1 H2 H3 [H4 H5] H6]. by split. Qed.
Lemma delay_change_justified_witness :
  let d := snd (snd (np_auto_delay_tick session_bridge 10000 (demo_early, demo_running))) in
  s_delay_pending_value d = 4 /\
  (d = demo_running \/
   exists ss target, br_session session_bridge demo_running = Some ss /\ sched_local_slot session_bridge demo_running = 0 /\
     change_justified demo_early 10000 8 0 target /\
     d = br_put_session session_bridge (snd (rnet_session_request_delay_change target ss)) demo_running).
Proof.
  cbv zeta. split; [vm_compute; reflexivity|].
  exact (delay_change_justified session_bridge 10000 demo_early demo_running demo_early_ok).
Defined.
