(* ===== verification/NetSim.v ===== *)
(** * The link simulator (src/transport/rnet_netsim.c, rnet_netsim.h)

    Holds received datagrams back by a latency with jitter, drops a share of
    them, and hands out the earliest due one. A slot of its table that is not
    in use is [None]; [Addr] is the socket address, [None] where the source is
    zeroed. The clock is an argument; banners are left out but for their
    deadline. *)

From stdpp Require Import base list numbers list_numbers strings.
From S2P Require Import Prelude CStrings Protocol Slots.

Definition RNET_NETSIM_SLOTS : Z := 256.
Definition RNET_NETSIM_BANNER_MS : Z := 10000.
Definition RNET_NETSIM_MAX_MS : Z := 2000.
Definition NETSIM_DEFAULT_SEED : Z := 1592594996.

Section NetSim.
Context {Addr : Type}.

Record NetSimEntry := mkHeld { ne_data : list Z; ne_due_ms : Z; ne_src : option Addr }.

Record RNetNetSim := mkSim {
  sm_slot : list (option NetSimEntry);
  sm_latency_ms : Z;
  sm_jitter_ms : Z;
  sm_loss_pct : Z;
  sm_rng : Z;
  sm_next_banner_ms : Z;
  sm_held_total : Z;
  sm_overflow_total : Z;
  sm_dropped_total : Z;
  sm_live : Z;
  sm_live_peak : Z
}.
Definition eta_sm (r : RNetNetSim) : RNetNetSim :=
  mkSim (sm_slot r) (sm_latency_ms r) (sm_jitter_ms r) (sm_loss_pct r) (sm_rng r) (sm_next_banner_ms r)
    (sm_held_total r) (sm_overflow_total r) (sm_dropped_total r) (sm_live r) (sm_live_peak r).
Definition set_sm_slot := ltac:(updater eta_sm sm_slot).
Definition set_sm_rng := ltac:(updater eta_sm sm_rng).
Definition set_sm_next_banner_ms := ltac:(updater eta_sm sm_next_banner_ms).
Definition set_sm_held_total := ltac:(updater eta_sm sm_held_total).
Definition set_sm_overflow_total := ltac:(updater eta_sm sm_overflow_total).
Definition set_sm_dropped_total := ltac:(updater eta_sm sm_dropped_total).
Definition set_sm_live := ltac:(updater eta_sm sm_live).
Definition set_sm_live_peak := ltac:(updater eta_sm sm_live_peak).

Definition env_u32 (env : string -> option string) (name : string) (fallback : Z) : Z :=
  match env name with
  | Some (String _ _ as v) =>
      match strtoul v with
      | Some (n, _) => if UINT32_MAX <? n then fallback else n
      | None => fallback
      end
  | _ => fallback
  end.

(** xorshift32. *)
Definition xorshift (x : Z) : Z :=
  let x := Z.lxor x (u32 (Z.shiftl x 13)) in
  let x := Z.lxor x (Z.shiftr x 17) in
  Z.lxor x (u32 (Z.shiftl x 5)).
Definition netsim_rand (sim : RNetNetSim) : Z * RNetNetSim :=
  let x := xorshift (sm_rng sim) in (x, set_sm_rng x sim).

Definition rnet_netsim_create (env : string -> option string) (calloc_ok : bool) (now : Z) : option RNetNetSim :=
  let latency := env_u32 env "RNET_SIM_LATENCY_MS" 0 in
  let loss := env_u32 env "RNET_SIM_LOSS_PCT" 0 in
  if (latency =? 0) && (loss =? 0) then None else
  let loss := if 90 <? loss then 90 else loss in
  if RNET_NETSIM_MAX_MS <? latency then None else
  let jitter := env_u32 env "RNET_SIM_JITTER_MS" 0 in
  let jitter := if latency <? jitter then latency else jitter in
  if negb calloc_ok then None else
  let seed := env_u32 env "RNET_SIM_SEED" NETSIM_DEFAULT_SEED in
  Some (mkSim (repeat None (Z.to_nat RNET_NETSIM_SLOTS)) latency jitter loss
          (if seed =? 0 then NETSIM_DEFAULT_SEED else seed) (u64 (now + RNET_NETSIM_BANNER_MS)) 0 0 0 0 0).

(** The first free slot. *)
Definition free_slot (l : list (option NetSimEntry)) : option nat := fst <$> list_find (fun o => o = None) l.

(** The delay of the next datagram. *)
Definition netsim_delay (sim : RNetNetSim) : Z * RNetNetSim :=
  if sm_jitter_ms sim =? 0 then (sm_latency_ms sim, sim) else
  let '(r, sim) := netsim_rand sim in
  (u64 (sm_latency_ms sim + r mod u32 (sm_jitter_ms sim * 2 + 1) - sm_jitter_ms sim), sim).

(** [true]: taken (held, or dropped as lost); [false]: deliver it yourself. *)
Definition rnet_netsim_hold (buf : list Z) (src : option Addr) (now : Z) (sim : RNetNetSim) : bool * RNetNetSim :=
  if (zlen buf =? 0) || (RNET_MAX_PACKET <? zlen buf) then (false, sim) else
  let '(lost, sim) := if 0 <? sm_loss_pct sim
                      then let '(r, sim) := netsim_rand sim in (r mod 100 <? sm_loss_pct sim, sim)
                      else (false, sim) in
  if (lost : bool) then (true, set_sm_dropped_total (u64 (sm_dropped_total sim + 1)) sim) else
  match free_slot (sm_slot sim) with
  | None => (false, set_sm_overflow_total (u64 (sm_overflow_total sim + 1)) sim)
  | Some i =>
      let '(delay, sim) := netsim_delay sim in
      let live := u32 (sm_live sim + 1) in
      (true, set_sm_live_peak (Z.max (sm_live_peak sim) live) (set_sm_live live
               (set_sm_held_total (u64 (sm_held_total sim + 1))
                 (set_sm_slot (<[i := Some (mkHeld buf (u64 (now + delay)) src)]> (sm_slot sim)) sim))))
  end.

(** The scan for the earliest due datagram: the best so far, by slot. *)
Fixpoint scan_due (now : Z) (i : nat) (l : list (option NetSimEntry)) (best : option (nat * NetSimEntry)) : option (nat * NetSimEntry) :=
  match l with
  | [] => best
  | None :: r => scan_due now (S i) r best
  | Some e :: r =>
      if now <? ne_due_ms e then scan_due now (S i) r best else
      match best with
      | Some (_, b) => scan_due now (S i) r (if ne_due_ms e <? ne_due_ms b then Some (i, e) else best)
      | None => scan_due now (S i) r (Some (i, e))
      end
  end.

(** The datagram delivered into a buffer of [cap] bytes, if one is due. *)
Definition rnet_netsim_due (cap now : Z) (sim : RNetNetSim) : option (list Z * option Addr) * RNetNetSim :=
  if cap =? 0 then (None, sim) else
  match scan_due now 0 (sm_slot sim) None with
  | None => (None, sim)
  | Some (i, e) =>
      let sim := set_sm_live (u32 (sm_live sim - 1)) (set_sm_slot (<[i := None]> (sm_slot sim)) sim) in
      (if cap <? zlen (ne_data e) then None else Some (ne_data e, ne_src e), sim)
  end.

Definition rnet_netsim_heartbeat (now : Z) (sim : RNetNetSim) : RNetNetSim :=
  if now <? sm_next_banner_ms sim then sim else set_sm_next_banner_ms (u64 (now + RNET_NETSIM_BANNER_MS)) sim.
End NetSim.
Arguments NetSimEntry : clear implicits.
Arguments RNetNetSim : clear implicits.

(** * The link simulator: properties

    Nothing is invented, changed or delivered twice, what is due comes out
    earliest first, and the seeded random stream never dries up. *)


(** ** The random stream *)

Lemma odd_shift_zero k inv x : 0 <= x < 4294967296 -> (2 ^ k - 1) * inv mod 4294967296 = 1 -> 0 <= k ->
  x = u32 (Z.shiftl x k) -> x = 0.
Proof.
  intros Hx Hi Hk E. rewrite Z.shiftl_mul_pow2 in E by done. unfold u32 in E.
  assert ((x * (2 ^ k - 1)) mod 4294967296 = 0) as H0.
  { replace (x * (2 ^ k - 1)) with (x * 2 ^ k - x) by lia. rewrite Zminus_mod, <-E, (Z.mod_small x) by done.
    by rewrite Z.sub_diag. }
  assert (x mod 4294967296 = 0) as H1.
  { replace (x mod 4294967296) with ((x * ((2 ^ k - 1) * inv)) mod 4294967296).
    - rewrite Z.mul_assoc, <-Zmult_mod_idemp_l, H0. done.
    - rewrite <-Zmult_mod_idemp_r, Hi. by rewrite Z.mul_1_r. }
  by rewrite Z.mod_small in H1.
Qed.
Lemma lxor_zero a b : Z.lxor a b = 0 -> a = b.
Proof. apply Z.lxor_eq. Qed.
Lemma lxor_range a b : 0 <= a < 4294967296 -> 0 <= b < 4294967296 -> 0 <= Z.lxor a b < 4294967296.
Proof.
  intros Ha Hb. split; [apply Z.lxor_nonneg; lia|].
  destruct (Z.eq_dec (Z.lxor a b) 0) as [->|Hne]; [lia|]. change 4294967296 with (2 ^ 32).
  assert (0 <= Z.lxor a b) by (apply Z.lxor_nonneg; lia). apply Z.log2_lt_pow2; [lia|].
  pose proof (Z.log2_lxor a b ltac:(lia) ltac:(lia)) as Hl.
  assert (Z.log2 a < 32 /\ Z.log2 b < 32) as [? ?].
  { split; (destruct (Z.eq_dec a 0) as [->|]; destruct (Z.eq_dec b 0) as [->|]; cbn; try lia;
      try (apply Z.log2_lt_pow2; change (2 ^ 32) with 4294967296; lia)). }
  lia.
Qed.
Lemma xorshift_alive x : 0 < x < 4294967296 -> 0 < xorshift x < 4294967296.
Proof.
  intros Hx. unfold xorshift.
  assert (forall y, 0 <= u32 y < 4294967296) as Hu by (intros y; apply (Z.mod_pos_bound y 4294967296); lia).
  set (a := Z.lxor x (u32 (Z.shiftl x 13))).
  assert (0 < a < 4294967296) as Ha.
  { assert (0 <= a < 4294967296) by (apply lxor_range; [lia|apply Hu]).
    assert (a <> 0); [|lia]. intros E%lxor_zero. apply (odd_shift_zero 13 4227850239) in E; [lia|lia|done|lia]. }
  set (b := Z.lxor a (Z.shiftr a 17)).
  assert (0 < b < 4294967296) as Hb.
  { assert (0 <= Z.shiftr a 17 < a) as Hs.
    { rewrite Z.shiftr_div_pow2 by lia. split; [apply Z.div_pos; lia|apply Z.div_lt; lia]. }
    assert (0 <= b < 4294967296) by (apply lxor_range; lia).
    assert (b <> 0); [|lia]. intros E%lxor_zero. lia. }
  assert (0 <= Z.lxor b (u32 (Z.shiftl b 5)) < 4294967296) by (apply lxor_range; [lia|apply Hu]).
  assert (Z.lxor b (u32 (Z.shiftl b 5)) <> 0); [|lia]. intros E%lxor_zero.
  apply (odd_shift_zero 5 3186588639) in E; [lia|lia|done|lia].
Qed.

(** ** The table as a bag *)

Section Bag.
Context {Addr : Type}.
Notation Entry := (NetSimEntry Addr).
Notation Sim := (RNetNetSim Addr).

Definition held_of (sim : Sim) : list Entry := omap id (sm_slot sim).

Record sim_ok (sim : Sim) : Prop := {
  sim_slots : length (sm_slot sim) = Z.to_nat RNET_NETSIM_SLOTS;
  sim_live : sm_live sim = Z.of_nat (length (held_of sim));
  sim_jitter : 0 <= sm_jitter_ms sim <= sm_latency_ms sim;
  sim_latency : sm_latency_ms sim <= RNET_NETSIM_MAX_MS;
  sim_loss : 0 <= sm_loss_pct sim <= 90;
  sim_rng : 0 < sm_rng sim < 4294967296;
  sim_sizes : forall e, e ∈ held_of sim -> 0 < zlen (ne_data e) <= RNET_MAX_PACKET
}.
Lemma held_le (sim : Sim) : sim_ok sim -> (length (held_of sim) <= 256)%nat.
Proof.
  intros []. unfold held_of. assert (forall l : list (option Entry), (length (omap id l) <= length l)%nat) as H.
  { induction l as [|[e|] l IH]; cbn; lia. }
  specialize (H (sm_slot sim)). unfold RNET_NETSIM_SLOTS in *. lia.
Qed.

(** The earliest of those that are due. *)
Definition earliest_due (now : Z) (sim : Sim) (e : Entry) : Prop :=
  e ∈ held_of sim /\ ne_due_ms e <= now /\
  forall x, x ∈ held_of sim -> ne_due_ms x <= now -> ne_due_ms e <= ne_due_ms x.

Lemma scan_due_spec now (all : list (option Entry)) l i best :
  (forall k, l !! k = all !! (i + k)%nat) ->
  (match best with
   | Some (j, b) => all !! j = Some (Some b) /\ ne_due_ms b <= now /\
       forall k x, (k < i)%nat -> all !! k = Some (Some x) -> ne_due_ms x <= now -> ne_due_ms b <= ne_due_ms x
   | None => forall k x, (k < i)%nat -> all !! k = Some (Some x) -> now < ne_due_ms x
   end) ->
  match scan_due now i l best with
  | Some (j, b) => all !! j = Some (Some b) /\ ne_due_ms b <= now /\
      forall k x, all !! k = Some (Some x) -> ne_due_ms x <= now -> ne_due_ms b <= ne_due_ms x
  | None => forall k x, all !! k = Some (Some x) -> now < ne_due_ms x
  end.
Proof.
  revert i best. induction l as [|o l IH]; intros i best Hl Hb.
  - assert (forall k x, all !! k = Some (Some x) -> (k < i)%nat) as Hend.
    { intros k x Hk. destruct (decide (k < i)%nat); [done|]. specialize (Hl (k - i)%nat).
      replace (i + (k - i))%nat with k in Hl by lia. rewrite Hk in Hl. done. }
    cbn. destruct best as [[j b]|]; [|eauto]. destruct Hb as (H1 & H2 & H3). eauto 6.
  - pose proof (Hl 0%nat) as H0. rewrite Nat.add_0_r in H0. change (Some o = all !! i) in H0.
    assert (forall k, l !! k = all !! (S i + k)%nat) as Hl'.
    { intros k. transitivity (all !! (i + S k)%nat); [exact (Hl (S k))|f_equal; lia]. }
    assert (forall k : nat, (k < S i)%nat -> k = i \/ (k < i)%nat) as Hk by lia.
    destruct o as [e|]; cbn [scan_due].
    + destruct (Z.ltb_spec now (ne_due_ms e)).
      * apply IH; [done|]. destruct best as [[j b]|].
        -- destruct Hb as (H1 & H2 & H3). split; [done|]. split; [done|]. intros k x Hk' Ex Hx.
           destruct (Hk k Hk') as [->|]; [|eauto]. rewrite Ex in H0. injection H0 as ->. lia.
        -- intros k x Hk' Ex. destruct (Hk k Hk') as [->|]; [|eauto]. rewrite Ex in H0. by injection H0 as ->.
      * destruct best as [[j b]|]; (apply IH; [done|]).
        -- destruct Hb as (H1 & H2 & H3). destruct (Z.ltb_spec (ne_due_ms e) (ne_due_ms b)).
           ++ split; [done|]. split; [done|]. intros k x Hk' Ex Hx. destruct (Hk k Hk') as [->|Hlt].
              { rewrite Ex in H0. by injection H0 as ->. } specialize (H3 k x Hlt Ex Hx). lia.
           ++ split; [done|]. split; [done|]. intros k x Hk' Ex Hx. destruct (Hk k Hk') as [->|Hlt]; [|eauto].
              rewrite Ex in H0. injection H0 as ->. lia.
        -- split; [done|]. split; [done|]. intros k x Hk' Ex Hx. destruct (Hk k Hk') as [->|Hlt].
           { rewrite Ex in H0. by injection H0 as ->. } specialize (Hb k x Hlt Ex). lia.
    + apply IH; [done|]. destruct best as [[j b]|].
      * destruct Hb as (H1 & H2 & H3). split; [done|]. split; [done|]. intros k x Hk' Ex Hx.
        destruct (Hk k Hk') as [->|]; [congruence|eauto].
      * intros k x Hk' Ex. destruct (Hk k Hk') as [->|]; [congruence|eauto].
Qed.

Lemma elem_held (sim : Sim) e : e ∈ held_of sim <-> exists k, sm_slot sim !! k = Some (Some e).
Proof.
  unfold held_of. rewrite list_elem_of_omap. split.
  - intros (o & Ho & E). unfold id in E. subst o. by apply list_elem_of_lookup_1.
  - intros [k Hk]. exists (Some e). split; [by eapply list_elem_of_lookup_2|done].
Qed.

(** One delivery: the earliest due datagram leaves the table, or none is due. *)
Lemma due_spec now (sim : Sim) : sim_ok sim ->
  let '(o, sim') := rnet_netsim_due RNET_MAX_PACKET now sim in
  sim_ok sim' /\
  match o with
  | None => sim' = sim /\ forall e, e ∈ held_of sim -> now < ne_due_ms e
  | Some (data, src) => exists e, earliest_due now sim e /\ ne_data e = data /\ ne_src e = src /\
                          held_of sim ≡ₚ e :: held_of sim'
  end.
Proof.
  intros Hok. pose proof Hok as [S1 S2 S3 S4 S5 S6 S7]. unfold rnet_netsim_due.
  pose proof (scan_due_spec now (sm_slot sim) (sm_slot sim) 0 None (fun k => eq_refl) ltac:(cbn; intros; lia)) as Hs. cbn [Z.eqb].
  change (RNET_MAX_PACKET =? 0) with false. cbn iota. destruct (scan_due now 0 (sm_slot sim) None) as [[i e]|].
  - destruct Hs as (Hi & Hd & Hmin). pose proof (bag_take (sm_slot sim) i e Hi) as Hp.
    assert (e ∈ held_of sim) as He by (apply elem_held; eauto). destruct (S7 e He) as [_ Hz].
    assert ((RNET_MAX_PACKET <? zlen (ne_data e)) = false) as -> by lia. pose proof (held_le sim Hok) as Hl.
    split; [split|]; cbn [sm_slot sm_live sm_jitter_ms sm_latency_ms sm_loss_pct sm_rng set_sm_live set_sm_slot]; try done.
    + by rewrite length_insert.
    + pose proof (Permutation_length Hp) as Hlen. cbn [length] in Hlen. fold (held_of sim) in Hlen. rewrite S2, Hlen in *.
      unfold held_of. cbn [sm_slot set_sm_live set_sm_slot]. unfold u32. rewrite Z.mod_small; lia.
    + intros x Hx. apply S7. unfold held_of in *. cbn [sm_slot set_sm_live set_sm_slot] in Hx. rewrite Hp. by right.
    + exists e. split; [|done]. split; [done|]. split; [done|]. intros x [k Hk]%elem_held. eauto.
  - split; [done|]. split; [done|]. intros e [k Hk]%elem_held. eauto.
Qed.

Lemma rand_ok (sim : Sim) : sim_ok sim -> sim_ok (snd (netsim_rand sim)).
Proof. intros []. split; try done. by apply xorshift_alive. Qed.
Lemma delay_spec (sim : Sim) : sim_ok sim ->
  let '(delay, sim') := netsim_delay sim in
  sim_ok sim' /\ held_of sim' = held_of sim /\ sm_slot sim' = sm_slot sim /\
  sm_latency_ms sim - sm_jitter_ms sim <= delay <= sm_latency_ms sim + sm_jitter_ms sim.
Proof.
  intros Hok. pose proof Hok as [S1 S2 S3 S4 S5 S6 S7]. unfold netsim_delay, RNET_NETSIM_MAX_MS in *.
  destruct (sm_jitter_ms sim =? 0) eqn:E; [split; [done|]; split; [done|]; split; [done|lia]|].
  pose proof (rand_ok sim Hok) as Hr. unfold netsim_rand in *. cbn [fst snd] in *.
  split; [done|]. split; [done|]. split; [done|]. cbn [sm_latency_ms sm_jitter_ms set_sm_rng]. unfold u32, u64.
  rewrite (Z.mod_small (sm_jitter_ms sim * 2 + 1)) by lia.
  pose proof (Z.mod_pos_bound (xorshift (sm_rng sim)) (sm_jitter_ms sim * 2 + 1) ltac:(lia)). rewrite Z.mod_small; lia.
Qed.
Lemma free_slot_spec (l : list (option Entry)) :
  match free_slot l with
  | Some i => l !! i = Some None
  | None => length (omap id l) = length l
  end.
Proof.
  unfold free_slot. destruct (list_find (fun o => o = None) l) as [[i o]|] eqn:E; cbn.
  - apply list_find_Some in E as (H1 & -> & _). done.
  - apply list_find_None in E. induction E as [|[e|] l He _ IH]; cbn; [done|by rewrite IH|done].
Qed.

(** One arrival: it enters the table with a delay within the jitter, is lost
    on purpose, or is handed back because the table is full. *)
Definition enters (buf : list Z) (src : option Addr) (now : Z) (sim sim' : Sim) : Prop :=
  exists delay, sm_latency_ms sim - sm_jitter_ms sim <= delay <= sm_latency_ms sim + sm_jitter_ms sim /\
    held_of sim' ≡ₚ mkHeld buf (u64 (now + delay)) src :: held_of sim.
Lemma hold_spec buf src now (sim : Sim) : sim_ok sim -> 0 < zlen buf <= RNET_MAX_PACKET ->
  let '(taken, sim') := rnet_netsim_hold buf src now sim in
  sim_ok sim' /\
  (if (taken : bool) then enters buf src now sim sim' \/ (held_of sim' = held_of sim /\ 0 < sm_loss_pct sim)
   else held_of sim' = held_of sim /\ Z.of_nat (length (held_of sim)) = RNET_NETSIM_SLOTS).
Proof.
  intros Hok Hb. unfold rnet_netsim_hold. destruct (_ || _) eqn:E; [bool_prop; lia|]. clear E.
  match goal with |- context [if 0 <? sm_loss_pct sim then ?x else _] => set (draw := if 0 <? sm_loss_pct sim then x else (false, sim)) end.
  assert (sim_ok (snd draw) /\ held_of (snd draw) = held_of sim /\ sm_latency_ms (snd draw) = sm_latency_ms sim /\
    sm_jitter_ms (snd draw) = sm_jitter_ms sim /\ (fst draw = true -> 0 < sm_loss_pct sim)) as (Hok1 & Hh & Hlat & Hjit & Hl).
  { unfold draw. destruct (Z.ltb_spec 0 (sm_loss_pct sim)); [|done]. pose proof (rand_ok sim Hok) as Hr.
    unfold netsim_rand in *. cbn [fst snd] in *. done. }
  destruct draw as [lost sim1]. cbn [fst snd] in *. destruct lost.
  { split; [by destruct Hok1|]. right. split; [exact Hh|by apply Hl]. }
  pose proof (free_slot_spec (sm_slot sim1)) as Hf. destruct (free_slot (sm_slot sim1)) as [i|].
  2: { split; [by destruct Hok1|]. split; [exact Hh|]. rewrite <-Hh. unfold held_of at 1. rewrite Hf, (sim_slots _ Hok1). done. }
  pose proof (delay_spec sim1 Hok1) as Hd. destruct (netsim_delay sim1) as [delay sim2].
  destruct Hd as (Hok2 & Hh2 & Hs2 & Hdelay). rewrite <-Hs2 in Hf. pose proof (bag_put (sm_slot sim2) i (mkHeld buf (u64 (now + delay)) src) Hf) as Hp.
  pose proof Hok2 as [S1 S2 S3 S4 S5 S6 S7].
  assert (length (held_of sim2) < 256)%nat as Hroom.
  { pose proof (bag_put (sm_slot sim2) i (mkHeld buf 0 src) Hf) as Hq. apply Permutation_length in Hq.
    assert (forall l : list (option Entry), (length (omap id l) <= length l)%nat) as H by (induction l as [|[e|] l IH]; cbn; lia).
    specialize (H (<[i:=Some (mkHeld buf 0 src)]> (sm_slot sim2))). rewrite length_insert, S1 in H. unfold held_of.
    unfold RNET_NETSIM_SLOTS in H. cbn [length] in Hq. lia. }
  split; [split|]; cbn [sm_slot sm_live sm_jitter_ms sm_latency_ms sm_loss_pct sm_rng set_sm_live set_sm_slot set_sm_live_peak set_sm_held_total]; try done.
  - by rewrite length_insert.
  - unfold held_of. cbn [sm_slot set_sm_live set_sm_slot set_sm_live_peak set_sm_held_total]. rewrite Hp, S2. cbn [length].
    unfold held_of in *. unfold u32. rewrite Z.mod_small; lia.
  - intros x. unfold held_of. cbn [sm_slot set_sm_live set_sm_slot set_sm_live_peak set_sm_held_total]. rewrite Hp.
    intros [->|Hx]%elem_of_cons; [done|by apply S7].
  - left. exists delay. split; [lia|]. rewrite <-Hh, <-Hh2. exact Hp.
Qed.

(** ** Runs: arrivals and polls, with the datagrams taken and handed out *)

Inductive sim_event :=
| SimArrive (buf : list Z) (src : option Addr) (now : Z)
| SimPoll (now : Z).
Definition sized (e : sim_event) : Prop :=
  match e with SimArrive buf _ _ => 0 < zlen buf <= RNET_MAX_PACKET | SimPoll _ => True end.
Definition dgram (e : Entry) : list Z * option Addr := (ne_data e, ne_src e).

Fixpoint sim_run (evs : list sim_event) (sim : Sim) : list (list Z * option Addr) * list (list Z * option Addr) * Sim :=
  match evs with
  | [] => ([], [], sim)
  | SimArrive buf src now :: r =>
      let '(taken, sim) := rnet_netsim_hold buf src now sim in
      let '(ins, outs, sim) := sim_run r sim in
      ((if (taken : bool) then [(buf, src)] else []) ++ ins, outs, sim)
  | SimPoll now :: r =>
      let '(o, sim) := rnet_netsim_due RNET_MAX_PACKET now sim in
      let '(ins, outs, sim) := sim_run r sim in
      (ins, option_list o ++ outs, sim)
  end.

Lemma hold_loss buf src now (sim : Sim) : sm_loss_pct (snd (rnet_netsim_hold buf src now sim)) = sm_loss_pct sim.
Proof.
  unfold rnet_netsim_hold, netsim_delay, netsim_rand. cbv zeta. destruct (_ || _); [done|].
  destruct (0 <? sm_loss_pct sim); [destruct (_ <? sm_loss_pct _); [done|]|]; cbn iota;
    (destruct (free_slot _); [|done]); by destruct (_ =? 0).
Qed.
Lemma due_loss cap now (sim : Sim) : sm_loss_pct (snd (rnet_netsim_due cap now sim)) = sm_loss_pct sim.
Proof. unfold rnet_netsim_due. repeat case_match; done. Qed.

Lemma run_conserves evs (sim : Sim) : sim_ok sim -> Forall sized evs ->
  let '(ins, outs, sim') := sim_run evs sim in
  sim_ok sim' /\
  exists lost, map dgram (held_of sim) ++ ins ≡ₚ outs ++ map dgram (held_of sim') ++ lost /\
    (sm_loss_pct sim = 0 -> lost = []).
Proof.
  intros Hok Hs. revert sim Hok. induction Hs as [|e r He _ IH]; intros sim Hok.
  { split; [done|]. exists []. by rewrite !app_nil_r. }
  destruct e as [buf src now|now]; cbn [sim_run].
  - pose proof (hold_spec buf src now sim Hok He) as Hh. pose proof (hold_loss buf src now sim) as Hl.
    destruct (rnet_netsim_hold buf src now sim) as [taken sim1]. destruct Hh as [Hok1 Hcase]. cbn [snd] in Hl.
    specialize (IH sim1 Hok1). destruct (sim_run r sim1) as [[ins outs] sim']. destruct IH as (Hok' & lost & Hp & Hz).
    split; [done|]. rewrite Hl in Hz. destruct taken; [destruct Hcase as [(delay & _ & Hin)|[Hsame Hpos]]|destruct Hcase as [Hsame _]].
    + exists lost. split; [|done]. rewrite <-Hp, Hin. cbn. symmetry. apply Permutation_middle.
    + exists ((buf, src) :: lost). split; [|lia]. rewrite Hsame in Hp.
      etransitivity; [symmetry; apply (Permutation_middle (map dgram (held_of sim)) ins (buf, src))|].
      rewrite Hp, !app_assoc. apply Permutation_middle.
    + exists lost. split; [|done]. cbn. by rewrite <-Hp, Hsame.
  - pose proof (due_spec now sim Hok) as Hd. pose proof (due_loss RNET_MAX_PACKET now sim) as Hl.
    destruct (rnet_netsim_due RNET_MAX_PACKET now sim) as [o sim1]. destruct Hd as [Hok1 Hcase]. cbn [snd] in Hl.
    specialize (IH sim1 Hok1). destruct (sim_run r sim1) as [[ins outs] sim']. destruct IH as (Hok' & lost & Hp & Hz).
    split; [done|]. rewrite Hl in Hz. exists lost. split; [|done]. destruct o as [[data src]|].
    + destruct Hcase as (e & _ & <- & <- & Hq). rewrite Hq. cbn. by rewrite Hp.
    + destruct Hcase as [-> _]. cbn. by rewrite Hp.
Qed.
Lemma create_ok env alloc now (sim : Sim) : rnet_netsim_create env alloc now = Some sim -> sim_ok sim /\ held_of sim = [].
Proof.
  assert (forall name f, 0 <= f <= UINT32_MAX -> 0 <= env_u32 env name f <= UINT32_MAX) as He.
  { intros name f Hf. unfold env_u32, strtoul, ulong. destruct (env name) as [[|c v]|]; try done. destruct (strtol _) as [[n r]|]; [|done].
    cbn. destruct (_ <=? Z.abs n); cbn; [done|]. case_match; [done|]. pose proof (Z.mod_pos_bound n 18446744073709551616 eq_refl).
    unfold u64 in *. lia. }
  unfold rnet_netsim_create. cbv zeta. destruct (_ && _); [done|]. destruct (RNET_NETSIM_MAX_MS <? _) eqn:El; [done|].
  destruct alloc; [|done]. cbn [negb]. intros [= <-].
  pose proof (He "RNET_SIM_LATENCY_MS"%string 0 ltac:(done)). pose proof (He "RNET_SIM_LOSS_PCT"%string 0 ltac:(done)).
  pose proof (He "RNET_SIM_JITTER_MS"%string 0 ltac:(done)). pose proof (He "RNET_SIM_SEED"%string NETSIM_DEFAULT_SEED ltac:(done)).
  assert (forall n, omap id (repeat (@None Entry) n) = []) as Hnil by (induction n; done).
  unfold RNET_NETSIM_MAX_MS, UINT32_MAX in *.
  split; [split|]; unfold held_of; cbn [sm_slot sm_live sm_jitter_ms sm_latency_ms sm_loss_pct sm_rng]; rewrite ?Hnil; try done.
  - case_match; lia.
  - unfold RNET_NETSIM_MAX_MS; lia.
  - case_match; lia.
  - case_match; [done|lia].
  - by intros e []%not_elem_of_nil.
Qed.
End Bag.

(** The simulator only delays and drops: from its creation, through any
    sequence of arrivals and polls, every datagram it took was handed out
    unchanged exactly once, with its own source, or is still held, or was
    dropped as simulated loss - which happens only when a loss was asked
    for. *)
Theorem netsim_conserves {Addr : Type} env alloc now (sim : RNetNetSim Addr) evs :
  rnet_netsim_create env alloc now = Some sim -> Forall sized evs ->
  let '(ins, outs, sim') := sim_run evs sim in
  exists lost, ins ≡ₚ outs ++ map dgram (held_of sim') ++ lost /\ (sm_loss_pct sim = 0 -> lost = []).
Proof.
  intros Hc Hs. apply create_ok in Hc as [Hok Hn]. pose proof (run_conserves evs sim Hok Hs) as H.
  destruct (sim_run evs sim) as [[ins outs] sim']. destruct H as [_ H]. by rewrite Hn in H.
Qed.

(** 20 ms of latency: the datagram of 100 is due at 120. *)
Definition demo_sim_env (name : string) : option string :=
  if String.eqb name "RNET_SIM_LATENCY_MS" then Some "20"%string else None.
Definition demo_sim : RNetNetSim Z := Eval vm_compute in
  match rnet_netsim_create demo_sim_env true 0 with
  | Some sim => sim
  | None => mkSim [] 0 0 0 0 0 0 0 0 0 0
  end.
Lemma netsim_conserves_witness :
  let '(ins, outs, sim') := sim_run [SimArrive [1; 2] (Some 7) 100; SimPoll 119; SimPoll 120] demo_sim in
  outs = [([1; 2], Some 7)] /\
  exists lost, ins ≡ₚ outs ++ map dgram (held_of sim') ++ lost /\ (sm_loss_pct demo_sim = 0 -> lost = []).
Proof.
  pose proof (netsim_conserves demo_sim_env true 0 demo_sim [SimArrive [1; 2] (Some 7) 100; SimPoll 119; SimPoll 120]
    ltac:(vm_compute; reflexivity) ltac:(repeat constructor; vm_compute; discriminate)) as H.
  split; [vm_compute; reflexivity|exact H].
Defined.
