(* ===== verification/Transport.v ===== *)
(** * The transport (src/transport/rnet_transport.c) and host:port parsing
      (src/platform/rnet_platform.c)

    The three ways a session moves datagrams: one UDP socket (point to point,
    or a LAN hub that relays between seats), one ICE agent, or one ICE agent
    per guest seat. The operating system and the ICE callbacks are the
    interface [NetOps] over a world [W]; what the transport relies on of them
    is [NetLaws]. Unbounded receive loops take fuel. *)

From stdpp Require Import base list numbers list_numbers strings.
From S2P Require Import Prelude CStrings Slots Protocol Config Rings NetSim.

Definition RNET_HUB_MIN_PACKET : Z := 14.
Definition RNET_HUB_HEADER_LEN : nat := 10.

(** [struct sockaddr_in]. *)
Record sockaddr_in := mkAddr { sin_family : Z; sin_port : Z; s_addr : Z }.
#[export] Instance sockaddr_eq_dec : EqDecision sockaddr_in.
Proof. solve_decision. Defined.
Definition addr_zero : sockaddr_in := mkAddr 0 0 0.
Definition sockaddr_equal (a b : sockaddr_in) : bool :=
  (sin_family a =? sin_family b) && (sin_port a =? sin_port b) && (s_addr a =? s_addr b).

(** ** Addresses *)

(** [strrchr(s, ':')]: what is before the last colon and after it. *)
Fixpoint split_colon (s : string) : option (string * string) :=
  match s with
  | EmptyString => None
  | String c r =>
      match split_colon r with
      | Some (a, b) => Some (String c a, b)
      | None => if ch c =? 58 then Some (EmptyString, r) else None
      end
  end.
(** With a host buffer of [host_cap] bytes. *)
Definition rnet_os_parse_hostport (spec : string) (host_cap : Z) : option (string * Z) :=
  match split_colon spec with
  | None => None
  | Some (host, port) =>
      if host_cap <=? Z.of_nat (String.length host) then None else
      match strtoul port with
      | Some (n, EmptyString) => if 65535 <? n then None else Some (if String.eqb host "" then "0.0.0.0"%string else host, n)
      | _ => None
      end
  end.

(** [lookup]: the address of a literal or a host name, as the system finds
    it. *)
Definition AF_INET : Z := 2.
Definition htons (p : Z) : Z := Z.lor (Z.shiftl (Z.land p 255) 8) (Z.shiftr p 8).
Definition rnet_os_resolve_sockaddr (lookup : string -> option Z) (host : string) (port : Z) : option sockaddr_in :=
  if String.eqb host "" || String.eqb host "0.0.0.0" then Some (mkAddr AF_INET (htons port) 0)
  else mkAddr AF_INET (htons port) <$> lookup host.

(** ** The system below *)

Inductive SockAnswer := SkGram (data : list Z) (src : sockaddr_in) | SkBlock | SkError.

(** [Ctx] is an ICE agent's handle. A host name lookup, the creation of a
    socket and its two configuration calls may each fail. *)
Class NetOps (W Ctx : Type) := {
  os_recvfrom : Z -> W -> SockAnswer * W;
  os_sendto : list Z -> sockaddr_in -> W -> Z * W;
  os_clock : W -> Z;
  os_getenv : string -> option string;
  os_calloc : W -> bool;
  os_lookup : W -> string -> option Z;
  os_socket : W -> bool;
  os_bind : sockaddr_in -> W -> bool;
  os_nonblocking : W -> bool;
  ice_send : Ctx -> list Z -> W -> Z * W;
  ice_recv : Ctx -> Z -> W -> option (list Z) * W
}.

(** What the transport relies on: a socket hands out its backlog in order,
    cut to the buffer; an agent hands out its queue in order; sending reaches
    other hosts and leaves both alone. [sent] and [ice_sent] are the
    datagrams sent so far. *)
Class NetLaws (W Ctx : Type) `{NetOps W Ctx} := {
  sock_q : W -> list (list Z * sockaddr_in);
  ice_q : Ctx -> W -> list (list Z);
  sent : W -> list (list Z * sockaddr_in);
  ice_sent : W -> list (Ctx * list Z);
  recvfrom_law cap w :
    let '(a, w') := os_recvfrom cap w in
    sent w' = sent w /\ ice_sent w' = ice_sent w /\ (forall c, ice_q c w' = ice_q c w) /\
    match sock_q w with
    | (d, src) :: r => a = SkGram (take (Z.to_nat cap) d) src /\ sock_q w' = r
    | [] => (a = SkBlock \/ a = SkError) /\ sock_q w' = []
    end;
  sendto_law d a w :
    let w' := snd (os_sendto d a w) in
    sent w' = sent w ++ [(d, a)] /\ ice_sent w' = ice_sent w /\ sock_q w' = sock_q w /\ (forall c, ice_q c w' = ice_q c w);
  ice_send_law c d w :
    let w' := snd (ice_send c d w) in
    ice_sent w' = ice_sent w ++ [(c, d)] /\ sent w' = sent w /\ sock_q w' = sock_q w /\ (forall c', ice_q c' w' = ice_q c' w);
  ice_recv_law c cap w : 0 < cap ->
    let '(o, w') := ice_recv c cap w in
    sent w' = sent w /\ ice_sent w' = ice_sent w /\ sock_q w' = sock_q w /\
    (forall c', c' <> c -> ice_q c' w' = ice_q c' w) /\
    match ice_q c w with
    | d :: r => o = Some (take (Z.to_nat cap) d) /\ ice_q c w' = r
    | [] => o = None /\ ice_q c w' = []
    end
}.

(** ** State *)

Section Transport.
Context {W Ctx : Type} `{!NetOps W Ctx}.

Record RNetTransport := mkTr {
  tr_mode : RNetTransportMode;
  tr_sock : bool;
  tr_peer : sockaddr_in;
  tr_pending_peer : sockaddr_in;
  tr_peer_known : bool;
  tr_pending_peer_known : bool;
  tr_accept_first_peer : bool;
  tr_hub_mode : bool;
  tr_hub_slot_known : list bool;
  tr_hub_slot_addr : list sockaddr_in;
  tr_ice_fns : bool;
  tr_ice_ctx : option Ctx;
  tr_hub_ice_ctx : list (option Ctx);
  tr_hub_rr : nat;
  tr_netsim : option (RNetNetSim sockaddr_in);
  tr_netsim_probed : bool
}.
Definition eta_tr (t : RNetTransport) : RNetTransport :=
  mkTr (tr_mode t) (tr_sock t) (tr_peer t) (tr_pending_peer t) (tr_peer_known t) (tr_pending_peer_known t)
    (tr_accept_first_peer t) (tr_hub_mode t) (tr_hub_slot_known t) (tr_hub_slot_addr t) (tr_ice_fns t)
    (tr_ice_ctx t) (tr_hub_ice_ctx t) (tr_hub_rr t) (tr_netsim t) (tr_netsim_probed t).
Definition set_tr_mode := ltac:(updater eta_tr tr_mode).
Definition set_tr_sock := ltac:(updater eta_tr tr_sock).
Definition set_tr_peer := ltac:(updater eta_tr tr_peer).
Definition set_tr_pending_peer := ltac:(updater eta_tr tr_pending_peer).
Definition set_tr_peer_known := ltac:(updater eta_tr tr_peer_known).
Definition set_tr_pending_peer_known := ltac:(updater eta_tr tr_pending_peer_known).
Definition set_tr_accept_first_peer := ltac:(updater eta_tr tr_accept_first_peer).
Definition set_tr_hub_mode := ltac:(updater eta_tr tr_hub_mode).
Definition set_tr_hub_slot_known := ltac:(updater eta_tr tr_hub_slot_known).
Definition set_tr_hub_slot_addr := ltac:(updater eta_tr tr_hub_slot_addr).
Definition set_tr_ice_fns := ltac:(updater eta_tr tr_ice_fns).
Definition set_tr_ice_ctx := ltac:(updater eta_tr tr_ice_ctx).
Definition set_tr_hub_ice_ctx := ltac:(updater eta_tr tr_hub_ice_ctx).
Definition set_tr_hub_rr := ltac:(updater eta_tr tr_hub_rr).
Definition set_tr_netsim := ltac:(updater eta_tr tr_netsim).
Definition set_tr_netsim_probed := ltac:(updater eta_tr tr_netsim_probed).

Definition rnet_transport_init : RNetTransport :=
  mkTr TRANSPORT_NONE false addr_zero addr_zero false false false false (repeat false 8) (repeat addr_zero 8)
    false None (repeat None 8) 0 None false.

(** The peer addresses stay: their flags are cleared. *)
Definition rnet_transport_shutdown (t : RNetTransport) : RNetTransport :=
  mkTr TRANSPORT_NONE (if bool_decide (tr_mode t = TRANSPORT_LAN_UDP) then false else tr_sock t)
    (tr_peer t) (tr_pending_peer t) false false false false (repeat false 8) (repeat addr_zero 8)
    false None (repeat None 8) 0 None false.

(** ** Starting *)

Definition lan_bind_socket (bind_hostport : string) (t : RNetTransport) (w : W) : bool * RNetTransport :=
  let t := rnet_transport_shutdown t in
  match rnet_os_parse_hostport bind_hostport 128 with
  | None => (false, t)
  | Some (host, port) =>
      match rnet_os_resolve_sockaddr (os_lookup w) host port with
      | None => (false, t)
      | Some bind_addr =>
          if negb (os_socket w) then (false, set_tr_sock false t) else
          if negb (os_bind bind_addr w) then (false, set_tr_sock false t) else
          if negb (os_nonblocking w) then (false, set_tr_sock false t) else
          (true, set_tr_mode TRANSPORT_LAN_UDP (set_tr_sock true t))
      end
  end.

Definition rnet_transport_start_lan (bind_hostport peer_hostport : string) (t : RNetTransport) (w : W) : bool * RNetTransport :=
  let '(ok, t) := lan_bind_socket bind_hostport t w in
  if negb ok then (false, t) else
  if String.eqb peer_hostport "" then (true, set_tr_accept_first_peer true (set_tr_peer_known false t)) else
  let closed := set_tr_mode TRANSPORT_NONE (set_tr_sock false t) in
  match rnet_os_parse_hostport peer_hostport 128 with
  | None => (false, closed)
  | Some (host, port) =>
      if port =? 0 then (false, closed) else
      match rnet_os_resolve_sockaddr (os_lookup w) host port with
      | None => (false, closed)
      | Some peer => (true, set_tr_peer_known true (set_tr_peer peer t))
      end
  end.

Definition rnet_transport_start_ice_hub (ctx : list (option Ctx)) (t : RNetTransport) : bool * RNetTransport :=
  let t := rnet_transport_shutdown t in
  let seats := None :: tail ctx in
  let t := set_tr_hub_ice_ctx seats t in
  if forallb (fun c => negb (is_some c)) seats then (false, t) else
  (true, set_tr_accept_first_peer false (set_tr_peer_known false (set_tr_hub_mode true
           (set_tr_ice_fns true (set_tr_mode TRANSPORT_ICE_HUB t))))).
Definition rnet_transport_start_lan_hub (bind_hostport : string) (t : RNetTransport) (w : W) : bool * RNetTransport :=
  let '(ok, t) := lan_bind_socket bind_hostport t w in
  if negb ok then (false, t) else
  (true, set_tr_accept_first_peer false (set_tr_peer_known false (set_tr_hub_mode true t))).

(** ** Sending *)

(** The seat a packet names in its body, except for the kinds without one. *)
Definition hub_packet_local_slot (buf : list Z) : option Z :=
  if zlen buf <? RNET_HUB_MIN_PACKET then None else
  let pkt_type := Z.lor (nth 4 buf 0) (Z.shiftl (nth 5 buf 0) 8) in
  if (pkt_type =? RNET_PKT_START) || (pkt_type =? RNET_PKT_DELAY_SYNC) then None
  else Some (nth RNET_HUB_HEADER_LEN buf 0).

(** Send to each of the addresses in turn. *)
Definition send_to_all (buf : list Z) (dst : list sockaddr_in) (w : W) : W :=
  fold_left (fun w a => snd (os_sendto buf a w)) dst w.
(** The addresses of the learned seats. *)
Definition hub_addrs (t : RNetTransport) : list sockaddr_in :=
  omap (fun '(k, a) => if (k : bool) then Some a else None) (zip (tr_hub_slot_known t) (tr_hub_slot_addr t)).

Definition hub_learn (buf : list Z) (src : sockaddr_in) (t : RNetTransport) : RNetTransport :=
  match hub_packet_local_slot buf with
  | Some slot =>
      if (0 <=? slot) && (slot <? RNET_MAX_SLOTS) then
        set_tr_peer_known true (set_tr_hub_slot_known (<[Z.to_nat slot := true]> (tr_hub_slot_known t))
          (set_tr_hub_slot_addr (<[Z.to_nat slot := src]> (tr_hub_slot_addr t)) t))
      else t
  | None => t
  end.
(** The search by source for a packet that names no seat only sets a local
    variable that nothing reads. *)
Definition hub_learn_and_forward (buf : list Z) (src : sockaddr_in) (t : RNetTransport) (w : W) : RNetTransport * W :=
  if zlen buf <? RNET_HUB_MIN_PACKET then (t, w) else
  let t := hub_learn buf src t in
  (t, send_to_all buf (filter (fun a => sockaddr_equal a src = false) (hub_addrs t)) w).

(** A broadcast: the answer of the last send that succeeded, 0 if none did. *)
Definition broadcast {A} (send : A -> W -> Z * W) (dst : list A) (w : W) : Z * W :=
  fold_left (fun '(n, w) a => let '(r, w) := send a w in (if 0 <=? r then r else n, w)) dst (0, w).

(** The agents of seats 1 to 7. *)
Definition hub_agents (t : RNetTransport) : list Ctx := omap id (tail (tr_hub_ice_ctx t)).

Definition rnet_transport_send (buf : list Z) (t : RNetTransport) (w : W) : Z * W :=
  if zlen buf =? 0 then (-1, w) else
  match tr_mode t with
  | TRANSPORT_LAN_UDP =>
      if negb (tr_sock t) then (-1, w) else
      if tr_hub_mode t then
        broadcast (os_sendto buf) (omap (fun '(k, a) => if (k : bool) then Some a else None)
                                     (tail (zip (tr_hub_slot_known t) (tr_hub_slot_addr t)))) w
      else if negb (tr_peer_known t) then (-1, w) else os_sendto buf (tr_peer t) w
  | TRANSPORT_ICE_HUB =>
      if negb (tr_ice_fns t) then (-1, w) else broadcast (fun c => ice_send c buf) (hub_agents t) w
  | TRANSPORT_ICE =>
      if negb (tr_ice_fns t) then (-1, w) else
      match tr_ice_ctx t with Some c => ice_send c buf w | None => (-1, w) end
  | TRANSPORT_NONE => (-1, w)
  end.

(** ** Receiving *)

(** A receive: a datagram with its source where the mode has one, nothing, or
    a hard error. A datagram of no bytes reports length 0, like nothing. *)
Inductive Recv := RGot (data : list Z) (src : option sockaddr_in) | RNone | RFail.

Fixpoint lan_recv (fuel : nat) (cap : Z) (t : RNetTransport) (w : W) : option (Recv * RNetTransport * W) :=
  match fuel with
  | O => None
  | S fuel =>
      let '(a, w) := os_recvfrom cap w in
      match a with
      | SkBlock => Some (RNone, t, w)
      | SkError => Some (RFail, t, w)
      | SkGram d src =>
          if tr_hub_mode t then
            let '(t, w) := hub_learn_and_forward d src t w in Some (RGot d (Some src), t, w)
          else if negb (tr_peer_known t) || sockaddr_equal src (tr_peer t) then Some (RGot d (Some src), t, w)
          else lan_recv fuel cap t w
      end
  end.

(** The next datagram of one agent that is long enough. *)
Fixpoint hub_seat_recv (fuel : nat) (cap : Z) (c : Ctx) (w : W) : option (option (list Z) * W) :=
  match fuel with
  | O => None
  | S fuel =>
      match ice_recv c cap w with
      | (None, w) => Some (None, w)
      | (Some d, w) => if zlen d <? RNET_HUB_MIN_PACKET then hub_seat_recv fuel cap c w else Some (Some d, w)
      end
  end.

(** The agents of the seats 1 to 7 other than [i]. *)
Definition hub_others (i : nat) (t : RNetTransport) : list Ctx :=
  omap (fun j => if (j =? i)%nat then None else mjoin (tr_hub_ice_ctx t !! j)) (seq 1 7).

Definition hub_accept (i : nat) (d : list Z) (t : RNetTransport) (w : W) : RNetTransport * W :=
  (set_tr_hub_rr ((i + 1) mod 8)%nat (set_tr_peer_known true (set_tr_hub_slot_known (<[i := true]> (tr_hub_slot_known t)) t)),
   fold_left (fun w c => snd (ice_send c d w)) (hub_others i t) w).

Fixpoint hub_scan (fuel : nat) (cap : Z) (seats : list nat) (t : RNetTransport) (w : W) : option (Recv * RNetTransport * W) :=
  match seats with
  | [] => Some (RNone, t, w)
  | i :: rest =>
      match (if (i =? 0)%nat then None else mjoin (tr_hub_ice_ctx t !! i)) with
      | None => hub_scan fuel cap rest t w
      | Some c =>
          match hub_seat_recv fuel cap c w with
          | None => None
          | Some (None, w) => hub_scan fuel cap rest t w
          | Some (Some d, w) => let '(t, w) := hub_accept i d t w in Some (RGot d None, t, w)
          end
      end
  end.
(** The seats from the cursor on. *)
Definition hub_order (rr : nat) : list nat := map (fun k => ((rr + k) mod 8)%nat) (seq 0 8).

Definition transport_recv_raw (fuel : nat) (cap : Z) (t : RNetTransport) (w : W) : option (Recv * RNetTransport * W) :=
  match tr_mode t with
  | TRANSPORT_LAN_UDP => if negb (tr_sock t) then Some (RFail, t, w) else lan_recv fuel cap t w
  | TRANSPORT_ICE_HUB => if negb (tr_ice_fns t) then Some (RFail, t, w) else hub_scan fuel cap (hub_order (tr_hub_rr t)) t w
  | TRANSPORT_ICE =>
      if negb (tr_ice_fns t) then Some (RFail, t, w) else
      match tr_ice_ctx t with
      | None => Some (RNone, t, w)
      | Some c =>
          let '(o, w) := ice_recv c cap w in
          Some (match o with Some d => RGot d None | None => RNone end, t, w)
      end
  | TRANSPORT_NONE => Some (RNone, t, w)
  end.

Definition transport_note_peer (src : option sockaddr_in) (t : RNetTransport) : RNetTransport :=
  match src with
  | Some src =>
      if negb (tr_hub_mode t) && tr_accept_first_peer t && negb (tr_peer_known t)
      then set_tr_pending_peer_known true (set_tr_pending_peer src t) else t
  | None => t
  end.

(** The earliest held datagram that is due; its source is zero where it had
    none. *)
Definition deliver_due (cap : Z) (none : Recv) (sim : RNetNetSim sockaddr_in) (t : RNetTransport) (w : W) : Recv * RNetTransport * W :=
  let '(o, sim) := rnet_netsim_due cap (os_clock w) sim in
  let t := set_tr_netsim (Some sim) t in
  match o with
  | Some (d, src) =>
      let src := default addr_zero src in
      (RGot d (Some src), transport_note_peer (Some src) t, w)
  | None => (none, t, w)
  end.

(** Everything the socket has goes into the simulator, then one datagram
    comes out. *)
Fixpoint sim_drain (fuel inner : nat) (cap : Z) (sim : RNetNetSim sockaddr_in) (t : RNetTransport) (w : W) : option (Recv * RNetTransport * W) :=
  match fuel with
  | O => None
  | S fuel =>
      match transport_recv_raw inner RNET_MAX_PACKET t w with
      | None => None
      | Some (RGot ((_ :: _) as d) src, t, w) =>
          let '(taken, sim) := rnet_netsim_hold d src (os_clock w) sim in
          if (taken : bool) then sim_drain fuel inner cap sim t w else
          if zlen d <=? cap then Some (RGot d src, transport_note_peer src (set_tr_netsim (Some sim) t), w)
          else Some (deliver_due cap RNone sim t w)
      | Some (RFail, t, w) => Some (deliver_due cap RFail sim t w)
      | Some (_, t, w) => Some (deliver_due cap RNone sim t w)
      end
  end.

Definition rnet_transport_recv (fuel : nat) (cap : Z) (t : RNetTransport) (w : W) : option (Recv * RNetTransport * W) :=
  if cap =? 0 then Some (RFail, t, w) else
  if bool_decide (tr_mode t = TRANSPORT_ICE_HUB) then transport_recv_raw fuel cap t w else
  let t := if tr_netsim_probed t then t
           else set_tr_netsim_probed true (set_tr_netsim (rnet_netsim_create os_getenv (os_calloc w) (os_clock w)) t) in
  match tr_netsim t with
  | None =>
      match transport_recv_raw fuel cap t w with
      | Some (RGot ((_ :: _) as d) src, t, w) => Some (RGot d src, transport_note_peer src t, w)
      | o => o
      end
  | Some sim => sim_drain fuel fuel cap (rnet_netsim_heartbeat (os_clock w) sim) t w
  end.

Definition rnet_transport_accept_pending_peer (t : RNetTransport) : RNetTransport :=
  if tr_hub_mode t || negb (tr_accept_first_peer t) || tr_peer_known t || negb (tr_pending_peer_known t) then t
  else set_tr_pending_peer_known false (set_tr_peer_known true (set_tr_peer (tr_pending_peer t) t)).
End Transport.
Arguments RNetTransport : clear implicits.
