(* ===== verification/TransportProofs.v ===== *)
(** * What the transport guarantees

    Receiving always ends; a point-to-point socket hands out the peer's
    datagrams only; a hub relays each accepted datagram to every other seat
    and never back, and no seat starves another. All against [NetLaws]; the
    queue world at the end is an instance of it. *)

From stdpp Require Import base list numbers list_numbers strings.
From S2P Require Import Prelude CStrings Slots Protocol Config NetSim Transport.

Lemma sockaddr_equal_eq a b : sockaddr_equal a b = true <-> a = b.
Proof.
  destruct a, b. unfold sockaddr_equal. cbn. rewrite !andb_true_iff, !Z.eqb_eq. naive_solver.
Qed.
Lemma sockaddr_equal_neq a b : sockaddr_equal a b = false <-> a <> b.
Proof. rewrite <-sockaddr_equal_eq. by destruct (sockaddr_equal a b). Qed.

Section Laws.
Context {W Ctx : Type} `{!EqDecision Ctx} `{!NetOps W Ctx} `{!NetLaws W Ctx}.
Notation T := (RNetTransport Ctx).

(** What a group of sends leaves alone. *)
Lemma send_to_all_spec buf dst (w : W) :
  let w' := send_to_all buf dst w in
  sent w' = sent w ++ map (pair buf) dst /\ ice_sent w' = ice_sent w /\ sock_q w' = sock_q w /\
  forall c, ice_q c w' = ice_q c w.
Proof.
  cbv zeta. revert w. unfold send_to_all. induction dst as [|a dst IH]; intros w; cbn; [by rewrite app_nil_r|].
  pose proof (sendto_law buf a w) as (H1 & H2 & H3 & H4). destruct (IH (snd (os_sendto buf a w))) as (I1 & I2 & I3 & I4).
  rewrite I1, I2, I3, H1, H2, H3, <-app_assoc. split_and!; try done. intros c. by rewrite I4, H4.
Qed.

(** ** The point-to-point socket *)

Definition from_peer (t : T) (src : sockaddr_in) : bool := negb (tr_peer_known t) || sockaddr_equal src (tr_peer t).

(** The loop skips strangers and stops at the first datagram it may take. *)
Lemma lan_recv_spec fuel cap (t : T) (w : W) : tr_hub_mode t = false -> (length (sock_q w) < fuel)%nat ->
  exists r w', lan_recv fuel cap t w = Some (r, t, w') /\ sent w' = sent w /\ ice_sent w' = ice_sent w /\
    (forall c, ice_q c w' = ice_q c w) /\
    exists skipped, Forall (fun g => from_peer t (snd g) = false) skipped /\
      match r with
      | RGot d src => exists d0 src0, d = take (Z.to_nat cap) d0 /\ src = Some src0 /\ from_peer t src0 = true /\
                        sock_q w = skipped ++ (d0, src0) :: sock_q w'
      | _ => sock_q w = skipped /\ sock_q w' = []
      end.
Proof.
  intros Hh. revert w. induction fuel as [|fuel IH]; intros w Hf; [lia|]. cbn.
  pose proof (recvfrom_law cap w) as H. destruct (os_recvfrom cap w) as [a w1]. destruct H as (S1 & S2 & S3 & Hq).
  destruct (sock_q w) as [|[d src] q] eqn:Eq.
  - destruct Hq as [[-> | ->] Hq]; eexists _, w1; (split; [done|]); split_and!; try done; exists []; split; done.
  - destruct Hq as [-> Hq]. rewrite Hh. fold (from_peer t src). destruct (from_peer t src) eqn:Ep.
    + eexists _, w1. split; [done|]. split_and!; try done. exists []. split; [done|]. exists d, src. by rewrite Hq.
    + cbn in Hf. destruct (IH w1) as (r & w' & -> & I1 & I2 & I3 & sk & Hs & Hr); [rewrite Hq; lia|].
      exists r, w'. rewrite I1, I2. split_and!; try done; [intros c; by rewrite I3|].
      exists ((d, src) :: sk). split; [by constructor|]. rewrite Hq in Hr.
      destruct r as [dr sr| |]; [destruct Hr as (d0 & src0 & ? & ? & ? & ->); exists d0, src0; done|..]; destruct Hr as [-> ?]; done.
Qed.

(** ** The ICE hub *)

(** A datagram long enough waits at [c]. *)
Definition long_enough (cap : Z) (d : list Z) : bool := RNET_HUB_MIN_PACKET <=? zlen (take (Z.to_nat cap) d).
Definition waiting (cap : Z) (c : Ctx) (w : W) : Prop := Exists (fun d => long_enough cap d = true) (ice_q c w).

Lemma seat_recv_spec fuel cap c (w : W) : 0 < cap -> (length (ice_q c w) < fuel)%nat ->
  exists o w', hub_seat_recv fuel cap c w = Some (o, w') /\ sent w' = sent w /\ ice_sent w' = ice_sent w /\ sock_q w' = sock_q w /\
    (forall c', c' <> c -> ice_q c' w' = ice_q c' w) /\
    exists skipped, Forall (fun d => long_enough cap d = false) skipped /\
      match o with
      | Some d => exists d0, d = take (Z.to_nat cap) d0 /\ long_enough cap d0 = true /\ ice_q c w = skipped ++ d0 :: ice_q c w'
      | None => ice_q c w = skipped /\ ice_q c w' = []
      end.
Proof.
  intros Hc. revert w. induction fuel as [|fuel IH]; intros w Hf; [lia|]. cbn.
  pose proof (ice_recv_law c cap w Hc) as H. destruct (ice_recv c cap w) as [o w1]. destruct H as (S1 & S2 & S3 & S4 & Hq).
  destruct (ice_q c w) as [|d q] eqn:Eq.
  - destruct Hq as [-> Hq]. eexists _, w1. split; [done|]. split_and!; try done. by exists [].
  - destruct Hq as [-> Hq]. destruct (zlen (take (Z.to_nat cap) d) <? RNET_HUB_MIN_PACKET) eqn:El.
    + cbn in Hf. destruct (IH w1) as (r & w' & -> & I1 & I2 & I3 & I4 & sk & Hs & Hr); [rewrite Hq; lia|].
      exists r, w'. rewrite I1, I2, I3. split_and!; try done; [intros c' Hne; by rewrite I4, S4|].
      exists (d :: sk). split; [constructor; [unfold long_enough; lia|done]|]. rewrite Hq in Hr.
      destruct r; [destruct Hr as (d0 & ? & ? & ->); by exists d0|]. destruct Hr as [-> ?]; done.
    + eexists _, w1. split; [done|]. split_and!; try done. exists []. split; [done|]. exists d. rewrite Hq.
      split_and!; [done|unfold long_enough; lia|done].
Qed.

Definition seat_ctx (t : T) (i : nat) : option Ctx := if (i =? 0)%nat then None else mjoin (tr_hub_ice_ctx t !! i).
(** The agents of different seats are different. *)
Definition seats_distinct (t : T) : Prop :=
  forall i j c, seat_ctx t i = Some c -> seat_ctx t j = Some c -> i = j.
Definition seat_waiting (cap : Z) (t : T) (w : W) (i : nat) : Prop := exists c, seat_ctx t i = Some c /\ waiting cap c w.

Lemma relay_spec d (l : list Ctx) (w : W) :
  let w' := fold_left (fun w c => snd (ice_send c d w)) l w in
  ice_sent w' = ice_sent w ++ map (fun c => (c, d)) l /\ sent w' = sent w /\ sock_q w' = sock_q w /\
  forall c, ice_q c w' = ice_q c w.
Proof.
  cbv zeta. revert w. induction l as [|a l IH]; intros w; cbn; [by rewrite app_nil_r|].
  pose proof (ice_send_law a d w) as (H1 & H2 & H3 & H4). destruct (IH (snd (ice_send a d w))) as (I1 & I2 & I3 & I4).
  rewrite I1, I2, I3, H1, H2, H3, <-app_assoc. split_and!; try done. intros c. by rewrite I4, H4.
Qed.

Lemma seat_waiting_proper cap (t : T) (w w' : W) c :
  (forall c', c' <> c -> ice_q c' w' = ice_q c' w) -> ~ waiting cap c w -> ~ waiting cap c w' ->
  forall j, seat_waiting cap t w' j <-> seat_waiting cap t w j.
Proof.
  intros Ho Hn Hn' j. unfold seat_waiting. split; intros (c' & Hc & Hw); exists c'; (split; [done|]);
    assert (c' <> c) by naive_solver; unfold waiting in *; [by rewrite <-Ho|by rewrite Ho].
Qed.

(** One pass over the seats: the first waiting one is served, its datagram
    goes to every other seat, and nobody else's waiting datagram is lost. *)
Lemma hub_scan_spec fuel cap seats (t : T) (w : W) : 0 < cap -> seats_distinct t -> (forall c, length (ice_q c w) < fuel)%nat ->
  exists r t' w', hub_scan fuel cap seats t w = Some (r, t', w') /\ sent w' = sent w /\
  match r with
  | RGot d src => exists pre i post c, seats = pre ++ i :: post /\ Forall (fun j => ~ seat_waiting cap t w j) pre /\
      seat_waiting cap t w i /\ src = None /\ seat_ctx t i = Some c /\
      (exists d0, d0 ∈ ice_q c w /\ d = take (Z.to_nat cap) d0 /\ long_enough cap d0 = true) /\
      t' = fst (hub_accept i d t w) /\ ice_sent w' = ice_sent w ++ map (fun c => (c, d)) (hub_others i t) /\
      forall j, j <> i -> seat_waiting cap t w j -> seat_waiting cap t w' j
  | RNone => t' = t /\ ice_sent w' = ice_sent w /\ Forall (fun j => ~ seat_waiting cap t w j) seats
  | RFail => False
  end.
Proof.
  intros Hc Hd. revert w. induction seats as [|i seats IH]; intros w Hf; cbn.
  { exists RNone, t, w. split_and!; done. }
  fold (seat_ctx t i). destruct (seat_ctx t i) as [c|] eqn:Ei.
  2: { destruct (IH w Hf) as (r & t' & w' & -> & Hs & Hr). exists r, t', w'. split_and!; [done..|].
       assert (~ seat_waiting cap t w i) as Hi by (intros (c & ? & _); congruence).
       destruct r as [d src| |]; [|destruct Hr as (? & ? & ?); split_and!; try done; by constructor|done].
       destruct Hr as (pre & i' & post & c & -> & Hp & Hr). exists (i :: pre), i', post, c. split; [done|]. split; [by constructor|done]. }
  destruct (seat_recv_spec fuel cap c w Hc (Hf c)) as (o & w1 & -> & S1 & S2 & S3 & S4 & sk & Hsk & Hr).
  destruct o as [d|].
  - destruct Hr as (d0 & -> & Hl & Hq). pose proof (relay_spec (take (Z.to_nat cap) d0) (hub_others i t) w1) as (R1 & R2 & R3 & R4).
    eexists _, _, _. split; [reflexivity|]. split; [exact (eq_trans R2 S1)|]. exists [], i, seats, c. split_and!; try done.
    + exists c. split; [done|]. unfold waiting. rewrite Hq. apply Exists_app; right. by constructor.
    + exists d0. split_and!; try done. rewrite Hq. apply elem_of_app; right. constructor.
    + by rewrite <-S2.
    + intros j Hj (cj & Hcj & Hw). exists cj. split; [done|]. red. cbn. rewrite R4, S4; [done|]. intros ->. by apply Hj, (Hd j i c).
  - destruct Hr as [Hq Hq']. assert (~ waiting cap c w) as Hn.
    { unfold waiting. rewrite Hq. rewrite Forall_forall in Hsk. rewrite Exists_exists. intros (x & Hx & Hl). by rewrite Hsk in Hl. }
    assert (~ waiting cap c w1) as Hn' by (unfold waiting; rewrite Hq'; by inversion 1).
    pose proof (seat_waiting_proper cap t w w1 c S4 Hn Hn') as Hiff.
    assert (~ seat_waiting cap t w i) as Hi by (intros (c' & ? & ?); congruence).
    assert (forall l, Forall (fun j => ~ seat_waiting cap t w1 j) l -> Forall (fun j => ~ seat_waiting cap t w j) l) as Hl.
    { intros l Hl. eapply Forall_impl; [exact Hl|]. intros j; cbn. by rewrite Hiff. }
    assert (forall c', ice_q c' w1 = ice_q c' w \/ ice_q c' w1 = []) as Hshrink.
    { intros c'. destruct (decide (c' = c)) as [->|Hne]; [by right|left; by apply S4]. }
    destruct (IH w1) as (r & t' & w' & -> & Hs & Hr).
    { intros c'. pose proof (Hf c'). destruct (Hshrink c') as [->| ->]; cbn; lia. }
    exists r, t', w'. split; [done|]. split; [by rewrite Hs|]. rewrite S2 in Hr. destruct r as [d src| |]; [|naive_solver|done].
    destruct Hr as (pre & i' & post & c' & -> & Hp & Hi' & -> & Hc' & (d0 & Hd0 & Hr) & -> & Ht & Hk).
    exists (i :: pre), i', post, c'. rewrite Hiff in Hi'. split_and!; try done; [by constructor; [|apply Hl]| |intros j; by rewrite <-(Hiff j); apply Hk].
    exists d0. split; [|done]. destruct (Hshrink c') as [<-|Hnil]; [done|]. by rewrite Hnil in Hd0; apply elem_of_nil in Hd0.
Qed.

(** ** Every receive ends *)

(** What is left to receive for a transport with one source. *)
Definition backlog (t : T) (w : W) : nat :=
  match tr_mode t with
  | TRANSPORT_LAN_UDP => length (sock_q w)
  | TRANSPORT_ICE => match tr_ice_ctx t with Some c => length (ice_q c w) | None => 0 end
  | _ => 0
  end%nat.
(** The fields a receive leaves alone. *)
Definition same_link (t t' : T) : Prop :=
  tr_mode t' = tr_mode t /\ tr_ice_ctx t' = tr_ice_ctx t /\ tr_hub_mode t' = tr_hub_mode t /\
  tr_sock t' = tr_sock t /\ tr_ice_fns t' = tr_ice_fns t.
Lemma same_backlog (t t' : T) (w : W) : same_link t t' -> backlog t' w = backlog t w.
Proof. intros (H1 & H2 & _). unfold backlog. by rewrite H1, H2. Qed.

Lemma learn_link buf src (t : T) : same_link t (hub_learn buf src t).
Proof. unfold hub_learn, same_link. destruct (hub_packet_local_slot buf); [destruct (_ && _)|]; split_and!; done. Qed.

(** The hub takes the head of the backlog and relays it. *)
Lemma lan_hub_recv_spec fuel cap (t : T) (w : W) : tr_hub_mode t = true ->
  exists r t' w', lan_recv (S fuel) cap t w = Some (r, t', w') /\
  match sock_q w with
  | [] => (r = RNone \/ r = RFail) /\ t' = t /\ sock_q w' = [] /\ sent w' = sent w
  | (d0, src) :: q => let d := take (Z.to_nat cap) d0 in
      r = RGot d (Some src) /\ sock_q w' = q /\
      if zlen d <? RNET_HUB_MIN_PACKET then t' = t /\ sent w' = sent w else
      t' = hub_learn d src t /\ sent w' = sent w ++ map (pair d) (filter (fun a => sockaddr_equal a src = false) (hub_addrs t'))
  end.
Proof.
  intros Hh. cbn. pose proof (recvfrom_law cap w) as H. destruct (os_recvfrom cap w) as [a w1]. destruct H as (S1 & S2 & S3 & Hq).
  destruct (sock_q w) as [|[d0 src] q].
  - destruct Hq as [[-> | ->] Hq]; eexists _, t, w1; (split; [done|]); auto.
  - destruct Hq as [-> Hq]. rewrite Hh. unfold hub_learn_and_forward. destruct (_ <? _).
    + eexists _, t, w1. split; [done|]. done.
    + set (d := take _ d0). set (t' := hub_learn d src t).
      pose proof (send_to_all_spec d (filter (fun a => sockaddr_equal a src = false) (hub_addrs t')) w1) as (I1 & _ & I3 & _).
      eexists _, t', _. split; [done|]. split; [done|]. split; [by rewrite <-Hq|]. split; [done|]. by rewrite <-S1.
Qed.

Lemma raw_progress fuel cap (t : T) (w : W) : 0 < cap -> tr_mode t <> TRANSPORT_ICE_HUB -> (backlog t w < fuel)%nat ->
  exists r t' w', transport_recv_raw fuel cap t w = Some (r, t', w') /\ same_link t t' /\
    match r with RGot _ _ => (backlog t w' < backlog t w)%nat | _ => True end.
Proof.
  intros Hc Hm Hf. unfold transport_recv_raw, backlog in *. destruct (tr_mode t) eqn:Em; [by eexists _, t, w| | |done].
  - destruct (tr_sock t); cbn; [|by eexists _, t, w]. destruct (tr_hub_mode t) eqn:Eh.
    + destruct fuel as [|fuel]; [lia|]. destruct (lan_hub_recv_spec fuel cap t w Eh) as (r & t' & w' & -> & H).
      exists r, t', w'. split; [done|]. destruct (sock_q w) as [|[d src] q].
      * destruct H as ([-> | ->] & -> & _); done.
      * destruct H as (-> & -> & H). split; [|cbn; lia]. destruct (_ <? _); destruct H as [-> _]; [done|apply learn_link].
    + destruct (lan_recv_spec fuel cap t w Eh Hf) as (r & w' & -> & _ & _ & _ & sk & _ & Hr).
      exists r, t, w'. split; [done|]. split; [done|]. destruct r as [d src| |]; [|done..].
      destruct Hr as (d0 & src0 & _ & _ & _ & ->). rewrite length_app. cbn. lia.
  - destruct (tr_ice_fns t); cbn; [|by eexists _, t, w]. destruct (tr_ice_ctx t) as [c|]; [|by eexists _, t, w].
    pose proof (ice_recv_law c cap w Hc) as H. destruct (ice_recv c cap w) as [o w1]. destruct H as (_ & _ & _ & _ & H).
    eexists _, t, w1. split; [done|]. split; [done|]. destruct (ice_q c w) as [|d q]; destruct H as [-> H]; [done|]. rewrite H. cbn. lia.
Qed.

Lemma sim_drain_terminates fuel inner cap sim (t : T) (w : W) : tr_mode t <> TRANSPORT_ICE_HUB ->
  (backlog t w < fuel)%nat -> (backlog t w < inner)%nat -> is_Some (sim_drain fuel inner cap sim t w).
Proof.
  revert sim t w. induction fuel as [|fuel IH]; intros sim t w Hm Hf Hi; [lia|]. cbn.
  destruct (raw_progress inner RNET_MAX_PACKET t w) as (r & t' & w' & -> & Hl & Hr); [done..|].
  destruct r as [[|b d] src| |]; eauto. destruct (rnet_netsim_hold (b :: d) src (os_clock w') sim) as [[] sim'].
  - apply IH; rewrite ?(same_backlog _ _ _ Hl); [|lia..]. by destruct Hl as (-> & _).
  - destruct (_ <=? _); eauto.
Qed.

(** A receive always ends, whatever the mode, with or without the link
    simulator: fuel above the length of the backlogs is enough. *)
Theorem transport_recv_terminates fuel cap (t : T) (w : W) : 0 <= cap -> seats_distinct t ->
  (length (sock_q w) < fuel)%nat -> (forall c, length (ice_q c w) < fuel)%nat ->
  is_Some (rnet_transport_recv fuel cap t w).
Proof.
  intros Hc Hd Hs Hi. unfold rnet_transport_recv. destruct (Z.eqb_spec cap 0); [by eexists|]. destruct (bool_decide_reflect (tr_mode t = TRANSPORT_ICE_HUB)) as [Hm|Hm].
  - unfold transport_recv_raw. rewrite Hm. destruct (tr_ice_fns t); cbn [negb]; [|by eexists].
    destruct (hub_scan_spec fuel cap (hub_order (tr_hub_rr t)) t w) as (r & t' & w' & -> & _); [lia|done..|by eexists].
  - assert (forall t', tr_mode t' = tr_mode t -> tr_ice_ctx t' = tr_ice_ctx t -> (backlog t' w < fuel)%nat) as Hb.
    { intros t' E1 E2. unfold backlog. rewrite E1, E2. repeat case_match; try lia; try apply Hi. }
    set (t1 := if tr_netsim_probed t then t else _). assert (tr_mode t1 = tr_mode t /\ tr_ice_ctx t1 = tr_ice_ctx t) as [E1 E2].
    { unfold t1. by destruct (tr_netsim_probed t). }
    destruct (tr_netsim t1) as [sim|]; [apply sim_drain_terminates; [by rewrite E1|by apply Hb..]|].
    destruct (raw_progress fuel cap t1 w) as (r & t' & w' & -> & _); [lia|by rewrite E1|by apply Hb|].
    destruct r as [[|b d] src| |]; by eexists.
Qed.

(** ** Delivery *)

Definition no_simulator (t : T) : Prop := tr_netsim_probed t = true /\ tr_netsim t = None.

(** A receive without the simulator only adds the note of who spoke. *)
Lemma recv_plain fuel cap (t : T) (w : W) : 0 < cap -> no_simulator t -> tr_mode t <> TRANSPORT_ICE_HUB ->
  rnet_transport_recv fuel cap t w =
    '(r, t', w') ← transport_recv_raw fuel cap t w;
    Some (r, match r with RGot (_ :: _) src => transport_note_peer src t' | _ => t' end, w').
Proof.
  intros Hc [H1 H2] Hm. unfold rnet_transport_recv. destruct (Z.eqb_spec cap 0); [lia|]. rewrite bool_decide_false by done.
  rewrite H1, H2. destruct (transport_recv_raw fuel cap t w) as [[[[[|b d] src| |] t'] w']|]; done.
Qed.

(** Once the peer is known, a point-to-point socket hands out the peer's
    datagrams and nobody else's, in order and cut to the buffer: a receive
    drops the strangers in front, delivers the first datagram of the peer,
    and reports nothing only when none is waiting. *)
Theorem lan_peer_filter fuel cap (t : T) (w : W) : 0 < cap -> no_simulator t -> tr_mode t = TRANSPORT_LAN_UDP ->
  tr_sock t = true -> tr_hub_mode t = false -> tr_peer_known t = true -> (length (sock_q w) < fuel)%nat ->
  exists r w' strangers, rnet_transport_recv fuel cap t w = Some (r, t, w') /\
    Forall (fun g => snd g <> tr_peer t) strangers /\
    match r with
    | RGot d src => src = Some (tr_peer t) /\
        exists d0, d = take (Z.to_nat cap) d0 /\ sock_q w = strangers ++ (d0, tr_peer t) :: sock_q w'
    | _ => sock_q w = strangers /\ sock_q w' = []
    end.
Proof.
  intros Hc Hn Hm Hs Hh Hk Hf. rewrite recv_plain by (done || by rewrite Hm). unfold transport_recv_raw. rewrite Hm, Hs. cbn [negb].
  destruct (lan_recv_spec fuel cap t w Hh Hf) as (r & w' & -> & _ & _ & _ & sk & Hsk & Hr). cbn [mbind option_bind].
  assert (forall src, from_peer t src = sockaddr_equal src (tr_peer t)) as Hp by (intros; unfold from_peer; by rewrite Hk).
  assert (forall src, transport_note_peer src t = t) as Ht.
  { intros [src|]; [|done]. unfold transport_note_peer. by rewrite Hk, andb_false_r. }
  exists r, w', sk. split; [|split].
  - destruct r as [[|b d] src| |]; by rewrite ?Ht.
  - eapply Forall_impl; [exact Hsk|]. intros g. cbn. by rewrite Hp, sockaddr_equal_neq.
  - destruct r as [d src| |]; [|done..]. destruct Hr as (d0 & src0 & -> & -> & H1 & H2).
    rewrite Hp, sockaddr_equal_eq in H1. subst src0. split; [done|]. by exists d0.
Qed.

(** A LAN hub relays what it accepts: the datagram at the head of the
    backlog is delivered to the host and, if long enough for a packet, sent
    once for every learned seat whose address is not the sender's - never
    back to the sender. *)
Theorem lan_hub_relays fuel cap (t : T) (w : W) d0 src q : 0 < cap -> no_simulator t -> tr_mode t = TRANSPORT_LAN_UDP ->
  tr_sock t = true -> tr_hub_mode t = true -> sock_q w = (d0, src) :: q ->
  let d := take (Z.to_nat cap) d0 in
  exists t' w' dst, rnet_transport_recv (S fuel) cap t w = Some (RGot d (Some src), t', w') /\ sock_q w' = q /\
    sent w' = sent w ++ map (pair d) dst /\ src ∉ dst /\
    (if zlen d <? RNET_HUB_MIN_PACKET then dst = [] /\ t' = t else
     forall a, a ∈ dst <-> a ∈ hub_addrs t' /\ a <> src).
Proof.
  intros Hc Hn Hm Hs Hh Hq. cbv zeta. rewrite recv_plain by (done || by rewrite Hm). unfold transport_recv_raw. rewrite Hm, Hs. cbn [negb].
  destruct (lan_hub_recv_spec fuel cap t w Hh) as (r & t' & w' & -> & H). rewrite Hq in H. cbn [mbind option_bind].
  destruct H as (-> & Hq' & H).
  assert (tr_hub_mode t' = true) as Hh'.
  { destruct (_ <? _); destruct H as [-> _]; [done|]. by destruct (learn_link (take (Z.to_nat cap) d0) src t) as (_ & _ & -> & _). }
  assert (match take (Z.to_nat cap) d0 with [] => t' | _ => transport_note_peer (Some src) t' end = t') as ->.
  { unfold transport_note_peer. rewrite Hh'. by destruct (take _ d0). }
  exists t', w'. destruct (_ <? _); destruct H as [Ht Hsent].
  - exists []. rewrite Hsent, app_nil_r. split_and!; try done. by intros ?%not_elem_of_nil.
  - eexists. split; [done|]. split; [done|]. split; [exact Hsent|].
    assert (forall a, a ∈ filter (fun a => sockaddr_equal a src = false) (hub_addrs t') <-> a ∈ hub_addrs t' /\ a <> src) as Ha.
    { intros a. rewrite list_elem_of_filter, sockaddr_equal_neq. tauto. }
    split; [|done]. rewrite Ha. tauto.
Qed.

(** ** Fairness of the ICE hub *)

Definition hub_ready (t : T) : Prop :=
  tr_mode t = TRANSPORT_ICE_HUB /\ tr_ice_fns t = true /\ (tr_hub_rr t < 8)%nat /\ seats_distinct t.
Definition served_seat (t : T) : nat := ((tr_hub_rr t + 7) mod 8)%nat.

(** One receive of the hub. *)
Lemma hub_recv_spec fuel cap (t : T) (w : W) : 0 < cap -> hub_ready t -> (forall c, length (ice_q c w) < fuel)%nat ->
  exists r t' w', rnet_transport_recv fuel cap t w = Some (r, t', w') /\ hub_ready t' /\ tr_hub_ice_ctx t' = tr_hub_ice_ctx t /\
  match r with
  | RGot d src => let i := served_seat t' in exists k c, (k < 8)%nat /\ i = ((tr_hub_rr t + k) mod 8)%nat /\ (i < 8)%nat /\
      tr_hub_rr t' = ((i + 1) mod 8)%nat /\
      (forall m, (m < k)%nat -> ~ seat_waiting cap t w ((tr_hub_rr t + m) mod 8)%nat) /\
      src = None /\ seat_ctx t i = Some c /\ (exists d0, d0 ∈ ice_q c w /\ d = take (Z.to_nat cap) d0 /\ long_enough cap d0 = true) /\
      ice_sent w' = ice_sent w ++ map (fun c => (c, d)) (hub_others i t) /\
      forall j, j <> i -> seat_waiting cap t w j -> seat_waiting cap t w' j
  | RNone => forall i, (i < 8)%nat -> ~ seat_waiting cap t w i
  | RFail => False
  end.
Proof.
  intros Hc (Hm & Hn & Hrr & Hd) Hf. unfold rnet_transport_recv. destruct (Z.eqb_spec cap 0); [lia|]. rewrite bool_decide_true by done.
  unfold transport_recv_raw. rewrite Hm, Hn. cbn [negb].
  destruct (hub_scan_spec fuel cap (hub_order (tr_hub_rr t)) t w Hc Hd Hf) as (r & t' & w' & -> & _ & Hr). exists r, t', w'. split; [done|].
  assert (forall k, (k < 8)%nat -> hub_order (tr_hub_rr t) !! k = Some ((tr_hub_rr t + k) mod 8)%nat) as Ho.
  { intros k Hk. unfold hub_order. rewrite list_lookup_fmap, lookup_seq_lt by done. done. }
  destruct r as [d src| |]; [|destruct Hr as (-> & _ & Hr); split; [done|]; split; [done|]|done].
  - destruct Hr as (pre & i & post & c & Hs & Hp & Hi & -> & Hci & Hd0 & -> & Hsent & Hk).
    assert (length pre < 8)%nat as Hl.
    { assert (length (hub_order (tr_hub_rr t)) = 8%nat) as Hlen by done. rewrite Hs, length_app in Hlen. cbn in Hlen. lia. }
    assert (i = ((tr_hub_rr t + length pre) mod 8)%nat) as Ei.
    { specialize (Ho _ Hl). rewrite Hs, list_lookup_middle in Ho by done. by injection Ho. }
    assert (i < 8)%nat as Hi8 by (subst i; apply Nat.mod_upper_bound; lia).
    assert (served_seat (fst (hub_accept i d t w)) = i) as ->.
    { unfold served_seat, hub_accept. cbn [fst tr_hub_rr set_tr_hub_rr]. do 8 (destruct i as [|i]; [done|]). lia. }
    split; [split_and!; [done..|apply (Nat.mod_upper_bound (i + 1) 8); lia|exact Hd]|]. split; [done|].
    exists (length pre), c. split_and!; try done. intros k Hkl. rewrite Forall_lookup in Hp. apply (Hp k).
    rewrite <-Ho by lia. by rewrite Hs, lookup_app_l.
  - intros i Hi. rewrite Forall_lookup in Hr. apply (Hr ((i + 8 - tr_hub_rr t) mod 8)%nat).
    rewrite Ho by (apply Nat.mod_upper_bound; lia). f_equal. rewrite Nat.Div0.add_mod_idemp_r.
    replace (tr_hub_rr t + (i + 8 - tr_hub_rr t))%nat with (i + 1 * 8)%nat by lia.
    rewrite Nat.Div0.mod_add. by apply Nat.mod_small.
Qed.

(** A sequence of receives; between them the world moves on. The seats served,
    in order. *)
Fixpoint hub_receives (fuel : nat) (cap : Z) (moves : list (W -> W)) (t : T) (w : W) : option (list nat) :=
  match moves with
  | [] => Some []
  | mv :: moves =>
      '(r, t, w) ← rnet_transport_recv fuel cap t (mv w);
      served ← hub_receives fuel cap moves t w;
      Some (match r with RGot _ _ => served_seat t :: served | _ => served end)
  end.

(** A move after which every agent's queue is shorter than [n]. *)
Definition bounded (n : nat) (mv : W -> W) : Prop := forall w c, (length (ice_q c (mv w)) < n)%nat.

Lemma hub_receives_total fuel cap (moves : list (W -> W)) (t : T) (w : W) : 0 < cap -> hub_ready t ->
  Forall (bounded fuel) moves -> is_Some (hub_receives fuel cap moves t w).
Proof.
  intros Hc Hr Hf. revert t w Hr. induction Hf as [|mv moves Hb Hf IH]; intros t w Hr; [by eexists|].
  destruct (hub_recv_spec fuel cap t (mv w) Hc Hr (Hb w)) as (r & t' & w' & Hrecv & Hr' & _).
  cbn [hub_receives]. rewrite Hrecv. cbn [mbind option_bind]. destruct (IH t' w' Hr') as [served ->]. by eexists.
Qed.

(** The cursor comes closer to a seat that it passes over. *)
Lemma cursor_closer rr k m : (k < m)%nat ->
  ((rr + m) mod 8 = (((rr + k) mod 8 + 1) mod 8 + (m - k - 1)) mod 8)%nat.
Proof.
  intros Hk. rewrite Nat.Div0.add_mod_idemp_l, <-Nat.add_assoc, Nat.Div0.add_mod_idemp_l. f_equal. lia.
Qed.

Lemma hub_fair_from fuel cap (moves : list (W -> W)) (t : T) (w : W) i m : 0 < cap -> hub_ready t -> (i < 8)%nat ->
  Forall (bounded fuel) moves ->
  Forall (fun mv => forall w, seat_waiting cap t w i -> seat_waiting cap t (mv w) i) moves ->
  seat_waiting cap t w i -> i = ((tr_hub_rr t + m) mod 8)%nat -> (m < length moves)%nat ->
  exists served, hub_receives fuel cap moves t w = Some served /\ i ∈ served.
Proof.
  intros Hc Hr Hi Hf. revert t w m Hr. induction Hf as [|mv moves Hb Hf IH]; intros t w m Hr Hmv Hw Hm Hl; [cbn in Hl; lia|].
  inversion Hmv as [|? ? H1 H2]; subst. apply H1 in Hw.
  destruct (hub_recv_spec fuel cap t (mv w) Hc Hr (Hb w)) as (r & t' & w' & Hrecv & Hr' & Hctx & Hcase).
  cbn [hub_receives]. rewrite Hrecv. cbn [mbind option_bind].
  assert (forall w j, seat_waiting cap t' w j <-> seat_waiting cap t w j) as Hsw by (intros; unfold seat_waiting, seat_ctx; by rewrite Hctx).
  assert (Forall (fun mv => forall w, seat_waiting cap t' w ((tr_hub_rr t + m) mod 8) -> seat_waiting cap t' (mv w) ((tr_hub_rr t + m) mod 8)) moves) as H2'.
  { eapply Forall_impl; [exact H2|]. intros mv' H w0. rewrite !Hsw. apply H. }
  destruct r as [d src| |]; [|by destruct (Hcase _ Hi)|done].
  destruct Hcase as (k & c & Hk8 & Hs & Hs8 & Hrr & Hpre & _ & _ & _ & _ & Hkeep).
  destruct (decide (((tr_hub_rr t + m) mod 8)%nat = served_seat t')) as [Heq|Hne].
  { destruct (hub_receives_total fuel cap moves t' w' Hc Hr' Hf) as [served ->]. eexists. split; [done|]. rewrite Heq. constructor. }
  assert (k < m)%nat as Hkm.
  { destruct (decide (m = k)) as [->|]; [congruence|]. destruct (decide (m < k)%nat); [by destruct (Hpre m)|lia]. }
  destruct (IH t' w' (m - k - 1)%nat) as (served & Hrec & Hin); [done..| | | |].
  - apply Hsw, Hkeep; done.
  - by rewrite Hrr, Hs, <-cursor_closer.
  - cbn in Hl. lia.
  - rewrite Hrec. eexists. split; [done|]. by constructor.
Qed.

(** C10. No seat of an ICE hub starves: while a guest has a packet waiting,
    one of any eight receives in a row serves it, however much the others
    send in between. *)
Theorem ice_hub_fair fuel cap (moves : list (W -> W)) (t : T) (w : W) i : 0 < cap -> hub_ready t -> (i < 8)%nat ->
  Forall (bounded fuel) moves ->
  Forall (fun mv => forall w, seat_waiting cap t w i -> seat_waiting cap t (mv w) i) moves ->
  seat_waiting cap t w i -> length moves = 8%nat ->
  exists served, hub_receives fuel cap moves t w = Some served /\ i ∈ served.
Proof.
  intros Hc Hr Hi Hf Hmv Hw Hl. destruct Hr as (Hm & Hn & Hrr & Hd).
  apply (hub_fair_from fuel cap moves t w i ((i + 8 - tr_hub_rr t) mod 8)%nat); try done.
  - rewrite Nat.Div0.add_mod_idemp_r. replace (tr_hub_rr t + (i + 8 - tr_hub_rr t))%nat with (i + 1 * 8)%nat by lia.
    rewrite Nat.Div0.mod_add. by rewrite Nat.mod_small.
  - rewrite Hl. apply Nat.mod_upper_bound. lia.
Qed.

(** An ICE hub attributes and relays by agent: a receive that delivers
    takes a datagram out of the queue of one seat's agent, whatever its body
    claims, relays it once to the agent of every other seat and to nobody
    else, and loses no other seat's waiting packet; a receive delivers
    nothing only when no seat has a packet waiting. *)
Theorem ice_hub_relays fuel cap (t : T) (w : W) : 0 < cap -> hub_ready t -> (forall c, length (ice_q c w) < fuel)%nat ->
  exists r t' w', rnet_transport_recv fuel cap t w = Some (r, t', w') /\
  match r with
  | RGot d src => exists c d0, seat_ctx t (served_seat t') = Some c /\ d0 ∈ ice_q c w /\
      d = take (Z.to_nat cap) d0 /\ RNET_HUB_MIN_PACKET <= zlen d /\
      ice_sent w' = ice_sent w ++ map (fun c => (c, d)) (hub_others (served_seat t') t) /\
      c ∉ hub_others (served_seat t') t /\
      forall j, j <> served_seat t' -> seat_waiting cap t w j -> seat_waiting cap t w' j
  | RNone => forall i, (i < 8)%nat -> ~ seat_waiting cap t w i
  | RFail => False
  end.
Proof.
  intros Hc Hr Hf. destruct (hub_recv_spec fuel cap t w Hc Hr Hf) as (r & t' & w' & H & _ & _ & Hcase).
  exists r, t', w'. split; [done|]. destruct r as [d src| |]; [|done..].
  destruct Hcase as (k & c & _ & _ & _ & _ & _ & _ & Hs & (d0 & Hd0 & -> & Hl) & Hsent & Hkeep).
  exists c, d0. split_and!; try done; [unfold long_enough in Hl; lia|]. unfold hub_others. rewrite list_elem_of_omap.
  intros (j & Hj & Hcj). destruct (Nat.eqb_spec j (served_seat t')); [done|]. destruct Hr as (_ & _ & _ & Hd).
  apply elem_of_seq in Hj. apply n, (Hd j (served_seat t') c); [|done]. unfold seat_ctx. destruct (Nat.eqb_spec j 0); [lia|done].
Qed.
End Laws.
