(* ===== verification/IceAgent.v ===== *)
(** * The ICE agent (src/ice/rnet_ice_agent.c, include/recomp_net/ice.h)

    A wrapper of one libjuice agent: its callbacks fill two rings under a
    mutex, its owner drains them, feeds signals in and sends. libjuice is the
    interface [Juice]: a handle is the list of calls made on it so far, most
    recent first, and every answer may depend on all of them. The emitted
    signals are returned. A thread's critical section is one step. *)

From stdpp Require Import base list numbers list_numbers strings.
From S2P Require Import Prelude CStrings Slots.

Definition RNET_ICE_RECV_QUEUE : nat := 256.
Definition RNET_ICE_RECV_MAX : Z := 2048.
Definition RNET_ICE_CAND_QUEUE : nat := 32.
Definition RNET_ICE_CAND_MAX : nat := 280.

Inductive RNetIceState := ICE_IDLE | ICE_GATHERING | ICE_CONNECTING | ICE_CONNECTED | ICE_COMPLETED | ICE_FAILED.
#[export] Instance ice_state_eq_dec : EqDecision RNetIceState.
Proof. solve_decision. Defined.
Definition rnet_ice_state_name (st : RNetIceState) : string :=
  match st with
  | ICE_IDLE => "idle" | ICE_GATHERING => "gathering" | ICE_CONNECTING => "connecting"
  | ICE_CONNECTED => "connected" | ICE_COMPLETED => "completed" | ICE_FAILED => "failed"
  end.

Inductive RNetSignalType :=
  SIGNAL_LOCAL_SDP | SIGNAL_REMOTE_SDP | SIGNAL_LOCAL_CANDIDATE | SIGNAL_REMOTE_CANDIDATE
| SIGNAL_GATHERING_DONE | SIGNAL_SET_CONTROLLING.
#[export] Instance signal_type_eq_dec : EqDecision RNetSignalType.
Proof. solve_decision. Defined.
Record RNetSignal := mkSig { sig_type : RNetSignalType; sig_flag : Z; sig_peer_slot : Z; sig_text : string }.
#[export] Instance signal_eq_dec : EqDecision RNetSignal.
Proof. solve_decision. Defined.

Record RNetIceConfig := mkIceConfig {
  ic_stun_host : option string; ic_stun_port : Z;
  ic_turn_host : option string; ic_turn_port : Z; ic_turn_user : option string; ic_turn_pass : option string;
  ic_bind_address : option string; ic_bind_port : Z;
  ic_controlling : bool; ic_force_relay : bool
}.
Definition rnet_ice_config_init_defaults : RNetIceConfig :=
  mkIceConfig (Some "stun.l.google.com"%string) 19302 None 0 None None None 0 true false.

(** ** libjuice *)

Inductive juice_state_t := JUICE_DISCONNECTED | JUICE_GATHERING | JUICE_CONNECTING | JUICE_CONNECTED | JUICE_COMPLETED | JUICE_FAILED.
Definition map_juice_state (st : juice_state_t) : RNetIceState :=
  match st with
  | JUICE_GATHERING => ICE_GATHERING
  | JUICE_CONNECTING => ICE_CONNECTING
  | JUICE_CONNECTED => ICE_CONNECTED
  | JUICE_COMPLETED => ICE_COMPLETED
  | JUICE_FAILED => ICE_FAILED
  | JUICE_DISCONNECTED => ICE_IDLE
  end.

(** The part of [juice_config_t] that is filled in: STUN, TURN, the bind
    address and the port. *)
Record JuiceConfig := mkJuiceConfig {
  jc_stun : option (string * Z);
  jc_turn : option (string * Z * string * string);
  jc_bind : option string;
  jc_port : Z
}.
Inductive JuiceCall :=
  JCreate (cfg : JuiceConfig) | JGather | JSetRemote (sdp : string) | JAddRemote (sdp : string) | JRemoteDone | JSend (data : list Z).

(** [juice_ok h c]: does call [c] succeed after the calls [h]; [juice_local]
    the local description; [juice_selected] the selected pair;
    [juice_sdp_cap] is [JUICE_MAX_SDP_STRING_LEN]. *)
Class Juice := {
  juice_ok : list JuiceCall -> JuiceCall -> bool;
  juice_local : list JuiceCall -> option string;
  juice_selected : list JuiceCall -> option (string * string);
  juice_sdp_cap : nat
}.

(** ** Candidate lines *)

Definition ice_candidate_is_relay (sdp : string) : bool := strstr " typ relay" sdp.
Definition ice_candidate_type (sdp : string) : string :=
  if strstr " typ relay" sdp then "relay" else
  if strstr " typ srflx" sdp then "srflx" else
  if strstr " typ prflx" sdp then "prflx" else
  if strstr " typ host" sdp then "host" else "unknown".

Definition is_blank (c : Ascii.ascii) : bool := (ch c =? 32) || (ch c =? 9).
Fixpoint skip_blank (s : string) : string :=
  match s with
  | String c r => if is_blank c then skip_blank r else s
  | EmptyString => s
  end.
Definition ice_line_is_candidate (p : string) : bool :=
  let p := skip_blank p in String.prefix "a=candidate:" p || String.prefix "candidate:" p.

(** The text up to the end of its first line, and from there on. *)
Definition is_eol (c : Ascii.ascii) : bool := (ch c =? 10) || (ch c =? 13).
Fixpoint span_eol (p : string) : string * string :=
  match p with
  | String c r => if is_eol c then (EmptyString, p) else let '(a, b) := span_eol r in (String c a, b)
  | EmptyString => (EmptyString, EmptyString)
  end.
Definition skip_char (k : Z) (p : string) : string :=
  match p with String c r => if ch c =? k then r else p | EmptyString => p end.
Definition newline : string := String (Ascii.ascii_of_nat 10) EmptyString.

(** One pass over the lines of [p], [out] being the text written so far; the
    test of a candidate line looks at [p], which is all the remaining text.
    [None] when it does not fit. *)
Fixpoint strip_lines (fuel : nat) (out_len : nat) (p out : string) : option string :=
  match fuel with
  | O => Some out
  | S fuel =>
      match p with
      | EmptyString => Some out
      | _ =>
          let '(line, eol) := span_eol p in
          let keep := if (0 <? String.length line)%nat && ice_line_is_candidate p then ice_candidate_is_relay p else true in
          let next := skip_char 10 (skip_char 13 eol) in
          if (keep : bool) then
            if (out_len <=? String.length out + String.length line + 2)%nat then None
            else strip_lines fuel out_len next (out +:+ line +:+ newline)
          else strip_lines fuel out_len next out
      end
  end.
(** Every pass takes a character at least, so the length is enough fuel. *)
Definition ice_sdp_strip_non_relay (in_ : string) (out_len : nat) : option string :=
  if (out_len =? 0)%nat then None else strip_lines (String.length in_) out_len in_ EmptyString.

(** [sscanf(s, "%u.%u.%u.%u")] with all four read. *)
Definition scan_u (s : string) : option (Z * string) := prod_map (fun n => u32 (ulong n)) id <$> strtol s.
Definition scan_dot (s : string) : option string :=
  match s with String c r => if ch c =? 46 then Some r else None | EmptyString => None end.
Definition scan_quad (s : string) : option (Z * Z * Z * Z) :=
  '(a, s) ← scan_u s; s ← scan_dot s;
  '(b, s) ← scan_u s; s ← scan_dot s;
  '(c, s) ← scan_u s; s ← scan_dot s;
  '(d, _) ← scan_u s;
  Some (a, b, c, d).
Definition quad_in_range (q : Z * Z * Z * Z) : bool :=
  let '(a, b, c, d) := q in (a <=? 255) && (b <=? 255) && (c <=? 255) && (d <=? 255).

Definition quad_is_private (q : Z * Z * Z * Z) : bool :=
  let '(a, b, _, _) := q in
  (a =? 10) || (a =? 127) || ((a =? 169) && (b =? 254)) || ((a =? 172) && (16 <=? b) && (b <=? 31)) || ((a =? 192) && (b =? 168)).
Definition ice_ipv4_is_private (ip : string) : bool :=
  match scan_quad ip with
  | Some q => quad_in_range q && quad_is_private q
  | None => false
  end.

(** The dotted form. *)
Definition print_quad (q : Z * Z * Z * Z) : string :=
  let '(a, b, c, d) := q in (print_dec a +:+ "." +:+ print_dec b +:+ "." +:+ print_dec c +:+ "." +:+ print_dec d)%string.

(** One token of at most 127 characters. *)
Fixpoint take_token (n : nat) (p : string) : string * string :=
  match n, p with
  | S n, String c r => if is_blank c then (EmptyString, p) else let '(a, b) := take_token n r in (String c a, b)
  | _, _ => (EmptyString, p)
  end.
Fixpoint candidate_field (fuel field : nat) (p : string) : option string :=
  match fuel with
  | O => None
  | S fuel =>
      match skip_blank p with
      | EmptyString => None
      | p => let '(tok, p) := take_token 127 p in
             if (field =? 4)%nat then Some tok else candidate_field fuel (S field) p
      end
  end.
Definition skip_prefix (pre p : string) : string :=
  if String.prefix pre p then String.substring (String.length pre) (String.length p - String.length pre) p else p.
(** The fifth field is reached in five tokens. *)
Definition ice_sdp_candidate_ipv4 (sdp : string) : option string :=
  let p := skip_prefix "candidate:" (skip_prefix "a=" sdp) in
  tok ← candidate_field 5 0 p;
  q ← scan_quad tok;
  if quad_in_range q then Some (print_quad q) else None.
Definition ice_sdp_has_public_ipv4 (sdp : string) : bool :=
  match ice_sdp_candidate_ipv4 sdp with Some ip => negb (ice_ipv4_is_private ip) | None => false end.

(** ** State *)

Record RNetIceAgent := mkAgent {
  ia_agent : option (list JuiceCall);
  ia_state : RNetIceState;
  ia_emit : bool;
  ia_gathering_done_posted : bool;
  ia_frozen : bool;
  ia_recv_drops : Z;
  ia_remote_desc_set : bool;
  ia_recv_q : list (list Z * Z);
  ia_recv_head : nat;
  ia_recv_tail : nat;
  ia_recv_count : nat;
  ia_cand_q : list string;
  ia_cand_head : nat;
  ia_cand_tail : nat;
  ia_cand_count : nat;
  ia_stun_host : string;
  ia_turn : option (string * Z * string * string);
  ia_bind_address : string;
  ia_stun_port : Z;
  ia_bind_port : Z;
  ia_controlling : bool;
  ia_gather_started : bool;
  ia_gather_pending : bool;
  ia_selected_logged : bool;
  ia_force_relay : bool;
  ia_relay_fallback_done : bool;
  ia_remote_cand_count : Z;
  ia_remote_public_cand_count : Z
}.
Definition eta_ia (a : RNetIceAgent) : RNetIceAgent :=
  mkAgent (ia_agent a) (ia_state a) (ia_emit a) (ia_gathering_done_posted a) (ia_frozen a) (ia_recv_drops a)
    (ia_remote_desc_set a) (ia_recv_q a) (ia_recv_head a) (ia_recv_tail a) (ia_recv_count a) (ia_cand_q a)
    (ia_cand_head a) (ia_cand_tail a) (ia_cand_count a) (ia_stun_host a) (ia_turn a) (ia_bind_address a)
    (ia_stun_port a) (ia_bind_port a) (ia_controlling a) (ia_gather_started a) (ia_gather_pending a)
    (ia_selected_logged a) (ia_force_relay a) (ia_relay_fallback_done a) (ia_remote_cand_count a) (ia_remote_public_cand_count a).
Definition set_ia_agent := ltac:(updater eta_ia ia_agent).
Definition set_ia_state := ltac:(updater eta_ia ia_state).
Definition set_ia_emit := ltac:(updater eta_ia ia_emit).
Definition set_ia_gathering_done_posted := ltac:(updater eta_ia ia_gathering_done_posted).
Definition set_ia_frozen := ltac:(updater eta_ia ia_frozen).
Definition set_ia_recv_drops := ltac:(updater eta_ia ia_recv_drops).
Definition set_ia_remote_desc_set := ltac:(updater eta_ia ia_remote_desc_set).
Definition set_ia_recv_q := ltac:(updater eta_ia ia_recv_q).
Definition set_ia_recv_head := ltac:(updater eta_ia ia_recv_head).
Definition set_ia_recv_tail := ltac:(updater eta_ia ia_recv_tail).
Definition set_ia_recv_count := ltac:(updater eta_ia ia_recv_count).
Definition set_ia_cand_q := ltac:(updater eta_ia ia_cand_q).
Definition set_ia_cand_head := ltac:(updater eta_ia ia_cand_head).
Definition set_ia_cand_tail := ltac:(updater eta_ia ia_cand_tail).
Definition set_ia_cand_count := ltac:(updater eta_ia ia_cand_count).
Definition set_ia_controlling := ltac:(updater eta_ia ia_controlling).
Definition set_ia_gather_started := ltac:(updater eta_ia ia_gather_started).
Definition set_ia_gather_pending := ltac:(updater eta_ia ia_gather_pending).
Definition set_ia_selected_logged := ltac:(updater eta_ia ia_selected_logged).
Definition set_ia_force_relay := ltac:(updater eta_ia ia_force_relay).
Definition set_ia_relay_fallback_done := ltac:(updater eta_ia ia_relay_fallback_done).
Definition set_ia_remote_cand_count := ltac:(updater eta_ia ia_remote_cand_count).
Definition set_ia_remote_public_cand_count := ltac:(updater eta_ia ia_remote_public_cand_count).

(** ** The rings *)

Definition queue_recv (data : list Z) (now : Z) (a : RNetIceAgent) : RNetIceAgent :=
  if (zlen data =? 0) || (RNET_ICE_RECV_MAX <? zlen data) then a else
  let a := if (RNET_ICE_RECV_QUEUE <=? ia_recv_count a)%nat then
             set_ia_recv_drops (u32 (ia_recv_drops a + 1)) (set_ia_recv_count (ia_recv_count a - 1)%nat
               (set_ia_recv_head ((ia_recv_head a + 1) mod RNET_ICE_RECV_QUEUE)%nat a))
           else a in
  set_ia_recv_count (ia_recv_count a + 1)%nat (set_ia_recv_tail ((ia_recv_tail a + 1) mod RNET_ICE_RECV_QUEUE)%nat
    (set_ia_recv_q (<[ia_recv_tail a := (data, now)]> (ia_recv_q a)) a)).

Definition queue_cand (sdp : string) (a : RNetIceAgent) : RNetIceAgent :=
  if String.eqb sdp "" then a else
  let a := if (RNET_ICE_CAND_QUEUE <=? ia_cand_count a)%nat then
             set_ia_cand_count (ia_cand_count a - 1)%nat (set_ia_cand_head ((ia_cand_head a + 1) mod RNET_ICE_CAND_QUEUE)%nat a)
           else a in
  set_ia_cand_count (ia_cand_count a + 1)%nat (set_ia_cand_tail ((ia_cand_tail a + 1) mod RNET_ICE_CAND_QUEUE)%nat
    (set_ia_cand_q (<[ia_cand_tail a := snprintf_s RNET_ICE_CAND_MAX sdp]> (ia_cand_q a)) a)).

(** The ring's [n] entries from [head] on. *)
Definition ring_list {A} (dflt : A) (size : nat) (slots : list A) (head n : nat) : list A :=
  map (fun k => nth ((head + k) mod size) slots dflt) (seq 0 n).

Definition rnet_ice_agent_recv_at (cap : Z) (a : RNetIceAgent) : option (list Z * Z) * RNetIceAgent :=
  if cap =? 0 then (None, a) else
  if (ia_recv_count a =? 0)%nat then (None, a) else
  let '(data, arrival) := nth (ia_recv_head a mod RNET_ICE_RECV_QUEUE) (ia_recv_q a) ([], 0) in
  (Some (take (Z.to_nat cap) data, arrival),
   set_ia_recv_count (ia_recv_count a - 1)%nat (set_ia_recv_head ((ia_recv_head a + 1) mod RNET_ICE_RECV_QUEUE)%nat a)).
Definition rnet_ice_agent_recv (cap : Z) (a : RNetIceAgent) : option (list Z) * RNetIceAgent :=
  prod_map (fmap fst) id (rnet_ice_agent_recv_at cap a).

(** ** Callbacks *)

Definition on_candidate (sdp : string) (a : RNetIceAgent) : RNetIceAgent :=
  if ia_force_relay a && negb (ice_candidate_is_relay sdp) then a else queue_cand sdp a.
Definition on_gathering_done (a : RNetIceAgent) : RNetIceAgent := set_ia_gathering_done_posted true a.
Definition on_recv (data : list Z) (now : Z) (a : RNetIceAgent) : RNetIceAgent := queue_recv data now a.

(** Signals to the owner. *)
Definition emit_signal (type : RNetSignalType) (text : string) (flag : Z) (a : RNetIceAgent) : list RNetSignal :=
  if ia_emit a then [mkSig type flag 255 (snprintf_s 2048 text)] else [].

Section Ops.
Context `{Juice}.

Definition log_selected_pair (a : RNetIceAgent) : RNetIceAgent :=
  match ia_agent a with
  | None => a
  | Some h => if ia_selected_logged a then a
              else if is_some (juice_selected h) then set_ia_selected_logged true a else a
  end.
Definition on_state_changed (st : juice_state_t) (a : RNetIceAgent) : RNetIceAgent :=
  let mapped := map_juice_state st in
  let a := set_ia_state mapped a in
  if bool_decide (mapped = ICE_CONNECTED) || bool_decide (mapped = ICE_COMPLETED) then log_selected_pair a else a.

(** The path of the selected pair. *)
Definition rnet_ice_agent_selected_path (a : RNetIceAgent) : option string :=
  h ← ia_agent a;
  Some match juice_selected h with
  | Some (local, remote) =>
      let lt := ice_candidate_type local in let rt := ice_candidate_type remote in
      if String.eqb lt "relay" || String.eqb rt "relay" then "relay"%string
      else if negb (String.eqb rt "unknown") then rt else lt
  | None => "unknown"%string
  end.

(** A call on the handle: its answer, and the handle after it. *)
Definition juice_call (c : JuiceCall) (a : RNetIceAgent) : bool * RNetIceAgent :=
  match ia_agent a with
  | Some h => (juice_ok h c, set_ia_agent (Some (c :: h)) a)
  | None => (false, a)
  end.

Definition ice_reset_runtime (a : RNetIceAgent) : RNetIceAgent :=
  set_ia_state ICE_IDLE (set_ia_remote_public_cand_count 0 (set_ia_remote_cand_count 0 (set_ia_selected_logged false
    (set_ia_gather_pending false (set_ia_gather_started false (set_ia_remote_desc_set false
      (set_ia_gathering_done_posted false
        (set_ia_cand_count 0%nat (set_ia_cand_tail 0%nat (set_ia_cand_head 0%nat
          (set_ia_recv_count 0%nat (set_ia_recv_tail 0%nat (set_ia_recv_head 0%nat
            (set_ia_agent None a)))))))))))))).

Definition juice_config (a : RNetIceAgent) : JuiceConfig :=
  mkJuiceConfig
    (if negb (String.eqb (ia_stun_host a) "") && negb (ia_force_relay a)
     then Some (ia_stun_host a, if ia_stun_port a =? 0 then 3478 else ia_stun_port a) else None)
    (ia_turn a)
    (if String.eqb (ia_bind_address a) "" then None else Some (ia_bind_address a))
    (ia_bind_port a).
Definition ice_create_juice (a : RNetIceAgent) : bool * RNetIceAgent :=
  let c := JCreate (juice_config a) in
  if juice_ok [] c then (true, set_ia_agent (Some [c]) a) else (false, set_ia_agent None a).

Definition nonempty (o : option string) : bool := match o with Some (String _ _) => true | _ => false end.
Definition text (o : option string) : string := default EmptyString o.

(** [forced] is the build's [RNET_ICE_FORCE_TURN]. *)
Definition rnet_ice_agent_create (forced calloc_ok : bool) (cfg : RNetIceConfig) (emit : bool) : option RNetIceAgent :=
  if negb calloc_ok then None else
  let stun := nonempty (ic_stun_host cfg) in
  let turn := nonempty (ic_turn_host cfg) && is_some (ic_turn_user cfg) && is_some (ic_turn_pass cfg) in
  let a := mkAgent None ICE_IDLE emit false false 0 false
    (repeat ([], 0) RNET_ICE_RECV_QUEUE) 0 0 0 (repeat EmptyString RNET_ICE_CAND_QUEUE) 0 0 0
    (if stun then snprintf_s 128 (text (ic_stun_host cfg)) else EmptyString)
    (if turn then Some (snprintf_s 128 (text (ic_turn_host cfg)), if ic_turn_port cfg =? 0 then 3478 else ic_turn_port cfg,
                        snprintf_s 192 (text (ic_turn_user cfg)), snprintf_s 128 (text (ic_turn_pass cfg))) else None)
    (if nonempty (ic_bind_address cfg) then snprintf_s 64 (text (ic_bind_address cfg)) else EmptyString)
    (if stun then if ic_stun_port cfg =? 0 then 3478 else ic_stun_port cfg else 0)
    (ic_bind_port cfg) (ic_controlling cfg) false false false (forced || ic_force_relay cfg) false 0 0 in
  let '(ok, a) := ice_create_juice a in if (ok : bool) then Some a else None.

Definition ice_note_remote_candidate (sdp : string) (a : RNetIceAgent) : RNetIceAgent :=
  if String.eqb sdp "" then a else
  let a := set_ia_remote_cand_count (u32 (ia_remote_cand_count a + 1)) a in
  if ice_sdp_has_public_ipv4 sdp then set_ia_remote_public_cand_count (u32 (ia_remote_public_cand_count a + 1)) a else a.

Definition rnet_ice_agent_has_turn (a : RNetIceAgent) : bool := is_some (ia_turn a).
Definition rnet_ice_agent_remote_only_private (a : RNetIceAgent) : bool :=
  (0 <? ia_remote_cand_count a) && (ia_remote_public_cand_count a =? 0).
Definition rnet_ice_agent_mark_relay_fallback_done (a : RNetIceAgent) : RNetIceAgent := set_ia_relay_fallback_done true a.

(** With the remote description filtered where only relays are wanted; the
    text as it is where the filtered one does not fit. *)
Definition relay_filtered (a : RNetIceAgent) (sdp : string) : string :=
  if ia_force_relay a then default sdp (ice_sdp_strip_non_relay sdp juice_sdp_cap) else sdp.

Definition ice_gather_now (a : RNetIceAgent) : bool * RNetIceAgent * list RNetSignal :=
  if ia_gather_started a then (true, a, []) else
  let '(ok, a) := juice_call JGather a in
  if negb ok then (false, a, []) else
  let a := set_ia_gather_pending false (set_ia_gather_started true a) in
  (true, a, match ia_agent a ≫= juice_local with
            | Some sdp => emit_signal SIGNAL_LOCAL_SDP (relay_filtered a sdp) 0 a
            | None => []
            end).

Definition rnet_ice_agent_start_gathering (a : RNetIceAgent) : bool * RNetIceAgent * list RNetSignal :=
  if negb (is_some (ia_agent a)) then (false, a, []) else
  if negb (ia_controlling a) && negb (ia_remote_desc_set a) then (true, set_ia_gather_pending true a, [])
  else ice_gather_now a.

Definition rnet_ice_agent_restart_force_relay (a : RNetIceAgent) : bool * RNetIceAgent * list RNetSignal :=
  if negb (is_some (ia_turn a)) || ia_relay_fallback_done a then (false, a, []) else
  let a := set_ia_relay_fallback_done true (set_ia_force_relay true a) in
  let a := set_ia_frozen false (ice_reset_runtime a) in
  let '(ok, a) := ice_create_juice a in
  if negb ok then (false, a, []) else rnet_ice_agent_start_gathering a.

(** All queued candidates, then the end of gathering. *)
Definition rnet_ice_agent_poll (a : RNetIceAgent) : RNetIceAgent * list RNetSignal :=
  let n := Nat.min (ia_cand_count a) RNET_ICE_CAND_QUEUE in
  let drain := ring_list EmptyString RNET_ICE_CAND_QUEUE (ia_cand_q a) (ia_cand_head a) n in
  let done := ia_gathering_done_posted a in
  let a := set_ia_gathering_done_posted false (set_ia_cand_count (ia_cand_count a - n)%nat
             (set_ia_cand_head ((ia_cand_head a + n) mod RNET_ICE_CAND_QUEUE)%nat a)) in
  (a, flat_map (fun sdp => emit_signal SIGNAL_LOCAL_CANDIDATE sdp 0 a) drain ++
      if done then emit_signal SIGNAL_GATHERING_DONE EmptyString 0 a else []).

(** The part of the offer's case after a possible restart. *)
Definition apply_remote_sdp (sdp : string) (a : RNetIceAgent) : RNetIceAgent * list RNetSignal :=
  let '(ok, a) := juice_call (JSetRemote (relay_filtered a sdp)) a in
  if negb ok then (a, []) else
  let a := set_ia_remote_desc_set true a in
  if ia_gather_pending a || negb (ia_controlling a)
  then let '(_, a, out) := ice_gather_now a in (a, out) else (a, []).
Definition push_remote_sdp (sdp : string) (a : RNetIceAgent) : RNetIceAgent * list RNetSignal :=
  if ia_frozen a || String.eqb sdp "" then (a, []) else
  if ia_remote_desc_set a then
    let a := if is_some (ia_turn a) && negb (ia_force_relay a)
             then set_ia_relay_fallback_done true (set_ia_force_relay true a) else a in
    let '(ok, a) := ice_create_juice (ice_reset_runtime a) in
    if negb ok then (a, []) else apply_remote_sdp sdp a
  else apply_remote_sdp sdp a.

Definition rnet_ice_agent_push_signal (msg : RNetSignal) (a : RNetIceAgent) : RNetIceAgent * list RNetSignal :=
  match sig_type msg with
  | SIGNAL_REMOTE_SDP => push_remote_sdp (sig_text msg) a
  | SIGNAL_REMOTE_CANDIDATE =>
      if ia_frozen a || negb (is_some (ia_agent a)) || String.eqb (sig_text msg) "" then (a, []) else
      if ia_force_relay a && negb (ice_candidate_is_relay (sig_text msg)) then (a, []) else
      (snd (juice_call (JAddRemote (sig_text msg)) (ice_note_remote_candidate (sig_text msg) a)), [])
  | SIGNAL_GATHERING_DONE => (snd (juice_call JRemoteDone a), [])
  | SIGNAL_SET_CONTROLLING =>
      let a := set_ia_controlling (nz (sig_flag msg)) a in
      if ia_controlling a && ia_gather_pending a && is_some (ia_agent a)
      then let '(_, a, out) := ice_gather_now a in (a, out) else (a, [])
  | _ => (a, [])
  end.

Definition rnet_ice_agent_set_emit (emit : bool) (a : RNetIceAgent) : RNetIceAgent := set_ia_emit emit a.
Definition rnet_ice_agent_freeze (a : RNetIceAgent) : RNetIceAgent := set_ia_frozen true a.

Definition rnet_ice_agent_send (buf : list Z) (a : RNetIceAgent) : Z * RNetIceAgent :=
  if negb (is_some (ia_agent a)) || (zlen buf =? 0) then (-1, a) else
  if negb (bool_decide (ia_state a = ICE_CONNECTED)) && negb (bool_decide (ia_state a = ICE_COMPLETED)) then (-1, a) else
  let '(ok, a) := juice_call (JSend buf) a in (if (ok : bool) then zlen buf else -1, a).
End Ops.
