(* ===== verification/IceProofs.v ===== *)
(** * What the ICE agent guarantees

    Its rings are bounded queues that shed their oldest entry; in relay-only
    operation libjuice and the peer see relay candidates only, as far as
    trickled candidates go; a frozen agent's link is not touched by signals.
    The filter of a whole description is looser than meant. *)

From stdpp Require Import base list numbers list_numbers strings.
From S2P Require Import Prelude CStrings Slots IceAgent.

(** ** Rings *)

Section Ring.
Context {A : Type} (dflt : A) (size : nat).
Hypothesis size_pos : (0 < size)%nat.
Abbreviation ring := (ring_list dflt size).

Lemma ring_length slots head n : length (ring slots head n) = n.
Proof. unfold ring_list. by rewrite length_map, length_seq. Qed.

Lemma ring_pop slots head n : (0 < n)%nat ->
  ring slots head n = nth (head mod size) slots dflt :: ring slots ((head + 1) mod size) (n - 1).
Proof.
  intros Hn. destruct n as [|n]; [lia|]. unfold ring_list. cbn [seq map]. rewrite Nat.add_0_r. f_equal.
  rewrite <-seq_shift, map_map. replace (S n - 1)%nat with n by lia. apply map_ext. intros k.
  rewrite Nat.Div0.add_mod_idemp_l. do 2 f_equal. lia.
Qed.

Lemma mod_inj head j k : (j < size)%nat -> (k < size)%nat -> ((head + j) mod size = (head + k) mod size)%nat -> j = k.
Proof.
  intros Hj Hk He. pose proof (Nat.div_mod_eq (head + j) size) as E1. pose proof (Nat.div_mod_eq (head + k) size) as E2.
  rewrite He in E1. destruct (lt_eq_lt_dec ((head + j) / size) ((head + k) / size)) as [[Hl|Hl]|Hl]; nia.
Qed.

Lemma ring_push slots head n x : length slots = size -> (n < size)%nat ->
  ring (<[((head + n) mod size)%nat := x]> slots) head (n + 1) = ring slots head n ++ [x].
Proof.
  intros Hl Hn. unfold ring_list. rewrite seq_app, map_app. cbn [seq map Nat.add]. f_equal.
  - apply map_ext_in. intros k Hk%in_seq. rewrite !nth_lookup, list_lookup_insert_ne; [done|]. intros He%mod_inj; lia.
  - by rewrite nth_lookup, list_lookup_insert_eq by (rewrite Hl; apply Nat.mod_upper_bound; lia).
Qed.

Lemma ring_elem slots head n x : x ∈ ring slots head n -> exists k, (k < n)%nat /\ x = nth ((head + k) mod size) slots dflt.
Proof. unfold ring_list. intros (k & -> & Hk)%list_elem_of_fmap. exists k. split; [apply elem_of_seq in Hk; lia|done]. Qed.
End Ring.

(** ** The receive queue *)

(** The queue as a list, oldest first, and the well-formed ring. *)
Definition recv_list (a : RNetIceAgent) : list (list Z * Z) :=
  ring_list ([], 0) RNET_ICE_RECV_QUEUE (ia_recv_q a) (ia_recv_head a) (ia_recv_count a).
Definition cand_list (a : RNetIceAgent) : list string :=
  ring_list EmptyString RNET_ICE_CAND_QUEUE (ia_cand_q a) (ia_cand_head a) (ia_cand_count a).
Record rings_ok (a : RNetIceAgent) : Prop := {
  ro_recv_len : length (ia_recv_q a) = RNET_ICE_RECV_QUEUE;
  ro_recv_count : (ia_recv_count a <= RNET_ICE_RECV_QUEUE)%nat;
  ro_recv_tail : ia_recv_tail a = ((ia_recv_head a + ia_recv_count a) mod RNET_ICE_RECV_QUEUE)%nat;
  ro_cand_len : length (ia_cand_q a) = RNET_ICE_CAND_QUEUE;
  ro_cand_count : (ia_cand_count a <= RNET_ICE_CAND_QUEUE)%nat;
  ro_cand_tail : ia_cand_tail a = ((ia_cand_head a + ia_cand_count a) mod RNET_ICE_CAND_QUEUE)%nat
}.

(** A bounded queue that sheds its oldest entry. *)
Definition shed_push {A} (cap : nat) (x : A) (q : list A) : list A :=
  (if (cap <=? length q)%nat then tail q else q) ++ [x].

Lemma ring_shed_push {A} (dflt : A) size slots head n x : (0 < size)%nat -> length slots = size -> (n <= size)%nat ->
  let full := (size <=? n)%nat in
  let head' := if full then ((head + 1) mod size)%nat else head in
  let n' := if full then (n - 1)%nat else n in
  ring_list dflt size (<[((head + n) mod size)%nat := x]> slots) head' (n' + 1) = shed_push size x (ring_list dflt size slots head n) /\
  (n' < size)%nat /\ ((head + n) mod size = (head' + n') mod size)%nat.
Proof.
  intros Hs Hl Hn. cbv zeta. unfold shed_push. rewrite ring_length. destruct (Nat.leb_spec size n).
  - assert (((head + n) mod size = ((head + 1) mod size + (n - 1)) mod size)%nat) as E.
    { rewrite Nat.Div0.add_mod_idemp_l. f_equal. lia. }
    rewrite (ring_pop dflt size Hs slots head n) by lia. cbn [tail]. rewrite E. split; [apply ring_push|]; lia.
  - split; [apply ring_push; lia|]. split; [lia|done].
Qed.

Lemma queue_recv_spec data now a : rings_ok a -> 0 < zlen data <= RNET_ICE_RECV_MAX ->
  let a' := queue_recv data now a in
  rings_ok a' /\ recv_list a' = shed_push RNET_ICE_RECV_QUEUE (data, now) (recv_list a) /\
  ia_recv_drops a' = if (RNET_ICE_RECV_QUEUE <=? ia_recv_count a)%nat then u32 (ia_recv_drops a + 1) else ia_recv_drops a.
Proof.
  intros [R1 R2 R3 C1 C2 C3] Hd. cbv zeta. unfold queue_recv.
  replace ((zlen data =? 0) || (RNET_ICE_RECV_MAX <? zlen data)) with false by lia.
  destruct (ring_shed_push ([], 0) RNET_ICE_RECV_QUEUE (ia_recv_q a) (ia_recv_head a) (ia_recv_count a) (data, now)) as (P1 & P2 & P3);
    [unfold RNET_ICE_RECV_QUEUE; lia|done..|].
  unfold recv_list. rewrite <-P1. rewrite <-R3 in *. destruct (RNET_ICE_RECV_QUEUE <=? ia_recv_count a)%nat; cbn -[Nat.modulo RNET_ICE_RECV_QUEUE] in *.
  all: (split; [|done]); split; cbn -[Nat.modulo RNET_ICE_RECV_QUEUE]; rewrite ?length_insert; try done; try lia.
  all: rewrite P3, Nat.Div0.add_mod_idemp_l; f_equal; lia.
Qed.

Lemma queue_cand_spec sdp a : rings_ok a -> sdp <> EmptyString ->
  let a' := queue_cand sdp a in
  rings_ok a' /\ cand_list a' = shed_push RNET_ICE_CAND_QUEUE (snprintf_s RNET_ICE_CAND_MAX sdp) (cand_list a).
Proof.
  intros [R1 R2 R3 C1 C2 C3] Hs. cbv zeta. unfold queue_cand. destruct (String.eqb_spec sdp ""); [done|].
  destruct (ring_shed_push EmptyString RNET_ICE_CAND_QUEUE (ia_cand_q a) (ia_cand_head a) (ia_cand_count a)
    (snprintf_s RNET_ICE_CAND_MAX sdp)) as (P1 & P2 & P3); [unfold RNET_ICE_CAND_QUEUE; lia|done..|].
  unfold cand_list. rewrite <-P1. rewrite <-C3 in *.
  destruct (RNET_ICE_CAND_QUEUE <=? ia_cand_count a)%nat; cbn -[Nat.modulo RNET_ICE_CAND_QUEUE] in *.
  all: (split; [|done]); split; cbn -[Nat.modulo RNET_ICE_CAND_QUEUE]; rewrite ?length_insert; try done; try lia.
  all: rewrite P3, Nat.Div0.add_mod_idemp_l; f_equal; lia.
Qed.

(** Taking needs no well-formed ring. *)
Lemma recv_at_spec cap a : 0 < cap ->
  let '(o, a') := rnet_ice_agent_recv_at cap a in
  match recv_list a with
  | [] => o = None /\ a' = a
  | (d, t) :: q => o = Some (take (Z.to_nat cap) d, t) /\ recv_list a' = q /\
      (rings_ok a -> rings_ok a') /\ ia_recv_drops a' = ia_recv_drops a
  end.
Proof.
  intros Hc. unfold rnet_ice_agent_recv_at, recv_list. destruct (Z.eqb_spec cap 0); [lia|].
  destruct (Nat.eqb_spec (ia_recv_count a) 0) as [->|Hn]; [done|]. rewrite ring_pop by (unfold RNET_ICE_RECV_QUEUE; lia).
  destruct (nth _ (ia_recv_q a) ([], 0)) as [d t]. split; [done|]. split; [done|]. split; [|done].
  intros [R1 R2 R3 C1 C2 C3]. split; cbn -[Nat.modulo RNET_ICE_RECV_QUEUE]; try done; [lia|].
  rewrite R3, Nat.Div0.add_mod_idemp_l. f_equal. lia.
Qed.

(** Arrivals and takes; the reference queue keeps [(queue, dropped)]. *)
Inductive IceEvent := EvArrive (data : list Z) (now : Z) | EvTake (cap : Z).
Fixpoint ice_run (evs : list IceEvent) (a : RNetIceAgent) : list (option (list Z * Z)) * RNetIceAgent :=
  match evs with
  | [] => ([], a)
  | EvArrive d now :: r => ice_run r (on_recv d now a)
  | EvTake cap :: r => let '(o, a) := rnet_ice_agent_recv_at cap a in let '(os, a) := ice_run r a in (o :: os, a)
  end.
Fixpoint fifo_run (evs : list IceEvent) (q : list (list Z * Z)) (dropped : Z) : list (option (list Z * Z)) * list (list Z * Z) * Z :=
  match evs with
  | [] => ([], q, dropped)
  | EvArrive d now :: r =>
      if (zlen d =? 0) || (RNET_ICE_RECV_MAX <? zlen d) then fifo_run r q dropped
      else fifo_run r (shed_push RNET_ICE_RECV_QUEUE (d, now) q) (if (RNET_ICE_RECV_QUEUE <=? length q)%nat then u32 (dropped + 1) else dropped)
  | EvTake cap :: r =>
      match q with
      | (d, t) :: q' => let '(os, q', n) := fifo_run r q' dropped in (Some (take (Z.to_nat cap) d, t) :: os, q', n)
      | [] => let '(os, q', n) := fifo_run r [] dropped in (None :: os, q', n)
      end
  end.

Lemma ice_run_refines evs a : rings_ok a -> Forall (fun e => match e with EvTake cap => 0 < cap | _ => True end) evs ->
  let '(os, a') := ice_run evs a in
  rings_ok a' /\ fifo_run evs (recv_list a) (ia_recv_drops a) = (os, recv_list a', ia_recv_drops a').
Proof.
  intros Hok Hev. revert a Hok. induction Hev as [|[d now|cap] evs He Hev IH]; intros a Hok; cbn [ice_run fifo_run]; [done|..].
  - unfold on_recv. destruct ((zlen d =? 0) || (RNET_ICE_RECV_MAX <? zlen d)) eqn:Es.
    { assert (queue_recv d now a = a) as -> by (unfold queue_recv; by rewrite Es). by apply IH. }
    destruct (queue_recv_spec d now a Hok) as (Hok' & Hl & Hd); [pose proof (zlen_nonneg d); lia|].
    specialize (IH _ Hok'). rewrite Hl, Hd in IH.
    assert (length (recv_list a) = ia_recv_count a) as -> by apply ring_length. exact IH.
  - pose proof (recv_at_spec cap a He) as H. destruct (rnet_ice_agent_recv_at cap a) as [o a1].
    destruct (recv_list a) as [|[d t] q] eqn:Eq.
    + destruct H as [-> ->]. specialize (IH a Hok). rewrite Eq in IH. destruct (ice_run evs a) as [os a'].
      destruct IH as [? ->]. done.
    + destruct H as (-> & <- & Hok' & <-). specialize (IH a1 (Hok' Hok)). destruct (ice_run evs a1) as [os a'].
      destruct IH as [? ->]. done.
Qed.

Section Agent.
Context `{Juice}.

Lemma create_rings forced alloc cfg emit a : rnet_ice_agent_create forced alloc cfg emit = Some a ->
  rings_ok a /\ recv_list a = [] /\ cand_list a = [] /\ ia_recv_drops a = 0.
Proof.
  unfold rnet_ice_agent_create, ice_create_juice. destruct alloc; [|done]. cbn [negb]. destruct (juice_ok _ _); [|done].
  intros [= <-]. split; [split; cbn -[Nat.modulo]; try done; unfold RNET_ICE_RECV_QUEUE, RNET_ICE_CAND_QUEUE; lia|done].
Qed.

(** The agent's receive ring is a queue of at most 256 datagrams that
    sheds its oldest: from creation, any sequence of arrivals and takes gives
    what the reference queue gives, arrival times and drop count included;
    empty and oversized arrivals are ignored. *)
Theorem ice_recv_fifo forced alloc cfg emit a evs : rnet_ice_agent_create forced alloc cfg emit = Some a ->
  Forall (fun e => match e with EvTake cap => 0 < cap | _ => True end) evs ->
  let '(os, a') := ice_run evs a in
  fifo_run evs [] 0 = (os, recv_list a', ia_recv_drops a') /\ (length (recv_list a') <= 256)%nat.
Proof.
  intros (Hok & Hq & _ & Hd)%create_rings Hev. pose proof (ice_run_refines evs a Hok Hev) as Hr.
  destruct (ice_run evs a) as [os a']. destruct Hr as [Hok' Hr]. rewrite Hq, Hd in Hr. split; [done|].
  unfold recv_list. rewrite ring_length. apply Hok'.
Qed.

(** ** What the owner and libjuice can do *)

Inductive IceOp :=
  OpCandidate (sdp : string) | OpGatheringDone | OpRecv (data : list Z) (now : Z) | OpState (st : juice_state_t)
| OpTake (cap : Z) | OpStart | OpPoll | OpSignal (msg : RNetSignal) | OpSetEmit (emit : bool) | OpFreeze
| OpSend (buf : list Z) | OpMarkDone | OpRestart.
Definition ice_op (op : IceOp) (a : RNetIceAgent) : RNetIceAgent * list RNetSignal :=
  match op with
  | OpCandidate sdp => (on_candidate sdp a, [])
  | OpGatheringDone => (on_gathering_done a, [])
  | OpRecv data now => (on_recv data now a, [])
  | OpState st => (on_state_changed st a, [])
  | OpTake cap => (snd (rnet_ice_agent_recv cap a), [])
  | OpStart => let '(_, a, out) := rnet_ice_agent_start_gathering a in (a, out)
  | OpPoll => rnet_ice_agent_poll a
  | OpSignal msg => rnet_ice_agent_push_signal msg a
  | OpSetEmit emit => (rnet_ice_agent_set_emit emit a, [])
  | OpFreeze => (rnet_ice_agent_freeze a, [])
  | OpSend buf => (snd (rnet_ice_agent_send buf a), [])
  | OpMarkDone => (rnet_ice_agent_mark_relay_fallback_done a, [])
  | OpRestart => let '(_, a, out) := rnet_ice_agent_restart_force_relay a in (a, out)
  end.
Definition ice_ops (ops : list IceOp) (a : RNetIceAgent) : RNetIceAgent := fold_left (fun a op => fst (ice_op op a)) ops a.

(** ** Relay only *)

Definition relay_call (c : JuiceCall) : Prop :=
  match c with
  | JAddRemote sdp => ice_candidate_is_relay sdp = true
  | JCreate cfg => jc_stun cfg = None
  | _ => True
  end.
(** A relay candidate, cut to its slot. *)
Definition relay_cut (c : string) : Prop := exists sdp, ice_candidate_is_relay sdp = true /\ c = snprintf_s RNET_ICE_CAND_MAX sdp.
Definition relay_signal (m : RNetSignal) : Prop :=
  sig_type m = SIGNAL_LOCAL_CANDIDATE -> exists c, relay_cut c /\ sig_text m = snprintf_s 2048 c.
Record relay_inv (a : RNetIceAgent) : Prop := {
  ri_rings : rings_ok a;
  ri_cands : ia_force_relay a = true -> Forall relay_cut (cand_list a);
  ri_calls : ia_force_relay a = true -> from_option (Forall relay_call) True (ia_agent a)
}.

(** What the invariant looks at. *)
Definition relay_view (a : RNetIceAgent) :=
  (ia_force_relay a, ia_agent a, (ia_recv_q a, ia_recv_head a, ia_recv_tail a, ia_recv_count a),
   (ia_cand_q a, ia_cand_head a, ia_cand_tail a, ia_cand_count a)).
Lemma relay_inv_view a a' : relay_view a' = relay_view a -> relay_inv a -> relay_inv a'.
Proof.
  unfold relay_view. intros [= E1 E2 E3 E4 E5 E6 E7 E8 E9 E10] [[R1 R2 R3 C1 C2 C3] Hc Hj].
  split; unfold cand_list; rewrite ?E1, ?E2, ?E7, ?E8, ?E9, ?E10; [split; congruence|exact Hc|exact Hj].
Qed.
(** A setter outside of it. *)
Ltac same_view := match goal with
  | H : relay_inv _ |- relay_inv _ => apply (fun E => relay_inv_view _ _ E H); reflexivity
  end.

Lemma juice_call_inv c a : relay_call c -> relay_inv a -> relay_inv (snd (juice_call c a)).
Proof.
  intros Hc Hi. unfold juice_call. destruct (ia_agent a) as [h|] eqn:Eh; [|done]. destruct Hi as [H1 H2 H3].
  split; [destruct H1; by split|done|]. cbn. intros Hf. constructor; [done|]. specialize (H3 Hf). by rewrite Eh in H3.
Qed.

Lemma gather_inv a : relay_inv a -> relay_inv (snd (fst (ice_gather_now a))).
Proof.
  intros Hi. unfold ice_gather_now. destruct (ia_gather_started a); [done|].
  pose proof (juice_call_inv JGather a I Hi) as Hj. destruct (juice_call JGather a) as [[] a1]; cbn [negb fst snd] in *; [same_view|done].
Qed.
Lemma start_inv a : relay_inv a -> relay_inv (snd (fst (rnet_ice_agent_start_gathering a))).
Proof.
  intros Hi. unfold rnet_ice_agent_start_gathering. destruct (is_some _); [|done]. cbn [negb].
  destruct (_ && _); [cbn; same_view|by apply gather_inv].
Qed.

(** A fresh handle on emptied rings. *)
Lemma recreate_inv a : length (ia_recv_q a) = RNET_ICE_RECV_QUEUE -> length (ia_cand_q a) = RNET_ICE_CAND_QUEUE ->
  relay_inv (snd (ice_create_juice (ice_reset_runtime a))).
Proof.
  intros R1 C1. unfold ice_create_juice.
  assert (forall h, rings_ok (set_ia_agent h (ice_reset_runtime a))) as Hr.
  { intros h. split; cbn -[Nat.modulo]; try done; unfold RNET_ICE_RECV_QUEUE, RNET_ICE_CAND_QUEUE; lia. }
  destruct (juice_ok _ _); (split; [apply Hr|done|]); [|done]. cbn -[juice_config]. intros Hf. constructor; [|done]. cbn.
  by rewrite Hf, andb_false_r.
Qed.

Lemma apply_sdp_inv sdp a : relay_inv a -> relay_inv (fst (apply_remote_sdp sdp a)).
Proof.
  intros Hi. unfold apply_remote_sdp. pose proof (juice_call_inv (JSetRemote (relay_filtered a sdp)) a I Hi) as Hj.
  destruct (juice_call _ a) as [[] a1]; cbn [negb fst snd] in *; [|done].
  assert (relay_inv (set_ia_remote_desc_set true a1)) as Hk by same_view. destruct (_ || _); [|done].
  pose proof (gather_inv _ Hk) as Hg. by destruct (ice_gather_now _) as [[b a2] out].
Qed.

Lemma push_sdp_inv sdp a : relay_inv a -> relay_inv (fst (push_remote_sdp sdp a)).
Proof.
  intros Hi. unfold push_remote_sdp. destruct (_ || _); [done|]. destruct (ia_remote_desc_set a); [|by apply apply_sdp_inv].
  destruct Hi as [[R1 R2 R3 C1 C2 C3] _ _].
  set (a1 := if is_some (ia_turn a) && negb (ia_force_relay a) then _ else _).
  assert (relay_inv (snd (ice_create_juice (ice_reset_runtime a1)))) as Hr by (apply recreate_inv; unfold a1; by destruct (_ && _)).
  destruct (ice_create_juice (ice_reset_runtime a1)) as [[] a2]; cbn [negb snd] in *; [by apply apply_sdp_inv|done].
Qed.

Lemma push_signal_inv msg a : relay_inv a -> relay_inv (fst (rnet_ice_agent_push_signal msg a)).
Proof.
  intros Hi. unfold rnet_ice_agent_push_signal. destruct (sig_type msg); try done; [by apply push_sdp_inv|..].
  - destruct (_ || _ || _); [done|]. destruct (ia_force_relay a && negb (ice_candidate_is_relay (sig_text msg))) eqn:Ef; [done|].
    assert (relay_inv (ice_note_remote_candidate (sig_text msg) a)) as Hn.
    { unfold ice_note_remote_candidate. destruct (String.eqb _ _); [done|]. destruct (ice_sdp_has_public_ipv4 _); same_view. }
    cbn [fst]. unfold juice_call. destruct (ia_agent _) as [h|] eqn:Eh; [|done]. destruct Hn as [N1 N2 N3].
    split; [destruct N1; by split|done|]. cbn. intros Hf. constructor; [|specialize (N3 Hf); by rewrite Eh in N3].
    assert (ia_force_relay (ice_note_remote_candidate (sig_text msg) a) = ia_force_relay a) as Ee.
    { unfold ice_note_remote_candidate. destruct (String.eqb _ _); [done|]. by destruct (ice_sdp_has_public_ipv4 _). }
    cbn. rewrite Ee in Hf. rewrite Hf in Ef. by destruct (ice_candidate_is_relay _).
  - by apply juice_call_inv.
  - assert (relay_inv (set_ia_controlling (nz (sig_flag msg)) a)) as Hc by same_view. destruct (_ && _ && _); [|done].
    pose proof (gather_inv _ Hc) as Hg. by destruct (ice_gather_now _) as [[b a2] out].
Qed.

Lemma candidate_inv sdp a : relay_inv a -> relay_inv (on_candidate sdp a).
Proof.
  intros Hi. unfold on_candidate. destruct (ia_force_relay a && negb (ice_candidate_is_relay sdp)) eqn:Ef; [done|].
  destruct (decide (sdp = EmptyString)) as [->|Hs]; [done|]. destruct Hi as [H1 H2 H3].
  destruct (queue_cand_spec sdp a H1 Hs) as [Hr Hl].
  assert (ia_force_relay (queue_cand sdp a) = ia_force_relay a /\ ia_agent (queue_cand sdp a) = ia_agent a) as [E1 E2].
  { unfold queue_cand. destruct (String.eqb _ _); [done|]. by destruct (_ <=? _)%nat. }
  split; rewrite ?E1, ?E2; [done| |done]. intros Hf. rewrite Hl. rewrite Hf in Ef. specialize (H2 Hf). unfold shed_push. apply Forall_app. split.
  - destruct (_ <=? _)%nat; [|done]. by destruct H2.
  - constructor; [|done]. exists sdp. by destruct (ice_candidate_is_relay sdp).
Qed.

Lemma poll_spec a : relay_inv a -> let '(a', out) := rnet_ice_agent_poll a in
  relay_inv a' /\ (ia_force_relay a = true -> Forall relay_signal out).
Proof.
  intros [[R1 R2 R3 C1 C2 C3] H2 H3]. unfold rnet_ice_agent_poll. rewrite Nat.min_l by done. split.
  - split; [split|..]; cbn -[Nat.modulo]; try done; try lia.
    + rewrite C3, Nat.sub_diag, Nat.add_0_r, Nat.Div0.mod_mod. done.
    + intros _. unfold cand_list. cbn -[Nat.modulo]. by rewrite Nat.sub_diag.
  - intros Hf. specialize (H2 Hf). apply Forall_app. split.
    + apply Forall_forall. intros m (sdp & Hs & Hm)%list_elem_of_In%in_flat_map. unfold emit_signal in Hm.
      destruct (ia_emit _); [|done]. destruct Hm as [<-|[]]. intros _. exists sdp. split; [|done].
      rewrite Forall_forall in H2. by apply H2, list_elem_of_In.
    + destruct (ia_gathering_done_posted a); [|done]. unfold emit_signal. destruct (ia_emit _); [|done].
      constructor; [|done]. by intros [=].
Qed.

(** Signals other than a candidate. *)
Lemma emit_other type text flag a : type <> SIGNAL_LOCAL_CANDIDATE -> Forall relay_signal (emit_signal type text flag a).
Proof. intros Ht. unfold emit_signal. destruct (ia_emit a); [|done]. constructor; [|done]. by intros Hm. Qed.
Lemma gather_out a : Forall relay_signal (snd (ice_gather_now a)).
Proof.
  unfold ice_gather_now. destruct (ia_gather_started a); [done|]. destruct (juice_call JGather a) as [[] a1]; cbn [negb snd]; [|done].
  destruct (_ ≫= _); [by apply emit_other|done].
Qed.
Lemma apply_sdp_out sdp a : Forall relay_signal (snd (apply_remote_sdp sdp a)).
Proof.
  unfold apply_remote_sdp. destruct (juice_call _ a) as [[] a1]; cbn [negb]; [|done]. destruct (_ || _); [|done].
  pose proof (gather_out (set_ia_remote_desc_set true a1)) as Hg. by destruct (ice_gather_now _) as [[b a2] out].
Qed.
Lemma start_out a : Forall relay_signal (snd (rnet_ice_agent_start_gathering a)).
Proof. unfold rnet_ice_agent_start_gathering. destruct (is_some _); [|done]. cbn [negb]. destruct (_ && _); [done|apply gather_out]. Qed.

Lemma restart_spec a : relay_inv a -> relay_inv (snd (fst (rnet_ice_agent_restart_force_relay a))) /\
  Forall relay_signal (snd (rnet_ice_agent_restart_force_relay a)).
Proof.
  intros Hi. unfold rnet_ice_agent_restart_force_relay. destruct (_ || _); [done|]. destruct Hi as [[R1 R2 R3 C1 C2 C3] _ _].
  set (a1 := set_ia_relay_fallback_done true _). change (set_ia_frozen false (ice_reset_runtime a1)) with (ice_reset_runtime (set_ia_frozen false a1)).
  pose proof (recreate_inv (set_ia_frozen false a1) R1 C1) as Hr.
  destruct (ice_create_juice _) as [[] a2]; cbn [negb fst snd] in *; [|done]. split; [by apply start_inv|apply start_out].
Qed.

Lemma push_signal_out msg a : Forall relay_signal (snd (rnet_ice_agent_push_signal msg a)).
Proof.
  unfold rnet_ice_agent_push_signal. destruct (sig_type msg); try done.
  - unfold push_remote_sdp. destruct (_ || _); [done|]. destruct (ia_remote_desc_set a); [|apply apply_sdp_out].
    destruct (ice_create_juice _) as [[] a2]; cbn [negb]; [apply apply_sdp_out|done].
  - destruct (_ || _ || _); [done|]. by destruct (_ && _).
  - destruct (_ && _ && _); [|done].
    pose proof (gather_out (set_ia_controlling (nz (sig_flag msg)) a)) as Hg. by destruct (ice_gather_now _) as [[b a2] out].
Qed.

Lemma ice_op_spec op a : relay_inv a ->
  relay_inv (fst (ice_op op a)) /\ (ia_force_relay a = true -> Forall relay_signal (snd (ice_op op a))).
Proof.
  intros Hi. destruct op as [sdp| |data now|st|cap| | |msg|emit| |buf| |]; cbn [ice_op].
  - split; [by apply candidate_inv|done].
  - split; [cbn; same_view|done].
  - split; [|done]. cbn [fst]. unfold on_recv. destruct (decide (0 < zlen data <= RNET_ICE_RECV_MAX)) as [Hd|Hd].
    + destruct Hi as [H1 H2 H3]. destruct (queue_recv_spec data now a H1 Hd) as [Hr _].
      split; [done|..]; unfold queue_recv; destruct (_ || _); try done; by destruct (_ <=? _)%nat.
    + unfold queue_recv. pose proof (zlen_nonneg data). by replace ((zlen data =? 0) || (RNET_ICE_RECV_MAX <? zlen data)) with true by lia.
  - split; [|done]. cbn [fst]. unfold on_state_changed, log_selected_pair. cbn [ia_agent ia_selected_logged set_ia_state].
    destruct (_ || _); [|same_view]. destruct (ia_agent a); [|same_view]. destruct (ia_selected_logged a); [same_view|].
    destruct (is_some _); same_view.
  - split; [|done]. cbn [fst]. unfold rnet_ice_agent_recv, rnet_ice_agent_recv_at. destruct (Z.eqb_spec cap 0); [done|].
    destruct (Nat.eqb_spec (ia_recv_count a) 0) as [E0|E0]; [done|]. destruct Hi as [[R1 R2 R3 C1 C2 C3] H2 H3].
    destruct (nth _ (ia_recv_q a) ([], 0)) as [d t]. split; [split|..]; cbn -[Nat.modulo]; try done; [lia|].
    rewrite R3, Nat.Div0.add_mod_idemp_l. f_equal. lia.
  - pose proof (start_inv a Hi) as Hs. pose proof (start_out a) as Ho. by destruct (rnet_ice_agent_start_gathering a) as [[b a1] out].
  - pose proof (poll_spec a Hi) as Hp. by destruct (rnet_ice_agent_poll a) as [a1 out].
  - split; [by apply push_signal_inv|]. intros _. apply push_signal_out.
  - split; [cbn; same_view|done].
  - split; [cbn; same_view|done].
  - split; [|done]. cbn [fst]. unfold rnet_ice_agent_send. destruct (_ || _); [done|]. destruct (_ && _); [done|].
    pose proof (juice_call_inv (JSend buf) a I Hi) as Hj. by destruct (juice_call (JSend buf) a) as [ok a1].
  - split; [cbn; same_view|done].
  - pose proof (restart_spec a Hi) as [H1 H2]. by destruct (rnet_ice_agent_restart_force_relay a) as [[b a1] out].
Qed.

Lemma agent_create_inv forced alloc cfg emit a : rnet_ice_agent_create forced alloc cfg emit = Some a -> relay_inv a.
Proof.
  intros Hc. destruct (create_rings _ _ _ _ _ Hc) as (Hr & _ & Hn & _). split; [done|by rewrite Hn|].
  unfold rnet_ice_agent_create, ice_create_juice in Hc. destruct alloc; [|done]. cbn [negb] in Hc. destruct (juice_ok _ _); [|done].
  injection Hc as <-. cbn -[juice_config]. intros Hf. constructor; [|done]. cbn. by rewrite Hf, andb_false_r.
Qed.
Lemma ice_ops_inv ops a : relay_inv a -> relay_inv (ice_ops ops a).
Proof. revert a. induction ops as [|op ops IH]; intros a Hi; [done|]. apply IH, ice_op_spec, Hi. Qed.

(** Relay-only operation holds for trickled candidates: whatever the
    signals and callbacks, when an agent forces the relay its current
    libjuice handle was created without STUN and has been given relay
    candidates only, and every candidate it emits is (the first 279
    characters of) a relay candidate. *)
Theorem ice_relay_only forced alloc cfg emit a0 ops op : rnet_ice_agent_create forced alloc cfg emit = Some a0 ->
  let a := ice_ops ops a0 in
  ia_force_relay a = true ->
  (forall h, ia_agent a = Some h -> Forall relay_call h) /\ Forall relay_signal (snd (ice_op op a)).
Proof.
  intros Hc a Hf. pose proof (ice_ops_inv ops a0 (agent_create_inv _ _ _ _ _ Hc)) as Hi. fold a in Hi. split.
  - intros h Hh. pose proof (ri_calls _ Hi Hf) as Hk. by rewrite Hh in Hk.
  - by apply (ice_op_spec op a Hi).
Qed.

(** ** Frozen agents *)

(** The calls that do not change whom an agent talks to. *)
Definition keeps_link (c : JuiceCall) : Prop :=
  match c with JGather | JRemoteDone | JSend _ => True | _ => False end.
Definition link_kept (a a' : RNetIceAgent) : Prop :=
  ia_frozen a' = true /\
  match ia_agent a with
  | Some h => exists new, ia_agent a' = Some (new ++ h) /\ Forall keeps_link new
  | None => ia_agent a' = None
  end.
Lemma link_refl a : ia_frozen a = true -> link_kept a a.
Proof. intros Hf. split; [done|]. destruct (ia_agent a); [by exists []|done]. Qed.
Lemma link_trans a b c : link_kept a b -> link_kept b c -> link_kept a c.
Proof.
  intros [_ H1] [F2 H2]. split; [done|]. destruct (ia_agent a) as [h|]; [|by rewrite H1 in H2].
  destruct H1 as (n1 & H1 & K1). rewrite H1 in H2. destruct H2 as (n2 & -> & K2). exists (n2 ++ n1).
  rewrite <-app_assoc. split; [done|]. by apply Forall_app.
Qed.
(** A step that leaves the handle alone, or makes one harmless call. *)
Lemma link_same a a' : ia_frozen a' = true -> ia_agent a' = ia_agent a -> link_kept a a'.
Proof. intros Hf Ha. split; [done|]. rewrite Ha. destruct (ia_agent a); [by exists []|done]. Qed.
Lemma link_call c a : ia_frozen a = true -> keeps_link c -> link_kept a (snd (juice_call c a)).
Proof.
  intros Hf Hc. unfold juice_call, link_kept. destruct (ia_agent a) as [h|] eqn:Eh; cbn; [|by rewrite Eh].
  split; [done|]. exists [c]. split; [done|]. by constructor.
Qed.
Lemma link_gather a : ia_frozen a = true -> link_kept a (snd (fst (ice_gather_now a))).
Proof.
  intros Hf. unfold ice_gather_now. destruct (ia_gather_started a); [by apply link_refl|].
  pose proof (link_call JGather a Hf I) as Hk. destruct (juice_call JGather a) as [[] a1]; cbn [negb fst snd] in *; [|done].
  eapply link_trans; [exact Hk|]. apply link_same; [apply Hk|done].
Qed.

Lemma frozen_op op a : ia_frozen a = true -> op <> OpRestart -> link_kept a (fst (ice_op op a)).
Proof.
  intros Hf Hop. destruct op as [sdp| |data now|st|cap| | |msg|emit| |buf| |]; cbn [ice_op]; try (by apply link_same).
  - unfold on_candidate, queue_cand. repeat case_match; by apply link_same.
  - cbn [fst]. unfold on_recv, queue_recv. repeat case_match; by apply link_same.
  - cbn [fst]. unfold on_state_changed, log_selected_pair. repeat case_match; by apply link_same.
  - cbn [fst]. unfold rnet_ice_agent_recv, rnet_ice_agent_recv_at. repeat case_match; by apply link_same.
  - unfold rnet_ice_agent_start_gathering. destruct (is_some _); cbn [negb]; [|by apply link_same].
    destruct (_ && _); [by apply link_same|]. pose proof (link_gather a Hf) as Hg. by destruct (ice_gather_now a) as [[b a1] out].
  - unfold rnet_ice_agent_push_signal. destruct (sig_type msg); try (by apply link_same).
    + unfold push_remote_sdp. rewrite Hf. by apply link_same.
    + rewrite Hf. by apply link_same.
    + by apply link_call.
    + destruct (_ && _ && _); [|by apply link_same].
      assert (ia_frozen (set_ia_controlling (nz (sig_flag msg)) a) = true) as Hf' by done.
      pose proof (link_gather _ Hf') as Hg. destruct (ice_gather_now _) as [[b a1] out]. exact Hg.
  - cbn [fst]. unfold rnet_ice_agent_send. destruct (_ || _); [by apply link_same|]. destruct (_ && _); [by apply link_same|].
    pose proof (link_call (JSend buf) a Hf I) as Hk. by destruct (juice_call (JSend buf) a) as [ok a1].
Qed.

(** A frozen agent keeps its link: whatever signals arrive and whatever
    its owner does short of the agent's own relay restart, it stays frozen
    and its libjuice handle is the same one, given neither a remote
    description nor a remote candidate again. *)
Theorem frozen_agent_keeps_link ops a : ia_frozen a = true -> OpRestart ∉ ops -> link_kept a (ice_ops ops a).
Proof.
  revert a. induction ops as [|op ops IH]; intros a Hf Hn; [by apply link_refl|]. apply not_elem_of_cons in Hn as [Hop Hn].
  assert (link_kept a (fst (ice_op op a))) as Hk by (by apply frozen_op). eapply link_trans; [exact Hk|]. apply IH; [apply Hk|done].
Qed.
End Agent.

(** ** The description filter *)

Lemma append_cons x (a b : string) : (String x a +:+ b = String x (a +:+ b))%string.
Proof. done. Qed.
Lemma append_nil (b : string) : ("" +:+ b = b)%string.
Proof. done. Qed.
Lemma append_assoc (a b c : string) : ((a +:+ b) +:+ c = a +:+ (b +:+ c))%string.
Proof. induction a as [|x a IH]; [done|]. by rewrite !append_cons, IH. Qed.
Lemma append_nil_r (a : string) : (a +:+ "" = a)%string.
Proof. induction a as [|x a IH]; [done|]. by rewrite append_cons, IH. Qed.
Lemma length_append (a b : string) : String.length (a +:+ b) = (String.length a + String.length b)%nat.
Proof. induction a as [|x a IH]; [done|]. rewrite append_cons. cbn. by rewrite IH. Qed.
Lemma prefix_append (a b : string) : String.prefix a (a +:+ b) = true.
Proof. induction a as [|x a IH]; [by destruct b|]. rewrite append_cons. cbn. by destruct (Ascii.ascii_dec x x). Qed.
Lemma prefix_append_l (p a b : string) : String.prefix p a = true -> String.prefix p (a +:+ b) = true.
Proof.
  revert a. induction p as [|x p IH]; intros a Hp; [by destruct (a +:+ b)|]. destruct a as [|y a]; [done|].
  rewrite append_cons. cbn in *. destruct (Ascii.ascii_dec x y); [by apply IH|done].
Qed.
(** A text found in a suffix is found in the whole. *)
Lemma strstr_cons pat x s : strstr pat s = true -> strstr pat (String x s) = true.
Proof.
  unfold strstr. cbn [String.index]. destruct pat as [|y pat]; [done|]. destruct (String.prefix _ _); [done|]. by destruct (String.index 0 _ s).
Qed.
Lemma strstr_append pat a b : strstr pat b = true -> strstr pat (a +:+ b) = true.
Proof. intros Hb. induction a as [|x a IH]; [done|]. by apply strstr_cons. Qed.

Definition no_eol (s : string) : Prop := span_eol s = (s, EmptyString).
Lemma span_line h c rest : no_eol h -> is_eol c = true -> span_eol (h +:+ String c rest) = (h, String c rest).
Proof.
  unfold no_eol. intros Hh Hc. induction h as [|x h IH]; rewrite ?append_cons, ?append_nil; cbn in *; [by rewrite Hc|]. destruct (is_eol x); [done|].
  destruct (span_eol h) as [a b]. injection Hh as -> ->. by rewrite IH.
Qed.
Lemma skip_blank_append h rest : skip_blank h <> EmptyString -> skip_blank (h +:+ rest) = (skip_blank h +:+ rest)%string.
Proof. induction h as [|x h IH]; [done|]. rewrite append_cons. cbn. destruct (is_blank x); [exact IH|done]. Qed.
Lemma candidate_line_append h rest : ice_line_is_candidate h = true -> ice_line_is_candidate (h +:+ rest) = true.
Proof.
  unfold ice_line_is_candidate. intros Hh. rewrite skip_blank_append by (by intros E; rewrite E in Hh).
  apply orb_true_iff in Hh as [Hh|Hh]; rewrite (prefix_append_l _ _ rest Hh); [done|apply orb_true_r].
Qed.

(** What was written stays, and it fits. *)
Lemma strip_extends fuel cap p out res : strip_lines fuel cap p out = Some res -> exists t, res = (out +:+ t)%string.
Proof.
  revert p out. induction fuel as [|fuel IH]; intros p out; cbn [strip_lines];
    [intros [= <-]; exists EmptyString; by rewrite append_nil_r|].
  destruct p as [|x p]; [intros [= <-]; exists EmptyString; by rewrite append_nil_r|]. destruct (span_eol (String x p)) as [line eol].
  destruct (if _ && _ then _ else _); [|apply IH]. destruct (_ <=? _)%nat; [done|].
  intros (t & ->)%IH. rewrite append_assoc. by eexists.
Qed.
Lemma strip_fits fuel cap p out res : (String.length out < cap)%nat ->
  strip_lines fuel cap p out = Some res -> (String.length res < cap)%nat.
Proof.
  revert p out. induction fuel as [|fuel IH]; intros p out Hl; cbn [strip_lines]; [by intros [= <-]|].
  destruct p as [|x p]; [by intros [= <-]|]. destruct (span_eol (String x p)) as [line eol].
  destruct (if _ && _ then _ else _); [|by apply IH]. destruct (Nat.leb_spec cap (String.length out + String.length line + 2)); [done|].
  apply IH. rewrite !length_append. cbn. lia.
Qed.

(** The filter of a description does not drop every candidate that is
    not a relay: the test of a candidate line reads on to the end of the
    text, so a host (or any other) candidate line [h] in front of a relay
    candidate is kept. What the filter writes fits the buffer. *)
Theorem strip_keeps_host_before_relay h rest cap out : no_eol h -> ice_line_is_candidate h = true ->
  ice_candidate_is_relay rest = true -> ice_sdp_strip_non_relay (h +:+ newline +:+ rest) cap = Some out ->
  String.prefix (h +:+ newline) out = true /\ (String.length out < cap)%nat.
Proof.
  intros Hh Hc Hr. unfold ice_sdp_strip_non_relay. destruct (Nat.eqb_spec cap 0); [done|]. intros Hs. split.
  2: { apply (strip_fits _ _ _ _ _) in Hs; [done|cbn; lia]. }
  set (p := (h +:+ newline +:+ rest)%string) in Hs.
  assert (span_eol p = (h, newline +:+ rest)) as Hsp by (by apply (span_line h (Ascii.ascii_of_nat 10))).
  assert (ice_line_is_candidate p = true) as Hca by (by apply candidate_line_append).
  assert (ice_candidate_is_relay p = true) as Hre by (by apply strstr_append, (strstr_append _ newline)).
  assert (0 < String.length h)%nat as Hlen by (destruct h; [done|cbn; lia]).
  assert (exists m, String.length p = S m) as [m Hm].
  { unfold p. rewrite length_append. destruct h; [done|]. by eexists. }
  rewrite Hm in Hs. cbn [strip_lines] in Hs. rewrite Hsp, Hca, Hre in Hs.
  destruct (Nat.ltb_spec 0 (String.length h)); [|lia]. cbn [andb] in Hs. destruct p as [|x p'] eqn:Ep; [done|].
  destruct (_ <=? _)%nat; [done|]. apply strip_extends in Hs as [t ->]. rewrite append_nil. apply prefix_append.
Qed.
