(* ===== verification/LinkWorld.v ===== *)
(** * The transport over the modelled ICE agents

    A world of one socket and a list of ICE agents: it meets [NetLaws], so
    the transport's guarantees hold over the agents' own rings. Then the
    guarantees at concrete inputs. *)

From stdpp Require Import base list numbers list_numbers strings.
From S2P Require Import Prelude CStrings Slots Protocol Config NetSim Transport TransportProofs IceAgent IceProofs.

(** The socket's backlog and what it answers when empty; the agents; the
    datagrams sent, and those given to an agent to send. *)
Record LinkWorld := mkLink {
  lw_sock : list (list Z * sockaddr_in);
  lw_down : bool;
  lw_agents : list RNetIceAgent;
  lw_sent : list (list Z * sockaddr_in);
  lw_ice_sent : list (nat * list Z);
  lw_now : Z
}.

Section Link.
Context `{Juice} (env : string -> option string) (lookup_host : string -> option Z).

Definition agent_send (c : nat) (d : list Z) (w : LinkWorld) : Z * LinkWorld :=
  let done agents := mkLink (lw_sock w) (lw_down w) agents (lw_sent w) (lw_ice_sent w ++ [(c, d)]) (lw_now w) in
  match lw_agents w !! c with
  | Some a => let '(r, a) := rnet_ice_agent_send d a in (r, done (<[c := a]> (lw_agents w)))
  | None => (-1, done (lw_agents w))
  end.
Definition agent_recv (c : nat) (cap : Z) (w : LinkWorld) : option (list Z) * LinkWorld :=
  match lw_agents w !! c with
  | Some a =>
      let '(o, a) := rnet_ice_agent_recv cap a in
      (o, mkLink (lw_sock w) (lw_down w) (<[c := a]> (lw_agents w)) (lw_sent w) (lw_ice_sent w) (lw_now w))
  | None => (None, w)
  end.
Definition sock_recv (cap : Z) (w : LinkWorld) : SockAnswer * LinkWorld :=
  match lw_sock w with
  | (d, src) :: q =>
      (SkGram (take (Z.to_nat cap) d) src, mkLink q (lw_down w) (lw_agents w) (lw_sent w) (lw_ice_sent w) (lw_now w))
  | [] => (if lw_down w then SkError else SkBlock, w)
  end.
Definition sock_send (d : list Z) (a : sockaddr_in) (w : LinkWorld) : Z * LinkWorld :=
  (zlen d, mkLink (lw_sock w) (lw_down w) (lw_agents w) (lw_sent w ++ [(d, a)]) (lw_ice_sent w) (lw_now w)).

#[export] Instance link_ops : NetOps LinkWorld nat := {
  os_recvfrom := sock_recv; os_sendto := sock_send; os_clock := lw_now; os_getenv := env; os_calloc _ := true;
  os_lookup _ := lookup_host; os_socket _ := true; os_bind _ _ := true; os_nonblocking _ := true;
  ice_send := agent_send; ice_recv := agent_recv
}.

Definition agent_queue (c : nat) (w : LinkWorld) : list (list Z) := from_option (fun a => map fst (recv_list a)) [] (lw_agents w !! c).

Lemma send_keeps_queue d a : recv_list (snd (rnet_ice_agent_send d a)) = recv_list a.
Proof.
  unfold rnet_ice_agent_send, juice_call. destruct (_ || _); [done|]. destruct (_ && _); [done|]. by destruct (ia_agent a).
Qed.
Lemma agent_send_law c d w : let w' := snd (agent_send c d w) in
  lw_ice_sent w' = lw_ice_sent w ++ [(c, d)] /\ lw_sent w' = lw_sent w /\ lw_sock w' = lw_sock w /\
  forall c', agent_queue c' w' = agent_queue c' w.
Proof.
  cbv zeta. unfold agent_send, agent_queue. destruct (lw_agents w !! c) as [a|] eqn:Ea; [|done].
  pose proof (send_keeps_queue d a) as Hk. destruct (rnet_ice_agent_send d a) as [r a1]. cbn in *. split_and!; try done.
  intros c'. destruct (decide (c' = c)) as [->|Hne]; [|by rewrite list_lookup_insert_ne].
  rewrite list_lookup_insert_eq by (by eapply lookup_lt_Some). by rewrite Ea; cbn; rewrite Hk.
Qed.
Lemma agent_recv_law c cap w : 0 < cap -> let '(o, w') := agent_recv c cap w in
  lw_sent w' = lw_sent w /\ lw_ice_sent w' = lw_ice_sent w /\ lw_sock w' = lw_sock w /\
  (forall c', c' <> c -> agent_queue c' w' = agent_queue c' w) /\
  match agent_queue c w with
  | d :: r => o = Some (take (Z.to_nat cap) d) /\ agent_queue c w' = r
  | [] => o = None /\ agent_queue c w' = []
  end.
Proof.
  intros Hc. unfold agent_recv, agent_queue, rnet_ice_agent_recv. destruct (lw_agents w !! c) as [a|] eqn:Ea; [|by cbn; rewrite ?Ea].
  pose proof (recv_at_spec cap a Hc) as Hs. destruct (rnet_ice_agent_recv_at cap a) as [o a1]. cbn. split_and!; try done.
  - intros c' Hne. by rewrite list_lookup_insert_ne.
  - rewrite list_lookup_insert_eq by (by eapply lookup_lt_Some). cbn.
    destruct (recv_list a) as [|[d t] q] eqn:Eq; [by destruct Hs as [-> ->]; cbn; rewrite Eq|]. by destruct Hs as (-> & <- & _).
Qed.

#[export] Instance link_laws : NetLaws LinkWorld nat.
Proof.
  refine {| sock_q := lw_sock; ice_q := agent_queue; sent := lw_sent; ice_sent := lw_ice_sent |}.
  - intros cap w. cbn. unfold sock_recv. destruct (lw_sock w) as [|[d src] q] eqn:Eq; [|done].
    split_and!; try done. destruct (lw_down w); auto.
  - done.
  - exact agent_send_law.
  - exact agent_recv_law.
Defined.
End Link.

(** ** Concrete inputs *)

#[local] Instance demo_juice : Juice :=
  {| juice_ok _ _ := true; juice_local _ := Some "v=0"%string; juice_selected _ := None; juice_sdp_cap := 4096%nat |}.
Definition demo_agent : RNetIceAgent := Eval vm_compute in
  default (mkAgent None ICE_IDLE false false false 0 false [] 0 0 0 [] 0 0 0 "" None "" 0 0 false false false false false false 0 0)
    (rnet_ice_agent_create false true rnet_ice_config_init_defaults true).
Definition packet (seat : Z) : list Z := [0; 0; 0; 0; 9; 0; 0; 0; 0; 0; seat; 0; 0; 0].

(** Two guests, at seats 1 and 2, with a packet waiting each. *)
Definition demo_link : LinkWorld := Eval vm_compute in
  mkLink [] false [on_recv (packet 1) 5 (on_recv [1; 2] 4 demo_agent); on_recv (packet 1) 6 demo_agent] [] [] 100.
Definition demo_hub : RNetTransport nat := Eval vm_compute in
  snd (rnet_transport_start_ice_hub [None; Some 0%nat; Some 1%nat; None; None; None; None; None] rnet_transport_init).
#[local] Existing Instance link_ops.
#[local] Existing Instance link_laws.
Abbreviation no_env := (fun _ : string => @None string).
Abbreviation no_hosts := (fun _ : string => @None Z).

Lemma demo_hub_ready : hub_ready demo_hub.
Proof.
  split_and!; try done; [vm_compute; lia|]. intros i j c.
  do 8 (destruct i as [|i]; [do 8 (destruct j as [|j]; [vm_compute; congruence|]); vm_compute; discriminate|]). vm_compute. discriminate.
Qed.
Lemma demo_link_bounded c : (length (agent_queue c demo_link) < 10)%nat.
Proof. do 2 (destruct c as [|c]; [vm_compute; lia|]). vm_compute. lia. Qed.
Lemma demo_waiting : seat_waiting (W := LinkWorld) (NetOps0 := link_ops no_env no_hosts) (NetLaws0 := link_laws no_env no_hosts) 1500 demo_hub demo_link 2.
Proof. exists 1%nat. split; [done|]. apply Exists_cons_hd. vm_compute. reflexivity. Qed.

Lemma ice_hub_fair_witness : exists served,
  hub_receives (NetOps0 := link_ops no_env no_hosts) 10 1500 (replicate 8 (fun _ => demo_link)) demo_hub demo_link = Some served /\ (2 ∈ served)%nat.
Proof.
  apply (ice_hub_fair (NetLaws0 := link_laws no_env no_hosts) 10 1500 (replicate 8 (fun _ => demo_link)) demo_hub demo_link 2);
    [lia|exact demo_hub_ready|lia| | |exact demo_waiting|reflexivity];
    apply Forall_replicate; [intros ?; apply demo_link_bounded|intros ? _; exact demo_waiting].
Defined.

Lemma ice_hub_relays_witness :
  exists t' w', rnet_transport_recv (NetOps0 := link_ops no_env no_hosts) 10 1500 demo_hub demo_link = Some (RGot (packet 1) None, t', w') /\
    served_seat t' = 1%nat /\ lw_ice_sent w' = [(1%nat, packet 1)].
Proof.
  destruct (ice_hub_relays (NetLaws0 := link_laws no_env no_hosts) 10 1500 demo_hub demo_link ltac:(lia) demo_hub_ready demo_link_bounded)
    as (r & t' & w' & H & _). vm_compute in H. injection H as <- <- <-. eexists _, _. split; [vm_compute; reflexivity|]. split; reflexivity.
Defined.

(** A point-to-point socket with a stranger in front of the peer. *)
Definition demo_addr (port : Z) : sockaddr_in := mkAddr AF_INET port 16777343.
Definition demo_p2p : RNetTransport nat :=
  mkTr TRANSPORT_LAN_UDP true (demo_addr 7000) addr_zero true false false false (repeat false 8) (repeat addr_zero 8) false None (repeat None 8) 0 None true.
Definition demo_sock : LinkWorld := mkLink [([6; 6], demo_addr 9); ([1; 2; 3], demo_addr 7000)] false [] [] [] 100.

Lemma lan_peer_filter_witness :
  exists w', rnet_transport_recv (NetOps0 := link_ops no_env no_hosts) 5 1500 demo_p2p demo_sock =
    Some (RGot [1; 2; 3] (Some (demo_addr 7000)), demo_p2p, w') /\ lw_sock w' = [].
Proof.
  destruct (lan_peer_filter (NetLaws0 := link_laws no_env no_hosts) 5 1500 demo_p2p demo_sock) as (r & w' & sk & H & _);
    [lia|done..|vm_compute; lia|]. vm_compute in H. injection H as <- <-. eexists. split; [vm_compute; reflexivity|reflexivity].
Defined.

(** A hub that knows seats 1 and 2; the packet is seat 1's. *)
Definition demo_lan_hub : RNetTransport nat :=
  mkTr TRANSPORT_LAN_UDP true addr_zero addr_zero true false false true
    [false; true; true; false; false; false; false; false]
    [addr_zero; demo_addr 7001; demo_addr 7002; addr_zero; addr_zero; addr_zero; addr_zero; addr_zero] false None (repeat None 8) 0 None true.
Definition demo_hub_sock : LinkWorld := mkLink [(packet 1, demo_addr 7001)] false [] [] [] 100.

Lemma lan_hub_relays_witness :
  exists t' w', rnet_transport_recv (NetOps0 := link_ops no_env no_hosts) 1 1500 demo_lan_hub demo_hub_sock =
    Some (RGot (packet 1) (Some (demo_addr 7001)), t', w') /\ lw_sent w' = [(packet 1, demo_addr 7002)].
Proof.
  destruct (lan_hub_relays (NetLaws0 := link_laws no_env no_hosts) 0 1500 demo_lan_hub demo_hub_sock (packet 1) (demo_addr 7001) [])
    as (t' & w' & dst & H & _); [lia|done..|]. vm_compute in H. injection H as <- <-.
  eexists _, _. split; [vm_compute; reflexivity|reflexivity].
Defined.

Lemma transport_recv_terminates_witness :
  is_Some (rnet_transport_recv (NetOps0 := link_ops (fun _ => Some "20"%string) no_hosts) 10 1500 (set_tr_netsim_probed false demo_p2p) demo_sock).
Proof.
  apply (transport_recv_terminates (NetLaws0 := link_laws (fun _ => Some "20"%string) no_hosts));
    [lia| |vm_compute; lia|intros c; vm_compute; lia].
  intros i j c. do 8 (destruct i as [|i]; [vm_compute; discriminate|]). vm_compute. discriminate.
Defined.

(** ** The agent *)

Lemma demo_agent_created : rnet_ice_agent_create false true rnet_ice_config_init_defaults true = Some demo_agent.
Proof. vm_compute. reflexivity. Qed.
Definition demo_arrivals : list IceEvent := [EvArrive [1; 2; 3] 5; EvArrive [] 6; EvTake 2; EvTake 2].
Lemma ice_recv_fifo_witness :
  fst (ice_run demo_arrivals demo_agent) = [Some ([1; 2], 5); None] /\
  let '(os, a') := ice_run demo_arrivals demo_agent in
  fifo_run demo_arrivals [] 0 = (os, recv_list a', ia_recv_drops a') /\ (length (recv_list a') <= 256)%nat.
Proof.
  split; [vm_compute; reflexivity|]. apply (ice_recv_fifo _ _ _ _ demo_agent demo_arrivals demo_agent_created). repeat constructor.
Defined.

(** Relays wanted: a host candidate from the peer is not passed on. *)
Definition demo_relay_config : RNetIceConfig := mkIceConfig (Some "s"%string) 0 (Some "t"%string) 0 (Some "u"%string) (Some "p"%string) None 0 true true.
Definition demo_relay_agent : RNetIceAgent := Eval vm_compute in
  default demo_agent (rnet_ice_agent_create false true demo_relay_config true).
Definition remote_cand (c : string) : IceOp := OpSignal (mkSig SIGNAL_REMOTE_CANDIDATE 0 255 c).
Lemma ice_relay_only_witness :
  let a := ice_ops [OpStart; remote_cand "candidate:1 1 UDP 1 10.0.0.1 5 typ host"; remote_cand "candidate:2 1 UDP 1 1.2.3.4 5 typ relay"] demo_relay_agent in
  ia_agent a = Some [JAddRemote "candidate:2 1 UDP 1 1.2.3.4 5 typ relay"; JGather; JCreate (juice_config demo_relay_agent)] /\
  Forall relay_signal (snd (ice_op OpPoll a)).
Proof.
  intros a. split; [vm_compute; reflexivity|].
  apply (ice_relay_only false true demo_relay_config true demo_relay_agent); vm_compute; reflexivity.
Defined.

Lemma frozen_agent_keeps_link_witness :
  let a := fst (ice_op OpFreeze demo_agent) in
  link_kept a (ice_ops [remote_cand "candidate:1 1 UDP 1 10.0.0.1 5 typ host"; OpSend [1]] a).
Proof. intros a. apply frozen_agent_keeps_link; [reflexivity|]. rewrite !not_elem_of_cons. split_and!; [discriminate..|apply not_elem_of_nil]. Defined.

Lemma strip_keeps_host_before_relay_witness :
  let h := "a=candidate:1 1 UDP 1 10.0.0.1 5 typ host"%string in
  let r := "a=candidate:2 1 UDP 1 1.2.3.4 5 typ relay"%string in
  ice_sdp_strip_non_relay (h +:+ newline +:+ r) 4096 = Some (h +:+ newline +:+ r +:+ newline)%string /\
  String.prefix (h +:+ newline) (h +:+ newline +:+ r +:+ newline) = true.
Proof.
  intros h r. assert (ice_sdp_strip_non_relay (h +:+ newline +:+ r) 4096 = Some (h +:+ newline +:+ r +:+ newline)%string) as Hs
    by (vm_compute; reflexivity).
  split; [exact Hs|]. apply (strip_keeps_host_before_relay h r 4096 _ ltac:(reflexivity) ltac:(reflexivity) ltac:(reflexivity) Hs).
Defined.
