(* ===== verification/SessionIce.v ===== *)
(** * The session over ICE (src/session/rnet_session.c, lines 582 to 611,
      2751 to 3205 and 3748 to 3770)

    The session's agents and transport beside the state of [Session]: starting
    on one agent or on one per guest seat, adopting connected agents, the
    automatic retry over a relay, and the part of the pump before the receive
    loop. Agents are held by value; a transport's agent handle is the guest
    seat, 0 for the single agent. Signals to the host are appended to
    [lk_signals], oldest first. *)

From stdpp Require Import base list numbers list_numbers strings.
From S2P Require Import Prelude CStrings Slots Protocol Config Rings Session SessionState SessionMain NetSim Transport IceAgent.

Record SessionLinks := mkLinks {
  lk_transport : RNetTransport nat;
  lk_ice : option RNetIceAgent;
  lk_hub : list (option RNetIceAgent);
  lk_hub_mask : Z;
  lk_attempt_ms : Z;
  lk_completed_ms : Z;
  lk_signals : list RNetSignal
}.
Definition eta_lk (l : SessionLinks) : SessionLinks :=
  mkLinks (lk_transport l) (lk_ice l) (lk_hub l) (lk_hub_mask l) (lk_attempt_ms l) (lk_completed_ms l) (lk_signals l).
Definition set_lk_transport := ltac:(updater eta_lk lk_transport).
Definition set_lk_ice := ltac:(updater eta_lk lk_ice).
Definition set_lk_hub := ltac:(updater eta_lk lk_hub).
Definition set_lk_hub_mask := ltac:(updater eta_lk lk_hub_mask).
Definition set_lk_attempt_ms := ltac:(updater eta_lk lk_attempt_ms).
Definition set_lk_completed_ms := ltac:(updater eta_lk lk_completed_ms).
Definition set_lk_signals := ltac:(updater eta_lk lk_signals).
Definition no_agents : list (option RNetIceAgent) := repeat None 8.
Definition zero_links : SessionLinks := mkLinks rnet_transport_init None no_agents 0 0 0 [].

(** The bridges to the host: a hub's agent adds its seat. *)
Definition ice_emit_bridge (out : list RNetSignal) (l : SessionLinks) : SessionLinks := set_lk_signals (lk_signals l ++ out) l.
Definition ice_hub_emit_bridge (slot : nat) (out : list RNetSignal) (l : SessionLinks) : SessionLinks :=
  set_lk_signals (lk_signals l ++ map (fun m => mkSig (sig_type m) (sig_flag m) (u8 (Z.of_nat slot)) (sig_text m)) out) l.

(** An agent handed to the transport. *)
Definition ice_transport (t : RNetTransport nat) : RNetTransport nat :=
  set_tr_ice_ctx (Some 0%nat) (set_tr_ice_fns true (set_tr_mode TRANSPORT_ICE t)).
Definition hub_ctx (hub : list (option RNetIceAgent)) : list (option nat) := imap (fun i o => (fun _ => i) <$> o) hub.

Section Links.
Context `{Juice} (env : string -> option string).
Notation St := (RNetSession * SessionLinks)%type.

(** [build]: the build's forced TURN; [alloc] whether an agent's memory can
    be had. *)
Definition rnet_session_start_ice (build alloc : bool) (ice : RNetIceConfig) : St -> bool * St := fun '(s, l) =>
  let l := set_lk_ice None l in
  match rnet_ice_agent_create build alloc ice true with
  | None => (false, (s, l))
  | Some a =>
      let l := set_lk_transport (ice_transport rnet_transport_init) (set_lk_ice (Some a) l) in
      let '(now, s) := session_now (set_s_mode TRANSPORT_ICE s) in
      let l := set_lk_completed_ms 0 (set_lk_attempt_ms now l) in
      let '(ok, a, out) := rnet_ice_agent_start_gathering a in
      let l := ice_emit_bridge out (set_lk_ice (Some a) l) in
      if (ok : bool) then (true, (set_s_phase PHASE_IDLE s, l)) else (false, (s, l))
  end.

(** Session and transport without agents. *)
Definition hub_cleared (l : SessionLinks) : SessionLinks :=
  set_lk_transport rnet_transport_init (set_lk_hub_mask 0 (set_lk_hub no_agents l)).
Definition session_ice_reset_transport : St -> St := fun '(s, l) =>
  (set_s_mode TRANSPORT_NONE s, hub_cleared (set_lk_ice None l)).

(** One answering agent per seat of the mask; [None] if one cannot be had. *)
Fixpoint create_seats (build : bool) (alloc : nat -> bool) (local : RNetIceConfig) (mask : Z) (seats : list nat)
    (hub : list (option RNetIceAgent)) : option (list (option RNetIceAgent)) :=
  match seats with
  | [] => Some hub
  | i :: rest =>
      if negb (Z.testbit mask (Z.of_nat i)) then create_seats build alloc local mask rest hub else
      match rnet_ice_agent_create build (alloc i) local true with
      | None => None
      | Some a => create_seats build alloc local mask rest (<[i := Some a]> hub)
      end
  end.
(** Each agent starts to gather, or notes to do so on the guest's offer. *)
Fixpoint gather_seats (seats : list nat) (l : SessionLinks) : bool * SessionLinks :=
  match seats with
  | [] => (true, l)
  | i :: rest =>
      match mjoin (lk_hub l !! i) with
      | None => gather_seats rest l
      | Some a =>
          let '(ok, a, out) := rnet_ice_agent_start_gathering a in
          let l := ice_hub_emit_bridge i out (set_lk_hub (<[i := Some a]> (lk_hub l)) l) in
          if (ok : bool) then gather_seats rest l else (false, l)
      end
  end.

Definition rnet_session_start_ice_hub (build : bool) (alloc : nat -> bool) (ice : RNetIceConfig) (guest_slot_mask : Z) : St -> bool * St := fun '(s, l) =>
  if Z.testbit guest_slot_mask 0 || negb (Z.shiftr guest_slot_mask RNET_MAX_SLOTS =? 0) || (guest_slot_mask =? 0) then (false, (s, l)) else
  let local := mkIceConfig (ic_stun_host ice) (ic_stun_port ice) (ic_turn_host ice) (ic_turn_port ice) (ic_turn_user ice) (ic_turn_pass ice)
                 (ic_bind_address ice) 0 false (ic_force_relay ice) in
  let '(s, l) := session_ice_reset_transport (s, l) in
  let fail s l := (false, (set_s_mode TRANSPORT_NONE s, hub_cleared l)) in
  match create_seats build alloc local guest_slot_mask (seq 1 7) (lk_hub l) with
  | None => fail s l
  | Some hub =>
      let l := set_lk_hub hub l in
      let '(started, t) := rnet_transport_start_ice_hub (hub_ctx hub) (lk_transport l) in
      if negb started then fail s l else
      let '(now, s) := session_now (set_s_mode TRANSPORT_ICE_HUB s) in
      let l := set_lk_completed_ms 0 (set_lk_attempt_ms now (set_lk_hub_mask guest_slot_mask (set_lk_transport t l))) in
      let '(ok, l) := gather_seats (seq 1 7) l in
      if negb ok then fail s l else (true, (set_s_phase PHASE_IDLE s, l))
  end.

(** ** Adopting connected agents *)

Record RNetIceAdoptSeat := mkAdopt { ad_slot : Z; ad_agent : option RNetIceAgent }.

(** The mask of the seats, if every one is valid, new and connected. *)
Fixpoint adopt_mask (seats : list RNetIceAdoptSeat) (mask : Z) : option Z :=
  match seats with
  | [] => Some mask
  | st :: rest =>
      match ad_agent st with
      | None => None
      | Some a =>
          if (ad_slot st <? 1) || (RNET_MAX_SLOTS <=? ad_slot st) || Z.testbit mask (ad_slot st) ||
             negb (bool_decide (ia_state a = ICE_COMPLETED)) then None
          else adopt_mask rest (Z.lor mask (Z.shiftl 1 (ad_slot st)))
      end
  end.
Definition adopted (a : RNetIceAgent) : RNetIceAgent := rnet_ice_agent_freeze (rnet_ice_agent_set_emit true a).
Definition adopt_seat (hub : list (option RNetIceAgent)) (st : RNetIceAdoptSeat) : list (option RNetIceAgent) :=
  <[Z.to_nat (ad_slot st) := adopted <$> ad_agent st]> hub.

(** The clock of the adopted link starts now. *)
Definition link_clock : St -> St := fun '(s, l) =>
  let '(now, s) := session_now s in
  (set_s_phase PHASE_IDLE (on_live (set_lv_last_peer_rx_ms 0) s), set_lk_completed_ms 0 (set_lk_attempt_ms now l)).

Definition rnet_session_start_ice_hub_adopt (seats : list RNetIceAdoptSeat) (st : St) : bool * St :=
  if (zlen seats <? 1) || (RNET_MAX_SLOTS <=? zlen seats) then (false, st) else
  match adopt_mask seats 0 with
  | None => (false, st)
  | Some mask =>
      let '(s, l) := session_ice_reset_transport st in
      let hub := fold_left adopt_seat seats (lk_hub l) in
      let l := set_lk_hub hub l in
      let '(started, t) := rnet_transport_start_ice_hub (hub_ctx hub) (lk_transport l) in
      if negb started then (false, (s, set_lk_transport t (set_lk_hub no_agents l))) else
      (true, link_clock (set_s_mode TRANSPORT_ICE_HUB s, set_lk_hub_mask mask (set_lk_transport t l)))
  end.

Definition rnet_session_adopt_ice_agent (agent : RNetIceAgent) (st : St) : bool * St :=
  if negb (bool_decide (ia_state agent = ICE_COMPLETED)) then (false, st) else
  let '(s, l) := session_ice_reset_transport st in
  (true, link_clock (set_s_mode TRANSPORT_ICE s,
                     set_lk_transport (ice_transport (lk_transport l)) (set_lk_ice (Some (adopted agent)) l))).

(** ** The retry over a relay *)

(** A timer of the environment, within its bounds. *)
Definition env_timer (name : string) (dflt lo hi : Z) : Z :=
  match env name with
  | Some (String _ _ as v) => let n := default 0 (fst <$> strtol v) in if (lo <=? n) && (n <=? hi) then n else dflt
  | _ => dflt
  end.
Definition fallback_off : bool :=
  match env "RNET_ICE_NO_RELAY_FALLBACK" with Some (String c _) => negb (ch c =? 48) | _ => false end.
Definition stuck_ms : Z := env_timer "RNET_ICE_RELAY_FALLBACK_MS" 5000 2000 60000.
Definition private_ms : Z := Z.min (env_timer "RNET_ICE_RELAY_PRIVATE_MS" 2500 1000 30000) stuck_ms.
Definition dead_ms : Z := env_timer "RNET_ICE_RELAY_DEAD_MS" 6000 2000 30000.

(** The agent may be retried at all. *)
Definition fallback_allowed (s : RNetSession) (a : RNetIceAgent) : bool :=
  negb (running s) && negb (ia_relay_fallback_done a) && negb (ia_force_relay a) &&
  rnet_ice_agent_has_turn a && negb fallback_off.
(** It failed, stalled, or is connected without a packet from the peer. *)
Definition fallback_due (now : Z) (s : RNetSession) (l : SessionLinks) (a : RNetIceAgent) : bool :=
  let elapsed := if nz (lk_attempt_ms l) && (lk_attempt_ms l <=? now) then now - lk_attempt_ms l else 0 in
  match ia_state a with
  | ICE_FAILED => true
  | ICE_CONNECTED | ICE_COMPLETED =>
      (lv_last_peer_rx_ms (s_live s) =? 0) && nz (lk_completed_ms l) && (dead_ms <=? u64 (now - lk_completed_ms l)) &&
      match rnet_ice_agent_selected_path a with
      | Some path => negb (String.eqb path "") && negb (String.eqb path "relay")
      | None => false
      end
  | _ => (rnet_ice_agent_remote_only_private a && (private_ms <=? elapsed)) || (stuck_ms <=? elapsed)
  end.
Definition session_maybe_ice_relay_fallback : St -> St := fun '(s, l) =>
  match lk_ice l with
  | None => (s, l)
  | Some a =>
      if negb (fallback_allowed s a) then (s, l) else
      let '(now, s) := session_now s in
      if negb (fallback_due now s l a) then (s, l) else
      let '(ok, a, out) := rnet_ice_agent_restart_force_relay a in
      let l := ice_emit_bridge out (set_lk_ice (Some a) l) in
      if negb ok then (s, l) else
      (set_s_phase PHASE_IDLE s, set_lk_completed_ms 0 (set_lk_attempt_ms now (set_lk_transport (set_tr_ice_ctx (Some 0%nat) (lk_transport l)) l)))
  end.

(** ** The pump *)

Definition completed (a : RNetIceAgent) : bool := bool_decide (ia_state a = ICE_COMPLETED).
(** IDLE to LINKING, noting when. *)
Definition promote : St -> St := fun '(s, l) =>
  if negb (bool_decide (s_phase s = PHASE_IDLE)) then (s, l) else
  let s := set_s_phase PHASE_LINKING s in
  if negb (lk_completed_ms l =? 0) then (s, l) else
  let '(now, s) := session_now s in (s, set_lk_completed_ms now l).

(** Poll the hub's agents; [true] when all of them are connected. *)
Fixpoint poll_hub (seats : list nat) (l : SessionLinks) : bool * SessionLinks :=
  match seats with
  | [] => (true, l)
  | i :: rest =>
      match mjoin (lk_hub l !! i) with
      | None => poll_hub rest l
      | Some a =>
          let '(a, out) := rnet_ice_agent_poll a in
          let a := if completed a then rnet_ice_agent_freeze a else a in
          let '(all, l) := poll_hub rest (ice_hub_emit_bridge i out (set_lk_hub (<[i := Some a]> (lk_hub l)) l)) in
          (completed a && all, l)
      end
  end.
Definition pump_hub : St -> St := fun '(s, l) =>
  if lk_hub_mask l =? 0 then (s, l) else
  let '(all, l) := poll_hub (seq 1 7) l in
  if all then promote (s, l) else (s, l).
Definition pump_ice : St -> St := fun '(s, l) =>
  if negb (is_some (lk_ice l)) then (s, l) else
  let '(s, l) := session_maybe_ice_relay_fallback (s, l) in
  match lk_ice l with
  | None => (s, l)
  | Some a =>
      let '(a, out) := rnet_ice_agent_poll a in
      let a := if completed a && (negb (rnet_ice_agent_has_turn a) || nz (lv_last_peer_rx_ms (s_live s)))
               then rnet_ice_agent_freeze a else a in
      let l := ice_emit_bridge out (set_lk_ice (Some a) l) in
      if completed a then promote (s, l) else (s, l)
  end.
Definition session_pump_links (st : St) : St :=
  let '(s, l) := pump_ice (pump_hub st) in (rnet_session_pump s, l).

Definition rnet_session_push_signal (msg : RNetSignal) : St -> St := fun '(s, l) =>
  match lk_ice l with
  | None => (s, l)
  | Some a => let '(a, out) := rnet_ice_agent_push_signal msg a in (s, ice_emit_bridge out (set_lk_ice (Some a) l))
  end.
Definition rnet_session_push_signal_from (slot : Z) (sig : RNetSignal) : St -> bool * St := fun '(s, l) =>
  if (slot <? 1) || (RNET_MAX_SLOTS <=? slot) then (false, (s, l)) else
  match mjoin (lk_hub l !! Z.to_nat slot) with
  | None => (false, (s, l))
  | Some a =>
      let '(a, out) := rnet_ice_agent_push_signal sig a in
      (true, (s, ice_hub_emit_bridge (Z.to_nat slot) out (set_lk_hub (<[Z.to_nat slot := Some a]> (lk_hub l)) l)))
  end.
End Links.
