(* ===== verification/SessionIceProofs.v ===== *)
(** * What the session over ICE guarantees

    A hub links when every guest is connected, and a connected guest's link is
    out of reach of later signals; the relay is tried exactly when it is
    allowed and due, and once; agents are adopted all together or not at all. *)

From stdpp Require Import base list numbers list_numbers strings.
From S2P Require Import Prelude CStrings Slots Protocol Config Rings Session SessionState SessionMain NetSim Transport IceAgent IceProofs SessionIce.

Section Links.
Context `{Juice} (env : string -> option string).
Notation St := (RNetSession * SessionLinks)%type.

(** ** Linking a hub *)

Definition seat_agent (l : SessionLinks) (i : nat) : option RNetIceAgent := mjoin (lk_hub l !! i).
Definition all_completed (l : SessionLinks) (seats : list nat) : bool :=
  forallb (fun i => from_option completed true (seat_agent l i)) seats.

Lemma all_completed_ext l l' seats : (forall j, j ∈ seats -> seat_agent l' j = seat_agent l j) -> all_completed l' seats = all_completed l seats.
Proof.
  unfold all_completed. induction seats as [|i seats IH]; intros He; [done|]. cbn. rewrite (He i) by constructor. f_equal.
  apply IH. intros j Hj. apply He. by constructor.
Qed.

Lemma poll_keeps a : ia_state (fst (rnet_ice_agent_poll a)) = ia_state a /\ ia_frozen (fst (rnet_ice_agent_poll a)) = ia_frozen a /\
  ia_agent (fst (rnet_ice_agent_poll a)) = ia_agent a.
Proof. done. Qed.

(** What a pump makes of a seat's agent. *)
Definition polled (a : RNetIceAgent) : RNetIceAgent :=
  let a := fst (rnet_ice_agent_poll a) in if completed a then rnet_ice_agent_freeze a else a.
Lemma polled_completed a : completed (polled a) = completed a.
Proof. unfold polled. destruct (completed (fst (rnet_ice_agent_poll a))) eqn:E; unfold completed in *; cbn in *; by rewrite E. Qed.

Lemma poll_hub_spec seats l : NoDup seats ->
  let '(all, l') := poll_hub seats l in
  all = all_completed l seats /\ length (lk_hub l') = length (lk_hub l) /\ lk_hub_mask l' = lk_hub_mask l /\ lk_ice l' = lk_ice l /\
  lk_completed_ms l' = lk_completed_ms l /\ lk_transport l' = lk_transport l /\
  forall i, seat_agent l' i = if bool_decide (i ∈ seats) then polled <$> seat_agent l i else seat_agent l i.
Proof.
  revert l. induction seats as [|i seats IH]; intros l Hn; [done|]. apply NoDup_cons in Hn as [Hi Hn]. cbn [poll_hub].
  fold (seat_agent l i). destruct (seat_agent l i) as [a|] eqn:Ea.
  - destruct (rnet_ice_agent_poll a) as [a1 out] eqn:Ep. assert (polled a = if completed a1 then rnet_ice_agent_freeze a1 else a1) as Epo.
    { unfold polled. by rewrite Ep. }
    rewrite <-Epo. set (l1 := ice_hub_emit_bridge i out _). specialize (IH l1 Hn). destruct (poll_hub seats l1) as [all l'].
    assert (i < length (lk_hub l))%nat as Hlt.
    { unfold seat_agent in Ea. destruct (lk_hub l !! i) eqn:E; [by eapply lookup_lt_Some|done]. }
    assert (seat_agent l1 i = Some (polled a)) as E1 by (unfold seat_agent, l1; cbn; by rewrite list_lookup_insert_eq).
    assert (forall j, j <> i -> seat_agent l1 j = seat_agent l j) as E2 by (intros j Hj; unfold seat_agent, l1; cbn; by rewrite list_lookup_insert_ne).
    destruct IH as (-> & Hlen & Hm & Hic & Hc & Ht & Hs). unfold l1 in Hlen; cbn in Hlen. rewrite length_insert in Hlen. split_and!; try done.
    + unfold all_completed. cbn. rewrite Ea. cbn. rewrite polled_completed. f_equal. apply all_completed_ext. intros j Hj. apply E2. by intros ->.
    + intros j. rewrite Hs. destruct (decide (j = i)) as [->|Hne].
      * rewrite bool_decide_false by done. rewrite bool_decide_true by constructor. by rewrite E1, Ea.
      * rewrite E2 by done. destruct (decide (j ∈ seats)); [rewrite !bool_decide_true by (try constructor; done)|rewrite !bool_decide_false]; try done.
        rewrite elem_of_cons. tauto.
  - specialize (IH l Hn). destruct (poll_hub seats l) as [all l']. destruct IH as (-> & Hlen & Hm & Hic & Hc & Ht & Hs).
    split_and!; try done; [unfold all_completed; cbn; by rewrite Ea|]. intros j. rewrite Hs. destruct (decide (j = i)) as [->|Hne].
    + rewrite bool_decide_false by done. rewrite bool_decide_true by constructor. by rewrite Ea.
    + by rewrite (bool_decide_ext (j ∈ seats) (j ∈ i :: seats)) by (rewrite elem_of_cons; naive_solver).
Qed.

(** The seats a hub has agents for. *)
Abbreviation guests := (seq 1 7).
Lemma promote_spec (s : RNetSession) l : let '(s', l') := promote (s, l) in
  s_phase s' = (if bool_decide (s_phase s = PHASE_IDLE) then PHASE_LINKING else s_phase s) /\ lk_hub l' = lk_hub l /\
  lk_ice l' = lk_ice l /\ lk_hub_mask l' = lk_hub_mask l /\ s_live s' = s_live s.
Proof.
  unfold promote. destruct (bool_decide_reflect (s_phase s = PHASE_IDLE)) as [E|E]; cbn [negb]; [|by split_and!].
  by destruct (negb _); split_and!.
Qed.

(** A hub starts linking exactly when every guest's agent is connected,
    and from then on those agents are frozen: in the idle phase the pump
    moves on if all are connected and stays otherwise, and it freezes each
    connected one. *)
Theorem hub_links_when_all_connected (s : RNetSession) l : lk_hub_mask l <> 0 -> s_phase s = PHASE_IDLE ->
  let '(s', l') := pump_hub (s, l) in
  s_phase s' = (if all_completed l guests then PHASE_LINKING else PHASE_IDLE) /\
  forall i a, i ∈ guests -> seat_agent l i = Some a ->
    exists a', seat_agent l' i = Some a' /\ ia_state a' = ia_state a /\ ia_agent a' = ia_agent a /\
      (ia_state a = ICE_COMPLETED -> ia_frozen a' = true).
Proof.
  intros Hm Hp. unfold pump_hub. destruct (Z.eqb_spec (lk_hub_mask l) 0); [done|].
  pose proof (poll_hub_spec guests l (NoDup_seq 1 7)) as Hs. destruct (poll_hub guests l) as [all l1].
  destruct Hs as (-> & _ & _ & _ & _ & _ & Hs).
  assert (forall i a, i ∈ guests -> seat_agent l i = Some a -> exists a', seat_agent l1 i = Some a' /\ ia_state a' = ia_state a /\
    ia_agent a' = ia_agent a /\ (ia_state a = ICE_COMPLETED -> ia_frozen a' = true)) as Ha.
  { intros i a Hi Ea. rewrite Hs, bool_decide_true, Ea by done. eexists. split; [done|]. unfold polled, completed.
    destruct (poll_keeps a) as (E1 & E2 & E3). rewrite E1. destruct (bool_decide_reflect (ia_state a = ICE_COMPLETED)); by split_and!. }
  destruct (all_completed l guests); [|by rewrite Hp].
  pose proof (promote_spec s l1) as Hpr. destruct (promote (s, l1)) as [s' l']. destruct Hpr as (-> & Hh & _).
  rewrite bool_decide_true by done. split; [done|]. intros i a Hi Ea. destruct (Ha i a Hi Ea) as (a' & E & Hr). exists a'.
  unfold seat_agent in *. by rewrite Hh.
Qed.

(** ** Connected guests *)

(** What happens to a running session's links: a pump, a signal of the single
    peer or of a guest, and what libjuice and the transport do with a seat's
    agent. *)
Inductive LinkEvent := LPump | LSignal (msg : RNetSignal) | LSignalFrom (slot : Z) (sig : RNetSignal) | LSeatOp (seat : nat) (op : IceOp).
Definition link_event (ev : LinkEvent) (st : St) : St :=
  match ev with
  | LPump => session_pump_links env st
  | LSignal msg => rnet_session_push_signal msg st
  | LSignalFrom slot sig => snd (rnet_session_push_signal_from slot sig st)
  | LSeatOp i op =>
      let '(s, l) := st in
      match seat_agent l i with
      | None => st
      | Some a => let '(a, out) := ice_op op a in (s, ice_hub_emit_bridge i out (set_lk_hub (<[i := Some a]> (lk_hub l)) l))
      end
  end.
Definition link_run (evs : list LinkEvent) (st : St) : St := fold_left (fun st ev => link_event ev st) evs st.

Lemma fallback_hub (st : St) : lk_hub (snd (session_maybe_ice_relay_fallback env st)) = lk_hub (snd st).
Proof.
  destruct st as [s l]. unfold session_maybe_ice_relay_fallback. destruct (lk_ice l) as [a|]; [|done]. destruct (negb _); [done|].
  destruct (session_now s) as [now s1]. destruct (negb _); [done|].
  destruct (rnet_ice_agent_restart_force_relay a) as [[ok a1] out]. by destruct (negb ok).
Qed.
Lemma pump_ice_hub (st : St) : lk_hub (snd (pump_ice env st)) = lk_hub (snd st).
Proof.
  destruct st as [s l]. unfold pump_ice. destruct (is_some (lk_ice l)); [|done]. cbn [negb]. pose proof (fallback_hub (s, l)) as Hf.
  destruct (session_maybe_ice_relay_fallback env (s, l)) as [s1 l1]. cbn [snd] in *. destruct (lk_ice l1) as [a|]; [|done].
  destruct (rnet_ice_agent_poll a) as [a1 out]. set (a2 := if _ && _ then _ else _). destruct (completed a2); [|done].
  set (l2 := ice_emit_bridge out _). pose proof (promote_spec s1 l2) as Hp. destruct (promote (s1, l2)) as [s3 l3].
  destruct Hp as (_ & Hh & _). cbn [snd]. by rewrite Hh.
Qed.
Lemma link_polled a : ia_frozen a = true -> link_kept a (polled a).
Proof.
  intros Hf. unfold polled. destruct (poll_keeps a) as (E1 & E2 & E3).
  destruct (completed _); apply link_same; cbn; congruence.
Qed.
Lemma pump_hub_seat (s : RNetSession) l i a : i ∈ guests -> seat_agent l i = Some a -> ia_frozen a = true ->
  exists a', seat_agent (snd (pump_hub (s, l))) i = Some a' /\ link_kept a a'.
Proof.
  intros Hi Ea Hf. unfold pump_hub. destruct (lk_hub_mask l =? 0); [exists a; split; [done|by apply link_refl]|].
  pose proof (poll_hub_spec guests l (NoDup_seq 1 7)) as Hs. destruct (poll_hub guests l) as [all l1].
  destruct Hs as (_ & _ & _ & _ & _ & _ & Hs).
  assert (seat_agent l1 i = Some (polled a)) as E1 by (rewrite Hs, bool_decide_true, Ea; done).
  exists (polled a). split; [|by apply link_polled]. destruct all; [|done]. pose proof (promote_spec s l1) as Hp.
  destruct (promote (s, l1)) as [s' l']. destruct Hp as (_ & Hh & _). unfold seat_agent in *. cbn [snd]. by rewrite Hh.
Qed.

(** The agent of seat [i] after one of them was replaced. *)
Lemma seat_insert l i j a out : seat_agent l j <> None ->
  seat_agent (ice_hub_emit_bridge j out (set_lk_hub (<[j := Some a]> (lk_hub l)) l)) i = if bool_decide (i = j) then Some a else seat_agent l i.
Proof.
  intros Hj. unfold seat_agent in *. cbn. destruct (decide (i = j)) as [->|Hne].
  - rewrite bool_decide_true by done. destruct (lk_hub l !! j) eqn:E; [|done]. by rewrite list_lookup_insert_eq by (by eapply lookup_lt_Some).
  - rewrite bool_decide_false by done. by rewrite list_lookup_insert_ne.
Qed.

Lemma link_event_seat ev (st : St) i a : i ∈ guests -> seat_agent (snd st) i = Some a -> ia_frozen a = true ->
  (forall j, ev <> LSeatOp j OpRestart) -> exists a', seat_agent (snd (link_event ev st)) i = Some a' /\ link_kept a a'.
Proof.
  destruct st as [s l]. cbn [snd]. intros Hi Ea Hf Hop.
  assert (forall j b op out, seat_agent l j = Some b -> op <> OpRestart ->
    exists a', seat_agent (ice_hub_emit_bridge j out (set_lk_hub (<[j := Some (fst (ice_op op b))]> (lk_hub l)) l)) i = Some a' /\ link_kept a a') as Hseat.
  { intros j b op out Hb Hne. rewrite seat_insert by (by rewrite Hb). destruct (bool_decide_reflect (i = j)) as [->|Hij].
    - eexists. split; [done|]. rewrite Ea in Hb. injection Hb as <-. by apply frozen_op.
    - exists a. split; [done|]. by apply link_refl. }
  destruct ev as [|msg|slot sig|j op]; cbn [link_event].
  - unfold session_pump_links. destruct (pump_hub_seat s l i a Hi Ea Hf) as (a' & E & Hk). exists a'. split; [|done].
    pose proof (pump_ice_hub (pump_hub (s, l))) as Hp. destruct (pump_ice env (pump_hub (s, l))) as [s2 l2]. cbn [snd] in *.
    unfold seat_agent in *. by rewrite Hp.
  - unfold rnet_session_push_signal. destruct (lk_ice l) as [b|]; [destruct (rnet_ice_agent_push_signal msg b) as [b' out]|].
    all: exists a; split; [done|by apply link_refl].
  - unfold rnet_session_push_signal_from. destruct (_ || _); [exists a; split; [done|by apply link_refl]|].
    fold (seat_agent l (Z.to_nat slot)). destruct (seat_agent l (Z.to_nat slot)) as [b|] eqn:Eb; [|exists a; split; [done|by apply link_refl]].
    specialize (Hseat (Z.to_nat slot) b (OpSignal sig)). cbn [ice_op] in Hseat. destruct (rnet_ice_agent_push_signal sig b) as [b' out].
    by apply Hseat.
  - destruct (seat_agent l j) as [b|] eqn:Eb; [|exists a; split; [done|by apply link_refl]].
    specialize (Hseat j b op). destruct (ice_op op b) as [b' out]. apply Hseat; [done|]. intros ->. by apply (Hop j).
Qed.

(** C11. A connected guest's link is out of reach: once a seat's agent is
    frozen, no sequence of pumps, signals from any peer and libjuice events
    replaces its handle or gives it a new description or candidate, as long
    as nobody restarts the agents of the hub itself. *)
Theorem connected_seat_keeps_link evs (st : St) i a : i ∈ guests -> seat_agent (snd st) i = Some a -> ia_frozen a = true ->
  Forall (fun ev => forall j, ev <> LSeatOp j OpRestart) evs ->
  exists a', seat_agent (snd (link_run evs st)) i = Some a' /\ link_kept a a'.
Proof.
  intros Hi. revert st a. induction evs as [|ev evs IH]; intros st a Ea Hf Hev; [exists a; split; [done|by apply link_refl]|].
  inversion Hev as [|? ? H1 H2]; subst. destruct (link_event_seat ev st i a Hi Ea Hf H1) as (a1 & E1 & K1).
  destruct (IH (link_event ev st) a1 E1 (proj1 K1) H2) as (a2 & E2 & K2). exists a2. split; [done|]. by eapply link_trans.
Qed.

(** ** The relay *)

(** The two flags of a relay restart. *)
Definition relayed (a : RNetIceAgent) : Prop := ia_force_relay a = true /\ ia_relay_fallback_done a = true.
Lemma gather_flags a : ia_force_relay (snd (fst (ice_gather_now a))) = ia_force_relay a /\
  ia_relay_fallback_done (snd (fst (ice_gather_now a))) = ia_relay_fallback_done a.
Proof.
  unfold ice_gather_now, juice_call. destruct (ia_gather_started a); [done|]. destruct (ia_agent a) as [h|]; [|done].
  by destruct (juice_ok h JGather).
Qed.
Lemma start_flags a : ia_force_relay (snd (fst (rnet_ice_agent_start_gathering a))) = ia_force_relay a /\
  ia_relay_fallback_done (snd (fst (rnet_ice_agent_start_gathering a))) = ia_relay_fallback_done a.
Proof.
  unfold rnet_ice_agent_start_gathering. destruct (is_some _); [|done]. cbn [negb]. destruct (_ && _); [done|apply gather_flags].
Qed.
Lemma restart_flags a : is_some (ia_turn a) = true -> ia_relay_fallback_done a = false ->
  relayed (snd (fst (rnet_ice_agent_restart_force_relay a))).
Proof.
  intros Ht Hd. unfold rnet_ice_agent_restart_force_relay, ice_create_juice, relayed. rewrite Ht, Hd. cbn [negb orb].
  destruct (juice_ok _ _); cbn [negb]; [|done]. match goal with |- context [rnet_ice_agent_start_gathering ?b] => destruct (start_flags b) as [-> ->] end.
  done.
Qed.
Lemma apply_sdp_done sdp a : ia_relay_fallback_done (fst (apply_remote_sdp sdp a)) = ia_relay_fallback_done a.
Proof.
  unfold apply_remote_sdp. destruct (juice_call _ a) as [ok a1] eqn:Ej.
  assert (ia_relay_fallback_done a1 = ia_relay_fallback_done a) as E1.
  { unfold juice_call in Ej. destruct (ia_agent a); injection Ej as <- <-; done. }
  destruct ok; cbn [negb]; [|done]. destruct (_ || _); [|done].
  destruct (gather_flags (set_ia_remote_desc_set true a1)) as [_ E2]. destruct (ice_gather_now _) as [[b a2] out]. cbn [fst snd] in *. by rewrite E2.
Qed.

(** Nothing takes the mark of a relay restart back. *)
Lemma op_done_stable op a : ia_relay_fallback_done a = true -> ia_relay_fallback_done (fst (ice_op op a)) = true.
Proof.
  intros Hd. destruct op as [sdp| |data now|st|cap| | |msg|emit| |buf| |]; cbn [ice_op]; try done.
  - cbn [fst]. unfold on_candidate, queue_cand. repeat case_match; done.
  - cbn [fst]. unfold on_recv, queue_recv. repeat case_match; done.
  - cbn [fst]. unfold on_state_changed, log_selected_pair. repeat case_match; done.
  - cbn [fst]. unfold rnet_ice_agent_recv, rnet_ice_agent_recv_at. repeat case_match; done.
  - destruct (start_flags a) as [_ E]. destruct (rnet_ice_agent_start_gathering a) as [[b a1] out]. cbn [fst snd] in *. congruence.
  - unfold rnet_ice_agent_push_signal. destruct (sig_type msg); try done.
    + unfold push_remote_sdp. destruct (_ || _); [done|]. destruct (ia_remote_desc_set a); [|by rewrite apply_sdp_done].
      unfold ice_create_juice. destruct (is_some (ia_turn a) && negb (ia_force_relay a)); destruct (juice_ok _ _); cbn [negb]; rewrite ?apply_sdp_done; done.
    + destruct (_ || _ || _); [done|]. destruct (_ && _); [done|]. cbn [fst]. unfold juice_call.
      destruct (ia_agent _); cbn; unfold ice_note_remote_candidate; repeat case_match; done.
    + cbn [fst]. unfold juice_call. by destruct (ia_agent a).
    + destruct (_ && _ && _); [|done]. destruct (gather_flags (set_ia_controlling (nz (sig_flag msg)) a)) as [_ E].
      destruct (ice_gather_now _) as [[b a1] out]. cbn [fst snd] in *. by rewrite E.
  - cbn [fst]. unfold rnet_ice_agent_send, juice_call. repeat case_match; simplify_eq; done.
  - unfold rnet_ice_agent_restart_force_relay. rewrite Hd, orb_true_r. done.
Qed.

Lemma env_timer_range name dflt lo hi : lo <= dflt <= hi -> lo <= env_timer env name dflt lo hi <= hi.
Proof. intros Hd. unfold env_timer. repeat case_match; lia. Qed.

(** The relay is tried exactly when it is allowed (a TURN server, not yet
    tried or forced, match not running, not switched off) and due (the
    attempt failed, stalled, or is connected without a packet from the peer);
    otherwise the agent is left alone. A stalled attempt is due after a
    minute at most, and once the relay was tried it never is again. *)
Theorem relay_retry_exact (s : RNetSession) l a : lk_ice l = Some a ->
  let now := fst (session_now s) in
  (lk_attempt_ms l <> 0 -> lk_attempt_ms l + 60000 <= now -> ia_state a <> ICE_CONNECTED -> ia_state a <> ICE_COMPLETED ->
     fallback_due env now s l a = true) /\
  exists a', lk_ice (snd (session_maybe_ice_relay_fallback env (s, l))) = Some a' /\
    if fallback_allowed env s a && fallback_due env now s l a
    then relayed a' /\ forall ops s', fallback_allowed env s' (ice_ops ops a') = false
    else a' = a /\ s_phase (fst (session_maybe_ice_relay_fallback env (s, l))) = s_phase s.
Proof.
  intros Ha now. split.
  - intros Hz Hn H1 H2. unfold fallback_due. assert (nz (lk_attempt_ms l) && (lk_attempt_ms l <=? now) = true) as -> by (unfold nz; lia).
    pose proof (env_timer_range "RNET_ICE_RELAY_FALLBACK_MS" 5000 2000 60000 ltac:(lia)) as Hs. fold (stuck_ms env) in Hs.
    destruct (ia_state a); try done; lia.
  - unfold session_maybe_ice_relay_fallback. rewrite Ha. destruct (fallback_allowed env s a) eqn:Eal; cbn [negb andb]; [|exists a; done].
    subst now. destruct (session_now s) as [now s1] eqn:En. cbn [fst].
    assert (fallback_due env now s1 l a = fallback_due env now s l a) as -> by (unfold session_now in En; by injection En as <- <-).
    assert (s_phase s1 = s_phase s) as Hph by (unfold session_now in En; by injection En as <- <-).
    destruct (fallback_due env now s l a); cbn [negb]; [|exists a; done].
    assert (relayed (snd (fst (rnet_ice_agent_restart_force_relay a)))) as Hr.
    { unfold fallback_allowed, rnet_ice_agent_has_turn in Eal. apply restart_flags; destruct (is_some (ia_turn a)), (ia_relay_fallback_done a); try done;
        by rewrite ?andb_false_r in Eal. }
    destruct (rnet_ice_agent_restart_force_relay a) as [[ok a1] out]. cbn [fst snd] in Hr. exists a1. split; [by destruct ok|]. split; [done|].
    intros ops s'. assert (ia_relay_fallback_done (ice_ops ops a1) = true) as Hst.
    { destruct Hr as [_ Hr]. clear -Hr. revert a1 Hr. induction ops as [|op ops IH]; intros a1 Hr; [done|]. by apply IH, op_done_stable. }
    unfold fallback_allowed. rewrite Hst. cbn. by rewrite andb_false_r.
Qed.

(** ** Adoption *)

Definition adoptable (sd : RNetIceAdoptSeat) : Prop :=
  1 <= ad_slot sd < 8 /\ exists a, ad_agent sd = Some a /\ ia_state a = ICE_COMPLETED.

(** The mask is built from valid, connected seats, each of them once. *)
Lemma adopt_mask_spec seats mask0 mask : 0 <= mask0 -> adopt_mask seats mask0 = Some mask ->
  Forall adoptable seats /\ NoDup (map ad_slot seats) /\ Forall (fun sd => Z.testbit mask0 (ad_slot sd) = false) seats /\
  forall i, 0 <= i -> Z.testbit mask i = Z.testbit mask0 i || bool_decide (i ∈ map ad_slot seats).
Proof.
  revert mask0. induction seats as [|sd seats IH]; intros mask0 H0; cbn [adopt_mask].
  { intros [= <-]. split_and!; try constructor. intros i _. cbn. by rewrite orb_false_r. }
  destruct (ad_agent sd) as [a|] eqn:Ea; [|done].
  destruct (Z.ltb_spec (ad_slot sd) 1); [done|]. destruct (Z.leb_spec RNET_MAX_SLOTS (ad_slot sd)); [done|].
  destruct (Z.testbit mask0 (ad_slot sd)) eqn:Eb; [done|]. destruct (bool_decide_reflect (ia_state a = ICE_COMPLETED)) as [Hc|]; [|done]. cbn [orb negb].
  intros Hm. destruct (IH (Z.lor mask0 (Z.shiftl 1 (ad_slot sd)))) as (M1 & M2 & M3 & M4); [apply Z.lor_nonneg; split; [done|apply Z.shiftl_nonneg; lia]|done|].
  assert (forall j, 0 <= j -> Z.testbit (Z.lor mask0 (Z.shiftl 1 (ad_slot sd))) j = Z.testbit mask0 j || bool_decide (j = ad_slot sd)) as Hb.
  { intros j Hj. rewrite Z.lor_spec, Z.shiftl_spec by done. f_equal. destruct (bool_decide_reflect (j = ad_slot sd)) as [->|Hne].
    - by rewrite Z.sub_diag.
    - destruct (Z.ltb_spec (j - ad_slot sd) 0); [by rewrite Z.testbit_neg_r|].
      change 1 with (2 ^ 0). by rewrite Z.pow2_bits_false by lia. }
  split_and!.
  - constructor; [|done]. split; [unfold RNET_MAX_SLOTS in *; lia|]. by exists a.
  - cbn. constructor; [|done]. intros (sd' & E & Hin)%list_elem_of_fmap. rewrite Forall_forall in M3, M1. specialize (M3 sd' Hin).
    rewrite Hb in M3 by (destruct (M1 sd' Hin); lia). by rewrite <-E, bool_decide_true, orb_true_r in M3.
  - constructor; [done|]. eapply Forall_impl; [apply Forall_and; split; [exact M1|exact M3]|]. intros sd' [[? _] Ht]. rewrite Hb in Ht by lia.
    by apply orb_false_iff in Ht as [? _].
  - intros i Hi. rewrite M4, Hb by done. cbn. rewrite <-orb_assoc. f_equal.
    destruct (bool_decide_reflect (i = ad_slot sd)) as [->|Hne]; cbn [orb].
    + symmetry. apply bool_decide_true. constructor.
    + apply bool_decide_ext. rewrite elem_of_cons. naive_solver.
Qed.

Lemma adopt_fold seats hub : Forall adoptable seats -> NoDup (map ad_slot seats) -> length hub = 8%nat ->
  let hub' := fold_left adopt_seat seats hub in
  (forall sd, sd ∈ seats -> mjoin (hub' !! Z.to_nat (ad_slot sd)) = adopted <$> ad_agent sd) /\
  forall i, Z.of_nat i ∉ map ad_slot seats -> hub' !! i = hub !! i.
Proof.
  intros Ha Hn. revert hub. induction seats as [|sd seats IH]; intros hub Hl; cbn [fold_left].
  { split; [by intros sd ?%not_elem_of_nil|done]. }
  inversion Ha as [|? ? [Hs _] Ha']; subst. cbn in Hn. apply NoDup_cons in Hn as [Hni Hn].
  destruct (IH Ha' Hn (adopt_seat hub sd)) as [F1 F2]; [by unfold adopt_seat; rewrite length_insert|]. split.
  - intros sd' [->|Hin]%elem_of_cons; [|by apply F1]. rewrite F2 by (by rewrite Z2Nat.id by lia).
    unfold adopt_seat. rewrite list_lookup_insert_eq by lia. by destruct (ad_agent sd).
  - intros i Hi. cbn in Hi. apply not_elem_of_cons in Hi as [Hi1 Hi2]. rewrite F2 by done. unfold adopt_seat.
    rewrite list_lookup_insert_ne; [done|lia].
Qed.

(** A hub with an agent starts. *)
Lemma start_hub_ok hub i (t : RNetTransport nat) : (0 < i)%nat -> is_Some (mjoin (hub !! i)) ->
  let '(ok, t') := rnet_transport_start_ice_hub (hub_ctx hub) t in
  ok = true /\ tr_mode t' = TRANSPORT_ICE_HUB /\ tr_ice_fns t' = true /\ tr_hub_rr t' = 0%nat /\ tr_hub_ice_ctx t' = None :: tail (hub_ctx hub).
Proof.
  intros Hi [a Ha]. unfold rnet_transport_start_ice_hub. destruct (forallb _ _) eqn:Ef; [|done]. exfalso.
  assert (tail (hub_ctx hub) !! (i - 1)%nat = Some (Some i)) as Hlk.
  { rewrite lookup_tail. replace (S (i - 1)) with i by lia. unfold hub_ctx. rewrite list_lookup_imap.
    destruct (hub !! i) as [o|]; [|done]. cbn in *. by subst o. }
  rewrite forallb_forall in Ef. specialize (Ef (Some i)). cbn in Ef. assert (false = true) by (apply Ef; right; by eapply list_elem_of_In, list_elem_of_lookup_2). done.
Qed.

(** Connected agents are adopted all together or not at all: if a seat is
    out of range, named twice or not connected the session is left as it was
    and the caller keeps its agents; otherwise every seat's agent is taken,
    frozen and served by the hub transport, and no other seat has one. The
    transport's own refusal is never reached. *)
Theorem hub_adopt_all_or_nothing seats (st : St) :
  let '(ok, st') := rnet_session_start_ice_hub_adopt seats st in
  if ok then
    s_phase (fst st') = PHASE_IDLE /\ tr_mode (lk_transport (snd st')) = TRANSPORT_ICE_HUB /\
    tr_hub_ice_ctx (lk_transport (snd st')) = None :: tail (hub_ctx (lk_hub (snd st'))) /\
    Forall (fun sd => exists a, ad_agent sd = Some a /\ ia_state a = ICE_COMPLETED /\
      seat_agent (snd st') (Z.to_nat (ad_slot sd)) = Some (adopted a)) seats /\
    forall i, seat_agent (snd st') i <> None <-> Z.of_nat i ∈ map ad_slot seats
  else st' = st.
Proof.
  unfold rnet_session_start_ice_hub_adopt. destruct (_ || _) eqn:En; [done|]. destruct (adopt_mask seats 0) as [mask|] eqn:Em; [|done].
  destruct (adopt_mask_spec seats 0 mask (Z.le_refl 0) Em) as (A1 & A2 & _ & _). destruct st as [s l]. cbn [session_ice_reset_transport].
  set (l0 := hub_cleared (set_lk_ice None l)). set (hub := fold_left adopt_seat seats (lk_hub l0)).
  destruct (adopt_fold seats (lk_hub l0) A1 A2 eq_refl) as [F1 F2]. fold hub in F1, F2.
  destruct seats as [|sd0 seats']; [done|]. assert (exists a0, ad_agent sd0 = Some a0) as [a0 Ea0].
  { inversion A1 as [|? ? [_ (a & E & _)] _]; subst. by exists a. }
  assert (1 <= ad_slot sd0 < 8) as Hs0 by (by inversion A1 as [|? ? [? _] _]).
  pose proof (start_hub_ok hub (Z.to_nat (ad_slot sd0)) (lk_transport (set_lk_hub hub l0))) as Hst.
  destruct (rnet_transport_start_ice_hub _ _) as [started t]. destruct Hst as (-> & T1 & _ & _ & T2); [lia|rewrite F1 by constructor; by rewrite Ea0|].
  cbn [negb]. unfold link_clock. cbn [session_now fst snd]. split_and!; try done.
  - rewrite Forall_forall in *. intros sd Hin. destruct (A1 sd Hin) as (Hs & a & Ea & Hc). exists a. split_and!; try done.
    unfold seat_agent. cbn. fold hub. rewrite F1 by done. by rewrite Ea.
  - intros i. unfold seat_agent. cbn [lk_hub set_lk_completed_ms set_lk_attempt_ms set_lk_hub_mask set_lk_transport set_lk_hub].
    destruct (decide (Z.of_nat i ∈ map ad_slot (sd0 :: seats'))) as [Hin|Hni].
    + split; [done|]. intros _. apply list_elem_of_fmap in Hin as (sd & E & Hin). rewrite Forall_forall in A1. destruct (A1 sd Hin) as (_ & a & Ea & _).
      specialize (F1 sd Hin). rewrite <-E, Nat2Z.id, Ea in F1. cbn in *. by rewrite F1.
    + split; [|done]. intros Hne. exfalso. apply Hne. rewrite F2 by done. cbn. do 8 (destruct i as [|i]; [done|]). done.
Qed.
End Links.

(** ** Concrete inputs *)

#[local] Instance always_juice : Juice :=
  {| juice_ok _ _ := true; juice_local _ := None; juice_selected _ := None; juice_sdp_cap := 4096%nat |}.
Definition idle_session : option RNetSession :=
  rnet_session_create rnet_config_init_defaults true true 1 (mkIo [90000] [] [] [] [] []).
Definition turn_config : RNetIceConfig := mkIceConfig None 0 (Some "t"%string) 0 (Some "u"%string) (Some "p"%string) None 0 true false.
Definition connected (c : RNetIceConfig) : option RNetIceAgent :=
  on_state_changed JUICE_COMPLETED <$> rnet_ice_agent_create false true c true.
(** Two connected guests. *)
Definition two_guests : SessionLinks :=
  set_lk_hub_mask 6 (set_lk_hub [None; connected turn_config; connected turn_config; None; None; None; None; None] zero_links).
Abbreviation unset := (fun _ : string => @None string).

Lemma hub_links_when_all_connected_witness :
  exists s, idle_session = Some s /\ s_phase (fst (pump_hub (s, two_guests))) = PHASE_LINKING /\
    exists a, seat_agent (snd (pump_hub (s, two_guests))) 1 = Some a /\ ia_frozen a = true.
Proof.
  destruct idle_session as [s|] eqn:Es; [|discriminate Es]. exists s. split; [reflexivity|].
  assert (s_phase s = PHASE_IDLE) as Hp by (vm_compute in Es; injection Es as <-; reflexivity).
  destruct (seat_agent two_guests 1) as [a0|] eqn:Ea; [|discriminate Ea].
  pose proof (hub_links_when_all_connected s two_guests ltac:(vm_compute; discriminate) Hp) as Hw.
  destruct (pump_hub (s, two_guests)) as [s' l']. destruct Hw as [H1 H2].
  split; [etransitivity; [exact H1|vm_compute; reflexivity]|].
  destruct (H2 1%nat a0 ltac:(apply elem_of_seq; lia) Ea) as (a' & E & _ & _ & Hf). exists a'. split; [exact E|]. apply Hf.
  vm_compute in Ea. injection Ea as <-. reflexivity.
Defined.

Lemma connected_seat_keeps_link_witness :
  exists s a, idle_session = Some s /\ adopted <$> connected turn_config = Some a /\
    exists a', seat_agent (snd (link_run unset [LSignalFrom 1 (mkSig SIGNAL_REMOTE_SDP 0 255 "v=0"); LPump]
      (s, set_lk_hub [None; Some a; None; None; None; None; None; None] two_guests))) 1 = Some a' /\ link_kept a a'.
Proof.
  destruct idle_session as [s|] eqn:Es; [|discriminate Es]. destruct (adopted <$> connected turn_config) as [a|] eqn:Ea; [|discriminate Ea].
  exists s, a. split; [reflexivity|]. split; [reflexivity|]. apply connected_seat_keeps_link.
  - apply elem_of_seq. lia.
  - reflexivity.
  - vm_compute in Ea. injection Ea as <-. reflexivity.
  - repeat constructor; discriminate.
Defined.

Lemma relay_retry_exact_witness :
  exists s a, idle_session = Some s /\ rnet_ice_agent_create false true turn_config true = Some a /\
    exists a', lk_ice (snd (session_maybe_ice_relay_fallback unset (s, set_lk_attempt_ms 1000 (set_lk_ice (Some a) zero_links)))) = Some a' /\
      relayed a'.
Proof.
  destruct idle_session as [s|] eqn:Es; [|discriminate Es].
  destruct (rnet_ice_agent_create false true turn_config true) as [a|] eqn:Ea; [|discriminate Ea].
  exists s, a. split; [reflexivity|]. split; [reflexivity|].
  destruct (relay_retry_exact unset s (set_lk_attempt_ms 1000 (set_lk_ice (Some a) zero_links)) a eq_refl) as [_ (a' & E & Hc)].
  exists a'. split; [exact E|]. vm_compute in Es. injection Es as <-. vm_compute in Ea. injection Ea as <-.
  match type of Hc with if ?b then _ else _ => replace b with true in Hc by (vm_compute; reflexivity) end. exact (proj1 Hc).
Defined.
