(* ===== verification/SigHold.v ===== *)
(** * Held signals (src/nat/rnet_sig_hold.c, rnet_sig_hold.h)

    Signals that arrive before the agent that consumes them, one bucket per
    sender. A bucket whose entries are not allocated is [None]. [A] is the
    signal. *)

From stdpp Require Import base list numbers list_numbers strings gmap.
From S2P Require Import Prelude CStrings Slots.

Definition RNET_SIG_HOLD_PEERS : nat := 8.
Definition RNET_SIG_HOLD_PER_PEER : nat := 24.
Definition RNET_SIG_HOLD_ID_LEN : nat := 64.

Section Hold.
Context {A : Type}.

Record RNetSigHoldEntry := mkHeldSig { he_sig : A; he_slot : Z }.
Record RNetSigHoldBucket := mkBucket { bk_player_id : string; bk_e : list RNetSigHoldEntry; bk_born_ms : Z }.
Record RNetSigHold := mkHold { sh_b : list (option RNetSigHoldBucket); sh_dropped : Z }.
Definition sig_hold_empty : RNetSigHold := mkHold (repeat None RNET_SIG_HOLD_PEERS) 0.

(** The bucket of a sender: its index and contents. *)
Definition is_bucket_of (pid : string) (o : option RNetSigHoldBucket) : bool :=
  match o with Some b => String.eqb (bk_player_id b) pid | None => false end.
Definition hold_find (h : RNetSigHold) (pid : string) : option (nat * RNetSigHoldBucket) :=
  if String.eqb pid "" then None else
  match index_of (is_bucket_of pid) (sh_b h) with
  | Some (i, Some b) => Some (i, b)
  | _ => None
  end.
Definition hold_refuse (h : RNetSigHold) : bool * RNetSigHold := (false, mkHold (sh_b h) (u32 (sh_dropped h + 1))).
Definition hold_store (h : RNetSigHold) (i : nat) (b : RNetSigHoldBucket) (e : RNetSigHoldEntry) : bool * RNetSigHold :=
  if (RNET_SIG_HOLD_PER_PEER <=? length (bk_e b))%nat then hold_refuse (mkHold (<[i := Some b]> (sh_b h)) (sh_dropped h))
  else (true, mkHold (<[i := Some (mkBucket (bk_player_id b) (bk_e b ++ [e]) (bk_born_ms b))]> (sh_b h)) (sh_dropped h)).

(** [true]: held. *)
Definition rnet_sig_hold_push (calloc_ok : bool) (pid : string) (slot : Z) (sig : A) (now_ms : Z) (h : RNetSigHold) : bool * RNetSigHold :=
  if String.eqb pid "" then (false, h) else
  match hold_find h pid with
  | Some (i, b) => hold_store h i b (mkHeldSig sig slot)
  | None =>
      match index_of (fun o => negb (is_some o)) (sh_b h) with
      | None => hold_refuse h
      | Some (i, _) =>
          if negb calloc_ok then hold_refuse h
          else hold_store h i (mkBucket (snprintf_s RNET_SIG_HOLD_ID_LEN pid) [] now_ms) (mkHeldSig sig slot)
      end
  end.

Definition rnet_sig_hold_count (h : RNetSigHold) (pid : string) : nat :=
  match hold_find h pid with Some (_, b) => length (bk_e b) | None => 0 end.
Definition rnet_sig_hold_get (h : RNetSigHold) (pid : string) (index : nat) : option RNetSigHoldEntry :=
  match hold_find h pid with Some (_, b) => bk_e b !! index | None => None end.
Definition rnet_sig_hold_drop (h : RNetSigHold) (pid : string) : RNetSigHold :=
  match hold_find h pid with Some (i, _) => mkHold (<[i := None]> (sh_b h)) (sh_dropped h) | None => h end.
Definition rnet_sig_hold_clear (h : RNetSigHold) : RNetSigHold := mkHold (map (fun _ => None) (sh_b h)) (sh_dropped h).
Definition hold_expired (now_ms max_age_ms : Z) (b : RNetSigHoldBucket) : bool :=
  (bk_born_ms b <=? now_ms) && (max_age_ms <? now_ms - bk_born_ms b).
Definition rnet_sig_hold_expire (now_ms max_age_ms : Z) (h : RNetSigHold) : RNetSigHold :=
  mkHold (map (fun o => b ← o; if hold_expired now_ms max_age_ms b then None else Some b) (sh_b h)) (sh_dropped h).

(** ** The table as a map

    The abstract table: what each sender has waiting and since when. *)
Abbreviation Held := (list RNetSigHoldEntry * Z)%type.
Definition hold_map (h : RNetSigHold) : gmap string Held :=
  list_to_map (omap (fmap (fun b => (bk_player_id b, (bk_e b, bk_born_ms b)))) (sh_b h)).
(** Stored names are whole (63 characters are kept) and distinct. *)
Record hold_ok (h : RNetSigHold) : Prop := {
  ho_slots : length (sh_b h) = RNET_SIG_HOLD_PEERS;
  ho_names : NoDup (map bk_player_id (omap id (sh_b h)));
  ho_valid : Forall (fun b => bk_player_id b <> EmptyString /\ (length (bk_e b) <= RNET_SIG_HOLD_PER_PEER)%nat) (omap id (sh_b h))
}.
(** What a push promises: the newest is refused when the sender's bucket, or
    the table for a new sender, is full, when there is no memory for a new
    sender, and when it has no name. *)
Definition map_push (mem : bool) (pid : string) (e : RNetSigHoldEntry) (now : Z) (m : gmap string Held) : option (gmap string Held) :=
  if String.eqb pid "" then None else
  match m !! pid with
  | Some (es, born) => if (RNET_SIG_HOLD_PER_PEER <=? length es)%nat then None else Some (<[pid := (es ++ [e], born)]> m)
  | None => if (RNET_SIG_HOLD_PEERS <=? size m)%nat || negb mem then None else Some (<[pid := ([e], now)]> m)
  end.
End Hold.
Arguments RNetSigHoldEntry : clear implicits.
Arguments RNetSigHoldBucket : clear implicits.
Arguments RNetSigHold : clear implicits.

(** * Held signals: the table refines a bounded map *)


Lemma cut_whole n s : (String.length s <= n)%nat -> cut n s = s.
Proof.
  revert s. induction n as [|n IH]; intros [|c s] Hl; cbn in *; try done; [lia|]. unfold cut in *. cbn. by rewrite IH by lia.
Qed.

Section Refine.
Context {A : Type}.
Notation H := (RNetSigHold A).
Notation B := (RNetSigHoldBucket A).

Definition used (h : H) : list B := omap id (sh_b h).
Definition row (b : B) := (bk_player_id b, (bk_e b, bk_born_ms b)).
Lemma hold_map_rows (h : H) : hold_map h = list_to_map (map row (used h)).
Proof. unfold hold_map, used. f_equal. induction (sh_b h) as [|[b|] l IH]; cbn; [done|by rewrite IH|done]. Qed.
Lemma rows_names (l : list B) : (map row l).*1 = map bk_player_id l.
Proof. rewrite <-list_fmap_compose. done. Qed.

(** Tables with the same buckets are the same map. *)
Lemma map_of_perm (l l' : list B) : NoDup (map bk_player_id l) -> l ≡ₚ l' ->
  (list_to_map (map row l) : gmap string _) = list_to_map (map row l').
Proof. intros Hn Hp. apply list_to_map_proper; [by rewrite rows_names|by rewrite Hp]. Qed.
Lemma map_cons_row b (l : list B) :
  (list_to_map (map row (b :: l)) : gmap string _) = <[bk_player_id b := (bk_e b, bk_born_ms b)]> (list_to_map (map row l)).
Proof. done. Qed.
Lemma map_size_rows (l : list B) : NoDup (map bk_player_id l) -> size (list_to_map (map row l) : gmap string _) = length l.
Proof. intros Hn. rewrite map_size_list_to_map; [by rewrite length_map|by rewrite rows_names]. Qed.

Lemma ok_of (bs : list (option B)) d l : length bs = RNET_SIG_HOLD_PEERS -> omap id bs ≡ₚ l -> NoDup (map bk_player_id l) ->
  Forall (fun b => bk_player_id b <> EmptyString /\ (length (bk_e b) <= RNET_SIG_HOLD_PER_PEER)%nat) l -> hold_ok (mkHold bs d).
Proof. intros Hl Hp Hn Hv. split; cbn; [done|by rewrite Hp|by rewrite Hp]. Qed.

(** Finding a sender's bucket. *)
Lemma find_spec (h : H) pid : hold_ok h ->
  match hold_find h pid with
  | Some (i, b) => sh_b h !! i = Some (Some b) /\ bk_player_id b = pid /\ hold_map h !! pid = Some (bk_e b, bk_born_ms b)
  | None => hold_map h !! pid = None
  end.
Proof.
  intros [H1 H2 H3]. unfold hold_find. destruct (String.eqb_spec pid "") as [->|].
  { rewrite hold_map_rows. apply not_elem_of_list_to_map_1. rewrite rows_names. intros (b & Hb & Hin)%list_elem_of_fmap.
    rewrite Forall_forall in H3. by destruct (H3 b Hin) as [Hn _]. }
  pose proof (index_of_spec (is_bucket_of pid) (sh_b h)) as Hi.
  rewrite hold_map_rows. destruct (index_of _ (sh_b h)) as [[i [b|]]|]; [|by destruct Hi|].
  - destruct Hi as [Hi Hb]. cbn in Hb. apply String.eqb_eq in Hb. split; [done|]. split; [done|].
    destruct (bag_replace (sh_b h) i b b Hi) as (rest & Hr & _). rewrite (map_of_perm (used h) (b :: rest) H2 Hr), map_cons_row, Hb.
    apply lookup_insert_eq.
  - apply not_elem_of_list_to_map_1. rewrite rows_names. intros (b & -> & Hin)%list_elem_of_fmap.
    apply list_elem_of_omap in Hin as (o & Ho & Eo). cbn in Eo. subst o. rewrite Forall_forall in Hi. specialize (Hi _ Ho). cbn in Hi.
    by rewrite String.eqb_refl in Hi.
Qed.

Lemma push_refines mem pid slot sig now (h : H) : hold_ok h -> (String.length pid < RNET_SIG_HOLD_ID_LEN)%nat ->
  let '(ok, h') := rnet_sig_hold_push mem pid slot sig now h in
  hold_ok h' /\
  match map_push mem pid (mkHeldSig sig slot) now (hold_map h) with
  | Some m => ok = true /\ hold_map h' = m
  | None => ok = false /\ hold_map h' = hold_map h
  end.
Proof.
  intros Hok Hl. unfold rnet_sig_hold_push, map_push. destruct (String.eqb_spec pid ""); [done|].
  pose proof (find_spec h pid Hok) as Hf. pose proof Hok as [H1 H2 H3]. destruct (hold_find h pid) as [[i b]|].
  - destruct Hf as (Hi & <- & Hm). rewrite Hm. unfold hold_store.
    set (b' := mkBucket (bk_player_id b) (bk_e b ++ [mkHeldSig sig slot]) (bk_born_ms b)).
    destruct (bag_replace (sh_b h) i b b' Hi) as (rest & R1 & R2 & _).
    assert (NoDup (map bk_player_id (b :: rest))) as Hn by (by rewrite <-R1).
    assert (Forall (fun b => bk_player_id b <> EmptyString /\ (length (bk_e b) <= RNET_SIG_HOLD_PER_PEER)%nat) (b :: rest)) as Hv by (by rewrite <-R1).
    destruct (Nat.leb_spec RNET_SIG_HOLD_PER_PEER (length (bk_e b))) as [Hful|Hroom].
    + rewrite list_insert_id by done. destruct h as [bs d]. done.
    + split.
      * apply (ok_of _ _ (b' :: rest)); [by rewrite length_insert|done|done|]. inversion Hv; subst. constructor; [|done].
        cbn. rewrite length_app. cbn. split; [tauto|lia].
      * split; [done|]. rewrite !hold_map_rows. unfold used in *. cbn [sh_b].
        rewrite (map_of_perm _ (b' :: rest)); [|by rewrite R2|done]. rewrite (map_of_perm (omap id (sh_b h)) (b :: rest)); [|done|done].
        rewrite !map_cons_row. cbn. by rewrite insert_insert_eq.
  - rewrite Hf. assert (size (hold_map h) = length (used h)) as Hsz by (rewrite hold_map_rows; by apply map_size_rows).
    pose proof (index_of_spec (fun o : option B => negb (is_some o)) (sh_b h)) as Hi. destruct (index_of _ (sh_b h)) as [[i o]|].
    + destruct Hi as [Hi Ho]. destruct o as [b|]; [done|]. unfold hold_store. cbn [bk_e length].
      pose proof (bag_free _ _ Hi) as Hlt. destruct (Nat.leb_spec RNET_SIG_HOLD_PEERS (size (hold_map h))); [unfold used in *; lia|].
      destruct mem; cbn [negb orb]; [|by destruct h as [bs d]].
      replace (RNET_SIG_HOLD_PER_PEER <=? 0)%nat with false by done. cbn [app bk_player_id bk_born_ms].
      assert (snprintf_s RNET_SIG_HOLD_ID_LEN pid = pid) as -> by (apply cut_whole; unfold RNET_SIG_HOLD_ID_LEN in *; lia).
      set (b' := mkBucket pid [mkHeldSig sig slot] now). pose proof (bag_put (sh_b h) i b' Hi) as Hb.
      assert (NoDup (map bk_player_id (b' :: used h))) as Hn.
      { cbn. constructor; [|done]. rewrite hold_map_rows in Hf. apply not_elem_of_list_to_map_2 in Hf. by rewrite rows_names in Hf. }
      split.
      * apply (ok_of _ _ (b' :: used h)); [by rewrite length_insert|done|done|]. constructor; [|done]. cbn. split; [done|unfold RNET_SIG_HOLD_PER_PEER; lia].
      * split; [done|]. rewrite !hold_map_rows. unfold used at 1. cbn [sh_b]. rewrite (map_of_perm _ (b' :: used h)); [done|by rewrite Hb|done].
    + apply bag_full in Hi. destruct (Nat.leb_spec RNET_SIG_HOLD_PEERS (size (hold_map h))); [|unfold used in *; lia].
      by destruct h as [bs d].
Qed.

Lemma drop_refines pid (h : H) : hold_ok h ->
  hold_ok (rnet_sig_hold_drop h pid) /\ hold_map (rnet_sig_hold_drop h pid) = delete pid (hold_map h) /\
  sh_dropped (rnet_sig_hold_drop h pid) = sh_dropped h.
Proof.
  intros Hok. pose proof (find_spec h pid Hok) as Hf. unfold rnet_sig_hold_drop. pose proof Hok as [H1 H2 H3].
  destruct (hold_find h pid) as [[i b]|]; [|split_and!; [done| |done]; by rewrite delete_id]. destruct Hf as (Hi & <- & _).
  destruct (bag_replace (sh_b h) i b b Hi) as (rest & R1 & _ & R3).
  assert (NoDup (map bk_player_id (b :: rest))) as Hn by (by rewrite <-R1). cbn in Hn. apply NoDup_cons in Hn as [Hni Hn].
  split; [|split; [|done]].
  - apply (ok_of _ _ rest); [by rewrite length_insert|done|done|]. rewrite R1 in H3. by inversion H3.
  - rewrite !hold_map_rows. unfold used at 1. cbn [sh_b]. rewrite (map_of_perm _ rest); [|by rewrite R3|done].
    rewrite (map_of_perm (used h) (b :: rest) H2 R1), map_cons_row, delete_insert_id; [done|].
    apply not_elem_of_list_to_map_1. by rewrite rows_names.
Qed.

(** The used buckets that a pass keeps. *)
Lemma kept_buckets (keep : B -> bool) (l : list (option B)) :
  omap id (map (fun o => b ← o; if keep b then Some b else None) l) = filter (fun b => keep b = true) (omap id l).
Proof.
  induction l as [|[b|] l IH]; cbn -[filter]; [done| |done]. rewrite filter_cons, <-IH. destruct (keep b) eqn:E; cbn -[filter].
  - by rewrite decide_True.
  - by rewrite decide_False.
Qed.
Lemma expire_refines now age (h : H) : hold_ok h ->
  hold_ok (rnet_sig_hold_expire now age h) /\
  hold_map (rnet_sig_hold_expire now age h) = filter (fun kv => (snd (snd kv) <=? now) && (age <? now - snd (snd kv)) = false) (hold_map h).
Proof.
  intros [H1 H2 H3]. set (keep (b : B) := negb (hold_expired now age b)).
  assert (used (rnet_sig_hold_expire now age h) = filter (fun b => keep b = true) (used h)) as Hu.
  { unfold used, rnet_sig_hold_expire. cbn [sh_b]. rewrite <-kept_buckets. f_equal. apply map_ext. intros [b|]; [|done]. cbn.
    unfold keep. by destruct (hold_expired now age b). }
  assert (NoDup (map bk_player_id (filter (fun b => keep b = true) (used h)))) as Hn.
  { eapply sublist_NoDup; [exact H2|]. apply fmap_sublist, sublist_filter. }
  split.
  - unfold rnet_sig_hold_expire. apply (ok_of _ _ (filter (fun b => keep b = true) (used h))); [by rewrite length_map|by rewrite <-Hu|done|].
    rewrite Forall_forall in *. intros b [_ Hb]%list_elem_of_filter. by apply H3.
  - apply map_eq. intros k. apply option_eq. intros [es born]. rewrite map_lookup_filter_Some, !hold_map_rows, Hu.
    rewrite <-!elem_of_list_to_map by (by rewrite rows_names). cbn [snd]. rewrite !list_elem_of_fmap. split.
    + intros (b & [= -> -> ->] & [Hk Hb]%list_elem_of_filter). split; [by exists b|]. unfold keep, hold_expired in Hk.
      by destruct (_ && _).
    + intros [(b & [= -> -> ->] & Hb) Hk]. exists b. split; [done|]. apply list_elem_of_filter. split; [|done].
      unfold keep, hold_expired. by rewrite Hk.
Qed.

(** ** Sequences of calls *)

Inductive HoldOp := HPush (mem : bool) (pid : string) (slot : Z) (sig : A) (now : Z) | HCount (pid : string) | HGet (pid : string) (index : nat)
| HDrop (pid : string) | HClear | HExpire (now age : Z).
Inductive HoldOut := OutHeld (ok : bool) | OutCount (n : nat) | OutEntry (o : option (RNetSigHoldEntry A)) | OutNone.
Definition hold_op (op : HoldOp) (h : H) : HoldOut * H :=
  match op with
  | HPush mem pid slot sig now => let '(ok, h) := rnet_sig_hold_push mem pid slot sig now h in (OutHeld ok, h)
  | HCount pid => (OutCount (rnet_sig_hold_count h pid), h)
  | HGet pid i => (OutEntry (rnet_sig_hold_get h pid i), h)
  | HDrop pid => (OutNone, rnet_sig_hold_drop h pid)
  | HClear => (OutNone, rnet_sig_hold_clear h)
  | HExpire now age => (OutNone, rnet_sig_hold_expire now age h)
  end.
(** The same on the map. *)
Definition map_op (op : HoldOp) (m : gmap string (list (RNetSigHoldEntry A) * Z)) : HoldOut * gmap string (list (RNetSigHoldEntry A) * Z) :=
  match op with
  | HPush mem pid slot sig now => match map_push mem pid (mkHeldSig sig slot) now m with Some m => (OutHeld true, m) | None => (OutHeld false, m) end
  | HCount pid => (OutCount (from_option (fun v => length (fst v)) 0%nat (m !! pid)), m)
  | HGet pid i => (OutEntry (m !! pid ≫= fun v => fst v !! i), m)
  | HDrop pid => (OutNone, delete pid m)
  | HClear => (OutNone, ∅)
  | HExpire now age => (OutNone, filter (fun kv => (snd (snd kv) <=? now) && (age <? now - snd (snd kv)) = false) m)
  end.
(** The names a bucket can hold. *)
Definition named (op : HoldOp) : Prop :=
  match op with
  | HPush _ pid _ _ _ => (String.length pid < RNET_SIG_HOLD_ID_LEN)%nat
  | _ => True
  end.

Lemma hold_op_refines op (h : H) : hold_ok h -> named op ->
  let '(out, h') := hold_op op h in hold_ok h' /\ map_op op (hold_map h) = (out, hold_map h').
Proof.
  intros Hok Hn. destruct op as [mem pid slot sig now|pid|pid i|pid| |now age]; cbn [hold_op map_op named] in *.
  - pose proof (push_refines mem pid slot sig now h Hok Hn) as Hp.
    destruct (rnet_sig_hold_push mem pid slot sig now h) as [ok h']. destruct Hp as [Hok' Hp]. split; [done|].
    destruct (map_push mem pid _ now (hold_map h)); destruct Hp as (-> & ->); done.
  - split; [done|]. unfold rnet_sig_hold_count. pose proof (find_spec h pid Hok) as Hf.
    destruct (hold_find h pid) as [[i b]|]; [destruct Hf as (_ & _ & ->)|rewrite Hf]; done.
  - split; [done|]. unfold rnet_sig_hold_get. pose proof (find_spec h pid Hok) as Hf.
    destruct (hold_find h pid) as [[j b]|]; [destruct Hf as (_ & _ & ->)|rewrite Hf]; done.
  - destruct (drop_refines pid h Hok) as (Hok' & -> & _). done.
  - assert (forall l : list (option B), omap id (map (fun _ => @None B) l) = []) as Hnil by (induction l; done).
    split.
    + apply (ok_of _ _ []); [by rewrite length_map; apply Hok|by rewrite Hnil|constructor|constructor].
    + rewrite hold_map_rows. unfold used, rnet_sig_hold_clear. cbn [sh_b]. by rewrite Hnil.
  - destruct (expire_refines now age h Hok) as [Hok' ->]. done.
Qed.

Fixpoint run_ops {S} (step : HoldOp -> S -> HoldOut * S) (ops : list HoldOp) (x : S) : list HoldOut * S :=
  match ops with
  | [] => ([], x)
  | op :: ops => let '(o, x) := step op x in let '(os, x) := run_ops step ops x in (o :: os, x)
  end.
End Refine.
Arguments HoldOp : clear implicits.

(** C13. The table of held signals is a bounded map from sender to an ordered
    list: any sequence of calls, with or without memory for a new sender, in
    which no pushed sender id has 64 characters or more (an id that long is
    stored cut and not found again), gives the answers of the map that keeps
    up to 8 senders with up to 24 signals each, refuses the newest when full
    or when a new sender has no name or no memory, and forgets a sender on
    drop, on clear or by age. *)
Theorem sig_hold_refines {A} (ops : list (HoldOp A)) : Forall named ops ->
  let '(outs, h) := run_ops hold_op ops sig_hold_empty in
  run_ops map_op ops ∅ = (outs, hold_map h) /\ hold_ok h.
Proof.
  intros Hn. assert (hold_ok (@sig_hold_empty A)) as H0 by (split; cbn; [done|constructor|constructor]).
  assert ((∅ : gmap string (list (RNetSigHoldEntry A) * Z)) = hold_map sig_hold_empty) as -> by done.
  revert H0. generalize (@sig_hold_empty A) as h. induction Hn as [|op ops Ho Hn IH]; intros h H0; [done|].
  cbn [run_ops]. pose proof (hold_op_refines op h H0 Ho) as Hs. destruct (hold_op op h) as [o h1]. destruct Hs as [H1 ->].
  specialize (IH h1 H1). destruct (run_ops hold_op ops h1) as [os h2]. destruct IH as [-> H2]. done.
Qed.
Lemma sig_hold_refines_witness :
  let ops := [HPush true "a" 1 7 100; HPush true "b" 2 8 100; HPush false "c" 3 9 100; HPush true "" 4 9 100; HCount "a"; HGet "b" 0; HExpire 200 50; HCount "b"] in
  fst (run_ops hold_op ops sig_hold_empty) = [OutHeld true; OutHeld true; OutHeld false; OutHeld false; OutCount 1; OutEntry (Some (mkHeldSig 8 2)); OutNone; OutCount 0] /\
  let '(outs, h) := run_ops hold_op ops sig_hold_empty in run_ops map_op ops ∅ = (outs, hold_map h) /\ hold_ok h.
Proof.
  split; [vm_compute; reflexivity|]. apply sig_hold_refines. repeat constructor; try discriminate; vm_compute; lia.
Defined.

(** An id of 64 characters is stored cut to 63 and never found again: every
    push of that sender opens another bucket. *)
Theorem long_id_fills_table (A : Type) (sig : A) :
  let pid := string_of (replicate 64 97) in
  let h := snd (run_ops hold_op (replicate 8 (HPush true pid 0 sig 0)) sig_hold_empty) in
  rnet_sig_hold_count h pid = 0%nat /\
  Forall (fun o => exists b, o = Some b /\ length (bk_e b) = 1%nat) (sh_b h) /\
  fst (rnet_sig_hold_push true "b" 0 sig 0 h) = false.
Proof. split; [reflexivity|]. split; [|reflexivity]. repeat (constructor; [by eexists|]). constructor. Qed.
