(* ===== verification/HostIce.v ===== *)
(** * Host relay over ICE: the waiting room
      (src/nat/rnet_host_ice.c, include/recomp_net/host_ice.h)

    Before the match the host keeps one answering agent per seated guest, a
    guest one offering agent for the host. [rnet_host_ice_update] reconciles
    the agents with the lobby's view and drives them; signals of the lobby
    come in through [rnet_host_ice_push_signal]. An unused peer entry is
    [None]. The clock's readings to come are [hi_clock]; what is sent to the
    lobby is appended to [hi_out], and whether the lobby accepts a report may
    depend on all of it. *)

From stdpp Require Import base list numbers list_numbers strings.
From S2P Require Import Prelude CStrings Slots IceAgent SigHold.

Definition HI_REPORT_REFRESH_MS : Z := 45000.
Definition HI_FAIL_RETRY_MS : Z := 20000.
Definition HI_CONNECT_TIMEOUT_MS : Z := 25000.
Definition HI_HOLD_MAX_AGE_MS : Z := 30000.
Definition HI_RTT_PING_MS : Z := 1000.
Definition RNET_LOBBY_SIG_HOSTICE_BASE : Z := 130.
Definition RNET_HOST_ICE_MAX_PEERS : nat := 8.
Definition RNET_HOST_ICE_ID_LEN : nat := 64.

(** The wire number of a signal type and back. *)
Definition signal_number (t : RNetSignalType) : Z :=
  match t with
  | SIGNAL_LOCAL_SDP => 1 | SIGNAL_REMOTE_SDP => 2 | SIGNAL_LOCAL_CANDIDATE => 3 | SIGNAL_REMOTE_CANDIDATE => 4
  | SIGNAL_GATHERING_DONE => 5 | SIGNAL_SET_CONTROLLING => 6
  end.
Inductive HiRole := HiIdle | HiHost | HiGuest.
#[export] Instance hi_role_eq_dec : EqDecision HiRole.
Proof. solve_decision. Defined.

(** To the lobby: a signal for a player, or a path report. *)
Inductive HiOut := OutSignal (to : string) (type flag : Z) (text : string) | OutReport (path : string) (ice : option string).

Record HiPeer := mkPeer {
  hp_pid : string;
  hp_slot : Z;
  hp_local_slot : Z;
  hp_agent : option RNetIceAgent;
  hp_gen : Z;
  hp_created_ms : Z;
  hp_last_report : string;
  hp_report_due_ms : Z;
  hp_retry_at_ms : Z;
  hp_rtt_ms : Z;
  hp_ping_due_ms : Z
}.
Definition eta_hp (p : HiPeer) : HiPeer :=
  mkPeer (hp_pid p) (hp_slot p) (hp_local_slot p) (hp_agent p) (hp_gen p) (hp_created_ms p) (hp_last_report p)
    (hp_report_due_ms p) (hp_retry_at_ms p) (hp_rtt_ms p) (hp_ping_due_ms p).
Definition set_hp_slot := ltac:(updater eta_hp hp_slot).
Definition set_hp_local_slot := ltac:(updater eta_hp hp_local_slot).
Definition set_hp_agent := ltac:(updater eta_hp hp_agent).
Definition set_hp_gen := ltac:(updater eta_hp hp_gen).
Definition set_hp_created_ms := ltac:(updater eta_hp hp_created_ms).
Definition set_hp_last_report := ltac:(updater eta_hp hp_last_report).
Definition set_hp_report_due_ms := ltac:(updater eta_hp hp_report_due_ms).
Definition set_hp_retry_at_ms := ltac:(updater eta_hp hp_retry_at_ms).
Definition set_hp_rtt_ms := ltac:(updater eta_hp hp_rtt_ms).
Definition set_hp_ping_due_ms := ltac:(updater eta_hp hp_ping_due_ms).

Record RNetHostIce := mkHostIce {
  hi_role : HiRole;
  hi_peer : list (option HiPeer);
  hi_hold : RNetSigHold RNetSignal;
  hi_can_signal : bool;
  hi_can_report : bool;
  hi_stun_host : string;
  hi_stun_set : bool;
  hi_stun_port : Z;
  hi_bind_address : string;
  hi_host_pid : string;
  hi_rejected : Z;
  hi_reports_sent : Z;
  hi_last_report : string;
  hi_unavailable_reported : bool;
  hi_clock : list Z;
  hi_out : list HiOut
}.
Definition eta_hi (h : RNetHostIce) : RNetHostIce :=
  mkHostIce (hi_role h) (hi_peer h) (hi_hold h) (hi_can_signal h) (hi_can_report h) (hi_stun_host h) (hi_stun_set h) (hi_stun_port h)
    (hi_bind_address h) (hi_host_pid h) (hi_rejected h) (hi_reports_sent h) (hi_last_report h) (hi_unavailable_reported h) (hi_clock h) (hi_out h).
Definition set_hi_role := ltac:(updater eta_hi hi_role).
Definition set_hi_peer := ltac:(updater eta_hi hi_peer).
Definition set_hi_hold := ltac:(updater eta_hi hi_hold).
Definition set_hi_can_signal := ltac:(updater eta_hi hi_can_signal).
Definition set_hi_can_report := ltac:(updater eta_hi hi_can_report).
Definition set_hi_stun_host := ltac:(updater eta_hi hi_stun_host).
Definition set_hi_stun_set := ltac:(updater eta_hi hi_stun_set).
Definition set_hi_stun_port := ltac:(updater eta_hi hi_stun_port).
Definition set_hi_bind_address := ltac:(updater eta_hi hi_bind_address).
Definition set_hi_host_pid := ltac:(updater eta_hi hi_host_pid).
Definition set_hi_rejected := ltac:(updater eta_hi hi_rejected).
Definition set_hi_reports_sent := ltac:(updater eta_hi hi_reports_sent).
Definition set_hi_last_report := ltac:(updater eta_hi hi_last_report).
Definition set_hi_unavailable_reported := ltac:(updater eta_hi hi_unavailable_reported).
Definition set_hi_clock := ltac:(updater eta_hi hi_clock).
Definition set_hi_out := ltac:(updater eta_hi hi_out).

Definition rnet_host_ice_create (clock : list Z) : RNetHostIce :=
  mkHostIce HiIdle (repeat None RNET_HOST_ICE_MAX_PEERS) sig_hold_empty false false "" false 0 "" "" 0 0 "" false clock [].

(** What the lobby client knows this pump. A player id may be missing. *)
Record RNetHostIcePeer := mkViewPeer { vp_player_id : option string; vp_slot : Z }.
Record RNetHostIceView := mkView {
  hv_active : bool;
  hv_is_host : bool;
  hv_local_slot : Z;
  hv_peers : list RNetHostIcePeer;
  hv_stun_host : option string;
  hv_stun_port : Z;
  hv_bind_address : option string;
  hv_can_signal : bool;
  hv_can_report : bool
}.

Definition os_now (h : RNetHostIce) : Z * RNetHostIce := (hd 0 (hi_clock h), set_hi_clock (tl (hi_clock h)) h).
Definition hi_send (o : HiOut) (h : RNetHostIce) : RNetHostIce := set_hi_out (hi_out h ++ [o]) h.
Definition destroy_all (h : RNetHostIce) : RNetHostIce :=
  set_hi_hold (rnet_sig_hold_clear (hi_hold h)) (set_hi_peer (map (fun _ => None) (hi_peer h)) h).
Definition rnet_host_ice_sig_is_ours (wire_type : Z) : bool :=
  (RNET_LOBBY_SIG_HOSTICE_BASE <? wire_type) && (wire_type <=? RNET_LOBBY_SIG_HOSTICE_BASE + 6).
Definition next_gen (g : Z) : Z := if (255 <? g + 1) || (g + 1 <? 1) then 1 else g + 1.

(** What an agent says goes to its peer, once there is a negotiation. *)
Definition emit_cb (p : HiPeer) (msg : RNetSignal) (h : RNetHostIce) : RNetHostIce :=
  match sig_type msg with
  | SIGNAL_LOCAL_SDP | SIGNAL_LOCAL_CANDIDATE | SIGNAL_GATHERING_DONE =>
      if negb (hi_can_signal h) || (hp_gen p <=? 0) then h else
      hi_send (OutSignal (hp_pid p) (RNET_LOBBY_SIG_HOSTICE_BASE + signal_number (sig_type msg)) (hp_gen p) (sig_text msg)) h
  | _ => h
  end.
Definition emit_all (p : HiPeer) (out : list RNetSignal) (h : RNetHostIce) : RNetHostIce :=
  fold_left (fun h m => emit_cb p m h) out h.

Section Ops.
Context `{Juice} (available build : bool) (agent_ok alloc_ok : RNetHostIce -> bool) (report_ok : list HiOut -> bool) (env : string -> option string).

Definition agent_config (controlling : bool) (h : RNetHostIce) : RNetIceConfig :=
  let d := rnet_ice_config_init_defaults in
  let named := negb (String.eqb (hi_stun_host h) "") in
  mkIceConfig
    (if hi_stun_set h then if named then Some (hi_stun_host h) else None else ic_stun_host d)
    (if hi_stun_set h then if nz (hi_stun_port h) then hi_stun_port h else if named then 3478 else ic_stun_port d else ic_stun_port d)
    None 0 None None
    (if String.eqb (hi_bind_address h) "" then None else Some (hi_bind_address h)) 0 controlling false.

(** A fresh agent for a peer; on failure the peer has none. *)
Definition peer_build_agent (p : HiPeer) (controlling : bool) (h : RNetHostIce) : bool * HiPeer * RNetHostIce :=
  match rnet_ice_agent_create build (agent_ok h) (agent_config controlling h) true with
  | None => (false, set_hp_agent None p, h)
  | Some a =>
      let '(now, h) := os_now h in
      let p := set_hp_retry_at_ms 0 (set_hp_report_due_ms 0 (set_hp_last_report "" (set_hp_ping_due_ms 0
                 (set_hp_rtt_ms (-1) (set_hp_created_ms now p))))) in
      let '(ok, a, out) := rnet_ice_agent_start_gathering a in
      let h := emit_all p out h in
      if (ok : bool) then (true, set_hp_agent (Some a) p, h) else (false, set_hp_agent None p, h)
  end.

(** The agent is given the signal, unless it is linked. *)
Definition deliver (sig : RNetSignal) (p : HiPeer) (h : RNetHostIce) : HiPeer * RNetHostIce :=
  match hp_agent p with
  | None => (p, h)
  | Some a =>
      if ia_frozen a then (p, h) else
      let '(a, out) := rnet_ice_agent_push_signal sig a in
      let p := set_hp_agent (Some a) p in (p, emit_all p out h)
  end.
Definition apply_signal (sig : RNetSignal) (p : HiPeer) (h : RNetHostIce) : HiPeer * RNetHostIce :=
  let gen := sig_flag sig in
  if negb (is_some (hp_agent p)) then (p, h) else
  if bool_decide (hi_role h = HiHost) && bool_decide (sig_type sig = SIGNAL_REMOTE_SDP) then
    if gen =? 0 then (p, h) else
    if gen =? hp_gen p then (p, h) else
    if negb (hp_gen p =? 0) then
      let '(ok, p, h) := peer_build_agent p false h in
      if negb ok then (p, h) else deliver sig (set_hp_gen gen p) h
    else deliver sig (set_hp_gen gen p) h
  else if negb (gen =? hp_gen p) then (p, h) else deliver sig p h.

Definition is_peer (pid : string) (o : option HiPeer) : bool := match o with Some p => String.eqb (hp_pid p) pid | None => false end.
Definition find_peer (h : RNetHostIce) (pid : string) : option (nat * HiPeer) :=
  match index_of (is_peer pid) (hi_peer h) with Some (i, Some p) => Some (i, p) | _ => None end.
Definition put_peer (i : nat) (p : HiPeer) (h : RNetHostIce) : RNetHostIce := set_hi_peer (<[i := Some p]> (hi_peer h)) h.
Definition reject (h : RNetHostIce) : bool * RNetHostIce := (false, set_hi_rejected (u32 (hi_rejected h + 1)) h).

(** LOCAL_* as the peer sees it. *)
Definition as_remote (t : Z) : option RNetSignalType :=
  if t =? 1 then Some SIGNAL_REMOTE_SDP else if t =? 3 then Some SIGNAL_REMOTE_CANDIDATE else if t =? 5 then Some SIGNAL_GATHERING_DONE else None.

(** Kept until the agent for that seat exists. *)
Definition hold_signal (pid : string) (slot : Z) (sig : RNetSignal) (h : RNetHostIce) : bool * RNetHostIce :=
  let '(now, h) := os_now h in
  let '(ok, hold) := rnet_sig_hold_push (alloc_ok h) pid slot sig now (hi_hold h) in (ok, set_hi_hold hold h).

Definition rnet_host_ice_push_signal (from_player_id : string) (from_slot wire_type flag : Z) (text : string) (h : RNetHostIce) : bool * RNetHostIce :=
  if bool_decide (hi_role h = HiIdle) || String.eqb from_player_id "" || (from_slot <? 0) || negb (rnet_host_ice_sig_is_ours wire_type) ||
     (flag <? 0) || (255 <? flag) then reject h else
  match as_remote (wire_type - RNET_LOBBY_SIG_HOSTICE_BASE) with
  | None => reject h
  | Some t =>
      if bool_decide (hi_role h = HiGuest) && negb (String.eqb from_player_id (hi_host_pid h)) then reject h else
      let sig := mkSig t flag 255 (snprintf_s 2048 text) in
      match find_peer h from_player_id with
      | Some (i, p) =>
          if is_some (hp_agent p) && (hp_slot p =? from_slot)
          then let '(p, h) := apply_signal sig p h in (true, put_peer i p h)
          else hold_signal from_player_id from_slot sig h
      | None => hold_signal from_player_id from_slot sig h
      end
  end.

(** The held signals of the peer's seat, in order, then none are held. *)
Definition replay_hold (p : HiPeer) (h : RNetHostIce) : HiPeer * RNetHostIce :=
  let held := match hold_find (hi_hold h) (hp_pid p) with Some (_, b) => bk_e b | None => [] end in
  let '(p, h) := fold_left (fun '(p, h) e => if he_slot e =? hp_slot p then apply_signal (he_sig e) p h else (p, h)) held (p, h) in
  (p, set_hi_hold (rnet_sig_hold_drop (hi_hold h) (hp_pid p)) h).

(** ** Reports *)

Definition send_report (path : string) (ice : option string) (h : RNetHostIce) : bool * RNetHostIce :=
  if negb (hi_can_report h) then (false, h) else
  let ok := report_ok (hi_out h) in
  let h := hi_send (OutReport path ice) h in
  if ok then (true, set_hi_reports_sent (u32 (hi_reports_sent h + 1)) (set_hi_last_report path h)) else (false, h).

(** "direct" while linked, every 45 s. *)
Definition report_direct (a : RNetIceAgent) (now : Z) (p : HiPeer) (h : RNetHostIce) : HiPeer * RNetHostIce :=
  if String.eqb (hp_last_report p) "direct" && (now <? hp_report_due_ms p) then (p, h) else
  let path := default EmptyString (rnet_ice_agent_selected_path a) in
  let ice := if String.eqb path "host" || String.eqb path "srflx" || String.eqb path "prflx" then Some path else None in
  let '(ok, h) := send_report "direct" ice h in
  if (ok : bool) then (set_hp_report_due_ms (u64 (now + HI_REPORT_REFRESH_MS)) (set_hp_last_report "direct" p), h) else (p, h).
(** "fail" once, and a fresh negotiation 20 s later. *)
Definition report_fail (now : Z) (p : HiPeer) (h : RNetHostIce) : HiPeer * RNetHostIce :=
  if hp_retry_at_ms p =? 0 then
    let '(p, h) := if String.eqb (hp_last_report p) "fail" then (p, h) else
                     let '(ok, h) := send_report "fail" None h in
                     (if (ok : bool) then set_hp_last_report "fail" p else p, h) in
    (set_hp_retry_at_ms (u64 (now + HI_FAIL_RETRY_MS)) p, h)
  else if now <? hp_retry_at_ms p then (p, h) else
    let g := next_gen (hp_gen p) in
    let '(ok, p, h) := peer_build_agent p true h in
    (if (ok : bool) then set_hp_gen g p else p, h).
Definition guest_report (now : Z) (p : HiPeer) (h : RNetHostIce) : HiPeer * RNetHostIce :=
  match hp_agent p with
  | None => (p, h)
  | Some a =>
      match ia_state a with
      | ICE_COMPLETED => report_direct a now p h
      | st => if bool_decide (st = ICE_FAILED) || ((hp_created_ms p <=? now) && (HI_CONNECT_TIMEOUT_MS <? now - hp_created_ms p))
              then report_fail now p h else (p, h)
      end
  end.

(** ** Latency over a linked agent *)

Definition HI_RTT_MAGIC : list Z := bytes_of "RNETHP1".
Definition send_over (data : list Z) (p : HiPeer) : HiPeer :=
  match hp_agent p with
  | Some a => set_hp_agent (Some (snd (rnet_ice_agent_send data a))) p
  | None => p
  end.
(** [kind] is the byte of 'P' or 'Q'. *)
Definition hi_rtt_send (kind ts hold : Z) (p : HiPeer) : HiPeer :=
  let buf := HI_RTT_MAGIC ++ [kind] ++ bytes_of (print_dec ts +:+ " " +:+ print_dec hold) in
  if zlen buf <? 48 then send_over buf p else p.

(** The text up to a zero byte. *)
Fixpoint c_string (bs : list Z) : string :=
  match bs with [] => EmptyString | b :: r => if b =? 0 then EmptyString else String (chr b) (c_string r) end.
Definition parse_rtt (buf : list Z) : option (Z * Z * Z) :=
  if (zlen buf <=? 7) || negb (bool_decide (take 7 buf = HI_RTT_MAGIC)) then None else
  let body := c_string (drop 8 buf) in
  let '(ts, rest) := match strtol body with Some (n, rest) => (ulong n, rest) | None => (0, body) end in
  let hold := match rest with
              | String c r => if ch c =? 32 then match strtol r with Some (n, _) => ulong n | None => 0 end else 0
              | EmptyString => 0
              end in
  Some (nth 7 buf 0, ts, hold).
Definition smooth_rtt (old ms : Z) : Z := if old <? 0 then ms else (old * 3 + ms + 2) / 4.
Definition on_rtt (now arrival : Z) (buf : list Z) (p : HiPeer) : HiPeer :=
  match parse_rtt buf with
  | None => p
  | Some (kind, ts, hold) =>
      if kind =? 80 then hi_rtt_send 81 ts (if arrival <=? now then u32 (now - arrival) else 0) p
      else if (kind =? 81) && (ts <=? arrival) && (arrival - ts <? 60000) then
        set_hp_rtt_ms (smooth_rtt (hp_rtt_ms p) (Z.max 0 (arrival - ts - hold))) p
      else p
  end.
(** Everything that waits; the ring's count is enough fuel. *)
Fixpoint drain_rtt (fuel : nat) (now : Z) (p : HiPeer) : HiPeer :=
  match fuel, hp_agent p with
  | S fuel, Some a =>
      let '(o, a) := rnet_ice_agent_recv_at 63 a in
      let p := set_hp_agent (Some a) p in
      match o with
      | Some ((_ :: _) as buf, arrival) => drain_rtt fuel now (on_rtt now arrival buf p)
      | _ => p
      end
  | _, _ => p
  end.
Definition hi_rtt_pump (now : Z) (p : HiPeer) (h : RNetHostIce) : HiPeer * RNetHostIce :=
  let p := drain_rtt (from_option (fun a => S (ia_recv_count a)) 0%nat (hp_agent p)) now p in
  if now <? hp_ping_due_ms p then (p, h) else
  let '(t, h) := os_now h in
  (set_hp_ping_due_ms (u64 (now + HI_RTT_PING_MS)) (hi_rtt_send 80 t 0 p), h).

(** ** Reconciliation with the lobby's view *)

(** The view's entry for a player. *)
Definition view_entry (v : RNetHostIceView) (pid : string) : option RNetHostIcePeer :=
  snd <$> index_of (fun w => match vp_player_id w with Some id => (0 <=? vp_slot w) && String.eqb id pid | None => false end) (hv_peers v).
(** A peer that is still there follows its seat; one that left is gone. *)
Definition keep_peer (v : RNetHostIceView) (i : nat) (h : RNetHostIce) : RNetHostIce :=
  match mjoin (hi_peer h !! i) with
  | None => h
  | Some p =>
      match view_entry v (hp_pid p) with
      | None => set_hi_peer (<[i := None]> (hi_peer h)) h
      | Some w =>
          if (hp_slot p =? vp_slot w) && (hp_local_slot p =? hv_local_slot v) then h else
          let '(p, h) := replay_hold (set_hp_local_slot (hv_local_slot v) (set_hp_slot (vp_slot w) p)) h in
          put_peer i (set_hp_report_due_ms 0 p) h
      end
  end.
Definition new_peer (v : RNetHostIceView) (pid : string) (slot : Z) (h : RNetHostIce) : HiPeer :=
  mkPeer (snprintf_s RNET_HOST_ICE_ID_LEN pid) slot (hv_local_slot v) None (if bool_decide (hi_role h = HiGuest) then next_gen 0 else 0)
    0 "" 0 0 0 0.
Definition add_peer (v : RNetHostIceView) (w : RNetHostIcePeer) (h : RNetHostIce) : RNetHostIce :=
  match vp_player_id w with
  | None | Some EmptyString => h
  | Some pid =>
      if (vp_slot w <? 0) || is_some (find_peer h pid) then h else
      if negb available then
        if bool_decide (hi_role h = HiGuest) && negb (hi_unavailable_reported h) then
          let '(ok, h) := send_report "fail" None h in if (ok : bool) then set_hi_unavailable_reported true h else h
        else h
      else
      match index_of (fun o => negb (is_some o)) (hi_peer h) with
      | None => h
      | Some (i, _) =>
          let '(ok, p, h) := peer_build_agent (new_peer v pid (vp_slot w) h) (bool_decide (hi_role h = HiGuest)) h in
          if negb ok then h else let '(p, h) := replay_hold p h in put_peer i p h
      end
  end.
Definition drive_peer (now : Z) (i : nat) (h : RNetHostIce) : RNetHostIce :=
  match mjoin (hi_peer h !! i) with
  | None => h
  | Some p =>
      match hp_agent p with
      | None => h
      | Some a =>
          let '(a, out) := rnet_ice_agent_poll a in
          let h := emit_all p out h in
          let p := set_hp_agent (Some a) p in
          let '(p, h) := if bool_decide (ia_state a = ICE_COMPLETED)
                         then hi_rtt_pump now (set_hp_agent (Some (rnet_ice_agent_freeze a)) p) h else (p, h) in
          let '(p, h) := if bool_decide (hi_role h = HiGuest) then guest_report now p h else (p, h) in
          put_peer i p h
      end
  end.

(** The view's settings, with the environment's test aids. *)
Definition take_settings (v : RNetHostIceView) (h : RNetHostIce) : RNetHostIce :=
  let bind := snprintf_s 64 (default EmptyString (hv_bind_address v)) in
  let bind := match env "RNET_HOST_ICE_BIND" with
              | Some (String _ _ as e) => if String.eqb bind "" then snprintf_s 64 e else bind
              | _ => bind
              end in
  let no_stun := match env "RNET_HOST_ICE_NO_STUN" with Some (String c _) => ch c =? 49 | _ => false end in
  let h := set_hi_can_report (hv_can_report v) (set_hi_can_signal (hv_can_signal v) h) in
  let h := set_hi_stun_port (hv_stun_port v) (set_hi_stun_set (is_some (hv_stun_host v) || no_stun)
             (set_hi_stun_host (if no_stun then EmptyString else snprintf_s 128 (default EmptyString (hv_stun_host v))) h)) in
  set_hi_host_pid (match hi_role h, hv_peers v with
                   | HiGuest, mkViewPeer (Some id) _ :: _ => snprintf_s RNET_HOST_ICE_ID_LEN id
                   | _, _ => EmptyString
                   end) (set_hi_bind_address bind h).
Definition take_role (v : RNetHostIceView) (h : RNetHostIce) : RNetHostIce :=
  let role := if hv_is_host v then HiHost else HiGuest in
  if bool_decide (role = hi_role h) then h
  else set_hi_unavailable_reported false (set_hi_last_report "" (set_hi_role role (destroy_all h))).

Definition rnet_host_ice_update (v : RNetHostIceView) (h : RNetHostIce) : RNetHostIce :=
  if negb (hv_active v) then set_hi_role HiIdle (destroy_all h) else
  let '(now, h) := os_now h in
  let h := take_settings v (take_role v h) in
  let h := fold_left (fun h i => keep_peer v i h) (seq 0 RNET_HOST_ICE_MAX_PEERS) h in
  let h := fold_left (fun h w => add_peer v w h) (take RNET_HOST_ICE_MAX_PEERS (hv_peers v)) h in
  let h := fold_left (fun h i => drive_peer now i h) (seq 0 RNET_HOST_ICE_MAX_PEERS) h in
  set_hi_hold (rnet_sig_hold_expire now HI_HOLD_MAX_AGE_MS (hi_hold h)) h.

(** ** Handing over *)

Definition rnet_host_ice_take_completed (player_id : string) (h : RNetHostIce) : option RNetIceAgent * RNetHostIce :=
  match find_peer h player_id with
  | Some (i, p) =>
      match hp_agent p with
      | Some a =>
          if bool_decide (ia_state a = ICE_COMPLETED)
          then (Some (rnet_ice_agent_freeze (rnet_ice_agent_set_emit false a)), set_hi_peer (<[i := None]> (hi_peer h)) h)
          else (None, h)
      | None => (None, h)
      end
  | None => (None, h)
  end.
Definition rnet_host_ice_peer_completed (player_id : string) (h : RNetHostIce) : bool :=
  match index_of (fun o => match o with Some p => is_some (hp_agent p) && String.eqb (hp_pid p) player_id | None => false end) (hi_peer h) with
  | Some (_, Some p) => from_option (fun a => bool_decide (ia_state a = ICE_COMPLETED)) false (hp_agent p)
  | _ => false
  end.
Definition rnet_host_ice_peer_rtt_ms (slot : Z) (h : RNetHostIce) : Z :=
  match index_of (fun o => match o with Some p => is_some (hp_agent p) && (hp_slot p =? slot) | None => false end) (hi_peer h) with
  | Some (_, Some p) => hp_rtt_ms p
  | _ => -1
  end.
End Ops.
