(* ===== verification/HostIceProofs.v ===== *)
(** * The waiting room: properties

    A player's signals touch that player's agent and held signals only; a
    guest listens to the host alone. Two findings: a retried negotiation is
    stamped with the old id and ignored, and a peer whose agent could not be
    rebuilt is never given one again. *)

From stdpp Require Import base list numbers list_numbers strings gmap.
From S2P Require Import Prelude CStrings Slots IceAgent IceProofs SigHold HostIce.

Section Frames.
Context `{Juice} (available build : bool) (agent_ok alloc_ok : RNetHostIce -> bool) (report_ok : list HiOut -> bool) (env : string -> option string).

(** What the agents' work leaves alone: everything but the clock, the
    reports' bookkeeping and the output, which grows. *)
Definition frame (h h' : RNetHostIce) : Prop :=
  hi_role h' = hi_role h /\ hi_peer h' = hi_peer h /\ hi_hold h' = hi_hold h /\ hi_can_signal h' = hi_can_signal h /\
  hi_host_pid h' = hi_host_pid h.
#[local] Instance frame_preorder : PreOrder frame.
Proof.
  split; [by intros h|]. intros a b c (A1 & A2 & A3 & A4 & A5) (B1 & B2 & B3 & B4 & B5). unfold frame.
  by rewrite B1, B2, B3, B4, B5.
Qed.

Lemma emit_frame p m h : frame h (emit_cb p m h).
Proof. unfold emit_cb. destruct (sig_type m); try done; by destruct (_ || _). Qed.
Lemma emit_all_frame p out h : frame h (emit_all p out h).
Proof.
  revert h. unfold emit_all. induction out as [|m out IH]; intros h; [done|]. cbn. etransitivity; [apply (emit_frame p m)|apply IH].
Qed.
Lemma build_frame p c h : let '(ok, p', h') := peer_build_agent build agent_ok p c h in
  frame h h' /\ hp_pid p' = hp_pid p /\ hp_slot p' = hp_slot p /\ hp_gen p' = hp_gen p /\ hp_local_slot p' = hp_local_slot p.
Proof.
  unfold peer_build_agent. destruct (rnet_ice_agent_create _ _ _ _) as [a|]; [|done]. cbn [os_now].
  destruct (rnet_ice_agent_start_gathering a) as [[ok a'] out].
  assert (forall p h, frame h (emit_all p out (set_hi_clock (tl (hi_clock h)) h))) as Hf.
  { intros. etransitivity; [|apply emit_all_frame]. done. }
  destruct ok; split; try apply Hf; done.
Qed.
Lemma deliver_frame sig p h : let '(p', h') := deliver sig p h in frame h h' /\ hp_pid p' = hp_pid p /\ hp_slot p' = hp_slot p.
Proof.
  unfold deliver. destruct (hp_agent p) as [a|]; [|done]. destruct (ia_frozen a); [done|].
  destruct (rnet_ice_agent_push_signal sig a) as [a' out]. split; [apply emit_all_frame|done].
Qed.
Lemma apply_frame sig p h : let '(p', h') := apply_signal build agent_ok sig p h in
  frame h h' /\ hp_pid p' = hp_pid p /\ hp_slot p' = hp_slot p.
Proof.
  unfold apply_signal. destruct (negb (is_some _)); [done|].
  assert (forall p0 h0, frame h h0 -> hp_pid p0 = hp_pid p -> hp_slot p0 = hp_slot p ->
    let '(p', h') := deliver sig p0 h0 in frame h h' /\ hp_pid p' = hp_pid p /\ hp_slot p' = hp_slot p) as Hd.
  { intros p0 h0 F0 E1 E2. pose proof (deliver_frame sig p0 h0) as F. destruct (deliver sig p0 h0) as [p' h'].
    destruct F as (F & -> & ->). split; [by etransitivity|done]. }
  destruct (_ && _); [|destruct (negb _); [done|by apply Hd]]. destruct (_ =? 0); [done|]. destruct (_ =? hp_gen p); [done|].
  destruct (negb (hp_gen p =? 0)); [|by apply Hd].
  pose proof (build_frame p false h) as Fb. destruct (peer_build_agent build agent_ok p false h) as [[ok p1] h1].
  destruct Fb as (F1 & E1 & E2 & _). destruct ok; cbn [negb]; [by apply Hd|done].
Qed.

Lemma find_peer_spec h pid : match find_peer h pid with
  | Some (i, p) => hi_peer h !! i = Some (Some p) /\ hp_pid p = pid
  | None => True
  end.
Proof.
  unfold find_peer. pose proof (index_of_spec (is_peer pid) (hi_peer h)) as Hs.
  destruct (index_of _ _) as [[i [p|]]|]; try done. destruct Hs as [Hi Hp]. split; [done|]. by apply String.eqb_eq.
Qed.

(** Holding a signal touches the sender's bucket only. *)
Lemma push_other pid slot sig now b (hd : RNetSigHold RNetSignal) q : hold_ok hd -> pid <> EmptyString -> q <> pid ->
  (String.length pid < RNET_SIG_HOLD_ID_LEN)%nat ->
  hold_map (snd (rnet_sig_hold_push b pid slot sig now hd)) !! q = hold_map hd !! q.
Proof.
  intros Hok Hp Hq Hl. pose proof (push_refines b pid slot sig now hd Hok Hl) as Hr.
  destruct (rnet_sig_hold_push b pid slot sig now hd) as [ok h']. destruct Hr as [_ Hr]. unfold map_push in Hr. cbn [snd].
  destruct (String.eqb_spec pid ""); [done|]. destruct (hold_map hd !! pid) as [[es born]|].
  - destruct (_ <=? _)%nat; destruct Hr as [_ ->]; [done|]. by rewrite lookup_insert_ne.
  - destruct (_ || _); destruct Hr as [_ ->]; [done|]. by rewrite lookup_insert_ne.
Qed.

Lemma hold_signal_other pid slot sig h : hold_ok (hi_hold h) -> pid <> EmptyString -> (String.length pid < RNET_SIG_HOLD_ID_LEN)%nat ->
  let '(ok, h') := hold_signal alloc_ok pid slot sig h in
  hi_peer h' = hi_peer h /\ forall q, q <> pid -> hold_map (hi_hold h') !! q = hold_map (hi_hold h) !! q.
Proof.
  intros Hok Hp Hl. unfold hold_signal. cbn [os_now]. set (b := alloc_ok _). set (now := hd 0 (hi_clock h)).
  pose proof (fun q Hq => push_other pid slot sig now b (hi_hold h) q Hok Hp Hq Hl) as Ho. cbn [hi_hold set_hi_clock].
  destruct (rnet_sig_hold_push b pid slot sig now (hi_hold h)) as [ok hold]. by split.
Qed.

(** A player's signal reaches that player's agent or held signals and
    nothing else: every peer with another id keeps its agent and everyone
    else's held signals stay; and a guest that hears from anyone but the host
    refuses it without touching agents or held signals. *)
Theorem signal_isolation pid slot wt flag text h : hold_ok (hi_hold h) -> pid <> EmptyString ->
  (String.length pid < RNET_SIG_HOLD_ID_LEN)%nat ->
  let '(ok, h') := rnet_host_ice_push_signal build agent_ok alloc_ok pid slot wt flag text h in
  (forall i p, hi_peer h !! i = Some (Some p) -> hp_pid p <> pid -> hi_peer h' !! i = Some (Some p)) /\
  (forall q, q <> pid -> hold_map (hi_hold h') !! q = hold_map (hi_hold h) !! q) /\
  (hi_role h = HiGuest -> pid <> hi_host_pid h -> ok = false /\ hi_peer h' = hi_peer h /\ hi_hold h' = hi_hold h).
Proof.
  intros Hok Hp Hl. unfold rnet_host_ice_push_signal. destruct (_ || _ || _ || _ || _ || _); [done|].
  destruct (as_remote _) as [t|]; [|done]. set (sig := mkSig t flag 255 (snprintf_s 2048 text)).
  destruct (bool_decide (hi_role h = HiGuest) && negb (String.eqb pid (hi_host_pid h))) eqn:Eg; [done|].
  assert (hi_role h = HiGuest -> pid <> hi_host_pid h -> False) as Hno.
  { intros Hg Hne. rewrite bool_decide_true in Eg by done. destruct (String.eqb_spec pid (hi_host_pid h)); done. }
  pose proof (hold_signal_other pid slot sig h Hok Hp Hl) as Hh. pose proof (find_peer_spec h pid) as Hf.
  destruct (find_peer h pid) as [[i p]|].
  - destruct (is_some (hp_agent p) && (hp_slot p =? slot)).
    + pose proof (apply_frame sig p h) as Ha. destruct (apply_signal build agent_ok sig p h) as [p' h'].
      destruct Ha as ((_ & F1 & F2 & _) & _). destruct Hf as [Hi Hpid]. cbn. split_and!; [|intros q _; by rewrite F2|naive_solver].
      intros j q Hj Hq. rewrite F1, list_lookup_insert_ne; [done|]. intros ->. congruence.
    + destruct (hold_signal alloc_ok pid slot sig h) as [ok h']. destruct Hh as [H1 H2]. split_and!; [by rewrite H1|done|naive_solver].
  - destruct (hold_signal alloc_ok pid slot sig h) as [ok h']. destruct Hh as [H1 H2]. split_and!; [by rewrite H1|done|naive_solver].
Qed.

(** ** A retried negotiation *)

(** The messages added to the output. *)
Definition sent_since (h h' : RNetHostIce) (P : HiOut -> Prop) : Prop := exists new, hi_out h' = hi_out h ++ new /\ Forall P new.
Definition stamped (p : HiPeer) (o : HiOut) : Prop := exists type text, o = OutSignal (hp_pid p) type (hp_gen p) text.
Lemma emit_all_stamped p out h : sent_since h (emit_all p out h) (stamped p).
Proof.
  revert h. unfold emit_all. induction out as [|m out IH]; intros h; cbn; [exists []; by rewrite app_nil_r|].
  destruct (IH (emit_cb p m h)) as (new & E & Hn).
  assert (sent_since h (emit_cb p m h) (stamped p)) as (new1 & E1 & Hn1).
  { unfold emit_cb, sent_since. destruct (sig_type m); try (exists []; by rewrite app_nil_r);
      (destruct (_ || _); [exists []; by rewrite app_nil_r|]); (eexists [_]; split; [done|]; constructor; [by eexists _, _|done]). }
  exists (new1 ++ new). rewrite E, E1, app_assoc. split; [done|]. by apply Forall_app.
Qed.
Lemma next_gen_moves g : 1 <= g <= 255 -> next_gen g <> g /\ 1 <= next_gen g <= 255.
Proof. intros Hg. unfold next_gen. destruct (_ || _) eqn:E; lia. Qed.

(** C12. A guest's retry cannot link. The fresh offer leaves while the peer
    still carries the old negotiation id, and only then the id moves on: a
    host that answered the previous offer takes the new one for a repeat and
    ignores it, and drops the candidates that follow under the new id. *)
Theorem retry_cannot_link now p h : 1 <= hp_gen p <= 255 -> hp_retry_at_ms p <> 0 -> hp_retry_at_ms p <= now ->
  let '(p', h') := report_fail build agent_ok report_ok now p h in
  hp_agent p' <> None ->
  sent_since h h' (stamped p) /\ hp_gen p' = next_gen (hp_gen p) /\
  forall q hh text, hi_role hh = HiHost -> hp_gen q = hp_gen p ->
    apply_signal build agent_ok (mkSig SIGNAL_REMOTE_SDP (hp_gen p) 255 text) q hh = (q, hh) /\
    apply_signal build agent_ok (mkSig SIGNAL_REMOTE_CANDIDATE (hp_gen p') 255 text) q hh = (q, hh).
Proof.
  intros Hg Hz Hn. unfold report_fail. destruct (Z.eqb_spec (hp_retry_at_ms p) 0); [done|]. destruct (Z.ltb_spec now (hp_retry_at_ms p)); [lia|].
  assert (let '(ok, p', h') := peer_build_agent build agent_ok p true h in
    hp_agent p' <> None -> ok = true /\ sent_since h h' (stamped p)) as Hb.
  { unfold peer_build_agent. destruct (rnet_ice_agent_create _ _ _ _) as [a|]; [|done]. cbn [os_now].
    destruct (rnet_ice_agent_start_gathering a) as [[ok a'] out]. set (p1 := set_hp_retry_at_ms 0 _).
    pose proof (emit_all_stamped p1 out (set_hi_clock (tl (hi_clock h)) h)) as Hs. destruct ok; [|done]. intros _. split; [done|]. exact Hs. }
  destruct (peer_build_agent build agent_ok p true h) as [[ok p1] h1]. intros Ha. destruct Hb as [-> Hs]; [by destruct ok|].
  split; [done|]. split; [done|]. intros q hh text Hr Hq. unfold apply_signal. destruct (is_some (hp_agent q)); [|done]. cbn [negb].
  rewrite Hr. cbn [sig_type sig_flag]. rewrite Hq, Z.eqb_refl. split; [by destruct (hp_gen p =? 0)|].
  destruct (next_gen_moves _ Hg) as [Hne _]. cbn [hp_gen set_hp_gen]. destruct (Z.eqb_spec (next_gen (hp_gen p)) (hp_gen p)); done.
Qed.

(** ** A peer without an agent *)

Definition stranded (pid : string) (i : nat) (h : RNetHostIce) : Prop :=
  exists p, hi_peer h !! i = Some (Some p) /\ hp_pid p = pid /\ hp_agent p = None.
Lemma stranded_put pid i j p h h' : stranded pid i h -> hi_peer h' = hi_peer h -> j <> i -> stranded pid i (put_peer j p h').
Proof. intros (q & Hq & Hr) Hp Hj. exists q. cbn. by rewrite Hp, list_lookup_insert_ne. Qed.
Lemma stranded_frame pid i h h' : stranded pid i h -> frame h h' -> stranded pid i h'.
Proof. intros (q & Hq & Hr) (_ & Hp & _). exists q. by rewrite Hp. Qed.

Lemma replay_frame p h : let '(p', h') := replay_hold build agent_ok p h in
  hi_peer h' = hi_peer h /\ hp_pid p' = hp_pid p /\ (hp_agent p = None -> hp_agent p' = None) /\ hi_role h' = hi_role h.
Proof.
  unfold replay_hold. generalize (match hold_find (hi_hold h) (hp_pid p) with Some (_, b) => bk_e b | None => [] end) as held. intros held.
  assert (let '(p', h') := fold_left (fun '(p, h) e => if he_slot e =? hp_slot p then apply_signal build agent_ok (he_sig e) p h else (p, h)) held (p, h) in
    hi_peer h' = hi_peer h /\ hp_pid p' = hp_pid p /\ (hp_agent p = None -> hp_agent p' = None) /\ hi_role h' = hi_role h) as Hf.
  { revert p h. induction held as [|e held IH]; intros p h; [done|]. cbn [fold_left]. destruct (he_slot e =? hp_slot p); [|apply IH].
    pose proof (apply_frame (he_sig e) p h) as Ha. assert (hp_agent p = None -> apply_signal build agent_ok (he_sig e) p h = (p, h)) as Hn.
    { intros E. unfold apply_signal. by rewrite E. }
    destruct (apply_signal build agent_ok (he_sig e) p h) as [p1 h1]. destruct Ha as ((R1 & P1 & _) & E1 & _). specialize (IH p1 h1).
    destruct (fold_left _ held (p1, h1)) as [p2 h2]. destruct IH as (-> & -> & I & ->). split_and!; try done. intros E.
    apply I. specialize (Hn E). by injection Hn as -> _. }
  destruct (fold_left _ held (p, h)) as [p1 h1]. done.
Qed.

Lemma report_frame path ice h : frame h (snd (send_report report_ok path ice h)).
Proof. unfold send_report. destruct (negb _); [done|]. by destruct (report_ok _). Qed.
Lemma guest_report_frame now p h : frame h (snd (guest_report build agent_ok report_ok now p h)).
Proof.
  unfold guest_report. destruct (hp_agent p) as [a|]; [|done].
  assert (frame h (snd (report_fail build agent_ok report_ok now p h))) as Hfail.
  { unfold report_fail. destruct (_ =? 0).
    - pose proof (report_frame "fail" None h) as Hr. destruct (String.eqb _ _); [done|].
      destruct (send_report report_ok "fail" None h) as [ok h1]. by destruct ok.
    - destruct (_ <? _); [done|]. pose proof (build_frame p true h) as Hb. destruct (peer_build_agent build agent_ok p true h) as [[ok p1] h1].
      destruct Hb as [Hb _]. by destruct ok. }
  assert (frame h (snd (report_direct report_ok a now p h))) as Hdir.
  { unfold report_direct. destruct (_ && _); [done|]. cbv zeta.
    match goal with |- context [send_report report_ok "direct" ?ice h] =>
      pose proof (report_frame "direct" ice h) as Hr; destruct (send_report report_ok "direct" ice h) as [ok h1] end. by destruct ok. }
  destruct (ia_state a); try done; by destruct (_ || _).
Qed.

Lemma keep_stranded v i pid j h : stranded pid i h -> is_Some (view_entry v pid) -> stranded pid i (keep_peer build agent_ok v j h).
Proof.
  intros Hs Hv. pose proof Hs as (q & Hq & Hp & Ha). unfold keep_peer. destruct (decide (j = i)) as [->|Hne].
  - rewrite Hq. cbn [mjoin option_join]. rewrite Hp. destruct Hv as [w ->]. destruct (_ && _); [done|].
    pose proof (replay_frame (set_hp_local_slot (hv_local_slot v) (set_hp_slot (vp_slot w) q)) h) as Hr.
    destruct (replay_hold build agent_ok _ h) as [p1 h1]. destruct Hr as (P1 & P2 & P3 & _).
    exists (set_hp_report_due_ms 0 p1). cbn. rewrite P1, list_lookup_insert_eq by (by eapply lookup_lt_Some). split; [done|].
    split; [by rewrite P2|by apply P3].
  - destruct (mjoin (hi_peer h !! j)) as [p|]; [|done]. destruct (view_entry v (hp_pid p)) as [w|].
    + destruct (_ && _); [done|]. pose proof (replay_frame (set_hp_local_slot (hv_local_slot v) (set_hp_slot (vp_slot w) p)) h) as Hr.
      destruct (replay_hold build agent_ok _ h) as [p1 h1]. by eapply stranded_put; [exact Hs|apply Hr|].
    + exists q. cbn. by rewrite list_lookup_insert_ne.
Qed.
Lemma add_stranded v i pid w h : stranded pid i h -> stranded pid i (add_peer available build agent_ok report_ok v w h).
Proof.
  intros Hs. unfold add_peer. destruct (vp_player_id w) as [[|c s]|]; try done. destruct (_ || _); [done|]. destruct available; cbn [negb].
  - pose proof (index_of_spec (fun o : option HiPeer => negb (is_some o)) (hi_peer h)) as Hi. destruct (index_of _ _) as [[j o]|]; [|done].
    destruct Hi as [Hj Ho]. pose proof (build_frame (new_peer v (String c s) (vp_slot w) h) (bool_decide (hi_role h = HiGuest)) h) as Hb.
    destruct (peer_build_agent build agent_ok _ _ h) as [[ok p1] h1]. destruct Hb as [Fb _]. destruct ok; cbn [negb]; [|by eapply stranded_frame].
    pose proof (replay_frame p1 h1) as Hr. destruct (replay_hold build agent_ok p1 h1) as [p2 h2]. destruct Hr as (P1 & _).
    eapply stranded_put; [exact Hs|by rewrite P1, (proj1 (proj2 Fb))|]. intros ->. destruct Hs as (q & Hq & _). rewrite Hq in Hj.
    injection Hj as <-. done.
  - destruct (_ && _); [|done]. pose proof (report_frame "fail" None h) as Hr. destruct (send_report report_ok "fail" None h) as [ok h1].
    assert (stranded pid i h1) as H1 by (by eapply stranded_frame). destruct ok; done.
Qed.
Lemma drive_stranded now i pid j h : stranded pid i h -> stranded pid i (drive_peer build agent_ok report_ok now j h).
Proof.
  intros Hs. pose proof Hs as (q & Hq & Hp & Ha). unfold drive_peer. destruct (decide (j = i)) as [->|Hne].
  - rewrite Hq. cbn [mjoin option_join]. by rewrite Ha.
  - destruct (mjoin (hi_peer h !! j)) as [p|]; [|done]. destruct (hp_agent p) as [a|]; [|done].
    destruct (rnet_ice_agent_poll a) as [a1 out]. pose proof (emit_all_frame p out h) as Fe.
    set (x := if bool_decide (ia_state a1 = ICE_COMPLETED) then _ else _).
    assert (frame h (snd x)) as Fx.
    { unfold x. destruct (bool_decide (ia_state a1 = ICE_COMPLETED)); [|done]. unfold hi_rtt_pump. destruct (_ <? _); [done|]. cbn [os_now snd].
      etransitivity; [exact Fe|done]. }
    destruct x as [p1 h1]. cbn [snd] in Fx. set (y := if bool_decide (hi_role h1 = HiGuest) then _ else _).
    assert (frame h (snd y)) as Fy.
    { unfold y. destruct (bool_decide (hi_role h1 = HiGuest)); [|done]. etransitivity; [exact Fx|apply guest_report_frame]. }
    destruct y as [p2 h2]. eapply stranded_put; [exact Hs|exact (proj1 (proj2 Fy))|done].
Qed.

(** A peer whose agent could not be rebuilt never gets one again: while
    the lobby lists the player, an update leaves the peer without an agent,
    whatever its seat and whatever else the update does. *)
Theorem failed_rebuild_is_final v h pid i : hv_active v = true -> hi_role h = (if hv_is_host v then HiHost else HiGuest) ->
  is_Some (view_entry v pid) -> stranded pid i h ->
  stranded pid i (rnet_host_ice_update available build agent_ok report_ok env v h).
Proof.
  intros Hv Hr He Hs. unfold rnet_host_ice_update. rewrite Hv. cbn [negb os_now].
  set (h0 := set_hi_clock (tl (hi_clock h)) h). assert (stranded pid i h0) as H0 by done.
  assert (take_role v h0 = h0) as -> by (unfold take_role; by rewrite bool_decide_true).
  assert (stranded pid i (take_settings env v h0)) as H1 by done. revert H1. generalize (take_settings env v h0) as h1. intros h1 H1.
  assert (forall {A} (f : RNetHostIce -> A -> RNetHostIce) l g, (forall g x, stranded pid i g -> stranded pid i (f g x)) ->
    stranded pid i g -> stranded pid i (fold_left f l g)) as Hfold.
  { intros A f l. induction l as [|x l IH]; intros g Hf Hg; [done|]. cbn. apply IH; [done|]. by apply Hf. }
  match goal with |- stranded _ _ (set_hi_hold _ ?g) => change (stranded pid i g) end.
  apply Hfold; [intros; by apply drive_stranded|]. apply Hfold; [intros; by apply add_stranded|].
  apply Hfold; [intros; by apply keep_stranded|done].
Qed.
End Frames.

(** ** Concrete inputs *)

#[local] Instance room_juice : Juice :=
  {| juice_ok _ _ := true; juice_local _ := Some "v=0"%string; juice_selected _ := None; juice_sdp_cap := 4096%nat |}.
Abbreviation yes := (fun _ : RNetHostIce => true).
Abbreviation accepted := (fun _ : list HiOut => true).
Abbreviation unset := (fun _ : string => @None string).
Definition host_view : RNetHostIceView := mkView true true 0 [mkViewPeer (Some "ann"%string) 1; mkViewPeer (Some "bob"%string) 2] None 0 None true true.
Definition guest_view : RNetHostIceView := mkView true false 1 [mkViewPeer (Some "host"%string) 0] None 0 None true true.
Definition room_of (v : RNetHostIceView) : RNetHostIce :=
  rnet_host_ice_update true false yes accepted unset v (rnet_host_ice_create [1000; 1001; 1002; 1003; 1004]).

Lemma signal_isolation_witness :
  let '(ok, h') := rnet_host_ice_push_signal false yes yes "ann" 1 131 1 "v=0" (room_of host_view) in
  ok = true /\ forall p, hi_peer (room_of host_view) !! 1%nat = Some (Some p) -> hp_pid p <> "ann"%string -> hi_peer h' !! 1%nat = Some (Some p).
Proof.
  pose proof (signal_isolation false yes yes "ann" 1 131 1 "v=0" (room_of host_view)
    ltac:(split; vm_compute; [reflexivity|constructor|constructor]) ltac:(discriminate) ltac:(vm_compute; lia)) as Hi.
  assert (fst (rnet_host_ice_push_signal false yes yes "ann" 1 131 1 "v=0" (room_of host_view)) = true) as Hok by (vm_compute; reflexivity).
  destruct (rnet_host_ice_push_signal false yes yes "ann" 1 131 1 "v=0" (room_of host_view)) as [ok h'].
  split; [exact Hok|]. intros p. apply (proj1 Hi 1%nat).
Defined.

(** A guest whose first negotiation timed out: the retry's offer carries id 1,
    the peer id 2. *)
Definition waiting_peer : HiPeer := mkPeer "host" 0 1 None 1 1000 "fail" 0 30000 (-1) 0.
Lemma retry_cannot_link_witness :
  let '(p', h') := report_fail false yes accepted 40000 waiting_peer (room_of guest_view) in
  hp_gen p' = 2 /\ sent_since (room_of guest_view) h' (stamped waiting_peer) /\
  last (hi_out h') = Some (OutSignal "host" 131 1 "v=0").
Proof.
  pose proof (retry_cannot_link false yes accepted 40000 waiting_peer (room_of guest_view) ltac:(cbn; lia) ltac:(cbn; lia) ltac:(cbn; lia)) as Hr.
  assert (let '(p', h') := report_fail false yes accepted 40000 waiting_peer (room_of guest_view) in
    hp_agent p' <> None /\ hp_gen p' = 2 /\ last (hi_out h') = Some (OutSignal "host" 131 1 "v=0")) as Hc
    by (vm_compute; split; [discriminate|split; reflexivity]).
  destruct (report_fail false yes accepted 40000 waiting_peer (room_of guest_view)) as [p' h']. destruct Hc as (C1 & C2 & C3).
  destruct (Hr C1) as (R1 & _). split; [exact C2|]. split; [exact R1|exact C3].
Defined.

(** The guest's agent could not be rebuilt. *)
Definition stranded_room : RNetHostIce := set_hi_peer [Some waiting_peer; None; None; None; None; None; None; None] (room_of guest_view).
Lemma failed_rebuild_is_final_witness : stranded "host" 0 (rnet_host_ice_update true false yes accepted unset guest_view stranded_room).
Proof.
  apply failed_rebuild_is_final; [reflexivity|vm_compute; reflexivity|eexists; vm_compute; reflexivity|].
  exists waiting_peer. split; [reflexivity|]. split; reflexivity.
Defined.

(** A linked agent on the host is rebuilt by an offer under a new id, although
    it is frozen. *)
Definition linked_room : RNetHostIce :=
  let h := snd (rnet_host_ice_push_signal false yes yes "ann" 1 131 1 "v=0" (room_of host_view)) in
  match mjoin (hi_peer h !! 0%nat) with
  | Some p => put_peer 0 (set_hp_agent ((fun a => rnet_ice_agent_freeze (on_state_changed JUICE_COMPLETED a)) <$> hp_agent p) p) h
  | None => h
  end.
Example linked_agent_rebuilt :
  rnet_host_ice_peer_completed "ann" linked_room = true /\
  rnet_host_ice_peer_completed "ann" (snd (rnet_host_ice_push_signal false yes yes "ann" 1 131 2 "v=0" linked_room)) = false.
Proof. split; vm_compute; reflexivity. Qed.
