(* ===== verification/Stun.v ===== *)
(** * STUN discovery ([src/platform/rnet_stun.c])

    The binding request, the parser of the response, and the discovery loop
    over a script of what the system answers: the readings of the clock, and
    for each wait the datagram or the error it ends with. *)

From stdpp Require Import base list numbers list_numbers strings.
From S2P Require Import Prelude CStrings Digest Json HostRelayText Transport.

Definition RNET_STUN_HEADER_SIZE : Z := 20.
Definition RNET_STUN_MAGIC_COOKIE : Z := 554869826.
Definition RNET_STUN_BINDING_REQUEST : Z := 1.
Definition RNET_STUN_BINDING_SUCCESS : Z := 257.
Definition RNET_STUN_ATTR_MAPPED_ADDRESS : Z := 1.
Definition RNET_STUN_ATTR_XOR_MAPPED_ADDRESS : Z := 32.
Definition RNET_STUN_INITIAL_RTO_MS : Z := 250.

Definition read_be16 (data : list Z) (at_ : Z) : Z :=
  u16 (Z.lor (Z.shiftl (rd 0 data at_) 8) (rd 0 data (at_ + 1))).
Definition read_be32 (data : list Z) (at_ : Z) : Z :=
  Z.lor (Z.lor (Z.lor (Z.shiftl (rd 0 data at_) 24) (Z.shiftl (rd 0 data (at_ + 1)) 16))
    (Z.shiftl (rd 0 data (at_ + 2)) 8)) (rd 0 data (at_ + 3)).
Definition write_be16 (value : Z) : list Z := [u8 (Z.shiftr value 8); u8 value].
Definition write_be32 (value : Z) : list Z :=
  [u8 (Z.shiftr value 24); u8 (Z.shiftr value 16); u8 (Z.shiftr value 8); u8 value].

Definition mapped_ipv4_is_valid (address : Z) : bool :=
  let first := Z.shiftr address 24 in
  nz first && (first <? 224) && negb (address =? UINT32_MAX).

(** ** The response *)

Inductive StunParse := PARSE_OK (address port : Z) | PARSE_TRANSACTION_MISMATCH | PARSE_ERROR.

(** One address attribute: [None] is the error return. *)
Definition stun_address (xored : bool) (value : list Z) (value_len : Z) : option (Z * Z) :=
  if negb (value_len =? 8) || nz (rd 0 value 0) || negb (rd 0 value 1 =? 1) then None
  else
    let port := read_be16 value 2 in
    let address := read_be32 value 4 in
    let '(port, address) := if xored
      then (Z.lxor port (u16 (Z.shiftr RNET_STUN_MAGIC_COOKIE 16)), Z.lxor address RNET_STUN_MAGIC_COOKIE)
      else (port, address) in
    if negb (mapped_ipv4_is_valid address) || (port =? 0) then None else Some (address, port).

(** The attribute loop on what is left of the packet, with the two answers so
    far; an attribute takes at least four bytes. *)
Fixpoint stun_attrs (fuel : nat) (rest : list Z) (mapped xor_mapped : option (Z * Z)) : option (option (Z * Z) * option (Z * Z)) :=
  if zlen rest =? 0 then Some (mapped, xor_mapped)
  else match fuel with
  | O => None
  | S fuel =>
    if zlen rest <? 4 then None
    else
      let type := read_be16 rest 0 in
      let value_len := read_be16 rest 2 in
      let value := drop 4 rest in
      if zlen value <? value_len then None
      else
        let padded_len := Z.ldiff (value_len + 3) 3 in
        if zlen value <? padded_len then None
        else
          let next := drop (Z.to_nat padded_len) value in
          if type =? RNET_STUN_ATTR_XOR_MAPPED_ADDRESS then
            match stun_address true value value_len with
            | None => None
            | Some a => stun_attrs fuel next mapped (Some a)
            end
          else if type =? RNET_STUN_ATTR_MAPPED_ADDRESS then
            match stun_address false value value_len with
            | None => None
            | Some a => stun_attrs fuel next (Some a) xor_mapped
            end
          else stun_attrs fuel next mapped xor_mapped
  end.

Definition rnet_stun_parse_binding_response_ex (packet transaction_id : list Z) : StunParse :=
  if zlen packet <? RNET_STUN_HEADER_SIZE then PARSE_ERROR
  else if negb (read_be16 packet 0 =? RNET_STUN_BINDING_SUCCESS) ||
          negb (read_be32 packet 4 =? RNET_STUN_MAGIC_COOKIE) then PARSE_ERROR
  else if bool_decide (take 12 (drop 8 packet) <> transaction_id) then PARSE_TRANSACTION_MISMATCH
  else
    let message_len := read_be16 packet 2 in
    if nz (Z.land message_len 3) || negb (message_len =? zlen packet - RNET_STUN_HEADER_SIZE) then PARSE_ERROR
    else match stun_attrs (length packet) (drop 20 packet) None None with
         | Some (_, Some (address, port)) | Some (Some (address, port), None) => PARSE_OK address port
         | Some (None, None) | None => PARSE_ERROR
         end.
Definition rnet_stun_parse_binding_response (packet transaction_id : list Z) : StunParse * option Z :=
  let r := rnet_stun_parse_binding_response_ex packet transaction_id in
  (r, match r with PARSE_OK address _ => Some address | _ => None end).

(** ** Discovery *)

Definition build_binding_request (transaction_id : list Z) : list Z :=
  write_be16 RNET_STUN_BINDING_REQUEST ++ write_be16 0 ++ write_be32 RNET_STUN_MAGIC_COOKIE ++ transaction_id.
Definition format_ipv4 (address : Z) : list Z :=
  cut_l 16 (dotted (Z.land (Z.shiftr address 24) 255) (Z.land (Z.shiftr address 16) 255)
    (Z.land (Z.shiftr address 8) 255) (Z.land address 255)).

Record RNetExternalIpv4Config := MkStunConfig { stun_host : string; stun_port : Z; timeout_ms : Z }.
Definition RNET_STUN_DEFAULT_HOST : string := "stun.l.google.com".
Definition RNET_STUN_DEFAULT_PORT : Z := 19302.
Definition RNET_STUN_DEFAULT_TIMEOUT_MS : Z := 750.
Definition RNET_STUN_MAX_TIMEOUT_MS : Z := 1000.
Definition rnet_external_ipv4_config_init : RNetExternalIpv4Config :=
  MkStunConfig RNET_STUN_DEFAULT_HOST RNET_STUN_DEFAULT_PORT RNET_STUN_DEFAULT_TIMEOUT_MS.
Definition stun_config_resolve (config : option RNetExternalIpv4Config) : string * Z * Z :=
  let '(host, port, timeout) := match config with
    | None => (RNET_STUN_DEFAULT_HOST, RNET_STUN_DEFAULT_PORT, RNET_STUN_DEFAULT_TIMEOUT_MS)
    | Some c => (if String.eqb (stun_host c) "" then RNET_STUN_DEFAULT_HOST else stun_host c,
                 if nz (stun_port c) then stun_port c else RNET_STUN_DEFAULT_PORT,
                 if 0 <? timeout_ms c then timeout_ms c else RNET_STUN_DEFAULT_TIMEOUT_MS)
    end in
  (host, port, Z.min timeout RNET_STUN_MAX_TIMEOUT_MS).

Inductive StunResult :=
| EXTERNAL_OK (address port : Z) | ERR_ARGUMENT | ERR_RESOLVE | ERR_SOCKET | ERR_TIMEOUT | ERR_PROTOCOL
| ERR_RANDOM | ERR_BIND.

(** The end of one wait: [poll] and the [recvfrom] after it. *)
Inductive StunEv := PollErr | Quiet | RecvBlock | RecvErr | Gram (source : sockaddr_in) (packet : list Z).

(** How a wait for an answer ends: with a result, with the next request, or
    not before the script does. The script that is left comes along. *)
Inductive WaitOut := WDone (r : StunResult) | WAgain | WRunning.
Record StunIo := MkStunIo { si_clock : list Z; si_events : list StunEv; si_polls : list Z; si_saw_error : bool }.
Definition set_si_clock (c : list Z) (io : StunIo) := MkStunIo c (si_events io) (si_polls io) (si_saw_error io).
Definition set_si_events (e : list StunEv) (io : StunIo) := MkStunIo (si_clock io) e (si_polls io) (si_saw_error io).
Definition note_poll (ms : Z) (io : StunIo) := MkStunIo (si_clock io) (si_events io) (si_polls io ++ [ms]) (si_saw_error io).
Definition note_error (io : StunIo) := MkStunIo (si_clock io) (si_events io) (si_polls io) true.

Section Discover.
Context (server : sockaddr_in) (transaction_id : list Z) (start_ms timeout rto : Z).

Definition wait_of (now_ms rto_ms : Z) : Z :=
  let remaining := timeout - s32 (u64 (now_ms - start_ms)) in
  if rto_ms <? remaining then rto_ms else remaining.
Definition expired (now_ms : Z) : bool := timeout <=? u64 (now_ms - start_ms).

(** The inner loop, by recursion on the events still to come. *)
Fixpoint stun_wait (events : list StunEv) (wait_ms : Z) (io : StunIo) : WaitOut * StunIo :=
  match events with
  | [] => (WRunning, set_si_events [] io)
  | e :: events =>
    let io := set_si_events events (note_poll wait_ms io) in
    match e with
    | PollErr => (WDone ERR_SOCKET, io)
    | Quiet => (WAgain, io)
    | RecvBlock => (WAgain, io)
    | RecvErr => (WDone ERR_SOCKET, io)
    | Gram source packet =>
      if negb (sockaddr_equal source server) then stun_wait events wait_ms io
      else match rnet_stun_parse_binding_response_ex packet transaction_id with
           | PARSE_OK address port => (WDone (EXTERNAL_OK address port), io)
           | p =>
             let io := match p with PARSE_ERROR => note_error io | _ => io end in
             match si_clock io with
             | [] => (WRunning, io)
             | now_ms :: clock =>
               let io := set_si_clock clock io in
               if expired now_ms then (WDone ERR_TIMEOUT, io)
               else stun_wait events (wait_of now_ms rto) io
             end
           end
    end
  end.
End Discover.

(** The outer loop: one request a round, and one reading of the clock. [sends]
    says of each request whether the system took it. *)
Fixpoint stun_rounds (fuel : nat) (server : sockaddr_in) (transaction_id : list Z) (start_ms timeout rto_ms : Z)
    (sends : list bool) (io : StunIo) : WaitOut * StunIo :=
  match fuel, si_clock io, sends with
  | S fuel, now_ms :: clock, sent :: sends =>
    let io := set_si_clock clock io in
    if expired start_ms timeout now_ms then (WDone ERR_TIMEOUT, io)
    else if negb sent then (WDone ERR_SOCKET, io)
    else match stun_wait server transaction_id start_ms timeout rto_ms (si_events io)
                 (wait_of start_ms timeout now_ms rto_ms) io with
         | (WAgain, io) =>
           let rto_ms := if rto_ms <? timeout / 2 then rto_ms * 2 else timeout in
           stun_rounds fuel server transaction_id start_ms timeout rto_ms sends io
         | r => r
         end
  | _, _, _ => (WRunning, io)
  end.

(** What the system answers to the calls before the loop. *)
Record StunOs := MkStunOs {
  so_addrinfo : string -> Z -> option (list (bool * sockaddr_in));  (* [getaddrinfo]: is it an IPv4 address *)
  so_lookup : string -> option Z;
  so_random : option (list Z);
  so_socket : bool;
  so_bind : sockaddr_in -> bool
}.
Fixpoint first_ipv4 (results : list (bool * sockaddr_in)) : option sockaddr_in :=
  match results with [] => None | (ok, a) :: r => if (ok : bool) then Some a else first_ipv4 r end.
Definition resolve_stun_server (os : StunOs) (host : string) (port : Z) : option sockaddr_in :=
  match so_addrinfo os host port with None => None | Some results => first_ipv4 results end.

(** The address to bind: [inl] is an error return. *)
Definition stun_bind_addr (os : StunOs) (bind_hostport : string) : StunResult + sockaddr_in :=
  if String.eqb bind_hostport "" then inr (mkAddr AF_INET 0 0)
  else match rnet_os_parse_hostport bind_hostport 128 with
       | None => inl ERR_ARGUMENT
       | Some (bh, bp) =>
         if bp =? 0 then inl ERR_ARGUMENT
         else match rnet_os_resolve_sockaddr (so_lookup os) bh bp with
              | None => inl ERR_RESOLVE
              | Some a => inr a
              end
       end.

(** [None]: the script ended before the call did. *)
Definition stun_binding_discover (os : StunOs) (config : option RNetExternalIpv4Config) (bind_hostport : string)
    (sends : list bool) (clock : list Z) (events : list StunEv) : option StunResult :=
  let '(host, port, timeout) := stun_config_resolve config in
  match resolve_stun_server os host port with
  | None => Some ERR_RESOLVE
  | Some server =>
    match so_random os with
    | None => Some ERR_RANDOM
    | Some transaction_id =>
      if negb (so_socket os) then Some ERR_SOCKET
      else match stun_bind_addr os bind_hostport with
           | inl e => Some e
           | inr bind_addr =>
             if negb (so_bind os bind_addr) then Some ERR_BIND
             else match clock with
                  | [] => None
                  | start_ms :: clock =>
                    match stun_rounds (length clock) server transaction_id start_ms timeout RNET_STUN_INITIAL_RTO_MS
                            sends (MkStunIo clock events [] false) with
                    | (WDone ERR_TIMEOUT, io) => Some (if si_saw_error io then ERR_PROTOCOL else ERR_TIMEOUT)
                    | (WDone r, _) => Some r
                    | _ => None
                    end
                  end
           end
    end
  end.

(** The two calls: the text of the answer, [inl] an error. *)
Definition rnet_external_ipv4_discover (os : StunOs) (config : option RNetExternalIpv4Config) (sends : list bool)
    (clock : list Z) (events : list StunEv) (out_len : Z) : option (StunResult + list Z) :=
  if out_len =? 0 then Some (inl ERR_ARGUMENT)
  else match stun_binding_discover os config "" sends clock events with
       | None => None
       | Some (EXTERNAL_OK address _) =>
         let text := format_ipv4 address in
         Some (if out_len <? zlen text + 1 then inl ERR_ARGUMENT else inr text)
       | Some e => Some (inl e)
       end.
Definition rnet_external_udp_endpoint_discover (os : StunOs) (config : option RNetExternalIpv4Config)
    (bind_hostport : string) (sends : list bool) (clock : list Z) (events : list StunEv) (out_len : Z)
    : option (StunResult + list Z) :=
  if (out_len =? 0) || String.eqb bind_hostport "" then Some (inl ERR_ARGUMENT)
  else match stun_binding_discover os config bind_hostport sends clock events with
       | None => None
       | Some (EXTERNAL_OK address port) =>
         let text := format_ipv4 address ++ [58] ++ print_l port in
         Some (if out_len <=? zlen text then inl ERR_ARGUMENT else inr text)
       | Some e => Some (inl e)
       end.

(** * Theorems on STUN discovery *)


(** ** Bytes *)

Lemma lor_shift8 a b : 0 <= a -> in_u8 b -> Z.lor (Z.shiftl a 8) b = 256 * a + b.
Proof. intros Ha Hb. rewrite Z.lor_comm. rewrite lor_byte by done. lia. Qed.
Lemma read_be16_cons b0 b1 r : in_u8 b0 -> in_u8 b1 -> read_be16 (b0 :: b1 :: r) 0 = 256 * b0 + b1.
Proof.
  intros H0 H1. unfold read_be16.
  change (u16 (Z.lor (Z.shiftl b0 8) b1) = 256 * b0 + b1). rewrite lor_shift8 by (ranges; lia). mlia.
Qed.
Lemma read_be32_cons b0 b1 b2 b3 r : in_u8 b0 -> in_u8 b1 -> in_u8 b2 -> in_u8 b3 ->
  read_be32 (b0 :: b1 :: b2 :: b3 :: r) 0 = 16777216 * b0 + 65536 * b1 + 256 * b2 + b3.
Proof.
  intros H0 H1 H2 H3. unfold read_be32.
  change (Z.lor (Z.lor (Z.lor (Z.shiftl b0 24) (Z.shiftl b1 16)) (Z.shiftl b2 8)) b3 = 16777216 * b0 + 65536 * b1 + 256 * b2 + b3).
  change 24 with (8 + 8 + 8). change 16 with (8 + 8). rewrite <- !Z.shiftl_shiftl by lia.
  rewrite <- !Z.shiftl_lor. rewrite (lor_shift8 b0 b1), (lor_shift8 _ b2), (lor_shift8 _ b3) by (ranges; lia).
  ranges. lia.
Qed.
Lemma write_read16 b0 b1 r : in_u8 b0 -> in_u8 b1 -> write_be16 (read_be16 (b0 :: b1 :: r) 0) = [b0; b1].
Proof.
  intros H0 H1. rewrite read_be16_cons by done. unfold write_be16. rewrite Z.shiftr_div_pow2 by lia.
  change (2 ^ 8) with 256. do 2 f_equal; [|f_equal]; mlia.
Qed.
Lemma read_write16 v r : in_u16 v -> read_be16 (write_be16 v ++ r) 0 = v.
Proof.
  intros H. unfold write_be16. cbn [app]. rewrite read_be16_cons by apply u8_range.
  rewrite Z.shiftr_div_pow2 by lia. change (2 ^ 8) with 256. mlia.
Qed.
Lemma write_read32 b0 b1 b2 b3 r : in_u8 b0 -> in_u8 b1 -> in_u8 b2 -> in_u8 b3 ->
  write_be32 (read_be32 (b0 :: b1 :: b2 :: b3 :: r) 0) = [b0; b1; b2; b3].
Proof.
  intros H0 H1 H2 H3. rewrite read_be32_cons by done. unfold write_be32. rewrite !Z.shiftr_div_pow2 by lia.
  change (2 ^ 8) with 256. change (2 ^ 16) with 65536. change (2 ^ 24) with 16777216.
  repeat f_equal; mlia.
Qed.
Lemma read_write32 v r : in_u32 v -> read_be32 (write_be32 v ++ r) 0 = v.
Proof.
  intros H. unfold write_be32. cbn [app]. rewrite read_be32_cons by apply u8_range.
  rewrite !Z.shiftr_div_pow2 by lia. change (2 ^ 8) with 256. change (2 ^ 16) with 65536. change (2 ^ 24) with 16777216.
  mlia.
Qed.
Lemma zlen_write16 v : zlen (write_be16 v) = 2.
Proof. done. Qed.
Lemma zlen_write32 v : zlen (write_be32 v) = 4.
Proof. done. Qed.
Lemma write16_bytes v : Forall in_u8 (write_be16 v).
Proof. repeat constructor; apply u8_range. Qed.
Lemma write32_bytes v : Forall in_u8 (write_be32 v).
Proof. repeat constructor; apply u8_range. Qed.
Lemma lxor_bound (n a b : Z) : 0 <= n -> 0 <= a < 2 ^ n -> 0 <= b < 2 ^ n -> 0 <= Z.lxor a b < 2 ^ n.
Proof.
  intros Hn Ha Hb.
  assert (0 <= Z.lxor a b) as H0 by (apply Z.lxor_nonneg; lia). split; [done|].
  destruct (decide (Z.lxor a b = 0)) as [->|Hne]; [lia|].
  apply Z.log2_lt_pow2; [lia|]. pose proof (Z.log2_lxor a b ltac:(lia) ltac:(lia)).
  assert (forall x, 0 <= x < 2 ^ n -> x <> 0 -> Z.log2 x < n) as HL.
  { intros x Hx Hx0. apply Z.log2_lt_pow2; lia. }
  destruct (decide (a = 0)) as [->|Hza], (decide (b = 0)) as [->|Hzb]; rewrite ?Z.lxor_0_l, ?Z.lxor_0_r in *; try done.
  - by apply HL.
  - by apply HL.
  - pose proof (HL a Ha Hza). pose proof (HL b Hb Hzb). lia.
Qed.

(** ** The messages of the protocol *)

(** An attribute and its padding, as the standard lays it out. *)
Inductive Attr := AMapped (a p : Z) | AXor (a p : Z) | AOther (ty : Z) (value pad : list Z).
Definition endpoint_value (a p : Z) : list Z := [0; 1] ++ write_be16 p ++ write_be32 a.
Definition attr_bytes (ty : Z) (value pad : list Z) : list Z :=
  write_be16 ty ++ write_be16 (zlen value) ++ value ++ pad.
Definition enc_attr (a : Attr) : list Z :=
  match a with
  | AMapped a p => attr_bytes 1 (endpoint_value a p) []
  | AXor a p => attr_bytes 32 (endpoint_value (Z.lxor a RNET_STUN_MAGIC_COOKIE) (Z.lxor p 8466)) []
  | AOther ty value pad => attr_bytes ty value pad
  end.
Definition endpoint_ok (a p : Z) : Prop := in_u32 a /\ in_u16 p /\ p <> 0 /\ mapped_ipv4_is_valid a = true.
Definition attr_ok (a : Attr) : Prop :=
  match a with
  | AMapped a p | AXor a p => endpoint_ok a p
  | AOther ty value pad =>
      in_u16 ty /\ ty <> 1 /\ ty <> 32 /\ in_u16 (zlen value) /\ Forall in_u8 value /\ Forall in_u8 pad /\
      zlen pad = 4 * ((zlen value + 3) / 4) - zlen value
  end.
Definition attr_fold (acc : option (Z * Z) * option (Z * Z)) (a : Attr) : option (Z * Z) * option (Z * Z) :=
  match a with
  | AMapped a p => (Some (a, p), snd acc)
  | AXor a p => (fst acc, Some (a, p))
  | AOther _ _ _ => acc
  end.
(** The last XOR-MAPPED-ADDRESS, or the last MAPPED-ADDRESS without one. *)
Definition attr_answer (attrs : list Attr) : option (Z * Z) :=
  let '(m, x) := fold_left attr_fold attrs (None, None) in match x with Some _ => x | None => m end.
Definition stun_message (transaction_id : list Z) (attrs : list Attr) : list Z :=
  let body := concat (enc_attr <$> attrs) in
  write_be16 257 ++ write_be16 (zlen body) ++ write_be32 RNET_STUN_MAGIC_COOKIE ++ transaction_id ++ body.

Lemma padded_len n : 0 <= n -> Z.ldiff (n + 3) 3 = 4 * ((n + 3) / 4).
Proof.
  intros Hn. change 3 with (Z.ones 2) at 2. rewrite Z.ldiff_ones_r by lia.
  rewrite Z.shiftr_div_pow2, Z.shiftl_mul_pow2 by lia. change (2 ^ 2) with 4. lia.
Qed.

Lemma rd_shift (x : Z) l i : 0 <= i -> rd 0 (x :: l) (i + 1) = rd 0 l i.
Proof. intros Hi. unfold rd. by replace (Z.to_nat (i + 1)) with (S (Z.to_nat i)) by lia. Qed.
Lemma read_be16_drop l i : 0 <= i -> read_be16 l i = read_be16 (drop (Z.to_nat i) l) 0.
Proof.
  intros Hi. unfold read_be16, rd. rewrite !nth_lookup, !lookup_drop.
  by replace (Z.to_nat i + Z.to_nat (0 + 1))%nat with (Z.to_nat (i + 1)) by lia;
     replace (Z.to_nat i + Z.to_nat 0)%nat with (Z.to_nat i) by lia.
Qed.
Lemma read_be32_drop l i : 0 <= i -> read_be32 l i = read_be32 (drop (Z.to_nat i) l) 0.
Proof.
  intros Hi. unfold read_be32, rd. rewrite !nth_lookup, !lookup_drop.
  replace (Z.to_nat i + Z.to_nat (0 + 1))%nat with (Z.to_nat (i + 1)) by lia.
  replace (Z.to_nat i + Z.to_nat (0 + 2))%nat with (Z.to_nat (i + 2)) by lia.
  replace (Z.to_nat i + Z.to_nat (0 + 3))%nat with (Z.to_nat (i + 3)) by lia.
  by replace (Z.to_nat i + Z.to_nat 0)%nat with (Z.to_nat i) by lia.
Qed.

Lemma xor_port p : in_u16 p -> in_u16 (Z.lxor p 8466).
Proof. intros H. unfold in_u16. change 65536 with (2 ^ 16). apply lxor_bound; [lia|done|lia]. Qed.
Lemma xor_addr a : in_u32 a -> in_u32 (Z.lxor a RNET_STUN_MAGIC_COOKIE).
Proof. intros H. unfold in_u32. change 4294967296 with (2 ^ 32). apply lxor_bound; [lia|done|by vm_compute]. Qed.
Lemma xor_twice a b : Z.lxor (Z.lxor a b) b = a.
Proof. by rewrite Z.lxor_assoc, Z.lxor_nilpotent, Z.lxor_0_r. Qed.

(** The parser of an address reads what the layout wrote, and nothing else. *)
Lemma stun_address_enc (x : bool) a p rest : endpoint_ok a p ->
  stun_address x ((if x then endpoint_value (Z.lxor a RNET_STUN_MAGIC_COOKIE) (Z.lxor p 8466)
                   else endpoint_value a p) ++ rest) 8 = Some (a, p).
Proof.
  intros (Ha & Hp & Hp0 & Hv). unfold stun_address.
  assert (forall a' p', in_u32 a' -> in_u16 p' ->
    read_be16 (endpoint_value a' p' ++ rest) 2 = p' /\ read_be32 (endpoint_value a' p' ++ rest) 4 = a') as R.
  { intros a' p' H1 H2. rewrite read_be16_drop, read_be32_drop by lia. split.
    - by apply (read_write16 p' (write_be32 a' ++ rest)).
    - by apply (read_write32 a' rest). }
  destruct x; cbn [negb orb].
  - destruct (R _ _ (xor_addr a Ha) (xor_port p Hp)) as [-> ->].
    change (u16 (RNET_STUN_MAGIC_COOKIE ≫ 16)) with 8466. rewrite !xor_twice, Hv. cbn.
    by destruct (Z.eqb_spec p 0).
  - destruct (R a p Ha Hp) as [-> ->]. rewrite Hv. cbn. by destruct (Z.eqb_spec p 0).
Qed.
Lemma eight (v : list Z) : (8 <= length v)%nat -> exists b0 b1 b2 b3 b4 b5 b6 b7 r,
  v = [b0; b1; b2; b3; b4; b5; b6; b7] ++ r.
Proof. intros H. destruct v as [|? [|? [|? [|? [|? [|? [|? [|? r]]]]]]]]; cbn in H; try lia. by eexists _, _, _, _, _, _, _, _, r. Qed.
Lemma stun_address_dec x value vlen a p : Forall in_u8 value -> vlen <= zlen value ->
  stun_address x value vlen = Some (a, p) ->
  vlen = 8 /\ endpoint_ok a p /\
  value = (if x then endpoint_value (Z.lxor a RNET_STUN_MAGIC_COOKIE) (Z.lxor p 8466) else endpoint_value a p) ++ drop 8 value.
Proof.
  intros Hb Hl H. unfold stun_address in H.
  destruct (_ || _) eqn:E in H; [done|]. unfold nz in E. apply orb_false_elim in E as [E E1].
  apply orb_false_elim in E as [E E0]. bool_prop.
  destruct (eight value) as (b0 & b1 & b2 & b3 & b4 & b5 & b6 & b7 & r & ->); [unfold zlen in *; lia|].
  rewrite !Forall_app, !Forall_cons in Hb. destruct Hb as ((B0 & B1 & B2 & B3 & B4 & B5 & B6 & B7 & _) & Hr).
  rewrite read_be16_drop, read_be32_drop in H by lia.
  assert (b0 = 0) as -> by exact E0. assert (b1 = 1) as -> by exact E1.
  cbn [app] in H.
  change (drop (Z.to_nat 2) (0 :: 1 :: b2 :: b3 :: b4 :: b5 :: b6 :: b7 :: r)) with (b2 :: b3 :: b4 :: b5 :: b6 :: b7 :: r) in H.
  change (drop (Z.to_nat 4) (0 :: 1 :: b2 :: b3 :: b4 :: b5 :: b6 :: b7 :: r)) with (b4 :: b5 :: b6 :: b7 :: r) in H.
  change (drop 8 ([0; 1; b2; b3; b4; b5; b6; b7] ++ r)) with r.
  pose proof (write_read16 b2 b3 (b4 :: b5 :: b6 :: b7 :: r) B2 B3) as W16.
  pose proof (write_read32 b4 b5 b6 b7 r B4 B5 B6 B7) as W32.
  assert (in_u16 (read_be16 (b2 :: b3 :: b4 :: b5 :: b6 :: b7 :: r) 0)) as R16 by apply u16_range.
  assert (in_u32 (read_be32 (b4 :: b5 :: b6 :: b7 :: r) 0)) as R32 by (rewrite read_be32_cons by done; ranges; lia).
  set (P := read_be16 _ 0) in *. set (A := read_be32 _ 0) in *. clearbody P A.
  split; [lia|]. unfold endpoint_value.
  destruct x; cbn beta iota in H; change (u16 (RNET_STUN_MAGIC_COOKIE ≫ 16)) with 8466 in H;
    (destruct (_ || _) eqn:E2 in H; [done|]); bool_prop; simplify_eq.
  - rewrite !xor_twice, W16, W32. split; [|done].
    split_and!; [by apply xor_addr|by apply xor_port|lia|done].
  - rewrite W16, W32. split; [|done]. split_and!; [done..|lia|done].
Qed.

(** One round of the loop, on an attribute laid out by the standard. *)
Lemma stun_attrs_step fuel ty value pad tail m x : in_u16 ty -> in_u16 (zlen value) ->
  zlen pad = 4 * ((zlen value + 3) / 4) - zlen value ->
  stun_attrs (S fuel) (attr_bytes ty value pad ++ tail) m x =
  if ty =? 32 then
    match stun_address true (value ++ pad ++ tail) (zlen value) with None => None | Some a => stun_attrs fuel tail m (Some a) end
  else if ty =? 1 then
    match stun_address false (value ++ pad ++ tail) (zlen value) with None => None | Some a => stun_attrs fuel tail (Some a) x end
  else stun_attrs fuel tail m x.
Proof.
  intros Ht Hv Hp. unfold attr_bytes. rewrite <- !app_assoc. cbn [stun_attrs].
  assert (zlen (write_be16 ty ++ write_be16 (zlen value) ++ value ++ pad ++ tail) = 4 + zlen value + zlen pad + zlen tail) as L.
  { rewrite !zlen_app. unfold zlen at 1 2. cbn. lia. }
  pose proof (zlen_nonneg value). pose proof (zlen_nonneg tail).
  rewrite L. destruct (Z.eqb_spec (4 + zlen value + zlen pad + zlen tail) 0); [mlia|].
  destruct (Z.ltb_spec (4 + zlen value + zlen pad + zlen tail) 4); [mlia|].
  rewrite read_write16 by done.
  replace (read_be16 (write_be16 ty ++ write_be16 (zlen value) ++ value ++ pad ++ tail) 2) with (zlen value)
    by (rewrite read_be16_drop by lia; symmetry; by apply (read_write16 (zlen value) (value ++ pad ++ tail))).
  change (drop 4 (write_be16 ty ++ write_be16 (zlen value) ++ value ++ pad ++ tail)) with (value ++ pad ++ tail).
  rewrite !zlen_app, padded_len by lia.
  destruct (Z.ltb_spec (zlen value + (zlen pad + zlen tail)) (zlen value)); [mlia|].
  destruct (Z.ltb_spec (zlen value + (zlen pad + zlen tail)) (4 * ((zlen value + 3) / 4))); [mlia|].
  replace (drop (Z.to_nat (4 * ((zlen value + 3) / 4))) (value ++ pad ++ tail)) with tail; [done|].
  rewrite app_assoc, drop_app_length'; [done|]. rewrite length_app. unfold zlen in *. lia.
Qed.
Lemma endpoint_len a p : zlen (endpoint_value a p) = 8.
Proof. done. Qed.

Lemma stun_attrs_enc attrs : forall fuel m x, Forall attr_ok attrs -> (length (concat (enc_attr <$> attrs)) <= fuel)%nat ->
  stun_attrs fuel (concat (enc_attr <$> attrs)) m x = Some (fold_left attr_fold attrs (m, x)).
Proof.
  induction attrs as [|a attrs IH]; intros fuel m x Hok Hf; [by destruct fuel|].
  apply Forall_cons in Hok as [Ha Hok]. cbn [fmap list_fmap concat fold_left] in *. rewrite length_app in Hf.
  assert (4 <= length (enc_attr a))%nat by (destruct a; cbn; lia).
  destruct fuel as [|fuel]; [lia|].
  destruct a as [a p|a p|ty value pad]; cbn [enc_attr attr_fold attr_ok fst snd] in *.
  - rewrite stun_attrs_step; [|by ranges..]. change (1 =? 32) with false. change (1 =? 1) with true. cbn iota.
    change (zlen (endpoint_value a p)) with 8. rewrite (stun_address_enc false) by done. apply IH; [done|lia].
  - rewrite stun_attrs_step; [|by ranges..]. change (32 =? 32) with true. cbn iota.
    change (zlen (endpoint_value _ _)) with 8. rewrite (stun_address_enc true) by done. apply IH; [done|lia].
  - destruct Ha as (Ht & H1 & H32 & Hv & _ & _ & Hp). rewrite stun_attrs_step by done.
    destruct (Z.eqb_spec ty 32); [done|]. destruct (Z.eqb_spec ty 1); [done|]. apply IH; [done|lia].
Qed.

(** The first attribute of what the loop accepts. *)
Lemma split_attr rest : Forall in_u8 rest -> 4 <= zlen rest ->
  Z.ldiff (read_be16 rest 2 + 3) 3 <= zlen (drop 4 rest) ->
  exists value pad tail, tail = drop (Z.to_nat (Z.ldiff (read_be16 rest 2 + 3) 3)) (drop 4 rest) /\
  rest = attr_bytes (read_be16 rest 0) value pad ++ tail /\ drop 4 rest = value ++ pad ++ tail /\
  zlen value = read_be16 rest 2 /\ zlen pad = 4 * ((zlen value + 3) / 4) - zlen value /\
  Forall in_u8 value /\ Forall in_u8 pad /\ Forall in_u8 tail.
Proof.
  intros Hb Hl Hp.
  assert (in_u16 (read_be16 rest 2)) as R2 by apply u16_range.
  assert (exists b0 b1 b2 b3 r, rest = b0 :: b1 :: b2 :: b3 :: r) as (b0 & b1 & b2 & b3 & r & ->).
  { destruct rest as [|b0 [|b1 [|b2 [|b3 r]]]]; try (unfold zlen in Hl; cbn in Hl; lia). by eexists _, _, _, _, r. }
  rewrite !Forall_cons in Hb. destruct Hb as (B0 & B1 & B2 & B3 & Hr).
  pose proof (write_read16 b0 b1 (b2 :: b3 :: r) B0 B1) as W0.
  assert (write_be16 (read_be16 (b0 :: b1 :: b2 :: b3 :: r) 2) = [b2; b3]) as W2.
  { rewrite read_be16_drop by lia. by apply (write_read16 b2 b3 r). }
  set (vl := read_be16 (b0 :: b1 :: b2 :: b3 :: r) 2) in *. set (ty := read_be16 (b0 :: b1 :: b2 :: b3 :: r) 0) in *.
  change (drop 4 (b0 :: b1 :: b2 :: b3 :: r)) with r in *. rewrite padded_len in * by (ranges; lia).
  assert (drop (Z.to_nat vl) r = take (Z.to_nat (4 * ((vl + 3) / 4)) - Z.to_nat vl) (drop (Z.to_nat vl) r)
            ++ drop (Z.to_nat (4 * ((vl + 3) / 4))) r) as T.
  { rewrite <- (take_drop (Z.to_nat (4 * ((vl + 3) / 4)) - Z.to_nat vl) (drop (Z.to_nat vl) r)) at 1. f_equal.
    rewrite drop_drop. f_equal. mlia. }
  assert (zlen (take (Z.to_nat vl) r) = vl) as Lv. { unfold zlen in *. rewrite length_take. mlia. }
  assert (zlen (take (Z.to_nat (4 * ((vl + 3) / 4)) - Z.to_nat vl) (drop (Z.to_nat vl) r)) = 4 * ((vl + 3) / 4) - vl) as Lp.
  { unfold zlen in *. rewrite length_take, length_drop. mlia. }
  exists (take (Z.to_nat vl) r), (take (Z.to_nat (4 * ((vl + 3) / 4)) - Z.to_nat vl) (drop (Z.to_nat vl) r)).
  eexists. split; [reflexivity|]. rewrite Lv. split_and!; try done; [..|by apply Forall_take|by apply Forall_take, Forall_drop|by apply Forall_drop].
  - unfold attr_bytes. rewrite Lv, W0, W2. cbn [app]. do 4 f_equal.
    rewrite <- app_assoc, <- T. by rewrite take_drop.
  - rewrite <- T. by rewrite take_drop.
Qed.

Lemma stun_attrs_dec fuel : forall rest m x m' x', Forall in_u8 rest -> stun_attrs fuel rest m x = Some (m', x') ->
  exists attrs, Forall attr_ok attrs /\ rest = concat (enc_attr <$> attrs) /\ (m', x') = fold_left attr_fold attrs (m, x).
Proof.
  induction fuel as [|fuel IH]; intros rest m x m' x' Hb H; cbn [stun_attrs] in H;
    (destruct (Z.eqb_spec (zlen rest) 0) as [E|E]; [destruct rest; [|unfold zlen in E; cbn in E; lia]; simplify_eq; by exists []|]);
    [done|].
  destruct (Z.ltb_spec (zlen rest) 4) as [|L]; [done|].
  destruct (Z.ltb_spec (zlen (drop 4 rest)) (read_be16 rest 2)) as [|_]; [done|].
  destruct (Z.ltb_spec (zlen (drop 4 rest)) (Z.ldiff (read_be16 rest 2 + 3) 3)) as [|P]; [done|].
  destruct (split_attr rest Hb L P) as (value & pad & tail & Et0 & E1 & E2 & Lv & Lp & Bv & Bp & Bt).
  rewrite <- Et0 in H.
  assert (in_u16 (read_be16 rest 0)) as Rt by apply u16_range.
  assert (in_u16 (read_be16 rest 2)) as Rl by apply u16_range.
  set (ty := read_be16 rest 0) in *.
  assert (forall xx a p, stun_address xx (drop 4 rest) (read_be16 rest 2) = Some (a, p) ->
    endpoint_ok a p /\ pad = [] /\
    value = if xx then endpoint_value (Z.lxor a RNET_STUN_MAGIC_COOKIE) (Z.lxor p 8466) else endpoint_value a p) as D.
  { intros xx a p HS. apply stun_address_dec in HS as (L8 & Hok & Ev); [|by apply Forall_drop|rewrite <- Lv, E2, zlen_app; pose proof (zlen_nonneg (pad ++ tail)); lia].
    rewrite L8 in *. split; [done|]. rewrite Lv in Lp. change (4 * ((8 + 3) / 4) - 8) with 0 in Lp.
    split; [destruct pad; [done|unfold zlen in Lp; cbn in Lp; lia]|].
    rewrite E2 in Ev. rewrite drop_app_length' in Ev by (unfold zlen in Lv; lia).
    apply (f_equal (take 8)) in Ev. rewrite take_app_length' in Ev by (unfold zlen in Lv; lia).
    rewrite Ev. rewrite take_app_length'; [done|by destruct xx]. }
  assert (forall a, attr_ok a -> enc_attr a = attr_bytes ty value pad -> forall m1 x1, attr_fold (m, x) a = (m1, x1) ->
    stun_attrs fuel tail m1 x1 = Some (m', x') ->
    exists attrs, Forall attr_ok attrs /\ rest = concat (enc_attr <$> attrs) /\ (m', x') = fold_left attr_fold attrs (m, x)) as K.
  { intros a Ha Ea m1 x1 Ef Hs. destruct (IH _ _ _ _ _ Bt Hs) as (attrs & Hok & Et & Hfold).
    exists (a :: attrs). cbn [fmap list_fmap concat fold_left]. rewrite Ea, Ef, <- Et. by split; [constructor|]. }
  unfold RNET_STUN_ATTR_XOR_MAPPED_ADDRESS, RNET_STUN_ATTR_MAPPED_ADDRESS in H.
  destruct (Z.eqb_spec ty 32) as [Ety|N32].
  - destruct (stun_address true _ _) as [[a p]|] eqn:HS; [|done]. destruct (D _ _ _ HS) as (Hok & Ep & Ev).
    eapply (K (AXor a p)); [done|by rewrite Ety, Ep, Ev|done|done].
  - destruct (Z.eqb_spec ty 1) as [Ety|N1].
    + destruct (stun_address false _ _) as [[a p]|] eqn:HS; [|done]. destruct (D _ _ _ HS) as (Hok & Ep & Ev).
      eapply (K (AMapped a p)); [done|by rewrite Ety, Ep, Ev|done|done].
    + eapply (K (AOther ty value pad)); [|done|done|done]. split_and!; try done. by rewrite Lv.
Qed.

(** The header's fields are the packet's first twenty bytes. *)
Lemma header_split packet : Forall in_u8 packet -> 20 <= zlen packet ->
  packet = write_be16 (read_be16 packet 0) ++ write_be16 (read_be16 packet 2) ++ write_be32 (read_be32 packet 4) ++
           take 12 (drop 8 packet) ++ drop 20 packet.
Proof.
  intros Hb Hl. destruct (eight packet) as (b0 & b1 & b2 & b3 & b4 & b5 & b6 & b7 & r & ->); [unfold zlen in Hl; lia|].
  rewrite !Forall_app, !Forall_cons in Hb. destruct Hb as ((B0 & B1 & B2 & B3 & B4 & B5 & B6 & B7 & _) & Hr).
  cbn [app]. rewrite write_read16 by done. rewrite (read_be16_drop _ 2), (read_be32_drop _ 4) by lia.
  change (drop (Z.to_nat 2) (b0 :: b1 :: b2 :: b3 :: b4 :: b5 :: b6 :: b7 :: r)) with (b2 :: b3 :: b4 :: b5 :: b6 :: b7 :: r).
  change (drop (Z.to_nat 4) (b0 :: b1 :: b2 :: b3 :: b4 :: b5 :: b6 :: b7 :: r)) with (b4 :: b5 :: b6 :: b7 :: r).
  rewrite write_read16, write_read32 by done. cbn [app]. do 8 f_equal.
  change (drop 8 (b0 :: b1 :: b2 :: b3 :: b4 :: b5 :: b6 :: b7 :: r)) with r.
  change (drop 20 (b0 :: b1 :: b2 :: b3 :: b4 :: b5 :: b6 :: b7 :: r)) with (drop 12 r). by rewrite take_drop.
Qed.

Lemma enc_attr_mod4 attrs : Forall attr_ok attrs -> zlen (concat (enc_attr <$> attrs)) mod 4 = 0.
Proof.
  induction 1 as [|a attrs Ha _ IH]; [done|]. cbn [fmap list_fmap concat]. rewrite zlen_app.
  rewrite Z.add_mod, IH by lia. rewrite Z.add_0_r, Z.mod_mod by lia.
  destruct a as [a p|a p|ty value pad]; [done..|]. destruct Ha as (_ & _ & _ & _ & _ & _ & Hp).
  cbn [enc_attr]. unfold attr_bytes. rewrite !zlen_app, Hp. unfold zlen at 1 2. cbn [length write_be16].
  replace (Z.of_nat 2 + (Z.of_nat 2 + (zlen value + (4 * ((zlen value + 3) / 4) - zlen value))))
    with ((1 + (zlen value + 3) / 4) * 4) by lia. by rewrite Z.mod_mul.
Qed.

(** C19. The response parser accepts exactly the standard's Binding Success
    messages: a packet of bytes is answered with an address and a port if and
    only if it is the encoding, under this transaction id, of some list of
    attributes whose address attributes are all well-formed and usable, and
    the answer is the last XOR-MAPPED-ADDRESS, or, with none, the last
    MAPPED-ADDRESS. Truncated, unpadded, over-long or foreign packets have no
    such reading and are refused. *)
Theorem stun_parse_exact packet transaction_id a p : Forall in_u8 packet -> length transaction_id = 12%nat ->
  rnet_stun_parse_binding_response_ex packet transaction_id = PARSE_OK a p <->
  exists attrs, Forall attr_ok attrs /\ in_u16 (zlen (concat (enc_attr <$> attrs))) /\
    packet = stun_message transaction_id attrs /\ attr_answer attrs = Some (a, p).
Proof.
  intros Hb Ht. unfold rnet_stun_parse_binding_response_ex, RNET_STUN_HEADER_SIZE, RNET_STUN_BINDING_SUCCESS. split.
  - destruct (Z.ltb_spec (zlen packet) 20) as [|L]; [done|]. destruct (_ || _) eqn:E; [done|]. bool_prop.
    case_bool_decide as D; [done|].
    destruct (_ || _) eqn:E2; [done|]. unfold nz in E2. bool_prop.
    destruct (stun_attrs _ _ _ _) as [[m x]|] eqn:HS; [|done]. intros HA.
    apply stun_attrs_dec in HS as (attrs & Hok & Eb & Ef); [|by apply Forall_drop].
    assert (zlen (drop 20 packet) = read_be16 packet 2) as Lb by (unfold zlen in *; rewrite length_drop; lia).
    exists attrs. split; [done|]. split; [rewrite <- Eb, Lb; apply u16_range|]. split.
    + rewrite (header_split packet Hb L) at 1. unfold stun_message. rewrite <- Eb, Lb, D. by repeat f_equal.
    + unfold attr_answer. rewrite <- Ef. by destruct x as [[]|], m as [[]|]; simplify_eq.
  - intros (attrs & Hok & Hl & Ep & Ha). unfold stun_message in Ep.
    set (body := concat (enc_attr <$> attrs)) in *.
    assert (zlen packet = 20 + zlen body) as L.
    { rewrite Ep, !zlen_app. assert (zlen transaction_id = 12) as -> by (unfold zlen; lia).
      rewrite !zlen_write16, zlen_write32. lia. }
    assert (read_be16 packet 0 = 257) as -> by (rewrite Ep; by apply read_write16).
    assert (read_be32 packet 4 = RNET_STUN_MAGIC_COOKIE) as ->.
    { rewrite read_be32_drop, Ep by lia. by apply (read_write32 RNET_STUN_MAGIC_COOKIE (transaction_id ++ body)). }
    assert (read_be16 packet 2 = zlen body) as ->.
    { rewrite read_be16_drop, Ep by lia. by apply (read_write16 (zlen body) (write_be32 RNET_STUN_MAGIC_COOKIE ++ transaction_id ++ body)). }
    assert (drop 8 packet = transaction_id ++ body) as ->  by (rewrite Ep; done).
    rewrite take_app_length' by done.
    replace (drop 20 packet) with body; last first.
    { rewrite Ep. change (body = drop 12 (transaction_id ++ body)). by rewrite drop_app_length'. }
    rewrite L. destruct (Z.ltb_spec (20 + zlen body) 20) as [|_]; [pose proof (zlen_nonneg body); lia|].
    rewrite !Z.eqb_refl. cbn [negb orb]. rewrite bool_decide_eq_false_2 by (intros N; by apply N).
    change 3 with (Z.ones 2). rewrite Z.land_ones by lia. change (2 ^ 2) with 4. unfold body at 1. rewrite enc_attr_mod4 by done.
    replace (20 + zlen body - 20) with (zlen body) by lia. rewrite Z.eqb_refl. cbn [nz negb orb Z.eqb].
    subst body. rewrite stun_attrs_enc; [|done|unfold zlen in L; lia].
    unfold attr_answer in Ha. destruct (fold_left _ _ _) as [[[]|] [[]|]]; by simplify_eq.
Qed.
Lemma stun_parse_exact_witness : exists packet, rnet_stun_parse_binding_response_ex packet (seqZ 0 12) = PARSE_OK 134744072 7777.
Proof.
  exists (stun_message (seqZ 0 12) [AOther 32802 [97; 98] [0; 0]; AXor 134744072 7777]).
  apply stun_parse_exact.
  - by apply (bool_decide_unpack _); vm_compute.
  - done.
  - eexists. split_and!; [| |reflexivity|done]; [|by vm_compute].
    repeat constructor; by vm_compute.
Defined.

(** ** Discovery *)

(** The result came with a datagram of the server. *)
Definition genuine (server : sockaddr_in) (transaction_id : list Z) (events : list StunEv) (a p : Z) : Prop :=
  exists source packet, Gram source packet ∈ events /\ sockaddr_equal source server = true /\
    rnet_stun_parse_binding_response_ex packet transaction_id = PARSE_OK a p.
Lemma stun_wait_genuine server transaction_id start timeout rto events : forall w io a p io',
  stun_wait server transaction_id start timeout rto events w io = (WDone (EXTERNAL_OK a p), io') ->
  genuine server transaction_id events a p.
Proof.
  induction events as [|e events IH]; intros w io a p io' H; [done|].
  assert (genuine server transaction_id events a p -> genuine server transaction_id (e :: events) a p) as K.
  { intros (s & q & Hin & ?). exists s, q. split; [by right|done]. }
  cbn [stun_wait] in H. destruct e as [| | | |source packet]; try done.
  destruct (sockaddr_equal source server) eqn:Es; cbn [negb] in H; [|by apply K; eapply IH].
  destruct (rnet_stun_parse_binding_response_ex packet transaction_id) as [a' p'| |] eqn:Ep.
  - simplify_eq. exists source, packet. split; [by left|done].
  - destruct (si_clock _); [done|]. destruct (expired _ _ _); [done|]. apply K. by eapply IH.
  - destruct (si_clock _); [done|]. destruct (expired _ _ _); [done|]. apply K. by eapply IH.
Qed.
(** A wait leaves a tail of the events it was given. *)
Lemma stun_wait_suffix server transaction_id start timeout rto events : forall w io r io', si_events io = events ->
  stun_wait server transaction_id start timeout rto events w io = (r, io') -> si_events io' `suffix_of` events.
Proof.
  induction events as [|e events IH]; intros w io r io' Hi H; cbn [stun_wait] in H.
  - by simplify_eq.
  - assert (forall w io, si_events io = events -> stun_wait server transaction_id start timeout rto events w io = (r, io') ->
      si_events io' `suffix_of` e :: events) as K by (intros; apply suffix_cons_r; by eapply IH).
    assert (si_events io' = events -> si_events io' `suffix_of` e :: events) as D by (intros ->; by apply suffix_cons_r).
    destruct e as [| | | |source packet]; simplify_eq; try (by apply D).
    destruct (negb _); [refine (K _ _ _ H); done|].
    destruct (rnet_stun_parse_binding_response_ex packet transaction_id) as [a' p'| |]; [by simplify_eq; apply D|..].
    all: destruct (si_clock _); [by simplify_eq; apply D|]; destruct (expired _ _ _); [by simplify_eq; apply D|].
    all: refine (K _ _ _ H); done.
Qed.
Lemma stun_rounds_genuine fuel server transaction_id start timeout : forall rto sends io a p io',
  stun_rounds fuel server transaction_id start timeout rto sends io = (WDone (EXTERNAL_OK a p), io') ->
  genuine server transaction_id (si_events io) a p.
Proof.
  induction fuel as [|fuel IH]; intros rto sends io a p io' H; cbn [stun_rounds] in H; [done|].
  destruct (si_clock io) as [|now clock]; [done|]. destruct sends as [|sent sends]; [done|].
  destruct (expired _ _ _); [done|]. destruct (negb sent); [done|].
  destruct (stun_wait _ _ _ _ _ _ _ _) as [[r| |] io1] eqn:Hw; simplify_eq.
  - by eapply stun_wait_genuine.
  - apply IH in H as (s & q & Hin & Hq). exists s, q. split; [|done].
    apply stun_wait_suffix in Hw as [l El]; [|done]. cbn in El. rewrite El. apply elem_of_app. by right.
Qed.

(** A discovered address is the server's own word: whenever discovery
    succeeds, one of the datagrams that arrived during the call came from the
    resolved server's address and is a standard Binding Success message under
    this call's random transaction id that carries exactly the returned address
    and port. Nothing a third party sends can make it succeed. *)
Theorem stun_discovery_genuine os config bind_hostport sends clock events a p :
  (forall packet source, Gram source packet ∈ events -> Forall in_u8 packet) ->
  (forall t, so_random os = Some t -> length t = 12%nat) ->
  stun_binding_discover os config bind_hostport sends clock events = Some (EXTERNAL_OK a p) ->
  exists server transaction_id source attrs,
    resolve_stun_server os (fst (fst (stun_config_resolve config))) (snd (fst (stun_config_resolve config))) = Some server /\
    so_random os = Some transaction_id /\ sockaddr_equal source server = true /\
    Gram source (stun_message transaction_id attrs) ∈ events /\ Forall attr_ok attrs /\ attr_answer attrs = Some (a, p).
Proof.
  intros Hb Hr H. unfold stun_binding_discover in H.
  destruct (stun_config_resolve config) as [[host port] timeout]. cbn [fst snd].
  destruct (resolve_stun_server os host port) as [server|]; [|done].
  destruct (so_random os) as [transaction_id|]; [|done]. destruct (negb (so_socket os)); [done|].
  destruct (stun_bind_addr os bind_hostport) as [e|b] eqn:Eb.
  { unfold stun_bind_addr in Eb. repeat (case_match; simplify_eq). }
  destruct (negb (so_bind os b)); [done|]. destruct clock as [|start clock]; [done|].
  destruct (stun_rounds _ _ _ _ _ _ _ _) as [[r| |] io] eqn:HR; [|done..].
  assert (r = EXTERNAL_OK a p) as -> by (destruct r; simplify_eq; try done; by destruct (si_saw_error io)).
  apply stun_rounds_genuine in HR as (source & packet & Hin & Hs & Hp). cbn in Hin.
  apply stun_parse_exact in Hp as (attrs & Hok & _ & -> & Ha); [|by eapply Hb|by apply Hr].
  by exists server, transaction_id, source, attrs.
Qed.

(** Datagrams of strangers stretch the call past its timeout: the clock is
    not read for them and the wait they interrupt starts again in full. With any
    number [n] of them the call has waited [n] times the whole retransmission
    wait and still runs, although the timeout is documented as clamped to one
    second. *)
Theorem strangers_outlast_timeout server transaction_id start timeout rto now sends strays :
  Forall (fun e => exists source packet, e = Gram source packet /\ sockaddr_equal source server = false) strays ->
  expired start timeout now = false -> 
  stun_rounds 1 server transaction_id start timeout rto (true :: sends) (MkStunIo [now] strays [] false) =
  (WRunning, MkStunIo [] [] (replicate (length strays) (wait_of start timeout now rto)) false).
Proof.
  intros Hs He. cbn [stun_rounds si_clock]. rewrite He. cbn [negb set_si_clock si_events].
  assert (forall polls, stun_wait server transaction_id start timeout rto strays (wait_of start timeout now rto)
    (MkStunIo [] strays polls false) =
    (WRunning, MkStunIo [] [] (polls ++ replicate (length strays) (wait_of start timeout now rto)) false)) as G.
  { induction Hs as [|e strays (source & packet & -> & Hne) _ IH]; intros polls; cbn [stun_wait length replicate].
    - by rewrite app_nil_r.
    - rewrite Hne. cbn [negb]. unfold set_si_events, note_poll. cbn. rewrite IH. by rewrite <- app_assoc. }
  unfold set_si_clock. cbn. by rewrite G.
Qed.

(** A server, and a reply of it after a datagram of someone else. *)
Definition demo_server : sockaddr_in := mkAddr AF_INET (htons 19302) 67305985.
Definition demo_os : StunOs := {|
  so_addrinfo := fun _ _ => Some [(true, demo_server)]; so_lookup := fun _ => None; so_random := Some (seqZ 0 12);
  so_socket := true; so_bind := fun _ => true |}.
Definition demo_reply : list Z := stun_message (seqZ 0 12) [AXor 134744072 7777].

Lemma stun_discovery_genuine_witness : exists (events : list StunEv) server transaction_id source attrs,
  resolve_stun_server demo_os "stun.l.google.com" 19302 = Some server /\ so_random demo_os = Some transaction_id /\
  sockaddr_equal source server = true /\ Gram source (stun_message transaction_id attrs) ∈ events /\
  Forall attr_ok attrs /\ attr_answer attrs = Some (134744072, 7777).
Proof.
  exists [Gram (mkAddr AF_INET 1 1) demo_reply; Gram demo_server demo_reply].
  apply (stun_discovery_genuine demo_os None "" [true] [1000; 1001]).
  - intros packet source Hin. assert (packet = demo_reply) as ->; [|by apply (bool_decide_unpack _); vm_compute].
    apply elem_of_cons in Hin as [Hin|Hin]; [by simplify_eq|]. apply list_elem_of_singleton in Hin. by simplify_eq.
  - intros t Ht. by injection Ht as <-.
  - by vm_compute.
Defined.
Lemma strangers_outlast_timeout_witness :
  snd (stun_rounds 1 demo_server (seqZ 0 12) 0 750 250 [true]
         (MkStunIo [0] (replicate 100 (Gram (mkAddr AF_INET 1 1) [])) [] false)) =
  MkStunIo [] [] (replicate 100 250) false.
Proof.
  rewrite (strangers_outlast_timeout demo_server (seqZ 0 12) 0 750 250 0 []).
  - by vm_compute.
  - apply Forall_replicate. by exists (mkAddr AF_INET 1 1), [].
  - done.
Defined.
