(* ===== verification/Address.v ===== *)
(** * Local addresses and ports ([src/platform/rnet_address.c])

    Choosing and ordering the machine's IPv4 addresses, the search for a free
    port and the port of an endpoint text. The C library's [qsort] is a
    parameter; the system's interfaces are the list of candidates. *)

From stdpp Require Import base list numbers list_numbers strings sorting.
From S2P Require Import Prelude CStrings Digest Json HostRelayText Transport.

Definition RNET_INTERFACE_LABEL_MAX : Z := 128.
Definition RNET_IPV4_ADDRESS_TEXT_MAX : Z := 16.

Record RNetIpv4Candidate := MkCand { cand_address : Z; cand_label : list Z }.
Record RankedCandidate := MkRanked { rk_candidate : RNetIpv4Candidate; rk_preferred : Z; rk_class : Z }.
Record RNetIpv4Address := MkIpv4Address { ia_address : list Z; ia_label : list Z }.

Definition unnamed : list Z := B "Unnamed interface".
Definition candidate_list_append (items : list RNetIpv4Candidate) (address : Z) (interface_label : list Z)
    : list RNetIpv4Candidate :=
  items ++ [MkCand address (cut_l RNET_INTERFACE_LABEL_MAX
    (if zlen interface_label =? 0 then unnamed else interface_label))].

Definition ipv4_is_usable (address : Z) : bool :=
  let first := Z.shiftr address 24 in
  nz first && (first <? 224) && negb (address =? UINT32_MAX).
Definition ipv4_address_class (address : Z) : Z :=
  if (Z.land address 4278190080 =? 167772160) || (Z.land address 4293918720 =? 2886729728) ||
     (Z.land address 4294901760 =? 3232235520) then 0
  else if Z.land address 4290772992 =? 1681915904 then 1
  else if Z.land address 4294901760 =? 2851995648 then 3
  else if Z.land address 4278190080 =? 2130706432 then 4
  else 2.

(** [strcmp], by the unsigned bytes. *)
Fixpoint strcmp (a b : list Z) : Z :=
  match a, b with
  | [], [] => 0
  | [], _ :: _ => -1
  | _ :: _, [] => 1
  | x :: a, y :: b => if x <? y then -1 else if y <? x then 1 else strcmp a b
  end.
Definition ranked_candidate_compare (lhs rhs : RankedCandidate) : Z :=
  if negb (rk_preferred lhs =? rk_preferred rhs) then rk_preferred rhs - rk_preferred lhs
  else if negb (rk_class lhs =? rk_class rhs) then rk_class lhs - rk_class rhs
  else if cand_address (rk_candidate lhs) <? cand_address (rk_candidate rhs) then -1
  else if cand_address (rk_candidate rhs) <? cand_address (rk_candidate lhs) then 1
  else strcmp (cand_label (rk_candidate lhs)) (cand_label (rk_candidate rhs)).
Definition ipv4_format (address : Z) : list Z :=
  cut_l RNET_IPV4_ADDRESS_TEXT_MAX
    (dotted (Z.land (Z.shiftr address 24) 255) (Z.land (Z.shiftr address 16) 255)
      (Z.land (Z.shiftr address 8) 255) (Z.land address 255)).

(** The first loop: the usable candidates with their ranks. *)
Definition rank (preferred_address : Z) (c : RNetIpv4Candidate) : RankedCandidate :=
  MkRanked (MkCand (cand_address c) (take 127 (cand_label c)))
    (b2z (nz preferred_address && (cand_address c =? preferred_address))) (ipv4_address_class (cand_address c)).
Definition rank_all (preferred_address : Z) (candidates : list RNetIpv4Candidate) : list RankedCandidate :=
  rank preferred_address <$> filter (fun c => ipv4_is_usable (cand_address c) = true) candidates.

(** The last loop: a candidate with the address of the one before it is left
    out. *)
Fixpoint unique_from (last : option Z) (l : list RankedCandidate) : list RNetIpv4Candidate :=
  match l with
  | [] => []
  | r :: l =>
    let c := rk_candidate r in
    if bool_decide (last = Some (cand_address c)) then unique_from last l
    else c :: unique_from (Some (cand_address c)) l
  end.
Definition record_of (c : RNetIpv4Candidate) : RNetIpv4Address :=
  MkIpv4Address (ipv4_format (cand_address c))
    (cut_l RNET_INTERFACE_LABEL_MAX (if zlen (cand_label c) =? 0 then unnamed else cand_label c)).

(** What [qsort] promises. *)
Class QSort (qsort : list RankedCandidate -> list RankedCandidate) := {
  qsort_perm l : qsort l ≡ₚ l;
  qsort_sorted l : Sorted (fun a b => ranked_candidate_compare a b <= 0) (qsort l)
}.

Section Normalize.
Context (qsort : list RankedCandidate -> list RankedCandidate).

Definition unique_candidates (candidates : list RNetIpv4Candidate) (preferred_address : Z) : list RNetIpv4Candidate :=
  let ranked := rank_all preferred_address candidates in
  unique_from None (if (1 <? length ranked)%nat then qsort ranked else ranked).
(** The number of addresses and the records written; [None] is the result
    -1. [mem] says whether the working array could be allocated. *)
Definition rnet_ipv4_normalize_candidates (mem : bool) (candidates : list RNetIpv4Candidate)
    (preferred_address capacity : Z) : option (Z * list RNetIpv4Address) :=
  if 2147483647 <? zlen candidates then None
  else if nz (zlen candidates) && negb mem then None
  else let u := unique_candidates candidates preferred_address in
       Some (zlen u, record_of <$> take (Z.to_nat capacity) u).

(** [getifaddrs]: the interfaces with an IPv4 address that are up. *)
Record Interface := MkIface { if_address : option Z; if_up : bool; if_name : list Z }.
Definition collect_platform_candidates (interfaces : list Interface) : list RNetIpv4Candidate :=
  fold_left (fun items i =>
    match if_address i with
    | Some a => if if_up i then candidate_list_append items a (if_name i) else items
    | None => items
    end) interfaces [].
Definition rnet_ipv4_enumerate (mem : bool) (interfaces : option (list Interface)) (default_route_source capacity : Z)
    : option (Z * list RNetIpv4Address) :=
  match interfaces with
  | None => None
  | Some l => rnet_ipv4_normalize_candidates mem (collect_platform_candidates l) default_route_source capacity
  end.
End Normalize.

(** ** Ports *)

(** [can_bind]: whether the system lets a socket have the port. *)
Definition rnet_udp_port_available (can_bind : Z -> bool) (port : Z) : bool :=
  if (port <=? 0) || (65535 <? port) then false else can_bind port.
Fixpoint find_free (can_bind : Z -> bool) (n : nat) (port : Z) : option Z :=
  match n with
  | O => None
  | S n =>
    if 65535 <? port then None
    else if rnet_udp_port_available can_bind port then Some port
    else find_free can_bind n (port + 1)
  end.
(** [None] is the result -1. *)
Definition rnet_udp_find_free_port (can_bind : Z -> bool) (preferred span : Z) : option Z :=
  let preferred := if (preferred <=? 0) || (65535 <? preferred) then 7777 else preferred in
  let span := if span <=? 0 then 32 else span in
  find_free can_bind (Z.to_nat span) preferred.

Definition endpoint_host (endpoint : string) : string :=
  match rnet_os_parse_hostport endpoint 64 with
  | Some (parsed_host, _) => snprintf_s 64 parsed_host
  | None =>
    if String.prefix ":" endpoint || String.eqb endpoint "" then "0.0.0.0"
    else
      let host := match split_colon endpoint with
        | None => snprintf_s 64 endpoint
        | Some (h, _) => cut 63 h
        end in
      if String.eqb host "" then "0.0.0.0" else host
  end.
(** The new text and the result; the buffer is written even where it is too
    small. *)
Definition rnet_endpoint_set_port (endpoint : string) (cap port : Z) : bool * string :=
  if (cap <? 4) || (port <=? 0) || (65535 <? port) then (false, endpoint)
  else
    let text := (endpoint_host endpoint ++ ":" ++ print_dec port)%string in
    (Z.of_nat (String.length text) <? cap, snprintf_s (Z.to_nat cap) text).

(** * Theorems on local addresses and ports *)


(** ** The order of the addresses *)

(** The documented order: the default route's source first, then by kind of
    network, then by number. *)
Definition addr_lt (preferred a b : Z) : Prop :=
  let pa := b2z (nz preferred && (a =? preferred)) in
  let pb := b2z (nz preferred && (b =? preferred)) in
  pb < pa \/ pa = pb /\ (ipv4_address_class a < ipv4_address_class b \/
                         ipv4_address_class a = ipv4_address_class b /\ a < b).

Lemma strcmp_refl a : strcmp a a = 0.
Proof. induction a as [|x a IH]; [done|]. cbn. by rewrite Z.ltb_irrefl. Qed.
Lemma strcmp_trans a : forall b c, strcmp a b <= 0 -> strcmp b c <= 0 -> strcmp a c <= 0.
Proof.
  induction a as [|x a IH]; intros [|y b] [|z c]; cbn; intros H1 H2; try lia.
  destruct (Z.ltb_spec x y), (Z.ltb_spec y z), (Z.ltb_spec x z), (Z.ltb_spec y x), (Z.ltb_spec z y), (Z.ltb_spec z x);
    try lia. by eapply IH.
Qed.

Definition ranked_ok (preferred : Z) (r : RankedCandidate) : Prop :=
  rk_preferred r = b2z (nz preferred && (cand_address (rk_candidate r) =? preferred)) /\
  rk_class r = ipv4_address_class (cand_address (rk_candidate r)).
#[local] Abbreviation addr r := (cand_address (rk_candidate r)).
#[local] Abbreviation label r := (cand_label (rk_candidate r)).
Definition ranked_le (a b : RankedCandidate) : Prop := ranked_candidate_compare a b <= 0.

Lemma ranked_le_spec preferred a b : ranked_ok preferred a -> ranked_ok preferred b ->
  ranked_le a b <-> addr_lt preferred (addr a) (addr b) \/ addr a = addr b /\ strcmp (label a) (label b) <= 0.
Proof.
  intros [Pa Ca] [Pb Cb]. unfold ranked_le, ranked_candidate_compare, addr_lt. rewrite Pa, Pb, Ca, Cb.
  set (pa := b2z _). set (pb := b2z (_ && (addr b =? _))).
  assert (addr a = addr b -> pa = pb /\ ipv4_address_class (addr a) = ipv4_address_class (addr b)) as S.
  { intros E. subst pa pb. by rewrite E. }
  clearbody pa pb.
  destruct (Z.eqb_spec pa pb); cbn [negb]; [|intuition lia].
  destruct (Z.eqb_spec (ipv4_address_class (addr a)) (ipv4_address_class (addr b))); cbn [negb]; [|intuition lia].
  destruct (Z.ltb_spec (addr a) (addr b)); [intuition lia|]. destruct (Z.ltb_spec (addr b) (addr a)); intuition lia.
Qed.
Lemma addr_lt_trans preferred a b c : addr_lt preferred a b -> addr_lt preferred b c -> addr_lt preferred a c.
Proof. unfold addr_lt. cbn. lia. Qed.
Lemma addr_lt_irrefl preferred a : ~ addr_lt preferred a a.
Proof. unfold addr_lt. cbn. lia. Qed.

(** Sorted by the comparison means sorted by address, each run of one address
    by its labels. *)
Lemma sorted_strongly preferred l : Forall (ranked_ok preferred) l ->
  Sorted ranked_le l -> StronglySorted ranked_le l.
Proof.
  intros Hok Hs. induction Hs as [|r l Hs IH Hh]; [constructor|].
  apply Forall_cons in Hok as [Hr Hok]. specialize (IH Hok). constructor; [done|].
  destruct Hh as [|r' l Hle]; [constructor|]. constructor; [done|].
  apply StronglySorted_inv in IH as [_ IH]. apply Forall_cons in Hok as [Hr' Hok].
  rewrite Forall_forall in IH, Hok |- *. intros x Hx. specialize (IH x Hx). specialize (Hok x Hx).
  apply (ranked_le_spec preferred) in Hle, IH; [|done..]. apply (ranked_le_spec preferred); [done..|].
  destruct Hle as [H1|[H1 L1]], IH as [H2|[H2 L2]].
  - left. by eapply addr_lt_trans.
  - left. by rewrite <- H2.
  - left. by rewrite H1.
  - right. split; [congruence|]. by eapply strcmp_trans.
Qed.

(** What the last loop keeps of a sorted run: each address once, in order,
    with its first label. *)
Lemma unique_from_spec preferred l : Forall (ranked_ok preferred) l -> StronglySorted ranked_le l ->
  forall last, (forall a, last = Some a -> Forall (fun r => addr r = a \/ addr_lt preferred a (addr r)) l) ->
  let u := unique_from last l in
  StronglySorted (addr_lt preferred) (cand_address <$> u) /\
  (forall a, last = Some a -> Forall (fun c => addr_lt preferred a (cand_address c)) u) /\
  (forall c, c ∈ u -> last <> Some (cand_address c) /\ exists r, r ∈ l /\ c = rk_candidate r /\
     forall r', r' ∈ l -> addr r' = cand_address c -> strcmp (cand_label c) (label r') <= 0) /\
  (forall r, r ∈ l -> last <> Some (addr r) -> exists c, c ∈ u /\ cand_address c = addr r).
Proof.
  intros Hok Hs. induction Hs as [|r l Hs IH Hr]; intros last Hlast.
  { cbn. split_and!; [constructor|by constructor|by intros c ?%elem_of_nil|by intros r ?%elem_of_nil]. }
  apply Forall_cons in Hok as [Hrk Hok].
  assert (forall x, x ∈ l -> addr_lt preferred (addr r) (addr x) \/ addr r = addr x /\ strcmp (label r) (label x) <= 0) as Hle.
  { intros x Hx. rewrite Forall_forall in Hr, Hok. apply ranked_le_spec; [done|by apply Hok|by apply Hr]. }
  cbn [unique_from]. case_bool_decide as E.
  - destruct (IH Hok last) as (S1 & S2 & S3 & S4).
    { intros a Ha. specialize (Hlast a Ha). by apply Forall_cons in Hlast as [_ ?]. }
    split_and!; [done|done|..].
    + intros c Hc. destruct (S3 c Hc) as (Hn & r0 & Hin & -> & Hmin). split; [done|].
      exists r0. split_and!; [by right|done|]. intros r' Hr' Ea. apply elem_of_cons in Hr' as [->|Hr']; [congruence|by apply Hmin].
    + intros r0 Hr0 Hn. apply elem_of_cons in Hr0 as [->|Hr0]; [congruence|by apply S4].
  - destruct (IH Hok (Some (addr r))) as (S1 & S2 & S3 & S4).
    { intros a [= <-]. apply Forall_forall. intros x Hx. destruct (Hle x Hx) as [|[-> _]]; [by right|by left]. }
    specialize (S2 _ eq_refl).
    split_and!.
    + cbn. constructor; [done|]. by rewrite Forall_fmap.
    + intros a Ha. specialize (Hlast a Ha). apply Forall_cons in Hlast as [[Hl|Hl] _]; [congruence|].
      constructor; [done|]. eapply Forall_impl; [exact S2|]. intros c Hc. by eapply addr_lt_trans.
    + intros c Hc. apply elem_of_cons in Hc as [->|Hc].
      * split; [done|]. exists r. split_and!; [by left|done|]. intros r' Hr' Ea.
        apply elem_of_cons in Hr' as [->|Hr']; [by rewrite strcmp_refl|].
        destruct (Hle r' Hr') as [Hlt|[_ ?]]; [|done]. rewrite Ea in Hlt. by apply addr_lt_irrefl in Hlt.
      * destruct (S3 c Hc) as (Hn & r0 & Hin & -> & Hmin).
        rewrite Forall_forall in S2. specialize (S2 _ Hc).
        split.
        { intros Hl. specialize (Hlast _ Hl). apply Forall_cons in Hlast as [[He|Hlt] _]; [congruence|].
          eapply addr_lt_irrefl, addr_lt_trans; [exact S2|done]. }
        exists r0. split_and!; [by right|done|]. intros r' Hr' Ea.
        apply elem_of_cons in Hr' as [->|Hr']; [congruence|by apply Hmin].
    + intros r0 Hr0 Hn. apply elem_of_cons in Hr0 as [->|Hr0]; [exists (rk_candidate r); split; [by left|done]|].
      destruct (decide (addr r0 = addr r)) as [Ea|Ea]; [exists (rk_candidate r); split; [by left|done]|].
      destruct (S4 r0 Hr0) as (c & Hc & ?); [congruence|]. exists c. split; [by right|done].
Qed.

(** The list of local addresses, for any [qsort] that sorts: with memory
    for its working array the call returns the number of usable addresses and
    writes the first [capacity] of them; every usable address among the
    candidates is there exactly once, in the documented order (default route's
    source, private, shared, public, link-local, loopback; by number within a
    kind), under the least of its interfaces' names. *)
Theorem addresses_in_order `{QSort qsort} candidates preferred capacity : zlen candidates <= 2147483647 ->
  exists u, rnet_ipv4_normalize_candidates qsort true candidates preferred capacity =
              Some (zlen u, record_of <$> take (Z.to_nat capacity) u) /\
    StronglySorted (addr_lt preferred) (cand_address <$> u) /\ NoDup (cand_address <$> u) /\
    (forall a, a ∈ cand_address <$> u <-> ipv4_is_usable a = true /\ a ∈ cand_address <$> candidates) /\
    (forall c, c ∈ u -> exists c0, c0 ∈ candidates /\ c = MkCand (cand_address c0) (take 127 (cand_label c0)) /\
       forall c', c' ∈ candidates -> cand_address c' = cand_address c -> strcmp (cand_label c) (take 127 (cand_label c')) <= 0).
Proof.
  intros Hl. exists (unique_candidates qsort candidates preferred). split.
  { unfold rnet_ipv4_normalize_candidates. destruct (Z.ltb_spec 2147483647 (zlen candidates)); [lia|].
    by rewrite andb_false_r. }
  unfold unique_candidates. set (ranked := rank_all preferred candidates).
  set (l := if (1 <? length ranked)%nat then qsort ranked else ranked).
  assert (l ≡ₚ ranked /\ Sorted ranked_le l) as [Hp Hs].
  { subst l. destruct (Nat.ltb_spec 1 (length ranked)) as [|L]; [split; [apply qsort_perm|apply qsort_sorted]|].
    split; [done|]. destruct ranked as [|r [|]]; [constructor|by repeat constructor|cbn in L; lia]. }
  assert (forall r, r ∈ l <-> exists c, c ∈ candidates /\ ipv4_is_usable (cand_address c) = true /\ r = rank preferred c) as Hin.
  { intros r. rewrite Hp. subst ranked. unfold rank_all. rewrite list_elem_of_fmap. setoid_rewrite list_elem_of_filter.
    split; [intros (c & -> & Hu & Hc)|intros (c & Hc & Hu & ->)]; by exists c. }
  assert (Forall (ranked_ok preferred) l) as Hok.
  { apply Forall_forall. intros r (c & _ & _ & ->)%Hin. done. }
  destruct (unique_from_spec preferred l Hok (sorted_strongly _ _ Hok Hs) None) as (S1 & _ & S3 & S4); [done|].
  set (u := unique_from None l) in *.
  split_and!; [done| | |].
  - clear -S1. induction S1 as [|a la S1 IH Hf]; [constructor|]. constructor; [|done].
    intros Ha. rewrite Forall_forall in Hf. by eapply addr_lt_irrefl, Hf.
  - intros a. rewrite !list_elem_of_fmap. split.
    + intros (c & -> & Hc). destruct (S3 c Hc) as (_ & r & (c0 & Hc0 & Hu & ->)%Hin & -> & _). cbn. split; [done|by exists c0].
    + intros [Hu (c & -> & Hc)]. destruct (S4 (rank preferred c)) as (c' & Hc' & E); [apply Hin; by exists c|done|].
      exists c'. by cbn in E.
  - intros c Hc. destruct (S3 c Hc) as (_ & r & (c0 & Hc0 & Hu & ->)%Hin & -> & Hmin). exists c0. split_and!; [done..|].
    intros c' Hc' E. cbn in E. apply (Hmin (rank preferred c')); [|done]. apply Hin. exists c'. by rewrite E.
Qed.

(** A sort to run it with. *)
#[export] Instance ranked_le_dec : RelDecision ranked_le.
Proof. intros a b. unfold ranked_le. apply _. Defined.
Lemma strcmp_antisym a : forall b, strcmp a b <= 0 \/ strcmp b a <= 0.
Proof.
  induction a as [|x a IH]; intros [|y b]; cbn; try lia.
  destruct (Z.ltb_spec x y), (Z.ltb_spec y x); try lia. apply IH.
Qed.
#[export] Instance ranked_le_total : Total ranked_le.
Proof.
  intros a b. unfold ranked_le, ranked_candidate_compare.
  destruct (Z.eqb_spec (rk_preferred a) (rk_preferred b)) as [->|]; rewrite ?Z.eqb_refl; cbn [negb];
    [|destruct (Z.eqb_spec (rk_preferred b) (rk_preferred a)); cbn [negb]; lia].
  destruct (Z.eqb_spec (rk_class a) (rk_class b)) as [->|]; rewrite ?Z.eqb_refl; cbn [negb];
    [|destruct (Z.eqb_spec (rk_class b) (rk_class a)); cbn [negb]; lia].
  destruct (Z.ltb_spec (addr a) (addr b)), (Z.ltb_spec (addr b) (addr a)); try lia. apply strcmp_antisym.
Qed.
#[export] Instance merge_qsort : QSort (merge_sort ranked_le).
Proof. split; intros l; [apply merge_sort_Permutation|apply Sorted_merge_sort, _]. Qed.

Lemma addresses_in_order_witness :
  let c a := MkCand a (B "eth0") in
  exists u, rnet_ipv4_normalize_candidates (merge_sort ranked_le) true [c 2130706433; c 167772165; c 3232235786; c 167772165; c 0]
    3232235786 8 = Some (zlen u, record_of <$> take 8 u) /\ NoDup (cand_address <$> u) /\
    (ia_address <$> (record_of <$> take 8 u)) = [B "192.168.1.10"; B "10.0.0.5"; B "127.0.0.1"].
Proof.
  intros c.
  destruct (addresses_in_order [c 2130706433; c 167772165; c 3232235786; c 167772165; c 0] 3232235786 8) as (u & E & _ & Hn & _);
    [by vm_compute|].
  exists u. split; [exact E|]. split; [done|].
  assert (Some (record_of <$> take 8 u) = Some ((fun a => MkIpv4Address (B a) (B "eth0")) <$> ["192.168.1.10"; "10.0.0.5"; "127.0.0.1"]%string)) as E2.
  { change (Some (record_of <$> take 8 u)) with (snd <$> Some (zlen u, record_of <$> take (Z.to_nat 8) u)). rewrite <- E. by vm_compute. }
  injection E2 as ->. by vm_compute.
Defined.

(** ** Ports and endpoints *)

(** The port found is free and no earlier port of the range is. *)
Lemma find_free_spec can_bind n : forall port, 0 < port ->
  match find_free can_bind n port with
  | Some p => port <= p < port + Z.of_nat n /\ p <= 65535 /\ can_bind p = true /\ forall q, port <= q < p -> can_bind q = false
  | None => forall q, port <= q < port + Z.of_nat n -> q <= 65535 -> can_bind q = false
  end.
Proof.
  induction n as [|n IH]; intros port Hp; cbn [find_free]; [intros q; lia|].
  destruct (Z.ltb_spec 65535 port); [intros q; lia|].
  unfold rnet_udp_port_available.
  destruct (Z.leb_spec port 0), (Z.ltb_spec 65535 port); try lia. cbn [orb].
  destruct (can_bind port) eqn:E; [split_and!; [lia..|done|intros q; lia]|].
  specialize (IH (port + 1) ltac:(lia)). destruct (find_free _ _ _) as [p|].
  - destruct IH as (? & ? & ? & Hq). split_and!; [lia..|done|]. intros q Hqr.
    destruct (decide (q = port)) as [->|]; [done|]. apply Hq. lia.
  - intros q Hqr Hq. destruct (decide (q = port)) as [->|]; [done|]. apply IH; lia.
Qed.

Lemma split_colon_digits fuel : forall n acc, 0 <= n -> split_colon acc = None -> split_colon (dec_digits fuel n acc) = None.
Proof.
  induction fuel as [|fuel IH]; intros n acc Hn Ha; [done|]. cbn [dec_digits].
  assert (forall d, 0 <= d < 10 -> split_colon (String (digit d) acc) = None) as K.
  { intros d Hd. cbn [split_colon]. rewrite Ha, ch_digit by done. by destruct (Z.eqb_spec (48 + d) 58); [lia|]. }
  destruct (Z.ltb_spec n 10); [apply K; lia|].
  apply IH; [apply Z.div_pos; lia|]. apply K. apply Z.mod_pos_bound. lia.
Qed.
Lemma split_colon_app h p : split_colon p = None -> split_colon (h ++ ":" ++ p)%string = Some (h, p).
Proof.
  intros Hp. induction h as [|c h IH].
  - change (match split_colon p with Some (a, b) => Some (String (Ascii.ascii_of_nat 58) a, b) | None => Some (EmptyString, p) end = Some (EmptyString, p)).
    by rewrite Hp.
  - change (match split_colon (h ++ ":" ++ p)%string with
            | Some (a, b) => Some (String c a, b)
            | None => if ch c =? 58 then Some (EmptyString, (h ++ ":" ++ p)%string) else None end = Some (String c h, p)).
    by rewrite IH.
Qed.
Lemma length_colon a b : String.length (a ++ ":" ++ b)%string = (String.length a + 1 + String.length b)%nat.
Proof. induction a as [|c a IH]; [done|]. change (S (String.length (a ++ ":" ++ b)%string) = S (String.length a + 1 + String.length b)). lia. Qed.
Lemma cut_id n s : (String.length s <= n)%nat -> cut n s = s.
Proof.
  unfold cut. revert n. induction s as [|c s IH]; intros [|n] H; cbn in *; try done; try lia. by rewrite IH by lia.
Qed.

Lemma print_dec_port_len p : 1 <= p <= 65535 -> (String.length (print_dec p) <= 5)%nat.
Proof. intros H. apply (dec_digits_len 20 p 4 EmptyString). change (10 ^ Z.of_nat 5) with 100000. lia. Qed.

(** Changing the port of an endpoint: for every text that parses as
    [host:port] (with a host of at most 63 characters), a port from 1 to 65535
    and a buffer that holds the result, the call succeeds, and reading the new
    text gives the same host and the new port. *)
Theorem set_port_reads_back endpoint host old port cap : rnet_os_parse_hostport endpoint 64 = Some (host, old) ->
  1 <= port <= 65535 -> Z.of_nat (String.length host) + 7 <= cap ->
  exists text, rnet_endpoint_set_port endpoint cap port = (true, text) /\ rnet_os_parse_hostport text 64 = Some (host, port).
Proof.
  intros He Hp Hc. unfold rnet_endpoint_set_port, endpoint_host. rewrite He.
  assert (Z.of_nat (String.length host) < 64 /\ host <> ""%string) as [Hl Hne].
  { unfold rnet_os_parse_hostport in He. destruct (split_colon endpoint) as [[h q]|]; [|done].
    destruct (Z.leb_spec 64 (Z.of_nat (String.length h))); [done|]. destruct (strtoul q) as [[n []]|]; try done.
    destruct (65535 <? n); [done|]. destruct (String.eqb_spec h ""); simplify_eq; [by cbn|done]. }
  unfold snprintf_s. rewrite (cut_id (64 - 1) host) by (cbn; lia).
  assert (String.length (print_dec port) <= 5)%nat as L5 by by apply print_dec_port_len.
  set (text := (host ++ ":" ++ print_dec port)%string).
  assert (String.length text = String.length host + 1 + String.length (print_dec port))%nat as Lt.
  { subst text. by rewrite !length_colon. }
  destruct (Z.ltb_spec cap 4), (Z.leb_spec port 0), (Z.ltb_spec 65535 port); try lia. cbn [orb].
  destruct (Z.ltb_spec (Z.of_nat (String.length text)) cap); [|lia].
  rewrite (cut_id _ text) by lia. exists text. split; [done|].
  unfold rnet_os_parse_hostport. unfold text.
  rewrite split_colon_app by (apply split_colon_digits; [lia|done]).
  destruct (Z.leb_spec 64 (Z.of_nat (String.length host))); [lia|].
  rewrite print_dec_strtoul by lia. destruct (Z.ltb_spec 65535 port); [lia|]. by destruct (String.eqb_spec host "").
Qed.
Lemma set_port_reads_back_witness : exists text,
  rnet_endpoint_set_port "192.168.1.10:7777" 64 7801 = (true, text) /\ rnet_os_parse_hostport text 64 = Some ("192.168.1.10"%string, 7801).
Proof. apply (set_port_reads_back _ _ 7777); [by vm_compute|lia|by vm_compute]. Defined.
