(* ===== verification/HostRelay.v ===== *)
(** * Host relay: making the game port reachable ([src/nat/rnet_host_relay.c])

    The host's port with its discovery stages, the HTTP exchange they use, the
    guest's probe, and the orchestration of the two. The system is a record of
    what its calls will answer: clock readings one after the other, the
    datagrams each socket has, the progress of the stream socket. Where such a
    list is used up nothing more arrives. *)

From stdpp Require Import base list numbers list_numbers strings.
From S2P Require Import Prelude CStrings Digest Json HostRelayText Transport Stun StateM.

Inductive HrSock := GameSock | SsdpSock | PmpSock | UnmapSock | ProbeSock.
#[export] Instance hrsock_eq_dec : EqDecision HrSock.
Proof. solve_decision. Defined.

(** One [send] and one [recv] of the stream socket. *)
Inductive TcpSend := TSent (n : Z) | TBlock | TErr.
Inductive TcpRecv := TGot (data : list Z) | TEof | TRBlock | TRErr.

Record HrWorld := MkWorld {
  w_clock : nat -> Z;                           (* the readings of the monotonic clock *)
  w_ticks : nat;                                (* how many were taken *)
  w_grams : HrSock -> list (option (list Z * sockaddr_in));  (* what [recvfrom] returns *)
  w_sent : list (HrSock * list Z * sockaddr_in);
  w_connects : list bool;                       (* a stream socket was made and its connect began *)
  w_ready : list Z;                             (* [sock_ready] *)
  w_sends : list TcpSend;
  w_recvs : list TcpRecv;
  w_lookup : string -> option Z;
  w_bind : Z -> bool;                           (* a datagram socket can have the port *)
  w_random : list (option (list Z));
  w_gateway : option (list Z);
  w_local_ip : list Z -> option (list Z);
  w_env : string -> list Z;                     (* empty where unset *)
  w_requests : list (list Z)                    (* HTTP requests begun *)
}.
Definition eta_w (w : HrWorld) : HrWorld :=
  MkWorld (w_clock w) (w_ticks w) (w_grams w) (w_sent w) (w_connects w) (w_ready w) (w_sends w) (w_recvs w)
    (w_lookup w) (w_bind w) (w_random w) (w_gateway w) (w_local_ip w) (w_env w) (w_requests w).
Definition set_w_ticks := ltac:(updater eta_w w_ticks).
Definition set_w_grams := ltac:(updater eta_w w_grams).
Definition set_w_sent := ltac:(updater eta_w w_sent).
Definition set_w_connects := ltac:(updater eta_w w_connects).
Definition set_w_ready := ltac:(updater eta_w w_ready).
Definition set_w_sends := ltac:(updater eta_w w_sends).
Definition set_w_recvs := ltac:(updater eta_w w_recvs).
Definition set_w_random := ltac:(updater eta_w w_random).
Definition set_w_requests := ltac:(updater eta_w w_requests).

(** ** The HTTP exchange *)

Inductive HttpState := HTTP_IDLE | HTTP_CONNECTING | HTTP_SENDING | HTTP_RECEIVING | HTTP_DONE | HTTP_FAILED.
#[export] Instance httpstate_eq_dec : EqDecision HttpState.
Proof. solve_decision. Defined.
Definition HTTP_RESP_CAP : Z := 65536.
Record HrHttp := MkHttp {
  h_state : HttpState;
  h_open : bool;               (* the socket is valid *)
  h_req : list Z;
  h_req_off : Z;
  h_resp : list Z;
  h_content_length : Z;
  h_header_len : Z;
  h_deadline_ms : Z;
  h_status : Z
}.
Definition eta_h (h : HrHttp) : HrHttp :=
  MkHttp (h_state h) (h_open h) (h_req h) (h_req_off h) (h_resp h) (h_content_length h) (h_header_len h)
    (h_deadline_ms h) (h_status h).
Definition set_h_state := ltac:(updater eta_h h_state).
Definition set_h_open := ltac:(updater eta_h h_open).
Definition set_h_req := ltac:(updater eta_h h_req).
Definition set_h_req_off := ltac:(updater eta_h h_req_off).
Definition set_h_resp := ltac:(updater eta_h h_resp).
Definition set_h_content_length := ltac:(updater eta_h h_content_length).
Definition set_h_header_len := ltac:(updater eta_h h_header_len).
Definition set_h_deadline_ms := ltac:(updater eta_h h_deadline_ms).
Definition set_h_status := ltac:(updater eta_h h_status).

Definition http_reset (h : HrHttp) : HrHttp :=
  MkHttp HTTP_IDLE false [] 0 [] 0 0 (h_deadline_ms h) 0.

(** ** The port *)

Inductive HpStage := HP_UPNP_DISCOVER | HP_UPNP_DESC | HP_UPNP_ADD | HP_UPNP_EXTIP | HP_NATPMP_ADDR | HP_NATPMP_MAP
  | HP_STUN | HP_DONE.
#[export] Instance hpstage_eq_dec : EqDecision HpStage.
Proof. solve_decision. Defined.

Record RNetHostPortStatus := MkPortStatus {
  ps_done : bool;
  ps_endpoint : list Z;
  ps_how : list Z;
  ps_stage : list Z;
  ps_detail : list Z;
  ps_local_port : Z;
  ps_probes_answered : Z
}.
Definition eta_ps (p : RNetHostPortStatus) : RNetHostPortStatus :=
  MkPortStatus (ps_done p) (ps_endpoint p) (ps_how p) (ps_stage p) (ps_detail p) (ps_local_port p) (ps_probes_answered p).
Definition set_ps_done := ltac:(updater eta_ps ps_done).
Definition set_ps_endpoint := ltac:(updater eta_ps ps_endpoint).
Definition set_ps_how := ltac:(updater eta_ps ps_how).
Definition set_ps_stage := ltac:(updater eta_ps ps_stage).
Definition set_ps_detail := ltac:(updater eta_ps ps_detail).
Definition set_ps_local_port := ltac:(updater eta_ps ps_local_port).
Definition set_ps_probes_answered := ltac:(updater eta_ps ps_probes_answered).
Definition port_status_zero : RNetHostPortStatus := MkPortStatus false [] [] [] [] 0 0.

(** The game socket is open as long as the record exists. The world comes
    along with it. *)
Record RNetHostPort := MkHostPort {
  hp_ssdp : bool;
  hp_pmp : bool;
  hp_http : HrHttp;
  hp_stage : HpStage;
  hp_try_router : bool;
  hp_stage_deadline_ms : Z;
  hp_stun_next_ms : Z;
  hp_stun_tries : Z;
  hp_stun_txid : list Z;
  hp_stun_to : sockaddr_in;
  hp_stun_hostport : list Z;
  hp_location : list Z;
  hp_control_url : list Z;
  hp_service_type : list Z;
  hp_local_ip : list Z;
  hp_gateway : list Z;
  hp_pmp_ext_ip : list Z;
  hp_pmp_to : sockaddr_in;
  hp_mapped_port : Z;
  hp_natpmp_mapped : bool;
  hp_st : RNetHostPortStatus;
  hp_w : HrWorld
}.
Definition eta_hp (p : RNetHostPort) : RNetHostPort :=
  MkHostPort (hp_ssdp p) (hp_pmp p) (hp_http p) (hp_stage p) (hp_try_router p) (hp_stage_deadline_ms p)
    (hp_stun_next_ms p) (hp_stun_tries p) (hp_stun_txid p) (hp_stun_to p) (hp_stun_hostport p) (hp_location p)
    (hp_control_url p) (hp_service_type p) (hp_local_ip p) (hp_gateway p) (hp_pmp_ext_ip p) (hp_pmp_to p)
    (hp_mapped_port p) (hp_natpmp_mapped p) (hp_st p) (hp_w p).
Definition set_hp_ssdp := ltac:(updater eta_hp hp_ssdp).
Definition set_hp_pmp := ltac:(updater eta_hp hp_pmp).
Definition set_hp_http := ltac:(updater eta_hp hp_http).
Definition set_hp_stage_field := ltac:(updater eta_hp hp_stage).
Definition set_hp_stage_deadline_ms := ltac:(updater eta_hp hp_stage_deadline_ms).
Definition set_hp_stun_next_ms := ltac:(updater eta_hp hp_stun_next_ms).
Definition set_hp_stun_tries := ltac:(updater eta_hp hp_stun_tries).
Definition set_hp_stun_txid := ltac:(updater eta_hp hp_stun_txid).
Definition set_hp_stun_to := ltac:(updater eta_hp hp_stun_to).
Definition set_hp_location := ltac:(updater eta_hp hp_location).
Definition set_hp_control_url := ltac:(updater eta_hp hp_control_url).
Definition set_hp_service_type := ltac:(updater eta_hp hp_service_type).
Definition set_hp_local_ip := ltac:(updater eta_hp hp_local_ip).
Definition set_hp_gateway := ltac:(updater eta_hp hp_gateway).
Definition set_hp_pmp_ext_ip := ltac:(updater eta_hp hp_pmp_ext_ip).
Definition set_hp_pmp_to := ltac:(updater eta_hp hp_pmp_to).
Definition set_hp_mapped_port := ltac:(updater eta_hp hp_mapped_port).
Definition set_hp_natpmp_mapped := ltac:(updater eta_hp hp_natpmp_mapped).
Definition set_hp_st := ltac:(updater eta_hp hp_st).
Definition set_hp_w := ltac:(updater eta_hp hp_w).

(** ** Calls of the system *)

Abbreviation HM := (M RNetHostPort).
Definition modify_w (f : HrWorld -> HrWorld) : HM unit := modify (fun p => set_hp_w (f (hp_w p)) p).
(** The calls on the world, and lifted to the port. *)
Definition clock_read (w : HrWorld) : Z * HrWorld := (w_clock w (w_ticks w), set_w_ticks (S (w_ticks w)) w).
Definition set_grams (s : HrSock) (l : list (option (list Z * sockaddr_in))) (w : HrWorld) : HrWorld :=
  set_w_grams (fun s' => if decide (s' = s) then l else w_grams w s') w.
(** [rnet_os_recvfrom] into a buffer of [cap] bytes: [None] where it returns
    0 or less. *)
Definition w_recvfrom (s : HrSock) (cap : Z) (w : HrWorld) : option (list Z * sockaddr_in) * HrWorld :=
  match w_grams w s with
  | [] => (None, w)
  | g :: rest =>
    (match g with
     | Some (data, from) => let data := take (Z.to_nat cap) data in if zlen data =? 0 then None else Some (data, from)
     | None => None
     end, set_grams s rest w)
  end.
Definition w_sendto (s : HrSock) (data : list Z) (to : sockaddr_in) (w : HrWorld) : HrWorld :=
  set_w_sent (w_sent w ++ [(s, data, to)]) w.
Definition w_random_bytes (w : HrWorld) : option (list Z) * HrWorld :=
  match w_random w with [] => (None, w) | r :: rest => (r, set_w_random rest w) end.
Definition lift_w {A} (f : HrWorld -> A * HrWorld) : HM A :=
  fun p => let '(a, w) := f (hp_w p) in (a, set_hp_w w p).
Definition now : HM Z := lift_w clock_read.
Definition recvfrom (s : HrSock) (cap : Z) : HM (option (list Z * sockaddr_in)) := lift_w (w_recvfrom s cap).
Definition sendto (s : HrSock) (data : list Z) (to : sockaddr_in) : HM unit := modify_w (w_sendto s data to).
Definition random_bytes : HM (option (list Z)) := lift_w w_random_bytes.
Definition resolve (host : list Z) (port : Z) : HM (option sockaddr_in) :=
  gets (fun p => rnet_os_resolve_sockaddr (w_lookup (hp_w p)) (string_of host) port).
Definition modify_http (f : HrHttp -> HrHttp) : HM unit := modify (fun p => set_hp_http (f (hp_http p)) p).

(** ** HTTP *)

Definition http_text (path host : list Z) (port : Z) (soap_action : option (list Z)) (body : list Z) : list Z :=
  match soap_action with
  | Some action =>
    B "POST " ++ path ++ B " HTTP/1.1" ++ [13; 10] ++ B "Host: " ++ host ++ [58] ++ print_l port ++ [13; 10] ++
    B "User-Agent: recomp-net" ++ [13; 10] ++ B "Content-Type: text/xml; charset=" ++ quoted (B "utf-8") ++ [13; 10] ++
    B "SOAPAction: " ++ quoted action ++ [13; 10] ++ B "Content-Length: " ++ print_l (zlen body) ++ [13; 10] ++
    B "Connection: close" ++ [13; 10; 13; 10] ++ body
  | None =>
    B "GET " ++ path ++ B " HTTP/1.1" ++ [13; 10] ++ B "Host: " ++ host ++ [58] ++ print_l port ++ [13; 10] ++
    B "User-Agent: recomp-net" ++ [13; 10] ++ B "Accept: text/xml" ++ [13; 10] ++ B "Connection: close" ++ [13; 10; 13; 10]
  end.
(** Started or not; memory is there. *)
Definition http_begin (url : list Z) (soap_action : option (list Z)) (body : list Z) (timeout_ms : Z) : HM bool :=
  do! modify_http http_reset;
  match url_parts url 128 512 with
  | None => ret false
  | Some (host, port, path) =>
    do to <- resolve host port;
    match to with
    | None => ret false
    | Some _ =>
      let cap := 1024 + zlen path + zlen body + match soap_action with Some a => zlen a | None => 0 end in
      let req := http_text path host port soap_action body in
      if cap <=? zlen req then do! modify_http http_reset; ret false
      else
        do! modify_http (set_h_req req);
        do w <- gets hp_w;
        match w_connects w with
        | true :: rest =>
          do! modify_w (set_w_connects rest);
          do! modify_w (fun w => set_w_requests (w_requests w ++ [req]) w);
          do! modify_http (set_h_open true);
          do t <- now;
          do! modify_http (set_h_deadline_ms (t + (if 0 <? timeout_ms then timeout_ms else 4000)));
          do! modify_http (set_h_state HTTP_CONNECTING);
          ret true
        | rest =>
          do! modify_w (set_w_connects (tail rest));
          do! modify_http http_reset; ret false
        end
    end
  end.

Definition strtoul_l (s : list Z) : Z := match strtoul (string_of s) with Some (n, _) => n | None => 0 end.
Definition http_scan_headers (h : HrHttp) : HrHttp :=
  if nz (h_header_len h) then h
  else match strstr_l [13; 10; 13; 10] (h_resp h) with
       | None => h
       | Some tail =>
         let len := zlen (h_resp h) - zlen tail + 4 in
         let h := set_h_header_len len h in
         match ifind (take (Z.to_nat len) (h_resp h)) (B "content-length:") with
         | Some cl => set_h_content_length (strtoul_l (drop 15 cl)) h
         | None => h
         end
       end.
Definition http_fail (h : HrHttp) : HrHttp := set_h_state HTTP_FAILED (set_h_open false h).
(** The label [finish]. *)
Definition http_finish (h : HrHttp) : HrHttp :=
  let h := http_scan_headers (set_h_open false h) in
  match rnet_hr_http_split (h_resp h) with
  | None => set_h_state HTTP_FAILED h
  | Some (status, _) => set_h_state HTTP_DONE (set_h_status status h)
  end.
(** The send loop: the answers that are left come along. *)
Fixpoint http_send (answers : list TcpSend) (h : HrHttp) : HrHttp * list TcpSend :=
  if h_req_off h <? zlen (h_req h) then
    match answers with
    | [] => (h, [])
    | TSent n :: rest => if 0 <? n then http_send rest (set_h_req_off (h_req_off h + n) h) else (http_fail h, rest)
    | TBlock :: rest => (h, rest)
    | TErr :: rest => (http_fail h, rest)
    end
  else (set_h_state HTTP_RECEIVING h, answers).
Fixpoint http_recv (answers : list TcpRecv) (h : HrHttp) : HrHttp * list TcpRecv :=
  if HTTP_RESP_CAP - 1 <=? zlen (h_resp h) then (http_finish h, answers)
  else match answers with
  | [] => (h, [])
  | TGot data :: rest =>
    let data := take (Z.to_nat (HTTP_RESP_CAP - 1 - zlen (h_resp h))) data in
    if zlen data =? 0 then (http_finish h, rest)
    else
      let h := http_scan_headers (set_h_resp (h_resp h ++ data) h) in
      if nz (h_header_len h) && nz (h_content_length h) && (u64 (h_header_len h + h_content_length h) <=? zlen (h_resp h))
      then (http_finish h, rest) else http_recv rest h
  | TEof :: rest => (http_finish h, rest)
  | TRBlock :: rest => (h, rest)
  | TRErr :: rest => (if nz (h_header_len h) then http_finish h else http_fail h, rest)
  end.
Definition http_state : HM HttpState := gets (fun p => h_state (hp_http p)).
Definition http_pump_recv : HM unit :=
  do p <- gets id;
  if decide (h_state (hp_http p) = HTTP_RECEIVING) then
    let '(h, rest) := http_recv (w_recvs (hp_w p)) (hp_http p) in
    do! modify (set_hp_http h); modify_w (set_w_recvs rest)
  else ret tt.
Definition http_pump_send : HM unit :=
  do p <- gets id;
  if decide (h_state (hp_http p) = HTTP_SENDING) then
    let '(h, rest) := http_send (w_sends (hp_w p)) (hp_http p) in
    do! modify (set_hp_http h); do! modify_w (set_w_sends rest);
    http_pump_recv
  else http_pump_recv.
Definition http_pump : HM HttpState :=
  do st <- http_state;
  if decide (st = HTTP_IDLE \/ st = HTTP_DONE \/ st = HTTP_FAILED) then ret st
  else
    do t <- now;
    do h <- gets hp_http;
    if h_deadline_ms h <? t then
      do! modify_http (if decide (h_state h = HTTP_RECEIVING) then if nz (h_header_len h) then http_finish else http_fail else http_fail);
      http_state
    else if decide (st = HTTP_CONNECTING) then
      do w <- gets hp_w;
      let r := match w_ready w with [] => 0 | r :: _ => r end in
      do! modify_w (set_w_ready (tail (w_ready w)));
      if r <? 0 then do! modify_http http_fail; http_state
      else if r =? 0 then http_state
      else do! modify_http (set_h_state HTTP_SENDING); do! http_pump_send; http_state
    else do! http_pump_send; http_state.
Definition http_body (h : HrHttp) : list Z :=
  if nz (h_header_len h) then upto_c 0 (drop (Z.to_nat (h_header_len h)) (h_resp h)) else [].

(** ** The stages *)

Definition modify_st (f : RNetHostPortStatus -> RNetHostPortStatus) : HM unit := modify (fun p => set_hp_st (f (hp_st p)) p).
Definition hp_set_stage (stage : HpStage) (label : list Z) (budget_ms : Z) : HM unit :=
  do! modify (set_hp_stage_field stage);
  do! modify_st (set_ps_stage (set_str 32 label));
  do t <- now;
  modify (set_hp_stage_deadline_ms (t + budget_ms)).
Definition hp_finish (endpoint how detail : list Z) : HM unit :=
  do! modify_st (set_ps_endpoint (set_str 64 endpoint));
  do! modify_st (set_ps_how (set_str 12 how));
  do! modify_st (set_ps_detail (set_str 200 detail));
  do! modify_st (set_ps_stage (B "done"));
  do! modify_st (set_ps_done true);
  do! modify (set_hp_stage_field HP_DONE);
  do! modify (set_hp_ssdp false);
  do! modify (set_hp_pmp false);
  modify_http http_reset.

Definition no_address : list Z :=
  B "Could not find a public address for this machine: the lobby server will relay the match.".
Definition hp_begin_stun : HM unit :=
  do! hp_set_stage HP_STUN (B "stun") 2000;
  do! modify (set_hp_stun_tries 0);
  do! modify (set_hp_stun_next_ms 0);
  do spec <- gets hp_stun_hostport;
  match rnet_os_parse_hostport (string_of spec) 128 with
  | None => hp_finish [] [] no_address
  | Some (host, port) =>
    if port =? 0 then hp_finish [] [] no_address
    else
      do to <- gets (fun p => rnet_os_resolve_sockaddr (w_lookup (hp_w p)) host port);
      match to with
      | None => hp_finish [] [] no_address
      | Some to =>
        do! modify (set_hp_stun_to to);
        do r <- random_bytes;
        match r with
        | None => hp_finish [] [] no_address
        | Some txid => modify (set_hp_stun_txid txid)
        end
      end
  end.
Definition hp_begin_natpmp : HM unit :=
  do p <- gets id;
  if negb (hp_try_router p) then hp_begin_stun
  else match w_gateway (hp_w p) with
  | None => do! modify (set_hp_gateway []); hp_begin_stun
  | Some gw =>
    do! modify (set_hp_gateway (set_str 48 gw));
    do to <- resolve (set_str 48 gw) 5351;
    match to with
    | None => hp_begin_stun
    | Some to =>
      do! modify (set_hp_pmp_to to);
      if w_bind (hp_w p) 0 then
        do! modify (set_hp_pmp true);
        do! sendto PmpSock [0; 0] to;
        hp_set_stage HP_NATPMP_ADDR (B "nat-pmp") 800
      else hp_begin_stun
    end
  end.
Definition m_search (st : string) : list Z :=
  B "M-SEARCH * HTTP/1.1" ++ [13; 10] ++ B "HOST: 239.255.255.250:1900" ++ [13; 10] ++
  B "MAN: " ++ quoted (B "ssdp:discover") ++ [13; 10] ++ B "MX: 2" ++ [13; 10] ++ B "ST: " ++ B st ++ [13; 10; 13; 10].
Definition hp_begin_upnp : HM unit :=
  do p <- gets id;
  if negb (hp_try_router p) then hp_begin_stun
  else if negb (w_bind (hp_w p) 0) then hp_begin_natpmp
  else
    do d <- resolve (B "239.255.255.250") 1900;
    match d with
    | None => hp_begin_natpmp
    | Some d =>
      do! modify (set_hp_ssdp true);
      do! sendto SsdpSock (m_search "urn:schemas-upnp-org:device:InternetGatewayDevice:1") d;
      do! sendto SsdpSock (m_search "urn:schemas-upnp-org:service:WANIPConnection:1") d;
      hp_set_stage HP_UPNP_DISCOVER (B "upnp") 2500
    end.

(** [udp_create_nonblocking] for each port of the range. *)
Fixpoint first_port (can_bind : Z -> bool) (n : nat) (p : Z) : option Z :=
  match n with
  | O => None
  | S n => if can_bind p then Some p else if p =? 65535 then None else first_port can_bind n (p + 1)
  end.
(** [None] is the result -2; there is memory for the record. *)
Definition rnet_host_port_open (port : Z) (stun_hostport : list Z) (try_router : bool) (w : HrWorld) : option RNetHostPort :=
  let '(lo, hi) := if nz port then (port, port) else (7777, 7808) in
  match first_port (w_bind w) (Z.to_nat (hi - lo + 1)) lo with
  | None => None
  | Some bound =>
    let st := MkPortStatus false [] [] [] (cut_l 200 (B "Opening UDP port " ++ print_l bound ++ B "...")) bound 0 in
    let spec := set_str 128 (if zlen stun_hostport =? 0 then B "stun.l.google.com:19302" else stun_hostport) in
    let router := try_router && negb (rd 0 (w_env w "RNET_HOST_RELAY_NO_ROUTER") 0 =? 49) in
    let p := MkHostPort false false (MkHttp HTTP_IDLE false [] 0 [] 0 0 0 0) HP_UPNP_DISCOVER router 0 0 0 [] addr_zero spec
      [] [] [] [] [] [] addr_zero 0 false st w in
    let ep := w_env w "RNET_HOST_RELAY_ENDPOINT" in
    let m := if zlen ep =? 0 then hp_begin_upnp
             else hp_finish ep (B "env") (B "Advertising RNET_HOST_RELAY_ENDPOINT (test override).") in
    Some (snd (m p))
  end.

(** ** Pumping *)

Definition RNET_HOST_PROBE_MAGIC : list Z := B "RETRO_HOSTPROBE1 ".
Definition RNET_HOST_PROBE_ACK_MAGIC : list Z := B "RETRO_HOSTPROBE1_ACK ".
Definition endpoint_text (address port : Z) : list Z :=
  dotted (Z.land (Z.shiftr address 24) 255) (Z.land (Z.shiftr address 16) 255)
    (Z.land (Z.shiftr address 8) 255) (Z.land address 255) ++ [58] ++ print_l port.

(** One datagram on the game port. *)
Definition on_game (buf : list Z) (from : sockaddr_in) : HM unit :=
  let ml := length RNET_HOST_PROBE_MAGIC in
  if (Z.of_nat ml <? zlen buf) && starts_with RNET_HOST_PROBE_MAGIC buf then
    let ack := RNET_HOST_PROBE_ACK_MAGIC ++ drop ml buf in
    if zlen ack <? 256 then
      do! sendto GameSock ack from;
      modify_st (fun s => set_ps_probes_answered (u32 (ps_probes_answered s + 1)) s)
    else ret tt
  else
    do p <- gets id;
    if decide (hp_stage p = HP_STUN) then
      match rnet_stun_parse_binding_response_ex buf (hp_stun_txid p) with
      | PARSE_OK address mport =>
        if nz mport then
          hp_finish (endpoint_text address mport) (B "stun")
            (B "No UPnP or NAT-PMP router answered. Players reach you only if UDP port " ++ print_l (ps_local_port (hp_st p)) ++
             B " is forwarded to this machine; otherwise the lobby server relays the match.")
        else ret tt
      | _ => ret tt
      end
    else ret tt.
Fixpoint drain_game (fuel : nat) : HM unit :=
  match fuel with
  | O => ret tt
  | S fuel =>
    do g <- recvfrom GameSock 1500;
    match g with
    | None => ret tt
    | Some (buf, from) => do! on_game buf from; drain_game fuel
    end
  end.
(** As many rounds as datagrams, and one that finds nothing. *)
Definition hp_drain_game : HM unit :=
  do p <- gets id; drain_game (S (length (w_grams (hp_w p) GameSock))).

(** The receive loop: whether a location was found. *)
Fixpoint find_location (fuel : nat) : HM bool :=
  match fuel with
  | O => ret false
  | S fuel =>
    do g <- recvfrom SsdpSock 2047;
    match g with
    | None => ret false
    | Some (buf, _) =>
      match rnet_hr_ssdp_location (upto_c 0 buf) 512 with
      | Some location => do! modify (set_hp_location location); ret true
      | None => find_location fuel
      end
    end
  end.
Definition hp_pump_upnp_discover : HM unit :=
  do p <- gets id;
  do found <- find_location (S (length (w_grams (hp_w p) SsdpSock)));
  if (found : bool) then
    do! modify (set_hp_ssdp false);
    do p <- gets id;
    do ok <- http_begin (hp_location p) None [] 4000;
    if (ok : bool) then hp_set_stage HP_UPNP_DESC (B "upnp") 4500 else hp_begin_natpmp
  else
    do t <- now;
    do p <- gets id;
    if hp_stage_deadline_ms p <? t then do! modify (set_hp_ssdp false); hp_begin_natpmp else ret tt.

Definition soap_action (service_type : list Z) (action : string) : list Z :=
  cut_l 160 (service_type ++ [35] ++ B action).
Definition add_arguments (port_s local_ip : list Z) : list (list Z * list Z) :=
  [(B "NewRemoteHost", []); (B "NewExternalPort", port_s); (B "NewProtocol", B "UDP"); (B "NewInternalPort", port_s);
   (B "NewInternalClient", local_ip); (B "NewEnabled", B "1"); (B "NewPortMappingDescription", B "Retro netplay host");
   (B "NewLeaseDuration", B "7200")].
Definition http_natpmp : HM unit := do! modify_http http_reset; hp_begin_natpmp.
(** Begin the next request and its stage. *)
Definition soap_stage (action : string) (kv : list (list Z * list Z)) (cap : Z) (next : HpStage) : HM unit :=
  do p <- gets id;
  match rnet_hr_soap_body (hp_service_type p) (B action) kv cap with
  | None => http_natpmp
  | Some soap =>
    do ok <- http_begin (hp_control_url p) (Some (soap_action (hp_service_type p) action)) soap 4000;
    if (ok : bool) then hp_set_stage next (B "upnp") 4500 else hp_begin_natpmp
  end.
Definition on_description : HM unit :=
  do p <- gets id;
  match rnet_hr_igd_control_url (http_body (hp_http p)) (hp_location p) 512 96 with
  | None => http_natpmp
  | Some (control_url, service_type) =>
    do! modify (set_hp_control_url control_url);
    do! modify (set_hp_service_type service_type);
    match url_parts control_url 128 512 with
    | None => http_natpmp
    | Some (ctl_host, _, _) =>
      match w_local_ip (hp_w p) ctl_host with
      | None => http_natpmp
      | Some ip =>
        do! modify (set_hp_local_ip (cut_l 48 ip));
        soap_stage "AddPortMapping" (add_arguments (print_l (ps_local_port (hp_st p))) (cut_l 48 ip)) 2048 HP_UPNP_ADD
      end
    end
  end.
Definition on_added : HM unit :=
  do! modify (fun p => set_hp_mapped_port (ps_local_port (hp_st p)) p);
  soap_stage "GetExternalIPAddress" [] 1024 HP_UPNP_EXTIP.
Definition on_external_ip : HM unit :=
  do p <- gets id;
  match rnet_hr_xml_text (http_body (hp_http p)) (B "NewExternalIPAddress") 64 with
  | None => http_natpmp
  | Some ip =>
    if (zlen ip =? 0) || bool_decide (ip = B "0.0.0.0") then http_natpmp
    else
      let port := print_l (ps_local_port (hp_st p)) in
      hp_finish (cut_l 80 (ip ++ [58] ++ port)) (B "upnp") (B "Your router forwards UDP port " ++ port ++ B " (UPnP).")
  end.
Definition hp_pump_upnp_http : HM unit :=
  do st <- http_pump;
  if decide (st = HTTP_DONE \/ st = HTTP_FAILED) then
    do p <- gets id;
    if bool_decide (st = HTTP_FAILED) || negb (h_status (hp_http p) =? 200) then http_natpmp
    else match hp_stage p with
         | HP_UPNP_DESC => on_description
         | HP_UPNP_ADD => on_added
         | HP_UPNP_EXTIP => on_external_ip
         | _ => ret tt
         end
  else
    do t <- now;
    do p <- gets id;
    if hp_stage_deadline_ms p <? t then http_natpmp else ret tt.

(** One datagram of the gateway: whether the loop returns. *)
Definition on_natpmp (buf : list Z) : HM bool :=
  do p <- gets id;
  let port := ps_local_port (hp_st p) in
  match hp_stage p with
  | HP_NATPMP_ADDR =>
    match rnet_hr_natpmp_parse_address buf 48 with
    | None => ret false
    | Some ip =>
      do! modify (set_hp_pmp_ext_ip ip);
      do! sendto PmpSock (rnet_hr_natpmp_mapping_request port port 7200) (hp_pmp_to p);
      do! hp_set_stage HP_NATPMP_MAP (B "nat-pmp") 800;
      ret true
    end
  | HP_NATPMP_MAP =>
    match rnet_hr_natpmp_parse_mapping buf with
    | (Some ext, _) =>
      if nz ext then
        do! modify (set_hp_natpmp_mapped true);
        do! modify (set_hp_mapped_port ext);
        do! hp_finish (cut_l 80 (hp_pmp_ext_ip p ++ [58] ++ print_l ext)) (B "nat-pmp")
              (B "Your router forwards UDP port " ++ print_l ext ++ B " (NAT-PMP).");
        ret true
      else do! modify (set_hp_pmp false); do! hp_begin_stun; ret true
    | _ => do! modify (set_hp_pmp false); do! hp_begin_stun; ret true
    end
  | _ => ret false
  end.
Fixpoint drain_natpmp (fuel : nat) : HM bool :=
  match fuel with
  | O => ret false
  | S fuel =>
    do g <- recvfrom PmpSock 64;
    match g with
    | None => ret false
    | Some (buf, _) =>
      do stop <- on_natpmp buf;
      if (stop : bool) then ret true else drain_natpmp fuel
    end
  end.
Definition hp_pump_natpmp : HM unit :=
  do p <- gets id;
  do stop <- drain_natpmp (S (length (w_grams (hp_w p) PmpSock)));
  if (stop : bool) then ret tt
  else
    do t <- now;
    do p <- gets id;
    if hp_stage_deadline_ms p <? t then do! modify (set_hp_pmp false); hp_begin_stun else ret tt.

Definition hp_pump_stun : HM unit :=
  do t <- now;
  do p <- gets id;
  if hp_stun_next_ms p <=? t then
    if 3 <=? hp_stun_tries p then hp_finish [] [] no_address
    else
      do! sendto GameSock (build_binding_request (hp_stun_txid p)) (hp_stun_to p);
      do! modify (set_hp_stun_tries (hp_stun_tries p + 1));
      modify (set_hp_stun_next_ms (t + 500))
  else ret tt.

Definition rnet_host_port_pump : HM unit :=
  do! hp_drain_game;
  do p <- gets id;
  match hp_stage p with
  | HP_UPNP_DISCOVER => hp_pump_upnp_discover
  | HP_UPNP_DESC | HP_UPNP_ADD | HP_UPNP_EXTIP => hp_pump_upnp_http
  | HP_NATPMP_ADDR | HP_NATPMP_MAP => hp_pump_natpmp
  | HP_STUN => hp_pump_stun
  | HP_DONE => ret tt
  end.

(** ** Closing *)

(** The sockets are closed and the record is gone. *)
Definition rnet_host_port_release (p : option RNetHostPort) : option RNetHostPort := None.

(** The wait for the answer of the last request: 600 ms in steps of 10 ms. *)
Fixpoint unmap_wait (fuel : nat) (until : Z) : HM unit :=
  match fuel with
  | O => ret tt
  | S fuel =>
    do t <- now;
    if t <? until then
      do st <- http_pump;
      if decide (st = HTTP_DONE \/ st = HTTP_FAILED) then ret tt else unmap_wait fuel until
    else ret tt
  end.
Definition delete_arguments (port_s : list Z) : list (list Z * list Z) :=
  [(B "NewRemoteHost", []); (B "NewExternalPort", port_s); (B "NewProtocol", B "UDP")].
Definition unmap_upnp : HM unit :=
  do p <- gets id;
  if nz (hp_mapped_port p) && (0 <? zlen (hp_control_url p)) && negb (hp_natpmp_mapped p) then
    do t <- now;
    match rnet_hr_soap_body (hp_service_type p) (B "DeletePortMapping") (delete_arguments (print_l (hp_mapped_port p))) 1024 with
    | None => ret tt
    | Some soap =>
      do ok <- http_begin (hp_control_url p) (Some (soap_action (hp_service_type p) "DeletePortMapping")) soap 600;
      if (ok : bool) then unmap_wait 61 (t + 600) else ret tt
    end
  else ret tt.
Definition unmap_natpmp : HM unit :=
  do p <- gets id;
  if hp_natpmp_mapped p && (0 <? zlen (hp_gateway p)) && nz (hp_mapped_port p) && w_bind (hp_w p) 0 then
    sendto UnmapSock (rnet_hr_natpmp_mapping_request (ps_local_port (hp_st p)) 0 0) (hp_pmp_to p)
  else ret tt.
Definition rnet_host_port_unmap_release (p : RNetHostPort) : HrWorld :=
  hp_w (snd ((do! unmap_upnp; unmap_natpmp) p)).

(** ** The guest's probe *)

Record RNetHostProbe := MkProbe {
  pr_to : sockaddr_in;
  pr_msg : list Z;
  pr_ack : list Z;
  pr_tries : Z;
  pr_sent : Z;
  pr_next_ms : Z
}.
Definition le32 (b : list Z) : Z := le_val (take 4 b).
(** [None] is the result -1. *)
Definition rnet_host_probe_open (endpoint : list Z) (tries : Z) (w : HrWorld) : option RNetHostProbe * HrWorld :=
  match rnet_os_parse_hostport (string_of endpoint) 128 with
  | None => (None, w)
  | Some (host, port) =>
    if port =? 0 then (None, w)
    else match rnet_os_resolve_sockaddr (w_lookup w) host port with
    | None => (None, w)
    | Some to =>
      if negb (w_bind w 0) then (None, w)
      else
        let '(r, w) := w_random_bytes w in
        let nonce := match r with Some b => le32 b | None => 0 end in
        (Some (MkProbe to (cut_l 96 (RNET_HOST_PROBE_MAGIC ++ print_l nonce))
                 (cut_l 112 (RNET_HOST_PROBE_ACK_MAGIC ++ print_l nonce)) (if 0 <? tries then tries else 6) 0 0), w)
    end
  end.
(** The receive loop: whether the answer came. *)
Fixpoint probe_recv (fuel : nat) (ack : list Z) (w : HrWorld) : bool * HrWorld :=
  match fuel with
  | O => (false, w)
  | S fuel =>
    let '(g, w) := w_recvfrom ProbeSock 256 w in
    match g with
    | None => (false, w)
    | Some (buf, _) => if bool_decide (buf = ack) then (true, w) else probe_recv fuel ack w
    end
  end.
(** 1: answered, 0: still trying, -1: every try went unanswered. *)
Definition rnet_host_probe_pump (p : RNetHostProbe) (w : HrWorld) : Z * RNetHostProbe * HrWorld :=
  let '(answered, w) := probe_recv (S (length (w_grams w ProbeSock))) (pr_ack p) w in
  if (answered : bool) then (1, p, w)
  else
    let '(t, w) := clock_read w in
    if pr_next_ms p <=? t then
      if pr_tries p <=? pr_sent p then (-1, p, w)
      else (0, MkProbe (pr_to p) (pr_msg p) (pr_ack p) (pr_tries p) (pr_sent p + 1) (t + 400),
            w_sendto ProbeSock (pr_msg p) (pr_to p) w)
    else (0, p, w).

(** ** The orchestration *)

Definition HR_REPORT_REFRESH_MS : Z := 45000.
Definition HR_FAIL_RETRY_MS : Z := 20000.
Definition HR_OPEN_RETRY_MS : Z := 5000.

Record RNetHostRelayStatus := MkRelayStatus {
  rs_role : Z;
  rs_port : RNetHostPortStatus;
  rs_advertised : list Z;
  rs_probing : bool;
  rs_probed : list Z;
  rs_last_report : list Z;
  rs_reports_sent : Z
}.
Definition eta_rs (s : RNetHostRelayStatus) : RNetHostRelayStatus :=
  MkRelayStatus (rs_role s) (rs_port s) (rs_advertised s) (rs_probing s) (rs_probed s) (rs_last_report s) (rs_reports_sent s).
Definition set_rs_role := ltac:(updater eta_rs rs_role).
Definition set_rs_port := ltac:(updater eta_rs rs_port).
Definition set_rs_advertised := ltac:(updater eta_rs rs_advertised).
Definition set_rs_probing := ltac:(updater eta_rs rs_probing).
Definition set_rs_probed := ltac:(updater eta_rs rs_probed).
Definition set_rs_last_report := ltac:(updater eta_rs rs_last_report).
Definition set_rs_reports_sent := ltac:(updater eta_rs rs_reports_sent).

(** [hr_said] records the operations given to the lobby and whether they were
    taken. *)
Record RNetHostRelay := MkRelay {
  hr_port : option RNetHostPort;
  hr_probe : option RNetHostProbe;
  hr_open_retry_ms : Z;
  hr_report_due_ms : Z;
  hr_st : RNetHostRelayStatus;
  hr_w : HrWorld;
  hr_said : list (list Z * bool)
}.
Definition eta_hr (r : RNetHostRelay) : RNetHostRelay :=
  MkRelay (hr_port r) (hr_probe r) (hr_open_retry_ms r) (hr_report_due_ms r) (hr_st r) (hr_w r) (hr_said r).
Definition set_hr_port := ltac:(updater eta_hr hr_port).
Definition set_hr_probe := ltac:(updater eta_hr hr_probe).
Definition set_hr_open_retry_ms := ltac:(updater eta_hr hr_open_retry_ms).
Definition set_hr_report_due_ms := ltac:(updater eta_hr hr_report_due_ms).
Definition set_hr_st := ltac:(updater eta_hr hr_st).
Definition set_hr_w := ltac:(updater eta_hr hr_w).
Definition set_hr_said := ltac:(updater eta_hr hr_said).

Record RNetHostRelayView := MkRelayView {
  rv_active : bool;
  rv_is_host : bool;
  rv_bind_port : Z;
  rv_host_endpoint : list Z;
  rv_stun_hostport : list Z;
  rv_send_json : option (list Z -> bool)     (* whether the lobby takes the text *)
}.
Abbreviation RM := (M RNetHostRelay).
Definition modify_rs (f : RNetHostRelayStatus -> RNetHostRelayStatus) : RM unit := modify (fun r => set_hr_st (f (hr_st r)) r).
Definition relay_status_zero : RNetHostRelayStatus := MkRelayStatus 0 port_status_zero [] false [] [] 0.
Definition rnet_host_relay_create (w : HrWorld) : RNetHostRelay := MkRelay None None 0 0 relay_status_zero w [].

Definition hr_send (v : RNetHostRelayView) (json : list Z) : RM bool :=
  match rv_send_json v with
  | None => ret false
  | Some send => do! modify (fun r => set_hr_said (hr_said r ++ [(json, send json)]) r); ret (send json)
  end.
Definition hr_forget_guest : RM unit :=
  do! modify (set_hr_probe None);
  do! modify_rs (set_rs_probing false);
  do! modify_rs (set_rs_probed []);
  do! modify_rs (set_rs_last_report []);
  modify (set_hr_report_due_ms 0).
Definition hr_now : RM Z := fun r => let '(t, w) := clock_read (hr_w r) in (t, set_hr_w w r).
Definition hr_release_port : RM unit := modify (fun r => set_hr_port (rnet_host_port_release (hr_port r)) r).

Definition endpoint_json (endpoint : list Z) : list Z :=
  cut_l 160 (B "{" ++ quoted (B "op") ++ [58] ++ quoted (B "set_host_endpoint") ++ [44] ++
             quoted (B "host_endpoint") ++ [58] ++ quoted endpoint ++ B "}").
(** The part after the port is there. *)
Definition host_pump (v : RNetHostRelayView) (p : RNetHostPort) : RM unit :=
  do w <- gets hr_w;
  let p := snd (rnet_host_port_pump (set_hp_w w p)) in
  do! modify (set_hr_port (Some p));
  do! modify (set_hr_w (hp_w p));
  do! modify_rs (set_rs_port (hp_st p));
  do st <- gets hr_st;
  let ep := ps_endpoint (rs_port st) in
  if ps_done (rs_port st) && (0 <? zlen ep) && negb (bool_decide (ep = rs_advertised st)) then
    do ok <- hr_send v (endpoint_json ep);
    if (ok : bool) then modify_rs (set_rs_advertised (set_str 64 ep)) else ret tt
  else ret tt.
Definition hr_update_host (v : RNetHostRelayView) : RM unit :=
  do t <- hr_now;
  do! modify_rs (set_rs_role 1);
  do! hr_forget_guest;
  do r <- gets id;
  match hr_port r with
  | Some p => host_pump v p
  | None =>
    if t <? hr_open_retry_ms r then ret tt
    else match rnet_host_port_open (rv_bind_port v) (rv_stun_hostport v) true (hr_w r) with
         | None =>
           do! modify (set_hr_open_retry_ms (t + HR_OPEN_RETRY_MS));
           modify_rs (set_rs_port (set_ps_detail
             (cut_l 200 (B "UDP port " ++ print_l (rv_bind_port v) ++ B " is in use; retrying.")) port_status_zero))
         | Some p => do! modify (set_hr_w (hp_w p)); host_pump v p
         end
  end.

Definition path_json (path : list Z) : list Z :=
  cut_l 64 (B "{" ++ quoted (B "op") ++ [58] ++ quoted (B "path_report") ++ [44] ++
            quoted (B "path") ++ [58] ++ quoted path ++ B "}").
Definition relay_report (v : RNetHostRelayView) (t r : Z) : RM unit :=
  let path := if 0 <? r then B "direct" else B "fail" in
  do ok <- hr_send v (path_json path);
  do! (if (ok : bool)
       then do! modify_rs (set_rs_last_report (set_str 8 path));
            modify_rs (fun s => set_rs_reports_sent (u32 (rs_reports_sent s + 1)) s)
       else ret tt);
  modify (set_hr_report_due_ms (t + (if 0 <? r then HR_REPORT_REFRESH_MS else HR_FAIL_RETRY_MS))).
Definition guest_probe (v : RNetHostRelayView) (t : Z) (p : RNetHostProbe) : RM unit :=
  do w <- gets hr_w;
  let '(res, p, w) := rnet_host_probe_pump p w in
  do! modify (set_hr_w w);
  do! modify (set_hr_probe (Some p));
  if res =? 0 then ret tt
  else
    do! modify (set_hr_probe None);
    do! modify_rs (set_rs_probing false);
    relay_report v t res.
Definition hr_update_guest (v : RNetHostRelayView) : RM unit :=
  do t <- hr_now;
  let ep := rv_host_endpoint v in
  do! modify_rs (set_rs_role 2);
  do! hr_release_port;
  do! modify_rs (set_rs_advertised []);
  if zlen ep =? 0 then hr_forget_guest
  else
    do s <- gets hr_st;
    do! (if bool_decide (ep = rs_probed s) then ret tt
         else
           do! modify (set_hr_probe None);
           do! modify_rs (set_rs_probing false);
           do! modify_rs (set_rs_last_report []);
           do! modify_rs (set_rs_probed (set_str 64 ep));
           modify (set_hr_report_due_ms 0));
    do r <- gets id;
    match hr_probe r with
    | Some p => guest_probe v t p
    | None =>
      if t <? hr_report_due_ms r then ret tt
      else
        let '(p, w) := rnet_host_probe_open ep 6 (hr_w r) in
        do! modify (set_hr_w w);
        match p with
        | Some p => do! modify (set_hr_probe (Some p)); modify_rs (set_rs_probing true)
        | None => modify (set_hr_report_due_ms (t + HR_FAIL_RETRY_MS))
        end
    end.

Definition rnet_host_relay_path_cleared : RM unit :=
  do r <- gets id;
  if negb (rs_role (hr_st r) =? 2) || bool_decide (is_Some (hr_probe r)) || (zlen (rs_last_report (hr_st r)) =? 0) then ret tt
  else do! modify_rs (set_rs_last_report []); modify (set_hr_report_due_ms 0).
Definition rnet_host_relay_update (v : RNetHostRelayView) : RM unit :=
  if negb (rv_active v) then
    do! hr_release_port;
    do! hr_forget_guest;
    modify_rs (set_rs_role 0)
  else if rv_is_host v then hr_update_host v else hr_update_guest v.
Definition rnet_host_relay_release_port : RM unit :=
  do! hr_release_port;
  do! modify (set_hr_probe None);
  modify_rs (set_rs_probing false).
Definition rnet_host_relay_leave : RM unit :=
  do r <- gets id;
  do! match hr_port r with
      | Some p => do! modify (set_hr_w (rnet_host_port_unmap_release (set_hp_w (hr_w r) p))); modify (set_hr_port None)
      | None => ret tt
      end;
  do! hr_forget_guest;
  do! modify (set_hr_st relay_status_zero);
  modify (set_hr_open_retry_ms 0).
