(* ===== verification/HostRelayProofs.v ===== *)
(** * Theorems on the host relay *)

From stdpp Require Import base list numbers list_numbers strings.
From S2P Require Import Prelude CStrings Digest Json HostRelayText Transport Stun StateM HostRelay.

(** ** Discovery ends *)

Definition stage_rank (s : HpStage) : Z :=
  match s with
  | HP_UPNP_DISCOVER => 0 | HP_UPNP_DESC => 1 | HP_UPNP_ADD => 2 | HP_UPNP_EXTIP => 3
  | HP_NATPMP_ADDR => 4 | HP_NATPMP_MAP => 5 | HP_STUN => 6 | HP_DONE => 7
  end.
(** A computation after which discovery has got to a stage at least, with
    STUN at its first try. *)
Definition fresh_stun (p : RNetHostPort) : Prop := hp_stage p = HP_STUN -> hp_stun_tries p = 0.
Definition reaches (r : Z) {A} (m : HM A) : Prop :=
  forall p, r <= stage_rank (hp_stage (snd (m p))) /\ fresh_stun (snd (m p)).

Lemma reaches_mono r r' {A} (m : HM A) : r' <= r -> reaches r m -> reaches r' m.
Proof. intros H Hm p. destruct (Hm p) as [Hm1 Hm2]. split; [lia|done]. Qed.
Lemma wp_reaches r {A} (m : HM A) (Q : A -> RNetHostPort -> Prop) p : reaches r m ->
  (forall a p', r <= stage_rank (hp_stage p') -> fresh_stun p' -> Q a p') -> wp m Q p.
Proof. intros Hm HQ. destruct (Hm p). by apply HQ. Qed.
Lemma reaches_bind r {A B} (m : HM A) (k : A -> HM B) : (forall a, reaches r (k a)) -> reaches r (bind m k).
Proof. intros H p. unfold bind. destruct (m p) as [a p']. apply H. Qed.

(** What leaves the stage and its clocks alone. *)
Definition keep (p p' : RNetHostPort) : Prop :=
  hp_stage p' = hp_stage p /\ hp_stage_deadline_ms p' = hp_stage_deadline_ms p /\
  hp_stun_next_ms p' = hp_stun_next_ms p /\ hp_stun_tries p' = hp_stun_tries p /\
  h_deadline_ms (hp_http p') = h_deadline_ms (hp_http p) /\
  w_clock (hp_w p') = w_clock (hp_w p) /\ (w_ticks (hp_w p) <= w_ticks (hp_w p'))%nat.
#[export] Instance keep_preorder : PreOrder keep.
Proof.
  split; [intros p; unfold keep; split_and!; [done..|lia]|].
  intros p q r (?&?&?&?&?&?&?) (?&?&?&?&?&?&?). unfold keep. split_and!; try congruence. lia.
Qed.
Ltac keeps := intros []; unfold keep; cbn; split_and!; try done; lia.

Lemma keep_now : stable keep now.
Proof. keeps. Qed.
Lemma keep_recvfrom s cap : stable keep (recvfrom s cap).
Proof. intros p. unfold recvfrom, lift_w, w_recvfrom. destruct (w_grams _ _) as [|g l]; revert p; keeps. Qed.
Lemma keep_sendto s d a : stable keep (sendto s d a).
Proof. keeps. Qed.
Lemma keep_modify_st f : stable keep (modify_st f).
Proof. keeps. Qed.
Lemma keep_modify_http f : (forall h, h_deadline_ms (f h) = h_deadline_ms h) -> stable keep (modify_http f).
Proof. intros H. intros []. unfold keep. cbn. rewrite H. split_and!; try done; lia. Qed.
#[local] Hint Resolve keep_now keep_recvfrom keep_sendto keep_modify_st : stable.

Lemma hp_finish_done a b c : reaches 7 (hp_finish a b c).
Proof. intros []. by split. Qed.
Lemma begin_stun_reaches : reaches 6 hp_begin_stun.
Proof.
  intros p. unfold hp_begin_stun, bind, gets, modify. destruct p. cbn.
  destruct (rnet_os_parse_hostport _ _) as [[host port]|]; [|by split].
  destruct (port =? 0); [by split|]. destruct (rnet_os_resolve_sockaddr _ _ _); [|by split].
  unfold random_bytes, lift_w, w_random_bytes. cbn.
  destruct (w_random _) as [|[r|] l]; by split.
Qed.
Lemma begin_natpmp_reaches : reaches 4 hp_begin_natpmp.
Proof.
  assert (reaches 4 hp_begin_stun) as K by (eapply reaches_mono, begin_stun_reaches; lia).
  apply reaches_bind. intros p. destruct (negb _); [done|].
  destruct (w_gateway _) as [gw|]; apply reaches_bind; intros _; [|done]. apply reaches_bind. intros [to|]; [|done].
  apply reaches_bind. intros _. destruct (w_bind _ _); [|done].
  do 2 (apply reaches_bind; intros _). intros []. by split.
Qed.
Lemma set_stage_reaches s l b : s <> HP_STUN -> reaches (stage_rank s) (hp_set_stage s l b).
Proof. intros Hs []. split; [by cbn|]. intros E. by cbn in E. Qed.
Lemma http_natpmp_reaches : reaches 4 http_natpmp.
Proof. apply reaches_bind. intros _. apply begin_natpmp_reaches. Qed.
Lemma soap_stage_reaches a kv cap next : stage_rank next <= 4 -> reaches (stage_rank next) (soap_stage a kv cap next).
Proof.
  intros H. apply reaches_bind. intros p.
  assert (reaches (stage_rank next) hp_begin_natpmp) by (eapply reaches_mono, begin_natpmp_reaches; lia).
  destruct (rnet_hr_soap_body _ _ _ _); [|eapply reaches_mono, http_natpmp_reaches; lia].
  apply reaches_bind. intros []; [|done]. apply set_stage_reaches. by destruct next; cbn in H.
Qed.

(** The transfer loops keep the deadline. *)
Lemma scan_headers_deadline h : h_deadline_ms (http_scan_headers h) = h_deadline_ms h.
Proof. unfold http_scan_headers. by repeat (case_match; cbn). Qed.
Lemma http_finish_deadline h : h_deadline_ms (http_finish h) = h_deadline_ms h.
Proof.
  unfold http_finish. pose proof (scan_headers_deadline (set_h_open false h)) as E.
  destruct (rnet_hr_http_split _) as [[st b]|]; exact E.
Qed.
Lemma http_finish_ends h : h_state (http_finish h) = HTTP_DONE \/ h_state (http_finish h) = HTTP_FAILED.
Proof. unfold http_finish. destruct (rnet_hr_http_split _) as [[st b]|]; [by left|by right]. Qed.

(** An exchange past its deadline is over, unless none was begun. *)
Definition late_http (p : RNetHostPort) : Prop :=
  forall k, (w_ticks (hp_w p) <= k)%nat -> h_deadline_ms (hp_http p) < w_clock (hp_w p) k.
Lemma late_http_pump p : late_http p ->
  wp http_pump (fun st p' => keep p p' /\ (st = HTTP_DONE \/ st = HTTP_FAILED \/ st = HTTP_IDLE)) p.
Proof.
  intros Hl. unfold http_pump. apply wp_bind. unfold http_state at 1. apply wp_gets.
  destruct (decide _) as [D|D]; [apply wp_ret; split; [reflexivity|tauto]|].
  apply wp_bind. unfold wp at 1. cbn [now lift_w clock_read fst snd]. apply wp_bind, wp_gets.
  change (hp_http (set_hp_w (set_w_ticks (S (w_ticks (hp_w p))) (hp_w p)) p)) with (hp_http p).
  pose proof (Hl (w_ticks (hp_w p)) ltac:(lia)) as L. apply Z.ltb_lt in L. rewrite L.
  apply wp_bind. set (f := if decide _ then _ else _).
  assert (forall h, h_deadline_ms (f h) = h_deadline_ms h) as Hd.
  { intros h. subst f. repeat case_match; [apply http_finish_deadline|done..]. }
  assert (forall h, h_state (f h) = HTTP_DONE \/ h_state (f h) = HTTP_FAILED) as He.
  { intros h. subst f. repeat case_match; [apply http_finish_ends|by right..]. }
  unfold wp, http_state, gets. cbn [fst snd]. split.
  - etransitivity; [apply keep_now|]. by apply (keep_modify_http f Hd).
  - destruct p. cbn. specialize (He hp_http). tauto.
Qed.

Definition late (p : RNetHostPort) : Prop :=
  late_http p /\ forall k, (w_ticks (hp_w p) <= k)%nat ->
    hp_stage_deadline_ms p < w_clock (hp_w p) k /\ hp_stun_next_ms p <= w_clock (hp_w p) k.
Lemma keep_late p p' : keep p p' -> late p -> late p'.
Proof.
  intros (E1 & E2 & E3 & E4 & E5 & E6 & E7) [H1 H2]. split.
  - intros k Hk. rewrite E5, E6. apply H1. lia.
  - intros k Hk. rewrite E2, E3, E6. apply H2. lia.
Qed.
Lemma late_now p Q : late p -> (forall t, hp_stage_deadline_ms p < t -> hp_stun_next_ms p <= t -> late_http p ->
   forall p', keep p p' -> Q t p') -> wp now Q p.
Proof.
  intros [H1 H2] HQ. unfold wp. destruct (H2 (w_ticks (hp_w p)) ltac:(lia)). apply HQ; try done. apply keep_now.
Qed.

Definition keep_or_done (p p' : RNetHostPort) : Prop := keep p p' \/ hp_stage p' = HP_DONE.
#[export] Instance keep_or_done_preorder : PreOrder keep_or_done.
Proof.
  split; [intros p; left; reflexivity|]. intros p q r [H1|H1] [H2|H2]; [left; by etransitivity|by right|right|by right].
  destruct H2 as [E _]. congruence.
Qed.
Lemma done_keeps r {A} (m : HM A) : r = 7 -> reaches r m -> stable keep_or_done m.
Proof. intros -> H p. right. destruct (H p) as [H7 _]. by destruct (hp_stage _); cbn in H7; try lia. Qed.
Lemma keep_stable_done {A} (m : HM A) : stable keep m -> stable keep_or_done m.
Proof. intros H p. left. apply H. Qed.
Lemma drain_game_keeps : stable keep_or_done hp_drain_game.
Proof.
  assert (forall buf from, stable keep_or_done (on_game buf from)) as Ho.
  { intros buf from. unfold on_game. destruct (_ && _).
    - destruct (_ <? _); [|by apply stable_ret; typeclasses eauto].
      apply stable_bind; [typeclasses eauto|apply keep_stable_done, keep_sendto|intros _; apply keep_stable_done, keep_modify_st].
    - apply stable_bind; [typeclasses eauto|by apply stable_gets; typeclasses eauto|]. intros p.
      destruct (decide _); [|by apply stable_ret; typeclasses eauto].
      destruct (rnet_stun_parse_binding_response_ex _ _); try by apply stable_ret; typeclasses eauto.
      destruct (nz _); [|by apply stable_ret; typeclasses eauto]. eapply done_keeps, hp_finish_done. done. }
  unfold hp_drain_game. apply stable_bind; [typeclasses eauto|by apply stable_gets; typeclasses eauto|]. intros p0.
  induction (S _) as [|n IH]; [by apply stable_ret; typeclasses eauto|]. cbn [drain_game].
  apply stable_bind; [typeclasses eauto|apply keep_stable_done, keep_recvfrom|].
  intros [[buf from]|]; [|by apply stable_ret; typeclasses eauto].
  apply stable_bind; [typeclasses eauto|apply Ho|]. intros _. apply IH.
Qed.
Lemma find_location_keeps n : stable keep (find_location n).
Proof.
  induction n as [|n IH]; [by apply stable_ret; typeclasses eauto|]. cbn [find_location].
  apply stable_bind; [typeclasses eauto|apply keep_recvfrom|].
  intros [[buf from]|]; [|by apply stable_ret; typeclasses eauto].
  destruct (rnet_hr_ssdp_location _ _); [|done].
  apply stable_bind; [typeclasses eauto|keeps|intros _; by apply stable_ret; typeclasses eauto].
Qed.

(** The loop over the gateway's datagrams: it stops only in a later stage. *)
Lemma drain_natpmp_spec n : forall p, 4 <= stage_rank (hp_stage p) <= 5 ->
  wp (drain_natpmp n) (fun (stop : bool) p' => if stop then stage_rank (hp_stage p) < stage_rank (hp_stage p') /\ fresh_stun p' else keep p p') p.
Proof.
  induction n as [|n IH]; intros p Hr; cbn [drain_natpmp]; [apply wp_ret; reflexivity|].
  apply wp_bind. eapply wp_mono; [apply (wp_stable keep), keep_recvfrom|].
  intros [[buf from]|] p1 Hk1; [|by apply wp_ret].
  assert (hp_stage p1 = hp_stage p) as E1 by apply Hk1.
  apply wp_bind. eapply (wp_mono _ (fun (stop : bool) p' => if stop then stage_rank (hp_stage p) < stage_rank (hp_stage p') /\ fresh_stun p' else p' = p1)).
  - unfold on_natpmp. apply wp_bind, wp_gets. cbn [id]. rewrite E1.
    destruct (hp_stage p) eqn:Es; cbn [stage_rank] in *; try lia.
    + destruct (rnet_hr_natpmp_parse_address _ _); [|by apply wp_ret].
      apply wp_bind, wp_modify. apply wp_bind, wp_any. intros _ p2. apply wp_bind.
      eapply wp_reaches; [by apply set_stage_reaches|]. intros _ p3 H3 F3. apply wp_ret. cbn in H3. split; [lia|done].
    + assert (forall p2 : RNetHostPort, wp (do! hp_begin_stun; ret true)
        (fun (stop : bool) p' => if stop then 5 < stage_rank (hp_stage p') /\ fresh_stun p' else p' = p1) p2) as KS.
      { intros p2. apply wp_bind. eapply wp_reaches; [apply begin_stun_reaches|]. intros _ p3 H3 F3. apply wp_ret. split; [lia|done]. }
      destruct (rnet_hr_natpmp_parse_mapping buf) as [[ext|] rc]; [|apply wp_bind, wp_modify, KS].
      destruct (nz ext); [|apply wp_bind, wp_modify, KS].
      do 2 apply wp_bind, wp_modify. apply wp_bind. eapply wp_reaches; [apply hp_finish_done|].
      intros _ p3 H3 F3. apply wp_ret. split; [lia|done].
  - intros [] p2 H; [by apply wp_ret|]. subst p2. eapply wp_mono; [apply IH; by rewrite E1|].
    intros [] p3; [by rewrite E1|]. intros H. by etransitivity.
Qed.

(** One overdue pump gets discovery further. *)
Definition further (p p' : RNetHostPort) : Prop :=
  stage_rank (hp_stage p) < stage_rank (hp_stage p') /\ fresh_stun p' \/
  hp_stage p = HP_STUN /\ hp_stage p' = HP_STUN /\ hp_stun_tries p < 3 /\ hp_stun_tries p' = hp_stun_tries p + 1.
Lemma overdue_discover p : late p -> hp_stage p = HP_UPNP_DISCOVER -> wp hp_pump_upnp_discover (fun _ => further p) p.
Proof.
  intros Hl Es. unfold hp_pump_upnp_discover. apply wp_bind, wp_gets, wp_bind.
  eapply wp_mono; [apply (wp_stable keep), find_location_keeps|]. intros [] p1 K1.
  - apply wp_bind, wp_modify, wp_bind, wp_gets, wp_bind, wp_any. intros [] p2.
    + eapply wp_reaches; [by apply set_stage_reaches|]. intros _ p3 H3 F3. left. split; [rewrite Es; cbn in *; lia|done].
    + eapply wp_reaches; [apply begin_natpmp_reaches|]. intros _ p3 H3 F3. left. split; [rewrite Es; cbn in *; lia|done].
  - apply wp_bind, late_now; [by eapply keep_late|]. intros t Ht _ _ p2 K2. apply wp_bind, wp_gets. cbn [id].
    destruct K2 as (_ & -> & _). apply Z.ltb_lt in Ht. rewrite Ht.
    apply wp_bind, wp_modify. eapply wp_reaches; [apply begin_natpmp_reaches|]. intros _ p3 H3 F3. left. split; [rewrite Es; cbn in *; lia|done].
Qed.
Lemma overdue_http p : late p -> 1 <= stage_rank (hp_stage p) <= 3 -> wp hp_pump_upnp_http (fun _ => further p) p.
Proof.
  intros Hl Hr. unfold hp_pump_upnp_http. apply wp_bind. eapply wp_mono; [apply late_http_pump; apply Hl|].
  intros st p1 [K1 Hst]. assert (hp_stage p1 = hp_stage p) as E1 by apply K1.
  assert (forall p2, wp http_natpmp (fun _ => further p) p2) as KN.
  { intros p2. eapply wp_reaches; [apply http_natpmp_reaches|]. intros _ p3 H3 F3. left. split; [lia|done]. }
  destruct (decide _) as [D|D].
  - apply wp_bind, wp_gets. cbn [id]. destruct (_ || _); [done|]. rewrite E1.
    destruct (hp_stage p) eqn:Es; cbn [stage_rank] in *; try lia.
    + unfold on_description. apply wp_bind, wp_gets. cbn [id].
      destruct (rnet_hr_igd_control_url _ _ _ _) as [[cu sv]|]; [|done].
      do 2 apply wp_bind, wp_modify. destruct (url_parts _ _ _) as [[[ch cp] cpath]|]; [|done].
      destruct (w_local_ip _ _); [|done]. apply wp_bind, wp_modify. eapply wp_reaches; [apply soap_stage_reaches; cbn; lia|].
      intros _ p3 H3 F3. left. split; [rewrite Es; cbn in *; lia|done].
    + unfold on_added. apply wp_bind, wp_modify. eapply wp_reaches; [apply soap_stage_reaches; cbn; lia|].
      intros _ p3 H3 F3. left. split; [rewrite Es; cbn in *; lia|done].
    + unfold on_external_ip. apply wp_bind, wp_gets. cbn [id].
      destruct (rnet_hr_xml_text _ _ _); [|done]. destruct (_ || _); [done|]. eapply wp_reaches; [apply hp_finish_done|].
      intros _ p3 H3 F3. left. split; [rewrite Es; cbn in *; lia|done].
  - apply wp_bind, late_now; [by eapply keep_late|]. intros t Ht _ _ p2 K2. apply wp_bind, wp_gets. cbn [id].
    destruct K2 as (_ & -> & _). apply Z.ltb_lt in Ht. rewrite Ht. done.
Qed.
Lemma overdue_natpmp p : late p -> 4 <= stage_rank (hp_stage p) <= 5 -> wp hp_pump_natpmp (fun _ => further p) p.
Proof.
  intros Hl Hr. unfold hp_pump_natpmp. apply wp_bind, wp_gets, wp_bind. eapply wp_mono; [by apply drain_natpmp_spec|].
  intros [] p1 H1; [apply wp_ret; by left|].
  apply wp_bind, late_now; [by eapply keep_late|]. intros t Ht _ _ p2 K2. apply wp_bind, wp_gets. cbn [id].
  destruct K2 as (_ & -> & _). apply Z.ltb_lt in Ht. rewrite Ht. apply wp_bind, wp_modify. eapply wp_reaches; [apply begin_stun_reaches|].
  intros _ p3 H3 F3. left. split; [lia|done].
Qed.
Lemma overdue_stun p : late p -> hp_stage p = HP_STUN -> wp hp_pump_stun (fun _ => further p) p.
Proof.
  intros Hl Es. unfold hp_pump_stun. apply wp_bind, late_now; [done|]. intros t _ Ht _ p1 K1.
  destruct K1 as (E1 & _ & E3 & E4 & _). apply wp_bind, wp_gets. cbn [id]. rewrite E3, E4. apply Z.leb_le in Ht. rewrite Ht.
  destruct (Z.leb_spec 3 (hp_stun_tries p)).
  - eapply wp_reaches; [apply hp_finish_done|]. intros _ p3 H3 F3. left. split; [rewrite Es; cbn in *; lia|done].
  - apply wp_bind. unfold sendto, modify_w. apply wp_modify. apply wp_bind, wp_modify, wp_modify. right.
    destruct p1. cbn in *. split_and!; congruence.
Qed.
Lemma overdue_pump p : late p -> hp_stage p <> HP_DONE -> further p (snd (rnet_host_port_pump p)).
Proof.
  intros Hl Hd. change (wp rnet_host_port_pump (fun _ => further p) p). unfold rnet_host_port_pump.
  apply wp_bind. eapply wp_mono; [apply (wp_stable keep_or_done), drain_game_keeps|]. intros _ p1 [K|D]; last first.
  { apply wp_bind, wp_gets. cbn [id]. rewrite D. apply wp_ret. left. rewrite D.
    split; [by destruct (hp_stage p); cbn; try lia|]. intros E. congruence. }
  apply wp_bind, wp_gets. cbn [id]. pose proof (keep_late _ _ K Hl) as Hl1. destruct K as (E1 & _ & _ & E4 & _).
  assert (forall p', further p1 p' -> further p p') as T.
  { intros p'. unfold further. by rewrite E1, E4. }
  rewrite <- E1 in Hd.
  destruct (hp_stage p1) eqn:Es; [| | | | | | |done]; (apply (wp_mono _ (fun _ => further p1)); [|intros ? p'; apply T]).
  - by apply overdue_discover.
  - apply overdue_http; [done|rewrite Es; cbn; lia].
  - apply overdue_http; [done|rewrite Es; cbn; lia].
  - apply overdue_http; [done|rewrite Es; cbn; lia].
  - apply overdue_natpmp; [done|rewrite Es; cbn; lia].
  - apply overdue_natpmp; [done|rewrite Es; cbn; lia].
  - by apply overdue_stun.
Qed.

(** What is left of discovery, in overdue pumps. *)
Definition pumps_left (p : RNetHostPort) : Z :=
  match hp_stage p with
  | HP_DONE => 0
  | HP_STUN => Z.max 1 (4 - hp_stun_tries p)
  | s => 10 - stage_rank s
  end.
Lemma further_less p p' : further p p' -> pumps_left p' < pumps_left p.
Proof.
  intros [[Hr Hf]|(E & E' & Ht & Ht')]; unfold pumps_left, fresh_stun in *; [|rewrite E, E'; lia].
  destruct (hp_stage p), (hp_stage p'); cbn in *; try lia; rewrite (Hf eq_refl); lia.
Qed.

(** Pumps of the port with anything arriving in between, the deadlines of the
    moment having passed each time. *)
Inductive overdue_pumps : nat -> RNetHostPort -> RNetHostPort -> Prop :=
| op_none p : overdue_pumps 0 p p
| op_more n p w p' : hp_stage p <> HP_DONE -> late (set_hp_w w p) ->
    overdue_pumps n (snd (rnet_host_port_pump (set_hp_w w p))) p' -> overdue_pumps (S n) p p'.

Lemma overdue_count n p p' : overdue_pumps n p p' -> Z.of_nat n + pumps_left p' <= pumps_left p.
Proof.
  induction 1 as [p|n p w p' Hd Hl H IH]; [lia|].
  assert (pumps_left (set_hp_w w p) = pumps_left p) as E by (by destruct p).
  assert (hp_stage (set_hp_w w p) <> HP_DONE) as Hd' by (by destruct p).
  pose proof (further_less _ _ (overdue_pump _ Hl Hd')). lia.
Qed.

(** C20. Working out the host's endpoint ends: whatever the router, the gateway
    and the STUN server answer or fail to answer, and whatever arrives between
    the pumps, a pump after the stage's deadlines always gets to a later stage
    or spends one of the three STUN tries, so that discovery is done after at
    most ten such pumps from its first stage. *)
Theorem discovery_ends n p p' : hp_stage p = HP_UPNP_DISCOVER -> overdue_pumps n p p' ->
  (n <= 10)%nat /\ (n = 10%nat -> hp_stage p' = HP_DONE).
Proof.
  intros Es H. assert (pumps_left p = 10) as E0 by (unfold pumps_left; by rewrite Es).
  pose proof (overdue_count _ _ _ H) as K.
  assert (0 <= pumps_left p') as P0 by (unfold pumps_left; destruct (hp_stage p'); cbn; lia).
  split; [lia|]. intros ->. assert (pumps_left p' = 0) as E1 by lia. unfold pumps_left in E1.
  destruct (hp_stage p'); cbn in E1; try lia; done.
Qed.

(** A silent network: every stage times out. *)
Definition quiet_world (t : Z) : HrWorld := {|
  w_clock := fun _ => t; w_ticks := 0; w_grams := fun _ => []; w_sent := []; w_connects := []; w_ready := [];
  w_sends := []; w_recvs := []; w_lookup := fun _ => Some 1; w_bind := fun _ => true; w_random := [Some (seqZ 0 12)];
  w_gateway := Some (B "192.168.1.1"); w_local_ip := fun _ => None; w_env := fun _ => []; w_requests := [] |}.
Definition no_port : RNetHostPort :=
  MkHostPort false false (MkHttp HTTP_IDLE false [] 0 [] 0 0 0 0) HP_DONE false 0 0 0 [] addr_zero [] [] [] [] [] [] [] addr_zero
    0 false port_status_zero (quiet_world 0).
Definition demo_port : RNetHostPort := default no_port (rnet_host_port_open 7777 [] true (quiet_world 1000)).
Lemma quiet_late t p : h_deadline_ms (hp_http p) < t -> hp_stage_deadline_ms p < t -> hp_stun_next_ms p <= t ->
  late (set_hp_w (quiet_world t) p).
Proof. intros H1 H2 H3. destruct p. split; intros k _; [exact H1|by split]. Qed.
Definition demo_pump (p : RNetHostPort) (t : Z) : RNetHostPort := snd (rnet_host_port_pump (set_hp_w (quiet_world t) p)).
Lemma demo_step n p t p' : hp_stage p <> HP_DONE -> h_deadline_ms (hp_http p) < t -> hp_stage_deadline_ms p < t ->
  hp_stun_next_ms p <= t -> overdue_pumps n (demo_pump p t) p' -> overdue_pumps (S n) p p'.
Proof. intros Hd H1 H2 H3 H. eapply op_more; [done|by apply quiet_late|exact H]. Qed.
Lemma discovery_ends_witness :
  overdue_pumps 6 demo_port (fold_left demo_pump [10000; 20000; 30000; 40000; 50000; 60000] demo_port) /\ (6 <= 10)%nat.
Proof.
  assert (overdue_pumps 6 demo_port (fold_left demo_pump [10000; 20000; 30000; 40000; 50000; 60000] demo_port)) as H.
  { cbn [fold_left]. apply (demo_step _ _ 10000); [by vm_compute..|]. apply (demo_step _ _ 20000); [by vm_compute..|].
    apply (demo_step _ _ 30000); [by vm_compute..|]. apply (demo_step _ _ 40000); [by vm_compute..|].
    apply (demo_step _ _ 50000); [by vm_compute..|]. apply (demo_step _ _ 60000); [by vm_compute..|]. apply op_none. }
  split; [exact H|]. apply (discovery_ends 6 demo_port _ ltac:(by vm_compute) H).
Defined.

(** ** The probe *)

(** The datagrams a receive loop sees: up to the first failure. *)
Fixpoint heard (cap : Z) (l : list (option (list Z * sockaddr_in))) : list (list Z) :=
  match l with
  | Some (data, _) :: r =>
    let data := take (Z.to_nat cap) data in if zlen data =? 0 then [] else data :: heard cap r
  | _ => []
  end.
Lemma grams_set s l w : w_grams (set_grams s l w) s = l.
Proof. cbn. by destruct (decide (s = s)). Qed.
Lemma probe_recv_spec n : forall ack w, (length (w_grams w ProbeSock) < n)%nat ->
  fst (probe_recv n ack w) = true <-> ack ∈ heard 256 (w_grams w ProbeSock).
Proof.
  induction n as [|n IH]; intros ack w Hn; [lia|]. cbn [probe_recv]. unfold w_recvfrom.
  destruct (w_grams w ProbeSock) as [|[[data from]|] l] eqn:E; cbn [heard].
  - split; [done|]. by intros ?%elem_of_nil.
  - destruct (_ =? 0); [split; [done|by intros ?%elem_of_nil]|].
    case_bool_decide as D; [split; [intros _; subst; by left|done]|].
    rewrite IH by (rewrite grams_set; cbn in Hn; lia). rewrite grams_set, elem_of_cons. split; [by right|]. intros [->|]; [done|done].
  - split; [done|]. by intros ?%elem_of_nil.
Qed.
Lemma probe_pump_answer p w : fst (fst (rnet_host_probe_pump p w)) = 1 <-> pr_ack p ∈ heard 256 (w_grams w ProbeSock).
Proof.
  unfold rnet_host_probe_pump. rewrite <- (probe_recv_spec (S (length (w_grams w ProbeSock)))) by lia.
  destruct (probe_recv _ _ w) as [[] w1]; [done|]. cbn [fst]. cbn zeta.
  destruct (clock_read w1) as [t w2]. destruct (_ <=? t); [destruct (_ <=? _)|]; by split.
Qed.

Lemma nonce_text_len n : in_u32 n -> zlen (print_l n) <= 10.
Proof.
  intros Hn. unfold print_l, print_dec, zlen.
  assert (forall s, length (bytes_of s) = String.length s) as -> by (induction s; cbn; congruence).
  pose proof (dec_digits_len 20 n 9 EmptyString) as L. change (10 ^ Z.of_nat 10) with 10000000000 in L.
  cbn [String.length] in L. ranges. lia.
Qed.

Lemma le_val_lt bs : Forall in_u8 bs -> le_val bs < 256 ^ zlen bs.
Proof.
  induction 1 as [|b bs Hb Hbs IH]; [done|]. cbn [le_val]. rewrite zlen_cons, Z.pow_add_r by (pose proof (zlen_nonneg bs); lia).
  pose proof (le_val_nonneg bs Hbs). rewrite lor_byte by done. ranges. lia.
Qed.
Lemma le32_range l : Forall in_u8 l -> in_u32 (le32 l).
Proof.
  intros H. unfold le32. assert (Forall in_u8 (take 4 l)) as H4 by by apply Forall_take.
  pose proof (le_val_nonneg _ H4). pose proof (le_val_lt _ H4) as L.
  assert (256 ^ zlen (take 4 l) <= 256 ^ 4) by (apply Z.pow_le_mono_r; [lia|unfold zlen; rewrite length_take; lia]).
  change (256 ^ 4) with 4294967296 in *. ranges. lia.
Qed.
Lemma starts_with_front a b : starts_with a (a ++ b) = true.
Proof. induction a as [|x a IH]; [by destruct b|]. cbn. by rewrite Z.eqb_refl. Qed.
Lemma print_l_nonempty n : 0 <= n -> 0 < zlen (print_l n).
Proof.
  intros Hn. destruct (dec_digits_head 19 n EmptyString Hn) as (d & r & _ & E). unfold print_l, print_dec. rewrite E.
  cbn [bytes_of]. rewrite zlen_cons. pose proof (zlen_nonneg (bytes_of r)). lia.
Qed.

(** Host and guest agree on the probe: for every probe a guest opens, the
    host's port, given the guest's message, answers its sender with exactly the
    text the guest waits for; and a pump of the guest's probe reports success
    if and only if that text is among the datagrams it receives, whatever else
    arrives. A report of a direct path therefore means that this very probe
    was answered. *)
Theorem probe_answered_exactly endpoint tries w p w' : rnet_host_probe_open endpoint tries w = (Some p, w') ->
  (forall b, b ∈ w_random w -> forall l, b = Some l -> Forall in_u8 l) ->
  (forall host from, w_sent (hp_w (snd (on_game (pr_msg p) from host))) = w_sent (hp_w host) ++ [(GameSock, pr_ack p, from)]) /\
  (forall w1, fst (fst (rnet_host_probe_pump p w1)) = 1 <-> pr_ack p ∈ heard 256 (w_grams w1 ProbeSock)).
Proof.
  intros H Hr. split; [|intros w1; apply probe_pump_answer].
  assert (exists nonce, in_u32 nonce /\ pr_msg p = RNET_HOST_PROBE_MAGIC ++ print_l nonce /\
    pr_ack p = RNET_HOST_PROBE_ACK_MAGIC ++ print_l nonce) as (nonce & Hn & Em & Ea).
  { unfold rnet_host_probe_open in H. destruct (rnet_os_parse_hostport _ _) as [[host port]|]; [|done].
    destruct (port =? 0); [done|]. destruct (rnet_os_resolve_sockaddr _ _ _) as [to|]; [|done].
    destruct (negb _); [done|]. unfold w_random_bytes in H.
    set (nonce := match (fst (match w_random w with [] => (None, w) | r :: rest => (r, set_w_random rest w) end))
                  with Some b => le32 b | None => 0 end).
    assert (in_u32 nonce) as Hn.
    { subst nonce. destruct (w_random w) as [|[b|] rest]; cbn; [by ranges| |by ranges]. apply le32_range.
      eapply Hr; [by left|done]. }
    exists nonce. split; [done|].
    assert (p = MkProbe to (cut_l 96 (RNET_HOST_PROBE_MAGIC ++ print_l nonce))
      (cut_l 112 (RNET_HOST_PROBE_ACK_MAGIC ++ print_l nonce)) (if 0 <? tries then tries else 6) 0 0) as ->.
    { subst nonce. destruct (w_random w) as [|r rest]; by injection H as <- _. }
    pose proof (nonce_text_len nonce Hn) as L. unfold zlen in L. cbn [pr_msg pr_ack]. unfold cut_l.
    assert (length RNET_HOST_PROBE_MAGIC = 17%nat) as L1 by by vm_compute.
    assert (length RNET_HOST_PROBE_ACK_MAGIC = 21%nat) as L2 by by vm_compute.
    split; apply take_ge; rewrite length_app; lia. }
  intros host from. unfold on_game. rewrite Em, Ea, starts_with_front, drop_app_length. cbn zeta.
  pose proof (nonce_text_len nonce Hn) as L. pose proof (print_l_nonempty nonce ltac:(ranges; lia)) as P.
  assert (zlen RNET_HOST_PROBE_ACK_MAGIC = 21) as L2 by by vm_compute.
  rewrite !zlen_app, L2. destruct (Z.ltb_spec (Z.of_nat (length RNET_HOST_PROBE_MAGIC)) (zlen RNET_HOST_PROBE_MAGIC + zlen (print_l nonce)));
    [|unfold zlen in *; lia]. cbn [andb].
  destruct (Z.ltb_spec (21 + zlen (print_l nonce)) 256); [|lia]. by destruct host.
Qed.
Lemma probe_answered_exactly_witness :
  let w := set_w_random [Some [1; 2; 3; 4]] (quiet_world 0) in
  let p := default (MkProbe addr_zero [] [] 0 0 0) (fst (rnet_host_probe_open (B "10.0.0.1:7777") 6 w)) in
  w_sent (hp_w (snd (on_game (pr_msg p) addr_zero no_port))) = [(GameSock, pr_ack p, addr_zero)].
Proof.
  intros w p. apply (probe_answered_exactly (B "10.0.0.1:7777") 6 w p (set_w_random [] w)).
  - by vm_compute.
  - intros b Hb l ->. apply list_elem_of_singleton in Hb. injection Hb as ->. by repeat constructor.
Defined.

(** ** Leaving *)

(** Nothing but the host's update opens a port. *)
Definition port_gone (r r' : RNetHostRelay) : Prop := hr_port r = None -> hr_port r' = None.
#[export] Instance port_gone_preorder : PreOrder port_gone.
Proof. split; [by intros r H|]. intros r1 r2 r3 H1 H2 H. by apply H2, H1. Qed.
Lemma gone_modify_rs f : stable port_gone (modify_rs f).
Proof. by intros [] ?. Qed.
Lemma gone_send v j : stable port_gone (hr_send v j).
Proof. intros [] H. unfold hr_send. by destruct (rv_send_json v). Qed.
Lemma gone_forget : stable port_gone hr_forget_guest.
Proof. by intros [] ?. Qed.
#[local] Hint Resolve gone_modify_rs gone_send gone_forget : stable.
Ltac gone := repeat first [solve [auto with stable nocore] | stable_step | by intros [] ?].
Lemma gone_report v t x : stable port_gone (relay_report v t x).
Proof. unfold relay_report. gone. Qed.
#[local] Hint Resolve gone_report : stable.
Lemma gone_probe v t p : stable port_gone (guest_probe v t p).
Proof. unfold guest_probe. gone. Qed.
#[local] Hint Resolve gone_probe : stable.
Lemma guest_has_no_port v r : hr_port (snd (hr_update_guest v r)) = None.
Proof.
  change (wp (hr_update_guest v) (fun _ r' => hr_port r' = None) r). unfold hr_update_guest.
  apply wp_bind, wp_any. intros t r1. apply wp_bind, wp_modify, wp_bind. unfold hr_release_port. apply wp_modify.
  match goal with |- wp ?m _ ?q => assert (stable port_gone m) as K; [|by apply (K q); destruct r1] end. gone.
Qed.

(** C21. A mapping the port made is not removed once the port was let go: after
    an update of the room that is not active, or that makes this player a
    guest, or after the port was handed to the game, leaving sends no delete
    request - neither the UPnP one nor the NAT-PMP one - whatever was mapped.
    The comment in the update says the mapping stays until leave, and the header
    that leaving removes it. *)
Theorem released_mapping_stays v r : (rv_active v = false \/ rv_is_host v = false) ->
  let sent m := (w_sent (hr_w (snd (m r))), w_requests (hr_w (snd (m r)))) in
  sent (do! rnet_host_relay_update v; rnet_host_relay_leave) = sent (rnet_host_relay_update v) /\
  sent (do! rnet_host_relay_release_port; rnet_host_relay_leave) = sent (ret tt).
Proof.
  intros Hv sent.
  assert (forall r, hr_port r = None -> w_sent (hr_w (snd (rnet_host_relay_leave r))) = w_sent (hr_w r) /\
    w_requests (hr_w (snd (rnet_host_relay_leave r))) = w_requests (hr_w r)) as Hleave.
  { intros [] E. cbn in E. subst. by split. }
  split.
  - subst sent. cbn beta. unfold bind at 1 2. destruct (rnet_host_relay_update v r) as [u r1] eqn:E.
    change (snd (u, r1)) with r1. assert (hr_port r1 = None) as Hp; [|by destruct (Hleave r1 Hp) as [-> ->]].
    replace r1 with (snd (rnet_host_relay_update v r)) by by rewrite E.
    unfold rnet_host_relay_update. destruct (rv_active v); cbn [negb].
    + destruct Hv as [|Hh]; [done|]. rewrite Hh. apply guest_has_no_port.
    + by destruct r.
  - by destruct r.
Qed.
Lemma released_mapping_stays_witness :
  let p := set_hp_mapped_port 7777 (set_hp_control_url (B "http://10.0.0.1/ctl") no_port) in
  let r := set_hr_port (Some p) (rnet_host_relay_create (quiet_world 0)) in
  let v := MkRelayView false true 7777 [] [] None in
  w_requests (hr_w (snd ((do! rnet_host_relay_update v; rnet_host_relay_leave) r))) = [].
Proof.
  intros p r v. destruct (released_mapping_stays v r (or_introl eq_refl)) as [H _]. exact (f_equal snd H).
Defined.
