(* ===== verification/IceXfer.v ===== *)
(** * Blob transfer over ICE ([src/lobby/rnet_ice_xfer.c])

    Blobs go out in chunks under a window, with cumulative acknowledgements and
    a retransmission timer; they come in, chunk after chunk, into a buffer. The
    ICE agent is seen through its state, the datagrams it hands out and the
    datagrams it is given. *)

From stdpp Require Import base list numbers list_numbers strings relations.
From S2P Require Import Prelude CStrings Digest Json HostRelayText IceAgent.

Definition XFER_MAGIC : list Z := B "RNETXF1".
Definition XFER_MAGIC_LEN : Z := 7.
Definition XFER_PAYLOAD : Z := 1024.
Definition XFER_WINDOW : Z := 16.
Definition XFER_RETRY_MS : Z := 200.
Definition XFER_CONNECT_MS : Z := 25000.
Definition XFER_Q : Z := 16.
Definition XFER_READY : Z := 4.
Definition XFER_RECV_MAX : nat := Z.to_nat 2048.
Definition XF_DATA : Z := 1.
Definition XF_ACK : Z := 2.
Definition XF_FAIL : Z := 3.

Record XferBlob := MkBlob {
  xb_data : list Z;
  xb_id : Z;
  xb_unacked : Z;
  xb_next_off : Z;
  xb_last_send_ms : Z
}.
Definition xb_len (b : XferBlob) : Z := zlen (xb_data b).

(** [x_recv] holds the bytes received so far of the blob under way: the buffer's
    first [recv_got] bytes; [x_recv_cap] is the size of that buffer, 0 when
    there is none. [x_out] records what was given to the agent. *)
Record RNetIceXfer := MkXfer {
  x_open_ms : Z;
  x_failed : bool;
  x_error : list Z;
  x_next_id : Z;
  x_send_q : list XferBlob;
  x_recv : list Z;
  x_recv_total : Z;
  x_recv_id : Z;
  x_recv_active : bool;
  x_recv_cap : Z;
  x_ready : list (list Z);
  x_out : list (list Z)
}.
Definition eta_x (x : RNetIceXfer) : RNetIceXfer :=
  MkXfer (x_open_ms x) (x_failed x) (x_error x) (x_next_id x) (x_send_q x) (x_recv x) (x_recv_total x) (x_recv_id x)
    (x_recv_active x) (x_recv_cap x) (x_ready x) (x_out x).
Definition set_x_failed := ltac:(updater eta_x x_failed).
Definition set_x_error := ltac:(updater eta_x x_error).
Definition set_x_next_id := ltac:(updater eta_x x_next_id).
Definition set_x_send_q := ltac:(updater eta_x x_send_q).
Definition set_x_recv := ltac:(updater eta_x x_recv).
Definition set_x_recv_total := ltac:(updater eta_x x_recv_total).
Definition set_x_recv_id := ltac:(updater eta_x x_recv_id).
Definition set_x_recv_active := ltac:(updater eta_x x_recv_active).
Definition set_x_recv_cap := ltac:(updater eta_x x_recv_cap).
Definition set_x_ready := ltac:(updater eta_x x_ready).
Definition set_x_out := ltac:(updater eta_x x_out).
Definition x_recv_got (x : RNetIceXfer) : Z := zlen (x_recv x).

(** Little-endian fields. *)
Definition put_u16 (v : Z) : list Z := le_bytes 2 v.
Definition put_u32 (v : Z) : list Z := le_bytes 4 v.
Definition put_u64 (v : Z) : list Z := le_bytes 8 v.
Definition get_u16 (p : list Z) (at_ : nat) : Z := le_val (take 2 (drop at_ p)).
Definition get_u32 (p : list Z) (at_ : nat) : Z := le_val (take 4 (drop at_ p)).
Definition get_u64 (p : list Z) (at_ : nat) : Z := le_val (take 8 (drop at_ p)).

Definition fail_xfer (err : list Z) (x : RNetIceXfer) : RNetIceXfer :=
  if x_failed x then x
  else set_x_error (cut_l 96 (if zlen err =? 0 then B "transfer failed" else err)) (set_x_failed true x).
Definition agent_send (pkt : list Z) (x : RNetIceXfer) : RNetIceXfer := set_x_out (x_out x ++ [pkt]) x.
Definition fail_pkt (e : list Z) : list Z := XFER_MAGIC ++ [XF_FAIL; zlen e] ++ e.
Definition send_fail_pkt (err : list Z) (x : RNetIceXfer) : RNetIceXfer :=
  let e := take 80 err in
  agent_send (fail_pkt e) x.
Definition ack_pkt (blob_id got : Z) : list Z := XFER_MAGIC ++ [XF_ACK] ++ put_u32 blob_id ++ put_u64 got.
Definition send_ack (blob_id got : Z) (x : RNetIceXfer) : RNetIceXfer := agent_send (ack_pkt blob_id got) x.
(** The packet of the chunk at [off]. *)
Definition data_pkt (b : XferBlob) (off : Z) : list Z :=
  let chunk := take (Z.to_nat XFER_PAYLOAD) (drop (Z.to_nat off) (xb_data b)) in
  XFER_MAGIC ++ [XF_DATA] ++ put_u32 (xb_id b) ++ put_u64 (xb_len b) ++ put_u64 off ++ put_u16 (zlen chunk) ++ chunk.
Definition send_data (b : XferBlob) (off : Z) (x : RNetIceXfer) : RNetIceXfer :=
  if xb_len b <? off then x else agent_send (data_pkt b off) x.

(** ** Receiving *)

Definition handle_ack (blob_id got : Z) (x : RNetIceXfer) : RNetIceXfer :=
  match x_send_q x with
  | [] => x
  | b :: rest =>
    if negb (xb_id b =? blob_id) then x
    else if got <? xb_unacked b then x
    else
      let b := MkBlob (xb_data b) (xb_id b) got (Z.max got (xb_next_off b)) (xb_last_send_ms b) in
      if xb_len b <=? xb_unacked b then set_x_send_q rest x else set_x_send_q (b :: rest) x
  end.
Definition push_ready (data : list Z) (x : RNetIceXfer) : RNetIceXfer :=
  if XFER_READY <=? zlen (x_ready x) then x else set_x_ready (x_ready x ++ [data]) x.

(** [mem]: whether the buffer of that many bytes can be allocated. *)
Definition recv_begin (mem : Z -> bool) (blob_id total : Z) (x : RNetIceXfer) : bool * RNetIceXfer :=
  let x := set_x_recv_cap 0 (set_x_recv [] x) in
  let x := set_x_recv_active true (set_x_recv_id blob_id (set_x_recv_total total x)) in
  if 0 <? total then
    if mem total then (true, set_x_recv_cap total x)
    else (false, set_x_recv_active false (fail_xfer (B "out of memory") x))
  else (true, x).
(** The copy of a chunk into the buffer at [off], where the received bytes
    end: [Oob] when it ends beyond the buffer. *)
Definition recv_copy (off : Z) (payload : list Z) (x : RNetIceXfer) : cres RNetIceXfer :=
  if x_recv_cap x <? off + zlen payload then Oob else Ret (set_x_recv (x_recv x ++ payload) x).
Definition recv_finish (blob_id : Z) (x : RNetIceXfer) : RNetIceXfer :=
  let x := send_ack blob_id (x_recv_got x) x in
  if x_recv_total x <=? x_recv_got x then
    let x := push_ready (take (Z.to_nat (x_recv_total x)) (x_recv x)) x in
    set_x_recv_total 0 (set_x_recv [] (set_x_recv_active false (set_x_recv_cap 0 x)))
  else x.
Definition handle_data (mem : Z -> bool) (blob_id total off : Z) (payload : list Z) (x : RNetIceXfer) : cres RNetIceXfer :=
  if 9223372036854775807 <? total then Ret (fail_xfer (B "package too large") x)
  else
    let '(ok, x) := if negb (x_recv_active x) || negb (x_recv_id x =? blob_id) then recv_begin mem blob_id total x else (true, x) in
    if negb ok then Ret x
    else if negb (off =? x_recv_got x) then Ret (send_ack blob_id (x_recv_got x) x)
    else if 0 <? zlen payload then
      if x_recv_total x <? off + zlen payload then Ret (fail_xfer (B "chunk overrun") x)
      else let* x := recv_copy off payload x in Ret (recv_finish blob_id x)
    else Ret (recv_finish blob_id x).

(** A packet of the peer: [Oob] is a write past the end of [err] or
    of the receive buffer. *)
Definition handle_pkt (mem : Z -> bool) (buf : list Z) (x : RNetIceXfer) : cres RNetIceXfer :=
  let len := zlen buf in
  if (len <? 8) || negb (starts_with XFER_MAGIC buf) then Ret x
  else
    let type := rd 0 buf 7 in
    if type =? XF_FAIL then
      let nerr := if 8 <? len then rd 0 buf 8 else 0 in
      let nerr := if len <? nerr + 9 then 0 else nerr in
      if 81 <=? nerr then Oob
      else
        let err := upto_c 0 (take (Z.to_nat nerr) (drop 9 buf)) in
        Ret (fail_xfer (if zlen err =? 0 then B "peer failed" else err) x)
    else if (type =? XF_ACK) && (20 <=? len) then Ret (handle_ack (get_u32 buf 8) (get_u64 buf 12) x)
    else if (type =? XF_DATA) && (30 <=? len) then
      let n := get_u16 buf 28 in
      if len <? 30 + n then Ret x
      else handle_data mem (get_u32 buf 8) (get_u64 buf 12) (get_u64 buf 20) (take (Z.to_nat n) (drop 30 buf)) x
    else Ret x.

(** ** The pump *)

Fixpoint handle_all (mem : Z -> bool) (inbox : list (list Z)) (x : RNetIceXfer) : cres RNetIceXfer :=
  match inbox with
  | [] => Ret x
  | p :: inbox => if zlen p =? 0 then Ret x else let* x := handle_pkt mem (take XFER_RECV_MAX p) x in handle_all mem inbox x
  end.

(** The sending loop on the blob at the head: at most a window of chunks, and
    each round but the last sends a whole one. *)
Definition window_end (b : XferBlob) : Z := u64 (xb_unacked b + XFER_WINDOW * XFER_PAYLOAD).
Fixpoint send_window (fuel : nat) (now : Z) (b : XferBlob) (x : RNetIceXfer) : XferBlob * RNetIceXfer :=
  match fuel with
  | O => (b, x)
  | S fuel =>
    if (xb_next_off b <? xb_len b) && (xb_next_off b <? window_end b) then
      let x := send_data b (xb_next_off b) x in
      let nsend := Z.min (xb_len b - xb_next_off b) XFER_PAYLOAD in
      send_window fuel now (MkBlob (xb_data b) (xb_id b) (xb_unacked b) (xb_next_off b + nsend) now) x
    else (b, x)
  end.
Definition rewind (b : XferBlob) : XferBlob := MkBlob (xb_data b) (xb_id b) (xb_unacked b) (xb_unacked b) (xb_last_send_ms b).
Definition pump_send (now : Z) (x : RNetIceXfer) : RNetIceXfer :=
  match x_send_q x with
  | [] => x
  | b :: rest =>
    if xb_len b <=? xb_unacked b then x
    else
      let b := if window_end b <? xb_next_off b then rewind b else b in
      let b := if (XFER_RETRY_MS <=? u64 (now - xb_last_send_ms b)) && (xb_unacked b <? xb_next_off b) then rewind b else b in
      let '(b, x) := send_window 17 now b x in
      let '(b, x) := if (xb_len b =? 0) && (xb_unacked b =? 0) &&
          ((xb_last_send_ms b =? 0) || (XFER_RETRY_MS <=? u64 (now - xb_last_send_ms b)))
        then (MkBlob (xb_data b) (xb_id b) (xb_unacked b) (xb_next_off b) now, send_data b 0 x) else (b, x) in
      set_x_send_q (b :: rest) x
  end.
(** One pump: the agent's state after its poll, the clock, and the datagrams
    the agent hands out. *)
Definition rnet_ice_xfer_pump (mem : Z -> bool) (st : RNetIceState) (now : Z) (inbox : list (list Z)) (x : RNetIceXfer)
    : cres RNetIceXfer :=
  if x_failed x then Ret x
  else match st with
  | ICE_FAILED => Ret (fail_xfer (B "ICE failed") x)
  | ICE_CONNECTED | ICE_COMPLETED =>
    let* x := handle_all mem inbox x in
    Ret (if x_failed x then x else pump_send now x)
  | _ => Ret (if XFER_CONNECT_MS <=? u64 (now - x_open_ms x) then fail_xfer (B "ICE connect timed out") x else x)
  end.

(** ** The host's calls *)

(** [None]: the agent could not be made or did not start. *)
Definition rnet_ice_xfer_open (agent_ok gathering_ok : bool) (now : Z) : option RNetIceXfer :=
  if agent_ok && gathering_ok then Some (MkXfer now false [] 0 [] [] 0 0 false 0 [] []) else None.
Definition rnet_ice_xfer_queue_blob (data : list Z) (x : RNetIceXfer) : bool * RNetIceXfer :=
  if x_failed x then (false, x)
  else if XFER_Q <=? zlen (x_send_q x) then (false, x)
  else
    let id := u32 (x_next_id x + 1) in
    (true, set_x_next_id id (set_x_send_q (x_send_q x ++ [MkBlob data id 0 0 0]) x)).
Definition rnet_ice_xfer_send_idle (x : RNetIceXfer) : bool := zlen (x_send_q x) <=? 0.
Definition rnet_ice_xfer_take_blob (x : RNetIceXfer) : option (list Z) * RNetIceXfer :=
  match x_ready x with
  | [] => (None, x)
  | d :: rest => (Some d, set_x_ready rest x)
  end.
Definition rnet_ice_xfer_progress (x : RNetIceXfer) : Z :=
  if x_failed x then -2
  else if x_recv_active x && (0 <? x_recv_total x) then s32 (u64 (x_recv_got x * 100) / x_recv_total x)
  else match x_send_q x with
       | b :: _ => if 0 <? xb_len b then s32 (u64 (xb_unacked b * 100) / xb_len b) else 0
       | [] => if 0 <? zlen (x_ready x) then 0 else -1
       end.
Definition rnet_ice_xfer_fail (err : list Z) (x : RNetIceXfer) : RNetIceXfer :=
  let x := fail_xfer err x in send_fail_pkt (x_error x) x.

(** Any use of a transfer: the pumps, each with what the agent does in it, and
    the host's calls. The result has the blobs handed to the host. *)
Inductive xcall : Type :=
| XPump (mem : Z -> bool) (st : RNetIceState) (now : Z) (inbox : list (list Z))
| XQueue (data : list Z)
| XTake
| XFail (err : list Z).
Fixpoint xrun (cs : list xcall) (x : RNetIceXfer) : cres (list (list Z) * RNetIceXfer) :=
  match cs with
  | [] => Ret ([], x)
  | XPump mem st now inbox :: cs => let* x := rnet_ice_xfer_pump mem st now inbox x in xrun cs x
  | XQueue data :: cs => xrun cs (snd (rnet_ice_xfer_queue_blob data x))
  | XTake :: cs =>
    match rnet_ice_xfer_take_blob x with
    | (None, x) => xrun cs x
    | (Some d, x) => let* r := xrun cs x in Ret (d :: fst r, snd r)
    end
  | XFail err :: cs => xrun cs (rnet_ice_xfer_fail err x)
  end.

(** * Theorems on blob transfer over ICE *)


(** ** Packets *)

Lemma get_field n v r : 0 <= v < 2 ^ (8 * Z.of_nat n) -> le_val (take n (le_bytes n v ++ r)) = v.
Proof.
  intros Hv. rewrite take_app_length' by (by rewrite length_le_bytes). rewrite le_val_bytes by lia. by apply Z.mod_small.
Qed.
Lemma starts_with_self a b : starts_with a (a ++ b) = true.
Proof. induction a as [|x a IH]; [by destruct b|]. cbn. by rewrite Z.eqb_refl. Qed.

(** A blob with a name that fits its field and a length that fits memory. *)
Definition blob_ok (b : XferBlob) : Prop := in_u32 (xb_id b) /\ xb_len b <= 9223372036854775807.
Definition chunk (b : XferBlob) (off : Z) : list Z := take (Z.to_nat XFER_PAYLOAD) (drop (Z.to_nat off) (xb_data b)).
Lemma chunk_len b off : 0 <= zlen (chunk b off) <= 1024.
Proof. unfold chunk, zlen. rewrite length_take. change (Z.to_nat XFER_PAYLOAD) with 1024%nat. lia. Qed.

Lemma data_pkt_short b off : (length (data_pkt b off) <= XFER_RECV_MAX)%nat.
Proof.
  unfold data_pkt. fold (chunk b off). pose proof (chunk_len b off). unfold put_u32, put_u64, put_u16, zlen in *.
  unfold XFER_RECV_MAX. rewrite !length_app, !length_le_bytes. change (length XFER_MAGIC) with 7%nat. change (length [XF_DATA]) with 1%nat. lia.
Qed.
Lemma handle_data_pkt mem b off x : blob_ok b -> 0 <= off <= xb_len b ->
  handle_pkt mem (data_pkt b off) x = handle_data mem (xb_id b) (xb_len b) off (chunk b off) x.
Proof.
  intros [Hi Hl] Ho. unfold handle_pkt, data_pkt. fold (chunk b off). pose proof (chunk_len b off) as Hc.
  set (c := chunk b off) in *. pose proof (zlen_nonneg (xb_data b)). unfold xb_len in *.
  set (pkt := XFER_MAGIC ++ [XF_DATA] ++ put_u32 (xb_id b) ++ put_u64 (zlen (xb_data b)) ++ put_u64 off ++ put_u16 (zlen c) ++ c).
  assert (zlen pkt = 30 + zlen c) as L.
  { subst pkt. unfold put_u32, put_u64, put_u16. rewrite !zlen_app. change (zlen XFER_MAGIC) with 7. change (zlen [XF_DATA]) with 1.
    unfold zlen. rewrite !length_le_bytes. lia. }
  rewrite L. destruct (Z.ltb_spec (30 + zlen c) 8); [lia|]. unfold pkt at 1. rewrite starts_with_self. cbn [negb orb].
  assert (rd 0 pkt 7 = XF_DATA) as -> by done. change (XF_DATA =? XF_FAIL) with false. change (XF_DATA =? XF_ACK) with false.
  change (XF_DATA =? XF_DATA) with true. cbn [andb]. destruct (Z.leb_spec 30 (30 + zlen c)); [|lia].
  assert (get_u16 pkt 28 = zlen c) as ->.
  { unfold get_u16. change (drop 28 pkt) with (put_u16 (zlen c) ++ c). apply get_field. change (2 ^ (8 * Z.of_nat 2)) with 65536. lia. }
  assert (get_u32 pkt 8 = xb_id b) as ->.
  { unfold get_u32. change (drop 8 pkt) with (put_u32 (xb_id b) ++ put_u64 (zlen (xb_data b)) ++ put_u64 off ++ put_u16 (zlen c) ++ c).
    apply get_field. change (2 ^ (8 * Z.of_nat 4)) with 4294967296. by ranges. }
  assert (get_u64 pkt 12 = zlen (xb_data b)) as ->.
  { unfold get_u64. change (drop 12 pkt) with (put_u64 (zlen (xb_data b)) ++ put_u64 off ++ put_u16 (zlen c) ++ c).
    apply get_field. change (2 ^ (8 * Z.of_nat 8)) with 18446744073709551616. lia. }
  assert (get_u64 pkt 20 = off) as ->.
  { unfold get_u64. change (drop 20 pkt) with (put_u64 off ++ put_u16 (zlen c) ++ c).
    apply get_field. change (2 ^ (8 * Z.of_nat 8)) with 18446744073709551616. lia. }
  change (drop 30 pkt) with c. rewrite Z.ltb_irrefl. unfold zlen. by rewrite Nat2Z.id, take_ge.
Qed.
Lemma handle_ack_pkt mem id got x : in_u32 id -> in_u64 got ->
  handle_pkt mem (ack_pkt id got) x = Ret (handle_ack id got x).
Proof.
  intros Hi Hg. unfold handle_pkt, ack_pkt. set (pkt := XFER_MAGIC ++ [XF_ACK] ++ put_u32 id ++ put_u64 got).
  assert (zlen pkt = 20) as -> by done. change (20 <? 8) with false. unfold pkt at 1. rewrite starts_with_self. cbn [negb orb].
  assert (rd 0 pkt 7 = XF_ACK) as -> by done. change (XF_ACK =? XF_FAIL) with false. change (XF_ACK =? XF_ACK) with true.
  change (20 <=? 20) with true. cbn [andb].
  assert (get_u32 pkt 8 = id) as ->.
  { unfold get_u32. change (drop 8 pkt) with (put_u32 id ++ put_u64 got). apply get_field. by ranges. }
  assert (get_u64 pkt 12 = got) as ->; [|done].
  unfold get_u64. change (drop 12 pkt) with (put_u64 got). rewrite <- (app_nil_r (put_u64 got)). apply get_field. by ranges.
Qed.

(** ** The receiver *)

(** What a data packet can do to a property of the state. *)
Section DataPacket.
Context (P : RNetIceXfer -> Prop).
Context (Pfail : forall err x, P x -> P (fail_xfer err x)) (Pack : forall id got x, P x -> P (send_ack id got x))
  (Ppush : forall d x, P x -> P (push_ready d x)) (Precv : forall r x, P x -> P (set_x_recv r x))
  (Ptotal : forall t x, P x -> P (set_x_recv_total t x)) (Pid : forall i x, P x -> P (set_x_recv_id i x))
  (Pactive : forall a x, P x -> P (set_x_recv_active a x)) (Pcap : forall c x, P x -> P (set_x_recv_cap c x)).

Lemma handle_data_keeps mem id total off payload x x' :
  handle_data mem id total off payload x = Ret x' -> P x -> P x'.
Proof using All.
  intros H Hx. unfold handle_data in H. destruct (_ <? total); [injection H as <-; by auto|].
  assert (P (if negb (x_recv_active x) || negb (x_recv_id x =? id) then recv_begin mem id total x else (true, x)).2) as K.
  { destruct (_ || _); [|done]. unfold recv_begin. repeat case_match; cbn [snd]; auto 10. }
  destruct (if negb _ || _ then _ else _) as [ok x1]. cbn [snd] in K.
  assert (forall y, P y -> P (recv_finish id y)) as F.
  { intros y Hy. unfold recv_finish. cbn zeta. destruct (_ <=? _); auto 10. }
  destruct (negb ok); [injection H as <-; by auto|]. destruct (negb _); [injection H as <-; by auto|].
  destruct (0 <? _); [|injection H as <-; by auto]. destruct (_ <? _); [injection H as <-; by auto|].
  apply cbind_Ret in H as (y & Hy & H). injection H as <-. apply F. unfold recv_copy in Hy.
  destruct (_ <? _); [done|]. injection Hy as <-. by auto.
Qed.
End DataPacket.

(** The buffer has the size the blob under way was announced with. *)
Definition recv_fits (x : RNetIceXfer) : Prop :=
  x_recv_active x = true -> x_recv_cap x = Z.max 0 (x_recv_total x).
Lemma fits_fail err x : recv_fits x -> recv_fits (fail_xfer err x).
Proof. unfold fail_xfer. destruct (x_failed x); [done|]. by destruct x. Qed.
Lemma fits_send pkt x : recv_fits x -> recv_fits (agent_send pkt x).
Proof. by destruct x. Qed.
Lemma fits_finish id x : recv_fits x -> recv_fits (recv_finish id x).
Proof.
  intros H. unfold recv_finish. cbn zeta. destruct (_ <=? _); [|by apply fits_send].
  unfold recv_fits. generalize (push_ready (take (Z.to_nat (x_recv_total (send_ack id (x_recv_got x) x))) (x_recv (send_ack id (x_recv_got x) x))) (send_ack id (x_recv_got x) x)).
  intros y. by destruct y.
Qed.
Lemma fits_begin mem id total x x1 : recv_begin mem id total x = (true, x1) ->
  recv_fits x1 /\ x_recv_active x1 = true /\ x_recv_id x1 = id /\ x_recv_total x1 = total /\ x_recv x1 = [] /\ x_ready x1 = x_ready x.
Proof.
  unfold recv_begin. destruct (Z.ltb_spec 0 total).
  - destruct (mem total); [|done]. intros [= <-]. destruct x. split_and!; try done. unfold recv_fits. cbn. lia.
  - intros [= <-]. destruct x. split_and!; try done. unfold recv_fits. cbn. lia.
Qed.
Lemma begin_fails mem id total x x1 : recv_begin mem id total x = (false, x1) ->
  x_recv_active x1 = false /\ x_ready x1 = x_ready x.
Proof.
  unfold recv_begin. destruct (0 <? total); [|done]. destruct (mem total); [done|]. intros [= <-].
  destruct x as [? fl]. unfold fail_xfer. cbn. by destruct fl.
Qed.
(** A data packet never writes outside the buffer. *)
Lemma handle_data_fits mem id total off payload x : recv_fits x ->
  exists x', handle_data mem id total off payload x = Ret x' /\ recv_fits x'.
Proof.
  intros Hx. unfold handle_data. destruct (_ <? total); [by eexists; split; [|apply fits_fail]|].
  assert (forall x, recv_fits x -> x_recv_active x = true ->
    exists x', (if negb (off =? x_recv_got x) then Ret (send_ack id (x_recv_got x) x)
      else if 0 <? zlen payload then
        if x_recv_total x <? off + zlen payload then Ret (fail_xfer (B "chunk overrun") x)
        else let* x := recv_copy off payload x in Ret (recv_finish id x)
      else Ret (recv_finish id x)) = Ret x' /\ recv_fits x') as K.
  { clear x Hx. intros x Hx Ha. destruct (negb _); [by eexists; split; [|apply fits_send]|].
    destruct (0 <? _); [|by eexists; split; [|apply fits_finish]].
    destruct (Z.ltb_spec (x_recv_total x) (off + zlen payload)); [by eexists; split; [|apply fits_fail]|].
    unfold recv_copy. destruct (Z.ltb_spec (x_recv_cap x) (off + zlen payload)); [rewrite Hx in *; [lia|done]|].
    eexists; split; [done|]. apply fits_finish. by destruct x. }
  destruct (negb (x_recv_active x) || negb (x_recv_id x =? id)) eqn:E.
  - destruct (recv_begin mem id total x) as [[] x1] eqn:Eb; cbn [negb].
    + apply fits_begin in Eb as (? & ? & _). by apply K.
    + apply begin_fails in Eb as [Ha _]. exists x1. split; [done|]. intros ?. congruence.
  - apply orb_false_elim in E as [E1 _]. apply negb_false_iff in E1. by apply K.
Qed.
Lemma fits_ack id got x : recv_fits x -> recv_fits (handle_ack id got x).
Proof. intros H. unfold handle_ack. repeat (case_match; try done); by destruct x. Qed.
Lemma handle_pkt_fits mem buf x x' : handle_pkt mem buf x = Ret x' -> recv_fits x -> recv_fits x'.
Proof.
  intros H Hx. unfold handle_pkt in H. destruct (_ || _); [by injection H as <-|]. destruct (_ =? XF_FAIL).
  { cbn zeta in H. destruct (81 <=? _); [done|]. injection H as <-. by apply fits_fail. }
  destruct (_ && _); [injection H as <-; by apply fits_ack|].
  destruct (_ && _); [|by injection H as <-]. cbn zeta in H. destruct (_ <? _); [by injection H as <-|].
  match goal with H : handle_data ?m ?i ?t ?o ?p x = _ |- _ => destruct (handle_data_fits m i t o p x Hx) as (y & E & Hy) end.
  rewrite E in H. by injection H as <-.
Qed.

(** ** Runs *)

Lemma handle_all_cons mem p inbox x : handle_all mem (p :: inbox) x =
  if zlen p =? 0 then Ret x else let* x := handle_pkt mem (take XFER_RECV_MAX p) x in handle_all mem inbox x.
Proof. reflexivity. Qed.

(** A property that every packet of [good] keeps, and failing and sending keep,
    is kept by a pump on packets of [good], which returns. *)
Section Pumps.
Context (P : RNetIceXfer -> Prop) (good : list Z -> Prop).
Context (Pfail : forall err x, P x -> P (fail_xfer err x)) (Psend : forall pkt x, P x -> P (agent_send pkt x))
  (Pq : forall q x, P x -> P (set_x_send_q q x)).
Context (Ppkt : forall mem p x, good p -> P x -> exists x', handle_pkt mem (take XFER_RECV_MAX p) x = Ret x' /\ P x').

Lemma handle_all_keeps mem inbox : Forall good inbox -> forall x, P x -> exists x', handle_all mem inbox x = Ret x' /\ P x'.
Proof using Ppkt.
  intros Hf. induction Hf as [|p inbox Hp Hf IH]; intros x Hx; [by exists x|]. rewrite handle_all_cons.
  destruct (_ =? 0); [by exists x|]. destruct (Ppkt mem p x Hp Hx) as (x1 & -> & Hx1). by apply IH.
Qed.
Lemma send_window_keeps now fuel : forall b x, P x -> P (send_window fuel now b x).2.
Proof using Psend.
  induction fuel as [|fuel IH]; intros b x Hx; cbn [send_window]; [done|]. destruct (_ && _); [|done].
  apply IH. unfold send_data. destruct (_ <? _); by auto.
Qed.
Lemma pump_send_keeps now x : P x -> P (pump_send now x).
Proof using Psend Pq.
  intros Hx. unfold pump_send. destruct (x_send_q x) as [|b rest]; [done|]. destruct (_ <=? _); [done|].
  match goal with |- context [send_window 17 now ?c x] => pose proof (send_window_keeps now 17 c x Hx) as W;
    destruct (send_window 17 now c x) as [b' x1] end.
  cbn [snd] in W. destruct (_ && _); apply Pq; [|done]. unfold send_data. destruct (_ <? _); by auto.
Qed.
Lemma pump_keeps mem st now inbox x : Forall good inbox -> P x ->
  exists x', rnet_ice_xfer_pump mem st now inbox x = Ret x' /\ P x'.
Proof using All.
  intros Hf Hx. unfold rnet_ice_xfer_pump. destruct (x_failed x); [by exists x|].
  destruct (handle_all_keeps mem inbox Hf x Hx) as (x1 & E & Hx1).
  destruct st; try (eexists; split; [done|]; try destruct (_ <=? _); by auto);
    (rewrite E; eexists; split; [done|]; destruct (x_failed x1); [done|by apply pump_send_keeps]).
Qed.
End Pumps.

(** ** What is delivered *)

Section Genuine.
Context (blobs : list XferBlob) (Hblobs : Forall blob_ok blobs) (Hids : NoDup (xb_id <$> blobs)).

Definition genuine (d : list Z) : Prop := exists b, b ∈ blobs /\ d = xb_data b.
(** The buffer holds the front of the blob it is for. *)
Definition recv_inv (x : RNetIceXfer) : Prop :=
  recv_fits x /\ Forall genuine (x_ready x) /\
  (x_recv_active x = true -> exists b, b ∈ blobs /\ xb_id b = x_recv_id x /\ x_recv_total x = xb_len b /\
     x_recv x = take (length (x_recv x)) (xb_data b)).
Lemma same_blob b b' : b ∈ blobs -> b' ∈ blobs -> xb_id b = xb_id b' -> b = b'.
Proof using Hids.
  intros Hb Hb' E. apply list_elem_of_lookup in Hb as [i Hi], Hb' as [j Hj].
  assert (i = j) as ->; [|congruence].
  eapply (NoDup_lookup (xb_id <$> blobs)); [done| |]; rewrite list_lookup_fmap; [by rewrite Hi|rewrite Hj; cbn; congruence].
Qed.
Lemma recv_inv_fail err x : recv_inv x -> recv_inv (fail_xfer err x).
Proof. intros H. unfold fail_xfer. destruct (x_failed x); [done|]. by destruct x. Qed.
Lemma recv_inv_send pkt x : recv_inv x -> recv_inv (agent_send pkt x).
Proof. by destruct x. Qed.
Lemma recv_inv_q q x : recv_inv x -> recv_inv (set_x_send_q q x).
Proof. by destruct x. Qed.
Lemma recv_inv_ack id got x : recv_inv x -> recv_inv (handle_ack id got x).
Proof. intros H. unfold handle_ack. repeat (case_match; try done); by destruct x. Qed.
Lemma take_more (d : list Z) n c : c = take 1024 (drop n d) -> take n d ++ c = take (length (take n d ++ c)) d.
Proof.
  intros ->. rewrite take_take_drop, length_take. destruct (decide (n + 1024 <= length d)%nat).
  - by replace ((n + 1024) `min` length d)%nat with (n + 1024)%nat by lia.
  - replace ((n + 1024) `min` length d)%nat with (length d) by lia. rewrite !take_ge; [done|lia..].
Qed.
(** The buffer is handed over when it holds the whole blob. *)
Lemma finish_inv b x : b ∈ blobs -> recv_inv x -> x_recv_active x = true -> x_recv_id x = xb_id b ->
  recv_inv (recv_finish (xb_id b) x).
Proof using Hids.
  intros Hb (Hf & Hr & Hact) Ha Hid. split; [by apply fits_finish|].
  destruct (Hact Ha) as (b' & Hb' & Ei & Et & Er). assert (b' = b) as -> by (apply same_blob; [done..|congruence]).
  destruct x as [? ? ? ? ? recv ? ? ? ? ready ?]. cbn in *. subst. unfold recv_finish, x_recv_got. cbn.
  destruct (Z.leb_spec (xb_len b) (zlen recv)) as [L|L]; cbn; [|split; [done|by intros _; exists b]].
  assert (recv = xb_data b) as -> by (rewrite Er; apply take_ge; unfold xb_len, zlen in L; lia).
  unfold push_ready. cbn. rewrite take_ge by (unfold xb_len, zlen; lia).
  destruct (XFER_READY <=? _); cbn; (split; [|done]); [done|]. apply Forall_app. split; [done|].
  constructor; [by exists b|done].
Qed.
Lemma handle_data_inv mem b off x x' : b ∈ blobs -> recv_inv x ->
  handle_data mem (xb_id b) (xb_len b) off (chunk b off) x = Ret x' -> recv_inv x'.
Proof using Hids.
  intros Hb Hx H. unfold handle_data in H. destruct (_ <? xb_len b); [injection H as <-; by apply recv_inv_fail|].
  destruct (if negb (x_recv_active x) || negb (x_recv_id x =? xb_id b) then recv_begin mem (xb_id b) (xb_len b) x else (true, x))
    as [ok x1] eqn:E.
  assert (recv_inv x1 /\ (ok = true -> x_recv_active x1 = true /\ x_recv_id x1 = xb_id b)) as [Hx1 Hok].
  { destruct (_ || _) eqn:Eo.
    - destruct ok.
      + apply fits_begin in E as (Hf & ? & ? & ? & E & Er). split; [|done]. split_and!; [done|rewrite Er; apply Hx|].
        intros _. exists b. by rewrite E.
      + apply begin_fails in E as [Ha Er]. split; [|done]. split_and!; [|rewrite Er; apply Hx|]; intros ?; congruence.
    - injection E as <- <-. apply orb_false_elim in Eo as [E1 E2]. apply negb_false_iff in E1, E2. apply Z.eqb_eq in E2. done. }
  clear E. destruct ok; cbn [negb] in H; [|by injection H as <-]. destruct (Hok eq_refl) as [Ha Hid].
  destruct (Z.eqb_spec off (x_recv_got x1)) as [Eo|]; cbn [negb] in H; [|injection H as <-; by apply recv_inv_send].
  destruct (0 <? _); [|injection H as <-; by apply finish_inv].
  destruct (_ <? _); [injection H as <-; by apply recv_inv_fail|]. apply cbind_Ret in H as (y & Hy & H). injection H as <-.
  unfold recv_copy in Hy. destruct (_ <? _); [done|]. injection Hy as <-.
  destruct Hx1 as (Hf & Hr & Hact). destruct (Hact Ha) as (b' & Hb' & Ei & Et & Er).
  assert (b' = b) as -> by (apply same_blob; [done..|congruence]).
  apply finish_inv; [done| |by destruct x1..]. split_and!; [by destruct x1..|]. intros _. exists b.
  assert (x_recv x1 ++ chunk b off = take (length (x_recv x1 ++ chunk b off)) (xb_data b)) as En; [|by destruct x1].
  rewrite Er at 1. rewrite Er at 2. apply take_more. unfold chunk, x_recv_got, zlen in *. rewrite Eo. by rewrite Nat2Z.id.
Qed.

(** What the peer's code gives to its agent: chunks of its blobs, any
    acknowledgement, a failure notice. *)
Definition peer_packet (p : list Z) : Prop :=
  (exists b off, b ∈ blobs /\ 0 <= off <= xb_len b /\ p = data_pkt b off) \/
  (exists id got, in_u32 id /\ in_u64 got /\ p = ack_pkt id got) \/
  (exists e, (length e <= 80)%nat /\ p = fail_pkt e).
Lemma fail_notice mem e x : (length e <= 80)%nat ->
  exists err, handle_pkt mem (take XFER_RECV_MAX (fail_pkt e)) x = Ret (fail_xfer err x).
Proof.
  intros He. assert (length (fail_pkt e) = 9 + length e)%nat as L by (unfold fail_pkt; by rewrite !length_app).
  rewrite take_ge by (rewrite L; unfold XFER_RECV_MAX; lia). unfold handle_pkt.
  assert (zlen (fail_pkt e) = 9 + zlen e) as L' by (unfold zlen; lia). pose proof (zlen_nonneg e) as Hn.
  rewrite L'. destruct (Z.ltb_spec (9 + zlen e) 8); [lia|].
  assert (starts_with XFER_MAGIC (fail_pkt e) = true) as -> by apply starts_with_self. cbn [negb orb].
  change (rd 0 (fail_pkt e) 7 =? XF_FAIL) with true. cbn iota.
  change (rd 0 (fail_pkt e) 8) with (zlen e).
  destruct (Z.ltb_spec 8 (9 + zlen e)); [|lia]. destruct (Z.ltb_spec (9 + zlen e) (zlen e + 9)); [lia|].
  destruct (Z.leb_spec 81 (zlen e)); [unfold zlen in *; lia|]. cbn zeta. eauto.
Qed.
Lemma peer_packet_inv mem p x : peer_packet p -> recv_inv x ->
  exists x', handle_pkt mem (take XFER_RECV_MAX p) x = Ret x' /\ recv_inv x'.
Proof using Hblobs Hids.
  intros [(b & off & Hb & Ho & ->)|[(id & got & Hi & Hg & ->)|(e & He & ->)]] Hx.
  - rewrite take_ge by apply data_pkt_short. rewrite Forall_forall in Hblobs. rewrite handle_data_pkt by auto.
    destruct (handle_data_fits mem (xb_id b) (xb_len b) off (chunk b off) x (proj1 Hx)) as (x' & E & _).
    exists x'. split; [done|]. by eapply handle_data_inv.
  - rewrite take_ge by (change (length (ack_pkt id got)) with 20%nat; unfold XFER_RECV_MAX; lia).
    rewrite handle_ack_pkt by done. eexists. split; [done|]. by apply recv_inv_ack.
  - destruct (fail_notice mem e x He) as [err ->]. eexists. split; [done|]. by apply recv_inv_fail.
Qed.

(** The network hands the receiver packets of the peer only. *)
Definition peer_call (c : xcall) : Prop :=
  match c with XPump _ _ _ inbox => Forall peer_packet inbox | _ => True end.
Lemma xrun_inv cs : Forall peer_call cs -> forall x, recv_inv x ->
  exists out x', xrun cs x = Ret (out, x') /\ Forall genuine out.
Proof using Hblobs Hids.
  intros Hf. induction Hf as [|c cs Hc Hf IH]; intros x Hx; [by exists [], x|].
  destruct c as [mem st now inbox|data| |err]; cbn [xrun].
  - destruct (pump_keeps recv_inv peer_packet recv_inv_fail recv_inv_send recv_inv_q peer_packet_inv mem st now inbox x Hc Hx)
      as (x1 & -> & Hx1). by apply IH.
  - apply IH. unfold rnet_ice_xfer_queue_blob. repeat case_match; by destruct x.
  - unfold rnet_ice_xfer_take_blob. destruct (x_ready x) as [|d ready] eqn:E; [by apply IH|].
    destruct Hx as (Hx & Hr & Ha). rewrite E in Hr. apply Forall_cons in Hr as [Hd Hr].
    destruct (IH (set_x_ready ready x)) as (out & x' & -> & Ho); [destruct x; by split_and!|].
    exists (d :: out), x'. split; [done|]. by constructor.
  - apply IH. unfold rnet_ice_xfer_fail, send_fail_pkt. by apply recv_inv_send, recv_inv_fail.
Qed.
End Genuine.

(** Whatever the datagrams are, the buffer keeps its size. *)
Lemma xrun_fits cs : forall x out x', xrun cs x = Ret (out, x') -> recv_fits x -> recv_fits x'.
Proof.
  induction cs as [|[mem st now inbox|data| |err] cs IH]; intros x out x' H Hx; cbn [xrun] in H; [by injection H as _ <-|..].
  - apply cbind_Ret in H as (x1 & H1 & H). eapply IH; [done|]. clear IH H.
    assert (forall inbox x x', handle_all mem inbox x = Ret x' -> recv_fits x -> recv_fits x') as K.
    { clear. induction inbox as [|p inbox IH]; intros x x' H Hx; [by injection H as <-|]. rewrite handle_all_cons in H.
      destruct (_ =? 0); [by injection H as <-|]. apply cbind_Ret in H as (x1 & H1 & H). eapply IH; [done|]. by eapply handle_pkt_fits. }
    unfold rnet_ice_xfer_pump in H1. destruct (x_failed x); [by injection H1 as <-|].
    destruct st; try (injection H1 as <-; try destruct (_ <=? _); done || by apply fits_fail).
    all: apply cbind_Ret in H1 as (x2 & H2 & H1); injection H1 as <-; apply K in H2; [|done]; destruct (x_failed x2); [done|];
      apply (pump_send_keeps recv_fits fits_send); [|done]; by intros q [].
  - eapply IH; [done|]. unfold rnet_ice_xfer_queue_blob. repeat case_match; by destruct x.
  - unfold rnet_ice_xfer_take_blob in H. destruct (x_ready x); [by eapply IH|].
    apply cbind_Ret in H as ([o y] & H1 & H). injection H as _ <-. eapply IH; [done|]. by destruct x.
  - eapply IH; [done|]. unfold rnet_ice_xfer_fail, send_fail_pkt. by apply fits_send, fits_fail.
Qed.

(** C16. Nothing but what was sent is delivered: let the peer queue blobs with
    different 32-bit ids, none longer than half the address space. Whatever the
    network does with the peer's packets - lose, repeat, reorder, deliver late -
    and however the receiver is used (any sequence of pumps, in any state of the
    agent, with or without memory to be had, of blobs queued, blobs taken and
    failures reported), the run ends without a write outside its memory, and
    every blob it hands to its host is one of the peer's blobs, byte for byte.
    The receive buffer is safe even from packets no honest peer sends: in every
    state the transfer can reach, on any datagrams at all, no chunk - whatever
    id, total, offset and payload it claims - is copied beyond the buffer. *)
Theorem xfer_delivers_genuine blobs now cs x0 : Forall blob_ok blobs -> NoDup (xb_id <$> blobs) ->
  rnet_ice_xfer_open true true now = Some x0 -> Forall (peer_call blobs) cs ->
  (exists out x, xrun cs x0 = Ret (out, x) /\ forall d, d ∈ out -> exists b, b ∈ blobs /\ d = xb_data b) /\
  (forall cs' out' x', xrun cs' x0 = Ret (out', x') ->
    forall mem id total off payload, exists y, handle_data mem id total off payload x' = Ret y).
Proof.
  intros Hb Hn [= <-] Hc. split.
  2: { intros cs' out' x' Hx%xrun_fits mem id total off payload; [|done].
       destruct (handle_data_fits mem id total off payload x' Hx) as (y & E & _). by exists y. }
  destruct (xrun_inv blobs Hb Hn cs Hc (MkXfer now false [] 0 [] [] 0 0 false 0 [] []))
    as (out & x & E & Ho); [by split_and!|]. exists out, x. split; [done|]. by rewrite Forall_forall in Ho.
Qed.
(** Two chunks over two pumps, the first of them repeated, then the take. *)
Definition xfer_demo (b : XferBlob) : list xcall :=
  [XPump (fun _ => true) ICE_CONNECTED 10 [data_pkt b 0; data_pkt b 0];
   XTake; XPump (fun _ => true) ICE_CONNECTED 20 [data_pkt b 0; data_pkt b 1024]; XTake].
Lemma xfer_delivers_genuine_witness :
  let b := MkBlob (replicate 1500 7) 1 0 0 0 in
  exists out x, xrun (xfer_demo b) (MkXfer 0 false [] 0 [] [] 0 0 false 0 [] []) = Ret (out, x) /\
    out = [replicate 1500 7] /\ forall d, d ∈ out -> exists b', b' ∈ [b] /\ d = xb_data b'.
Proof.
  intros b. destruct (xfer_delivers_genuine [b] 0 (xfer_demo b) (MkXfer 0 false [] 0 [] [] 0 0 false 0 [] [])) as [(out & x & E & H) _].
  - repeat constructor; by vm_compute.
  - by apply NoDup_singleton.
  - done.
  - assert (forall off, 0 <= off <= xb_len b -> peer_packet [b] (data_pkt b off)) as K.
    { intros off Ho. left. exists b, off. split; [by left|done]. }
    repeat first [apply K; by vm_compute|done|constructor].
  - exists out, x. split; [done|]. split; [|done]. vm_compute in E. by injection E as <- _.
Defined.

(** ** Where it ends *)

(** C18. The packet that overruns: in every state a transfer can reach from its
    opening, a packet of the peer makes the receiver write outside its memory
    exactly when it is a failure notice whose text is 81 bytes or longer (up to
    255, its length being one byte). The sender limits its own notices to 80
    bytes; the receiver has 81 and does not check. *)
Theorem fail_packet_overruns mem buf now cs x0 out x : Forall in_u8 buf ->
  rnet_ice_xfer_open true true now = Some x0 -> xrun cs x0 = Ret (out, x) ->
  handle_pkt mem buf x = Oob <->
  starts_with XFER_MAGIC buf = true /\ rd 0 buf 7 = XF_FAIL /\ 81 <= rd 0 buf 8 /\ rd 0 buf 8 + 9 <= zlen buf.
Proof.
  intros Hb [= <-] Hrun%xrun_fits; [|done]. unfold handle_pkt.
  assert (81 <= rd 0 buf 8 -> 8 < zlen buf) as Hlen.
  { intros H. destruct (decide (8 < zlen buf)); [done|]. unfold rd in H. rewrite nth_overflow in H; [lia|unfold zlen in *; lia]. }
  destruct (Z.ltb_spec (zlen buf) 8); cbn [orb]; [split; [done|intros (_ & _ & H8 & _); specialize (Hlen H8); lia]|].
  destruct (starts_with XFER_MAGIC buf); cbn [negb]; [|split; [done|by intros (? & _)]].
  destruct (Z.eqb_spec (rd 0 buf 7) XF_FAIL) as [E|E].
  - destruct (Z.ltb_spec 8 (zlen buf)); [|split; [by destruct (_ <? _)|intros (_ & _ & H8 & _); specialize (Hlen H8); lia]].
    destruct (Z.ltb_spec (zlen buf) (rd 0 buf 8 + 9)); cbn [Z.leb]; [split; [done|lia]|].
    destruct (Z.leb_spec 81 (rd 0 buf 8)); [|split; [done|lia]]. done.
  - split; [|by intros (_ & ? & _)]. destruct (_ && _); [done|]. destruct (_ && _); [|done]. cbn zeta. destruct (_ <? _); [done|].
    match goal with |- handle_data ?m ?i ?t ?o ?p x = _ -> _ => by destruct (handle_data_fits m i t o p x Hrun) as (y & -> & _) end.
Qed.
Lemma fail_packet_overruns_witness :
  handle_pkt (fun _ => true) (XFER_MAGIC ++ [3; 81] ++ replicate 81 65) (MkXfer 0 false [] 0 [] [] 0 0 false 0 [] []) = Oob.
Proof.
  apply (fail_packet_overruns (fun _ => true) _ 0 [] (MkXfer 0 false [] 0 [] [] 0 0 false 0 [] []) []); [by apply (bool_decide_unpack _); vm_compute|done|done|by vm_compute].
Defined.

(** What a packet does to the queue of blobs to send: only an acknowledgement
    of its head changes it. *)
Definition acks_head (id : Z) (buf : list Z) : Prop := rd 0 buf 7 = XF_ACK /\ get_u32 buf 8 = id.
Lemma fail_xfer_send_q err x : x_send_q (fail_xfer err x) = x_send_q x.
Proof. unfold fail_xfer. by destruct (x_failed x), x. Qed.
Lemma handle_data_send_q mem id total off payload x x' : handle_data mem id total off payload x = Ret x' -> x_send_q x' = x_send_q x.
Proof.
  intros H. eapply (handle_data_keeps (fun y => x_send_q y = x_send_q x)); [..|exact H|done]; try (by intros ? []).
  - intros err y. by rewrite fail_xfer_send_q.
  - intros d y. unfold push_ready. by destruct (_ <=? _), y.
Qed.
Lemma handle_pkt_send_q mem buf x x' b rest : x_send_q x = b :: rest -> ~ acks_head (xb_id b) buf ->
  handle_pkt mem buf x = Ret x' -> x_send_q x' = b :: rest.
Proof.
  intros Hq Hn. unfold handle_pkt. destruct (_ || _); [by intros [= <-]|].
  destruct (Z.eqb_spec (rd 0 buf 7) XF_FAIL).
  { cbn zeta. destruct (81 <=? _); [done|]. intros [= <-]. by rewrite fail_xfer_send_q. }
  destruct (Z.eqb_spec (rd 0 buf 7) XF_ACK) as [E|]; cbn [andb]; [destruct (20 <=? _); [intros [= <-]|]|].
  - unfold handle_ack. rewrite Hq. destruct (Z.eqb_spec (xb_id b) (get_u32 buf 8)) as [E'|]; [|done]. by destruct Hn.
  - rewrite E. cbn [andb Z.eqb]. by intros [= <-].
  - destruct (_ && _); [|by intros [= <-]]. cbn zeta. destruct (_ <? _); [by intros [= <-]|]. intros H%handle_data_send_q. congruence.
Qed.
Lemma handle_all_send_q mem inbox : forall x x' b rest, x_send_q x = b :: rest ->
  Forall (fun p => ~ acks_head (xb_id b) (take XFER_RECV_MAX p)) inbox -> handle_all mem inbox x = Ret x' -> x_send_q x' = b :: rest.
Proof.
  induction inbox as [|p inbox IH]; intros x x' b rest Hq Hf H; cbn [handle_all] in H; [by simplify_eq|].
  apply Forall_cons in Hf as [Hp Hf]. destruct (_ =? 0); [by simplify_eq|].
  apply cbind_Ret in H as (x1 & H1 & H). eapply IH; [by eapply handle_pkt_send_q|done|done].
Qed.

Lemma fail_xfer_out err x : x_out (fail_xfer err x) = x_out x.
Proof. unfold fail_xfer. by destruct (x_failed x), x. Qed.
(** The receiver answers with acknowledgements only. *)
Definition acks_only (x : RNetIceXfer) : Prop := Forall (fun p => rd 0 p 7 = XF_ACK) (x_out x).
Lemma acks_fail err x : acks_only x -> acks_only (fail_xfer err x).
Proof. unfold acks_only. by rewrite fail_xfer_out. Qed.
Lemma acks_send id got x : acks_only x -> acks_only (send_ack id got x).
Proof. unfold acks_only. intros H. destruct x. cbn in *. apply Forall_app. split; [done|by constructor]. Qed.
Lemma handle_data_out mem id total off payload x x' : handle_data mem id total off payload x = Ret x' -> acks_only x -> acks_only x'.
Proof.
  apply (handle_data_keeps acks_only acks_fail acks_send); try (by intros ? []).
  intros d y. unfold push_ready. by destruct (_ <=? _), y.
Qed.
Lemma handle_pkt_out mem buf x x' : handle_pkt mem buf x = Ret x' -> acks_only x -> acks_only x'.
Proof.
  intros H1 Ha. unfold handle_pkt in H1. destruct (_ || _); [by injection H1 as <-|]. destruct (_ =? XF_FAIL).
  { cbn zeta in H1. destruct (81 <=? _); [done|]. injection H1 as <-. by apply acks_fail. }
  destruct (_ && _).
  { injection H1 as <-. unfold handle_ack. repeat (case_match; try done); by destruct x. }
  destruct (_ && _); [|by injection H1 as <-]. cbn zeta in H1.
  destruct (_ <? _); [by injection H1 as <-|]. by eapply handle_data_out.
Qed.
Lemma handle_all_out mem inbox : forall x x', handle_all mem inbox x = Ret x' -> acks_only x -> acks_only x'.
Proof.
  induction inbox as [|p inbox IH]; intros x x' H Ha; cbn [handle_all] in H; [by simplify_eq|].
  destruct (_ =? 0); [by simplify_eq|]. apply cbind_Ret in H as (x1 & H1 & H). eapply IH; [done|].
  by eapply handle_pkt_out.
Qed.

(** An end marker is never sent: with an empty blob at the head of the
    queue a pump - at any time, in any state of the agent, on any datagrams that
    do not acknowledge that blob - leaves the queue as it is, and nothing it
    gives to the agent is a data packet of any blob. No peer can acknowledge what
    it never got, so the queue is stuck, although the header calls a zero-length
    blob a valid end marker and the pump has a branch meant to send it. *)
Theorem end_marker_blocks mem st now inbox x x' b rest : x_send_q x = b :: rest -> xb_data b = [] -> xb_unacked b = 0 ->
  Forall (fun p => ~ acks_head (xb_id b) (take XFER_RECV_MAX p)) inbox -> x_out x = [] ->
  rnet_ice_xfer_pump mem st now inbox x = Ret x' ->
  x_send_q x' = b :: rest /\ Forall (fun p => rd 0 p 7 = XF_ACK) (x_out x').
Proof.
  intros Hq Hd Hu Hf Ho H. unfold rnet_ice_xfer_pump in H.
  assert (x_send_q x = b :: rest /\ Forall (fun p => rd 0 p 7 = XF_ACK) (x_out x)) as K0 by (by rewrite Ho).
  destruct (x_failed x); [by injection H as <-|].
  assert (forall err, x_send_q (fail_xfer err x) = b :: rest /\ Forall (fun p => rd 0 p 7 = XF_ACK) (x_out (fail_xfer err x))) as K.
  { intros err. by rewrite fail_xfer_send_q, fail_xfer_out. }
  destruct st; try (destruct (XFER_CONNECT_MS <=? _)); try (injection H as <-; done || apply K).
  all: apply cbind_Ret in H as (x1 & H1 & H); pose proof (handle_all_send_q _ _ _ _ _ _ Hq Hf H1) as Hq1;
    pose proof (handle_all_out _ _ _ _ H1 (proj2 K0)) as Ho1; injection H as <-;
    destruct (x_failed x1); [done|]; unfold pump_send; rewrite Hq1; unfold xb_len; rewrite Hd, Hu; by split.
Qed.
Lemma end_marker_blocks_witness :
  let b := MkBlob [] 1 0 0 0 in
  let x := snd (rnet_ice_xfer_queue_blob [] (MkXfer 0 false [] 0 [] [] 0 0 false 0 [] [])) in
  forall x', rnet_ice_xfer_pump (fun _ => true) ICE_CONNECTED 1000 [XFER_MAGIC ++ [XF_DATA] ++ put_u32 1 ++ put_u64 2 ++ put_u64 0 ++ put_u16 1 ++ [7]] x = Ret x' ->
  x_send_q x' = [b] /\ Forall (fun p => rd 0 p 7 = XF_ACK) (x_out x').
Proof.
  intros b x x'. apply (end_marker_blocks (fun _ => true) ICE_CONNECTED 1000 _ x x' b []); try by vm_compute.
  constructor; [|constructor]. intros [H _]. by vm_compute in H.
Defined.

(** ** Two peers *)

(** One of the two pumps, on datagrams out of everything the other has given to
    its agent so far: the network loses, repeats and delays at will. The host of
    the receiver may take what is ready. *)
Inductive xstep : RNetIceXfer * RNetIceXfer -> RNetIceXfer * RNetIceXfer -> Prop :=
  | xstep_sender mem st now inbox s s' r :
      inbox ⊆ x_out r -> rnet_ice_xfer_pump mem st now inbox s = Ret s' -> xstep (s, r) (s', r)
  | xstep_receiver mem st now inbox s r r' :
      inbox ⊆ x_out s -> rnet_ice_xfer_pump mem st now inbox r = Ret r' -> xstep (s, r) (s, r')
  | xstep_take s r : xstep (s, r) (s, snd (rnet_ice_xfer_take_blob r)).

Section LostAck.
Context (b0 : XferBlob) (Hb0 : blob_ok b0) (Hpart : 0 < xb_unacked b0 < xb_len b0).

(** The blob the sender still has, wherever its cursor is. *)
Definition same_part (b : XferBlob) : Prop :=
  xb_data b = xb_data b0 /\ xb_id b = xb_id b0 /\ xb_unacked b = xb_unacked b0 /\ xb_unacked b0 <= xb_next_off b <= xb_len b0.
Definition stuck_sender (s : RNetIceXfer) : Prop :=
  (exists b rest, x_send_q s = b :: rest /\ same_part b) /\
  Forall (fun p => exists off, xb_unacked b0 <= off <= xb_len b0 /\ p = data_pkt b0 off) (x_out s).
Definition stuck_receiver (n : nat) (r : RNetIceXfer) : Prop :=
  x_send_q r = [] /\ (length (x_ready r) <= n)%nat /\
  (x_recv_active r = true -> x_recv_id r = xb_id b0 -> x_recv r = []) /\
  Forall (fun p => p = ack_pkt (xb_id b0) 0) (x_out r).

Lemma data_pkt_ext b off : xb_data b = xb_data b0 -> xb_id b = xb_id b0 -> data_pkt b off = data_pkt b0 off.
Proof. intros Hd Hi. unfold data_pkt, xb_len. by rewrite Hd, Hi. Qed.
Lemma stuck_sender_fail err s : stuck_sender s -> stuck_sender (fail_xfer err s).
Proof. unfold fail_xfer. destruct (x_failed s); [done|]. by destruct s. Qed.
Lemma stuck_receiver_fail n err r : stuck_receiver n r -> stuck_receiver n (fail_xfer err r).
Proof. unfold fail_xfer. destruct (x_failed r); [done|]. by destruct r. Qed.

Lemma stale_acks mem inbox : forall s, stuck_sender s -> Forall (fun p => p = ack_pkt (xb_id b0) 0) inbox ->
  handle_all mem inbox s = Ret s.
Proof.
  induction inbox as [|p inbox IH]; intros s Hs Hf; [done|]. apply Forall_cons in Hf as [-> Hf]. cbn [handle_all].
  change (zlen (ack_pkt (xb_id b0) 0)) with 20. cbn [Z.eqb]. rewrite take_ge by (change (length (ack_pkt (xb_id b0) 0)) with 20%nat; unfold XFER_RECV_MAX; lia).
  rewrite handle_ack_pkt; [|apply Hb0|done]. cbn [cbind]. assert (handle_ack (xb_id b0) 0 s = s) as ->; [|by apply IH].
  destruct Hs as [(b & rest & Hq & Hd & Hi & Hu & _) _]. unfold handle_ack. rewrite Hq, Hi, Z.eqb_refl, Hu. cbn [negb].
  destruct (Z.ltb_spec 0 (xb_unacked b0)); [done|lia].
Qed.
Lemma send_window_stuck now fuel : forall b s rest, stuck_sender s -> x_send_q s = rest -> same_part b ->
  let '(b', s') := send_window fuel now b s in
  same_part b' /\ x_send_q s' = rest /\ Forall (fun p => exists off, xb_unacked b0 <= off <= xb_len b0 /\ p = data_pkt b0 off) (x_out s').
Proof.
  induction fuel as [|fuel IH]; intros b s rest Hs Hq Hb; cbn [send_window]; [by destruct Hs|].
  destruct (_ && _) eqn:E; [|by destruct Hs]. apply andb_prop in E as [E1 _]. apply Z.ltb_lt in E1.
  destruct Hb as (Hd & Hi & Hu & Hn). assert (xb_len b = xb_len b0) as Hl by (unfold xb_len; by rewrite Hd).
  assert (stuck_sender (send_data b (xb_next_off b) s)) as Hs'.
  { unfold send_data. destruct (_ <? _); [done|]. destruct Hs as [Hh Ho]. destruct s. split; [done|]. cbn in *.
    apply Forall_app. split; [done|]. constructor; [|done]. exists (xb_next_off b). split; [done|by apply data_pkt_ext]. }
  apply IH; [done| |].
  - rewrite <- Hq. unfold send_data. destruct (_ <? _); by destruct s.
  - rewrite Hl. unfold XFER_PAYLOAD. split_and!; cbn [xb_data xb_id xb_unacked xb_next_off]; try done; lia.
Qed.
Lemma pump_send_stuck now s : stuck_sender s -> stuck_sender (pump_send now s).
Proof.
  intros Hs. destruct (proj1 Hs) as (b & rest & Hq & Hb). unfold pump_send. rewrite Hq. destruct (_ <=? _); [done|].
  assert (forall c, same_part c -> same_part (rewind c)) as R by (intros c (? & ? & ? & ?); split_and!; cbn; [done..|lia|lia]).
  match goal with |- context [send_window 17 now ?c s] => assert (same_part c) as Hc by (repeat case_match; auto);
    pose proof (send_window_stuck now 17 c s _ Hs Hq Hc) as W; destruct (send_window 17 now c s) as [b' s2] end.
  destruct W as (Hb' & Hq' & Ho').
  assert ((xb_len b' =? 0) = false) as -> by (apply Z.eqb_neq; unfold xb_len; rewrite (proj1 Hb'); fold (xb_len b0); lia).
  cbn [andb]. destruct s2. split; [by exists b', rest|done].
Qed.
Lemma sender_stays mem st now inbox s s' : stuck_sender s -> Forall (fun p => p = ack_pkt (xb_id b0) 0) inbox ->
  rnet_ice_xfer_pump mem st now inbox s = Ret s' -> stuck_sender s'.
Proof.
  intros Hs Hf H. unfold rnet_ice_xfer_pump in H. destruct (x_failed s) eqn:F; [by injection H as <-|].
  destruct st; try (destruct (XFER_CONNECT_MS <=? _)); try (injection H as <-; done || by apply stuck_sender_fail).
  all: rewrite stale_acks in H by done; cbn [cbind] in H; rewrite F in H; injection H as <-; by apply pump_send_stuck.
Qed.
Lemma resent_chunk n mem off r r' : xb_unacked b0 <= off <= xb_len b0 -> stuck_receiver n r ->
  handle_data mem (xb_id b0) (xb_len b0) off (chunk b0 off) r = Ret r' -> stuck_receiver n r'.
Proof.
  intros Ho Hr H. unfold handle_data in H. destruct (_ <? xb_len b0); [injection H as <-; by apply stuck_receiver_fail|].
  assert (forall r1, stuck_receiver n r1 -> x_recv_active r1 = true -> x_recv_id r1 = xb_id b0 ->
    negb (off =? x_recv_got r1) = true /\ stuck_receiver n (send_ack (xb_id b0) (x_recv_got r1) r1)) as K.
  { intros r1 (Hq & Hn & Hrec & Hout) Ha Hi. specialize (Hrec Ha Hi). unfold x_recv_got. rewrite Hrec. change (zlen []) with 0.
    split; [apply negb_true_iff, Z.eqb_neq; lia|]. destruct r1. split_and!; [done..|]. cbn in *. apply Forall_app. by repeat constructor. }
  destruct (negb (x_recv_active r) || negb (x_recv_id r =? xb_id b0)) eqn:E.
  - destruct (recv_begin mem (xb_id b0) (xb_len b0) r) as [ok r1] eqn:Eb.
    assert (x_send_q r1 = x_send_q r /\ x_out r1 = x_out r) as [Eq Eout].
    { revert Eb. unfold recv_begin. cbn zeta. destruct (0 <? xb_len b0); [destruct (mem _)|]; intros E1; injection E1 as <- <-; [by destruct r| |by destruct r].
      destruct r as [? fl]. unfold fail_xfer. cbn. by destruct fl. }
    destruct Hr as (Hq & Hn & _ & Hout). destruct ok; cbn [negb] in H.
    + apply fits_begin in Eb as (_ & Ha & Hi & _ & Er & Ey). destruct (K r1) as [En K']; [|done..|rewrite En in H; by injection H as <-].
      split_and!; [congruence|by rewrite Ey|done|by rewrite Eout].
    + apply begin_fails in Eb as [Ha Ey]. injection H as <-. split_and!; [congruence|by rewrite Ey|congruence|by rewrite Eout].
  - apply orb_false_elim in E as [E1 E2]. apply negb_false_iff in E1, E2. apply Z.eqb_eq in E2. destruct (K r) as [En K']; [done..|].
    cbn [negb] in H. rewrite En in H. by injection H as <-.
Qed.
Lemma resent_chunks n mem inbox : Forall (fun p => exists off, xb_unacked b0 <= off <= xb_len b0 /\ p = data_pkt b0 off) inbox ->
  forall r r', stuck_receiver n r -> handle_all mem inbox r = Ret r' -> stuck_receiver n r'.
Proof.
  intros Hf. induction Hf as [|p inbox (off & Ho & ->) Hf IH]; intros r r' Hr H; [by injection H as <-|].
  rewrite handle_all_cons in H. destruct (_ =? 0); [by injection H as <-|]. apply cbind_Ret in H as (r1 & H1 & H).
  rewrite take_ge in H1 by apply data_pkt_short. rewrite handle_data_pkt in H1 by (done || lia).
  eapply IH; [|done]. by eapply resent_chunk.
Qed.
Lemma receiver_stays n mem st now inbox r r' : stuck_receiver n r ->
  Forall (fun p => exists off, xb_unacked b0 <= off <= xb_len b0 /\ p = data_pkt b0 off) inbox ->
  rnet_ice_xfer_pump mem st now inbox r = Ret r' -> stuck_receiver n r'.
Proof.
  intros Hr Hf H. unfold rnet_ice_xfer_pump in H. destruct (x_failed r); [by injection H as <-|].
  destruct st; try (destruct (XFER_CONNECT_MS <=? _)); try (injection H as <-; done || by apply stuck_receiver_fail).
  all: apply cbind_Ret in H as (r1 & H1 & H); pose proof (resent_chunks n _ _ Hf _ _ Hr H1) as K; injection H as <-.
  all: destruct (x_failed r1); [done|]; unfold pump_send; by rewrite (proj1 K).
Qed.
End LostAck.

(** C17. The last acknowledgement is sent once: when the receiver has completed a
    blob, nothing is in flight, and the sender has seen an acknowledgement of a
    part of the blob but not of the whole, then nothing the two can do - any
    number of pumps of either side, with the network in any condition and the
    receiver's host taking what is ready - makes the sender idle or delivers
    anything more. The sender keeps retransmitting from the middle, the receiver
    takes that for a new blob, answers 0, and the sender ignores an
    acknowledgement below what it has. *)
Theorem lost_last_ack_stalls b rest s r s' r' : x_send_q s = b :: rest -> blob_ok b -> 0 < xb_unacked b < xb_len b ->
  xb_unacked b <= xb_next_off b <= xb_len b -> x_out s = [] ->
  x_recv_active r = false -> x_send_q r = [] -> x_out r = [] -> rtc xstep (s, r) (s', r') ->
  rnet_ice_xfer_send_idle s' = false /\ (length (x_ready r') <= length (x_ready r))%nat.
Proof.
  intros Hq Hb Hu Hn Ho Ha Hrq Hro H.
  assert (forall p q, rtc xstep p q -> stuck_sender b p.1 -> stuck_receiver b (length (x_ready r)) p.2 ->
    stuck_sender b q.1 /\ stuck_receiver b (length (x_ready r)) q.2) as K.
  { clear - Hb Hu. intros p q Hpq. induction Hpq as [p|p q t Hstep Hrtc IH]; [done|]. intros Hs Hr. apply IH; clear IH Hrtc.
    - destruct Hstep as [mem st now inbox s1 s2 r1 Hin Hp|mem st now inbox s1 r1 r2 Hin Hp|]; cbn in *; [|done|done].
      eapply sender_stays; [done..| |done]. apply Forall_forall. intros q Hq. destruct Hr as (_ & _ & _ & Hr).
      rewrite Forall_forall in Hr. by apply Hr, Hin.
    - destruct Hstep as [mem st now inbox s1 s2 r1 Hin Hp|mem st now inbox s1 r1 r2 Hin Hp|s1 r1]; cbn in *; [done| |].
      + eapply receiver_stays; [done..| |done]. apply Forall_forall. intros q Hq. destruct Hs as (_ & Hs).
        rewrite Forall_forall in Hs. by apply Hs, Hin.
      + destruct Hr as (H1 & H2 & H3 & H4). unfold rnet_ice_xfer_take_blob. destruct (x_ready r1) eqn:E; [by rewrite <- E in H2|].
        destruct r1. split_and!; [done| |done..]. cbn in *. subst. cbn in H2. lia. }
  destruct (K _ _ H) as [[(b' & rest' & Hq' & _) _] (_ & Hr' & _)].
  - split; [by exists b, rest|]. cbn. by rewrite Ho.
  - split_and!; cbn; [done..| |by rewrite Hro]. intros Ha'. congruence.
  - cbn in *. split; [|done]. unfold rnet_ice_xfer_send_idle. rewrite Hq'. apply Z.leb_gt. unfold zlen. cbn. lia.
Qed.
(** The timer fires, the sender resends the rest, and the receiver answers 0. *)
Definition stall_pump (now : Z) (inbox : list (list Z)) (x : RNetIceXfer) : RNetIceXfer :=
  match rnet_ice_xfer_pump (fun _ => true) ICE_CONNECTED now inbox x with Ret x' => x' | _ => x end.
Definition stall_blob : XferBlob := MkBlob (replicate 1500 7) 1 1024 1500 50.
Definition stall_s0 : RNetIceXfer := MkXfer 0 false [] 1 [stall_blob] [] 0 0 false 0 [] [].
Definition stall_r0 : RNetIceXfer := MkXfer 0 false [] 0 [] [] 0 1 false 0 [replicate 1500 7] [].
Definition stall_s1 : RNetIceXfer := stall_pump 100000 [] stall_s0.
Definition stall_r1 : RNetIceXfer := stall_pump 100010 (x_out stall_s1) stall_r0.
Definition stall_s2 : RNetIceXfer := stall_pump 100020 (x_out stall_r1) stall_s1.
Lemma lost_last_ack_stalls_witness :
  x_out stall_s1 = [data_pkt stall_blob 1024] /\ x_out stall_r1 = [ack_pkt 1 0] /\
  rnet_ice_xfer_send_idle stall_s2 = false /\ (length (x_ready stall_r1) <= 1)%nat.
Proof.
  split; [by vm_compute|]. split; [by vm_compute|].
  apply (lost_last_ack_stalls stall_blob [] stall_s0 stall_r0 stall_s2 stall_r1); try (vm_compute; repeat split; intros [=]).
  apply (rtc_l _ _ (stall_s1, stall_r0)). { apply (xstep_sender (fun _ => true) ICE_CONNECTED 100000 []); [apply list_subseteq_nil|by vm_compute]. }
  apply (rtc_l _ _ (stall_s1, stall_r1)). { apply (xstep_receiver (fun _ => true) ICE_CONNECTED 100010 (x_out stall_s1)); [done|by vm_compute]. }
  apply rtc_once. apply (xstep_sender (fun _ => true) ICE_CONNECTED 100020 (x_out stall_r1)); [done|by vm_compute].
Defined.
