(* ===== verification/LanText.v ===== *)
(** * Text datagrams and chat of the LAN rooms

    What [src/lobby/rnet_rtt_probe.c], [rnet_lan_beacon.c], [rnet_lan_direct.c]
    and [rnet_lan_room.c] share: datagrams made of lines, the queue of chat
    lines, and host names. A C string is the list of its bytes without the
    terminator. *)

From stdpp Require Import base list numbers list_numbers strings.
From S2P Require Import Prelude CStrings Slots Protocol Config Rings NetSim Transport Digest Json HostRelayText.

(** ** Lines *)

Definition is_crlf (c : Z) : bool := (c =? 10) || (c =? 13).
Fixpoint drop_crlf (s : list Z) : list Z :=
  match s with
  | c :: r => if is_crlf c then drop_crlf r else s
  | [] => []
  end.
(** The line ends at the end of [s] go. *)
Definition trim_crlf (s : list Z) : list Z := rev (drop_crlf (rev s)).

(** The text built so far, in a buffer of [cap] bytes; [None] is a line that
    did not fit. *)
Definition append_line (cap : Z) (line : list Z) (buf : option (list Z)) : option (list Z) :=
  match buf with
  | None => None
  | Some buf => if cap <=? zlen buf + zlen line + 2 then None else Some (buf ++ line ++ [10])
  end.
Definition append_lines (cap : Z) (lines : list (list Z)) : option (list Z) :=
  fold_left (fun buf line => append_line cap line buf) lines (Some []).

(** The first line of the text at the cursor and the cursor after it; [None] at
    the end of the text. *)
Fixpoint split_nl (s : list Z) : list Z * list Z :=
  match s with
  | [] => ([], [])
  | c :: r => if c =? 10 then ([], r) else let '(a, b) := split_nl r in (c :: a, b)
  end.
Definition next_line (cursor : list Z) : option (list Z) * list Z :=
  match cursor with
  | [] => (None, [])
  | _ => let '(line, rest) := split_nl cursor in (Some (trim_crlf line), rest)
  end.
(** The next [n] lines. *)
Fixpoint next_lines (n : nat) (cursor : list Z) : list (option (list Z)) :=
  match n with
  | O => []
  | S n => let '(l, cursor) := next_line cursor in l :: next_lines n cursor
  end.
(** The text of a received buffer: up to the first zero byte. *)
Definition text_of (buf : list Z) : list Z := upto_c 0 buf.

(** ** Chat *)

Definition RNET_LAN_CHAT_ID_LEN : Z := 64.
Definition RNET_LAN_CHAT_NAME_LEN : Z := 64.
Definition RNET_LAN_CHAT_TEXT_LEN : Z := 256.
Definition RNET_LAN_CHAT_QUEUE : Z := 16.
Record RNetLanChatLine := MkChat { cl_player_id : list Z; cl_from : list Z; cl_text : list Z }.
Definition chat_zero : RNetLanChatLine := MkChat [] [] [].
Record RNetLanChatQueue := MkChatQ { cq_line : list RNetLanChatLine; cq_head : Z; cq_count : Z }.
Definition chatq_zero : RNetLanChatQueue := MkChatQ (replicate 16 chat_zero) 0 0.

(** A line goes to the end; a full ring gives up its oldest one. *)
Definition chat_store (line : RNetLanChatLine) (q : RNetLanChatQueue) : RNetLanChatQueue :=
  if cq_count q <? RNET_LAN_CHAT_QUEUE
  then MkChatQ (wr (cq_line q) ((cq_head q + cq_count q) mod RNET_LAN_CHAT_QUEUE) line) (cq_head q) (cq_count q + 1)
  else MkChatQ (wr (cq_line q) (cq_head q) line) ((cq_head q + 1) mod RNET_LAN_CHAT_QUEUE) (cq_count q).
Definition chat_line (player_id from text : list Z) : RNetLanChatLine :=
  MkChat (cut_l RNET_LAN_CHAT_ID_LEN player_id) (cut_l RNET_LAN_CHAT_NAME_LEN from) (cut_l RNET_LAN_CHAT_TEXT_LEN text).
Definition chat_queue_push (player_id from text : list Z) (q : RNetLanChatQueue) : RNetLanChatQueue :=
  match text with [] => q | _ => chat_store (chat_line player_id from text) q end.
Definition chat_queue_take (q : RNetLanChatQueue) : option RNetLanChatLine * RNetLanChatQueue :=
  if cq_count q <=? 0 then (None, q)
  else (Some (rd chat_zero (cq_line q) (cq_head q)),
        MkChatQ (cq_line q) ((cq_head q + 1) mod RNET_LAN_CHAT_QUEUE) (cq_count q - 1)).

(** Newlines become spaces, other control bytes go; at most [n] bytes. *)
Fixpoint chat_sanitize_n (n : nat) (s : list Z) : list Z :=
  match n, s with
  | S n', c :: r =>
    if is_crlf c then 32 :: chat_sanitize_n n' r
    else if c <? 32 then chat_sanitize_n n r
    else c :: chat_sanitize_n n' r
  | _, _ => []
  end.
Definition chat_sanitize (cap : Z) (s : list Z) : list Z := chat_sanitize_n (Z.to_nat (cap - 1)) s.
