(* ===== verification/LanRoom.v ===== *)
(** * LAN rooms of two to four seats ([src/lobby/rnet_lan_room.c])

    One host owns the roster; guests ask for a seat, for readiness and for other
    seats with numbered requests, and mirror the revisions of the roster the host
    sends. Datagrams are bytes. The operating system - clock, random numbers,
    whether a datagram leaves, name lookup - is the class [RoomOs], whose answers
    may differ from call to call; a peer counts its calls and records what it has
    sent. *)

From stdpp Require Import base list numbers list_numbers strings.
From S2P Require Import Prelude CStrings Slots Protocol Config Rings NetSim Transport Digest Json HostRelayText LanText ProtocolProofs.

Definition RNET_LAN_LOBBY_NAME_MAX : Z := 96.
Definition RNET_LAN_LOBBY_GAME_MAX : Z := 64.
Definition RNET_LAN_LOBBY_VERSION_MAX : Z := 32.
Definition RNET_LAN_LOBBY_ENDPOINT_MAX : Z := 64.
Definition RNET_LAN_LOBBY_PLAYER_MAX : Z := 64.
Definition RNET_LAN_LOBBY_PASSWORD_MAX : Z := 64.
Definition RNET_LAN_LOBBY_MOD_SET_MAX : Z := 512.

Definition RNET_LAN_ROOM_PENDING : Z := 1.
Definition RNET_LAN_ROOM_IO : Z := -1.
Definition RNET_LAN_ROOM_FULL : Z := -2.
Definition RNET_LAN_ROOM_PASSWORD : Z := -3.
Definition RNET_LAN_ROOM_IDENTITY : Z := -4.
Definition RNET_LAN_ROOM_STARTED : Z := -5.
Definition RNET_LAN_ROOM_TIMEOUT : Z := -6.
Definition RNET_LAN_ROOM_ARGUMENT : Z := -7.
Definition RNET_LAN_ROOM_STALE : Z := -8.
Definition RNET_LAN_ROOM_NOT_READY : Z := -9.
Definition RNET_LAN_ROOM_KICKED : Z := -10.
Definition RNET_LAN_ROOM_CLOSED : Z := -11.
Definition RNET_LAN_ROOM_OCCUPIED : Z := -12.

Definition PKT_MAX : Z := 2048.
Definition HEADER : Z := 36.
Definition RETRY_MS : Z := 200.
Definition TIMEOUT_MS : Z := 10000.
Definition HANDOFF_MS : Z := 800.
Definition op_JOIN : Z := 1.
Definition op_ROOM : Z := 2.
Definition op_ACK : Z := 3.
Definition op_OP : Z := 4.
Definition op_LEAVE : Z := 5.
Definition op_START : Z := 6.
Definition op_START_ACK : Z := 7.
Definition op_NAK : Z := 8.
Definition op_CLOSE : Z := 9.
Definition op_PING : Z := 10.
Definition op_PONG : Z := 11.
Definition op_CHAT_REQUEST : Z := 12.
Definition op_CHAT_ECHO : Z := 13.
Definition op_READY : Z := 1.
Definition op_MOVE : Z := 2.
Definition room_magic : list Z := B "RNETLR4" ++ [1].

(** ** Data *)

(** A field of [cap] characters is the bytes before its terminator; one that is
    not terminated has [cap] bytes. *)
Record RNetLanRoomMember := MkMember { m_id : Z; m_name : list Z }.
Definition member_zero : RNetLanRoomMember := MkMember 0 [].
Record RNetLanRoom := MkRoom {
  lr_name : list Z;
  lr_game : list Z;
  lr_game_version : list Z;
  lr_endpoint : list Z;
  lr_mod_set : list Z;
  lr_epoch : Z;
  lr_revision : Z;
  lr_configuration : Z;
  lr_session_id : Z;
  lr_ready_mask : Z;
  lr_max_slots : Z;
  lr_host_slot : Z;
  lr_input_delay : Z;
  lr_rollback : Z;
  lr_input_prediction : Z;
  lr_session_variant : Z;
  lr_starting : Z;
  lr_member : list RNetLanRoomMember
}.
Definition room_zero : RNetLanRoom := MkRoom [] [] [] [] [] 0 0 0 0 0 0 0 0 0 0 0 0 (replicate 4 member_zero).
#[export] Instance member_eq_dec : EqDecision RNetLanRoomMember.
Proof. solve_decision. Defined.
#[export] Instance room_eq_dec : EqDecision RNetLanRoom.
Proof. solve_decision. Defined.
Record MemberLink := MkLink {
  ml_address : sockaddr_in;
  ml_id : Z;
  ml_sequence : Z;
  ml_room_ack : Z;
  ml_start_ack : Z;
  ml_chat_sequence : Z;
  ml_seen : Z;
  ml_ping : Z;
  ml_rtt : Z
}.
Definition link_zero : MemberLink := MkLink addr_zero 0 0 0 0 0 0 0 0.
Record RetiredLink := MkRetired { rt_id : Z; rt_address : sockaddr_in; rt_reason : Z; rt_replied : Z }.
Definition retired_zero : RetiredLink := MkRetired 0 addr_zero 0 0.

(** [lp_calls] counts the calls to the system, [lp_out] has the datagrams that
    left. *)
Record RNetLanRoomPeer := MkPeer {
  lp_host_address : sockaddr_in;
  lp_host : bool;
  lp_status : Z;
  lp_joined : bool;
  lp_max_supported : Z;
  lp_want_start : bool;
  lp_id : Z;
  lp_sequence : Z;
  lp_pending_op : Z;
  lp_pending_a : Z;
  lp_pending_b : Z;
  lp_pending_revision : Z;
  lp_retired : list RetiredLink;
  lp_retired_at : Z;
  lp_opened : Z;
  lp_last_send : Z;
  lp_last_host : Z;
  lp_start_seen : Z;
  lp_start_sent : Z;
  lp_game : list Z;
  lp_version : list Z;
  lp_password : list Z;
  lp_name : list Z;
  lp_room : RNetLanRoom;
  lp_links : list MemberLink;
  lp_chat_sequence : Z;
  lp_chat_seen : Z;
  lp_chat : RNetLanChatQueue;
  lp_calls : nat;
  lp_out : list (sockaddr_in * list Z)
}.
Definition eta_lr (r : RNetLanRoom) : RNetLanRoom :=
  MkRoom (lr_name r) (lr_game r) (lr_game_version r) (lr_endpoint r) (lr_mod_set r) (lr_epoch r) (lr_revision r)
    (lr_configuration r) (lr_session_id r) (lr_ready_mask r) (lr_max_slots r) (lr_host_slot r) (lr_input_delay r)
    (lr_rollback r) (lr_input_prediction r) (lr_session_variant r) (lr_starting r) (lr_member r).
Definition eta_ml (l : MemberLink) : MemberLink :=
  MkLink (ml_address l) (ml_id l) (ml_sequence l) (ml_room_ack l) (ml_start_ack l) (ml_chat_sequence l) (ml_seen l) (ml_ping l) (ml_rtt l).
Definition eta_lp (p : RNetLanRoomPeer) : RNetLanRoomPeer :=
  MkPeer (lp_host_address p) (lp_host p) (lp_status p) (lp_joined p) (lp_max_supported p) (lp_want_start p) (lp_id p) (lp_sequence p)
    (lp_pending_op p) (lp_pending_a p) (lp_pending_b p) (lp_pending_revision p) (lp_retired p) (lp_retired_at p) (lp_opened p)
    (lp_last_send p) (lp_last_host p) (lp_start_seen p) (lp_start_sent p) (lp_game p) (lp_version p) (lp_password p) (lp_name p)
    (lp_room p) (lp_links p) (lp_chat_sequence p) (lp_chat_seen p) (lp_chat p) (lp_calls p) (lp_out p).
Definition set_lr_epoch := ltac:(updater eta_lr lr_epoch).
Definition set_lr_mod_set := ltac:(updater eta_lr lr_mod_set).
Definition set_lr_revision := ltac:(updater eta_lr lr_revision).
Definition set_lr_configuration := ltac:(updater eta_lr lr_configuration).
Definition set_lr_session_id := ltac:(updater eta_lr lr_session_id).
Definition set_lr_ready_mask := ltac:(updater eta_lr lr_ready_mask).
Definition set_lr_host_slot := ltac:(updater eta_lr lr_host_slot).
Definition set_lr_input_delay := ltac:(updater eta_lr lr_input_delay).
Definition set_lr_rollback := ltac:(updater eta_lr lr_rollback).
Definition set_lr_input_prediction := ltac:(updater eta_lr lr_input_prediction).
Definition set_lr_session_variant := ltac:(updater eta_lr lr_session_variant).
Definition set_lr_starting := ltac:(updater eta_lr lr_starting).
Definition set_lr_member := ltac:(updater eta_lr lr_member).
Definition set_ml_address := ltac:(updater eta_ml ml_address).
Definition set_ml_id := ltac:(updater eta_ml ml_id).
Definition set_ml_sequence := ltac:(updater eta_ml ml_sequence).
Definition set_ml_room_ack := ltac:(updater eta_ml ml_room_ack).
Definition set_ml_start_ack := ltac:(updater eta_ml ml_start_ack).
Definition set_ml_chat_sequence := ltac:(updater eta_ml ml_chat_sequence).
Definition set_ml_seen := ltac:(updater eta_ml ml_seen).
Definition set_ml_ping := ltac:(updater eta_ml ml_ping).
Definition set_ml_rtt := ltac:(updater eta_ml ml_rtt).
Definition set_lp_host_address := ltac:(updater eta_lp lp_host_address).
Definition set_lp_host := ltac:(updater eta_lp lp_host).
Definition set_lp_status := ltac:(updater eta_lp lp_status).
Definition set_lp_joined := ltac:(updater eta_lp lp_joined).
Definition set_lp_max_supported := ltac:(updater eta_lp lp_max_supported).
Definition set_lp_want_start := ltac:(updater eta_lp lp_want_start).
Definition set_lp_sequence := ltac:(updater eta_lp lp_sequence).
Definition set_lp_pending_op := ltac:(updater eta_lp lp_pending_op).
Definition set_lp_pending_a := ltac:(updater eta_lp lp_pending_a).
Definition set_lp_pending_b := ltac:(updater eta_lp lp_pending_b).
Definition set_lp_pending_revision := ltac:(updater eta_lp lp_pending_revision).
Definition set_lp_retired := ltac:(updater eta_lp lp_retired).
Definition set_lp_retired_at := ltac:(updater eta_lp lp_retired_at).
Definition set_lp_last_send := ltac:(updater eta_lp lp_last_send).
Definition set_lp_last_host := ltac:(updater eta_lp lp_last_host).
Definition set_lp_start_seen := ltac:(updater eta_lp lp_start_seen).
Definition set_lp_start_sent := ltac:(updater eta_lp lp_start_sent).
Definition set_lp_game := ltac:(updater eta_lp lp_game).
Definition set_lp_version := ltac:(updater eta_lp lp_version).
Definition set_lp_password := ltac:(updater eta_lp lp_password).
Definition set_lp_name := ltac:(updater eta_lp lp_name).
Definition set_lp_room := ltac:(updater eta_lp lp_room).
Definition set_lp_links := ltac:(updater eta_lp lp_links).
Definition set_lp_chat_sequence := ltac:(updater eta_lp lp_chat_sequence).
Definition set_lp_chat_seen := ltac:(updater eta_lp lp_chat_seen).
Definition set_lp_chat := ltac:(updater eta_lp lp_chat).
Definition set_lp_calls := ltac:(updater eta_lp lp_calls).
Definition set_lp_out := ltac:(updater eta_lp lp_out).
Definition on_room (f : RNetLanRoom -> RNetLanRoom) (p : RNetLanRoomPeer) : RNetLanRoomPeer := set_lp_room (f (lp_room p)) p.
Definition member_at (r : RNetLanRoom) (i : Z) : RNetLanRoomMember := rd member_zero (lr_member r) i.
Definition link_at (p : RNetLanRoomPeer) (i : Z) : MemberLink := rd link_zero (lp_links p) i.
Definition on_link (i : Z) (f : MemberLink -> MemberLink) (p : RNetLanRoomPeer) : RNetLanRoomPeer :=
  set_lp_links (wr (lp_links p) i (f (link_at p i))) p.
Definition put_member (i : Z) (m : RNetLanRoomMember) (r : RNetLanRoom) : RNetLanRoom := set_lr_member (wr (lr_member r) i m) r.

(** ** Bytes *)

(** A packet being written: [None] once something did not fit. *)
Definition number (v : Z) (b : option (list Z)) : option (list Z) :=
  match b with
  | None => None
  | Some bs => if PKT_MAX <? zlen bs + 4 then None else Some (bs ++ le_bytes 4 (u32 v))
  end.
Definition put_string (s : list Z) (cap : Z) (b : option (list Z)) : option (list Z) :=
  if cap <=? zlen s then None
  else match number (zlen s) b with
       | None => None
       | Some bs => if PKT_MAX <? zlen bs + zlen s then None else Some (bs ++ s)
       end.
(** Reading: the value and what is left; [None] is an invalid packet. *)
Definition read_number (b : list Z) : option (Z * list Z) :=
  if (length b <? 4)%nat then None else Some (le_val (take 4 b), drop 4 b).
Definition is_control (c : Z) : bool := (c <? 32) || (c =? 127).
Definition get_string (cap : Z) (b : list Z) : option (list Z * list Z) :=
  match read_number b with
  | None => None
  | Some (n, b) =>
    if (cap <=? n) || (zlen b <? n) then None
    else let s := take (Z.to_nat n) b in
         if existsb is_control s then None else Some (s, drop (Z.to_nat n) b)
  end.
Definition copy_string (cap : Z) (s : list Z) : option (list Z) :=
  if cap <=? zlen s then None else if existsb is_control s then None else Some s.

(** ** The roster *)

Definition occupied (r : RNetLanRoom) : Z :=
  for_upto (lr_max_slots r) (fun i bits => if nz (m_id (member_at r i)) then Z.lor bits (bit i) else bits) 0.
Definition member_count (r : RNetLanRoom) : Z :=
  for_upto (lr_max_slots r) (fun i n => n + b2z (nz (m_id (member_at r i)))) 0.
(** The first [i < n] with [f i], or -1. *)
Definition first_slot (n : Z) (f : Z -> bool) : Z := default (-1) (head (filter (fun i => f i = true) (seqZ 0 n))).
Definition member_slot (r : RNetLanRoom) (id : Z) : Z := first_slot (lr_max_slots r) (fun i => m_id (member_at r i) =? id).
Definition valid_member (r : RNetLanRoom) (i : Z) : bool :=
  let m := member_at r i in
  negb ((lr_max_slots r <=? i) && nz (m_id m)) && negb (nz (m_id m) && (zlen (m_name m) =? 0)) &&
  (negb (nz (m_id m)) || all_upto 4 (fun j => negb ((i <? j) && (m_id m =? m_id (member_at r j))))).
Definition valid_room (r : RNetLanRoom) : bool :=
  negb ((lr_max_slots r <? 2) || (4 <? lr_max_slots r) || (lr_host_slot r <? 0) || (lr_max_slots r <=? lr_host_slot r)
    || (m_id (member_at r (lr_host_slot r)) =? 0) || (lr_epoch r =? 0) || (lr_revision r =? 0) || (lr_configuration r =? 0)
    || (lr_revision r <? lr_configuration r)
    || nz (Z.ldiff (lr_ready_mask r) (occupied r)) || (lr_input_delay r <? 2) || (20 <? lr_input_delay r)
    || (lr_rollback r <? 0) || (1 <? lr_rollback r) || (lr_input_prediction r <? 2) || (16 <? lr_input_prediction r)
    || (lr_session_variant r <? 0) || (lr_starting r <? 0) || (1 <? lr_starting r)
    || (nz (lr_starting r) && (lr_session_id r =? 0)))
  && all_upto 4 (valid_member r)
  && nz (zlen (lr_game r)) && nz (zlen (lr_game_version r)) && nz (zlen (lr_endpoint r)).
Definition write_member (m : RNetLanRoomMember) (b : option (list Z)) : option (list Z) :=
  put_string (m_name m) RNET_LAN_LOBBY_PLAYER_MAX (number (m_id m) b).
Definition write_room (r : RNetLanRoom) (b : option (list Z)) : option (list Z) :=
  let b := put_string (lr_name r) RNET_LAN_LOBBY_NAME_MAX b in
  let b := put_string (lr_game r) RNET_LAN_LOBBY_GAME_MAX b in
  let b := put_string (lr_game_version r) RNET_LAN_LOBBY_VERSION_MAX b in
  let b := put_string (lr_endpoint r) RNET_LAN_LOBBY_ENDPOINT_MAX b in
  let b := put_string (lr_mod_set r) RNET_LAN_LOBBY_MOD_SET_MAX b in
  let b := number (lr_max_slots r) b in
  let b := number (lr_host_slot r) b in
  let b := number (lr_ready_mask r) b in
  let b := number (lr_configuration r) b in
  let b := number (lr_session_id r) b in
  let b := number (lr_input_delay r) b in
  let b := number (lr_rollback r) b in
  let b := number (lr_input_prediction r) b in
  let b := number (lr_session_variant r) b in
  let b := number (lr_starting r) b in
  fold_left (fun b m => write_member m b) (lr_member r) b.
Definition read_member (b : list Z) : option (RNetLanRoomMember * list Z) :=
  '(id, b) ← read_number b;
  '(name, b) ← get_string RNET_LAN_LOBBY_PLAYER_MAX b;
  Some (MkMember id name, b).
Fixpoint read_members (n : nat) (b : list Z) : option (list RNetLanRoomMember * list Z) :=
  match n with
  | O => Some ([], b)
  | S n => '(m, b) ← read_member b; '(ms, b) ← read_members n b; Some (m :: ms, b)
  end.
Definition read_room (epoch revision : Z) (b : list Z) : option (RNetLanRoom * list Z) :=
  '(name, b) ← get_string RNET_LAN_LOBBY_NAME_MAX b;
  '(game, b) ← get_string RNET_LAN_LOBBY_GAME_MAX b;
  '(game_version, b) ← get_string RNET_LAN_LOBBY_VERSION_MAX b;
  '(endpoint, b) ← get_string RNET_LAN_LOBBY_ENDPOINT_MAX b;
  '(mod_set, b) ← get_string RNET_LAN_LOBBY_MOD_SET_MAX b;
  '(max_slots, b) ← read_number b;
  '(host_slot, b) ← read_number b;
  '(ready_mask, b) ← read_number b;
  '(configuration, b) ← read_number b;
  '(session_id, b) ← read_number b;
  '(input_delay, b) ← read_number b;
  '(rollback, b) ← read_number b;
  '(input_prediction, b) ← read_number b;
  '(session_variant, b) ← read_number b;
  '(starting, b) ← read_number b;
  '(members, b) ← read_members 4 b;
  Some (MkRoom name game game_version endpoint mod_set epoch revision configuration session_id ready_mask
          (s32 max_slots) (s32 host_slot) (s32 input_delay) (s32 rollback) (s32 input_prediction) (s32 session_variant)
          (s32 starting) members, b).
Definition room_packet (op epoch id sequence revision status : Z) : option (list Z) :=
  number 0 (number status (number revision (number sequence (number id (number epoch (number op (Some room_magic))))))).
(** The checksum goes into the zero left for it. *)
Definition seal_packet (bs : list Z) : list Z := take 32 bs ++ le_bytes 4 (rnet_proto_checksum bs) ++ drop 36 bs.

(** ** A peer and its system *)

(** The answers to the n-th call: the clock, a random number ([None]: none),
    whether a datagram leaves. *)
Class RoomOs := {
  ro_clock : nat -> Z;
  ro_random : nat -> option Z;
  ro_sends : nat -> bool;
  ro_alloc : bool;
  ro_socket : bool;
  ro_bind : sockaddr_in -> bool;
  ro_nonblocking : bool;
  ro_lookup : string -> option Z
}.

Section Peer.
Context {os : RoomOs}.

Definition counted (p : RNetLanRoomPeer) : RNetLanRoomPeer := set_lp_calls (S (lp_calls p)) p.
Definition clock (p : RNetLanRoomPeer) : Z * RNetLanRoomPeer := (u64 (ro_clock (lp_calls p)), counted p).
Definition room_sendto (address : sockaddr_in) (bs : list Z) (p : RNetLanRoomPeer) : Z * RNetLanRoomPeer :=
  if ro_sends (lp_calls p) then (0, counted (set_lp_out (lp_out p ++ [(address, bs)]) p)) else (RNET_LAN_ROOM_IO, counted p).
Definition send_packet (address : sockaddr_in) (b : option (list Z)) (p : RNetLanRoomPeer) : Z * RNetLanRoomPeer :=
  match b with
  | None => (RNET_LAN_ROOM_ARGUMENT, p)
  | Some bs => room_sendto address (seal_packet bs) p
  end.
Definition send_simple (address : sockaddr_in) (op id status : Z) (p : RNetLanRoomPeer) : RNetLanRoomPeer :=
  snd (send_packet address (room_packet op (lr_epoch (lp_room p)) id (lp_sequence p) (lr_revision (lp_room p)) status) p).
Definition send_state (slot status : Z) (p : RNetLanRoomPeer) : RNetLanRoomPeer :=
  let link := link_at p slot in
  let r := lp_room p in
  snd (send_packet (ml_address link)
    (write_room r (room_packet (if nz (lr_starting r) then op_START else op_ROOM) (lr_epoch r) (ml_id link) (ml_sequence link) (lr_revision r) status)) p).
Definition changed (p : RNetLanRoomPeer) : RNetLanRoomPeer :=
  if lr_revision (lp_room p) =? UINT32_MAX then set_lp_status RNET_LAN_ROOM_CLOSED p
  else set_lp_want_start false (set_lp_last_send 0 (on_room (fun r => set_lr_revision (lr_revision r + 1) r) p)).
Definition configuration_changed (p : RNetLanRoomPeer) : RNetLanRoomPeer :=
  on_room (fun r => set_lr_ready_mask 0 (set_lr_configuration (lr_revision r) r)) (changed p).
Definition same_address (a b : sockaddr_in) : bool := (s_addr a =? s_addr b) && (sin_port a =? sin_port b).

(** ** Opening *)

Definition resolve_address (text : list Z) : option sockaddr_in :=
  '(host, port) ← rnet_os_parse_hostport (string_of text) 128; rnet_os_resolve_sockaddr ro_lookup host port.
Definition peer_zero : RNetLanRoomPeer :=
  MkPeer addr_zero false 0 false 0 false 0 0 0 0 0 0 (replicate 16 retired_zero) 0 0 0 0 0 0 [] [] [] [] room_zero
    (replicate 4 link_zero) 0 0 chatq_zero 0 [].
(** An error code or the peer. *)
Definition allocate (bind : list Z) : Z + RNetLanRoomPeer :=
  match resolve_address bind with
  | None => inl RNET_LAN_ROOM_ARGUMENT
  | Some address =>
    if negb ro_alloc then inl RNET_LAN_ROOM_IO
    else
      let '(now, p) := clock peer_zero in
      if negb ro_socket || negb (ro_bind address) || negb ro_nonblocking then inl RNET_LAN_ROOM_IO
      else match ro_random (lp_calls p) with
           | None => inl RNET_LAN_ROOM_IO
           | Some id =>
             if u32 id =? 0 then inl RNET_LAN_ROOM_IO
             else inr (MkPeer addr_zero false RNET_LAN_ROOM_PENDING false 0 false (u32 id) 0 0 0 0 0 (replicate 16 retired_zero) 0
                    now 0 now 0 0 [] [] [] [] room_zero (replicate 4 link_zero) 0 0 chatq_zero (S (lp_calls p)) [])
           end
  end.
(** [config]: names, capabilities and seat of the host as its caller gives
    them. *)
Definition rnet_lan_room_host_open (bind : list Z) (config : RNetLanRoom) (password : list Z) : Z + RNetLanRoomPeer :=
  if (lr_max_slots config <? 2) || (4 <? lr_max_slots config) || (lr_host_slot config <? 0)
     || (lr_max_slots config <=? lr_host_slot config) then inl RNET_LAN_ROOM_ARGUMENT
  else match allocate bind with
  | inl status => inl status
  | inr p =>
    match copy_string RNET_LAN_LOBBY_PASSWORD_MAX password,
          copy_string RNET_LAN_LOBBY_PLAYER_MAX (m_name (member_at config (lr_host_slot config))) with
    | Some password, Some name =>
      let member := wr (replicate 4 member_zero) (lr_host_slot config) (MkMember (lp_id p) name) in
      let room := set_lr_starting 0 (set_lr_session_id 0 (set_lr_ready_mask 0 (set_lr_configuration 1 (set_lr_revision 1
        (set_lr_epoch (lp_id p) (set_lr_member member config)))))) in
      if negb (valid_room room) then inl RNET_LAN_ROOM_ARGUMENT
      else match write_room room (room_packet op_ROOM (lp_id p) (lp_id p) 0 1 0) with
      | None => inl RNET_LAN_ROOM_ARGUMENT
      | Some _ =>
        inr (set_lp_status 0 (set_lp_joined true (set_lp_links (replicate 4 (set_ml_rtt (-1) link_zero))
          (set_lp_room room (set_lp_password password (set_lp_host true p))))))
      end
    | _, _ => inl RNET_LAN_ROOM_ARGUMENT
    end
  end.
Definition rnet_lan_room_guest_open (bind host game version password name : list Z) (slots : Z) : Z + RNetLanRoomPeer :=
  if (slots <? 2) || (4 <? slots) then inl RNET_LAN_ROOM_ARGUMENT
  else match allocate bind with
  | inl status => inl status
  | inr p =>
    match resolve_address host, copy_string RNET_LAN_LOBBY_GAME_MAX game, copy_string RNET_LAN_LOBBY_VERSION_MAX version,
          copy_string RNET_LAN_LOBBY_PASSWORD_MAX password, copy_string RNET_LAN_LOBBY_PLAYER_MAX name with
    | Some address, Some game, Some version, Some password, Some name =>
      if (zlen game =? 0) || (zlen version =? 0) || (zlen name =? 0) then inl RNET_LAN_ROOM_ARGUMENT
      else inr (set_lp_name name (set_lp_password password (set_lp_version version (set_lp_game game
             (set_lp_host_address address (set_lp_max_supported slots p))))))
    | _, _, _, _, _ => inl RNET_LAN_ROOM_ARGUMENT
    end
  end.

(** ** The host's roster *)

Definition remove_member (slot reason : Z) (p : RNetLanRoomPeer) : RNetLanRoomPeer :=
  let link := link_at p slot in
  let at_ := lp_retired_at p in
  let p := set_lp_retired_at (u32 (at_ + 1)) p in
  let '(now, p) := clock p in
  let p := set_lp_retired (wr (lp_retired p) (at_ mod 16) (MkRetired (ml_id link) (ml_address link) reason now)) p in
  let p := send_simple (ml_address link) op_CLOSE (ml_id link) reason p in
  let p := on_link slot (fun _ => set_ml_rtt (-1) link_zero) p in
  let p := on_room (fun r => set_lr_session_id 0 (set_lr_starting 0
    (set_lr_ready_mask (Z.ldiff (lr_ready_mask r) (bit slot)) (put_member slot member_zero r)))) p in
  configuration_changed p.
Definition move_member (from to : Z) (p : RNetLanRoomPeer) : Z * RNetLanRoomPeer :=
  let r := lp_room p in
  if nz (lr_starting r) then (RNET_LAN_ROOM_STARTED, p)
  else if (from <? 0) || (lr_max_slots r <=? from) || (to <? 0) || (lr_max_slots r <=? to) || (m_id (member_at r from) =? 0)
  then (RNET_LAN_ROOM_ARGUMENT, p)
  else if from =? to then (0, p)
  else if nz (m_id (member_at r to)) then (RNET_LAN_ROOM_OCCUPIED, p)
  else
    let p := on_room (fun r => put_member from member_zero (put_member to (member_at r from) r)) p in
    let p := on_link from (fun _ => set_ml_rtt (-1) link_zero) (on_link to (fun _ => link_at p from) p) in
    let p := on_room (fun r => if lr_host_slot r =? from then set_lr_host_slot to r else r) p in
    (0, configuration_changed p).

(** ** Chat *)

(** [lan:%08x] *)
Definition hex8 (n : Z) : list Z := (fun k => hex_digit (Z.land (Z.shiftr n (4 * k)) 15)) <$> [7; 6; 5; 4; 3; 2; 1; 0].
Definition queue_chat (sender : Z) (name text : list Z) (p : RNetLanRoomPeer) : RNetLanRoomPeer :=
  set_lp_chat (chat_store (chat_line (B "lan:" ++ hex8 sender) name text) (lp_chat p)) p.
Definition echo_chat (member : RNetLanRoomMember) (text : list Z) (i : Z) (p : RNetLanRoomPeer) : RNetLanRoomPeer :=
  let link := link_at p i in
  if nz (ml_id link) then
    let b := room_packet op_CHAT_ECHO (lr_epoch (lp_room p)) (ml_id link) (lp_chat_sequence p) (lr_revision (lp_room p)) 0 in
    let b := put_string text RNET_LAN_CHAT_TEXT_LEN (put_string (m_name member) RNET_LAN_LOBBY_PLAYER_MAX (number (m_id member) b)) in
    snd (send_packet (ml_address link) b p)
  else p.
Definition broadcast_chat (sender : Z) (text : list Z) (p : RNetLanRoomPeer) : Z * RNetLanRoomPeer :=
  let member := member_at (lp_room p) sender in
  if lp_chat_sequence p =? UINT32_MAX then (RNET_LAN_ROOM_ARGUMENT, p)
  else
    let p := queue_chat (m_id member) (m_name member) text (set_lp_chat_sequence (lp_chat_sequence p + 1) p) in
    (0, for_upto (lr_max_slots (lp_room p)) (echo_chat member text) p).

(** ** Packets to the host *)

(** Game, version, password, name and number of seats of a JOIN, which must end
    there. *)
Definition read_join (b : list Z) : option (list Z * list Z * list Z * list Z * Z) :=
  '(game, b) ← get_string 64 b;
  '(version, b) ← get_string 32 b;
  '(password, b) ← get_string RNET_LAN_LOBBY_PASSWORD_MAX b;
  '(name, b) ← get_string RNET_LAN_LOBBY_PLAYER_MAX b;
  '(supported, b) ← read_number b;
  match b with [] => Some (game, version, password, name, s32 supported) | _ => None end.
(** Why an applicant is refused before the seats are looked at. *)
Definition join_refusal (game version password : list Z) (supported id : Z) (p : RNetLanRoomPeer) : Z :=
  let r := lp_room p in
  if existsb (fun t => rt_id t =? id) (lp_retired p) then RNET_LAN_ROOM_STALE
  else if negb (bool_decide (game = lr_game r)) || negb (bool_decide (version = lr_game_version r)) || (supported <? lr_max_slots r)
  then RNET_LAN_ROOM_IDENTITY
  else if negb (bool_decide (password = lp_password p)) then RNET_LAN_ROOM_PASSWORD
  else if nz (lr_starting r) then RNET_LAN_ROOM_STARTED
  else 0.
Definition address_taken (source : sockaddr_in) (p : RNetLanRoomPeer) : bool :=
  existsb (fun i => nz (ml_id (link_at p i)) && same_address source (ml_address (link_at p i))) (seqZ 0 (lr_max_slots (lp_room p))).
Definition seat (slot id : Z) (name : list Z) (source : sockaddr_in) (now : Z) (p : RNetLanRoomPeer) : RNetLanRoomPeer :=
  let p := on_room (put_member slot (MkMember id name)) p in
  let p := on_link slot (fun l => set_ml_rtt (-1) (set_ml_seen now (set_ml_address source (set_ml_id id l)))) p in
  send_state slot 0 (configuration_changed p).
Definition handle_join (b : list Z) (source : sockaddr_in) (id slot now : Z) (p : RNetLanRoomPeer) : RNetLanRoomPeer :=
  match read_join b with
  | None => p
  | Some (game, version, password, name, supported) =>
    if (id =? 0) || (zlen name =? 0) then p
    else
      let r := lp_room p in
      let status := join_refusal game version password supported id p in
      let own := (0 <=? slot) && negb ((slot =? lr_host_slot r) || negb (same_address source (ml_address (link_at p slot)))) in
      if (status =? 0) && own then send_state slot 0 (on_link slot (set_ml_seen now) p)
      else
        let status := if (status =? 0) && (0 <=? slot) then RNET_LAN_ROOM_IDENTITY else status in
        let status := if (status =? 0) && address_taken source p then RNET_LAN_ROOM_IDENTITY else status in
        let free := first_slot (lr_max_slots r) (fun i => m_id (member_at r i) =? 0) in
        let status := if (status =? 0) && (free <? 0) then RNET_LAN_ROOM_FULL else status in
        if nz status then send_simple source op_NAK id status p
        else seat free id name source now p
  end.
(** A removed member hears again that it is out, at most every 200 ms. *)
Definition answer_retired (source : sockaddr_in) (id now i : Z) (p : RNetLanRoomPeer) : RNetLanRoomPeer :=
  let t := rd retired_zero (lp_retired p) i in
  if RETRY_MS <=? u64 (now - rt_replied t) then
    let p := send_simple source op_CLOSE id (rt_reason t) p in
    set_lp_retired (wr (lp_retired p) i (MkRetired (rt_id t) (rt_address t) (rt_reason t) now)) p
  else p.
Definition retired_slot (source : sockaddr_in) (id : Z) (p : RNetLanRoomPeer) : Z :=
  first_slot 16 (fun i => let t := rd retired_zero (lp_retired p) i in (rt_id t =? id) && same_address source (rt_address t)).
Definition read_op (b : list Z) : option (Z * Z * Z) :=
  '(op, b) ← read_number b;
  '(a, b) ← read_number b;
  '(c, b) ← read_number b;
  match b with [] => Some (op, a, c) | _ => None end.
Definition set_ready_bit (slot : Z) (ready : bool) (p : RNetLanRoomPeer) : RNetLanRoomPeer :=
  let old := lr_ready_mask (lp_room p) in
  let mask := if ready then Z.lor old (bit slot) else Z.ldiff old (bit slot) in
  if old =? mask then p else changed (on_room (set_lr_ready_mask mask) p).
(** The request itself, once: its verdict and the host after it. *)
Definition apply_op (slot op a c revision : Z) (p : RNetLanRoomPeer) : Z * RNetLanRoomPeer :=
  let r := lp_room p in
  if nz (lr_starting r) then (RNET_LAN_ROOM_STARTED, p)
  else if (op =? op_READY) && (a <=? 1) && (c =? lr_configuration r) then (0, set_ready_bit slot (nz a) p)
  else if negb (revision =? lr_revision r) || ((op =? op_READY) && negb (c =? lr_configuration r)) then (RNET_LAN_ROOM_STALE, p)
  else if (op =? op_MOVE) && (a =? slot) && (c <? 4) then move_member slot c p
  else (RNET_LAN_ROOM_ARGUMENT, p).
Definition handle_op (b : list Z) (id slot sequence revision : Z) (p : RNetLanRoomPeer) : RNetLanRoomPeer :=
  match read_op b with
  | None => p
  | Some (op, a, c) =>
    if sequence =? 0 then p
    else if sequence <=? ml_sequence (link_at p slot) then send_state slot 0 p
    else
      let '(status, p) := apply_op slot op a c revision (on_link slot (set_ml_sequence sequence) p) in
      let slot := member_slot (lp_room p) id in
      if 0 <=? slot then send_state slot status p else p
  end.
Definition handle_chat_request (b : list Z) (slot sequence : Z) (p : RNetLanRoomPeer) : RNetLanRoomPeer :=
  match get_string RNET_LAN_CHAT_TEXT_LEN b with
  | Some ((_ :: _) as text, []) =>
    if (sequence =? 0) || (sequence <=? ml_chat_sequence (link_at p slot)) then p
    else snd (broadcast_chat slot text (on_link slot (set_ml_chat_sequence sequence) p))
  | _ => p
  end.
Definition handle_room_ack (type : Z) (b : list Z) (slot revision : Z) (p : RNetLanRoomPeer) : RNetLanRoomPeer :=
  match b with
  | [] =>
    if revision =? lr_revision (lp_room p) then
      let p := on_link slot (set_ml_room_ack revision) p in
      if (type =? op_START_ACK) && nz (lr_starting (lp_room p)) then on_link slot (set_ml_start_ack revision) p else p
    else p
  | _ => p
  end.
Definition handle_pong (b : list Z) (slot now : Z) (p : RNetLanRoomPeer) : RNetLanRoomPeer :=
  let ping := ml_ping (link_at p slot) in
  match b with
  | [] => if nz ping then on_link slot (fun l => set_ml_ping 0 (set_ml_rtt (Z.min 60000 (u64 (now - ping))) l)) p else p
  | _ => p
  end.
Definition handle_member (type : Z) (b : list Z) (id slot sequence revision now : Z) (p : RNetLanRoomPeer) : RNetLanRoomPeer :=
  if (type =? op_ACK) || (type =? op_START_ACK) then handle_room_ack type b slot revision p
  else if type =? op_LEAVE then match b with [] => remove_member slot RNET_LAN_ROOM_CLOSED p | _ => p end
  else if type =? op_OP then handle_op b id slot sequence revision p
  else if type =? op_CHAT_REQUEST then handle_chat_request b slot sequence p
  else if type =? op_PONG then handle_pong b slot now p
  else p.
Definition handle_host (b : list Z) (source : sockaddr_in) (type epoch id sequence revision : Z) (p : RNetLanRoomPeer) : RNetLanRoomPeer :=
  let slot := member_slot (lp_room p) id in
  let '(now, p) := clock p in
  if type =? op_JOIN then handle_join b source id slot now p
  else
    let old := retired_slot source id p in
    if (epoch =? lr_epoch (lp_room p)) && (slot <? 0) && (0 <=? old) then answer_retired source id now old p
    else if negb (epoch =? lr_epoch (lp_room p)) || (slot <? 0) || (slot =? lr_host_slot (lp_room p))
         || negb (same_address source (ml_address (link_at p slot))) then p
    else handle_member type b id slot sequence revision now (on_link slot (set_ml_seen now) p).

(** ** Packets to a guest *)

Definition read_echo (b : list Z) : option (Z * list Z * list Z) :=
  '(sender, b) ← read_number b;
  '(name, b) ← get_string RNET_LAN_LOBBY_PLAYER_MAX b;
  '(text, b) ← get_string RNET_LAN_CHAT_TEXT_LEN b;
  match b with [] => Some (sender, name, text) | _ => None end.
Definition handle_echo (b : list Z) (sequence : Z) (p : RNetLanRoomPeer) : RNetLanRoomPeer :=
  match read_echo b with
  | Some (sender, name, text) =>
    if (sender =? 0) || (zlen text =? 0) || (sequence <=? lp_chat_seen p) then p
    else queue_chat sender name text (set_lp_chat_seen sequence p)
  | None => p
  end.
(** The roster of a packet, when the guest can take part in it. *)
Definition read_roster (b : list Z) (epoch revision : Z) (p : RNetLanRoomPeer) : option RNetLanRoom :=
  match read_room epoch revision b with
  | Some (next, []) =>
    if negb (valid_room next) || (lp_max_supported p <? lr_max_slots next)
       || negb (bool_decide (lr_game next = lp_game p)) || negb (bool_decide (lr_game_version next = lp_version p))
    then None else Some next
  | _ => None
  end.
(** The roster becomes the guest's own, and is acknowledged. *)
Definition adopt_roster (type : Z) (next : RNetLanRoom) (sequence : Z) (p : RNetLanRoomPeer) : RNetLanRoomPeer :=
  let start := (type =? op_START) && nz (lr_starting next) in
  let p := if start && (negb (nz (lr_starting (lp_room p))) || negb (lr_session_id (lp_room p) =? lr_session_id next))
           then let '(now, p) := clock p in set_lp_start_seen now p else p in
  let p := if nz (lr_starting next) then p else set_lp_start_seen 0 p in
  let p := set_lp_status 0 (set_lp_joined true (set_lp_room next p)) in
  let '(now, p) := clock p in
  let p := set_lp_last_host now p in
  let p := if lp_sequence p <=? sequence then set_lp_pending_op 0 p else p in
  if start then
    let p := if nz (lp_start_seen p) then p else set_lp_start_seen (lp_last_host p) p in
    send_simple (lp_host_address p) op_START_ACK (lp_id p) 0 p
  else send_simple (lp_host_address p) op_ACK (lp_id p) 0 p.
Definition handle_roster (type : Z) (b : list Z) (epoch sequence revision : Z) (p : RNetLanRoomPeer) : RNetLanRoomPeer :=
  match read_roster b epoch revision p with
  | None => p
  | Some next =>
    if lp_joined p && (revision <? lr_revision (lp_room p)) then p
    else if lp_joined p && (revision =? lr_revision (lp_room p)) && negb (bool_decide (next = lp_room p))
    then set_lp_status RNET_LAN_ROOM_IDENTITY p
    else if member_slot next (lp_id p) <? 0 then set_lp_status RNET_LAN_ROOM_KICKED p
    else adopt_roster type next sequence p
  end.
Definition handle_guest (b : list Z) (source : sockaddr_in) (type epoch id sequence revision status : Z) (p : RNetLanRoomPeer) : RNetLanRoomPeer :=
  if negb (id =? lp_id p) || negb (same_address source (lp_host_address p)) then p
  else if (type =? op_NAK) && negb (lp_joined p) then set_lp_status (if status <? 0 then status else RNET_LAN_ROOM_IDENTITY) p
  else if lp_joined p && negb (epoch =? lr_epoch (lp_room p)) then p
  else if (type =? op_CLOSE) && lp_joined p then set_lp_status (if status <? 0 then status else RNET_LAN_ROOM_CLOSED) p
  else if (type =? op_PING) && lp_joined p then send_simple (lp_host_address p) op_PONG (lp_id p) 0 p
  else if (type =? op_CHAT_ECHO) && lp_joined p then handle_echo b sequence p
  else if negb (type =? op_ROOM) && negb (type =? op_START) then p
  else handle_roster type b epoch sequence revision p.

(** ** The pump *)

Definition join_packet (p : RNetLanRoomPeer) : option (list Z) :=
  let b := put_string (lp_game p) RNET_LAN_LOBBY_GAME_MAX (room_packet op_JOIN 0 (lp_id p) 0 0 0) in
  let b := put_string (lp_version p) RNET_LAN_LOBBY_VERSION_MAX b in
  let b := put_string (lp_password p) RNET_LAN_LOBBY_PASSWORD_MAX b in
  number (lp_max_supported p) (put_string (lp_name p) RNET_LAN_LOBBY_PLAYER_MAX b).
Definition op_packet (p : RNetLanRoomPeer) : option (list Z) :=
  number (lp_pending_b p) (number (lp_pending_a p) (number (lp_pending_op p)
    (room_packet op_OP (lr_epoch (lp_room p)) (lp_id p) (lp_sequence p) (lp_pending_revision p) 0))).
Definition send_guest (p : RNetLanRoomPeer) : RNetLanRoomPeer :=
  let r := lp_room p in
  let b := if negb (lp_joined p) then join_packet p
           else if nz (lp_pending_op p) then op_packet p
           else room_packet (if nz (lr_starting r) then op_START_ACK else op_ACK) (lr_epoch r) (lp_id p) (lp_sequence p) (lr_revision r) 0 in
  snd (send_packet (lp_host_address p) b p).

(** The header's fields and the rest of a datagram that is this protocol's and
    undamaged. *)
Record RoomHeader := MkHeader { rh_type : Z; rh_epoch : Z; rh_id : Z; rh_sequence : Z; rh_revision : Z; rh_status : Z }.
Definition unseal (bs : list Z) : list Z := take 32 bs ++ [0; 0; 0; 0] ++ drop 36 bs.
Definition read_header (bs : list Z) : option (RoomHeader * list Z) :=
  let n := zlen bs in
  if (n <? HEADER) || (PKT_MAX <=? n) || negb (starts_with room_magic bs) then None
  else if negb (le_val (take 4 (drop 32 bs)) =? rnet_proto_checksum (unseal bs)) then None
  else
    '(type, b) ← read_number (drop 8 (unseal bs));
    '(epoch, b) ← read_number b;
    '(id, b) ← read_number b;
    '(sequence, b) ← read_number b;
    '(revision, b) ← read_number b;
    '(status, b) ← read_number b;
    '(_, b) ← read_number b;
    Some (MkHeader type epoch id sequence revision (s32 status), b).
Definition handle_datagram (g : sockaddr_in * list Z) (p : RNetLanRoomPeer) : RNetLanRoomPeer :=
  match read_header (snd g) with
  | None => p
  | Some (h, b) =>
    if lp_host p then handle_host b (fst g) (rh_type h) (rh_epoch h) (rh_id h) (rh_sequence h) (rh_revision h) p
    else handle_guest b (fst g) (rh_type h) (rh_epoch h) (rh_id h) (rh_sequence h) (rh_revision h) (rh_status h) p
  end.
Definition rnet_lan_room_all_ready (p : RNetLanRoomPeer) : bool :=
  lp_joined p && (2 <=? member_count (lp_room p)) &&
  (Z.land (lr_ready_mask (lp_room p)) (occupied (lp_room p)) =? occupied (lp_room p)).
(** A guest reads the clock. *)
Definition rnet_lan_room_launch_ready (now : Z) (p : RNetLanRoomPeer) : bool :=
  if negb (lp_joined p) || (lp_status p <? 0) || negb (nz (lr_starting (lp_room p))) then false
  else if negb (lp_host p) then nz (lp_start_seen p) && (HANDOFF_MS <=? u64 (now - lp_start_seen p))
  else all_upto (lr_max_slots (lp_room p)) (fun i =>
         negb (nz (ml_id (link_at p i)) && negb (ml_start_ack (link_at p i) =? lr_revision (lp_room p)))).
Definition drop_silent (now i : Z) (p : RNetLanRoomPeer) : RNetLanRoomPeer :=
  if nz (ml_id (link_at p i)) && (TIMEOUT_MS <? u64 (now - ml_seen (link_at p i))) then remove_member i RNET_LAN_ROOM_TIMEOUT p else p.
Definition all_room_acked (p : RNetLanRoomPeer) : bool :=
  all_upto (lr_max_slots (lp_room p)) (fun i =>
    negb (nz (ml_id (link_at p i)) && negb (ml_room_ack (link_at p i) =? lr_revision (lp_room p)))).
(** The roster is frozen under a fresh session; [false]: the pump ends with an
    error. *)
Definition try_start (now : Z) (p : RNetLanRoomPeer) : bool * RNetLanRoomPeer :=
  if negb (lp_want_start p && all_room_acked p && rnet_lan_room_all_ready p) then (true, p)
  else
    let rnd := ro_random (lp_calls p) in
    let p := counted p in
    match rnd with
    | None => (false, set_lp_status RNET_LAN_ROOM_IO p)
    | Some session =>
      let session := u32 session in
      if (session =? 0) || (session =? lr_session_id (lp_room p)) then (false, set_lp_status RNET_LAN_ROOM_IO p)
      else (true, set_lp_start_sent now (on_room (set_lr_starting 1) (changed (on_room (set_lr_session_id session) p))))
    end.
Definition refresh_link (now i : Z) (p : RNetLanRoomPeer) : RNetLanRoomPeer :=
  if nz (ml_id (link_at p i)) then
    let p := send_state i 0 p in
    if nz (ml_ping (link_at p i)) then p
    else let p := on_link i (set_ml_ping now) p in
         send_simple (ml_address (link_at p i)) op_PING (ml_id (link_at p i)) 0 p
  else p.
Definition resend (now : Z) (p : RNetLanRoomPeer) : RNetLanRoomPeer :=
  if (lp_last_send p =? 0) || (RETRY_MS <=? u64 (now - lp_last_send p)) then
    set_lp_last_send now (if lp_host p then for_upto (lr_max_slots (lp_room p)) (refresh_link now) p else send_guest p)
  else p.
Definition pump_result (p : RNetLanRoomPeer) : Z := if lp_joined p then 0 else RNET_LAN_ROOM_PENDING.
Definition pump_host (now : Z) (p : RNetLanRoomPeer) : Z * RNetLanRoomPeer :=
  let p := if nz (lr_starting (lp_room p)) then p else for_upto (lr_max_slots (lp_room p)) (drop_silent now) p in
  let '(ok, p) := try_start now p in
  if negb ok then (lp_status p, p)
  else if nz (lr_starting (lp_room p)) && (TIMEOUT_MS <? u64 (now - lp_start_sent p)) && negb (rnet_lan_room_launch_ready now p)
  then (RNET_LAN_ROOM_TIMEOUT, set_lp_status RNET_LAN_ROOM_TIMEOUT p)
  else let p := resend now p in (pump_result p, p).
Definition pump_guest (now : Z) (p : RNetLanRoomPeer) : Z * RNetLanRoomPeer :=
  if TIMEOUT_MS <? u64 (now - lp_last_host p) then (RNET_LAN_ROOM_TIMEOUT, set_lp_status RNET_LAN_ROOM_TIMEOUT p)
  else let p := resend now p in (pump_result p, p).
(** At most 256 datagrams of the backlog [inbox]. *)
Definition rnet_lan_room_pump (inbox : list (sockaddr_in * list Z)) (p : RNetLanRoomPeer) : Z * RNetLanRoomPeer :=
  if lp_status p <? 0 then (lp_status p, p)
  else
    let '(_, p) := clock p in
    let p := fold_left (fun p g => handle_datagram g p) (take 256 inbox) p in
    if lp_status p <? 0 then (lp_status p, p)
    else let '(now, p) := clock p in if lp_host p then pump_host now p else pump_guest now p.

(** ** The caller's side *)

(** What is sent when the room is closed. *)
Definition rnet_lan_room_close (p : RNetLanRoomPeer) : RNetLanRoomPeer :=
  let '(now, p) := clock p in
  if rnet_lan_room_launch_ready now p then p
  else if lp_host p then
    for_upto (lr_max_slots (lp_room p)) (fun i p =>
      if nz (ml_id (link_at p i)) then send_simple (ml_address (link_at p i)) op_CLOSE (ml_id (link_at p i)) RNET_LAN_ROOM_CLOSED p else p) p
  else if lp_joined p then send_simple (lp_host_address p) op_LEAVE (lp_id p) 0 p else p.
Definition rnet_lan_room_local_slot (p : RNetLanRoomPeer) : Z := if lp_joined p then member_slot (lp_room p) (lp_id p) else -1.
Definition request (op a b : Z) (p : RNetLanRoomPeer) : Z * RNetLanRoomPeer :=
  if negb (lp_joined p) || (lp_status p <? 0) then (RNET_LAN_ROOM_ARGUMENT, p)
  else if nz (lr_starting (lp_room p)) then (RNET_LAN_ROOM_STARTED, p)
  else if lp_sequence p =? UINT32_MAX then (RNET_LAN_ROOM_ARGUMENT, p)
  else (0, set_lp_last_send 0 (set_lp_pending_revision (lr_revision (lp_room p)) (set_lp_pending_b b (set_lp_pending_a a
             (set_lp_pending_op op (set_lp_sequence (lp_sequence p + 1) p)))))).
Definition rnet_lan_room_set_ready (ready : bool) (p : RNetLanRoomPeer) : Z * RNetLanRoomPeer :=
  if negb (lp_joined p) || nz (lr_starting (lp_room p)) then (RNET_LAN_ROOM_ARGUMENT, p)
  else if lp_host p then (0, set_ready_bit (member_slot (lp_room p) (lp_id p)) ready p)
  else request op_READY (b2z ready) (lr_configuration (lp_room p)) p.
Definition rnet_lan_room_move (from to : Z) (p : RNetLanRoomPeer) : Z * RNetLanRoomPeer :=
  if negb (lp_joined p) then (RNET_LAN_ROOM_ARGUMENT, p)
  else if lp_host p then move_member from to p
  else if negb (from =? member_slot (lp_room p) (lp_id p)) || (to <? 0) || (lr_max_slots (lp_room p) <=? to) then (RNET_LAN_ROOM_ARGUMENT, p)
  else if nz (m_id (member_at (lp_room p) to)) then (RNET_LAN_ROOM_OCCUPIED, p)
  else request op_MOVE (u32 from) (u32 to) p.
Definition rnet_lan_room_kick (slot : Z) (p : RNetLanRoomPeer) : Z * RNetLanRoomPeer :=
  if negb (lp_host p) || (slot <? 0) || (lr_max_slots (lp_room p) <=? slot) || (slot =? lr_host_slot (lp_room p))
     || negb (nz (ml_id (link_at p slot))) || nz (lr_starting (lp_room p)) then (RNET_LAN_ROOM_ARGUMENT, p)
  else (0, remove_member slot RNET_LAN_ROOM_KICKED p).
Definition rnet_lan_room_set_caps (delay rollback prediction variant : Z) (mods : list Z) (p : RNetLanRoomPeer) : Z * RNetLanRoomPeer :=
  if negb (lp_host p) || nz (lr_starting (lp_room p)) then (RNET_LAN_ROOM_ARGUMENT, p)
  else match copy_string RNET_LAN_LOBBY_MOD_SET_MAX mods with
  | None => (RNET_LAN_ROOM_ARGUMENT, p)
  | Some mods =>
    let next := set_lr_mod_set mods (set_lr_session_variant variant (set_lr_input_prediction prediction
      (set_lr_rollback rollback (set_lr_input_delay delay (lp_room p))))) in
    if negb (valid_room next) then (RNET_LAN_ROOM_ARGUMENT, p)
    else if bool_decide (next = lp_room p) then (0, p)
    else (0, configuration_changed (set_lp_room next p))
  end.
Definition rnet_lan_room_start (p : RNetLanRoomPeer) : Z * RNetLanRoomPeer :=
  if negb (lp_host p) || nz (lr_starting (lp_room p)) || negb (rnet_lan_room_all_ready p) then (RNET_LAN_ROOM_NOT_READY, p)
  else (0, set_lp_want_start true p).
Definition rnet_lan_room_member_rtt (slot : Z) (p : RNetLanRoomPeer) : Z :=
  if lp_host p && (0 <=? slot) && (slot <? lr_max_slots (lp_room p)) && nz (ml_id (link_at p slot)) then ml_rtt (link_at p slot) else -1.
Definition rnet_lan_room_send_chat (text : list Z) (p : RNetLanRoomPeer) : Z * RNetLanRoomPeer :=
  if negb (lp_joined p) || (lp_status p <? 0) then (RNET_LAN_ROOM_ARGUMENT, p)
  else match copy_string RNET_LAN_CHAT_TEXT_LEN text with
  | Some ((_ :: _) as copy) =>
    if lp_host p then broadcast_chat (member_slot (lp_room p) (lp_id p)) copy p
    else if lp_chat_sequence p =? UINT32_MAX then (RNET_LAN_ROOM_ARGUMENT, p)
    else
      let p := set_lp_chat_sequence (lp_chat_sequence p + 1) p in
      send_packet (lp_host_address p) (put_string copy RNET_LAN_CHAT_TEXT_LEN
        (room_packet op_CHAT_REQUEST (lr_epoch (lp_room p)) (lp_id p) (lp_chat_sequence p) (lr_revision (lp_room p)) 0)) p
  | _ => (RNET_LAN_ROOM_ARGUMENT, p)
  end.
Definition rnet_lan_room_take_chat (p : RNetLanRoomPeer) : option RNetLanChatLine * RNetLanRoomPeer :=
  let '(line, q) := chat_queue_take (lp_chat p) in (line, set_lp_chat q p).
End Peer.

(** * Theorems on LAN rooms: the bytes of a packet *)


(** ** What is written *)

Definition enc_number (v : Z) : list Z := le_bytes 4 (u32 v).
Definition enc_string (s : list Z) : list Z := enc_number (zlen s) ++ s.
Definition enc_member (m : RNetLanRoomMember) : list Z := enc_number (m_id m) ++ enc_string (m_name m).
Definition enc_header (op epoch id sequence revision status : Z) : list Z :=
  room_magic ++ enc_number op ++ enc_number epoch ++ enc_number id ++ enc_number sequence ++ enc_number revision
  ++ enc_number status ++ enc_number 0.
Definition enc_room (r : RNetLanRoom) : list Z :=
  enc_string (lr_name r) ++ enc_string (lr_game r) ++ enc_string (lr_game_version r) ++ enc_string (lr_endpoint r)
  ++ enc_string (lr_mod_set r) ++ enc_number (lr_max_slots r) ++ enc_number (lr_host_slot r) ++ enc_number (lr_ready_mask r)
  ++ enc_number (lr_configuration r) ++ enc_number (lr_session_id r) ++ enc_number (lr_input_delay r) ++ enc_number (lr_rollback r)
  ++ enc_number (lr_input_prediction r) ++ enc_number (lr_session_variant r) ++ enc_number (lr_starting r)
  ++ mjoin (enc_member <$> lr_member r).

Lemma number_some v b bs : number v b = Some bs -> exists b0, b = Some b0 /\ bs = b0 ++ enc_number v.
Proof. destruct b as [b0|]; [|done]. cbn. destruct (_ <? _); [done|]. intros [= <-]. by exists b0. Qed.
Lemma put_string_some s cap b bs : put_string s cap b = Some bs -> exists b0, b = Some b0 /\ zlen s < cap /\ bs = b0 ++ enc_string s.
Proof.
  unfold put_string. destruct (Z.leb_spec cap (zlen s)); [done|]. destruct (number (zlen s) b) as [b1|] eqn:E; [|done].
  apply number_some in E as (b0 & -> & ->). destruct (_ <? _); [done|]. intros [= <-]. exists b0. by rewrite <- app_assoc.
Qed.
Lemma write_members_some ms : forall b bs, fold_left (fun b m => write_member m b) ms b = Some bs ->
  exists b0, b = Some b0 /\ Forall (fun m => zlen (m_name m) < RNET_LAN_LOBBY_PLAYER_MAX) ms /\ bs = b0 ++ mjoin (enc_member <$> ms).
Proof.
  induction ms as [|m ms IH]; intros b bs H; cbn in *; [exists bs; by rewrite app_nil_r|].
  apply IH in H as (b1 & H1 & Hf & ->). unfold write_member in H1.
  apply put_string_some in H1 as (b2 & H2 & Hl & ->). apply number_some in H2 as (b0 & -> & ->).
  exists b0. split_and!; [done|by constructor|]. unfold enc_member. by rewrite <- !app_assoc.
Qed.
Definition room_fits (r : RNetLanRoom) : Prop :=
  zlen (lr_name r) < RNET_LAN_LOBBY_NAME_MAX /\ zlen (lr_game r) < RNET_LAN_LOBBY_GAME_MAX /\
  zlen (lr_game_version r) < RNET_LAN_LOBBY_VERSION_MAX /\ zlen (lr_endpoint r) < RNET_LAN_LOBBY_ENDPOINT_MAX /\
  zlen (lr_mod_set r) < RNET_LAN_LOBBY_MOD_SET_MAX /\
  Forall (fun m => zlen (m_name m) < RNET_LAN_LOBBY_PLAYER_MAX) (lr_member r).
Lemma write_room_some r b bs : write_room r b = Some bs -> exists b0, b = Some b0 /\ room_fits r /\ bs = b0 ++ enc_room r.
Proof.
  unfold write_room. intros H. cbn zeta in H. apply write_members_some in H as (b1 & H & Hm & ->).
  repeat (apply number_some in H as (? & H & ->)). repeat (apply put_string_some in H as (? & H & ? & ->)).
  eexists. split; [exact H|]. split; [by split_and!|]. unfold enc_room. by rewrite <- !app_assoc.
Qed.
Lemma packet_some op epoch id sequence revision status :
  room_packet op epoch id sequence revision status = Some (enc_header op epoch id sequence revision status).
Proof. reflexivity. Qed.

(** ** What is read back *)

Lemma length_enc_number v : length (enc_number v) = 4%nat.
Proof. apply length_le_bytes. Qed.
Lemma read_enc_number v rest : read_number (enc_number v ++ rest) = Some (u32 v, rest).
Proof.
  unfold read_number. rewrite length_app, length_enc_number. cbn [Nat.add Nat.ltb Nat.leb].
  rewrite take_app_length', drop_app_length' by (by rewrite length_enc_number). unfold enc_number.
  rewrite le_val_bytes by (pose proof (u32_range v); by ranges; lia). do 2 f_equal. apply Z.mod_small. pose proof (u32_range v). ranges.
  change (2 ^ (8 * Z.of_nat 4)) with 4294967296. lia.
Qed.
Definition no_control (s : list Z) : bool := negb (existsb is_control s).
Lemma read_enc_string s cap rest : zlen s < cap -> cap <= 65536 ->
  get_string cap (enc_string s ++ rest) = if no_control s then Some (s, rest) else None.
Proof.
  intros Hl Hc. unfold get_string, enc_string. rewrite <- app_assoc, read_enc_number. pose proof (zlen_nonneg s).
  rewrite u32_id by (ranges; lia). rewrite zlen_app. pose proof (zlen_nonneg rest).
  destruct (Z.leb_spec cap (zlen s)); [lia|]. destruct (Z.ltb_spec (zlen s + zlen rest) (zlen s)); [lia|]. cbn [orb].
  rewrite to_nat_zlen, take_app_length, drop_app_length. unfold no_control. by destruct (existsb is_control s).
Qed.

(** The fields are in the ranges of their types. *)
Definition member_typed (m : RNetLanRoomMember) : Prop := in_u32 (m_id m).
Definition room_typed (r : RNetLanRoom) : Prop :=
  in_u32 (lr_epoch r) /\ in_u32 (lr_revision r) /\ in_u32 (lr_configuration r) /\ in_u32 (lr_session_id r) /\ in_u32 (lr_ready_mask r) /\
  in_s32 (lr_max_slots r) /\ in_s32 (lr_host_slot r) /\ in_s32 (lr_input_delay r) /\ in_s32 (lr_rollback r) /\
  in_s32 (lr_input_prediction r) /\ in_s32 (lr_session_variant r) /\ in_s32 (lr_starting r) /\
  length (lr_member r) = 4%nat /\ Forall member_typed (lr_member r).
(** The texts have no control characters. *)
Definition room_clean (r : RNetLanRoom) : bool :=
  no_control (lr_name r) && no_control (lr_game r) && no_control (lr_game_version r) && no_control (lr_endpoint r) && no_control (lr_mod_set r)
  && forallb (fun m => no_control (m_name m)) (lr_member r).

Lemma s32_u32 x : in_s32 x -> s32 (u32 x) = x.
Proof. intros H. unfold s32, u32 in *. ranges. rewrite Z.mod_mod by lia. destruct (Z.ltb_spec (x mod 4294967296) 2147483648); Z.div_mod_to_equations; lia. Qed.
Lemma read_enc_members ms : forall rest, Forall member_typed ms -> Forall (fun m => zlen (m_name m) < RNET_LAN_LOBBY_PLAYER_MAX) ms ->
  read_members (length ms) (mjoin (enc_member <$> ms) ++ rest) = if forallb (fun m => no_control (m_name m)) ms then Some (ms, rest) else None.
Proof.
  induction ms as [|m ms IH]; intros rest Ht Hf; [done|]. apply Forall_cons in Ht as [Hm Ht]. apply Forall_cons in Hf as [Hl Hf].
  cbn [length read_members fmap list_fmap mjoin list_join]. unfold read_member, enc_member at 1. rewrite <- !app_assoc, read_enc_number.
  cbn [mbind option_bind forallb]. rewrite read_enc_string by done. destruct (no_control (m_name m)); [|done]. cbn [mbind option_bind].
  change (mret (enc_member <$> ms)) with (enc_member <$> ms) in *. rewrite IH by done. destruct (forallb _ ms); [|done].
  cbn [mbind option_bind]. rewrite u32_id by done. by destruct m.
Qed.
Lemma read_enc_room r : room_typed r -> room_fits r ->
  read_room (lr_epoch r) (lr_revision r) (enc_room r) = if room_clean r then Some (r, []) else None.
Proof.
  intros (T1 & T2 & T3 & T4 & T5 & T6 & T7 & T8 & T9 & T10 & T11 & T12 & Tl & Tm) (F1 & F2 & F3 & F4 & F5 & F6).
  unfold read_room, enc_room, room_clean.
  rewrite read_enc_string by done. destruct (no_control (lr_name r)); [cbn [mbind option_bind andb]|done].
  rewrite read_enc_string by done. destruct (no_control (lr_game r)); [cbn [mbind option_bind andb]|done].
  rewrite read_enc_string by done. destruct (no_control (lr_game_version r)); [cbn [mbind option_bind andb]|done].
  rewrite read_enc_string by done. destruct (no_control (lr_endpoint r)); [cbn [mbind option_bind andb]|done].
  rewrite read_enc_string by done. destruct (no_control (lr_mod_set r)); [cbn [mbind option_bind andb]|done].
  do 10 (rewrite read_enc_number; cbn [mbind option_bind]).
  rewrite <- (app_nil_r (mjoin (enc_member <$> lr_member r))). rewrite <- Tl, read_enc_members by done.
  destruct (forallb _ (lr_member r)); [|done]. cbn [mbind option_bind]. rewrite !s32_u32, !u32_id by done. by destruct r.
Qed.

(** ** Header and checksum *)

Definition enc_front (op epoch id sequence revision status : Z) : list Z :=
  room_magic ++ enc_number op ++ enc_number epoch ++ enc_number id ++ enc_number sequence ++ enc_number revision ++ enc_number status.
Lemma enc_header_front op epoch id sequence revision status body :
  enc_header op epoch id sequence revision status ++ body = enc_front op epoch id sequence revision status ++ [0; 0; 0; 0] ++ body.
Proof. unfold enc_header, enc_front. by rewrite <- !app_assoc. Qed.
Lemma length_enc_front op epoch id sequence revision status : length (enc_front op epoch id sequence revision status) = 32%nat.
Proof. unfold enc_front. by rewrite !length_app, !length_enc_number. Qed.
Lemma take_mid (a b c : list Z) n : length a = n -> take n (a ++ b ++ c) = a.
Proof. intros <-. apply take_app_length. Qed.
Lemma drop_mid (a b c : list Z) n : (length a + length b)%nat = n -> drop n (a ++ b ++ c) = c.
Proof. intros <-. by rewrite app_assoc, <- length_app, drop_app_length. Qed.
Lemma starts_with_app a b : starts_with a (a ++ b) = true.
Proof. induction a as [|x a IH]; [by destruct b|]. cbn. by rewrite Z.eqb_refl. Qed.

(** A packet is read as it was written, unless it fills the largest datagram. *)
Lemma read_sealed op epoch id sequence revision status body :
  read_header (seal_packet (enc_header op epoch id sequence revision status ++ body)) =
  if PKT_MAX <=? zlen body + 36 then None
  else Some (MkHeader (u32 op) (u32 epoch) (u32 id) (u32 sequence) (u32 revision) (s32 (u32 status)), body).
Proof.
  rewrite enc_header_front. set (front := enc_front op epoch id sequence revision status).
  pose proof (length_enc_front op epoch id sequence revision status) as Lf. fold front in Lf.
  unfold seal_packet. set (sum := rnet_proto_checksum (front ++ [0; 0; 0; 0] ++ body)).
  rewrite (take_mid front [0; 0; 0; 0] body 32) by done. rewrite (drop_mid front [0; 0; 0; 0] body 36) by (by rewrite Lf).
  set (pkt := front ++ le_bytes 4 sum ++ body).
  assert (zlen pkt = zlen body + 36) as Lp.
  { unfold pkt. rewrite !zlen_app. unfold zlen. rewrite Lf, length_le_bytes. lia. }
  assert (unseal pkt = front ++ [0; 0; 0; 0] ++ body) as Hu.
  { unfold unseal, pkt. rewrite (take_mid front _ body 32) by done. by rewrite (drop_mid front _ body 36) by (by rewrite Lf, length_le_bytes). }
  unfold read_header. rewrite Lp, Hu. pose proof (zlen_nonneg body).
  destruct (Z.ltb_spec (zlen body + 36) HEADER) as [C|_]; [unfold HEADER in C; lia|]. cbn [orb].
  destruct (PKT_MAX <=? zlen body + 36); [done|]. cbn [orb].
  assert (starts_with room_magic pkt = true) as ->.
  { unfold pkt, front, enc_front. rewrite <- !app_assoc. apply starts_with_app. }
  assert (le_val (take 4 (drop 32 pkt)) = sum) as ->.
  { unfold pkt. rewrite <- Lf, drop_app_length. rewrite take_app_length' by (by rewrite length_le_bytes).
    pose proof (rnet_proto_checksum_range (front ++ [0; 0; 0; 0] ++ body)) as R. fold sum in R. ranges.
    rewrite le_val_bytes by lia. apply Z.mod_small. change (2 ^ (8 * Z.of_nat 4)) with 4294967296. lia. }
  fold sum. rewrite Z.eqb_refl. cbn [negb].
  unfold front, enc_front. change (drop 8 ((room_magic ++ ?a) ++ ?b)) with (a ++ b). rewrite <- !app_assoc.
  do 6 (rewrite read_enc_number; cbn [mbind option_bind]).
  change ([0; 0; 0; 0] ++ body) with (enc_number 0 ++ body). rewrite read_enc_number. done.
Qed.

Lemma enc_room_short r : room_fits r -> length (lr_member r) = 4%nat -> zlen (enc_room r) + 36 < PKT_MAX.
Proof.
  intros (F1 & F2 & F3 & F4 & F5 & F6) L. destruct (lr_member r) as [|m0 [|m1 [|m2 [|m3 [|]]]]] eqn:E; try done.
  rewrite !Forall_cons in F6. destruct F6 as (M0 & M1 & M2 & M3 & _).
  unfold enc_room. rewrite E. cbn [fmap list_fmap mjoin list_join]. unfold enc_member, enc_string.
  rewrite !zlen_app. change (zlen (enc_number ?v)) with 4. rewrite zlen_nil.
  unfold RNET_LAN_LOBBY_NAME_MAX, RNET_LAN_LOBBY_GAME_MAX, RNET_LAN_LOBBY_VERSION_MAX, RNET_LAN_LOBBY_ENDPOINT_MAX,
    RNET_LAN_LOBBY_MOD_SET_MAX, RNET_LAN_LOBBY_PLAYER_MAX, PKT_MAX in *. lia.
Qed.
(** A roster arrives as it left: for every roster the host writes, the
    datagram is accepted by the receiver's header and checksum tests, and the
    roster read from it is the one written - or, if one of its texts has a control
    character, none at all. *)
Theorem roster_reads_back r type id sequence status bs : room_typed r -> in_u32 id -> in_u32 sequence ->
  write_room r (room_packet type (lr_epoch r) id sequence (lr_revision r) status) = Some bs ->
  exists h b, read_header (seal_packet bs) = Some (h, b) /\ rh_type h = u32 type /\ rh_id h = id /\ rh_sequence h = sequence /\
    rh_epoch h = lr_epoch r /\ rh_revision h = lr_revision r /\
    read_room (rh_epoch h) (rh_revision h) b = if room_clean r then Some (r, []) else None.
Proof.
  intros Ht Hi Hs H. apply write_room_some in H as (b0 & Hp & Hf & ->). rewrite packet_some in Hp. injection Hp as <-.
  pose proof Ht as (Te & Tr & _ & _ & _ & _ & _ & _ & _ & _ & _ & _ & Tl & _).
  rewrite read_sealed. pose proof (enc_room_short r Hf Tl). destruct (Z.leb_spec PKT_MAX (zlen (enc_room r) + 36)) as [C|_]; [lia|].
  eexists _, _. split; [done|]. cbn. rewrite (u32_id id), (u32_id sequence), (u32_id (lr_epoch r)), (u32_id (lr_revision r)) by done.
  split_and!; try done. by apply read_enc_room.
Qed.
Definition demo_room : RNetLanRoom :=
  MkRoom (B "den") (B "game") (B "1.0") (B "10.0.0.2:7777") [] 77 1 1 0 0 2 0 2 1 4 0 0 [MkMember 77 (B "ann"); member_zero; member_zero; member_zero].
Lemma roster_reads_back_witness : forall bs, write_room demo_room (room_packet op_ROOM 77 5 9 1 0) = Some bs ->
  exists h b, read_header (seal_packet bs) = Some (h, b) /\ rh_type h = 2 /\ rh_id h = 5 /\ rh_sequence h = 9 /\
    rh_epoch h = 77 /\ rh_revision h = 1 /\ read_room (rh_epoch h) (rh_revision h) b = Some (demo_room, []).
Proof.
  intros bs H. apply (roster_reads_back demo_room op_ROOM 5 9 0); [|done|done|done].
  repeat split; try done; repeat constructor; done.
Defined.
