(* ===== verification/LanRoomHost.v ===== *)
(** * Theorems on LAN rooms: the host's roster

    The invariant of a host over every call and every datagram: its roster is
    one that guests accept, and its links are the links of the members seated. *)

From stdpp Require Import base list numbers list_numbers strings relations.
From S2P Require Import Prelude CStrings Slots Protocol ProtocolProofs Config Rings NetSim Transport Digest Json HostRelayText LanText LanRoom.

(** ** Valid rosters *)

Lemma testbit_occupied r j : 0 <= j -> Z.testbit (occupied r) j = (j <? lr_max_slots r) && nz (m_id (member_at r j)).
Proof.
  intros Hj. unfold occupied. destruct (Z.ltb_spec j (lr_max_slots r)) as [L|L].
  - cut (forall n, 0 <= n <= lr_max_slots r ->
      Z.testbit (for_upto n (fun i bits => if nz (m_id (member_at r i)) then Z.lor bits (bit i) else bits) 0) j
      = (j <? n) && nz (m_id (member_at r j))).
    { intros K. rewrite K by lia. by destruct (Z.ltb_spec j (lr_max_slots r)); [|lia]. }
    intros n [Hn Hm]. revert Hm. pattern n. apply natlike_ind; [|clear n Hn|done].
    + intros _. rewrite for_upto_0, Z.testbit_0_l. by destruct (Z.ltb_spec j 0); [lia|].
    + intros n Hn IH Hm. change (Z.succ n) with (n + 1). rewrite for_upto_succ by done.
      destruct (nz (m_id (member_at r n))) eqn:E.
      * rewrite Z.lor_spec, IH by lia. rewrite bit_testbit by done.
        destruct (Z.ltb_spec j n), (Z.ltb_spec j (n + 1)), (Z.eqb_spec n j); try lia; cbn; subst; try done; by rewrite ?orb_false_r, ?E.
      * rewrite IH by lia. destruct (Z.ltb_spec j n), (Z.ltb_spec j (n + 1)); try lia; try done.
        assert (j = n) as -> by lia. by rewrite E.
  - unfold for_upto. cut (forall l, Forall (fun i => 0 <= i < j) l -> forall acc, Z.testbit acc j = false ->
      Z.testbit (fold_left (fun s i => if nz (m_id (member_at r i)) then Z.lor s (bit i) else s) l acc) j = false).
    { intros K. apply K; [|apply Z.testbit_0_l]. apply Forall_forall. intros i Hi%elem_of_seqZ. lia. }
    intros l. induction 1 as [|i l Hi Hl IH]; intros acc Ha; cbn; [done|]. apply IH. destruct (nz _); [|done].
    rewrite Z.lor_spec, Ha, bit_testbit by lia. cbn. apply Z.eqb_neq. lia.
Qed.

(** What [valid_room] tests. *)
Record room_ok (r : RNetLanRoom) : Prop := {
  ok_slots : 2 <= lr_max_slots r <= 4;
  ok_host : 0 <= lr_host_slot r < lr_max_slots r;
  ok_hosted : m_id (member_at r (lr_host_slot r)) <> 0;
  ok_epoch : lr_epoch r <> 0;
  ok_config : lr_configuration r <> 0 /\ lr_configuration r <= lr_revision r;
  ok_revision : lr_revision r <> 0;
  ok_ready : forall j, 0 <= j -> Z.testbit (lr_ready_mask r) j = true -> j < lr_max_slots r /\ m_id (member_at r j) <> 0;
  ok_delay : 2 <= lr_input_delay r <= 20;
  ok_rollback : 0 <= lr_rollback r <= 1;
  ok_prediction : 2 <= lr_input_prediction r <= 16;
  ok_variant : 0 <= lr_session_variant r;
  ok_starting : 0 <= lr_starting r <= 1 /\ (lr_starting r = 1 -> lr_session_id r <> 0);
  ok_empty : forall i, lr_max_slots r <= i < 4 -> m_id (member_at r i) = 0;
  ok_named : forall i, 0 <= i < 4 -> m_id (member_at r i) <> 0 -> m_name (member_at r i) <> [];
  ok_distinct : forall i j, 0 <= i < j -> j < 4 -> m_id (member_at r i) <> 0 -> m_id (member_at r i) <> m_id (member_at r j);
  ok_texts : lr_game r <> [] /\ lr_game_version r <> [] /\ lr_endpoint r <> []
}.
Lemma zlen_0 {A} (l : list A) : zlen l = 0 <-> l = [].
Proof. unfold zlen. destruct l; cbn; split; intros; (done || lia). Qed.
Lemma nz_nonzero x : nz x = true <-> x <> 0.
Proof. unfold nz. destruct (Z.eqb_spec x 0); cbn; split; try done; congruence. Qed.
Lemma nz_zero x : nz x = false <-> x = 0.
Proof. unfold nz. destruct (Z.eqb_spec x 0); cbn; split; try done; congruence. Qed.
Lemma ready_within mask r : Z.ldiff mask (occupied r) = 0 <->
  forall j, 0 <= j -> Z.testbit mask j = true -> j < lr_max_slots r /\ m_id (member_at r j) <> 0.
Proof.
  split.
  - intros H j Hj Ht. assert (Z.testbit (Z.ldiff mask (occupied r)) j = false) as K by (rewrite H; apply Z.testbit_0_l).
    rewrite Z.ldiff_spec, Ht, testbit_occupied in K by done. cbn in K. apply negb_false_iff, andb_prop in K as [K1 K2].
    split; [by apply Z.ltb_lt|by apply nz_nonzero].
  - intros H. apply Z.bits_inj'. intros j Hj. rewrite Z.ldiff_spec, Z.testbit_0_l, testbit_occupied by done.
    destruct (Z.testbit mask j) eqn:E; [|done]. destruct (H j Hj E) as [H1 H2]. cbn. apply negb_false_iff, andb_true_intro.
    split; [by apply Z.ltb_lt|by apply nz_nonzero].
Qed.
Lemma valid_members r : all_upto 4 (valid_member r) = true <->
  (forall i, lr_max_slots r <= i < 4 -> 0 <= i -> m_id (member_at r i) = 0) /\
  (forall i, 0 <= i < 4 -> m_id (member_at r i) <> 0 -> m_name (member_at r i) <> []) /\
  (forall i j, 0 <= i < j -> j < 4 -> m_id (member_at r i) <> 0 -> m_id (member_at r i) <> m_id (member_at r j)).
Proof.
  rewrite all_upto_spec. split.
  - intros H. assert (forall i, 0 <= i < 4 -> m_id (member_at r i) <> 0 -> i < lr_max_slots r /\ m_name (member_at r i) <> [] /\
      (forall j, 0 <= j < 4 -> i < j -> m_id (member_at r i) <> m_id (member_at r j))) as K.
    { intros i Hi Hn. specialize (H i Hi). unfold valid_member in H. rewrite (proj2 (nz_nonzero _) Hn), andb_true_r in H.
      apply andb_prop in H as [[H1 H2]%andb_prop H3]. apply negb_true_iff in H1, H2. apply Z.leb_gt in H1. apply Z.eqb_neq in H2.
      split_and!; [done|by rewrite <- zlen_0|]. intros j Hj Hij. cbn in H3. rewrite all_upto_spec in H3. specialize (H3 j Hj).
      apply negb_true_iff in H3. rewrite (proj2 (Z.ltb_lt i j) Hij) in H3. by apply Z.eqb_neq in H3. }
    split_and!.
    + intros i Hi H0. destruct (decide (m_id (member_at r i) = 0)) as [|Hn]; [done|]. destruct (K i ltac:(lia) Hn). lia.
    + intros i Hi Hn. by apply K.
    + intros i j Hij Hj Hn. apply K; [lia|done|lia|lia].
  - intros (H1 & H2 & H3) i Hi. unfold valid_member. destruct (nz (m_id (member_at r i))) eqn:E; [|by rewrite andb_false_r].
    apply nz_nonzero in E. rewrite andb_true_r. cbn [andb]. destruct (Z.leb_spec (lr_max_slots r) i) as [L|L]; [by rewrite H1 in E by lia|].
    cbn [negb andb]. destruct (Z.eqb_spec (zlen (m_name (member_at r i))) 0) as [Z0|]; [apply zlen_0 in Z0; by destruct (H2 i Hi E)|].
    cbn [negb andb orb]. apply all_upto_spec. intros j Hj. destruct (Z.ltb_spec i j); [|done]. cbn [andb].
    destruct (Z.eqb_spec (m_id (member_at r i)) (m_id (member_at r j))) as [Q|]; [|done]. exfalso. by apply (H3 i j ltac:(lia) ltac:(lia) E).
Qed.
Lemma valid_room_spec r : valid_room r = true <-> room_ok r.
Proof.
  unfold valid_room. rewrite !andb_true_iff, negb_true_iff, !orb_false_iff, valid_members, nz_zero, ready_within, !nz_nonzero, !zlen_0.
  rewrite !Z.ltb_ge, !Z.leb_gt, !Z.eqb_neq. split.
  - intros ((((Hb & (M1 & M2 & M3)) & G) & V) & E). destruct Hb as [Hb Hs].
    repeat match goal with H : _ /\ _ |- _ => destruct H end. split; try done; try lia.
    + split; [lia|]. intros S1 S0. by rewrite S1, S0 in Hs.
    + intros i Hi. apply M1; lia.
  - intros []. destruct ok_texts0 as (? & ? & ?). split_and!; try done; try lia.
    + destruct ok_starting0 as [S1 S2]. destruct (Z.eqb_spec (lr_session_id r) 0); [|by rewrite andb_false_r].
      destruct (decide (lr_starting r = 1)) as [|Hn]; [by destruct S2|]. by replace (lr_starting r) with 0 by lia.
    + intros i Hi Hi0. apply ok_empty0. lia.
Qed.

(** ** The host's invariant *)

(** A link without a member. *)
Definition link_blank (l : MemberLink) : Prop := ml_address l = addr_zero /\ ml_start_ack l = 0.
Record host_inv (p : RNetLanRoomPeer) : Prop := {
  hi_host : lp_host p = true;
  hi_joined : lp_joined p = true;
  hi_typed : room_typed (lp_room p);
  hi_ok : room_ok (lp_room p);
  hi_self : m_id (member_at (lp_room p) (lr_host_slot (lp_room p))) = lp_id p;
  hi_epoch : lr_epoch (lp_room p) = lp_id p;
  hi_len : length (lp_links p) = 4%nat;
  hi_links : forall i, 0 <= i < 4 ->
    ml_id (link_at p i) = if i =? lr_host_slot (lp_room p) then 0 else m_id (member_at (lp_room p) i);
  hi_blank : forall i, 0 <= i < 4 -> ml_id (link_at p i) = 0 -> link_blank (link_at p i)
}.
(** It depends on these fields only. *)
Definition hview (p : RNetLanRoomPeer) : bool * bool * Z * RNetLanRoom * list MemberLink :=
  (lp_host p, lp_joined p, lp_id p, lp_room p, lp_links p).
Lemma host_inv_view p q : hview p = hview q -> host_inv p -> host_inv q.
Proof.
  unfold hview. intros [= E1 E2 E3 E4 E5] [].
  split; unfold link_at in *; rewrite <- ?E1, <- ?E2, <- ?E3, <- ?E4, <- ?E5; done.
Qed.

Lemma member_at_put r i m j : length (lr_member r) = 4%nat -> 0 <= i < 4 -> 0 <= j ->
  member_at (put_member i m r) j = if i =? j then m else member_at r j.
Proof.
  intros L Hi Hj. unfold member_at, put_member. change (lr_member (set_lr_member ?v r)) with v.
  rewrite rd_wr; [|unfold zlen; rewrite L; lia|done]. rewrite Z.eqb_sym. done.
Qed.
Lemma link_at_on p i f j : length (lp_links p) = 4%nat -> 0 <= i < 4 -> 0 <= j ->
  link_at (on_link i f p) j = if i =? j then f (link_at p i) else link_at p j.
Proof.
  intros L Hi Hj. unfold link_at at 1, on_link. change (lp_links (set_lp_links ?v p)) with v.
  rewrite rd_wr; [|unfold zlen; rewrite L; lia|done]. rewrite Z.eqb_sym. done.
Qed.

Section Frames.
Context {os : RoomOs}.
(** A call to the system changes what is sent and how many calls there were. *)
Definition sent (p q : RNetLanRoomPeer) : Prop := exists o n, q = set_lp_calls n (set_lp_out (lp_out p ++ o) p).
Lemma sent_refl p : sent p p.
Proof. exists [], (lp_calls p). rewrite app_nil_r. by destruct p. Qed.
Lemma sent_trans p q r : sent p q -> sent q r -> sent p r.
Proof. intros (o1 & n1 & ->) (o2 & n2 & ->). exists (o1 ++ o2), n2. destruct p. cbn. by rewrite app_assoc. Qed.
Lemma clock_sent p : sent p (snd (clock p)).
Proof. exists [], (S (lp_calls p)). rewrite app_nil_r. by destruct p. Qed.
Lemma counted_sent p : sent p (counted p).
Proof. apply clock_sent. Qed.
Lemma send_packet_sent a b p : sent p (snd (send_packet a b p)).
Proof.
  unfold send_packet. destruct b as [bs|]; [|apply sent_refl]. unfold room_sendto. destruct (ro_sends _); [|apply counted_sent].
  eexists _, _. destruct p. reflexivity.
Qed.
Lemma send_simple_sent a op id st p : sent p (send_simple a op id st p).
Proof. apply send_packet_sent. Qed.
Lemma send_state_sent slot st p : sent p (send_state slot st p).
Proof. apply send_packet_sent. Qed.
Lemma sent_view p q : sent p q -> hview q = hview p.
Proof. intros (o & n & ->). by destruct p. Qed.
Lemma host_inv_sent p q : sent p q -> host_inv p -> host_inv q.
Proof. intros S%sent_view. by apply host_inv_view. Qed.

(** ** What keeps it *)

Lemma host_inv_link i f p : host_inv p -> 0 <= i < 4 -> (forall l, ml_id (f l) = ml_id l) ->
  (link_blank (link_at p i) -> ml_id (link_at p i) = 0 -> link_blank (f (link_at p i))) -> host_inv (on_link i f p).
Proof.
  intros Hp Hi Hid Hack. pose proof (hi_len _ Hp) as L.
  assert (lp_room (on_link i f p) = lp_room p) as Er by by destruct p.
  split; rewrite ?Er; try (by destruct p, Hp).
  - unfold on_link. change (lp_links (set_lp_links ?v p)) with v. unfold wr. by rewrite length_insert.
  - intros j Hj. rewrite link_at_on by (done || lia). destruct (Z.eqb_spec i j) as [<-|]; [rewrite Hid|]; by apply Hp.
  - intros j Hj. rewrite link_at_on by (done || lia). destruct (Z.eqb_spec i j) as [<-|]; [|by apply Hp].
    rewrite Hid. intros H0. apply Hack; [by apply Hp|done].
Qed.
(** A roster with other contents, the same seats taken. *)
Lemma host_inv_room r p : host_inv p -> room_typed r -> room_ok r -> lr_member r = lr_member (lp_room p) ->
  lr_host_slot r = lr_host_slot (lp_room p) -> lr_epoch r = lr_epoch (lp_room p) -> host_inv (set_lp_room r p).
Proof.
  intros [] Ht Ho Em Eh Ee. split; try done; change (lp_room (set_lp_room r p)) with r; unfold member_at in *; rewrite ?Em, ?Eh, ?Ee; done.
Qed.
Lemma changed_inv p : host_inv p -> host_inv (changed p).
Proof.
  intros Hp. unfold changed. destruct (Z.eqb_spec (lr_revision (lp_room p)) UINT32_MAX) as [E|E]; [by apply (host_inv_view p)|].
  apply (host_inv_view (on_room (fun r => set_lr_revision (lr_revision r + 1) r) p)); [done|].
  pose proof (hi_typed _ Hp) as T. pose proof (hi_ok _ Hp) as O.
  assert (in_u32 (lr_revision (lp_room p))) as Tr by apply T.
  apply host_inv_room; [done| | |done..].
  - assert (in_u32 (lr_revision (lp_room p) + 1)) by (ranges; lia).
    destruct T as (? & ? & ? & ? & ? & ? & ? & ? & ? & ? & ? & ? & ? & ?). by split_and!.
  - destruct O. split; try done; change (lr_revision (set_lr_revision ?v ?r)) with v; ranges; try lia.
    change (lr_configuration (set_lr_revision ?v ?r)) with (lr_configuration r). lia.
Qed.
(** A changed configuration needs nothing of the readiness it clears. *)
Lemma configuration_changed_inv p : host_inv (on_room (set_lr_ready_mask 0) p) -> host_inv (configuration_changed p).
Proof.
  intros H0%changed_inv. unfold configuration_changed.
  assert (on_room (set_lr_ready_mask 0) (changed p) = changed (on_room (set_lr_ready_mask 0) p)) as E.
  { unfold changed. change (lr_revision (lp_room (on_room (set_lr_ready_mask 0) p))) with (lr_revision (lp_room p)).
    destruct (_ =? _); by destruct p. }
  rewrite <- E in H0. set (q := changed p) in *. clearbody q. clear E p.
  change (on_room (fun r => set_lr_ready_mask 0 (set_lr_configuration (lr_revision r) r)) q)
    with (set_lp_room (set_lr_configuration (lr_revision (lp_room q)) (set_lr_ready_mask 0 (lp_room q))) (on_room (set_lr_ready_mask 0) q)).
  pose proof (hi_typed _ H0) as T. pose proof (hi_ok _ H0) as O. apply host_inv_room; [done| | |done..].
  - destruct T as (? & ? & ? & ? & ? & ? & ? & ? & ? & ? & ? & ? & ? & ?). by split_and!.
  - destruct O. split; try done; cbn; cbn in *; (done || lia).
Qed.

Lemma clear_ready_inv p : host_inv p -> host_inv (on_room (set_lr_ready_mask 0) p).
Proof.
  intros Hp. pose proof (hi_typed _ Hp) as T. pose proof (hi_ok _ Hp) as O. apply host_inv_room; [done| | |done..].
  - destruct T as (? & ? & ? & ? & ? & ? & ? & ? & ? & ? & ? & ? & ? & ?). by split_and!.
  - destruct O. split; try done. cbn. intros j _ Hj. by rewrite Z.testbit_0_l in Hj.
Qed.
Lemma typed_put r i m : room_typed r -> in_u32 (m_id m) -> room_typed (put_member i m r).
Proof.
  intros (? & ? & ? & ? & ? & ? & ? & ? & ? & ? & ? & ? & L & F) Hm.
  split_and!; try done; unfold put_member; change (lr_member (set_lr_member ?v r)) with v; unfold wr; [by rewrite length_insert|].
  by apply Forall_insert.
Qed.
(** A seat other than the host's gets another member, or none, and its link. *)
Definition reseat (i : Z) (m : RNetLanRoomMember) (l : MemberLink) (p : RNetLanRoomPeer) : RNetLanRoomPeer :=
  on_link i (fun _ => l) (on_room (put_member i m) p).
Lemma reseat_inv i m l p : host_inv p -> 0 <= i < lr_max_slots (lp_room p) -> i <> lr_host_slot (lp_room p) -> in_u32 (m_id m) ->
  (m_id m <> 0 -> m_name m <> [] /\ forall j, 0 <= j < 4 -> j <> i -> m_id (member_at (lp_room p) j) <> m_id m) ->
  ml_id l = m_id m -> (m_id m = 0 -> link_blank l) -> host_inv (on_room (set_lr_ready_mask 0) (reseat i m l p)).
Proof.
  intros Hp Hi Hne Hu Hm Hl Ha. pose proof (hi_typed _ Hp) as T. pose proof (hi_ok _ Hp) as O. pose proof (hi_len _ Hp) as L.
  assert (length (lr_member (lp_room p)) = 4%nat) as LM by apply T. pose proof (ok_slots _ O) as Hs.
  set (r := set_lr_ready_mask 0 (put_member i m (lp_room p))).
  assert (forall j, 0 <= j -> member_at r j = if i =? j then m else member_at (lp_room p) j) as M.
  { intros j Hj. change (member_at r j) with (member_at (put_member i m (lp_room p)) j). apply member_at_put; (done || lia). }
  assert (lr_host_slot r = lr_host_slot (lp_room p)) as Eh by done. pose proof (ok_host _ O) as Hh.
  assert (m_id (member_at r (lr_host_slot r)) = m_id (member_at (lp_room p) (lr_host_slot (lp_room p)))) as Eself.
  { rewrite Eh, M by lia. by destruct (Z.eqb_spec i (lr_host_slot (lp_room p))). }
  assert (lp_room (on_room (set_lr_ready_mask 0) (reseat i m l p)) = r) as Er by by destruct p.
  assert (forall j, 0 <= j -> link_at (on_room (set_lr_ready_mask 0) (reseat i m l p)) j = if i =? j then l else link_at p j) as ML.
  { intros j Hj. change (link_at (on_room (set_lr_ready_mask 0) (reseat i m l p)) j) with (link_at (on_link i (fun _ => l) (on_room (put_member i m) p)) j).
    by rewrite link_at_on by (done || lia). }
  assert (room_typed r) as Tr.
  { pose proof (typed_put _ i m T Hu) as (? & ? & ? & ? & ? & ? & ? & ? & ? & ? & ? & ? & ? & ?). by split_and!. }
  split; rewrite ?Er; try done.
  - apply Hp.
  - apply Hp.
  - destruct O. split; try done.
    + by rewrite Eself.
    + cbn. intros j _ Hj. by rewrite Z.testbit_0_l in Hj.
    + intros j Hj. change (lr_max_slots r) with (lr_max_slots (lp_room p)) in Hj. rewrite M by lia. destruct (Z.eqb_spec i j); [lia|]. auto.
    + intros j Hj. rewrite M by lia. destruct (Z.eqb_spec i j) as [<-|]; [intros Hn; by apply Hm|]. auto.
    + intros j k Hjk Hk. rewrite !M by lia. destruct (Z.eqb_spec i j) as [<-|], (Z.eqb_spec i k) as [<-|]; try lia; [| |by apply ok_distinct0].
      * intros Hn E. destruct (Hm Hn) as [_ D]. apply (D k); [lia..|]. done.
      * intros Hn E. destruct (decide (m_id m = 0)); [congruence|]. destruct (Hm ltac:(done)) as [_ D]. apply (D j); [lia..|]. done.
  - rewrite Eself. apply Hp.
  - apply Hp.
  - change (lp_links (on_room (set_lr_ready_mask 0) (reseat i m l p))) with (wr (lp_links p) i l). unfold wr. by rewrite length_insert.
  - intros j Hj. rewrite ML, M, Eh by lia. destruct (Z.eqb_spec i j) as [<-|].
    + by destruct (Z.eqb_spec i (lr_host_slot (lp_room p))).
    + by apply Hp.
  - intros j Hj. rewrite ML by lia. destruct (Z.eqb_spec i j) as [<-|]; [rewrite Hl; auto|by apply Hp].
Qed.

Lemma remove_member_inv slot reason p : host_inv p -> 0 <= slot < lr_max_slots (lp_room p) -> slot <> lr_host_slot (lp_room p) ->
  host_inv (remove_member slot reason p).
Proof.
  intros Hp Hs Hne. unfold remove_member. destruct (clock _) as [now p1] eqn:E1.
  assert (p1 = set_lp_calls (S (lp_calls p)) (set_lp_retired_at (u32 (lp_retired_at p + 1)) p)) as -> by (by injection E1 as _ <-). clear E1.
  match goal with |- context [send_simple ?a ?o ?i ?s ?q] => destruct (send_simple_sent a o i s q) as (out & n & ->) end.
  apply configuration_changed_inv.
  pose proof (reseat_inv slot member_zero (set_ml_rtt (-1) link_zero) p Hp Hs Hne ltac:(done) ltac:(done) eq_refl ltac:(done)) as R.
  pose proof (hi_typed _ R) as T. pose proof (hi_ok _ R) as O. set (q := on_room _ (reseat _ _ _ p)) in *.
  apply (host_inv_view (set_lp_room (set_lr_session_id 0 (set_lr_starting 0 (lp_room q))) q)); [by destruct p|].
  apply host_inv_room; [done| | |done..].
  - destruct T as (? & ? & ? & ? & ? & ? & ? & ? & ? & ? & ? & ? & ? & ?). by split_and!.
  - destruct O. split; try done.
Qed.

Lemma first_slot_some n f : first_slot n f = -1 \/ (0 <= first_slot n f < n /\ f (first_slot n f) = true).
Proof.
  unfold first_slot. destruct (filter (fun i => f i = true) (seqZ 0 n)) as [|i l] eqn:E; [by left|]. right. cbn.
  assert (i ∈ filter (fun i => f i = true) (seqZ 0 n)) as Hi by (rewrite E; left).
  apply list_elem_of_filter in Hi as [Hf Hi%elem_of_seqZ]. split; [lia|done].
Qed.
Lemma first_slot_none n f : first_slot n f = -1 -> forall i, 0 <= i < n -> f i = false.
Proof.
  intros H i Hi. destruct (f i) eqn:E; [|done]. exfalso. unfold first_slot in H.
  destruct (filter (fun i => f i = true) (seqZ 0 n)) as [|j l] eqn:F.
  - assert (i ∈ filter (fun i => f i = true) (seqZ 0 n)) as Hin by (apply list_elem_of_filter; split; [done|apply elem_of_seqZ; lia]).
    rewrite F in Hin. by apply elem_of_nil in Hin.
  - cbn in H. subst j. assert (-1 ∈ filter (fun i => f i = true) (seqZ 0 n)) as Hin by (rewrite F; left).
    apply list_elem_of_filter in Hin as [_ Hin%elem_of_seqZ]. lia.
Qed.
Lemma member_slot_spec r id : 0 <= member_slot r id -> member_slot r id < lr_max_slots r /\ m_id (member_at r (member_slot r id)) = id.
Proof.
  unfold member_slot. intros Hs. destruct (first_slot_some (lr_max_slots r) (fun i => m_id (member_at r i) =? id)) as [E|[? E]]; [lia|].
  split; [lia|by apply Z.eqb_eq].
Qed.

Lemma seat_inv slot id name source now p : host_inv p -> 0 <= slot < lr_max_slots (lp_room p) -> m_id (member_at (lp_room p) slot) = 0 ->
  in_u32 id -> id <> 0 -> name <> [] -> member_slot (lp_room p) id < 0 -> host_inv (seat slot id name source now p).
Proof.
  intros Hp Hs Hfree Hu Hid Hn Hnew. pose proof (hi_ok _ Hp) as O. unfold seat. eapply host_inv_sent; [apply send_state_sent|].
  apply configuration_changed_inv.
  set (l := set_ml_rtt (-1) (set_ml_seen now (set_ml_address source (set_ml_id id (link_at p slot))))).
  apply (host_inv_view (on_room (set_lr_ready_mask 0) (reseat slot (MkMember id name) l p))); [by destruct p|].
  apply reseat_inv; try done.
  - intros ->. by apply (ok_hosted _ O).
  - intros _. split; [done|]. intros j Hj Hjs E. cbn in E.
    destruct (Z.ltb_spec j (lr_max_slots (lp_room p))) as [L|L]; [|by rewrite (ok_empty _ O) in E by lia].
    unfold member_slot in Hnew. destruct (first_slot_some (lr_max_slots (lp_room p)) (fun i => m_id (member_at (lp_room p) i) =? id)) as [Em|[? _]]; [|lia].
    pose proof (first_slot_none _ _ Em j ltac:(lia)) as F. by apply Z.eqb_neq in F.
Qed.
Lemma moved_inv from to p : host_inv p -> 0 <= from < lr_max_slots (lp_room p) -> 0 <= to < lr_max_slots (lp_room p) -> from <> to ->
  m_id (member_at (lp_room p) to) = 0 -> m_id (member_at (lp_room p) from) <> 0 -> host_inv (snd (move_member from to p)).
Proof.
  intros Hp Hf Ht Hne Hto Hfrom. pose proof (hi_typed _ Hp) as T. pose proof (hi_ok _ Hp) as O. pose proof (hi_len _ Hp) as L.
  assert (length (lr_member (lp_room p)) = 4%nat) as LM by apply T. pose proof (ok_slots _ O) as Hsl. pose proof (ok_host _ O) as Hh.
  unfold move_member. repeat (case_match; [done|]). cbn [snd]. apply configuration_changed_inv.
  set (r0 := put_member from member_zero (put_member to (member_at (lp_room p) from) (lp_room p))).
  set (r := set_lr_ready_mask 0 (if lr_host_slot r0 =? from then set_lr_host_slot to r0 else r0)).
  match goal with |- host_inv ?q => set (q0 := q) end. assert (lp_room q0 = r) as Er by by destruct p.
  assert (forall j, 0 <= j -> member_at r j = if from =? j then member_zero else if to =? j then member_at (lp_room p) from else member_at (lp_room p) j) as M.
  { intros j Hj. assert (member_at r j = member_at r0 j) as -> by (unfold r; by destruct (lr_host_slot r0 =? from)).
    unfold r0. rewrite member_at_put; [|unfold put_member; change (lr_member (set_lr_member ?v ?x)) with v; unfold wr; by rewrite length_insert|lia..].
    by rewrite member_at_put by (done || lia). }
  assert (forall j, 0 <= j -> link_at q0 j = if from =? j then set_ml_rtt (-1) link_zero else if to =? j then link_at p from else link_at p j) as ML.
  { intros j Hj. set (p1 := on_room (fun r => put_member from member_zero (put_member to (member_at r from) r)) p).
    change (link_at q0 j) with (link_at (on_link from (fun _ => set_ml_rtt (-1) link_zero) (on_link to (fun _ => link_at p1 from) p1)) j).
    rewrite link_at_on; [|change (lp_links (on_link to ?f p1)) with (wr (lp_links p) to (link_at p from)); unfold wr; by rewrite length_insert|lia..].
    by rewrite link_at_on by (done || lia). }
  assert (lr_host_slot r = if lr_host_slot (lp_room p) =? from then to else lr_host_slot (lp_room p)) as Eh.
  { unfold r. change (lr_host_slot r0) with (lr_host_slot (lp_room p)). by destruct (_ =? from). }
  assert (lr_max_slots r = lr_max_slots (lp_room p)) as Em by (unfold r; by destruct (_ =? from)).
  assert (member_at r (lr_host_slot r) = member_at (lp_room p) (lr_host_slot (lp_room p))) as Eself.
  { rewrite Eh. destruct (Z.eqb_spec (lr_host_slot (lp_room p)) from) as [E|E]; rewrite M by lia.
    - destruct (Z.eqb_spec from to); [done|]. by rewrite Z.eqb_refl, E.
    - destruct (Z.eqb_spec from (lr_host_slot (lp_room p))); [done|]. destruct (Z.eqb_spec to (lr_host_slot (lp_room p))) as [->|]; [|done].
      by destruct (ok_hosted _ O). }
  assert (room_typed r) as Tr.
  { assert (in_u32 (m_id (member_at (lp_room p) from))) as Hu.
    { destruct T as (_ & _ & _ & _ & _ & _ & _ & _ & _ & _ & _ & _ & _ & F). rewrite Forall_forall in F.
      apply (F (member_at (lp_room p) from)). unfold member_at, rd. apply list_elem_of_In, nth_In. lia. }
    pose proof (typed_put _ from member_zero (typed_put _ to _ T Hu) ltac:(done)) as (? & ? & ? & ? & ? & ? & Ths & ? & ? & ? & ? & ? & ? & ?).
    unfold r. destruct (_ =? from); split_and!; try done. cbn. ranges. lia. }
  split; rewrite ?Er; try done.
  - apply Hp.
  - apply Hp.
  - assert (lr_ready_mask r = 0) as R0 by done. destruct O. split; rewrite ?Em, ?Eself; try done; try (unfold r; by destruct (_ =? from)).
    + rewrite R0. intros j _ Hj. by rewrite Z.testbit_0_l in Hj.
    + intros i Hi. rewrite M by lia. destruct (Z.eqb_spec from i); [lia|]. destruct (Z.eqb_spec to i); [lia|]. auto.
    + intros i Hi. rewrite M by lia. destruct (Z.eqb_spec from i); [done|]. destruct (Z.eqb_spec to i); [|by apply ok_named0].
      intros _. apply ok_named0; [lia|done].
    + intros i j Hij Hj. rewrite !M by lia. destruct (Z.eqb_spec from i); [done|].
      destruct (Z.eqb_spec from j) as [<-|]; [intros Hn E; by rewrite E in Hn|].
      destruct (Z.eqb_spec to i) as [<-|], (Z.eqb_spec to j) as [<-|]; try lia; [| |by apply ok_distinct0].
      * intros Hn E. destruct (Z.lt_total from j) as [|[|]]; [|congruence|]; [apply (ok_distinct0 from j)|apply (ok_distinct0 j from)]; (lia || congruence).
      * intros Hn E. destruct (Z.lt_total from i) as [|[|]]; [|congruence|]; [apply (ok_distinct0 from i)|apply (ok_distinct0 i from)]; (lia || congruence).
  - rewrite Eself. apply Hp.
  - assert (lr_epoch r = lr_epoch (lp_room p)) as -> by (unfold r; by destruct (_ =? from)). apply Hp.
  - change (lp_links q0) with (wr (wr (lp_links p) to (link_at p from)) from (set_ml_rtt (-1) link_zero)). unfold wr. by rewrite !length_insert.
  - intros i Hi. rewrite ML, M, Eh by lia. destruct (Z.eqb_spec from i) as [<-|Hfi].
    + by repeat case_match.
    + destruct (Z.eqb_spec to i) as [<-|Hti].
      * rewrite (hi_links _ Hp) by lia. destruct (Z.eqb_spec (lr_host_slot (lp_room p)) from) as [->|Hx]; [by rewrite !Z.eqb_refl|].
        destruct (Z.eqb_spec from (lr_host_slot (lp_room p))); [done|]. destruct (Z.eqb_spec to (lr_host_slot (lp_room p))) as [->|]; [|done].
        by destruct (ok_hosted _ O).
      * rewrite (hi_links _ Hp) by lia. destruct (Z.eqb_spec (lr_host_slot (lp_room p)) from) as [->|Hx]; [|done].
        destruct (Z.eqb_spec i from); [done|]. by destruct (Z.eqb_spec i to).
  - intros i Hi. rewrite ML by lia. destruct (Z.eqb_spec from i); [done|]. destruct (Z.eqb_spec to i); [apply (hi_blank _ Hp); lia|by apply Hp].
Qed.

(** ** The handlers *)

Lemma lor_u32 a b : in_u32 a -> in_u32 b -> in_u32 (Z.lor a b).
Proof.
  intros Ha Hb. ranges. assert (Z.land (Z.lor a b) (Z.ones 32) = Z.lor a b) as E.
  { rewrite Z.land_lor_distr_l, !Z.land_ones by lia. by rewrite !Z.mod_small by (change (2 ^ 32) with 4294967296; lia). }
  rewrite <- E, Z.land_ones by lia. apply Z.mod_pos_bound. lia.
Qed.
Lemma ldiff_u32 a b : in_u32 a -> in_u32 (Z.ldiff a b).
Proof.
  intros Ha. ranges. assert (Z.land (Z.ldiff a b) (Z.ones 32) = Z.ldiff a b) as E.
  { rewrite !Z.ldiff_land, <- Z.land_assoc, (Z.land_comm (Z.lnot b)), Z.land_assoc, Z.land_ones by lia.
    by rewrite Z.mod_small by (change (2 ^ 32) with 4294967296; lia). }
  rewrite <- E, Z.land_ones by lia. apply Z.mod_pos_bound. lia.
Qed.
Lemma set_ready_bit_inv slot ready p : host_inv p -> 0 <= slot < lr_max_slots (lp_room p) -> m_id (member_at (lp_room p) slot) <> 0 ->
  host_inv (set_ready_bit slot ready p).
Proof.
  intros Hp Hs Hid. unfold set_ready_bit. case_match; [done|]. apply changed_inv. pose proof (hi_typed _ Hp) as T. pose proof (hi_ok _ Hp) as O.
  pose proof (ok_slots _ O). apply host_inv_room; [done| | |done..].
  - assert (in_u32 (lr_ready_mask (lp_room p))) as Tm by apply T.
    assert (in_u32 (if ready then Z.lor (lr_ready_mask (lp_room p)) (bit slot) else Z.ldiff (lr_ready_mask (lp_room p)) (bit slot))) as Tn.
    { assert (in_u32 (bit slot)) by (assert (slot = 0 \/ slot = 1 \/ slot = 2 \/ slot = 3) as [->|[->|[->| ->]]] by lia; done).
      destruct ready; [by apply lor_u32|by apply ldiff_u32]. }
    destruct T as (? & ? & ? & ? & ? & ? & ? & ? & ? & ? & ? & ? & ? & ?). by split_and!.
  - destruct O. split; try done. intros j Hj.
    change (lr_ready_mask (set_lr_ready_mask ?v ?r)) with v. change (lr_max_slots (set_lr_ready_mask ?v ?r)) with (lr_max_slots r).
    change (member_at (set_lr_ready_mask ?v ?r) j) with (member_at r j). destruct ready.
    + rewrite Z.lor_spec, bit_testbit by lia. destruct (Z.eqb_spec slot j) as [<-|]; [intros _; split; [lia|done]|]. rewrite orb_false_r. auto.
    + rewrite Z.ldiff_spec. intros [Ht _]%andb_prop. auto.
Qed.
Lemma move_member_inv from to p : host_inv p -> host_inv (snd (move_member from to p)).
Proof.
  intros Hp. destruct (decide (0 <= from < lr_max_slots (lp_room p) /\ 0 <= to < lr_max_slots (lp_room p) /\ from <> to /\
    m_id (member_at (lp_room p) to) = 0 /\ m_id (member_at (lp_room p) from) <> 0)) as [(? & ? & ? & ? & ?)|Hn]; [by apply moved_inv|].
  unfold move_member. destruct (nz (lr_starting _)); [done|]. destruct (_ || _) eqn:E; [done|]. destruct (Z.eqb_spec from to); [done|].
  destruct (nz (m_id _)) eqn:E0; [done|]. exfalso. apply Hn. apply nz_zero in E0. rewrite !orb_false_iff in E.
  destruct E as [[[[E1 E2] E3] E4] E5]. apply Z.eqb_neq in E5. lia.
Qed.
Lemma apply_op_inv slot op a c revision p : host_inv p -> 0 <= slot < lr_max_slots (lp_room p) -> m_id (member_at (lp_room p) slot) <> 0 ->
  host_inv (snd (apply_op slot op a c revision p)).
Proof.
  intros Hp Hs Hid. unfold apply_op. case_match; [done|]. case_match; [by apply set_ready_bit_inv|]. case_match; [done|].
  case_match; [by apply move_member_inv|done].
Qed.
(** The sender is a seated guest. *)
Definition seated (slot id : Z) (p : RNetLanRoomPeer) : Prop :=
  0 <= slot < lr_max_slots (lp_room p) /\ slot <> lr_host_slot (lp_room p) /\ m_id (member_at (lp_room p) slot) = id /\ ml_id (link_at p slot) = id /\ id <> 0.
Lemma seated_link slot id f p : host_inv p -> (forall l, ml_id (f l) = ml_id l) -> seated slot id p -> seated slot id (on_link slot f p).
Proof.
  intros Hp Hf (? & ? & ? & Hl & ?). pose proof (hi_len _ Hp). pose proof (ok_slots _ (hi_ok _ Hp)).
  do 3 (split; [done|]). split; [|done]. rewrite link_at_on, Z.eqb_refl by (done || lia). by rewrite Hf.
Qed.
Lemma seated_inv_link slot id f p : host_inv p -> seated slot id p -> (forall l, ml_id (f l) = ml_id l) -> host_inv (on_link slot f p).
Proof.
  intros Hp (Hs & _ & _ & Hl & Hid) Hf. pose proof (ok_slots _ (hi_ok _ Hp)). apply host_inv_link; [done|lia|done|]. intros _ H0. congruence.
Qed.
Lemma queue_chat_view sender name text p : hview (queue_chat sender name text p) = hview p.
Proof. by destruct p. Qed.
Lemma echo_chat_sent m text i p : sent p (echo_chat m text i p).
Proof. unfold echo_chat. case_match; [apply send_packet_sent|apply sent_refl]. Qed.
Lemma for_upto_sent n f p : (forall i q, sent q (f i q)) -> sent p (for_upto n f p).
Proof.
  intros Hf. unfold for_upto. generalize (seqZ 0 n). intros l. revert p. induction l as [|i l IH]; intros p; [apply sent_refl|].
  cbn. eapply sent_trans; [apply Hf|apply IH].
Qed.
Lemma broadcast_chat_inv sender text p : host_inv p -> host_inv (snd (broadcast_chat sender text p)).
Proof.
  intros Hp. unfold broadcast_chat. case_match; [done|]. cbn [snd]. eapply host_inv_sent; [apply for_upto_sent; intros; apply echo_chat_sent|].
  by apply (host_inv_view p).
Qed.

Lemma handle_op_inv b id slot sequence revision p : host_inv p -> seated slot id p -> host_inv (handle_op b id slot sequence revision p).
Proof.
  intros Hp Hs. unfold handle_op. destruct (read_op b) as [[[op a] c]|]; [|done]. case_match; [done|].
  case_match; [by eapply host_inv_sent; [apply send_state_sent|]|].
  pose proof (seated_inv_link slot id (set_ml_sequence sequence) p Hp Hs ltac:(done)) as H1.
  pose proof (seated_link slot id (set_ml_sequence sequence) p Hp ltac:(done) Hs) as (R & _ & Em & _ & Hid).
  pose proof (apply_op_inv slot op a c revision _ H1 R ltac:(by rewrite Em)) as H2.
  destruct (apply_op slot op a c revision (on_link slot (set_ml_sequence sequence) p)) as [st q]. cbn [snd] in H2.
  case_match; [by eapply host_inv_sent; [apply send_state_sent|]|done].
Qed.
Lemma handle_chat_request_inv b id slot sequence p : host_inv p -> seated slot id p -> host_inv (handle_chat_request b slot sequence p).
Proof.
  intros Hp Hs. unfold handle_chat_request. repeat (case_match; try done). apply broadcast_chat_inv. by eapply seated_inv_link.
Qed.
Lemma handle_ack_inv type b id slot revision p : host_inv p -> seated slot id p -> host_inv (handle_room_ack type b slot revision p).
Proof.
  intros Hp Hs. unfold handle_room_ack. destruct b; [|done]. case_match; [|done].
  pose proof (seated_inv_link slot id (set_ml_room_ack revision) p Hp Hs ltac:(done)) as H1. cbn zeta. case_match; [|done].
  eapply seated_inv_link; [done| |done]. by apply seated_link.
Qed.
Lemma handle_pong_inv b id slot now p : host_inv p -> seated slot id p -> host_inv (handle_pong b slot now p).
Proof. intros Hp Hs. unfold handle_pong. destruct b; [|done]. case_match; [|done]. by eapply seated_inv_link. Qed.
Lemma handle_member_inv type b id slot sequence revision now p : host_inv p -> seated slot id p ->
  host_inv (handle_member type b id slot sequence revision now p).
Proof.
  intros Hp Hs. unfold handle_member. case_match; [by eapply handle_ack_inv|].
  case_match; [destruct b; [|done]; apply remove_member_inv; [done|apply Hs..]|].
  case_match; [by apply handle_op_inv|]. case_match; [by eapply handle_chat_request_inv|]. case_match; [by eapply handle_pong_inv|done].
Qed.
Lemma handle_join_inv b source id now p : host_inv p -> in_u32 id -> host_inv (handle_join b source id (member_slot (lp_room p) id) now p).
Proof.
  intros Hp Hu. unfold handle_join. destruct (read_join b) as [[[[[game version] password] name] supported]|]; [|done].
  destruct ((id =? 0) || (zlen name =? 0)) eqn:E; [done|]. apply orb_false_elim in E as [E1%Z.eqb_neq E2%Z.eqb_neq]. cbn zeta.
  destruct ((_ =? 0) && ((0 <=? _) && _)) eqn:Own.
  { eapply host_inv_sent; [apply send_state_sent|]. apply andb_prop in Own as [_ [Hs%Z.leb_le _]%andb_prop].
    destruct (member_slot_spec _ _ Hs). pose proof (ok_slots _ (hi_ok _ Hp)). apply host_inv_link; [done|lia|done|done]. }
  destruct (nz _) eqn:En; [by eapply host_inv_sent; [apply send_simple_sent|]|]. apply nz_zero in En.
  set (free := first_slot _ _) in *. destruct (join_refusal game version password supported id p =? 0) eqn:E0; cycle 1.
  { cbn [andb] in En. rewrite E0 in En. cbn [andb] in En. rewrite E0 in En. cbn [andb] in En. by apply Z.eqb_neq in E0. }
  destruct (0 <=? member_slot (lp_room p) id) eqn:Es; cbn [andb] in En; [done|]. apply Z.leb_gt in Es.
  apply Z.eqb_eq in E0. rewrite E0 in En. cbn [Z.eqb andb] in En. destruct (address_taken source p); [done|].
  cbn [Z.eqb andb] in En. destruct (free <? 0) eqn:Ef; [done|]. apply Z.ltb_ge in Ef.
  pose proof (first_slot_some (lr_max_slots (lp_room p)) (fun i => m_id (member_at (lp_room p) i) =? 0)) as F. fold free in F.
  destruct F as [F|[F1 F2]]; [lia|].
  apply seat_inv; try done; [by apply Z.eqb_eq|by rewrite <- zlen_0].
Qed.
Lemma handle_host_inv b source type epoch id sequence revision p : host_inv p -> in_u32 id -> same_address source addr_zero = false ->
  host_inv (handle_host b source type epoch id sequence revision p).
Proof.
  intros Hp Hu Hz. unfold handle_host. pose proof (clock_sent p) as S. destruct (clock p) as [now p1]. cbn [snd] in S.
  pose proof (host_inv_sent _ _ S Hp) as H1. assert (lp_room p1 = lp_room p) as Er by (destruct S as (? & ? & ->); by destruct p).
  rewrite <- Er. clear Er S Hp p. rename p1 into p. case_match; [by apply handle_join_inv|]. case_match.
  - unfold answer_retired. case_match; [|done]. match goal with |- context [send_simple ?a ?o ?i ?s ?q] => pose proof (send_simple_sent a o i s q) as S end.
    eapply host_inv_view; [|eapply host_inv_sent; [exact S|done]]. by destruct (send_simple _ _ _ _ _).
  - destruct (_ || _) eqn:E; [done|]. rewrite !orb_false_iff in E. destruct E as [[[_ E2%Z.ltb_ge] E3%Z.eqb_neq] E4%negb_false_iff].
    destruct (member_slot_spec _ _ E2) as [R M]. set (slot := member_slot (lp_room p) id) in *. pose proof (ok_slots _ (hi_ok _ H1)).
    assert (ml_id (link_at p slot) = m_id (member_at (lp_room p) slot)) as El.
    { rewrite (hi_links _ H1) by lia. by destruct (Z.eqb_spec slot (lr_host_slot (lp_room p))). }
    assert (id <> 0) as Hn.
    { intros ->. destruct (hi_blank _ H1 slot ltac:(lia) ltac:(congruence)) as [Ez _]. by rewrite Ez, Hz in E4. }
    assert (seated slot id p) as Hs by (split_and!; (done || lia || congruence)).
    apply handle_member_inv; [by eapply seated_inv_link|by apply seated_link].
Qed.

(** ** The pump and the calls *)

Lemma le_val_bound bs : Forall in_u8 bs -> le_val bs < 256 ^ zlen bs.
Proof.
  induction 1 as [|b bs Hb Hf IH]; [done|]. cbn [le_val]. pose proof (le_val_nonneg bs Hf). rewrite lor_byte by done. rewrite zlen_cons.
  pose proof (zlen_nonneg bs). rewrite Z.pow_add_r by lia. change (256 ^ 1) with 256. ranges. nia.
Qed.
Lemma read_number_typed b v b' : Forall in_u8 b -> read_number b = Some (v, b') -> in_u32 v /\ Forall in_u8 b'.
Proof.
  intros Hb H. unfold read_number in H. destruct (Nat.ltb_spec (length b) 4) as [|L]; [done|]. injection H as <- <-.
  split; [|by apply Forall_drop]. pose proof (Forall_take _ 4 _ Hb) as Ht. pose proof (le_val_nonneg _ Ht). pose proof (le_val_bound _ Ht) as Hv.
  unfold zlen in Hv. rewrite length_take in Hv. replace (4 `min` length b)%nat with 4%nat in Hv by lia. ranges.
  change (256 ^ Z.of_nat 4) with 4294967296 in Hv. lia.
Qed.
(** A datagram: bytes, from an address that is not all zero. *)
Definition gram_ok (g : sockaddr_in * list Z) : Prop := Forall in_u8 (snd g) /\ same_address (fst g) addr_zero = false.
Lemma read_header_typed bs h b : Forall in_u8 bs -> read_header bs = Some (h, b) ->
  in_u32 (rh_epoch h) /\ in_u32 (rh_id h) /\ in_u32 (rh_revision h) /\ Forall in_u8 b.
Proof.
  intros Hb. unfold read_header. destruct (_ || _); [done|]. case_match; [done|].
  assert (Forall in_u8 (drop 8 (unseal bs))) as F.
  { apply Forall_drop. unfold unseal. repeat (apply Forall_app; split); [by apply Forall_take|by repeat constructor|by apply Forall_drop]. }
  revert F. generalize (drop 8 (unseal bs)). intros b0 F.
  do 7 (match goal with |- context [read_number ?x] => let v := fresh "v" in let y := fresh "b" in let E := fresh "E" in
    destruct (read_number x) as [[v y]|] eqn:E; [cbn [mbind option_bind]; apply read_number_typed in E as [? ?]; [|done]|done] end).
  intros [= <- <-]. by split_and!.
Qed.
Lemma handle_datagram_inv g p : host_inv p -> gram_ok g -> host_inv (handle_datagram g p).
Proof.
  intros Hp [Hb Hz]. unfold handle_datagram. destruct (read_header (snd g)) as [[h b]|] eqn:E; [|done].
  rewrite (hi_host _ Hp). apply (read_header_typed _ _ _ Hb) in E as (_ & Hi & _). by apply handle_host_inv.
Qed.
Lemma for_upto_inv (P : RNetLanRoomPeer -> Prop) n f p : P p -> (forall i q, 0 <= i < n -> P q -> P (f i q)) -> P (for_upto n f p).
Proof.
  intros H0 Hf. unfold for_upto. assert (Forall (fun i => 0 <= i < n) (seqZ 0 n)) as F by (apply Forall_forall; intros i Hi%elem_of_seqZ; lia).
  revert p H0. induction F as [|i l Hi Hl IH]; intros p Hp; [done|]. cbn. apply IH. by apply Hf.
Qed.
Lemma changed_slots p : lr_max_slots (lp_room (changed p)) = lr_max_slots (lp_room p).
Proof. unfold changed. by case_match. Qed.
Lemma configuration_changed_slots p : lr_max_slots (lp_room (configuration_changed p)) = lr_max_slots (lp_room p).
Proof. exact (changed_slots p). Qed.
Lemma drop_silent_inv n now i p : 0 <= i < n -> host_inv p /\ lr_max_slots (lp_room p) = n ->
  host_inv (drop_silent now i p) /\ lr_max_slots (lp_room (drop_silent now i p)) = n.
Proof.
  intros Hi [Hp Hn]. unfold drop_silent. destruct (_ && _) eqn:E; [|done]. apply andb_prop in E as [E%nz_nonzero _].
  pose proof (ok_slots _ (hi_ok _ Hp)). split.
  - apply remove_member_inv; [done|lia|]. intros ->. rewrite (hi_links _ Hp), Z.eqb_refl in E by lia. done.
  - unfold remove_member. destruct (clock _) as [t p1] eqn:E1.
    assert (p1 = set_lp_calls (S (lp_calls p)) (set_lp_retired_at (u32 (lp_retired_at p + 1)) p)) as -> by (by injection E1 as _ <-).
    match goal with |- context [send_simple ?a ?o ?i ?s ?q] => destruct (send_simple_sent a o i s q) as (out & m & ->) end.
    rewrite configuration_changed_slots. exact Hn.
Qed.
Lemma refresh_link_inv now i p : host_inv p -> 0 <= i < 4 -> host_inv (refresh_link now i p).
Proof.
  intros Hp Hi. unfold refresh_link. case_match; [|done]. pose proof (send_state_sent i 0 p) as S. pose proof (host_inv_sent _ _ S Hp) as H1.
  cbn zeta. case_match; [done|]. eapply host_inv_sent; [apply send_simple_sent|]. apply host_inv_link; [done|done|done|done].
Qed.
Lemma try_start_inv now p : host_inv p -> host_inv (snd (try_start now p)).
Proof.
  intros Hp. unfold try_start. case_match; [done|]. pose proof (host_inv_sent _ _ (counted_sent p) Hp) as H1. cbn zeta.
  destruct (ro_random _) as [session|]; [|by apply (host_inv_view (counted p))].
  destruct (_ || _) eqn:E; [by apply (host_inv_view (counted p))|]. apply orb_false_elim in E as [E%Z.eqb_neq _]. cbn [snd].
  set (q := counted p) in *. clearbody q. pose proof (hi_typed _ H1) as T. pose proof (hi_ok _ H1) as O.
  assert (host_inv (changed (on_room (set_lr_session_id (u32 session)) q))) as H2.
  { apply changed_inv. apply host_inv_room; [done| | |done..].
    - pose proof (u32_range session). destruct T as (? & ? & ? & ? & ? & ? & ? & ? & ? & ? & ? & ? & ? & ?). by split_and!.
    - destruct O. destruct ok_starting0. split; try done. }
  assert (lr_session_id (lp_room (changed (on_room (set_lr_session_id (u32 session)) q))) = u32 session) as Es by (unfold changed; by case_match).
  set (q2 := changed (on_room (set_lr_session_id (u32 session)) q)) in *. clearbody q2. pose proof (hi_typed _ H2) as T2. pose proof (hi_ok _ H2) as O2.
  apply (host_inv_view (set_lp_room (set_lr_starting 1 (lp_room q2)) q2)); [by destruct q2|]. apply host_inv_room; [done| | |done..].
  - destruct T2 as (? & ? & ? & ? & ? & ? & ? & ? & ? & ? & ? & ? & ? & ?). by split_and!.
  - destruct O2. split; try done. change (lr_session_id (set_lr_starting 1 (lp_room q2))) with (lr_session_id (lp_room q2)). rewrite Es. done.
Qed.
Lemma resend_inv now p : host_inv p -> host_inv (resend now p).
Proof.
  intros Hp. unfold resend. case_match; [|done]. rewrite (hi_host _ Hp).
  apply (host_inv_view (for_upto (lr_max_slots (lp_room p)) (refresh_link now) p)); [done|].
  pose proof (ok_slots _ (hi_ok _ Hp)). apply for_upto_inv; [done|]. intros i q Hi Hq. apply refresh_link_inv; [done|lia].
Qed.
Lemma pump_host_inv now p : host_inv p -> host_inv (snd (pump_host now p)).
Proof.
  intros Hp. unfold pump_host. set (p1 := if nz _ then p else _).
  assert (host_inv p1) as H1.
  { unfold p1. case_match; [done|]. apply (for_upto_inv (fun q => host_inv q /\ lr_max_slots (lp_room q) = lr_max_slots (lp_room p))); [done|].
    intros i q Hi Hq. by apply drop_silent_inv. }
  pose proof (try_start_inv now p1 H1) as H2. destruct (try_start now p1) as [ok p2]. cbn [snd] in H2. case_match; [done|].
  case_match; cbn [snd]; [by apply (host_inv_view p2)|by apply resend_inv].
Qed.
Lemma pump_inv inbox p : host_inv p -> Forall gram_ok inbox -> host_inv (snd (rnet_lan_room_pump inbox p)).
Proof.
  intros Hp Hf. unfold rnet_lan_room_pump. case_match; [done|]. pose proof (host_inv_sent _ _ (clock_sent p) Hp) as H1.
  destruct (clock p) as [t p1]. cbn [snd] in H1.
  assert (forall l q, host_inv q -> Forall gram_ok l -> host_inv (fold_left (fun p g => handle_datagram g p) l q)) as K.
  { induction l as [|g l IH]; intros q Hq Hl; [done|]. apply Forall_cons in Hl as [Hg Hl]. cbn. apply IH; [by apply handle_datagram_inv|done]. }
  specialize (K (take 256 inbox) p1 H1 (Forall_take _ _ _ Hf)). set (p2 := fold_left _ _ _) in *. case_match; [done|].
  pose proof (host_inv_sent _ _ (clock_sent p2) K) as H3. destruct (clock p2) as [now p3]. cbn [snd] in H3. rewrite (hi_host _ H3). by apply pump_host_inv.
Qed.
End Frames.

(** What a host's caller can do; the system answers each call as it likes. *)
Inductive RoomCall :=
  | DoPump (inbox : list (sockaddr_in * list Z))
  | DoReady (ready : bool)
  | DoMove (from to : Z)
  | DoKick (slot : Z)
  | DoCaps (delay rollback prediction variant : Z) (mods : list Z)
  | DoStart
  | DoChat (text : list Z)
  | DoTake.
Definition call_ok (c : RoomCall) : Prop :=
  match c with
  | DoPump inbox => Forall gram_ok inbox
  | DoCaps delay rollback prediction variant mods => in_s32 delay /\ in_s32 rollback /\ in_s32 prediction /\ in_s32 variant
  | _ => True
  end.
Definition room_call (os : RoomOs) (c : RoomCall) (p : RNetLanRoomPeer) : RNetLanRoomPeer :=
  match c with
  | DoPump inbox => snd (rnet_lan_room_pump inbox p)
  | DoReady ready => snd (rnet_lan_room_set_ready ready p)
  | DoMove from to => snd (rnet_lan_room_move from to p)
  | DoKick slot => snd (rnet_lan_room_kick slot p)
  | DoCaps delay rollback prediction variant mods => snd (rnet_lan_room_set_caps delay rollback prediction variant mods p)
  | DoStart => snd (rnet_lan_room_start p)
  | DoChat text => snd (rnet_lan_room_send_chat text p)
  | DoTake => snd (rnet_lan_room_take_chat p)
  end.

Section Calls.
Context {os : RoomOs}.

Lemma set_caps_inv delay rollback prediction variant mods p : host_inv p -> in_s32 delay -> in_s32 rollback -> in_s32 prediction -> in_s32 variant ->
  host_inv (snd (rnet_lan_room_set_caps delay rollback prediction variant mods p)).
Proof.
  intros Hp T1 T2 T3 T4. unfold rnet_lan_room_set_caps. case_match; [done|]. destruct (copy_string _ mods) as [m|]; [|done]. cbn zeta.
  case_match; [done|]. case_match; [done|]. cbn [snd]. apply configuration_changed_inv, clear_ready_inv.
  pose proof (hi_typed _ Hp) as T. apply host_inv_room; [done| | |done..].
  - destruct T as (? & ? & ? & ? & ? & ? & ? & ? & ? & ? & ? & ? & ? & ?). by split_and!.
  - apply valid_room_spec. by apply negb_false_iff.
Qed.
Lemma room_call_inv c p : host_inv p -> call_ok c -> host_inv (room_call os c p).
Proof.
  intros Hp Hc. pose proof (ok_slots _ (hi_ok _ Hp)). pose proof (ok_host _ (hi_ok _ Hp)) as Hh. destruct c; cbn [room_call].
  - by apply pump_inv.
  - unfold rnet_lan_room_set_ready. case_match; [done|]. rewrite (hi_host _ Hp). cbn [snd].
    assert (0 <= member_slot (lp_room p) (lp_id p)) as Hs.
    { unfold member_slot. destruct (first_slot_some (lr_max_slots (lp_room p)) (fun i => m_id (member_at (lp_room p) i) =? lp_id p)) as [E|[]]; [|lia].
      pose proof (first_slot_none _ _ E _ Hh) as F. cbv beta in F. by rewrite (hi_self _ Hp), Z.eqb_refl in F. }
    destruct (member_slot_spec _ _ Hs) as [R M]. apply set_ready_bit_inv; [done|lia|]. rewrite M, <- (hi_self _ Hp). by apply (ok_hosted _ (hi_ok _ Hp)).
  - unfold rnet_lan_room_move. case_match; [done|]. rewrite (hi_host _ Hp). by apply move_member_inv.
  - unfold rnet_lan_room_kick. destruct (_ || _) eqn:E; [done|]. rewrite !orb_false_iff in E. destruct E as [[[[[_ E1] E2] E3] _] _].
    apply Z.eqb_neq in E3. apply remove_member_inv; [done|lia|done].
  - destruct Hc as (? & ? & ? & ?). by apply set_caps_inv.
  - unfold rnet_lan_room_start. case_match; [done|]. by apply (host_inv_view p).
  - unfold rnet_lan_room_send_chat. case_match; [done|]. destruct (copy_string _ _) as [[|c copy]|]; [done| |done].
    rewrite (hi_host _ Hp). by apply broadcast_chat_inv.
  - unfold rnet_lan_room_take_chat. destruct (chat_queue_take _). by apply (host_inv_view p).
Qed.
Lemma host_open_inv bind config password p : room_typed config -> rnet_lan_room_host_open bind config password = inr p -> host_inv p.
Proof.
  intros T. unfold rnet_lan_room_host_open. destruct (_ || _) eqn:E; [done|]. rewrite !orb_false_iff in E. destruct E as [[[E1 E2] E3] E4].
  destruct (allocate bind) as [|p0] eqn:Ea; [done|].
  assert (in_u32 (lp_id p0)) as Hid.
  { unfold allocate in Ea. destruct (resolve_address bind); [|done]. case_match; [done|]. destruct (clock peer_zero) as [t q]. case_match; [done|].
    destruct (ro_random _) as [x|]; [|done]. case_match; [done|]. injection Ea as <-. apply u32_range. }
  destruct (copy_string _ password); [|done]. destruct (copy_string _ (m_name _)) as [name|]; [|done]. cbn zeta.
  set (member := wr (replicate 4 member_zero) (lr_host_slot config) (MkMember (lp_id p0) name)). set (room := set_lr_starting 0 _).
  destruct (valid_room room) eqn:V; cbn [negb]; [|done]. case_match; [|done]. intros [= <-]. apply valid_room_spec in V.
  assert (forall j, 0 <= j -> member_at room j = if j =? lr_host_slot config then MkMember (lp_id p0) name else rd member_zero (replicate 4 member_zero) j) as M.
  { intros j Hj. change (member_at room j) with (rd member_zero member j). unfold member. rewrite rd_wr by (rewrite ?zlen_replicate; lia). by rewrite Z.eqb_sym. }
  assert (m_id (member_at room (lr_host_slot room)) = lp_id p0) as Es.
  { change (lr_host_slot room) with (lr_host_slot config). rewrite M by lia. by rewrite Z.eqb_refl. }
  assert (forall i, ml_id (rd link_zero (replicate 4 (set_ml_rtt (-1) link_zero)) i) = 0 /\ link_blank (rd link_zero (replicate 4 (set_ml_rtt (-1) link_zero)) i)) as L.
  { intros i. unfold rd. destruct (nth_in_or_default (Z.to_nat i) (replicate 4 (set_ml_rtt (-1) link_zero)) link_zero) as [Hin|E0]; [|by rewrite E0].
    apply list_elem_of_In, elem_of_replicate in Hin as [-> _]. done. }
  split; try done.
  - destruct T as (? & ? & ? & ? & ? & ? & ? & ? & ? & ? & ? & ? & ? & ?). split_and!; try done.
    + change (lr_member _) with member. unfold member, wr. by rewrite length_insert.
    + change (lr_member _) with member. unfold member, wr. apply Forall_insert; [by repeat constructor|done].
  - intros i Hi. unfold link_at. change (lp_links _) with (replicate 4 (set_ml_rtt (-1) link_zero)). change (lp_room _) with room.
    rewrite (proj1 (L i)). change (lr_host_slot room) with (lr_host_slot config). rewrite M by lia. destruct (i =? _); [done|]. by rewrite rd_replicate.
  - intros i Hi _. apply L.
Qed.
End Calls.

Definition room_run (calls : list (RoomOs * RoomCall)) (p : RNetLanRoomPeer) : RNetLanRoomPeer :=
  fold_left (fun p '(os, c) => room_call os c p) calls p.
Lemma room_run_inv calls : forall p, host_inv p -> Forall (fun c => call_ok (snd c)) calls -> host_inv (room_run calls p).
Proof.
  induction calls as [|[os c] calls IH]; intros p Hp Hf; [done|]. apply Forall_cons in Hf as [Hc Hf]. cbn. apply IH; [|done]. by apply room_call_inv.
Qed.

(** C15. The host's roster is always a valid room: from the opening of a room,
    through any sequence of calls with arguments of their C types, whatever the
    system answers and whatever bytes arrive - from any address but 0.0.0.0 port 0, which no datagram
    comes from and which the host's table of links takes for none - the
    roster passes [valid_room] (slots, host seat, epoch, revision, members and
    settings in range), the test a guest puts a roster it decoded to; the host sits in
    its seat; and there is a link to exactly the members of the other seats. The
    guest's decoder refuses control characters in a text besides, which the host
    does not keep out of its roster ([control_character_locks_room]); this
    property does not say that every guest accepts the roster. *)
Theorem host_roster_sound (os : RoomOs) bind config password p0 calls : room_typed config ->
  rnet_lan_room_host_open bind config password = inr p0 -> Forall (fun c => call_ok (snd c)) calls ->
  let p := room_run calls p0 in
  valid_room (lp_room p) = true /\ member_slot (lp_room p) (lp_id p) = lr_host_slot (lp_room p) /\
  forall i, 0 <= i < 4 -> ml_id (link_at p i) = if i =? lr_host_slot (lp_room p) then 0 else m_id (member_at (lp_room p) i).
Proof.
  intros T Ho Hc. pose proof (room_run_inv _ _ (host_open_inv _ _ _ _ T Ho) Hc) as Hp. intros p. fold p in Hp. pose proof (hi_ok _ Hp) as O.
  split_and!; [by apply valid_room_spec| |apply Hp].
  pose proof (ok_host _ O) as Hh. unfold member_slot.
  destruct (first_slot_some (lr_max_slots (lp_room p)) (fun i => m_id (member_at (lp_room p) i) =? lp_id p)) as [E|[R E]].
  - pose proof (first_slot_none _ _ E _ Hh) as F. cbv beta in F. by rewrite (hi_self _ Hp), Z.eqb_refl in F.
  - set (i := first_slot _ _) in *. apply Z.eqb_eq in E. pose proof (ok_slots _ O). pose proof (ok_hosted _ O) as Hn. rewrite (hi_self _ Hp) in Hn.
    pose proof (hi_self _ Hp) as Es. destruct (Z.lt_total i (lr_host_slot (lp_room p))) as [C|[C|C]]; [|done|]; exfalso.
    + apply (ok_distinct _ O i (lr_host_slot (lp_room p))); (lia || congruence).
    + apply (ok_distinct _ O (lr_host_slot (lp_room p)) i); (lia || congruence).
Qed.
Definition demo_host_os : RoomOs := Build_RoomOs (fun n => Z.of_nat n * 10) (fun n => Some (77 + Z.of_nat n)) (fun _ => true) true true (fun _ => true) true (fun _ => None).
Lemma host_roster_sound_witness : exists p0, @rnet_lan_room_host_open demo_host_os (B "0.0.0.0:7777") demo_room [] = inr p0 /\
  let p := room_run [(demo_host_os, DoReady true); (demo_host_os, DoMove 0 1); (demo_host_os, DoPump [(mkAddr 2 1 1, [1; 2; 3])])] p0 in
  valid_room (lp_room p) = true /\ member_slot (lp_room p) (lp_id p) = lr_host_slot (lp_room p) /\
  forall i, 0 <= i < 4 -> ml_id (link_at p i) = if i =? lr_host_slot (lp_room p) then 0 else m_id (member_at (lp_room p) i).
Proof.
  eexists. split; [reflexivity|]. apply (host_roster_sound demo_host_os (B "0.0.0.0:7777") demo_room []); [|reflexivity|].
  - repeat split; try done; repeat constructor; done.
  - repeat constructor; done.
Defined.

(** ** Where it ends *)

(** A control character in a text of the room - the host checks only the
    password, its own name and later mod sets for them - makes every roster
    unreadable: whoever the guest is and whatever state it is in, a roster
    datagram of such a room leaves it as it was. The room opens, seats who asks,
    and nobody ever gets in. *)
Theorem control_character_locks_room (os : RoomOs) r type id sequence status bs source g : room_typed r -> room_clean r = false ->
  type = op_ROOM \/ type = op_START -> write_room r (room_packet type (lr_epoch r) id sequence (lr_revision r) status) = Some bs ->
  lp_host g = false -> handle_datagram (source, seal_packet bs) g = g.
Proof.
  intros T Hc Ht H Hg. apply write_room_some in H as (b0 & Hp & Hf & ->). rewrite packet_some in Hp. injection Hp as <-.
  unfold handle_datagram. cbn [fst snd]. rewrite read_sealed. destruct (_ <=? _); [done|]. cbn [rh_type rh_epoch rh_id rh_sequence rh_revision rh_status].
  rewrite Hg. assert (u32 type = type) as Et by (by destruct Ht as [-> | ->]). rewrite Et, (u32_id (lr_epoch r)), (u32_id (lr_revision r)) by apply T.
  unfold handle_guest. assert ((type =? op_NAK) = false /\ (type =? op_CLOSE) = false /\ (type =? op_PING) = false /\ (type =? op_CHAT_ECHO) = false) as (-> & -> & -> & ->)
    by (by destruct Ht as [-> | ->]). cbn [andb]. repeat (case_match; [done|]). unfold handle_roster, read_roster. by rewrite read_enc_room, Hc by done.
Qed.
Lemma control_character_locks_room_witness :
  let config := MkRoom (B "den" ++ [9]) (B "game") (B "1.0") (B "10.0.0.2:7777") [] 0 0 0 0 0 2 0 2 1 4 0 0 [MkMember 0 (B "ann"); member_zero; member_zero; member_zero] in
  exists p, @rnet_lan_room_host_open demo_host_os (B "0.0.0.0:7777") config [] = inr p /\
  forall bs g, write_room (lp_room p) (room_packet op_ROOM (lr_epoch (lp_room p)) 5 0 (lr_revision (lp_room p)) 0) = Some bs -> lp_host g = false ->
    @handle_datagram demo_host_os (mkAddr AF_INET 1 1, seal_packet bs) g = g.
Proof.
  intros config. eexists. split; [reflexivity|]. intros bs g H Hg. refine (control_character_locks_room demo_host_os _ op_ROOM 5 0 0 bs (mkAddr AF_INET 1 1) g _ _ _ H Hg).
  - repeat split; try done; repeat constructor; done.
  - by vm_compute.
  - by left.
Defined.

(** ** Latency *)

(** From [p] to [q]: a seat's link stays or is cleared, and an outstanding
    question stays outstanding. *)
Definition rtt_frozen (p q : RNetLanRoomPeer) : Prop := forall i, 0 <= i < 4 ->
  ml_id (link_at q i) = 0 \/ (ml_id (link_at q i) = ml_id (link_at p i) /\
    (ml_ping (link_at p i) <> 0 -> ml_ping (link_at q i) = ml_ping (link_at p i) /\ ml_rtt (link_at q i) = ml_rtt (link_at p i))).
Lemma frozen_refl p : rtt_frozen p p.
Proof. intros i Hi. by right. Qed.
Lemma frozen_trans p q r : rtt_frozen p q -> rtt_frozen q r -> rtt_frozen p r.
Proof.
  intros H1 H2 i Hi. destruct (H2 i Hi) as [E|[E2 K2]]; [by left|]. destruct (H1 i Hi) as [E|[E1 K1]]; [left; congruence|].
  right. split; [congruence|]. intros Hp. destruct (K1 Hp) as [P1 R1]. rewrite <- P1 in Hp. destruct (K2 Hp). split; congruence.
Qed.
Lemma frozen_links p q : lp_links q = lp_links p -> rtt_frozen p q.
Proof. intros E i Hi. unfold link_at. rewrite E. by right. Qed.
Lemma frozen_on_link i f p : length (lp_links p) = 4%nat -> 0 <= i < 4 ->
  (ml_id (f (link_at p i)) = 0 \/ (ml_id (f (link_at p i)) = ml_id (link_at p i) /\
     (ml_ping (link_at p i) <> 0 -> ml_ping (f (link_at p i)) = ml_ping (link_at p i) /\ ml_rtt (f (link_at p i)) = ml_rtt (link_at p i)))) ->
  rtt_frozen p (on_link i f p).
Proof. intros L Hi Hf j Hj. rewrite link_at_on by (done || lia). destruct (Z.eqb_spec i j) as [<-|]; [done|by right]. Qed.

Section Rtt.
Context {os : RoomOs}.
Lemma sent_links p q : sent p q -> lp_links q = lp_links p.
Proof. by intros (o & n & ->). Qed.
Lemma frozen_remove slot reason p : host_inv p -> 0 <= slot < 4 -> rtt_frozen p (remove_member slot reason p).
Proof.
  intros Hp Hs. unfold remove_member. destruct (clock _) as [now p1] eqn:E1.
  assert (lp_links p1 = lp_links p) as L1 by (by injection E1 as _ <-).
  match goal with |- context [send_simple ?a ?o ?i ?s ?q] => pose proof (sent_links _ _ (send_simple_sent a o i s q)) as L2; set (p2 := send_simple a o i s q) in * end.
  change (lp_links (set_lp_retired ?v p1)) with (lp_links p1) in L2.
  eapply frozen_trans; [apply (frozen_links p p2); congruence|]. clearbody p2. pose proof (hi_len _ Hp) as L.
  eapply (frozen_trans _ (on_link slot (fun _ => set_ml_rtt (-1) link_zero) p2)); [apply frozen_on_link; [congruence|done|by left]|].
  apply frozen_links. unfold configuration_changed, changed. by case_match.
Qed.
(** Nothing but acknowledgements. *)
Definition only_acks (g : sockaddr_in * list Z) : Prop := forall h b, read_header (snd g) = Some (h, b) -> rh_type h = op_ACK \/ rh_type h = op_START_ACK.
Lemma frozen_datagram g p : host_inv p -> gram_ok g -> only_acks g -> rtt_frozen p (handle_datagram g p).
Proof.
  intros Hp Hg Ho. unfold handle_datagram. destruct (read_header (snd g)) as [[h b]|] eqn:E; [|apply frozen_refl]. rewrite (hi_host _ Hp).
  assert ((rh_type h =? op_JOIN) = false /\ (rh_type h =? op_ACK) || (rh_type h =? op_START_ACK) = true) as [T1 T2] by (by destruct (Ho _ _ E) as [-> | ->]).
  unfold handle_host. rewrite T1. pose proof (host_inv_sent _ _ (clock_sent p) Hp) as H1. pose proof (sent_links _ _ (clock_sent p)) as L1.
  destruct (clock p) as [now p1]. cbn [snd] in *. eapply frozen_trans; [by apply (frozen_links p p1)|]. case_match.
  { apply frozen_links. unfold answer_retired. case_match; [|done]. cbn zeta.
    match goal with |- context [send_simple ?a ?o ?i ?s ?q] => rewrite <- (sent_links _ _ (send_simple_sent a o i s q)) end. done. }
  match goal with |- context [if ?c then p1 else _] => destruct c eqn:G end; [apply frozen_refl|]. rewrite !orb_false_iff in G. destruct G as [[[_ E2%Z.ltb_ge] _] _].
  assert (lr_max_slots (lp_room p) <= 4) by apply (ok_slots _ (hi_ok _ Hp)). destruct (member_slot_spec _ _ E2) as [R _].
  set (slot := member_slot (lp_room p) (rh_id h)) in *. unfold handle_member. rewrite T2.
  pose proof (hi_len _ H1) as L. assert (forall i f q, length (lp_links q) = 4%nat -> length (lp_links (on_link i f q)) = 4%nat) as LL.
  { intros i f q Lq. change (lp_links (on_link i f q)) with (wr (lp_links q) i (f (link_at q i))). unfold wr. by rewrite length_insert. }
  eapply frozen_trans; [apply (frozen_on_link slot (set_ml_seen now)); [done|lia|by right]|]. unfold handle_room_ack. destruct b; [|apply frozen_refl].
  case_match; [|apply frozen_refl]. eapply frozen_trans; [apply (frozen_on_link slot (set_ml_room_ack (rh_revision h))); [by apply LL|lia|by right]|].
  cbn zeta. case_match; [|apply frozen_refl]. apply frozen_on_link; [by apply LL, LL|lia|by right].
Qed.
Lemma frozen_refresh now i p : host_inv p -> 0 <= i < 4 -> rtt_frozen p (refresh_link now i p).
Proof.
  intros Hp Hi. unfold refresh_link. case_match; [|apply frozen_refl]. pose proof (send_state_sent i 0 p) as S.
  pose proof (host_inv_sent _ _ S Hp) as H1. eapply frozen_trans; [apply frozen_links; by apply sent_links|]. cbn zeta. set (p1 := send_state i 0 p) in *.
  destruct (nz (ml_ping (link_at p1 i))) eqn:E; [apply frozen_refl|]. apply nz_zero in E.
  eapply frozen_trans; [apply (frozen_on_link i (set_ml_ping now)); [apply H1|done|by right]|]. apply frozen_links. by apply sent_links, send_simple_sent.
Qed.
Lemma for_upto_frozen n f p : n <= 4 -> host_inv p -> (forall i q, 0 <= i < n -> host_inv q -> host_inv (f i q) /\ rtt_frozen q (f i q)) ->
  rtt_frozen p (for_upto n f p).
Proof.
  intros Hn Hp Hf. apply (for_upto_inv (fun q => host_inv q /\ rtt_frozen p q)); [by split; [|apply frozen_refl]|].
  intros i q Hi [Hq Hq2]. destruct (Hf i q Hi Hq). split; [done|by eapply frozen_trans].
Qed.
Lemma frozen_pump inbox p : host_inv p -> Forall gram_ok inbox -> Forall only_acks inbox -> rtt_frozen p (snd (rnet_lan_room_pump inbox p)).
Proof.
  intros Hp Hg Ho. unfold rnet_lan_room_pump. case_match; [apply frozen_refl|]. pose proof (host_inv_sent _ _ (clock_sent p) Hp) as H1.
  pose proof (sent_links _ _ (clock_sent p)) as L1. destruct (clock p) as [t p1]. cbn [snd] in *. eapply frozen_trans; [by apply (frozen_links p p1)|].
  assert (forall l q, host_inv q -> Forall gram_ok l -> Forall only_acks l ->
    host_inv (fold_left (fun p g => handle_datagram g p) l q) /\ rtt_frozen q (fold_left (fun p g => handle_datagram g p) l q)) as K.
  { induction l as [|g l IH]; intros q Hq Hl Hl2; [by split; [|apply frozen_refl]|]. apply Forall_cons in Hl as [? Hl], Hl2 as [? Hl2]. cbn.
    destruct (IH (handle_datagram g q)) as [I1 I2]; [by apply handle_datagram_inv|done|done|]. split; [done|].
    eapply frozen_trans; [by apply frozen_datagram|done]. }
  destruct (K (take 256 inbox) p1 H1 (Forall_take _ _ _ Hg) (Forall_take _ _ _ Ho)) as [H2 F2]. eapply frozen_trans; [exact F2|]. clear K F2.
  set (p2 := fold_left _ _ _) in *. case_match; [apply frozen_refl|].
  pose proof (host_inv_sent _ _ (clock_sent p2) H2) as H3. pose proof (sent_links _ _ (clock_sent p2)) as L3. destruct (clock p2) as [now p3]. cbn [snd] in *.
  eapply frozen_trans; [by apply (frozen_links p2 p3)|]. rewrite (hi_host _ H3). unfold pump_host.
  set (p4 := if nz _ then p3 else _). pose proof (ok_slots _ (hi_ok _ H3)) as S3.
  assert (host_inv p4 /\ rtt_frozen p3 p4) as [H4 F4].
  { unfold p4. case_match; [by split; [|apply frozen_refl]|].
    cut ((host_inv (for_upto (lr_max_slots (lp_room p3)) (drop_silent now) p3) /\ lr_max_slots (lp_room (for_upto (lr_max_slots (lp_room p3)) (drop_silent now) p3)) =
      lr_max_slots (lp_room p3)) /\ rtt_frozen p3 (for_upto (lr_max_slots (lp_room p3)) (drop_silent now) p3)); [by intros [[? _] ?]|].
    apply (for_upto_inv (fun q => (host_inv q /\ lr_max_slots (lp_room q) = lr_max_slots (lp_room p3)) /\ rtt_frozen p3 q)); [by split; [|apply frozen_refl]|].
    intros i q Hi [Hq Fq]. split; [by apply drop_silent_inv|]. eapply frozen_trans; [exact Fq|]. unfold drop_silent.
    case_match; [apply frozen_remove; [apply Hq|lia]|apply frozen_refl]. }
  eapply frozen_trans; [exact F4|]. pose proof (try_start_inv now p4 H4) as H5.
  assert (lp_links (snd (try_start now p4)) = lp_links p4) as L5.
  { unfold try_start. repeat case_match; try done. cbn [snd]. unfold changed. by case_match. }
  destruct (try_start now p4) as [ok p5]. cbn [snd] in *. eapply frozen_trans; [by apply (frozen_links p4 p5)|]. case_match; [apply frozen_refl|].
  case_match; cbn [snd]; [by apply frozen_links|]. unfold resend. case_match; [|apply frozen_refl]. rewrite (hi_host _ H5).
  pose proof (ok_slots _ (hi_ok _ H5)). eapply frozen_trans; [|by apply frozen_links]. apply for_upto_frozen; [lia|done|].
  intros i q Hi Hq. split; [apply refresh_link_inv; [done|lia]|apply frozen_refresh; [done|lia]].
Qed.
End Rtt.

(** One lost datagram ends the measuring: when a guest's PING or PONG is lost
    the question stays outstanding, and through any number of pumps - the guest
    acknowledging all the while - the host neither asks again nor updates the
    figure: it stays at what it was (-1 if none was ever taken) as long as the
    guest keeps its seat. *)
Theorem lost_pong_freezes_rtt p pumps i : host_inv p -> 0 <= i < lr_max_slots (lp_room p) -> ml_id (link_at p i) <> 0 -> ml_ping (link_at p i) <> 0 ->
  Forall (fun c => match snd c with DoPump inbox => Forall gram_ok inbox /\ Forall only_acks inbox | _ => False end) pumps ->
  let q := room_run pumps p in
  ml_id (link_at q i) = 0 \/ (ml_id (link_at q i) = ml_id (link_at p i) /\ ml_ping (link_at q i) = ml_ping (link_at p i) /\ ml_rtt (link_at q i) = ml_rtt (link_at p i)).
Proof.
  intros Hp Hi Hid Hping Hf q. pose proof (ok_slots _ (hi_ok _ Hp)).
  assert (rtt_frozen p q) as F.
  { subst q. clear - Hp Hf. revert p Hp. induction Hf as [|[os c] l Hc Hl IH]; intros p Hp; [apply frozen_refl|]. cbn. destruct c as [inbox| | | | | | |]; try done.
    destruct Hc as [H1 H2]. eapply frozen_trans; [by apply (frozen_pump inbox p)|]. apply IH. by apply (room_call_inv (DoPump inbox) p). }
  destruct (F i ltac:(lia)) as [E|[E K]]; [by left|]. right. destruct (K Hping). done.
Qed.
Definition demo_hosted : RNetLanRoomPeer := match @rnet_lan_room_host_open demo_host_os (B "0.0.0.0:7777") demo_room [] with inr p => p | inl _ => peer_zero end.
Definition demo_join : list Z :=
  seal_packet (enc_header op_JOIN 0 500 0 0 0 ++ enc_string (B "game") ++ enc_string (B "1.0") ++ enc_string [] ++ enc_string (B "bob") ++ enc_number 4).
Lemma lost_pong_freezes_rtt_witness :
  let p := room_run [(demo_host_os, DoPump [(mkAddr AF_INET 9 9, demo_join)])] demo_hosted in
  let q := room_run [(demo_host_os, DoPump []); (demo_host_os, DoPump [])] p in
  ml_id (link_at p 1) = 500 /\ ml_rtt (link_at p 1) = -1 /\
  (ml_id (link_at q 1) = 0 \/ (ml_id (link_at q 1) = ml_id (link_at p 1) /\ ml_ping (link_at q 1) = ml_ping (link_at p 1) /\ ml_rtt (link_at q 1) = ml_rtt (link_at p 1))).
Proof.
  intros p q. split; [by vm_compute|]. split; [by vm_compute|].
  refine (lost_pong_freezes_rtt p [(demo_host_os, DoPump []); (demo_host_os, DoPump [])] 1 _ _ _ _ _).
  - apply room_run_inv; [apply (host_open_inv (os := demo_host_os) (B "0.0.0.0:7777") demo_room []); [|reflexivity]|].
    + repeat split; try done; repeat constructor; done.
    + constructor; [|constructor]. constructor; [|constructor]. split; [by apply (bool_decide_unpack _); vm_compute|by vm_compute].
  - by vm_compute.
  - by vm_compute.
  - by vm_compute.
  - constructor; [done|]. constructor; [done|constructor].
Defined.
