(* ===== verification/LanRoomAgree.v ===== *)
(** * Theorems on LAN rooms: one roster for all

    A host and its guests over a network that loses, repeats, delays and damages
    datagrams but does not invent them. *)

From stdpp Require Import base list numbers list_numbers strings relations.
From S2P Require Import Prelude CStrings Slots Protocol ProtocolProofs Config Rings NetSim Transport Digest Json HostRelayText LanText LanRoom LanRoomHost.

(** ** Rosters on the wire *)

(** The roster a guest reads from a datagram. *)
Definition roster_of (bs : list Z) : option RNetLanRoom :=
  match read_header bs with
  | Some (h, b) =>
    if (rh_type h =? op_ROOM) || (rh_type h =? op_START)
    then match read_room (rh_epoch h) (rh_revision h) b with Some (r, []) => Some r | _ => None end
    else None
  | None => None
  end.
Lemma roster_of_other op epoch id sequence revision status body : u32 op <> op_ROOM -> u32 op <> op_START ->
  roster_of (seal_packet (enc_header op epoch id sequence revision status ++ body)) = None.
Proof.
  intros H1 H2. unfold roster_of. rewrite read_sealed. destruct (_ <=? _); [done|]. cbn [rh_type].
  by rewrite (proj2 (Z.eqb_neq _ _) H1), (proj2 (Z.eqb_neq _ _) H2).
Qed.
Lemma roster_of_room r op id sequence status bs r' : room_typed r ->
  write_room r (room_packet op (lr_epoch r) id sequence (lr_revision r) status) = Some bs -> roster_of (seal_packet bs) = Some r' -> r' = r.
Proof.
  intros T H. apply write_room_some in H as (b0 & Hp & Hf & ->). rewrite packet_some in Hp. injection Hp as <-.
  unfold roster_of. rewrite read_sealed. destruct (_ <=? _); [done|]. cbn [rh_type rh_epoch rh_revision]. destruct (_ || _); [|done].
  rewrite (u32_id (lr_epoch r)), (u32_id (lr_revision r)) by apply T. rewrite read_enc_room by done. by destruct (room_clean r); [intros [= <-]|].
Qed.

(** A roster that is not ahead of the host [p], and is the host's own if it has
    its revision. *)
Definition roster_ok (p : RNetLanRoomPeer) (r : RNetLanRoom) : Prop :=
  in_u32 (lr_epoch r) /\ in_u32 (lr_revision r) /\ lr_epoch r = lp_id p /\ lr_revision r <= lr_revision (lp_room p) /\
  (lr_revision r = lr_revision (lp_room p) -> r = lp_room p).
Definition out_ok (p : RNetLanRoomPeer) : Prop := forall a bs r, (a, bs) ∈ lp_out p -> roster_of bs = Some r -> roster_ok p r.
Definition worn_out (p : RNetLanRoomPeer) : Prop := lr_revision (lp_room p) = UINT32_MAX.
(** From [p] to [q] the roster stays, or gets a higher revision. *)
Definition evolves (p q : RNetLanRoomPeer) : Prop :=
  lp_id q = lp_id p /\ lr_revision (lp_room p) <= lr_revision (lp_room q) /\
  (lp_room q = lp_room p \/ lr_revision (lp_room p) < lr_revision (lp_room q) \/ worn_out p).
Lemma evolves_refl p : evolves p p.
Proof. split_and!; [done|lia|by left]. Qed.
Lemma evolves_trans p q r : evolves p q -> evolves q r -> evolves p r.
Proof.
  intros (I1 & L1 & R1) (I2 & L2 & R2). split_and!; [congruence|lia|].
  unfold worn_out in *. destruct R1 as [R1|[R1|R1]]; [by rewrite R1 in *| |by right; right].
  destruct R2 as [R2|[R2|R2]]; [rewrite R2|..]; right; left; lia.
Qed.
Lemma roster_ok_evolves p q r : evolves p q -> in_u32 (lr_revision (lp_room q)) -> ~ worn_out q -> roster_ok p r -> roster_ok q r.
Proof.
  intros (Hi & Hl & Hr) Tq Hw (H1 & H2 & H3 & H4 & H5). split_and!; [done..|congruence|lia|]. intros E.
  destruct Hr as [Hr|[Hr|Hr]]; [rewrite Hr in *; auto|lia|]. exfalso. apply Hw. unfold worn_out in *. ranges. lia.
Qed.

(** ** The host *)

Section Host.
Context {os : RoomOs} (p0 : RNetLanRoomPeer).
(** [known a id]: the guest with that id has the address; [ackd a id v]: and it
    has taken over a roster of revision [v] or later. *)
Context (known : sockaddr_in -> Z -> Prop) (ackd : sockaddr_in -> Z -> Z -> Prop).
Hypothesis ackd_addr : forall a b id v, same_address a b = true -> ackd a id v -> ackd b id v.

Definition link_true (l : MemberLink) : Prop :=
  ml_id l <> 0 -> known (ml_address l) (ml_id l) /\ (ml_start_ack l <> 0 -> ackd (ml_address l) (ml_id l) (ml_start_ack l)).
Record host_agrees (p : RNetLanRoomPeer) : Prop := {
  ha_inv : host_inv p;
  ha_out : worn_out p \/ out_ok p;
  ha_links : forall i, 0 <= i < 4 -> link_true (link_at p i);
  ha_evolves : evolves p0 p
}.

Lemma agrees_same p q : host_agrees p -> hview q = hview p -> lp_out q = lp_out p -> host_agrees q.
Proof.
  intros [Hi Ho Hl He] Ev Eo. pose proof (host_inv_view p q (eq_sym Ev) Hi) as Hi'. unfold hview in Ev. injection Ev as E1 E2 E3 E4 E5.
  split; [done| | |].
  - unfold worn_out, out_ok, roster_ok in *. by rewrite Eo, E3, E4.
  - intros i. unfold link_at in *. rewrite E5. apply Hl.
  - unfold evolves, worn_out in *. by rewrite E3, E4.
Qed.
Lemma agrees_sent p q : host_agrees p -> sent p q -> (forall a bs r, (a, bs) ∈ lp_out q -> (a, bs) ∉ lp_out p -> roster_of bs = Some r -> r = lp_room p) ->
  host_agrees q.
Proof.
  intros [Hi Ho Hl He] S Hn. pose proof (host_inv_sent _ _ S Hi) as Hi'. destruct S as (o & n & ->).
  split; [done| |apply Hl|done]. destruct Ho as [Ho|Ho]; [by left|]. right. intros a bs r Hin Hr.
  destruct (decide ((a, bs) ∈ lp_out p)) as [Hin'|Hnin]; [by apply (Ho a bs r)|]. specialize (Hn _ _ _ Hin Hnin Hr) as ->.
  destruct (hi_typed _ Hi) as (? & ? & _). split_and!; try done; try apply Hi; cbn; lia.
Qed.
Lemma agrees_send_packet a bs p : host_agrees p -> (forall r, roster_of (seal_packet bs) = Some r -> r = lp_room p) ->
  host_agrees (snd (send_packet a (Some bs) p)).
Proof.
  intros Hp Hr. eapply agrees_sent; [done|apply send_packet_sent|]. intros a' bs' r Hin Hn. cbn [send_packet] in Hin. unfold room_sendto in Hin.
  destruct (ro_sends _); [|done]. change (lp_out (snd (0, counted (set_lp_out ?o p)))) with o in Hin.
  apply elem_of_app in Hin as [Hin|Hin]; [done|]. apply list_elem_of_singleton in Hin. injection Hin as -> ->. apply Hr.
Qed.
Lemma agrees_clock p : host_agrees p -> host_agrees (snd (clock p)).
Proof. intros Hp. by eapply agrees_same. Qed.
Lemma agrees_simple a op id st p : host_agrees p -> u32 op <> op_ROOM -> u32 op <> op_START -> host_agrees (send_simple a op id st p).
Proof.
  intros Hp H1 H2. unfold send_simple. rewrite packet_some. apply agrees_send_packet; [done|]. intros r.
  rewrite <- (app_nil_r (enc_header _ _ _ _ _ _)). by rewrite roster_of_other.
Qed.
Lemma agrees_state slot st p : host_agrees p -> host_agrees (send_state slot st p).
Proof.
  intros Hp. unfold send_state. destruct (write_room _ _) as [bs|] eqn:E; [|done]. apply agrees_send_packet; [done|]. intros r.
  eapply roster_of_room; [|exact E]. apply Hp.
Qed.
Lemma agrees_link i f p : host_agrees p -> host_inv (on_link i f p) -> 0 <= i < 4 -> (link_true (link_at p i) -> link_true (f (link_at p i))) ->
  host_agrees (on_link i f p).
Proof.
  intros [Hi Ho Hl He] Hi' Hr Hf. split; [done|done| |done]. intros j Hj. rewrite link_at_on by (done || lia || apply Hi).
  destruct (Z.eqb_spec i j) as [<-|]; auto.
Qed.
(** The roster moves on to its next revision. *)
Lemma agrees_next p q : host_agrees p -> host_inv q -> lp_id q = lp_id p -> lp_out q = lp_out p ->
  (forall i, 0 <= i < 4 -> link_true (link_at q i)) ->
  (if lr_revision (lp_room p) =? UINT32_MAX then worn_out q else lr_revision (lp_room q) = lr_revision (lp_room p) + 1) -> host_agrees q.
Proof.
  intros [Hi Ho Hl He] Hi' Ed Eo Hl' Hr. destruct (Z.eqb_spec (lr_revision (lp_room p)) UINT32_MAX) as [E|E].
  - split; [done|by left|done|]. eapply evolves_trans; [done|]. unfold worn_out in *. split_and!; [done|lia|]. right. by right.
  - assert (evolves p q) as Ev by (split_and!; [done|lia|right; left; lia]).
    split; [done| |done|by eapply evolves_trans]. destruct (decide (worn_out q)) as [W|W]; [by left|]. right.
    destruct Ho as [Ho|Ho]; [done|]. intros a bs r. rewrite Eo. intros Hin Hro.
    eapply roster_ok_evolves; [done|apply Hi'|done|by eapply Ho].
Qed.
Lemma changed_revision p : if lr_revision (lp_room p) =? UINT32_MAX then worn_out (changed p) else lr_revision (lp_room (changed p)) = lr_revision (lp_room p) + 1.
Proof. unfold changed, worn_out. destruct (Z.eqb_spec (lr_revision (lp_room p)) UINT32_MAX); [done|reflexivity]. Qed.
Lemma changed_same p : lp_id (changed p) = lp_id p /\ lp_out (changed p) = lp_out p /\ lp_links (changed p) = lp_links p.
Proof. unfold changed. by case_match. Qed.
(** [q] has the roster of [p] with other contents; [changed] makes it the next
    revision. *)
Lemma agrees_changed p q : host_agrees p -> host_inv (changed q) -> lp_id q = lp_id p -> lp_out q = lp_out p ->
  lr_revision (lp_room q) = lr_revision (lp_room p) -> (forall i, 0 <= i < 4 -> link_true (link_at q i)) -> host_agrees (changed q).
Proof.
  intros Hp Hi Ed Eo Er Hl. destruct (changed_same q) as (C1 & C2 & C3). eapply agrees_next; [done|done|congruence|congruence| |].
  - intros i. unfold link_at. rewrite C3. apply Hl.
  - rewrite <- Er. apply changed_revision.
Qed.
Lemma agrees_configuration p q : host_agrees p -> host_inv (configuration_changed q) -> lp_id q = lp_id p -> lp_out q = lp_out p ->
  lr_revision (lp_room q) = lr_revision (lp_room p) -> (forall i, 0 <= i < 4 -> link_true (link_at q i)) -> host_agrees (configuration_changed q).
Proof.
  intros Hp Hi Ed Eo Er Hl. destruct (changed_same q) as (C1 & C2 & C3). eapply agrees_next; [exact Hp|done|unfold configuration_changed; cbn; congruence| | |].
  - change (lp_out (configuration_changed q)) with (lp_out (changed q)). congruence.
  - intros i. change (link_at (configuration_changed q) i) with (rd link_zero (lp_links (changed q)) i). rewrite C3. apply Hl.
  - rewrite <- Er. pose proof (changed_revision q) as C. unfold worn_out in *. exact C.
Qed.

Lemma links_true_wr ls i l : length ls = 4%nat -> 0 <= i < 4 -> (forall j, 0 <= j < 4 -> link_true (rd link_zero ls j)) -> link_true l ->
  forall j, 0 <= j < 4 -> link_true (rd link_zero (wr ls i l) j).
Proof.
  intros L Hi Hls Hl j Hj. rewrite rd_wr by (unfold zlen; rewrite ?L; lia). destruct (i =? j); auto.
Qed.
Lemma blank_true : link_true (set_ml_rtt (-1) link_zero).
Proof. intros Hn. by destruct Hn. Qed.
Lemma agrees_remove slot reason p : host_agrees p -> 0 <= slot < lr_max_slots (lp_room p) -> slot <> lr_host_slot (lp_room p) ->
  host_agrees (remove_member slot reason p).
Proof.
  intros Hp Hs Hne. pose proof (remove_member_inv slot reason p (ha_inv _ Hp) Hs Hne) as Hi. pose proof (ok_slots _ (hi_ok _ (ha_inv _ Hp))) as Hsl.
  unfold remove_member in *. destruct (clock _) as [now p1] eqn:E1.
  assert (host_agrees p1) as H1. { eapply agrees_same; [exact Hp|by injection E1 as _ <-|by injection E1 as _ <-]. }
  match goal with |- context [send_simple ?a ?o ?i ?s ?q] => set (p2 := send_simple a o i s q) in * end.
  assert (host_agrees p2) as H2. { apply agrees_simple; [by eapply agrees_same|done|done]. }
  eapply agrees_configuration; [exact H2|exact Hi|done|done|done|].
  intros j Hj. match goal with |- link_true ?l => change l with (rd link_zero (wr (lp_links p2) slot (set_ml_rtt (-1) link_zero)) j) end.
  apply links_true_wr; [apply H2|lia|apply H2|apply blank_true|done].
Qed.
Lemma agrees_move from to p : host_agrees p -> host_agrees (snd (move_member from to p)).
Proof.
  intros Hp. pose proof (move_member_inv from to p (ha_inv _ Hp)) as Hi. pose proof (ok_slots _ (hi_ok _ (ha_inv _ Hp))) as Hsl.
  unfold move_member in *. case_match; [done|]. destruct (_ || _) eqn:E; [done|]. case_match; [done|]. case_match; [done|]. cbn [snd] in *.
  rewrite !orb_false_iff in E. destruct E as [[[[E1 E2] E3] E4] _].
  eapply agrees_configuration; [exact Hp|exact Hi|by destruct p|by destruct p| |].
  - unfold on_room at 1. cbn [lp_room set_lp_room]. by destruct (_ =? from).
  - intros j Hj. match goal with |- link_true ?l => change l with (rd link_zero (wr (wr (lp_links p) to (link_at p from)) from (set_ml_rtt (-1) link_zero)) j) end.
    pose proof (hi_len _ (ha_inv _ Hp)) as L. apply links_true_wr; [unfold wr; by rewrite length_insert|lia| |apply blank_true|done].
    intros k Hk. apply links_true_wr; [done|lia|apply Hp|apply Hp; lia|done].
Qed.
Lemma agrees_ready slot ready p : host_agrees p -> 0 <= slot < lr_max_slots (lp_room p) -> m_id (member_at (lp_room p) slot) <> 0 ->
  host_agrees (set_ready_bit slot ready p).
Proof.
  intros Hp Hs Hm. pose proof (set_ready_bit_inv slot ready p (ha_inv _ Hp) Hs Hm) as Hi. unfold set_ready_bit in *. case_match; [done|].
  eapply agrees_changed; [exact Hp|exact Hi|done|done|done|apply Hp].
Qed.
Lemma agrees_apply_op slot op a c revision p : host_agrees p -> 0 <= slot < lr_max_slots (lp_room p) -> m_id (member_at (lp_room p) slot) <> 0 ->
  host_agrees (snd (apply_op slot op a c revision p)).
Proof.
  intros Hp Hs Hid. unfold apply_op. case_match; [done|]. case_match; [by apply agrees_ready|]. case_match; [done|].
  case_match; [by apply agrees_move|done].
Qed.
(** A change of the link's counters, not of its owner. *)
Lemma agrees_seated_link slot id f p : host_agrees p -> seated slot id p -> (forall l, ml_id (f l) = ml_id l) ->
  (link_true (link_at p slot) -> link_true (f (link_at p slot))) -> host_agrees (on_link slot f p).
Proof.
  intros Hp Hs Hf Ht. pose proof (ok_slots _ (hi_ok _ (ha_inv _ Hp))). apply agrees_link; [done| |destruct Hs; lia|done].
  eapply seated_inv_link; [apply Hp|done|done].
Qed.
Lemma agrees_op b id slot sequence revision p : host_agrees p -> seated slot id p -> host_agrees (handle_op b id slot sequence revision p).
Proof.
  intros Hp Hs. unfold handle_op. destruct (read_op b) as [[[op a] c]|]; [|done]. case_match; [done|]. case_match; [by apply agrees_state|].
  assert (host_agrees (on_link slot (set_ml_sequence sequence) p)) as H1 by (by eapply agrees_seated_link).
  pose proof (seated_link slot id (set_ml_sequence sequence) p (ha_inv _ Hp) ltac:(done) Hs) as (R & _ & Em & _ & Hid).
  pose proof (agrees_apply_op slot op a c revision _ H1 R ltac:(by rewrite Em)) as H2.
  destruct (apply_op slot op a c revision (on_link slot (set_ml_sequence sequence) p)) as [st q]. cbn [snd] in H2.
  case_match; [by apply agrees_state|done].
Qed.
Lemma agrees_echo m text i p : host_agrees p -> host_agrees (echo_chat m text i p).
Proof.
  intros Hp. unfold echo_chat. case_match; [|done]. destruct (put_string _ _ _) as [bs|] eqn:E; [|done].
  apply agrees_send_packet; [done|]. intros r. apply put_string_some in E as (? & E & _ & ->). apply put_string_some in E as (? & E & _ & ->).
  apply number_some in E as (? & E & ->). rewrite packet_some in E. injection E as <-. rewrite <- !app_assoc. by rewrite roster_of_other.
Qed.
Lemma agrees_broadcast sender text p : host_agrees p -> host_agrees (snd (broadcast_chat sender text p)).
Proof.
  intros Hp. unfold broadcast_chat. case_match; [done|]. cbn [snd]. apply (for_upto_inv host_agrees); [by eapply agrees_same|].
  intros i q _. apply agrees_echo.
Qed.
Lemma agrees_ack type b id slot revision p : host_agrees p -> seated slot id p ->
  (type = op_START_ACK -> ackd (ml_address (link_at p slot)) id revision) -> host_agrees (handle_room_ack type b slot revision p).
Proof.
  intros Hp Hs Ha. unfold handle_room_ack. destruct b; [|done]. case_match; [|done].
  assert (host_agrees (on_link slot (set_ml_room_ack revision) p)) as H1 by (by eapply agrees_seated_link).
  cbn zeta. destruct (_ && _) eqn:E; [|done]. apply andb_prop in E as [E%Z.eqb_eq _].
  pose proof (seated_link slot id (set_ml_room_ack revision) p (ha_inv _ Hp) ltac:(done) Hs) as Hs'.
  eapply agrees_seated_link; [done|exact Hs'|done|]. destruct Hs as (R & _ & _ & Hl & _). pose proof (ok_slots _ (hi_ok _ (ha_inv _ Hp))).
  rewrite link_at_on, Z.eqb_refl by (lia || apply Hp). intros Ht Hn. split; [by apply Ht|]. intros _.
  change (ml_id (set_ml_start_ack ?v (set_ml_room_ack ?w ?l))) with (ml_id l). rewrite Hl. by apply Ha.
Qed.
Lemma agrees_member type b id slot sequence revision now p : host_agrees p -> seated slot id p ->
  (type = op_START_ACK -> ackd (ml_address (link_at p slot)) id revision) -> host_agrees (handle_member type b id slot sequence revision now p).
Proof.
  intros Hp Hs Ha. unfold handle_member. case_match; [by eapply agrees_ack|].
  case_match; [destruct b; [|done]; apply agrees_remove; [done|apply Hs..]|].
  case_match; [by apply agrees_op|]. case_match; [|case_match; [|done]].
  - unfold handle_chat_request. repeat (case_match; try done). apply agrees_broadcast. by eapply agrees_seated_link.
  - unfold handle_pong. destruct b; [|done]. case_match; [|done]. by eapply agrees_seated_link.
Qed.
Definition taken (id : Z) (source : sockaddr_in) (now : Z) (l : MemberLink) : MemberLink :=
  set_ml_rtt (-1) (set_ml_seen now (set_ml_address source (set_ml_id id l))).
Lemma seat_eq slot id name source now p :
  seat slot id name source now p = send_state slot 0 (configuration_changed (on_link slot (taken id source now) (on_room (put_member slot (MkMember id name)) p))).
Proof. reflexivity. Qed.
Lemma taken_true id source now l : ml_start_ack l = 0 -> known source id -> link_true (taken id source now l).
Proof. intros Ha Hk _. split; [done|]. intros Hn. by destruct Hn. Qed.
Lemma agrees_seat slot id name source now p : host_agrees p -> host_inv (seat slot id name source now p) -> 0 <= slot < 4 ->
  ml_id (link_at p slot) = 0 -> known source id -> host_agrees (seat slot id name source now p).
Proof.
  rewrite seat_eq. intros Hp Hi Hs Hfree Hk. apply agrees_state.
  assert (link_true (taken id source now (link_at p slot))) as Ht.
  { apply taken_true; [|done]. by destruct (hi_blank _ (ha_inv _ Hp) slot Hs Hfree). }
  eapply agrees_configuration; [exact Hp| |done|done|done|].
  - eapply host_inv_view; [|exact Hi]. apply sent_view, send_state_sent.
  - apply (links_true_wr (lp_links p) slot (taken id source now (link_at p slot))); [apply Hp|done|apply Hp|done].
Qed.

Lemma agrees_join b source id now p : host_agrees p -> in_u32 id -> known source id ->
  host_agrees (handle_join b source id (member_slot (lp_room p) id) now p).
Proof.
  intros Hp Hu Hk. pose proof (handle_join_inv b source id now p (ha_inv _ Hp) Hu) as Hi. unfold handle_join in *.
  destruct (read_join b) as [[[[[game version] password] name] supported]|]; [|done]. case_match; [done|]. cbn zeta in *.
  destruct ((_ =? 0) && ((0 <=? _) && _)) eqn:Own.
  { apply agrees_state. apply andb_prop in Own as [_ [Hs%Z.leb_le _]%andb_prop]. destruct (member_slot_spec _ _ Hs).
    pose proof (ok_slots _ (hi_ok _ (ha_inv _ Hp))). apply agrees_link; [done| |lia|done]. apply host_inv_link; [apply Hp|lia|done|done]. }
  destruct (nz _) eqn:En; [by apply agrees_simple|]. apply nz_zero in En. revert En. set (free := first_slot _ _) in *.
  destruct (free <? 0) eqn:Ef.
  { rewrite andb_true_r. match goal with |- (if ?x =? 0 then _ else _) = 0 -> _ => destruct (Z.eqb_spec x 0); done end. }
  intros _. apply Z.ltb_ge in Ef.
  pose proof (first_slot_some (lr_max_slots (lp_room p)) (fun i => m_id (member_at (lp_room p) i) =? 0)) as F. fold free in F.
  destruct F as [F|[F1 F2]]; [lia|]. pose proof (ok_slots _ (hi_ok _ (ha_inv _ Hp))). apply agrees_seat; [done|done|lia| |done].
  rewrite (hi_links _ (ha_inv _ Hp)) by lia. case_match; [done|by apply Z.eqb_eq].
Qed.
(** The datagram is a guest's, and its acknowledgement of a start is true. *)
Definition gram_true (g : sockaddr_in * list Z) : Prop := gram_ok g /\ forall h b, read_header (snd g) = Some (h, b) ->
  known (fst g) (rh_id h) /\ (rh_type h = op_START_ACK -> rh_epoch h = lp_id p0 -> ackd (fst g) (rh_id h) (rh_revision h)).
Lemma same_address_sym a b : same_address a b = same_address b a.
Proof. unfold same_address. by rewrite (Z.eqb_sym (s_addr a)), (Z.eqb_sym (sin_port a)). Qed.
Lemma agrees_datagram g p : host_agrees p -> gram_true g -> host_agrees (handle_datagram g p).
Proof.
  intros Hp [Hg Ht]. pose proof Hg as [Hb Hz]. unfold handle_datagram. destruct (read_header (snd g)) as [[h b]|] eqn:E; [|done].
  destruct (Ht h b eq_refl) as [Hk Ha]. pose proof (read_header_typed _ _ _ Hb E) as (_ & Hu & _). rewrite (hi_host _ (ha_inv _ Hp)).
  unfold handle_host. pose proof (agrees_clock p Hp) as H1. assert (lp_room (snd (clock p)) = lp_room p) as Er by done.
  destruct (clock p) as [now p1]. cbn [snd] in *. rewrite <- Er. clear Er Hp p. rename p1 into p. case_match; [by apply agrees_join|]. case_match.
  - unfold answer_retired. case_match; [|done].
    match goal with |- context [send_simple ?a ?o ?i ?s ?q] => pose proof (agrees_simple a o i s q H1 ltac:(done) ltac:(done)) as S end.
    eapply agrees_same; [exact S|..]; by destruct (send_simple _ _ _ _ _).
  - destruct (_ || _) eqn:G; [done|]. rewrite !orb_false_iff in G.
    destruct G as [[[E1%negb_false_iff%Z.eqb_eq E2%Z.ltb_ge] E3%Z.eqb_neq] E4%negb_false_iff].
    destruct (member_slot_spec _ _ E2) as [R M]. set (slot := member_slot (lp_room p) (rh_id h)) in *. pose proof (ok_slots _ (hi_ok _ (ha_inv _ H1))).
    assert (ml_id (link_at p slot) = m_id (member_at (lp_room p) slot)) as El.
    { rewrite (hi_links _ (ha_inv _ H1)) by lia. by destruct (Z.eqb_spec slot (lr_host_slot (lp_room p))). }
    assert (rh_id h <> 0) as Hn.
    { intros Z0. destruct (hi_blank _ (ha_inv _ H1) slot ltac:(lia) ltac:(congruence)) as [Ez _]. by rewrite Ez, Hz in E4. }
    assert (seated slot (rh_id h) p) as Hs by (split_and!; (done || lia || congruence)).
    apply agrees_member; [by eapply agrees_seated_link|by apply seated_link; [apply H1|..]|].
    intros Hty. rewrite link_at_on, Z.eqb_refl by (lia || apply H1). cbn. apply (ackd_addr (fst g)); [done|]. apply Ha; [done|].
    rewrite E1, (hi_epoch _ (ha_inv _ H1)). apply (ha_evolves _ H1).
Qed.
Lemma agrees_try_start now p : host_agrees p -> host_agrees (snd (try_start now p)).
Proof.
  intros Hp. pose proof (try_start_inv now p (ha_inv _ Hp)) as Hi. unfold try_start in *. case_match; [done|]. cbn zeta in *.
  destruct (ro_random _) as [session|]; [|by eapply agrees_same]. case_match; [by eapply agrees_same|]. cbn [snd] in *.
  set (q := on_room (set_lr_session_id (u32 session)) (counted p)) in *. destruct (changed_same q) as (C1 & C2 & C3).
  eapply (agrees_next p); [exact Hp|exact Hi|exact C1|exact C2| |].
  - intros i. change (link_at (set_lp_start_sent now (on_room (set_lr_starting 1) (changed q))) i) with (rd link_zero (lp_links (changed q)) i).
    rewrite C3. apply Hp.
  - pose proof (changed_revision q) as C. change (lr_revision (lp_room q)) with (lr_revision (lp_room p)) in C. exact C.
Qed.
Lemma agrees_refresh now i p : host_agrees p -> 0 <= i < 4 -> host_agrees (refresh_link now i p).
Proof.
  intros Hp Hi. unfold refresh_link. case_match; [|done]. pose proof (agrees_state i 0 p Hp) as H1. cbn zeta. case_match; [done|].
  apply agrees_simple; [|done|done]. apply agrees_link; [done| |done|done]. apply host_inv_link; [apply H1|done|done|done].
Qed.
Lemma agrees_pump_host now p : host_agrees p -> host_agrees (snd (pump_host now p)).
Proof.
  intros Hp. unfold pump_host. set (p1 := if nz _ then p else _).
  assert (host_agrees p1) as H1.
  { unfold p1. case_match; [done|]. apply (for_upto_inv (fun q => host_agrees q /\ lr_max_slots (lp_room q) = lr_max_slots (lp_room p))); [done|].
    intros i q Hi [Hq En]. destruct (drop_silent_inv _ now i q Hi (conj (ha_inv _ Hq) En)) as [_ E2]. split; [|done].
    unfold drop_silent. destruct (_ && _) eqn:E; [|done]. apply andb_prop in E as [E%nz_nonzero _].
    pose proof (ok_slots _ (hi_ok _ (ha_inv _ Hq))). apply agrees_remove; [done|lia|]. intros ->.
    rewrite (hi_links _ (ha_inv _ Hq)), Z.eqb_refl in E by lia. done. }
  pose proof (agrees_try_start now p1 H1) as H2. destruct (try_start now p1) as [ok p2]. cbn [snd] in H2. case_match; [done|].
  case_match; cbn [snd]; [by eapply agrees_same|]. unfold resend. case_match; [|done]. rewrite (hi_host _ (ha_inv _ H2)).
  pose proof (ok_slots _ (hi_ok _ (ha_inv _ H2))). eapply (agrees_same (for_upto (lr_max_slots (lp_room p2)) (refresh_link now) p2)); [|done|done].
  apply (for_upto_inv host_agrees); [done|]. intros i q Hi Hq. apply agrees_refresh; [done|lia].
Qed.
Lemma agrees_pump inbox p : host_agrees p -> Forall gram_true inbox -> host_agrees (snd (rnet_lan_room_pump inbox p)).
Proof.
  intros Hp Hf. unfold rnet_lan_room_pump. case_match; [done|]. pose proof (agrees_clock p Hp) as H1.
  destruct (clock p) as [t p1]. cbn [snd] in H1.
  assert (forall l q, host_agrees q -> Forall gram_true l -> host_agrees (fold_left (fun p g => handle_datagram g p) l q)) as K.
  { induction l as [|g l IH]; intros q Hq Hl; [done|]. apply Forall_cons in Hl as [Hg Hl]. cbn. apply IH; [by apply agrees_datagram|done]. }
  specialize (K (take 256 inbox) p1 H1 (Forall_take _ _ _ Hf)). set (p2 := fold_left _ _ _) in *. case_match; [done|].
  pose proof (agrees_clock p2 K) as H3. destruct (clock p2) as [now p3]. cbn [snd] in H3. rewrite (hi_host _ (ha_inv _ H3)). by apply agrees_pump_host.
Qed.
Definition host_call_true (c : RoomCall) : Prop := match c with DoPump inbox => Forall gram_true inbox | _ => call_ok c end.
Lemma agrees_call c p : host_agrees p -> host_call_true c -> host_agrees (room_call os c p).
Proof.
  intros Hp Hc. assert (call_ok c) as Hok. { destruct c; try done. eapply Forall_impl; [exact Hc|]. intros g. apply proj1. }
  pose proof (room_call_inv c p (ha_inv _ Hp) Hok) as Hi. destruct c; cbn [room_call] in *.
  - by apply agrees_pump.
  - unfold rnet_lan_room_set_ready in *. case_match; [done|]. rewrite (hi_host _ (ha_inv _ Hp)) in *. cbn [snd] in *.
    unfold set_ready_bit in *. case_match; [done|]. eapply agrees_changed; [exact Hp|exact Hi|done|done|done|apply Hp].
  - unfold rnet_lan_room_move. case_match; [done|]. rewrite (hi_host _ (ha_inv _ Hp)). by apply agrees_move.
  - unfold rnet_lan_room_kick. destruct (_ || _) eqn:E; [done|]. rewrite !orb_false_iff in E. destruct E as [[[[[_ E1] E2] E3] _] _].
    apply Z.eqb_neq in E3. apply agrees_remove; [done|lia|done].
  - unfold rnet_lan_room_set_caps in *. case_match; [done|]. destruct (copy_string _ mods) as [m|]; [|done]. cbn zeta in *.
    case_match; [done|]. case_match; [done|]. cbn [snd] in *. eapply agrees_configuration; [exact Hp|exact Hi|done|done|done|apply Hp].
  - unfold rnet_lan_room_start. case_match; [done|]. by eapply agrees_same.
  - unfold rnet_lan_room_send_chat. case_match; [done|]. destruct (copy_string _ _) as [[|c copy]|]; [done| |done].
    rewrite (hi_host _ (ha_inv _ Hp)). by apply agrees_broadcast.
  - unfold rnet_lan_room_take_chat. destruct (chat_queue_take _). by eapply agrees_same.
Qed.
End Host.

(** ** A guest *)

Section Guest.
Context {os : RoomOs} (p : RNetLanRoomPeer) (g0 : RNetLanRoomPeer).

(** What a guest has sent: its id, and no acknowledgement of a start beyond the
    roster it has. *)
Definition sent_true (g : RNetLanRoomPeer) (bs : list Z) : Prop := forall h b, read_header bs = Some (h, b) ->
  rh_id h = lp_id g /\ (rh_type h = op_START_ACK -> lp_joined g = true /\ rh_revision h <= lr_revision (lp_room g)).
Record guest_agrees (g : RNetLanRoomPeer) : Prop := {
  ga_guest : lp_host g = false;
  ga_id : in_u32 (lp_id g);
  ga_room : lp_joined g = true -> roster_ok p (lp_room g);
  ga_out : forall a bs, (a, bs) ∈ lp_out g -> sent_true g bs;
  ga_same : lp_id g = lp_id g0;
  ga_later : lp_joined g0 = true -> lp_joined g = true /\ lr_revision (lp_room g0) <= lr_revision (lp_room g)
}.
Definition gview (g : RNetLanRoomPeer) := (lp_host g, lp_id g, lp_joined g, lp_room g, lp_out g).
Lemma guest_view g g' : guest_agrees g -> gview g' = gview g -> guest_agrees g'.
Proof.
  intros [] E. unfold gview in E. injection E as E1 E2 E3 E4 E5. split; unfold sent_true in *; rewrite ?E1, ?E2, ?E3, ?E4, ?E5; done.
Qed.
Lemma guest_send a op epoch sequence revision status body g : guest_agrees g ->
  (u32 op = op_START_ACK -> lp_joined g = true /\ u32 revision <= lr_revision (lp_room g)) ->
  guest_agrees (snd (send_packet a (Some (enc_header op epoch (lp_id g) sequence revision status ++ body)) g)).
Proof.
  intros Hg Hs. cbn [send_packet]. unfold room_sendto. destruct (ro_sends _); [|by eapply guest_view]. cbn [snd].
  set (bs := seal_packet _). assert (sent_true g bs) as Ht.
  { intros h b. unfold bs. rewrite read_sealed. destruct (_ <=? _); [done|]. intros [= <- <-]. cbn. rewrite u32_id by apply Hg. done. }
  clearbody bs. destruct Hg. split; try done. intros a' bs' Hin. change (lp_out (counted (set_lp_out ?o g))) with o in Hin.
  apply elem_of_app in Hin as [Hin|Hin]; [by apply (ga_out0 a')|]. apply list_elem_of_singleton in Hin. by injection Hin as -> ->.
Qed.
Lemma guest_simple a op st g : guest_agrees g -> (u32 op = op_START_ACK -> lp_joined g = true) -> guest_agrees (send_simple a op (lp_id g) st g).
Proof.
  intros Hg Ho. unfold send_simple. rewrite packet_some. rewrite <- (app_nil_r (enc_header _ _ _ _ _ _)). apply guest_send; [done|].
  intros Hop. specialize (Ho Hop). split; [done|]. destruct (ga_room _ Hg Ho) as (_ & T & _). by rewrite u32_id.
Qed.
Lemma read_room_fields epoch revision b r b' : read_room epoch revision b = Some (r, b') -> lr_epoch r = epoch /\ lr_revision r = revision.
Proof.
  unfold read_room. intros H. repeat (apply bind_Some in H as ([? ?] & _ & H)). by injection H as <- _.
Qed.
(** The guest takes over a later roster. *)
Lemma guest_takes next g q : guest_agrees g -> roster_ok p next -> (lp_joined g = true -> lr_revision (lp_room g) <= lr_revision next) ->
  lp_host q = lp_host g -> lp_id q = lp_id g -> lp_out q = lp_out g -> lp_joined q = true -> lp_room q = next -> guest_agrees q.
Proof.
  intros [] Hn Hl E1 E2 E3 E4 <-. split; rewrite ?E1, ?E2; try done.
  - intros a bs. rewrite E3. intros Hin h b Hh. destruct (ga_out0 a bs Hin h b Hh) as [Hid Hs]. split; [congruence|]. intros Ht.
    destruct (Hs Ht) as [Hj Hr]. specialize (Hl Hj). split; [done|lia].
  - intros Hj. destruct (ga_later0 Hj) as [Hj' Hr]. specialize (Hl Hj'). split; [done|lia].
Qed.
Lemma guest_adopt type next sequence g : guest_agrees g -> roster_ok p next ->
  (lp_joined g = true -> lr_revision (lp_room g) <= lr_revision next) -> guest_agrees (adopt_roster type next sequence g).
Proof.
  intros Hg Hn Hl. unfold adopt_roster. set (start := (type =? op_START) && _). clearbody start.
  set (g1 := if start && _ then _ else g). assert (gview g1 = gview g) as E1 by (unfold g1; by case_match).
  cbn zeta. set (g2 := if nz (lr_starting next) then g1 else _). assert (gview g2 = gview g) as E2 by (rewrite <- E1; unfold g2; by case_match).
  clearbody g1 g2. destruct (clock _) as [now g3] eqn:E3.
  assert (g3 = counted (set_lp_status 0 (set_lp_joined true (set_lp_room next g2)))) as -> by (by injection E3 as _ <-). clear E3.
  assert (guest_agrees (counted (set_lp_status 0 (set_lp_joined true (set_lp_room next g2))))) as H4.
  { unfold gview in E2. injection E2 as A1 A2 A3 A4 A5. by eapply guest_takes. }
  set (g4 := if lp_sequence _ <=? sequence then _ else _).
  assert (guest_agrees g4) as H5. { unfold g4. case_match; by eapply guest_view. }
  assert (lp_joined g4 = true) as Hj by (unfold g4; by case_match). clearbody g4.
  destruct start; [|apply guest_simple; [done|done]]. case_match; [by apply guest_simple|].
  apply (guest_simple _ op_START_ACK 0 (set_lp_start_seen (lp_last_host g4) g4)); [by eapply guest_view|done].
Qed.
Lemma guest_datagram gr g : guest_agrees g -> (forall r, roster_of (snd gr) = Some r -> roster_ok p r) -> guest_agrees (handle_datagram gr g).
Proof.
  intros Hg Hr. unfold handle_datagram. destruct (read_header (snd gr)) as [[h b]|] eqn:E; [|done]. rewrite (ga_guest _ Hg).
  unfold handle_guest. case_match; [done|]. case_match; [by eapply guest_view|]. case_match; [done|]. case_match; [by eapply guest_view|].
  case_match; [by apply guest_simple|]. case_match; [unfold handle_echo; repeat (case_match; try done); by eapply guest_view|].
  case_match eqn:Et; [done|]. unfold handle_roster. destruct (read_roster _ _ _ g) as [next|] eqn:En; [|done].
  assert (roster_ok p next) as Hn.
  { apply Hr. unfold roster_of. rewrite E. unfold read_roster in En. destruct (read_room _ _ b) as [[r [|]]|]; try done. case_match; [done|].
    injection En as <-. destruct (rh_type h =? op_ROOM); [done|]. by destruct (rh_type h =? op_START). }
  assert (lr_revision next = rh_revision h) as Ev.
  { unfold read_roster in En. destruct (read_room _ _ b) as [[r [|]]|] eqn:Er; try done. case_match; [done|]. injection En as <-.
    by apply read_room_fields in Er as [_ ->]. }
  destruct (lp_joined g && (rh_revision h <? _)) eqn:El; [done|]. case_match; [by eapply guest_view|]. case_match; [by eapply guest_view|].
  apply guest_adopt; [done|done|]. intros Hj. rewrite Hj in El. apply Z.ltb_ge in El. lia.
Qed.
Lemma guest_send_own g : guest_agrees g -> guest_agrees (send_guest g).
Proof.
  intros Hg. unfold send_guest. destruct (lp_joined g) eqn:J; cbn [negb].
  - destruct (nz (lp_pending_op g)).
    + unfold op_packet. destruct (number _ _) as [bs|] eqn:E; [|done]. do 3 (apply number_some in E as (? & E & ->)).
      rewrite packet_some in E. injection E as <-. rewrite <- !app_assoc. by apply guest_send.
    + rewrite packet_some. rewrite <- (app_nil_r (enc_header _ _ _ _ _ _)). apply guest_send; [done|]. intros _. split; [done|].
      destruct (ga_room _ Hg J) as (_ & T & _). by rewrite u32_id.
  - unfold join_packet. destruct (number _ _) as [bs|] eqn:E; [|done]. apply number_some in E as (? & E & ->).
    do 4 (apply put_string_some in E as (? & E & _ & ->)). rewrite packet_some in E. injection E as <-. rewrite <- !app_assoc. by apply guest_send.
Qed.
Lemma guest_pump inbox g : guest_agrees g -> Forall (fun gr => forall r, roster_of (snd gr) = Some r -> roster_ok p r) inbox ->
  guest_agrees (snd (rnet_lan_room_pump inbox g)).
Proof.
  intros Hg Hf. unfold rnet_lan_room_pump. case_match; [done|]. assert (guest_agrees (snd (clock g))) as H1 by (by eapply guest_view).
  destruct (clock g) as [t g1]. cbn [snd] in H1.
  assert (forall l q, guest_agrees q -> Forall (fun gr => forall r, roster_of (snd gr) = Some r -> roster_ok p r) l ->
    guest_agrees (fold_left (fun p g => handle_datagram g p) l q)) as K.
  { induction l as [|x l IH]; intros q Hq Hl; [done|]. apply Forall_cons in Hl as [Hx Hl]. cbn. apply IH; [by apply guest_datagram|done]. }
  specialize (K (take 256 inbox) g1 H1 (Forall_take _ _ _ Hf)). set (g2 := fold_left _ _ _) in *. case_match; [done|].
  assert (guest_agrees (snd (clock g2))) as H3 by (by eapply guest_view). destruct (clock g2) as [now g3]. cbn [snd] in H3. rewrite (ga_guest _ H3).
  unfold pump_guest. case_match; [by eapply guest_view|]. cbn [snd]. unfold resend. case_match; [|done]. rewrite (ga_guest _ H3).
  eapply guest_view; [by apply guest_send_own|done].
Qed.
Definition guest_call_true (c : RoomCall) : Prop :=
  match c with DoPump inbox => Forall (fun gr => forall r, roster_of (snd gr) = Some r -> roster_ok p r) inbox | _ => True end.
Lemma guest_call c g : guest_agrees g -> guest_call_true c -> guest_agrees (room_call os c g).
Proof.
  intros Hg Hc. assert (forall op a b, guest_agrees (snd (request op a b g))) as Rq.
  { intros op a b. unfold request. repeat (case_match; try done). by eapply guest_view. }
  destruct c; cbn [room_call].
  - by apply guest_pump.
  - unfold rnet_lan_room_set_ready. case_match; [done|]. by rewrite (ga_guest _ Hg).
  - unfold rnet_lan_room_move. case_match; [done|]. rewrite (ga_guest _ Hg). repeat (case_match; try done).
  - unfold rnet_lan_room_kick. by rewrite (ga_guest _ Hg).
  - unfold rnet_lan_room_set_caps. by rewrite (ga_guest _ Hg).
  - unfold rnet_lan_room_start. by rewrite (ga_guest _ Hg).
  - unfold rnet_lan_room_send_chat. case_match; [done|]. destruct (copy_string _ _) as [[|c copy]|]; [done| |done]. rewrite (ga_guest _ Hg).
    case_match; [done|]. cbn zeta. destruct (put_string _ _ _) as [bs|] eqn:E; [|by eapply guest_view].
    apply put_string_some in E as (? & E & _ & ->). rewrite packet_some in E. injection E as <-.
    apply (guest_send _ op_CHAT_REQUEST _ _ _ _ _ (set_lp_chat_sequence (lp_chat_sequence g + 1) g)); [by eapply guest_view|done].
  - unfold rnet_lan_room_take_chat. destruct (chat_queue_take _). by eapply guest_view.
Qed.
End Guest.

(** ** The room *)

Record RoomNet := MkNet { net_host : RNetLanRoomPeer; net_guests : list (sockaddr_in * RNetLanRoomPeer) }.
(** A datagram a guest sent, from the guest's address, or one that is damaged so
    that its checksum shows it. *)
Definition from_guest (gs : list (sockaddr_in * RNetLanRoomPeer)) (d : sockaddr_in * list Z) : Prop :=
  read_header (snd d) = None \/ exists g to, (fst d, g) ∈ gs /\ (to, snd d) ∈ lp_out g.
Definition from_host (h : RNetLanRoomPeer) (d : sockaddr_in * list Z) : Prop :=
  read_header (snd d) = None \/ exists to, (to, snd d) ∈ lp_out h.
Inductive net_step : RoomNet -> RoomNet -> Prop :=
  | net_host_step os c h gs : call_ok c -> (forall inbox, c = DoPump inbox -> Forall (from_guest gs) inbox) ->
      net_step (MkNet h gs) (MkNet (room_call os c h) gs)
  | net_guest_step os c h gs k a g : gs !! k = Some (a, g) -> (forall inbox, c = DoPump inbox -> Forall (from_host h) inbox) ->
      net_step (MkNet h gs) (MkNet h (<[k := (a, room_call os c g)]> gs)).

Definition net_known (gs : list (sockaddr_in * RNetLanRoomPeer)) (a : sockaddr_in) (id : Z) : Prop :=
  exists a' g, (a', g) ∈ gs /\ same_address a' a = true /\ lp_id g = id.
Definition net_ackd (gs : list (sockaddr_in * RNetLanRoomPeer)) (a : sockaddr_in) (id v : Z) : Prop :=
  exists a' g, (a', g) ∈ gs /\ same_address a' a = true /\ lp_id g = id /\ lp_joined g = true /\ v <= lr_revision (lp_room g).
Definition net_inv (s : RoomNet) : Prop :=
  host_inv (net_host s) /\ (worn_out (net_host s) \/
    (host_agrees (net_host s) (net_known (net_guests s)) (net_ackd (net_guests s)) (net_host s) /\
     forall a g, (a, g) ∈ net_guests s -> guest_agrees (net_host s) g g)).

Lemma same_address_refl a : same_address a a = true.
Proof. unfold same_address. by rewrite !Z.eqb_refl. Qed.
Lemma same_address_trans a b c : same_address a b = true -> same_address b c = true -> same_address a c = true.
Proof. unfold same_address. rewrite !andb_true_iff, !Z.eqb_eq. intros [] []. split; congruence. Qed.
Lemma net_ackd_addr gs a b id v : same_address a b = true -> net_ackd gs a id v -> net_ackd gs b id v.
Proof. intros H (a' & g & ? & ? & ? & ? & ?). exists a', g. split_and!; try done. by eapply same_address_trans. Qed.
Lemma worn_out_stays os c h : host_inv h -> worn_out h -> call_ok c -> worn_out (room_call os c h).
Proof.
  intros Hh W Hc. assert (host_agrees h (fun _ _ => True) (fun _ _ _ => True) (room_call os c h)) as [Hi _ _ (_ & L & _)].
  { apply agrees_call; [done| |].
    - split; [done|by left|done|apply evolves_refl].
    - destruct c; try done. eapply Forall_impl; [exact Hc|]. by split. }
  assert (in_u32 (lr_revision (lp_room (room_call os c h)))) by apply Hi. unfold worn_out in *. ranges. lia.
Qed.
Lemma guests_follow h q g : guest_agrees h g g -> evolves h q -> host_inv q -> ~ worn_out q -> guest_agrees q g g.
Proof.
  intros [] He Hq Hw. split; try done. intros Hj. eapply roster_ok_evolves; [done|apply Hq|done|auto].
Qed.
Lemma net_host_inv os c h gs : call_ok c -> (forall inbox, c = DoPump inbox -> Forall (from_guest gs) inbox) -> net_inv (MkNet h gs) ->
  net_inv (MkNet (room_call os c h) gs).
Proof.
  intros Hc Hf [Hi Hn]. cbn in *. pose proof (room_call_inv c h Hi Hc) as Hi'. split; [done|]. cbn.
  destruct Hn as [W|[Ha Hg]]; [left; by apply worn_out_stays|].
  assert (host_agrees h (net_known gs) (net_ackd gs) (room_call os c h)) as Ha'.
  { apply agrees_call; [apply net_ackd_addr|done|]. destruct c; try done. specialize (Hf inbox eq_refl). cbn in *.
    apply Forall_forall. intros d Hd. rewrite Forall_forall in Hc, Hf. split; [by apply Hc|]. intros hd b Hh.
    destruct (Hf d Hd) as [Hx|(g & to & Hin & Ho)]; [by rewrite Hx in Hh|]. destruct (ga_out _ _ _ (Hg _ _ Hin) _ _ Ho _ _ Hh) as [Eid Hs].
    split; [exists (fst d), g; split_and!; [done|apply same_address_refl|done]|]. intros Ht _. destruct (Hs Ht) as [Hj Hr].
    exists (fst d), g. split_and!; try done. apply same_address_refl. }
  destruct (decide (worn_out (room_call os c h))) as [|Hw]; [by left|]. right. split.
  - destruct Ha'. split; [done|done|done|apply evolves_refl].
  - intros a g Hin. eapply guests_follow; [by eapply Hg|apply Ha'|done|done].
Qed.
Lemma net_guest_inv os c h gs k a g : gs !! k = Some (a, g) -> (forall inbox, c = DoPump inbox -> Forall (from_host h) inbox) ->
  net_inv (MkNet h gs) -> net_inv (MkNet h (<[k := (a, room_call os c g)]> gs)).
Proof.
  intros Hk Hf [Hi Hn]. split; [done|]. cbn in *. destruct Hn as [W|[Ha Hg]]; [by left|].
  destruct (ha_out _ _ _ _ Ha) as [W|Ho]; [by left|]. right.
  assert (guest_agrees h g (room_call os c g)) as Hg'.
  { apply guest_call; [by eapply Hg, list_elem_of_lookup_2|]. destruct c; try done. specialize (Hf inbox eq_refl). cbn.
    eapply Forall_impl; [exact Hf|]. intros d [Hx|(to & Hin)] r Hr; [unfold roster_of in Hr; by rewrite Hx in Hr|by eapply Ho]. }
  set (g' := room_call os c g) in *. clearbody g'.
  assert (forall a0 g1, (a0, g1) ∈ gs -> exists g2, (a0, g2) ∈ <[k := (a, g')]> gs /\ lp_id g2 = lp_id g1 /\
    (lp_joined g1 = true -> lp_joined g2 = true /\ lr_revision (lp_room g1) <= lr_revision (lp_room g2))) as Hm.
  { intros a0 g1 [j Hj]%list_elem_of_lookup. destruct (decide (k = j)) as [<-|Hne].
    - rewrite Hk in Hj. injection Hj as <- <-. exists g'. split_and!; [|apply Hg'|apply Hg'].
      apply (list_elem_of_lookup_2 _ k), list_lookup_insert_eq. by eapply lookup_lt_Some.
    - exists g1. split_and!; [|done|intros; split; [done|lia]]. apply (list_elem_of_lookup_2 _ j). by rewrite list_lookup_insert_ne. }
  split.
  - destruct Ha as [A1 A2 A3 A4]. split; [done|done| |done]. intros i Hr Hid. destruct (A3 i Hr Hid) as [(a1 & g1 & Hin & Hs & He) K2].
    destruct (Hm _ _ Hin) as (g2 & Hin2 & Eid & _). split; [exists a1, g2; split_and!; [done|done|congruence]|].
    intros Hack. destruct (K2 Hack) as (a3 & g3 & Hin3 & Hs3 & He3 & Hj3 & Hr3). destruct (Hm _ _ Hin3) as (g4 & Hin4 & Eid4 & Hl4).
    destruct (Hl4 Hj3) as [Hj4 Hr4]. exists a3, g4. split_and!; [done|done|congruence|done|lia].
  - intros a0 g1 [j Hj]%list_elem_of_lookup. apply list_lookup_insert_Some in Hj as [(_ & [= <- <-] & _)|[_ Hj]].
    + destruct Hg'. split; try done.
    + by eapply Hg, list_elem_of_lookup_2.
Qed.
Lemma net_step_inv s t : net_step s t -> net_inv s -> net_inv t.
Proof. intros [] Hs; [by apply net_host_inv|by apply net_guest_inv]. Qed.

(** The room as its host and its guests open it. *)
Definition opened (config : RNetLanRoom) (s : RoomNet) : Prop :=
  (exists (os : RoomOs) bind password, rnet_lan_room_host_open bind config password = inr (net_host s)) /\
  Forall (fun '(a, g) => exists (os : RoomOs) bind host game version password name slots,
    rnet_lan_room_guest_open bind host game version password name slots = inr g) (net_guests s).
Lemma allocate_fresh {os : RoomOs} bind p : allocate bind = inr p ->
  lp_host p = false /\ in_u32 (lp_id p) /\ lp_joined p = false /\ lp_out p = [].
Proof.
  unfold allocate. destruct (resolve_address bind); [|done]. case_match; [done|]. destruct (clock peer_zero) as [t q]. case_match; [done|].
  destruct (ro_random _) as [x|]; [|done]. case_match; [done|]. intros [= <-]. split_and!; try done. apply u32_range.
Qed.
Lemma opened_inv config s : room_typed config -> opened config s -> net_inv s.
Proof.
  intros T [(os & bind & password & Hh) Hg]. pose proof (host_open_inv _ _ _ _ T Hh) as Hi. split; [done|]. right.
  assert (lp_out (net_host s) = [] /\ forall i, ml_id (link_at (net_host s) i) = 0) as [Ho Hl].
  { unfold rnet_lan_room_host_open in Hh. case_match; [done|]. destruct (allocate bind) as [|q] eqn:Ea; [done|].
    apply allocate_fresh in Ea as (_ & _ & _ & Eo). repeat (case_match; try done). injection Hh as <-. split; [done|]. intros i. unfold link_at.
    change (lp_links _) with (replicate 4 (set_ml_rtt (-1) link_zero)). unfold rd.
    destruct (nth_in_or_default (Z.to_nat i) (replicate 4 (set_ml_rtt (-1) link_zero)) link_zero) as [Hin|E0]; [|by rewrite E0].
    by apply list_elem_of_In, elem_of_replicate in Hin as [-> _]. }
  split.
  - split; [done| | |apply evolves_refl].
    + right. intros a bs r. rewrite Ho. by intros ?%elem_of_nil.
    + intros i _ Hn. by rewrite Hl in Hn.
  - intros a g Hin. rewrite Forall_forall in Hg. destruct (Hg _ Hin) as (os' & b & ho & ga & ve & pa & na & sl & Hgo).
    unfold rnet_lan_room_guest_open in Hgo. case_match; [done|]. destruct (allocate b) as [|q] eqn:Ea; [done|].
    apply allocate_fresh in Ea as (E1 & E2 & E3 & E4). repeat (case_match; try done). injection Hgo as <-.
    split; try done.
    + intros Hj. change (lp_joined q = true) in Hj. congruence.
    + intros a' bs Hin'. change ((a', bs) ∈ lp_out q) in Hin'. rewrite E4 in Hin'. by apply elem_of_nil in Hin'.
Qed.

(** C14. All launch with one roster: in a room of a host and any number of guests,
    over a network that may lose, repeat, reorder, delay and damage datagrams,
    through any sequence of calls of all of them - when the host is ready to
    launch, every other seat of its roster belongs to a guest that holds exactly
    the host's roster: the same members in the same seats, the same session, the
    same options. (The revision counter has not run out.) *)
Theorem launch_on_one_roster config s h gs now : room_typed config -> opened config s -> rtc net_step s (MkNet h gs) ->
  lr_revision (lp_room h) <> UINT32_MAX -> rnet_lan_room_launch_ready now h = true ->
  forall i, 0 <= i < lr_max_slots (lp_room h) -> i <> lr_host_slot (lp_room h) -> m_id (member_at (lp_room h) i) <> 0 ->
  exists a g, (a, g) ∈ gs /\ lp_id g = m_id (member_at (lp_room h) i) /\ lp_joined g = true /\ lp_room g = lp_room h.
Proof.
  intros T Ho Hr Hw Hl i Hi Hne Hid. assert (net_inv (MkNet h gs)) as [Hh [W|[Ha Hg]]]; [|done|].
  { pose proof (opened_inv _ _ T Ho) as H0. clear - Hr H0. induction Hr as [|s t u Hst Htu IH]; [done|]. apply IH. by eapply net_step_inv. }
  cbn in *. pose proof (ok_slots _ (hi_ok _ Hh)). unfold rnet_lan_room_launch_ready in Hl. case_match; [done|]. rewrite (hi_host _ Hh) in Hl. cbn in Hl.
  rewrite all_upto_spec in Hl. specialize (Hl i Hi).
  assert (ml_id (link_at h i) = m_id (member_at (lp_room h) i)) as El.
  { rewrite (hi_links _ Hh) by lia. by destruct (Z.eqb_spec i (lr_host_slot (lp_room h))). }
  rewrite El, (proj2 (nz_nonzero _) Hid) in Hl. cbn in Hl. apply negb_true_iff, negb_false_iff, Z.eqb_eq in Hl.
  destruct (ha_links _ _ _ _ Ha i ltac:(lia) ltac:(congruence)) as [_ K]. rewrite Hl, El in K.
  destruct (K (ok_revision _ (hi_ok _ Hh))) as (a & g & Hin & _ & Eid & Hj & Hrev). exists a, g. split_and!; try done.
  destruct (ga_room _ _ _ (Hg _ _ Hin) Hj) as (_ & _ & _ & Hle & Heq). apply Heq. lia.
Qed.

(** A room of two, from opening to launch, every datagram of the past delivered
    again at each pump. *)
Definition demo_peer (r : Z + RNetLanRoomPeer) : RNetLanRoomPeer := match r with inr p => p | inl _ => peer_zero end.
Definition demo_guest_addr : sockaddr_in := mkAddr AF_INET 9 9.
Definition demo_guest_os : RoomOs := Build_RoomOs (fun n => Z.of_nat n * 10) (fun n => Some (500 + Z.of_nat n)) (fun _ => true) true true (fun _ => true) true (fun _ => Some 7).
Definition demo_open : RoomNet :=
  MkNet (demo_peer (@rnet_lan_room_host_open demo_host_os (B "0.0.0.0:7777") demo_room []))
    [(demo_guest_addr, demo_peer (@rnet_lan_room_guest_open demo_guest_os (B "0.0.0.0:0") (B "host:7777") (B "game") (B "1.0") [] (B "bob") 4))].
Definition first_guest (s : RoomNet) : RNetLanRoomPeer := match net_guests s with (_, g) :: _ => g | [] => peer_zero end.
Definition to_host (s : RoomNet) : list (sockaddr_in * list Z) := (fun d => (demo_guest_addr, snd d)) <$> lp_out (first_guest s).
Definition to_guest (s : RoomNet) : list (sockaddr_in * list Z) := (fun d => (lp_host_address (first_guest s), snd d)) <$> lp_out (net_host s).
Inductive DemoMove := HostPump | HostDoes (c : RoomCall) | GuestPump | GuestDoes (c : RoomCall).
Definition demo_move (s : RoomNet) (m : DemoMove) : RoomNet :=
  match m with
  | HostPump => MkNet (room_call demo_host_os (DoPump (to_host s)) (net_host s)) (net_guests s)
  | HostDoes c => MkNet (room_call demo_host_os c (net_host s)) (net_guests s)
  | GuestPump => MkNet (net_host s) (<[0%nat := (demo_guest_addr, room_call demo_guest_os (DoPump (to_guest s)) (first_guest s))]> (net_guests s))
  | GuestDoes c => MkNet (net_host s) (<[0%nat := (demo_guest_addr, room_call demo_guest_os c (first_guest s))]> (net_guests s))
  end.
Definition demo_state (s : RoomNet) : Prop := exists g, net_guests s = [(demo_guest_addr, g)].
Definition move_ok (s : RoomNet) (m : DemoMove) : bool :=
  match m with
  | HostPump => forallb (fun d => forallb (fun b => (0 <=? b) && (b <? 256)) (snd d)) (to_host s)
  | HostDoes (DoPump _) | HostDoes (DoCaps _ _ _ _ _) | GuestDoes (DoPump _) => false
  | _ => true
  end.
Fixpoint moves_ok (s : RoomNet) (ms : list DemoMove) : bool :=
  match ms with [] => true | m :: ms => move_ok s m && moves_ok (demo_move s m) ms end.
Lemma demo_moves ms : forall s, demo_state s -> moves_ok s ms = true -> rtc net_step s (fold_left demo_move ms s).
Proof.
  induction ms as [|m ms IH]; intros s [g Hs] H; [done|]. cbn in H. apply andb_prop in H as [Hm H]. cbn [fold_left].
  assert (first_guest s = g) as Eg by (unfold first_guest; by rewrite Hs). assert (net_guests s !! 0%nat = Some (demo_guest_addr, first_guest s)) as Hk by (by rewrite Hs, Eg).
  apply (rtc_l _ _ (demo_move s m)); [|apply IH; [destruct m; cbn; rewrite Hs; by eexists|done]].
  destruct s as [h gs]. cbn [net_host net_guests] in *. destruct m as [|c| |c]; cbn [demo_move net_host net_guests].
  - apply net_host_step.
    + change (Forall gram_ok (to_host (MkNet h gs))). change (move_ok (MkNet h gs) HostPump) with (forallb (fun d => forallb (fun b => (0 <=? b) && (b <? 256)) (snd d)) (to_host (MkNet h gs))) in Hm. apply Forall_forall. intros d Hd. rewrite forallb_forall in Hm.
      split; [|by apply list_elem_of_fmap in Hd as (? & -> & _)]. specialize (Hm d (proj1 (list_elem_of_In _ _) Hd)). rewrite forallb_forall in Hm.
      apply Forall_forall. intros b Hb. specialize (Hm b (proj1 (list_elem_of_In _ _) Hb)). ranges. lia.
    + intros inbox [= <-]. apply Forall_forall. intros d Hd. apply list_elem_of_fmap in Hd as ([to bs] & -> & Hd). right.
      exists (first_guest (MkNet h gs)), to. cbn. split; [|done]. by apply (list_elem_of_lookup_2 _ 0).
  - apply net_host_step; [by destruct c|]. intros inbox ->. done.
  - eapply net_guest_step; [exact Hk|]. intros inbox [= <-]. apply Forall_forall. intros d Hd. apply list_elem_of_fmap in Hd as ([to bs] & -> & Hd). right. by exists to.
  - eapply net_guest_step; [exact Hk|]. intros inbox ->. done.
Qed.
Definition demo_play : list DemoMove :=
  [GuestPump; HostPump; GuestPump; GuestDoes (DoReady true); GuestPump; HostPump; HostDoes (DoReady true); HostPump; GuestPump;
   HostDoes DoStart; HostPump; GuestPump; HostPump].
Definition demo_end : RoomNet := fold_left demo_move demo_play demo_open.
Lemma launch_on_one_roster_witness :
  rnet_lan_room_launch_ready 0 (net_host demo_end) = true /\ m_id (member_at (lp_room (net_host demo_end)) 1) <> 0 /\
  exists a g, (a, g) ∈ net_guests demo_end /\ lp_id g = m_id (member_at (lp_room (net_host demo_end)) 1) /\ lp_joined g = true /\
    lp_room g = lp_room (net_host demo_end).
Proof.
  split; [by vm_compute|]. split; [by vm_compute|].
  apply (launch_on_one_roster demo_room demo_open (net_host demo_end) (net_guests demo_end) 0).
  - repeat split; try done; repeat constructor; done.
  - split; [by exists demo_host_os, (B "0.0.0.0:7777"), []|]. constructor; [|constructor].
    by exists demo_guest_os, (B "0.0.0.0:0"), (B "host:7777"), (B "game"), (B "1.0"), [], (B "bob"), 4.
  - replace (MkNet (net_host demo_end) (net_guests demo_end)) with demo_end by (by destruct demo_end). apply demo_moves; [by eexists|by vm_compute].
  - by vm_compute.
  - by vm_compute.
  - by vm_compute.
  - by vm_compute.
  - by vm_compute.
Defined.
